(* ===== verification/_CoqProject ===== *)
-Q . S2P
Prelude.v
IntEncode.v
CString.v
BsonTypes.v
BsonIter.v
BsonIterSafe.v
BsonSpec.v
BsonIterSpec.v
BsonIterFind.v
Utf8.v
Text.v
CommonString.v
BsonView.v
BsonT.v
BsonTSpec.v
BsonKeys.v
BsonAppend.v
BsonAppendSpec.v
BsonBuild.v
BsonDocSpec.v
BsonReader.v
BsonReaderSpec.v
BsonWriter.v
Validate.v
ValidateSpec.v
BigEndian.v
Md5.v
Md5Spec.v
Decimal128.v
Decimal128Spec.v
Decimal128Read.v
Decimal128Safe.v
KmsRequestStr.v
KmipTags.v
Kmip.v
KmipSpec.v
KmipReadSpec.v
KmipWriteSpec.v
Hex.v
BsonOid.v
BsonOidSpec.v
BsonValue.v
Base64.v
Base64Spec.v
CodecTheorems.v
Calendar.v
StringFormat.v
DoubleText.v
BsonVisit.v
Json.v
JsonSpec.v
JsonGrammar.v
JsonDoc.v
JsonSafe.v
KmipDump.v
KmipDumpSpec.v
KmipDumpTotal.v
PrintInvalidArrays.v
PrintInvalidArraysMain.v
ReadTheorems.v
ToolTheorems.v
WriteTheorems.v
SeriesTheorems.v
KmipTheorems.v
JsonTheorems.v
Timegm.v
TimegmSpec.v
Iso8601.v
DateTheorems.v
Ckdint.v
MlibStr.v
IntParse.v
MlibMstr.v
MlibTheorems.v
BsonVector.v
BsonVectorSpec.v
BsonVectorArrays.v
VectorTheorems.v
