(* ===== verification/Prelude.v ===== *)
(** * Verification of print-invalid-arrays, the BSON library under it, and kmip_dump

    [src/investigations/print-invalid-arrays] is a command line tool that reads
    BSON documents from a file and reports, for every element, its dotted path
    and type, and for every array whether its keys are 0, 1, 2, ... It is
    built with the bundled mongo-c-driver 2.2.1 with the network client switched
    off, so the program is the tool's one source file and [libbson] with the
    [common] helpers it uses. [src/tools/kmip_dump] is a command line tool that
    prints a KMIP message, given as hexadecimal digits, as XML. Below, B stands
    for [print-invalid-arrays/mongo-c-driver-2.2.1/src/libbson/src/bson], C for
    [.../src/common/src] and K for [tools/kmip_dump].

    ** Parts

    - [CString], [Text]: the C library functions the code calls ([strcmp],
      [strncmp], [strchr], [strstr], [memcmp], [realloc], the decimal formats of
      [printf], [vsnprintf]) and [bson_error_t] (B/error.c).
    - [IntEncode]: little-endian readers and writers (C/mlib/intencode.h);
      [BigEndian]: the other order.
    - [Ckdint]: comparison and arithmetic across integer types, with a
      check for overflow (C/mlib/intutil.h, cmp.h, ckdint.h), against unbounded
      integers. [MlibStr]: views of strings, and [MlibMstr]:
      strings that own their memory, in the store that [realloc], a
      parameter, gives (C/mlib/str.h); a view into the string that is changed is
      the place it starts from. [IntParse]: integers from text
      (C/mlib/intencode.h), against [int_value].
    - [BsonTypes]: the enumerations and size limits (B/bson-types.h).
    - [BsonIter]: the iterator [bson_iter_t] (B/bson-iter.c, B/bson-iter.h).
      [_bson_iter_next_internal] is the step; [next_string], [next_binary], ...
      are the cases of its [switch]. [BsonIterSafe] is memory safety and
      progress on arbitrary bytes; [BsonIterSpec] and [BsonIterFind] are the
      functional correctness over encoded documents.
    - [BsonSpec]: what the rest is measured against: documents as trees
      ([doc], [bval]), their encoding [enc_doc] and well-formedness.
    - [Utf8]: validation, decoding, encoding and truncation of UTF-8
      (B/bson-utf8.c, C/common-utf8-private.h) against [utf8_text].
    - [CommonString]: text buffers with a limit (C/common-string.c).
    - [BsonView]: the queries of B/bson.c that only read a document.
    - [Validate], [ValidateSpec]: the validator (B/validate.c) and the
      declarative [valid_doc] it decides.
    - [BsonT], [BsonTSpec]: the mutable document [bson_t], inline or in a heap
      cell, its growth, and the byte-list appender all appenders go through
      (B/bson.c, B/bson_t-private.h).
    - [BsonKeys]: array keys (B/bson-keys.c).
    - [BsonAppend], [BsonAppendSpec]: one function per value type, open child
      documents, copying from iterators and boxed values, and the array builder.
    - [BsonBuild], [BsonDocSpec]: trees written in place through open children,
      and whole-document operations (copies, concatenation, exclusion, stealing).
    - [BsonReader], [BsonReaderSpec]: the reader of consecutive documents from
      memory or from read calls (B/bson-reader.c), against the stream of bytes
      the reads deliver ([stream_next]); the class [ReadsStream] is what a read
      function promises the reader: the bytes of a stream in pieces, and then its end
      or an error.
    - [BsonWriter]: the writer that puts documents one after the
      other in a growing buffer (B/bson-writer.c), against the bytes it keeps.
    - [BsonValue]: copies of boxed values (B/bson-value.c).
    - [BsonVector]: vectors of bits, small integers and floats in binaries of subtype 9
      (B/bson-vector.c, bson-vector.h, bson-vector-private.h), their views over any memory
      (the class [VectorMem]) and the conversions with arrays. [BsonVectorSpec] has vectors as lists ([vec]) and
      the views over them, for memories that keep [VectorMemLaws]; [BsonVectorArrays] the conversions.
      Floats are their bits ([double_of_float], [float_of_double]).
    - [BsonOid], [BsonOidSpec]: object identifiers and the contexts that make
      them (B/bson-oid.c, B/bson-context.c, C/common-oid.c), with the steps of
      threads that share a context ([oid_step]); the system's clock, process and
      host name are the parameter [host].
    - [Base64], [Base64Spec]: base 64 text (C/common-b64.c) against RFC 1521
      ([b64_text], [b64_decode]).
    - [Md5], [Md5Spec]: digests (C/common-md5.c) against RFC 1321.
    - [Decimal128]: text of decimal floating point numbers, both ways
      (B/bson-decimal128.c). [Decimal128Spec] has the numbers and their text and the
      printer over them; [Decimal128Read] reads back what is printed, and
      [Decimal128Safe] is the reader on any text.
    - [StringFormat]: the appends to a text buffer that format, with their
      specification ([tracks], [writes]): what has been appended is a text, or as
      much of it as the limit left.
    - [BsonVisit]: [bson_iter_visit_all] and its table of callbacks
      (B/bson-iter.c). [DoubleText]: the conversion ["%.20g"] of the C library.
    - [Json]: extended JSON, the output (C/common-json.c,
      C/common-json-private.h, [bson_as_json_with_opts] in B/bson.c).
      [JsonSpec] is the text of a tree and of each value, [JsonDoc] the conversion
      over encoded documents, [JsonSafe] the conversion of any bytes, and
      [JsonGrammar] the grammar of JSON and the texts as words of it.
    - [Timegm], [TimegmSpec]: the second of a broken-down time (B/bson-timegm.c), by
      the search the code does, against the days of [Calendar]. [Iso8601]: the
      parser of dates (B/bson-iso8601.c), against a reader of texts
      ([iso_spec]) and a grammar ([iso_date]).
    - [PrintInvalidArrays], [PrintInvalidArraysMain]: the tool: [visit], and
      [main] with its loop over the reader; the operating system's open, read
      and close are the parameter [os_calls], and [OpenFile] is what they
      promise.
    - [KmsRequestStr]: the growable string (K/.../vendor_kms_request_str.c).
    - [KmipTags]: the tags, the item types and their names (the switch of
      [kmip_tag_type_to_string], K/.../vendor_kms_kmip_tag_type_private.h).
    - [Kmip]: the KMIP writer and reader (K/.../vendor_kms_reader_writer.c,
      K/.../vendor_kms_endian_private.h). [KmipSpec] has messages as trees of
      items ([kval]) and their encoding; [KmipReadSpec] and [KmipWriteSpec] are
      the reader and the writer over them, and the reader on arbitrary bytes.
    - [Hex]: hexadecimal text (src/util/hex.h). [Calendar]: [gmtime] and the
      [strftime] format used.
    - [KmipDump], [KmipDumpSpec], [KmipDumpTotal]: [kmip_dump] and K/main.c, the
      XML they print ([xml_items]), and that they end on any bytes.
    - [ToolTheorems], [ReadTheorems], [WriteTheorems], [SeriesTheorems],
      [VectorTheorems], [CodecTheorems], [JsonTheorems], [DateTheorems], [MlibTheorems], [KmipTheorems]:
      the main results.

    The tool calls the iterator; the iterator calls the integer readers; the
    validator calls the iterator, [bson_init_static] and UTF-8; the appenders
    call growth, the text buffers (for regular expression options), and the
    iterator when they copy. [main] calls the reader, which calls the operating
    system and [bson_init_static]. kmip_dump's [main] calls [hex_to_bin] and
    [kmip_dump], which calls the KMIP reader and the growable string.

    ** Memory

    A pointer into readable memory is the list of bytes from it to the end of
    its allocation ([bytes]); [rd], [slice], [padd] and [store] return [None]
    outside it. An operation with result [None] has undefined behaviour or
    fails an assertion, so every theorem of the form [f x = Some r] includes
    memory safety. Machine integers are [Z] with their wrap-around written out
    ([u32], [s32], [u64], ...), as the C expression has it.

    A mutable [bson_t] is a record [BsonT.bson_t]; heap buffers live in a
    store of cells ([heap]), so that an open child and its parent share the
    buffer the code shares, and [frame] says which cells an operation leaves
    alone. What [malloc] returns is a parameter [malloc : Z -> bytes] of the
    right length and unknown content; allocation does not fail, as the code
    aborts when it does. A [const bson_t *] argument is passed as its bytes
    and length, so the model does not cover appending a document to itself.

    Loops take a fuel argument. [iter_fuel it] is the number of bytes left in
    front of the iterator, plus one: [next_safe] moves forward on every success.
    The recursion of [visit] has the document's length as fuel, because a
    nested document is shorter than the one around it. The validator's levels
    are the code's own bound on nesting, [BSON_VALIDATION_MAX_NESTING_DEPTH].
    The reader's fuel is more than the bytes left in the stream, and [main]'s
    more than the documents in it. [bson_iter_visit_all] takes [iter_fuel], and the
    levels of a JSON text are the code's own bound, [BSON_MAX_RECURSION]; the loop
    that escapes takes at most two rounds for a byte, the search of a second halves
    its range and has 300 rounds ([search_fuel]) for 64 bits, and the one that formats
    doubles the buffer at most 32 times ([vprintf_fuel]). [dump_fuel len] is [(len + 1) * (len + 1)]: an
    item takes eight bytes, and a structure's reader is shorter than the one
    around it. The theorems give [Some] results for these amounts, or that more
    fuel changes nothing whatever the model does without it, so none is vacuous. A local variable that a failed
    call leaves unset is [None], and so is an operation that uses it.

    ** Results

    [ToolTheorems]: on a file of well-formed documents the tool exits with
    status 0 and prints the reports on them, whatever the sizes of the reads
    ([main_reports]); on any regular file of less than 2 GiB, whatever its bytes, it ends,
    and on any other file whose documents claim at most 1 GiB each ([main_terminates]). The reader returns
    the documents of a stream one by one ([reader_reads], [data_reader_reads] for memory).
    A malformed rest and a read that fails after the first byte are reported; a truncated file is taken
    for a complete one and a failing first read for an empty file ([main_stops]). The limit
    on what a document claims is where the reader's comparison with [int32_t] goes wrong
    once its buffer has 2 GiB.

    [ReadTheorems]: the tool's report is the report on the tree the bytes encode
    ([tool_reports]), and the tool is safe on any bytes ([tool_safe]). The
    iterator returns the elements of an encoded document ([iterate_document])
    and is safe and progresses on any bytes ([next_safe]). The validator decides
    validity ([validate_decides]) and is safe ([validate_safe]). Search by key
    and by dotted path agree with lookup in the tree ([find_first], [find_path]).
    UTF-8 validation is exact, truncation keeps whole characters, and coding
    round-trips ([utf8_validate_decides], [utf8_truncate_whole],
    [utf8_roundtrip]). Queries on whole documents are exact
    ([has_field_decides], [equal_decides]; also [count_keys_length]).

    [WriteTheorems]: the appenders refine adding an element to the tree
    ([append_value], [append_utf8], [append_binary], ...); opening, filling and
    closing a child refines adding a sub-tree ([open_fill_close]), and a client
    that writes a tree this way produces exactly the encoding of the tree as it is stored:
    regular expression options sorted, C strings up to their first NUL ([write_tree]).
    Growth makes room and fails only at the limits ([grow_makes_room]). Copies,
    concatenation, exclusion, stealing and construction from bytes do what
    their documentation says ([copy_independent], [concat_appends],
    [copy_excluding], [steal_moves], [new_from_data_accepts]); the array builder
    numbers its elements ([builder_appends], [index_keys]); text buffers stay
    within their limit on a character boundary ([string_append_bounded]).

    [SeriesTheorems]: documents written with a [bson_writer_t] are what a reader on
    its buffer returns ([writer_series]); beginning a document at certain offsets
    writes past the buffer ([writer_begin_edge]); a copied value appends the same
    element ([value_copy_appends]).

    [VectorTheorems]: the views accept exactly the vectors ([vector_views_decide]), bits are
    read back as they were packed ([pack_unpack]), and vectors and arrays are converted
    both ways, with the errors of the arrays that are no vectors ([vector_array_roundtrip]).

    [CodecTheorems]: base 64 decoding and encoding are exact and stay within their
    buffers ([b64_decode_exact], [b64_encode_exact], [b64_roundtrip]); a digest does not
    depend on how its input is split ([md5_streams]); decimal numbers are printed
    exactly, read back, and read safely from any text ([decimal_to_string_exact],
    [decimal_roundtrip], [decimal_from_string_safe]); identifiers
    round-trip through text ([oid_text_roundtrip]), have the layout documented
    ([oid_init_layout]), and are distinct however threads interleave
    ([oids_distinct]).

    [JsonTheorems]: a document comes out as its text in the mode asked for, or as much
    of it as the limit allows ([json_prints]); the text is JSON, but for the numbers that are not
    finite in the legacy mode ([json_is_json]), its
    strings stand for the ones of the document ([json_escaped_reads]), and the
    conversion of any bytes ends within its buffers ([json_safe]). The last
    section has inputs on which the code goes wrong.

    [DateTheorems]: the second of any broken-down time of up to 29 bits of years is
    exact ([timegm_exact]); the texts that are dates are exactly those of a grammar
    ([iso8601_decides]), and the dates of the JSON output are read back
    ([iso8601_roundtrip]).

    [MlibTheorems]: checked arithmetic says whether the integer overflows
    ([ckdint_exact]); integers are parsed exactly ([int_parse_exact]); splicing and
    replacing do what they say or fail with the allocator ([mstr_splice_exact],
    [mstr_replace_exact]).

    [KmipTheorems]: kmip_dump prints the items of a message as nested elements
    and then its bytes ([kmip_main_prints]), the bytes it prints can be given
    back to it ([kmip_main_again]), and it ends on any bytes, with a bound on its steps
    ([kmip_dump_terminates]). The writer encodes trees up to nine structures
    deep ([kmip_write_tree]); searches answer for the first matching item
    ([kmip_find_first]) and read nothing outside any bytes ([kmip_find_safe]).
    Hexadecimal text round-trips ([hex_roundtrip]). The last section has inputs
    on which the code goes wrong.

    ** Not modelled

    [printf] itself is I/O: output is the list of bytes written. The parser of JSON
    (on the vendored [jsonsl]), BCON, clocks and the thread and atomic
    wrappers are not modelled; an atomic operation is one step, and seeding a context
    again after a fork is taken for one step. kmip_dump's destructors only free
    memory. A [char] given to [isdigit] is a byte, so negative ones are no digits, as the
    C libraries in use have it; moving no bytes from or to a null pointer is taken to do
    nothing. Dates outside the
    years [gmtime] can represent, and texts of 2 GiB and more, are outside the
    theorems on kmip_dump. [libmongoc], [kms-message] and the bundled third-party code
    are not built by the tool. The other investigations are short programs
    against a running server. *)

(** ** This file

    Bytes, fixed-width integers, raw memory, C strings, the option monad in which
    undefined behaviour is [None], and the tactics and hints every component
    uses. *)

From Stdlib Require Export ZArith Lia Bool.
From Stdlib Require Import Strings.Byte.
From stdpp Require Export base tactics option list sets numbers gmap.

Abbreviation byte := Corelib.Init.Byte.byte.
Abbreviation x00 := Corelib.Init.Byte.x00.
Abbreviation bytes := (list Corelib.Init.Byte.byte).

Global Open Scope Z_scope.
Declare Scope clib_scope.
Delimit Scope clib_scope with C.

(** ** Bytes *)

(** The value of a [uint8_t]. *)
Definition b2z (b : byte) : Z := Z.of_N (Byte.to_N b).

(** Conversion of an integer to [uint8_t] (reduction modulo 256). *)
Definition z2b (z : Z) : byte :=
  match Byte.of_N (Z.to_N (z mod 256)) with Some b => b | None => x00 end.

#[global] Instance byte_eq_dec : EqDecision byte := Byte.byte_eq_dec.
#[global] Instance byte_inhabited : Inhabited byte := populate x00.

Definition byte_eqb (a b : byte) : bool := bool_decide (a = b).

(** A list of byte values written as numbers. *)
Definition bs (l : list Z) : bytes := map z2b l.

Arguments byte_eqb : simpl never.
Arguments b2z : simpl never.
Arguments z2b : simpl never.

Lemma b2z_range b : 0 <= b2z b < 256.
Proof. unfold b2z. pose proof (Byte.to_N_bounded b). lia. Qed.

Lemma z2b_b2z b : z2b (b2z b) = b.
Proof.
  unfold z2b. rewrite Z.mod_small by apply b2z_range. unfold b2z.
  rewrite N2Z.id, Byte.of_to_N. done.
Qed.

Lemma b2z_z2b z : b2z (z2b z) = z mod 256.
Proof.
  unfold z2b, b2z. pose proof (Z.mod_pos_bound z 256 ltac:(lia)).
  destruct (Byte.of_N _) eqn:E.
  - apply Byte.to_of_N in E. rewrite E. lia.
  - apply Byte.of_N_None_iff in E. lia.
Qed.

Lemma z2b_mod z z' : z mod 256 = z' mod 256 -> z2b z = z2b z'.
Proof. unfold z2b. by intros ->. Qed.

Lemma z2b_add b k : z2b (b2z b + 256 * k) = b.
Proof.
  rewrite <- (z2b_b2z b) at 2. apply z2b_mod.
  by rewrite Z.mul_comm, Z.mod_add by lia.
Qed.

Lemma b2z_z2b_small z : 0 <= z < 256 -> b2z (z2b z) = z.
Proof. intros. rewrite b2z_z2b. by apply Z.mod_small. Qed.

Lemma b2z_inj a b : b2z a = b2z b -> a = b.
Proof. intros H. by rewrite <- (z2b_b2z a), H, z2b_b2z. Qed.

#[global] Instance b2z_Inj : Inj (=) (=) b2z := b2z_inj.

Lemma b2z_zero b : b2z b = 0 <-> b = x00.
Proof. split; [|by intros ->]. intros H. by apply b2z_inj. Qed.

Lemma byte_eqb_spec a b : byte_eqb a b = true <-> a = b.
Proof. unfold byte_eqb. apply bool_decide_eq_true. Qed.

(** ** Fixed-width integers *)

Definition u8 (z : Z) : Z := z mod 2 ^ 8.
Definition u32 (z : Z) : Z := z mod 2 ^ 32.
Definition u64 (z : Z) : Z := z mod 2 ^ 64.

(** Two's complement reinterpretation of an unsigned [w]-bit value. *)
Definition sext (w z : Z) : Z := if z <? 2 ^ (w - 1) then z else z - 2 ^ w.
Definition s32 (z : Z) : Z := sext 32 (u32 z).
Definition s64 (z : Z) : Z := sext 64 (u64 z).

Definition UINT32_MAX : Z := 2 ^ 32 - 1.
Definition UINT64_MAX : Z := 2 ^ 64 - 1.
Definition INT32_MAX : Z := 2 ^ 31 - 1.
Definition INT64_MAX : Z := 2 ^ 63 - 1.
Definition SIZE_MAX : Z := UINT64_MAX.

Definition is_u8 (z : Z) : Prop := 0 <= z < 2 ^ 8.
Definition is_u32 (z : Z) : Prop := 0 <= z < 2 ^ 32.
Definition is_u64 (z : Z) : Prop := 0 <= z < 2 ^ 64.
Definition is_s32 (z : Z) : Prop := - 2 ^ 31 <= z < 2 ^ 31.
Definition is_s64 (z : Z) : Prop := - 2 ^ 63 <= z < 2 ^ 63.

Arguments u8 : simpl never.
Arguments u32 : simpl never.
Arguments u64 : simpl never.
Arguments s32 : simpl never.
Arguments s64 : simpl never.

Lemma u8_id z : 0 <= z < 2 ^ 8 -> u8 z = z.
Proof. apply Z.mod_small. Qed.
Lemma u32_id z : 0 <= z < 2 ^ 32 -> u32 z = z.
Proof. apply Z.mod_small. Qed.
Lemma u64_id z : 0 <= z < 2 ^ 64 -> u64 z = z.
Proof. apply Z.mod_small. Qed.

Lemma u32_range z : 0 <= u32 z < 2 ^ 32.
Proof. by apply Z.mod_pos_bound. Qed.
Lemma u64_range z : 0 <= u64 z < 2 ^ 64.
Proof. by apply Z.mod_pos_bound. Qed.
Lemma u8_range z : 0 <= u8 z < 2 ^ 8.
Proof. by apply Z.mod_pos_bound. Qed.

Lemma s32_u32 z : is_s32 z -> s32 (u32 z) = z.
Proof.
  unfold is_s32, s32, sext, u32. intros.
  rewrite Z.mod_mod by lia. case_match; Z.to_euclidean_division_equations; lia.
Qed.
Lemma s64_u64 z : is_s64 z -> s64 (u64 z) = z.
Proof.
  unfold is_s64, s64, sext, u64. intros.
  rewrite Z.mod_mod by lia. case_match; Z.to_euclidean_division_equations; lia.
Qed.
Lemma s32_id z : 0 <= z < 2 ^ 31 -> s32 z = z.
Proof. intros. unfold s32, sext. rewrite u32_id by lia. case_match; lia. Qed.
Lemma s64_range z : is_s64 (s64 z).
Proof. unfold is_s64, s64, sext. pose proof (u64_range z). case_match; lia. Qed.
Lemma s32_range z : is_s32 (s32 z).
Proof. unfold is_s32, s32, sext. pose proof (u32_range z). case_match; lia. Qed.

(** [None] is an overflow of [int]. *)
Definition int_ok (z : Z) : option Z := if (- 2 ^ 31 <=? z) && (z <=? INT32_MAX) then Some z else None.

Lemma int_ok_id z : - 2 ^ 31 <= z < 2 ^ 31 -> int_ok z = Some z.
Proof.
  intros Hz. unfold int_ok, INT32_MAX. destruct (Z.leb_spec (- 2 ^ 31) z), (Z.leb_spec z (2 ^ 31 - 1)); lia || done.
Qed.

(** Bits that do not overlap are added. *)
Lemma lor_disjoint k a x : 0 <= x < 2 ^ k -> 0 <= k -> Z.lor (a * 2 ^ k) x = a * 2 ^ k + x.
Proof.
  intros Hx Hk. pose proof (Z.add_lor_land (a * 2 ^ k) x) as Hl.
  assert (Z.land (a * 2 ^ k) x = 0); [|lia].
  rewrite <- (Z.mod_small x (2 ^ k)) by lia. rewrite <- Z.land_ones by lia.
  rewrite (Z.land_comm x), Z.land_assoc, Z.land_ones by lia. by rewrite Z.mod_mul by lia.
Qed.

(** ** Raw memory

    A pointer is the list of bytes that can be read from it on; reading past
    the end of the allocation is undefined behaviour, [None]. *)

Definition zlen {A} (l : list A) : Z := Z.of_nat (length l).

(** [m at o] *)
Definition rd (m : bytes) (o : Z) : option byte :=
  if 0 <=? o then m !! Z.to_nat o else None.

(** Pointer addition: defined up to one past the end. *)
Definition padd (m : bytes) (o : Z) : option bytes :=
  if (0 <=? o) && (o <=? zlen m) then Some (drop (Z.to_nat o) m) else None.

(** [n] bytes from offset [o]: the source of a [memcpy]. *)
Definition slice (m : bytes) (o n : Z) : option bytes :=
  if (0 <=? o) && (0 <=? n) && (o + n <=? zlen m)
  then Some (take (Z.to_nat n) (drop (Z.to_nat o) m)) else None.

(** [memcpy (m + o, src, |src|)] *)
Definition store (m : bytes) (o : Z) (src : bytes) : option bytes :=
  if (0 <=? o) && (o + zlen src <=? zlen m)
  then Some (take (Z.to_nat o) m ++ src ++ drop (Z.to_nat o + length src) m) else None.

(** The C string a pointer points to, without its terminator. *)
Fixpoint cstr (m : bytes) : option bytes :=
  match m with
  | [] => None
  | c :: m' => if byte_eqb c x00 then Some [] else s ← cstr m'; Some (c :: s)
  end.

(** [strlen] *)
Definition strlen (m : bytes) : option Z := zlen <$> cstr m.

(** Bytes without a terminator in them. *)
Definition no_nul (s : bytes) : Prop := x00 ∉ s.
Definition no_nulb (s : bytes) : bool := forallb (fun c => negb (byte_eqb c x00)) s.

Lemma no_nulb_spec s : no_nulb s = true <-> no_nul s.
Proof.
  unfold no_nulb, no_nul. rewrite forallb_forall. split.
  - intros H Hin. apply list_elem_of_In in Hin. specialize (H _ Hin). done.
  - intros H x Hx. apply negb_true_iff. apply not_true_iff_false.
    rewrite byte_eqb_spec. intros ->. by apply H, list_elem_of_In.
Qed.

#[global] Instance no_nul_dec s : Decision (no_nul s).
Proof. unfold no_nul. apply _. Defined.

Arguments rd : simpl never.
Arguments padd : simpl never.
Arguments slice : simpl never.
Arguments store : simpl never.
Arguments zlen : simpl never.

Section Lists.
Context {A : Type}.
Implicit Types l k : list A.

Lemma zlen_nonneg l : 0 <= zlen l.
Proof. unfold zlen. lia. Qed.
Lemma zlen_app l k : zlen (l ++ k) = zlen l + zlen k.
Proof. unfold zlen. rewrite length_app. lia. Qed.
Lemma zlen_cons x l : zlen (x :: l) = 1 + zlen l.
Proof. unfold zlen. simpl. lia. Qed.
Lemma zlen_1 (x : A) : zlen [x] = 1.
Proof. done. Qed.
Lemma zlen_nil : zlen (@nil A) = 0.
Proof. done. Qed.
Lemma zlen_take n l : 0 <= n <= zlen l -> zlen (take (Z.to_nat n) l) = n.
Proof. unfold zlen. rewrite length_take. lia. Qed.
Lemma zlen_drop n l : 0 <= n <= zlen l -> zlen (drop (Z.to_nat n) l) = zlen l - n.
Proof. unfold zlen. rewrite length_drop. lia. Qed.
Lemma to_nat_zlen l : Z.to_nat (zlen l) = length l.
Proof. unfold zlen. lia. Qed.
Lemma zlen_0 l : zlen l = 0 -> l = [].
Proof. unfold zlen. destruct l; simpl; [done|lia]. Qed.
End Lists.

Lemma zlen_map {A B} (f : A -> B) l : zlen (map f l) = zlen l.
Proof. unfold zlen. by rewrite length_map. Qed.
Lemma zlen_replicate {A} n (x : A) : zlen (replicate n x) = Z.of_nat n.
Proof. unfold zlen. by rewrite length_replicate. Qed.

Create HintDb clib discriminated.
Create Rewrite HintDb zlen.
#[export] Hint Rewrite @zlen_app @zlen_cons @zlen_nil @zlen_map @zlen_replicate : zlen.
#[export] Hint Resolve zlen_nonneg b2z_range u32_range u64_range u8_range : clib.

(** Linear arithmetic over lengths: every [zlen] is split over appends and
    known to be non-negative. *)
Ltac zlen_facts :=
  autorewrite with zlen;
  repeat match goal with
  | H : context [zlen _] |- _ => progress (autorewrite with zlen in H)
  end;
  repeat match goal with
  | |- context [zlen ?l] =>
      lazymatch goal with H : 0 <= zlen l |- _ => fail | _ => pose proof (zlen_nonneg l) end
  | _ : context [zlen ?l] |- _ =>
      lazymatch goal with H : 0 <= zlen l |- _ => fail | _ => pose proof (zlen_nonneg l) end
  end.
Ltac zl := zlen_facts; try lia.

(** Removal of the wrap-around of [uint32_t]/[uint64_t] arithmetic that stays
    in range. *)
Ltac unwrap32 := repeat (rewrite u32_id by zl).
Ltac unwrap32_in H := repeat (rewrite u32_id in H by zl).

(** Case analysis on the boolean comparisons of the model. *)
Ltac bdestruct_one :=
  match goal with
  | |- context [?a <? ?b] => destruct (Z.ltb_spec a b)
  | |- context [?a <=? ?b] => destruct (Z.leb_spec a b)
  | |- context [?a =? ?b] => destruct (Z.eqb_spec a b)
  | H : context [?a <? ?b] |- _ => destruct (Z.ltb_spec a b)
  | H : context [?a <=? ?b] |- _ => destruct (Z.leb_spec a b)
  | H : context [?a =? ?b] |- _ => destruct (Z.eqb_spec a b)
  end.
Ltac bdestruct := repeat (bdestruct_one; simpl in *; try lia; try discriminate).

(** Inversion of a successful option computation. *)
Ltac opt_inv H :=
  repeat match type of H with
  | (_ ≫= _) = Some _ =>
      let x := fresh "x" in let E := fresh "E" in
      apply bind_Some in H as (x & E & H); cbn beta in H
  | Some _ = Some _ => injection H as H
  | None = Some _ => discriminate H
  end.

(** ** Facts about raw memory *)

Lemma rd_Some_iff m o b : rd m o = Some b <-> 0 <= o /\ m !! Z.to_nat o = Some b.
Proof. unfold rd. destruct (Z.leb_spec 0 o); split; try tauto; try done; intros [? ?]; lia. Qed.

Lemma rd_is_Some m o : is_Some (rd m o) <-> 0 <= o < zlen m.
Proof.
  unfold rd, zlen. destruct (Z.leb_spec 0 o).
  - rewrite lookup_lt_is_Some. lia.
  - split; [by intros []|lia].
Qed.

Lemma rd_lt m o b : rd m o = Some b -> 0 <= o < zlen m.
Proof. intros H. apply rd_is_Some. eauto. Qed.

Lemma rd_app_l a b o : o < zlen a -> rd (a ++ b) o = rd a o.
Proof.
  unfold rd, zlen. intros. case_match; [|done].
  apply lookup_app_l. lia.
Qed.

Lemma rd_app_r a b o : zlen a <= o -> rd (a ++ b) o = rd b (o - zlen a).
Proof.
  unfold rd, zlen. intros. bdestruct.
  rewrite lookup_app_r by lia. f_equal. lia.
Qed.

Lemma rd_cons_0 x m : rd (x :: m) 0 = Some x.
Proof. done. Qed.

Lemma rd_at a x b o : o = zlen a -> rd (a ++ x :: b) o = Some x.
Proof. intros ->. rewrite rd_app_r, Z.sub_diag by lia. done. Qed.

Lemma padd_is_Some m o : is_Some (padd m o) <-> 0 <= o <= zlen m.
Proof. unfold padd. bdestruct; split; try lia; try (by intros []); try (by eexists). Qed.

Lemma padd_at a b o : o = zlen a -> padd (a ++ b) o = Some b.
Proof.
  intros ->. unfold padd. zlen_facts. bdestruct. unfold zlen. rewrite Nat2Z.id.
  by rewrite drop_app_length.
Qed.

Lemma padd_rd m o p i : padd m o = Some p -> 0 <= i -> rd p i = rd m (o + i).
Proof.
  unfold padd, rd. intros Hp Hi. bdestruct. simplify_eq.
  rewrite lookup_drop. f_equal. lia.
Qed.

Lemma padd_zlen m o p : padd m o = Some p -> zlen p = zlen m - o /\ 0 <= o <= zlen m.
Proof.
  unfold padd. intros. bdestruct. simplify_eq. rewrite zlen_drop by lia. lia.
Qed.

Lemma padd_padd m o p i : padd m o = Some p -> 0 <= i -> padd p i = padd m (o + i).
Proof.
  intros Hp Hi. pose proof (padd_zlen _ _ _ Hp) as [Hl Ho].
  unfold padd in *. rewrite Hl. bdestruct; simplify_eq; [|done..].
  rewrite drop_drop. repeat f_equal. lia.
Qed.

Lemma slice_is_Some m o n : is_Some (slice m o n) <-> 0 <= o /\ 0 <= n /\ o + n <= zlen m.
Proof. unfold slice. bdestruct; split; try lia; try (by intros []); try (by eexists). Qed.

Lemma slice_zlen m o n s : slice m o n = Some s -> zlen s = n.
Proof.
  unfold slice. intros. bdestruct. simplify_eq.
  apply zlen_take. rewrite zlen_drop; lia.
Qed.

Lemma slice_at a s b o n : o = zlen a -> n = zlen s -> slice (a ++ s ++ b) o n = Some s.
Proof.
  intros -> ->. unfold slice. zlen_facts. bdestruct.
  unfold zlen. rewrite !Nat2Z.id, drop_app_length, take_app_length. done.
Qed.

Lemma slice_at_end a s o n : o = zlen a -> n = zlen s -> slice (a ++ s) o n = Some s.
Proof. intros. rewrite <- (app_nil_r s) at 1. by apply slice_at. Qed.

Lemma slice_app_l a b o n : o + n <= zlen a -> slice (a ++ b) o n = slice a o n.
Proof.
  intros H. unfold slice. zlen_facts. bdestruct; [|done..].
  unfold zlen in *. rewrite drop_app_le by lia.
  by rewrite take_app_le by (rewrite length_drop; lia).
Qed.

Lemma slice_nil m o : 0 <= o <= zlen m -> slice m o 0 = Some [].
Proof. intros. unfold slice. by bdestruct. Qed.

Lemma slice_cons m o n a s :
  rd m o = Some a -> slice m (o + 1) n = Some s -> slice m o (n + 1) = Some (a :: s).
Proof.
  unfold slice. intros [Ho Ha]%rd_Some_iff Hs. bdestruct. injection Hs as <-. f_equal.
  rewrite (drop_S m a) by done. replace (Z.to_nat (n + 1)) with (S (Z.to_nat n)) by lia.
  cbn [firstn]. do 3 f_equal. lia.
Qed.

Lemma slice_split m o n s :
  slice m o n = Some s -> exists a b, m = a ++ s ++ b /\ zlen a = o /\ zlen s = n.
Proof.
  intros H. pose proof (slice_zlen _ _ _ _ H) as Hn. unfold slice in H. bdestruct. injection H as <-.
  exists (take (Z.to_nat o) m), (drop (Z.to_nat n) (drop (Z.to_nat o) m)).
  rewrite !take_drop. split; [done|]. split; [|done]. apply zlen_take. lia.
Qed.

Lemma slice_rd m o n s i : slice m o n = Some s -> 0 <= i < n -> rd s i = rd m (o + i).
Proof.
  unfold slice, rd. intros. bdestruct. simplify_eq.
  rewrite lookup_take_lt, lookup_drop by lia. f_equal. lia.
Qed.

Lemma store_is_Some m o s : is_Some (store m o s) <-> 0 <= o /\ o + zlen s <= zlen m.
Proof. unfold store. bdestruct; split; try lia; try (by intros []); try (by eexists). Qed.

Lemma drop_app_app a old b :
  drop (length a + length old) (a ++ old ++ b) = (b : bytes).
Proof. rewrite app_assoc, <- length_app. apply drop_app_length. Qed.

Lemma store_at a old b o s :
  o = zlen a -> zlen s = zlen old -> store (a ++ old ++ b) o s = Some (a ++ s ++ b).
Proof.
  intros -> Hs. unfold store. zlen_facts. bdestruct. unfold zlen in *.
  rewrite Nat2Z.id, take_app_length.
  replace (length s) with (length old) by lia. by rewrite drop_app_app.
Qed.

Lemma store_zlen m o s m' : store m o s = Some m' -> zlen m' = zlen m.
Proof.
  unfold store, zlen. intros. bdestruct. simplify_eq.
  rewrite !length_app, length_take, length_drop. lia.
Qed.

Lemma store_rd_out m o s m' i :
  store m o s = Some m' -> i < o \/ o + zlen s <= i -> rd m' i = rd m i.
Proof.
  unfold store, rd, zlen. intros Hs Hi. bdestruct; simplify_eq; [|done].
  destruct Hi as [Hi|Hi].
  - rewrite lookup_app_l by (rewrite length_take; lia). apply lookup_take_lt. lia.
  - rewrite lookup_app_r by (rewrite length_take; lia).
    rewrite lookup_app_r by (rewrite length_take; lia).
    rewrite lookup_drop, length_take. f_equal. lia.
Qed.

(** Reads of C strings. *)

Lemma cstr_app s t : no_nul s -> cstr (s ++ x00 :: t) = Some s.
Proof.
  unfold no_nul. induction s as [|c s IH]; intros H; simpl; [done|].
  apply not_elem_of_cons in H as [H1 H2].
  destruct (byte_eqb c x00) eqn:E; [apply byte_eqb_spec in E; congruence|].
  by rewrite IH.
Qed.

Lemma cstr_Some m s : cstr m = Some s <-> no_nul s /\ exists t, m = s ++ x00 :: t.
Proof.
  split; [|intros [H [t ->]]; by apply cstr_app].
  unfold no_nul. revert s. induction m as [|c m IH]; intros s H; simpl in H; [done|].
  destruct (byte_eqb c x00) eqn:E.
  - apply byte_eqb_spec in E as ->. simplify_eq. split; [set_solver|by eexists].
  - destruct (cstr m) as [s'|]; simplify_eq/=.
    destruct (IH s' eq_refl) as [Hn [t ->]]. split; [|by eexists].
    apply not_elem_of_cons. split; [|done]. intros <-.
    by rewrite (proj2 (byte_eqb_spec x00 x00) eq_refl) in E.
Qed.

Lemma cstr_is_Some m : is_Some (cstr m) <-> x00 ∈ m.
Proof.
  induction m as [|c m IH]; simpl; [split; [by intros []|set_solver]|].
  destruct (byte_eqb c x00) eqn:E.
  - apply byte_eqb_spec in E as ->. split; [set_solver|by eexists].
  - assert (c <> x00) by (intros ->; by rewrite (proj2 (byte_eqb_spec x00 x00) eq_refl) in E).
    rewrite elem_of_cons, <- IH. destruct (cstr m); simpl; naive_solver.
Qed.

Lemma strlen_app s t : no_nul s -> strlen (s ++ x00 :: t) = Some (zlen s).
Proof. intros. unfold strlen. by rewrite cstr_app. Qed.

Lemma no_nul_app s t : no_nul (s ++ t) <-> no_nul s /\ no_nul t.
Proof. unfold no_nul. rewrite elem_of_app. tauto. Qed.

Lemma no_nul_cons c s : no_nul (c :: s) <-> c <> x00 /\ no_nul s.
Proof. unfold no_nul. rewrite not_elem_of_cons. intuition congruence. Qed.

#[export] Hint Resolve cstr_app strlen_app rd_at padd_at slice_at slice_at_end : clib.

(** Reduction of [Some x ≫= f] without unfolding anything else. *)
Ltac sbind := cbn [mbind option_bind].
