(* ===== verification/IntEncode.v ===== *)
(** Little-endian integer encoding: [mlib/intencode.h].

    [le_val]/[le_bytes] are the abstract little-endian encoding; the
    [mlib_read_*]/[mlib_write_*] functions are the portable loops of the
    header, proved equal to it. *)

From S2P Require Import Prelude.

(** ** Abstract encoding *)

Fixpoint le_val (l : bytes) : Z :=
  match l with
  | [] => 0
  | b :: l' => b2z b + 256 * le_val l'
  end.

Fixpoint le_bytes (n : nat) (z : Z) : bytes :=
  match n with
  | O => []
  | S n' => z2b z :: le_bytes n' (z / 256)
  end.

(** ** The loops of the header *)

(** [ret <<= 8; ret |= cptr\[(sizeof ret) - i - 1\];] on a [w]-bit [ret]. *)
Definition le_decode_step (w : Z) (ret : Z) (c : byte) : Z :=
  Z.lor (Z.shiftl ret 8 mod 2 ^ w) (b2z c).

Definition le_decode_loop (w : Z) (cptr : bytes) : Z :=
  foldl (le_decode_step w) 0 (rev cptr).

Definition mlib_read_u32le (m : bytes) (o : Z) : option Z :=
  b ← slice m o 4; Some (le_decode_loop 32 b).

Definition mlib_read_i32le (m : bytes) (o : Z) : option Z :=
  u ← mlib_read_u32le m o; Some (s32 u).

Definition mlib_read_u64le (m : bytes) (o : Z) : option Z :=
  b ← slice m o 8; Some (le_decode_loop 64 b).

Definition mlib_read_i64le (m : bytes) (o : Z) : option Z :=
  u ← mlib_read_u64le m o; Some (s64 u).

(** [( *o++ = (value >> (8u * i)) & 0xffu)] for [i] from 0 to [n - 1]. *)
Definition le_encode_loop (n : nat) (value : Z) : bytes :=
  map (fun i => z2b (Z.land (Z.shiftr value (8 * Z.of_nat i)) 255)) (seq 0 n).

(** The writers return the updated memory; the address after the value is the
    offset plus the width. *)
Definition mlib_write_u32le (m : bytes) (o value : Z) : option bytes :=
  store m o (le_encode_loop 4 value).

Definition mlib_write_i32le (m : bytes) (o value : Z) : option bytes :=
  mlib_write_u32le m o (u32 value).

Definition mlib_write_u64le (m : bytes) (o value : Z) : option bytes :=
  store m o (le_encode_loop 8 value).

Definition mlib_write_i64le (m : bytes) (o value : Z) : option bytes :=
  mlib_write_u64le m o (u64 value).

(** A [double] is represented by its 64-bit pattern. *)
Definition mlib_write_f64le (m : bytes) (o bits : Z) : option bytes :=
  mlib_write_u64le m o bits.

(** ** Facts *)

Lemma le_val_range l : 0 <= le_val l < 256 ^ zlen l.
Proof.
  induction l as [|b l IH]; [done|]. cbn [le_val]. rewrite zlen_cons.
  pose proof (b2z_range b). rewrite Z.pow_add_r by zl. nia.
Qed.

Lemma le_val_app a b : le_val (a ++ b) = le_val a + 256 ^ zlen a * le_val b.
Proof.
  induction a as [|c a IH]; [simpl app; cbn [le_val]; change (zlen (@nil byte)) with 0; lia|].
  simpl app. cbn [le_val]. rewrite IH, zlen_cons, Z.pow_add_r by zl. lia.
Qed.

Lemma length_le_bytes n z : length (le_bytes n z) = n.
Proof. revert z. induction n; intros; simpl; auto. Qed.

Lemma zlen_le_bytes n z : zlen (le_bytes n z) = Z.of_nat n.
Proof. unfold zlen. by rewrite length_le_bytes. Qed.
#[export] Hint Rewrite zlen_le_bytes : zlen.

Lemma le_val_le_bytes n z : le_val (le_bytes n z) = z mod 256 ^ Z.of_nat n.
Proof.
  revert z. induction n as [|n IH]; intros z; [by rewrite Z.mod_1_r|].
  cbn [le_bytes le_val]. rewrite IH, b2z_z2b, Nat2Z.inj_succ, Z.pow_succ_r by lia.
  rewrite Z.rem_mul_r by lia. lia.
Qed.

Lemma le_bytes_le_val l n : n = length l -> le_bytes n (le_val l) = l.
Proof.
  intros ->. induction l as [|b l IH]; [done|]. cbn [length le_bytes le_val].
  pose proof (b2z_range b). f_equal.
  - apply z2b_add.
  - replace ((_ + _) / 256) with (le_val l); [done|].
    Z.to_euclidean_division_equations. lia.
Qed.

(** One decoding step prepends a low byte. *)
Lemma le_decode_step_spec w ret c :
  0 <= ret -> 8 <= w -> 256 * ret < 2 ^ w -> le_decode_step w ret c = b2z c + 256 * ret.
Proof.
  intros. unfold le_decode_step. rewrite Z.shiftl_mul_pow2 by lia.
  rewrite Z.mod_small by lia. pose proof (b2z_range c).
  pose proof (Z.add_lor_land (ret * 2 ^ 8) (b2z c)) as Hl.
  enough (Z.land (ret * 2 ^ 8) (b2z c) = 0) by lia.
  rewrite <- (Z.mod_small (b2z c) (2 ^ 8)) by lia. rewrite <- Z.land_ones by lia.
  rewrite Z.land_assoc, (Z.land_comm _ (b2z c)), <- Z.land_assoc, Z.land_ones by lia.
  rewrite Z.mod_mul by lia. apply Z.land_0_r.
Qed.

Lemma le_decode_loop_spec w l :
  256 ^ zlen l <= 2 ^ w -> 8 <= w -> le_decode_loop w l = le_val l.
Proof.
  unfold le_decode_loop. intros H Hw. induction l as [|b l IH]; [done|].
  simpl rev. rewrite foldl_app. simpl.
  rewrite zlen_cons, Z.pow_add_r in H by zl.
  pose proof (le_val_range l) as Hr. pose proof (Z.pow_pos_nonneg 256 (zlen l) ltac:(lia) ltac:(zl)).
  rewrite IH by lia. rewrite le_decode_step_spec by nia. done.
Qed.

Lemma le_encode_loop_spec n z : le_encode_loop n z = le_bytes n z.
Proof.
  unfold le_encode_loop. revert z. induction n as [|n IH]; intros z; [done|].
  cbn [seq map le_bytes]. f_equal.
  - change (8 * Z.of_nat 0) with 0. rewrite Z.shiftr_0_r.
    change 255 with (Z.ones 8). rewrite Z.land_ones by lia.
    unfold z2b. by rewrite Z.mod_mod.
  - rewrite <- IH, <- seq_shift, map_map. apply map_ext. intros i.
    do 2 f_equal. change 256 with (2 ^ 8). rewrite <- Z.shiftr_div_pow2 by lia.
    rewrite Z.shiftr_shiftr by lia. f_equal. lia.
Qed.

Lemma le_bytes_app n m z : le_bytes (n + m) z = le_bytes n z ++ le_bytes m (z / 256 ^ Z.of_nat n).
Proof.
  revert z. induction n as [|n IH]; intros z; [by rewrite Z.div_1_r|]. cbn [le_bytes Nat.add app]. f_equal.
  rewrite IH. do 2 f_equal. rewrite Nat2Z.inj_succ, Z.pow_succ_r, Z.div_div by lia. done.
Qed.

Lemma le_bytes_mod n z : le_bytes n (z mod 256 ^ Z.of_nat n) = le_bytes n z.
Proof.
  rewrite <- le_val_le_bytes, <- (length_le_bytes n z) at 1. apply le_bytes_le_val. by rewrite length_le_bytes.
Qed.

Arguments le_bytes : simpl never.
Arguments le_val : simpl never.

(** ** Reads and writes in terms of the abstract encoding *)

Lemma mlib_read_u32le_spec m o b :
  slice m o 4 = Some b -> mlib_read_u32le m o = Some (le_val b).
Proof.
  intros H. unfold mlib_read_u32le. rewrite H. simpl.
  rewrite le_decode_loop_spec; [done| |lia]. by rewrite (slice_zlen _ _ _ _ H).
Qed.

Lemma mlib_read_u64le_spec m o b :
  slice m o 8 = Some b -> mlib_read_u64le m o = Some (le_val b).
Proof.
  intros H. unfold mlib_read_u64le. rewrite H. simpl.
  rewrite le_decode_loop_spec; [done| |lia]. by rewrite (slice_zlen _ _ _ _ H).
Qed.

Lemma mlib_read_u32le_Some m o :
  0 <= o -> o + 4 <= zlen m ->
  exists v, mlib_read_u32le m o = Some v /\ 0 <= v < 2 ^ 32.
Proof.
  intros. destruct (proj2 (slice_is_Some m o 4)) as [b Hb]; [lia|].
  exists (le_val b). split; [by apply mlib_read_u32le_spec|].
  pose proof (le_val_range b) as Hr. by rewrite (slice_zlen _ _ _ _ Hb) in Hr.
Qed.

Lemma mlib_read_u64le_Some m o :
  0 <= o -> o + 8 <= zlen m ->
  exists v, mlib_read_u64le m o = Some v /\ 0 <= v < 2 ^ 64.
Proof.
  intros. destruct (proj2 (slice_is_Some m o 8)) as [b Hb]; [lia|].
  exists (le_val b). split; [by apply mlib_read_u64le_spec|].
  pose proof (le_val_range b) as Hr. by rewrite (slice_zlen _ _ _ _ Hb) in Hr.
Qed.

Lemma mlib_read_u32le_inv m o v :
  mlib_read_u32le m o = Some v -> 0 <= o /\ o + 4 <= zlen m /\ 0 <= v < 2 ^ 32.
Proof.
  unfold mlib_read_u32le. intros H. apply bind_Some in H as (b & Hb & ?).
  destruct (proj1 (slice_is_Some m o 4)) as (? & ? & ?); [eauto|].
  destruct (mlib_read_u32le_Some m o) as (v' & Hv & ?); [lia..|].
  unfold mlib_read_u32le in Hv. rewrite Hb in Hv. simplify_eq/=. lia.
Qed.

Lemma mlib_read_u32le_at a z b o :
  o = zlen a -> 0 <= z < 2 ^ 32 ->
  mlib_read_u32le (a ++ le_bytes 4 z ++ b) o = Some z.
Proof.
  intros -> Hz. erewrite mlib_read_u32le_spec by (by apply slice_at).
  rewrite le_val_le_bytes. f_equal. by apply Z.mod_small.
Qed.

Lemma mlib_read_u32le_0 z b : 0 <= z < 2 ^ 32 -> mlib_read_u32le (le_bytes 4 z ++ b) 0 = Some z.
Proof. intros. by apply (mlib_read_u32le_at []). Qed.

Lemma mlib_read_u64le_0 z b : 0 <= z < 2 ^ 64 -> mlib_read_u64le (le_bytes 8 z ++ b) 0 = Some z.
Proof.
  intros Hz. erewrite mlib_read_u64le_spec by (by apply (slice_at [])).
  rewrite le_val_le_bytes. f_equal. by apply Z.mod_small.
Qed.

Lemma mlib_read_u64le_at a z b o :
  o = zlen a -> 0 <= z < 2 ^ 64 ->
  mlib_read_u64le (a ++ le_bytes 8 z ++ b) o = Some z.
Proof.
  intros -> Hz. erewrite mlib_read_u64le_spec by (by apply slice_at).
  rewrite le_val_le_bytes. f_equal. by apply Z.mod_small.
Qed.

Lemma mlib_write_u32le_at a old z b o :
  o = zlen a -> zlen old = 4 ->
  mlib_write_u32le (a ++ old ++ b) o z = Some (a ++ le_bytes 4 z ++ b).
Proof.
  intros -> Ho. unfold mlib_write_u32le. rewrite le_encode_loop_spec.
  apply store_at; [done|]. by rewrite zlen_le_bytes.
Qed.

Lemma mlib_write_u64le_at a old z b o :
  o = zlen a -> zlen old = 8 ->
  mlib_write_u64le (a ++ old ++ b) o z = Some (a ++ le_bytes 8 z ++ b).
Proof.
  intros -> Ho. unfold mlib_write_u64le. rewrite le_encode_loop_spec.
  apply store_at; [done|]. by rewrite zlen_le_bytes.
Qed.

(** Reading back what was written, wherever it was written. *)
Lemma mlib_read_write_u32le m o z m' :
  0 <= z < 2 ^ 32 -> mlib_write_u32le m o z = Some m' -> mlib_read_u32le m' o = Some z.
Proof.
  unfold mlib_write_u32le, store. rewrite le_encode_loop_spec, zlen_le_bytes.
  intros Hz H. bdestruct. simplify_eq. apply mlib_read_u32le_at; [|done].
  symmetry. apply zlen_take. lia.
Qed.
