(* ===== verification/CString.v ===== *)
(** The C string functions of the standard library the code calls, on
    pointers as readable memory: [None] is a read past the allocation. *)

From S2P Require Import Prelude.

(** [strncmp]: zero, or the difference of the first differing bytes. *)
Fixpoint strncmp (n : nat) (a b : bytes) : option Z :=
  match n with
  | O => Some 0
  | S n' =>
      match a, b with
      | x :: a', y :: b' =>
          if byte_eqb x y then (if byte_eqb x x00 then Some 0 else strncmp n' a' b')
          else Some (b2z x - b2z y)
      | _, _ => None
      end
  end.

Fixpoint strcmp (a b : bytes) : option Z :=
  match a, b with
  | x :: a', y :: b' =>
      if byte_eqb x y then (if byte_eqb x x00 then Some 0 else strcmp a' b')
      else Some (b2z x - b2z y)
  | _, _ => None
  end.

(** [strchr] as the offset of the first [c] before or at the terminator. *)
Fixpoint strchr (a : bytes) (c : byte) : option (option Z) :=
  match a with
  | [] => None
  | x :: a' =>
      if byte_eqb x c then Some (Some 0) else
      if byte_eqb x x00 then Some None else
      r ← strchr a' c; Some (option_map Z.succ r)
  end.

(** [memchr (a, 0, n) != NULL] *)
Definition memchr_nul (a : bytes) (n : Z) : option bool :=
  s ← slice a 0 n; Some (negb (no_nulb s)).

(** [memcmp]: the difference of the first differing bytes. *)
Fixpoint memcmp_bytes (a b : bytes) : Z :=
  match a, b with
  | x :: a', y :: b' => if byte_eqb x y then memcmp_bytes a' b' else b2z x - b2z y
  | _, _ => 0
  end.

Definition memcmp (a b : bytes) (n : Z) : option Z :=
  s ← slice a 0 n; t ← slice b 0 n; Some (memcmp_bytes s t).

(** [isspace] in the C locale. *)
Definition isspace (c : byte) : bool := (b2z c =? 32) || ((9 <=? b2z c) && (b2z c <=? 13)).

(** [tolower] and [strcasecmp] in the C locale. *)
Definition tolower (b : byte) : byte :=
  let z := b2z b in if (65 <=? z) && (z <=? 90) then z2b (z + 32) else b.

Fixpoint strcasecmp (a b : bytes) : option Z :=
  match a, b with
  | x :: a', y :: b' =>
      if byte_eqb (tolower x) (tolower y)
      then (if byte_eqb x x00 then Some 0 else strcasecmp a' b')
      else Some (b2z (tolower x) - b2z (tolower y))
  | _, _ => None
  end.

(** ** Facts *)

Lemma byte_eqb_refl x : byte_eqb x x = true.
Proof. by apply byte_eqb_spec. Qed.
Lemma byte_eqb_neq x y : x <> y -> byte_eqb x y = false.
Proof. intros. apply not_true_iff_false. by rewrite byte_eqb_spec. Qed.
Lemma byte_eqb_x00 x : byte_eqb x x00 = (b2z x =? 0).
Proof.
  destruct (Z.eqb_spec (b2z x) 0) as [H|H].
  - apply b2z_zero in H as ->. apply byte_eqb_refl.
  - apply byte_eqb_neq. intros ->. done.
Qed.

Lemma b2z_diff x y : x <> y -> b2z x - b2z y <> 0.
Proof. intros H E. apply H, b2z_inj. lia. Qed.

Ltac byte_cases x y :=
  destruct (decide (x = y)) as [->|];
  [rewrite byte_eqb_refl | rewrite (byte_eqb_neq x y) by done].

(** Comparing terminated strings compares their contents. *)
Lemma strcmp_spec s t s' t' :
  no_nul s -> no_nul t ->
  exists r, strcmp (s ++ x00 :: s') (t ++ x00 :: t') = Some r /\ (r = 0 <-> s = t).
Proof.
  revert t. induction s as [|x s IH]; intros [|y t] Hs Ht; simpl.
  - exists 0. done.
  - apply no_nul_cons in Ht as [Hy _]. rewrite byte_eqb_neq by done.
    eexists; split; [done|]. split; [|done]. intros E. by apply b2z_diff in E.
  - apply no_nul_cons in Hs as [Hx _]. rewrite byte_eqb_neq by done.
    eexists; split; [done|]. split; [|done]. intros E. by apply b2z_diff in E.
  - apply no_nul_cons in Hs as [Hx Hs], Ht as [Hy Ht]. byte_cases x y.
    + rewrite byte_eqb_neq by done. destruct (IH t Hs Ht) as (r & -> & Hr).
      exists r. split; [done|]. rewrite Hr. naive_solver.
    + eexists; split; [done|]. split; [|naive_solver]. intros E. by apply b2z_diff in E.
Qed.

Lemma strcmp_eq s t s' t' :
  no_nul s -> no_nul t ->
  (r ← strcmp (s ++ x00 :: s') (t ++ x00 :: t'); Some (r =? 0)) = Some (bool_decide (s = t)).
Proof.
  intros Hs Ht. destruct (strcmp_spec s t s' t' Hs Ht) as (r & -> & Hr). simpl. f_equal.
  destruct (Z.eqb_spec r 0); case_bool_decide; naive_solver.
Qed.

(** The test [strncmp (key, ikey, |key|) == 0 && ikey[|key|] == 0] is equality. *)
Lemma strncmp_spec s t s' t' :
  no_nul s -> no_nul t ->
  exists r, strncmp (length s) (s ++ s') (t ++ x00 :: t') = Some r /\
    (r = 0 <-> exists t2, t = s ++ t2).
Proof.
  revert t. induction s as [|x s IH]; intros t Hs Ht; simpl.
  - exists 0. split; [done|]. split; [by exists t|done].
  - apply no_nul_cons in Hs as [Hx Hs]. destruct t as [|y t]; simpl.
    + rewrite byte_eqb_neq by done. eexists; split; [done|]. split; [|by intros []].
      intros E. by apply b2z_diff in E.
    + apply no_nul_cons in Ht as [Hy Ht]. byte_cases x y.
      * rewrite byte_eqb_neq by done. destruct (IH t Hs Ht) as (r & -> & Hr).
        exists r. split; [done|]. rewrite Hr. split; intros [t2 E]; exists t2; naive_solver.
      * eexists; split; [done|]. split; [|naive_solver].
        intros E. by apply b2z_diff in E.
Qed.

Lemma strchr_none s s' c :
  no_nul s -> c ∉ s -> c <> x00 -> strchr (s ++ x00 :: s') c = Some None.
Proof.
  induction s as [|x s IH]; intros Hs Hc Hz; simpl.
  - by rewrite byte_eqb_neq by done.
  - apply no_nul_cons in Hs as [Hx Hs]. apply not_elem_of_cons in Hc as [Hc1 Hc2].
    rewrite !byte_eqb_neq by done. by rewrite IH.
Qed.

Lemma strchr_some s s' c :
  no_nul s -> c ∉ s -> strchr (s ++ c :: s') c = Some (Some (zlen s)).
Proof.
  induction s as [|x s IH]; intros Hs Hc; simpl.
  - by rewrite byte_eqb_refl.
  - apply no_nul_cons in Hs as [Hx Hs]. apply not_elem_of_cons in Hc as [Hc1 Hc2].
    rewrite !byte_eqb_neq by done. rewrite IH by done. simpl. do 2 f_equal. zl.
Qed.

Lemma memcmp_bytes_eq a b : length a = length b -> memcmp_bytes a b = 0 <-> a = b.
Proof.
  revert b. induction a as [|x a IH]; intros [|y b] H; simplify_eq/=; [done|].
  byte_cases x y.
  - rewrite IH by done. naive_solver.
  - split; [|naive_solver]. intros E. by apply b2z_diff in E.
Qed.

(** [strstr]: the offset of the first occurrence of the string [b]. *)
Fixpoint prefixb (a b : bytes) {struct b} : bool :=
  match b with
  | [] => true
  | y :: b' => match a with x :: a' => byte_eqb x y && prefixb a' b' | [] => false end
  end.
Fixpoint find_sub (a b : bytes) : option Z :=
  if prefixb a b then Some 0
  else match a with [] => None | _ :: a' => option_map Z.succ (find_sub a' b) end.
Definition strstr (a b : bytes) : option (option Z) :=
  s ← cstr a; t ← cstr b; Some (find_sub s t).

Lemma find_sub_1 s c : find_sub s [c] = None <-> c ∉ s.
Proof.
  induction s as [|x s IH]; [split; [set_solver|done]|]. rewrite not_elem_of_cons. cbn [find_sub prefixb].
  rewrite andb_true_r. destruct (decide (x = c)) as [->|Hx].
  - rewrite byte_eqb_refl. split; [done|]. intros [? _]. done.
  - rewrite byte_eqb_neq by done. destruct (find_sub s [c]); cbn [option_map];
      (split; [|intros [_ H]; apply IH in H; done]); [done|]. intros _. split; [congruence|]. by apply IH.
Qed.

(** All bytes, for the facts that are checked one by one. *)
Definition all_bytes : bytes := map (fun i => z2b (Z.of_nat i)) (seq 0 256).

Lemma by_bytes (P : byte -> bool) : forallb P all_bytes = true -> forall c, P c = true.
Proof.
  intros H c. rewrite forallb_forall in H. apply H. unfold all_bytes. apply in_map_iff.
  pose proof (b2z_range c). exists (Z.to_nat (b2z c)). rewrite Z2Nat.id by lia. split; [apply z2b_b2z|].
  apply in_seq. lia.
Qed.

(** ** Memory *)

(** [realloc], for a given content of fresh memory. *)
Definition realloc (malloc : Z -> bytes) (old : bytes) (n : Z) : bytes :=
  take (Z.to_nat n) old ++ drop (length old) (malloc n).

Lemma slice_at_end_0 (s t : bytes) n : n = zlen s -> slice (s ++ t) 0 n = Some s.
Proof. intros. by apply (slice_at []). Qed.

Lemma slice_all (s : bytes) n : n = zlen s -> slice s 0 n = Some s.
Proof. intros. rewrite <- (app_nil_r s) at 1. by apply slice_at_end_0. Qed.

Lemma store_at_0 old b s : zlen s = zlen old -> store (old ++ b) 0 s = Some (s ++ b).
Proof. intros. by apply (store_at []). Qed.

Lemma split_at (m : bytes) k : 0 <= k <= zlen m -> exists a b, m = a ++ b /\ zlen a = k /\ zlen b = zlen m - k.
Proof.
  intros Hk. exists (take (Z.to_nat k) m), (drop (Z.to_nat k) m). rewrite take_drop, zlen_take, zlen_drop by lia. done.
Qed.

Lemma fresh_split (malloc : Z -> bytes) (Hm : forall n, 0 <= n -> zlen (malloc n) = n) n k :
  0 <= k <= n -> exists old junk, malloc n = old ++ junk /\ zlen old = k /\ zlen junk = n - k.
Proof.
  intros Hk. pose proof (Hm n ltac:(lia)) as H.
  exists (take (Z.to_nat k) (malloc n)), (drop (Z.to_nat k) (malloc n)).
  rewrite take_drop, zlen_take, zlen_drop by lia. rewrite H. done.
Qed.

Lemma zlen_realloc (malloc : Z -> bytes) (Hm : forall n, 0 <= n -> zlen (malloc n) = n) old n : zlen old <= n -> exists junk, realloc malloc old n = old ++ junk /\ zlen junk = n - zlen old.
Proof.
  intros Hn. pose proof (zlen_nonneg old). unfold realloc. exists (drop (length old) (malloc n)).
  split; [by rewrite take_ge by (unfold zlen in *; lia)|].
  pose proof (Hm n ltac:(lia)) as Hz. unfold zlen in *. rewrite length_drop. lia.
Qed.

(** Fresh memory full of zeros, for the samples. *)
Definition zeros (n : Z) : bytes := replicate (Z.to_nat n) x00.

Lemma zlen_zeros n : 0 <= n -> zlen (zeros n) = n.
Proof. intros. unfold zeros. rewrite zlen_replicate. lia. Qed.
