(* ===== verification/BsonTypes.v ===== *)
(** The enumerations of [bson/bson-types.h] and its power-of-two helpers. *)

From S2P Require Import Prelude.

(** ** [bson_type_t] *)

Inductive bson_type_t :=
  | BSON_TYPE_EOD
  | BSON_TYPE_DOUBLE
  | BSON_TYPE_UTF8
  | BSON_TYPE_DOCUMENT
  | BSON_TYPE_ARRAY
  | BSON_TYPE_BINARY
  | BSON_TYPE_UNDEFINED
  | BSON_TYPE_OID
  | BSON_TYPE_BOOL
  | BSON_TYPE_DATE_TIME
  | BSON_TYPE_NULL
  | BSON_TYPE_REGEX
  | BSON_TYPE_DBPOINTER
  | BSON_TYPE_CODE
  | BSON_TYPE_SYMBOL
  | BSON_TYPE_CODEWSCOPE
  | BSON_TYPE_INT32
  | BSON_TYPE_TIMESTAMP
  | BSON_TYPE_INT64
  | BSON_TYPE_DECIMAL128
  | BSON_TYPE_MAXKEY
  | BSON_TYPE_MINKEY.

#[global] Instance bson_type_eq_dec : EqDecision bson_type_t.
Proof. solve_decision. Defined.

Definition type_code (t : bson_type_t) : Z :=
  match t with
  | BSON_TYPE_EOD => 0 | BSON_TYPE_DOUBLE => 1 | BSON_TYPE_UTF8 => 2
  | BSON_TYPE_DOCUMENT => 3 | BSON_TYPE_ARRAY => 4 | BSON_TYPE_BINARY => 5
  | BSON_TYPE_UNDEFINED => 6 | BSON_TYPE_OID => 7 | BSON_TYPE_BOOL => 8
  | BSON_TYPE_DATE_TIME => 9 | BSON_TYPE_NULL => 10 | BSON_TYPE_REGEX => 11
  | BSON_TYPE_DBPOINTER => 12 | BSON_TYPE_CODE => 13 | BSON_TYPE_SYMBOL => 14
  | BSON_TYPE_CODEWSCOPE => 15 | BSON_TYPE_INT32 => 16 | BSON_TYPE_TIMESTAMP => 17
  | BSON_TYPE_INT64 => 18 | BSON_TYPE_DECIMAL128 => 19 | BSON_TYPE_MAXKEY => 127
  | BSON_TYPE_MINKEY => 255
  end.

Definition all_types : list bson_type_t :=
  [BSON_TYPE_EOD; BSON_TYPE_DOUBLE; BSON_TYPE_UTF8; BSON_TYPE_DOCUMENT; BSON_TYPE_ARRAY;
   BSON_TYPE_BINARY; BSON_TYPE_UNDEFINED; BSON_TYPE_OID; BSON_TYPE_BOOL;
   BSON_TYPE_DATE_TIME; BSON_TYPE_NULL; BSON_TYPE_REGEX; BSON_TYPE_DBPOINTER;
   BSON_TYPE_CODE; BSON_TYPE_SYMBOL; BSON_TYPE_CODEWSCOPE; BSON_TYPE_INT32;
   BSON_TYPE_TIMESTAMP; BSON_TYPE_INT64; BSON_TYPE_DECIMAL128; BSON_TYPE_MAXKEY;
   BSON_TYPE_MINKEY].

(** The enumerator a type byte stands for; [None] is the [default] case of a
    [switch] over the type. *)
Definition type_of_code (z : Z) : option bson_type_t :=
  List.find (fun t => type_code t =? z) all_types.

Lemma type_of_code_code t : type_of_code (type_code t) = Some t.
Proof. by destruct t. Qed.

Lemma type_of_code_Some z t : type_of_code z = Some t -> type_code t = z.
Proof. unfold type_of_code. intros H. apply List.find_some in H. lia. Qed.

Lemma type_code_range t : 0 <= type_code t < 256.
Proof. destruct t; simpl; lia. Qed.

(** ** [bson_subtype_t] and size limits *)

Definition BSON_SUBTYPE_BINARY : Z := 0.
Definition BSON_SUBTYPE_BINARY_DEPRECATED : Z := 2.
Definition BSON_SUBTYPE_VECTOR : Z := 9.

(** [BSON_MAX_SIZE]: [((size_t)((1U << 31) - 1))]. *)
Definition BSON_MAX_SIZE : Z := 2 ^ 31 - 1.

(** ** Powers of two *)

(** [v |= v >> n] *)
Definition smear (n v : Z) : Z := Z.lor v (Z.shiftr v n).

(** [bson_next_power_of_two] on a 64-bit [size_t]; [v--] and [v++] wrap. *)
Definition bson_next_power_of_two (v : Z) : Z :=
  let v := u64 (v - 1) in
  let v := smear 1 v in
  let v := smear 2 v in
  let v := smear 4 v in
  let v := smear 8 v in
  let v := smear 16 v in
  let v := smear 32 v in
  u64 (v + 1).

Definition bson_is_power_of_two (v : Z) : bool :=
  negb (v =? 0) && (Z.land v (u32 (v - 1)) =? 0).

(** After the shifts up to [n/2], the [n] bits below every set bit are set. *)
Definition smeared (n v r : Z) : Prop :=
  forall i, 0 <= i -> Z.testbit r i = true <-> exists j, 0 <= j < n /\ Z.testbit v (i + j) = true.

Lemma smeared_step n v r : 0 < n -> smeared n v r -> smeared (2 * n) v (smear n r).
Proof.
  intros Hn H i Hi. unfold smear. rewrite Z.lor_spec, Z.shiftr_spec, orb_true_iff by lia.
  rewrite (H i), (H (i + n)) by lia. split.
  - intros [(j & ? & E)|(j & ? & E)]; [exists j|exists (n + j)]; (split; [lia|]);
      [done|]. by rewrite Z.add_assoc.
  - intros (j & ? & E). destruct (Z_lt_le_dec j n); [left; exists j|right; exists (j - n)];
      (split; [lia|]); [done|]. by replace (i + n + (j - n)) with (i + j) by lia.
Qed.

Lemma smeared_ones v r :
  0 < v < 2 ^ 64 -> smeared 64 v r -> 0 <= r -> r = Z.ones (Z.log2 v + 1).
Proof.
  intros Hv H Hr. pose proof (Z.log2_nonneg v).
  assert (Z.log2 v < 64) by (apply Z.log2_lt_pow2; lia).
  apply Z.bits_inj'. intros i Hi.
  destruct (Z_lt_le_dec i (Z.log2 v + 1)).
  - rewrite Z.ones_spec_low by lia. apply (H i Hi). exists (Z.log2 v - i).
    split; [lia|]. replace (i + _) with (Z.log2 v) by lia. apply Z.bit_log2. lia.
  - rewrite Z.ones_spec_high by lia. apply not_true_iff_false. rewrite (H i Hi).
    intros (j & ? & E). rewrite Z.bits_above_log2 in E by lia. done.
Qed.

Lemma smeared_1 v : smeared 1 v v.
Proof.
  intros i Hi. split; [intros; exists 0|intros (j & ? & E)];
    [rewrite Z.add_0_r; split; [lia|done]|].
  by replace (i + j) with i in E by lia.
Qed.

Lemma smear_nonneg n v : 0 <= v -> 0 <= smear n v.
Proof. intros. unfold smear. apply Z.lor_nonneg. by rewrite Z.shiftr_nonneg. Qed.

(** The bit trick computes the least power of two not below [v]. *)
Lemma bson_next_power_of_two_spec v :
  1 < v <= 2 ^ 63 -> bson_next_power_of_two v = 2 ^ Z.log2_up v.
Proof.
  intros Hv. unfold bson_next_power_of_two. rewrite (u64_id (v - 1)) by lia.
  set (r := smear 32 _).
  assert (Hr : r = Z.ones (Z.log2 (v - 1) + 1)).
  { apply smeared_ones; [lia| |repeat apply smear_nonneg; lia].
    do 6 (apply (smeared_step 32) || apply (smeared_step 16) || apply (smeared_step 8) ||
          apply (smeared_step 4) || apply (smeared_step 2) || apply (smeared_step 1); [lia|]).
    apply smeared_1. }
  rewrite Hr, Z.ones_equiv, Z.log2_up_eqn by lia.
  replace (Z.pred v) with (v - 1) by lia.
  assert (Z.log2 (v - 1) < 63) by (apply Z.log2_lt_pow2; lia).
  pose proof (Z.log2_nonneg (v - 1)).
  pose proof (Z.pow_le_mono_r 2 (Z.succ (Z.log2 (v - 1))) 63 ltac:(lia) ltac:(lia)).
  rewrite u64_id; change (Z.log2 (v - 1) + 1) with (Z.succ (Z.log2 (v - 1))); [lia|].
  pose proof (Z.pow_pos_nonneg 2 (Z.succ (Z.log2 (v - 1)))). lia.
Qed.

(** The same below 32 bits, with the shifts up to 16. *)
Lemma smear32_spec v :
  0 < v < 2 ^ 32 -> smear 16 (smear 8 (smear 4 (smear 2 (smear 1 v)))) = Z.ones (Z.log2 v + 1).
Proof.
  intros Hv. set (r := smear 16 _). apply smeared_ones; [lia| |repeat apply smear_nonneg; lia].
  intros i Hi. assert (Hs : smeared 32 v r).
  { do 5 (apply (smeared_step 16) || apply (smeared_step 8) || apply (smeared_step 4) ||
          apply (smeared_step 2) || apply (smeared_step 1); [lia|]). apply smeared_1. }
  rewrite (Hs i Hi). split; intros (j & Hj & E); exists j; (split; [|done]); [lia|].
  destruct (Z_lt_le_dec j 32); [lia|]. rewrite Z.bits_above_log2 in E; [done|lia|].
  apply Z.log2_lt_pow2; [lia|]. pose proof (Z.pow_le_mono_r 2 32 (i + j)). lia.
Qed.
