(* ===== verification/BsonIter.v ===== *)
(** The BSON iterator: [bson/bson-iter.c] and the inline readers of
    [bson/bson-iter.h]. An operation that would read outside the buffer, or
    fail a [BSON_ASSERT], returns [None]. *)

From S2P Require Import Prelude CString IntEncode BsonTypes.

(** ** State *)

(** [bson_iter_t]. [it_raw] is [NULL] as [None]; a pointer is the memory that
    can be read from it on. The cached [value] member is not kept:
    [bson_iter_value] returns it. *)
Record bson_iter_t := Iter {
  it_raw : option bytes;
  it_len : Z;
  it_off : Z;
  it_type : Z;
  it_key : Z;
  it_d1 : Z;
  it_d2 : Z;
  it_d3 : Z;
  it_d4 : Z;
  it_next_off : Z;
  it_err_off : Z
}.

(** [memset (iter, 0, sizeof *iter)] *)
Definition iter_zero : bson_iter_t := Iter None 0 0 0 0 0 0 0 0 0 0.

(** An iterator placed before the first element of a buffer. *)
Definition iter_start (raw : bytes) (len : Z) : bson_iter_t :=
  Iter (Some raw) len 0 0 0 0 0 0 0 4 0.

Definition set_d1 (it : bson_iter_t) (v : Z) : bson_iter_t :=
  Iter (it_raw it) (it_len it) (it_off it) (it_type it) (it_key it) v (it_d2 it) (it_d3 it)
    (it_d4 it) (it_next_off it) (it_err_off it).
Definition set_d2 (it : bson_iter_t) (v : Z) : bson_iter_t :=
  Iter (it_raw it) (it_len it) (it_off it) (it_type it) (it_key it) (it_d1 it) v (it_d3 it)
    (it_d4 it) (it_next_off it) (it_err_off it).
Definition set_d3 (it : bson_iter_t) (v : Z) : bson_iter_t :=
  Iter (it_raw it) (it_len it) (it_off it) (it_type it) (it_key it) (it_d1 it) (it_d2 it) v
    (it_d4 it) (it_next_off it) (it_err_off it).
Definition set_d4 (it : bson_iter_t) (v : Z) : bson_iter_t :=
  Iter (it_raw it) (it_len it) (it_off it) (it_type it) (it_key it) (it_d1 it) (it_d2 it)
    (it_d3 it) v (it_next_off it) (it_err_off it).
Definition set_next (it : bson_iter_t) (v : Z) : bson_iter_t :=
  Iter (it_raw it) (it_len it) (it_off it) (it_type it) (it_key it) (it_d1 it) (it_d2 it)
    (it_d3 it) (it_d4 it) v (it_err_off it).
Definition set_err (it : bson_iter_t) (v : Z) : bson_iter_t :=
  Iter (it_raw it) (it_len it) (it_off it) (it_type it) (it_key it) (it_d1 it) (it_d2 it)
    (it_d3 it) (it_d4 it) (it_next_off it) v.

(** The label [mark_invalid]. *)
Definition mark_invalid (it : bson_iter_t) : bson_iter_t :=
  Iter None 0 (it_off it) (it_type it) (it_key it) (it_d1 it) (it_d2 it)
    (it_d3 it) (it_d4 it) 0 (it_err_off it).

(** [ITER_TYPE (i)] *)
Definition ITER_TYPE (it : bson_iter_t) : option Z :=
  m ← it_raw it; b2z <$> rd m (it_type it).

(** ** [bson_iter_init] and [bson_iter_init_from_data] *)

(** The [bson_t] is seen through its data pointer and length. *)
Definition bson_iter_init (data : bytes) (len : Z) : bool * bson_iter_t :=
  if len <? 5 then (false, iter_zero) else (true, iter_start data len).

Definition bson_iter_init_from_data (data : bytes) (length : Z) : option (bool * bson_iter_t) :=
  if (length <? 5) || (INT32_MAX <? length) then Some (false, iter_zero) else
  hdr_len ← mlib_read_u32le data 0;
  if negb (hdr_len =? length) then Some (false, iter_zero) else
  last ← rd data (length - 1);
  if negb (b2z last =? 0) then Some (false, iter_zero) else
  if UINT32_MAX <? length then Some (false, iter_zero) else
  Some (true, iter_start data length).

(** ** [_bson_iter_next_internal] *)

(** How the [switch] over the element type is left: with [next_off] set and
    the current value of [o], or through [goto mark_invalid]. *)
Inductive field :=
  | FNext (it : bson_iter_t) (o : Z)
  | FInvalid (it : bson_iter_t)
  | FUnsupported (it : bson_iter_t).

(** [for (o = start; o < len; o++) if (!data\[o\]) break;] from a given [o],
    with the number of remaining positions as fuel. *)
Fixpoint find_nul (fuel : nat) (data : bytes) (o : Z) : option (option Z) :=
  match fuel with
  | O => Some None
  | S fuel' =>
      c ← rd data o;
      if byte_eqb c x00 then Some (Some o) else find_nul fuel' data (o + 1)
  end.

Definition scan_nul (data : bytes) (o len : Z) : option (option Z) :=
  find_nul (Z.to_nat (len - o)) data o.

(** [case BSON_TYPE_CODE: case BSON_TYPE_SYMBOL: case BSON_TYPE_UTF8:] *)
Definition next_string (data : bytes) (len o : Z) (it : bson_iter_t) : option field :=
  if len <=? u32 (o + 4) then Some (FInvalid (set_err it o)) else
  let it := set_d2 it (u32 (o + 4)) in
  l ← mlib_read_u32le data (it_d1 it);
  if u32 (len - u32 (o + 4)) <? l then Some (FInvalid (set_err it o)) else
  let it := set_next it (u32 (o + 4 + l)) in
  if (l =? 0) || (len <=? it_next_off it) then Some (FInvalid (set_err it o)) else
  last ← rd data (it_d2 it + u32 (l - 1));
  if negb (byte_eqb last x00) then Some (FInvalid (set_err it (u32 (o + 4 + l - 1))))
  else Some (FNext it o).

(** [case BSON_TYPE_BINARY:] *)
Definition next_binary (data : bytes) (len o : Z) (it : bson_iter_t) : option field :=
  if u32 (len - 4) <=? o then Some (FInvalid (set_err it o)) else
  let it := set_d3 (set_d2 it (u32 (o + 4))) (u32 (o + 5)) in
  l ← mlib_read_u32le data (it_d1 it);
  if u32 (len - o - 4) <=? l then Some (FInvalid (set_err it o)) else
  subtype ← rd data (it_d2 it);
  if b2z subtype =? BSON_SUBTYPE_BINARY_DEPRECATED then
    if l <? 4 then Some (FInvalid (set_err it o)) else
    bin_len ← mlib_read_i32le data (it_d3 it);
    if negb (bin_len =? u32 (l - 4)) then Some (FInvalid (set_err it (it_d3 it)))
    else Some (FNext (set_next it (u32 (o + 5 + l))) o)
  else Some (FNext (set_next it (u32 (o + 5 + l))) o).

(** [case BSON_TYPE_ARRAY: case BSON_TYPE_DOCUMENT:] *)
Definition next_document (data : bytes) (len o : Z) (it : bson_iter_t) : option field :=
  if u32 (len - 4) <=? o then Some (FInvalid (set_err it o)) else
  l ← mlib_read_u32le data (it_d1 it);
  if (len <? l) || (u32 (len - o) <? l) then Some (FInvalid (set_err it o))
  else Some (FNext (set_next it (u32 (o + l))) o).

(** [case BSON_TYPE_BOOL:] *)
Definition next_bool (data : bytes) (len o : Z) (it : bson_iter_t) : option field :=
  if len <=? it_d1 it then Some (FInvalid (set_err it o)) else
  val ← rd data (it_d1 it);
  if negb (b2z val =? 0) && negb (b2z val =? 1) then Some (FInvalid (set_err it o))
  else Some (FNext (set_next it (u32 (o + 1))) o).

(** [case BSON_TYPE_REGEX:] *)
Definition next_regex (data : bytes) (len o : Z) (it : bson_iter_t) : option field :=
  eor ← scan_nul data o len;
  match eor with
  | None => Some (FInvalid (set_err it (it_next_off it)))
  | Some p =>
      let o := u32 (p + 1) in
      let it := set_d2 it o in
      eoo ← scan_nul data o len;
      match eoo with
      | None => Some (FInvalid (set_err it (it_next_off it)))
      | Some q => Some (FNext (set_next it (u32 (q + 1))) q)
      end
  end.

(** [case BSON_TYPE_DBPOINTER:] *)
Definition next_dbpointer (data : bytes) (len o : Z) (it : bson_iter_t) : option field :=
  if u32 (len - 4) <=? o then Some (FInvalid (set_err it o)) else
  let it := set_d2 it (u32 (o + 4)) in
  l ← mlib_read_u32le data (it_d1 it);
  if (l =? 0) || (u32 (len - o - 4) <? l) then Some (FInvalid (set_err it o)) else
  last ← rd data (u32 (o + l + 3));
  if negb (byte_eqb last x00) then Some (FInvalid (set_err it (u32 (o + l + 3)))) else
  Some (FNext (set_next (set_d3 it (u32 (o + 4 + l))) (u32 (o + 4 + l + 12))) o).

(** [case BSON_TYPE_CODEWSCOPE:] *)
Definition next_codewscope (data : bytes) (len o : Z) (it : bson_iter_t) : option field :=
  if (len <? 19) || (u32 (len - 14) <=? o) then Some (FInvalid (set_err it o)) else
  let it := set_d3 (set_d2 it (u32 (o + 4))) (u32 (o + 8)) in
  l1 ← mlib_read_u32le data (it_d1 it);
  if (l1 <? 14) || (u32 (len - o) <=? l1) then Some (FInvalid (set_err it o)) else
  let it := set_next it (u32 (o + l1)) in
  if len <=? it_next_off it then Some (FInvalid (set_err it o)) else
  l2 ← mlib_read_u32le data (it_d2 it);
  if (l2 =? 0) || (u32 (len - o - 4 - 4) <=? l2) then Some (FInvalid (set_err it o)) else
  if it_next_off it <=? u32 (o + 4 + 4 + l2 + 4)
  then Some (FInvalid (set_err it (u32 (o + 4)))) else
  let it := set_d4 it (u32 (o + 4 + 4 + l2)) in
  doclen ← mlib_read_u32le data (it_d4 it);
  if negb (u32 (o + 4 + 4 + l2 + doclen) =? it_next_off it)
  then Some (FInvalid (set_err it (u32 (o + 4 + 4 + l2))))
  else Some (FNext it o).

(** [switch ( *bson_type)] *)
Definition next_field (data : bytes) (len o ty : Z) (it : bson_iter_t) : option field :=
  match type_of_code ty with
  | Some (BSON_TYPE_DATE_TIME | BSON_TYPE_DOUBLE | BSON_TYPE_INT64 | BSON_TYPE_TIMESTAMP) =>
      Some (FNext (set_next it (u32 (o + 8))) o)
  | Some (BSON_TYPE_CODE | BSON_TYPE_SYMBOL | BSON_TYPE_UTF8) => next_string data len o it
  | Some BSON_TYPE_BINARY => next_binary data len o it
  | Some (BSON_TYPE_ARRAY | BSON_TYPE_DOCUMENT) => next_document data len o it
  | Some BSON_TYPE_OID => Some (FNext (set_next it (u32 (o + 12))) o)
  | Some BSON_TYPE_BOOL => next_bool data len o it
  | Some BSON_TYPE_REGEX => next_regex data len o it
  | Some BSON_TYPE_DBPOINTER => next_dbpointer data len o it
  | Some BSON_TYPE_CODEWSCOPE => next_codewscope data len o it
  | Some BSON_TYPE_INT32 => Some (FNext (set_next it (u32 (o + 4))) o)
  | Some BSON_TYPE_DECIMAL128 => Some (FNext (set_next it (u32 (o + 16))) o)
  | Some (BSON_TYPE_MAXKEY | BSON_TYPE_MINKEY | BSON_TYPE_NULL | BSON_TYPE_UNDEFINED) =>
      Some (FNext (set_next it o) o)
  | Some BSON_TYPE_EOD => Some (FInvalid (set_err it o))
  | None => Some (FUnsupported (set_err it o))
  end.

(** The result of [_bson_iter_next_internal]: the returned flag, the iterator
    and the out parameters. [nr_key] and [nr_type] are [None] when the call
    leaves [*key] and [*bson_type] as they were. *)
Record next_result := NextResult {
  nr_ok : bool;
  nr_iter : bson_iter_t;
  nr_key : option (option bytes);
  nr_type : option Z;
  nr_unsupported : bool
}.

(** From the label [fill_data_fields] on. *)
Definition fill_data_fields (data : bytes) (len o : Z) (it : bson_iter_t) : option next_result :=
  key ← padd data (it_key it);
  ty ← ITER_TYPE it;
  f ← next_field data len o ty it;
  Some match f with
  | FNext it o =>
      if len <=? it_next_off it
      then NextResult false (mark_invalid (set_err it o)) (Some (Some key)) (Some ty) false
      else NextResult true (set_err it 0) (Some (Some key)) (Some ty) false
  | FInvalid it => NextResult false (mark_invalid it) (Some (Some key)) (Some ty) false
  | FUnsupported it => NextResult false (mark_invalid it) (Some (Some key)) (Some ty) true
  end.

Definition _bson_iter_next_internal (it : bson_iter_t) (next_keylen : Z) : option next_result :=
  match it_raw it with
  | None => Some (NextResult false it (Some None) (Some (type_code BSON_TYPE_EOD)) false)
  | Some data =>
      let len := it_len it in
      let off := it_next_off it in
      let it := Iter (Some data) len off off (u32 (off + 1)) 0 0 0 0 off (it_err_off it) in
      if next_keylen =? 0 then
        found ← scan_nul data (it_key it) len;
        match found with
        | Some p => let o := u32 (p + 1) in fill_data_fields data len o (set_d1 it o)
        | None => Some (NextResult false (mark_invalid it) None None false)
        end
      else
        let o := u32 (it_key it + next_keylen + 1) in
        fill_data_fields data len o (set_d1 it o)
  end.

Definition bson_iter_next (it : bson_iter_t) : option (bool * bson_iter_t) :=
  r ← _bson_iter_next_internal it 0; Some (nr_ok r, nr_iter r).

(** ** Accessors

    An accessor reads through the offsets the last [bson_iter_next] left. *)

(** [iter->raw + o] *)
Definition raw_at (it : bson_iter_t) (o : Z) : option bytes :=
  m ← it_raw it; padd m o.

Definition raw_u32 (it : bson_iter_t) (o : Z) : option Z :=
  m ← it_raw it; mlib_read_u32le m o.

(** [if (ITER_TYPE (iter) == t) ...; else ...] *)
Definition when_type {A} (it : bson_iter_t) (t : bson_type_t)
    (yes : option A) (no : A) : option A :=
  ty ← ITER_TYPE it; if ty =? type_code t then yes else Some no.

Definition bson_iter_key_unsafe (it : bson_iter_t) : option bytes := raw_at it (it_key it).

Definition bson_iter_key (it : bson_iter_t) : option bytes := bson_iter_key_unsafe it.

Definition bson_iter_key_len (it : bson_iter_t) : option Z :=
  if it_key it <? it_d1 it then Some (u32 (it_d1 it - it_key it - 1)) else None.

Definition bson_iter_type_unsafe (it : bson_iter_t) : option Z := ITER_TYPE it.

(** With [BSON_ASSERT (iter->raw)] and [BSON_ASSERT (iter->len)]. *)
Definition bson_iter_type (it : bson_iter_t) : option Z :=
  if it_len it =? 0 then None else bson_iter_type_unsafe it.

Definition bson_iter_offset (it : bson_iter_t) : Z := it_off it.

(** [BSON_ITER_HOLDS_* (iter)] *)
Definition iter_holds (t : bson_type_t) (it : bson_iter_t) : option bool :=
  ty ← bson_iter_type it; Some (ty =? type_code t).

Definition bson_iter_utf8_len_unsafe (it : bson_iter_t) : option Z :=
  native ← raw_u32 it (it_d1 it);
  let len := s32 native in
  Some (if len <=? 0 then 0 else u32 (len - 1)).

Definition bson_iter_int32_unsafe (it : bson_iter_t) : option Z :=
  native ← raw_u32 it (it_d1 it); Some (s32 native).

Definition bson_iter_int64_unsafe (it : bson_iter_t) : option Z :=
  m ← it_raw it; mlib_read_i64le m (it_d1 it).

(** A [double] is its bit pattern. *)
Definition bson_iter_double_unsafe (it : bson_iter_t) : option Z :=
  m ← it_raw it; mlib_read_u64le m (it_d1 it).

Definition bson_iter_bool_unsafe (it : bson_iter_t) : option bool :=
  m ← it_raw it; val ← rd m (it_d1 it); Some (negb (b2z val =? 0)).

Definition bson_iter_decimal128_unsafe (it : bson_iter_t) : option (Z * Z) :=
  m ← it_raw it;
  low ← mlib_read_u64le m (it_d1 it);
  high ← mlib_read_u64le m (it_d1 it + 8);
  Some (low, high).

(** The 12 bytes of the object identifier pointed to. *)
Definition bson_iter_oid_unsafe (it : bson_iter_t) : option bytes :=
  m ← it_raw it; slice m (it_d1 it) 12.

(** [time_t] division truncates towards zero. *)
Definition bson_iter_time_t_unsafe (it : bson_iter_t) : option Z :=
  v ← bson_iter_int64_unsafe it; Some (Z.quot v 1000).

Definition bson_iter_timeval_unsafe (it : bson_iter_t) : option (Z * Z) :=
  value ← bson_iter_int64_unsafe it;
  Some (Z.quot value 1000, Z.rem value 1000 * 1000).

(** [(subtype, binary_len, binary)]. [binary] tells whether the out pointers
    [binary] and [binary_len] are given. *)
Definition bson_iter_binary (it : bson_iter_t) (binary : bool) :
    option (Z * Z * option bytes) :=
  when_type it BSON_TYPE_BINARY
    (m ← it_raw it;
     st ← rd m (it_d2 it);
     let subtype := b2z st in
     if negb binary then Some (subtype, 0, None) else
     l ← mlib_read_u32le m (it_d1 it);
     p ← padd m (it_d3 it);
     if subtype =? BSON_SUBTYPE_BINARY_DEPRECATED
     then q ← padd p 4; Some (subtype, u32 (l - 4), Some q)
     else Some (subtype, l, Some p))
    (BSON_SUBTYPE_BINARY, 0, None).

Definition bson_iter_binary_subtype (it : bson_iter_t) : option Z :=
  r ← bson_iter_binary it false; Some (fst (fst r)).

Definition bson_iter_binary_equal (a b : bson_iter_t) : option bool :=
  ha ← iter_holds BSON_TYPE_BINARY a;
  if negb ha then Some false else
  hb ← iter_holds BSON_TYPE_BINARY b;
  if negb hb then Some false else
  '(sa, la, da) ← bson_iter_binary a true;
  '(sb, lb, db) ← bson_iter_binary b true;
  if negb (sa =? sb) then Some false else
  if negb (la =? lb) then Some false else
  pa ← da; pb ← db;
  c ← memcmp pa pb la; Some (c =? 0).

(** [(iter_binary, iter_binary_len)] as [bson_iter_overwrite_binary] returns them. *)
Definition bson_iter_overwrite_binary (it : bson_iter_t) (subtype : Z) :
    option (option bytes * Z) :=
  '(st, l, d) ← bson_iter_binary it true;
  Some match d with
  | Some p => if st =? subtype then (Some p, l) else (None, 0)
  | None => (None, 0)
  end.

Definition bson_iter_bool (it : bson_iter_t) : option bool :=
  when_type it BSON_TYPE_BOOL (bson_iter_bool_unsafe it) false.

Definition bson_iter_double (it : bson_iter_t) : option Z :=
  when_type it BSON_TYPE_DOUBLE (bson_iter_double_unsafe it) 0.

Definition bson_iter_int32 (it : bson_iter_t) : option Z :=
  when_type it BSON_TYPE_INT32 (bson_iter_int32_unsafe it) 0.

Definition bson_iter_int64 (it : bson_iter_t) : option Z :=
  when_type it BSON_TYPE_INT64 (bson_iter_int64_unsafe it) 0.

(** [x == 0.0] on a bit pattern: both zeros. *)
Definition double_is_zero (bits : Z) : bool := Z.land bits (2 ^ 63 - 1) =? 0.

Definition bson_iter_as_bool (it : bson_iter_t) : option bool :=
  ty ← ITER_TYPE it;
  match type_of_code ty with
  | Some BSON_TYPE_BOOL => bson_iter_bool it
  | Some BSON_TYPE_DOUBLE => d ← bson_iter_double it; Some (negb (double_is_zero d))
  | Some BSON_TYPE_INT64 => v ← bson_iter_int64 it; Some (negb (v =? 0))
  | Some BSON_TYPE_INT32 => v ← bson_iter_int32 it; Some (negb (v =? 0))
  | Some BSON_TYPE_UTF8 => Some true
  | Some (BSON_TYPE_NULL | BSON_TYPE_UNDEFINED) => Some false
  | _ => Some true
  end.

(** [(int64_t) d] for a bit pattern: truncation towards zero; converting a
    value outside [int64_t], an infinity or a NaN is undefined. *)
Definition double_to_int64 (bits : Z) : option Z :=
  let e := Z.land (Z.shiftr bits 52) 2047 in
  let frac := Z.land bits (2 ^ 52 - 1) in
  let mant := if e =? 0 then frac else 2 ^ 52 + frac in
  let sh := (if e =? 0 then 1 else e) - 1075 in
  if e =? 2047 then None else
  let mag := if 0 <=? sh then mant * 2 ^ sh else mant / 2 ^ (- sh) in
  let v := if Z.testbit bits 63 then - mag else mag in
  if (- 2 ^ 63 <=? v) && (v <? 2 ^ 63) then Some v else None.

Definition bson_iter_as_int64 (it : bson_iter_t) : option Z :=
  ty ← ITER_TYPE it;
  match type_of_code ty with
  | Some BSON_TYPE_BOOL => b ← bson_iter_bool it; Some (Z.b2z b)
  | Some BSON_TYPE_DOUBLE => d ← bson_iter_double it; double_to_int64 d
  | Some BSON_TYPE_INT64 => bson_iter_int64 it
  | Some BSON_TYPE_INT32 => bson_iter_int32 it
  | _ => Some 0
  end.

(** [None] inside: the function returned false. *)
Definition bson_iter_decimal128 (it : bson_iter_t) : option (option (Z * Z)) :=
  when_type it BSON_TYPE_DECIMAL128
    (d ← bson_iter_decimal128_unsafe it; Some (Some d)) None.

Definition bson_iter_oid (it : bson_iter_t) : option (option bytes) :=
  when_type it BSON_TYPE_OID (o ← bson_iter_oid_unsafe it; Some (Some o)) None.

(** [(regex, options)] *)
Definition bson_iter_regex (it : bson_iter_t) : option (option bytes * option bytes) :=
  when_type it BSON_TYPE_REGEX
    (r ← raw_at it (it_d1 it); o ← raw_at it (it_d2 it); Some (Some r, Some o))
    (None, None).

(** A string pointer and its length without terminator, for an element of
    type [t]: [bson_iter_utf8], [bson_iter_code], [bson_iter_symbol]. *)
Definition iter_string (t : bson_type_t) (it : bson_iter_t) : option (option bytes * Z) :=
  when_type it t
    (l ← bson_iter_utf8_len_unsafe it; p ← raw_at it (it_d2 it); Some (Some p, l))
    (None, 0).

Definition bson_iter_utf8 (it : bson_iter_t) := iter_string BSON_TYPE_UTF8 it.
Definition bson_iter_code (it : bson_iter_t) := iter_string BSON_TYPE_CODE it.
Definition bson_iter_symbol (it : bson_iter_t) := iter_string BSON_TYPE_SYMBOL it.

(** The fresh buffer of [bson_iter_dup_utf8], with its terminator. *)
Definition bson_iter_dup_utf8 (it : bson_iter_t) : option (option bytes * Z) :=
  '(p, l) ← bson_iter_utf8 it;
  match p with
  | Some str => s ← slice str 0 l; Some (Some (s ++ [x00]), l)
  | None => Some (None, l)
  end.

(** [(code, length, scope_len, scope)] *)
Definition bson_iter_codewscope (it : bson_iter_t) :
    option (option bytes * Z * Z * option bytes) :=
  when_type it BSON_TYPE_CODEWSCOPE
    (len ← raw_u32 it (it_d2 it);
     if len =? 0 then None else
     scope_len ← raw_u32 it (it_d4 it);
     scope ← raw_at it (it_d4 it);
     code ← raw_at it (it_d3 it);
     Some (Some code, u32 (len - 1), scope_len, Some scope))
    (None, 0, 0, None).

(** [(collection_len, collection, oid)] *)
Definition bson_iter_dbpointer (it : bson_iter_t) :
    option (Z * option bytes * option bytes) :=
  when_type it BSON_TYPE_DBPOINTER
    (l ← raw_u32 it (it_d1 it);
     c ← raw_at it (it_d2 it);
     m ← it_raw it;
     oid ← slice m (it_d3 it) 12;
     Some (if 0 <? l then u32 (l - 1) else l, Some c, Some oid))
    (0, None, None).

Definition bson_iter_date_time (it : bson_iter_t) : option Z :=
  when_type it BSON_TYPE_DATE_TIME (bson_iter_int64_unsafe it) 0.

Definition bson_iter_time_t (it : bson_iter_t) : option Z :=
  when_type it BSON_TYPE_DATE_TIME (bson_iter_time_t_unsafe it) 0.

Definition bson_iter_timeval (it : bson_iter_t) : option (Z * Z) :=
  when_type it BSON_TYPE_DATE_TIME (bson_iter_timeval_unsafe it) (0, 0).

(** [(timestamp, increment)] *)
Definition bson_iter_timestamp (it : bson_iter_t) : option (Z * Z) :=
  when_type it BSON_TYPE_TIMESTAMP
    (inc ← raw_u32 it (it_d1 it); ts ← raw_u32 it (it_d1 it + 4); Some (ts, inc))
    (0, 0).

(** [(len, data)] of a sub-document of type [t]: [bson_iter_document] and
    [bson_iter_array]. *)
Definition iter_subdoc (t : bson_type_t) (it : bson_iter_t) : option (Z * option bytes) :=
  when_type it t
    (l ← raw_u32 it (it_d1 it); p ← raw_at it (it_d1 it); Some (l, Some p))
    (0, None).

Definition bson_iter_document (it : bson_iter_t) := iter_subdoc BSON_TYPE_DOCUMENT it.
Definition bson_iter_array (it : bson_iter_t) := iter_subdoc BSON_TYPE_ARRAY it.

Definition bson_iter_recurse (it : bson_iter_t) : option (option bson_iter_t) :=
  ty ← ITER_TYPE it;
  if ty =? type_code BSON_TYPE_DOCUMENT then
    '(len, data) ← bson_iter_document it; d ← data; Some (Some (iter_start d len))
  else if ty =? type_code BSON_TYPE_ARRAY then
    '(len, data) ← bson_iter_array it; d ← data; Some (Some (iter_start d len))
  else Some None.

(** ** [bson_iter_value]

    The union of [bson_value_t]; strings and buffers are pointers with their
    lengths. [None] inside is the [NULL] returned for an unknown type. *)
Inductive bson_value_t :=
  | v_double (bits : Z)
  | v_utf8 (str : option bytes) (len : Z)
  | v_doc (data : option bytes) (data_len : Z)
  | v_array (data : option bytes) (data_len : Z)
  | v_binary (subtype : Z) (data : option bytes) (data_len : Z)
  | v_undefined
  | v_oid (oid : bytes)
  | v_bool (b : bool)
  | v_datetime (v : Z)
  | v_null
  | v_regex (regex options : option bytes)
  | v_dbpointer (collection : option bytes) (collection_len : Z) (oid : bytes)
  | v_code (code : option bytes) (code_len : Z)
  | v_symbol (symbol : option bytes) (len : Z)
  | v_codewscope (code : option bytes) (code_len : Z) (scope_data : option bytes) (scope_len : Z)
  | v_int32 (v : Z)
  | v_timestamp (timestamp increment : Z)
  | v_int64 (v : Z)
  | v_decimal128 (low high : Z)
  | v_maxkey
  | v_minkey.

Definition bson_iter_value (it : bson_iter_t) : option (option bson_value_t) :=
  ty ← ITER_TYPE it;
  match type_of_code ty with
  | Some BSON_TYPE_DOUBLE => d ← bson_iter_double it; Some (Some (v_double d))
  | Some BSON_TYPE_UTF8 => '(s, l) ← bson_iter_utf8 it; Some (Some (v_utf8 s l))
  | Some BSON_TYPE_DOCUMENT => '(l, d) ← bson_iter_document it; Some (Some (v_doc d l))
  | Some BSON_TYPE_ARRAY => '(l, d) ← bson_iter_array it; Some (Some (v_array d l))
  | Some BSON_TYPE_BINARY => '(st, l, d) ← bson_iter_binary it true; Some (Some (v_binary st d l))
  | Some BSON_TYPE_OID => o ← bson_iter_oid it; b ← o; Some (Some (v_oid b))
  | Some BSON_TYPE_BOOL => b ← bson_iter_bool it; Some (Some (v_bool b))
  | Some BSON_TYPE_DATE_TIME => v ← bson_iter_date_time it; Some (Some (v_datetime v))
  | Some BSON_TYPE_REGEX => '(r, o) ← bson_iter_regex it; Some (Some (v_regex r o))
  | Some BSON_TYPE_DBPOINTER =>
      '(l, c, o) ← bson_iter_dbpointer it; oid ← o; Some (Some (v_dbpointer c l oid))
  | Some BSON_TYPE_CODE => '(s, l) ← bson_iter_code it; Some (Some (v_code s l))
  | Some BSON_TYPE_SYMBOL => '(s, l) ← bson_iter_symbol it; Some (Some (v_symbol s l))
  | Some BSON_TYPE_CODEWSCOPE =>
      '(c, l, sl, s) ← bson_iter_codewscope it; Some (Some (v_codewscope c l s sl))
  | Some BSON_TYPE_INT32 => v ← bson_iter_int32 it; Some (Some (v_int32 v))
  | Some BSON_TYPE_TIMESTAMP => '(t, i) ← bson_iter_timestamp it; Some (Some (v_timestamp t i))
  | Some BSON_TYPE_INT64 => v ← bson_iter_int64 it; Some (Some (v_int64 v))
  | Some BSON_TYPE_DECIMAL128 =>
      d ← bson_iter_decimal128 it; p ← d; Some (Some (v_decimal128 (fst p) (snd p)))
  | Some BSON_TYPE_NULL => Some (Some v_null)
  | Some BSON_TYPE_UNDEFINED => Some (Some v_undefined)
  | Some BSON_TYPE_MAXKEY => Some (Some v_maxkey)
  | Some BSON_TYPE_MINKEY => Some (Some v_minkey)
  | Some BSON_TYPE_EOD | None => Some None
  end.

(** ** Searching

    [while (bson_iter_next (iter))] loops take the length of the buffer as
    fuel: every successful step moves the iterator forward. *)

Definition iter_fuel (it : bson_iter_t) : nat := S (Z.to_nat (it_len it)).
Arguments iter_fuel : simpl never.

Fixpoint find_w_len_loop (fuel : nat) (it : bson_iter_t) (key : bytes) (keylen : Z) :
    option (bool * bson_iter_t) :=
  match fuel with
  | O => None
  | S fuel' =>
      '(ok, it) ← bson_iter_next it;
      if negb ok then Some (false, it) else
      ikey ← bson_iter_key it;
      c ← strncmp (Z.to_nat keylen) key ikey;
      if c =? 0 then
        e ← rd ikey keylen;
        if byte_eqb e x00 then Some (true, it) else find_w_len_loop fuel' it key keylen
      else find_w_len_loop fuel' it key keylen
  end.

Definition bson_iter_find_w_len (it : bson_iter_t) (key : bytes) (keylen : Z) :
    option (bool * bson_iter_t) :=
  keylen ← (if keylen <? 0 then n ← strlen key; Some (s32 n) else Some keylen);
  find_w_len_loop (iter_fuel it) it key keylen.

Definition bson_iter_find (it : bson_iter_t) (key : bytes) : option (bool * bson_iter_t) :=
  bson_iter_find_w_len it key (-1).

Fixpoint find_case_loop (fuel : nat) (it : bson_iter_t) (key : bytes) :
    option (bool * bson_iter_t) :=
  match fuel with
  | O => None
  | S fuel' =>
      '(ok, it) ← bson_iter_next it;
      if negb ok then Some (false, it) else
      ikey ← bson_iter_key it;
      c ← strcasecmp key ikey;
      if c =? 0 then Some (true, it) else find_case_loop fuel' it key
  end.

Definition bson_iter_find_case (it : bson_iter_t) (key : bytes) : option (bool * bson_iter_t) :=
  find_case_loop (iter_fuel it) it key.

Definition bson_iter_init_find (data : bytes) (len : Z) (key : bytes) :
    option (bool * bson_iter_t) :=
  let '(ok, it) := bson_iter_init data len in
  if ok then bson_iter_find it key else Some (false, it).

Definition bson_iter_init_find_w_len (data : bytes) (len : Z) (key : bytes) (keylen : Z) :
    option (bool * bson_iter_t) :=
  let '(ok, it) := bson_iter_init data len in
  if ok then bson_iter_find_w_len it key keylen else Some (false, it).

Definition bson_iter_init_find_case (data : bytes) (len : Z) (key : bytes) :
    option (bool * bson_iter_t) :=
  let '(ok, it) := bson_iter_init data len in
  if ok then bson_iter_find_case it key else Some (false, it).

Definition dot : byte := z2b 46.

(** The result is [Some d] when the descendant was found. Each level consumes
    a dot of [dotkey], whose length is the fuel. *)
Fixpoint find_descendant_loop (fuel : nat) (it : bson_iter_t) (dotkey : bytes) :
    option (option bson_iter_t) :=
  match fuel with
  | O => None
  | S fuel' =>
      d ← strchr dotkey dot;
      sublen ← (match d with Some n => Some n | None => strlen dotkey end);
      '(ok, it) ← bson_iter_find_w_len it dotkey (s32 sublen);
      if negb ok then Some None else
      match d with
      | None => Some (Some it)
      | Some n =>
          hd ← iter_holds BSON_TYPE_DOCUMENT it;
          ha ← iter_holds BSON_TYPE_ARRAY it;
          if hd || ha then
            c ← bson_iter_recurse it;
            match c with
            | Some tmp => rest ← padd dotkey (n + 1); find_descendant_loop fuel' tmp rest
            | None => Some None
            end
          else Some None
      end
  end.

Definition bson_iter_find_descendant (it : bson_iter_t) (dotkey : bytes) :
    option (option bson_iter_t) :=
  find_descendant_loop (S (length dotkey)) it dotkey.

(** ** Overwriting in place

    The bytes behind the iterator change; the buffer is shared with the
    document, so the updated memory is part of the result. *)

Definition set_raw (it : bson_iter_t) (m : bytes) : bson_iter_t :=
  Iter (Some m) (it_len it) (it_off it) (it_type it) (it_key it) (it_d1 it) (it_d2 it)
    (it_d3 it) (it_d4 it) (it_next_off it) (it_err_off it).

Definition overwrite (it : bson_iter_t) (t : bson_type_t) (w : bytes -> option bytes) :
    option bson_iter_t :=
  when_type it t (m ← it_raw it; m' ← w m; Some (set_raw it m')) it.

Definition bson_iter_overwrite_bool (it : bson_iter_t) (value : bool) : option bson_iter_t :=
  overwrite it BSON_TYPE_BOOL (fun m => store m (it_d1 it) [z2b (Z.b2z value)]).

Definition bson_iter_overwrite_oid (it : bson_iter_t) (value : bytes) : option bson_iter_t :=
  overwrite it BSON_TYPE_OID (fun m => store m (it_d1 it) value).

Definition bson_iter_overwrite_timestamp (it : bson_iter_t) (timestamp increment : Z) :
    option bson_iter_t :=
  overwrite it BSON_TYPE_TIMESTAMP (fun m =>
    m ← mlib_write_u32le m (it_d1 it) increment; mlib_write_u32le m (it_d1 it + 4) timestamp).

Definition bson_iter_overwrite_date_time (it : bson_iter_t) (value : Z) : option bson_iter_t :=
  overwrite it BSON_TYPE_DATE_TIME (fun m => mlib_write_i64le m (it_d1 it) value).

Definition bson_iter_overwrite_int32 (it : bson_iter_t) (value : Z) : option bson_iter_t :=
  overwrite it BSON_TYPE_INT32 (fun m => mlib_write_i32le m (it_d1 it) value).

Definition bson_iter_overwrite_int64 (it : bson_iter_t) (value : Z) : option bson_iter_t :=
  overwrite it BSON_TYPE_INT64 (fun m => mlib_write_i64le m (it_d1 it) value).

Definition bson_iter_overwrite_double (it : bson_iter_t) (bits : Z) : option bson_iter_t :=
  overwrite it BSON_TYPE_DOUBLE (fun m => mlib_write_f64le m (it_d1 it) bits).

Definition bson_iter_overwrite_decimal128 (it : bson_iter_t) (low high : Z) :
    option bson_iter_t :=
  overwrite it BSON_TYPE_DECIMAL128 (fun m =>
    m ← mlib_write_u64le m (it_d1 it) low; mlib_write_u64le m (it_d1 it + 8) high).

Definition bson_iter_init_from_data_at_offset (data : bytes) (length offset keylen : Z) :
    option (bool * bson_iter_t) :=
  if (length <? 5) || (INT32_MAX <? length) then Some (false, iter_zero) else
  let it := Iter (Some data) length 0 0 0 0 0 0 0 offset 0 in
  r ← _bson_iter_next_internal it keylen;
  if nr_ok r then Some (true, nr_iter r) else Some (false, iter_zero).

(** Reduction of the iterator's record and of monadic plumbing only. *)
Ltac isimpl :=
  cbn [mbind option_bind it_raw it_len it_off it_type it_key it_d1 it_d2 it_d3 it_d4
       it_next_off it_err_off set_d1 set_d2 set_d3 set_d4 set_next set_err set_raw
       mark_invalid iter_start iter_zero orb andb negb fst snd].
