(* ===== verification/BsonIterSafe.v ===== *)
(** Memory safety and progress of the iterator of [BsonIter]: from a
    well-formed iterator, on arbitrary bytes, no operation reads outside the
    buffer, every successful [bson_iter_next] moves forward and leaves offsets
    the accessors can read through, so the [while (bson_iter_next)] loops
    terminate within their fuel. *)

From S2P Require Import Prelude CString IntEncode BsonTypes BsonIter.

(** ** Invariants *)

(** Between elements: the declared length is backed by memory, and the next
    element starts inside it (or the document is too short to have one). *)
Definition iter_wf (it : bson_iter_t) : Prop :=
  match it_raw it with
  | None => True
  | Some m =>
      0 <= it_len it <= zlen m /\ it_len it < 2 ^ 31 /\ 4 <= it_next_off it /\
      (it_next_off it < it_len it \/ (it_len it < 5 /\ it_next_off it = 4))
  end.

(** What [next_field] guarantees about the offsets of an element of type [t]
    whose data start at [o = d1]. *)
Definition elem_ok (m : bytes) (it : bson_iter_t) (t : bson_type_t) : Prop :=
  let o := it_d1 it in
  let next := it_next_off it in
  match t with
  | BSON_TYPE_EOD => False
  | BSON_TYPE_DOUBLE | BSON_TYPE_INT64 | BSON_TYPE_DATE_TIME | BSON_TYPE_TIMESTAMP => next = o + 8
  | BSON_TYPE_UTF8 | BSON_TYPE_CODE | BSON_TYPE_SYMBOL =>
      exists l, mlib_read_u32le m o = Some l /\ 1 <= l /\ it_d2 it = o + 4 /\
        next = o + 4 + l /\ rd m (o + 4 + l - 1) = Some x00
  | BSON_TYPE_DOCUMENT | BSON_TYPE_ARRAY =>
      exists l, mlib_read_u32le m o = Some l /\ next = o + l
  | BSON_TYPE_BINARY =>
      exists l st, mlib_read_u32le m o = Some l /\ rd m (o + 4) = Some st /\
        it_d2 it = o + 4 /\ it_d3 it = o + 5 /\ next = o + 5 + l /\
        (b2z st = BSON_SUBTYPE_BINARY_DEPRECATED ->
         4 <= l /\ mlib_read_i32le m (o + 5) = Some (l - 4))
  | BSON_TYPE_UNDEFINED | BSON_TYPE_NULL | BSON_TYPE_MAXKEY | BSON_TYPE_MINKEY => next = o
  | BSON_TYPE_OID => next = o + 12
  | BSON_TYPE_BOOL =>
      exists v, rd m o = Some v /\ (b2z v = 0 \/ b2z v = 1) /\ next = o + 1
  | BSON_TYPE_REGEX =>
      o < it_d2 it < next /\ rd m (it_d2 it - 1) = Some x00 /\ rd m (next - 1) = Some x00
  | BSON_TYPE_DBPOINTER =>
      exists l, mlib_read_u32le m o = Some l /\ 1 <= l /\ it_d2 it = o + 4 /\
        it_d3 it = o + 4 + l /\ next = o + 4 + l + 12 /\ rd m (o + l + 3) = Some x00
  | BSON_TYPE_CODEWSCOPE =>
      exists l1 l2 l3, mlib_read_u32le m o = Some l1 /\ mlib_read_u32le m (o + 4) = Some l2 /\
        mlib_read_u32le m (o + 8 + l2) = Some l3 /\ 1 <= l2 /\ it_d2 it = o + 4 /\
        it_d3 it = o + 8 /\ it_d4 it = o + 8 + l2 /\ next = o + l1 /\ 8 + l2 + 4 < l1 /\
        u32 (o + 8 + l2 + l3) = next
  | BSON_TYPE_INT32 => next = o + 4
  | BSON_TYPE_DECIMAL128 => next = o + 16
  end.

(** On an element: where a successful [bson_iter_next] leaves the iterator. *)
Definition iter_on (m : bytes) (t : bson_type_t) (it : bson_iter_t) : Prop :=
  it_raw it = Some m /\ it_len it <= zlen m /\ it_len it < 2 ^ 31 /\
  4 <= it_off it /\ it_type it = it_off it /\ it_key it = it_off it + 1 /\
  it_key it < it_d1 it <= it_next_off it /\ it_next_off it < it_len it /\
  ITER_TYPE it = Some (type_code t) /\ rd m (it_d1 it - 1) = Some x00 /\
  (forall i, it_key it <= i < it_d1 it - 1 -> rd m i <> Some x00) /\
  elem_ok m it t.

(** ** The scan for a terminator *)

Lemma find_nul_spec fuel m o :
  0 <= o -> o + Z.of_nat fuel <= zlen m ->
  exists r, find_nul fuel m o = Some r /\
    match r with
    | Some p => o <= p < o + Z.of_nat fuel /\ rd m p = Some x00 /\
        (forall i, o <= i < p -> rd m i <> Some x00)
    | None => forall i, o <= i < o + Z.of_nat fuel -> rd m i <> Some x00
    end.
Proof.
  revert o. induction fuel as [|fuel IH]; intros o Ho Hm.
  - exists None. split; [done|]. intros. lia.
  - destruct (proj2 (rd_is_Some m o)) as [c Hc]; [lia|]. simpl. rewrite Hc. simpl.
    destruct (byte_eqb c x00) eqn:E.
    + apply byte_eqb_spec in E as ->. exists (Some o). split; [done|].
      repeat split; [lia|lia|done|]. intros. lia.
    + destruct (IH (o + 1)) as (r & -> & Hr); [lia..|]. exists r. split; [done|].
      assert (rd m o <> Some x00) by (rewrite Hc; intros [= ->]; done).
      destruct r as [p|].
      * destruct Hr as (? & ? & Hr). repeat split; [lia|lia|done|].
        intros i Hi. destruct (decide (i = o)) as [->|]; [done|]. apply Hr. lia.
      * intros i Hi. destruct (decide (i = o)) as [->|]; [done|]. apply Hr. lia.
Qed.

Lemma scan_nul_spec m o len :
  0 <= o -> len <= zlen m ->
  exists r, scan_nul m o len = Some r /\
    match r with
    | Some p => o <= p < len /\ rd m p = Some x00 /\
        (forall i, o <= i < p -> rd m i <> Some x00)
    | None => forall i, o <= i < len -> rd m i <> Some x00
    end.
Proof.
  intros Ho Hl. unfold scan_nul.
  destruct (Z_le_gt_dec len o).
  - replace (Z.to_nat (len - o)) with 0%nat by lia. exists None. split; [done|].
    intros. lia.
  - destruct (find_nul_spec (Z.to_nat (len - o)) m o) as (r & Hr & Hs); [lia..|].
    exists r. split; [done|]. replace (o + Z.of_nat (Z.to_nat (len - o))) with len in Hs by lia.
    done.
Qed.

(** ** The cases of the switch *)

Definition same_head (it it' : bson_iter_t) : Prop :=
  it_raw it' = it_raw it /\ it_len it' = it_len it /\ it_off it' = it_off it /\
  it_type it' = it_type it /\ it_key it' = it_key it /\ it_d1 it' = it_d1 it.

Definition field_post (m : bytes) (len o : Z) (it : bson_iter_t) (t : bson_type_t)
    (f : field) : Prop :=
  match f with
  | FNext it' _ =>
      same_head it it' /\ o <= it_next_off it' < 2 ^ 32 /\
      (it_next_off it' < len -> elem_ok m it' t)
  | FInvalid it' | FUnsupported it' => same_head it it'
  end.

Section Cases.
Context (m : bytes) (len o : Z) (it : bson_iter_t).
Hypothesis Hlen : len <= zlen m.
Hypothesis Hsmall : len < 2 ^ 31.
Hypothesis Ho : 6 <= o <= len.
Hypothesis Hd1 : it_d1 it = o.

(** A fixed-width element. *)
Lemma fixed_post n t :
  0 <= n <= 16 ->
  (elem_ok m (set_next it (o + n)) t <-> o + n = o + n) ->
  field_post m len o it t (FNext (set_next it (u32 (o + n))) o).
Proof.
  intros Hn Hok. rewrite u32_id by lia. simpl. repeat split; try lia.
  intros _. by apply Hok.
Qed.

Local Ltac bail :=
  eexists; split; [reflexivity|]; repeat split; simpl; try lia; done.

Lemma next_string_post t :
  t = BSON_TYPE_UTF8 \/ t = BSON_TYPE_CODE \/ t = BSON_TYPE_SYMBOL ->
  exists f, next_string m len o it = Some f /\ field_post m len o it t f.
Proof.
  intros Ht. unfold next_string. rewrite (u32_id (o + 4)) by lia.
  destruct (Z.leb_spec len (o + 4)); [bail|]. simpl. rewrite Hd1.
  destruct (mlib_read_u32le_Some m o) as (l & Hl & ?); [lia..|]. rewrite Hl. simpl.
  rewrite (u32_id (len - _)) by lia. destruct (Z.ltb_spec (len - (o + 4)) l); [bail|].
  rewrite (u32_id (o + 4 + l)) by lia.
  destruct (Z.eqb_spec l 0); [bail|]. destruct (Z.leb_spec len (o + 4 + l)); [bail|].
  simpl. rewrite (u32_id (l - 1)) by lia.
  destruct (proj2 (rd_is_Some m (o + 4 + (l - 1)))) as [c Hc]; [lia|]. rewrite Hc. simpl.
  destruct (byte_eqb c x00) eqn:E; simpl; [|bail]. apply byte_eqb_spec in E as ->.
  eexists; split; [done|]. simpl. repeat split; try lia. intros _.
  replace (o + 4 + (l - 1)) with (o + 4 + l - 1) in Hc by lia.
  destruct Ht as [->|[->| ->]]; exists l; simpl; rewrite Hd1; repeat split; (done || lia).
Qed.

Lemma next_binary_post :
  exists f, next_binary m len o it = Some f /\ field_post m len o it BSON_TYPE_BINARY f.
Proof.
  unfold next_binary. rewrite (u32_id (len - 4)) by lia.
  destruct (Z.leb_spec (len - 4) o); [bail|]. simpl. rewrite Hd1.
  rewrite (u32_id (o + 4)), (u32_id (o + 5)) by lia.
  destruct (mlib_read_u32le_Some m o) as (l & Hl & ?); [lia..|]. rewrite Hl. simpl.
  rewrite (u32_id (len - o - 4)) by lia. destruct (Z.leb_spec (len - o - 4) l); [bail|].
  destruct (proj2 (rd_is_Some m (o + 4))) as [st Hst]; [lia|]. rewrite Hst. simpl.
  rewrite (u32_id (o + 5 + l)) by lia.
  destruct (Z.eqb_spec (b2z st) BSON_SUBTYPE_BINARY_DEPRECATED) as [E|E].
  - destruct (Z.ltb_spec l 4); [bail|]. unfold mlib_read_i32le.
    destruct (mlib_read_u32le_Some m (o + 5)) as (l' & Hl' & ?); [lia..|]. rewrite Hl'. simpl.
    rewrite (u32_id (l - 4)) by lia.
    destruct (Z.eqb_spec (s32 l') (l - 4)) as [E'|]; simpl; [|bail].
    eexists; split; [done|]. simpl. repeat split; try lia. intros _. rewrite Hd1.
    exists l, st. repeat split; try done; try lia.
    unfold mlib_read_i32le. rewrite Hl'. simpl. by rewrite E'.
  - eexists; split; [done|]. simpl. repeat split; try lia. intros _. rewrite Hd1.
    exists l, st. repeat split; try done; try lia.
Qed.

Lemma next_document_post t :
  t = BSON_TYPE_DOCUMENT \/ t = BSON_TYPE_ARRAY ->
  exists f, next_document m len o it = Some f /\ field_post m len o it t f.
Proof.
  intros Ht. unfold next_document. rewrite (u32_id (len - 4)) by lia.
  destruct (Z.leb_spec (len - 4) o); [bail|]. rewrite Hd1.
  destruct (mlib_read_u32le_Some m o) as (l & Hl & ?); [lia..|]. rewrite Hl. simpl.
  rewrite (u32_id (len - o)) by lia. destruct (Z.ltb_spec len l); [bail|].
  destruct (Z.ltb_spec (len - o) l); [bail|]. rewrite (u32_id (o + l)) by lia. simpl.
  eexists; split; [done|]. simpl. repeat split; try lia. intros _.
  destruct Ht as [->| ->]; exists l; simpl; rewrite Hd1; done.
Qed.

Lemma next_bool_post :
  exists f, next_bool m len o it = Some f /\ field_post m len o it BSON_TYPE_BOOL f.
Proof.
  unfold next_bool. rewrite Hd1. destruct (Z.leb_spec len o); [bail|].
  destruct (proj2 (rd_is_Some m o)) as [v Hv]; [lia|]. rewrite Hv. simpl.
  rewrite (u32_id (o + 1)) by lia.
  destruct (Z.eqb_spec (b2z v) 0), (Z.eqb_spec (b2z v) 1); simpl; try bail;
    (eexists; split; [done|]); simpl; (repeat split; try lia); intros _;
    rewrite Hd1; exists v; auto.
Qed.

Lemma next_regex_post :
  exists f, next_regex m len o it = Some f /\ field_post m len o it BSON_TYPE_REGEX f.
Proof.
  unfold next_regex. destruct (scan_nul_spec m o len) as (r & -> & Hr); [lia..|]. simpl.
  destruct r as [p|]; [|bail]. destruct Hr as (? & Hp & _). rewrite (u32_id (p + 1)) by lia.
  destruct (scan_nul_spec m (p + 1) len) as (r & -> & Hr); [lia..|]. simpl.
  destruct r as [q|]; [|bail]. destruct Hr as (? & Hq & _). rewrite (u32_id (q + 1)) by lia.
  eexists; split; [done|]. simpl. repeat split; try lia; simpl; rewrite ?Hd1; try lia.
  - by replace (p + 1 - 1) with p by lia.
  - by replace (q + 1 - 1) with q by lia.
Qed.

Lemma next_dbpointer_post :
  exists f, next_dbpointer m len o it = Some f /\
    field_post m len o it BSON_TYPE_DBPOINTER f.
Proof.
  unfold next_dbpointer. rewrite (u32_id (len - 4)), (u32_id (o + 4)) by lia.
  destruct (Z.leb_spec (len - 4) o); [bail|]. simpl. rewrite Hd1.
  destruct (mlib_read_u32le_Some m o) as (l & Hl & ?); [lia..|]. rewrite Hl. simpl.
  rewrite (u32_id (len - o - 4)) by lia. destruct (Z.eqb_spec l 0); [bail|].
  destruct (Z.ltb_spec (len - o - 4) l); [bail|]. simpl.
  rewrite (u32_id (o + l + 3)), (u32_id (o + 4 + l)), (u32_id (o + 4 + l + 12)) by lia.
  destruct (proj2 (rd_is_Some m (o + l + 3))) as [c Hc]; [lia|]. rewrite Hc. simpl.
  destruct (byte_eqb c x00) eqn:E; simpl; [|bail]. apply byte_eqb_spec in E as ->.
  eexists; split; [done|]. simpl. repeat split; try lia. intros _.
  rewrite Hd1. exists l. repeat split; (done || lia).
Qed.

Lemma next_codewscope_post :
  exists f, next_codewscope m len o it = Some f /\
    field_post m len o it BSON_TYPE_CODEWSCOPE f.
Proof.
  unfold next_codewscope. destruct (Z.ltb_spec len 19); [bail|].
  rewrite (u32_id (len - 14)), (u32_id (o + 4)), (u32_id (o + 8)) by lia.
  destruct (Z.leb_spec (len - 14) o); [bail|]. simpl. rewrite Hd1.
  destruct (mlib_read_u32le_Some m o) as (l1 & Hl1 & ?); [lia..|]. rewrite Hl1. simpl.
  rewrite (u32_id (len - o)) by lia.
  destruct (Z.ltb_spec l1 14); [bail|]. destruct (Z.leb_spec (len - o) l1); [bail|]. simpl.
  rewrite (u32_id (o + l1)) by lia. destruct (Z.leb_spec len (o + l1)); [bail|].
  destruct (mlib_read_u32le_Some m (o + 4)) as (l2 & Hl2 & ?); [lia..|]. rewrite Hl2. simpl.
  rewrite (u32_id (len - o - 4 - 4)) by lia.
  destruct (Z.eqb_spec l2 0); [bail|]. destruct (Z.leb_spec (len - o - 4 - 4) l2); [bail|].
  simpl. rewrite (u32_id (o + 4 + 4 + l2 + 4)), (u32_id (o + 4 + 4 + l2)) by lia.
  destruct (Z.leb_spec (o + l1) (o + 4 + 4 + l2 + 4)); [bail|].
  replace (o + 4 + 4 + l2) with (o + 8 + l2) by lia.
  destruct (mlib_read_u32le_Some m (o + 8 + l2)) as (l3 & Hl3 & ?); [lia..|].
  rewrite Hl3. simpl.
  destruct (Z.eqb_spec (u32 (o + 8 + l2 + l3)) (o + l1)); simpl; [|bail].
  eexists; split; [done|]. simpl. repeat split; try lia. intros _.
  rewrite Hd1. exists l1, l2, l3. repeat split; (done || lia).
Qed.

Lemma next_field_post ty :
  exists f, next_field m len o ty it = Some f /\
    match type_of_code ty with
    | Some t => field_post m len o it t f
    | None => exists it', f = FUnsupported it' /\ same_head it it'
    end.
Proof.
  unfold next_field. destruct (type_of_code ty) as [t|]; [|eexists; split; [done|]].
  2: { eexists; split; [done|]. repeat split. }
  destruct t;
    first [ apply next_string_post; tauto | apply next_binary_post
          | apply next_document_post; tauto | apply next_bool_post | apply next_regex_post
          | apply next_dbpointer_post | apply next_codewscope_post
          | eexists; split; [done|];
            first [ apply fixed_post; [lia|]; simpl; rewrite Hd1; done
                  | simpl; rewrite ?Hd1; repeat split; lia ] ].
Qed.
End Cases.

(** ** One step *)

(** The outcome of a call on a well-formed iterator over [m]. *)
Definition next_post (m : bytes) (it : bson_iter_t) (r : next_result) : Prop :=
  if nr_ok r then
    exists t, iter_on m t (nr_iter r) /\ it_len (nr_iter r) = it_len it /\
      it_off (nr_iter r) = it_next_off it /\ it_next_off it < it_next_off (nr_iter r) /\
      nr_type r = Some (type_code t) /\ it_err_off (nr_iter r) = 0 /\
      nr_unsupported r = false /\
      exists k, nr_key r = Some (Some k) /\ padd m (it_key (nr_iter r)) = Some k
  else it_raw (nr_iter r) = None /\ it_len (nr_iter r) = 0 /\ it_next_off (nr_iter r) = 0.

Lemma fill_data_fields_post m it o :
  it_raw it = Some m -> it_len it <= zlen m -> it_len it < 2 ^ 31 ->
  4 <= it_off it -> it_type it = it_off it -> it_key it = it_off it + 1 ->
  it_d1 it = o -> it_key it < o <= it_len it -> it_off it = it_next_off it ->
  rd m (o - 1) = Some x00 ->
  (forall i, it_key it <= i < o - 1 -> rd m i <> Some x00) ->
  exists r, fill_data_fields m (it_len it) o it = Some r /\ next_post m it r.
Proof.
  intros Hraw Hm Hl Hoff Hty Hkey Hd1 Ho Hno Hz Hnz. unfold fill_data_fields.
  destruct (proj2 (padd_is_Some m (it_key it))) as [k Hk]; [lia|]. rewrite Hk. simpl.
  unfold ITER_TYPE. rewrite Hraw. simpl.
  destruct (proj2 (rd_is_Some m (it_type it))) as [b Hb]; [lia|]. rewrite Hb. simpl.
  destruct (next_field_post m (it_len it) o it Hm Hl ltac:(lia) Hd1 (b2z b)) as (f & -> & Hf).
  simpl. eexists; split; [done|].
  destruct (type_of_code (b2z b)) as [t|] eqn:Et; [|by destruct Hf as (it' & -> & _)].
  destruct f as [it' o'|it'|it']; [|done|done].
  destruct Hf as (Hh & Hnx & Hok). destruct (Z.leb_spec (it_len it) (it_next_off it')); [done|].
  destruct Hh as (H1 & H2 & H3 & H4 & H5 & H6).
  exists t. simpl. apply type_of_code_Some in Et. rewrite H2, H3, H5.
  repeat split; try (simpl; rewrite ?H1, ?H2, ?H3, ?H4, ?H5, ?H6; (done || lia)).
  - unfold ITER_TYPE. simpl. rewrite H1, Hraw, H4. simpl. rewrite Hb. simpl. by rewrite Et.
  - simpl. rewrite H6, Hd1. done.
  - simpl. rewrite H5, H6, Hd1. done.
  - specialize (Hok ltac:(lia)). clear -Hok. by destruct t.
  - by rewrite Et.
  - exists k. done.
Qed.

Lemma next_internal_post it :
  iter_wf it ->
  exists r, _bson_iter_next_internal it 0 = Some r /\
    match it_raw it with
    | Some m => next_post m it r
    | None => nr_ok r = false /\ nr_iter r = it
    end.
Proof.
  intros Hwf. unfold _bson_iter_next_internal, iter_wf in *.
  destruct (it_raw it) as [m|] eqn:Hraw; [|by eexists].
  destruct Hwf as (Hm & Hl & Hn & Hlt). simpl. rewrite (u32_id (it_next_off it + 1)) by lia.
  destruct (scan_nul_spec m (it_next_off it + 1) (it_len it)) as (r & -> & Hr); [lia..|].
  simpl. destruct r as [p|].
  - destruct Hr as (Hp & Hz & Hnz). rewrite (u32_id (p + 1)) by lia.
    set (it' := set_d1 _ _).
    destruct (fill_data_fields_post m it' (p + 1)) as (r & Hr & Hpost);
      try (subst it'; simpl; (done || lia)).
    + subst it'. simpl. by replace (p + 1 - 1) with p by lia.
    + subst it'. simpl. intros i Hi. apply Hnz. lia.
    + exists r. split; [exact Hr|]. exact Hpost.
  - eexists; split; [done|]. done.
Qed.

Lemma bson_iter_next_post it :
  iter_wf it ->
  exists ok it', bson_iter_next it = Some (ok, it') /\
    if ok then exists m t, it_raw it = Some m /\ iter_on m t it' /\ it_len it' = it_len it /\
                 it_off it' = it_next_off it /\ it_next_off it < it_next_off it' /\
                 it_err_off it' = 0
    else it_raw it' = None /\ (it_raw it = None -> it' = it).
Proof.
  intros Hwf. unfold bson_iter_next.
  destruct (next_internal_post it Hwf) as (r & -> & Hr). simpl.
  exists (nr_ok r), (nr_iter r). split; [done|].
  destruct (it_raw it) as [m|] eqn:Hraw.
  - unfold next_post in Hr. destruct (nr_ok r).
    + destruct Hr as (t & ? & ? & ? & ? & ? & ? & _). exists m, t. done.
    + destruct Hr as (? & _). done.
  - destruct Hr as [-> ->]. done.
Qed.

Lemma iter_on_wf m t it : iter_on m t it -> iter_wf it.
Proof.
  intros (Hr & Hm & Hl & Ho & _ & Hk & Hd & Hn & _). unfold iter_wf. rewrite Hr. lia.
Qed.

Lemma iter_start_wf m len : 0 <= len <= zlen m -> len < 2 ^ 31 -> iter_wf (iter_start m len).
Proof. intros. unfold iter_wf. simpl. lia. Qed.

Lemma bson_iter_init_wf m len :
  0 <= len <= zlen m -> len < 2 ^ 31 -> iter_wf (bson_iter_init m len).2.
Proof. intros. unfold bson_iter_init. bdestruct; [done|by apply iter_start_wf]. Qed.

#[export] Hint Resolve iter_on_wf iter_start_wf bson_iter_init_wf : clib.

(** The number of steps an iterator can still take. *)
Definition iter_left (it : bson_iter_t) : Z :=
  match it_raw it with None => 0 | Some _ => Z.max 0 (it_len it - it_next_off it) end.

Lemma iter_left_fuel it : iter_wf it -> iter_left it < Z.of_nat (iter_fuel it).
Proof. unfold iter_wf, iter_left, iter_fuel. destruct (it_raw it); lia. Qed.

(** ** The key of an element *)

Lemma iter_on_key m t it :
  iter_on m t it -> exists s rest, bson_iter_key it = Some (s ++ x00 :: rest) /\ no_nul s /\
    bson_iter_key_len it = Some (zlen s).
Proof.
  intros (Hr & Hm & Hl & Ho & Hty & Hk & Hd & Hn & _ & Hz & Hnz & _).
  unfold bson_iter_key, bson_iter_key_unsafe, raw_at. rewrite Hr. simpl.
  destruct (proj2 (padd_is_Some m (it_key it))) as [k Hkk]; [lia|]. rewrite Hkk.
  pose proof (padd_zlen _ _ _ Hkk) as [Hlk _].
  set (n := it_d1 it - 1 - it_key it).
  assert (Hat : rd k n = Some x00).
  { rewrite (padd_rd _ _ _ _ Hkk) by lia. by replace (it_key it + n) with (it_d1 it - 1) by lia. }
  unfold rd in Hat. bdestruct. exists (take (Z.to_nat n) k), (drop (S (Z.to_nat n)) k).
  split; [by rewrite take_drop_middle|]. split.
  - unfold no_nul. rewrite list_elem_of_lookup. intros [i Hi].
    assert (i < Z.to_nat n)%nat as Hin.
    { apply lookup_lt_Some in Hi. rewrite length_take in Hi. lia. }
    rewrite lookup_take_lt in Hi by done.
    apply (Hnz (it_key it + Z.of_nat i)); [lia|].
    rewrite <- (padd_rd _ _ _ _ Hkk) by lia. unfold rd. bdestruct. by rewrite Nat2Z.id.
  - unfold bson_iter_key_len. bdestruct. rewrite u32_id by lia.
    rewrite zlen_take by lia. f_equal. lia.
Qed.

(** ** Accessors on an element *)

Lemma raw_at_on m t it o :
  iter_on m t it -> 0 <= o <= it_len it ->
  exists p, raw_at it o = Some p /\ padd m o = Some p.
Proof.
  intros (Hr & Hm & _) Ho. unfold raw_at. rewrite Hr. simpl.
  destruct (proj2 (padd_is_Some m o)) as [p Hp]; [lia|]. eauto.
Qed.

Lemma raw_u32_on m t it o : iter_on m t it -> raw_u32 it o = mlib_read_u32le m o.
Proof. intros (Hr & _). unfold raw_u32. by rewrite Hr. Qed.

Lemma iter_on_type m t it : iter_on m t it -> ITER_TYPE it = Some (type_code t).
Proof. by intros (_ & _ & _ & _ & _ & _ & _ & _ & H & _). Qed.

Lemma iter_on_holds m t it t' :
  iter_on m t it -> iter_holds t' it = Some (bool_decide (t = t')).
Proof.
  intros H. pose proof (iter_on_type _ _ _ H) as Ht.
  destruct H as (Hr & Hm & Hl & Ho & Hty & Hk & Hd & Hn & _).
  unfold iter_holds, bson_iter_type, bson_iter_type_unsafe. bdestruct. rewrite Ht. simpl.
  f_equal. case_bool_decide as E; [subst; lia|].
  apply Z.eqb_neq. intros E'. apply E.
  pose proof (type_of_code_code t) as H1. pose proof (type_of_code_code t') as H2.
  rewrite E' in H1. congruence.
Qed.

Lemma when_type_yes {A} m t it (yes : option A) no :
  iter_on m t it -> when_type it t yes no = yes.
Proof.
  intros H. unfold when_type. rewrite (iter_on_type _ _ _ H). simpl. by rewrite Z.eqb_refl.
Qed.

Lemma when_type_no {A} m t t' it (yes : option A) no :
  iter_on m t it -> t <> t' -> when_type it t' yes no = Some no.
Proof.
  intros H Hne. unfold when_type. rewrite (iter_on_type _ _ _ H). simpl.
  destruct (Z.eqb_spec (type_code t) (type_code t')) as [E|]; [|done].
  pose proof (type_of_code_code t). pose proof (type_of_code_code t'). congruence.
Qed.

(** A terminated string of the given length at a pointer. *)
Definition string_at (p : bytes) (l : Z) : Prop := exists s rest, p = s ++ x00 :: rest /\ zlen s = l.

Lemma rd_string_at p l : rd p l = Some x00 -> string_at p l.
Proof.
  intros H. pose proof (rd_lt _ _ _ H). unfold rd in H. bdestruct.
  exists (take (Z.to_nat l) p), (drop (S (Z.to_nat l)) p).
  split; [by rewrite take_drop_middle|]. apply zlen_take. lia.
Qed.

Lemma iter_string_on m t it :
  iter_on m t it -> t = BSON_TYPE_UTF8 \/ t = BSON_TYPE_CODE \/ t = BSON_TYPE_SYMBOL ->
  exists l p, iter_string t it = Some (Some p, l) /\ string_at p l /\
    0 <= l < 2 ^ 31 /\ padd m (it_d2 it) = Some p /\
    mlib_read_u32le m (it_d1 it) = Some (l + 1).
Proof.
  intros Hon Ht. unfold iter_string. rewrite (when_type_yes _ _ _ _ _ Hon).
  assert (exists l, mlib_read_u32le m (it_d1 it) = Some l /\ 1 <= l /\
    it_d2 it = it_d1 it + 4 /\ it_next_off it = it_d1 it + 4 + l /\
    rd m (it_d1 it + 4 + l - 1) = Some x00) as (l & Hl & ? & Hd2 & Hn & Hz).
  { destruct Hon as (_ & _ & _ & _ & _ & _ & _ & _ & _ & _ & _ & Hok).
    by destruct Ht as [->|[->| ->]]. }
  destruct (raw_at_on m t it (it_d2 it) Hon) as (p & Hp & Hpm).
  { destruct Hon as (_ & _ & _ & ? & _ & ? & ? & ? & _). lia. }
  unfold bson_iter_utf8_len_unsafe. rewrite (raw_u32_on _ _ _ _ Hon), Hl. simpl.
  assert (it_next_off it < 2 ^ 31 /\ 0 <= it_d1 it).
  { destruct Hon as (_ & _ & ? & ? & _ & ? & ? & ? & _). lia. }
  rewrite s32_id by lia. rewrite Hp. simpl. exists (l - 1), p.
  split; [destruct (Z.leb_spec l 0); [lia|]; by rewrite u32_id by lia|].
  split; [|repeat split; try lia; try done].
  - apply rd_string_at. rewrite (padd_rd _ _ _ _ Hpm) by lia. rewrite Hd2.
    by replace (it_d1 it + 4 + (l - 1)) with (it_d1 it + 4 + l - 1) by lia.
  - f_equal. lia.
Qed.

(** The child of a document or array element is well formed. *)
Lemma bson_iter_recurse_on m t it :
  iter_on m t it -> t = BSON_TYPE_DOCUMENT \/ t = BSON_TYPE_ARRAY ->
  exists d l, bson_iter_recurse it = Some (Some (iter_start d l)) /\
    padd m (it_d1 it) = Some d /\ mlib_read_u32le m (it_d1 it) = Some l /\
    iter_wf (iter_start d l) /\ it_next_off it = it_d1 it + l.
Proof.
  intros Hon Ht.
  assert (exists l, mlib_read_u32le m (it_d1 it) = Some l /\ it_next_off it = it_d1 it + l)
    as (l & Hl & Hn).
  { destruct Hon as (_ & _ & _ & _ & _ & _ & _ & _ & _ & _ & _ & Hok).
    by destruct Ht as [->| ->]. }
  destruct (raw_at_on m t it (it_d1 it) Hon) as (d & Hd & Hdm).
  { destruct Hon as (_ & _ & _ & ? & _ & ? & ? & ? & _). lia. }
  exists d, l. unfold bson_iter_recurse. rewrite (iter_on_type _ _ _ Hon). simpl.
  assert (iter_wf (iter_start d l)).
  { apply mlib_read_u32le_inv in Hl as (? & ? & ?).
    pose proof (padd_zlen _ _ _ Hdm). destruct Hon as (_ & ? & ? & ? & _ & ? & ? & ? & _).
    apply iter_start_wf; lia. }
  destruct Ht as [->| ->]; simpl;
    unfold bson_iter_document, bson_iter_array, iter_subdoc;
    rewrite (when_type_yes _ _ _ _ _ Hon), (raw_u32_on _ _ _ _ Hon), Hl; simpl;
    rewrite Hd; simpl; done.
Qed.

Lemma bson_iter_recurse_scalar m t it :
  iter_on m t it -> t <> BSON_TYPE_DOCUMENT -> t <> BSON_TYPE_ARRAY ->
  bson_iter_recurse it = Some None.
Proof.
  intros Hon H1 H2. unfold bson_iter_recurse. rewrite (iter_on_type _ _ _ Hon). simpl.
  by destruct t.
Qed.

Lemma bson_iter_binary_on m it :
  iter_on m BSON_TYPE_BINARY it ->
  exists st l p, bson_iter_binary it true = Some (st, l, Some p) /\ 0 <= l <= zlen p /\ is_u8 st /\
    it_d1 it + 5 + l <= it_next_off it.
Proof.
  intros Hon. unfold bson_iter_binary. rewrite (when_type_yes _ _ _ _ _ Hon).
  destruct Hon as (Hr & Hm & Hlen & Ho & _ & Hk & Hd & Hn & _ & _ & _ & Hok).
  destruct Hok as (l & st & Hl & Hst & Hd2 & Hd3 & Hnx & Hdep).
  rewrite Hr. simpl. rewrite Hd2, Hst. simpl. rewrite Hl. simpl. rewrite Hd3.
  pose proof (mlib_read_u32le_inv _ _ _ Hl) as (_ & _ & ?).
  destruct (proj2 (padd_is_Some m (it_d1 it + 5))) as [p Hp]; [lia|]. rewrite Hp. simpl.
  pose proof (padd_zlen _ _ _ Hp) as [? _].
  destruct (Z.eqb_spec (b2z st) BSON_SUBTYPE_BINARY_DEPRECATED) as [E|E].
  - destruct (Hdep E) as [? _]. destruct (proj2 (padd_is_Some p 4)) as [q Hq]; [lia|].
    rewrite Hq. simpl. pose proof (padd_zlen _ _ _ Hq) as [? _].
    rewrite u32_id by lia. eexists _, _, _. split; [done|]. split; [lia|]. split; [apply b2z_range|lia].
  - eexists _, _, _. split; [done|]. split; [lia|]. split; [apply b2z_range|lia].
Qed.

Lemma bson_iter_codewscope_on m it :
  iter_on m BSON_TYPE_CODEWSCOPE it ->
  exists c l sl s, bson_iter_codewscope it = Some (Some c, l, sl, Some s) /\
    0 <= l <= zlen c /\ 0 <= sl <= zlen s /\ it_d1 it + 8 + l + sl <= it_next_off it.
Proof.
  intros Hon. unfold bson_iter_codewscope. rewrite (when_type_yes _ _ _ _ _ Hon).
  rewrite !(raw_u32_on _ _ _ _ Hon).
  pose proof Hon as (Hr & Hm & Hlen & Ho & _ & Hk & Hd & Hn & _ & _ & _ & Hok).
  destruct Hok as (l1 & l2 & l3 & Hl1 & Hl2 & Hl3 & ? & Hd2 & Hd3 & Hd4 & Hnx & ? & Hsum).
  rewrite Hd2, Hd3, Hd4, Hl2. simpl. destruct (Z.eqb_spec l2 0); [lia|].
  rewrite Hl3. simpl.
  destruct (raw_at_on m _ it (it_d1 it + 8 + l2) Hon) as (s & -> & Hs); [lia|]. simpl.
  destruct (raw_at_on m _ it (it_d1 it + 8) Hon) as (c & -> & Hc); [lia|]. simpl.
  pose proof (padd_zlen _ _ _ Hc) as [? _].
  pose proof (mlib_read_u32le_inv _ _ _ Hl3) as (_ & _ & ?).
  pose proof (mlib_read_u32le_inv _ _ _ Hl2) as (_ & _ & ?).
  pose proof (padd_zlen _ _ _ Hs) as [? _].
  assert (it_d1 it + 8 + l2 + l3 = it_next_off it).
  { unfold u32 in Hsum. Z.to_euclidean_division_equations. lia. }
  exists c, (l2 - 1), l3, s. rewrite u32_id by lia. repeat split; lia.
Qed.

Ltac fixed_read Hon :=
  pose proof Hon as (?Hr & ?Hm & ?Hlen & ?Ho & _ & ?Hk & ?Hd & ?Hn & _ & _ & _ & ?Hok);
  simpl in *.

Lemma raw_u64_on m t it o :
  iter_on m t it -> 0 <= o -> o + 8 <= it_len it ->
  exists v, mlib_read_u64le m o = Some v /\ 0 <= v < 2 ^ 64.
Proof. intros (_ & Hm & _) ? ?. apply mlib_read_u64le_Some; lia. Qed.

Lemma raw_i64_on m t it o :
  iter_on m t it -> 0 <= o -> o + 8 <= it_len it ->
  exists v, mlib_read_i64le m o = Some v /\ is_s64 v.
Proof.
  intros Hon ? ?. destruct (raw_u64_on m t it o Hon) as (v & Hv & _); [lia..|].
  unfold mlib_read_i64le. rewrite Hv. simpl. eexists; split; [done|]. apply s64_range.
Qed.

(** No accessor faults on an element: [bson_iter_value] boxes it. *)
Lemma iter_subdoc_on m t it :
  iter_on m t it -> t = BSON_TYPE_DOCUMENT \/ t = BSON_TYPE_ARRAY ->
  exists l d, iter_subdoc t it = Some (l, Some d) /\ 0 <= l <= zlen d /\ it_next_off it = it_d1 it + l.
Proof.
  intros Hon Ht. unfold iter_subdoc. rewrite (when_type_yes _ _ _ _ _ Hon), (raw_u32_on _ _ _ _ Hon).
  destruct Ht as [->| ->]; fixed_read Hon; destruct Hok as (l & El & ?); rewrite El; simpl;
    pose proof (mlib_read_u32le_inv _ _ _ El) as (_ & _ & ?);
    (destruct (raw_at_on m _ it (it_d1 it) Hon) as (p & -> & Hp); [lia|]; simpl; exists l, p;
     pose proof (padd_zlen _ _ _ Hp); split; [done|]; lia).
Qed.

Lemma bson_iter_dbpointer_on m it :
  iter_on m BSON_TYPE_DBPOINTER it ->
  exists l c oid, bson_iter_dbpointer it = Some (l, Some c, Some oid) /\ 0 <= l <= zlen c /\ zlen oid = 12 /\
    it_d1 it + 16 + l <= it_next_off it.
Proof.
  intros Hon. assert (Hraw : it_raw it = Some m) by apply Hon.
  unfold bson_iter_dbpointer. rewrite (when_type_yes _ _ _ _ _ Hon).
  rewrite (raw_u32_on _ _ _ _ Hon), Hraw. fixed_read Hon.
  destruct Hok as (l & El & ? & -> & -> & ? & _). rewrite El. simpl.
  pose proof (mlib_read_u32le_inv _ _ _ El) as (_ & _ & ?).
  destruct (raw_at_on m _ it (it_d1 it + 4) Hon) as (c & -> & Hc); [lia|]. simpl.
  destruct (proj2 (slice_is_Some m (it_d1 it + 4 + l) 12)) as [s Es]; [lia|]. rewrite Es. simpl.
  pose proof (padd_zlen _ _ _ Hc). apply slice_zlen in Es. destruct (Z.ltb_spec 0 l); [|lia]. rewrite u32_id by lia.
  do 3 eexists. split; [done|]. lia.
Qed.

Lemma bson_iter_timestamp_on m it :
  iter_on m BSON_TYPE_TIMESTAMP it -> exists r, bson_iter_timestamp it = Some r.
Proof.
  intros Hon. unfold bson_iter_timestamp. rewrite (when_type_yes _ _ _ _ _ Hon).
  rewrite !(raw_u32_on _ _ _ _ Hon). fixed_read Hon.
  destruct (mlib_read_u32le_Some m (it_d1 it)) as (v & -> & _); [lia..|]. simpl.
  destruct (mlib_read_u32le_Some m (it_d1 it + 4)) as (w & -> & _); [lia..|]. by eexists.
Qed.

Lemma bson_iter_decimal128_on m it :
  iter_on m BSON_TYPE_DECIMAL128 it -> exists lo hi, bson_iter_decimal128 it = Some (Some (lo, hi)) /\ is_u64 lo /\ is_u64 hi.
Proof.
  intros Hon. assert (Hraw : it_raw it = Some m) by apply Hon.
  unfold bson_iter_decimal128, bson_iter_decimal128_unsafe.
  rewrite (when_type_yes _ _ _ _ _ Hon), Hraw. simpl. fixed_read Hon.
  destruct (raw_u64_on m _ it (it_d1 it) Hon) as (v & -> & ?); [lia..|]. simpl.
  destruct (raw_u64_on m _ it (it_d1 it + 8) Hon) as (w & -> & ?); [lia..|]. by exists v, w.
Qed.

Lemma bson_iter_regex_on m it :
  iter_on m BSON_TYPE_REGEX it ->
  exists r o, bson_iter_regex it = Some (Some r, Some o) /\ string_at r (it_d2 it - 1 - it_d1 it) /\
    string_at o (it_next_off it - 1 - it_d2 it).
Proof.
  intros Hon. unfold bson_iter_regex. rewrite (when_type_yes _ _ _ _ _ Hon). fixed_read Hon.
  destruct Hok as (? & Hz1 & Hz2).
  destruct (raw_at_on m _ it (it_d1 it) Hon) as (r & -> & Hr'); [lia|]. simpl.
  destruct (raw_at_on m _ it (it_d2 it) Hon) as (q & -> & Hq); [lia|]. simpl. exists r, q. split; [done|].
  split; apply rd_string_at; [rewrite (padd_rd _ _ _ _ Hr') by lia|rewrite (padd_rd _ _ _ _ Hq) by lia].
  - by replace (it_d1 it + (it_d2 it - 1 - it_d1 it)) with (it_d2 it - 1) by lia.
  - by replace (it_d2 it + (it_next_off it - 1 - it_d2 it)) with (it_next_off it - 1) by lia.
Qed.

(** Every accessor is in bounds on the element it is for. *)
Lemma bson_iter_value_on m t it :
  iter_on m t it -> exists v, bson_iter_value it = Some (Some v).
Proof.
  intros Hon. unfold bson_iter_value. rewrite (iter_on_type _ _ _ Hon). simpl.
  rewrite type_of_code_code.
  assert (Hraw : it_raw it = Some m) by apply Hon.
  assert (Hb : 0 <= it_d1 it /\ it_next_off it < it_len it).
  { fixed_read Hon. lia. }
  destruct t; try (by eexists); try (by (fixed_read Hon)).
  - unfold bson_iter_double, bson_iter_double_unsafe. rewrite (when_type_yes _ _ _ _ _ Hon), Hraw.
    simpl. fixed_read Hon. destruct (raw_u64_on m _ it (it_d1 it) Hon) as (v & -> & _); [lia..|]. by eexists.
  - destruct (iter_string_on m _ it Hon) as (l & p & Hs & _); [tauto|].
    unfold bson_iter_utf8. rewrite Hs. by eexists.
  - unfold bson_iter_document. destruct (iter_subdoc_on m _ it Hon) as (? & ? & -> & _); [tauto|]. by eexists.
  - unfold bson_iter_array. destruct (iter_subdoc_on m _ it Hon) as (? & ? & -> & _); [tauto|]. by eexists.
  - destruct (bson_iter_binary_on m it Hon) as (st & l & p & -> & _). by eexists.
  - unfold bson_iter_oid, bson_iter_oid_unsafe. rewrite (when_type_yes _ _ _ _ _ Hon), Hraw.
    simpl. fixed_read Hon.
    destruct (proj2 (slice_is_Some m (it_d1 it) 12)) as [s ->]; [lia|]. by eexists.
  - unfold bson_iter_bool, bson_iter_bool_unsafe. rewrite (when_type_yes _ _ _ _ _ Hon), Hraw.
    simpl. fixed_read Hon. destruct Hok as (v & -> & _). by eexists.
  - unfold bson_iter_date_time, bson_iter_int64_unsafe. rewrite (when_type_yes _ _ _ _ _ Hon), Hraw.
    simpl. fixed_read Hon. destruct (raw_i64_on m _ it (it_d1 it) Hon) as (v & -> & _); [lia..|]. by eexists.
  - destruct (bson_iter_regex_on m it Hon) as (? & ? & -> & _). by eexists.
  - destruct (bson_iter_dbpointer_on m it Hon) as (l & c & oid & -> & _). by eexists.
  - destruct (iter_string_on m _ it Hon) as (l & p & Hs & _); [tauto|].
    unfold bson_iter_code. rewrite Hs. by eexists.
  - destruct (iter_string_on m _ it Hon) as (l & p & Hs & _); [tauto|].
    unfold bson_iter_symbol. rewrite Hs. by eexists.
  - destruct (bson_iter_codewscope_on m it Hon) as (c & l & sl & s & -> & _). by eexists.
  - unfold bson_iter_int32, bson_iter_int32_unsafe. rewrite (when_type_yes _ _ _ _ _ Hon).
    rewrite (raw_u32_on _ _ _ _ Hon). fixed_read Hon.
    destruct (mlib_read_u32le_Some m (it_d1 it)) as (v & -> & _); [lia..|]. by eexists.
  - destruct (bson_iter_timestamp_on m it Hon) as [[? ?] ->]. by eexists.
  - unfold bson_iter_int64, bson_iter_int64_unsafe. rewrite (when_type_yes _ _ _ _ _ Hon), Hraw.
    simpl. fixed_read Hon. destruct (raw_i64_on m _ it (it_d1 it) Hon) as (v & -> & _); [lia..|]. by eexists.
  - destruct (bson_iter_decimal128_on m it Hon) as (? & ? & -> & _). by eexists.
Qed.

(** ** Loops *)

Lemma iter_left_next it it' :
  iter_wf it -> bson_iter_next it = Some (true, it') -> iter_left it' < iter_left it.
Proof.
  intros Hwf Hn. destruct (bson_iter_next_post it Hwf) as (ok & it2 & Hn' & Hp).
  rewrite Hn in Hn'. simplify_eq. destruct Hp as (m & t & Hr & Hon & Hlen & _ & Hlt & _).
  unfold iter_left. rewrite Hr. destruct Hon as (-> & _ & _ & _ & _ & _ & _ & ? & _). lia.
Qed.

(** The recursion every [while (bson_iter_next (iter))] loop follows: a step
    is either the end of the document or an element, and the fuel decreases
    no faster than the iterator advances. *)
Lemma next_fuel_step fuel it :
  iter_wf it -> iter_left it < Z.of_nat (S fuel) ->
  exists ok it', bson_iter_next it = Some (ok, it') /\
    if ok then exists m t, it_raw it = Some m /\ iter_on m t it' /\ iter_wf it' /\
      iter_left it' < Z.of_nat fuel
    else it_raw it' = None.
Proof.
  intros Hwf Hf. destruct (bson_iter_next_post it Hwf) as (ok & it' & Hn & Hp).
  exists ok, it'. split; [done|]. destruct ok; [|by destruct Hp].
  destruct Hp as (m & t & Hr & Hon & _). exists m, t. split; [done|]. split; [done|].
  split; [by eapply iter_on_wf|]. pose proof (iter_left_next _ _ Hwf Hn). lia.
Qed.

Lemma find_w_len_loop_total fuel it s s' :
  iter_wf it -> iter_left it < Z.of_nat fuel -> no_nul s ->
  exists ok it', find_w_len_loop fuel it (s ++ s') (zlen s) = Some (ok, it') /\
    if ok then exists m t rest, iter_on m t it' /\ it_raw it = Some m /\
                 bson_iter_key it' = Some (s ++ x00 :: rest)
    else it_raw it' = None.
Proof.
  revert it. induction fuel as [|fuel IH]; intros it Hwf Hf Hs.
  { unfold iter_left in Hf. destruct (it_raw it); lia. }
  simpl. destruct (next_fuel_step fuel it Hwf Hf) as (ok & it' & -> & Hp).
  simpl. destruct ok; simpl; [|by exists false, it'].
  destruct Hp as (m & t & Hr & Hon & Hwf' & Hf').
  destruct (iter_on_key _ _ _ Hon) as (k & rest & Hk & Hnk & _). rewrite Hk. simpl.
  unfold zlen. rewrite Nat2Z.id.
  destruct (strncmp_spec s k s' rest Hs Hnk) as (r & -> & Hc). simpl.
  destruct (IH it' Hwf' Hf' Hs) as (ok & it2 & Hl & Hp2).
  assert (Hraw' : it_raw it' = Some m) by apply Hon.
  assert (Hcont : exists ok0 it0, find_w_len_loop fuel it' (s ++ s') (zlen s) = Some (ok0, it0) /\
    if ok0 then exists m0 t0 rest0, iter_on m0 t0 it0 /\ it_raw it = Some m0 /\
                 bson_iter_key it0 = Some (s ++ x00 :: rest0)
    else it_raw it0 = None).
  { exists ok, it2. split; [done|]. destruct ok; [|done].
    destruct Hp2 as (m2 & t2 & rest2 & ? & ? & ?). exists m2, t2, rest2.
    rewrite Hraw' in *. simplify_eq. done. }
  destruct (Z.eqb_spec r 0) as [Hr0|]; [|done].
  apply Hc in Hr0 as [k2 ->]. rewrite <- app_assoc. fold (zlen s).
  rewrite rd_app_r, Z.sub_diag by lia.
  destruct k2 as [|c k2]; simpl.
  - exists true, it'. split; [done|]. exists m, t, rest. rewrite Hk. by rewrite app_nil_r.
  - apply no_nul_app in Hnk as [_ Hnk]. apply no_nul_cons in Hnk as [? _].
    by rewrite byte_eqb_neq.
Qed.

Lemma bson_iter_find_w_len_total it s s' :
  iter_wf it -> no_nul s -> zlen s < 2 ^ 31 ->
  exists ok it', bson_iter_find_w_len it (s ++ s') (zlen s) = Some (ok, it') /\
    if ok then exists m t rest, iter_on m t it' /\ it_raw it = Some m /\
                 bson_iter_key it' = Some (s ++ x00 :: rest)
    else it_raw it' = None.
Proof.
  intros Hwf Hs Hl. unfold bson_iter_find_w_len.
  destruct (Z.ltb_spec (zlen s) 0); [zl|]. sbind.
  apply find_w_len_loop_total; [done|by apply iter_left_fuel|done].
Qed.

Lemma bson_iter_find_eq it s s' :
  no_nul s -> zlen s < 2 ^ 31 ->
  bson_iter_find it (s ++ x00 :: s') = bson_iter_find_w_len it (s ++ x00 :: s') (zlen s).
Proof.
  intros Hs Hl. unfold bson_iter_find, bson_iter_find_w_len.
  destruct (Z.ltb_spec (-1) 0); [|lia]. rewrite strlen_app by done. simpl.
  rewrite s32_id by zl. destruct (Z.ltb_spec (zlen s) 0); [zl|done].
Qed.

(** [bson_iter_find_descendant] is defined on every well-formed iterator and
    every terminated path. *)
Lemma find_descendant_loop_total fuel it p rest :
  iter_wf it -> no_nul p -> zlen p < 2 ^ 31 -> (length p < fuel)%nat ->
  exists r, find_descendant_loop fuel it (p ++ x00 :: rest) = Some r /\
    match r with Some d => exists m t, iter_on m t d | None => True end.
Proof.
  revert it p. induction fuel as [|fuel IH]; intros it p Hwf Hp Hl Hf; [lia|].
  simpl. destruct (decide (dot ∈ p)) as [Hdot|Hdot].
  - apply list_elem_of_split_l in Hdot as (p1 & p2 & -> & Hp1).
    pose proof (proj1 (no_nul_app _ _) Hp) as [Hn1 Hn2]. apply no_nul_cons in Hn2 as [_ Hn2].
    rewrite <- app_assoc. simpl. rewrite strchr_some by done. simpl.
    rewrite zlen_app, zlen_cons in Hl. rewrite s32_id by zl.
    destruct (bson_iter_find_w_len_total it p1 (dot :: p2 ++ x00 :: rest) Hwf Hn1)
      as (ok & it' & -> & Hr); [zl|].
    simpl. destruct ok; simpl; [|by eexists].
    destruct Hr as (m & t & r & Hon & _ & _).
    rewrite !(iter_on_holds _ _ _ _ Hon). simpl.
    destruct (bool_decide (t = BSON_TYPE_DOCUMENT) || bool_decide (t = BSON_TYPE_ARRAY)) eqn:E;
      [|by eexists].
    destruct (bson_iter_recurse_on _ _ _ Hon) as (d & l & -> & _ & _ & Hwf' & _).
    { apply orb_true_iff in E. rewrite !bool_decide_eq_true in E. done. }
    simpl. change (p1 ++ dot :: p2 ++ x00 :: rest) with (p1 ++ [dot] ++ p2 ++ x00 :: rest).
    rewrite app_assoc, padd_at by zl.
    rewrite length_app in Hf. simpl in Hf. apply IH; [done..|zl|lia].
  - rewrite strchr_none by done. simpl. rewrite strlen_app by done. simpl.
    rewrite s32_id by zl.
    destruct (bson_iter_find_w_len_total it p (x00 :: rest) Hwf Hp Hl)
      as (ok & it' & -> & Hr). simpl.
    destruct ok; simpl; eexists; (split; [done|]); [|done].
    destruct Hr as (m & t & ? & Hon & _). eauto.
Qed.
