(* ===== verification/BsonSpec.v ===== *)
(** The abstract specification of a BSON document: values, their encoding
    (bsonspec.org, as the library's own constants lay it out) and their
    well-formedness. The iterator, the validator, the writers and the command
    line tool are all related to it. *)

From S2P Require Import Prelude IntEncode BsonTypes.

(** ** Values *)

Inductive bval :=
  | BDouble (bits : Z)
  | BUtf8 (s : bytes)
  | BDocument (d : list (bytes * bval))
  | BArray (d : list (bytes * bval))
  | BBinary (subtype : Z) (data : bytes)
  | BUndefined
  | BOid (oid : bytes)
  | BBool (b : bool)
  | BDateTime (v : Z)
  | BNull
  | BRegex (regex options : bytes)
  | BDBPointer (collection oid : bytes)
  | BCode (code : bytes)
  | BSymbol (s : bytes)
  | BCodeWScope (code : bytes) (scope : list (bytes * bval))
  | BInt32 (v : Z)
  | BTimestamp (timestamp increment : Z)
  | BInt64 (v : Z)
  | BDecimal128 (low high : Z)
  | BMaxKey
  | BMinKey.

Abbreviation elem := (bytes * bval)%type.
Abbreviation doc := (list (bytes * bval)).

(** Induction through the nested lists. *)
Section BvalInd.
Context (P : bval -> Prop).
Hypothesis Hscalar : forall v,
  match v with BDocument _ | BArray _ | BCodeWScope _ _ => True | _ => P v end.
Hypothesis Hdoc : forall d, Forall (fun e => P e.2) d -> P (BDocument d).
Hypothesis Harr : forall d, Forall (fun e => P e.2) d -> P (BArray d).
Hypothesis Hcws : forall c d, Forall (fun e => P e.2) d -> P (BCodeWScope c d).

Fixpoint bval_ind' (v : bval) : P v :=
  let go := fix go (d : doc) : Forall (fun e => P e.2) d :=
    match d with
    | [] => @List.Forall_nil _ _
    | e :: d' => @List.Forall_cons _ _ e d' (bval_ind' e.2) (go d')
    end in
  match v with
  | BDocument d => Hdoc d (go d)
  | BArray d => Harr d (go d)
  | BCodeWScope c d => Hcws c d (go d)
  | v => Hscalar v
  end.
End BvalInd.

(** ** Encoding *)

Definition bval_type (v : bval) : bson_type_t :=
  match v with
  | BDouble _ => BSON_TYPE_DOUBLE | BUtf8 _ => BSON_TYPE_UTF8
  | BDocument _ => BSON_TYPE_DOCUMENT | BArray _ => BSON_TYPE_ARRAY
  | BBinary _ _ => BSON_TYPE_BINARY | BUndefined => BSON_TYPE_UNDEFINED
  | BOid _ => BSON_TYPE_OID | BBool _ => BSON_TYPE_BOOL | BDateTime _ => BSON_TYPE_DATE_TIME
  | BNull => BSON_TYPE_NULL | BRegex _ _ => BSON_TYPE_REGEX
  | BDBPointer _ _ => BSON_TYPE_DBPOINTER | BCode _ => BSON_TYPE_CODE
  | BSymbol _ => BSON_TYPE_SYMBOL | BCodeWScope _ _ => BSON_TYPE_CODEWSCOPE
  | BInt32 _ => BSON_TYPE_INT32 | BTimestamp _ _ => BSON_TYPE_TIMESTAMP
  | BInt64 _ => BSON_TYPE_INT64 | BDecimal128 _ _ => BSON_TYPE_DECIMAL128
  | BMaxKey => BSON_TYPE_MAXKEY | BMinKey => BSON_TYPE_MINKEY
  end.

(** A length-prefixed, terminated string. *)
Definition enc_string (s : bytes) : bytes := le_bytes 4 (zlen s + 1) ++ s ++ [x00].

(** The length header and terminator around the elements. *)
Definition wrap_doc (body : bytes) : bytes := le_bytes 4 (zlen body + 5) ++ body ++ [x00].

Definition enc_binary (subtype : Z) (data : bytes) : bytes :=
  if subtype =? BSON_SUBTYPE_BINARY_DEPRECATED
  then le_bytes 4 (zlen data + 4) ++ [z2b subtype] ++ le_bytes 4 (zlen data) ++ data
  else le_bytes 4 (zlen data) ++ [z2b subtype] ++ data.

Arguments enc_string : simpl never.
Arguments wrap_doc : simpl never.
Arguments enc_binary : simpl never.

Fixpoint enc_val (v : bval) : bytes :=
  let enc_elems := fix enc_elems (d : doc) : bytes :=
    match d with
    | [] => []
    | (k, v) :: d' => [z2b (type_code (bval_type v))] ++ k ++ [x00] ++ enc_val v ++ enc_elems d'
    end in
  match v with
  | BDouble bits => le_bytes 8 bits
  | BUtf8 s | BCode s | BSymbol s => enc_string s
  | BDocument d | BArray d => wrap_doc (enc_elems d)
  | BBinary st data => enc_binary st data
  | BUndefined | BNull | BMaxKey | BMinKey => []
  | BOid oid => oid
  | BBool b => [z2b (Z.b2z b)]
  | BDateTime v | BInt64 v => le_bytes 8 (u64 v)
  | BRegex r o => r ++ [x00] ++ o ++ [x00]
  | BDBPointer c oid => enc_string c ++ oid
  | BCodeWScope c d =>
      let scope := wrap_doc (enc_elems d) in
      le_bytes 4 (8 + (zlen c + 1) + zlen scope) ++ enc_string c ++ scope
  | BInt32 v => le_bytes 4 (u32 v)
  | BTimestamp t i => le_bytes 4 i ++ le_bytes 4 t
  | BDecimal128 low high => le_bytes 8 low ++ le_bytes 8 high
  end.

Definition enc_elem (e : elem) : bytes :=
  [z2b (type_code (bval_type e.2))] ++ e.1 ++ [x00] ++ enc_val e.2.

Fixpoint enc_elems (d : doc) : bytes :=
  match d with
  | [] => []
  | e :: d' => enc_elem e ++ enc_elems d'
  end.

Definition enc_doc (d : doc) : bytes := wrap_doc (enc_elems d).

Arguments enc_elem : simpl never.
Arguments enc_doc : simpl never.

(** ** Well-formedness

    Values fit their C types, identifiers have 12 bytes, and C strings have no
    terminator inside. [BUtf8] may contain zero bytes. *)

Fixpoint wf_val (v : bval) : Prop :=
  let wf_elems := fix wf_elems (d : doc) : Prop :=
    match d with
    | [] => True
    | (k, v) :: d' => (no_nul k /\ wf_val v) /\ wf_elems d'
    end in
  match v with
  | BDouble bits => is_u64 bits
  | BUtf8 _ | BCode _ | BSymbol _ => True
  | BDocument d | BArray d => wf_elems d
  | BBinary st _ => is_u8 st
  | BUndefined | BNull | BMaxKey | BMinKey | BBool _ => True
  | BOid oid => zlen oid = 12
  | BDateTime v | BInt64 v => is_s64 v
  | BRegex r o => no_nul r /\ no_nul o
  | BDBPointer _ oid => zlen oid = 12
  | BCodeWScope _ d => wf_elems d
  | BInt32 v => is_s32 v
  | BTimestamp t i => is_u32 t /\ is_u32 i
  | BDecimal128 low high => is_u64 low /\ is_u64 high
  end.

Definition wf_elem (e : elem) : Prop := no_nul e.1 /\ wf_val e.2.
Definition wf_elems (d : doc) : Prop := Forall wf_elem d.

(** A document the library accepts: well formed and within [BSON_MAX_SIZE]. *)
Definition wf_doc (d : doc) : Prop := wf_elems d /\ zlen (enc_doc d) <= BSON_MAX_SIZE.

(** ** Unfolding equations *)

Lemma enc_val_doc_eq d :
  (fix go (d : doc) : bytes :=
    match d with
    | [] => []
    | (k, v) :: d' => [z2b (type_code (bval_type v))] ++ k ++ [x00] ++ enc_val v ++ go d'
    end) d = enc_elems d.
Proof.
  induction d as [|[k v] d IH]; [done|]. cbn [enc_elems]. unfold enc_elem. cbn [fst snd].
  rewrite IH, <- !app_assoc. done.
Qed.

Lemma enc_val_document d : enc_val (BDocument d) = enc_doc d.
Proof. unfold enc_doc. cbn [enc_val]. by rewrite enc_val_doc_eq. Qed.
Lemma enc_val_array d : enc_val (BArray d) = enc_doc d.
Proof. unfold enc_doc. cbn [enc_val]. by rewrite enc_val_doc_eq. Qed.
Lemma enc_val_codewscope c d :
  enc_val (BCodeWScope c d) =
  le_bytes 4 (8 + (zlen c + 1) + zlen (enc_doc d)) ++ enc_string c ++ enc_doc d.
Proof. unfold enc_doc. cbn [enc_val]. by rewrite enc_val_doc_eq. Qed.

Lemma wf_val_doc_eq d :
  (fix go (d : doc) : Prop :=
    match d with
    | [] => True
    | (k, v) :: d' => (no_nul k /\ wf_val v) /\ go d'
    end) d <-> wf_elems d.
Proof.
  unfold wf_elems. induction d as [|[k v] d IH]; [split; [constructor|done]|].
  split; [intros [? ?]; constructor; [done|tauto]|].
  intros [[? ?] ?]%Forall_cons_1. cbn [fst snd] in *. tauto.
Qed.

Lemma wf_val_document d : wf_val (BDocument d) <-> wf_elems d.
Proof. apply wf_val_doc_eq. Qed.
Lemma wf_val_array d : wf_val (BArray d) <-> wf_elems d.
Proof. apply wf_val_doc_eq. Qed.
Lemma wf_val_codewscope c d : wf_val (BCodeWScope c d) <-> wf_elems d.
Proof. apply wf_val_doc_eq. Qed.

(** ** Sizes *)

Lemma zlen_enc_string s : zlen (enc_string s) = zlen s + 5.
Proof. unfold enc_string. zl. Qed.
Lemma zlen_wrap_doc b : zlen (wrap_doc b) = zlen b + 5.
Proof. unfold wrap_doc. zl. Qed.
Lemma zlen_enc_doc d : zlen (enc_doc d) = zlen (enc_elems d) + 5.
Proof. apply zlen_wrap_doc. Qed.
#[export] Hint Rewrite zlen_enc_string zlen_wrap_doc zlen_enc_doc : zlen.

Lemma zlen_enc_elem e : zlen (enc_elem e) = 2 + zlen e.1 + zlen (enc_val e.2).
Proof. unfold enc_elem. zl. Qed.
#[export] Hint Rewrite zlen_enc_elem : zlen.

Lemma enc_elems_app d1 d2 : enc_elems (d1 ++ d2) = enc_elems d1 ++ enc_elems d2.
Proof. induction d1 as [|e d1 IH]; [done|]. simpl. by rewrite IH, app_assoc. Qed.

Lemma enc_elems_cons e d : enc_elems (e :: d) = enc_elem e ++ enc_elems d.
Proof. done. Qed.

Lemma wf_elems_app d1 d2 : wf_elems (d1 ++ d2) <-> wf_elems d1 /\ wf_elems d2.
Proof. apply Forall_app. Qed.
