(* ===== verification/BsonIterSpec.v ===== *)
(** Functional correctness of the iterator: over the encoding of a document
    it visits exactly the elements, in order, with their keys, types and
    values, and stops without an error. *)

From S2P Require Import Prelude CString IntEncode BsonTypes BsonIter BsonIterSafe BsonSpec.

(** ** The iterator on an element *)

(** The data offsets of a value stored at [o]. *)
Definition val_d2 (v : bval) (o : Z) : Z :=
  match v with
  | BUtf8 _ | BCode _ | BSymbol _ | BBinary _ _ | BDBPointer _ _ | BCodeWScope _ _ => o + 4
  | BRegex r _ => o + zlen r + 1
  | _ => 0
  end.
Definition val_d3 (v : bval) (o : Z) : Z :=
  match v with
  | BBinary _ _ => o + 5
  | BDBPointer c _ => o + 4 + (zlen c + 1)
  | BCodeWScope _ _ => o + 8
  | _ => 0
  end.
Definition val_d4 (v : bval) (o : Z) : Z :=
  match v with BCodeWScope c _ => o + 8 + (zlen c + 1) | _ => 0 end.

(** The iterator on element [e] found after [pre] in a buffer of [len] bytes. *)
Definition elem_iter (pre : bytes) (e : elem) (post : bytes) (len : Z) : bson_iter_t :=
  let o := zlen pre + 2 + zlen e.1 in
  Iter (Some (pre ++ enc_elem e ++ post)) len (zlen pre) (zlen pre) (zlen pre + 1)
    o (val_d2 e.2 o) (val_d3 e.2 o) (val_d4 e.2 o) (zlen pre + zlen (enc_elem e)) 0.

(** The scan finds the terminator of the string it starts on. *)
Lemma scan_nul_at m a s b len :
  m = a ++ s ++ x00 :: b -> no_nul s -> zlen a + zlen s < len ->
  scan_nul m (zlen a) len = Some (Some (zlen a + zlen s)).
Proof.
  intros -> Hs Hl. unfold scan_nul.
  remember (Z.to_nat (len - zlen a)) as fuel eqn:E.
  assert (zlen s < Z.of_nat fuel) by zl. clear E Hl.
  revert a fuel H. induction s as [|c s IH]; intros a [|fuel] Hf; try (zl; fail).
  - cbn [find_nul app]. rewrite rd_at by done. isimpl. rewrite byte_eqb_refl. do 2 f_equal. zl.
  - apply no_nul_cons in Hs as [Hc Hs]. cbn [find_nul app]. rewrite rd_at by done. isimpl.
    rewrite byte_eqb_neq by done.
    replace (a ++ c :: s ++ x00 :: b) with ((a ++ [c]) ++ s ++ x00 :: b)
      by (rewrite <- app_assoc; done).
    replace (zlen a + 1) with (zlen (a ++ [c])) by zl.
    rewrite IH; [do 2 f_equal; zl|done|zl].
Qed.

Section Fields.
Context (P post : bytes) (len : Z) (it : bson_iter_t).
Hypothesis Hit : it_d1 it = zlen P.
Hypothesis Hz : it_d2 it = 0 /\ it_d3 it = 0 /\ it_d4 it = 0.
Hypothesis HP : 6 <= zlen P.
Hypothesis Hlen : len < 2 ^ 31.

Local Abbreviation o := (zlen P).

(** What the [switch] leaves for a value [v]. *)
Definition field_of (v : bval) : bson_iter_t :=
  Iter (it_raw it) (it_len it) (it_off it) (it_type it) (it_key it) (it_d1 it)
    (val_d2 v o) (val_d3 v o) (val_d4 v o) (o + zlen (enc_val v)) (it_err_off it).

Definition field_found (v : bval) : Prop :=
  o + zlen (enc_val v) < len ->
  exists o', next_field (P ++ enc_val v ++ post) len o (type_code (bval_type v)) it =
    Some (FNext (field_of v) o').


Lemma it_eta :
  it = Iter (it_raw it) (it_len it) (it_off it) (it_type it) (it_key it) (it_d1 it)
         0 0 0 (it_next_off it) (it_err_off it).
Proof. destruct Hz as (? & ? & ?). destruct it; simpl in *; subst. done. Qed.

Lemma read32_here z rest b :
  0 <= z < 2 ^ 32 -> mlib_read_u32le (P ++ (le_bytes 4 z ++ rest) ++ b) o = Some z.
Proof. intros. rewrite <- app_assoc. by apply mlib_read_u32le_at. Qed.

Lemma rd_after a c b z : z = o + zlen a -> rd (P ++ (a ++ c :: b) ++ post) z = Some c.
Proof.
  intros ->. rewrite <- app_assoc, app_assoc. simpl. apply rd_at. zl.
Qed.

Lemma read32_after a z b p :
  p = o + zlen a -> 0 <= z < 2 ^ 32 ->
  mlib_read_u32le (P ++ (a ++ le_bytes 4 z ++ b) ++ post) p = Some z.
Proof.
  intros -> Hr. rewrite <- !app_assoc, (app_assoc P). apply mlib_read_u32le_at; [zl|done].
Qed.

Lemma field_fixed v n :
  zlen (enc_val v) = n -> 0 <= n <= 16 ->
  val_d2 v o = 0 -> val_d3 v o = 0 -> val_d4 v o = 0 ->
  (forall m, next_field m len o (type_code (bval_type v)) it =
     Some (FNext (set_next it (u32 (o + n))) o)) ->
  field_found v.
Proof.
  intros Hn Hr H2 H3 H4 Hf Hl. exists o. rewrite Hf. do 2 f_equal.
  unfold field_of. rewrite Hn, H2, H3, H4, u32_id by lia. rewrite it_eta at 1. done.
Qed.

Lemma field_string v s :
  v = BUtf8 s \/ v = BCode s \/ v = BSymbol s -> field_found v.
Proof.
  intros Hv Hl. exists o.
  assert (He : enc_val v = enc_string s) by (by destruct Hv as [->|[->| ->]]).
  assert (Hf : forall m, next_field m len o (type_code (bval_type v)) it = next_string m len o it)
    by (by destruct Hv as [->|[->| ->]]).
  assert (Hd : val_d2 v o = o + 4 /\ val_d3 v o = 0 /\ val_d4 v o = 0)
    by (by destruct Hv as [->|[->| ->]]).
  destruct Hd as (D2 & D3 & D4). rewrite Hf. unfold field_of.
  rewrite He, zlen_enc_string in *. rewrite D2, D3, D4.
  unfold next_string. rewrite (u32_id (o + 4)) by zl.
  destruct (Z.leb_spec len (o + 4)); [zl|]. isimpl. rewrite Hit.
  unfold enc_string. rewrite read32_here by zl. isimpl.
  rewrite (u32_id (len - _)) by zl. destruct (Z.ltb_spec (len - (o + 4)) (zlen s + 1)); [zl|].
  rewrite (u32_id (o + 4 + _)) by zl.
  destruct (Z.eqb_spec (zlen s + 1) 0); [zl|].
  destruct (Z.leb_spec len (o + 4 + (zlen s + 1))); [zl|]. isimpl.
  rewrite (u32_id (zlen s + 1 - 1)) by zl. rewrite (app_assoc (le_bytes _ _)), rd_after by zl.
  isimpl. rewrite byte_eqb_refl. isimpl. do 2 f_equal. rewrite it_eta. unfold set_next, set_d2.
  isimpl. rewrite Hit. f_equal; lia.
Qed.

Lemma field_document v d :
  v = BDocument d \/ v = BArray d -> field_found v.
Proof.
  intros Hv Hl. exists o.
  assert (He : enc_val v = enc_doc d).
  { destruct Hv as [->| ->]; [apply enc_val_document|apply enc_val_array]. }
  assert (Hf : forall m, next_field m len o (type_code (bval_type v)) it = next_document m len o it)
    by (by destruct Hv as [->| ->]).
  assert (Hd : val_d2 v o = 0 /\ val_d3 v o = 0 /\ val_d4 v o = 0)
    by (by destruct Hv as [->| ->]).
  destruct Hd as (D2 & D3 & D4). rewrite Hf. unfold field_of.
  rewrite He, zlen_enc_doc in *. rewrite D2, D3, D4.
  unfold next_document. rewrite (u32_id (len - 4)) by zl.
  destruct (Z.leb_spec (len - 4) o); [zl|]. rewrite Hit.
  unfold enc_doc, wrap_doc. rewrite read32_here by zl. isimpl.
  destruct (Z.ltb_spec len (zlen (enc_elems d) + 5)); [zl|].
  rewrite (u32_id (len - o)) by zl.
  destruct (Z.ltb_spec (len - o) (zlen (enc_elems d) + 5)); [zl|].
  rewrite (u32_id (o + _)) by zl. isimpl. rewrite it_eta. unfold set_next. isimpl.
  rewrite Hit. done.
Qed.

Lemma field_bool b : field_found (BBool b).
Proof.
  intros Hl. exists o. change (next_field _ _ _ _ _) with
    (next_bool (P ++ enc_val (BBool b) ++ post) len o it).
  cbn [enc_val] in *. rewrite zlen_1 in Hl. unfold next_bool. rewrite Hit.
  destruct (Z.leb_spec len o); [zl|].
  change [z2b (Z.b2z b)] with ([] ++ z2b (Z.b2z b) :: []). rewrite rd_after by zl. isimpl.
  rewrite b2z_z2b_small by (destruct b; simpl; lia). unfold field_of.
  cbn [enc_val val_d2 val_d3 val_d4]. rewrite zlen_1, (u32_id (o + 1)) by zl.
  rewrite Hit. destruct b; simpl Z.b2z; cbn [Z.eqb]; isimpl; rewrite it_eta; isimpl; by rewrite Hit.
Qed.

Lemma field_regex r op : no_nul r -> no_nul op -> field_found (BRegex r op).
Proof.
  intros Hr Ho Hl. exists (o + zlen r + 1 + zlen op).
  change (next_field _ _ _ _ _) with (next_regex (P ++ enc_val (BRegex r op) ++ post) len o it).
  unfold field_of, next_regex. cbn [enc_val val_d2 val_d3 val_d4] in *. autorewrite with zlen in *.
  set (m := P ++ _).
  assert (Hm : zlen m = o + zlen r + zlen op + 2 + zlen post) by (subst m; zl).
  rewrite (scan_nul_at m P r (op ++ [x00] ++ post)); [|subst m; by rewrite <- !app_assoc|done|zl].
  isimpl. rewrite (u32_id (o + zlen r + 1)) by zl.
  replace (o + zlen r + 1) with (zlen (P ++ r ++ [x00])) by zl.
  rewrite (scan_nul_at m (P ++ r ++ [x00]) op post); [|subst m; by rewrite <- !app_assoc|done|zl].
  isimpl. rewrite u32_id by zl. do 2 f_equal. rewrite it_eta. unfold set_next, set_d2. isimpl.
  f_equal; zl.
Qed.

Lemma field_dbpointer c oid : zlen oid = 12 -> field_found (BDBPointer c oid).
Proof.
  intros Hoid Hl. exists o.
  change (next_field _ _ _ _ _) with
    (next_dbpointer (P ++ enc_val (BDBPointer c oid) ++ post) len o it).
  unfold field_of, next_dbpointer. cbn [enc_val val_d2 val_d3 val_d4] in *. autorewrite with zlen in *.
  rewrite (u32_id (len - 4)), (u32_id (o + 4)) by zl.
  destruct (Z.leb_spec (len - 4) o); [zl|]. isimpl. rewrite Hit.
  replace (enc_string c ++ oid) with (le_bytes 4 (zlen c + 1) ++ c ++ x00 :: oid)
    by (unfold enc_string; by rewrite <- !app_assoc).
  rewrite read32_here by zl. isimpl.
  destruct (Z.eqb_spec (zlen c + 1) 0); [zl|]. rewrite (u32_id (len - o - 4)) by zl.
  destruct (Z.ltb_spec (len - o - 4) (zlen c + 1)); [zl|]. isimpl.
  rewrite (u32_id (o + (zlen c + 1) + 3)), !(u32_id (o + 4 + _)), !(u32_id (o + 4 + _ + _)) by zl.
  rewrite (app_assoc (le_bytes _ _)), rd_after by zl. isimpl.
  rewrite byte_eqb_refl. isimpl. do 2 f_equal. rewrite it_eta. unfold set_next, set_d2, set_d3.
  isimpl. rewrite Hit. f_equal; zl.
Qed.

Lemma field_binary st data : is_u8 st -> field_found (BBinary st data).
Proof.
  intros Hst Hl. exists o.
  change (next_field _ _ _ _ _) with
    (next_binary (P ++ enc_val (BBinary st data) ++ post) len o it).
  unfold field_of, next_binary. cbn [enc_val val_d2 val_d3 val_d4] in *. unfold is_u8 in Hst.
  assert (4 < zlen (enc_binary st data)).
  { unfold enc_binary. destruct (Z.eqb_spec st BSON_SUBTYPE_BINARY_DEPRECATED); zl. }
  rewrite (u32_id (len - 4)), (u32_id (o + 4)), (u32_id (o + 5)) by zl.
  destruct (Z.leb_spec (len - 4) o); [zl|]. isimpl. rewrite Hit.
  unfold enc_binary in *. destruct (Z.eqb_spec st BSON_SUBTYPE_BINARY_DEPRECATED) as [E|E];
    autorewrite with zlen in *; rewrite read32_here by zl; isimpl;
    rewrite (u32_id (len - o - 4)) by zl.
  - destruct (Z.leb_spec (len - o - 4) (zlen data + 4)); [zl|].
    cbn [app]. rewrite rd_after by zl. isimpl. rewrite b2z_z2b_small by lia.
    rewrite (proj2 (Z.eqb_eq _ _) E). destruct (Z.ltb_spec (zlen data + 4) 4); [zl|].
    unfold mlib_read_i32le.
    rewrite (cons_middle (z2b st)), (app_assoc (le_bytes _ _)), read32_after by zl. isimpl.
    rewrite s32_id, (u32_id (zlen data + 4 - 4)) by zl.
    destruct (Z.eqb_spec (zlen data) (zlen data + 4 - 4)); [|lia]. isimpl.
    rewrite u32_id by zl. do 2 f_equal. rewrite it_eta. unfold set_next, set_d2, set_d3, set_d4. isimpl.
    rewrite Hit. f_equal; zl.
  - destruct (Z.leb_spec (len - o - 4) (zlen data)); [zl|].
    cbn [app]. rewrite rd_after by zl. isimpl. rewrite b2z_z2b_small by lia.
    destruct (Z.eqb_spec st BSON_SUBTYPE_BINARY_DEPRECATED); [done|].
    rewrite u32_id by zl. do 2 f_equal. rewrite it_eta. unfold set_next, set_d2, set_d3, set_d4. isimpl.
    rewrite Hit. f_equal; zl.
Qed.

Lemma field_codewscope c d : field_found (BCodeWScope c d).
Proof.
  intros Hl. exists o.
  change (next_field _ _ _ _ _) with
    (next_codewscope (P ++ enc_val (BCodeWScope c d) ++ post) len o it).
  unfold field_of, next_codewscope. rewrite enc_val_codewscope in *.
  cbn [val_d2 val_d3 val_d4]. autorewrite with zlen in *.
  destruct (Z.ltb_spec len 19); [zl|].
  rewrite (u32_id (len - 14)), (u32_id (o + 4)), (u32_id (o + 8)) by zl.
  destruct (Z.leb_spec (len - 14) o); [zl|]. isimpl. rewrite Hit.
  rewrite read32_here by zl. isimpl. set (l1 := 8 + (zlen c + 1) + (zlen (enc_elems d) + 5)) in *.
  assert (l1 = zlen c + zlen (enc_elems d) + 14) by lia.
  destruct (Z.ltb_spec l1 14); [zl|]. rewrite (u32_id (len - o)) by zl.
  destruct (Z.leb_spec (len - o) l1); [zl|]. isimpl. rewrite (u32_id (o + l1)) by zl.
  destruct (Z.leb_spec len (o + l1)); [zl|].
  unfold enc_string. rewrite <- (app_assoc (le_bytes 4 (zlen c + 1))).
  rewrite read32_after by zl. isimpl.
  destruct (Z.eqb_spec (zlen c + 1) 0); [zl|]. rewrite (u32_id (len - o - 4 - 4)) by zl.
  destruct (Z.leb_spec (len - o - 4 - 4) (zlen c + 1)); [zl|]. isimpl.
  rewrite (u32_id (o + 4 + 4 + (zlen c + 1) + 4)), (u32_id (o + 4 + 4 + (zlen c + 1))) by zl.
  destruct (Z.leb_spec (o + l1) (o + 4 + 4 + (zlen c + 1) + 4)); [zl|].
  rewrite (app_assoc (le_bytes 4 l1)), (app_assoc (_ ++ le_bytes _ _) (c ++ [x00])). unfold enc_doc, wrap_doc.
  rewrite read32_after by zl. isimpl. rewrite u32_id by zl.
  destruct (Z.eqb_spec (o + 4 + 4 + (zlen c + 1) + (zlen (enc_elems d) + 5)) (o + l1));
    isimpl; [|zl].
  do 2 f_equal. rewrite it_eta. unfold set_next, set_d2, set_d3, set_d4. isimpl.
    rewrite Hit. f_equal; zl.
Qed.

Lemma field_empty v :
  v = BUndefined \/ v = BNull \/ v = BMaxKey \/ v = BMinKey -> field_found v.
Proof.
  intros Hv Hl. exists o. unfold field_of.
  assert (E : enc_val v = []) by (by destruct Hv as [->|[->|[->| ->]]]).
  rewrite E. change (zlen (@nil byte)) with 0. rewrite Z.add_0_r.
  destruct Hv as [->|[->|[->| ->]]]; cbn [val_d2 val_d3 val_d4]; rewrite it_eta at 1; done.
Qed.

(** Every value is framed as its encoding says. *)
Lemma field_found_all v : wf_val v -> field_found v.
Proof.
  destruct v as [b|s|d|d|st data| |oid|b|t| |r op|c oid|c|s|c d|i|t i|i|lo hi| |]; intros Hwf.
  - by apply (field_fixed _ 8).
  - apply (field_string _ s). auto.
  - apply (field_document _ d). auto.
  - apply (field_document _ d). auto.
  - by apply field_binary.
  - apply field_empty; auto.
  - by apply (field_fixed _ 12).
  - apply field_bool.
  - by apply (field_fixed _ 8).
  - apply field_empty; auto.
  - apply field_regex; apply Hwf.
  - by apply field_dbpointer.
  - apply (field_string _ c). auto.
  - apply (field_string _ s). auto.
  - apply field_codewscope.
  - by apply (field_fixed _ 4).
  - by apply (field_fixed _ 8).
  - by apply (field_fixed _ 8).
  - by apply (field_fixed _ 16).
  - apply field_empty; auto.
  - apply field_empty; auto.
Qed.
End Fields.

(** ** Steps *)

(** An iterator about to read what follows [pre]. *)
Definition at_pos (pre suf : bytes) (len : Z) (it : bson_iter_t) : Prop :=
  it_raw it = Some (pre ++ suf) /\ it_len it = len /\ it_next_off it = zlen pre /\
  4 <= zlen pre /\ len < 2 ^ 31.

Lemma type_code_u8 t : 0 <= type_code t < 256.
Proof. destruct t; vm_compute; split; congruence. Qed.

Lemma next_internal_elem pre e post len it :
  wf_elem e -> zlen pre + zlen (enc_elem e) < len ->
  at_pos pre (enc_elem e ++ post) len it ->
  _bson_iter_next_internal it 0 =
    Some (NextResult true (elem_iter pre e post len)
      (Some (Some (e.1 ++ [x00] ++ enc_val e.2 ++ post))) (Some (type_code (bval_type e.2))) false).
Proof.
  intros [Hk Hv] Hl (Hr & Hlen & Hn & Hpre & Hmax). destruct e as [k v]. cbn [fst snd] in *.
  unfold _bson_iter_next_internal. rewrite Hr, Hlen, Hn. cbn [Z.eqb].
  set (m := pre ++ enc_elem (k, v) ++ post).
  set (t := z2b (type_code (bval_type v))).
  assert (Em : m = (pre ++ [t]) ++ k ++ x00 :: enc_val v ++ post).
  { subst m. unfold enc_elem. cbn [fst snd]. rewrite <- !app_assoc. done. }
  pose proof (zlen_enc_elem (k, v)) as Hz. cbn [fst snd] in Hz.
  rewrite (u32_id (zlen pre + 1)) by zl. isimpl.
  replace (zlen pre + 1) with (zlen (pre ++ [t])) by zl.
  rewrite (scan_nul_at m _ k _ len Em Hk) by zl. isimpl.
  rewrite (u32_id (zlen (pre ++ [t]) + zlen k + 1)) by zl.
  set (P := pre ++ [t] ++ k ++ [x00]).
  assert (HP : zlen P = zlen (pre ++ [t]) + zlen k + 1) by (subst P; zl).
  assert (EP : m = P ++ enc_val v ++ post) by (rewrite Em; subst P; by rewrite <- !app_assoc).
  unfold fill_data_fields. isimpl. rewrite Em, padd_at by done. isimpl.
  unfold ITER_TYPE. isimpl. rewrite <- app_assoc. cbn [app]. rewrite rd_at by done. isimpl.
  cbn [fmap option_fmap option_map]. subst t. rewrite b2z_z2b_small by apply type_code_u8.
  change (pre ++ z2b ?c :: k ++ ?r) with (pre ++ [z2b c] ++ k ++ r). rewrite (app_assoc pre), <- Em, <- HP, EP.
  isimpl. match goal with |- context [next_field _ _ _ _ ?i] =>
    destruct (field_found_all P post len i (eq_refl _) (conj eq_refl (conj eq_refl eq_refl))
      ltac:(zl) Hmax v Hv ltac:(zl)) as [o' ->] end.
  isimpl. unfold field_of. isimpl. destruct (Z.leb_spec len (zlen P + zlen (enc_val v))); [zl|].
  unfold set_err. isimpl. unfold elem_iter. cbn [fst snd]. do 2 f_equal.
  rewrite <- EP. fold m. rewrite HP. f_equal; try (zl; fail); f_equal; zl.
Qed.

Lemma next_elem pre e post len it :
  wf_elem e -> zlen pre + zlen (enc_elem e) < len ->
  at_pos pre (enc_elem e ++ post) len it ->
  bson_iter_next it = Some (true, elem_iter pre e post len).
Proof. intros. unfold bson_iter_next. by rewrite (next_internal_elem pre e post len). Qed.

(** After the last element the scan for a key runs off the end: the iterator
    is invalidated, with no error offset. *)
Lemma next_end pre rest len it :
  at_pos pre (x00 :: rest) len it -> len = zlen pre + 1 ->
  exists it', bson_iter_next it = Some (false, it') /\
    it_raw it' = None /\ it_err_off it' = it_err_off it.
Proof.
  intros (Hr & Hlen & Hn & Hpre & Hmax) Hl. unfold bson_iter_next, _bson_iter_next_internal.
  rewrite Hr, Hlen, Hn. cbn [Z.eqb]. isimpl. rewrite (u32_id (zlen pre + 1)) by zl.
  unfold scan_nul. rewrite Hl, Z.sub_diag. isimpl. eauto.
Qed.

Lemma at_pos_next pre e post len :
  4 <= zlen pre -> len < 2 ^ 31 ->
  at_pos (pre ++ enc_elem e) post len (elem_iter pre e post len).
Proof.
  intros. unfold at_pos, elem_iter. isimpl. rewrite <- app_assoc. repeat split; try done; zl.
Qed.

Lemma enc_doc_eq d :
  enc_doc d = le_bytes 4 (zlen (enc_doc d)) ++ enc_elems d ++ [x00].
Proof. rewrite zlen_enc_doc. done. Qed.

Lemma enc_doc_app d rest :
  enc_doc d ++ rest = le_bytes 4 (zlen (enc_doc d)) ++ enc_elems d ++ x00 :: rest.
Proof. rewrite enc_doc_eq at 1. by rewrite <- !app_assoc. Qed.

Lemma at_pos_start d rest :
  zlen (enc_doc d) < 2 ^ 31 ->
  at_pos (le_bytes 4 (zlen (enc_doc d))) (enc_elems d ++ x00 :: rest) (zlen (enc_doc d))
    (iter_start (enc_doc d ++ rest) (zlen (enc_doc d))).
Proof.
  intros Hm. unfold at_pos. rewrite enc_doc_app. isimpl. repeat split; try done; zl.
Qed.

(** ** Whole documents *)

(** Repeated [bson_iter_next], collecting the iterator at each element. *)
Fixpoint iter_collect (fuel : nat) (it : bson_iter_t) : option (list bson_iter_t * bson_iter_t) :=
  match fuel with
  | O => None
  | S fuel' =>
      '(ok, it) ← bson_iter_next it;
      if negb ok then Some ([], it) else
      '(l, fin) ← iter_collect fuel' it; Some (it :: l, fin)
  end.

(** The iterators of the elements of [d], stored from [pre] on. *)
Fixpoint elem_iters (pre : bytes) (d : doc) (rest : bytes) (len : Z) : list bson_iter_t :=
  match d with
  | [] => []
  | e :: d' =>
      elem_iter pre e (enc_elems d' ++ rest) len :: elem_iters (pre ++ enc_elem e) d' rest len
  end.

Lemma iter_collect_elems d pre rest len it :
  wf_elems d -> len = zlen pre + zlen (enc_elems d) + 1 ->
  at_pos pre (enc_elems d ++ x00 :: rest) len it -> it_err_off it = 0 ->
  forall fuel, (length d < fuel)%nat ->
  exists fin, iter_collect fuel it = Some (elem_iters pre d (x00 :: rest) len, fin) /\
    it_raw fin = None /\ it_err_off fin = 0.
Proof.
  intros Hwf. revert pre it. induction Hwf as [|e d He Hd IH]; intros pre it Hl Hat Herr fuel Hf.
  - destruct fuel as [|fuel]; [simpl in Hf; lia|].
    destruct (next_end pre rest len it) as (it' & E & Hr & He); [done|rewrite Hl; zl|].
    exists it'. cbn [iter_collect]. rewrite E. isimpl. rewrite He. done.
  - destruct fuel as [|fuel]; [simpl in Hf; lia|]. rewrite enc_elems_cons in *.
    rewrite <- app_assoc in Hat. cbn [iter_collect].
    rewrite (next_elem pre e (enc_elems d ++ x00 :: rest) len) by (done || zl). isimpl.
    assert (Hat' := Hat). destruct Hat' as (_ & _ & _ & Hp & Hm).
    destruct (IH (pre ++ enc_elem e) (elem_iter pre e (enc_elems d ++ x00 :: rest) len))
      with (fuel := fuel) as (fin & E & Hfin); [zl|by apply at_pos_next|done|simpl in Hf; lia|].
    exists fin. rewrite E. done.
Qed.

(** ** Values

    What [bson_iter_value] boxes for a value followed in memory by [post]. *)
Definition value_of (v : bval) (post : bytes) : bson_value_t :=
  match v with
  | BDouble bits => v_double bits
  | BUtf8 s => v_utf8 (Some (s ++ x00 :: post)) (zlen s)
  | BDocument d => v_doc (Some (enc_doc d ++ post)) (zlen (enc_doc d))
  | BArray d => v_array (Some (enc_doc d ++ post)) (zlen (enc_doc d))
  | BBinary st data => v_binary st (Some (data ++ post)) (zlen data)
  | BUndefined => v_undefined
  | BOid oid => v_oid oid
  | BBool b => v_bool b
  | BDateTime v => v_datetime v
  | BNull => v_null
  | BRegex r o => v_regex (Some (r ++ x00 :: o ++ x00 :: post)) (Some (o ++ x00 :: post))
  | BDBPointer c oid => v_dbpointer (Some (c ++ x00 :: oid ++ post)) (zlen c) oid
  | BCode s => v_code (Some (s ++ x00 :: post)) (zlen s)
  | BSymbol s => v_symbol (Some (s ++ x00 :: post)) (zlen s)
  | BCodeWScope c d =>
      v_codewscope (Some (c ++ x00 :: enc_doc d ++ post)) (zlen c)
        (Some (enc_doc d ++ post)) (zlen (enc_doc d))
  | BInt32 v => v_int32 v
  | BTimestamp t i => v_timestamp t i
  | BInt64 v => v_int64 v
  | BDecimal128 low high => v_decimal128 low high
  | BMaxKey => v_maxkey
  | BMinKey => v_minkey
  end.

(** An iterator standing on the value [v] stored between [P] and [post]. *)
Definition on_value (P : bytes) (v : bval) (post : bytes) (it : bson_iter_t) : Prop :=
  it_raw it = Some (P ++ enc_val v ++ post) /\ ITER_TYPE it = Some (type_code (bval_type v)) /\
  it_d1 it = zlen P /\ it_d2 it = val_d2 v (zlen P) /\ it_d3 it = val_d3 v (zlen P) /\
  it_d4 it = val_d4 v (zlen P) /\ wf_val v /\ zlen (enc_val v) < 2 ^ 31.

Lemma elem_iter_on_value pre e post len :
  wf_elem e -> zlen (enc_elem e) < 2 ^ 31 ->
  on_value (pre ++ [z2b (type_code (bval_type e.2))] ++ e.1 ++ [x00]) e.2 post
    (elem_iter pre e post len).
Proof.
  intros [Hk Hv] Hl. unfold on_value, elem_iter, ITER_TYPE. isimpl.
  assert (Ho : zlen pre + 2 + zlen e.1 =
    zlen (pre ++ [z2b (type_code (bval_type e.2))] ++ e.1 ++ [x00])) by zl.
  rewrite <- Ho. repeat split; try done; try (rewrite zlen_enc_elem in Hl; zl).
  - unfold enc_elem. by rewrite <- !app_assoc.
  - unfold enc_elem. rewrite <- !app_assoc. cbn [app]. rewrite rd_at by done.
    cbn [fmap option_fmap option_map]. by rewrite b2z_z2b_small by apply type_code_u8.
Qed.

Lemma padd_in P a b post o : o = zlen P + zlen a -> padd (P ++ (a ++ b) ++ post) o = Some (b ++ post).
Proof. intros ->. rewrite <- app_assoc, app_assoc. apply padd_at. zl. Qed.

Lemma slice_in P a s b post o n :
  o = zlen P + zlen a -> n = zlen s -> slice (P ++ (a ++ s ++ b) ++ post) o n = Some s.
Proof.
  intros -> ->. rewrite <- !app_assoc, (app_assoc P). apply slice_at; [zl|done].
Qed.

Lemma read64_in P a z b post o :
  o = zlen P + zlen a -> 0 <= z < 2 ^ 64 ->
  mlib_read_u64le (P ++ (a ++ le_bytes 8 z ++ b) ++ post) o = Some z.
Proof.
  intros -> Hr. rewrite <- !app_assoc, (app_assoc P). apply mlib_read_u64le_at; [zl|done].
Qed.

Section OnValue.
Context (P : bytes) (v : bval) (post : bytes) (it : bson_iter_t).
Hypothesis Hon : on_value P v post it.

Lemma when_type_on {A} t (yes : option A) no :
  t = bval_type v -> when_type it t yes no = yes.
Proof.
  intros ->. unfold when_type. destruct Hon as (_ & -> & _). sbind. by rewrite Z.eqb_refl.
Qed.

Lemma raw_at_in a b o :
  enc_val v = a ++ b -> o = zlen P + zlen a -> raw_at it o = Some (b ++ post).
Proof.
  intros E Ho. unfold raw_at. destruct Hon as (-> & _). sbind. rewrite E. by apply padd_in.
Qed.

Lemma raw_u32_in a z b o :
  enc_val v = a ++ le_bytes 4 z ++ b -> o = zlen P + zlen a -> 0 <= z < 2 ^ 32 ->
  raw_u32 it o = Some z.
Proof.
  intros E Ho Hz. unfold raw_u32. destruct Hon as (-> & _). sbind. rewrite E.
  by apply read32_after.
Qed.

Lemma raw_u64_in z b : enc_val v = le_bytes 8 z ++ b -> 0 <= z < 2 ^ 64 ->
  (m ← it_raw it; mlib_read_u64le m (it_d1 it)) = Some z.
Proof.
  intros E Hz. destruct Hon as (-> & _ & -> & _). sbind. rewrite E.
  apply (read64_in P []); [zl|done].
Qed.

Lemma int64_in z : enc_val v = le_bytes 8 (u64 z) -> is_s64 z ->
  bson_iter_int64_unsafe it = Some z.
Proof.
  intros E Hz. unfold bson_iter_int64_unsafe, mlib_read_i64le.
  rewrite <- (app_nil_r (le_bytes _ _)) in E.
  pose proof (raw_u64_in _ _ E (u64_range z)) as H. destruct (it_raw it); [|done].
  revert H. sbind. intros ->. sbind. by rewrite s64_u64.
Qed.

Lemma string_in s t :
  bval_type v = t -> enc_val v = enc_string s -> val_d2 v (zlen P) = zlen P + 4 ->
  iter_string t it = Some (Some (s ++ x00 :: post), zlen s).
Proof.
  intros Ht E Hd. unfold iter_string. rewrite when_type_on by done.
  destruct Hon as (_ & _ & Hd1 & Hd2 & _ & _ & _ & Hl). rewrite E in Hl. autorewrite with zlen in Hl.
  unfold bson_iter_utf8_len_unsafe.
  rewrite (raw_u32_in [] (zlen s + 1) (s ++ [x00])) by (done || zl). sbind.
  rewrite (raw_at_in (le_bytes 4 (zlen s + 1)) (s ++ [x00])) by (done || zl). sbind.
  rewrite <- app_assoc, s32_id by zl. destruct (Z.leb_spec (zlen s + 1) 0); [zl|].
  rewrite u32_id by zl. do 2 f_equal. lia.
Qed.
End OnValue.

Lemma subdoc_in P d post it t v :
  v = BDocument d \/ v = BArray d -> bval_type v = t -> on_value P v post it ->
  iter_subdoc t it = Some (zlen (enc_doc d), Some (enc_doc d ++ post)).
Proof.
  intros Hv Ht Hon. assert (E : enc_val v = enc_doc d).
  { destruct Hv as [->| ->]; [apply enc_val_document|apply enc_val_array]. }
  unfold iter_subdoc. rewrite (when_type_on _ _ _ _ Hon) by done.
  destruct (Hon) as (_ & _ & Hd1 & _ & _ & _ & _ & Hl). rewrite E in Hl.
  rewrite (raw_u32_in _ _ _ _ Hon [] (zlen (enc_doc d)) (enc_elems d ++ [x00]));
    [|rewrite E; apply enc_doc_eq|zl|zl].
  sbind. by rewrite (raw_at_in _ _ _ _ Hon [] (enc_doc d)) by (done || zl).
Qed.

Lemma binary_in P st data post it :
  on_value P (BBinary st data) post it ->
  bson_iter_binary it true = Some (st, zlen data, Some (data ++ post)).
Proof.
  intros Hon. unfold bson_iter_binary. rewrite (when_type_on _ _ _ _ Hon) by done.
  destruct (Hon) as (Hr & _ & Hd1 & Hd2 & Hd3 & _ & Hwf & Hl). rewrite Hr, Hd1, Hd2, Hd3. sbind.
  cbn [val_d2 val_d3 enc_val wf_val] in *. unfold is_u8 in Hwf. unfold enc_binary in *.
  destruct (Z.eqb_spec st BSON_SUBTYPE_BINARY_DEPRECATED) as [E|E]; autorewrite with zlen in Hl.
  - cbn [app]. rewrite rd_after by zl. sbind. cbn [negb]. rewrite read32_here by zl. sbind.
    rewrite (cons_middle (z2b st)), (app_assoc (le_bytes _ _)), padd_in by zl. sbind.
    rewrite b2z_z2b_small, (proj2 (Z.eqb_eq _ _) E) by lia.
    rewrite <- app_assoc, padd_at by zl. sbind. rewrite u32_id by zl. do 4 f_equal. lia.
  - cbn [app]. rewrite rd_after by zl. sbind. cbn [negb]. rewrite read32_here by zl. sbind.
    rewrite (cons_middle (z2b st)), (app_assoc (le_bytes _ _)), padd_in by zl. sbind.
    rewrite b2z_z2b_small by lia. by destruct (Z.eqb_spec st BSON_SUBTYPE_BINARY_DEPRECATED).
Qed.

Lemma codewscope_in P c d post it :
  on_value P (BCodeWScope c d) post it ->
  bson_iter_codewscope it = Some (Some (c ++ x00 :: enc_doc d ++ post), zlen c, zlen (enc_doc d),
    Some (enc_doc d ++ post)).
Proof.
  intros Hon. unfold bson_iter_codewscope. rewrite (when_type_on _ _ _ _ Hon) by done.
  destruct (Hon) as (_ & _ & Hd1 & Hd2 & Hd3 & Hd4 & _ & Hl).
  cbn [val_d2 val_d3 val_d4] in *. rewrite enc_val_codewscope in Hl.
  set (L := 8 + (zlen c + 1) + zlen (enc_doc d)).
  assert (E : enc_val (BCodeWScope c d) =
    le_bytes 4 L ++ le_bytes 4 (zlen c + 1) ++ (c ++ [x00]) ++ enc_doc d).
  { rewrite enc_val_codewscope. unfold enc_string. by rewrite <- !app_assoc. }
  rewrite (raw_u32_in _ _ _ _ Hon _ _ _ (it_d2 it) E) by zl. sbind.
  destruct (Z.eqb_spec (zlen c + 1) 0); [zl|].
  assert (E2 : enc_val (BCodeWScope c d) =
    (le_bytes 4 L ++ le_bytes 4 (zlen c + 1) ++ (c ++ [x00])) ++ enc_doc d).
  { rewrite E. by rewrite <- !app_assoc. }
  rewrite (raw_u32_in _ _ _ _ Hon (le_bytes 4 L ++ le_bytes 4 (zlen c + 1) ++ (c ++ [x00]))
    (zlen (enc_doc d)) (enc_elems d ++ [x00])); [|by rewrite E2, (enc_doc_eq d) at 1|zl|zl].
  sbind. rewrite (raw_at_in _ _ _ _ Hon _ _ (it_d4 it) E2) by zl. sbind.
  rewrite (raw_at_in _ _ _ _ Hon (le_bytes 4 L ++ le_bytes 4 (zlen c + 1)) ((c ++ [x00]) ++ enc_doc d));
    [|by rewrite E, <- !app_assoc|zl].
  sbind. rewrite <- !app_assoc, u32_id by zl. do 4 f_equal. lia.
Qed.

Lemma dbpointer_in P c oid post it :
  on_value P (BDBPointer c oid) post it ->
  bson_iter_dbpointer it = Some (zlen c, Some (c ++ x00 :: oid ++ post), Some oid).
Proof.
  intros Hon. unfold bson_iter_dbpointer. rewrite (when_type_on _ _ _ _ Hon) by done.
  destruct (Hon) as (Hr & _ & Hd1 & Hd2 & Hd3 & _ & Hwf & Hl). cbn [val_d2 val_d3 wf_val enc_val] in *.
  assert (E : enc_val (BDBPointer c oid) = le_bytes 4 (zlen c + 1) ++ c ++ x00 :: oid).
  { cbn [enc_val]. unfold enc_string. by rewrite <- !app_assoc. }
  autorewrite with zlen in Hl. rewrite (raw_u32_in _ _ _ _ Hon [] _ _ _ E) by zl. sbind.
  rewrite (raw_at_in _ _ _ _ Hon _ _ _ E) by zl. sbind. rewrite Hr. sbind. rewrite Hd3.
  rewrite <- (app_nil_r oid) at 1. rewrite slice_in by zl. sbind.
  destruct (Z.ltb_spec 0 (zlen c + 1)); [|zl]. rewrite u32_id, <- app_assoc by zl.
  do 4 f_equal. lia.
Qed.

Lemma regex_in P r op post it :
  on_value P (BRegex r op) post it ->
  bson_iter_regex it = Some (Some (r ++ [x00] ++ op ++ [x00] ++ post), Some (op ++ [x00] ++ post)).
Proof.
  intros Hon. destruct (Hon) as (Hr & Ht & Hd1 & Hd2 & _).
  unfold bson_iter_regex. rewrite (when_type_on _ _ _ _ Hon) by done.
  rewrite (raw_at_in _ _ _ _ Hon [] (r ++ [x00] ++ op ++ [x00]) (it_d1 it)) by (done || zl). sbind.
  rewrite (raw_at_in _ _ _ _ Hon (r ++ [x00]) (op ++ [x00]) (it_d2 it));
    [|by rewrite <- app_assoc|rewrite Hd2; cbn [val_d2]; zl].
  sbind. by rewrite <- !app_assoc.
Qed.

Lemma decimal128_in P lo hi post it :
  on_value P (BDecimal128 lo hi) post it -> bson_iter_decimal128 it = Some (Some (lo, hi)).
Proof.
  intros Hon. destruct (Hon) as (Hr & Ht & Hd1 & Hd2 & _ & _ & Hwf & Hl).
  unfold bson_iter_decimal128. rewrite (when_type_on _ _ _ _ Hon) by done.
  unfold bson_iter_decimal128_unsafe. rewrite Hr, Hd1. sbind.
  destruct Hwf. cbn [enc_val].
  pose proof (read64_in P [] lo (le_bytes 8 hi) post (zlen P) ltac:(zl) ltac:(done)) as E.
  cbn [app] in E. rewrite E. sbind.
  rewrite <- (app_nil_r (le_bytes 8 hi)), read64_in by (done || zl). done.
Qed.

(** ** [bson_iter_value] on each kind of value *)
Lemma bson_iter_value_of P v post it :
  on_value P v post it -> bson_iter_value it = Some (Some (value_of v post)).
Proof.
  intros Hon. destruct (Hon) as (Hr & Ht & Hd1 & Hd2 & _ & _ & Hwf & Hl).
  unfold bson_iter_value. rewrite Ht. sbind. rewrite type_of_code_code.
  destruct v as [b|s|d|d|st data| |oid|b|t| |r op|c oid|c|s|c d|i|t i|i|lo hi| |];
    cbn [bval_type value_of wf_val] in *; try done.
  - unfold bson_iter_double. rewrite (when_type_on _ _ _ _ Hon) by done.
    unfold bson_iter_double_unsafe. rewrite (raw_u64_in _ _ _ _ Hon b []) by done. done.
  - unfold bson_iter_utf8. by rewrite (string_in _ _ _ _ Hon s).
  - unfold bson_iter_document. by rewrite (subdoc_in P d post it BSON_TYPE_DOCUMENT _ (or_introl eq_refl) eq_refl Hon).
  - unfold bson_iter_array. by rewrite (subdoc_in P d post it BSON_TYPE_ARRAY _ (or_intror eq_refl) eq_refl Hon).
  - by rewrite (binary_in _ _ _ _ _ Hon).
  - unfold bson_iter_oid. rewrite (when_type_on _ _ _ _ Hon) by done.
    unfold bson_iter_oid_unsafe. rewrite Hr. sbind. cbn [enc_val]. by rewrite slice_at by done.
  - unfold bson_iter_bool. rewrite (when_type_on _ _ _ _ Hon) by done.
    unfold bson_iter_bool_unsafe. rewrite Hr. sbind. cbn [enc_val app]. rewrite rd_at by done. sbind.
    rewrite b2z_z2b_small by (destruct b; simpl; lia). by destruct b.
  - unfold bson_iter_date_time. rewrite (when_type_on _ _ _ _ Hon) by done.
    by rewrite (int64_in _ _ _ _ Hon t).
  - by rewrite (regex_in _ _ _ _ _ Hon).
  - by rewrite (dbpointer_in _ _ _ _ _ Hon).
  - unfold bson_iter_code. by rewrite (string_in _ _ _ _ Hon c).
  - unfold bson_iter_symbol. by rewrite (string_in _ _ _ _ Hon s).
  - by rewrite (codewscope_in _ _ _ _ _ Hon).
  - unfold bson_iter_int32. rewrite (when_type_on _ _ _ _ Hon) by done.
    unfold bson_iter_int32_unsafe. rewrite (raw_u32_in _ _ _ _ Hon [] (u32 i) []);
      [|by rewrite app_nil_r|zl|apply u32_range]. sbind. by rewrite s32_u32.
  - unfold bson_iter_timestamp. rewrite (when_type_on _ _ _ _ Hon) by done.
    rewrite (raw_u32_in _ _ _ _ Hon [] i (le_bytes 4 t) (it_d1 it)) by (done || apply Hwf || zl). sbind.
    rewrite (raw_u32_in _ _ _ _ Hon (le_bytes 4 i) t [] (it_d1 it + 4));
      [done|by rewrite app_nil_r|zl|apply Hwf].
  - unfold bson_iter_int64. rewrite (when_type_on _ _ _ _ Hon) by done.
    by rewrite (int64_in _ _ _ _ Hon i).
  - by rewrite (decimal128_in _ _ _ _ _ Hon).
Qed.
