(* ===== verification/BsonIterFind.v ===== *)
(** Searching: [bson_iter_find], [bson_iter_find_w_len] and
    [bson_iter_find_descendant] against lookup in the abstract document. *)

From S2P Require Import Prelude CString IntEncode BsonTypes BsonIter BsonIterSafe BsonSpec.
From S2P Require Import BsonIterSpec.

(** ** Reference lookup *)

(** The first element with key [k], with what precedes and follows it. *)
Fixpoint doc_split (d : doc) (k : bytes) : option (doc * elem * doc) :=
  match d with
  | [] => None
  | e :: d' =>
      if decide (e.1 = k) then Some ([], e, d')
      else '(d1, e', d2) ← doc_split d' k; Some (e :: d1, e', d2)
  end.

Definition doc_find (d : doc) (k : bytes) : option bval :=
  r ← doc_split d k; Some (r.1.2).2.

(** Lookup along a path of keys, through documents and arrays. *)
Fixpoint doc_lookup (d : doc) (path : list bytes) : option bval :=
  match path with
  | [] => None
  | [k] => doc_find d k
  | k :: path' =>
      v ← doc_find d k;
      match v with
      | BDocument d' | BArray d' => doc_lookup d' path'
      | _ => None
      end
  end.

Lemma doc_split_Some d k d1 e d2 :
  doc_split d k = Some (d1, e, d2) -> d = d1 ++ e :: d2 /\ e.1 = k /\ Forall (fun e => e.1 <> k) d1.
Proof.
  revert d1. induction d as [|e0 d IH]; intros d1 H; [done|]. simpl in H. case_decide as E.
  - by simplify_eq.
  - destruct (doc_split d k) as [[[d1' e'] d2']|] eqn:E'; simplify_eq/=.
    destruct (IH d1' eq_refl) as (-> & ? & ?). split; [done|]. split; [done|by constructor].
Qed.

(** ** The comparison of a key with an element's key *)

Lemma bson_iter_key_elem pre k v post len :
  bson_iter_key (elem_iter pre (k, v) post len) = Some (k ++ x00 :: enc_val v ++ post).
Proof.
  unfold bson_iter_key, bson_iter_key_unsafe, raw_at, elem_iter, enc_elem. isimpl.
  rewrite <- !app_assoc, app_assoc. rewrite padd_at by zl. done.
Qed.

(** What the iterators of the elements give access to. *)
Lemma elem_iters_values d rest len : wf_elems d -> zlen (enc_elems d) < 2 ^ 31 -> forall pre,
  Forall2 (fun e it => exists krest post,
    bson_iter_key it = Some (e.1 ++ x00 :: krest) /\
    bson_iter_value it = Some (Some (value_of e.2 post))) d (elem_iters pre d (x00 :: rest) len).
Proof.
  induction 1 as [|[k v] d He Hd IH]; intros Hz pre; cbn [elem_iters]; constructor.
  - rewrite bson_iter_key_elem. rewrite enc_elems_cons, zlen_app in Hz. pose proof (zlen_nonneg (enc_elems d)).
    eexists _, _. split; [done|]. eapply bson_iter_value_of. apply elem_iter_on_value; [done|lia].
  - apply IH. rewrite enc_elems_cons, zlen_app in Hz. pose proof (zlen_nonneg (enc_elem (k, v))). lia.
Qed.

Lemma find_step fuel it s s' pre k v post len :
  no_nul s -> no_nul k ->
  bson_iter_next it = Some (true, elem_iter pre (k, v) post len) ->
  find_w_len_loop (S fuel) it (s ++ s') (zlen s) =
    if decide (k = s) then Some (true, elem_iter pre (k, v) post len)
    else find_w_len_loop fuel (elem_iter pre (k, v) post len) (s ++ s') (zlen s).
Proof.
  intros Hs Hk Hn. cbn [find_w_len_loop]. rewrite Hn. sbind. cbn [negb].
  rewrite bson_iter_key_elem. sbind. rewrite to_nat_zlen.
  destruct (strncmp_spec s k s' (enc_val v ++ post) Hs Hk) as (r & -> & Hr). sbind.
  destruct (Z.eqb_spec r 0) as [E|E].
  - apply Hr in E as [k2 ->]. rewrite <- app_assoc, rd_app_r, Z.sub_diag by lia.
    destruct k2 as [|c k2]; cbn [app]; rewrite rd_cons_0; sbind.
    + rewrite byte_eqb_refl. rewrite app_nil_r. by rewrite decide_True.
    + apply no_nul_app in Hk as [_ Hk]. apply no_nul_cons in Hk as [Hc _].
      rewrite byte_eqb_neq by done. rewrite decide_False; [done|].
      intros Ha%(f_equal length). rewrite length_app in Ha. simpl in Ha. lia.
  - rewrite decide_False; [done|]. intros ->. apply E, Hr. exists []. by rewrite app_nil_r.
Qed.

(** ** [bson_iter_find_w_len] *)

Lemma find_w_len_loop_spec d s s' pre rest len it :
  wf_elems d -> no_nul s -> len = zlen pre + zlen (enc_elems d) + 1 ->
  at_pos pre (enc_elems d ++ x00 :: rest) len it ->
  forall fuel, (length d < fuel)%nat ->
  match doc_split d s with
  | Some (d1, e, d2) =>
      find_w_len_loop fuel it (s ++ s') (zlen s) =
        Some (true, elem_iter (pre ++ enc_elems d1) e (enc_elems d2 ++ x00 :: rest) len)
  | None => exists it', find_w_len_loop fuel it (s ++ s') (zlen s) = Some (false, it')
  end.
Proof.
  intros Hwf Hs. revert pre it.
  induction Hwf as [|[k v] d He Hd IH]; intros pre it Hl Hat [|fuel] Hf; simpl in Hf; try lia.
  - destruct (next_end pre rest len it) as (it' & E & _); [done|rewrite Hl; simpl; zl|].
    exists it'. cbn [find_w_len_loop]. by rewrite E.
  - rewrite enc_elems_cons in *. rewrite <- app_assoc in Hat.
    pose proof (next_elem pre (k, v) (enc_elems d ++ x00 :: rest) len it He ltac:(zl) Hat) as Hn.
    rewrite (find_step fuel it s s' _ _ _ _ _ Hs (proj1 He) Hn). cbn [doc_split fst].
    case_decide as Ek.
    { cbn [enc_elems]. by rewrite app_nil_r. }
    destruct Hat as (_ & _ & _ & Hp & Hm).
    specialize (IH (pre ++ enc_elem (k, v)) _ ltac:(zl)
      (at_pos_next pre (k, v) (enc_elems d ++ x00 :: rest) len Hp Hm) fuel ltac:(lia)).
    destruct (doc_split d s) as [[[d1 e] d2]|]; sbind; [|done].
    rewrite IH, enc_elems_cons. by rewrite app_assoc.
Qed.

(** The number of elements is below the loop's fuel. *)
Lemma length_enc_elems d : (length d <= length (enc_elems d))%nat.
Proof.
  induction d as [|e d IH]; [done|]. simpl. rewrite length_app. unfold enc_elem.
  rewrite !length_app. simpl. lia.
Qed.

Lemma doc_fuel d rest : (length d < iter_fuel (iter_start (enc_doc d ++ rest) (zlen (enc_doc d))))%nat.
Proof.
  unfold iter_fuel. isimpl. pose proof (length_enc_elems d). rewrite zlen_enc_doc. unfold zlen. lia.
Qed.

Lemma bson_iter_find_w_len_spec d s s' rest :
  wf_elems d -> no_nul s -> zlen (enc_doc d) < 2 ^ 31 ->
  let it := iter_start (enc_doc d ++ rest) (zlen (enc_doc d)) in
  match doc_split d s with
  | Some (d1, e, d2) =>
      bson_iter_find_w_len it (s ++ s') (zlen s) =
        Some (true, elem_iter (le_bytes 4 (zlen (enc_doc d)) ++ enc_elems d1) e
                      (enc_elems d2 ++ x00 :: rest) (zlen (enc_doc d)))
  | None => exists it', bson_iter_find_w_len it (s ++ s') (zlen s) = Some (false, it')
  end.
Proof.
  intros Hwf Hs Hl it. unfold bson_iter_find_w_len. destruct (Z.ltb_spec (zlen s) 0); [zl|]. sbind.
  apply find_w_len_loop_spec; [done|done| |by apply at_pos_start|apply doc_fuel].
  rewrite zlen_enc_doc. zl.
Qed.

(** The found value is the one of the document. *)
Lemma found_value d s d1 e d2 rest :
  wf_elems d -> zlen (enc_doc d) < 2 ^ 31 -> doc_split d s = Some (d1, e, d2) ->
  exists P, on_value P e.2 (enc_elems d2 ++ x00 :: rest)
    (elem_iter (le_bytes 4 (zlen (enc_doc d)) ++ enc_elems d1) e
      (enc_elems d2 ++ x00 :: rest) (zlen (enc_doc d))).
Proof.
  intros Hwf Hl H. apply doc_split_Some in H as (-> & _ & _).
  apply wf_elems_app in Hwf as [_ Hwf]. apply Forall_cons_1 in Hwf as [He _].
  rewrite zlen_enc_doc, enc_elems_app, enc_elems_cons in Hl.
  eexists. apply elem_iter_on_value; [done|]. zl.
Qed.

(** ** [bson_iter_recurse] *)

Lemma bson_iter_recurse_value P v post it :
  on_value P v post it ->
  bson_iter_recurse it = Some
    match v with
    | BDocument d | BArray d => Some (iter_start (enc_doc d ++ post) (zlen (enc_doc d)))
    | _ => None
    end.
Proof.
  intros Hon. unfold bson_iter_recurse. destruct (Hon) as (_ & -> & _). sbind.
  destruct v; try done; cbn [bval_type].
  - rewrite Z.eqb_refl. unfold bson_iter_document.
    by rewrite (subdoc_in P d post it BSON_TYPE_DOCUMENT _ (or_introl eq_refl) eq_refl Hon).
  - cbn [Z.eqb type_code Pos.eqb]. unfold bson_iter_array.
    by rewrite (subdoc_in P d post it BSON_TYPE_ARRAY _ (or_intror eq_refl) eq_refl Hon).
Qed.

(** ** [bson_iter_find_descendant] *)

Fixpoint join_path (path : list bytes) : bytes :=
  match path with
  | [] => []
  | [k] => k
  | k :: path' => k ++ dot :: join_path path'
  end.

Definition path_key (k : bytes) : Prop := no_nul k /\ dot ∉ k.

Lemma join_path_no_nul path : Forall path_key path -> no_nul (join_path path).
Proof.
  induction 1 as [|k path [Hk _] _ IH]; [by apply no_nulb_spec|]. simpl. destruct path; [done|].
  apply no_nul_app. split; [done|]. by apply no_nul_cons.
Qed.

(** A sub-document's encoding, seen from its parent. *)
Lemma on_value_doc P v post it :
  on_value P v post it ->
  match v with
  | BDocument d | BArray d => wf_elems d /\ zlen (enc_doc d) < 2 ^ 31
  | _ => True
  end.
Proof.
  intros (_ & _ & _ & _ & _ & _ & Hwf & Hl). destruct v; try done.
  - rewrite enc_val_document in Hl. by apply wf_val_document in Hwf.
  - rewrite enc_val_array in Hl. by apply wf_val_array in Hwf.
Qed.

Lemma on_value_holds P v post it len t :
  on_value P v post it -> it_len it = len -> len <> 0 ->
  iter_holds t it = Some (type_code (bval_type v) =? type_code t).
Proof.
  intros (_ & Ht & _) Hl Hn. unfold iter_holds, bson_iter_type, bson_iter_type_unsafe.
  rewrite Hl. destruct (Z.eqb_spec len 0); [done|]. by rewrite Ht.
Qed.

Lemma find_descendant_spec path : forall fuel d rest t,
  wf_elems d -> zlen (enc_doc d) < 2 ^ 31 -> path <> [] -> Forall path_key path ->
  zlen (join_path path) < 2 ^ 31 -> (length (join_path path) < fuel)%nat ->
  exists r, find_descendant_loop fuel (iter_start (enc_doc d ++ rest) (zlen (enc_doc d)))
    (join_path path ++ x00 :: t) = Some r /\
  match doc_lookup d path with
  | Some v => exists P post it, r = Some it /\ on_value P v post it
  | None => r = None
  end.
Proof.
  induction path as [|k path IH]; [done|]. intros [|fuel] d rest t Hd Hl _ Hp Hlen Hf; [lia|].
  apply Forall_cons_1 in Hp as [[Hk Hdot] Hp].
  cbn [find_descendant_loop]. destruct path as [|k2 path].
  - cbn [join_path doc_lookup] in *. rewrite strchr_none by done. sbind.
    rewrite strlen_app by done. sbind. rewrite s32_id by zl.
    pose proof (bson_iter_find_w_len_spec d k (x00 :: t) rest Hd Hk Hl) as H. unfold doc_find.
    destruct (doc_split d k) as [[[d1 e] d2]|] eqn:E; sbind.
    + rewrite H. sbind. cbn [negb fst snd].
      destruct (found_value d k d1 e d2 rest Hd Hl E) as [P HP]. eauto 10.
    + destruct H as [it' ->]. sbind. cbn [negb]. eauto.
  - set (p := k2 :: path) in *. change (join_path (k :: p)) with (k ++ dot :: join_path p) in *.
    change (doc_lookup d (k :: p)) with (v ← doc_find d k;
      match v with BDocument d' | BArray d' => doc_lookup d' p | _ => None end).
    rewrite <- app_assoc. cbn [app]. rewrite strchr_some by done. sbind.
    rewrite zlen_app, zlen_cons in Hlen. rewrite length_app, length_cons in Hf.
    rewrite s32_id by zl.
    pose proof (bson_iter_find_w_len_spec d k (dot :: join_path p ++ x00 :: t) rest Hd Hk Hl) as H.
    unfold doc_find. destruct (doc_split d k) as [[[d1 e] d2]|] eqn:E; sbind.
    2: { destruct H as [it' ->]. sbind. cbn [negb]. eauto. }
    rewrite H. sbind. cbn [negb fst snd].
    destruct (found_value d k d1 e d2 rest Hd Hl E) as [P HP].
    rewrite !(on_value_holds _ _ _ _ _ _ HP eq_refl) by (unfold elem_iter; isimpl; rewrite zlen_enc_doc; zl).
    rewrite (bson_iter_recurse_value _ _ _ _ HP). sbind.
    pose proof (on_value_doc _ _ _ _ HP) as Hsub.
    change (dot :: join_path p ++ x00 :: t) with ([dot] ++ join_path p ++ x00 :: t).
    rewrite app_assoc, padd_at by zl.
    destruct e.2 eqn:Ev; cbn [bval_type type_code Z.eqb Pos.eqb orb]; sbind; try (eexists; split; [done|]; done).
    all: destruct Hsub as [Hd' Hl'].
    all: destruct (IH fuel _ (enc_elems d2 ++ x00 :: rest) t Hd' Hl') as (r & -> & Hr);
      [done|done|zl|lia|]; exists r; done.
Qed.


Lemma bson_iter_find_descendant_spec d path rest t :
  wf_elems d -> zlen (enc_doc d) < 2 ^ 31 -> path <> [] -> Forall path_key path ->
  zlen (join_path path) < 2 ^ 31 ->
  exists r, bson_iter_find_descendant (iter_start (enc_doc d ++ rest) (zlen (enc_doc d)))
    (join_path path ++ x00 :: t) = Some r /\
  match doc_lookup d path with
  | Some v => exists P post it, r = Some it /\ on_value P v post it
  | None => r = None
  end.
Proof.
  intros. apply find_descendant_spec; try done. rewrite length_app. lia.
Qed.
