(* ===== verification/Utf8.v ===== *)
(** UTF-8: [common-utf8-private.h] and the validating and decoding functions
    of [bson/bson-utf8.c], against a declarative definition of UTF-8 text. *)

From S2P Require Import Prelude CString.

(** ** The functions *)

(** [(seq_length, first_mask)] for the byte pointed to. *)
Definition mcommon_utf8_get_sequence (b : byte) : Z * Z :=
  let c := b2z b in
  if Z.land c 0x80 =? 0 then (1, 0x7F)
  else if Z.land c 0xE0 =? 0xC0 then (2, 0x1F)
  else if Z.land c 0xF0 =? 0xE0 then (3, 0x0F)
  else if Z.land c 0xF8 =? 0xF0 then (4, 0x07)
  else (0, 0).

(** The bytes written; their number is [*len]. *)
Definition mcommon_utf8_from_unichar (unichar : Z) : bytes :=
  if unichar <=? 0x7F then [z2b unichar]
  else if unichar <=? 0x7FF then
    [z2b (Z.lor 0xC0 (Z.land (Z.shiftr unichar 6) 0x3F)); z2b (Z.lor 0x80 (Z.land unichar 0x3F))]
  else if unichar <=? 0xFFFF then
    [z2b (Z.lor 0xE0 (Z.land (Z.shiftr unichar 12) 0xF));
     z2b (Z.lor 0x80 (Z.land (Z.shiftr unichar 6) 0x3F)); z2b (Z.lor 0x80 (Z.land unichar 0x3F))]
  else if unichar <=? 0x1FFFFF then
    [z2b (Z.lor 0xF0 (Z.land (Z.shiftr unichar 18) 0x7));
     z2b (Z.lor 0x80 (Z.land (Z.shiftr unichar 12) 0x3F));
     z2b (Z.lor 0x80 (Z.land (Z.shiftr unichar 6) 0x3F)); z2b (Z.lor 0x80 (Z.land unichar 0x3F))]
  else [].

Definition bson_utf8_from_unichar := mcommon_utf8_from_unichar.

(** [while ((str\[seq_begin_at\] & 0xc0) == 0x80)]: the last byte that could begin
    a sequence, or [None] inside for [return 0]. *)
Fixpoint seq_begin (fuel : nat) (str : bytes) (at_ : Z) : option (option Z) :=
  match fuel with
  | O => None
  | S fuel' =>
      c ← rd str at_;
      if Z.land (b2z c) 0xc0 =? 0x80 then
        if 0 <? at_ then seq_begin fuel' str (at_ - 1) else Some None
      else Some (Some at_)
  end.

Fixpoint truncate_loop (fuel : nat) (str : bytes) (resulting_len : Z) : option Z :=
  match fuel with
  | O => None
  | S fuel' =>
      if 0 <? resulting_len then
        last ← rd str (resulting_len - 1);
        if b2z last <=? 0x7f then Some resulting_len else
        r ← seq_begin (Z.to_nat resulting_len) str (resulting_len - 1);
        match r with
        | None => Some 0
        | Some seq_begin_at =>
            b ← rd str seq_begin_at;
            let seq_length := fst (mcommon_utf8_get_sequence b) in
            if seq_begin_at + seq_length =? resulting_len then Some resulting_len
            else truncate_loop fuel' str seq_begin_at
        end
      else Some 0
  end.

Definition mcommon_utf8_truncate_len (str : bytes) (len : Z) : option Z :=
  truncate_loop (S (Z.to_nat len)) str len.

(** [for (j = i + 1; j < i + seq_length; j++)]: the code point, or [None]
    inside for [return false]. *)
Fixpoint utf8_cont (k : nat) (utf8 : bytes) (j c : Z) : option (option Z) :=
  match k with
  | O => Some (Some c)
  | S k' =>
      b ← rd utf8 j;
      let c := u32 (Z.lor (Z.shiftl c 6) (Z.land (b2z b) 0x3F)) in
      if negb (Z.land (b2z b) 0xC0 =? 0x80) then Some None
      else utf8_cont k' utf8 (j + 1) c
  end.

(** The loop that runs when [!allow_null]: whether it reaches its end. *)
Fixpoint utf8_no_null (k : nat) (utf8 : bytes) (j utf8_len : Z) : option bool :=
  match k with
  | O => Some true
  | S k' =>
      if utf8_len <? j then Some false else
      b ← rd utf8 j;
      if b2z b =? 0 then Some false else utf8_no_null k' utf8 (j + 1) utf8_len
  end.

(** The [switch (seq_length)]: [continue] or [return false]. *)
Definition utf8_shortest (seq_length c : Z) (allow_null : bool) : bool :=
  if seq_length =? 1 then c <=? 0x7F
  else if seq_length =? 2 then
    if (0x80 <=? c) && (c <=? 0x7FF) then true else if c =? 0 then allow_null else false
  else if seq_length =? 3 then
    ((0x800 <=? c) && (c <=? 0xFFF)) || ((0x1000 <=? c) && (c <=? 0xFFFF))
  else if seq_length =? 4 then
    ((0x10000 <=? c) && (c <=? 0x3FFFF)) || ((0x40000 <=? c) && (c <=? 0xFFFFF)) ||
    ((0x100000 <=? c) && (c <=? 0x10FFFF))
  else false.

(** One iteration at [i]: the sequence length, or [None] inside for
    [return false]. *)
Definition utf8_step (utf8 : bytes) (i utf8_len : Z) (allow_null : bool) : option (option Z) :=
  b ← rd utf8 i;
  let '(seq_length, first_mask) := mcommon_utf8_get_sequence b in
  if seq_length =? 0 then Some None else
  if utf8_len - i <? seq_length then Some None else
  r ← utf8_cont (Z.to_nat (seq_length - 1)) utf8 (i + 1) (Z.land (b2z b) first_mask);
  match r with
  | None => Some None
  | Some c =>
      nonull ← (if allow_null then Some true
                else utf8_no_null (Z.to_nat seq_length) utf8 i utf8_len);
      if negb nonull then Some None else
      if 0x0010FFFF <? c then Some None else
      if Z.land c 0xFFFFF800 =? 0xD800 then Some None else
      if utf8_shortest seq_length c allow_null then Some (Some seq_length) else Some None
  end.

Fixpoint utf8_validate_loop (fuel : nat) (utf8 : bytes) (i utf8_len : Z) (allow_null : bool) :
    option bool :=
  match fuel with
  | O => None
  | S fuel' =>
      if i <? utf8_len then
        r ← utf8_step utf8 i utf8_len allow_null;
        match r with
        | Some n => utf8_validate_loop fuel' utf8 (i + n) utf8_len allow_null
        | None => Some false
        end
      else Some true
  end.

Definition bson_utf8_validate (utf8 : bytes) (utf8_len : Z) (allow_null : bool) : option bool :=
  utf8_validate_loop (S (Z.to_nat utf8_len)) utf8 0 utf8_len allow_null.

(** [for (i = 1; i < num; i++)] of [bson_utf8_get_char]: no check is made. *)
Fixpoint get_char_loop (k : nat) (utf8 : bytes) (i c : Z) : option Z :=
  match k with
  | O => Some c
  | S k' =>
      b ← rd utf8 i;
      get_char_loop k' utf8 (i + 1) (u32 (Z.lor (Z.shiftl c 6) (Z.land (b2z b) 0x3F)))
  end.

Definition bson_utf8_get_char (utf8 : bytes) : option Z :=
  b ← rd utf8 0;
  let '(num, mask) := mcommon_utf8_get_sequence b in
  get_char_loop (Z.to_nat (num - 1)) utf8 1 (Z.land (b2z b) mask).

Definition bson_utf8_next_char (utf8 : bytes) : option bytes :=
  b ← rd utf8 0; padd utf8 (fst (mcommon_utf8_get_sequence b)).

(** ** Specification *)

(** Unicode scalar values. *)
Definition scalar (c : Z) : Prop := 0 <= c <= 0x10FFFF /\ ~ (0xD800 <= c <= 0xDFFF).

(** The shortest encoding of a code point. *)
Definition utf8_enc (c : Z) : bytes :=
  if c <=? 0x7F then bs [c]
  else if c <=? 0x7FF then bs [192 + c / 64; 128 + c mod 64]
  else if c <=? 0xFFFF then bs [224 + c / 4096; 128 + c / 64 mod 64; 128 + c mod 64]
  else bs [240 + c / 262144; 128 + c / 4096 mod 64; 128 + c / 64 mod 64; 128 + c mod 64].

(** One character of the text: a scalar value, not NUL unless allowed; with
    NUL allowed the historical two-byte form is accepted too. *)
Inductive utf8_item (allow_null : bool) : bytes -> Prop :=
  | item_scalar c : scalar c -> (allow_null = false -> c <> 0) -> utf8_item allow_null (utf8_enc c)
  | item_nul2 : allow_null = true -> utf8_item allow_null (bs [0xC0; 0x80]).

Definition utf8_text (allow_null : bool) (s : bytes) : Prop :=
  exists items, s = concat items /\ Forall (utf8_item allow_null) items.

(** ** Bytes by cases *)

Definition all_bytes : bytes := map (fun n => z2b (Z.of_nat n)) (seq 0 256).

Lemma all_bytes_in b : b ∈ all_bytes.
Proof.
  apply list_elem_of_In, in_map_iff. exists (Z.to_nat (b2z b)). pose proof (b2z_range b).
  rewrite Z2Nat.id, z2b_b2z by lia. split; [done|]. apply in_seq. lia.
Qed.

(** A decidable statement about all bytes is checked by evaluation. *)
Lemma byte_forall (P : byte -> bool) : forallb P all_bytes = true -> forall b, P b = true.
Proof. rewrite forallb_forall. intros H b. apply H, list_elem_of_In, all_bytes_in. Qed.

Definition lead_ok (b : byte) : bool :=
  let v := b2z b in
  match mcommon_utf8_get_sequence b with
  | (n, mask) =>
      if v <? 128 then (n =? 1) && (Z.land v mask =? v)
      else if v <? 192 then n =? 0
      else if v <? 224 then (n =? 2) && (Z.land v mask =? v - 192)
      else if v <? 240 then (n =? 3) && (Z.land v mask =? v - 224)
      else if v <? 248 then (n =? 4) && (Z.land v mask =? v - 240)
      else n =? 0
  end.

Lemma lead_all b : lead_ok b = true.
Proof. revert b. apply byte_forall. vm_compute. reflexivity. Qed.

Lemma lead_seq b : exists n mask, mcommon_utf8_get_sequence b = (n, mask) /\
  ((b2z b < 128 /\ n = 1 /\ Z.land (b2z b) mask = b2z b) \/
   (128 <= b2z b < 192 /\ n = 0) \/
   (192 <= b2z b < 224 /\ n = 2 /\ Z.land (b2z b) mask = b2z b - 192) \/
   (224 <= b2z b < 240 /\ n = 3 /\ Z.land (b2z b) mask = b2z b - 224) \/
   (240 <= b2z b < 248 /\ n = 4 /\ Z.land (b2z b) mask = b2z b - 240) \/
   (248 <= b2z b /\ n = 0)).
Proof.
  pose proof (lead_all b) as H. unfold lead_ok in H.
  destruct (mcommon_utf8_get_sequence b) as [n mask]. exists n, mask. split; [done|].
  repeat case_match; rewrite ?andb_true_iff, ?Z.eqb_eq, ?Z.ltb_lt, ?Z.ltb_ge in *; lia.
Qed.

Definition cont_ok (b : byte) : bool :=
  let v := b2z b in
  Bool.eqb (Z.land v 0xC0 =? 0x80) ((128 <=? v) && (v <? 192)) && (Z.land v 0x3F =? v mod 64).

Lemma cont_all b : cont_ok b = true.
Proof. revert b. apply byte_forall. vm_compute. reflexivity. Qed.

Lemma cont_test b : (Z.land (b2z b) 0xC0 =? 0x80) = (128 <=? b2z b) && (b2z b <? 192).
Proof. pose proof (cont_all b) as H. unfold cont_ok in H. by apply andb_true_iff in H as [?%eqb_prop _]. Qed.

Lemma cont_bits b : Z.land (b2z b) 0x3F = b2z b mod 64.
Proof. pose proof (cont_all b) as H. unfold cont_ok in H. apply andb_true_iff in H as [_ ?%Z.eqb_eq]. done. Qed.

(** Appending six bits. *)
Lemma push_bits c x : 0 <= c < 2 ^ 26 -> 0 <= x < 64 -> u32 (Z.lor (Z.shiftl c 6) x) = 64 * c + x.
Proof.
  intros Hc Hx. rewrite Z.shiftl_mul_pow2 by lia.
  pose proof (Z.add_lor_land (c * 2 ^ 6) x) as Hl.
  assert (Z.land (c * 2 ^ 6) x = 0).
  { rewrite <- (Z.mod_small x (2 ^ 6)) by lia. rewrite <- Z.land_ones by lia.
    rewrite (Z.land_comm x), Z.land_assoc, Z.land_ones by lia. by rewrite Z.mod_mul by lia. }
  rewrite u32_id; lia.
Qed.

(** Clearing the low eleven bits. *)
Lemma land_high c : 0 <= c < 2 ^ 32 -> Z.land c 0xFFFFF800 = 2048 * (c / 2048).
Proof.
  intros Hc. change 0xFFFFF800 with (Z.shiftl (Z.ones 21) 11).
  replace (2048 * (c / 2048)) with (Z.shiftl (Z.shiftr c 11) 11).
  2: { rewrite Z.shiftl_mul_pow2, Z.shiftr_div_pow2 by lia. change (2 ^ 11) with 2048. lia. }
  apply Z.bits_inj'. intros n Hn. rewrite Z.land_spec. destruct (Z.ltb_spec n 11).
  { rewrite !Z.shiftl_spec_low by lia. apply andb_false_r. }
  rewrite !Z.shiftl_spec, Z.shiftr_spec by lia. replace (n - 11 + 11) with n by lia.
  destruct (Z.ltb_spec n 32).
  - rewrite Z.ones_spec_low by lia. apply andb_true_r.
  - rewrite <- (Z.mod_small c (2 ^ 32)), Z.mod_pow2_bits_high by lia. done.
Qed.

Lemma surrogate_test c :
  0 <= c < 2 ^ 32 -> (Z.land c 0xFFFFF800 =? 0xD800) = (0xD800 <=? c) && (c <=? 0xDFFF).
Proof.
  intros Hc. rewrite land_high by done.
  destruct (Z.eqb_spec (2048 * (c / 2048)) 0xD800), (Z.leb_spec 0xD800 c), (Z.leb_spec c 0xDFFF);
    try done; Z.to_euclidean_division_equations; lia.
Qed.

(** ** One character *)

Lemma utf8_cont_1 m j c b :
  rd m j = Some b -> 0 <= c < 2 ^ 26 ->
  forall k, utf8_cont (S k) m j c =
    if (128 <=? b2z b) && (b2z b <? 192) then utf8_cont k m (j + 1) (64 * c + b2z b mod 64)
    else Some None.
Proof.
  intros Hb Hc k. cbn [utf8_cont]. rewrite Hb. sbind. rewrite cont_test, cont_bits.
  rewrite push_bits by (done || (apply Z.mod_pos_bound; lia)). by destruct (_ && _).
Qed.

(** Only a one-byte NUL fails the separate NUL check: the other bytes have
    their high bit set. *)
Lemma utf8_no_null_ok k m j len :
  (forall i, 0 <= i < Z.of_nat k -> exists b, rd m (j + i) = Some b /\ b2z b <> 0) ->
  j + Z.of_nat k <= len -> utf8_no_null k m j len = Some true.
Proof.
  revert j. induction k as [|k IH]; intros j H Hl; [done|]. cbn [utf8_no_null].
  destruct (Z.ltb_spec len j); [lia|]. destruct (H 0) as (b & Hb & Hn); [lia|].
  rewrite Z.add_0_r in Hb. rewrite Hb. sbind. destruct (Z.eqb_spec (b2z b) 0); [done|].
  apply IH; [|lia]. intros i Hi. destruct (H (i + 1)) as (b' & Hb' & ?); [lia|].
  exists b'. by replace (j + 1 + i) with (j + (i + 1)) by lia.
Qed.

(** What follows the decoding of the code point [c]. *)
Definition step_final (n c : Z) (allow_null : bool) : option Z :=
  if 0x0010FFFF <? c then None else
  if (0xD800 <=? c) && (c <=? 0xDFFF) then None else
  if utf8_shortest n c allow_null then Some n else None.

Definition is_cont (b : byte) : bool := (128 <=? b2z b) && (b2z b <? 192).

Section Step.
Context (allow : bool).

Lemma finish n c :
  0 <= c < 2 ^ 32 ->
  (if 0x0010FFFF <? c then Some None else
   if Z.land c 0xFFFFF800 =? 0xD800 then Some None else
   if utf8_shortest n c allow then Some (Some n) else Some None) = Some (step_final n c allow).
Proof.
  intros Hc. rewrite surrogate_test by done. unfold step_final. by repeat case_match.
Qed.
End Step.

Lemma slice_lookup m i l :
  (forall j b, l !! j = Some b -> rd m (i + Z.of_nat j) = Some b) -> 0 <= i -> i + zlen l <= zlen m ->
  slice m i (zlen l) = Some l.
Proof.
  revert i. induction l as [|b l IH]; intros i H Hi Hl; [by apply slice_nil; zl|].
  rewrite zlen_cons in *. rewrite Z.add_comm. apply slice_cons.
  - rewrite <- (Z.add_0_r i). by apply (H 0%nat).
  - apply IH; [|lia|lia]. intros j b' Hj. replace (i + 1 + Z.of_nat j) with (i + Z.of_nat (S j)) by lia.
    by apply H.
Qed.

(** ** Encodings by length *)

Lemma enc_1 c : 0 <= c <= 0x7F -> utf8_enc c = bs [c].
Proof. intros. unfold utf8_enc. bdestruct. done. Qed.
Lemma enc_2 v0 v1 c :
  c = 64 * (v0 - 192) + (v1 - 128) -> 128 <= v1 < 192 -> 0x80 <= c <= 0x7FF ->
  utf8_enc c = bs [v0; v1].
Proof.
  intros Hc H1 Hr. unfold utf8_enc. bdestruct.
  replace (192 + c / 64) with v0 by (Z.to_euclidean_division_equations; lia).
  by replace (128 + c mod 64) with v1 by (Z.to_euclidean_division_equations; lia).
Qed.
Lemma enc_3 v0 v1 v2 c :
  c = 64 * (64 * (v0 - 224) + (v1 - 128)) + (v2 - 128) -> 128 <= v1 < 192 -> 128 <= v2 < 192 ->
  0x800 <= c <= 0xFFFF -> utf8_enc c = bs [v0; v1; v2].
Proof.
  intros Hc H1 H2 Hr. unfold utf8_enc. bdestruct.
  replace (224 + c / 4096) with v0 by (Z.to_euclidean_division_equations; lia).
  replace (128 + c / 64 mod 64) with v1 by (Z.to_euclidean_division_equations; lia).
  by replace (128 + c mod 64) with v2 by (Z.to_euclidean_division_equations; lia).
Qed.
Lemma enc_4 v0 v1 v2 v3 c :
  c = 64 * (64 * (64 * (v0 - 240) + (v1 - 128)) + (v2 - 128)) + (v3 - 128) ->
  128 <= v1 < 192 -> 128 <= v2 < 192 -> 128 <= v3 < 192 ->
  0x10000 <= c -> utf8_enc c = bs [v0; v1; v2; v3].
Proof.
  intros Hc H1 H2 H3 Hr. unfold utf8_enc. bdestruct.
  replace (240 + c / 262144) with v0 by (Z.to_euclidean_division_equations; lia).
  replace (128 + c / 4096 mod 64) with v1 by (Z.to_euclidean_division_equations; lia).
  replace (128 + c / 64 mod 64) with v2 by (Z.to_euclidean_division_equations; lia).
  by replace (128 + c mod 64) with v3 by (Z.to_euclidean_division_equations; lia).
Qed.

(** Every code point has one of the four forms. *)
Lemma enc_forms c : 0 <= c <= 0x10FFFF ->
  (c <= 0x7F /\ utf8_enc c = bs [c]) \/
  (0x80 <= c <= 0x7FF /\ exists v0 v1, 192 <= v0 < 224 /\ 128 <= v1 < 192 /\
     c = 64 * (v0 - 192) + (v1 - 128) /\ utf8_enc c = bs [v0; v1]) \/
  (0x800 <= c <= 0xFFFF /\ exists v0 v1 v2, 224 <= v0 < 240 /\ 128 <= v1 < 192 /\
     128 <= v2 < 192 /\ c = 64 * (64 * (v0 - 224) + (v1 - 128)) + (v2 - 128) /\
     utf8_enc c = bs [v0; v1; v2]) \/
  (0x10000 <= c /\ exists v0 v1 v2 v3, 240 <= v0 < 248 /\ 128 <= v1 < 192 /\
     128 <= v2 < 192 /\ 128 <= v3 < 192 /\
     c = 64 * (64 * (64 * (v0 - 240) + (v1 - 128)) + (v2 - 128)) + (v3 - 128) /\
     utf8_enc c = bs [v0; v1; v2; v3]).
Proof.
  intros Hc. unfold utf8_enc. bdestruct.
  - left. done.
  - right; left. split; [lia|]. exists (192 + c / 64), (128 + c mod 64).
    repeat split; Z.to_euclidean_division_equations; lia.
  - right; right; left. split; [lia|].
    exists (224 + c / 4096), (128 + c / 64 mod 64), (128 + c mod 64).
    repeat split; Z.to_euclidean_division_equations; lia.
  - right; right; right. split; [lia|].
    exists (240 + c / 262144), (128 + c / 4096 mod 64), (128 + c / 64 mod 64), (128 + c mod 64).
    repeat split; Z.to_euclidean_division_equations; lia.
Qed.

Lemma bs_b2z l : bs (map b2z l) = l.
Proof. unfold bs. induction l as [|b l IH]; [done|]. cbn. by rewrite z2b_b2z, IH. Qed.

(** ** The step is sound and complete *)

Lemma is_cont_spec b : is_cont b = true <-> 128 <= b2z b < 192.
Proof. unfold is_cont. rewrite andb_true_iff, Z.leb_le, Z.ltb_lt. done. Qed.

Lemma cont_mod b : is_cont b = true -> b2z b mod 64 = b2z b - 128.
Proof.
  intros H%is_cont_spec. symmetry. apply (Z.mod_unique _ _ 2); lia.
Qed.

(** The continuation bytes [l] push their bits onto [c]. *)
Fixpoint push (c : Z) (l : bytes) : Z :=
  match l with [] => c | b :: l' => push (64 * c + (b2z b - 128)) l' end.

Lemma utf8_cont_spec k m j c :
  0 <= j -> j + Z.of_nat k <= zlen m -> 0 <= c -> c * 64 ^ (Z.of_nat k - 1) < 2 ^ 26 -> (k <= 3)%nat ->
  exists r, utf8_cont k m j c = Some r /\
    match r with
    | Some v => exists l, slice m j (Z.of_nat k) = Some l /\ Forall (fun b => is_cont b = true) l /\
                  v = push c l
    | None => exists l, slice m j (Z.of_nat k) = Some l /\ ~ Forall (fun b => is_cont b = true) l
    end.
Proof.
  revert j c. induction k as [|k IH]; intros j c Hj Hm Hc Hb Hk.
  - exists (Some c). split; [done|]. exists []. split; [by apply slice_nil; lia|]. done.
  - destruct (proj2 (rd_is_Some m j)) as [b Hb1]; [lia|].
    assert (Hc26 : 0 <= c < 2 ^ 26).
    { split; [done|]. rewrite Nat2Z.inj_succ in Hb. pose proof (Z.pow_pos_nonneg 64 (Z.of_nat k)).
      replace (Z.succ (Z.of_nat k) - 1) with (Z.of_nat k) in Hb by lia. nia. }
    rewrite (utf8_cont_1 m j c b) by done. fold (is_cont b).
    assert (Hs : forall l, slice m (j + 1) (Z.of_nat k) = Some l ->
      slice m j (Z.of_nat (S k)) = Some (b :: l)).
    { intros l Hl. rewrite Nat2Z.inj_succ. by apply slice_cons. }
    destruct (is_cont b) eqn:E.
    + rewrite cont_mod by done. pose proof (proj1 (is_cont_spec b) E).
      destruct (IH (j + 1) (64 * c + (b2z b - 128))) as (r & -> & Hr); try lia.
      { rewrite Nat2Z.inj_succ in Hb. unfold Z.succ in Hb. rewrite Z.add_simpl_r in Hb.
        destruct k as [|[|[|k]]]; [change (64 ^ (Z.of_nat 0 - 1)) with 0; lia| | |lia];
          [change (64 ^ (Z.of_nat 1 - 1)) with 1; change (64 ^ Z.of_nat 1) with 64 in Hb
          |change (64 ^ (Z.of_nat 2 - 1)) with 64; change (64 ^ Z.of_nat 2) with 4096 in Hb]; lia. }
      exists r. split; [done|]. destruct r as [v|].
      * destruct Hr as (l & Hl & Hf & ->). exists (b :: l). split; [by apply Hs|]. split; [by constructor|done].
      * destruct Hr as (l & Hl & Hf). exists (b :: l). split; [by apply Hs|].
        intros [_ ?]%Forall_cons_1. done.
    + exists None. split; [done|].
      destruct (proj2 (slice_is_Some m (j + 1) (Z.of_nat k))) as [l Hl]; [lia|].
      exists (b :: l). split; [by apply Hs|]. intros [? _]%Forall_cons_1. congruence.
Qed.

(** Whether the loop accepts the sequence [b :: l]. *)
Definition item_ok (allow : bool) (b : byte) (l : bytes) : bool :=
  let '(n, mask) := mcommon_utf8_get_sequence b in
  (n =? 1 + zlen l) && forallb is_cont l && (allow || negb (b2z b =? 0)) &&
  bool_decide (step_final n (push (Z.land (b2z b) mask) l) allow = Some n).

Lemma forallb_cont l : forallb is_cont l = true <-> Forall (fun b => is_cont b = true) l.
Proof.
  induction l as [|b l IH]; simpl; [done|]. rewrite andb_true_iff, IH.
  split; [intros []; by constructor|by intros ?%Forall_cons_1].
Qed.

Lemma step_final_Some n c allow n' : step_final n c allow = Some n' ->
  n' = n /\ c <= 0x10FFFF /\ ~ (0xD800 <= c <= 0xDFFF) /\ utf8_shortest n c allow = true.
Proof.
  unfold step_final. destruct (Z.ltb_spec 0x10FFFF c); [done|].
  destruct (Z.leb_spec 0xD800 c), (Z.leb_spec c 0xDFFF); cbn [andb]; try done;
    (destruct (utf8_shortest n c allow) eqn:E; [|done]); intros [= ->]; (repeat split; done || lia).
Qed.

Lemma step_final_yes n c allow :
  c <= 0x10FFFF -> ~ (0xD800 <= c <= 0xDFFF) -> utf8_shortest n c allow = true ->
  step_final n c allow = Some n.
Proof.
  intros H1 H2 H3. unfold step_final. rewrite H3.
  destruct (Z.ltb_spec 0x10FFFF c); [lia|].
  destruct (Z.leb_spec 0xD800 c), (Z.leb_spec c 0xDFFF); cbn [andb]; done || lia.
Qed.

Lemma shortest_2 c allow : utf8_shortest 2 c allow = true <->
  0x80 <= c <= 0x7FF \/ (c = 0 /\ allow = true).
Proof. unfold utf8_shortest. cbn [Z.eqb Pos.eqb]. bdestruct; destruct allow; lia || (split; naive_solver lia). Qed.
Lemma shortest_3 c allow : utf8_shortest 3 c allow = true <-> 0x800 <= c <= 0xFFFF.
Proof. unfold utf8_shortest. cbn [Z.eqb Pos.eqb]. bdestruct; split; naive_solver lia. Qed.
Lemma shortest_4 c allow : utf8_shortest 4 c allow = true <-> 0x10000 <= c <= 0x10FFFF.
Proof. unfold utf8_shortest. cbn [Z.eqb Pos.eqb]. bdestruct; split; naive_solver lia. Qed.

Lemma item_ok_sound allow b l : item_ok allow b l = true -> utf8_item allow (b :: l).
Proof.
  unfold item_ok. destruct (lead_seq b) as (n & mask & -> & H). pose proof (b2z_range b).
  rewrite !andb_true_iff, Z.eqb_eq, bool_decide_eq_true, orb_true_iff, negb_true_iff, Z.eqb_neq, forallb_cont.
  intros [[[Hn Hf] Hz] (_ & Hmax & Hsur & Hsh)%step_final_Some].
  rewrite <- (bs_b2z (b :: l)). cbn [map].
  destruct H as [(? & -> & E)|[(? & ->)|[(? & -> & E)|[(? & -> & E)|[(? & -> & E)|(? & ->)]]]]];
    rewrite ?E in *; unfold zlen in Hn; try lia.
  - destruct l; [|simpl in Hn; lia]. cbn [push map] in *. rewrite <- enc_1 by lia.
    constructor; [split; lia|]. intros ->. naive_solver.
  - destruct l as [|b1 [|? ?]]; try (simpl in Hn; lia).
    apply Forall_cons_1 in Hf as [H1%is_cont_spec _]. cbn [push map] in *.
    apply shortest_2 in Hsh as [Hr|[Hc ->]].
    + rewrite <- (enc_2 _ _ _ eq_refl) by lia. constructor; [split; lia|lia].
    + replace (b2z b) with 192 by lia. replace (b2z b1) with 128 by lia. by constructor.
  - destruct l as [|b1 [|b2 [|? ?]]]; try (simpl in Hn; lia).
    apply Forall_cons_1 in Hf as [H1%is_cont_spec [H2%is_cont_spec _]%Forall_cons_1].
    cbn [push map] in *. apply shortest_3 in Hsh.
    rewrite <- (enc_3 _ _ _ _ eq_refl) by lia. constructor; [split; lia|lia].
  - destruct l as [|b1 [|b2 [|b3 [|? ?]]]]; try (simpl in Hn; lia).
    apply Forall_cons_1 in Hf as [H1%is_cont_spec [H2%is_cont_spec [H3%is_cont_spec _]%Forall_cons_1]%Forall_cons_1].
    cbn [push map] in *. apply shortest_4 in Hsh.
    rewrite <- (enc_4 _ _ _ _ _ eq_refl) by lia. constructor; [split; lia|lia].
Qed.

Lemma lead_of v :
  0 <= v < 256 -> exists n mask, mcommon_utf8_get_sequence (z2b v) = (n, mask) /\
  (v < 128 -> n = 1 /\ Z.land v mask = v) /\
  (192 <= v < 224 -> n = 2 /\ Z.land v mask = v - 192) /\
  (224 <= v < 240 -> n = 3 /\ Z.land v mask = v - 224) /\
  (240 <= v < 248 -> n = 4 /\ Z.land v mask = v - 240).
Proof.
  intros Hv. destruct (lead_seq (z2b v)) as (n & mask & E & H).
  rewrite b2z_z2b_small in H by done. exists n, mask. split; [done|]. lia.
Qed.

Lemma is_cont_z2b v : 128 <= v < 192 -> is_cont (z2b v) = true.
Proof. intros. apply is_cont_spec. rewrite b2z_z2b_small; lia. Qed.

Lemma push_bs c v vs : 128 <= v < 192 -> push c (bs (v :: vs)) = push (64 * c + (v - 128)) (bs vs).
Proof. intros. unfold bs. cbn [map push]. by rewrite b2z_z2b_small by lia. Qed.

Lemma item_ok_intro allow v0 vs n mask c :
  0 <= v0 < 256 -> mcommon_utf8_get_sequence (z2b v0) = (n, mask) -> n = 1 + zlen vs ->
  Forall (fun v => 128 <= v < 192) vs -> (allow = false -> v0 <> 0) ->
  push (Z.land v0 mask) (bs vs) = c -> c <= 0x10FFFF -> ~ (0xD800 <= c <= 0xDFFF) ->
  utf8_shortest n c allow = true -> item_ok allow (z2b v0) (bs vs) = true.
Proof.
  intros Hv Hg Hn Hvs Hz Hp Hmax Hsur Hsh. unfold item_ok. rewrite Hg, b2z_z2b_small, Hp by done.
  rewrite step_final_yes, bool_decide_eq_true_2, andb_true_r by done.
  unfold bs. rewrite zlen_map, Hn, Z.eqb_refl. cbn [andb].
  apply andb_true_iff. split.
  - apply forallb_cont. clear - Hvs. induction Hvs; constructor; [by apply is_cont_z2b|done].
  - destruct allow; [done|]. cbn [orb]. apply negb_true_iff, Z.eqb_neq. by apply Hz.
Qed.

Lemma item_ok_complete allow item :
  utf8_item allow item -> exists b l, item = b :: l /\ item_ok allow b l = true.
Proof.
  intros [c [Hc Hs] Hz|Ha]; [|subst allow; by exists (z2b 0xC0), (bs [0x80])].
  destruct (enc_forms c Hc) as
    [(? & ->)|[(? & v0 & v1 & ? & ? & E & ->)|[(? & v0 & v1 & v2 & ? & ? & ? & E & ->)|
     (? & v0 & v1 & v2 & v3 & ? & ? & ? & ? & E & ->)]]].
  - exists (z2b c), (bs []). split; [done|].
    destruct (lead_of c) as (n & mask & Hg & [-> L] & _); [lia..|].
    apply (item_ok_intro _ c [] 1 mask c); try (done || lia).
    unfold utf8_shortest. cbn [Z.eqb Pos.eqb]. by apply Z.leb_le.
  - exists (z2b v0), (bs [v1]). split; [done|].
    destruct (lead_of v0) as (n & mask & Hg & _ & [-> L] & _); [lia..|].
    apply (item_ok_intro _ v0 [v1] 2 mask c); try (done || lia); [by eauto using List.Forall_cons, List.Forall_nil| |].
    + rewrite L, push_bs by done. cbn [bs map push]. lia.
    + apply shortest_2. lia.
  - exists (z2b v0), (bs [v1; v2]). split; [done|].
    destruct (lead_of v0) as (n & mask & Hg & _ & _ & [-> L] & _); [lia..|].
    apply (item_ok_intro _ v0 [v1; v2] 3 mask c); try (done || lia); [by eauto using List.Forall_cons, List.Forall_nil| |].
    + rewrite L, !push_bs by done. cbn [bs map push]. lia.
    + apply shortest_3. lia.
  - exists (z2b v0), (bs [v1; v2; v3]). split; [done|].
    destruct (lead_of v0) as (n & mask & Hg & _ & _ & _ & [-> L]); [lia..|].
    apply (item_ok_intro _ v0 [v1; v2; v3] 4 mask c); try (done || lia); [by eauto using List.Forall_cons, List.Forall_nil| |].
    + rewrite L, !push_bs by done. cbn [bs map push]. lia.
    + apply shortest_4. lia.
Qed.

Lemma item_ok_len allow b l : item_ok allow b l = true ->
  fst (mcommon_utf8_get_sequence b) = 1 + zlen l.
Proof.
  unfold item_ok. destruct (mcommon_utf8_get_sequence b) as [n mask].
  rewrite !andb_true_iff, Z.eqb_eq. tauto.
Qed.

Lemma push_range c l :
  Forall (fun b => is_cont b = true) l -> 0 <= c -> (c + 1) * 64 ^ zlen l <= 2 ^ 32 ->
  0 <= push c l < 2 ^ 32.
Proof.
  intros Hf. revert c. induction Hf as [|b l Hb%is_cont_spec Hf IH]; intros c Hc Hr.
  - cbn [push]. change (zlen (@nil byte)) with 0 in Hr. lia.
  - cbn [push]. rewrite zlen_cons, Z.pow_add_r in Hr by zl. apply IH; [lia|].
    pose proof (Z.pow_pos_nonneg 64 (zlen l)). nia.
Qed.

Lemma utf8_null_spec m i n len (allow : bool) b l :
  rd m i = Some b -> slice m (i + 1) (n - 1) = Some l -> Forall (fun b => is_cont b = true) l ->
  0 < n -> i + n <= len ->
  (if allow then Some true else utf8_no_null (Z.to_nat n) m i len) =
    Some (allow || negb (b2z b =? 0)).
Proof.
  intros Hb Hl Hf Hn Hlen. destruct allow; [done|]. cbn [orb]. destruct (Z.eqb_spec (b2z b) 0) as [E|E].
  - replace (Z.to_nat n) with (S (Z.to_nat (n - 1))) by lia. cbn [utf8_no_null].
    destruct (Z.ltb_spec len i); [lia|]. rewrite Hb. sbind. by rewrite (proj2 (Z.eqb_eq _ _) E).
  - apply utf8_no_null_ok; [|lia]. intros j Hj. destruct (decide (j = 0)) as [->|].
    { exists b. by rewrite Z.add_0_r. }
    pose proof (slice_rd _ _ _ _ (j - 1) Hl) as Hrd. pose proof (slice_zlen _ _ _ _ Hl).
    destruct (proj2 (rd_is_Some l (j - 1))) as [b' Hb']; [lia|].
    exists b'. rewrite Hb' in Hrd. replace (i + 1 + (j - 1)) with (i + j) in Hrd by lia.
    split; [symmetry; apply Hrd; lia|]. apply rd_Some_iff in Hb' as [_ Hb'].
    rewrite Forall_lookup in Hf. apply Hf, is_cont_spec in Hb'. lia.
Qed.

Lemma pow64_bound n v : 1 <= n <= 4 -> 0 <= v < 128 ->
  v * 64 ^ (n - 2) < 2 ^ 26 /\ (v + 1) * 64 ^ (n - 1) <= 2 ^ 32.
Proof.
  intros Hn Hv.
  assert (64 ^ (n - 2) <= 64 ^ 2) by (apply Z.pow_le_mono_r; lia).
  assert (64 ^ (n - 1) <= 64 ^ 3) by (apply Z.pow_le_mono_r; lia).
  change (64 ^ 2) with 4096 in *. change (64 ^ 3) with 262144 in *. nia.
Qed.

(** The step decides [item_ok] of the sequence its first byte announces. *)
Lemma utf8_step_spec m i len allow b :
  0 <= i < len -> len <= zlen m -> rd m i = Some b ->
  let n := fst (mcommon_utf8_get_sequence b) in
  exists r, utf8_step m i len allow = Some r /\
    match r with
    | Some n' => n' = n /\ 0 < n /\ i + n <= len /\
        exists l, slice m i n = Some (b :: l) /\ item_ok allow b l = true
    | None => n = 0 \/ len < i + n \/
        exists l, slice m i n = Some (b :: l) /\ item_ok allow b l = false
    end.
Proof.
  intros Hi Hm Hb n. subst n. pose proof (b2z_range b) as Hbr.
  destruct (lead_seq b) as (n & mask & Hg & H). unfold utf8_step. rewrite Hb. sbind. rewrite Hg.
  cbn [fst]. destruct (Z.eqb_spec n 0) as [->|Hn0]; [exists None; auto|].
  destruct (Z.ltb_spec (len - i) n) as [Hlen|Hlen]; [exists None; split; [done|lia]|].
  assert (Hn : 1 <= n <= 4) by lia. assert (Hv : 0 <= Z.land (b2z b) mask < 128) by lia.
  destruct (utf8_cont_spec (Z.to_nat (n - 1)) m (i + 1) (Z.land (b2z b) mask)) as (r & -> & Hspec);
    try lia.
  { rewrite Z2Nat.id by lia. replace (n - 1 - 1) with (n - 2) by lia. by apply pow64_bound. }
  rewrite Z2Nat.id in Hspec by lia. sbind.
  assert (Hcons : forall l, slice m (i + 1) (n - 1) = Some l ->
    slice m i n = Some (b :: l) /\ n = 1 + zlen l).
  { intros l Hl. pose proof (slice_zlen _ _ _ _ Hl).
    replace n with (n - 1 + 1) at 1 by lia. split; [by apply slice_cons|lia]. }
  unfold item_ok. rewrite Hg. destruct r as [c|].
  2: { exists None. split; [done|]. right; right. destruct Hspec as (l & Hl & Hf).
       destruct (Hcons l Hl) as [? Hn']. exists l. split; [done|]. rewrite <- forallb_cont in Hf.
       destruct (forallb is_cont l); [done|]. by rewrite andb_false_r. }
  destruct Hspec as (l & Hl & Hf & ->). destruct (Hcons l Hl) as [Hsl Hn'].
  rewrite (utf8_null_spec m i n len allow b l) by (done || lia). sbind.
  destruct (allow || negb (b2z b =? 0)) eqn:Enz; cbn [negb].
  2: { exists None. split; [done|]. right; right. exists l. split; [done|].
       by rewrite andb_false_r. }
  rewrite finish.
  2: { apply push_range; [done|lia|]. replace (zlen l) with (n - 1) by lia. by apply pow64_bound. }
  eexists. split; [done|]. destruct (step_final n _ allow) as [n'|] eqn:E.
  - destruct (step_final_Some _ _ _ _ E) as [-> _].
    split; [done|]. split; [lia|]. split; [lia|]. exists l. split; [done|]. rewrite E.
    rewrite (proj2 (forallb_cont l) Hf), (proj2 (Z.eqb_eq _ _) Hn'). by rewrite bool_decide_eq_true_2.
  - right; right. exists l. split; [done|]. rewrite E. by rewrite andb_false_r.
Qed.

(** ** The whole string *)

Lemma utf8_text_nil allow : utf8_text allow [].
Proof. by exists []. Qed.

(** Text starts with the sequence its first byte announces. *)
Lemma utf8_text_cons allow b s :
  utf8_text allow (b :: s) <->
  exists l s', s = l ++ s' /\ item_ok allow b l = true /\ utf8_text allow s'.
Proof.
  split.
  - intros (items & E & Hf). destruct Hf as [|it items Hi Hf]; [done|].
    apply item_ok_complete in Hi as (b' & l & -> & Hok). simpl in E. injection E as <- ->.
    exists l, (concat items). split; [done|]. split; [done|]. by exists items.
  - intros (l & s' & -> & Hok & items & -> & Hf). exists ((b :: l) :: items). split; [done|].
    constructor; [by apply item_ok_sound|done].
Qed.

Lemma utf8_text_step allow b l s' :
  item_ok allow b l = true -> utf8_text allow (b :: l ++ s') <-> utf8_text allow s'.
Proof.
  intros Hok. rewrite utf8_text_cons. split; [|by eauto].
  intros (l2 & s2 & E & Hok2 & Ht).
  pose proof (item_ok_len _ _ _ Hok). pose proof (item_ok_len _ _ _ Hok2).
  apply app_inj_1 in E as [_ ->]; [done|]. unfold zlen in *. lia.
Qed.

Lemma utf8_validate_loop_spec fuel m i s rest len allow pre :
  m = pre ++ s ++ rest -> i = zlen pre -> len = i + zlen s -> zlen s < Z.of_nat fuel ->
  exists r, utf8_validate_loop fuel m i len allow = Some r /\ (r = true <-> utf8_text allow s).
Proof.
  revert i s pre. induction fuel as [|fuel IH]; intros i s pre -> -> Hl Hf; [zl|].
  cbn [utf8_validate_loop]. destruct s as [|b s].
  { destruct (Z.ltb_spec (zlen pre) len); [rewrite Hl in *; zl|].
    exists true. split; [done|]. split; [intros; apply utf8_text_nil|done]. }
  rewrite zlen_cons in *. destruct (Z.ltb_spec (zlen pre) len); [|zl].
  set (m := pre ++ (b :: s) ++ rest).
  destruct (utf8_step_spec m (zlen pre) len allow b) as (r & -> & Hr);
    [zl|subst m; zl|subst m; cbn [app]; by apply rd_at|].
  sbind. destruct r as [n|].
  - destruct Hr as (-> & Hn & Hlen & l & Hsl & Hok). pose proof (item_ok_len _ _ _ Hok) as Hz.
    set (n := fst _) in *.
    assert (exists s', s = l ++ s') as [s' ->].
    { apply slice_split in Hsl as (a & c & E & Ha & Hzl). subst m.
      apply app_inj_1 in E as [_ E]; [|unfold zlen in Ha; lia]. cbn [app] in E. injection E as E.
      exists (take (length s - length l) c).
      apply (f_equal (take (length s))) in E. rewrite take_app_length in E. rewrite E at 1.
      apply take_app_ge. rewrite zlen_cons in Hzl. unfold zlen in *. lia. }
    destruct (IH (zlen pre + n) s' (pre ++ b :: l)) as (r & E & Hr).
    { subst m. rewrite <- !app_assoc. cbn [app]. by rewrite <- ?app_assoc. }
    { zl. } { zl. } { zl. }
    exists r. split; [done|]. rewrite Hr. symmetry. by apply utf8_text_step.
  - exists false. split; [done|]. split; [done|]. intros (l & s' & -> & Hok & _)%utf8_text_cons.
    pose proof (item_ok_len _ _ _ Hok) as Hz. set (n := fst _) in *.
    destruct Hr as [Hr|[Hr|(l2 & Hsl & Hno)]]; [zl|zl|].
    assert (Hsl' : slice m (zlen pre) n = Some (b :: l)).
    { subst m. change (b :: l ++ s') with ((b :: l) ++ s'). rewrite <- app_assoc.
      apply (slice_at pre (b :: l) (s' ++ rest)); [done|zl]. }
    rewrite Hsl in Hsl'. injection Hsl' as ->. congruence.
Qed.

(** [bson_utf8_validate] decides whether the bytes are UTF-8 text. *)
Lemma bson_utf8_validate_spec s rest allow :
  exists r, bson_utf8_validate (s ++ rest) (zlen s) allow = Some r /\ (r = true <-> utf8_text allow s).
Proof. apply (utf8_validate_loop_spec _ _ _ _ rest _ _ []); zl; done. Qed.

(** ** Encoding and decoding one character *)


Lemma mcommon_utf8_from_unichar_enc c :
  0 <= c <= 0x1FFFFF -> mcommon_utf8_from_unichar c = utf8_enc c.
Proof.
  intros Hc. unfold mcommon_utf8_from_unichar, utf8_enc, bs. cbn [map].
  rewrite !Z.shiftr_div_pow2 by lia.
  change 0x3F with (Z.ones 6). change 0xF with (Z.ones 4). change 0x7 with (Z.ones 3).
  rewrite !Z.land_ones by lia.
  change 0xC0 with (3 * 2 ^ 6). change 0x80 with (2 * 2 ^ 6). change 0xE0 with (14 * 2 ^ 4).
  change 0xF0 with (30 * 2 ^ 3).
  rewrite !lor_disjoint by (try apply Z.mod_pos_bound; lia).
  change (2 ^ 6) with 64. change (2 ^ 4) with 16. change (2 ^ 3) with 8.
  change (2 ^ 12) with 4096. change (2 ^ 18) with 262144.
  bdestruct; repeat (f_equal; try (rewrite ?(Z.mod_small (c / _)); lia || (Z.to_euclidean_division_equations; lia))).
Qed.

Lemma get_char_loop_spec l pre rest c :
  Forall (fun b => is_cont b = true) l -> 0 <= c -> (c + 1) * 64 ^ zlen l <= 2 ^ 32 ->
  get_char_loop (length l) (pre ++ l ++ rest) (zlen pre) c = Some (push c l).
Proof.
  intros Hf. revert pre c. induction Hf as [|b l Hb Hf IH]; intros pre c Hc Hr; [done|].
  rewrite zlen_cons, Z.pow_add_r in Hr by zl.
  assert (0 < 64 ^ zlen l) by (apply Z.pow_pos_nonneg; zl). change (64 ^ 1) with 64 in Hr.
  assert (c < 2 ^ 26) by nia.
  cbn [length get_char_loop app]. rewrite rd_at by done. sbind.
  rewrite cont_bits, push_bits, cont_mod by (done || lia || (apply Z.mod_pos_bound; lia)).
  replace (pre ++ b :: l ++ rest) with ((pre ++ [b]) ++ l ++ rest) by (by rewrite <- app_assoc).
  replace (zlen pre + 1) with (zlen (pre ++ [b])) by zl.
  apply is_cont_spec in Hb. rewrite IH; [done|lia|nia].
Qed.

(** Decoding a sequence [v0 :: vs] whose code point is [c]. *)
Lemma get_char_form v0 vs n mask rest c :
  0 <= v0 < 256 -> mcommon_utf8_get_sequence (z2b v0) = (n, mask) -> n = 1 + zlen vs ->
  Forall (fun v => 128 <= v < 192) vs -> push (Z.land v0 mask) (bs vs) = c ->
  0 <= Z.land v0 mask < 128 -> (zlen vs <= 3) ->
  bson_utf8_get_char (bs (v0 :: vs) ++ rest) = Some c /\
  bson_utf8_next_char (bs (v0 :: vs) ++ rest) = Some rest.
Proof.
  intros Hv Hg Hn Hvs Hp Hm Hl. unfold bson_utf8_get_char, bson_utf8_next_char.
  change (bs (v0 :: vs) ++ rest) with (z2b v0 :: bs vs ++ rest). rewrite rd_cons_0. sbind.
  rewrite Hg, b2z_z2b_small by done.
  assert (Hzl : zlen (bs vs) = n - 1) by (unfold bs; rewrite zlen_map; lia).
  replace (Z.to_nat (n - 1)) with (length (bs vs)) by (unfold zlen in Hzl; lia). split.
  - rewrite <- Hp. apply (get_char_loop_spec (bs vs) [z2b v0]); [|lia|].
    + clear - Hvs. induction Hvs; constructor; [by apply is_cont_z2b|done].
    + rewrite Hzl. assert (64 ^ (n - 1) <= 64 ^ 3) by (apply Z.pow_le_mono_r; lia).
      change (64 ^ 3) with 262144 in *. nia.
  - cbn [fst]. apply (padd_at (z2b v0 :: bs vs)). rewrite zlen_cons, Hzl. lia.
Qed.

Lemma bson_utf8_get_char_enc c rest :
  0 <= c <= 0x10FFFF ->
  bson_utf8_get_char (utf8_enc c ++ rest) = Some c /\
  bson_utf8_next_char (utf8_enc c ++ rest) = Some rest.
Proof.
  intros Hc. destruct (enc_forms c Hc) as
    [(? & ->)|[(? & v0 & v1 & ? & ? & E & ->)|[(? & v0 & v1 & v2 & ? & ? & ? & E & ->)|
     (? & v0 & v1 & v2 & v3 & ? & ? & ? & ? & E & ->)]]].
  - destruct (lead_of c) as (n & mask & Hg & [-> L] & _); [lia..|].
    apply (get_char_form c [] 1 mask); try (done || lia).
  - destruct (lead_of v0) as (n & mask & Hg & _ & [-> L] & _); [lia..|].
    apply (get_char_form v0 [v1] 2 mask); try (done || lia);
      [by eauto using List.Forall_cons, List.Forall_nil|].
    rewrite L, !push_bs by done. cbn [bs map push]. lia.
  - destruct (lead_of v0) as (n & mask & Hg & _ & _ & [-> L] & _); [lia..|].
    apply (get_char_form v0 [v1; v2] 3 mask); try (done || lia);
      [by eauto using List.Forall_cons, List.Forall_nil|].
    rewrite L, !push_bs by done. cbn [bs map push]. lia.
  - destruct (lead_of v0) as (n & mask & Hg & _ & _ & _ & [-> L]); [lia..|].
    apply (get_char_form v0 [v1; v2; v3] 4 mask); try (done || lia);
      [by eauto using List.Forall_cons, List.Forall_nil|].
    rewrite L, !push_bs by done. cbn [bs map push]. lia.
Qed.

(** ** Truncation between code points *)

Lemma seq_begin_spec pre b l rest fuel :
  is_cont b = false -> Forall (fun b => is_cont b = true) l -> (length l < fuel)%nat ->
  seq_begin fuel (pre ++ b :: l ++ rest) (zlen pre + zlen l) = Some (Some (zlen pre)).
Proof.
  intros Hb Hf. revert rest fuel. induction l as [|c l IH] using rev_ind; intros rest [|fuel] Hl;
    try (rewrite ?length_app in Hl; simpl in Hl; lia).
  - cbn [seq_begin app]. change (zlen (@nil byte)) with 0. rewrite Z.add_0_r, rd_at by done. sbind.
    rewrite cont_test. fold (is_cont b). by rewrite Hb.
  - apply Forall_app in Hf as [Hf Hc]. apply Forall_cons_1 in Hc as [Hc _].
    cbn [seq_begin]. replace (pre ++ b :: (l ++ [c]) ++ rest) with ((pre ++ b :: l) ++ c :: rest)
      by (by rewrite <- !app_assoc).
    rewrite rd_at by zl. sbind. rewrite cont_test. fold (is_cont c). rewrite Hc.
    destruct (Z.ltb_spec 0 (zlen pre + zlen (l ++ [c]))); [|zl].
    replace (zlen pre + zlen (l ++ [c]) - 1) with (zlen pre + zlen l) by zl.
    rewrite <- app_assoc. cbn [app]. apply (IH Hf (c :: rest)). rewrite length_app in Hl. simpl in Hl. lia.
Qed.

Lemma item_lead allow b l : item_ok allow b l = true ->
  is_cont b = false /\ Forall (fun b => is_cont b = true) l /\
  (b2z b <= 0x7F <-> l = []).
Proof.
  intros Hok. unfold item_ok in Hok. destruct (lead_seq b) as (n & mask & Hg & H).
  rewrite Hg, !andb_true_iff, Z.eqb_eq, forallb_cont in Hok. destruct Hok as [[[Hn Hf] _] _].
  split; [|split; [done|]].
  - unfold is_cont. bdestruct. zl.
  - split; intros E; [|subst l]; [apply zlen_0; zl|change (zlen (@nil byte)) with 0 in *; lia].
Qed.

(** One round, with the fragment [b :: l1] of a sequence before the cut. *)
Lemma truncate_round fuel pre b l1 l2 rest :
  item_ok true b (l1 ++ l2) = true ->
  truncate_loop (S fuel) (pre ++ b :: l1 ++ rest) (zlen pre + 1 + zlen l1) =
    if decide (l2 = []) then Some (zlen pre + 1 + zlen l1)
    else truncate_loop fuel (pre ++ b :: l1 ++ rest) (zlen pre).
Proof.
  intros Hok. pose proof (item_ok_len _ _ _ Hok) as Hn. rewrite zlen_app in Hn.
  destruct (item_lead _ _ _ Hok) as (Hb & Hf & Hsmall). apply Forall_app in Hf as [Hf _].
  cbn [truncate_loop]. destruct (Z.ltb_spec 0 (zlen pre + 1 + zlen l1)); [|zl].
  replace (zlen pre + 1 + zlen l1 - 1) with (zlen pre + zlen l1) by lia.
  assert (exists c, rd (pre ++ b :: l1 ++ rest) (zlen pre + zlen l1) = Some c /\
    (b2z c <= 0x7F -> l1 = [] /\ l2 = [])) as (c & -> & Hc).
  { destruct l1 as [|c l1 _] using rev_ind.
    - exists b. cbn [app]. split; [apply rd_at; change (zlen (@nil byte)) with 0; lia|].
      intros Hle%Hsmall. done.
    - exists c. replace (pre ++ b :: (l1 ++ [c]) ++ rest) with ((pre ++ b :: l1) ++ c :: rest)
        by (by rewrite <- !app_assoc). split; [apply rd_at; zl|].
      apply Forall_app in Hf as [_ Hf]. apply Forall_cons_1 in Hf as [Hf%is_cont_spec _]. lia. }
  sbind. destruct (Z.leb_spec (b2z c) 0x7F) as [Hle|_].
  { destruct (Hc Hle) as [_ ->]. done. }
  rewrite seq_begin_spec by (done || (unfold zlen; lia)). sbind. rewrite rd_at by done. sbind.
  rewrite Hn. case_decide as E.
  - subst l2. change (zlen (@nil byte)) with 0. by rewrite (proj2 (Z.eqb_eq _ _)) by lia.
  - destruct (Z.eqb_spec (zlen pre + (1 + (zlen l1 + zlen l2))) (zlen pre + 1 + zlen l1)); [|done].
    destruct E. apply zlen_0. lia.
Qed.

Lemma truncate_boundary fuel items rest :
  Forall (utf8_item true) items ->
  truncate_loop (S fuel) (concat items ++ rest) (zlen (concat items)) = Some (zlen (concat items)).
Proof.
  intros Hf. destruct items as [|it items _] using rev_ind; [done|].
  apply Forall_app in Hf as [_ Hf]. apply Forall_cons_1 in Hf as [Hi _].
  apply item_ok_complete in Hi as (b & l & -> & Hok). rewrite concat_app. cbn [concat].
  rewrite app_nil_r, <- app_assoc. cbn [app].
  rewrite zlen_app, zlen_cons. replace (zlen (concat items) + (1 + zlen l)) with
    (zlen (concat items) + 1 + zlen l) by lia.
  rewrite (truncate_round _ _ _ l []); [done|by rewrite app_nil_r].
Qed.

(** A cut falls between two items or inside one. *)
Lemma cut_items (items : list bytes) len :
  0 <= len <= zlen (concat items) ->
  exists it1 it2 frag, items = it1 ++ it2 /\
    take (Z.to_nat len) (concat items) = concat it1 ++ frag /\
    len = zlen (concat it1) + zlen frag /\
    (frag = [] \/ exists item tl more, it2 = item :: tl /\ item = frag ++ more /\ more <> []).
Proof.
  revert len. induction items as [|it items IH]; intros len Hlen.
  - exists [], [], []. change (zlen (concat [])) with 0 in *. replace len with 0 by lia. auto.
  - cbn [concat] in *. rewrite zlen_app in Hlen. destruct (Z.leb_spec (zlen it) len).
    + destruct (IH (len - zlen it)) as (it1 & it2 & frag & -> & Ht & Hl & Hfr); [lia|].
      exists (it :: it1), it2, frag. split; [done|]. cbn [concat]. rewrite zlen_app.
      split; [|split; [lia|done]]. rewrite <- app_assoc, <- Ht.
      rewrite take_app_ge by (unfold zlen in *; lia). do 2 f_equal. unfold zlen. lia.
    + exists [], (it :: items), (take (Z.to_nat len) it). split; [done|].
      rewrite take_app_le by (unfold zlen in *; lia). rewrite zlen_take by lia.
      split; [done|]. split; [cbn; change (zlen (@nil byte)) with 0; lia|]. right.
      exists it, items, (drop (Z.to_nat len) it). split; [done|]. rewrite take_drop. split; [done|].
      intros E%(f_equal length). rewrite length_drop in E. unfold zlen in *. simpl in E. lia.
Qed.

(** Cutting valid text keeps the complete characters before the cut, all of
    them. *)
Lemma mcommon_utf8_truncate_len_spec s rest len :
  utf8_text true s -> 0 <= len <= zlen s ->
  exists s1 s2 frag, s = s1 ++ s2 /\ utf8_text true s1 /\ utf8_text true s2 /\
    mcommon_utf8_truncate_len (s ++ rest) len = Some (zlen s1) /\
    take (Z.to_nat len) s = s1 ++ frag /\
    (frag = [] \/ exists item more, utf8_item true item /\ item = frag ++ more /\ more <> []).
Proof.
  intros (items & -> & Hf) Hlen.
  destruct (cut_items items len Hlen) as (it1 & it2 & frag & -> & Htake & Hl & Hfrag).
  apply Forall_app in Hf as [Hf1 Hf2].
  exists (concat it1), (concat it2), frag. rewrite concat_app. split; [done|].
  split; [by exists it1|]. split; [by exists it2|].
  unfold mcommon_utf8_truncate_len. rewrite <- app_assoc. split.
  - destruct Hfrag as [->|(item & tl & more & -> & -> & Hmore)].
    { rewrite Hl. change (zlen (@nil byte)) with 0. rewrite Z.add_0_r. by apply truncate_boundary. }
    apply Forall_cons_1 in Hf2 as [Hi _].
    destruct frag as [|b l1].
    { rewrite Hl. change (zlen (@nil byte)) with 0. rewrite Z.add_0_r. by apply truncate_boundary. }
    apply item_ok_complete in Hi as (b' & l & E & Hok). injection E as <- <-.
    replace len with (zlen (concat it1) + 1 + zlen l1) by zl. cbn [concat app].
    rewrite <- !app_assoc, (truncate_round _ _ _ _ more) by done. rewrite decide_False by done.
    replace (Z.to_nat _) with (S (length (concat it1) + length l1)) by (unfold zlen; lia).
    by apply truncate_boundary.
  - rewrite <- concat_app. split; [done|]. destruct Hfrag as [->|(item & tl & more & -> & ? & ?)]; [by left|].
    right. exists item, more. by apply Forall_cons_1 in Hf2 as [? _].
Qed.
