(* ===== verification/Text.v ===== *)
(** Text: string literals as C strings, the number formats of [printf] the
    code uses, and [bson_error_t] ([bson/error.c]). *)

From Stdlib Require Import Strings.String.
From S2P Require Import Prelude CString.

(** The characters of a literal, without and with the terminator. *)
Definition txt (s : string) : bytes := list_byte_of_string s.
Definition lit (s : string) : bytes := txt s ++ [x00].

(** A string between double quotes (code 34). *)
Definition quoted (s : bytes) : bytes := [z2b 34] ++ s ++ [z2b 34].

(** ** Numbers *)

(** [%u], [%zu] and [%d] of a non-negative value. *)
Fixpoint dec_loop (fuel : nat) (z : Z) : bytes :=
  match fuel with
  | O => []
  | S fuel' => (if z <? 10 then [] else dec_loop fuel' (z / 10)) ++ [z2b (48 + z mod 10)]
  end.
Definition dec (z : Z) : bytes := dec_loop 20 z.

(** The value of a decimal numeral. *)
Definition undec (s : bytes) : Z := foldl (fun acc b => 10 * acc + (b2z b - 48)) 0 s.

Lemma undec_app s t : undec (s ++ t) = undec s * 10 ^ zlen t + undec t.
Proof.
  unfold undec. rewrite foldl_app. generalize (foldl (fun acc b => 10 * acc + (b2z b - 48)) 0 s) as a.
  induction t as [|b t IH] using rev_ind; intros a.
  - change (zlen (@nil byte)) with 0. simpl. lia.
  - rewrite !foldl_app. simpl. rewrite IH, zlen_app, Z.pow_add_r by zl. change (zlen [b]) with 1. lia.
Qed.

Lemma undec_snoc s b : undec (s ++ [b]) = 10 * undec s + (b2z b - 48).
Proof. rewrite undec_app. unfold undec. simpl. change (zlen [b]) with 1. lia. Qed.

Lemma undec_dec_loop fuel z : 0 <= z < 10 ^ Z.of_nat fuel -> (0 < fuel)%nat -> undec (dec_loop fuel z) = z.
Proof.
  revert z. induction fuel as [|fuel IH]; intros z Hz Hf; [lia|]. cbn [dec_loop].
  rewrite undec_snoc, b2z_z2b_small by (pose proof (Z.mod_pos_bound z 10); lia).
  destruct (Z.ltb_spec z 10).
  - change (undec []) with 0. rewrite Z.mod_small by lia. lia.
  - rewrite Nat2Z.inj_succ, Z.pow_succ_r in Hz by lia.
    destruct fuel as [|fuel]; [simpl in Hz; lia|].
    rewrite IH; [Z.to_euclidean_division_equations; lia|Z.to_euclidean_division_equations; lia|lia].
Qed.

Lemma undec_dec z : 0 <= z < 2 ^ 64 -> undec (dec z) = z.
Proof. intros. apply undec_dec_loop; lia. Qed.

(** Distinct numbers have distinct numerals. *)
Lemma dec_inj a b : 0 <= a < 2 ^ 64 -> 0 <= b < 2 ^ 64 -> dec a = dec b -> a = b.
Proof. intros Ha Hb E. by rewrite <- (undec_dec a), <- (undec_dec b), E. Qed.

Lemma dec_no_nul z : no_nul (dec z).
Proof.
  unfold dec. generalize 20%nat. intros n. revert z. induction n as [|n IH]; intros z; cbn [dec_loop].
  - by apply no_nulb_spec.
  - apply no_nul_app. split; [destruct (z <? 10); [by apply no_nulb_spec|apply IH]|].
    apply no_nul_cons. split; [|by apply no_nulb_spec].
    intros E%(f_equal b2z). rewrite b2z_z2b_small in E by (pose proof (Z.mod_pos_bound z 10); lia).
    change (b2z x00) with 0 in E. pose proof (Z.mod_pos_bound z 10). lia.
Qed.

(** ** [vsnprintf] *)

(** [vsnprintf] of a text into [n] bytes at [o]: the text and its terminator, cut
    to fit. *)
Definition vsnprintf_at (m : bytes) (o n : Z) (text : bytes) : option bytes :=
  if n =? 0 then Some m else store m o (take (Z.to_nat (n - 1)) text ++ [x00]).

(** ** Printable text *)

(** ASCII characters, and no terminator. *)
Definition ascii (s : bytes) : Prop := Forall (fun c => 0 < b2z c < 128) s.
Definition asciib (s : bytes) : bool := forallb (fun c => (0 <? b2z c) && (b2z c <? 128)) s.

Lemma asciib_spec s : asciib s = true -> ascii s.
Proof.
  intros Hs. apply Forall_forall. intros c Hc%list_elem_of_In. eapply forallb_forall in Hs; [|done].
  apply andb_true_iff in Hs as [?%Z.ltb_lt ?%Z.ltb_lt]. done.
Qed.

Lemma ascii_nil : ascii [].
Proof. constructor. Qed.
Lemma ascii_cons c s : 0 < b2z c < 128 -> ascii s -> ascii (c :: s).
Proof. by constructor. Qed.
Lemma ascii_app s t : ascii (s ++ t) <-> ascii s /\ ascii t.
Proof. apply Forall_app. Qed.
Lemma ascii_take s n : ascii s -> ascii (take n s).
Proof. intros. by apply Forall_take. Qed.

Lemma ascii_no_nul s : ascii s -> no_nul s.
Proof.
  intros Hs Hin. pose proof (proj1 (Forall_forall _ _) Hs _ Hin) as Hc. cbn beta in Hc.
  change (b2z x00) with 0 in Hc. lia.
Qed.

(** ** [bson_error_t] *)

Record bson_error_t := BsonError { err_domain : Z; err_code : Z; err_message : bytes }.

Definition error_none : bson_error_t := BsonError 0 0 [].

Definition BSON_ERROR_READER : Z := 2.
Definition BSON_ERROR_INVALID : Z := 3.
Definition BSON_ERROR_VECTOR : Z := 4.
Definition BSON_ERROR_BUFFER_SIZE : Z := 503.

(** [bson_vsnprintf (buffer, size, ...)] of the text it formats. *)
Definition vsnprintf (size : Z) (text : bytes) : bytes := take (Z.to_nat (size - 1)) text.

Definition bson_set_error (domain code : Z) (text : bytes) : bson_error_t :=
  BsonError domain code (vsnprintf BSON_ERROR_BUFFER_SIZE text).
