(* ===== verification/CommonString.v ===== *)
(** Growable text buffers with a length limit: [common-string.c] and
    [common-string-private.h]. Appending past the limit keeps the whole
    characters that fit and makes the status stick. *)

From S2P Require Import Prelude CString IntEncode BsonTypes Utf8.

(** ** Data *)

(** [str] is the allocation, [alloc] its size. *)
Record mcommon_string_t := Str { s_str : bytes; s_len : Z; s_alloc : Z }.

Record mcommon_string_append_t := Append {
  ap_string : mcommon_string_t;
  ap_max_len : Z;
  ap_max_len_exceeded : bool
}.

(** [mcommon_next_power_of_two_u32]: saturates on overflow. *)
Definition mcommon_next_power_of_two_u32 (v : Z) : Z :=
  if v =? 0 then 1 else
  let v := u32 (v - 1) in
  let v := smear 1 v in
  let v := smear 2 v in
  let v := smear 4 v in
  let v := smear 8 v in
  let v := smear 16 v in
  let v := u32 (v + 1) in
  if v =? 0 then UINT32_MAX else v.

Section Strings.
Context (malloc : Z -> bytes).

Definition mcommon_string_new_with_buffer (buffer : bytes) (length alloc : Z) :
    option mcommon_string_t :=
  if (length <? UINT32_MAX) && (u32 (length + 1) <=? alloc) then
    c ← rd buffer length;
    if byte_eqb c x00 then Some (Str buffer length alloc) else None
  else None.

Definition mcommon_string_new_with_capacity (str : bytes) (length min_capacity : Z) :
    option mcommon_string_t :=
  if (length <? UINT32_MAX) && (min_capacity <? UINT32_MAX) then
    let alloc := u32 (Z.max length min_capacity + 1) in
    src ← slice str 0 length;
    buffer ← store (malloc alloc) 0 src;
    buffer ← store buffer length [x00];
    mcommon_string_new_with_buffer buffer length alloc
  else None.

Definition mcommon_string_new (str : bytes) : option mcommon_string_t :=
  length ← strlen str;
  if length <? UINT32_MAX then mcommon_string_new_with_capacity str length 0 else None.

(** The buffer returned. *)
Definition mcommon_string_destroy_with_steal (string : mcommon_string_t) : option bytes :=
  c ← rd (s_str string) (s_len string);
  if byte_eqb c x00 then Some (s_str string) else None.

Definition mcommon_string_clear (string : mcommon_string_t) : option mcommon_string_t :=
  str ← store (s_str string) 0 [x00]; Some (Str str 0 (s_alloc string)).

Definition mcommon_string_is_empty (string : mcommon_string_t) : bool := s_len string =? 0.

Definition mcommon_string_starts_with_str (string : mcommon_string_t) (substring : bytes) :
    option bool :=
  substring_len ← strlen substring;
  if (substring_len <=? UINT32_MAX) && (substring_len <=? s_len string) then
    c ← memcmp (s_str string) substring substring_len; Some (0 =? c)
  else Some false.

Definition mcommon_string_ends_with_str (string : mcommon_string_t) (substring : bytes) :
    option bool :=
  substring_len ← strlen substring;
  if (substring_len <=? UINT32_MAX) && (substring_len <=? s_len string) then
    p ← padd (s_str string) (s_len string - substring_len);
    c ← memcmp p substring substring_len; Some (0 =? c)
  else Some false.

Definition mcommon_string_grow_to_capacity (string : mcommon_string_t) (capacity : Z) :
    option mcommon_string_t :=
  if negb (capacity <? UINT32_MAX) then None else
  let min_alloc_needed := u32 (capacity + 1) in
  if s_alloc string <? min_alloc_needed then
    let alloc := mcommon_next_power_of_two_u32 min_alloc_needed in
    Some (Str (realloc malloc (s_str string) alloc) (s_len string) alloc)
  else Some string.

(** ** Append state *)

Definition mcommon_string_set_append_with_limit (string : mcommon_string_t) (max_len : Z) :
    option mcommon_string_append_t :=
  if max_len <? UINT32_MAX then Some (Append string max_len false) else None.

Definition mcommon_string_set_append (string : mcommon_string_t) :
    option mcommon_string_append_t :=
  mcommon_string_set_append_with_limit string (UINT32_MAX - 1).

Definition mcommon_string_new_with_capacity_as_append (capacity : Z) :
    option mcommon_string_append_t :=
  string ← mcommon_string_new_with_capacity [x00] 0 capacity; mcommon_string_set_append string.

Definition mcommon_string_new_as_append : option mcommon_string_append_t :=
  mcommon_string_new_with_capacity_as_append 32.

Definition mcommon_string_new_as_fixed_capacity_append (capacity : Z) :
    option mcommon_string_append_t :=
  string ← mcommon_string_new_with_capacity [x00] 0 capacity;
  mcommon_string_set_append_with_limit string capacity.

Definition mcommon_string_status_from_append (append : mcommon_string_append_t) : bool :=
  negb (ap_max_len_exceeded append).

Definition mcommon_str_from_append (append : mcommon_string_append_t) : bytes :=
  s_str (ap_string append).
Definition mcommon_strlen_from_append (append : mcommon_string_append_t) : Z :=
  s_len (ap_string append).

Definition mcommon_string_append_overflow (append : mcommon_string_append_t) :
    mcommon_string_append_t := Append (ap_string append) (ap_max_len append) true.

(** [max_append_len], from the length and the limit. *)
Definition append_room (append : mcommon_string_append_t) : Z :=
  let old_len := s_len (ap_string append) in
  if old_len <? ap_max_len append then ap_max_len append - old_len else 0.

(** [memcpy (buffer + old_len, str, n); buffer\[new_len\] = 0; string->len = new_len] *)
Definition append_write (string : mcommon_string_t) (str : bytes) (n : Z) :
    option mcommon_string_t :=
  let old_len := s_len string in
  src ← slice str 0 n;
  buffer ← store (s_str string) old_len src;
  buffer ← store buffer (old_len + n) [x00];
  Some (Str buffer (old_len + n) (s_alloc string)).

Definition mcommon_string_append_bytes_internal (append : mcommon_string_append_t) (str : bytes)
    (len : Z) : option (bool * mcommon_string_append_t) :=
  let old_len := s_len (ap_string append) in
  let max_len := ap_max_len append in
  if negb (max_len <? UINT32_MAX) then None else
  let max_append_len := append_room append in
  '(exceeded, truncated_append_len) ←
    (if max_append_len <? len
     then n ← mcommon_utf8_truncate_len str max_append_len; Some (true, n)
     else Some (ap_max_len_exceeded append, len));
  let new_len := u32 (old_len + truncated_append_len) in
  if negb (new_len <=? max_len) then None else
  string ← mcommon_string_grow_to_capacity (ap_string append) new_len;
  string ← append_write string str truncated_append_len;
  let append := Append string max_len exceeded in
  Some (mcommon_string_status_from_append append, append).

Definition mcommon_string_append_bytes (append : mcommon_string_append_t) (str : bytes) (len : Z) :
    option (bool * mcommon_string_append_t) :=
  if negb (mcommon_string_status_from_append append) then Some (false, append) else
  let string := ap_string append in
  let new_len := u64 (s_len string + len) in
  if (new_len <=? ap_max_len append) && (u64 (new_len + 1) <=? s_alloc string) then
    string ← append_write string str len;
    Some (true, Append string (ap_max_len append) (ap_max_len_exceeded append))
  else mcommon_string_append_bytes_internal append str len.

(** [strlen] is converted to the [uint32_t] parameter. *)
Definition mcommon_string_append (append : mcommon_string_append_t) (str : bytes) :
    option (bool * mcommon_string_append_t) :=
  len ← strlen str; mcommon_string_append_bytes append str (u32 len).

Definition mcommon_string_append_bytes_all_or_none (append : mcommon_string_append_t)
    (str : bytes) (len : Z) : option (bool * mcommon_string_append_t) :=
  if negb (mcommon_string_status_from_append append) then Some (false, append) else
  let old_len := s_len (ap_string append) in
  let max_len := ap_max_len append in
  if negb (max_len <? UINT32_MAX) then None else
  if append_room append <? len then Some (false, mcommon_string_append_overflow append) else
  let new_len := u32 (old_len + len) in
  if negb (new_len <=? max_len) then None else
  string ← mcommon_string_grow_to_capacity (ap_string append) new_len;
  string ← append_write string str len;
  let append := Append string max_len (ap_max_len_exceeded append) in
  Some (mcommon_string_status_from_append append, append).

Definition mcommon_string_append_all_or_none (append : mcommon_string_append_t) (str : bytes) :
    option (bool * mcommon_string_append_t) :=
  len ← strlen str; mcommon_string_append_bytes_all_or_none append str (u32 len).

Definition mcommon_string_append_unichar_internal (append : mcommon_string_append_t)
    (unichar : Z) : option (bool * mcommon_string_append_t) :=
  let string := ap_string append in
  let old_len := s_len string in
  let max_len := ap_max_len append in
  if negb (max_len <? UINT32_MAX) then None else
  let sequence := mcommon_utf8_from_unichar unichar in
  if 6 <=? append_room append then
    string ← mcommon_string_grow_to_capacity string (u32 (old_len + 6));
    if ap_max_len_exceeded append then None else
    string ← append_write string sequence (zlen sequence);
    Some (true, Append string max_len (ap_max_len_exceeded append))
  else mcommon_string_append_bytes_internal append sequence (zlen sequence).

Definition mcommon_string_append_unichar (append : mcommon_string_append_t) (unichar : Z) :
    option (bool * mcommon_string_append_t) :=
  if negb (mcommon_string_status_from_append append) then Some (false, append) else
  let string := ap_string append in
  let new_len := s_len string + 1 in
  if (unichar <=? 0x7f) && ((new_len <=? ap_max_len append) && (new_len + 1 <=? s_alloc string))
  then
    string ← append_write string [z2b unichar] 1;
    Some (true, Append string (ap_max_len append) (ap_max_len_exceeded append))
  else mcommon_string_append_unichar_internal append unichar.

(** [memchr (selector, c, selector_len) != NULL] *)
Definition memchr_char (selector : bytes) (c : byte) (selector_len : Z) : option bool :=
  s ← slice selector 0 selector_len; Some (existsb (byte_eqb c) s).

Fixpoint mcommon_string_append_selected_chars (append : mcommon_string_append_t) (tmplt : bytes)
    (selector : bytes) (selector_len : Z) : option (bool * mcommon_string_append_t) :=
  match tmplt with
  | [] => None
  | template_char :: tmplt' =>
      if byte_eqb template_char x00
      then Some (mcommon_string_status_from_append append, append) else
      if negb (b2z template_char <=? 0x7f) then None else
      found ← memchr_char selector template_char selector_len;
      if (found : bool) then
        '(ok, append) ← mcommon_string_append_unichar append (b2z template_char);
        if (ok : bool) then mcommon_string_append_selected_chars append tmplt' selector selector_len
        else Some (false, append)
      else mcommon_string_append_selected_chars append tmplt' selector selector_len
  end.
End Strings.

(** ** Specification *)

(** The buffer holds the text [t], terminated. *)
Definition string_is (s : mcommon_string_t) (t : bytes) : Prop :=
  s_len s = zlen t /\ s_alloc s = zlen (s_str s) /\ s_alloc s <= UINT32_MAX /\
  exists junk, s_str s = t ++ x00 :: junk.

Definition append_is (a : mcommon_string_append_t) (t : bytes) (max : Z) (exceeded : bool) : Prop :=
  string_is (ap_string a) t /\ ap_max_len a = max /\ zlen t <= max < UINT32_MAX /\
  ap_max_len_exceeded a = exceeded.

(** [s1] is the longest run of whole characters of [s] within [n] bytes. *)
Definition utf8_cut (s : bytes) (n : Z) (s1 : bytes) : Prop :=
  exists s2 frag, s = s1 ++ s2 /\ utf8_text true s1 /\ utf8_text true s2 /\
    take (Z.to_nat n) s = s1 ++ frag /\
    (frag = [] \/ exists item more, utf8_item true item /\ item = frag ++ more /\ more <> []).

Lemma next_power_of_two_u32_bounds v :
  0 < v <= UINT32_MAX -> v <= mcommon_next_power_of_two_u32 v <= UINT32_MAX.
Proof.
  unfold UINT32_MAX. intros Hv. unfold mcommon_next_power_of_two_u32.
  destruct (Z.eqb_spec v 0); [lia|]. rewrite (u32_id (v - 1)) by lia.
  destruct (Z.eq_dec v 1) as [->|]; [done|].
  rewrite smear32_spec, Z.ones_equiv by lia. change (Z.log2 (v - 1) + 1) with (Z.succ (Z.log2 (v - 1))).
  pose proof (Z.log2_spec (v - 1) ltac:(lia)) as Hl. pose proof (Z.log2_nonneg (v - 1)).
  assert (Z.log2 (v - 1) < 32) by (apply Z.log2_lt_pow2; lia).
  pose proof (Z.pow_le_mono_r 2 (Z.succ (Z.log2 (v - 1))) 32 ltac:(lia) ltac:(lia)) as Hp.
  set (p := 2 ^ Z.succ (Z.log2 (v - 1))) in *. replace (Z.pred p + 1) with p by lia.
  destruct (Z.eq_dec p (2 ^ 32)) as [Ep|]; [rewrite Ep; change (u32 (2 ^ 32) =? 0) with true; unfold UINT32_MAX; lia|]. rewrite u32_id by lia.
  destruct (Z.eqb_spec p 0); lia.
Qed.

Section Spec.
Context (malloc : Z -> bytes).
Hypothesis Hmalloc : forall n, 0 <= n -> zlen (malloc n) = n.

Lemma grow_to_capacity_spec s t capacity :
  string_is s t -> 0 <= capacity < UINT32_MAX ->
  exists s', mcommon_string_grow_to_capacity malloc s capacity = Some s' /\ string_is s' t /\
    capacity + 1 <= s_alloc s'.
Proof.
  intros (Hl & Ha & Hm & junk & Hs) Hc. unfold mcommon_string_grow_to_capacity, UINT32_MAX in *.
  destruct (Z.ltb_spec capacity (2 ^ 32 - 1)); [|lia]. cbn [negb]. rewrite (u32_id (capacity + 1)) by lia.
  destruct (Z.ltb_spec (s_alloc s) (capacity + 1)) as [Hlt|].
  2: { exists s. split; [done|]. split; [|lia]. split_and!; try done. by exists junk. }
  pose proof (next_power_of_two_u32_bounds (capacity + 1)) as Hp. unfold UINT32_MAX in Hp.
  set (n := mcommon_next_power_of_two_u32 (capacity + 1)) in *.
  destruct (zlen_realloc malloc Hmalloc (s_str s) n) as (more & E & Hz); [lia|].
  eexists. split; [done|]. unfold string_is. cbn [s_str s_len s_alloc]. rewrite E, zlen_app.
  split; [|lia]. split_and!; try lia. { unfold UINT32_MAX. lia. }
  exists (junk ++ more). by rewrite Hs, <- app_assoc.
Qed.

Lemma append_write_spec s t u rest :
  string_is s t -> zlen t + zlen u + 1 <= s_alloc s ->
  exists s', append_write s (u ++ rest) (zlen u) = Some s' /\ string_is s' (t ++ u) /\
    s_alloc s' = s_alloc s.
Proof.
  intros (Hl & Ha & Hm & junk & Hs) Hz. unfold append_write. rewrite slice_at_end_0 by done. sbind.
  rewrite Hs in *. rewrite zlen_app, zlen_cons in Ha.
  set (r := x00 :: junk) in *. assert (Hr : zlen r = 1 + zlen junk) by (subst r; zl).
  pose proof (zlen_nonneg u). rewrite <- (take_drop (length u) r).
  rewrite (store_at t _ _ (s_len s)); [|done|unfold zlen in *; rewrite length_take; lia]. sbind.
  destruct (drop (length u) r) as [|x more] eqn:Ed.
  { apply (f_equal length) in Ed. rewrite length_drop in Ed. unfold zlen in *. simpl in Ed. lia. }
  assert (Hmore : zlen more = zlen r - zlen u - 1).
  { apply (f_equal length) in Ed. rewrite length_drop in Ed. unfold zlen in *. simpl in Ed. lia. }
  replace (t ++ u ++ x :: more) with ((t ++ u) ++ [x] ++ more) by (by rewrite <- app_assoc).
  rewrite (store_at (t ++ u) [x] more) by (rewrite ?zlen_app; zl). sbind.
  eexists. split; [done|]. split; [|done]. unfold string_is. cbn [s_str s_len s_alloc].
  split_and!; [zl|zl|done|]. exists more. done.
Qed.

Lemma append_room_spec a t max e : append_is a t max e -> append_room a = max - zlen t.
Proof.
  intros ((Hl & _) & Hm & Hr & _). unfold append_room. rewrite Hl, Hm.
  destruct (Z.ltb_spec (zlen t) max); lia.
Qed.

(** The uninlined part: grow, truncate when needed, write. *)
Lemma append_bytes_internal_spec a t max u rest :
  append_is a t max false -> utf8_text true u ->
  exists ok a' u1, mcommon_string_append_bytes_internal malloc a (u ++ rest) (zlen u) = Some (ok, a') /\
    append_is a' (t ++ u1) max (negb ok) /\ ok = (zlen t + zlen u <=? max) /\
    if ok then u1 = u else utf8_cut u (max - zlen t) u1.
Proof.
  intros Ha Hu. pose proof (append_room_spec a t max false Ha) as Hroom.
  destruct Ha as (Hs & Hm & Hr & He). unfold mcommon_string_append_bytes_internal.
  pose proof (zlen_nonneg u). pose proof (zlen_nonneg t). unfold UINT32_MAX in *.
  rewrite Hroom, Hm, He. destruct (Z.ltb_spec max (2 ^ 32 - 1)); [|lia]. cbn [negb].
  assert (Hl : s_len (ap_string a) = zlen t) by apply Hs. rewrite Hl.
  assert (Hw : forall v tl ex, u ++ rest = v ++ tl -> zlen t + zlen v <= max ->
    exists a', (if negb (u32 (zlen t + zlen v) <=? max) then None else
      string ← mcommon_string_grow_to_capacity malloc (ap_string a) (u32 (zlen t + zlen v));
      string ← append_write string (u ++ rest) (zlen v);
      Some (mcommon_string_status_from_append (Append string max ex), Append string max ex)) =
        Some (negb ex, a') /\
      append_is a' (t ++ v) max ex).
  { intros v tl ex E Hv. pose proof (zlen_nonneg v). rewrite u32_id by lia.
    destruct (Z.leb_spec (zlen t + zlen v) max); [|lia]. cbn [negb].
    destruct (grow_to_capacity_spec (ap_string a) t (zlen t + zlen v) Hs) as (s1 & -> & Hs1 & Hc1);
      [unfold UINT32_MAX; lia|]. sbind. rewrite E.
    destruct (append_write_spec s1 t v tl Hs1 ltac:(lia)) as (s2 & -> & Hs2 & _). sbind.
    eexists. split; [done|]. unfold append_is. cbn. split_and!; try done; unfold UINT32_MAX; zl. }
  destruct (Z.ltb_spec (max - zlen t) (zlen u)) as [Hlt|Hge].
  - destruct (mcommon_utf8_truncate_len_spec u rest (max - zlen t) Hu) as
      (s1 & s2 & frag & -> & Hu1 & Hu2 & -> & Hk & Hf); [lia|]. sbind.
    assert (zlen s1 <= max - zlen t).
    { apply (f_equal zlen) in Hk. rewrite zlen_take in Hk by lia. rewrite zlen_app in Hk.
      pose proof (zlen_nonneg frag). lia. }
    destruct (Hw s1 (s2 ++ rest) true) as (a' & -> & Ha'); [by rewrite <- app_assoc|lia|].
    exists false, a', s1. split; [done|]. split; [done|].
    destruct (Z.leb_spec (zlen t + zlen (s1 ++ s2)) max); [lia|]. split; [done|].
    by exists s2, frag.
  - sbind. cbn zeta. destruct (Hw u rest false) as (a' & -> & Ha'); [done|lia|].
    exists true, a', u. split; [done|]. split; [done|].
    destruct (Z.leb_spec (zlen t + zlen u) max); [done|lia].
Qed.

Lemma append_bytes_spec a t max u rest :
  append_is a t max false -> utf8_text true u -> zlen u < 2 ^ 32 ->
  exists ok a' u1, mcommon_string_append_bytes malloc a (u ++ rest) (zlen u) = Some (ok, a') /\
    append_is a' (t ++ u1) max (negb ok) /\ ok = (zlen t + zlen u <=? max) /\
    if ok then u1 = u else utf8_cut u (max - zlen t) u1.
Proof.
  intros Ha Hu Hz. pose proof Ha as (Hs & Hm & Hr & He). unfold mcommon_string_append_bytes.
  unfold mcommon_string_status_from_append at 1. rewrite He. cbn [negb].
  assert (Hl : s_len (ap_string a) = zlen t) by apply Hs. rewrite Hl, Hm.
  pose proof (zlen_nonneg u). pose proof (zlen_nonneg t). unfold UINT32_MAX in Hr.
  rewrite !u64_id by (rewrite ?u64_id by lia; lia).
  destruct (Z.leb_spec (zlen t + zlen u) max) as [Hf|Hf]; cbn [andb].
  2: { destruct (append_bytes_internal_spec a t max u rest Ha Hu) as (ok & a' & u1 & E & Ha' & Eo & Hu1).
       destruct (Z.leb_spec (zlen t + zlen u) max); [lia|]. exists ok, a', u1. by rewrite E. }
  destruct (Z.leb_spec (zlen t + zlen u + 1) (s_alloc (ap_string a))).
  2: { destruct (append_bytes_internal_spec a t max u rest Ha Hu) as (ok & a' & u1 & E & Ha' & Eo & Hu1).
       destruct (Z.leb_spec (zlen t + zlen u) max); [|lia]. exists ok, a', u1. by rewrite E. }
  destruct (append_write_spec (ap_string a) t u rest Hs ltac:(lia)) as (s' & -> & Hs' & _). sbind.
  eexists true, _, u. split; [done|]. split; [|done]. unfold append_is. cbn.
  split_and!; try done; unfold UINT32_MAX; zl.
Qed.
End Spec.

(** Once the limit was exceeded nothing more is appended. *)
Lemma append_stuck malloc a str len :
  mcommon_string_status_from_append a = false ->
  mcommon_string_append_bytes malloc a str len = Some (false, a).
Proof. unfold mcommon_string_append_bytes. by intros ->. Qed.

Lemma utf8_enc_text c : scalar c -> utf8_text true (utf8_enc c).
Proof.
  intros Hc. exists [utf8_enc c]. simpl. rewrite app_nil_r. split; [done|].
  constructor; [|constructor]. by apply item_scalar.
Qed.

Section Chars.
Context (malloc : Z -> bytes).
Hypothesis Hmalloc : forall n, 0 <= n -> zlen (malloc n) = n.

Lemma append_unichar_spec a t max c :
  append_is a t max false -> scalar c ->
  exists ok a' u1, mcommon_string_append_unichar malloc a c = Some (ok, a') /\
    append_is a' (t ++ u1) max (negb ok) /\ ok = (zlen t + zlen (utf8_enc c) <=? max) /\
    if ok then u1 = utf8_enc c else utf8_cut (utf8_enc c) (max - zlen t) u1.
Proof.
  intros Ha Hc. pose proof Ha as (Hs & Hm & Hr & He). unfold mcommon_string_append_unichar.
  unfold mcommon_string_status_from_append. rewrite He. cbn [negb].
  assert (Hl : s_len (ap_string a) = zlen t) by apply Hs. pose proof (zlen_nonneg t).
  assert (Hin : mcommon_utf8_from_unichar c = utf8_enc c) by (apply mcommon_utf8_from_unichar_enc; destruct Hc; lia).
  assert (Hz : 1 <= zlen (utf8_enc c) <= 4).
  { unfold utf8_enc, bs. destruct (c <=? 0x7F), (c <=? 0x7FF), (c <=? 0xFFFF); unfold zlen; simpl; lia. }
  assert (Hwrite : forall s', string_is s' t -> zlen t + zlen (utf8_enc c) + 1 <= s_alloc s' ->
    zlen t + zlen (utf8_enc c) <= max ->
    exists s'', append_write s' (utf8_enc c) (zlen (utf8_enc c)) = Some s'' /\
      append_is (Append s'' max false) (t ++ utf8_enc c) max false).
  { intros s' Hs' Hal Hle. destruct (append_write_spec s' t (utf8_enc c) [] Hs' Hal) as (s'' & E & Hs'' & _).
    rewrite app_nil_r in E. exists s''. split; [done|]. unfold append_is. cbn. split_and!; try done; zl. }
  destruct ((c <=? 0x7f) && _) eqn:Efast.
  - apply andb_true_iff in Efast as [E1 E2]. apply andb_true_iff in E2 as [E2 E3].
    rewrite Hl, Hm in *. assert (Eu : [z2b c] = utf8_enc c) by (unfold utf8_enc; by rewrite E1).
    rewrite Eu. rewrite <- Eu in Hz at 1. assert (Ez : zlen (utf8_enc c) = 1) by (by rewrite <- Eu).
    destruct (Hwrite (ap_string a) Hs) as (s'' & E & Ha''); [lia|lia|]. rewrite Ez in E. rewrite E. sbind.
    exists true, (Append s'' max false), (utf8_enc c). split; [done|]. split; [done|].
    destruct (Z.leb_spec (zlen t + zlen (utf8_enc c)) max); [done|lia].
  - clear Efast. unfold mcommon_string_append_unichar_internal. rewrite Hm, Hl, Hin.
    rewrite (append_room_spec a t max false Ha).
    destruct (Z.ltb_spec max UINT32_MAX); [|lia]. cbn [negb]. unfold UINT32_MAX in *.
    destruct (Z.leb_spec 6 (max - zlen t)).
    + rewrite u32_id by lia.
      destruct (grow_to_capacity_spec malloc Hmalloc (ap_string a) t (zlen t + 6) Hs) as (s1 & -> & Hs1 & Hc1);
        [unfold UINT32_MAX; lia|]. sbind. rewrite He.
      destruct (Hwrite s1 Hs1) as (s'' & E & Ha''); [lia|lia|]. rewrite E. sbind.
      exists true, (Append s'' max false), (utf8_enc c). split; [done|]. split; [done|].
      destruct (Z.leb_spec (zlen t + zlen (utf8_enc c)) max); [done|lia].
    + destruct (append_bytes_internal_spec malloc Hmalloc a t max (utf8_enc c) [] Ha (utf8_enc_text c Hc))
        as (ok & a' & u1 & E & H'). rewrite app_nil_r in E. exists ok, a', u1. by rewrite E.
Qed.

Lemma memchr_char_spec sel rest c :
  memchr_char (sel ++ rest) c (zlen sel) = Some (bool_decide (c ∈ sel)).
Proof.
  unfold memchr_char. rewrite slice_at_end_0 by done. sbind. f_equal.
  destruct (existsb (byte_eqb c) sel) eqn:E; symmetry.
  - apply bool_decide_eq_true. apply existsb_exists in E as (x & Hx & E). apply byte_eqb_spec in E as ->.
    by apply list_elem_of_In.
  - apply bool_decide_eq_false. intros Hin. apply list_elem_of_In in Hin.
    rewrite <- not_true_iff_false, existsb_exists in E. apply E. exists c. split; [done|]. apply byte_eqb_refl.
Qed.

(** The characters of the template found in [selector], in the order of the
    template. *)
Lemma append_selected_chars_spec tmplt rest sel srest : forall a t max,
  Forall (fun b => 0 < b2z b <= 0x7f) tmplt -> append_is a t max false ->
  zlen t + zlen tmplt <= max ->
  exists a', mcommon_string_append_selected_chars malloc a (tmplt ++ x00 :: rest) (sel ++ srest) (zlen sel)
    = Some (true, a') /\ append_is a' (t ++ filter (fun b => b ∈ sel) tmplt) max false.
Proof.
  induction tmplt as [|c tmplt IH]; intros a t max Hf Ha Hm; cbn [mcommon_string_append_selected_chars app].
  - rewrite byte_eqb_refl. unfold mcommon_string_status_from_append. exists a.
    destruct Ha as (? & ? & ? & He). rewrite He. split; [done|]. rewrite filter_nil, app_nil_r. done.
  - apply Forall_cons_1 in Hf as [Hc Hf]. rewrite zlen_cons in Hm.
    assert (c <> x00) by (intros ->; change (b2z x00) with 0 in Hc; lia). rewrite byte_eqb_neq by done.
    destruct (Z.leb_spec (b2z c) 0x7f); [|lia]. cbn [negb]. rewrite memchr_char_spec. sbind.
    rewrite filter_cons. case_bool_decide as Ein.
    + rewrite decide_True by done.
      assert (Eu : utf8_enc (b2z c) = [c]).
      { unfold utf8_enc. destruct (Z.leb_spec (b2z c) 0x7f); [|lia]. unfold bs. simpl. by rewrite z2b_b2z. }
      destruct (append_unichar_spec a t max (b2z c) Ha) as (ok & a1 & u1 & -> & Ha1 & Eo & Hu);
        [split; [|]; lia|]. sbind. pose proof (zlen_nonneg tmplt).
      rewrite Eu, zlen_1 in Eo. destruct (Z.leb_spec (zlen t + 1) max); [|lia]. subst ok u1.
      rewrite Eu in Ha1. destruct (IH a1 (t ++ [c]) max Hf Ha1) as (a' & E & Ha'); [zl|].
      exists a'. rewrite E. split; [done|]. rewrite <- app_assoc in Ha'. done.
    + rewrite decide_False by done. apply IH; try done. lia.
Qed.

(** A new buffer with room for [capacity] bytes is empty. *)
Lemma new_with_capacity_as_append_spec capacity :
  0 <= capacity < UINT32_MAX ->
  exists a, mcommon_string_new_with_capacity_as_append malloc capacity = Some a /\
    append_is a [] (UINT32_MAX - 1) false.
Proof.
  intros Hc. unfold mcommon_string_new_with_capacity_as_append, mcommon_string_new_with_capacity, UINT32_MAX in *.
  destruct (Z.ltb_spec capacity (2 ^ 32 - 1)); [|lia]. cbn [andb Z.ltb Z.compare].
  change (0 <? 2 ^ 32 - 1) with true. cbn [andb]. rewrite Z.max_r by lia. rewrite u32_id by lia. cbn zeta.
  rewrite slice_nil by (change (zlen [x00]) with 1; lia). sbind.
  destruct (fresh_split malloc Hmalloc (capacity + 1) 1) as (old & junk & -> & Ho & Hj); [lia|].
  assert (E0 : store (old ++ junk) 0 [] = Some (old ++ junk)) by (apply (store_at_0 [] (old ++ junk) []); done).
  rewrite E0. sbind. clear E0.
  rewrite store_at_0 by done. sbind. unfold mcommon_string_new_with_buffer.
  change (0 <? UINT32_MAX) with true. cbn [andb]. change (u32 (0 + 1)) with 1.
  destruct (Z.leb_spec 1 (capacity + 1)); [|lia]. cbn [app]. rewrite rd_cons_0. sbind.
  rewrite byte_eqb_refl. sbind. eexists. split; [done|]. unfold append_is, string_is, UINT32_MAX. cbn [ap_string s_len s_str s_alloc ap_max_len ap_max_len_exceeded].
  change (zlen (@nil byte)) with 0. split_and!; try done; try lia; [zl|]. by exists junk.
Qed.
End Chars.
