(* ===== verification/BsonView.v ===== *)
(** Reading a [bson_t]: the operations of [bson/bson.c] that only look at the
    document through its data pointer and length. *)

From Stdlib Require Import Strings.String.
From S2P Require Import Prelude CString Text IntEncode BsonTypes BsonIter BsonIterSafe BsonSpec.
From S2P Require Import BsonIterSpec BsonIterFind.

(** ** Definitions *)

(** The checks of [bson_init_static]: whether it initialises the document. *)
Definition bson_init_static (data : bytes) (length : Z) : option bool :=
  if (length <? 5) || (BSON_MAX_SIZE <? length) then Some false else
  hdr_len ← mlib_read_u32le data 0;
  if negb (hdr_len =? length) then Some false else
  last ← rd data (length - 1);
  Some (byte_eqb last x00).

(** [bson_empty (b)]: [((b)->len == 5) || !bson_get_data ((b))\[4\]] *)
Definition bson_empty (data : bytes) (len : Z) : option bool :=
  if len =? 5 then Some true else c ← rd data 4; Some (byte_eqb c x00).

Fixpoint count_keys_loop (fuel : nat) (it : bson_iter_t) (count : Z) : option Z :=
  match fuel with
  | O => None
  | S fuel' =>
      '(ok, it) ← bson_iter_next it;
      if negb ok then Some count else count_keys_loop fuel' it (u32 (count + 1))
  end.

Definition bson_count_keys (data : bytes) (len : Z) : option Z :=
  let '(ok, it) := bson_iter_init data len in
  if ok then count_keys_loop (iter_fuel it) it 0 else Some 0.

Definition bson_has_field (data : bytes) (len : Z) (key : bytes) : option bool :=
  d ← strchr key dot;
  match d with
  | Some _ =>
      let '(ok, it) := bson_iter_init data len in
      if ok then r ← bson_iter_find_descendant it key; Some (bool_decide (is_Some r))
      else Some false
  | None => '(ok, _) ← bson_iter_init_find data len key; Some ok
  end.

(** The sign of the comparison is what the caller may use. *)
Definition bson_compare (data : bytes) (len : Z) (other : bytes) (other_len : Z) : option Z :=
  data1 ← padd data 4;
  let len1 := u32 (len - 4) in
  data2 ← padd other 4;
  let len2 := u32 (other_len - 4) in
  if len1 =? len2 then memcmp data1 data2 len1 else
  ret ← memcmp data1 data2 (Z.min len1 len2);
  let ret := if ret =? 0 then len1 - len2 else ret in
  Some (if ret <? 0 then -1 else if 0 <? ret then 1 else 0).

Definition bson_equal (data : bytes) (len : Z) (other : bytes) (other_len : Z) : option bool :=
  c ← bson_compare data len other other_len; Some (c =? 0).

(** ** Facts *)

Lemma bson_init_static_enc d rest :
  zlen (enc_doc d) <= BSON_MAX_SIZE -> bson_init_static (enc_doc d ++ rest) (zlen (enc_doc d)) = Some true.
Proof.
  intros Hm. unfold bson_init_static. unfold BSON_MAX_SIZE in *.
  destruct (Z.ltb_spec (zlen (enc_doc d)) 5); [rewrite zlen_enc_doc in *; zl|].
  destruct (Z.ltb_spec (2 ^ 31 - 1) (zlen (enc_doc d))); [lia|]. cbn [orb].
  rewrite enc_doc_app. rewrite mlib_read_u32le_0 by zl. sbind.
  rewrite Z.eqb_refl. cbn [negb]. rewrite app_assoc, rd_at; [done|]. rewrite zlen_enc_doc. zl.
Qed.

Lemma bson_init_static_total data len :
  len <= zlen data -> exists b, bson_init_static data len = Some b /\
    (b = true -> 5 <= len < 2 ^ 31 /\ mlib_read_u32le data 0 = Some len /\ rd data (len - 1) = Some x00).
Proof.
  intros Hl. unfold bson_init_static, BSON_MAX_SIZE.
  destruct (Z.ltb_spec len 5); [by exists false|].
  destruct (Z.ltb_spec (2 ^ 31 - 1) len); [by exists false|]. cbn [orb].
  destruct (mlib_read_u32le_Some data 0) as (h & Hh & _); [lia..|]. rewrite Hh. sbind.
  destruct (Z.eqb_spec h len) as [->|]; [|by exists false]. cbn [negb].
  destruct (proj2 (rd_is_Some data (len - 1))) as [c Hc]; [lia|]. rewrite Hc. sbind.
  eexists. split; [done|]. intros ->%byte_eqb_spec. repeat split; try done; lia.
Qed.

Lemma count_keys_loop_spec d pre rest len it fuel count :
  wf_elems d -> len = zlen pre + zlen (enc_elems d) + 1 ->
  at_pos pre (enc_elems d ++ x00 :: rest) len it -> (length d < fuel)%nat ->
  0 <= count -> count + zlen d < 2 ^ 32 ->
  count_keys_loop fuel it count = Some (count + zlen d).
Proof.
  intros Hwf. revert pre it fuel count.
  induction Hwf as [|e d He Hd IH]; intros pre it [|fuel] count Hl Hat Hf Hc Hm; simpl in Hf; try lia.
  - destruct (next_end pre rest len it) as (it' & E & _); [done|rewrite Hl; simpl; zl|].
    cbn [count_keys_loop]. rewrite E. sbind. cbn [negb]. change (zlen []) with 0. f_equal. lia.
  - rewrite zlen_cons in *. rewrite enc_elems_cons in *. rewrite <- app_assoc in Hat. cbn [count_keys_loop].
    rewrite (next_elem pre e (enc_elems d ++ x00 :: rest) len it He) by (done || zl). sbind. cbn [negb].
    destruct Hat as (_ & _ & _ & Hp & Hmax). rewrite u32_id by zl.
    rewrite (IH (pre ++ enc_elem e)); [f_equal; lia|zl|by apply at_pos_next|lia|lia|lia].
Qed.

(** [bson_count_keys] counts the elements. *)
Lemma bson_count_keys_enc d rest :
  wf_elems d -> zlen (enc_doc d) < 2 ^ 31 ->
  bson_count_keys (enc_doc d ++ rest) (zlen (enc_doc d)) = Some (zlen d).
Proof.
  intros Hwf Hm. unfold bson_count_keys, bson_iter_init.
  destruct (Z.ltb_spec (zlen (enc_doc d)) 5); [rewrite zlen_enc_doc in *; zl|].
  pose proof (length_enc_elems d). rewrite zlen_enc_doc in Hm.
  rewrite (count_keys_loop_spec d (le_bytes 4 (zlen (enc_doc d))) rest (zlen (enc_doc d)));
    [done|done|rewrite zlen_enc_doc; zl|apply at_pos_start; rewrite zlen_enc_doc; zl|apply doc_fuel|lia|].
  unfold zlen in *. lia.
Qed.

Lemma doc_find_split d k : doc_find d k = (fun r => (r.1.2).2) <$> doc_split d k.
Proof. unfold doc_find. by destruct (doc_split d k). Qed.

(** [bson_has_field] on a path without dots and on a dotted path. *)
Lemma bson_has_field_spec d path rest t :
  wf_elems d -> zlen (enc_doc d) < 2 ^ 31 -> path <> [] -> Forall path_key path ->
  zlen (join_path path) < 2 ^ 31 ->
  bson_has_field (enc_doc d ++ rest) (zlen (enc_doc d)) (join_path path ++ x00 :: t) =
    Some (bool_decide (is_Some (doc_lookup d path))).
Proof.
  intros Hwf Hl Hne Hp Hlen. pose proof (join_path_no_nul _ Hp) as Hn.
  assert (Hi : bson_iter_init (enc_doc d ++ rest) (zlen (enc_doc d)) =
    (true, iter_start (enc_doc d ++ rest) (zlen (enc_doc d)))).
  { unfold bson_iter_init. destruct (Z.ltb_spec (zlen (enc_doc d)) 5); [rewrite zlen_enc_doc in *; zl|done]. }
  unfold bson_has_field. destruct path as [|k path]; [done|]. destruct path as [|k2 path].
  - apply Forall_cons_1 in Hp as [[Hk Hd] _]. cbn [join_path doc_lookup] in *.
    rewrite strchr_none by done. sbind. unfold bson_iter_init_find. rewrite Hi, bson_iter_find_eq by done.
    pose proof (bson_iter_find_w_len_spec d k (x00 :: t) rest Hwf Hk Hl) as H. rewrite doc_find_split.
    destruct (doc_split d k) as [[[d1 e] d2]|]; [by rewrite H|]. by destruct H as [it' ->].
  - destruct (bson_iter_find_descendant_spec d (k :: k2 :: path) rest t) as (r & Hr & Hs); [done..|].
    apply Forall_cons_1 in Hp as [[Hk Hd] _].
    assert (E : strchr (join_path (k :: k2 :: path) ++ x00 :: t) dot = Some (Some (zlen k))).
    { change (join_path (k :: k2 :: path)) with (k ++ dot :: join_path (k2 :: path)).
      rewrite <- app_assoc. by apply strchr_some. }
    rewrite E. sbind. rewrite Hi, Hr. sbind. f_equal.
    destruct (doc_lookup d (k :: k2 :: path)).
    + destruct Hs as (P & post & it & -> & _). done.
    + by subst r.
Qed.

(** Equal documents are equal bytes. *)
Lemma bson_equal_spec a ra b rb :
  5 <= zlen a < 2 ^ 31 -> 5 <= zlen b < 2 ^ 31 ->
  bson_equal (a ++ ra) (zlen a) (b ++ rb) (zlen b) =
    Some (bool_decide (drop 4 a = drop 4 b)).
Proof.
  intros Ha Hb. unfold bson_equal, bson_compare.
  assert (Hs : forall m (l : bytes), 5 <= zlen l < 2 ^ 31 -> padd (l ++ m) 4 = Some (drop 4 l ++ m)).
  { intros m l Hl. unfold padd. destruct (Z.leb_spec 4 (zlen (l ++ m))); [|zl]. cbn [Z.leb andb].
    change (Z.to_nat 4) with 4%nat. by rewrite drop_app_le by (unfold zlen in *; lia). }
  rewrite !Hs by done. sbind. rewrite !u32_id by lia.
  assert (Hd : forall l : bytes, 5 <= zlen l < 2 ^ 31 -> zlen (drop 4 l) = zlen l - 4).
  { intros l Hl. unfold zlen in *. rewrite length_drop. lia. }
  destruct (Z.eqb_spec (zlen a - 4) (zlen b - 4)) as [E|E].
  - unfold memcmp. rewrite (slice_at [] (drop 4 a) ra 0) by (done || rewrite Hd; lia).
    rewrite (slice_at [] (drop 4 b) rb 0) by (done || rewrite Hd; lia). sbind. f_equal.
    pose proof (memcmp_bytes_eq (drop 4 a) (drop 4 b)) as H. rewrite !length_drop in H.
    specialize (H ltac:(unfold zlen in *; lia)).
    destruct (Z.eqb_spec (memcmp_bytes (drop 4 a) (drop 4 b)) 0); case_bool_decide; tauto.
  - unfold memcmp.
    destruct (proj2 (slice_is_Some (drop 4 a ++ ra) 0 (Z.min (zlen a - 4) (zlen b - 4)))) as [s ->];
      [rewrite zlen_app, Hd by done; zl|].
    destruct (proj2 (slice_is_Some (drop 4 b ++ rb) 0 (Z.min (zlen a - 4) (zlen b - 4)))) as [s' ->];
      [rewrite zlen_app, Hd by done; zl|]. sbind. f_equal.
    rewrite bool_decide_eq_false_2.
    + destruct (Z.eqb_spec (memcmp_bytes s s') 0); bdestruct; done.
    + intros Hab%(f_equal zlen). rewrite !Hd in Hab; lia.
Qed.
