(* ===== verification/BsonT.v ===== *)
(** The mutable document [bson_t]: its inline and heap representations
    ([bson/bson_t-private.h]), growth, the byte-list appender every
    [bson_append_*] goes through, and initialisation ([bson/bson.c]).

    Heap buffers live in a store of cells, so that a child document and its
    parent share the buffer the code shares. *)

From S2P Require Import Prelude CString IntEncode BsonTypes BsonIter BsonSpec BsonView.

(** ** State *)

Definition BSON_FLAG_INLINE : Z := 1.
Definition BSON_FLAG_STATIC : Z := 2.
Definition BSON_FLAG_RDONLY : Z := 4.
Definition BSON_FLAG_CHILD : Z := 8.
Definition BSON_FLAG_IN_CHILD : Z := 16.
Definition BSON_FLAG_NO_FREE : Z := 32.

Definition BSON_INLINE_DATA_SIZE : Z := 120.

(** [bson_impl_inline_t] and [bson_impl_alloc_t] together: [b_data] is
    meaningful while the document is inline, the members after it otherwise.
    [b_buf] names the cell behind [buf]/[buflen], [b_alloc] the one of the
    buffer the document owns ([NULL] as [None]); [b_realloc] is whether
    [realloc] is set. *)
Record bson_t := Bson {
  b_flags : Z;
  b_len : Z;
  b_data : bytes;
  b_depth : Z;
  b_buf : nat;
  b_offset : Z;
  b_alloc : option nat;
  b_realloc : bool
}.

(** Heap buffers, with [buflen] as their length, and the next free name. *)
Record heap := Heap { h_cells : gmap nat bytes; h_next : nat }.

Definition heap_alloc (h : heap) (m : bytes) : heap * nat :=
  (Heap (<[h_next h := m]> (h_cells h)) (S (h_next h)), h_next h).
Definition heap_set (h : heap) (c : nat) (m : bytes) : heap :=
  Heap (<[c := m]> (h_cells h)) (h_next h).

Definition flag_test (flags f : Z) : bool := negb (Z.land flags f =? 0).
Definition flag_clear (flags f : Z) : Z := Z.ldiff flags f.
Definition flag_add (flags f : Z) : Z := Z.lor flags f.

Definition is_inline (b : bson_t) : bool := flag_test (b_flags b) BSON_FLAG_INLINE.

Definition set_len (b : bson_t) (n : Z) : bson_t :=
  Bson (b_flags b) n (b_data b) (b_depth b) (b_buf b) (b_offset b) (b_alloc b) (b_realloc b).
Definition set_flags (b : bson_t) (f : Z) : bson_t :=
  Bson f (b_len b) (b_data b) (b_depth b) (b_buf b) (b_offset b) (b_alloc b) (b_realloc b).
Definition set_data (b : bson_t) (m : bytes) : bson_t :=
  Bson (b_flags b) (b_len b) m (b_depth b) (b_buf b) (b_offset b) (b_alloc b) (b_realloc b).

(** ** Growth *)

Definition _bson_round_up_alloc_size (size : Z) : Z :=
  if size <=? BSON_MAX_SIZE then Z.min (bson_next_power_of_two size) BSON_MAX_SIZE else size.

(** A state change with the returned flag. *)
Definition bres : Type := (bool * heap * bson_t)%type.

Section Memory.
(** The contents of fresh memory of a given size; [bson_malloc] aborts when
    there is none. *)
Context (malloc : Z -> bytes).

Definition _bson_impl_inline_grow (h : heap) (b : bson_t) (grow_size : Z) : option bres :=
  let req := b_len b + grow_size in
  if req <=? BSON_INLINE_DATA_SIZE then Some (true, h, b) else
  let req := _bson_round_up_alloc_size req in
  if req <=? BSON_MAX_SIZE then
    src ← slice (b_data b) 0 (b_len b);
    data ← store (malloc req) 0 src;
    let '(h, c) := heap_alloc h data in
    Some (true, h, Bson (flag_clear (b_flags b) BSON_FLAG_INLINE) (b_len b) (b_data b) 0 c 0
                     (Some c) true)
  else Some (false, h, b).

Definition _bson_impl_alloc_grow (h : heap) (b : bson_t) (grow_size : Z) : option bres :=
  buf ← h_cells h !! b_buf b;
  let req := b_offset b + b_len b + grow_size + b_depth b in
  if req <=? zlen buf then Some (true, h, b) else
  let req := _bson_round_up_alloc_size req in
  if (req <=? BSON_MAX_SIZE) && b_realloc b
  then Some (true, heap_set h (b_buf b) (realloc malloc buf req), b)
  else Some (false, h, b).

Definition _bson_grow (h : heap) (b : bson_t) (grow_size : Z) : option bres :=
  if BSON_MAX_SIZE <? grow_size then None else
  if is_inline b then _bson_impl_inline_grow h b grow_size else _bson_impl_alloc_grow h b grow_size.

(** ** Access to the data *)

(** The buffer behind the document and where the document starts in it. *)
Definition bson_buffer (h : heap) (b : bson_t) : option (bytes * Z) :=
  if is_inline b then Some (b_data b, 0) else buf ← h_cells h !! b_buf b; Some (buf, b_offset b).

Definition set_buffer (h : heap) (b : bson_t) (m : bytes) : heap * bson_t :=
  if is_inline b then (h, set_data b m) else (heap_set h (b_buf b) m, b).

Definition _bson_data (h : heap) (b : bson_t) : option bytes :=
  '(m, o) ← bson_buffer h b; padd m o.

(** [memcpy (_bson_data (bson) + o, src, |src|)] *)
Definition bson_store (h : heap) (b : bson_t) (o : Z) (src : bytes) : option (heap * bson_t) :=
  '(m, base) ← bson_buffer h b; m ← store m (base + o) src; Some (set_buffer h b m).

Definition _bson_encode_length (h : heap) (b : bson_t) : option (heap * bson_t) :=
  bson_store h b 0 (le_encode_loop 4 (b_len b)).

(** ** The list of byte ranges to append *)

(** [bytes] is [NULL] as [None]. *)
Record append_arg := AppendArg { a_bytes : option bytes; a_length : Z }.
Record append_list := AppendList { args : list append_arg; n_bytes : Z }.

Definition append_nil : append_list := AppendList [] 0.

(** Computations that may [goto append_failure]: [Some None]. *)
Definition append_res (A : Type) : Type := option (option A).
Definition app_ret {A} (a : A) : append_res A := Some (Some a).
Definition append_failure {A} : append_res A := Some None.
Definition app_bind {A B} (x : append_res A) (f : A -> append_res B) : append_res B :=
  match x with None => None | Some None => Some None | Some (Some a) => f a end.

(** [BSON_APPEND_BYTES_ADD_ARGUMENT] *)
Definition add_argument (bs : option bytes) (length : Z) (l : append_list) : append_res append_list :=
  if BSON_MAX_SIZE - n_bytes l <? length then append_failure
  else if 0 <? length
  then app_ret (AppendList (args l ++ [AppendArg bs length]) (n_bytes l + length))
  else app_ret l.

(** [BSON_APPEND_BYTES_ADD_CHECKED_STRING] *)
Definition add_checked_string (key : bytes) (key_len : Z) (l : append_list) : append_res append_list :=
  if key_len <? 0 then
    match strlen key with
    | None => None
    | Some key_zulen =>
        if UINT32_MAX <? key_zulen then append_failure else add_argument (Some key) key_zulen l
    end
  else if UINT32_MAX <? key_len then append_failure
  else match memchr_nul key key_len with
       | None => None
       | Some true => append_failure
       | Some false => add_argument (Some key) key_len l
       end.

(** The [for] loop of [BSON_APPEND_BYTES_APPLY_ARGUMENTS]: [data] is the
    offset written to. *)
Fixpoint apply_loop (l : list append_arg) (h : heap) (b : bson_t) (data : Z) :
    option (heap * bson_t * Z) :=
  match l with
  | [] => Some (h, b, data)
  | arg :: l' =>
      '(h, b) ← match a_bytes arg with
                | Some m => src ← slice m 0 (a_length arg); bson_store h b data src
                | None => Some (h, b)
                end;
      apply_loop l' h (set_len b (u32 (b_len b + a_length arg))) (data + a_length arg)
  end.

(** [BSON_APPEND_BYTES_APPLY_ARGUMENTS], with the labels after it. *)
Definition apply_arguments (h : heap) (b : bson_t) (l : append_res append_list) : option bres :=
  match l with
  | None => None
  | Some None => Some (false, h, b)
  | Some (Some l) =>
      if BSON_MAX_SIZE - b_len b <? n_bytes l then Some (false, h, b) else
      '(grown, h, b) ← _bson_grow h b (n_bytes l);
      if negb grown then Some (false, h, b) else
      '(h, b, data) ← apply_loop (args l) h b (b_len b - 1);
      '(h, b) ← _bson_encode_length h b;
      '(h, b) ← bson_store h b data [x00];
      Some (true, h, b)
  end.

(** ** Initialisation *)

Definition empty_doc : bytes := [z2b 5; x00; x00; x00; x00].

(** [bson_init]: what the inline data held before is kept after byte 5. *)
Definition bson_init (junk : bytes) : bson_t :=
  Bson (flag_add BSON_FLAG_INLINE BSON_FLAG_STATIC) 5 (empty_doc ++ drop 5 junk) 0 0 0 None false.

Definition bson_new (junk : bytes) : bson_t :=
  Bson BSON_FLAG_INLINE 5 (empty_doc ++ drop 5 junk) 0 0 0 None false.

Definition bson_sized_new (h : heap) (junk : bytes) (size : Z) : option (heap * bson_t) :=
  if BSON_MAX_SIZE <? size then None else
  if size <=? BSON_INLINE_DATA_SIZE then
    let b := bson_init junk in Some (h, set_flags b (flag_clear (b_flags b) BSON_FLAG_STATIC))
  else
    let alloclen := Z.max 5 size in
    m ← store (malloc alloclen) 0 empty_doc;
    let '(h, c) := heap_alloc h m in
    Some (h, Bson 0 5 junk 0 c 0 (Some c) true).

(** [bson_init_static] when its checks pass: a read-only view of [data]. *)
Definition bson_view (h : heap) (data : bytes) (length : Z) : option (bool * heap * bson_t) :=
  ok ← bson_init_static data length;
  if (ok : bool) then
    m ← slice data 0 length;
    let '(h, c) := heap_alloc h m in
    Some (true, h, Bson (flag_add BSON_FLAG_STATIC BSON_FLAG_RDONLY) length [] 0 c 0 (Some c) false)
  else Some (false, h, bson_init []).

(** [None] inside is the [NULL] returned. *)
Definition bson_new_from_data (h : heap) (junk : bytes) (data : bytes) (length : Z) :
    option (option (heap * bson_t)) :=
  if (length <? 5) || (BSON_MAX_SIZE <? length) then Some None else
  last ← rd data (length - 1);
  if negb (byte_eqb last x00) then Some None else
  hdr ← mlib_read_i32le data 0;
  if negb (hdr =? length) then Some None else
  '(h, b) ← bson_sized_new h junk length;
  src ← slice data 0 length;
  '(h, b) ← bson_store h b 0 src;
  Some (Some (h, set_len b length)).

(** [buf] is the cell of the caller's buffer; an unset cell is the [NULL]
    pointer. *)
Definition bson_new_from_buffer (h : heap) (buf : nat) : option (option (heap * bson_t)) :=
  '(h, length) ← match h_cells h !! buf with
    | None =>
        m ← mlib_write_u32le (malloc 5) 0 5;
        m ← store m 4 [x00];
        Some (heap_set h buf m, Some 5)
    | Some m =>
        if (zlen m <? 5) || (BSON_MAX_SIZE <? zlen m) then Some (h, None) else
        length ← mlib_read_u32le m 0;
        if zlen m <? length then Some (h, None) else Some (h, Some length)
    end;
  match length with
  | None => Some None
  | Some length =>
      m ← h_cells h !! buf;
      last ← rd m (u32 (length - 1));
      if negb (byte_eqb last x00) then Some None
      else Some (Some (h, Bson BSON_FLAG_NO_FREE length [] 0 buf 0 None true))
  end.

Definition bson_copy (h : heap) (junk : bytes) (b : bson_t) : option (option (heap * bson_t)) :=
  data ← _bson_data h b; bson_new_from_data h junk data (b_len b).

Definition bson_copy_to (h : heap) (src : bson_t) : option (heap * bson_t) :=
  if is_inline src
  then Some (h, set_flags src (flag_add BSON_FLAG_STATIC BSON_FLAG_INLINE))
  else
    data ← _bson_data h src;
    let len := _bson_round_up_alloc_size (b_len src) in
    s ← slice data 0 (b_len src);
    m ← store (malloc len) 0 s;
    let '(h, c) := heap_alloc h m in
    Some (h, Bson BSON_FLAG_STATIC (b_len src) [] 0 c 0 (Some c) true).

Definition bson_reinit (h : heap) (b : bson_t) : option (heap * bson_t) :=
  bson_store h (set_len b 5) 0 empty_doc.

(** [None] inside is the [NULL] returned. *)
Definition bson_reserve_buffer (h : heap) (b : bson_t) (total_size : Z) :
    option (option bytes * heap * bson_t) :=
  if flag_test (b_flags b) (Z.lor (Z.lor BSON_FLAG_CHILD BSON_FLAG_IN_CHILD) BSON_FLAG_RDONLY)
  then Some (None, h, b) else
  '(ok, h, b) ←
    (if b_len b <? total_size then
       if BSON_MAX_SIZE <? total_size then Some (false, h, b)
       else _bson_grow h b (total_size - b_len b)
     else Some (true, h, b));
  if negb ok then Some (None, h, b) else
  let b := set_len b total_size in
  '(m, o) ← bson_buffer h b;
  if is_inline b then
    (if total_size <=? BSON_INLINE_DATA_SIZE then Some (Some m, h, b) else None)
  else
    if (o <=? zlen m) && (total_size <=? zlen m - o)
    then d ← _bson_data h b; Some (Some d, h, b) else None.

(** [bson_steal]: the returned flag, [dst], and [src] afterwards. [dst] takes
    the buffer [src] owns; with none, its buffer pointer is [NULL] (a cell
    that is not allocated). *)
Definition bson_steal (h : heap) (junk : bytes) (src : bson_t) : bool * bson_t * bson_t :=
  let dst := bson_init junk in
  if flag_test (b_flags src) (Z.lor (Z.lor BSON_FLAG_CHILD BSON_FLAG_IN_CHILD) BSON_FLAG_RDONLY)
  then (false, dst, src)
  else if is_inline src
  then (true, set_data (set_len dst (b_len src)) (b_data src), set_len src 0)
  else
    (true,
     Bson (flag_add (b_flags src) BSON_FLAG_STATIC) (b_len src) (b_data src) (b_depth src)
       (default (h_next h) (b_alloc src)) (b_offset src) (b_alloc src) (b_realloc src),
     set_len src 0).

(** [bson_free ( *buf)] *)
Definition bson_destroy (h : heap) (b : bson_t) : heap :=
  if flag_test (b_flags b) (Z.lor (Z.lor BSON_FLAG_RDONLY BSON_FLAG_INLINE) BSON_FLAG_NO_FREE)
  then h else Heap (delete (b_buf b) (h_cells h)) (h_next h).

(** The stolen bytes, the length reported, and the heap after. *)
Definition bson_destroy_with_steal (h : heap) (b : bson_t) (steal : bool) :
    option (option bytes * Z * heap) :=
  let length := b_len b in
  if negb steal then Some (None, length, bson_destroy h b) else
  if flag_test (b_flags b) (Z.lor (Z.lor BSON_FLAG_CHILD BSON_FLAG_IN_CHILD) BSON_FLAG_RDONLY)
  then Some (None, length, bson_destroy h b)
  else if is_inline b then
    s ← slice (b_data b) 0 (b_len b);
    m ← store (malloc (b_len b)) 0 s;
    Some (Some m, length, bson_destroy h b)
  else
    m ← h_cells h !! b_buf b;
    let h := Heap (delete (b_buf b) (h_cells h)) (h_next h) in
    Some (Some m, length, bson_destroy h b).
End Memory.
