(* ===== verification/BsonTSpec.v ===== *)
(** The byte-list appender refines appending elements to the abstract
    document: the growth policy always makes room, the sibling bytes of a
    parent document are kept, and the only failures are the size limits. *)

From S2P Require Import Prelude CString IntEncode BsonTypes BsonIter BsonSpec BsonIterSpec BsonView.
From S2P Require Import BsonT.

(** ** Allocation sizes *)

Lemma round_up_bounds n :
  1 < n <= BSON_MAX_SIZE -> n <= _bson_round_up_alloc_size n <= BSON_MAX_SIZE.
Proof.
  intros Hn. unfold _bson_round_up_alloc_size. destruct (Z.leb_spec n BSON_MAX_SIZE); [|lia].
  unfold BSON_MAX_SIZE in *. rewrite bson_next_power_of_two_spec by lia.
  pose proof (Z.log2_up_spec n ltac:(lia)). lia.
Qed.

Lemma round_up_above n : BSON_MAX_SIZE < n -> _bson_round_up_alloc_size n = n.
Proof. intros. unfold _bson_round_up_alloc_size. destruct (Z.leb_spec n BSON_MAX_SIZE); lia. Qed.

(** ** Representation *)

(** [b] holds the document [d]; [pre] is what precedes it in its buffer and
    [tail] what follows. *)
Definition stored (h : heap) (b : bson_t) (pre : bytes) (d : doc) (tail : bytes) : Prop :=
  b_len b = zlen (enc_doc d) /\ zlen (enc_doc d) <= BSON_MAX_SIZE /\
  bson_buffer h b = Some (pre ++ enc_doc d ++ tail, zlen pre) /\
  if is_inline b
  then pre = [] /\ zlen (enc_doc d ++ tail) = BSON_INLINE_DATA_SIZE
  else 0 <= b_depth b <= zlen tail /\ zlen (pre ++ enc_doc d ++ tail) <= BSON_MAX_SIZE.

Lemma stored_data h b pre d tail : stored h b pre d tail -> _bson_data h b = Some (enc_doc d ++ tail).
Proof. intros (_ & _ & H & _). unfold _bson_data. rewrite H. sbind. by apply padd_at. Qed.

(** Buffers keep their size or grow to one the growth policy gives. *)
Definition cell_size (h : heap) (c : nat) : Z := match h_cells h !! c with Some m => zlen m | None => 0 end.
Definition size_grows (n n' : Z) : Prop := n' = n \/ n <= n' /\ exists req, 1 < req <= BSON_MAX_SIZE /\ n' = _bson_round_up_alloc_size req.
Definition sizes_grow (h h' : heap) : Prop := forall c, (c < h_next h)%nat -> size_grows (cell_size h c) (cell_size h' c).

Lemma size_grows_trans a b c : size_grows a b -> size_grows b c -> size_grows a c.
Proof. intros [->|[H1 P1]] [->|[H2 P2]]; [by left|by right|by right|right; split; [lia|done]]. Qed.

Lemma size_grows_le a b : size_grows a b -> a <= b.
Proof. intros [->|[H _]]; lia. Qed.

Lemma sizes_grow_refl h : sizes_grow h h.
Proof. intros c _. by left. Qed.

Lemma sizes_grow_trans h1 h2 h3 : (h_next h1 <= h_next h2)%nat -> sizes_grow h1 h2 -> sizes_grow h2 h3 -> sizes_grow h1 h3.
Proof. intros Hn H1 H2 c Hc. eapply size_grows_trans; [by apply H1|apply H2; lia]. Qed.

Lemma sizes_grow_set h c m m' : h_cells h !! c = Some m -> size_grows (zlen m) (zlen m') -> sizes_grow h (heap_set h c m').
Proof.
  intros Hc Hm c' _. unfold cell_size, heap_set. cbn. destruct (decide (c = c')) as [<-|].
  - by rewrite Hc, lookup_insert_eq.
  - rewrite lookup_insert_ne by done. by left.
Qed.

Lemma sizes_grow_alloc h m : sizes_grow h (fst (heap_alloc h m)).
Proof. intros c Hc. unfold cell_size, heap_alloc. cbn. rewrite lookup_insert_ne by lia. by left. Qed.

(** Only the document's own cell changes. *)
Definition heap_frame (h h' : heap) (b' : bson_t) : Prop :=
  (forall c, is_inline b' = true \/ c <> b_buf b' -> h_cells h' !! c = h_cells h !! c) /\
  (h_next h <= h_next h')%nat /\ sizes_grow h h'.

(** From [b] in [h] to [b'] in [h']: of the cells that existed only the
    document's own may have changed; its buffer is the old one or a new one. *)
Definition frame (h : heap) (b : bson_t) (h' : heap) (b' : bson_t) : Prop :=
  (forall c, (c < h_next h)%nat -> is_inline b = true \/ c <> b_buf b ->
     h_cells h' !! c = h_cells h !! c) /\
  (h_next h <= h_next h')%nat /\
  (is_inline b' = false -> (is_inline b = false /\ b_buf b' = b_buf b) \/ (h_next h <= b_buf b')%nat) /\
  sizes_grow h h'.

Lemma frame_refl h b : frame h b h b.
Proof. split_and!; auto using sizes_grow_refl. Qed.

Lemma frame_trans h1 b1 h2 b2 h3 b3 : frame h1 b1 h2 b2 -> frame h2 b2 h3 b3 -> frame h1 b1 h3 b3.
Proof.
  intros (F1 & N1 & B1 & S1) (F2 & N2 & B2 & S2). split_and!; [|lia| |by apply (sizes_grow_trans h1 h2)].
  - intros c Hc Hb. rewrite F2, F1; [done|done|done|lia|]. destruct (is_inline b2) eqn:E; [by left|right].
    destruct (B1 eq_refl) as [[E1 ->]|]; [destruct Hb; congruence|lia].
  - intros E. destruct (B2 E) as [[E2 Eb]|]; [|right; lia].
    destruct (B1 E2) as [[? ?]|]; [left; split; [done|congruence]|right; lia].
Qed.

(** ** Updating the buffer *)

(** [h', b'] differ from [h, b] by what is in the document's own buffer, and its
    length. *)
Record rewritten (h : heap) (b : bson_t) (h' : heap) (b' : bson_t) : Prop := Rewritten {
  rw_inline : is_inline b' = is_inline b;
  rw_depth : b_depth b' = b_depth b;
  rw_buf : b_buf b' = b_buf b;
  rw_offset : b_offset b' = b_offset b;
  rw_realloc : b_realloc b' = b_realloc b;
  rw_flags : b_flags b' = b_flags b;
  rw_frame : heap_frame h h' b'
}.

Lemma heap_frame_refl h b : heap_frame h h b.
Proof. split; [done|]. split; [done|apply sizes_grow_refl]. Qed.

Lemma rewritten_refl h b : rewritten h b h b.
Proof. split; try done. apply heap_frame_refl. Qed.

Lemma rewritten_len h b n : rewritten h b h (set_len b n).
Proof. split; try done. apply heap_frame_refl. Qed.

Lemma rewritten_trans h b h1 b1 h2 b2 :
  rewritten h b h1 b1 -> rewritten h1 b1 h2 b2 -> rewritten h b h2 b2.
Proof.
  intros [? ? ? ? ? ? (F1 & N1 & S1)] [Hi ? Hb ? ? ? (F2 & N2 & S2)]. split; try congruence.
  split; [|split; [lia|by apply (sizes_grow_trans h h1)]].
  intros c Hc. rewrite F2 by exact Hc. apply F1. by rewrite Hi, Hb in Hc.
Qed.

Lemma set_buffer_spec h b m m0 o :
  bson_buffer h b = Some (m0, o) -> zlen m = zlen m0 ->
  exists h' b', set_buffer h b m = (h', b') /\ bson_buffer h' b' = Some (m, o) /\
    b_len b' = b_len b /\ rewritten h b h' b'.
Proof.
  unfold bson_buffer, set_buffer. destruct (is_inline b) eqn:E.
  - intros [= <- <-] _. exists h, (set_data b m). unfold is_inline in *. cbn. rewrite E. split; [done|]. split; [done|]. split; [done|].
    split; try done. apply heap_frame_refl.
  - destruct (h_cells h !! b_buf b) eqn:Hc; [|done]. intros [= <- <-] Hm. exists (heap_set h (b_buf b) m), b.
    rewrite E. pose proof (sizes_grow_set h (b_buf b) _ m Hc (or_introl Hm)) as Hs. unfold heap_set in *. cbn.
    rewrite lookup_insert_eq. sbind. repeat split; try done.
    intros c [Hc'|Hc']; [congruence|]. cbn. by rewrite lookup_insert_ne.
Qed.

(** [memcpy] inside the buffer. *)
Lemma bson_store_spec h b A old R o data s :
  bson_buffer h b = Some (A ++ old ++ R, o) -> o + data = zlen A -> zlen s = zlen old ->
  exists h' b', bson_store h b data s = Some (h', b') /\ bson_buffer h' b' = Some (A ++ s ++ R, o) /\
    b_len b' = b_len b /\ rewritten h b h' b'.
Proof.
  intros Hb Ho Hs. unfold bson_store. rewrite Hb. sbind. rewrite (store_at A old R) by done. sbind.
  destruct (set_buffer_spec h b (A ++ s ++ R) _ _ Hb) as (h' & b' & -> & H); [zl|]. by exists h', b'.
Qed.

Lemma encode_length_spec h b pre L R :
  bson_buffer h b = Some (pre ++ le_bytes 4 L ++ R, zlen pre) ->
  exists h' b', _bson_encode_length h b = Some (h', b') /\
    bson_buffer h' b' = Some (pre ++ le_bytes 4 (b_len b) ++ R, zlen pre) /\
    b_len b' = b_len b /\ rewritten h b h' b'.
Proof.
  intros Hb. unfold _bson_encode_length. rewrite le_encode_loop_spec. by apply (bson_store_spec _ _ _ _ _ _ _ _ Hb); zl.
Qed.

(** A document whose bytes were overwritten in place. *)
Lemma rewritten_stored h b pre d tail h' b' d' tail' :
  stored h b pre d tail -> rewritten h b h' b' ->
  bson_buffer h' b' = Some (pre ++ enc_doc d' ++ tail', zlen pre) -> b_len b' = zlen (enc_doc d') ->
  zlen (enc_doc d') <= BSON_MAX_SIZE -> zlen (enc_doc d' ++ tail') = zlen (enc_doc d ++ tail) ->
  (is_inline b = false -> b_depth b <= zlen tail') -> stored h' b' pre d' tail'.
Proof.
  intros (_ & _ & _ & Hi) [Hin Hde _ _ _ _ _] Hb Hl Hm Hz Hd. unfold stored. rewrite Hin, Hde.
  split; [done|]. split; [done|]. split; [done|]. destruct (is_inline b); [by rewrite Hz|].
  split; [split; [apply Hi|by apply Hd]|]. rewrite (zlen_app pre), Hz, <- zlen_app. apply Hi.
Qed.

(** ** The arguments of an append *)

Inductive args_are : list append_arg -> bytes -> Prop :=
  | args_nil : args_are [] []
  | args_cons c rest l p : args_are l p -> args_are (AppendArg (Some (c ++ rest)) (zlen c) :: l) (c ++ p).

Lemma args_are_snoc l p c rest :
  args_are l p -> args_are (l ++ [AppendArg (Some (c ++ rest)) (zlen c)]) (p ++ c).
Proof.
  induction 1 as [|c' rest' l p H IH]; simpl.
  - rewrite <- (app_nil_r c) at 3. apply (args_cons c rest [] []). constructor.
  - rewrite <- app_assoc. by constructor.
Qed.

(** [x] collects exactly the bytes [p], or fails because they are too many. *)
Definition builds (x : append_res append_list) (p : bytes) : Prop :=
  if zlen p <=? BSON_MAX_SIZE
  then exists l, x = Some (Some l) /\ args_are (args l) p /\ n_bytes l = zlen p
  else x = Some None.

Lemma builds_nil : builds (app_ret append_nil) [].
Proof. exists append_nil. repeat split. constructor. Qed.

Lemma builds_add x p c rest :
  builds x p -> builds (app_bind x (add_argument (Some (c ++ rest)) (zlen c))) (p ++ c).
Proof.
  unfold builds. rewrite zlen_app. intros H. pose proof (zlen_nonneg c).
  destruct (Z.leb_spec (zlen p) BSON_MAX_SIZE).
  - destruct H as (l & -> & Ha & Hn). cbn [app_bind]. unfold add_argument. rewrite Hn.
    destruct (Z.leb_spec (zlen p + zlen c) BSON_MAX_SIZE), (Z.ltb_spec (BSON_MAX_SIZE - zlen p) (zlen c));
      try lia; [|done].
    destruct (Z.ltb_spec 0 (zlen c)).
    + eexists. split; [done|]. split; [by apply args_are_snoc|]. cbn. lia.
    + exists l. split; [done|]. rewrite (zlen_0 c) by lia. rewrite app_nil_r.
      split; [done|]. change (zlen (@nil byte)) with 0. lia.
  - subst x. destruct (Z.leb_spec (zlen p + zlen c) BSON_MAX_SIZE); [lia|done].
Qed.

Lemma builds_add_all x p c :
  builds x p -> builds (app_bind x (add_argument (Some c) (zlen c))) (p ++ c).
Proof. intros H. rewrite <- (app_nil_r c) at 1. by apply builds_add. Qed.

(** A key argument: a C string with [key_len = -1], or the bytes with their length. *)
Definition key_arg (key : bytes) (key_len : Z) (k : bytes) : Prop :=
  no_nul k /\ zlen k < 2 ^ 31 /\ exists rest,
    (key_len = -1 /\ key = k ++ x00 :: rest) \/ (key_len = zlen k /\ key = k ++ rest).

Lemma builds_key x p key key_len k :
  key_arg key key_len k -> builds x p -> builds (app_bind x (add_checked_string key key_len)) (p ++ k).
Proof.
  intros (Hk & Hl & rest & [[-> ->]|[-> ->]]) Hb.
  - enough (app_bind x (add_checked_string (k ++ x00 :: rest) (-1)) =
      app_bind x (add_argument (Some (k ++ x00 :: rest)) (zlen k))) as -> by (by apply builds_add).
    unfold add_checked_string. cbn [Z.ltb Z.compare]. rewrite strlen_app by done.
    unfold UINT32_MAX. destruct (Z.ltb_spec (2 ^ 32 - 1) (zlen k)); [lia|done].
  - enough (app_bind x (add_checked_string (k ++ rest) (zlen k)) =
      app_bind x (add_argument (Some (k ++ rest)) (zlen k))) as -> by (by apply builds_add).
    unfold add_checked_string. destruct (Z.ltb_spec (zlen k) 0); [zl|].
    unfold UINT32_MAX. destruct (Z.ltb_spec (2 ^ 32 - 1) (zlen k)); [lia|].
    unfold memchr_nul. rewrite (slice_at [] k rest 0) by done. sbind.
    by rewrite (proj2 (no_nulb_spec k) Hk).
Qed.

(** A key with an embedded terminator is refused. *)
Lemma add_checked_string_nul key key_len l :
  0 <= key_len <= zlen key -> key_len < 2 ^ 31 -> ~ no_nul (take (Z.to_nat key_len) key) ->
  add_checked_string key key_len l = append_failure.
Proof.
  intros Hk Hl Hn. unfold add_checked_string, UINT32_MAX. destruct (Z.ltb_spec key_len 0); [lia|].
  destruct (Z.ltb_spec (2 ^ 32 - 1) key_len); [lia|]. unfold memchr_nul, slice.
  destruct (Z.leb_spec 0 key_len); [|lia]. destruct (Z.leb_spec (0 + key_len) (zlen key)); [|lia].
  cbn [Z.leb Z.compare andb]. sbind. change (Z.to_nat 0) with 0%nat. rewrite drop_0.
  destruct (no_nulb (take (Z.to_nat key_len) key)) eqn:E; [|done]. by apply no_nulb_spec in E.
Qed.

(** ** The copying loop *)

Lemma apply_loop_spec l p : args_are l p -> forall h b A R o data,
  bson_buffer h b = Some (A ++ R, o) -> o + data = zlen A -> zlen p <= zlen R ->
  0 <= b_len b -> b_len b + zlen p < 2 ^ 32 ->
  exists h' b', apply_loop l h b data = Some (h', b', data + zlen p) /\
    bson_buffer h' b' = Some (A ++ p ++ drop (length p) R, o) /\
    b_len b' = b_len b + zlen p /\ rewritten h b h' b'.
Proof.
  induction 1 as [|c rest l p Hl IH]; intros h b A R o data Hb Ho HR Hlen Hm.
  - exists h, b. cbn [apply_loop app length]. change (zlen (@nil byte)) with 0. rewrite !Z.add_0_r, drop_0.
    by split; [|split; [|split; [|apply rewritten_refl]]].
  - rewrite zlen_app in *. cbn [apply_loop a_bytes a_length].
    rewrite (slice_at [] c rest 0) by done. sbind.
    assert (HRs : R = take (length c) R ++ drop (length c) R) by (by rewrite take_drop).
    rewrite HRs in Hb.
    destruct (bson_store_spec h b A _ _ o data c Hb Ho) as (h1 & b1 & -> & Hb1 & Hl1 & Hr1).
    { unfold zlen in *. rewrite length_take. lia. }
    sbind. rewrite Hl1, u32_id by zl.
    destruct (IH h1 (set_len b1 (b_len b + zlen c)) (A ++ c) (drop (length c) R) o (data + zlen c))
      as (h2 & b2 & E & Hb2 & Hl2 & Hr2).
    { rewrite <- app_assoc. exact Hb1. } { zl. } { unfold zlen in *. rewrite length_drop. lia. } { cbn. zl. } { cbn. zl. }
    exists h2, b2. rewrite E. split; [do 2 f_equal; lia|]. cbn in *.
    split. { rewrite Hb2. rewrite <- !app_assoc, length_app, drop_drop. done. }
    split; [lia|]. eapply rewritten_trans; [exact Hr1|]. eapply rewritten_trans; [apply rewritten_len|exact Hr2].
Qed.

(** ** Growth and the whole append *)

Lemma flag_clear_test f g : flag_test (flag_clear f g) g = false.
Proof.
  unfold flag_test, flag_clear. apply negb_false_iff, Z.eqb_eq. apply Z.bits_inj'. intros n _.
  rewrite Z.land_spec, Z.ldiff_spec, Z.bits_0. destruct (Z.testbit f n), (Z.testbit g n); done.
Qed.

Lemma flag_clear_idem f g : flag_clear (flag_clear f g) g = flag_clear f g.
Proof.
  unfold flag_clear. apply Z.bits_inj'. intros n _. rewrite !Z.ldiff_spec.
  destruct (Z.testbit f n), (Z.testbit g n); done.
Qed.

Section Apply.
Context (malloc : Z -> bytes).
Hypothesis Hmalloc : forall n, 0 <= n -> zlen (malloc n) = n.

(** Whether a document with this buffer can take [n] more bytes. *)
Definition fits (h : heap) (b : bson_t) (n : Z) : bool :=
  (b_len b + n <=? BSON_MAX_SIZE) &&
  (is_inline b ||
   let req := b_offset b + b_len b + n + b_depth b in
   let buflen := match h_cells h !! b_buf b with Some m => zlen m | None => 0 end in
   (req <=? buflen) || ((req <=? BSON_MAX_SIZE) && b_realloc b)).

(** After growing there is room for [n] bytes and the trailing bytes of the
    parents; nothing else changes. *)
Definition grown h b pre d n h' b' : Prop :=
  exists tail', stored h' b' pre d tail' /\
    n + (if is_inline b' then 0 else b_depth b') <= zlen tail' /\ heap_frame h h' b' /\
    flag_clear (b_flags b') BSON_FLAG_INLINE = flag_clear (b_flags b) BSON_FLAG_INLINE /\
    (is_inline b = false -> b_buf b' = b_buf b /\ b_realloc b' = b_realloc b /\ b_depth b' = b_depth b /\
       is_inline b' = false) /\
    (is_inline b = true -> is_inline b' = false -> b_realloc b' = true /\ b_depth b' = 0 /\
       (h_next h <= b_buf b')%nat).

(** Growing that leaves everything as it was. *)
Lemma grown_same h b pre d tail n :
  stored h b pre d tail -> n + (if is_inline b then 0 else b_depth b) <= zlen tail -> grown h b pre d n h b.
Proof.
  intros Hst Hn. exists tail. split; [done|]. split; [done|]. split; [apply heap_frame_refl|]. split; [done|].
  split; [done|]. congruence.
Qed.

(** Growing that allocates for an inline document. *)
Lemma inline_grow_spec h b pre d tail n :
  stored h b pre d tail -> is_inline b = true -> 0 <= n -> b_len b + n <= BSON_MAX_SIZE ->
  exists h' b', _bson_impl_inline_grow malloc h b n = Some (true, h', b') /\ grown h b pre d n h' b'.
Proof.
  intros Hst Ei Hn Hln. pose proof Hst as (Hl & Hm & Hb & Hi). rewrite Ei in Hi. destruct Hi as [-> Hz].
  unfold bson_buffer in Hb. rewrite Ei in Hb.
  assert (Hb' : b_data b = [] ++ enc_doc d ++ tail) by congruence. clear Hb. rename Hb' into Hb.
  assert (5 <= zlen (enc_doc d)) by (rewrite zlen_enc_doc; zl).
  rewrite app_nil_l in Hb. unfold _bson_impl_inline_grow. unfold BSON_INLINE_DATA_SIZE in *.
  destruct (Z.leb_spec (b_len b + n) 120) as [Hs|Hs].
  { exists h, b. split; [done|]. apply (grown_same _ _ _ _ tail); [done|]. rewrite Ei. zl. }
  pose proof (round_up_bounds (b_len b + n) ltac:(lia)) as Hr.
  set (req := _bson_round_up_alloc_size (b_len b + n)) in *.
  destruct (Z.leb_spec req BSON_MAX_SIZE); [|lia]. rewrite Hb, Hl. rewrite slice_at_end_0 by done. sbind.
  destruct (fresh_split malloc Hmalloc req (zlen (enc_doc d))) as (old & junk & Em & Ho & Hj); [lia|].
  rewrite Em. rewrite store_at_0 by done. sbind. cbn [heap_alloc].
  eexists _, _. split; [done|]. exists junk.
  assert (Hni : forall f l da de bu o al r, is_inline (Bson (flag_clear f BSON_FLAG_INLINE) l da de bu o al r) = false)
    by (intros; apply flag_clear_test).
  split; [|split; [rewrite Hni; cbn; lia|split; [|split; [apply flag_clear_idem|split; [congruence|done]]]]].
  - unfold stored, bson_buffer. rewrite Hni. cbn. rewrite lookup_insert_eq. sbind.
    split_and!; try done; try lia. rewrite zlen_app. lia.
  - split; [|split; [cbn; lia|apply sizes_grow_alloc]].
    intros c [Hc|Hc]; [by rewrite Hni in Hc|]. cbn in *. by rewrite lookup_insert_ne.
Qed.

(** Growing that reallocates the buffer of a heap document. *)
Lemma realloc_grow_spec h b pre d tail n req :
  stored h b pre d tail -> is_inline b = false ->
  zlen (pre ++ enc_doc d ++ tail) <= req -> zlen pre + zlen (enc_doc d) + n + b_depth b <= req ->
  req <= BSON_MAX_SIZE -> (exists q, 1 < q <= BSON_MAX_SIZE /\ req = _bson_round_up_alloc_size q) ->
  grown h b pre d n (heap_set h (b_buf b) (realloc malloc (pre ++ enc_doc d ++ tail) req)) b.
Proof.
  intros (Hl & Hm & Hb & Hi) Ei Hz Hreq Hq Hpol. rewrite Ei in Hi. destruct Hi as [Hd _].
  assert (Ho : b_offset b = zlen pre).
  { unfold bson_buffer in Hb. rewrite Ei in Hb. destruct (h_cells h !! b_buf b); [|done].
    cbn [mbind option_bind] in Hb. congruence. }
  destruct (zlen_realloc malloc Hmalloc (pre ++ enc_doc d ++ tail) req) as (junk & Ej & Hj); [lia|].
  exists (tail ++ junk). rewrite Ej, Ei. rewrite !zlen_app in *.
  split; [|split; [lia|split; [|split; [done|split; [done|congruence]]]]].
  - unfold stored, bson_buffer. rewrite Ei. cbn. rewrite lookup_insert_eq. sbind.
    rewrite Ho, <- !app_assoc. split_and!; try done; rewrite ?zlen_app; lia.
  - split; [|split; [cbn; lia|]]; [intros c [Hc|Hc]; [congruence|]; cbn; by rewrite lookup_insert_ne|].
    apply (sizes_grow_set h _ (pre ++ enc_doc d ++ tail)); [|right; split; [rewrite !zlen_app; lia|]].
    2: { destruct Hpol as (q & Hq0 & Eq). exists q. split; [done|]. rewrite <- Eq, !zlen_app. lia. }
    unfold bson_buffer in Hb. rewrite Ei in Hb. by destruct (h_cells h !! b_buf b); simplify_eq/=.
Qed.

Lemma alloc_grow_spec h b pre d tail n :
  stored h b pre d tail -> is_inline b = false -> 0 <= n -> b_len b + n <= BSON_MAX_SIZE ->
  exists h' b', _bson_impl_alloc_grow malloc h b n = Some (fits h b n, h', b') /\
    if fits h b n then grown h b pre d n h' b' else h' = h /\ b' = b.
Proof.
  intros Hst Ei Hn Hln. pose proof Hst as (Hl & Hm & Hb & Hi). rewrite Ei in Hi. destruct Hi as [Hd Hz].
  unfold bson_buffer in Hb. rewrite Ei in Hb. destruct (h_cells h !! b_buf b) as [buf|] eqn:Ec; [|done].
  cbn [mbind option_bind] in Hb.
  assert (buf = pre ++ enc_doc d ++ tail) as -> by congruence. assert (Ho : b_offset b = zlen pre) by congruence.
  assert (5 <= zlen (enc_doc d)) by (rewrite zlen_enc_doc; zl).
  unfold _bson_impl_alloc_grow, fits. rewrite Ec, Ei. sbind. rewrite Ho, Hl.
  destruct (Z.leb_spec (zlen (enc_doc d) + n) BSON_MAX_SIZE); [|lia]. cbn [andb orb].
  set (req := zlen pre + zlen (enc_doc d) + n + b_depth b).
  destruct (Z.leb_spec req (zlen (pre ++ enc_doc d ++ tail))) as [Hs|Hs]; cbn [orb].
  { exists h, b. split; [done|]. apply (grown_same _ _ _ _ tail); [done|]. rewrite Ei.
    rewrite !zlen_app in Hs. subst req. lia. }
  destruct (Z.leb_spec req BSON_MAX_SIZE) as [Hq|Hq]; cbn [andb].
  2: { rewrite round_up_above by done. destruct (Z.leb_spec req BSON_MAX_SIZE); [lia|]. by exists h, b. }
  pose proof (round_up_bounds req ltac:(subst req; zl)) as Hr.
  destruct (Z.leb_spec (_bson_round_up_alloc_size req) BSON_MAX_SIZE); [|lia]. cbn [andb].
  destruct (b_realloc b) eqn:Er; [|by exists h, b].
  eexists _, b. split; [done|]. apply realloc_grow_spec; [done|done|subst req; lia..|].
  exists req. split; [subst req; zl|done].
Qed.

Lemma grow_spec h b pre d tail n :
  stored h b pre d tail -> 0 <= n <= BSON_MAX_SIZE -> b_len b + n <= BSON_MAX_SIZE ->
  exists h' b', _bson_grow malloc h b n = Some (fits h b n, h', b') /\
    if fits h b n then grown h b pre d n h' b' else h' = h /\ b' = b.
Proof.
  intros Hst Hn Hln. unfold _bson_grow. destruct (Z.ltb_spec BSON_MAX_SIZE n); [lia|].
  destruct (is_inline b) eqn:Ei; [|apply (alloc_grow_spec h b pre d tail); (done || lia)].
  destruct (inline_grow_spec h b pre d tail n Hst Ei) as (h' & b' & -> & Hg); [lia..|].
  assert (fits h b n = true) as ->; [|by exists h', b'].
  unfold fits. rewrite Ei. destruct (Z.leb_spec (b_len b + n) BSON_MAX_SIZE); [done|lia].
Qed.

Lemma enc_doc_snoc d es : enc_doc (d ++ es) =
  le_bytes 4 (zlen (enc_doc d) + zlen (enc_elems es)) ++ enc_elems d ++ enc_elems es ++ [x00].
Proof.
  rewrite (enc_doc_eq (d ++ es)), zlen_enc_doc, enc_elems_app, zlen_app, <- app_assoc.
  do 2 f_equal. rewrite zlen_enc_doc. lia.
Qed.

(** Writing the payload, the new length and the terminator. *)
Lemma write_spec h b pre d tail l es :
  stored h b pre d tail -> b_len b + zlen (enc_elems es) <= BSON_MAX_SIZE ->
  args_are l (enc_elems es) ->
  zlen (enc_elems es) + (if is_inline b then 0 else b_depth b) <= zlen tail ->
  exists h' b' tail',
    ('(h, b, data) ← apply_loop l h b (b_len b - 1);
     '(h, b) ← _bson_encode_length h b;
     '(h, b) ← bson_store h b data [x00];
     Some (true, h, b)) = Some (true, h', b') /\
    stored h' b' pre (d ++ es) tail' /\ rewritten h b h' b'.
Proof.
  intros Hst Hsz Ha Hroom. pose proof Hst as (Hl & Hm & Hb & _). set (p := enc_elems es) in *.
  set (A := pre ++ le_bytes 4 (zlen (enc_doc d)) ++ enc_elems d).
  assert (HzA : zlen pre + (b_len b - 1) = zlen A) by (subst A; rewrite Hl, zlen_enc_doc; zl).
  assert (Hp : 0 <= zlen p) by zl. assert (H5 : 5 <= zlen (enc_doc d)) by (rewrite zlen_enc_doc; zl).
  assert (Hroom' : zlen p <= zlen tail).
  { destruct Hst as (_ & _ & _ & Hi). destruct (is_inline b); lia. }
  rewrite enc_doc_app in Hb.
  replace (pre ++ le_bytes 4 (zlen (enc_doc d)) ++ enc_elems d ++ x00 :: tail)
    with (A ++ x00 :: tail) in Hb by (subst A; by rewrite <- !app_assoc).
  unfold BSON_MAX_SIZE in Hsz.
  destruct (apply_loop_spec l p Ha h b A (x00 :: tail) (zlen pre) (b_len b - 1) Hb HzA)
    as (h1 & b1 & -> & Hb1 & Hl1 & Hr1); [rewrite zlen_cons; lia|lia|lia|]. sbind.
  assert (exists r R, drop (length p) (x00 :: tail) = r :: R /\ zlen R = zlen tail - zlen p)
    as (r & R & ER & HR).
  { destruct (drop (length p) (x00 :: tail)) as [|r R] eqn:E; apply (f_equal length) in E;
      rewrite length_drop in E; unfold zlen in *; simpl in *; [lia|]. exists r, R. split; [done|]. lia. }
  rewrite ER in Hb1.
  replace (A ++ p ++ r :: R) with (pre ++ le_bytes 4 (zlen (enc_doc d)) ++ (enc_elems d ++ p ++ r :: R))
    in Hb1 by (subst A; by rewrite <- !app_assoc).
  destruct (encode_length_spec h1 b1 pre _ _ Hb1) as (h2 & b2 & -> & Hb2 & Hl2 & Hr2). sbind.
  set (A2 := pre ++ le_bytes 4 (b_len b1) ++ enc_elems d ++ p).
  replace (pre ++ le_bytes 4 (b_len b1) ++ enc_elems d ++ p ++ r :: R) with (A2 ++ [r] ++ R) in Hb2
    by (subst A2; by rewrite <- !app_assoc).
  destruct (bson_store_spec h2 b2 A2 [r] R (zlen pre) (b_len b - 1 + zlen p) [x00] Hb2)
    as (h3 & b3 & -> & Hb3 & Hl3 & Hr3); [subst A A2; zl|done|]. sbind.
  assert (Eb : A2 ++ [x00] ++ R = pre ++ enc_doc (d ++ es) ++ R).
  { subst A2. rewrite enc_doc_snoc, Hl1, Hl. fold p. by rewrite <- !app_assoc. }
  rewrite Eb in Hb3.
  assert (Hz : zlen (enc_doc (d ++ es)) = zlen (enc_doc d) + zlen p).
  { rewrite !zlen_enc_doc, enc_elems_app, zlen_app. fold p. lia. }
  assert (Hrw : rewritten h b h3 b3) by (eapply rewritten_trans; [exact Hr1|by eapply rewritten_trans]).
  exists h3, b3, R. split; [done|]. split; [|done].
  apply (rewritten_stored h b pre d tail); try done; rewrite ?zlen_app, ?Hz; unfold BSON_MAX_SIZE; try lia.
  intros Ei. rewrite Ei in Hroom. lia.
Qed.

(** The outcome of appending the elements [es] to the document: it succeeds
    exactly when they fit, and then the document is extended by them; a
    failure changes nothing. *)
Definition appends (h : heap) (b : bson_t) (pre : bytes) (d es : doc) (x : option bres) : Prop :=
  exists h' b', x = Some (fits h b (zlen (enc_elems es)), h', b') /\
    if fits h b (zlen (enc_elems es)) then exists tail', stored h' b' pre (d ++ es) tail' /\
      frame h b h' b' /\
      flag_clear (b_flags b') BSON_FLAG_INLINE = flag_clear (b_flags b) BSON_FLAG_INLINE /\
      (is_inline b = false -> b_buf b' = b_buf b /\ b_realloc b' = b_realloc b /\
         b_depth b' = b_depth b /\ is_inline b' = false) /\
      (is_inline b = true -> is_inline b' = false -> b_realloc b' = true /\ b_depth b' = 0)
    else h' = h /\ b' = b.

Lemma apply_arguments_spec h b pre d tail x es :
  stored h b pre d tail -> builds x (enc_elems es) ->
  appends h b pre d es (apply_arguments malloc h b x).
Proof.
  unfold appends. intros Hst Hx. unfold builds in Hx. set (p := enc_elems es) in *.
  assert (Hlp : 0 <= zlen p) by zl. pose proof Hst as (Hl & Hm & _).
  assert (Hno : forall n, BSON_MAX_SIZE < b_len b + n -> fits h b n = false).
  { intros n Hn. unfold fits. destruct (Z.leb_spec (b_len b + n) BSON_MAX_SIZE); [lia|done]. }
  destruct (Z.leb_spec (zlen p) BSON_MAX_SIZE).
  2: { subst x. cbn [apply_arguments]. rewrite Hno by (rewrite Hl, zlen_enc_doc; zl). by exists h, b. }
  destruct Hx as (l & -> & Ha & Hn). cbn [apply_arguments]. rewrite Hn.
  destruct (Z.ltb_spec (BSON_MAX_SIZE - b_len b) (zlen p)).
  { rewrite Hno by lia. by exists h, b. }
  destruct (grow_spec h b pre d tail (zlen p) Hst) as (h1 & b1 & -> & Hg); [lia|lia|]. sbind.
  destruct (fits h b (zlen p)); cbn [negb]; [|destruct Hg as [-> ->]; by exists h, b].
  destruct Hg as (tail1 & Hst1 & Hroom & Hfr1 & Hfl1 & Hk1 & Hk2).
  destruct (write_spec h1 b1 pre d tail1 (args l) es Hst1)
    as (h2 & b2 & tail2 & E & Hst2 & [Hi2 Hd2 Hc2 _ Hr2 Hf2 Hfr2]).
  { destruct Hst1 as (Hl1 & _). fold p. lia. } { exact Ha. } { fold p. lia. }
  rewrite E. exists h2, b2. split; [done|]. exists tail2. split; [done|]. split; [|split; [congruence|split]].
  - destruct Hfr1 as (F1 & N1 & S1), Hfr2 as (F2 & N2 & S2). split_and!; [|lia| |by apply (sizes_grow_trans h h1)].
    + intros c Hc Hb. rewrite F2, F1; [done|..]; rewrite ?Hi2, ?Hc2;
        (destruct (is_inline b1) eqn:E1; [by left|right]); destruct (is_inline b) eqn:E0.
      1, 3: destruct Hk2 as (_ & _ & ?); [done|done|lia].
      all: destruct (Hk1 eq_refl) as (-> & _), Hb as [?|?]; done.
    + rewrite Hi2, Hc2. intros E1. destruct (is_inline b) eqn:E0; [right; by apply Hk2|left].
      split; [done|]. by apply Hk1.
  - intros Hi. destruct (Hk1 Hi) as (? & ? & ? & ?). split_and!; congruence.
  - intros Hi Hi2'. destruct Hk2 as (? & ? & _); [done|congruence|]. split; congruence.
Qed.
End Apply.
