(* ===== verification/BsonAppend.v ===== *)
(** The typed appenders of [bson/bson.c]: one function per value type, the
    open child documents, copying from an iterator or a boxed value,
    concatenation and the array builder.

    A [const bson_t *] argument is read only through its data and its length,
    and is passed as these two. *)

From Stdlib Require Import Strings.String.
From S2P Require Import Prelude CString Text CommonString IntEncode BsonTypes BsonIter BsonSpec.
From S2P Require Import BsonView BsonT BsonKeys.

Notation "x &> f" := (app_bind x f) (at level 50, left associativity) : clib_scope.
Local Open Scope clib_scope.

(** [struct bson_array_builder_t] *)
Record bson_array_builder_t := ArrayBuilder { bab_index : Z; bab_bson : bson_t }.

Definition BSON_REGEX_OPTIONS_SORTED : bytes := lit "ilmsux".

Section Append.
Context (malloc : Z -> bytes).

Definition gZero : bytes := [x00].

(** The arguments every field starts with: its type, its key and the key's
    terminator. *)
Definition field_args (type : bson_type_t) (key : bytes) (key_length : Z) : append_res append_list :=
  add_argument (Some [z2b (type_code type)]) 1 append_nil
    &> add_checked_string key key_length &> add_argument (Some gZero) 1.

(** ** Child documents *)

(** The child is [None] when the function returns false. *)
Definition _bson_append_bson_begin (h : heap) (b : bson_t) (key : bytes) (key_length : Z)
    (child_type : bson_type_t) : option (heap * bson_t * option bson_t) :=
  if flag_test (b_flags b) BSON_FLAG_RDONLY || flag_test (b_flags b) BSON_FLAG_IN_CHILD ||
     negb (bool_decide (child_type = BSON_TYPE_DOCUMENT) || bool_decide (child_type = BSON_TYPE_ARRAY))
  then None else
  match field_args child_type key key_length with
  | None => None
  | Some None => Some (h, b, None)
  | Some (Some args) =>
      '(grown, h, b) ←
        (if is_inline b
         then if b_len b <=? 120 then _bson_grow malloc h b (128 - b_len b) else None
         else Some (true, h, b));
      if negb grown then Some (h, b, None) else
      if is_inline b then None else
      '(ok, h, b) ← apply_arguments malloc h b (add_argument (Some empty_doc) 5 args);
      if negb ok then Some (h, b, None) else
      let b := set_flags b (flag_add (b_flags b) BSON_FLAG_IN_CHILD) in
      let depth := if flag_test (b_flags b) BSON_FLAG_CHILD then u32 (b_depth b + 1) else 1 in
      Some (h, b, Some
        (Bson (flag_add (flag_add BSON_FLAG_CHILD BSON_FLAG_NO_FREE) BSON_FLAG_STATIC) 5 [] depth
           (b_buf b) (b_offset b + b_len b - 1 - 5) None (b_realloc b)))
  end.

Definition _bson_append_bson_end (h : heap) (b child : bson_t) : option (heap * bson_t) :=
  if negb (flag_test (b_flags b) BSON_FLAG_IN_CHILD) || flag_test (b_flags child) BSON_FLAG_IN_CHILD
  then None else
  let b := set_flags b (flag_clear (b_flags b) BSON_FLAG_IN_CHILD) in
  let b := set_len b (u32 (b_len b + b_len child - 5)) in
  '(h, b) ← bson_store h b (b_len b - 1) [x00];
  _bson_encode_length h b.

Definition bson_append_array_begin (h : heap) (b : bson_t) (key : bytes) (key_length : Z) :=
  _bson_append_bson_begin h b key key_length BSON_TYPE_ARRAY.
Definition bson_append_array_end (h : heap) (b child : bson_t) := _bson_append_bson_end h b child.
Definition bson_append_document_begin (h : heap) (b : bson_t) (key : bytes) (key_length : Z) :=
  _bson_append_bson_begin h b key key_length BSON_TYPE_DOCUMENT.
Definition bson_append_document_end (h : heap) (b child : bson_t) := _bson_append_bson_end h b child.

(** ** One function per type *)

(** Whether the warning about the first key of the array is printed. *)
Definition invalid_array_warning (array : bytes) (len : Z) : option bool :=
  empty ← bson_empty array len;
  if (empty : bool) then Some false else
  let '(ok, iter) := bson_iter_init array len in
  if negb ok then Some false else
  '(ok, iter) ← bson_iter_next iter;
  if negb ok then Some false else
  key ← bson_iter_key iter;
  c ← strcmp (lit "0") key; Some (negb (0 =? c)).

Definition bson_append_array (h : heap) (b : bson_t) (key : bytes) (key_length : Z)
    (array : bytes) (array_len : Z) : option bres :=
  match field_args BSON_TYPE_ARRAY key key_length with
  | None => None
  | Some None => Some (false, h, b)
  | Some (Some args) =>
      _ ← invalid_array_warning array array_len;
      apply_arguments malloc h b (add_argument (Some array) array_len args)
  end.

Definition _bson_append_binary (h : heap) (b : bson_t) (key : bytes) (key_length : Z)
    (subtype : Z) (binary : option bytes) (length : Z) : option bres :=
  match field_args BSON_TYPE_BINARY key key_length with
  | None => None
  | Some None => Some (false, h, b)
  | Some (Some args) =>
      let subtype_arg := [z2b subtype] in
      if subtype =? BSON_SUBTYPE_BINARY_DEPRECATED then
        if UINT32_MAX - 4 <? length then Some (false, h, b) else
        apply_arguments malloc h b
          (add_argument (Some (le_bytes 4 (u32 (length + 4)))) 4 args
            &> add_argument (Some subtype_arg) 1
            &> add_argument (Some (le_bytes 4 length)) 4
            &> add_argument binary length)
      else
        apply_arguments malloc h b
          (add_argument (Some (le_bytes 4 length)) 4 args
            &> add_argument (Some subtype_arg) 1
            &> add_argument binary length)
  end.

Definition bson_append_binary (h : heap) (b : bson_t) (key : bytes) (key_length : Z)
    (subtype : Z) (binary : option bytes) (length : Z) : option bres :=
  match binary with
  | None => if 0 <? length then Some (false, h, b)
            else _bson_append_binary h b key key_length subtype binary length
  | Some _ => _bson_append_binary h b key key_length subtype binary length
  end.

(** The offset of [*binary] in the document's data. *)
Definition bson_append_binary_uninit (h : heap) (b : bson_t) (key : bytes) (key_length : Z)
    (subtype : Z) (length : Z) : option (bool * heap * bson_t * Z) :=
  '(ok, h, b) ← _bson_append_binary h b key key_length subtype None length;
  if (ok : bool) then Some (true, h, b, b_len b - 1 - length) else Some (false, h, b, 0).

Definition bson_append_bool (h : heap) (b : bson_t) (key : bytes) (key_length : Z) (value : bool) :
    option bres :=
  apply_arguments malloc h b
    (field_args BSON_TYPE_BOOL key key_length &> add_argument (Some [z2b (if value then 1 else 0)]) 1).

Definition bson_append_code (h : heap) (b : bson_t) (key : bytes) (key_length : Z)
    (javascript : bytes) : option bres :=
  zulength ← strlen javascript;
  if UINT32_MAX - 1 <? zulength then Some (false, h, b) else
  let length := u32 (zulength + 1) in
  apply_arguments malloc h b
    (field_args BSON_TYPE_CODE key key_length
      &> add_argument (Some (le_bytes 4 length)) 4
      &> add_argument (Some javascript) length).

Definition bson_append_code_with_scope (h : heap) (b : bson_t) (key : bytes) (key_length : Z)
    (javascript : bytes) (scope : option (bytes * Z)) : option bres :=
  match scope with
  | None => bson_append_code h b key key_length javascript
  | Some (scope_data, scope_len) =>
      zulength ← strlen javascript;
      if UINT32_MAX - 1 <? zulength then Some (false, h, b) else
      let js_length := u32 (zulength + 1) in
      if UINT32_MAX - scope_len <? js_length then Some (false, h, b) else
      if UINT32_MAX - 2 * 4 <? js_length + scope_len then Some (false, h, b) else
      let total_length := u32 (2 * 4 + js_length + scope_len) in
      apply_arguments malloc h b
        (field_args BSON_TYPE_CODEWSCOPE key key_length
          &> add_argument (Some (le_bytes 4 total_length)) 4
          &> add_argument (Some (le_bytes 4 js_length)) 4
          &> add_argument (Some javascript) js_length
          &> add_argument (Some scope_data) scope_len)
  end.

Definition bson_append_dbpointer (h : heap) (b : bson_t) (key : bytes) (key_length : Z)
    (collection oid : bytes) : option bres :=
  zulength ← strlen collection;
  if UINT32_MAX - 1 <? zulength then Some (false, h, b) else
  let length := u32 (zulength + 1) in
  apply_arguments malloc h b
    (field_args BSON_TYPE_DBPOINTER key key_length
      &> add_argument (Some (le_bytes 4 length)) 4
      &> add_argument (Some collection) length
      &> add_argument (Some oid) 12).

Definition bson_append_document (h : heap) (b : bson_t) (key : bytes) (key_length : Z)
    (value : bytes) (value_len : Z) : option bres :=
  apply_arguments malloc h b
    (field_args BSON_TYPE_DOCUMENT key key_length &> add_argument (Some value) value_len).

(** [value] is the bit pattern. *)
Definition bson_append_double (h : heap) (b : bson_t) (key : bytes) (key_length : Z) (value : Z) :
    option bres :=
  apply_arguments malloc h b
    (field_args BSON_TYPE_DOUBLE key key_length &> add_argument (Some (le_bytes 8 value)) 8).

Definition bson_append_int32 (h : heap) (b : bson_t) (key : bytes) (key_length : Z) (value : Z) :
    option bres :=
  apply_arguments malloc h b
    (field_args BSON_TYPE_INT32 key key_length &> add_argument (Some (le_bytes 4 (u32 value))) 4).

Definition bson_append_int64 (h : heap) (b : bson_t) (key : bytes) (key_length : Z) (value : Z) :
    option bres :=
  apply_arguments malloc h b
    (field_args BSON_TYPE_INT64 key key_length &> add_argument (Some (le_bytes 8 (u64 value))) 8).

Definition bson_append_decimal128 (h : heap) (b : bson_t) (key : bytes) (key_length : Z)
    (low high : Z) : option bres :=
  let value_arg := le_bytes 8 low ++ le_bytes 8 high in
  apply_arguments malloc h b
    (field_args BSON_TYPE_DECIMAL128 key key_length &> add_argument (Some value_arg) 16).

Definition bson_append_maxkey (h : heap) (b : bson_t) (key : bytes) (key_length : Z) : option bres :=
  apply_arguments malloc h b (field_args BSON_TYPE_MAXKEY key key_length).
Definition bson_append_minkey (h : heap) (b : bson_t) (key : bytes) (key_length : Z) : option bres :=
  apply_arguments malloc h b (field_args BSON_TYPE_MINKEY key key_length).
Definition bson_append_null (h : heap) (b : bson_t) (key : bytes) (key_length : Z) : option bres :=
  apply_arguments malloc h b (field_args BSON_TYPE_NULL key key_length).
Definition bson_append_undefined (h : heap) (b : bson_t) (key : bytes) (key_length : Z) :
    option bres :=
  apply_arguments malloc h b (field_args BSON_TYPE_UNDEFINED key key_length).

Definition bson_append_oid (h : heap) (b : bson_t) (key : bytes) (key_length : Z) (value : bytes) :
    option bres :=
  apply_arguments malloc h b
    (field_args BSON_TYPE_OID key key_length &> add_argument (Some value) 12).

Definition bson_append_regex_w_len (h : heap) (b : bson_t) (key : bytes) (key_length : Z)
    (regex : option bytes) (regex_length : Z) (options : option bytes) : option bres :=
  let regex := default [x00] regex in
  let options := default [x00] options in
  options_len ← strlen options;
  options_sorted ← mcommon_string_new_with_capacity_as_append malloc (u32 options_len);
  '(ok, options_sorted) ← mcommon_string_append_selected_chars malloc options_sorted
    BSON_REGEX_OPTIONS_SORTED options options_len;
  if negb ok then Some (false, h, b) else
  apply_arguments malloc h b
    (field_args BSON_TYPE_REGEX key key_length
      &> add_checked_string regex regex_length
      &> add_argument (Some gZero) 1
      &> add_argument (Some (mcommon_str_from_append options_sorted))
           (u32 (1 + mcommon_strlen_from_append options_sorted))).

Definition bson_append_regex (h : heap) (b : bson_t) (key : bytes) (key_length : Z)
    (regex options : option bytes) : option bres :=
  bson_append_regex_w_len h b key key_length regex (-1) options.

Definition bson_append_utf8 (h : heap) (b : bson_t) (key : bytes) (key_length : Z)
    (value : option bytes) (length : Z) : option bres :=
  match value with
  | None => bson_append_null h b key key_length
  | Some value =>
      zulength ← (if length <? 0 then strlen value else Some length);
      if UINT32_MAX - 1 <? zulength then Some (false, h, b) else
      let ulength := u32 zulength in
      apply_arguments malloc h b
        (field_args BSON_TYPE_UTF8 key key_length
          &> add_argument (Some (le_bytes 4 (u32 (ulength + 1)))) 4
          &> add_argument (Some value) ulength
          &> add_argument (Some gZero) 1)
  end.

Definition bson_append_symbol (h : heap) (b : bson_t) (key : bytes) (key_length : Z)
    (value : option bytes) (length : Z) : option bres :=
  match value with
  | None => bson_append_null h b key key_length
  | Some value =>
      zulength ← (if length <? 0 then strlen value else Some length);
      if UINT32_MAX - 1 <? zulength then Some (false, h, b) else
      let ulength := u32 zulength in
      apply_arguments malloc h b
        (field_args BSON_TYPE_SYMBOL key key_length
          &> add_argument (Some (le_bytes 4 (u32 (ulength + 1)))) 4
          &> add_argument (Some value) ulength
          &> add_argument (Some gZero) 1)
  end.

Definition bson_append_timestamp (h : heap) (b : bson_t) (key : bytes) (key_length : Z)
    (timestamp increment : Z) : option bres :=
  let value := Z.lor (Z.shiftl timestamp 32) increment in
  apply_arguments malloc h b
    (field_args BSON_TYPE_TIMESTAMP key key_length &> add_argument (Some (le_bytes 8 value)) 8).

Definition bson_append_date_time (h : heap) (b : bson_t) (key : bytes) (key_length : Z) (value : Z) :
    option bres :=
  apply_arguments malloc h b
    (field_args BSON_TYPE_DATE_TIME key key_length &> add_argument (Some (le_bytes 8 (u64 value))) 8).

(** [tv_usec / 1000UL] converts the microseconds to [unsigned long] first. *)
Definition bson_append_timeval (h : heap) (b : bson_t) (key : bytes) (key_length : Z)
    (tv_sec tv_usec : Z) : option bres :=
  let unix_msec := u64 (u64 tv_sec * 1000 + u64 tv_usec / 1000) in
  bson_append_date_time h b key key_length (s64 unix_msec).

Definition bson_append_time_t (h : heap) (b : bson_t) (key : bytes) (key_length : Z) (value : Z) :
    option bres :=
  bson_append_timeval h b key key_length value 0.

(** [now] is what [time (NULL)] returns. *)
Definition bson_append_now_utc (h : heap) (b : bson_t) (key : bytes) (key_length : Z) (now : Z) :
    option bres :=
  if -1 <=? key_length then bson_append_time_t h b key key_length now else None.

(** ** Boxed values and iterators *)

(** [bson_init_static (&local, data, len)] and, when it succeeds, [f] on the
    view. *)
Definition with_static (h : heap) (b : bson_t) (data : option bytes) (len : Z)
    (f : bytes -> Z -> option bres) : option bres :=
  data ← data;
  ok ← bson_init_static data len;
  if (ok : bool) then f data len else Some (false, h, b).

Definition bson_append_value (h : heap) (b : bson_t) (key : bytes) (key_length : Z)
    (value : bson_value_t) : option bres :=
  match value with
  | v_double bits => bson_append_double h b key key_length bits
  | v_utf8 str len => bson_append_utf8 h b key key_length str (s32 len)
  | v_doc data data_len => with_static h b data data_len (bson_append_document h b key key_length)
  | v_array data data_len => with_static h b data data_len (bson_append_array h b key key_length)
  | v_binary subtype data data_len =>
      bson_append_binary h b key key_length subtype data data_len
  | v_undefined => bson_append_undefined h b key key_length
  | v_oid oid => bson_append_oid h b key key_length oid
  | v_bool v => bson_append_bool h b key key_length v
  | v_datetime v => bson_append_date_time h b key key_length v
  | v_null => bson_append_null h b key key_length
  | v_regex regex options => bson_append_regex h b key key_length regex options
  | v_dbpointer collection _ oid =>
      collection ← collection; bson_append_dbpointer h b key key_length collection oid
  | v_code code _ => code ← code; bson_append_code h b key key_length code
  | v_symbol symbol len => bson_append_symbol h b key key_length symbol (s32 len)
  | v_codewscope code _ scope_data scope_len =>
      with_static h b scope_data scope_len (fun data len =>
        code ← code;
        bson_append_code_with_scope h b key key_length code (Some (data, len)))
  | v_int32 v => bson_append_int32 h b key key_length v
  | v_timestamp t i => bson_append_timestamp h b key key_length t i
  | v_int64 v => bson_append_int64 h b key key_length v
  | v_decimal128 low high => bson_append_decimal128 h b key key_length low high
  | v_maxkey => bson_append_maxkey h b key key_length
  | v_minkey => bson_append_minkey h b key key_length
  end.

Definition bson_append_iter (h : heap) (b : bson_t) (key : option bytes) (key_length : Z)
    (iter : bson_iter_t) : option bres :=
  '(key, key_length) ←
    match key with
    | Some key => Some (key, key_length)
    | None => key ← bson_iter_key iter; Some (key, -1)
    end;
  ty ← bson_iter_type_unsafe iter;
  match type_of_code ty with
  | Some BSON_TYPE_DOUBLE =>
      v ← bson_iter_double iter; bson_append_double h b key key_length v
  | Some BSON_TYPE_UTF8 =>
      '(str, len) ← bson_iter_utf8 iter; bson_append_utf8 h b key key_length str (s32 len)
  | Some BSON_TYPE_DOCUMENT =>
      '(len, buf) ← bson_iter_document iter;
      with_static h b buf len (bson_append_document h b key key_length)
  | Some BSON_TYPE_ARRAY =>
      '(len, buf) ← bson_iter_array iter;
      with_static h b buf len (bson_append_array h b key key_length)
  | Some BSON_TYPE_BINARY =>
      '(subtype, len, binary) ← bson_iter_binary iter true;
      bson_append_binary h b key key_length subtype binary len
  | Some BSON_TYPE_UNDEFINED => bson_append_undefined h b key key_length
  | Some BSON_TYPE_OID =>
      oid ← bson_iter_oid iter; oid ← oid; bson_append_oid h b key key_length oid
  | Some BSON_TYPE_BOOL => v ← bson_iter_bool iter; bson_append_bool h b key key_length v
  | Some BSON_TYPE_DATE_TIME =>
      v ← bson_iter_date_time iter; bson_append_date_time h b key key_length v
  | Some BSON_TYPE_NULL => bson_append_null h b key key_length
  | Some BSON_TYPE_REGEX =>
      '(regex, options) ← bson_iter_regex iter;
      bson_append_regex h b key key_length regex options
  | Some BSON_TYPE_DBPOINTER =>
      '(_, collection, oid) ← bson_iter_dbpointer iter;
      collection ← collection; oid ← oid;
      bson_append_dbpointer h b key key_length collection oid
  | Some BSON_TYPE_CODE =>
      '(code, _) ← bson_iter_code iter;
      code ← code; bson_append_code h b key key_length code
  | Some BSON_TYPE_SYMBOL =>
      '(symbol, len) ← bson_iter_symbol iter;
      bson_append_symbol h b key key_length symbol (s32 len)
  | Some BSON_TYPE_CODEWSCOPE =>
      '(javascript, _, scope_len, scope) ← bson_iter_codewscope iter;
      with_static h b scope scope_len (fun data len =>
        code ← javascript;
        bson_append_code_with_scope h b key key_length code (Some (data, len)))
  | Some BSON_TYPE_INT32 => v ← bson_iter_int32 iter; bson_append_int32 h b key key_length v
  | Some BSON_TYPE_TIMESTAMP =>
      '(ts, inc) ← bson_iter_timestamp iter; bson_append_timestamp h b key key_length ts inc
  | Some BSON_TYPE_INT64 => v ← bson_iter_int64 iter; bson_append_int64 h b key key_length v
  | Some BSON_TYPE_DECIMAL128 =>
      dec ← bson_iter_decimal128 iter;
      match dec with
      | None => Some (false, h, b)
      | Some (low, high) => bson_append_decimal128 h b key key_length low high
      end
  | Some BSON_TYPE_MAXKEY => bson_append_maxkey h b key key_length
  | Some BSON_TYPE_MINKEY => bson_append_minkey h b key key_length
  | Some BSON_TYPE_EOD | None => Some (false, h, b)
  end.

(** ** Whole documents *)

Definition bson_concat (h : heap) (dst : bson_t) (src : bytes) (src_len : Z) : option bres :=
  empty ← bson_empty src src_len;
  if (empty : bool) then Some (true, h, dst) else
  p ← padd src 4;
  apply_arguments malloc h dst (add_argument (Some p) (u32 (src_len - 5)) append_nil).

(** The excluded names: [first_exclude] and those up to the [NULL]. *)
Fixpoint should_ignore (exclude : list bytes) (name : bytes) : option bool :=
  match exclude with
  | [] => Some false
  | x :: exclude' =>
      c ← strcmp name x; if c =? 0 then Some true else should_ignore exclude' name
  end.

(** A failed append is [BSON_ASSERT (false)]. *)
Fixpoint copy_excluding_loop (fuel : nat) (h : heap) (dst : bson_t) (iter : bson_iter_t)
    (exclude : list bytes) : option (heap * bson_t) :=
  match fuel with
  | O => None
  | S fuel' =>
      '(ok, iter) ← bson_iter_next iter;
      if negb ok then Some (h, dst) else
      key ← bson_iter_key iter;
      ignore ← should_ignore exclude key;
      if (ignore : bool) then copy_excluding_loop fuel' h dst iter exclude else
      '(ok, h, dst) ← bson_append_iter h dst None 0 iter;
      if (ok : bool) then copy_excluding_loop fuel' h dst iter exclude else None
  end.

Definition bson_copy_to_excluding_noinit_va (h : heap) (src : bytes) (src_len : Z) (dst : bson_t)
    (exclude : list bytes) : option (heap * bson_t) :=
  let '(ok, iter) := bson_iter_init src src_len in
  if (ok : bool) then copy_excluding_loop (iter_fuel iter) h dst iter exclude else Some (h, dst).

Definition bson_copy_to_excluding_noinit := bson_copy_to_excluding_noinit_va.
End Append.

(** ** The array builder *)

Section ArrayBuilder.
Context (malloc : Z -> bytes).
Implicit Types (h : heap) (bab : bson_array_builder_t).

Definition bson_array_builder_new : bson_array_builder_t :=
  ArrayBuilder 0 (bson_init (replicate (Z.to_nat BSON_INLINE_DATA_SIZE) x00)).

(** The next key; [buf] is the uninitialised local of 16 bytes. *)
Definition builder_key (bab : bson_array_builder_t) : option (bytes * Z) :=
  '(key_length, key) ← bson_uint32_to_string (bab_index bab) (malloc 16) 16;
  if key_length <? 16 then Some (key, key_length) else None.

(** [bson_array_builder_append_impl] *)
Definition bson_array_builder_append_impl
    (append_fn : heap -> bson_t -> bytes -> Z -> option bres) (h : heap)
    (bab : bson_array_builder_t) : option (bool * heap * bson_array_builder_t) :=
  '(key, key_length) ← builder_key bab;
  '(ok, h, b) ← append_fn h (bab_bson bab) key key_length;
  Some (ok, h, ArrayBuilder (if (ok : bool) then u32 (bab_index bab + 1) else bab_index bab) b).

Definition builder_append_begin
    (begin_fn : heap -> bson_t -> bytes -> Z -> option (heap * bson_t * option bson_t)) (h : heap)
    (bab : bson_array_builder_t) : option (heap * bson_array_builder_t * option bson_t) :=
  '(key, key_length) ← builder_key bab;
  '(h, b, child) ← begin_fn h (bab_bson bab) key key_length;
  Some (h, ArrayBuilder (match child with Some _ => u32 (bab_index bab + 1) | None => bab_index bab end) b,
    child).

Definition bson_array_builder_append_value h bab value :=
  bson_array_builder_append_impl (fun h b k n => bson_append_value malloc h b k n value) h bab.
Definition bson_array_builder_append_array h bab array len :=
  bson_array_builder_append_impl (fun h b k n => bson_append_array malloc h b k n array len) h bab.
Definition bson_array_builder_append_binary h bab subtype binary length :=
  bson_array_builder_append_impl
    (fun h b k n => bson_append_binary malloc h b k n subtype binary length) h bab.
(** [binary] is an offset in the array's data. *)
Definition bson_array_builder_append_binary_uninit (h : heap) (bab : bson_array_builder_t) (subtype length : Z) :
    option (bool * heap * bson_array_builder_t * Z) :=
  '(key, key_length) ← builder_key bab;
  '(ok, h, b, binary) ← bson_append_binary_uninit malloc h (bab_bson bab) key key_length subtype length;
  Some (ok, h, ArrayBuilder (if (ok : bool) then u32 (bab_index bab + 1) else bab_index bab) b, binary).
Definition bson_array_builder_append_bool h bab value :=
  bson_array_builder_append_impl (fun h b k n => bson_append_bool malloc h b k n value) h bab.
Definition bson_array_builder_append_code h bab javascript :=
  bson_array_builder_append_impl (fun h b k n => bson_append_code malloc h b k n javascript) h bab.
Definition bson_array_builder_append_code_with_scope h bab javascript scope :=
  bson_array_builder_append_impl
    (fun h b k n => bson_append_code_with_scope malloc h b k n javascript scope) h bab.
Definition bson_array_builder_append_dbpointer h bab collection oid :=
  bson_array_builder_append_impl
    (fun h b k n => bson_append_dbpointer malloc h b k n collection oid) h bab.
Definition bson_array_builder_append_double h bab value :=
  bson_array_builder_append_impl (fun h b k n => bson_append_double malloc h b k n value) h bab.
Definition bson_array_builder_append_document h bab value len :=
  bson_array_builder_append_impl (fun h b k n => bson_append_document malloc h b k n value len) h bab.
Definition bson_array_builder_append_int32 h bab value :=
  bson_array_builder_append_impl (fun h b k n => bson_append_int32 malloc h b k n value) h bab.
Definition bson_array_builder_append_int64 h bab value :=
  bson_array_builder_append_impl (fun h b k n => bson_append_int64 malloc h b k n value) h bab.
Definition bson_array_builder_append_decimal128 h bab low high :=
  bson_array_builder_append_impl (fun h b k n => bson_append_decimal128 malloc h b k n low high) h bab.
Definition bson_array_builder_append_iter h bab iter :=
  bson_array_builder_append_impl (fun h b k n => bson_append_iter malloc h b (Some k) n iter) h bab.
Definition bson_array_builder_append_minkey h bab :=
  bson_array_builder_append_impl (bson_append_minkey malloc) h bab.
Definition bson_array_builder_append_maxkey h bab :=
  bson_array_builder_append_impl (bson_append_maxkey malloc) h bab.
Definition bson_array_builder_append_null h bab :=
  bson_array_builder_append_impl (bson_append_null malloc) h bab.
Definition bson_array_builder_append_oid h bab oid :=
  bson_array_builder_append_impl (fun h b k n => bson_append_oid malloc h b k n oid) h bab.
Definition bson_array_builder_append_regex h bab regex options :=
  bson_array_builder_append_impl (fun h b k n => bson_append_regex malloc h b k n regex options) h bab.
Definition bson_array_builder_append_regex_w_len h bab regex regex_length options :=
  bson_array_builder_append_impl
    (fun h b k n => bson_append_regex_w_len malloc h b k n regex regex_length options) h bab.
Definition bson_array_builder_append_utf8 h bab value length :=
  bson_array_builder_append_impl (fun h b k n => bson_append_utf8 malloc h b k n value length) h bab.
Definition bson_array_builder_append_symbol h bab value length :=
  bson_array_builder_append_impl (fun h b k n => bson_append_symbol malloc h b k n value length) h bab.
Definition bson_array_builder_append_time_t h bab value :=
  bson_array_builder_append_impl (fun h b k n => bson_append_time_t malloc h b k n value) h bab.
Definition bson_array_builder_append_timeval h bab tv_sec tv_usec :=
  bson_array_builder_append_impl
    (fun h b k n => bson_append_timeval malloc h b k n tv_sec tv_usec) h bab.
Definition bson_array_builder_append_date_time h bab value :=
  bson_array_builder_append_impl (fun h b k n => bson_append_date_time malloc h b k n value) h bab.
Definition bson_array_builder_append_now_utc h bab now :=
  bson_array_builder_append_impl (fun h b k n => bson_append_now_utc malloc h b k n now) h bab.
Definition bson_array_builder_append_timestamp h bab timestamp increment :=
  bson_array_builder_append_impl
    (fun h b k n => bson_append_timestamp malloc h b k n timestamp increment) h bab.
Definition bson_array_builder_append_undefined h bab :=
  bson_array_builder_append_impl (bson_append_undefined malloc) h bab.

Definition bson_array_builder_append_document_begin h bab :=
  builder_append_begin (bson_append_document_begin malloc) h bab.

Definition bson_array_builder_append_document_end (h : heap) (bab : bson_array_builder_t)
    (child : bson_t) : option (heap * bson_array_builder_t) :=
  '(h, b) ← bson_append_document_end h (bab_bson bab) child;
  Some (h, ArrayBuilder (bab_index bab) b).

(** The child builder is new, its document the child. *)
Definition bson_append_array_builder_begin (h : heap) (b : bson_t) (key : bytes) (key_length : Z) :
    option (heap * bson_t * option bson_array_builder_t) :=
  '(h, b, child) ← bson_append_array_begin malloc h b key key_length;
  Some (h, b, option_map (ArrayBuilder 0) child).

(** The child's buffer belongs to the parent, so that destroying it frees
    nothing. *)
Definition bson_append_array_builder_end (h : heap) (b : bson_t) (child : bson_array_builder_t) :
    option (heap * bson_t) :=
  '(h, b) ← bson_append_array_end h b (bab_bson child);
  Some (bson_destroy h (bab_bson child), b).

Definition bson_array_builder_append_array_builder_begin h bab :
    option (heap * bson_array_builder_t * option bson_array_builder_t) :=
  '(h, bab, child) ← builder_append_begin (bson_append_array_begin malloc) h bab;
  Some (h, bab, option_map (ArrayBuilder 0) child).

Definition bson_array_builder_append_array_builder_end h bab (child : bson_array_builder_t) :
    option (heap * bson_array_builder_t) :=
  '(h, b) ← bson_append_array_builder_end h (bab_bson bab) child;
  Some (h, ArrayBuilder (bab_index bab) b).

(** [(ok, out, bab)] *)
Definition bson_array_builder_build (h : heap) (junk : bytes) (bab : bson_array_builder_t) :
    bool * bson_t * bson_array_builder_t :=
  let '(ok, out, b) := bson_steal h junk (bab_bson bab) in
  if (ok : bool) then (true, out, ArrayBuilder 0 (bson_init (b_data b)))
  else (false, out, ArrayBuilder (bab_index bab) b).

Definition bson_array_builder_destroy (h : heap) (bab : bson_array_builder_t) : heap :=
  bson_destroy h (bab_bson bab).
End ArrayBuilder.
