(* ===== verification/BsonAppendSpec.v ===== *)
(** Every appender of [BsonAppend] extends the document by exactly the element
    it names, when it fits, and otherwise changes nothing. *)

From Stdlib Require Import Strings.String.
From S2P Require Import Prelude CString Text CommonString IntEncode BsonTypes BsonIter BsonSpec.
From S2P Require Import BsonIterSpec BsonIterFind BsonView BsonT BsonTSpec BsonKeys BsonAppend.
Local Open Scope clib_scope.

(** ** Collecting the bytes of an element *)

Definition hdr (t : bson_type_t) (k : bytes) : bytes := [z2b (type_code t)] ++ k ++ [x00].

Lemma enc_elems_1 k v : enc_elems [(k, v)] = hdr (bval_type v) k ++ enc_val v.
Proof. cbn [enc_elems]. rewrite app_nil_r. unfold enc_elem, hdr. cbn [fst snd]. by rewrite <- !app_assoc. Qed.

Lemma builds_le x p n v k :
  k = Z.of_nat n -> builds x p -> builds (x &> add_argument (Some (le_bytes n v)) k) (p ++ le_bytes n v).
Proof. intros -> H. rewrite <- (zlen_le_bytes n v). by apply builds_add_all. Qed.

Lemma builds_1 x p c : builds x p -> builds (x &> add_argument (Some [c]) 1) (p ++ [c]).
Proof. apply builds_add_all. Qed.

Lemma builds_part x p c rest n :
  n = zlen c -> builds x p -> builds (x &> add_argument (Some (c ++ rest)) n) (p ++ c).
Proof. intros ->. apply builds_add. Qed.

Lemma builds_whole x p c n :
  n = zlen c -> builds x p -> builds (x &> add_argument (Some c) n) (p ++ c).
Proof. intros ->. apply builds_add_all. Qed.

Lemma builds_eq x p q : builds x p -> p = q -> builds x q.
Proof. by intros ? <-. Qed.

Lemma field_args_builds t key kl k : key_arg key kl k -> builds (field_args t key kl) (hdr t k).
Proof.
  intros Hk. unfold field_args.
  apply (builds_eq _ (([] ++ [z2b (type_code t)]) ++ k ++ [x00])); [|done]. rewrite app_assoc.
  apply builds_1, builds_key; [done|]. apply (builds_1 (app_ret append_nil)), builds_nil.
Qed.

(** The three ways the arguments of a field may come out. *)
Lemma field_args_cases t key kl k :
  key_arg key kl k -> exists r, field_args t key kl = Some r /\ builds (Some r) (hdr t k).
Proof.
  intros Hk. pose proof (field_args_builds t key kl k Hk) as H. unfold builds in H.
  destruct (Z.leb_spec (zlen (hdr t k)) BSON_MAX_SIZE) as [Hm|Hm].
  - destruct H as (l & E & H). exists (Some l). split; [done|]. unfold builds.
    destruct (Z.leb_spec (zlen (hdr t k)) BSON_MAX_SIZE); [by exists l|lia].
  - exists None. split; [done|]. unfold builds.
    destruct (Z.leb_spec (zlen (hdr t k)) BSON_MAX_SIZE); [lia|done].
Qed.

Lemma zlen_hdr t k : zlen (hdr t k) = 2 + zlen k.
Proof. unfold hdr. zl. Qed.
#[export] Hint Rewrite zlen_hdr : zlen.

(** ** The appenders *)

(** The text before the first terminator. *)
Fixpoint until_nul (s : bytes) : bytes :=
  match s with
  | [] => []
  | c :: s' => if byte_eqb c x00 then [] else c :: until_nul s'
  end.

Lemma until_nul_no_nul s : no_nul s -> until_nul s = s.
Proof.
  induction s as [|c s IH]; [done|]. intros [Hc Hs]%no_nul_cons. cbn [until_nul].
  rewrite byte_eqb_neq by done. by rewrite IH.
Qed.

Lemma until_nul_split s post :
  no_nul (until_nul s) /\ exists rest, s ++ x00 :: post = until_nul s ++ x00 :: rest.
Proof.
  induction s as [|c s [Hn (rest & E)]]; [split; [by apply no_nulb_spec|by exists post]|].
  cbn [until_nul]. destruct (byte_eqb c x00) eqn:Ec.
  - apply byte_eqb_spec in Ec as ->. split; [by apply no_nulb_spec|]. by exists (s ++ x00 :: post).
  - split.
    + apply no_nul_cons. split; [intros ->; by rewrite byte_eqb_refl in Ec|done].
    + exists rest. rewrite <- !app_comm_cons. by rewrite E.
Qed.

(** The regular expression options the library keeps, in its order. *)
Definition sort_options (o : bytes) : bytes := filter (fun b => b ∈ o) (txt "ilmsux").

(** A text with an explicit length, or a terminated one with a negative length. *)
Definition text_arg (value : bytes) (length : Z) (s : bytes) : Prop :=
  exists rest, (length < 0 /\ no_nul s /\ value = s ++ x00 :: rest) \/ (length = zlen s /\ value = s ++ rest).

(** The document is empty exactly when its length is 5 or its first type byte
    is 0. *)
Lemma bson_empty_enc e rest :
  bson_empty (enc_doc e ++ rest) (zlen (enc_doc e)) = Some (bool_decide (e = [])).
Proof.
  unfold bson_empty. destruct e as [|[k v] e]; [done|].
  destruct (Z.eqb_spec (zlen (enc_doc ((k, v) :: e))) 5) as [E|_].
  { rewrite zlen_enc_doc, enc_elems_cons, zlen_app, zlen_enc_elem in E. cbn [fst snd] in E.
    pose proof (zlen_nonneg k). pose proof (zlen_nonneg (enc_val v)). pose proof (zlen_nonneg (enc_elems e)). lia. }
  rewrite enc_doc_app, enc_elems_cons. unfold enc_elem. rewrite <- !app_assoc.
  rewrite rd_app_r by zl. rewrite zlen_le_bytes. change (4 - Z.of_nat 4) with 0. cbn [app]. rewrite rd_cons_0. sbind. rewrite bool_decide_false by done. f_equal. by destruct v.
Qed.

Lemma invalid_array_warning_enc e rest :
  wf_elems e -> zlen (enc_doc e) < 2 ^ 31 ->
  exists w, invalid_array_warning (enc_doc e ++ rest) (zlen (enc_doc e)) = Some w.
Proof.
  intros Hwf Hm. unfold invalid_array_warning. rewrite bson_empty_enc. sbind.
  case_bool_decide as He; [by exists false|]. destruct e as [|[k v] e]; [done|].
  unfold bson_iter_init. set (e0 := (k, v) :: e) in *.
  destruct (Z.ltb_spec (zlen (enc_doc e0)) 5); [rewrite zlen_enc_doc in *; zl|]. cbn [negb].
  pose proof (at_pos_start e0 rest Hm) as Hat. subst e0. rewrite enc_elems_cons in Hat.
  apply Forall_cons_1 in Hwf as [[Hk Hv] Hwf]. rewrite <- app_assoc in Hat.
  rewrite (next_elem _ (k, v) _ _ _ (conj Hk Hv)) with (2 := Hat).
  2: { rewrite zlen_enc_doc, enc_elems_cons. zl. }
  sbind. cbn [negb]. rewrite bson_iter_key_elem. sbind.
  destruct (strcmp_spec (txt "0") k [] (enc_val v ++ enc_elems e ++ x00 :: rest)) as (r & Er & _);
    [by apply no_nulb_spec|done|].
  unfold lit. rewrite Er. sbind. by eexists.
Qed.

Section Appenders.
Context (malloc : Z -> bytes).
Hypothesis Hmalloc : forall n, 0 <= n -> zlen (malloc n) = n.

Context (h : heap) (b : bson_t) (pre : bytes) (d : doc) (tail : bytes).
Hypothesis Hst : stored h b pre d tail.

Context (key : bytes) (kl : Z) (k : bytes).
Hypothesis Hk : key_arg key kl k.

Lemma appends_1 x v :
  builds x (hdr (bval_type v) k ++ enc_val v) ->
  appends h b pre d [(k, v)] (apply_arguments malloc h b x).
Proof. intros Hx. eapply apply_arguments_spec; [done|exact Hst|]. by rewrite enc_elems_1. Qed.

Lemma appends_too_long es :
  BSON_MAX_SIZE < b_len b + zlen (enc_elems es) -> appends h b pre d es (Some (false, h, b)).
Proof.
  intros Hl. exists h, b. assert (fits h b (zlen (enc_elems es)) = false) as ->; [|done].
  unfold fits. destruct (Z.leb_spec (b_len b + zlen (enc_elems es)) BSON_MAX_SIZE); [lia|done].
Qed.

Lemma stored_len : 5 <= b_len b.
Proof. destruct Hst as (-> & _). rewrite zlen_enc_doc. zl. Qed.

Lemma appends_1_too_long v :
  BSON_MAX_SIZE < zlen (enc_val v) -> appends h b pre d [(k, v)] (Some (false, h, b)).
Proof. intros. apply appends_too_long. pose proof stored_len. rewrite enc_elems_1. zl. Qed.

Ltac fields := apply field_args_builds; exact Hk.

Lemma append_empty_spec t v :
  bval_type v = t -> enc_val v = [] ->
  appends h b pre d [(k, v)] (apply_arguments malloc h b (field_args t key kl)).
Proof. intros <- E. apply appends_1. rewrite E, app_nil_r. fields. Qed.

Lemma append_le_spec t v n z w :
  bval_type v = t -> enc_val v = le_bytes n z -> w = Z.of_nat n ->
  appends h b pre d [(k, v)]
    (apply_arguments malloc h b (field_args t key kl &> add_argument (Some (le_bytes n z)) w)).
Proof. intros <- E ->. apply appends_1. rewrite E. apply builds_le; [done|]. fields. Qed.

Lemma bson_append_double_spec v :
  appends h b pre d [(k, BDouble v)] (bson_append_double malloc h b key kl v).
Proof. by apply append_le_spec. Qed.
Lemma bson_append_int32_spec v :
  appends h b pre d [(k, BInt32 v)] (bson_append_int32 malloc h b key kl v).
Proof. by apply append_le_spec. Qed.
Lemma bson_append_int64_spec v :
  appends h b pre d [(k, BInt64 v)] (bson_append_int64 malloc h b key kl v).
Proof. by apply append_le_spec. Qed.
Lemma bson_append_date_time_spec v :
  appends h b pre d [(k, BDateTime v)] (bson_append_date_time malloc h b key kl v).
Proof. by apply append_le_spec. Qed.
Lemma bson_append_null_spec : appends h b pre d [(k, BNull)] (bson_append_null malloc h b key kl).
Proof. by apply append_empty_spec. Qed.
Lemma bson_append_undefined_spec :
  appends h b pre d [(k, BUndefined)] (bson_append_undefined malloc h b key kl).
Proof. by apply append_empty_spec. Qed.
Lemma bson_append_minkey_spec : appends h b pre d [(k, BMinKey)] (bson_append_minkey malloc h b key kl).
Proof. by apply append_empty_spec. Qed.
Lemma bson_append_maxkey_spec : appends h b pre d [(k, BMaxKey)] (bson_append_maxkey malloc h b key kl).
Proof. by apply append_empty_spec. Qed.

Lemma bson_append_bool_spec v :
  appends h b pre d [(k, BBool v)] (bson_append_bool malloc h b key kl v).
Proof. apply appends_1. destruct v; apply builds_1; fields. Qed.

Lemma bson_append_oid_spec o rest :
  zlen o = 12 -> appends h b pre d [(k, BOid o)] (bson_append_oid malloc h b key kl (o ++ rest)).
Proof. intros. apply appends_1, builds_part; [done|]. fields. Qed.

Lemma bson_append_decimal128_spec lo hi :
  appends h b pre d [(k, BDecimal128 lo hi)] (bson_append_decimal128 malloc h b key kl lo hi).
Proof. apply appends_1, builds_whole; [done|]. fields. Qed.

Lemma bson_append_timestamp_spec t i :
  is_u32 t -> is_u32 i ->
  appends h b pre d [(k, BTimestamp t i)] (bson_append_timestamp malloc h b key kl t i).
Proof.
  unfold is_u32. intros Ht Hi. apply append_le_spec; [done| |done].
  assert (E : Z.lor (Z.shiftl t 32) i = t * 2 ^ 32 + i).
  { rewrite Z.shiftl_mul_pow2 by lia. pose proof (Z.add_lor_land (t * 2 ^ 32) i) as Hl.
    enough (Z.land (t * 2 ^ 32) i = 0) by lia.
    rewrite <- (Z.mod_small i (2 ^ 32)) by lia. rewrite <- Z.land_ones by lia.
    rewrite Z.land_assoc, (Z.land_comm _ i), <- Z.land_assoc, Z.land_ones by lia.
    rewrite Z.mod_mul by lia. apply Z.land_0_r. }
  rewrite E. change 8%nat with (4 + 4)%nat. rewrite le_bytes_app. cbn [enc_val].
  change (256 ^ Z.of_nat 4) with (2 ^ 32). rewrite Z.div_add_l, Z.div_small, Z.add_0_r by lia.
  f_equal. rewrite <- (le_bytes_mod 4 (t * 2 ^ 32 + i)). change (256 ^ Z.of_nat 4) with (2 ^ 32).
  rewrite Z.add_comm, Z.mod_add, Z.mod_small by lia. done.
Qed.

Lemma bson_append_document_spec e rest :
  appends h b pre d [(k, BDocument e)]
    (bson_append_document malloc h b key kl (enc_doc e ++ rest) (zlen (enc_doc e))).
Proof. apply appends_1. rewrite enc_val_document. apply builds_part; [done|]. fields. Qed.

Lemma text_args_builds t value s n :
  n = zlen s -> (exists rest, value = s ++ rest) -> n < UINT32_MAX ->
  builds (field_args t key kl
          &> add_argument (Some (le_bytes 4 (u32 (n + 1)))) 4
          &> add_argument (Some value) n
          &> add_argument (Some gZero) 1) (hdr t k ++ enc_string s).
Proof using Hk.
  intros -> (rest & ->) Hn. unfold UINT32_MAX in Hn. rewrite u32_id by zl. unfold enc_string. rewrite !app_assoc.
  apply builds_1, builds_part; [done|]. apply builds_le; [done|]. fields.
Qed.

Lemma append_text_spec t v value length s :
  bval_type v = t -> enc_val v = enc_string s -> text_arg value length s ->
  appends h b pre d [(k, v)]
    (zulength ← (if length <? 0 then strlen value else Some length);
     if UINT32_MAX - 1 <? zulength then Some (false, h, b) else
     let ulength := u32 zulength in
     apply_arguments malloc h b
       (field_args t key kl
         &> add_argument (Some (le_bytes 4 (u32 (ulength + 1)))) 4
         &> add_argument (Some value) ulength
         &> add_argument (Some gZero) 1)).
Proof.
  intros Ht E (rest & Hv).
  assert ((if length <? 0 then strlen value else Some length) = Some (zlen s) /\ exists r, value = s ++ r)
    as [Hlen Hr].
  { destruct Hv as [(Hl & Hs & ->)|(-> & ->)].
    - destruct (Z.ltb_spec length 0); [|lia]. rewrite strlen_app by done. split; [done|by eexists].
    - destruct (Z.ltb_spec (zlen s) 0); [zl|]. split; [done|by eexists]. }
  rewrite Hlen. sbind. unfold UINT32_MAX. destruct (Z.ltb_spec (2 ^ 32 - 1 - 1) (zlen s)) as [Hm|Hm].
  - apply appends_1_too_long. rewrite E. autorewrite with zlen. unfold BSON_MAX_SIZE. lia.
  - rewrite (u32_id (zlen s)) by zl. apply appends_1. rewrite E, Ht. apply text_args_builds; [done|done|].
    unfold UINT32_MAX. lia.
Qed.

Lemma bson_append_utf8_spec value length s :
  text_arg value length s ->
  appends h b pre d [(k, BUtf8 s)] (bson_append_utf8 malloc h b key kl (Some value) length).
Proof. by apply append_text_spec. Qed.

Lemma bson_append_symbol_spec value length s :
  text_arg value length s ->
  appends h b pre d [(k, BSymbol s)] (bson_append_symbol malloc h b key kl (Some value) length).
Proof. by apply append_text_spec. Qed.

(** A C string and its terminator as one argument. *)
Lemma cstring_builds x p s rest n :
  n = zlen s + 1 -> builds x p ->
  builds (x &> add_argument (Some (le_bytes 4 n)) 4
            &> add_argument (Some (s ++ x00 :: rest)) n) (p ++ enc_string s).
Proof.
  intros -> Hx. unfold enc_string. rewrite app_assoc.
  change (s ++ x00 :: rest) with (s ++ [x00] ++ rest). rewrite app_assoc.
  apply builds_part; [zl|]. by apply builds_le.
Qed.

Lemma bson_append_code_spec s rest :
  no_nul s ->
  appends h b pre d [(k, BCode s)] (bson_append_code malloc h b key kl (s ++ x00 :: rest)).
Proof.
  intros Hs. unfold bson_append_code. rewrite strlen_app by done. sbind. unfold UINT32_MAX.
  destruct (Z.ltb_spec (2 ^ 32 - 1 - 1) (zlen s)).
  - apply appends_1_too_long. cbn [enc_val]. autorewrite with zlen. unfold BSON_MAX_SIZE. lia.
  - rewrite u32_id by zl. apply appends_1, cstring_builds; [done|fields].
Qed.

Lemma bson_append_dbpointer_spec s rest o orest :
  no_nul s -> zlen o = 12 ->
  appends h b pre d [(k, BDBPointer s o)]
    (bson_append_dbpointer malloc h b key kl (s ++ x00 :: rest) (o ++ orest)).
Proof.
  intros Hs Ho. unfold bson_append_dbpointer. rewrite strlen_app by done. sbind. unfold UINT32_MAX.
  destruct (Z.ltb_spec (2 ^ 32 - 1 - 1) (zlen s)).
  - apply appends_1_too_long. cbn [enc_val]. autorewrite with zlen. unfold BSON_MAX_SIZE. lia.
  - rewrite u32_id by zl. apply appends_1. cbn [enc_val]. rewrite app_assoc.
    apply builds_part; [done|]. apply cstring_builds; [done|fields].
Qed.

Lemma bson_append_code_with_scope_spec s rest e erest :
  no_nul s -> zlen (enc_doc e) <= BSON_MAX_SIZE ->
  appends h b pre d [(k, BCodeWScope s e)]
    (bson_append_code_with_scope malloc h b key kl (s ++ x00 :: rest)
       (Some (enc_doc e ++ erest, zlen (enc_doc e)))).
Proof.
  intros Hs He. unfold bson_append_code_with_scope. rewrite strlen_app by done. sbind. unfold UINT32_MAX.
  unfold BSON_MAX_SIZE in He. pose proof (zlen_nonneg s).
  assert (5 <= zlen (enc_doc e)) by (rewrite zlen_enc_doc; zl).
  assert (Hz : zlen (enc_val (BCodeWScope s e)) = zlen s + 9 + zlen (enc_doc e)).
  { rewrite enc_val_codewscope. zl. }
  destruct (Z.ltb_spec (2 ^ 32 - 1 - 1) (zlen s)).
  { apply appends_1_too_long. rewrite Hz. unfold BSON_MAX_SIZE. lia. }
  rewrite !(u32_id (zlen s + 1)) by lia.
  destruct (Z.ltb_spec (2 ^ 32 - 1 - zlen (enc_doc e)) (zlen s + 1)).
  { apply appends_1_too_long. rewrite Hz. unfold BSON_MAX_SIZE. lia. }
  destruct (Z.ltb_spec (2 ^ 32 - 1 - 2 * 4) (zlen s + 1 + zlen (enc_doc e))).
  { apply appends_1_too_long. rewrite Hz. unfold BSON_MAX_SIZE. lia. }
  rewrite u32_id by lia. apply appends_1. rewrite enc_val_codewscope, !app_assoc.
  apply builds_part; [done|]. apply cstring_builds; [done|]. apply builds_le; [done|]. fields.
Qed.

Lemma bson_append_binary_spec st data rest :
  zlen data < 2 ^ 32 ->
  appends h b pre d [(k, BBinary st data)]
    (bson_append_binary malloc h b key kl st (Some (data ++ rest)) (zlen data)).
Proof.
  intros Hd. unfold bson_append_binary, _bson_append_binary. pose proof (zlen_nonneg data).
  destruct (field_args_cases BSON_TYPE_BINARY key kl k Hk) as ([l|] & -> & Hl).
  2: { unfold builds in Hl. destruct (Z.leb_spec (zlen (hdr BSON_TYPE_BINARY k)) BSON_MAX_SIZE) as [|Hm].
       { destruct Hl as (? & ? & _). done. }
       apply appends_too_long. pose proof stored_len. rewrite enc_elems_1, zlen_app. cbn [bval_type].
       pose proof (zlen_nonneg (enc_val (BBinary st data))). lia. }
  change (add_argument (Some ?c) ?n l) with (Some (Some l) &> add_argument (Some c) n).
  destruct (Z.eqb_spec st BSON_SUBTYPE_BINARY_DEPRECATED) as [E|E]; unfold UINT32_MAX.
  - destruct (Z.ltb_spec (2 ^ 32 - 1 - 4) (zlen data)).
    { apply appends_1_too_long. cbn [enc_val]. unfold enc_binary. rewrite E, Z.eqb_refl.
      unfold BSON_MAX_SIZE. zl. }
    rewrite u32_id by lia. apply appends_1. cbn [enc_val]. unfold enc_binary.
    rewrite E, Z.eqb_refl, !app_assoc.
    apply builds_part; [done|]. apply builds_le; [done|]. apply builds_1, builds_le; done.
  - apply appends_1. cbn [enc_val]. unfold enc_binary.
    destruct (Z.eqb_spec st BSON_SUBTYPE_BINARY_DEPRECATED); [done|]. rewrite !app_assoc.
    apply builds_part; [done|]. apply builds_1, builds_le; done.
Qed.

Lemma bson_append_array_spec e rest :
  wf_elems e -> zlen (enc_doc e) <= BSON_MAX_SIZE ->
  appends h b pre d [(k, BArray e)]
    (bson_append_array malloc h b key kl (enc_doc e ++ rest) (zlen (enc_doc e))).
Proof.
  intros He Hm. unfold BSON_MAX_SIZE in Hm. unfold bson_append_array.
  destruct (field_args_cases BSON_TYPE_ARRAY key kl k Hk) as ([l|] & -> & Hl).
  2: { unfold builds in Hl. destruct (Z.leb_spec (zlen (hdr BSON_TYPE_ARRAY k)) BSON_MAX_SIZE) as [|Hz].
       { destruct Hl as (? & ? & _). done. }
       apply appends_too_long. pose proof stored_len. rewrite enc_elems_1, zlen_app. cbn [bval_type].
       pose proof (zlen_nonneg (enc_val (BArray e))). lia. }
  destruct (invalid_array_warning_enc e rest He) as [w ->]; [lia|]. sbind.
  change (add_argument (Some ?c) ?n l) with (Some (Some l) &> add_argument (Some c) n).
  apply appends_1. rewrite enc_val_array. by apply builds_part.
Qed.

(** Both strings must be terminated; the pattern may not contain a
    terminator, and the options come out sorted and filtered. *)
Lemma bson_append_regex_w_len_spec regex rl r o orest :
  key_arg regex rl r -> no_nul o -> zlen o < UINT32_MAX ->
  appends h b pre d [(k, BRegex r (sort_options o))]
    (bson_append_regex_w_len malloc h b key kl (Some regex) rl (Some (o ++ x00 :: orest))).
Proof.
  intros Hr Ho Hm. unfold bson_append_regex_w_len. cbn [from_option id]. rewrite strlen_app by done. sbind.
  unfold UINT32_MAX in Hm. rewrite u32_id by zl.
  destruct (new_with_capacity_as_append_spec malloc Hmalloc (zlen o)) as (a & -> & Ha); [unfold UINT32_MAX; zl|].
  sbind. destruct (append_selected_chars_spec malloc Hmalloc (txt "ilmsux") [] o (x00 :: orest) a []
    (UINT32_MAX - 1)) as (a' & E & Ha').
  { apply Forall_forall. intros c Hc. unfold txt in Hc. cbn in Hc.
    repeat (apply elem_of_cons in Hc as [->|Hc]; [done|]). by apply not_elem_of_nil in Hc. }
  { exact Ha. } { vm_compute. congruence. }
  unfold BSON_REGEX_OPTIONS_SORTED, lit. rewrite E. sbind. cbn [negb].
  destruct Ha' as ((Hl & _ & _ & junk & Hs) & _ & Hz & _). rewrite app_nil_l in *.
  fold (sort_options o) in *.
  unfold mcommon_str_from_append, mcommon_strlen_from_append. rewrite Hs, Hl.
  rewrite u32_id by (unfold UINT32_MAX in *; zl). apply appends_1. cbn [enc_val]. rewrite !app_assoc.
  rewrite <- (app_assoc _ (sort_options o)).
  change (sort_options o ++ x00 :: junk) with (sort_options o ++ [x00] ++ junk). rewrite app_assoc.
  apply builds_part; [zl|]. apply builds_1, builds_key; [done|]. fields.
Qed.

Lemma bson_append_timeval_spec sec usec :
  0 <= usec < 1000000 -> is_s64 (sec * 1000 + usec / 1000) -> is_s64 sec ->
  appends h b pre d [(k, BDateTime (sec * 1000 + usec / 1000))]
    (bson_append_timeval malloc h b key kl sec usec).
Proof.
  intros Hu Hr Hs. unfold bson_append_timeval.
  assert (s64 (u64 (u64 sec * 1000 + u64 usec / 1000)) = sec * 1000 + usec / 1000) as ->.
  { rewrite (u64_id usec) by lia. rewrite <- (s64_u64 (sec * 1000 + usec / 1000)) by done. f_equal.
    unfold u64. rewrite Zplus_mod, (Zplus_mod (sec * 1000)). f_equal. f_equal. apply Zmult_mod_idemp_l. }
  apply bson_append_date_time_spec.
Qed.

(** ** Boxed values *)

Lemma with_static_spec e post (f : bytes -> Z -> option bres) :
  zlen (enc_doc e) <= BSON_MAX_SIZE ->
  with_static h b (Some (enc_doc e ++ post)) (zlen (enc_doc e)) f =
    f (enc_doc e ++ post) (zlen (enc_doc e)).
Proof. intros Hm. unfold with_static. sbind. rewrite bson_init_static_enc by done. by sbind. Qed.

(** The value an append of a boxed value stores: texts passed as C strings end
    at their first terminator, regular expression options are normalised. *)
Definition as_appended (v : bval) : bval :=
  match v with
  | BRegex r o => BRegex r (sort_options o)
  | BCode s => BCode (until_nul s)
  | BDBPointer c o => BDBPointer (until_nul c) o
  | BCodeWScope s e => BCodeWScope (until_nul s) e
  | v => v
  end.

Lemma bson_append_value_of v post :
  wf_val v -> zlen (enc_val v) < 2 ^ 31 ->
  appends h b pre d [(k, as_appended v)] (bson_append_value malloc h b key kl (value_of v post)).
Proof.
  intros Hwf Hl. unfold bson_append_value.
  destruct v as [bits|s|e|e|st data| |oid|v|t| |r o|c oid|c|s|c e|i|t i|i|lo hi| |];
    cbn [value_of as_appended wf_val] in *.
  - apply bson_append_double_spec.
  - cbn [enc_val] in Hl. autorewrite with zlen in Hl. apply bson_append_utf8_spec.
    exists (x00 :: post). right. split; [apply s32_id; zl|done].
  - rewrite enc_val_document in Hl. rewrite with_static_spec by (unfold BSON_MAX_SIZE; lia).
    apply bson_append_document_spec.
  - rewrite enc_val_array in Hl. apply wf_val_array in Hwf.
    rewrite with_static_spec by (unfold BSON_MAX_SIZE; lia).
    apply bson_append_array_spec; [done|unfold BSON_MAX_SIZE; lia].
  - apply bson_append_binary_spec. cbn [enc_val] in Hl. unfold enc_binary in Hl.
    destruct (st =? BSON_SUBTYPE_BINARY_DEPRECATED); autorewrite with zlen in Hl; zl.
  - apply bson_append_undefined_spec.
  - rewrite <- (app_nil_r oid) at 2. by apply bson_append_oid_spec.
  - apply bson_append_bool_spec.
  - apply bson_append_date_time_spec.
  - apply bson_append_null_spec.
  - destruct Hwf as [Hr Ho]. cbn [enc_val] in Hl. autorewrite with zlen in Hl.
    apply bson_append_regex_w_len_spec; [|done|unfold UINT32_MAX; zl].
    split; [done|]. split; [zl|]. exists (o ++ x00 :: post). by left.
  - destruct (until_nul_split c (oid ++ post)) as [Hn [rest ->]]. sbind.
    rewrite <- (app_nil_r oid) at 2. by apply bson_append_dbpointer_spec.
  - destruct (until_nul_split c post) as [Hn [rest ->]]. sbind. by apply bson_append_code_spec.
  - cbn [enc_val] in Hl. autorewrite with zlen in Hl. apply bson_append_symbol_spec.
    exists (x00 :: post). right. split; [apply s32_id; zl|done].
  - rewrite enc_val_codewscope in Hl. autorewrite with zlen in Hl. rewrite zlen_enc_doc in *.
    rewrite <- zlen_enc_doc in *. rewrite with_static_spec by (rewrite zlen_enc_doc; unfold BSON_MAX_SIZE; zl).
    destruct (until_nul_split c (enc_doc e ++ post)) as [Hn [rest ->]]. sbind.
    apply bson_append_code_with_scope_spec; [done|]. rewrite zlen_enc_doc. unfold BSON_MAX_SIZE. zl.
  - apply bson_append_int32_spec.
  - apply bson_append_timestamp_spec; apply Hwf.
  - apply bson_append_int64_spec.
  - apply bson_append_decimal128_spec.
  - apply bson_append_maxkey_spec.
  - apply bson_append_minkey_spec.
Qed.

(** Appending from an iterator is appending the boxed value. *)
Lemma bson_append_iter_value P v post it :
  on_value P v post it -> bson_append_iter malloc h b (Some key) kl it =
    bson_append_value malloc h b key kl (value_of v post).
Proof.
  intros Hon. pose proof (bson_iter_value_of P v post it Hon) as H. destruct Hon as (_ & Ht & _).
  unfold bson_iter_value in H. unfold bson_append_iter, bson_append_value, bson_iter_type_unsafe. sbind.
  rewrite Ht in *. sbind. revert H. sbind. rewrite type_of_code_code. sbind. intros H.
  destruct v; cbn [bval_type value_of] in *; sbind; try done.
  all: match type of H with
    | (?x ≫= _) = Some _ => destruct x as [r|] eqn:E; [|done]; cbn [mbind option_bind] in H |- *
    end.
  all: repeat match goal with
    | H : context [match ?p with (_, _) => _ end] |- _ => destruct p; cbn beta iota in H |- *
    | H : (match ?p with Some _ => _ | None => _ end) = Some _ |- _ => destruct p; [|done]; cbn [mbind option_bind fst snd] in H |- *
    | H : (?p ≫= _) = Some _ |- _ => destruct p; [|done]; cbn [mbind option_bind fst snd] in H |- *
    end.
  all: try congruence.
  all: injection H as; subst; try done.
  by destruct p.
Qed.
End Appenders.
