(* ===== verification/BsonBuild.v ===== *)
(** Documents built in place: the initial documents, open children sharing the
    buffer of their parent, and a writer for whole document trees. *)

From Stdlib Require Import Strings.String.
From S2P Require Import Prelude CString Text IntEncode BsonTypes BsonIter BsonSpec BsonIterSpec.
From S2P Require Import BsonIterFind BsonView BsonT BsonTSpec BsonKeys BsonAppend BsonAppendSpec.

(** The value an open child stands for. *)
Definition sub (t : bson_type_t) (e : doc) : bval :=
  match t with BSON_TYPE_ARRAY => BArray e | _ => BDocument e end.

Definition is_sub (t : bson_type_t) : Prop := t = BSON_TYPE_DOCUMENT \/ t = BSON_TYPE_ARRAY.

Lemma enc_val_sub t e : enc_val (sub t e) = enc_doc e.
Proof. destruct t; apply enc_val_document || apply enc_val_array. Qed.

Lemma bval_type_sub t e : is_sub t -> bval_type (sub t e) = t.
Proof. by intros [->| ->]. Qed.

Lemma flag_test_add f g x : flag_test (flag_add f g) x = flag_test f x || flag_test g x.
Proof.
  unfold flag_test, flag_add. rewrite Z.land_lor_distr_l.
  destruct (Z.eqb_spec (Z.land f x) 0) as [->|Hf]; cbn [negb orb].
  - by rewrite Z.lor_0_l.
  - destruct (Z.eqb_spec (Z.lor (Z.land f x) (Z.land g x)) 0) as [E|]; [|done].
    apply Z.lor_eq_0_iff in E as [? ?]. done.
Qed.

Lemma flag_test_clear_other f g x : Z.land g x = 0 -> flag_test (flag_clear f g) x = flag_test f x.
Proof.
  intros H. unfold flag_test, flag_clear. do 2 f_equal. apply Z.bits_inj'. intros n Hn.
  apply (f_equal (fun z => Z.testbit z n)) in H. rewrite Z.bits_0, Z.land_spec in H.
  rewrite !Z.land_spec, Z.ldiff_spec. destruct (Z.testbit f n), (Z.testbit g n), (Z.testbit x n); done.
Qed.

(** The flags other than the inline one, which appends leave alone. *)
Definition other_flag (x : Z) : bool :=
  existsb (Z.eqb x)
    [BSON_FLAG_STATIC; BSON_FLAG_RDONLY; BSON_FLAG_CHILD; BSON_FLAG_IN_CHILD; BSON_FLAG_NO_FREE].

Lemma other_flag_disjoint x y :
  other_flag x = true -> x <> y -> (y =? BSON_FLAG_INLINE) || other_flag y = true -> Z.land y x = 0.
Proof.
  intros [a [Ha E%Z.eqb_eq]]%existsb_exists Hne Hy. subst a.
  apply orb_true_iff in Hy as [E%Z.eqb_eq|[a [Hb E%Z.eqb_eq]]%existsb_exists]; subst;
    cbn [In] in *; destruct_or?; subst; done.
Qed.

Lemma flag_test_same f g x :
  flag_clear f BSON_FLAG_INLINE = flag_clear g BSON_FLAG_INLINE -> other_flag x = true ->
  flag_test f x = flag_test g x.
Proof.
  intros H Hx. assert (x <> BSON_FLAG_INLINE) by (by intros ->).
  pose proof (other_flag_disjoint x BSON_FLAG_INLINE Hx ltac:(done) eq_refl) as Hd.
  rewrite <- (flag_test_clear_other f _ x Hd), H. by apply flag_test_clear_other.
Qed.

(** [bson_init] and [bson_new] give the empty document. *)
Lemma bson_init_stored h junk :
  zlen junk = BSON_INLINE_DATA_SIZE -> exists tail, stored h (bson_init junk) [] [] tail.
Proof.
  intros Hj. exists (drop 5 junk). unfold stored. change (is_inline (bson_init junk)) with true.
  unfold BSON_INLINE_DATA_SIZE in *. split_and!; try done.
  change (enc_doc []) with empty_doc. unfold zlen in *. rewrite length_app, length_drop.
  change (length empty_doc) with 5%nat. lia.
Qed.

Section Build.
Context (malloc : Z -> bytes).
Hypothesis Hmalloc : forall n, 0 <= n -> zlen (malloc n) = n.

(** While the child is open the parent's buffer holds the bytes of the parent
    around those of the child; [L] is the parent's stale length header. *)
Definition opened (h : heap) (b child : bson_t) (pre : bytes) (d : doc) (k : bytes)
    (t : bson_type_t) (e : doc) (tail : bytes) : Prop :=
  exists L, stored h child (pre ++ le_bytes 4 L ++ enc_elems d ++ hdr t k) e tail /\
    is_inline child = false /\ is_inline b = false /\ b_buf b = b_buf child /\
    b_offset b = zlen pre /\ b_len b = zlen (enc_doc (d ++ [(k, sub t [])])) /\
    0 <= b_depth b < b_depth child /\ flag_test (b_flags b) BSON_FLAG_IN_CHILD = true.

(** The parent's depth counts its own parents: none for a document that is
    not itself a child. *)
Definition root_depth (b : bson_t) : Prop :=
  is_inline b = false -> flag_test (b_flags b) BSON_FLAG_CHILD = false -> b_depth b = 0.

Lemma stored_offset h b pre d tail :
  stored h b pre d tail -> is_inline b = false ->
  b_offset b = zlen pre /\ h_cells h !! b_buf b = Some (pre ++ enc_doc d ++ tail).
Proof.
  intros (_ & _ & Hb & _) Hi. unfold bson_buffer in Hb. rewrite Hi in Hb.
  destruct (h_cells h !! b_buf b); [|done]. cbn [mbind option_bind] in Hb. split; congruence.
Qed.

Lemma stored_frame h h' b pre d tail :
  is_inline b = false -> h_cells h' !! b_buf b = h_cells h !! b_buf b ->
  stored h b pre d tail -> stored h' b pre d tail.
Proof.
  intros Hi Hc. unfold stored, bson_buffer. rewrite Hi, Hc. done.
Qed.

(** ** Room and flags *)

(** There is room for [n] more bytes. *)
Definition room (b : bson_t) (n : Z) : Prop :=
  b_len b + n <= BSON_MAX_SIZE /\
  (is_inline b = true \/
   (b_realloc b = true /\ b_offset b + b_len b + n + b_depth b <= BSON_MAX_SIZE)).

Definition same_flags (b b' : bson_t) : Prop :=
  forall x, other_flag x = true -> flag_test (b_flags b') x = flag_test (b_flags b) x.

Definition writable (b : bson_t) (n : Z) : Prop :=
  room b n /\ root_depth b /\ flag_test (b_flags b) BSON_FLAG_RDONLY = false /\
  flag_test (b_flags b) BSON_FLAG_IN_CHILD = false.

(** From one state of a document to a later one. *)
Definition carry (h : heap) (b : bson_t) (h' : heap) (b' : bson_t) : Prop :=
  frame h b h' b' /\ same_flags b b' /\
  (is_inline b = false -> b_buf b' = b_buf b /\ b_depth b' = b_depth b /\ is_inline b' = false).

Lemma carry_refl h b : carry h b h b.
Proof. split_and!; [apply frame_refl|done|done]. Qed.

Lemma carry_trans h1 b1 h2 b2 h3 b3 : carry h1 b1 h2 b2 -> carry h2 b2 h3 b3 -> carry h1 b1 h3 b3.
Proof.
  intros (F1 & S1 & K1) (F2 & S2 & K2). split_and!; [by eapply frame_trans| |].
  - intros x Hx. by rewrite S2, S1.
  - intros Hi. destruct (K1 Hi) as (? & ? & Hi2). destruct (K2 Hi2) as (? & ? & ?). split_and!; congruence.
Qed.

Lemma room_fits h b n m : room b n -> m <= n -> fits h b m = true.
Proof.
  intros [Hl Hr] Hm. unfold fits. destruct (Z.leb_spec (b_len b + m) BSON_MAX_SIZE); [|lia].
  destruct Hr as [->|[-> Ho]]; [done|]. destruct (is_inline b); [done|].
  destruct (Z.leb_spec (b_offset b + b_len b + m + b_depth b) BSON_MAX_SIZE); [|lia].
  cbn [andb orb]. by rewrite orb_true_r.
Qed.

Lemma flags_carry b b' :
  flag_clear (b_flags b') BSON_FLAG_INLINE = flag_clear (b_flags b) BSON_FLAG_INLINE -> same_flags b b'.
Proof. intros H x Hx. by apply flag_test_same. Qed.

(** An append to a document with room succeeds and leaves the rest of the
    room. *)
Lemma appends_writable h b pre d tail es x n :
  stored h b pre d tail -> appends h b pre d es x -> writable b n -> zlen (enc_elems es) <= n ->
  exists h' b' tail', x = Some (true, h', b') /\ stored h' b' pre (d ++ es) tail' /\
    writable b' (n - zlen (enc_elems es)) /\ carry h b h' b'.
Proof.
  intros Hst (h' & b' & -> & H) (Hr & Hd & Hro & Hic) Hn. rewrite (room_fits _ _ _ _ Hr Hn) in *.
  destruct H as (tail' & Hst' & Hfr & Hfl & Hk & Hi).
  exists h', b', tail'. split; [done|]. split; [done|].
  pose proof (flags_carry b b' Hfl) as Hsf. split.
  2: { split_and!; [done|done|]. intros E. destruct (Hk E) as (? & ? & ? & ?). done. }
  assert (Hz : zlen (enc_doc (d ++ es)) = zlen (enc_doc d) + zlen (enc_elems es)).
  { rewrite !zlen_enc_doc, enc_elems_app, zlen_app. lia. }
  destruct Hst as (Hlen & Hst), Hst' as (Hlen' & Hst'). destruct Hr as [Hl Hr]. split_and!.
  - split; [lia|]. destruct (is_inline b') eqn:E'; [by left|right].
    destruct (is_inline b) eqn:E.
    + destruct (Hi eq_refl eq_refl) as [-> ->]. split; [done|].
      destruct Hst as (_ & _ & -> & _), Hst' as (_ & Hb & _).
      unfold bson_buffer in Hb. rewrite E' in Hb. destruct (h_cells h' !! b_buf b'); [|done].
      cbn [mbind option_bind] in Hb. assert (b_offset b' = 0) by (change 0 with (zlen (@nil byte)); congruence). lia.
    + destruct (Hk eq_refl) as (Hbuf & -> & -> & _). destruct Hr as [|[? Ho]]; [done|]. split; [done|].
      destruct Hst as (_ & Hb & _), Hst' as (_ & Hb' & _). unfold bson_buffer in *. rewrite E, E' in *.
      destruct (h_cells h !! b_buf b); [|done]. destruct (h_cells h' !! b_buf b'); [|done].
      cbn [mbind option_bind] in *. assert (b_offset b' = b_offset b) by congruence. lia.
  - intros E' Hc. destruct (is_inline b) eqn:E; [by apply Hi|].
    destruct (Hk eq_refl) as (_ & _ & -> & _). apply Hd; [done|].
    rewrite <- Hsf by done. done.
  - by rewrite Hsf.
  - by rewrite Hsf.
Qed.

(** ** Opening a child *)

(** The step that moves an inline parent to the heap. *)
Lemma begin_grow h b pre d tail n :
  stored h b pre d tail -> writable b n -> 5 <= n ->
  exists h1 b1 tail1,
    (if is_inline b
     then if b_len b <=? 120 then _bson_grow malloc h b (128 - b_len b) else None
     else Some (true, h, b)) = Some (true, h1, b1) /\
    is_inline b1 = false /\ stored h1 b1 pre d tail1 /\ writable b1 n /\ carry h b h1 b1 /\
    b_realloc b1 = true.
Proof.
  intros Hst Hw Hn. destruct (is_inline b) eqn:Ei.
  2: { exists h, b, tail. pose proof Hw as ((_ & [?|[? _]]) & _); [congruence|].
       split_and!; try done. apply carry_refl. }
  pose proof Hst as (Hl & _ & _ & Hi). rewrite Ei in Hi. destruct Hi as [-> Hz].
  unfold BSON_INLINE_DATA_SIZE in Hz. rewrite zlen_app in Hz. pose proof (zlen_nonneg tail).
  assert (5 <= b_len b) by (rewrite Hl, zlen_enc_doc; zl).
  destruct (Z.leb_spec (b_len b) 120); [|lia].
  destruct (grow_spec malloc Hmalloc h b [] d tail (128 - b_len b) Hst) as (h1 & b1 & -> & Hg);
    [unfold BSON_MAX_SIZE; lia..|].
  assert (fits h b (128 - b_len b) = true) as Hf.
  { unfold fits. rewrite Ei. destruct (Z.leb_spec (b_len b + (128 - b_len b)) BSON_MAX_SIZE); [done|].
    unfold BSON_MAX_SIZE in *. lia. }
  rewrite Hf in *. destruct Hg as (tail1 & Hst1 & Hroom & Hfr & Hfl & _ & Hi).
  assert (Ei1 : is_inline b1 = false).
  { destruct (is_inline b1) eqn:E; [|done]. destruct Hst1 as (_ & _ & _ & Hz1). rewrite E in Hz1.
    unfold BSON_INLINE_DATA_SIZE in Hz1. rewrite zlen_app in Hz1. lia. }
  destruct (Hi Ei Ei1) as (Hre & Hd & Hb). pose proof (flags_carry b b1 Hfl) as Hsf.
  pose proof Hst1 as (Hl1 & _). destruct (stored_offset h1 b1 [] d tail1 Hst1 Ei1) as [Ho _].
  change (zlen (@nil byte)) with 0 in Ho.
  exists h1, b1, tail1. split; [done|]. split; [done|]. split; [done|].
  destruct Hw as ([Hw1 _] & _ & Hro & Hic). split; [|split; [split|done]].
  - split_and!; [split; [lia|right; split; [done|lia]]|by intros _ _|by rewrite Hsf..].
  - destruct Hfr as (F & N & S). split_and!; [|done|right; done|done].
    intros c Hc _. apply F. right. lia.
  - split; [done|]. intros. congruence.
Qed.

(** The parent with its child open, and the child at its last element. *)
Definition open_parent (b : bson_t) : bson_t := set_flags b (flag_add (b_flags b) BSON_FLAG_IN_CHILD).
Definition last_child (b : bson_t) : bson_t :=
  Bson (flag_add (flag_add BSON_FLAG_CHILD BSON_FLAG_NO_FREE) BSON_FLAG_STATIC) 5 [] (b_depth b + 1)
    (b_buf b) (b_offset b + b_len b - 1 - 5) None (b_realloc b).

Lemma zlen_sub_elem k t e : is_sub t -> zlen (enc_elems [(k, sub t e)]) = zlen k + 2 + zlen (enc_doc e).
Proof. intros Ht. rewrite enc_elems_1, enc_val_sub, bval_type_sub by done. zl. Qed.

Lemma zlen_doc_snoc_sub d k t e :
  is_sub t -> zlen (enc_doc (d ++ [(k, sub t e)])) = zlen (enc_doc d) + zlen k + 2 + zlen (enc_doc e).
Proof. intros Ht. rewrite !zlen_enc_doc, enc_elems_app, zlen_app, zlen_sub_elem by done. rewrite zlen_enc_doc. lia. Qed.

Lemma last_child_opened h b pre d k t tail :
  stored h b pre (d ++ [(k, sub t [])]) tail -> is_inline b = false -> is_sub t ->
  opened h (open_parent b) (last_child b) pre d k t [] (x00 :: tail).
Proof.
  intros Hst Ei Ht. destruct (stored_offset h b pre _ tail Hst Ei) as [Ho Hcell].
  destruct Hst as (Hl & Hm & _ & Hi). rewrite Ei in Hi. set (L := zlen (enc_doc (d ++ [(k, sub t [])]))) in *.
  assert (Eenc : pre ++ enc_doc (d ++ [(k, sub t [])]) ++ tail =
    (pre ++ le_bytes 4 L ++ enc_elems d ++ hdr t k) ++ enc_doc [] ++ x00 :: tail).
  { rewrite enc_doc_eq. fold L. rewrite enc_elems_app, enc_elems_1, enc_val_sub, bval_type_sub by done.
    by rewrite <- !app_assoc. }
  assert (Eoff : b_offset b + b_len b - 1 - 5 = zlen (pre ++ le_bytes 4 L ++ enc_elems d ++ hdr t k)).
  { rewrite Ho, Hl. unfold L. rewrite zlen_doc_snoc_sub by done. rewrite zlen_enc_doc.
    change (zlen (enc_doc [])) with 5. zl. }
  assert (Ei' : is_inline (open_parent b) = false)
    by (unfold is_inline; cbn; by rewrite flag_test_add; fold (is_inline b); rewrite Ei).
  exists L. split_and!; try done; try (cbn; lia); [|cbn; rewrite flag_test_add; by rewrite orb_true_r].
  unfold stored. change (is_inline (last_child b)) with false. cbn iota. split_and!; try done; try (cbn; lia).
  - unfold bson_buffer. change (is_inline (last_child b)) with false. cbn. rewrite Hcell. sbind. by rewrite Eenc, Eoff.
  - cbn. rewrite zlen_cons. lia.
  - rewrite <- Eenc. apply Hi.
Qed.

(** The depth that [_bson_append_bson_begin] computes for the child. *)
Lemma child_depth h b pre d tail :
  stored h b pre d tail -> is_inline b = false -> root_depth b ->
  (if flag_test (b_flags (open_parent b)) BSON_FLAG_CHILD then u32 (b_depth (open_parent b) + 1) else 1) =
    b_depth b + 1.
Proof.
  intros (_ & _ & _ & Hi) Ei Hr. rewrite Ei in Hi. unfold open_parent. cbn [b_flags b_depth set_flags].
  rewrite flag_test_add. change (flag_test BSON_FLAG_IN_CHILD BSON_FLAG_CHILD) with false. rewrite orb_false_r.
  destruct (flag_test (b_flags b) BSON_FLAG_CHILD) eqn:Ec; [|by rewrite Hr].
  unfold BSON_MAX_SIZE in Hi. rewrite !zlen_app in Hi.
  pose proof (zlen_nonneg pre). pose proof (zlen_nonneg (enc_doc d)). rewrite u32_id by lia. done.
Qed.

(** The element that opening appends. *)
Lemma begin_append h b pre d tail n key kl k t :
  stored h b pre d tail -> is_inline b = false -> writable b n -> key_arg key kl k -> is_sub t ->
  zlen k + 7 <= n ->
  exists l h' b' tail', field_args t key kl = Some (Some l) /\
    apply_arguments malloc h b (add_argument (Some empty_doc) 5 l) = Some (true, h', b') /\
    stored h' b' pre (d ++ [(k, sub t [])]) tail' /\ writable b' (n - (zlen k + 7)) /\ carry h b h' b'.
Proof.
  intros Hst Ei Hw Hk Ht Hn. pose proof (zlen_nonneg k) as Hzk.
  destruct (field_args_cases t key kl k Hk) as ([l|] & El & Hl).
  2: { exfalso. unfold builds in Hl. destruct (Z.leb_spec (zlen (hdr t k)) BSON_MAX_SIZE) as [|Hz];
         [by destruct Hl as (? & ? & _)|]. rewrite zlen_hdr in Hz. destruct Hw as ([? _] & _).
       destruct Hst as (E & _). rewrite zlen_enc_doc in E. pose proof (zlen_nonneg (enc_elems d)). lia. }
  assert (Happ : appends h b pre d [(k, sub t [])] (apply_arguments malloc h b (add_argument (Some empty_doc) 5 l))).
  { change (add_argument (Some ?c) ?m l) with (app_bind (Some (Some l)) (add_argument (Some c) m)).
    eapply appends_1; [done|exact Hst|]. rewrite bval_type_sub, enc_val_sub by done. by apply builds_whole. }
  assert (Hsz : zlen (enc_elems [(k, sub t [])]) = zlen k + 7).
  { rewrite zlen_sub_elem by done. change (zlen (enc_doc [])) with 5. lia. }
  destruct (appends_writable h b pre d tail [(k, sub t [])] _ n Hst Happ Hw) as
    (h2 & b2 & tail2 & E & Hst2 & Hw2 & Hc2); [lia|]. rewrite Hsz in Hw2.
  by exists l, h2, b2, tail2.
Qed.

Lemma begin_spec h b pre d tail n key kl k t :
  stored h b pre d tail -> writable b n -> key_arg key kl k -> is_sub t -> zlen (hdr t k) + 5 <= n ->
  exists h' b' child tail', _bson_append_bson_begin malloc h b key kl t = Some (h', b', Some child) /\
    opened h' b' child pre d k t [] tail' /\ b_depth child = b_depth b' + 1 /\
    writable child (n - zlen (hdr t k) - 5) /\
    frame h b h' b' /\ b_realloc b' = true /\ root_depth b' /\
    (forall x, other_flag x = true -> x <> BSON_FLAG_IN_CHILD ->
       flag_test (b_flags b') x = flag_test (b_flags b) x) /\
    (is_inline b = false -> b_buf b' = b_buf b /\ b_depth b' = b_depth b) /\
    b_offset b' + b_len b' - 6 + n - zlen (hdr t k) + b_depth b' + 1 <= BSON_MAX_SIZE.
Proof.
  intros Hst Hw Hk Ht Hn. pose proof Hw as (_ & _ & Hro & Hic). rewrite zlen_hdr in *.
  pose proof (zlen_nonneg k) as Hzk.
  destruct (begin_grow h b pre d tail n Hst Hw ltac:(lia)) as (h1 & b1 & tail1 & Eg & Ei1 & Hst1 & Hw1 & Hc1 & Hre1).
  destruct (begin_append h1 b1 pre d tail1 n key kl k t) as (l & h2 & b2 & tail2 & El & Ea & Hst2 & Hw2 & Hc2);
    [done..|lia|].
  destruct Hc1 as (Hfr1 & Hsf1 & Hk1), Hc2 as (Hfr2 & Hsf2 & Hk2). destruct (Hk2 Ei1) as (Hbuf2 & Hdep2 & Ei2).
  pose proof Hw2 as ([Hr2 [?|[Hre2 Hof2]]] & Hrd2 & _); [congruence|].
  assert (Hroot : root_depth b2) by (intros _; by apply Hrd2).
  assert (E : _bson_append_bson_begin malloc h b key kl t = Some (h2, open_parent b2, Some (last_child b2))).
  { unfold _bson_append_bson_begin, bres in *. rewrite Hro, Hic, El, Eg.
    assert (bool_decide (t = BSON_TYPE_DOCUMENT) || bool_decide (t = BSON_TYPE_ARRAY) = true) as ->
      by (destruct Ht as [->| ->]; done).
    cbn [negb orb]. sbind. cbn [negb]. rewrite Ei1, Ea. sbind. cbn [negb]. fold (open_parent b2).
    by rewrite (child_depth h2 b2 pre (d ++ [(k, sub t [])]) tail2). }
  exists h2, (open_parent b2), (last_child b2), (x00 :: tail2). split; [exact E|].
  pose proof Hst2 as (Hl2 & _). rewrite zlen_doc_snoc_sub in Hl2 by done. change (zlen (enc_doc [])) with 5 in Hl2.
  rewrite zlen_enc_doc in Hl2. pose proof (zlen_nonneg (enc_elems d)).
  split_and!.
  - by apply last_child_opened.
  - done.
  - split; [|by split_and!]. split; [change (b_len (last_child b2)) with 5; lia|].
    right. split; [done|]. cbn. lia.
  - eapply frame_trans; [apply Hfr1|]. destruct Hfr2 as (F & N & B & S). split_and!; [exact F|exact N| |exact S].
    intros _. left. split; [done|]. cbn. congruence.
  - done.
  - intros _ Hc. cbn. apply Hrd2; [done|]. cbn in Hc. rewrite flag_test_add in Hc. by apply orb_false_iff in Hc as [? _].
  - intros x Hx Hx2. cbn. rewrite flag_test_add. rewrite Hsf2, Hsf1 by done.
    unfold flag_test at 2. by rewrite (other_flag_disjoint x), orb_false_r.
  - intros Ei. cbn. destruct (Hk1 Ei) as (? & ? & _). split; congruence.
  - cbn. lia.
Qed.

(** ** Closing a child *)

(** The parent's length once the child [e] has been filled. *)
Lemma opened_len h b child pre d k t e tail :
  opened h b child pre d k t e tail -> is_sub t ->
  b_len b + b_len child - 5 = zlen (enc_doc (d ++ [(k, sub t e)])).
Proof.
  intros (L & (Hcl & _) & _ & _ & _ & _ & Hlen & _) Ht.
  rewrite Hlen, Hcl, !zlen_doc_snoc_sub by done. change (zlen (enc_doc [])) with 5. lia.
Qed.

(** Storing the terminator and the length after the child's bytes [P ++ enc_doc e]
    completes the parent. *)
Lemma close_bytes h b pre L d k t e x R :
  is_sub t -> b_len b = zlen (enc_doc (d ++ [(k, sub t e)])) ->
  bson_buffer h b = Some ((pre ++ le_bytes 4 L ++ enc_elems d ++ hdr t k ++ enc_doc e) ++ [x] ++ R, zlen pre) ->
  exists h' b', ('(h, b) ← bson_store h b (b_len b - 1) [x00]; _bson_encode_length h b) = Some (h', b') /\
    bson_buffer h' b' = Some (pre ++ enc_doc (d ++ [(k, sub t e)]) ++ R, zlen pre) /\
    b_len b' = b_len b /\ rewritten h b h' b'.
Proof.
  intros Ht Hl Hb.
  destruct (bson_store_spec _ _ _ _ _ _ (b_len b - 1) [x00] Hb) as (h1 & b1 & -> & Hb1 & Hl1 & Hr1); [|done|].
  { rewrite Hl, zlen_doc_snoc_sub, zlen_enc_doc by done. zl. }
  sbind.
  assert (E : (pre ++ le_bytes 4 L ++ enc_elems d ++ hdr t k ++ enc_doc e) ++ [x00] ++ R =
    pre ++ le_bytes 4 L ++ (enc_elems d ++ hdr t k ++ enc_doc e ++ [x00] ++ R)) by by rewrite <- !app_assoc.
  rewrite E in Hb1. destruct (encode_length_spec _ _ _ _ _ Hb1) as (h2 & b2 & -> & Hb2 & Hl2 & Hr2).
  exists h2, b2. split; [done|]. split; [|split; [congruence|by eapply rewritten_trans]].
  rewrite Hb2, Hl1, Hl. pose proof (enc_doc_eq (d ++ [(k, sub t e)])) as Ed.
  set (M := zlen (enc_doc (d ++ [(k, sub t e)]))) in *.
  rewrite Ed, enc_elems_app, enc_elems_1, enc_val_sub, bval_type_sub by done. by rewrite <- !app_assoc.
Qed.

Lemma end_spec h b child pre d k t e tail :
  opened h b child pre d k t e tail -> is_sub t ->
  flag_test (b_flags child) BSON_FLAG_IN_CHILD = false ->
  exists h' b' tail', _bson_append_bson_end h b child = Some (h', b') /\
    stored h' b' pre (d ++ [(k, sub t e)]) tail' /\ heap_frame h h' b' /\
    is_inline b' = false /\ b_buf b' = b_buf b /\ b_depth b' = b_depth b /\
    b_realloc b' = b_realloc b /\ b_offset b' = b_offset b /\
    b_flags b' = flag_clear (b_flags b) BSON_FLAG_IN_CHILD.
Proof.
  intros Hop Ht Hc. pose proof (opened_len _ _ _ _ _ _ _ _ _ Hop Ht) as EM.
  destruct Hop as (L & Hst & Eic & Ei & Hbuf & Hoff & _ & Hdep & Hin).
  unfold _bson_append_bson_end. rewrite Hin, Hc. cbn [negb orb].
  destruct (stored_offset h child _ e tail Hst Eic) as [_ Hcell].
  destruct Hst as (_ & _ & _ & Htail). rewrite Eic in Htail. destruct Htail as [Hcd Hmax].
  destruct tail as [|x R]; [change (zlen (@nil byte)) with 0 in Hcd; lia|]. rewrite zlen_cons in Hcd.
  set (M := zlen (enc_doc (d ++ [(k, sub t e)]))) in *.
  assert (HM : M = zlen (enc_elems d) + zlen k + 7 + zlen (enc_doc e)).
  { subst M. rewrite zlen_doc_snoc_sub, zlen_enc_doc by done. lia. }
  unfold BSON_MAX_SIZE in Hmax. rewrite !zlen_app, zlen_cons, zlen_hdr, zlen_le_bytes in Hmax.
  pose proof (zlen_nonneg pre). pose proof (zlen_nonneg (enc_elems d)). pose proof (zlen_nonneg k).
  pose proof (zlen_nonneg R). pose proof (zlen_nonneg (enc_doc e)).
  set (b0 := set_flags b (flag_clear (b_flags b) BSON_FLAG_IN_CHILD)).
  change (b_len b0) with (b_len b). rewrite EM, u32_id by lia. set (b1 := set_len b0 M).
  assert (Ei1 : is_inline b1 = false).
  { unfold is_inline. cbn. rewrite flag_test_clear_other by done. exact Ei. }
  destruct (close_bytes h b1 pre L d k t e x R Ht) as (h3 & b3 & -> & Hb3 & Hl3 & [Hi3 Hd3 Hc3 Ho3 Hr3 Hf3 Hfr3]).
  { done. } { unfold bson_buffer. rewrite Ei1. change (b_buf b1) with (b_buf b).
    change (b_offset b1) with (b_offset b). rewrite Hbuf, Hcell, Hoff. sbind. by rewrite <- !app_assoc. }
  exists h3, b3, R. split; [done|].
  split; [|split; [done|split_and!; rewrite ?Hi3, ?Hc3, ?Hd3, ?Hr3, ?Ho3, ?Hf3; done]].
  unfold stored. rewrite Hi3, Ei1, Hl3, Hb3, Hd3. fold M. unfold BSON_MAX_SIZE. cbn [b_len b1 set_len b_depth b0 set_flags].
  rewrite !zlen_app. fold M. split_and!; try done; lia.
Qed.

(** ** Writing a whole tree

    A client that writes every value in place: documents and arrays as open
    children, the other values boxed. *)

Definition write_sub (body : heap -> bson_t -> option bres) (t : bson_type_t) (h : heap) (b : bson_t)
    (k : bytes) : option bres :=
  '(h, b, child) ← _bson_append_bson_begin malloc h b k (zlen k) t;
  match child with
  | None => Some (false, h, b)
  | Some child =>
      '(ok, h, child) ← body h child;
      if negb ok then Some (false, h, b) else
      '(h, b) ← _bson_append_bson_end h b child; Some (true, h, b)
  end.

Fixpoint write_val (v : bval) (h : heap) (b : bson_t) (k : bytes) : option bres :=
  let write_elems := fix write_elems (es : doc) (h : heap) (b : bson_t) : option bres :=
    match es with
    | [] => Some (true, h, b)
    | (k, v) :: es' =>
        '(ok, h, b) ← write_val v h b k;
        if negb ok then Some (false, h, b) else write_elems es' h b
    end in
  match v with
  | BDocument es => write_sub (write_elems es) BSON_TYPE_DOCUMENT h b k
  | BArray es => write_sub (write_elems es) BSON_TYPE_ARRAY h b k
  | v => bson_append_value malloc h b k (zlen k) (value_of v [])
  end.

Fixpoint write_elems (es : doc) (h : heap) (b : bson_t) : option bres :=
  match es with
  | [] => Some (true, h, b)
  | (k, v) :: es' =>
      '(ok, h, b) ← write_val v h b k;
      if negb ok then Some (false, h, b) else write_elems es' h b
  end.

(** Values an append stores unchanged: no terminator inside the texts passed
    as C strings, regular expression options sorted. *)
Fixpoint canonical (v : bval) : Prop :=
  let all := fix all (es : doc) : Prop :=
    match es with [] => True | (_, v) :: es' => canonical v /\ all es' end in
  match v with
  | BDocument es | BArray es => all es
  | v => as_appended v = v
  end.

Definition canonical_elems (es : doc) : Prop := Forall (fun e => canonical e.2) es.

Lemma canonical_elems_eq es :
  (fix all (es : doc) : Prop :=
    match es with [] => True | (_, v) :: es' => canonical v /\ all es' end) es <-> canonical_elems es.
Proof.
  unfold canonical_elems. induction es as [|[k v] es IH]; [split; [constructor|done]|].
  rewrite Forall_cons, IH. done.
Qed.

(** What is stored of a value that is written: inside documents and arrays too, the
    regular expression options the library knows, in its order, and the texts passed as
    C strings up to their first terminator. *)
Fixpoint as_stored (v : bval) : bval :=
  let all := fix all (es : doc) : doc :=
    match es with [] => [] | (k, v) :: es' => (k, as_stored v) :: all es' end in
  match v with
  | BDocument es => BDocument (all es)
  | BArray es => BArray (all es)
  | v => as_appended v
  end.
Definition stored_doc (es : doc) : doc := map (fun e => (e.1, as_stored e.2)) es.

Lemma stored_doc_eq es :
  (fix all (es : doc) : doc := match es with [] => [] | (k, v) :: es' => (k, as_stored v) :: all es' end) es = stored_doc es.
Proof. unfold stored_doc. induction es as [|[k v] es IH]; [done|]. cbn [map fst snd]. by rewrite IH. Qed.
Lemma as_stored_document es : as_stored (BDocument es) = BDocument (stored_doc es).
Proof. cbn [as_stored]. by rewrite stored_doc_eq. Qed.
Lemma as_stored_array es : as_stored (BArray es) = BArray (stored_doc es).
Proof. cbn [as_stored]. by rewrite stored_doc_eq. Qed.

Lemma canonical_stored es : canonical_elems es -> stored_doc es = es.
Proof.
  assert (Hall : forall es, Forall (fun e => canonical e.2 -> as_stored e.2 = e.2) es -> canonical_elems es -> stored_doc es = es).
  { induction 1 as [|[k v] es' He Hes IH]; intros Hc; [done|]. apply Forall_cons_1 in Hc as [Hv Hc]. unfold stored_doc in *. cbn [map fst snd] in *. by rewrite He, IH. }
  intros Hc. apply Hall; [|done]. apply Forall_forall. intros [k v] _. cbn [snd].
  apply (bval_ind' (fun v => canonical v -> as_stored v = v)).
  - clear. intros v. destruct v; try exact I; done.
  - intros es' IH Hv. rewrite as_stored_document. f_equal. apply canonical_elems_eq in Hv. by apply Hall.
  - intros es' IH Hv. rewrite as_stored_array. f_equal. apply canonical_elems_eq in Hv. by apply Hall.
  - done.
Qed.

(** Nothing gets longer. *)
Lemma zlen_until_nul s : zlen (until_nul s) <= zlen s.
Proof. induction s as [|c s IH]; [done|]. cbn [until_nul]. destruct (byte_eqb c x00); rewrite ?zlen_cons; [change (zlen (@nil byte)) with 0; pose proof (zlen_nonneg s); lia|lia]. Qed.
Lemma zlen_sort_options o : zlen (sort_options o) <= zlen o.
Proof.
  unfold zlen, sort_options. apply inj_le, submseteq_length, NoDup_submseteq; [apply NoDup_filter, (bool_decide_eq_true_1 (NoDup (txt "ilmsux"))); vm_compute; reflexivity|].
  intros c Hc. by apply list_elem_of_filter in Hc as [? _].
Qed.
Lemma zlen_as_appended v : zlen (enc_val (as_appended v)) <= zlen (enc_val v).
Proof.
  destruct v as [b|s|d|d|st data| |oid|b|t| |r o|c oid|c|s|c d|i|t i|i|lo hi| |]; try done.
  - cbn [as_appended enc_val]. pose proof (zlen_sort_options o). autorewrite with zlen. lia.
  - cbn [as_appended enc_val]. pose proof (zlen_until_nul c). autorewrite with zlen. lia.
  - cbn [as_appended enc_val]. pose proof (zlen_until_nul c). autorewrite with zlen. lia.
  - cbn [as_appended]. rewrite !enc_val_codewscope. pose proof (zlen_until_nul c). autorewrite with zlen. lia.
Qed.
Lemma zlen_stored_doc es : zlen (enc_elems (stored_doc es)) <= zlen (enc_elems es).
Proof.
  assert (Hall : forall es, Forall (fun e => zlen (enc_val (as_stored e.2)) <= zlen (enc_val e.2)) es -> zlen (enc_elems (stored_doc es)) <= zlen (enc_elems es)).
  { induction 1 as [|[k v] es' He Hes IH]; [done|]. change (stored_doc ((k, v) :: es')) with ((k, as_stored v) :: stored_doc es').
    rewrite !enc_elems_cons, !zlen_app, !zlen_enc_elem. cbn [fst snd] in *. lia. }
  apply Hall, Forall_forall. intros [k v] _. cbn [snd]. apply (bval_ind' (fun v => zlen (enc_val (as_stored v)) <= zlen (enc_val v))).
  - clear. intros v. destruct v; try exact I; apply zlen_as_appended.
  - intros es' IH. rewrite as_stored_document, !enc_val_document, !zlen_enc_doc. pose proof (Hall es' IH). lia.
  - intros es' IH. rewrite as_stored_array, !enc_val_array, !zlen_enc_doc. pose proof (Hall es' IH). lia.
  - intros c es' _. apply zlen_as_appended.
Qed.

(** [f] writes the elements [es] into any document with room for them. *)
Definition writes (f : heap -> bson_t -> option bres) (es : doc) : Prop :=
  forall h b pre d tail n, stored h b pre d tail -> writable b n -> zlen (enc_elems es) <= n ->
  exists h' b' tail', f h b = Some (true, h', b') /\ stored h' b' pre (d ++ es) tail' /\
    writable b' (n - zlen (enc_elems es)) /\ carry h b h' b'.

Lemma writes_key_arg (b : bson_t) n k v :
  writable b n -> 0 <= b_len b -> no_nul k -> zlen (enc_elems [(k, v)]) <= n -> key_arg k (zlen k) k.
Proof.
  intros ([Hr _] & _) Hb Hk Hn. rewrite enc_elems_1 in Hn. autorewrite with zlen in Hn.
  pose proof (zlen_nonneg (enc_val v)). unfold BSON_MAX_SIZE in Hr. split; [done|]. split; [lia|].
  exists []. right. by rewrite app_nil_r.
Qed.

(** Opening a child, writing into it and closing it. *)
Lemma sub_spec body t es k h b pre d tail n :
  is_sub t -> no_nul k -> writes body es -> stored h b pre d tail -> writable b n -> zlen (enc_elems [(k, sub t es)]) <= n ->
  exists h1 b1 child h2 child2 h3 b3 tail3,
    _bson_append_bson_begin malloc h b k (zlen k) t = Some (h1, b1, Some child) /\
    body h1 child = Some (true, h2, child2) /\ carry h1 child h2 child2 /\
    _bson_append_bson_end h2 b1 child2 = Some (h3, b3) /\ stored h3 b3 pre (d ++ [(k, sub t es)]) tail3 /\
    writable b3 (n - zlen (enc_elems [(k, sub t es)])) /\ carry h b h3 b3.
Proof.
  intros Ht Hk Hbody Hst Hw Hn. pose proof Hst as (Hlen & _).
  assert (0 <= b_len b) by (rewrite Hlen; apply zlen_nonneg).
  assert (Hka : key_arg k (zlen k) k) by (by eapply writes_key_arg).
  rewrite enc_elems_1, enc_val_sub, bval_type_sub in * by done. autorewrite with zlen in Hn.
  pose proof (zlen_nonneg (enc_elems es)).
  destruct (begin_spec h b pre d tail n k (zlen k) k t Hst Hw Hka Ht) as
    (h1 & b1 & child & tail1 & -> & Ho & Hdc & Hwc & Hf1 & Hre1 & Hrd1 & Hfl1 & Hk1 & Hrm); [rewrite zlen_hdr; lia|].
  destruct Ho as (L & Hsc & Eic & Ei1 & Hb1 & Ho1 & Hl1 & Hd1 & Hin1).
  destruct (Hbody h1 child _ [] tail1 _ Hsc Hwc) as (h2 & child2 & tail2 & E2 & Hs2 & Hw2 & (F2 & N2 & B2 & S2) & Hsf2 & Hk2);
    [rewrite zlen_hdr; lia|]. rewrite app_nil_l in Hs2.
  destruct (Hk2 Eic) as (Hbuf2 & Hdep2 & Eic2).
  destruct (end_spec h2 b1 child2 pre d k t es tail2) as
    (h3 & b3 & tail3 & E3 & Hs3 & (F3 & N3 & S3) & Ei3 & Hb3 & Hd3 & Hr3 & Ho3 & Hfl3); [|done|apply Hw2|].
  { exists L. split_and!; try done; try lia; congruence. }
  exists h1, b1, child, h2, child2, h3, b3, tail3. split; [done|]. split; [done|]. split; [done|]. split; [done|]. split; [done|].
  assert (Hz : forall e, zlen (enc_doc (d ++ [(k, sub t e)])) = zlen (enc_elems d) + zlen k + 7 + zlen (enc_doc e)).
  { intros e. rewrite zlen_enc_doc, enc_elems_app, enc_elems_1, enc_val_sub, bval_type_sub by done. zl. }
  assert (Hsame : same_flags b b3).
  { intros x Hx. rewrite Hfl3. destruct (Z.eq_dec x BSON_FLAG_IN_CHILD) as [->|Hne].
    - rewrite flag_clear_test. destruct Hw as (_ & _ & _ & ->). done.
    - rewrite flag_test_clear_other by (by apply other_flag_disjoint). by apply Hfl1. }
  rewrite Hz in Hl1. change (zlen (enc_doc [])) with 5 in Hl1. rewrite zlen_hdr in Hrm.
  rewrite zlen_app, zlen_hdr. pose proof Hs3 as (Hl3 & _). rewrite Hz in Hl3.
  destruct Hw as ([Hw1 _] & _ & Hro & Hic). rewrite zlen_enc_doc in Hlen. rewrite zlen_enc_doc in *.
  split; [|split; [|split; [done|]]].
  - split; [|split; [|split; rewrite Hsame by done; done]].
    + split; [lia|]. right. split; [congruence|]. lia.
    + intros _ Hch. rewrite Hd3. apply Hrd1; [done|]. rewrite Hsame in Hch by done. rewrite Hfl1 by done. done.
  - apply (frame_trans h b h1 b1); [done|]. split; [|split; [lia|split; [intros _; left; split; [done|congruence]|by apply (sizes_grow_trans h1 h2)]]].
    intros c Hc [Hcb|Hcb]; [congruence|]. rewrite F3 by (right; congruence). apply F2; [lia|]. right. congruence.
  - intros Ei. destruct (Hk1 Ei). split_and!; congruence.
Qed.

Lemma write_sub_spec body t es k :
  is_sub t -> no_nul k -> writes body es -> writes (fun h b => write_sub body t h b k) [(k, sub t es)].
Proof.
  intros Ht Hk Hbody h b pre d tail n Hst Hw Hn.
  destruct (sub_spec body t es k h b pre d tail n Ht Hk Hbody Hst Hw Hn) as (h1 & b1 & child & h2 & child2 & h3 & b3 & tail3 & E1 & E2 & _ & E3 & H).
  unfold write_sub. rewrite E1. sbind. rewrite E2. sbind. cbn [negb]. rewrite E3. by exists h3, b3, tail3.
Qed.

Lemma writes_nil : writes (fun h b => Some (true, h, b)) [].
Proof.
  intros h b pre d tail n Hst Hw _. exists h, b, tail. rewrite app_nil_r.
  change (zlen (enc_elems [])) with 0. rewrite Z.sub_0_r. split_and!; try done. apply carry_refl.
Qed.

(** A boxed value is stored as the append stores it. *)
Lemma writes_leaf v k :
  wf_val v -> zlen (enc_val v) < 2 ^ 31 -> no_nul k ->
  writes (fun h b => bson_append_value malloc h b k (zlen k) (value_of v [])) [(k, as_appended v)].
Proof.
  intros Hwf Hz Hk h b pre d tail n Hst Hw Hn. pose proof Hst as (Hlen & _).
  assert (0 <= b_len b) by (rewrite Hlen; apply zlen_nonneg).
  assert (Hka : key_arg k (zlen k) k) by (by eapply writes_key_arg).
  eapply appends_writable; [exact Hst| |done|exact Hn].
  eapply bson_append_value_of; [exact Hmalloc|exact Hst|exact Hka|exact Hwf|exact Hz].
Qed.

Lemma writes_app f g es1 es2 :
  writes f es1 -> writes g es2 ->
  writes (fun h b => '(ok, h, b) ← f h b; if negb ok then Some (false, h, b) else g h b) (es1 ++ es2).
Proof.
  intros Hf Hg h b pre d tail n Hst Hw Hn. rewrite enc_elems_app, zlen_app in *.
  pose proof (zlen_nonneg (enc_elems es1)). pose proof (zlen_nonneg (enc_elems es2)).
  destruct (Hf h b pre d tail n Hst Hw) as (h1 & b1 & tail1 & -> & Hs1 & Hw1 & Hc1); [lia|]. sbind. cbn [negb].
  destruct (Hg h1 b1 pre _ tail1 _ Hs1 Hw1) as (h2 & b2 & tail2 & -> & Hs2 & Hw2 & Hc2); [lia|].
  exists h2, b2, tail2. split; [done|]. rewrite <- app_assoc in Hs2. split; [done|].
  split; [|by eapply carry_trans]. by rewrite Z.sub_add_distr.
Qed.

(** Writing a tree in place produces the encoding of what is stored of it. *)
Lemma write_elems_writes es :
  Forall (fun e => forall k, no_nul k -> wf_val e.2 -> zlen (enc_val e.2) < 2 ^ 31 ->
    writes (fun h b => write_val e.2 h b k) [(k, as_stored e.2)]) es ->
  wf_elems es -> zlen (enc_elems es) < 2 ^ 31 -> writes (write_elems es) (stored_doc es).
Proof.
  induction 1 as [|[k v] es He Hes IH]; intros Hwf Hz; [apply writes_nil|].
  apply Forall_cons_1 in Hwf as [[Hk Hv] Hwf]. rewrite enc_elems_cons, zlen_app, zlen_enc_elem in Hz. cbn [fst snd] in *.
  pose proof (zlen_nonneg (enc_elems es)). pose proof (zlen_nonneg k). pose proof (zlen_nonneg (enc_val v)).
  exact (writes_app _ _ [(k, as_stored v)] (stored_doc es) (He k Hk Hv ltac:(lia)) (IH Hwf ltac:(lia))).
Qed.

Lemma write_val_writes v : forall k, no_nul k -> wf_val v -> zlen (enc_val v) < 2 ^ 31 ->
  writes (fun h b => write_val v h b k) [(k, as_stored v)].
Proof.
  apply (bval_ind' (fun v => forall k, no_nul k -> wf_val v -> zlen (enc_val v) < 2 ^ 31 ->
    writes (fun h b => write_val v h b k) [(k, as_stored v)])).
  - clear v. intros v. destruct v; try exact I; intros; apply writes_leaf; done.
  - intros es IH k Hk Hwf Hz. rewrite as_stored_document. apply (write_sub_spec _ BSON_TYPE_DOCUMENT); [by left|done|].
    apply wf_val_document in Hwf. rewrite enc_val_document, zlen_enc_doc in Hz. apply write_elems_writes; [|done|lia].
    eapply Forall_impl; [exact IH|done].
  - intros es IH k Hk Hwf Hz. rewrite as_stored_array. apply (write_sub_spec _ BSON_TYPE_ARRAY); [by right|done|].
    apply wf_val_array in Hwf. rewrite enc_val_array, zlen_enc_doc in Hz. apply write_elems_writes; [|done|lia].
    eapply Forall_impl; [exact IH|done].
  - intros c es IH k Hk Hwf Hz. by apply writes_leaf.
Qed.

Lemma write_elems_stored es : wf_elems es -> zlen (enc_elems es) < 2 ^ 31 -> writes (write_elems es) (stored_doc es).
Proof.
  intros. apply write_elems_writes; [|done..]. apply Forall_forall. intros e _ k.
  apply write_val_writes.
Qed.

Lemma write_elems_spec es :
  wf_elems es -> canonical_elems es -> writes (write_elems es) es.
Proof.
  intros Hwf Hc h b pre d tail n Hst Hw Hn. pose proof Hw as ([Hr _] & _). pose proof (stored_len _ _ _ _ _ Hst). unfold BSON_MAX_SIZE in Hr.
  pose proof (write_elems_stored es Hwf ltac:(lia)) as H'. rewrite (canonical_stored es Hc) in H'. by apply (H' h b pre d tail n).
Qed.

Lemma bson_init_writable junk n : 5 + n <= BSON_MAX_SIZE -> writable (bson_init junk) n.
Proof. intros Hn. split; [split; [done|by left]|]. by split_and!. Qed.
End Build.
