(* ===== verification/BsonDocSpec.v ===== *)
(** Whole documents: construction from bytes, copies, concatenation, copying
    with exclusions, stealing, and arrays built with the array builder. *)

From S2P Require Import Prelude CString Text IntEncode BsonTypes BsonIter BsonSpec BsonIterSpec.
From S2P Require Import BsonIterFind BsonView BsonT BsonTSpec BsonKeys BsonAppend BsonAppendSpec.
From S2P Require Import BsonBuild.

(** ** Construction and copies *)

Section Docs.
Context (malloc : Z -> bytes).
Hypothesis Hmalloc : forall n, 0 <= n -> zlen (malloc n) = n.

(** A document of the given allocation size, holding the empty document. *)
Lemma bson_sized_new_stored h junk size :
  zlen junk = BSON_INLINE_DATA_SIZE -> 0 <= size <= BSON_MAX_SIZE ->
  exists h' b tail, bson_sized_new malloc h junk size = Some (h', b) /\ stored h' b [] [] tail /\
    size <= 5 + zlen tail /\ (forall n, 5 + n <= BSON_MAX_SIZE -> writable b n) /\
    (forall c, (c < h_next h)%nat -> h_cells h' !! c = h_cells h !! c) /\
    (is_inline b = false -> b_buf b = h_next h /\ b_depth b = 0) /\
    flag_test (b_flags b) BSON_FLAG_STATIC = false.
Proof.
  intros Hj Hs. unfold bson_sized_new. destruct (Z.ltb_spec BSON_MAX_SIZE size); [lia|].
  destruct (Z.leb_spec size BSON_INLINE_DATA_SIZE) as [Hi|Hi].
  - destruct (bson_init_stored h junk Hj) as [tail Hst].
    eexists h, _, tail. split; [done|]. pose proof Hst as (_ & _ & _ & Hz).
    change (is_inline (bson_init junk)) with true in Hz. destruct Hz as [_ Hz]. rewrite zlen_app in Hz.
    change (zlen (enc_doc [])) with 5 in Hz.
    split; [exact Hst|]. split; [lia|]. split; [|done].
    intros n Hn. split; [split; [done|by left]|]. by split_and!.
  - unfold BSON_INLINE_DATA_SIZE in *. cbn zeta. rewrite Z.max_r by lia.
    destruct (fresh_split malloc Hmalloc size 5) as (old & tail & -> & Ho & Ht); [lia|].
    rewrite store_at_0 by (by rewrite Ho). sbind. cbn [heap_alloc].
    eexists _, _, tail. split; [done|]. split; [|split; [lia|]].
    + unfold stored, bson_buffer. change (is_inline _) with false. cbn. rewrite lookup_insert_eq. sbind.
      change (zlen (enc_doc [])) with 5. split; [done|]. split; [unfold BSON_MAX_SIZE; lia|].
      split; [done|]. cbn [app].
      change (empty_doc ++ tail) with (enc_doc [] ++ tail). rewrite zlen_app.
      change (zlen (enc_doc [])) with 5. pose proof (zlen_nonneg tail). unfold zlen in *. lia.
    + split; [|split; [|by split]].
      * intros n Hn. split; [split; [done|right; split; [done|cbn; lia]]|]. by split_and!.
      * intros c Hc. cbn. rewrite lookup_insert_ne by lia. done.
Qed.

(** Writing an encoded document over the empty one. *)
Lemma store_whole h b tail e :
  stored h b [] [] tail -> zlen (enc_doc e) <= 5 + zlen tail -> zlen (enc_doc e) <= BSON_MAX_SIZE ->
  (is_inline b = false -> b_depth b = 0) ->
  exists h' b' tail', bson_store h b 0 (enc_doc e) = Some (h', b') /\
    stored h' (set_len b' (zlen (enc_doc e))) [] e tail' /\ heap_frame h h' b' /\
    is_inline b' = is_inline b /\ b_buf b' = b_buf b /\ b_flags b' = b_flags b /\
    b_realloc b' = b_realloc b /\ b_depth b' = b_depth b.
Proof.
  intros Hst Hz Hm Hd. pose proof Hst as (Hl & _ & Hb & Hi). rewrite app_nil_l in Hb, Hi.
  change (zlen (@nil byte)) with 0 in *.
  pose proof (zlen_nonneg (enc_doc e)). set (m0 := enc_doc [] ++ tail) in *.
  assert (Hm0 : zlen m0 = 5 + zlen tail) by (subst m0; rewrite zlen_app; done).
  set (old := take (length (enc_doc e)) m0). set (tail' := drop (length (enc_doc e)) m0).
  assert (E0 : m0 = [] ++ old ++ tail') by (by rewrite app_nil_l; unfold old, tail'; rewrite take_drop).
  assert (Hold : zlen (enc_doc e) = zlen old).
  { subst old. unfold zlen in *. rewrite length_take. lia. }
  rewrite E0 in Hb.
  destruct (bson_store_spec h b [] old tail' 0 0 (enc_doc e) Hb) as (h' & b' & -> & Hb' & Hl' & Hrw); [done..|].
  exists h', b', tail'. split; [done|].
  assert (Hzt : zlen (enc_doc e ++ tail') = zlen m0) by (rewrite E0, app_nil_l, !zlen_app; lia).
  split; [|by destruct Hrw].
  apply (rewritten_stored h b [] [] tail); try done.
  { eapply rewritten_trans; [exact Hrw|apply rewritten_len]. }
  intros Ei. rewrite Hd by done. apply zlen_nonneg.
Qed.

(** [bson_new_from_data] accepts an encoded document and copies it. *)
Lemma bson_new_from_data_enc h junk e rest :
  zlen junk = BSON_INLINE_DATA_SIZE -> zlen (enc_doc e) <= BSON_MAX_SIZE ->
  exists h' b tail, bson_new_from_data malloc h junk (enc_doc e ++ rest) (zlen (enc_doc e)) =
    Some (Some (h', b)) /\ stored h' b [] e tail /\
    (forall c, (c < h_next h)%nat -> h_cells h' !! c = h_cells h !! c).
Proof.
  intros Hj Hm. unfold bson_new_from_data.
  assert (H5 : 5 <= zlen (enc_doc e)) by (rewrite zlen_enc_doc; zl).
  destruct (Z.ltb_spec (zlen (enc_doc e)) 5); [lia|].
  destruct (Z.ltb_spec BSON_MAX_SIZE (zlen (enc_doc e))); [lia|]. cbn [orb].
  unfold BSON_MAX_SIZE in Hm.
  assert (rd (enc_doc e ++ rest) (zlen (enc_doc e) - 1) = Some x00) as ->.
  { rewrite enc_doc_app, app_assoc, rd_at; [done|]. rewrite zlen_enc_doc. zl. }
  sbind. rewrite byte_eqb_refl. cbn [negb]. unfold mlib_read_i32le.
  assert (mlib_read_u32le (enc_doc e ++ rest) 0 = Some (zlen (enc_doc e))) as ->.
  { rewrite enc_doc_app. apply mlib_read_u32le_0. lia. }
  sbind. rewrite s32_id by lia. rewrite Z.eqb_refl. cbn [negb].
  destruct (bson_sized_new_stored h junk (zlen (enc_doc e)) Hj) as
    (h1 & b1 & tail1 & -> & Hst & Hsz & Hw & Hfr & Hbuf & _); [unfold BSON_MAX_SIZE; lia|]. sbind.
  rewrite slice_at_end_0 by done. sbind.
  destruct (store_whole h1 b1 tail1 e Hst Hsz) as (h2 & b2 & tail2 & -> & Hst2 & (F2 & N2 & S2) & Hi2 & Hb2 & _);
    [unfold BSON_MAX_SIZE; lia| |].
  { intros Ei. by apply Hbuf. }
  sbind. exists h2, (set_len b2 (zlen (enc_doc e))), tail2. split; [done|]. split; [done|].
  intros c Hc. rewrite F2; [by apply Hfr|]. rewrite Hi2, Hb2. destruct (is_inline b1); [by left|right].
  destruct Hbuf as [-> _]; [done|]. lia.
Qed.

(** [bson_copy_to] into other memory; the source keeps its own. *)
Lemma bson_copy_to_stored h b pre d tail :
  stored h b pre d tail -> exists h' dst tail', bson_copy_to malloc h b = Some (h', dst) /\
    stored h' dst [] d tail' /\ (forall c, (c < h_next h)%nat -> h_cells h' !! c = h_cells h !! c) /\
    (is_inline dst = false -> b_buf dst = h_next h).
Proof.
  intros Hst. unfold bson_copy_to. destruct (is_inline b) eqn:Ei.
  - exists h. eexists. exists tail. split; [done|].
    assert (Ed : is_inline (set_flags b (flag_add BSON_FLAG_STATIC BSON_FLAG_INLINE)) = true) by done.
    split; [|split; [done|by rewrite Ed]]. unfold stored, bson_buffer in *. rewrite Ei in Hst. rewrite Ed.
    destruct Hst as (Hl & Hm & Hb & -> & Hz). done.
  - rewrite (stored_data _ _ _ _ _ Hst). sbind. destruct Hst as (Hl & Hm & _). rewrite Hl.
    rewrite slice_at_end_0 by done. sbind.
    assert (H5 : 5 <= zlen (enc_doc d)) by (rewrite zlen_enc_doc; zl).
    pose proof (round_up_bounds (zlen (enc_doc d)) ltac:(lia)) as Hr.
    set (n := _bson_round_up_alloc_size (zlen (enc_doc d))) in *.
    destruct (fresh_split malloc Hmalloc n (zlen (enc_doc d))) as (old & tail' & -> & Ho & Ht); [lia|].
    rewrite store_at_0 by (by rewrite Ho). sbind. cbn [heap_alloc].
    eexists _, _, tail'. split; [done|].
    split; [|split; [intros c Hc; cbn; rewrite lookup_insert_ne by lia; done|done]].
    unfold stored, bson_buffer. change (is_inline _) with false. cbn. rewrite lookup_insert_eq. sbind.
    split; [done|]. split; [done|]. split; [done|]. pose proof (zlen_nonneg tail').
    rewrite zlen_app. lia.
Qed.

(** [bson_concat] appends the elements of the source. *)
Lemma bson_concat_spec h b pre d tail e rest :
  stored h b pre d tail -> zlen (enc_doc e) < 2 ^ 32 ->
  if bool_decide (e = [])
  then bson_concat malloc h b (enc_doc e ++ rest) (zlen (enc_doc e)) = Some (true, h, b)
  else appends h b pre d e (bson_concat malloc h b (enc_doc e ++ rest) (zlen (enc_doc e))).
Proof.
  intros Hst Hm. unfold bson_concat. rewrite bson_empty_enc. sbind. case_bool_decide; [done|].
  rewrite enc_doc_app, padd_at by zl. sbind. rewrite zlen_enc_doc in *. pose proof (zlen_nonneg (enc_elems e)).
  rewrite u32_id by lia. replace (zlen (enc_elems e) + 5 - 5) with (zlen (enc_elems e)) by lia.
  eapply apply_arguments_spec; [done|exact Hst|].
  apply (builds_add (app_ret append_nil) [] (enc_elems e) (x00 :: rest) builds_nil).
Qed.

(** ** Copying with exclusions *)

Definition kept (ex : list bytes) (e : doc) : doc := filter (fun x => x.1 ∉ ex) e.
Definition copied (e : doc) : doc := map (fun x => (x.1, as_appended x.2)) e.

Lemma should_ignore_spec ex k rest :
  Forall no_nul ex -> no_nul k ->
  should_ignore (map (fun x => x ++ [x00]) ex) (k ++ x00 :: rest) = Some (bool_decide (k ∈ ex)).
Proof.
  intros Hex Hk. induction Hex as [|x ex Hx Hex IH]; cbn [map should_ignore]; [done|].
  destruct (strcmp_spec k x rest [] Hk Hx) as (r & -> & Hr). sbind.
  destruct (Z.eqb_spec r 0) as [E|E].
  - apply Hr in E as ->. rewrite bool_decide_true by (apply elem_of_cons; by left). done.
  - rewrite IH. f_equal. apply bool_decide_ext. rewrite elem_of_cons. tauto.
Qed.

Lemma copy_excluding_loop_spec ex : Forall no_nul ex -> forall e fuel pre rest len it h b dpre d tail n,
  wf_elems e -> len = zlen pre + zlen (enc_elems e) + 1 ->
  at_pos pre (enc_elems e ++ x00 :: rest) len it -> (length e < fuel)%nat ->
  stored h b dpre d tail -> writable b n -> zlen (enc_elems (copied (kept ex e))) <= n ->
  exists h' b' tail',
    copy_excluding_loop malloc fuel h b it (map (fun x => x ++ [x00]) ex) = Some (h', b') /\
    stored h' b' dpre (d ++ copied (kept ex e)) tail' /\ carry h b h' b'.
Proof.
  intros Hex. induction e as [|[k v] e IH]; intros [|fuel] pre rest len it h b dpre d tail n Hwf Hl Hat Hf Hst Hw Hn;
    simpl in Hf; try lia; cbn [copy_excluding_loop].
  - destruct (next_end pre rest len it) as (it' & -> & _); [done|rewrite Hl; simpl; zl|]. sbind. cbn [negb].
    exists h, b, tail. rewrite app_nil_r. split; [done|]. split; [done|]. apply carry_refl.
  - apply Forall_cons_1 in Hwf as [He Hwf]. rewrite enc_elems_cons in *. rewrite <- app_assoc in Hat.
    rewrite (next_elem pre (k, v) (enc_elems e ++ x00 :: rest) len it He) by (done || zl). sbind. cbn [negb].
    rewrite bson_iter_key_elem. sbind. destruct (He) as [Hk Hv]. cbn [fst snd] in Hk, Hv.
    rewrite should_ignore_spec by done. sbind. destruct (Hat) as (_ & _ & _ & Hp & Hmax).
    assert (Hlen : len = zlen (pre ++ enc_elem (k, v)) + zlen (enc_elems e) + 1) by zl.
    assert (Hat' : at_pos (pre ++ enc_elem (k, v)) (enc_elems e ++ x00 :: rest) len
      (elem_iter pre (k, v) (enc_elems e ++ x00 :: rest) len)) by (by apply at_pos_next).
    unfold kept in *. rewrite filter_cons in *. cbn [fst] in *. case_bool_decide as Ein.
    + rewrite decide_False in * by tauto. eapply IH; try done. lia.
    + rewrite decide_True in * by done. change (copied ((k, v) :: ?l)) with ((k, as_appended v) :: copied l) in *.
      rewrite enc_elems_cons, zlen_app in Hn.
      pose proof (zlen_nonneg (enc_elems (copied (filter (fun x => x.1 ∉ ex) e)))).
      assert (Hze : zlen (enc_elem (k, v)) < 2 ^ 31) by zl.
      pose proof (elem_iter_on_value pre (k, v) (enc_elems e ++ x00 :: rest) len He Hze) as Hon.
      rewrite zlen_enc_elem in Hze. cbn [fst snd] in Hze, Hon. pose proof (zlen_nonneg k).
      assert (Hkey : key_arg (k ++ x00 :: enc_val v ++ enc_elems e ++ x00 :: rest) (-1) k).
      { pose proof (zlen_nonneg (enc_val v)). split; [done|]. split; [lia|]. eexists. left. done. }
      assert (Happ : appends h b dpre d [(k, as_appended v)]
        (bson_append_iter malloc h b None 0 (elem_iter pre (k, v) (enc_elems e ++ x00 :: rest) len))).
      { assert (E : bson_append_iter malloc h b None 0 (elem_iter pre (k, v) (enc_elems e ++ x00 :: rest) len) =
          bson_append_iter malloc h b (Some (k ++ x00 :: enc_val v ++ enc_elems e ++ x00 :: rest)) (-1)
            (elem_iter pre (k, v) (enc_elems e ++ x00 :: rest) len)).
        { unfold bson_append_iter. rewrite bson_iter_key_elem. done. }
        rewrite E, (bson_append_iter_value _ _ _ _ _ _ _ _ _ Hon).
        eapply bson_append_value_of; [exact Hmalloc|exact Hst|exact Hkey|exact Hv|]. lia. }
      assert (Hone : zlen (enc_elems [(k, as_appended v)]) = zlen (enc_elem (k, as_appended v))).
      { cbn [enc_elems]. by rewrite app_nil_r. }
      destruct (appends_writable h b dpre d tail _ _ n Hst Happ Hw) as (h1 & b1 & tail1 & -> & Hs1 & Hw1 & Hc1); [lia|].
      sbind.
      destruct (IH fuel _ rest len _ h1 b1 dpre _ tail1 _ Hwf Hlen Hat' ltac:(lia) Hs1 Hw1) as
        (h2 & b2 & tail2 & -> & Hs2 & Hc2); [lia|].
      exists h2, b2, tail2. rewrite <- app_assoc in Hs2. split; [done|]. split; [done|]. by eapply carry_trans.
Qed.

Lemma bson_copy_to_excluding_spec ex h b dpre d tail n e rest :
  Forall no_nul ex -> wf_elems e -> zlen (enc_doc e) < 2 ^ 31 ->
  stored h b dpre d tail -> writable b n -> zlen (enc_elems (copied (kept ex e))) <= n ->
  exists h' b' tail',
    bson_copy_to_excluding_noinit malloc h (enc_doc e ++ rest) (zlen (enc_doc e)) b
      (map (fun x => x ++ [x00]) ex) = Some (h', b') /\
    stored h' b' dpre (d ++ copied (kept ex e)) tail' /\ carry h b h' b'.
Proof.
  intros Hex Hwf Hm Hst Hw Hn. unfold bson_copy_to_excluding_noinit, bson_copy_to_excluding_noinit_va, bson_iter_init.
  destruct (Z.ltb_spec (zlen (enc_doc e)) 5); [rewrite zlen_enc_doc in *; zl|].
  eapply (copy_excluding_loop_spec ex Hex e _ (le_bytes 4 (zlen (enc_doc e))) rest (zlen (enc_doc e)));
    [done| |by apply at_pos_start|apply doc_fuel|done..].
  rewrite zlen_enc_doc. zl.
Qed.

(** ** The array builder *)

(** The elements of an array with these values. *)
Definition numbered (vs : list bval) : doc := imap (fun i v => (dec (Z.of_nat i), v)) vs.

Lemma numbered_snoc vs v : numbered (vs ++ [v]) = numbered vs ++ [(dec (zlen vs), v)].
Proof. unfold numbered. rewrite imap_app. simpl. rewrite Nat.add_0_r. done. Qed.

(** The builder holds an array of the values [vs]. *)
Definition builds_array (h : heap) (bab : bson_array_builder_t) (pre : bytes) (vs : list bval)
    (tail : bytes) : Prop :=
  stored h (bab_bson bab) pre (numbered vs) tail /\ bab_index bab = zlen vs.

Lemma bson_array_builder_new_spec h : exists tail, builds_array h bson_array_builder_new [] [] tail.
Proof.
  destruct (bson_init_stored h (replicate (Z.to_nat BSON_INLINE_DATA_SIZE) x00)) as [tail Hst]; [done|].
  by exists tail.
Qed.

Lemma builder_key_spec bab : 0 <= bab_index bab < 2 ^ 32 ->
  exists rest, builder_key malloc bab =
    Some (dec (bab_index bab) ++ x00 :: rest, zlen (dec (bab_index bab))).
Proof.
  intros Hi. unfold builder_key.
  destruct (bson_uint32_to_string_dec (bab_index bab) (malloc 16) Hi (Hmalloc 16 ltac:(lia))) as [rest ->]. sbind.
  pose proof (dec_length (bab_index bab) Hi). destruct (Z.ltb_spec (zlen (dec (bab_index bab))) 16); [|lia].
  by exists rest.
Qed.

Lemma builder_key_arg i rest : 0 <= i < 2 ^ 32 -> key_arg (dec i ++ x00 :: rest) (zlen (dec i)) (dec i).
Proof.
  intros Hi. split; [apply dec_no_nul|]. split; [pose proof (dec_length i Hi); lia|].
  exists (x00 :: rest). by right.
Qed.

(** Any appender of one value [v], through the builder, adds [v] under the
    next numeral; when it does not fit the builder is unchanged. *)
Lemma builder_append_spec f h bab pre vs tail v :
  builds_array h bab pre vs tail -> zlen vs < 2 ^ 32 - 1 ->
  (forall key kl k, key_arg key kl k ->
     appends h (bab_bson bab) pre (numbered vs) [(k, v)] (f h (bab_bson bab) key kl)) ->
  exists ok h' bab', bson_array_builder_append_impl malloc f h bab = Some (ok, h', bab') /\
    ok = fits h (bab_bson bab) (zlen (enc_elems [(dec (zlen vs), v)])) /\
    if ok then exists tail', builds_array h' bab' pre (vs ++ [v]) tail' else h' = h /\ bab' = bab.
Proof.
  intros [Hst Hi] Hn Hf. pose proof (zlen_nonneg vs). unfold bson_array_builder_append_impl.
  destruct (builder_key_spec bab ltac:(lia)) as [rest ->]. sbind.
  destruct (Hf _ _ _ (builder_key_arg (bab_index bab) rest ltac:(lia))) as (h' & b' & -> & Hp). sbind.
  rewrite Hi in *. destruct (fits h (bab_bson bab) _) eqn:E.
  - eexists true, h', _. split; [done|]. split; [done|]. destruct Hp as (tail' & Hst' & _).
    exists tail'. split; cbn; [by rewrite numbered_snoc|]. rewrite u32_id by lia. zl.
  - destruct Hp as [-> ->]. eexists false, h, _. split; [done|]. split; [done|]. split; [done|].
    rewrite <- Hi. by destruct bab.
Qed.

(** ** Stealing *)

(** The destination takes the document over; the source is left empty. *)
Lemma bson_steal_stored h junk src pre d tail :
  stored h src pre d tail ->
  flag_test (b_flags src) (Z.lor (Z.lor BSON_FLAG_CHILD BSON_FLAG_IN_CHILD) BSON_FLAG_RDONLY) = false ->
  (is_inline src = false -> b_alloc src = Some (b_buf src)) ->
  exists dst src', bson_steal h junk src = (true, dst, src') /\ stored h dst pre d tail /\ b_len src' = 0.
Proof.
  intros Hst Hf Ha. unfold bson_steal. rewrite Hf. destruct (is_inline src) eqn:Ei.
  - eexists _, _. split; [done|]. split; [|done]. destruct Hst as (Hl & Hm & Hb & Hi).
    unfold stored, bson_buffer in *. change (is_inline (set_data _ _)) with true. rewrite Ei in *. done.
  - rewrite (Ha eq_refl). cbn [from_option id]. eexists _, _. split; [done|]. split; [|done].
    assert (Ed : is_inline (Bson (flag_add (b_flags src) BSON_FLAG_STATIC) (b_len src) (b_data src) (b_depth src)
      (b_buf src) (b_offset src) (Some (b_buf src)) (b_realloc src)) = false).
    { unfold is_inline. cbn. rewrite flag_test_add. unfold is_inline in Ei. by rewrite Ei. }
    unfold stored, bson_buffer in *. rewrite Ei in Hst. rewrite Ed. exact Hst.
Qed.

(** [bson_reinit] empties the document in place. *)
Lemma bson_reinit_stored h b pre d tail :
  stored h b pre d tail -> exists h' b' tail', bson_reinit h b = Some (h', b') /\ stored h' b' pre [] tail' /\
    heap_frame h h' b'.
Proof.
  intros Hst. pose proof Hst as (Hl & Hm & Hb & Hi). unfold bson_reinit.
  assert (Hb0 : bson_buffer h (set_len b 5) = Some (pre ++ enc_doc d ++ tail, zlen pre)) by exact Hb.
  assert (H5 : (5 <= length (enc_doc d))%nat) by (pose proof (zlen_enc_doc d) as E; unfold zlen in E; lia).
  set (rest := drop 5 (enc_doc d) ++ tail).
  assert (E : enc_doc d ++ tail = take 5 (enc_doc d) ++ rest).
  { subst rest. by rewrite app_assoc, take_drop. }
  rewrite E in Hb0.
  destruct (bson_store_spec h (set_len b 5) pre _ _ (zlen pre) 0 empty_doc Hb0) as (h' & b' & -> & Hb' & Hl' & Hrw);
    [lia|unfold zlen; rewrite length_take; change (length empty_doc) with 5%nat; lia|].
  exists h', b', rest. split; [done|]. split; [|by destruct Hrw].
  apply (rewritten_stored h b pre d tail); try done.
  - eapply rewritten_trans; [apply rewritten_len|exact Hrw].
  - rewrite E, !zlen_app. f_equal. unfold zlen. rewrite length_take. change (length (enc_doc [])) with 5%nat. lia.
  - intros Ei. destruct (is_inline b); [done|]. subst rest. rewrite zlen_app. pose proof (zlen_nonneg (drop 5 (enc_doc d))).
    lia.
Qed.
End Docs.
