(* ===== verification/BsonReader.v ===== *)
(** The document reader: [bson/bson-reader.c]. A reader over a read callback
    (a file descriptor, for the tool) with a buffer it refills and grows, and a
    reader over bytes in memory. *)

From Stdlib Require Import Strings.String.
From S2P Require Import Prelude CString Text IntEncode BsonTypes BsonIter BsonSpec BsonView.

(** ** State *)

Definition BSON_ERROR_READER_BADFD : Z := 1.

(** A read callback on a handle of type [H]: the number returned, the bytes
    put at the pointer it is given, and the handle afterwards; [None] when it
    does not return. *)
Definition bson_reader_read_func_t (H : Type) : Type := H -> Z -> option (Z * bytes * H).
Definition bson_reader_destroy_func_t (H : Type) : Type := H -> H.

Record bson_reader_handle_t (H : Type) := ReaderHandle {
  rh_handle : H;
  rh_done : bool;
  rh_failed : bool;
  rh_end : Z;
  rh_len : Z;
  rh_offset : Z;
  rh_bytes_read : Z;
  rh_data : bytes;
  rh_read_func : bson_reader_read_func_t H;
  rh_destroy_func : option (bson_reader_destroy_func_t H)
}.
Arguments ReaderHandle {H}.
Arguments rh_handle {H}.
Arguments rh_done {H}.
Arguments rh_failed {H}.
Arguments rh_end {H}.
Arguments rh_len {H}.
Arguments rh_offset {H}.
Arguments rh_bytes_read {H}.
Arguments rh_data {H}.
Arguments rh_read_func {H}.
Arguments rh_destroy_func {H}.

Record bson_reader_data_t := ReaderData { rd_data : bytes; rd_length : Z; rd_offset : Z }.

Inductive bson_reader_t (H : Type) :=
  | BSON_READER_HANDLE (reader : bson_reader_handle_t H)
  | BSON_READER_DATA (reader : bson_reader_data_t).
Arguments BSON_READER_HANDLE {H}.
Arguments BSON_READER_DATA {H}.

(** A document in the reader's memory: its data pointer and length. *)
Definition view : Type := bytes * Z.

Section Reader.
Context {H : Type} (malloc : Z -> bytes).
Implicit Types (r : bson_reader_handle_t H) (rf : bson_reader_read_func_t H).

(** ** The buffer *)

(** A read that returned nothing more: [failed] is set when it is given. *)
Definition reader_stop r (h : H) (data : bytes) (failed : bool) : bson_reader_handle_t H :=
  ReaderHandle h true failed (rh_end r) (rh_len r) (rh_offset r) (rh_bytes_read r) data
    (rh_read_func r) (rh_destroy_func r).

(** A read of [ret] bytes at the end of the data. *)
Definition reader_got r (h : H) (data : bytes) (ret : Z) : bson_reader_handle_t H :=
  ReaderHandle h (rh_done r) (rh_failed r) (u64 (rh_end r + ret)) (rh_len r) (rh_offset r)
    (u64 (rh_bytes_read r + ret)) data (rh_read_func r) (rh_destroy_func r).

(** The valid data moved to the head of the buffer. *)
Definition reader_compact r : option (bson_reader_handle_t H) :=
  valid ← slice (rh_data r) (rh_offset r) (u64 (rh_end r - rh_offset r));
  data ← store (rh_data r) 0 valid;
  Some (ReaderHandle (rh_handle r) (rh_done r) (rh_failed r) (u64 (rh_end r - rh_offset r)) (rh_len r) 0
          (rh_bytes_read r) data (rh_read_func r) (rh_destroy_func r)).

Definition _bson_reader_handle_fill_buffer r : option (bson_reader_handle_t H) :=
  if negb (rh_done r) && (rh_offset r =? 0) && (rh_end r =? 0) then
    '(ret, got, h) ← rh_read_func r (rh_handle r) (rh_len r);
    data ← store (rh_data r) 0 got;
    if ret <=? 0 then Some (reader_stop r h data (rh_failed r)) else Some (reader_got r h data ret)
  else
    r ← reader_compact r;
    '(ret, got, h) ← rh_read_func r (rh_handle r) (u64 (rh_len r - rh_end r));
    data ← store (rh_data r) (rh_end r) got;
    let r := if ret <=? 0 then reader_stop r h data (ret <? 0) else reader_got r h data ret in
    if (rh_offset r =? 0) && (rh_end r <=? rh_len r) then Some r else None.

Definition _bson_reader_handle_grow_buffer r : bson_reader_handle_t H :=
  let size := u64 (rh_len r * 2) in
  ReaderHandle (rh_handle r) (rh_done r) (rh_failed r) (rh_end r) size (rh_offset r) (rh_bytes_read r)
    (realloc malloc (rh_data r) size) (rh_read_func r) (rh_destroy_func r).

Definition _bson_reader_handle_tell r : Z :=
  s64 (s64 (s64 (rh_bytes_read r) - s64 (rh_end r)) + s64 (rh_offset r)).

(** ** Reading *)

Definition reader_advance r (n : Z) : bson_reader_handle_t H :=
  ReaderHandle (rh_handle r) (rh_done r) (rh_failed r) (rh_end r) (rh_len r) (u64 (rh_offset r + n))
    (rh_bytes_read r) (rh_data r) (rh_read_func r) (rh_destroy_func r).

(** The result is the document, or [None] for [NULL], with [*reached_eof]. *)
Fixpoint _bson_reader_handle_read (fuel : nat) r : option (option view * bool * bson_reader_handle_t H) :=
  if rh_done r then Some (None, negb (rh_failed r), r) else
  match fuel with
  | O => None
  | S fuel' =>
      if u64 (rh_end r - rh_offset r) <? 4 then
        r ← _bson_reader_handle_fill_buffer r; _bson_reader_handle_read fuel' r
      else
      blen ← mlib_read_i32le (rh_data r) (rh_offset r);
      if blen <? 5 then Some (None, false, r) else
      if s32 (u64 (rh_end r - rh_offset r)) <? blen then
        let r := if s32 (rh_len r) <? blen then _bson_reader_handle_grow_buffer r else r in
        r ← _bson_reader_handle_fill_buffer r; _bson_reader_handle_read fuel' r
      else
      p ← padd (rh_data r) (rh_offset r);
      ok ← bson_init_static p (u32 blen);
      if (ok : bool) then Some (Some (p, u32 blen), false, reader_advance r blen)
      else Some (None, false, r)
  end.

Definition _bson_reader_data_read (d : bson_reader_data_t) :
    option (option view * bool * bson_reader_data_t) :=
  if u64 (rd_offset d + 4) <? rd_length d then
    blen ← mlib_read_i32le (rd_data d) (rd_offset d);
    if blen <? 5 then Some (None, false, d) else
    if s32 (u64 (rd_length d - rd_offset d)) <? blen then Some (None, false, d) else
    p ← padd (rd_data d) (rd_offset d);
    ok ← bson_init_static p (u32 blen);
    if (ok : bool)
    then Some (Some (p, u32 blen), false, ReaderData (rd_data d) (rd_length d) (u64 (rd_offset d + blen)))
    else Some (None, false, d)
  else Some (None, rd_offset d =? rd_length d, d).

Definition _bson_reader_data_tell (d : bson_reader_data_t) : Z := s64 (rd_offset d).

Definition bson_reader_read (fuel : nat) (reader : bson_reader_t H) :
    option (option view * bool * bson_reader_t H) :=
  match reader with
  | BSON_READER_HANDLE r =>
      '(b, eof, r) ← _bson_reader_handle_read fuel r; Some (b, eof, BSON_READER_HANDLE r)
  | BSON_READER_DATA d =>
      '(b, eof, d) ← _bson_reader_data_read d; Some (b, eof, BSON_READER_DATA d)
  end.

Definition bson_reader_tell (reader : bson_reader_t H) : Z :=
  match reader with
  | BSON_READER_HANDLE r => _bson_reader_handle_tell r
  | BSON_READER_DATA d => _bson_reader_data_tell d
  end.

(** Only for readers over memory; the other kind is reported and unchanged. *)
Definition bson_reader_reset (reader : bson_reader_t H) : bson_reader_t H :=
  match reader with
  | BSON_READER_HANDLE r => BSON_READER_HANDLE r
  | BSON_READER_DATA d => BSON_READER_DATA (ReaderData (rd_data d) (rd_length d) 0)
  end.

(** ** Creation and destruction *)

Definition bson_reader_set_read_func (reader : bson_reader_t H) rf : option (bson_reader_t H) :=
  match reader with
  | BSON_READER_HANDLE r =>
      Some (BSON_READER_HANDLE
        (ReaderHandle (rh_handle r) (rh_done r) (rh_failed r) (rh_end r) (rh_len r) (rh_offset r)
           (rh_bytes_read r) (rh_data r) rf (rh_destroy_func r)))
  | BSON_READER_DATA _ => None
  end.

Definition bson_reader_set_destroy_func (reader : bson_reader_t H) (df : bson_reader_destroy_func_t H) :
    option (bson_reader_t H) :=
  match reader with
  | BSON_READER_HANDLE r =>
      Some (BSON_READER_HANDLE
        (ReaderHandle (rh_handle r) (rh_done r) (rh_failed r) (rh_end r) (rh_len r) (rh_offset r)
           (rh_bytes_read r) (rh_data r) (rh_read_func r) (Some df)))
  | BSON_READER_DATA _ => None
  end.

Definition bson_reader_new_from_handle (handle : H) rf (df : option (bson_reader_destroy_func_t H)) :
    option (bson_reader_t H) :=
  r ← _bson_reader_handle_fill_buffer
        (ReaderHandle handle false false 0 1024 0 0 (replicate 1024 x00) rf df);
  Some (BSON_READER_HANDLE r).

Definition bson_reader_new_from_data (data : bytes) (length : Z) : bson_reader_t H :=
  BSON_READER_DATA (ReaderData data length 0).

(** The handle after the destroy callback, if there is one. *)
Definition bson_reader_destroy (reader : bson_reader_t H) : option H :=
  match reader with
  | BSON_READER_HANDLE r =>
      Some (match rh_destroy_func r with Some df => df (rh_handle r) | None => rh_handle r end)
  | BSON_READER_DATA _ => None
  end.
End Reader.

(** ** File descriptors

    The operating system is a state of type [OS] with [open], [read] and
    [close]; a result of -1 comes with an [errno]. *)

Record os_calls (OS : Type) := OsCalls {
  os_open : bytes -> OS -> Z * Z * OS;
  os_read : Z -> Z -> OS -> Z * bytes * Z * OS;
  os_close : Z -> OS -> OS;
  os_strerror : Z -> option bytes
}.
Arguments OsCalls {OS}.
Arguments os_open {OS}.
Arguments os_read {OS}.
Arguments os_close {OS}.
Arguments os_strerror {OS}.

Definition EAGAIN : Z := 11.

(** The handle owns the descriptor and, with it, the system's state. *)
Record bson_reader_handle_fd_t (OS : Type) := HandleFd { fd_fd : Z; fd_do_close : bool; fd_os : OS }.
Arguments HandleFd {OS}.
Arguments fd_fd {OS}.
Arguments fd_do_close {OS}.
Arguments fd_os {OS}.

Section Fd.
Context {OS : Type} (os : os_calls OS).
Implicit Types (fd : bson_reader_handle_fd_t OS).

Definition _bson_reader_handle_fd_destroy fd : bson_reader_handle_fd_t OS :=
  if negb (fd_fd fd =? -1) && fd_do_close fd
  then HandleFd (fd_fd fd) (fd_do_close fd) (os_close os (fd_fd fd) (fd_os fd)) else fd.

(** [again:], with a bound on the number of tries. *)
Fixpoint fd_read_again (tries : nat) fd (len : Z) : option (Z * bytes * bson_reader_handle_fd_t OS) :=
  match tries with
  | O => None
  | S tries' =>
      let '(ret, got, errno, s) := os_read os (fd_fd fd) len (fd_os fd) in
      let fd := HandleFd (fd_fd fd) (fd_do_close fd) s in
      if (ret =? -1) && (errno =? EAGAIN) then fd_read_again tries' fd len else Some (ret, got, fd)
  end.

Definition _bson_reader_handle_fd_read (tries : nat) : bson_reader_read_func_t (bson_reader_handle_fd_t OS) :=
  fun fd len => if negb (fd_fd fd =? -1) then fd_read_again tries fd len else Some (-1, [], fd).

(** [BSON_ASSERT (fd != -1)] *)
Definition bson_reader_new_from_fd (tries : nat) (fd : Z) (close_on_destroy : bool) (s : OS) :
    option (bson_reader_t (bson_reader_handle_fd_t OS)) :=
  if fd =? -1 then None else
  bson_reader_new_from_handle (HandleFd fd close_on_destroy s) (_bson_reader_handle_fd_read tries)
    (Some _bson_reader_handle_fd_destroy).

(** The text of an error number, or the fixed one when the platform has none. *)
Definition bson_strerror_r (err_code : Z) : bytes :=
  match os_strerror os err_code with Some t => t | None => txt "Unknown error" end.

Definition bson_reader_new_from_file (tries : nat) (path : bytes) (s : OS) :
    option (bson_error_t * OS + bson_reader_t (bson_reader_handle_fd_t OS)) :=
  let '(fd, errno, s) := os_open os path s in
  if fd =? -1 then
    Some (inl (bson_set_error BSON_ERROR_READER BSON_ERROR_READER_BADFD (bson_strerror_r errno), s))
  else r ← bson_reader_new_from_fd tries fd true s; Some (inr r).
End Fd.
