(* ===== verification/BsonReaderSpec.v ===== *)
(** The reader splits its stream into documents the same way whatever the sizes
    of the reads, the state of the buffer and the contents of fresh memory. *)

From S2P Require Import Prelude CString IntEncode BsonTypes BsonIter BsonSpec BsonIterSpec BsonView BsonReader.

(** ** The stream *)

Inductive stream_head :=
  | StreamEnd
  | StreamBad
  | StreamDoc (d rest : bytes).

Definition doc_size (s : bytes) : Z := s32 (le_val (take 4 s)).

(** What comes first in a stream. A document cut short by the end of the stream
    is not told from the end. *)
Definition stream_next (s : bytes) : stream_head :=
  if zlen s <? 4 then StreamEnd else
  let n := doc_size s in
  if n <? 5 then StreamBad else
  if zlen s <? n then StreamEnd else
  if bool_decide (rd s (n - 1) = Some x00)
  then StreamDoc (take (Z.to_nat n) s) (drop (Z.to_nat n) s) else StreamBad.

Lemma stream_next_enc d rest :
  zlen (enc_doc d) <= BSON_MAX_SIZE -> stream_next (enc_doc d ++ rest) = StreamDoc (enc_doc d) rest.
Proof.
  intros Hm. assert (H5 : 5 <= zlen (enc_doc d)) by (rewrite zlen_enc_doc; zl). unfold BSON_MAX_SIZE in Hm.
  assert (Hs : doc_size (enc_doc d ++ rest) = zlen (enc_doc d)).
  { unfold doc_size. rewrite enc_doc_app, take_app_le by (rewrite length_le_bytes; lia).
    rewrite take_ge by (rewrite length_le_bytes; lia). rewrite le_val_le_bytes. rewrite Z.mod_small by (simpl; lia).
    apply s32_id. lia. }
  unfold stream_next. rewrite Hs, zlen_app. pose proof (zlen_nonneg rest).
  destruct (Z.ltb_spec (zlen (enc_doc d) + zlen rest) 4); [lia|].
  destruct (Z.ltb_spec (zlen (enc_doc d)) 5); [lia|].
  destruct (Z.ltb_spec (zlen (enc_doc d) + zlen rest) (zlen (enc_doc d))); [lia|].
  rewrite to_nat_zlen, take_app_length, drop_app_length. rewrite bool_decide_true; [done|].
  rewrite rd_app_l by lia. pose proof (enc_doc_eq d) as E. set (n := zlen (enc_doc d)) in *. rewrite E.
  rewrite app_assoc. apply rd_at. rewrite zlen_app, zlen_le_bytes. subst n. rewrite zlen_enc_doc. lia.
Qed.

(** An encoded document cut short. *)
Lemma stream_cut d n :
  zlen (enc_doc d) <= BSON_MAX_SIZE -> (n < length (enc_doc d))%nat ->
  stream_next (take n (enc_doc d)) = StreamEnd /\
  (4 <= zlen (take n (enc_doc d)) -> doc_size (take n (enc_doc d)) = zlen (enc_doc d)).
Proof.
  intros Hm Hn. unfold BSON_MAX_SIZE in Hm. set (L := zlen (enc_doc d)).
  assert (HL : 5 <= L) by (subst L; rewrite zlen_enc_doc; zl).
  assert (Hz : zlen (take n (enc_doc d)) = Z.of_nat n) by (unfold zlen; rewrite length_take; lia).
  assert (Hs : (4 <= n)%nat -> doc_size (take n (enc_doc d)) = L).
  { intros H4. unfold doc_size. rewrite take_take, Nat.min_l by lia. pose proof (enc_doc_eq d) as E. fold L in E.
    rewrite E, take_app_le by (rewrite length_le_bytes; lia).
    rewrite take_ge by (rewrite length_le_bytes; lia). rewrite le_val_le_bytes.
    rewrite Z.mod_small by (simpl; unfold L; lia). apply s32_id. unfold L. lia. }
  split; [|intros; apply Hs; lia]. unfold stream_next. rewrite Hz.
  destruct (Z.ltb_spec (Z.of_nat n) 4); [done|]. rewrite Hs by lia.
  destruct (Z.ltb_spec L 5); [lia|]. destruct (Z.ltb_spec (Z.of_nat n) L); [done|]. unfold L, zlen in *. lia.
Qed.

Lemma stream_next_nil : stream_next [] = StreamEnd.
Proof. done. Qed.

(** A document is shorter than the stream that starts with it. *)
Lemma stream_next_doc s d rest :
  stream_next s = StreamDoc d rest -> s = d ++ rest /\ 5 <= zlen d < 2 ^ 31 /\ zlen d = doc_size s.
Proof.
  unfold stream_next. pose proof (s32_range (le_val (take 4 s))) as Hr. fold (doc_size s) in Hr.
  unfold is_s32 in Hr. bdestruct. case_bool_decide; [|done]. intros [= <- <-].
  rewrite take_drop, zlen_take by lia. split; [done|lia].
Qed.

(** Above this size of the buffer the [int32_t] conversion of its length turns
    negative, and the buffer grows at every read. *)
Definition READER_LIMIT : Z := 2 ^ 30.

(** The stream does not go on with a document larger than the buffer may grow. *)
Definition sizes_ok (s : bytes) : Prop := 4 <= zlen s -> doc_size s <= READER_LIMIT.

(** The same of every document of the stream; what the documents hold, and what
    follows them, is arbitrary. *)
Inductive stream_ok : bytes -> Prop :=
  | ok_stop s : sizes_ok s -> stream_next s = StreamEnd \/ stream_next s = StreamBad -> stream_ok s
  | ok_doc s d rest : sizes_ok s -> stream_next s = StreamDoc d rest -> stream_ok rest -> stream_ok s.

(** What a read callback promises: from a valid handle it gives some of what is
    left of the stream, until nothing is left; then it returns [fin], 0 for the end
    of the stream or a negative number for an error. *)
Class ReadsStream {H : Type} (rf : bson_reader_read_func_t H) (valid : H -> Prop) (content : H -> bytes) (fin : Z) : Prop := {
  stream_fin : fin <= 0;
  reads_stream h len : valid h -> 0 < len -> exists ret got h', rf h len = Some (ret, got, h') /\
    valid h' /\ content h = got ++ content h' /\ ret <= len /\
    (0 < ret /\ zlen got = ret \/ ret = fin /\ got = [] /\ content h = [])
}.

(** A read that gives less than it is asked for gives all that is left, as those of a
    regular file do. *)
Definition whole_reads {H : Type} (rf : bson_reader_read_func_t H) (valid : H -> Prop) (content : H -> bytes) : Prop :=
  forall h len ret got h', valid h -> rf h len = Some (ret, got, h') -> zlen got < len -> content h' = [].

Section Stream.
Context {H : Type} (malloc : Z -> bytes) (rf : bson_reader_read_func_t H) (valid : H -> Prop) (content : H -> bytes) (fin : Z).
Context `{!ReadsStream rf valid content fin}.
Abbreviation whole := (whole_reads rf valid content).
Hypothesis Hmalloc : forall n, 0 <= n -> zlen (malloc n) = n.

(** Buffer sizes are powers of two. *)
Definition buffer_size (n : Z) : Prop := exists k, n = 2 ^ k /\ 10 <= k <= 32.

Lemma buffer_size_range n : buffer_size n -> 1024 <= n <= 2 ^ 32.
Proof.
  intros (k & -> & Hk). change 1024 with (2 ^ 10). split; apply Z.pow_le_mono_r; lia.
Qed.

Lemma buffer_size_double n : buffer_size n -> n < 2 ^ 32 -> buffer_size (n * 2).
Proof.
  intros (k & -> & Hk) Hn. exists (k + 1).
  apply Z.pow_lt_mono_r_iff in Hn; [|lia..]. rewrite Z.pow_add_r by lia. split; [done|lia].
Qed.

Lemma buffer_size_below n : buffer_size n -> n < READER_LIMIT -> n * 2 <= READER_LIMIT.
Proof.
  intros (k & -> & Hk) Hn. unfold READER_LIMIT in *. apply Z.pow_lt_mono_r_iff in Hn; [|lia..].
  change 2 with (2 ^ 1) at 2. rewrite <- Z.pow_add_r by lia. apply Z.pow_le_mono_r; lia.
Qed.

(** The reader holds [buf] unread, at position [pos] of a stream that goes on
    with the handle's content. *)
Definition ready (r : bson_reader_handle_t H) (pos : Z) (buf : bytes) : Prop :=
  rh_done r = false /\ rh_failed r = false /\ (rh_read_func r = rf /\ valid (rh_handle r)) /\
  buffer_size (rh_len r) /\ zlen (rh_data r) = rh_len r /\
  0 <= pos /\ pos + zlen buf + zlen (content (rh_handle r)) < 2 ^ 63 /\
  rh_bytes_read r = pos + zlen buf /\ rh_end r = rh_offset r + zlen buf /\
  exists a junk, rh_data r = a ++ buf ++ junk /\ zlen a = rh_offset r.

(** The reader saw the end, or the error. *)
Definition finished (r : bson_reader_handle_t H) : Prop := rh_done r = true /\ rh_failed r = (fin <? 0).

Lemma ready_range r pos buf : ready r pos buf -> zlen buf <= rh_len r /\ 1024 <= rh_len r <= 2 ^ 32.
Proof.
  intros (_ & _ & _ & Hbs & Hz & _ & _ & _ & _ & a & junk & Ed & _). split; [|by apply buffer_size_range].
  rewrite <- Hz, Ed. zl.
Qed.

Lemma compact_spec r pos buf :
  ready r pos buf -> exists r', reader_compact r = Some r' /\ ready r' pos buf /\ rh_offset r' = 0 /\
    rh_handle r' = rh_handle r /\ rh_len r' = rh_len r.
Proof.
  intros (Hd & Hf & Hrf & Hbs & Hz & Hp & Ht & Hb & He & a & junk & Ed & Ha). unfold reader_compact.
  pose proof (buffer_size_range _ Hbs) as Hl.
  pose proof (zlen_nonneg buf). pose proof (zlen_nonneg a). pose proof (zlen_nonneg junk).
  assert (zlen a + zlen buf + zlen junk = rh_len r) by (rewrite <- Hz, Ed; zl).
  rewrite He. replace (rh_offset r + zlen buf - rh_offset r) with (zlen buf) by lia.
  rewrite u64_id by lia.
  assert (slice (rh_data r) (rh_offset r) (zlen buf) = Some buf) as -> by (rewrite Ed; by apply slice_at). sbind.
  destruct (store_is_Some (rh_data r) 0 buf) as [_ [data Es]]; [lia|]. rewrite Es. sbind.
  pose proof (store_zlen _ _ _ _ Es) as Hz'.
  eexists. split; [done|]. split; [|done].
  split; [done|]. split; [done|]. split; [done|]. split; [exact Hbs|].
  split_and!; cbn; try done; try lia. exists [], (drop (length buf) (rh_data r)). split; [|done].
  unfold store in Es. destruct ((0 <=? 0) && (0 + zlen buf <=? zlen (rh_data r))); [|done].
  injection Es as <-. done.
Qed.

(** What a read at the end of the buffered data does. *)
Lemma got_spec r pos buf n :
  ready r pos buf -> 0 < n -> rh_end r + n <= rh_len r ->
  exists ret got h data, rf (rh_handle r) n = Some (ret, got, h) /\ store (rh_data r) (rh_end r) got = Some data /\
    rh_end r + ret <= rh_len r /\
    (ret = fin /\ content (rh_handle r) = [] \/
     0 < ret /\ u64 (rh_end r + ret) = rh_end r + ret /\ ready (reader_got r h data ret) pos (buf ++ got) /\ zlen got = ret /\
       content (rh_handle r) = got ++ content h /\ (whole -> zlen got < n -> content h = [])).
Proof.
  intros (Hd & Hf & Hrf & Hbs & Hz & Hp & Ht & Hb & He & a & junk & Ed & Ha) Hn Hle.
  pose proof (buffer_size_range _ Hbs) as Hl. pose proof stream_fin as Hfin.
  destruct Hrf as [Hrf Hv].
  destruct (reads_stream (rh_handle r) n Hv Hn) as (ret & got & h & E & Hv' & Hc & Hret & Hcase).
  pose proof (zlen_nonneg buf). pose proof (zlen_nonneg a).
  assert (Hj : zlen a + zlen buf + zlen junk = rh_len r) by (rewrite <- Hz, Ed; zl).
  assert (Hg : 0 <= zlen got <= n) by (destruct Hcase as [[? ?]|(-> & -> & _)]; [lia|change (zlen (@nil byte)) with 0; lia]).
  assert (Ej : junk = take (length got) junk ++ drop (length got) junk) by by rewrite take_drop.
  assert (Es : store (rh_data r) (rh_end r) got = Some ((a ++ buf) ++ got ++ drop (length got) junk)).
  { rewrite Ed. rewrite Ej at 1. rewrite app_assoc. apply store_at; [rewrite zlen_app; lia|].
    unfold zlen in *. rewrite length_take. lia. }
  exists ret, got, h, ((a ++ buf) ++ got ++ drop (length got) junk).
  split; [done|]. split; [done|]. split; [lia|]. destruct Hcase as [[Hpos Hgr]|(-> & _ & Hend)]; [right|by left].
  rewrite Hc, zlen_app in Ht. pose proof (zlen_nonneg (content h)).
  assert (Hu : u64 (rh_end r + ret) = rh_end r + ret) by (apply u64_id; lia).
  assert (Hw : u64 (rh_bytes_read r + ret) = rh_bytes_read r + ret) by (apply u64_id; lia).
  split; [done|]. split; [done|]. split; [|split; [done|split; [done|intros Hwh Hlt; exact (Hwh _ _ _ _ _ Hv E Hlt)]]].
  split; [done|]. split; [done|]. split; [done|]. split; [exact Hbs|].
  split_and!; cbn; rewrite ?Hu, ?Hw, ?zlen_app; try done; try lia.
  { unfold zlen in *. rewrite length_drop. lia. }
  exists a, (drop (length got) junk). split; [|done]. by rewrite <- !app_assoc.
Qed.

(** Refilling a buffer that is not full: at the end of the stream the reader is
    finished, otherwise some of the stream moved into the buffer. The very first read
    does not tell an error from the end. *)
Lemma fill_spec r pos buf :
  ready r pos buf -> zlen buf < rh_len r -> exists r', _bson_reader_handle_fill_buffer r = Some r' /\
    (content (rh_handle r) = [] /\ rh_done r' = true /\ (rh_end r <> 0 \/ fin = 0 -> finished r') /\
       (rh_end r = 0 -> rh_offset r = 0 -> rh_failed r' = false) \/
     exists got, ready r' pos (buf ++ got) /\ 0 < zlen got /\ rh_len r' = rh_len r /\
       content (rh_handle r) = got ++ content (rh_handle r') /\
       (whole -> zlen (buf ++ got) < rh_len r -> content (rh_handle r') = [])).
Proof.
  intros Hr Hb. unfold _bson_reader_handle_fill_buffer. pose proof stream_fin as Hfin.
  pose proof Hr as (Hd & Hf & Hrf & Hbs & Hz & _ & _ & _ & He & a & junk & Ed & Ha). pose proof (buffer_size_range _ Hbs) as Hl. rewrite Hd. cbn [negb andb].
  pose proof (zlen_nonneg buf). pose proof (zlen_nonneg a). destruct ((rh_offset r =? 0) && (rh_end r =? 0)) eqn:E.
  - apply andb_true_iff in E as [Eo%Z.eqb_eq Ee%Z.eqb_eq].
    destruct (got_spec r pos buf (rh_len r) Hr) as (ret & got & h & data & E & Es & Hle & Hcase); [lia..|].
    rewrite (proj1 Hrf), E. sbind. rewrite Ee in Es. rewrite Es. sbind. destruct Hcase as [[-> Hc]|(Hpos & Hu & Hr' & Hg & Hc & Hw)].
    + destruct (Z.leb_spec fin 0); [|lia]. eexists. split; [done|]. left. split; [done|]. split; [done|]. split; [|done].
      intros [?|E0]; [done|]. split; [done|]. rewrite E0. exact Hf.
    + destruct (Z.leb_spec ret 0); [lia|]. eexists. split; [done|]. right. exists got. split; [done|]. split; [lia|]. split; [done|]. split; [done|].
      intros Hwh Hlt. apply Hw; [done|]. rewrite zlen_app in Hlt. lia.
  - destruct (compact_spec r pos buf Hr) as (r1 & -> & Hr1 & Ho & Hh & Hlen). sbind.
    pose proof Hr1 as (_ & Hf1 & Hrf1 & _ & _ & _ & _ & _ & He1 & _). rewrite Ho in He1. rewrite u64_id by lia.
    destruct (got_spec r1 pos buf (rh_len r1 - rh_end r1) Hr1) as (ret & got & h & data & E' & Es & Hle & Hcase); [lia..|].
    rewrite (proj1 Hrf1), E'. sbind. rewrite Es. sbind. rewrite <- Hh. destruct Hcase as [[-> Hc]|(Hpos & Hu & Hr' & Hg & Hc & Hw)].
    + destruct (Z.leb_spec fin 0); [|lia]. cbn. rewrite Ho. destruct (Z.leb_spec (rh_end r1) (rh_len r1)); [|lia]. cbn.
      eexists. split; [done|]. left. split; [done|]. split; [done|]. split; [done|]. intros Ee Eo. by rewrite Ee, Eo in E.
    + destruct (Z.leb_spec ret 0); [lia|]. cbn. rewrite Ho, Hu. destruct (Z.leb_spec (rh_end r1 + ret) (rh_len r1)); [|lia]. cbn.
      eexists. split; [done|]. right. exists got. split; [exact Hr'|]. split; [lia|]. split; [done|]. split; [done|].
      intros Hwh Hlt. apply Hw; [done|]. rewrite zlen_app in Hlt. lia.
Qed.

Lemma grow_buffer_spec r pos buf :
  ready r pos buf -> rh_len r < 2 ^ 32 ->
  let r' := _bson_reader_handle_grow_buffer malloc r in
  ready r' pos buf /\ rh_len r' = 2 * rh_len r /\ rh_handle r' = rh_handle r.
Proof.
  intros (Hd & Hf & Hrf & Hbs & Hz & Hp & Ht & Hb & He & a & junk & Ed & Ha) Hlt.
  pose proof (buffer_size_range _ Hbs) as Hl.
  assert (Hu : u64 (rh_len r * 2) = rh_len r * 2) by (apply u64_id; lia).
  destruct (zlen_realloc malloc Hmalloc (rh_data r) (rh_len r * 2)) as (more & Em & Hmore); [lia|].
  unfold _bson_reader_handle_grow_buffer. rewrite Hu, Em. cbn. split; [|by split; [lia|]].
  split; [done|]. split; [done|]. split; [done|]. split; [by apply buffer_size_double|].
  split_and!; cbn; try done; [rewrite zlen_app; lia|]. exists a, (junk ++ more).
  split; [|done]. by rewrite Ed, <- !app_assoc.
Qed.

(** A finished reader gives no more documents and reports the end, or the error. *)
Lemma finished_read fuel r : finished r -> _bson_reader_handle_read malloc fuel r = Some (None, fin =? 0, r).
Proof.
  intros [Hd Hf]. pose proof stream_fin as Hfin. assert (negb (fin <? 0) = (fin =? 0)) as E by lia.
  destruct fuel; cbn [_bson_reader_handle_read]; by rewrite Hd, Hf, E.
Qed.

(** ** One document *)

(** The checks on the first bytes of the buffered data are those on the stream. *)
Lemma header_spec r pos buf :
  ready r pos buf -> 4 <= zlen buf ->
  mlib_read_i32le (rh_data r) (rh_offset r) = Some (doc_size (buf ++ content (rh_handle r))).
Proof.
  intros (_ & _ & _ & _ & _ & _ & _ & _ & _ & a & junk & Ed & Ha) H4.
  unfold mlib_read_i32le, doc_size. rewrite take_app_le by (unfold zlen in H4; lia).
  assert (E : slice (rh_data r) (rh_offset r) 4 = Some (take 4 buf)).
  { rewrite Ed. rewrite <- (take_drop 4 buf) at 1. rewrite <- !app_assoc. apply slice_at; [done|].
    unfold zlen in *. rewrite length_take. lia. }
  by rewrite (mlib_read_u32le_spec _ _ _ E).
Qed.

Lemma init_static_spec buf rest junk n :
  n = doc_size (buf ++ rest) -> 5 <= n <= zlen buf ->
  bson_init_static (buf ++ junk) n = Some (bool_decide (rd (buf ++ rest) (n - 1) = Some x00)).
Proof.
  intros Hn Hr. unfold bson_init_static. pose proof (s32_range (le_val (take 4 (buf ++ rest)))) as Hs.
  unfold doc_size in Hn. rewrite <- Hn in Hs. unfold is_s32, BSON_MAX_SIZE in *.
  destruct (Z.ltb_spec n 5); [lia|]. destruct (Z.ltb_spec (2 ^ 31 - 1) n); [lia|]. cbn [orb].
  rewrite take_app_le in Hn by (unfold zlen in Hr; lia).
  assert (E : slice (buf ++ junk) 0 4 = Some (take 4 buf)).
  { rewrite <- (take_drop 4 buf) at 1. rewrite <- app_assoc. apply (slice_at []); [done|].
    unfold zlen in *. rewrite length_take. lia. }
  rewrite (mlib_read_u32le_spec _ _ _ E). sbind.
  pose proof (le_val_range (take 4 buf)) as Hv. rewrite (slice_zlen _ _ _ _ E) in Hv.
  assert (le_val (take 4 buf) = n) as ->.
  { unfold s32, sext in Hn. rewrite u32_id in Hn by lia. case_match; lia. }
  rewrite Z.eqb_refl. cbn [negb]. rewrite !rd_app_l by lia.
  destruct (proj2 (rd_is_Some buf (n - 1))) as [c Hc]; [lia|]. rewrite Hc. sbind. f_equal.
  apply bool_decide_ext. split; congruence.
Qed.

(** The buffer is small, or all that is left is in it. *)
Definition followed (r : bson_reader_handle_t H) (buf : bytes) : Prop :=
  rh_len r <= READER_LIMIT \/ content (rh_handle r) = [] /\ rh_len r = 2 ^ 31 /\ zlen buf < 2 ^ 31.

(** The next document does not claim to be larger than 1 GiB; or the reads are
    whole and less than 2 GiB are left. *)
Definition size_followed (s : bytes) : Prop := sizes_ok s \/ whole /\ zlen s < 2 ^ 31.

(** [_bson_reader_handle_read] takes the next document off the stream. *)
Definition read_result (r : bson_reader_handle_t H) (pos : Z) (s : bytes)
    (x : option (option view * bool * bson_reader_handle_t H)) : Prop :=
  match stream_next s with
  | StreamDoc d rest => exists p r' buf', x = Some (Some (d ++ p, zlen d), false, r') /\
      ready r' (pos + zlen d) buf' /\ followed r' buf' /\ rh_end r' <> 0 /\ rest = buf' ++ content (rh_handle r')
  | StreamBad => exists r', x = Some (None, false, r')
  | StreamEnd => exists r', x = Some (None, fin =? 0, r') /\ finished r'
  end.

(** One round of the loop, in terms of the stream. *)
Lemma read_step fuel r pos buf :
  ready r pos buf -> zlen buf < 2 ^ 31 -> let n := doc_size (buf ++ content (rh_handle r)) in
  _bson_reader_handle_read malloc (S fuel) r =
    if zlen buf <? 4 then r ← _bson_reader_handle_fill_buffer r; _bson_reader_handle_read malloc fuel r else
    if n <? 5 then Some (None, false, r) else
    if zlen buf <? n then
      r ← _bson_reader_handle_fill_buffer (if s32 (rh_len r) <? n then _bson_reader_handle_grow_buffer malloc r else r);
      _bson_reader_handle_read malloc fuel r
    else
    p ← padd (rh_data r) (rh_offset r);
    ok ← bson_init_static p (u32 n);
    if (ok : bool) then Some (Some (p, u32 n), false, reader_advance r n) else Some (None, false, r).
Proof.
  intros Hr Hm n. pose proof (header_spec r pos buf Hr) as Eh. fold n in Eh.
  destruct Hr as (Hd & _ & _ & Hbs & Hz & _ & _ & _ & He & a & junk & Ed & Ha).
  pose proof (zlen_nonneg buf). cbn [_bson_reader_handle_read]. rewrite Hd, He.
  replace (rh_offset r + zlen buf - rh_offset r) with (zlen buf) by lia. rewrite u64_id by lia.
  destruct (Z.ltb_spec (zlen buf) 4); [done|]. rewrite Eh by lia. sbind. by rewrite (s32_id (zlen buf)) by lia.
Qed.

(** A whole document in the buffer. *)
Lemma read_buffered fuel r pos buf :
  ready r pos buf -> followed r buf -> let s := buf ++ content (rh_handle r) in 5 <= doc_size s <= zlen buf ->
  read_result r pos s (_bson_reader_handle_read malloc (S fuel) r).
Proof.
  intros Hr Hfol s Hn. pose proof (ready_range r pos buf Hr) as [Hbl _].
  assert (Hb31 : zlen buf < 2 ^ 31) by (destruct Hfol as [?|(_ & _ & ?)]; unfold READER_LIMIT in *; lia).
  rewrite (read_step fuel r pos buf Hr Hb31). fold s. cbn zeta.
  pose proof Hr as (Hd & Hf & Hrf & Hbs & Hz & Hp & Ht & Hb & He & a & junk & Ed & Ha).
  pose proof (buffer_size_range _ Hbs) as Hl.
  pose proof (zlen_nonneg a). pose proof (zlen_nonneg buf). pose proof (zlen_nonneg junk).
  assert (zlen a + zlen buf + zlen junk = rh_len r) by (rewrite <- Hz, Ed; zl).
  destruct (Z.ltb_spec (zlen buf) 4); [lia|]. destruct (Z.ltb_spec (doc_size s) 5); [lia|].
  destruct (Z.ltb_spec (zlen buf) (doc_size s)); [lia|].
  rewrite Ed, padd_at by done. sbind. rewrite u32_id by lia.
  unfold s. rewrite (init_static_spec buf (content (rh_handle r)) junk) by done. fold s. sbind.
  unfold read_result, stream_next. pose proof (zlen_app buf (content (rh_handle r))) as Hzs. fold s in Hzs.
  pose proof (zlen_nonneg (content (rh_handle r))).
  destruct (Z.ltb_spec (zlen s) 4); [lia|]. destruct (Z.ltb_spec (doc_size s) 5); [lia|].
  destruct (Z.ltb_spec (zlen s) (doc_size s)); [lia|].
  case_bool_decide; [|by eexists].
  set (n := doc_size s) in *. set (k := Z.to_nat n). assert (Hk : (k <= length buf)%nat) by (unfold zlen in *; lia).
  assert (Et : take k s = take k buf) by (subst s; by apply take_app_le).
  assert (Edr : drop k s = drop k buf ++ content (rh_handle r)) by (subst s; by apply drop_app_le).
  assert (Hzt : zlen (take k buf) = n) by (subst k; apply zlen_take; lia).
  assert (Hzd : zlen (drop k buf) = zlen buf - n) by (subst k; apply zlen_drop; lia).
  rewrite Et, Edr, Hzt. exists (drop k buf ++ junk), (reader_advance r n), (drop k buf).
  split; [by rewrite app_assoc, take_drop|]. split; [|split; [|split; [cbn; lia|done]]].
  - split; [done|]. split; [done|]. split; [done|]. split; [exact Hbs|]. cbn. rewrite Hzd, u64_id by lia.
    split_and!; try done; try lia. exists (a ++ take k buf), junk.
    split; [|rewrite zlen_app; lia]. by rewrite Ed, <- (take_drop k buf) at 1; rewrite <- !app_assoc.
  - destruct Hfol as [?|(? & ? & ?)]; [by left|right]. cbn. split; [done|]. split; [done|lia].
Qed.

(** Refilling, when the stream's next step is the end if nothing is left. *)
Lemma refill_spec fuel r pos buf s :
  ready r pos buf -> rh_end r <> 0 \/ fin = 0 -> zlen buf < rh_len r -> s = buf ++ content (rh_handle r) ->
  (content (rh_handle r) = [] -> stream_next s = StreamEnd) ->
  (forall r' buf', ready r' pos buf' -> s = buf' ++ content (rh_handle r') -> rh_len r' = rh_len r ->
     zlen (content (rh_handle r')) < zlen (content (rh_handle r)) ->
     (whole -> zlen buf' < rh_len r -> content (rh_handle r') = []) -> rh_end r' <> 0 ->
     read_result r pos s (_bson_reader_handle_read malloc fuel r')) ->
  read_result r pos s (r ← _bson_reader_handle_fill_buffer r; _bson_reader_handle_read malloc fuel r).
Proof.
  intros Hr He Hlt -> Hend IH.
  destruct (fill_spec r pos buf Hr Hlt) as (r2 & -> & [(Hc & _ & Hfin & _)|(got & Hr2 & Hg & Hl & Hc & Hw)]); sbind.
  - unfold read_result. rewrite (Hend Hc). exists r2. split; [by apply finished_read, Hfin|by apply Hfin].
  - apply (IH r2 (buf ++ got) Hr2); [by rewrite Hc, app_assoc|done| |done|].
    + apply (f_equal zlen) in Hc. rewrite zlen_app in Hc. lia.
    + destruct Hr2 as (_ & _ & _ & _ & _ & _ & _ & _ & -> & a & junk & _ & <-). rewrite zlen_app. pose proof (zlen_nonneg a). pose proof (zlen_nonneg buf). lia.
Qed.

(** What the stream's next step is when the buffer cannot tell yet. *)
Lemma next_unknown buf : zlen buf < 4 \/ 5 <= doc_size buf /\ zlen buf < doc_size buf -> stream_next buf = StreamEnd.
Proof.
  intros Hs. unfold stream_next. destruct (Z.ltb_spec (zlen buf) 4); [done|]. destruct (Z.ltb_spec (doc_size buf) 5); [lia|].
  destruct (Z.ltb_spec (zlen buf) (doc_size buf)); [done|lia].
Qed.

(** The buffer to refill, grown or not. *)
Lemma growth_spec r pos buf n :
  ready r pos buf -> followed r buf -> zlen buf < n -> size_followed (buf ++ content (rh_handle r)) ->
  n = doc_size (buf ++ content (rh_handle r)) -> 5 <= n -> 4 <= zlen buf ->
  let r1 := if s32 (rh_len r) <? n then _bson_reader_handle_grow_buffer malloc r else r in
  ready r1 pos buf /\ rh_handle r1 = rh_handle r /\ rh_end r1 = rh_end r /\ zlen buf < rh_len r1 /\
  (content (rh_handle r) = [] \/ rh_len r1 <= READER_LIMIT \/
   whole /\ rh_len r1 = 2 ^ 31 /\ zlen (buf ++ content (rh_handle r)) < 2 ^ 31).
Proof.
  intros Hr Hfol Hn Hsz En H5 H4. pose proof (ready_range r pos buf Hr) as [Hbl Hl].
  pose proof Hr as (_ & _ & _ & Hbs & _). pose proof (zlen_app buf (content (rh_handle r))) as Hz. pose proof (zlen_nonneg (content (rh_handle r))).
  unfold followed, READER_LIMIT in *. destruct Hfol as [Hlim|(Hc & El & Hb31)].
  - rewrite s32_id by lia. destruct (Z.ltb_spec (rh_len r) n); [|split; [done|]; split; [done|]; split; [done|]; split; [lia|]; right; by left].
    destruct (grow_buffer_spec r pos buf Hr) as (Hr1 & Hl1 & Hh1); [lia|]. split; [done|]. split; [done|]. split; [done|]. split; [lia|].
    destruct (Z.lt_ge_cases (rh_len r) (2 ^ 30)) as [Hlt|Hge].
    + right. left. pose proof (buffer_size_below _ Hbs Hlt). unfold READER_LIMIT in *. lia.
    + destruct Hsz as [Hs|[Hw Hs]]; [|right; right; split; [done|lia]]. unfold sizes_ok in Hs. rewrite <- En in Hs. unfold READER_LIMIT in *. lia.
  - rewrite El. change (s32 (2 ^ 31)) with (- 2 ^ 31). destruct (Z.ltb_spec (- 2 ^ 31) n); [|lia].
    destruct (grow_buffer_spec r pos buf Hr) as (Hr1 & Hl1 & Hh1); [lia|]. split_and!; [done|done|done|lia|by left].
Qed.

Lemma handle_read_spec fuel r pos buf :
  ready r pos buf -> followed r buf -> rh_end r <> 0 \/ fin = 0 -> zlen (content (rh_handle r)) < Z.of_nat fuel ->
  size_followed (buf ++ content (rh_handle r)) ->
  read_result r pos (buf ++ content (rh_handle r)) (_bson_reader_handle_read malloc fuel r).
Proof.
  revert r buf. induction fuel as [|fuel IH]; intros r buf Hr Hfol Hend0 Hfuel Hlim.
  { pose proof (zlen_nonneg (content (rh_handle r))). lia. }
  set (s := buf ++ content (rh_handle r)) in *.
  pose proof (zlen_app buf (content (rh_handle r))) as Hzs. fold s in Hzs.
  pose proof (zlen_nonneg (content (rh_handle r))) as Hc0. pose proof (zlen_nonneg buf) as Hb0.
  pose proof (ready_range r pos buf Hr) as [Hj Hl].
  assert (Hb31 : zlen buf < 2 ^ 31) by (destruct Hfol as [?|(_ & _ & ?)]; unfold READER_LIMIT in *; lia).
  assert (Hend : (zlen buf < 4 \/ 5 <= doc_size s /\ zlen buf < doc_size s) -> content (rh_handle r) = [] -> stream_next s = StreamEnd).
  { intros Hs Hc. subst s. rewrite Hc, app_nil_r in *. by apply next_unknown. }
  assert (IH' : forall r' buf', ready r' pos buf' -> s = buf' ++ content (rh_handle r') -> followed r' buf' -> rh_end r' <> 0 ->
     zlen (content (rh_handle r')) < zlen (content (rh_handle r)) ->
     read_result r pos s (_bson_reader_handle_read malloc fuel r')).
  { intros r' buf' Hr' Es Hf' He' Hc. rewrite Es. apply (IH r' buf' Hr' Hf'); [by left|lia|]. by rewrite <- Es. }
  destruct (Z.le_gt_cases 5 (doc_size s)) as [H5|H5]; [destruct (Z.le_gt_cases (doc_size s) (zlen buf)) as [Hn|Hn]|].
  { by apply read_buffered. }
  all: rewrite (read_step fuel r pos buf Hr Hb31); fold s; cbn zeta.
  all: destruct (Z.ltb_spec (zlen buf) 4) as [H4|H4].
  1, 3: apply (refill_spec _ _ _ buf); [done|done|lia|done|by apply Hend; left|];
    intros r' buf' Hr' Es El Hc _ He'; apply (IH' r' buf'); try done;
    destruct Hfol as [?|(Hcn & _)]; [left; by rewrite El|rewrite Hcn in Hc; change (zlen (@nil byte)) with 0 in Hc; pose proof (zlen_nonneg (content (rh_handle r'))); lia].
  - destruct (Z.ltb_spec (doc_size s) 5); [lia|]. destruct (Z.ltb_spec (zlen buf) (doc_size s)); [|lia].
    destruct (growth_spec r pos buf (doc_size s) Hr Hfol Hn Hlim eq_refl H5 H4) as (Hr1 & Hh1 & He1 & Hb1 & Hcase).
    set (r1 := if s32 (rh_len r) <? doc_size s then _ else _) in *.
    apply (refill_spec _ r1 _ buf s Hr1); rewrite ?Hh1, ?He1; [done|done|done|by apply Hend; right|].
    intros r' buf' Hr' Es El Hc Hw He'. apply (IH' r' buf'); try done.
    destruct Hcase as [Hcn|[Hle|(Hwh & E31 & Hs31)]].
    + rewrite Hcn in Hc. change (zlen (@nil byte)) with 0 in Hc. pose proof (zlen_nonneg (content (rh_handle r'))). lia.
    + left. by rewrite El.
    + right. change (zlen s < 2 ^ 31) in Hs31. rewrite Es, zlen_app in Hs31. pose proof (zlen_nonneg (content (rh_handle r'))). split; [apply Hw; [done|lia]|]. split; [lia|lia].
  - unfold read_result, stream_next. destruct (Z.ltb_spec (doc_size s) 5); [|lia].
    destruct (Z.ltb_spec (zlen s) 4); [lia|by eexists].
Qed.

(** ** Whole streams *)

(** What is left to read is [s], from position [pos]. *)
Definition at_stream (r : bson_reader_handle_t H) (pos : Z) (s : bytes) : Prop :=
  (exists buf, ready r pos buf /\ followed r buf /\ (rh_end r <> 0 \/ fin = 0) /\ s = buf ++ content (rh_handle r)) \/
  (s = [] /\ finished r).

Lemma at_stream_read fuel r pos s :
  at_stream r pos s -> size_followed s -> zlen s < Z.of_nat fuel ->
  match stream_next s with
  | StreamDoc d rest => exists p r', _bson_reader_handle_read malloc fuel r = Some (Some (d ++ p, zlen d), false, r') /\
      at_stream r' (pos + zlen d) rest
  | StreamBad => exists r', _bson_reader_handle_read malloc fuel r = Some (None, false, r')
  | StreamEnd => exists r', _bson_reader_handle_read malloc fuel r = Some (None, fin =? 0, r') /\ at_stream r' pos []
  end.
Proof.
  intros [(buf & Hr & Hfol & He & ->)|[-> Hf]] Hs Hfuel.
  - rewrite zlen_app in Hfuel. pose proof (zlen_nonneg buf).
    pose proof (handle_read_spec fuel r pos buf Hr Hfol He ltac:(lia) Hs) as Hx. unfold read_result in Hx.
    destruct (stream_next _) as [| |d rest]; [|exact Hx|].
    + destruct Hx as (r' & E & Hf). exists r'. split; [done|]. by right.
    + destruct Hx as (p & r' & buf' & E & Hr' & Hfol' & He' & ->). exists p, r'. split; [done|]. left. exists buf'. split_and!; try done. by left.
  - cbn. exists r. split; [by apply finished_read|]. by right.
Qed.

(** A new reader; when its first read fails, it takes the stream for empty. *)
Lemma new_from_handle_spec h df :
  valid h -> zlen (content h) < 2 ^ 63 ->
  exists r, bson_reader_new_from_handle h rf df = Some (BSON_READER_HANDLE r) /\
    (content h <> [] \/ fin = 0 -> at_stream r 0 (content h)) /\
    (content h = [] -> forall fuel, _bson_reader_handle_read malloc fuel r = Some (None, true, r)).
Proof.
  intros Hv Hz. unfold bson_reader_new_from_handle. set (r0 := ReaderHandle _ _ _ _ _ _ _ _ _ _).
  assert (Hr : ready r0 0 []).
  { split; [done|]. split; [done|]. split; [done|]. split; [by exists 10|]. subst r0. cbn -[replicate].
    split_and!; try done. by exists [], (replicate 1024 x00). }
  destruct (fill_spec r0 0 [] Hr) as (r & -> & Hc); [done|]. sbind. exists r. split; [done|].
  change (rh_handle r0) with h in Hc. destruct Hc as [(Hc & Hd & Hf & Hnf)|(got & Hr' & Hg & Hl & Hc & _)].
  - split; [intros [?|?]; [done|]; right; split; [done|]; apply Hf; by right|].
    intros _ fuel. specialize (Hnf eq_refl eq_refl). destruct fuel; cbn [_bson_reader_handle_read]; by rewrite Hd, Hnf.
  - split; [|intros E; rewrite E in Hc; destruct got; [change (zlen (@nil byte)) with 0 in Hg; lia|done]].
    intros _. left. exists got. split; [done|]. split; [left; by rewrite Hl|]. split; [|done].
    left. destruct Hr' as (_ & _ & _ & _ & _ & _ & _ & _ & -> & a & junk & _ & <-). rewrite app_nil_l. pose proof (zlen_nonneg a). lia.
Qed.

(** [bson_reader_tell] is the number of bytes of the documents read. *)
Lemma at_stream_tell r pos buf : ready r pos buf -> _bson_reader_handle_tell r = pos.
Proof.
  intros Hr. pose proof (ready_range r pos buf Hr) as [Hb Hl].
  destruct Hr as (_ & _ & _ & _ & Hz & Hp & Ht & Hbr & He & a & junk & Ed & Ha).
  assert (Ho : 0 <= rh_offset r /\ rh_offset r + zlen buf <= rh_len r) by (rewrite <- Hz, Ed, <- Ha; zl).
  pose proof (zlen_nonneg (content (rh_handle r))). pose proof (zlen_nonneg buf).
  assert (Hs : forall z, - 2 ^ 63 <= z < 2 ^ 63 -> s64 z = z).
  { intros z Hz'. unfold s64, sext. case_match; unfold u64 in *; Z.to_euclidean_division_equations; lia. }
  unfold _bson_reader_handle_tell. rewrite Hbr, He, (Hs (pos + zlen buf)), (Hs (rh_offset r + zlen buf)), (Hs (rh_offset r)) by lia.
  rewrite (Hs (pos + zlen buf - (rh_offset r + zlen buf))) by lia. rewrite Hs by lia. lia.
Qed.
End Stream.

(** ** The reader over memory *)

Lemma i32_at a s t :
  4 <= zlen s -> mlib_read_i32le (a ++ s ++ t) (zlen a) = Some (doc_size s).
Proof.
  intros H4. unfold mlib_read_i32le, doc_size.
  assert (E : slice (a ++ s ++ t) (zlen a) 4 = Some (take 4 s)).
  { rewrite <- (take_drop 4 s) at 1. rewrite <- !app_assoc. apply slice_at; [done|].
    unfold zlen in *. rewrite length_take. lia. }
  by rewrite (mlib_read_u32le_spec _ _ _ E).
Qed.

(** The documents are the stream's; the end is told from a document cut short. *)
Lemma data_read_spec a s t :
  zlen a + zlen s < 2 ^ 62 -> zlen s < 2 ^ 31 ->
  let d := ReaderData (a ++ s ++ t) (zlen a + zlen s) (zlen a) in
  match stream_next s with
  | StreamDoc x rest => _bson_reader_data_read d =
      Some (Some (s ++ t, zlen x), false, ReaderData (a ++ s ++ t) (zlen a + zlen s) (zlen a + zlen x))
  | _ => _bson_reader_data_read d = Some (None, bool_decide (s = []), d)
  end.
Proof.
  intros Ha Hs d. pose proof (zlen_nonneg a). pose proof (zlen_nonneg s).
  unfold _bson_reader_data_read. subst d. cbn [rd_offset rd_length rd_data]. rewrite !u64_id by lia.
  assert (Heof : (zlen a =? zlen a + zlen s) = bool_decide (s = [])).
  { case_bool_decide as E; [subst s; apply Z.eqb_eq; change (zlen (@nil byte)) with 0; lia|].
    apply Z.eqb_neq. intros E'. apply E, zlen_0. lia. }
  unfold stream_next. destruct (Z.ltb_spec (zlen a + 4) (zlen a + zlen s)).
  2: { destruct (Z.ltb_spec (zlen s) 4) as [|H4]; [by rewrite Heof|].
       destruct (Z.ltb_spec (doc_size s) 5); [by rewrite Heof|].
       destruct (Z.ltb_spec (zlen s) (doc_size s)); [by rewrite Heof|lia]. }
  destruct (Z.ltb_spec (zlen s) 4); [lia|]. rewrite i32_at by lia. sbind.
  assert (Hne : bool_decide (s = []) = false).
  { apply bool_decide_eq_false. intros ->. change (zlen (@nil byte)) with 0 in *. lia. }
  destruct (Z.ltb_spec (doc_size s) 5); [by rewrite Hne|].
  replace (zlen a + zlen s - zlen a) with (zlen s) by lia. rewrite s32_id by lia.
  destruct (Z.ltb_spec (zlen s) (doc_size s)); [by rewrite Hne|].
  rewrite padd_at by done. sbind. rewrite u32_id by lia.
  pose proof (init_static_spec s [] t (doc_size s)) as Ei. rewrite app_nil_r in Ei.
  rewrite Ei by (done || lia). sbind.
  case_bool_decide; [|by rewrite Hne]. rewrite zlen_take by lia. by rewrite !u64_id by lia.
Qed.

(** The length left is converted to [int32_t]: with 2 GiB or more of memory
    left the reader gives up, whatever document comes next. *)
Lemma data_read_large a d rest :
  zlen (enc_doc d) <= BSON_MAX_SIZE -> zlen a < 2 ^ 62 ->
  2 ^ 31 <= zlen (enc_doc d ++ rest) < 2 ^ 32 ->
  let r := ReaderData (a ++ enc_doc d ++ rest) (zlen a + zlen (enc_doc d ++ rest)) (zlen a) in
  _bson_reader_data_read r = Some (None, false, r).
Proof.
  intros Hm Ha Hz r. pose proof (zlen_nonneg a). set (s := enc_doc d ++ rest) in *.
  pose proof (stream_next_enc d rest Hm) as Hn. fold s in Hn. apply stream_next_doc in Hn as (_ & Hr & Hds).
  unfold _bson_reader_data_read. subst r. cbn [rd_offset rd_length rd_data]. rewrite !u64_id by lia.
  destruct (Z.ltb_spec (zlen a + 4) (zlen a + zlen s)); [|lia].
  pose proof (i32_at a s [] ltac:(lia)) as Ei. rewrite app_nil_r in Ei. rewrite Ei. sbind. rewrite <- Hds.
  destruct (Z.ltb_spec (zlen (enc_doc d)) 5); [lia|]. replace (zlen a + zlen s - zlen a) with (zlen s) by lia.
  unfold s32, sext. rewrite u32_id by lia. destruct (Z.ltb_spec (zlen s) (2 ^ (32 - 1))); [lia|].
  destruct (Z.ltb_spec (zlen s - 2 ^ 32) (zlen (enc_doc d))); [done|lia].
Qed.
