(* ===== verification/BsonWriter.v ===== *)
(** A series of documents in one growing buffer ([bson-writer.c]), against the stream of the
    documents written; and the offsets at which beginning a document writes outside the
    buffer. *)

From S2P Require Import Prelude IntEncode CString BsonTypes BsonIter BsonSpec BsonIterSpec Text BsonView BsonT BsonTSpec BsonBuild.

(** [w_buf] names the caller's buffer, [*buf] of [*buflen] bytes ([NULL] is a cell
    of no bytes); [w_realloc] is whether there is a [realloc] function. *)
Record bson_writer_t := Writer {
  w_ready : bool;
  w_buf : nat;
  w_offset : Z;
  w_realloc : bool;
  w_b : bson_t
}.

(** [memset (&writer->b, 0, sizeof (bson_t))] *)
Definition bson_zero : bson_t := Bson 0 0 (replicate 120 x00) 0 0 0 None false.

Definition bson_writer_new (buf : nat) (offset : Z) (realloc_func : bool) : bson_writer_t :=
  Writer true buf offset realloc_func bson_zero.

Definition bson_writer_get_length (writer : bson_writer_t) : Z := u64 (w_offset writer + b_len (w_b writer)).

(** The loop that finds the next length of the buffer, while [need] is above
    it. *)
Fixpoint writer_buflen (fuel : nat) (need buflen : Z) : option Z :=
  if buflen <? need then
    match fuel with
    | O => None
    | S fuel' => writer_buflen fuel' need (if buflen =? 0 then 64 else u64 (buflen * 2))
    end
  else Some buflen.

Section Writer.
Context (malloc : Z -> bytes).

(** The document handed out is [w_b] of the result. *)
Definition bson_writer_begin (h : heap) (writer : bson_writer_t) : option (bool * heap * bson_writer_t) :=
  if negb (w_ready writer) then None else
  let b := Bson (flag_add BSON_FLAG_STATIC BSON_FLAG_NO_FREE) 5 [] 0 (w_buf writer) (w_offset writer) None (w_realloc writer) in
  m ← h_cells h !! w_buf writer;
  let need := u64 (w_offset writer + b_len b) in
  if (zlen m <? need) && negb (w_realloc writer)
  then Some (false, h, Writer true (w_buf writer) (w_offset writer) (w_realloc writer) bson_zero)
  else
    buflen ← writer_buflen 64 need (zlen m);
    let m := if zlen m <? need then realloc malloc m buflen else m in
    m ← store m (w_offset writer + 1) [x00; x00; x00; x00; x00];
    m ← store m (w_offset writer) [z2b 5];
    Some (true, heap_set h (w_buf writer) m, Writer false (w_buf writer) (w_offset writer) (w_realloc writer) b).

(** The document, after the client has worked on it. *)
Definition writer_set (writer : bson_writer_t) (b : bson_t) : bson_writer_t :=
  Writer (w_ready writer) (w_buf writer) (w_offset writer) (w_realloc writer) b.

Definition bson_writer_end (writer : bson_writer_t) : option bson_writer_t :=
  if w_ready writer then None
  else Some (Writer true (w_buf writer) (u64 (w_offset writer + b_len (w_b writer))) (w_realloc writer) bson_zero).

Definition bson_writer_rollback (writer : bson_writer_t) : bson_writer_t :=
  Writer true (w_buf writer) (w_offset writer) (w_realloc writer)
    (if negb (b_len (w_b writer) =? 0) then bson_zero else w_b writer).
End Writer.

(** ** The length of the buffer *)

Lemma writer_buflen_ge fuel need n : need <= n -> writer_buflen fuel need n = Some n.
Proof. intros. destruct fuel; cbn [writer_buflen]; destruct (Z.ltb_spec n need); (lia || done). Qed.

Lemma writer_buflen_0 fuel need : 0 < need -> writer_buflen (S fuel) need 0 = writer_buflen fuel need 64.
Proof. intros. cbn [writer_buflen]. destruct (Z.ltb_spec 0 need); [done|lia]. Qed.

Lemma writer_buflen_pos fuel : forall need n, 0 < n -> need <= 2 ^ 62 -> need <= n * 2 ^ Z.of_nat fuel ->
  exists k, 0 <= k /\ writer_buflen fuel need n = Some (n * 2 ^ k) /\ need <= n * 2 ^ k /\
    (n < need -> n * 2 ^ k < 2 * need) /\ (need <= n -> k = 0).
Proof.
  induction fuel as [|fuel IH]; intros need n Hn Hneed Hf; cbn [writer_buflen]; destruct (Z.ltb_spec n need).
  - change (2 ^ Z.of_nat 0) with 1 in Hf. lia.
  - exists 0. rewrite Z.mul_1_r. split; [lia|]. split; [done|]. lia.
  - destruct (Z.eqb_spec n 0); [lia|]. rewrite u64_id by lia. rewrite Nat2Z.inj_succ, Z.pow_succ_r in Hf by lia.
    destruct (IH need (n * 2)) as (k & Hk & E & Hge & Hlt & Heq); [lia|done|lia|].
    exists (Z.succ k). rewrite Z.pow_succ_r by lia. rewrite E. replace (n * (2 * 2 ^ k)) with (n * 2 * 2 ^ k) by ring.
    split; [lia|]. split; [done|]. split; [done|]. split; [|lia]. intros _.
    destruct (Z.ltb_spec (n * 2) need); [by apply Hlt|]. rewrite Heq, Z.mul_1_r by lia. lia.
  - exists 0. rewrite Z.mul_1_r. split; [lia|]. split; [done|]. lia.
Qed.

(** The sizes a buffer gets that starts empty or as a power of two. *)
Definition size_ok (n : Z) : Prop := n = 0 \/ (exists k, 0 <= k /\ n = 2 ^ k) \/ n = BSON_MAX_SIZE.

Lemma size_grows_ok n n' : size_ok n -> size_grows n n' -> size_ok n'.
Proof.
  intros Hn [->|(_ & req & Hreq & ->)]; [done|]. unfold _bson_round_up_alloc_size.
  destruct (Z.leb_spec req BSON_MAX_SIZE); [|lia]. unfold BSON_MAX_SIZE in *. rewrite bson_next_power_of_two_spec by lia.
  destruct (Z.min_spec (2 ^ Z.log2_up req) (2 ^ 31 - 1)) as [[_ ->]|[_ ->]]; [right; left|by right; right].
  exists (Z.log2_up req). split; [apply Z.log2_up_nonneg|done].
Qed.

(** Five bytes in front of a power of two. *)
Definition edge (o : Z) : bool := 2 ^ Z.log2 (o + 5) =? o + 5.

Lemma edge_false o k : edge o = false -> 0 <= k -> 2 ^ k <> o + 5.
Proof.
  unfold edge. intros He Hk E. rewrite <- E, Z.log2_pow2, Z.eqb_refl in He by done. done.
Qed.

Lemma begin_buflen o n : 0 <= o -> o + 5 <= 2 ^ 30 -> size_ok n -> n <= BSON_MAX_SIZE ->
  exists n', writer_buflen 64 (o + 5) n = Some n' /\ size_ok n' /\ o + 5 <= n' <= BSON_MAX_SIZE /\ n <= n' /\
    (o + 5 <= n -> n' = n) /\ (edge o = false -> o + 6 <= n').
Proof.
  intros Ho Ho5 Hn Hm. assert (Hp : forall n', size_ok n' -> o + 5 <= n' -> edge o = false -> o + 6 <= n').
  { intros n' [-> | [(k & Hk & ->) | ->]] Hge He; [lia| |unfold BSON_MAX_SIZE; lia].
    pose proof (edge_false o k He Hk). lia. }
  assert (Hmul : forall a k, 0 <= k -> (exists j, 0 <= j /\ a = 2 ^ j) -> size_ok (a * 2 ^ k)).
  { intros a k Hk (j & Hj & ->). right; left. exists (j + k). split; [lia|]. by rewrite Z.pow_add_r. }
  destruct (Z.leb_spec (o + 5) n) as [Hge|Hlt].
  { exists n. rewrite writer_buflen_ge by done. auto 10 with lia. }
  assert (H64 : 64 <= o + 5 \/ o + 5 < 64) by lia.
  destruct (decide (n = 0)) as [->|Hn0].
  - change 64%nat with (S 63). rewrite writer_buflen_0 by lia.
    destruct (writer_buflen_pos 63 (o + 5) 64) as (k & Hk & E & Hge & Hb & Hz); [lia|lia|change (2 ^ Z.of_nat 63) with 9223372036854775808; lia|].
    rewrite E. exists (64 * 2 ^ k). assert (Hok : size_ok (64 * 2 ^ k)) by (apply Hmul; [done|by exists 6]).
    assert (64 * 2 ^ k <= BSON_MAX_SIZE) by (unfold BSON_MAX_SIZE; destruct H64 as [H64|H64];
      [destruct (Z.ltb_spec 64 (o + 5)); [specialize (Hb H); lia|rewrite Hz by lia; lia]|rewrite Hz by lia; lia]).
    split; [done|]. split; [done|]. split; [lia|]. split; [lia|]. split; [lia|]. by apply Hp.
  - assert (Hpow : exists j, 0 <= j /\ n = 2 ^ j) by (destruct Hn as [?|[?|?]]; [done|done|unfold BSON_MAX_SIZE in *; lia]).
    assert (0 < n) by (destruct Hpow as (j & Hj & ->); lia).
    destruct (writer_buflen_pos 64 (o + 5) n) as (k & Hk & E & Hge & Hb & _); [lia|lia| |].
    { change (2 ^ Z.of_nat 64) with 18446744073709551616. lia. }
    rewrite E. exists (n * 2 ^ k). specialize (Hb Hlt). unfold BSON_MAX_SIZE.
    split; [done|]. split; [by apply Hmul|]. split; [lia|]. split; [lia|]. split; [lia|]. apply Hp; [by apply Hmul|done].
Qed.

(** ** The operations *)

Section Writer.
Context (malloc : Z -> bytes).
Hypothesis Hmalloc : forall n, 0 <= n -> zlen (malloc n) = n.

(** The writer between documents: [pre] is what is written, [rest] the rest of
    the buffer. *)
Definition writer_at (h : heap) (w : bson_writer_t) (pre rest : bytes) : Prop :=
  w_ready w = true /\ w_realloc w = true /\ h_cells h !! w_buf w = Some (pre ++ rest) /\ w_offset w = zlen pre /\
  size_ok (zlen (pre ++ rest)) /\ zlen (pre ++ rest) <= BSON_MAX_SIZE /\ (w_buf w < h_next h)%nat /\
  b_len (w_b w) = 0.

(** The writer inside a document. *)
Definition writer_in (h : heap) (w : bson_writer_t) (pre : bytes) (d : doc) (tail : bytes) : Prop :=
  w_ready w = false /\ w_realloc w = true /\ w_offset w = zlen pre /\ stored h (w_b w) pre d tail /\
  is_inline (w_b w) = false /\ b_buf (w_b w) = w_buf w /\ size_ok (zlen (pre ++ enc_doc d ++ tail)) /\ (w_buf w < h_next h)%nat.

Lemma writer_begin_spec h w pre rest n :
  writer_at h w pre rest -> edge (zlen pre) = false -> zlen pre + 5 <= 2 ^ 30 ->
  0 <= n -> zlen pre + 5 + n <= BSON_MAX_SIZE ->
  exists h' w' tail, bson_writer_begin malloc h w = Some (true, h', w') /\
    writer_in h' w' pre [] tail /\ writable (w_b w') n /\ w_buf w' = w_buf w /\
    (h_next h <= h_next h')%nat /\ (forall c, c <> w_buf w -> h_cells h' !! c = h_cells h !! c).
Proof.
  intros (Hrdy & Hre & Hcell & Ho & Hok & Hmax & Hnext & _) He H30 Hn Hroom. pose proof (zlen_nonneg pre).
  unfold bson_writer_begin. rewrite Hrdy, Hcell, Hre, Ho. cbn [negb b_len]. sbind. rewrite andb_false_r.
  rewrite u64_id by lia.
  destruct (begin_buflen (zlen pre) (zlen (pre ++ rest))) as (n' & -> & Hok' & Hn' & Hge & Hsame & Hgt); [done|done|done|done|]. sbind.
  specialize (Hgt He).
  assert (Hm : exists m rest', (if zlen (pre ++ rest) <? zlen pre + 5 then realloc malloc (pre ++ rest) n' else pre ++ rest) = m /\
    m = pre ++ rest' /\ zlen m = n').
  { destruct (Z.ltb_spec (zlen (pre ++ rest)) (zlen pre + 5)) as [Hlt|Hle].
    - destruct (zlen_realloc malloc Hmalloc (pre ++ rest) n' Hge) as (junk & -> & Hj).
      exists (pre ++ rest ++ junk), (rest ++ junk). rewrite <- app_assoc. split; [done|]. split; [done|].
      rewrite !zlen_app in *. lia.
    - exists (pre ++ rest), rest. split; [done|]. split; [done|]. symmetry. by apply Hsame. }
  destruct Hm as (m & rest' & -> & -> & Hz). rewrite zlen_app in Hz.
  destruct (split_at rest' 6 ltac:(lia)) as (six & tail & -> & H6 & Ht). rewrite zlen_app in Hz.
  destruct six as [|c0 five]; [change (zlen (@nil byte)) with 0 in H6; lia|]. rewrite zlen_cons in H6, Hz.
  change ((c0 :: five) ++ tail) with ([c0] ++ five ++ tail). rewrite (app_assoc pre).
  rewrite store_at by zl. sbind.
  rewrite <- app_assoc, (store_at pre [c0]) by done. sbind.
  eexists _, _, (x00 :: tail). split; [done|].
  set (buf := pre ++ [z2b 5] ++ [x00; x00; x00; x00; x00] ++ tail).
  assert (Hbuf : zlen buf = n') by (subst buf; rewrite !zlen_app; change (zlen [z2b 5]) with 1; change (zlen [x00; x00; x00; x00; x00]) with 5; lia).
  assert (Hb : buf = pre ++ enc_doc [] ++ x00 :: tail) by done.
  split; [|split; [|split; [done|split; [done|]]]].
  - split; [done|]. split; [done|]. split; [done|]. split; [|split; [done|split; [done|split; [by rewrite <- Hb, Hbuf|done]]]].
    unfold stored. cbn [w_b]. split; [done|]. split; [done|]. split.
    + unfold bson_buffer. change (is_inline _) with false. cbn. rewrite lookup_insert_eq. done.
    + change (is_inline _) with false. cbn match. rewrite <- Hb, Hbuf. split; [cbn [b_depth]; zl|lia].
  - split; [split; [cbn; lia|right; split; [done|cbn; lia]]|]. by split_and!.
  - intros c Hc. cbn. by rewrite lookup_insert_ne.
Qed.

(** A client's work on the document. *)
Lemma writer_client h w pre tail f d n :
  writer_in h w pre [] tail -> writable (w_b w) n -> writes f d -> zlen (enc_elems d) <= n ->
  exists h' b' tail', f h (w_b w) = Some (true, h', b') /\ writer_in h' (writer_set w b') pre d tail' /\
    (h_next h <= h_next h')%nat /\ (forall c, (c < h_next h)%nat -> c <> w_buf w -> h_cells h' !! c = h_cells h !! c).
Proof.
  intros (Hrdy & Hre & Ho & Hst & Hi & Hb & Hok & Hnext) Hw Hf Hn.
  destruct (Hf h (w_b w) pre [] tail n Hst Hw Hn) as (h' & b' & tail' & E & Hst' & _ & Hfr & _ & Hk).
  destruct (Hk Hi) as (Hb' & _ & Hi'). destruct Hfr as (F & N & _ & S). exists h', b', tail'. split; [done|].
  split; [|split; [done|intros c Hc Hne; apply F; [done|right; congruence]]].
  split; [done|]. split; [done|]. split; [done|]. split; [exact Hst'|]. split; [done|]. split; [cbn; congruence|]. split; [|cbn; lia].
  specialize (S (w_buf w) Hnext). unfold cell_size in S. destruct (stored_offset _ _ _ _ _ Hst Hi) as [_ C].
  destruct (stored_offset _ _ _ _ _ Hst' Hi') as [_ C']. rewrite Hb' in C'. rewrite Hb in C, C'. rewrite C, C' in S.
  by eapply size_grows_ok.
Qed.

Lemma writer_end_spec h w pre d tail :
  writer_in h w pre d tail ->
  exists w', bson_writer_end w = Some w' /\ writer_at h w' (pre ++ enc_doc d) tail /\ w_buf w' = w_buf w.
Proof.
  intros (Hrdy & Hre & Ho & Hst & Hi & Hb & Hok & Hnext). unfold bson_writer_end. rewrite Hrdy. eexists. split; [done|].
  split; [|done]. destruct (stored_offset _ _ _ _ _ Hst Hi) as [_ C]. destruct Hst as (Hl & Hm & _ & Hmax). rewrite Hi in Hmax.
  destruct Hmax as [_ Hmax]. split; [done|]. split; [done|]. cbn. rewrite <- app_assoc, <- Hb. split; [done|].
  split; [|split; [done|split; [done|split; [by rewrite Hb|done]]]]. rewrite Hl, Ho, zlen_app. rewrite !zlen_app in Hmax. unfold BSON_MAX_SIZE in Hmax.
  apply u64_id. zl.
Qed.

Lemma writer_rollback_spec h w pre d tail :
  writer_in h w pre d tail -> writer_at h (bson_writer_rollback w) pre (enc_doc d ++ tail) /\ w_buf (bson_writer_rollback w) = w_buf w.
Proof.
  intros (Hrdy & Hre & Ho & Hst & Hi & Hb & Hok & Hnext). split; [|done].
  destruct (stored_offset _ _ _ _ _ Hst Hi) as [_ C]. destruct Hst as (Hl & _ & _ & Hmax). rewrite Hi in Hmax.
  destruct Hmax as [_ Hmax]. split; [done|]. split; [done|]. cbn. rewrite <- Hb. split; [done|].
  split; [done|]. split; [done|]. split; [done|]. split; [by rewrite Hb|].
  destruct (Z.eqb_spec (b_len (w_b w)) 0); done.
Qed.

(** ** A series of documents

    Each is written in place, and then kept or dropped. *)
Fixpoint write_series (ds : list (doc * bool)) (h : heap) (w : bson_writer_t) : option (bool * heap * bson_writer_t) :=
  match ds with
  | [] => Some (true, h, w)
  | (d, keep) :: ds' =>
      '(ok, h, w) ← bson_writer_begin malloc h w;
      if negb ok then Some (false, h, w) else
      '(ok, h, b) ← write_elems malloc d h (w_b w);
      let w := writer_set w b in
      if negb ok then Some (false, h, w) else
      w ← (if (keep : bool) then bson_writer_end w else Some (bson_writer_rollback w));
      write_series ds' h w
  end.

(** What is kept, and the condition on the offsets documents begin at. *)
Fixpoint kept (ds : list (doc * bool)) : bytes :=
  match ds with [] => [] | (d, keep) :: ds' => (if (keep : bool) then enc_doc d else []) ++ kept ds' end.

Lemma kept_app ds1 ds2 : kept (ds1 ++ ds2) = kept ds1 ++ kept ds2.
Proof. induction ds1 as [|[d keep] ds1 IH]; [done|]. cbn [app kept]. by rewrite IH, <- app_assoc. Qed.

Fixpoint no_edges (o : Z) (ds : list (doc * bool)) : bool :=
  match ds with
  | [] => true
  | (d, keep) :: ds' => negb (edge o) && (o + zlen (enc_doc d) <=? 2 ^ 30) && no_edges (if (keep : bool) then o + zlen (enc_doc d) else o) ds'
  end.

Lemma write_series_spec ds : forall h w pre rest,
  Forall (fun '(d, _) => wf_elems d /\ canonical_elems d) ds -> writer_at h w pre rest -> no_edges (zlen pre) ds = true ->
  exists h' w' rest', write_series ds h w = Some (true, h', w') /\ writer_at h' w' (pre ++ kept ds) rest' /\
    w_buf w' = w_buf w /\ (h_next h <= h_next h')%nat /\
    (forall c, (c < h_next h)%nat -> c <> w_buf w -> h_cells h' !! c = h_cells h !! c).
Proof.
  induction ds as [|[d keep] ds IH]; intros h w pre rest Hds Hw Hok; cbn [write_series kept].
  { exists h, w, rest. rewrite app_nil_r. auto. }
  apply Forall_cons in Hds as [[Hwf Hcan] Hds]. cbn [no_edges] in Hok. apply andb_prop in Hok as [Hok Hok2].
  apply andb_prop in Hok as [He Hsz]. apply negb_true_iff in He. apply Z.leb_le in Hsz.
  pose proof (zlen_enc_doc d) as Hd. pose proof (zlen_nonneg (enc_elems d)). pose proof (zlen_nonneg pre).
  destruct (writer_begin_spec h w pre rest (zlen (enc_elems d)) Hw He) as (h1 & w1 & tail1 & -> & Hin1 & Hwr1 & Hb1 & N1 & F1);
    [lia|done|unfold BSON_MAX_SIZE; lia|]. sbind. cbn [negb].
  destruct (writer_client h1 w1 pre tail1 (write_elems malloc d) d _ Hin1 Hwr1 (write_elems_spec malloc Hmalloc d Hwf Hcan)) as
    (h2 & b2 & tail2 & -> & Hin2 & N2 & F2); [lia|]. sbind. cbn [negb].
  assert (Hnext : exists w3 rest3, (if keep then bson_writer_end (writer_set w1 b2) else Some (bson_writer_rollback (writer_set w1 b2))) = Some w3 /\
    writer_at h2 w3 (pre ++ if keep then enc_doc d else []) rest3 /\ w_buf w3 = w_buf w).
  { destruct keep.
    - destruct (writer_end_spec _ _ _ _ _ Hin2) as (w3 & -> & Hat & Hb3). exists w3, tail2. split; [done|]. split; [done|]. by rewrite Hb3.
    - destruct (writer_rollback_spec _ _ _ _ _ Hin2) as [Hat Hb3]. eexists _, _. split; [done|]. rewrite app_nil_r.
      split; [done|]. by rewrite Hb3. }
  destruct Hnext as (w3 & rest3 & -> & Hat & Hb3). sbind.
  destruct (IH h2 w3 _ rest3 Hds Hat) as (h4 & w4 & rest4 & E & Hat4 & Hb4 & N4 & F4).
  { rewrite zlen_app. destruct keep; [done|]. change (zlen (@nil byte)) with 0. by rewrite Z.add_0_r. }
  exists h4, w4, rest4. split; [done|]. rewrite app_assoc. split; [done|]. split; [congruence|]. split; [lia|].
  intros c Hc Hne. rewrite F4, F2, F1 by (lia || congruence). done.
Qed.
End Writer.

(** At an edge beginning a document writes one byte past the buffer. *)
Lemma writer_begin_overflow malloc h w m :
  w_ready w = true -> h_cells h !! w_buf w = Some m -> zlen m = w_offset w + 5 -> 0 <= w_offset w -> zlen m < 2 ^ 64 ->
  bson_writer_begin malloc h w = None.
Proof.
  intros Hr Hc Hz Ho Hl. unfold bson_writer_begin. rewrite Hr, Hc. cbn [negb b_len]. sbind. rewrite u64_id, <- Hz by lia.
  rewrite Z.ltb_irrefl. cbn [andb]. rewrite writer_buflen_ge by lia. sbind.
  assert (E : store m (w_offset w + 1) [x00; x00; x00; x00; x00] = None).
  { unfold store. change (zlen [x00; x00; x00; x00; x00]) with 5.
    destruct (Z.leb_spec (w_offset w + 1 + 5) (zlen m)); [lia|]. by rewrite andb_false_r. }
  by rewrite E.
Qed.
