(* ===== verification/Validate.v ===== *)
(** The validator: [bson/validate.c]. *)

From Stdlib Require Import Strings.String.
From S2P Require Import Prelude CString Text IntEncode BsonTypes BsonIter BsonIterSafe BsonSpec.
From S2P Require Import BsonIterSpec Utf8 BsonView.

(** ** Flags, parameters and state *)

Definition BSON_VALIDATE_UTF8 : Z := 1.
Definition BSON_VALIDATE_DOLLAR_KEYS : Z := 2.
Definition BSON_VALIDATE_DOT_KEYS : Z := 4.
Definition BSON_VALIDATE_UTF8_ALLOW_NULL : Z := 8.
Definition BSON_VALIDATE_EMPTY_KEYS : Z := 16.
Definition BSON_VALIDATE_CORRUPT : Z := 32.
Definition BSON_VALIDATION_MAX_NESTING_DEPTH : Z := 500.

Record validation_params := ValidationParams {
  allow_invalid_utf8 : bool;
  allow_null_in_utf8 : bool;
  allow_empty_keys : bool;
  allow_dot_in_keys : bool;
  check_special_dollar_keys : bool
}.

(** The part of [validator] that changes. *)
Record validator := Validator { v_error : bson_error_t; v_error_offset : Z }.

Definition validator_init : validator := Validator error_none 0.

(** A validation step returns its verdict and the updated state. *)
Definition vstep : Type := validator -> option (bool * validator).

Definition vok : vstep := fun self => Some (true, self).

(** [require_with_error (false, offset, code, ...)] *)
Definition vfail (offset code : Z) (text : bytes) : vstep :=
  fun self => Some (false, Validator (bson_set_error BSON_ERROR_INVALID code text) offset).

(** [require_with_error (cond, ...); rest] *)
Definition require_with_error (cond : bool) (offset code : Z) (text : bytes) (rest : vstep) : vstep :=
  if cond then rest else vfail offset code text.

(** [require (a); b], and [a && b]. *)
Definition vthen (a b : vstep) : vstep := fun self =>
  '(ok, self) ← a self; if (ok : bool) then b self else Some (false, self).

(** [require_advance (done, iter); rest] *)
Definition require_advance (it : bson_iter_t) (rest : bool -> bson_iter_t -> vstep) : vstep :=
  fun self =>
    '(more, it) ← bson_iter_next it;
    if (more : bool) then rest false it self
    else if negb (it_err_off it =? 0)
    then vfail (it_err_off it) BSON_VALIDATE_CORRUPT (txt "corrupt BSON") self
    else rest true it self.

Definition _key_is (it : bson_iter_t) (key : bytes) : option bool :=
  k ← bson_iter_key it; c ← strcmp k key; Some (c =? 0).

(** ** Text *)

Definition _maybe_validate_utf8 (params : validation_params) (offset : Z) (u8 : bytes) (u8len : Z) :
    vstep := fun self =>
  if allow_invalid_utf8 params then vok self else
  u8okay ← bson_utf8_validate u8 u8len (allow_null_in_utf8 params);
  if (u8okay : bool) then vok self else
  let invalid := vfail offset BSON_VALIDATE_UTF8 (txt "Text element is not valid UTF-8") in
  if negb (allow_null_in_utf8 params) then
    u8okay_with_null ← bson_utf8_validate u8 u8len true;
    if (u8okay_with_null : bool)
    then vfail offset BSON_VALIDATE_UTF8_ALLOW_NULL
           (txt "UTF-8 string contains a U+0000 (null) character") self
    else invalid self
  else invalid self.

Definition _maybe_validate_utf8_cstring (params : validation_params) (offset : Z) (u8 : bytes) :
    vstep := fun self => n ← strlen u8; _maybe_validate_utf8 params offset u8 n self.

Definition _validate_stringlike_element (params : validation_params) (it : bson_iter_t) : vstep :=
  fun self =>
    l ← raw_u32 it (it_d1 it);
    u8 ← raw_at it (it_d2 it);
    _maybe_validate_utf8 params (it_off it) u8 (u32 (l - 1)) self.

Definition _validate_regex_elem (params : validation_params) (it : bson_iter_t) : vstep := fun self =>
  '(rx, opts) ← bson_iter_regex it;
  rx ← rx; opts ← opts;
  vthen (_maybe_validate_utf8_cstring params (it_off it) rx)
        (_maybe_validate_utf8_cstring params (it_off it) opts) self.

(** ** Keys *)

Definition _validate_element_key (params : validation_params) (it : bson_iter_t) : vstep := fun self =>
  key ← bson_iter_key it;
  key_len ← bson_iter_key_len it;
  k ← cstr key;
  first ← rd key 0;
  has_dot ← strstr key (lit ".");
  vthen (_maybe_validate_utf8 params (it_off it) key key_len)
    (require_with_error (negb (check_special_dollar_keys params) || negb (byte_eqb first (z2b 36)))
       (it_off it) BSON_VALIDATE_DOLLAR_KEYS
       (txt "Disallowed '$' in element key: " ++ quoted k)
    (require_with_error (allow_empty_keys params || negb (key_len =? 0))
       (it_off it) BSON_VALIDATE_EMPTY_KEYS (txt "Element key cannot be an empty string")
    (require_with_error (allow_dot_in_keys params || negb (bool_decide (is_Some has_dot)))
       (it_off it) BSON_VALIDATE_DOT_KEYS
       (txt "Disallowed '.' in element key: " ++ quoted k) vok))) self.

(** [bson_init_static] on the sub-document's own length. *)
Definition _get_subdocument (it : bson_iter_t) : option (bool * bytes * Z) :=
  len ← raw_u32 it (it_d1 it);
  data ← raw_at it (it_d1 it);
  ok ← bson_init_static data len; Some (ok, data, len).

(** The parameters of a scope document. *)
Definition scope_params : validation_params := ValidationParams false true true true false.

(** ** Elements and documents

    [rec] is [_validate_doc] at the next depth. *)
Section Elements.
Context (rec : validation_params -> bytes -> Z -> vstep).

Definition _validate_codewscope_elem (params : validation_params) (it : bson_iter_t) : vstep :=
  fun self =>
    '(u8, u8len, doc_len, doc) ← bson_iter_codewscope it;
    u8 ← u8; doc ← doc;
    ok ← bson_init_static doc doc_len;
    require_with_error ok (it_off it) BSON_VALIDATE_CORRUPT (txt "corrupt scope document")
      (vthen (_maybe_validate_utf8 params (it_off it) u8 u8len)
        (fun self =>
           '(okay, scope_validator) ← rec scope_params doc doc_len validator_init;
           if (okay : bool) then vok self else
           key ← bson_iter_key it; k ← cstr key;
           let e := v_error scope_validator in
           Some (false, Validator
             (bson_set_error (err_domain e) (err_code e)
                (txt "Error in scope document for element " ++ quoted k ++ txt ": " ++
                 err_message e))
             (u64 (v_error_offset scope_validator + it_off it))))) self.

Definition _validate_element_value (params : validation_params) (it : bson_iter_t) : vstep :=
  fun self =>
    ty ← bson_iter_type it;
    match type_of_code ty with
    | None | Some BSON_TYPE_EOD => None
    | Some (BSON_TYPE_DOUBLE | BSON_TYPE_NULL | BSON_TYPE_OID | BSON_TYPE_INT32 | BSON_TYPE_INT64
           | BSON_TYPE_MINKEY | BSON_TYPE_MAXKEY | BSON_TYPE_TIMESTAMP | BSON_TYPE_UNDEFINED
           | BSON_TYPE_DECIMAL128 | BSON_TYPE_DATE_TIME | BSON_TYPE_BOOL | BSON_TYPE_BINARY) =>
        vok self
    | Some (BSON_TYPE_DBPOINTER | BSON_TYPE_SYMBOL | BSON_TYPE_CODE | BSON_TYPE_UTF8) =>
        _validate_stringlike_element params it self
    | Some (BSON_TYPE_DOCUMENT | BSON_TYPE_ARRAY) =>
        '(ok, data, len) ← _get_subdocument it;
        require_with_error ok (it_off it) BSON_VALIDATE_CORRUPT (txt "corrupt BSON")
          (fun self =>
             '(okay, self) ← rec params data len self;
             if (okay : bool) then vok self else
             key_len ← bson_iter_key_len it;
             Some (false, Validator (v_error self)
               (u64 (v_error_offset self + (it_off it + key_len + 2))))) self
    | Some BSON_TYPE_REGEX => _validate_regex_elem params it self
    | Some BSON_TYPE_CODEWSCOPE => _validate_codewscope_elem params it self
    end.

Definition _validate_element (params : validation_params) (it : bson_iter_t) : vstep :=
  vthen (_validate_element_key params it) (_validate_element_value params it).

(** [while (!done)], with a bound on the number of iterations as fuel. *)
Fixpoint _validate_remaining_elements (fuel : nat) (params : validation_params) (it : bson_iter_t) :
    vstep := fun self =>
  match fuel with
  | O => None
  | S fuel' =>
      vthen (_validate_element params it)
        (require_advance it (fun done it =>
           if (done : bool) then vok else _validate_remaining_elements fuel' params it)) self
  end.

Definition _validate_dbref (params : validation_params) (it : bson_iter_t) : vstep := fun self =>
  is_ref ← _key_is it (lit "$ref");
  if negb is_ref then None else
  utf8 ← iter_holds BSON_TYPE_UTF8 it;
  require_with_error utf8 (it_off it) BSON_VALIDATE_DOLLAR_KEYS
    (txt "$ref element must be a UTF-8 element")
  (vthen (_validate_element_value params it)
  (require_advance it (fun done it self =>
     is_id ← (if (done : bool) then Some false else _key_is it (lit "$id"));
     require_with_error is_id (it_off it) BSON_VALIDATE_DOLLAR_KEYS
       (txt "Expected an $id element following $ref")
     (vthen (_validate_element_value params it)
     (require_advance it (fun done it self =>
        if (done : bool) then vok self else
        is_db ← _key_is it (lit "$db");
        if (is_db : bool) then
          utf8 ← iter_holds BSON_TYPE_UTF8 it;
          require_with_error utf8 (it_off it) BSON_VALIDATE_DOLLAR_KEYS
            (txt "$db element in DBRef must be a UTF-8 element")
          (vthen (_validate_element_value params it)
          (require_advance it (fun done it =>
             if (done : bool) then vok
             else _validate_remaining_elements (iter_fuel it) params it))) self
        else _validate_remaining_elements (iter_fuel it) params it self))) self))) self.

Definition _validate_dollar_doc (params : validation_params) (it : bson_iter_t) : vstep := fun self =>
  is_ref ← _key_is it (lit "$ref");
  if (is_ref : bool) then _validate_dbref params it self else
  '(okay, self) ← _validate_element_key params it self;
  if (okay : bool) then None else Some (false, self).

(** [_validate_doc] after the depth check. *)
Definition validate_doc_body (params : validation_params) (data : bytes) (len : Z) : vstep :=
  let '(ok, it) := bson_iter_init data len in
  require_with_error ok 0 BSON_VALIDATE_CORRUPT (txt "Document header corruption, unable to iterate")
  (require_advance it (fun done it self =>
     if (done : bool) then vok self else
     dollar ← (if check_special_dollar_keys params
               then key ← bson_iter_key it; c ← rd key 0; Some (byte_eqb c (z2b 36))
               else Some false);
     if (dollar : bool) then _validate_dollar_doc params it self
     else _validate_remaining_elements (iter_fuel it) params it self)).
End Elements.

(** [_validate_doc], at depth [BSON_VALIDATION_MAX_NESTING_DEPTH + 1 - levels];
    no level left is the depth error. *)
Fixpoint _validate_doc (levels : nat) (params : validation_params) (data : bytes) (len : Z) : vstep :=
  match levels with
  | O => vfail 0 BSON_VALIDATE_CORRUPT (txt "BSON document nesting depth is too deep")
  | S levels' => validate_doc_body (_validate_doc levels') params data len
  end.

Definition flag_set (flags f : Z) : bool := negb (Z.land flags f =? 0).

Definition params_of_flags (flags : Z) : validation_params := ValidationParams
  (negb (flag_set flags BSON_VALIDATE_UTF8)) (flag_set flags BSON_VALIDATE_UTF8_ALLOW_NULL)
  (negb (flag_set flags BSON_VALIDATE_EMPTY_KEYS)) (negb (flag_set flags BSON_VALIDATE_DOT_KEYS))
  (flag_set flags BSON_VALIDATE_DOLLAR_KEYS).

(** [(okay, offset, error)], with the final [mlib_check]. *)
Definition _bson_validate_impl_v2 (data : bytes) (len flags : Z) : option (bool * Z * bson_error_t) :=
  '(okay, v) ← _validate_doc (Z.to_nat (BSON_VALIDATION_MAX_NESTING_DEPTH + 1))
                 (params_of_flags flags) data len validator_init;
  if Bool.eqb okay (err_code (v_error v) =? 0) then Some (okay, v_error_offset v, v_error v) else None.

Definition bson_validate_with_error_and_offset := _bson_validate_impl_v2.
Definition bson_validate_with_error (data : bytes) (len flags : Z) : option (bool * bson_error_t) :=
  '(okay, _, error) ← bson_validate_with_error_and_offset data len flags; Some (okay, error).
Definition bson_validate (data : bytes) (len flags : Z) : option bool :=
  r ← _bson_validate_impl_v2 data len flags; Some r.1.1.

(** ** No undefined behaviour, and an error code exactly on failure *)

(** A step is defined, keeps the state when it accepts, and sets a non-zero
    code when it rejects. *)
Definition vgood (s : vstep) : Prop := forall self, exists okay self', s self = Some (okay, self') /\
  (okay = true -> self' = self) /\ (okay = false -> err_code (v_error self') <> 0).

Lemma vgood_ok : vgood vok.
Proof. intros self. by exists true, self. Qed.

Lemma vgood_fail o c t : c <> 0 -> vgood (vfail o c t).
Proof. intros Hc self. eexists false, _. split; [done|]. done. Qed.

Lemma vgood_require b o c t rest : c <> 0 -> vgood rest -> vgood (require_with_error b o c t rest).
Proof. intros. destruct b; [done|]. by apply vgood_fail. Qed.

Lemma vgood_then a b : vgood a -> vgood b -> vgood (vthen a b).
Proof.
  intros Ha Hb self. unfold vthen. destruct (Ha self) as (ok & s' & -> & Ht & Hf). sbind.
  destruct ok; [|by exists false, s']. rewrite (Ht eq_refl). apply Hb.
Qed.

Lemma vgood_advance it rest :
  iter_wf it ->
  (forall m t it', iter_on m t it' -> iter_left it' < iter_left it -> vgood (rest false it')) ->
  (forall it', vgood (rest true it')) ->
  vgood (require_advance it rest).
Proof.
  intros Hwf Hn Hd self. unfold require_advance.
  destruct (bson_iter_next_post it Hwf) as (ok & it' & Hnx & Hp). rewrite Hnx. sbind.
  destruct ok.
  - destruct Hp as (m & t & _ & Hon & _). apply (Hn m t it' Hon). by apply iter_left_next.
  - destruct (it_err_off it' =? 0); [apply Hd|by apply vgood_fail].
Qed.

Lemma vgood_utf8 p o s rest : vgood (_maybe_validate_utf8 p o (s ++ rest) (zlen s)).
Proof.
  intros self. unfold _maybe_validate_utf8. destruct (allow_invalid_utf8 p); [apply vgood_ok|].
  destruct (bson_utf8_validate_spec s rest (allow_null_in_utf8 p)) as (r & -> & _). sbind.
  destruct r; [apply vgood_ok|]. destruct (allow_null_in_utf8 p); cbn [negb]; [by apply vgood_fail|].
  destruct (bson_utf8_validate_spec s rest true) as (r & -> & _). sbind.
  destruct r; by apply vgood_fail.
Qed.

(** The same with the length as the caller computes it. *)
Lemma vgood_utf8_at p o u n : 0 <= n <= zlen u -> vgood (_maybe_validate_utf8 p o u n).
Proof.
  intros Hn. rewrite <- (take_drop (Z.to_nat n) u).
  replace n with (zlen (take (Z.to_nat n) u)) at 3 by (by apply zlen_take).
  apply vgood_utf8.
Qed.

Lemma vgood_utf8_cstring p o s rest : no_nul s -> vgood (_maybe_validate_utf8_cstring p o (s ++ x00 :: rest)).
Proof.
  intros Hs self. unfold _maybe_validate_utf8_cstring. rewrite strlen_app by done. sbind. apply vgood_utf8.
Qed.

Lemma string_at_cstr p l : string_at p l -> exists s rest, p = s ++ x00 :: rest /\ no_nul s.
Proof.
  intros (s & rest & -> & _). destruct (proj2 (cstr_is_Some (s ++ x00 :: rest))) as [s' Hs'].
  { rewrite elem_of_app. right. constructor. }
  apply cstr_Some in Hs' as [Hn [t Ht]]. exists s', t. done.
Qed.

Lemma vgood_regex p m it : iter_on m BSON_TYPE_REGEX it -> vgood (_validate_regex_elem p it).
Proof.
  intros Hon self. unfold _validate_regex_elem, bson_iter_regex. rewrite (when_type_yes _ _ _ _ _ Hon).
  pose proof Hon as (Hr & Hm & Hl & Ho & _ & Hk & Hd & Hn & _ & _ & _ & Hok).
  destruct Hok as (H2 & Hz1 & Hz2).
  destruct (raw_at_on m _ it (it_d1 it) Hon) as (r & -> & Hpr); [lia|]. sbind.
  destruct (raw_at_on m _ it (it_d2 it) Hon) as (q & -> & Hpq); [lia|]. sbind.
  assert (string_at r (it_d2 it - 1 - it_d1 it)) as (s1 & r1 & -> & Hs1)%string_at_cstr.
  { apply rd_string_at. rewrite (padd_rd _ _ _ _ Hpr) by lia.
    by replace (it_d1 it + (it_d2 it - 1 - it_d1 it)) with (it_d2 it - 1) by lia. }
  assert (string_at q (it_next_off it - 1 - it_d2 it)) as (s2 & r2 & -> & Hs2)%string_at_cstr.
  { apply rd_string_at. rewrite (padd_rd _ _ _ _ Hpq) by lia.
    by replace (it_d2 it + (it_next_off it - 1 - it_d2 it)) with (it_next_off it - 1) by lia. }
  apply vgood_then; by apply vgood_utf8_cstring.
Qed.

Lemma vgood_stringlike p m t it :
  iter_on m t it ->
  t = BSON_TYPE_UTF8 \/ t = BSON_TYPE_CODE \/ t = BSON_TYPE_SYMBOL \/ t = BSON_TYPE_DBPOINTER ->
  vgood (_validate_stringlike_element p it).
Proof.
  intros Hon Ht self. unfold _validate_stringlike_element. rewrite (raw_u32_on _ _ _ _ Hon).
  pose proof Hon as (_ & Hm & Hl & Ho & _ & Hk & Hd & Hn & _ & _ & _ & Hok).
  assert (exists l, mlib_read_u32le m (it_d1 it) = Some l /\ 1 <= l /\ it_d2 it = it_d1 it + 4 /\
    it_d1 it + 4 + l <= it_next_off it) as (l & -> & ? & Hd2 & ?).
  { destruct Ht as [->|[->|[->| ->]]]; cbn in Hok; [| | |];
      destruct Hok as (l & Hok); exists l; intuition lia. }
  sbind. destruct (raw_at_on m _ it (it_d2 it) Hon) as (u & -> & Hu); [lia|]. sbind.
  pose proof (padd_zlen _ _ _ Hu). apply vgood_utf8_at. rewrite u32_id by lia. lia.
Qed.

Lemma vgood_key p m t it : iter_on m t it -> vgood (_validate_element_key p it).
Proof.
  intros Hon self. unfold _validate_element_key.
  destruct (iter_on_key _ _ _ Hon) as (k & rest & -> & Hk & ->). sbind.
  rewrite cstr_app by done. sbind.
  assert (exists c, rd (k ++ x00 :: rest) 0 = Some c) as [c ->].
  { apply rd_is_Some. zl. }
  sbind. unfold strstr. rewrite cstr_app by done. sbind. change (cstr (lit ".")) with (Some (txt ".")).
  sbind. apply vgood_then; [apply vgood_utf8|]. by repeat (apply vgood_require; [done|]); apply vgood_ok.
Qed.

(** One level: the sub-documents are handled by [rec]. *)
Section Level.
Context (rec : validation_params -> bytes -> Z -> vstep).
Hypothesis Hrec : forall p data len, 0 <= len <= zlen data -> len < 2 ^ 31 -> vgood (rec p data len).

Lemma vgood_codewscope p m it :
  iter_on m BSON_TYPE_CODEWSCOPE it -> vgood (_validate_codewscope_elem rec p it).
Proof.
  intros Hon self. unfold _validate_codewscope_elem.
  destruct (bson_iter_codewscope_on m it Hon) as (c & l & sl & s & -> & Hl & Hsl & _). sbind.
  destruct (bson_init_static_total s sl) as (ok & -> & Hok); [lia|]. sbind.
  destruct ok; [|by apply vgood_fail]. destruct (Hok eq_refl) as (Hb & _). cbn [require_with_error].
  apply vgood_then; [by apply vgood_utf8_at|]. intros self'.
  destruct (Hrec scope_params s sl) with (self := validator_init) as (okay & sv & -> & _ & Hf); [lia..|].
  sbind. destruct okay; [apply vgood_ok|].
  destruct (iter_on_key _ _ _ Hon) as (k & rest & -> & Hk & _). sbind. rewrite cstr_app by done. sbind.
  eexists false, _. split; [done|]. split; [done|]. intros _. by apply Hf.
Qed.

Lemma vgood_value p m t it : iter_on m t it -> vgood (_validate_element_value rec p it).
Proof.
  intros Hon self. unfold _validate_element_value.
  assert (Hty : bson_iter_type it = Some (type_code t)).
  { pose proof (iter_on_holds m t it BSON_TYPE_EOD Hon) as H. unfold iter_holds, bson_iter_type in *.
    destruct (it_len it =? 0); [done|]. apply (iter_on_type _ _ _ Hon). }
  rewrite Hty. sbind. rewrite type_of_code_code.
  assert (Hsub : t = BSON_TYPE_DOCUMENT \/ t = BSON_TYPE_ARRAY -> vgood (fun self =>
    '(ok, data, len) ← _get_subdocument it;
    require_with_error ok (it_off it) BSON_VALIDATE_CORRUPT (txt "corrupt BSON")
      (fun self => '(okay, self) ← rec p data len self;
         if (okay : bool) then vok self else
         key_len ← bson_iter_key_len it;
         Some (false, Validator (v_error self)
           (u64 (v_error_offset self + (it_off it + key_len + 2))))) self)).
  { intros Ht s0. destruct (bson_iter_recurse_on m t it Hon Ht) as (d & l & _ & Hd & Hl & Hwf & _).
    destruct (raw_at_on m t it (it_d1 it) Hon) as (d' & Hd' & Hd2);
      [destruct Hon as (_ & _ & _ & ? & _ & ? & ? & ? & _); lia|].
    rewrite Hd in Hd2. injection Hd2 as <-.
    unfold _get_subdocument. rewrite (raw_u32_on _ _ _ _ Hon), Hl. sbind. rewrite Hd'. sbind.
    unfold iter_wf in Hwf. cbn in Hwf.
    destruct (bson_init_static_total d l) as (ok & -> & _); [lia|]. sbind.
    destruct ok; [|by apply vgood_fail]. cbn [require_with_error].
    destruct (Hrec p d l) with (self := s0) as (okay & s1 & -> & Ht1 & Hf1); [lia..|]. sbind.
    destruct okay; [rewrite (Ht1 eq_refl); apply vgood_ok|].
    destruct (iter_on_key _ _ _ Hon) as (k & rest & _ & _ & ->). sbind.
    eexists false, _. split; [done|]. split; [done|]. intros _. by apply Hf1. }
  destruct t; try apply vgood_ok; try (apply Hsub; by auto);
    try (by apply (vgood_stringlike p m _ it Hon); auto);
    [|by apply (vgood_regex p m)|by apply (vgood_codewscope p m)].
  by destruct Hon as (_ & _ & _ & _ & _ & _ & _ & _ & _ & _ & _ & []).
Qed.

Lemma vgood_element p m t it : iter_on m t it -> vgood (_validate_element rec p it).
Proof. intros. apply vgood_then; [by eapply vgood_key|by eapply vgood_value]. Qed.

Lemma vgood_remaining fuel p m t it :
  iter_on m t it -> iter_left it < Z.of_nat fuel -> vgood (_validate_remaining_elements rec fuel p it).
Proof.
  revert m t it. induction fuel as [|fuel IH]; intros m t it Hon Hf.
  { unfold iter_left in Hf. destruct Hon as (Hr & _). rewrite Hr in Hf. lia. }
  intros self. cbn [_validate_remaining_elements]. apply vgood_then; [by eapply vgood_element|].
  apply vgood_advance; [by eapply iter_on_wf| |intros; apply vgood_ok].
  intros m' t' it' Hon' Hlt. apply (IH m' t' it' Hon'). lia.
Qed.

Lemma vgood_remaining_all p m t it :
  iter_on m t it -> vgood (_validate_remaining_elements rec (iter_fuel it) p it).
Proof. intros. eapply vgood_remaining; [done|]. apply iter_left_fuel. by eapply iter_on_wf. Qed.

Lemma key_is_on m t it k : iter_on m t it -> no_nul k -> exists b, _key_is it (k ++ [x00]) = Some b.
Proof.
  intros Hon Hk. unfold _key_is. destruct (iter_on_key _ _ _ Hon) as (k' & rest & -> & Hk' & _). sbind.
  destruct (strcmp_spec k' k rest [] Hk' Hk) as (r & -> & _). by eexists.
Qed.

Lemma vgood_dbref p m t it :
  iter_on m t it -> _key_is it (lit "$ref") = Some true -> vgood (_validate_dbref rec p it).
Proof.
  intros Hon Hk self. unfold _validate_dbref. rewrite Hk. sbind. cbn [negb].
  rewrite (iter_on_holds _ _ _ _ Hon). sbind. apply vgood_require; [done|].
  apply vgood_then; [by eapply vgood_value|].
  apply vgood_advance; [by eapply iter_on_wf| |intros it2 s2; by apply vgood_fail].
  intros m2 t2 it2 Hon2 _ s2. destruct (key_is_on m2 t2 it2 (txt "$id") Hon2) as [b Hb];
    [by apply no_nulb_spec|]. change (txt "$id" ++ [x00]) with (lit "$id") in Hb. rewrite Hb. sbind.
  apply vgood_require; [done|]. apply vgood_then; [by eapply vgood_value|].
  apply vgood_advance; [by eapply iter_on_wf| |intros it3 s3; apply vgood_ok].
  intros m3 t3 it3 Hon3 _ s3. destruct (key_is_on m3 t3 it3 (txt "$db") Hon3) as [b3 Hb3];
    [by apply no_nulb_spec|]. change (txt "$db" ++ [x00]) with (lit "$db") in Hb3. rewrite Hb3. sbind.
  destruct b3; [|by eapply vgood_remaining_all].
  rewrite (iter_on_holds _ _ _ _ Hon3). sbind. apply vgood_require; [done|].
  apply vgood_then; [by eapply vgood_value|].
  apply vgood_advance; [by eapply iter_on_wf| |intros it4; apply vgood_ok].
  intros m4 t4 it4 Hon4 _. by eapply vgood_remaining_all.
Qed.

(** A [$] key is always reported by the key validator. *)
Lemma dollar_key_rejected p m t it c rest self :
  iter_on m t it -> check_special_dollar_keys p = true -> bson_iter_key it = Some (c :: rest) ->
  byte_eqb c (z2b 36) = true ->
  exists self', _validate_element_key p it self = Some (false, self') /\
    err_code (v_error self') <> 0.
Proof.
  intros Hon Hp Hkey Hc. destruct (vgood_key p m t it Hon self) as (ok & s' & E & _ & Hf).
  rewrite E. destruct ok; [|by eauto]. exfalso. revert E. unfold _validate_element_key.
  rewrite Hkey. sbind. rewrite rd_cons_0.
  destruct (bson_iter_key_len it), (cstr (c :: rest)), (strstr (c :: rest) (lit ".")); sbind; try done.
  rewrite Hp, Hc. cbn [negb orb require_with_error].
  unfold vthen. by destruct (_maybe_validate_utf8 _ _ _ _ _) as [[[] v]|].
Qed.

Lemma vgood_dollar p m t it c rest :
  iter_on m t it -> check_special_dollar_keys p = true -> bson_iter_key it = Some (c :: rest) ->
  byte_eqb c (z2b 36) = true -> vgood (_validate_dollar_doc rec p it).
Proof.
  intros Hon Hp Hkey Hc self. unfold _validate_dollar_doc.
  destruct (key_is_on m t it (txt "$ref") Hon) as [b Hb]; [by apply no_nulb_spec|].
  change (txt "$ref" ++ [x00]) with (lit "$ref") in Hb. rewrite Hb. sbind.
  destruct b; [by eapply vgood_dbref|].
  destruct (dollar_key_rejected p m t it c rest self) as (s' & -> & Hs'); [done..|]. sbind.
  exists false, s'. done.
Qed.

Lemma vgood_body p data len : 0 <= len <= zlen data -> len < 2 ^ 31 -> vgood (validate_doc_body rec p data len).
Proof.
  intros Hl Hm. unfold validate_doc_body. pose proof (bson_iter_init_wf data len Hl Hm) as Hwf.
  destruct (bson_iter_init data len) as [ok it]. cbn [snd] in Hwf. apply vgood_require; [done|].
  apply vgood_advance; [done| |intros it'; apply vgood_ok].
  intros m t it' Hon _ self. destruct (check_special_dollar_keys p) eqn:Hp; sbind;
    [|by eapply vgood_remaining_all].
  destruct (iter_on_key _ _ _ Hon) as (k & rest & Hk & _). rewrite Hk. sbind.
  assert (exists c r, k ++ x00 :: rest = c :: r) as (c & r & E) by (destruct k; simpl; eauto).
  rewrite E in *. rewrite rd_cons_0. sbind.
  destruct (byte_eqb c (z2b 36)) eqn:Hc; [by eapply vgood_dollar|by eapply vgood_remaining_all].
Qed.
End Level.

Lemma vgood_doc levels p data len :
  0 <= len <= zlen data -> len < 2 ^ 31 -> vgood (_validate_doc levels p data len).
Proof.
  revert p data len. induction levels as [|levels IH]; intros p data len Hl Hm; cbn [_validate_doc].
  - by apply vgood_fail.
  - by apply vgood_body.
Qed.
