(* ===== verification/ValidateSpec.v ===== *)
(** What the validator accepts: on the encoding of a document,
    [bson_validate] decides a declarative notion of validity. *)

From Stdlib Require Import Strings.String.
From S2P Require Import Prelude CString Text IntEncode BsonTypes BsonIter BsonIterSafe BsonSpec.
From S2P Require Import BsonIterSpec BsonIterFind Utf8 BsonView Validate.

(** ** Validity *)

Definition valid_text (p : validation_params) (s : bytes) : Prop :=
  allow_invalid_utf8 p = true \/ utf8_text (allow_null_in_utf8 p) s.

Definition dollar_first (k : bytes) : bool :=
  match k with c :: _ => byte_eqb c (z2b 36) | [] => false end.

Definition valid_key (p : validation_params) (k : bytes) : Prop :=
  valid_text p k /\
  (check_special_dollar_keys p = true -> dollar_first k = false) /\
  (allow_empty_keys p = false -> k <> []) /\
  (allow_dot_in_keys p = false -> dot ∉ k).

Definition is_utf8 (v : bval) : bool := match v with BUtf8 _ => true | _ => false end.

(** A DBRef: [$ref], then [$id], then perhaps [$db], then ordinary elements. *)
Definition valid_dbref (vv : bval -> Prop) (ve : elem -> Prop) (d : doc) : Prop :=
  match d with
  | (k1, v1) :: (k2, v2) :: d' =>
      k1 = txt "$ref" /\ is_utf8 v1 = true /\ vv v1 /\ k2 = txt "$id" /\ vv v2 /\
      match d' with
      | (k3, v3) :: d'' =>
          if decide (k3 = txt "$db")
          then is_utf8 v3 = true /\ vv v3 /\ Forall ve d''
          else Forall ve d'
      | [] => True
      end
  | _ => False
  end.

Definition dollar_doc (d : doc) : bool := match d with (k, _) :: _ => dollar_first k | [] => false end.

Fixpoint valid_doc (levels : nat) (p : validation_params) (d : doc) : Prop :=
  match levels with
  | O => False
  | S levels' =>
      let vv v :=
        match v with
        | BUtf8 s | BCode s | BSymbol s | BDBPointer s _ => valid_text p s
        | BRegex r o => valid_text p r /\ valid_text p o
        | BDocument d' | BArray d' => valid_doc levels' p d'
        | BCodeWScope c d' => valid_text p c /\ valid_doc levels' scope_params d'
        | _ => True
        end in
      let ve (e : elem) := valid_key p e.1 /\ vv e.2 in
      if check_special_dollar_keys p && dollar_doc d then valid_dbref vv ve d else Forall ve d
  end.

Definition valid_val (levels : nat) (p : validation_params) (v : bval) : Prop :=
  match v with
  | BUtf8 s | BCode s | BSymbol s | BDBPointer s _ => valid_text p s
  | BRegex r o => valid_text p r /\ valid_text p o
  | BDocument d' | BArray d' => valid_doc levels p d'
  | BCodeWScope c d' => valid_text p c /\ valid_doc levels scope_params d'
  | _ => True
  end.
Definition valid_elem (levels : nat) (p : validation_params) (e : elem) : Prop :=
  valid_key p e.1 /\ valid_val levels p e.2.

Lemma valid_doc_S levels p d :
  valid_doc (S levels) p d <->
  if check_special_dollar_keys p && dollar_doc d
  then valid_dbref (valid_val levels p) (valid_elem levels p) d else Forall (valid_elem levels p) d.
Proof. done. Qed.

(** ** Steps that decide a proposition *)

Definition vdecides (s : vstep) (P : Prop) : Prop := forall self,
  exists ok self', s self = Some (ok, self') /\ (ok = true <-> P).

Lemma vd_ok : vdecides vok True.
Proof. intros self. by exists true, self. Qed.

Lemma vd_iff s P Q : vdecides s P -> (P <-> Q) -> vdecides s Q.
Proof. intros Hs H self. destruct (Hs self) as (ok & s' & E & Hp). exists ok, s'. by rewrite <- H. Qed.

(** Rewriting with equivalent propositions. *)
#[local] Instance vdecides_proper s : Proper (iff ==> iff) (vdecides s).
Proof. intros P Q H. split; intros Hs; by eapply vd_iff. Qed.

Lemma vd_fail o c t : vdecides (vfail o c t) False.
Proof. intros self. eexists false, _. split; [done|]. done. Qed.

Lemma vd_require b o c t s P : vdecides s P -> vdecides (require_with_error b o c t s) (b = true /\ P).
Proof.
  intros Hs. destruct b; cbn [require_with_error].
  - eapply vd_iff; [done|]. tauto.
  - eapply vd_iff; [apply vd_fail|]. intuition congruence.
Qed.

Lemma vd_then a b P Q : vdecides a P -> vdecides b Q -> vdecides (vthen a b) (P /\ Q).
Proof.
  intros Ha Hb self. unfold vthen. destruct (Ha self) as (ok & s' & -> & HP). sbind.
  destruct ok.
  - destruct (Hb s') as (ok & s2 & -> & HQ). exists ok, s2. split; [done|]. pose proof (proj1 HP eq_refl). tauto.
  - exists false, s'. split; [done|]. split; [done|]. intros [H _]. by apply HP in H.
Qed.

Lemma vd_advance_elem pre e post len it rest P :
  wf_elem e -> zlen pre + zlen (enc_elem e) < len -> at_pos pre (enc_elem e ++ post) len it ->
  vdecides (rest false (elem_iter pre e post len)) P -> vdecides (require_advance it rest) P.
Proof.
  intros He Hl Hat Hr self. unfold require_advance.
  rewrite (next_elem pre e post len it) by done. sbind. apply Hr.
Qed.

Lemma vd_advance_end pre post len it rest P :
  at_pos pre (x00 :: post) len it -> len = zlen pre + 1 -> it_err_off it = 0 ->
  (forall it', vdecides (rest true it') P) -> vdecides (require_advance it rest) P.
Proof.
  intros Hat Hl He Hr self. unfold require_advance.
  destruct (next_end pre post len it Hat Hl) as (it' & -> & _ & E). sbind. rewrite E, He. apply Hr.
Qed.

Lemma vd_utf8 p o s rest : vdecides (_maybe_validate_utf8 p o (s ++ rest) (zlen s)) (valid_text p s).
Proof.
  intros self. unfold _maybe_validate_utf8, valid_text.
  destruct (allow_invalid_utf8 p); [exists true, self; split; [done|]; tauto|].
  destruct (bson_utf8_validate_spec s rest (allow_null_in_utf8 p)) as (r & -> & Hr). sbind.
  destruct r.
  - exists true, self. split; [done|]. tauto.
  - assert (Hno : ~ utf8_text (allow_null_in_utf8 p) s) by (rewrite <- Hr; done).
    destruct (allow_null_in_utf8 p); cbn [negb].
    + eexists false, _. split; [done|]. intuition done.
    + destruct (bson_utf8_validate_spec s rest true) as (r & -> & _). sbind.
      destruct r; eexists false, _; (split; [done|]); intuition done.
Qed.

Lemma vd_utf8_cstring p o s rest :
  no_nul s -> vdecides (_maybe_validate_utf8_cstring p o (s ++ x00 :: rest)) (valid_text p s).
Proof.
  intros Hs self. unfold _maybe_validate_utf8_cstring. rewrite strlen_app by done. sbind. apply vd_utf8.
Qed.

(** ** Keys *)

Lemma key_len_elem pre k v post len :
  no_nul k -> 0 <= zlen pre -> zlen pre + 2 + zlen k < 2 ^ 32 ->
  bson_iter_key_len (elem_iter pre (k, v) post len) = Some (zlen k).
Proof.
  intros Hk Hp Hm. unfold bson_iter_key_len, elem_iter. isimpl.
  destruct (Z.ltb_spec (zlen pre + 1) (zlen pre + 2 + zlen k)); [|zl]. f_equal.
  rewrite u32_id; zl.
Qed.

Lemma dollar_first_rd k rest c : rd (k ++ x00 :: rest) 0 = Some c -> byte_eqb c (z2b 36) = dollar_first k.
Proof. destruct k; cbn [app]; rewrite rd_cons_0; intros [= <-]; done. Qed.

Lemma vd_key p pre k v post len :
  no_nul k -> zlen pre + 2 + zlen k < 2 ^ 32 ->
  vdecides (_validate_element_key p (elem_iter pre (k, v) post len)) (valid_key p k).
Proof.
  intros Hk Hm self. unfold _validate_element_key. rewrite bson_iter_key_elem. sbind.
  rewrite key_len_elem by (done || zl). sbind. rewrite cstr_app by done. sbind.
  destruct (proj2 (rd_is_Some (k ++ x00 :: enc_val v ++ post) 0)) as [c Hc]; [zl|].
  rewrite Hc. sbind. rewrite (dollar_first_rd _ _ _ Hc).
  unfold strstr. rewrite cstr_app by done. sbind. change (cstr (lit ".")) with (Some [dot]). sbind.
  eapply (vd_iff (fun s => vthen _ _ s));
    [apply vd_then; [apply vd_utf8|]; do 3 apply vd_require; apply vd_ok|].
  unfold valid_key. rewrite !orb_true_iff, !negb_true_iff, Z.eqb_neq, bool_decide_eq_false, <- eq_None_not_Some.
  pose proof (find_sub_1 k dot). 
  assert (zlen k <> 0 <-> k <> []) by (split; intros H1 H2; apply H1; [by rewrite H2|by apply zlen_0]).
  destruct (check_special_dollar_keys p), (allow_empty_keys p), (allow_dot_in_keys p), (dollar_first k);
    intuition congruence.
Qed.

(** ** Values *)

Lemma vd_string p P v post it s b :
  on_value P v post it -> enc_val v = le_bytes 4 (zlen s + 1) ++ s ++ b -> val_d2 v (zlen P) = zlen P + 4 ->
  vdecides (_validate_stringlike_element p it) (valid_text p s).
Proof.
  intros Hon E Hd self. unfold _validate_stringlike_element.
  destruct (Hon) as (_ & _ & Hd1 & Hd2 & _ & _ & _ & Hl). rewrite E in Hl. autorewrite with zlen in Hl.
  rewrite (raw_u32_in _ _ _ _ Hon [] (zlen s + 1) (s ++ b) (it_d1 it)) by (done || zl). sbind.
  rewrite (raw_at_in _ _ _ _ Hon (le_bytes 4 (zlen s + 1)) (s ++ b) (it_d2 it)) by (done || zl). sbind.
  rewrite u32_id, <- app_assoc by zl. replace (zlen s + 1 - 1) with (zlen s) by lia. apply vd_utf8.
Qed.

Lemma vd_regex p P r o post it :
  on_value P (BRegex r o) post it -> vdecides (_validate_regex_elem p it) (valid_text p r /\ valid_text p o).
Proof.
  intros Hon self. unfold _validate_regex_elem.
  pose proof (bson_iter_value_of _ _ _ _ Hon) as Hv. unfold bson_iter_value in Hv.
  destruct (Hon) as (_ & Ht & _ & _ & _ & _ & [Hr Ho] & _). rewrite Ht in Hv.
  cbn [mbind option_bind] in Hv. rewrite type_of_code_code in Hv. cbn [bval_type] in Hv.
  destruct (bson_iter_regex it) as [[x y]|]; [|done]. cbn [mbind option_bind value_of] in Hv.
  injection Hv as -> ->. sbind. apply (vd_then _ _ _ _); by apply vd_utf8_cstring.
Qed.

Lemma iter_type_on P v post it len :
  on_value P v post it -> it_len it = len -> len <> 0 ->
  bson_iter_type it = Some (type_code (bval_type v)).
Proof.
  intros (_ & Ht & _) Hl Hn. unfold bson_iter_type, bson_iter_type_unsafe. rewrite Hl.
  by destruct (Z.eqb_spec len 0).
Qed.

Section Level.
Context (levels : nat) (rec : validation_params -> bytes -> Z -> vstep).
Hypothesis Hrec : forall p d rest, wf_elems d -> zlen (enc_doc d) <= BSON_MAX_SIZE ->
  vdecides (rec p (enc_doc d ++ rest) (zlen (enc_doc d))) (valid_doc levels p d).

Lemma vd_subdoc p P v d post pre k len :
  v = BDocument d \/ v = BArray d -> on_value P v post (elem_iter pre (k, v) post len) ->
  no_nul k -> zlen pre + 2 + zlen k < 2 ^ 32 -> bval_type v = BSON_TYPE_DOCUMENT \/ bval_type v = BSON_TYPE_ARRAY ->
  vdecides (fun self =>
    '(ok, data, len') ← _get_subdocument (elem_iter pre (k, v) post len);
    require_with_error ok (it_off (elem_iter pre (k, v) post len)) BSON_VALIDATE_CORRUPT (txt "corrupt BSON")
      (fun self => '(okay, self) ← rec p data len' self;
         if (okay : bool) then vok self else
         key_len ← bson_iter_key_len (elem_iter pre (k, v) post len);
         Some (false, Validator (v_error self)
           (u64 (v_error_offset self + (it_off (elem_iter pre (k, v) post len) + key_len + 2))))) self)
    (valid_doc levels p d).
Proof.
  intros Hv Hon Hk Hm Ht self. unfold _get_subdocument.
  pose proof (on_value_doc _ _ _ _ Hon) as Hd.
  assert (wf_elems d /\ zlen (enc_doc d) < 2 ^ 31) as [Hd1 Hd2] by (by destruct Hv as [->| ->]).
  assert (E : enc_val v = enc_doc d).
  { destruct Hv as [->| ->]; [apply enc_val_document|apply enc_val_array]. }
  destruct (Hon) as (_ & _ & Hp1 & _).
  rewrite (raw_u32_in _ _ _ _ Hon [] (zlen (enc_doc d)) (enc_elems d ++ [x00])
    (it_d1 (elem_iter pre (k, v) post len))); [|rewrite E; apply enc_doc_eq|zl|zl].
  sbind. rewrite (raw_at_in _ _ _ _ Hon [] (enc_doc d)
    (it_d1 (elem_iter pre (k, v) post len))) by (done || zl). sbind.
  assert (Hmax : zlen (enc_doc d) <= BSON_MAX_SIZE) by (unfold BSON_MAX_SIZE; lia).
  rewrite bson_init_static_enc by done. sbind. cbn [require_with_error].
  destruct (Hrec p d post Hd1 Hmax self) as (ok & s' & -> & Hok). sbind. destruct ok.
  - by exists true, s'.
  - rewrite key_len_elem by (done || zl). sbind. eexists false, _. by split.
Qed.

Lemma vd_codewscope p P c d post pre k len :
  on_value P (BCodeWScope c d) post (elem_iter pre (k, BCodeWScope c d) post len) -> no_nul k ->
  vdecides (_validate_codewscope_elem rec p (elem_iter pre (k, BCodeWScope c d) post len))
    (valid_text p c /\ valid_doc levels scope_params d).
Proof.
  intros Hon Hk self. unfold _validate_codewscope_elem. rewrite (codewscope_in _ _ _ _ _ Hon). sbind.
  destruct (Hon) as (_ & _ & _ & _ & _ & _ & Hwf & Hl). apply wf_val_codewscope in Hwf.
  rewrite enc_val_codewscope in Hl. autorewrite with zlen in Hl.
  assert (Hmax : zlen (enc_doc d) <= BSON_MAX_SIZE) by (unfold BSON_MAX_SIZE; zl).
  rewrite bson_init_static_enc by done. sbind. cbn [require_with_error].
  apply (vd_then _ _ _ _); [apply vd_utf8|]. intros s'.
  destruct (Hrec scope_params d post Hwf Hmax validator_init) as (ok & sv & -> & Hok). sbind.
  destruct ok; [by exists true, s'|].
  rewrite bson_iter_key_elem. sbind. rewrite cstr_app by done. sbind. eexists false, _. by split.
Qed.

Lemma vd_value p pre k v post len :
  wf_elem (k, v) -> zlen pre + zlen (enc_elem (k, v)) < len -> len < 2 ^ 31 ->
  vdecides (_validate_element_value rec p (elem_iter pre (k, v) post len)) (valid_val levels p v).
Proof.
  intros Hwf Hl Hmax self. pose proof (zlen_enc_elem (k, v)) as Hz. cbn [fst snd] in Hz.
  pose proof (elem_iter_on_value pre (k, v) post len Hwf ltac:(zl)) as Hon. cbn [fst snd] in Hon.
  unfold _validate_element_value. rewrite (iter_type_on _ _ _ _ len Hon eq_refl) by zl. sbind.
  rewrite type_of_code_code. destruct Hwf as [Hk _]. cbn [fst] in Hk.
  destruct v; cbn [bval_type valid_val]; try apply vd_ok;
    try (by apply (vd_string p _ _ _ _ s [x00] Hon)).
  - by apply (vd_subdoc p _ _ d post pre k len (or_introl eq_refl) Hon); [|zl|left].
  - by apply (vd_subdoc p _ _ d post pre k len (or_intror eq_refl) Hon); [|zl|right].
  - by apply (vd_regex p _ _ _ _ _ Hon).
  - apply (vd_string p _ _ _ _ collection (x00 :: oid) Hon); [|done].
    cbn [enc_val]. unfold enc_string. by rewrite <- !app_assoc.
  - by apply (vd_string p _ _ _ _ code [x00] Hon).
  - by apply (vd_codewscope p _ _ _ _ _ _ _ Hon).
Qed.

Lemma vd_element p pre k v post len :
  wf_elem (k, v) -> zlen pre + zlen (enc_elem (k, v)) < len -> len < 2 ^ 31 ->
  vdecides (_validate_element rec p (elem_iter pre (k, v) post len)) (valid_elem levels p (k, v)).
Proof.
  intros Hwf Hl Hm. pose proof (zlen_enc_elem (k, v)) as Hz. cbn [fst snd] in Hz.
  apply (vd_then _ _ _ _); [apply vd_key; [apply Hwf|zl]|by apply vd_value].
Qed.

(** An iterator on element [e], followed by the elements [d] of the document. *)
Definition on_elem (pre : bytes) (e : elem) (d : doc) (rest : bytes) (len : Z) (it : bson_iter_t) : Prop :=
  it = elem_iter pre e (enc_elems d ++ x00 :: rest) len /\ wf_elems (e :: d) /\ 4 <= zlen pre /\
  len = zlen pre + zlen (enc_elem e) + zlen (enc_elems d) + 1 /\ len < 2 ^ 31.

Lemma on_elem_wf pre e d rest len it : on_elem pre e d rest len it -> wf_elem e.
Proof. intros (_ & H & _). by apply Forall_cons_1 in H as [? _]. Qed.

(** Advancing from an element. *)
Lemma vd_advance_on pre e d rest len it cont Pd Pe :
  on_elem pre e d rest len it ->
  (d = [] -> forall it', vdecides (cont true it') Pd) ->
  (forall e' d' it', d = e' :: d' -> on_elem (pre ++ enc_elem e) e' d' rest len it' ->
     vdecides (cont false it') (Pe e' d')) ->
  vdecides (require_advance it cont) (match d with [] => Pd | e' :: d' => Pe e' d' end).
Proof.
  intros (-> & Hwf & Hp & Hl & Hm) Hdone Hnext.
  pose proof (at_pos_next pre e (enc_elems d ++ x00 :: rest) len Hp Hm) as Hat.
  apply Forall_cons_1 in Hwf as [He Hd]. destruct d as [|e' d].
  - apply (vd_advance_end _ _ _ _ _ _ Hat); [rewrite Hl; simpl; zl|done|by apply Hdone].
  - rewrite enc_elems_cons in *. rewrite <- app_assoc in *.
    eapply (vd_advance_elem _ _ _ _ _ _ _ (proj1 (Forall_cons_1 _ _ _ Hd))); [|exact Hat|]; [zl|].
    apply (Hnext e' d); [done|]. repeat split; try done; zl.
Qed.

Lemma vd_value_on p pre e d rest len it :
  on_elem pre e d rest len it -> vdecides (_validate_element_value rec p it) (valid_val levels p e.2).
Proof.
  intros H. pose proof (on_elem_wf _ _ _ _ _ _ H). destruct H as (-> & _ & _ & Hl & Hm).
  destruct e as [k v]. cbn [snd]. apply vd_value; [done|zl|done].
Qed.

Lemma vd_elem_on p pre e d rest len it :
  on_elem pre e d rest len it -> vdecides (_validate_element rec p it) (valid_elem levels p e).
Proof.
  intros H. pose proof (on_elem_wf _ _ _ _ _ _ H). destruct H as (-> & _ & _ & Hl & Hm).
  destruct e as [k v]. apply vd_element; [done|zl|done].
Qed.

Lemma vd_remaining p d : forall fuel pre e rest len it,
  on_elem pre e d rest len it -> (length d < fuel)%nat ->
  vdecides (_validate_remaining_elements rec fuel p it) (Forall (valid_elem levels p) (e :: d)).
Proof.
  induction d as [|e' d IH]; intros [|fuel] pre e rest len it Hon Hf; try (simpl in Hf; lia);
    intros self; cbn [_validate_remaining_elements].
  - eapply (vd_iff (fun s => vthen _ _ s)); [apply vd_then; [by eapply vd_elem_on|]|].
    + eapply (vd_advance_on _ _ _ _ _ _ _ True (fun _ _ => True) Hon); [intros; apply vd_ok|done].
    + rewrite Forall_singleton. tauto.
  - eapply (vd_iff (fun s => vthen _ _ s)); [apply vd_then; [by eapply vd_elem_on|]|].
    + eapply (vd_advance_on _ _ _ _ _ _ _ True (fun e d => Forall (valid_elem levels p) (e :: d)) Hon); [done|].
      intros e2 d2 it2 [= -> ->] Hon2. eapply IH; [done|]. simpl in Hf. lia.
    + cbn beta iota. split; [intros [? ?]; by constructor|intros [? ?]%Forall_cons_1; done].
Qed.

Lemma vd_remaining_all p pre e d rest len it :
  on_elem pre e d rest len it ->
  vdecides (_validate_remaining_elements rec (iter_fuel it) p it) (Forall (valid_elem levels p) (e :: d)).
Proof.
  intros Hon. eapply vd_remaining; [done|]. destruct Hon as (-> & _ & Hp & Hl & _).
  unfold iter_fuel, elem_iter. isimpl. pose proof (length_enc_elems d). unfold zlen in *. lia.
Qed.

Lemma key_is_elem pre e d rest len it k :
  on_elem pre e d rest len it -> no_nul k -> _key_is it (k ++ [x00]) = Some (bool_decide (e.1 = k)).
Proof.
  intros Hon Hk. pose proof (on_elem_wf _ _ _ _ _ _ Hon) as [He _]. destruct Hon as (-> & _).
  destruct e as [k' v]. unfold _key_is. rewrite bson_iter_key_elem. sbind. by apply strcmp_eq.
Qed.

Lemma holds_utf8_elem pre e d rest len it :
  on_elem pre e d rest len it -> iter_holds BSON_TYPE_UTF8 it = Some (is_utf8 e.2).
Proof.
  intros Hon. pose proof (on_elem_wf _ _ _ _ _ _ Hon) as He. destruct Hon as (-> & _ & Hp & Hl & Hm).
  rewrite (on_value_holds _ _ _ _ _ _ (elem_iter_on_value pre e _ len He ltac:(zl)) eq_refl).
  - destruct e as [k v]. by destruct v.
  - unfold elem_iter. isimpl. zl.
Qed.

(** After [$id]. *)
Definition after_id (p : validation_params) (d : doc) : Prop :=
  match d with
  | [] => True
  | (k3, v3) :: d'' =>
      if decide (k3 = txt "$db")
      then is_utf8 v3 = true /\ valid_val levels p v3 /\ Forall (valid_elem levels p) d''
      else Forall (valid_elem levels p) d
  end.

Lemma vd_after_id p pre e d rest len it :
  on_elem pre e d rest len it ->
  vdecides (require_advance it (fun done it self =>
    if (done : bool) then vok self else
    is_db ← _key_is it (lit "$db");
    if (is_db : bool) then
      utf8 ← iter_holds BSON_TYPE_UTF8 it;
      require_with_error utf8 (it_off it) BSON_VALIDATE_DOLLAR_KEYS
        (txt "$db element in DBRef must be a UTF-8 element")
      (vthen (_validate_element_value rec p it)
      (require_advance it (fun done it =>
         if (done : bool) then vok
         else _validate_remaining_elements rec (iter_fuel it) p it))) self
    else _validate_remaining_elements rec (iter_fuel it) p it self)) (after_id p d).
Proof.
  intros Hon. eapply vd_iff.
  - eapply (vd_advance_on _ _ _ _ _ _ _ True (fun e d => after_id p (e :: d)) Hon);
      [intros _ it'; apply vd_ok|].
    intros [k3 v3] d3 it3 _ Hon3 self. change (lit "$db") with (txt "$db" ++ [x00]).
    rewrite (key_is_elem _ _ _ _ _ _ _ Hon3) by (by apply no_nulb_spec). sbind. cbn [fst after_id].
    case_bool_decide as Ek; [rewrite decide_True by done|rewrite decide_False by done;
      by eapply vd_remaining_all].
    rewrite (holds_utf8_elem _ _ _ _ _ _ Hon3). sbind.
    apply (vd_require _ _ _ _ (vthen _ _)). apply vd_then; [by apply (vd_value_on p _ _ _ _ _ _ Hon3)|].
    eapply vd_iff.
    + eapply (vd_advance_on _ _ _ _ _ _ _ True (fun e d => Forall (valid_elem levels p) (e :: d)) Hon3);
        [intros _ it'; apply vd_ok|].
      intros e4 d4 it4 _ Hon4. by eapply vd_remaining_all.
    + destruct d3; [|done]. split; [constructor|done].
  - destruct d as [|[k3 v3] d]; done.
Qed.

Lemma vd_dbref p pre e d rest len it :
  on_elem pre e d rest len it -> e.1 = txt "$ref" ->
  vdecides (_validate_dbref rec p it)
    (valid_dbref (valid_val levels p) (valid_elem levels p) (e :: d)).
Proof.
  intros Hon Hk self. unfold _validate_dbref. change (lit "$ref") with (txt "$ref" ++ [x00]).
  rewrite (key_is_elem _ _ _ _ _ _ _ Hon) by (by apply no_nulb_spec).
  rewrite bool_decide_eq_true_2 by done. sbind. cbn [negb].
  rewrite (holds_utf8_elem _ _ _ _ _ _ Hon). sbind. destruct e as [k1 v1]. cbn [fst snd] in *.
  eapply (vd_iff (fun s => require_with_error _ _ _ _ (vthen _ _) s)).
  - apply vd_require, vd_then; [by apply (vd_value_on p _ _ _ _ _ _ Hon)|].
    eapply (vd_advance_on _ _ _ _ _ _ _ False
      (fun e2 d2 => e2.1 = txt "$id" /\ valid_val levels p e2.2 /\ after_id p d2) Hon).
    + intros _ it' s'. cbn [mbind option_bind require_with_error]. apply vd_fail.
    + intros [k2 v2] d2 it2 _ Hon2 s'. change (lit "$id") with (txt "$id" ++ [x00]).
      rewrite (key_is_elem _ _ _ _ _ _ _ Hon2) by (by apply no_nulb_spec). sbind. cbn [fst snd].
      eapply (vd_iff (fun s => require_with_error _ _ _ _ (vthen _ _) s)).
      * apply vd_require, vd_then; [by apply (vd_value_on p _ _ _ _ _ _ Hon2)|].
        eapply vd_after_id; done.
      * rewrite bool_decide_eq_true. done.
  - unfold valid_dbref, after_id. destruct d as [|[k2 v2] [|[k3 v3] d]]; cbn [fst snd]; tauto.
Qed.

Lemma vd_body p d rest :
  wf_elems d -> zlen (enc_doc d) <= BSON_MAX_SIZE ->
  vdecides (validate_doc_body rec p (enc_doc d ++ rest) (zlen (enc_doc d))) (valid_doc (S levels) p d).
Proof.
  intros Hwf Hmax. rewrite valid_doc_S. unfold validate_doc_body, bson_iter_init. unfold BSON_MAX_SIZE in Hmax.
  destruct (Z.ltb_spec (zlen (enc_doc d)) 5); [rewrite zlen_enc_doc in *; zl|]. cbn [require_with_error].
  pose proof (at_pos_start d rest ltac:(lia)) as Hat.
  destruct d as [|e d].
  { cbn [dollar_doc]. rewrite andb_false_r. eapply vd_iff.
    - eapply (vd_advance_end _ _ _ _ _ True Hat); [by rewrite zlen_enc_doc|done|].
      intros it' s. apply vd_ok.
    - split; [constructor|done]. }
  rewrite enc_elems_cons, <- app_assoc in Hat.
  eapply (vd_advance_elem _ _ _ _ _ _ _ (proj1 (Forall_cons_1 _ _ _ Hwf))); [|exact Hat|].
  { rewrite zlen_enc_doc, enc_elems_cons. zl. }
  intros self.
  assert (Hon : on_elem (le_bytes 4 (zlen (enc_doc (e :: d)))) e d rest (zlen (enc_doc (e :: d)))
    (elem_iter (le_bytes 4 (zlen (enc_doc (e :: d)))) e (enc_elems d ++ x00 :: rest)
      (zlen (enc_doc (e :: d))))).
  { split; [done|]. split; [done|]. split; [zl|]. split; [|lia].
    rewrite zlen_enc_doc, enc_elems_cons. zl. }
  set (it := elem_iter _ _ _ _) in *. destruct e as [k v]. cbn [dollar_doc].
  assert (Hd : (if check_special_dollar_keys p
     then key ← bson_iter_key it; c ← rd key 0; Some (byte_eqb c (z2b 36)) else Some false) =
     Some (check_special_dollar_keys p && dollar_first k)).
  { destruct (check_special_dollar_keys p); [|done]. subst it. rewrite bson_iter_key_elem. sbind.
    destruct (proj2 (rd_is_Some (k ++ x00 :: enc_val v ++ enc_elems d ++ x00 :: rest) 0)) as [c Hc]; [zl|].
    rewrite Hc. sbind. by rewrite (dollar_first_rd _ _ _ Hc). }
  rewrite Hd. sbind. destruct (check_special_dollar_keys p && dollar_first k) eqn:E.
  2: by eapply vd_remaining_all.
  unfold _validate_dollar_doc. change (lit "$ref") with (txt "$ref" ++ [x00]).
  rewrite (key_is_elem _ _ _ _ _ _ _ Hon) by (by apply no_nulb_spec). sbind. cbn [fst].
  case_bool_decide as Ek; [by eapply vd_dbref|].
  pose proof (on_elem_wf _ _ _ _ _ _ Hon) as [Hk _]. cbn [fst] in Hk.
  destruct (vd_key p (le_bytes 4 (zlen (enc_doc ((k, v) :: d)))) k v (enc_elems d ++ x00 :: rest)
    (zlen (enc_doc ((k, v) :: d))) Hk) with (self := self) as (ok & s' & E' & Hok).
  { rewrite zlen_enc_doc, enc_elems_cons in Hmax. pose proof (zlen_enc_elem (k, v)). cbn [fst] in *. zl. }
  fold it in E'. rewrite E'. sbind. apply andb_true_iff in E as [Ep Ed]. destruct ok.
  { destruct (proj1 Hok eq_refl) as (_ & H1 & _). rewrite H1 in Ed by done. done. }
  exists false, s'. split; [done|]. split; [done|]. unfold valid_dbref.
  destruct d as [|[k2 v2] d]; [done|]. tauto.
Qed.
End Level.

(** [_validate_doc] decides [valid_doc]. *)
Lemma vd_doc levels p d rest :
  wf_elems d -> zlen (enc_doc d) <= BSON_MAX_SIZE ->
  vdecides (_validate_doc levels p (enc_doc d ++ rest) (zlen (enc_doc d))) (valid_doc levels p d).
Proof.
  revert p d rest. induction levels as [|levels IH]; intros p d rest Hwf Hm; cbn [_validate_doc].
  - apply vd_fail.
  - by apply vd_body.
Qed.

(** The call [bson_validate] makes, on a document in memory. *)
Lemma bson_validate_decides d rest flags :
  wf_doc d ->
  exists okay, bson_validate (enc_doc d ++ rest) (zlen (enc_doc d)) flags = Some okay /\
    (okay = true <-> valid_doc 501 (params_of_flags flags) d).
Proof.
  intros [Hwf Hm]. unfold bson_validate, _bson_validate_impl_v2.
  destruct (vd_doc 501 (params_of_flags flags) d rest Hwf Hm validator_init) as (ok & v & E & Hok).
  change (Z.to_nat (BSON_VALIDATION_MAX_NESTING_DEPTH + 1)) with 501%nat. rewrite E. sbind.
  destruct (vgood_doc 501 (params_of_flags flags) (enc_doc d ++ rest) (zlen (enc_doc d)))
    with (self := validator_init) as (ok' & v' & E' & Ht & Hf); [zl|unfold BSON_MAX_SIZE in Hm; lia|].
  rewrite E in E'. injection E' as <- <-. exists ok. split; [|done].
  destruct ok; [by rewrite (Ht eq_refl)|]. rewrite (proj2 (Z.eqb_neq _ _) (Hf eq_refl)). done.
Qed.
