(* ===== verification/BigEndian.v ===== *)
(** Big-endian integers, and what a swap of the bytes of an integer does to
    them. *)

From S2P Require Import Prelude IntEncode.

(** ** Big-endian integers *)

Definition be_bytes (n : nat) (z : Z) : bytes := rev (le_bytes n z).

Lemma zlen_rev (l : bytes) : zlen (rev l) = zlen l.
Proof. unfold zlen. by rewrite length_rev. Qed.

Lemma zlen_be_bytes n z : zlen (be_bytes n z) = Z.of_nat n.
Proof. unfold be_bytes. by rewrite zlen_rev, zlen_le_bytes. Qed.
#[export] Hint Rewrite zlen_be_bytes : zlen.

(** The byte of [v] at bit [i]. *)
Definition byte_at (v i : Z) : Z := Z.land (Z.shiftr v i) 255.

Lemma byte_at_range v i : 0 <= byte_at v i < 256.
Proof. unfold byte_at. change 255 with (Z.ones 8). rewrite Z.land_ones by lia. apply Z.mod_pos_bound. lia. Qed.

Lemma land_byte v i : 0 <= i -> Z.land v (Z.shiftl 255 i) = Z.shiftl (byte_at v i) i.
Proof.
  intros Hi. unfold byte_at. apply Z.bits_inj'. intros n Hn. rewrite Z.land_spec, !Z.shiftl_spec, Z.land_spec by lia.
  destruct (Z_lt_le_dec n i); [rewrite !(Z.testbit_neg_r _ (n - i)) by lia; by rewrite andb_false_r|].
  rewrite Z.shiftr_spec by lia. by replace (n - i + i) with n by lia.
Qed.

(** Moving a byte up or down. *)
Lemma byte_up v m i j : 0 <= i -> 0 <= j -> m = Z.shiftl 255 i -> Z.shiftl (Z.land v m) j = Z.shiftl (byte_at v i) (i + j).
Proof. intros Hi Hj ->. by rewrite land_byte, Z.shiftl_shiftl by lia. Qed.
Lemma byte_down v m i j : 0 <= j <= i -> m = Z.shiftl 255 i -> Z.shiftr (Z.land v m) j = Z.shiftl (byte_at v i) (i - j).
Proof.
  intros Hi ->. rewrite land_byte by lia. replace i with ((i - j) + j) at 2 by lia.
  by rewrite <- Z.shiftl_shiftl, Z.shiftr_shiftl_l, Z.sub_diag, Z.shiftl_0_r by lia.
Qed.

(** Adding a byte under the bytes already moved up. *)
Lemma lor_byte x b k j : 0 <= k -> j = k + 8 -> 0 <= b < 256 ->
  Z.lor (Z.shiftl x j) (Z.shiftl b k) = Z.shiftl (x * 256 + b) k.
Proof.
  intros Hk -> Hb. replace (k + 8) with (8 + k) by lia. rewrite <- Z.shiftl_shiftl, <- Z.shiftl_lor by lia. f_equal.
  change 256 with (2 ^ 8). rewrite <- Z.shiftl_mul_pow2 by lia. pose proof (Z.add_lor_land (Z.shiftl x 8) b) as Hl.
  enough (Z.land (Z.shiftl x 8) b = 0) by lia. clear Hl. apply Z.bits_inj'. intros n Hn. rewrite Z.land_spec, Z.bits_0. rewrite Z.shiftl_spec by lia.
  destruct (Z_lt_le_dec n 8); [by rewrite Z.testbit_neg_r by lia|].
  rewrite (Z.bits_above_log2 b n); [by rewrite andb_false_r|lia|].
  destruct (decide (b = 0)) as [->|]; [simpl; lia|]. apply Z.log2_lt_pow2; [lia|].
  pose proof (Z.pow_le_mono_r 2 8 n). lia.
Qed.

Lemma le_val_cons b l : le_val (b :: l) = b2z b + 256 * le_val l.
Proof. reflexivity. Qed.
Lemma le_val_nil : le_val [] = 0.
Proof. reflexivity. Qed.

Lemma byte_at_0 b l : byte_at (le_val (b :: l)) 0 = b2z b.
Proof.
  unfold byte_at. rewrite Z.shiftr_0_r. change 255 with (Z.ones 8). rewrite Z.land_ones, le_val_cons by lia.
  change (2 ^ 8) with 256. pose proof (b2z_range b). rewrite (Z.mul_comm 256), Z.mod_add, Z.mod_small by lia. done.
Qed.
Lemma byte_at_S b l i : 8 <= i -> byte_at (le_val (b :: l)) i = byte_at (le_val l) (i - 8).
Proof.
  intros Hi. unfold byte_at. f_equal. replace i with (8 + (i - 8)) at 1 by lia.
  rewrite <- Z.shiftr_shiftr by lia. f_equal. rewrite Z.shiftr_div_pow2, le_val_cons by lia. change (2 ^ 8) with 256.
  pose proof (b2z_range b). rewrite (Z.mul_comm 256), Z.div_add, Z.div_small by lia. done.
Qed.

#[local] Opaque byte_at.

(** The swaps reverse the bytes in memory. *)
Ltac byte_up_at k := rewrite byte_up with (i := k) by (lia || reflexivity).
Ltac byte_down_at k := rewrite byte_down with (i := k) by (lia || reflexivity).
Ltac swap_bytes :=
  repeat first [ byte_up_at 0 | byte_up_at 8 | byte_up_at 16 | byte_up_at 24
               | byte_down_at 8 | byte_down_at 16 | byte_down_at 24 | byte_down_at 32
               | byte_down_at 40 | byte_down_at 48 | byte_down_at 56 ];
  repeat rewrite lor_byte by first [ apply byte_at_range | lia ];
  repeat first [ rewrite byte_at_0 | rewrite byte_at_S by lia; simpl Z.sub ];
  simpl Z.sub; rewrite ?Z.shiftl_0_r; cbn [rev app]; rewrite !le_val_cons, le_val_nil; lia.
