(* ===== verification/Md5.v ===== *)
(** MD5 over a stream of appended bytes: [common-md5.c]. *)

From Stdlib Require Import Strings.String.
From S2P Require Import Prelude CString Text IntEncode.

(** ** State *)

(** The registers, in the order [a], [b], [c], [d]. *)
Definition md5_regs : Type := Z * Z * Z * Z.

Record bson_md5_t := Md5 { md5_count0 : Z; md5_count1 : Z; md5_abcd : md5_regs; md5_buf : bytes }.

(** ** The block function *)

Definition T_MASK : Z := 0xffffffff.

(** [T1] to [T64]. *)
Definition md5_T : list Z :=
  [Z.lxor T_MASK 0x28955b87; Z.lxor T_MASK 0x173848a9; 0x242070db;
   Z.lxor T_MASK 0x3e423111; Z.lxor T_MASK 0x0a83f050; 0x4787c62a;
   Z.lxor T_MASK 0x57cfb9ec; Z.lxor T_MASK 0x02b96afe; 0x698098d8;
   Z.lxor T_MASK 0x74bb0850; Z.lxor T_MASK 0x0000a44e; Z.lxor T_MASK 0x76a32841;
   0x6b901122; Z.lxor T_MASK 0x02678e6c; Z.lxor T_MASK 0x5986bc71;
   0x49b40821; Z.lxor T_MASK 0x09e1da9d; Z.lxor T_MASK 0x3fbf4cbf;
   0x265e5a51; Z.lxor T_MASK 0x16493855; Z.lxor T_MASK 0x29d0efa2;
   0x02441453; Z.lxor T_MASK 0x275e197e; Z.lxor T_MASK 0x182c0437;
   0x21e1cde6; Z.lxor T_MASK 0x3cc8f829; Z.lxor T_MASK 0x0b2af278;
   0x455a14ed; Z.lxor T_MASK 0x561c16fa; Z.lxor T_MASK 0x03105c07;
   0x676f02d9; Z.lxor T_MASK 0x72d5b375; Z.lxor T_MASK 0x0005c6bd;
   Z.lxor T_MASK 0x788e097e; 0x6d9d6122; Z.lxor T_MASK 0x021ac7f3;
   Z.lxor T_MASK 0x5b4115bb; 0x4bdecfa9; Z.lxor T_MASK 0x0944b49f;
   Z.lxor T_MASK 0x4140438f; 0x289b7ec6; Z.lxor T_MASK 0x155ed805;
   Z.lxor T_MASK 0x2b10cf7a; 0x04881d05; Z.lxor T_MASK 0x262b2fc6;
   Z.lxor T_MASK 0x1924661a; 0x1fa27cf8; Z.lxor T_MASK 0x3b53a99a;
   Z.lxor T_MASK 0x0bd6ddbb; 0x432aff97; Z.lxor T_MASK 0x546bdc58;
   Z.lxor T_MASK 0x036c5fc6; 0x655b59c3; Z.lxor T_MASK 0x70f3336d;
   Z.lxor T_MASK 0x00100b82; Z.lxor T_MASK 0x7a7ba22e; 0x6fa87e4f;
   Z.lxor T_MASK 0x01d3191f; Z.lxor T_MASK 0x5cfebceb; 0x4e0811a1;
   Z.lxor T_MASK 0x08ac817d; Z.lxor T_MASK 0x42c50dca; 0x2ad7d2bb;
   Z.lxor T_MASK 0x14792c6e].
Definition md5_Ti (i : Z) : Z := nth (Z.to_nat (i - 1)) md5_T 0.

Definition ROTATE_LEFT (x n : Z) : Z := Z.lor (u32 (Z.shiftl x n)) (Z.shiftr x (32 - n)).

Definition md5_not (x : Z) : Z := Z.lxor T_MASK x.
Definition md5_F (x y z : Z) : Z := Z.lor (Z.land x y) (Z.land (md5_not x) z).
Definition md5_G (x y z : Z) : Z := Z.lor (Z.land x z) (Z.land y (md5_not z)).
Definition md5_H (x y z : Z) : Z := Z.lxor (Z.lxor x y) z.
Definition md5_I (x y z : Z) : Z := Z.lxor y (Z.lor x (md5_not z)).

(** [SET (a, b, c, d, k, s, Ti)] for the register it is first given: the others
    follow it in the order [a], [b], [c], [d], [a], ... *)
Inductive md5_reg := Ra | Rb | Rc | Rd.

Definition md5_set (f : Z -> Z -> Z -> Z) (X : list Z) (r : md5_regs) (op : md5_reg * Z * Z * Z) : md5_regs :=
  let '(a, b, c, d) := r in
  let '(reg, k, s, i) := op in
  let set a b c d :=
    let t := u32 (u32 (u32 (a + f b c d) + nth (Z.to_nat k) X 0) + md5_Ti i) in u32 (ROTATE_LEFT t s + b) in
  match reg with
  | Ra => (set a b c d, b, c, d)
  | Rb => (a, set b c d a, c, d)
  | Rc => (a, b, set c d a b, d)
  | Rd => (a, b, c, set d a b c)
  end.

(** The sixteen operations of each round: register, word, shift and the number of
    the constant. *)
Definition md5_round1 : list (md5_reg * Z * Z * Z) :=
  [(Ra, 0, 7, 1); (Rd, 1, 12, 2); (Rc, 2, 17, 3); (Rb, 3, 22, 4);
   (Ra, 4, 7, 5); (Rd, 5, 12, 6); (Rc, 6, 17, 7); (Rb, 7, 22, 8);
   (Ra, 8, 7, 9); (Rd, 9, 12, 10); (Rc, 10, 17, 11); (Rb, 11, 22, 12);
   (Ra, 12, 7, 13); (Rd, 13, 12, 14); (Rc, 14, 17, 15); (Rb, 15, 22, 16)].
Definition md5_round2 : list (md5_reg * Z * Z * Z) :=
  [(Ra, 1, 5, 17); (Rd, 6, 9, 18); (Rc, 11, 14, 19); (Rb, 0, 20, 20);
   (Ra, 5, 5, 21); (Rd, 10, 9, 22); (Rc, 15, 14, 23); (Rb, 4, 20, 24);
   (Ra, 9, 5, 25); (Rd, 14, 9, 26); (Rc, 3, 14, 27); (Rb, 8, 20, 28);
   (Ra, 13, 5, 29); (Rd, 2, 9, 30); (Rc, 7, 14, 31); (Rb, 12, 20, 32)].
Definition md5_round3 : list (md5_reg * Z * Z * Z) :=
  [(Ra, 5, 4, 33); (Rd, 8, 11, 34); (Rc, 11, 16, 35); (Rb, 14, 23, 36);
   (Ra, 1, 4, 37); (Rd, 4, 11, 38); (Rc, 7, 16, 39); (Rb, 10, 23, 40);
   (Ra, 13, 4, 41); (Rd, 0, 11, 42); (Rc, 3, 16, 43); (Rb, 6, 23, 44);
   (Ra, 9, 4, 45); (Rd, 12, 11, 46); (Rc, 15, 16, 47); (Rb, 2, 23, 48)].
Definition md5_round4 : list (md5_reg * Z * Z * Z) :=
  [(Ra, 0, 6, 49); (Rd, 7, 10, 50); (Rc, 14, 15, 51); (Rb, 5, 21, 52);
   (Ra, 12, 6, 53); (Rd, 3, 10, 54); (Rc, 10, 15, 55); (Rb, 1, 21, 56);
   (Ra, 8, 6, 57); (Rd, 15, 10, 58); (Rc, 6, 15, 59); (Rb, 13, 21, 60);
   (Ra, 4, 6, 61); (Rd, 11, 10, 62); (Rc, 2, 15, 63); (Rb, 9, 21, 64)].

(** The words of a block. *)
Definition md5_X (block : bytes) : list Z := map (fun k => le_val (take 4 (drop (4 * k) block))) (seq 0 16).

Definition md5_rounds (X : list Z) (r : md5_regs) : md5_regs :=
  let r := foldl (md5_set md5_F X) r md5_round1 in
  let r := foldl (md5_set md5_G X) r md5_round2 in
  let r := foldl (md5_set md5_H X) r md5_round3 in
  foldl (md5_set md5_I X) r md5_round4.

Definition md5_add (r r' : md5_regs) : md5_regs :=
  let '(a0, b0, c0, d0) := r in
  let '(a, b, c, d) := r' in (u32 (a0 + a), u32 (b0 + b), u32 (c0 + c), u32 (d0 + d)).

Definition bson_md5_process (md5 : bson_md5_t) (data : bytes) : option bson_md5_t :=
  block ← slice data 0 64;
  let r := md5_abcd md5 in
  Some (Md5 (md5_count0 md5) (md5_count1 md5) (md5_add r (md5_rounds (md5_X block) r)) (md5_buf md5)).

(** ** Streams *)

(** What [buf] holds at first is not set. *)
Definition mcommon_md5_init (junk : bytes) : bson_md5_t :=
  Md5 0 0 (0x67452301, Z.lxor T_MASK 0x10325476, Z.lxor T_MASK 0x67452301, 0x10325476) junk.

(** The loop over full blocks: what is left of the data, and how much. *)
Fixpoint md5_full (fuel : nat) (pms : bson_md5_t) (p : bytes) (left : Z) : option (bson_md5_t * bytes * Z) :=
  if 64 <=? left then
    match fuel with
    | O => None
    | S fuel' => pms ← bson_md5_process pms p; p ← padd p 64; md5_full fuel' pms p (u32 (left - 64))
    end
  else Some (pms, p, left).

Definition md5_set_buf (pms : bson_md5_t) (buf : bytes) : bson_md5_t :=
  Md5 (md5_count0 pms) (md5_count1 pms) (md5_abcd pms) buf.

Definition md5_blocks_and_rest (pms : bson_md5_t) (p : bytes) (left : Z) : option bson_md5_t :=
  '(pms, p, left) ← md5_full (Z.to_nat (left / 64)) pms p left;
  if negb (left =? 0) then src ← slice p 0 left; buf ← store (md5_buf pms) 0 src; Some (md5_set_buf pms buf)
  else Some pms.

(** From "Process an initial partial block" on. *)
Definition md5_append_from (pms : bson_md5_t) (offset : Z) (data : bytes) (nbytes : Z) : option bson_md5_t :=
  if negb (offset =? 0) then
    let copy := if 64 <? u32 (offset + nbytes) then 64 - offset else nbytes in
    src ← slice data 0 copy;
    buf ← store (md5_buf pms) offset src;
    let pms := md5_set_buf pms buf in
    if u32 (offset + copy) <? 64 then Some pms
    else
      p ← padd data copy;
      pms ← bson_md5_process pms (md5_buf pms);
      md5_blocks_and_rest pms p (u32 (nbytes - copy))
  else md5_blocks_and_rest pms data nbytes.

Definition mcommon_md5_append (pms : bson_md5_t) (data : bytes) (nbytes : Z) : option bson_md5_t :=
  let offset := Z.land (Z.shiftr (md5_count0 pms) 3) 63 in
  let nbits := u32 (Z.shiftl nbytes 3) in
  if nbytes <=? 0 then Some pms else
  let count1 := u32 (md5_count1 pms + Z.shiftr nbytes 29) in
  let count0 := u32 (md5_count0 pms + nbits) in
  let count1 := if count0 <? nbits then u32 (count1 + 1) else count1 in
  md5_append_from (Md5 count0 count1 (md5_abcd pms) (md5_buf pms)) offset data nbytes.

Definition md5_pad : bytes := z2b 0x80 :: replicate 63 x00.

(** [(uint8_t) (w\[i >> 2\] >> ((i & 3) << 3))] for the bytes of the words. *)
Definition md5_word_bytes (w : list Z) : bytes :=
  map (fun i => z2b (Z.shiftr (nth (Z.to_nat (Z.shiftr (Z.of_nat i) 2)) w 0) (Z.shiftl (Z.land (Z.of_nat i) 3) 3)))
    (seq 0 (4 * length w)).

(** The digest. *)
Definition mcommon_md5_finish (pms : bson_md5_t) : option bytes :=
  let data := md5_word_bytes [md5_count0 pms; md5_count1 pms] in
  pms ← mcommon_md5_append pms md5_pad (Z.land (u32 (55 - Z.shiftr (md5_count0 pms) 3)) 63 + 1);
  pms ← mcommon_md5_append pms data 8;
  let '(a, b, c, d) := md5_abcd pms in
  Some (md5_word_bytes [a; b; c; d]).

(** The test suite of RFC 1321. *)
Definition md5_of (s : bytes) : option bytes :=
  pms ← mcommon_md5_append (mcommon_md5_init (zeros 64)) s (zlen s); mcommon_md5_finish pms.
Example md5_empty : md5_of [] = Some (bs [0xd4; 0x1d; 0x8c; 0xd9; 0x8f; 0x00; 0xb2; 0x04; 0xe9; 0x80; 0x09; 0x98; 0xec; 0xf8; 0x42; 0x7e]).
Proof. vm_compute. reflexivity. Qed.
Example md5_abc : md5_of (txt "abc") = Some (bs [0x90; 0x01; 0x50; 0x98; 0x3c; 0xd2; 0x4f; 0xb0; 0xd6; 0x96; 0x3f; 0x7d; 0x28; 0xe1; 0x7f; 0x72]).
Proof. vm_compute. reflexivity. Qed.
Example md5_digits :
  md5_of (txt "12345678901234567890123456789012345678901234567890123456789012345678901234567890") =
  Some (bs [0x57; 0xed; 0xf4; 0xa2; 0x2b; 0xe3; 0xc9; 0x55; 0xac; 0x49; 0xda; 0x2e; 0x21; 0x07; 0xb6; 0x7a]).
Proof. vm_compute. reflexivity. Qed.
