(* ===== verification/Md5Spec.v ===== *)
(** MD5 as RFC 1321 has it, and [common-md5.c] against it. *)

From S2P Require Import Prelude CString IntEncode Md5.

#[local] Ltac Zify.zify_post_hook ::= Z.to_euclidean_division_equations.

(** ** Specification *)

(** The integer part of [2^32 * |sin i|], from the series
    [i - i^3 / 3! + i^5 / 5! - ...] with 240 binary places: the sum of the first
    [n] terms from one of degree [k]. *)
Fixpoint sine_sum (n : nat) (i k term : Z) : Z :=
  match n with
  | O => 0
  | S n' => term + sine_sum n' i (k + 2) (- (term * (i * i) / ((k + 1) * (k + 2))))
  end.
Definition sine_T (i : Z) : Z := Z.abs (sine_sum 120 i 1 (i * 2 ^ 240)) / 2 ^ 208.

(** Step [i] of 64, from 0: the function, the word, the shift. *)
Definition rfc_f (i : nat) : Z -> Z -> Z -> Z :=
  match i / 16 with 0 => md5_F | 1 => md5_G | 2 => md5_H | _ => md5_I end%nat.
Definition rfc_word (i : nat) : nat :=
  match i / 16 with 0 => i | 1 => (5 * i + 1) mod 16 | 2 => (3 * i + 5) mod 16 | _ => (7 * i) mod 16 end%nat.
Definition rfc_shift (i : nat) : Z :=
  nth (i mod 4) (nth (i / 16) [[7; 12; 17; 22]; [5; 9; 14; 20]; [4; 11; 16; 23]; [6; 10; 15; 21]] []) 0.

Definition rotl32 (x n : Z) : Z := x * 2 ^ n mod 2 ^ 32 + x / 2 ^ (32 - n).

(** The registers move one place at each step. *)
Definition rfc_step (X : list Z) (r : md5_regs) (i : nat) : md5_regs :=
  let '(a, b, c, d) := r in
  let x := (a + rfc_f i b c d + nth (rfc_word i) X 0 + sine_T (Z.of_nat i + 1)) mod 2 ^ 32 in
  (d, (b + rotl32 x (rfc_shift i)) mod 2 ^ 32, b, c).

Definition rfc_block (r : md5_regs) (block : bytes) : md5_regs :=
  md5_add r (foldl (rfc_step (md5_X block)) r (seq 0 64)).

(** The first [n] blocks of [p]. *)
Fixpoint md5_blocks (n : nat) (r : md5_regs) (p : bytes) : md5_regs :=
  match n with
  | O => r
  | S n' => md5_blocks n' (rfc_block r (take 64 p)) (drop 64 p)
  end.

Definition md5_iv : md5_regs := (0x67452301, 0xefcdab89, 0x98badcfe, 0x10325476).

(** A bit, zeros and the length in bits, up to a whole number of blocks. *)
Definition md5_padding (len : Z) : bytes :=
  z2b 0x80 :: zeros ((55 - len) mod 64) ++ le_bytes 8 (8 * len).

Definition md5_regs_bytes (r : md5_regs) : bytes :=
  let '(a, b, c, d) := r in le_bytes 4 a ++ le_bytes 4 b ++ le_bytes 4 c ++ le_bytes 4 d.

Definition md5_digest (m : bytes) : bytes :=
  let padded := m ++ md5_padding (zlen m) in
  md5_regs_bytes (md5_blocks (length padded / 64) md5_iv padded).

(** ** The block function *)

Lemma md5_T_sines : map md5_Ti (map (fun i => Z.of_nat i + 1) (seq 0 64)) = map sine_T (map (fun i => Z.of_nat i + 1) (seq 0 64)).
Proof. vm_compute. reflexivity. Qed.

#[local] Opaque sine_T.

Lemma md5_Ti_sine i : (i < 64)%nat -> md5_Ti (Z.of_nat i + 1) = sine_T (Z.of_nat i + 1).
Proof.
  intros Hi. pose proof (f_equal (fun l => l !! i) md5_T_sines) as H. cbn beta in H.
  rewrite !list_lookup_fmap, !lookup_seq_lt in H by done. by injection H.
Qed.

Lemma rotate_left_spec x n : is_u32 x -> 0 < n < 32 -> ROTATE_LEFT x n = rotl32 x n.
Proof.
  unfold is_u32, ROTATE_LEFT, rotl32, u32. intros Hx Hn. rewrite Z.shiftl_mul_pow2, Z.shiftr_div_pow2 by lia.
  assert (E : 2 ^ 32 = 2 ^ (32 - n) * 2 ^ n) by (rewrite <- Z.pow_add_r by lia; f_equal; lia).
  rewrite E, Z.mul_mod_distr_r by lia. apply lor_disjoint; [|lia]. split; [apply Z.div_pos; lia|].
  apply Z.div_lt_upper_bound; lia.
Qed.

(** The registers as the reference has them when [reg] is the one to set. *)
Definition view (reg : md5_reg) (r : md5_regs) : md5_regs :=
  let '(a, b, c, d) := r in
  match reg with Ra => (a, b, c, d) | Rd => (d, a, b, c) | Rc => (c, d, a, b) | Rb => (b, c, d, a) end.
Definition next_reg (reg : md5_reg) : md5_reg :=
  match reg with Ra => Rd | Rd => Rc | Rc => Rb | Rb => Ra end.

Lemma u32_add_l x y : u32 (u32 x + y) = u32 (x + y).
Proof. unfold u32. apply Zplus_mod_idemp_l. Qed.

Lemma u32_add3 x y z : u32 (u32 (u32 x + y) + z) = u32 (x + y + z).
Proof. by rewrite !u32_add_l, <- Z.add_assoc, u32_add_l, Z.add_assoc. Qed.

Lemma md5_set_step f X r reg i s :
  f = rfc_f i -> s = rfc_shift i -> 0 < s < 32 -> (i < 64)%nat ->
  rfc_step X (view reg r) i = view (next_reg reg) (md5_set f X r (reg, Z.of_nat (rfc_word i), s, Z.of_nat i + 1)).
Proof.
  intros -> -> Hs Hi. destruct r as [[[a b] c] d].
  destruct reg; cbn [view next_reg md5_set rfc_step];
    rewrite Nat2Z.id, md5_Ti_sine, u32_add3, rotate_left_spec by first [done | apply u32_range];
    rewrite (Z.add_comm (rotl32 _ _)); reflexivity.
Qed.

(** The operations from step [k] on, in the reference's terms. *)
Fixpoint ops_from (f : Z -> Z -> Z -> Z) (reg : md5_reg) (k : nat) (ops : list (md5_reg * Z * Z * Z)) : Prop :=
  match ops with
  | [] => True
  | op :: ops' =>
      op = (reg, Z.of_nat (rfc_word k), rfc_shift k, Z.of_nat k + 1) /\ f = rfc_f k /\ 0 < rfc_shift k < 32 /\
      (k < 64)%nat /\ ops_from f (next_reg reg) (S k) ops'
  end.

Lemma ops_from_steps f X ops : forall reg k r,
  ops_from f reg k ops ->
  foldl (rfc_step X) (view reg r) (seq k (length ops)) =
  view (Nat.iter (length ops) next_reg reg) (foldl (md5_set f X) r ops).
Proof.
  induction ops as [|op ops IH]; intros reg k r H; [done|].
  destruct H as (-> & Hf & Hs & Hk & H). cbn [length seq foldl].
  rewrite (md5_set_step f X r reg k _ Hf eq_refl Hs Hk), (IH _ _ _ H). cbn [length]. by rewrite Nat.iter_succ_r.
Qed.

Lemma rounds_from :
  ops_from md5_F Ra 0 md5_round1 /\ ops_from md5_G Ra 16 md5_round2 /\
  ops_from md5_H Ra 32 md5_round3 /\ ops_from md5_I Ra 48 md5_round4.
Proof. repeat (split || reflexivity); try reflexivity; lia. Qed.

Lemma view_a r : view Ra r = r.
Proof. by destruct r as [[[a b] c] d]. Qed.

Lemma round_rfc f X k ops r :
  ops_from f Ra k ops -> length ops = 16%nat -> foldl (md5_set f X) r ops = foldl (rfc_step X) r (seq k 16).
Proof.
  intros H E. pose proof (ops_from_steps f X ops Ra k r H) as S. rewrite E in S.
  change (Nat.iter 16 next_reg Ra) with Ra in S. by rewrite !view_a in S.
Qed.

Lemma md5_rounds_rfc X r : md5_rounds X r = foldl (rfc_step X) r (seq 0 64).
Proof.
  destruct rounds_from as (H1 & H2 & H3 & H4). unfold md5_rounds.
  rewrite (round_rfc _ X _ _ _ H1), (round_rfc _ X _ _ _ H2), (round_rfc _ X _ _ _ H3), (round_rfc _ X _ _ _ H4) by done.
  by rewrite <- !foldl_app.
Qed.

(** ** Blocks *)

Lemma md5_blocks_app n : forall r p q, (64 * n <= length p)%nat -> md5_blocks n r (p ++ q) = md5_blocks n r p.
Proof.
  induction n as [|n IH]; intros r p q H; [done|]. cbn [md5_blocks].
  rewrite take_app_le, drop_app_le by lia. apply IH. rewrite length_drop. lia.
Qed.

Lemma md5_blocks_add n n' : forall r p,
  md5_blocks (n + n') r p = md5_blocks n' (md5_blocks n r p) (drop (64 * n) p).
Proof.
  induction n as [|n IH]; intros r p; [by rewrite drop_0|]. cbn [md5_blocks Nat.add].
  rewrite IH, drop_drop. do 2 f_equal. lia.
Qed.

Definition md5_set_abcd (pms : bson_md5_t) (r : md5_regs) : bson_md5_t :=
  Md5 (md5_count0 pms) (md5_count1 pms) r (md5_buf pms).

Lemma md5_process_spec pms data :
  64 <= zlen data -> bson_md5_process pms data = Some (md5_set_abcd pms (rfc_block (md5_abcd pms) (take 64 data))).
Proof.
  intros H. unfold bson_md5_process. destruct (split_at data 64 ltac:(lia)) as (a & b & -> & Ha & Hb).
  rewrite slice_at_end_0 by lia. sbind. rewrite md5_rounds_rfc.
  by rewrite (take_app_length' a b 64) by (unfold zlen in Ha; lia).
Qed.

Lemma md5_full_spec n : forall pms p left,
  0 <= left < 2 ^ 32 -> left <= zlen p -> Z.of_nat n = left / 64 ->
  md5_full n pms p left =
  Some (md5_set_abcd pms (md5_blocks n (md5_abcd pms) p), drop (64 * n) p, left mod 64).
Proof.
  induction n as [|n IH]; intros pms p left Hl Hp Hn; cbn [md5_full].
  - destruct (Z.leb_spec 64 left); [lia|]. destruct pms. change (64 * 0)%nat with 0%nat. rewrite drop_0, Z.mod_small by lia. done.
  - destruct (Z.leb_spec 64 left); [|lia].
    rewrite md5_process_spec by lia. sbind.
    destruct (split_at p 64 ltac:(lia)) as (a & b & -> & Ha & Hb).
    rewrite padd_at by lia. sbind. rewrite u32_id by lia.
    assert (E : length a = 64%nat) by (unfold zlen in Ha; lia).
    rewrite IH by lia. cbn [md5_blocks].
    rewrite (take_app_length' a b 64), (drop_app_length' a b 64) by done.
    replace (64 * S n)%nat with (length a + 64 * n)%nat by lia. rewrite drop_app_add.
    replace ((left - 64) mod 64) with (left mod 64) by lia. done.
Qed.

(** ** Streams *)

(** What the registers and the buffer hold after [m]. *)
Definition md5_data (r : md5_regs) (buf m : bytes) : Prop :=
  exists n full part junk,
    m = full ++ part /\ zlen full = 64 * Z.of_nat n /\ r = md5_blocks n md5_iv full /\
    buf = part ++ junk /\ zlen buf = 64 /\ zlen part < 64.

Record md5_ok (pms : bson_md5_t) (m : bytes) : Prop := {
  md5_ok_data : md5_data (md5_abcd pms) (md5_buf pms) m;
  md5_ok_count0 : md5_count0 pms = u32 (8 * zlen m);
  md5_ok_count1 : md5_count1 pms = u32 (8 * zlen m / 2 ^ 32);
}.

Lemma md5_init_ok junk : zlen junk = 64 -> md5_ok (mcommon_md5_init junk) [].
Proof.
  intros H. split; [|reflexivity..].
  exists 0%nat, [], [], junk. by rewrite zlen_nil.
Qed.

(** After whole blocks. *)
Lemma md5_blocks_and_rest_ok pms n full data left :
  zlen full = 64 * Z.of_nat n -> md5_abcd pms = md5_blocks n md5_iv full -> zlen (md5_buf pms) = 64 ->
  0 <= left < 2 ^ 32 -> left <= zlen data ->
  exists r buf, md5_blocks_and_rest pms data left = Some (Md5 (md5_count0 pms) (md5_count1 pms) r buf) /\
    md5_data r buf (full ++ take (Z.to_nat left) data).
Proof.
  intros Hf Hr Hb Hl Hd. set (k := Z.to_nat (left / 64)). set (left' := left mod 64).
  destruct (split_at data (64 * Z.of_nat k) ltac:(lia)) as (a & b & -> & Ha & Hzb).
  destruct (split_at b left' ltac:(lia)) as (part & c & -> & Hpart & _).
  assert (Hk : length a = (64 * k)%nat) by (unfold zlen in Ha; lia).
  replace (take (Z.to_nat left) (a ++ part ++ c)) with (a ++ part)
    by (rewrite app_assoc, take_app_length'; [done|]; rewrite length_app; unfold zlen in *; lia).
  assert (Hblocks : md5_blocks (n + k) md5_iv (full ++ a) = md5_blocks k (md5_abcd pms) (a ++ part ++ c)).
  { assert (E : length full = (64 * n)%nat) by (unfold zlen in Hf; lia).
    rewrite md5_blocks_add, (md5_blocks_app n), <- Hr, (drop_app_length' full a), (md5_blocks_app k) by lia; done. }
  unfold md5_blocks_and_rest. fold k. rewrite (md5_full_spec k), (drop_app_length' a) by lia. sbind. fold left'.
  rewrite <- Hblocks. exists (md5_blocks (n + k) md5_iv (full ++ a)).
  assert (Hz : zlen (full ++ a) = 64 * Z.of_nat (n + k)) by (rewrite zlen_app; lia).
  rewrite app_assoc.
  destruct (Z.eqb_spec left' 0) as [E|E]; cbn [negb].
  - exists (md5_buf pms). split; [done|]. exists (n + k)%nat, (full ++ a), part, (md5_buf pms).
    rewrite (zlen_0 part) by lia. rewrite zlen_nil. done.
  - rewrite (slice_at_end_0 part c) by lia. sbind.
    destruct (split_at (md5_buf pms) left' ltac:(lia)) as (old & junk & Eb & Hold & _).
    cbn [md5_set_abcd md5_buf]. rewrite Eb, store_at_0 by lia. sbind.
    exists (part ++ junk). split; [done|]. exists (n + k)%nat, (full ++ a), part, junk.
    rewrite Eb, zlen_app in Hb. repeat split; try done; zl.
Qed.

Lemma md5_count0_add l n : u32 (u32 (8 * l) + u32 (8 * n)) = u32 (8 * (l + n)).
Proof. unfold u32. rewrite <- Zplus_mod. f_equal. lia. Qed.

(** The carry of the low word into the high one. *)
Lemma md5_count1_add l n :
  0 <= l -> 0 <= n ->
  (let c := u32 (u32 (8 * l / 2 ^ 32) + n / 2 ^ 29) in
   if u32 (8 * (l + n)) <? u32 (8 * n) then u32 (c + 1) else c) = u32 (8 * (l + n) / 2 ^ 32).
Proof.
  intros Hl Hn. cbv zeta. rewrite !u32_add_l. unfold u32.
  replace (n / 2 ^ 29) with (8 * n / 2 ^ 32) by lia. replace (8 * (l + n)) with (8 * l + 8 * n) by lia.
  generalize (8 * l) (8 * n). intros a b.
  change (2 ^ 32) with 4294967296.
  assert (E : (a + b) / 4294967296 = a / 4294967296 + b / 4294967296 + (if (a + b) mod 4294967296 <? b mod 4294967296 then 1 else 0))
    by (destruct (Z.ltb_spec ((a + b) mod 4294967296) (b mod 4294967296)); lia).
  rewrite E. destruct (_ <? _); [by rewrite <- Z.add_assoc, Zplus_mod_idemp_l, Z.add_assoc|by rewrite Z.add_0_r].
Qed.

Lemma md5_offset l : 0 <= l -> Z.land (Z.shiftr (u32 (8 * l)) 3) 63 = l mod 64.
Proof.
  intros H. change 63 with (Z.ones 6). rewrite Z.land_ones, Z.shiftr_div_pow2 by lia. unfold u32. lia.
Qed.

Lemma md5_append_from_ok pms m data nbytes :
  md5_data (md5_abcd pms) (md5_buf pms) m -> 0 <= nbytes <= zlen data -> zlen m mod 64 + nbytes < 2 ^ 32 ->
  exists r buf, md5_append_from pms (zlen m mod 64) data nbytes = Some (Md5 (md5_count0 pms) (md5_count1 pms) r buf) /\
    md5_data r buf (m ++ take (Z.to_nat nbytes) data).
Proof.
  intros (n & full & part & junk & -> & Hf & Hr & Hb & Hbuf & Hp) Hn.
  assert (Hm : zlen (full ++ part) mod 64 = zlen part) by zl. rewrite Hm. intros Hfit.
  unfold md5_append_from. destruct (Z.eqb_spec (zlen part) 0) as [E|E]; cbn [negb].
  { apply zlen_0 in E as ->. rewrite app_nil_r. apply (md5_blocks_and_rest_ok pms n); try done; zl. }
  rewrite Hb in Hbuf |- *. rewrite (u32_id (zlen part + nbytes)) by zl.
  set (copy := if 64 <? zlen part + nbytes then 64 - zlen part else nbytes).
  assert (Hc : 0 <= copy <= nbytes /\ (zlen part + copy = 64 \/ zlen part + copy < 64 /\ copy = nbytes))
    by (unfold copy; destruct (Z.ltb_spec 64 (zlen part + nbytes)); zl).
  destruct (split_at data copy ltac:(lia)) as (src & rest & -> & Hsrc & Hrest).
  rewrite slice_at_end_0 by lia. sbind.
  destruct (split_at junk copy ltac:(zl)) as (old & junk' & -> & Hold & _).
  rewrite (store_at part old junk' (zlen part) src) by lia. sbind. rewrite (u32_id (zlen part + copy)) by zl. cbn [md5_set_buf md5_buf].
  destruct (Z.ltb_spec (zlen part + copy) 64) as [Hlt|Hge].
  - exists (md5_abcd pms), (part ++ src ++ junk'). split; [done|]. exists n, full, (part ++ src), junk'.
    replace (Z.to_nat nbytes) with (length src) by (unfold zlen in *; lia). rewrite take_app_length, <- !app_assoc.
    repeat split; try done; zl.
  - rewrite padd_at by lia. sbind. rewrite md5_process_spec by zl. sbind. rewrite u32_id by lia.
    rewrite zlen_app in Hbuf. rewrite zlen_app in Hbuf.
    assert (Hj : junk' = []) by (apply zlen_0; zl). subst junk'. rewrite app_nil_r.
    rewrite (take_ge (part ++ src)) by (rewrite length_app; unfold zlen in *; lia).
    replace ((full ++ part) ++ take (Z.to_nat nbytes) (src ++ rest))
      with ((full ++ part ++ src) ++ take (Z.to_nat (nbytes - copy)) rest).
    + apply (md5_blocks_and_rest_ok (md5_set_abcd (md5_set_buf pms (part ++ src)) (rfc_block (md5_abcd pms) (part ++ src))) (n + 1)); cbn [md5_set_abcd md5_set_buf md5_abcd md5_buf]; try zl.
      rewrite md5_blocks_add, (md5_blocks_app n) by (unfold zlen in *; lia).
      rewrite (drop_app_length' full) by (unfold zlen in *; lia). cbn [md5_blocks].
      rewrite take_ge by (rewrite length_app; unfold zlen in *; lia). by rewrite Hr.
    + rewrite take_app_ge by (unfold zlen in *; lia). rewrite <- !app_assoc. do 4 f_equal. unfold zlen in *; lia.
Qed.

Lemma md5_append_ok pms m data nbytes :
  md5_ok pms m -> 0 <= nbytes <= zlen data -> zlen m mod 64 + nbytes < 2 ^ 32 ->
  exists pms', mcommon_md5_append pms data nbytes = Some pms' /\ md5_ok pms' (m ++ take (Z.to_nat nbytes) data).
Proof.
  intros [Hd H0 H1] Hn Hfit. unfold mcommon_md5_append. destruct (Z.leb_spec nbytes 0) as [Hz|Hz].
  { replace nbytes with 0 by lia. rewrite take_0, app_nil_r. by exists pms. }
  pose proof (zlen_nonneg m) as Hl.
  rewrite !Z.shiftl_mul_pow2, (Z.shiftr_div_pow2 _ 29), (Z.mul_comm nbytes) by lia. change (2 ^ 3) with 8.
  rewrite H0, H1, md5_offset, md5_count0_add, md5_count1_add by lia.
  edestruct (md5_append_from_ok (Md5 (u32 (8 * (zlen m + nbytes))) (u32 (8 * (zlen m + nbytes) / 2 ^ 32)) (md5_abcd pms) (md5_buf pms)))
    as (r & buf & -> & H); [done..|].
  eexists. split; [done|]. split; [done| |]; cbn; rewrite zlen_app, zlen_take by lia; done.
Qed.

Lemma le_bytes_4 z : le_bytes 4 z = map (fun k => z2b (Z.shiftr z k)) [0; 8; 16; 24].
Proof.
  change (le_bytes 4 z) with [z2b z; z2b (z / 256); z2b (z / 256 / 256); z2b (z / 256 / 256 / 256)]. cbn [map].
  rewrite !Z.div_div, !Z.shiftr_div_pow2 by lia. by rewrite Z.div_1_r.
Qed.

Lemma md5_word_bytes_2 a b : is_u32 a -> md5_word_bytes [a; b] = le_bytes 8 (a + b * 2 ^ 32).
Proof.
  intros Ha. change 8%nat with (4 + 4)%nat. rewrite le_bytes_app, <- (le_bytes_mod 4).
  change (256 ^ Z.of_nat 4) with (2 ^ 32). rewrite Z_mod_plus_full, Z.mod_small, Z.div_add, Z.div_small by (unfold is_u32 in Ha; lia).
  rewrite !le_bytes_4. reflexivity.
Qed.

Lemma md5_word_bytes_4 a b c d :
  md5_word_bytes [a; b; c; d] = le_bytes 4 a ++ le_bytes 4 b ++ le_bytes 4 c ++ le_bytes 4 d.
Proof. rewrite !le_bytes_4. reflexivity. Qed.

Lemma md5_data_whole r buf m :
  md5_data r buf m -> zlen m mod 64 = 0 -> r = md5_blocks (length m / 64) md5_iv m.
Proof.
  intros (n & full & part & junk & -> & Hf & -> & _ & _ & Hp) Hm.
  assert (E : part = []) by (apply zlen_0; zl). subst part. rewrite app_nil_r.
  replace (length full) with (n * 64)%nat by (unfold zlen in Hf; lia). by rewrite Nat.div_mul.
Qed.

Lemma md5_pad_take k : 0 <= k < 64 -> take (Z.to_nat (k + 1)) md5_pad = z2b 0x80 :: zeros k.
Proof.
  intros Hk. replace (Z.to_nat (k + 1)) with (S (Z.to_nat k)) by lia. unfold md5_pad, zeros. cbn [take].
  f_equal. rewrite take_replicate. f_equal. lia.
Qed.

Lemma md5_finish_ok pms m : md5_ok pms m -> mcommon_md5_finish pms = Some (md5_digest m).
Proof.
  intros H. pose proof H as [_ H0 H1]. pose proof (zlen_nonneg m) as Hl. unfold mcommon_md5_finish.
  rewrite H0, H1, md5_word_bytes_2 by apply u32_range.
  set (k := (55 - zlen m) mod 64). assert (Hk : 0 <= k < 64) by (unfold k; lia).
  replace (Z.land (u32 (55 - Z.shiftr (u32 (8 * zlen m)) 3)) 63) with k.
  2: { change 63 with (Z.ones 6). rewrite Z.land_ones, Z.shiftr_div_pow2 by lia. unfold u32, k. lia. }
  destruct (md5_append_ok pms m md5_pad (k + 1) H) as (pms1 & -> & Hp1); [change (zlen md5_pad) with 64; lia|lia|].
  sbind. rewrite md5_pad_take in Hp1 by lia.
  replace (u32 (8 * zlen m) + u32 (8 * zlen m / 2 ^ 32) * 2 ^ 32) with (8 * zlen m mod 256 ^ Z.of_nat 8) by (unfold u32; lia).
  rewrite le_bytes_mod.
  edestruct (md5_append_ok _ _ (le_bytes 8 (8 * zlen m)) 8 Hp1) as (pms2 & -> & Hp2); [rewrite zlen_le_bytes; lia|lia|].
  sbind. rewrite take_ge in Hp2 by (rewrite length_le_bytes; lia).
  destruct Hp2 as [Hd _ _]. apply md5_data_whole in Hd; [|rewrite !zlen_app, zlen_cons, zlen_zeros, zlen_le_bytes by lia; lia].
  unfold md5_digest, md5_padding, md5_regs_bytes. fold k. rewrite <- app_assoc in Hd. cbn [app] in Hd.
  rewrite <- Hd. destruct (md5_abcd pms2) as [[[a b] c] d]. by rewrite md5_word_bytes_4.
Qed.

(** A message given in pieces. *)
Fixpoint md5_appends (pms : bson_md5_t) (pieces : list bytes) : option bson_md5_t :=
  match pieces with
  | [] => Some pms
  | piece :: pieces => pms ← mcommon_md5_append pms piece (zlen piece); md5_appends pms pieces
  end.

(** A piece for which [offset + nbytes] does not wrap, whatever came before. *)
Definition md5_piece (piece : bytes) : Prop := zlen piece <= 2 ^ 32 - 64.

Lemma md5_appends_ok pieces : forall pms m,
  md5_ok pms m -> Forall md5_piece pieces ->
  exists pms', md5_appends pms pieces = Some pms' /\ md5_ok pms' (m ++ concat pieces).
Proof.
  induction pieces as [|piece pieces IH]; intros pms m H Hp; [exists pms; by rewrite app_nil_r|].
  apply Forall_cons in Hp as [Hpiece Hp]. unfold md5_piece in Hpiece. cbn [md5_appends concat].
  destruct (md5_append_ok pms m piece (zlen piece) H) as (pms1 & -> & H1); [zl|lia|]. sbind.
  rewrite to_nat_zlen, firstn_all in H1. rewrite app_assoc. by apply IH.
Qed.

(** A longer piece after a partial block: the sum wraps, and all of it is copied
    into the 64 bytes of [buf]. *)
Lemma md5_append_overflow pms m data nbytes :
  md5_ok pms m -> 2 ^ 32 <= zlen m mod 64 + nbytes -> nbytes < 2 ^ 32 ->
  mcommon_md5_append pms data nbytes = None.
Proof.
  intros [Hd H0 _] Hwrap Hn. pose proof (zlen_nonneg m) as Hl.
  destruct Hd as (_ & _ & _ & _ & _ & _ & _ & _ & Hbuf & _). unfold mcommon_md5_append, md5_append_from.
  destruct (Z.leb_spec nbytes 0); [lia|]. rewrite H0, md5_offset by lia.
  destruct (Z.eqb_spec (zlen m mod 64) 0); [lia|]. cbn [negb].
  destruct (Z.ltb_spec 64 (u32 (zlen m mod 64 + nbytes))) as [Hu|_]; [unfold u32 in Hu; lia|].
  cbn [md5_buf]. destruct (slice data 0 nbytes) as [src|] eqn:E; [|done]. apply slice_zlen in E. sbind.
  destruct (store _ _ src) eqn:Es; [|done]. apply mk_is_Some, store_is_Some in Es. lia.
Qed.
