(* ===== verification/Decimal128.v ===== *)
(** Decimal floating point numbers as text: [bson-decimal128.c]. *)

From Stdlib Require Import Strings.String.
From S2P Require Import Prelude CString Text.

Definition BSON_DECIMAL128_EXPONENT_MAX : Z := 6111.
Definition BSON_DECIMAL128_EXPONENT_MIN : Z := -6176.
Definition BSON_DECIMAL128_EXPONENT_BIAS : Z := 6176.
Definition BSON_DECIMAL128_MAX_DIGITS : Z := 34.
Definition BSON_DECIMAL128_STRING : Z := 43.

Record bson_decimal128_t := Decimal128 { dec_high : Z; dec_low : Z }.

Definition BSON_DECIMAL128_SET_NAN : bson_decimal128_t := Decimal128 0x7c00000000000000 0.
Definition BSON_DECIMAL128_SET_INF (isneg : bool) : bson_decimal128_t :=
  Decimal128 (u64 (0x7800000000000000 + 0x8000000000000000 * Z.b2z isneg)) 0.

(** ** To text *)

(** 32-bit words, high to low. *)
Definition _bson_uint128_t : Type := Z * Z * Z * Z.

Definition divide_step (rem part : Z) : Z * Z :=
  let rem := u64 (u64 (Z.shiftl rem 32) + part) in (u32 (rem / 1000000000), rem mod 1000000000).

Definition _bson_uint128_divide1B (value : _bson_uint128_t) : _bson_uint128_t * Z :=
  let '(p0, p1, p2, p3) := value in
  if (p0 =? 0) && (p1 =? 0) && (p2 =? 0) && (p3 =? 0) then (value, 0) else
  let '(q0, rem) := divide_step 0 p0 in
  let '(q1, rem) := divide_step rem p1 in
  let '(q2, rem) := divide_step rem p2 in
  let '(q3, rem) := divide_step rem p3 in ((q0, q1, q2, q3), u32 rem).

(** [for (int j = 8; j >= 0; j--)], from [j = n - 1] down. *)
Fixpoint nine_digits (n k : nat) (least_digits : Z) (significand : list Z) : list Z :=
  match n with
  | O => significand
  | S j => nine_digits j k (least_digits / 10) (<[(k * 9 + j)%nat := least_digits mod 10]> significand)
  end.

(** [for (int k = 3; k >= 0; k--)], from [k = n - 1] down. *)
Fixpoint significand_loop (n : nat) (significand128 : _bson_uint128_t) (significand : list Z) : list Z :=
  match n with
  | O => significand
  | S k =>
      let '(significand128, least_digits) := _bson_uint128_divide1B significand128 in
      significand_loop k significand128
        (if least_digits =? 0 then significand else nine_digits 9 k least_digits significand)
  end.

(** [str] and the offset [str_out - str]. *)
Definition dec_out : Type := bytes * Z.
Definition dec_put (out : dec_out) (c : byte) : option dec_out :=
  let '(str, o) := out in str ← store str o [c]; Some (str, o + 1).

(** [strcpy] and the like: the text and its terminator at the offset. *)
Definition dec_puts (out : dec_out) (s : bytes) : option bytes := store (fst out) (snd out) (s ++ [x00]).

Definition digit_char (d : Z) : byte := z2b (d + 48).

(** At most [n] of the digits at [significand_read], while [more] holds. *)
Fixpoint put_digits (fuel : nat) (more : Z -> bool) (n : Z) (significand_read : list Z) (out : dec_out) :
    option (list Z * dec_out) :=
  if (0 <? n) && more (snd out) then
    match fuel, significand_read with
    | S fuel', d :: significand_read' =>
        out ← dec_put out (digit_char d); put_digits fuel' more (n - 1) significand_read' out
    | _, _ => None
    end
  else Some (significand_read, out).

(** [while (radix_position++ < 0 && str_out != str_end)]. *)
Fixpoint put_zeros (fuel : nat) (radix_position end_ : Z) (out : dec_out) : option (Z * dec_out) :=
  if (radix_position <? 0) && negb (snd out =? end_) then
    match fuel with
    | O => None
    | S fuel' => out ← dec_put out (digit_char 0); put_zeros fuel' (radix_position + 1) end_ out
    end
  else Some (radix_position + 1, out).

(** [while (!( *significand_read))]. *)
Fixpoint skip_zeros (significand_read : list Z) (num_significant_digits : Z) : option (list Z * Z) :=
  match significand_read with
  | [] => None
  | d :: significand_read' =>
      if d =? 0 then skip_zeros significand_read' (num_significant_digits - 1)
      else Some (significand_read, num_significant_digits)
  end.

(** [%+d]. *)
Definition signed_dec (z : Z) : bytes := (if z <? 0 then txt "-" else txt "+") ++ dec (Z.abs z).

Definition dec_fuel : nat := 43.

(** "Scientific format". *)
Definition dec_scientific (n : Z) (read : list Z) (scientific_exponent : Z) (out : dec_out) : option bytes :=
  match read with
  | [] => None
  | d :: read =>
      out ← dec_put out (digit_char d);
      let n := n - 1 in
      out ← (if negb (n =? 0) then dec_put out (z2b 46) else Some out);
      '(_, out) ← put_digits dec_fuel (fun o => o <? 36) n read out;
      out ← dec_put out (z2b 69);
      dec_puts out (vsnprintf 6 (signed_dec scientific_exponent))
  end.

(** "Regular format with no decimal place", with a radix point. *)
Definition dec_radix (n : Z) (read : list Z) (exponent : Z) (out : dec_out) : option bytes :=
  let radix_position := n + exponent in
  let str_end := BSON_DECIMAL128_STRING - 1 in
  '(read, out) ←
    (if 0 <? radix_position then put_digits dec_fuel (fun o => negb (o =? str_end)) radix_position read out
     else out ← dec_put out (digit_char 0); Some (read, out));
  out ← dec_put out (z2b 46);
  '(radix_position, out) ← put_zeros dec_fuel radix_position str_end out;
  let dot_pos := Z.max (radix_position - 1) 0 in
  let n_trailing_digits := u32 (n - dot_pos) in
  let n_to_write := Z.min n_trailing_digits (u32 (str_end - snd out)) in
  '(_, out) ← put_digits dec_fuel (fun _ => true) n_to_write read out;
  dec_puts out [].

(** The output of a finite number, from "Output format options" on. *)
Definition dec_format (n : Z) (read : list Z) (exponent : Z) (out : dec_out) : option bytes :=
  let scientific_exponent := n - 1 + exponent in
  if (scientific_exponent <? -6) || (0 <? exponent) then dec_scientific n read scientific_exponent out
  else if 0 <=? exponent then
    '(_, out) ← put_digits dec_fuel (fun o => o <? 36) n read out; dec_puts out []
  else dec_radix n read exponent out.

(** A finite number, from "unbiased exponent" on. *)
Definition dec_finite (high midh midl low : Z) (out : dec_out) (biased_exponent significand_msb : Z) : option bytes :=
  let exponent := biased_exponent - BSON_DECIMAL128_EXPONENT_BIAS in
  let p0 := u32 (Z.land high 0x3fff + Z.shiftl (Z.land significand_msb 0xf) 14) in
  let is_zero := (p0 =? 0) && (midh =? 0) && (midl =? 0) && (low =? 0) || (Z.shiftl 1 17 <=? p0) in
  let significand := if is_zero then replicate 36 0 else significand_loop 4 (p0, midh, midl, low) (replicate 36 0) in
  '(read, n) ← (if is_zero then Some (<[0%nat := 0]> significand, 1) else skip_zeros significand 36);
  dec_format n read exponent out.

Definition bson_decimal128_to_string (dec : bson_decimal128_t) (str : bytes) : option bytes :=
  out ← (if s64 (dec_high dec) <? 0 then dec_put (str, 0) (z2b 45) else Some (str, 0));
  let low := u32 (dec_low dec) in
  let midl := u32 (Z.shiftr (dec_low dec) 32) in
  let midh := u32 (dec_high dec) in
  let high := u32 (Z.shiftr (dec_high dec) 32) in
  let combination := Z.land (Z.shiftr high 26) 0x1f in
  if Z.shiftr combination 3 =? 3 then
    if combination =? 30 then dec_puts out (txt "Infinity")
    else if combination =? 31 then dec_puts (fst out, 0) (txt "NaN")
    else dec_finite high midh midl low out (Z.land (Z.shiftr high 15) 0x3fff) (u8 (0x8 + Z.land (Z.shiftr high 14) 0x1))
  else dec_finite high midh midl low out (Z.land (Z.shiftr high 17) 0x3fff) (u8 (Z.land (Z.shiftr high 14) 0x7)).

Example to_string_1 :
  (str ← bson_decimal128_to_string (Decimal128 0xb040000000000000 12345) (zeros 43); cstr str) = Some (txt "-12345").
Proof. vm_compute. reflexivity. Qed.
Example to_string_2 :
  (str ← bson_decimal128_to_string (Decimal128 0x3034000000000000 12345) (zeros 43); cstr str) = Some (txt "0.012345").
Proof. vm_compute. reflexivity. Qed.
Example to_string_3 :
  (str ← bson_decimal128_to_string (Decimal128 0x5fffed09bead87c0 0x378d8e63ffffffff) (zeros 43); cstr str) =
  Some (txt "9.999999999999999999999999999999999E+6144").
Proof. vm_compute. reflexivity. Qed.

(** ** From text *)

(** [product] as [high] and [low]. *)
Definition _mul_64x64 (left right : Z) : Z * Z :=
  if (left =? 0) && (right =? 0) then (0, 0) else
  let left_high := Z.shiftr left 32 in
  let left_low := u32 left in
  let right_high := Z.shiftr right 32 in
  let right_low := u32 right in
  let product_high := u64 (left_high * right_high) in
  let product_mid := u64 (left_high * right_low) in
  let product_mid2 := u64 (left_low * right_high) in
  let product_low := u64 (left_low * right_low) in
  let product_high := u64 (product_high + Z.shiftr product_mid 32) in
  let product_mid := u64 (u64 (u32 product_mid + product_mid2) + Z.shiftr product_low 32) in
  (u64 (product_high + Z.shiftr product_mid 32), u64 (u64 (Z.shiftl product_mid 32) + u32 product_low)).

Definition isdigit (c : byte) : bool := (48 <=? b2z c) && (b2z c <=? 57).
Definition isupper (c : byte) : bool := (65 <=? b2z c) && (b2z c <=? 90).

Definition _dec128_tolower (c : byte) : byte := if isupper c then z2b (b2z c + 32) else c.

Fixpoint _dec128_istreq (a b : bytes) : option bool :=
  match a, b with
  | x :: a', y :: b' =>
      if byte_eqb x x00 && byte_eqb y x00 then Some true
      else if byte_eqb x x00 || byte_eqb y x00 then Some false
      else if negb (byte_eqb (_dec128_tolower x) (_dec128_tolower y)) then Some false
      else _dec128_istreq a' b'
  | _, _ => None
  end.

(** [sscanf (s, "%lld%n", ...)]: white space, a sign, digits. When there is a number,
    its value, limited to 64 bits, and how much was read. *)
Fixpoint scan_digits (s : bytes) : option bytes :=
  match s with
  | [] => None
  | c :: s' => if isdigit c then ds ← scan_digits s'; Some (c :: ds) else Some []
  end.
Fixpoint sscanf_spaces (s : bytes) : option (Z * bytes) :=
  match s with
  | [] => None
  | c :: s' => if isspace c then '(n, s'') ← sscanf_spaces s'; Some (n + 1, s'') else Some (0, s)
  end.
Definition sscanf_d64 (s : bytes) : option (option (Z * Z)) :=
  '(spaces, s) ← sscanf_spaces s;
  c ← rd s 0;
  let sign := byte_eqb c (z2b 43) || byte_eqb c (z2b 45) in
  s ← padd s (Z.b2z sign);
  ds ← scan_digits s;
  let v := if byte_eqb c (z2b 45) then - undec ds else undec ds in
  Some (match ds with
        | [] => None
        | _ => Some (Z.max (- 2 ^ 63) (Z.min v INT64_MAX), spaces + Z.b2z sign + zlen ds)
        end).

(** The variables of the loop that reads digits; [digits] holds the ones stored. *)
Record dec_scan := Scan {
  s_read : Z; s_radix : bool; s_nonzero : bool; s_ndigits_read : Z; s_ndigits : Z;
  s_radix_position : Z; s_first_nonzero : Z; s_digits : list Z
}.

Definition scan_digit (s : dec_scan) (c : byte) : dec_scan :=
  let store := (zlen (s_digits s) <? BSON_DECIMAL128_MAX_DIGITS) && (negb (byte_eqb c (z2b 48)) || s_nonzero s) in
  let first := if store && negb (s_nonzero s) then s_ndigits_read s else s_first_nonzero s in
  let nonzero := store || s_nonzero s in
  Scan (s_read s + 1) (s_radix s) nonzero (s_ndigits_read s + 1)
    (if nonzero then s_ndigits s + 1 else s_ndigits s)
    (if s_radix s then s_radix_position s + 1 else s_radix_position s) first
    (if store then s_digits s ++ [b2z c - 48] else s_digits s).

(** [None] inside for a second radix point. *)
Fixpoint scan_loop (fuel : nat) (string : bytes) (len : Z) (s : dec_scan) : option (option dec_scan) :=
  c ← rd string (s_read s);
  if (isdigit c || byte_eqb c (z2b 46)) && ((len =? -1) || (s_read s <? len)) then
    match fuel with
    | O => None
    | S fuel' =>
        if byte_eqb c (z2b 46) then
          if s_radix s then Some None
          else scan_loop fuel' string len
                 (Scan (s_read s + 1) true (s_nonzero s) (s_ndigits_read s) (s_ndigits s) (s_radix_position s)
                    (s_first_nonzero s) (s_digits s))
        else scan_loop fuel' string len (scan_digit s c)
    end
  else Some (Some s).

(** The digits the value is made of, once read. *)
Definition digit_at (digits : list Z) (i : Z) : option Z :=
  if (0 <=? i) && (i <? BSON_DECIMAL128_MAX_DIGITS) then Some (nth (Z.to_nat i) digits 0) else None.

(** "Mark trailing zeros as non-significant". *)
Fixpoint trim_zeros (fuel : nat) (string : bytes) (base significant_digits : Z) : option Z :=
  c ← rd string (base + significant_digits - 1);
  if byte_eqb c (z2b 48) then
    match fuel with O => None | S fuel' => trim_zeros fuel' string base (significant_digits - 1) end
  else Some significant_digits.

(** [while (exponent > BSON_DECIMAL128_EXPONENT_MAX)]: the exponent and [last_digit]. *)
Fixpoint lower_exponent (fuel : nat) (significant_digits exponent last_digit : Z) : option (option (Z * Z)) :=
  if BSON_DECIMAL128_EXPONENT_MAX <? exponent then
    match fuel with
    | O => None
    | S fuel' =>
        let last_digit := last_digit + 1 in
        if BSON_DECIMAL128_MAX_DIGITS <=? last_digit then
          if significant_digits =? 0 then Some (Some (BSON_DECIMAL128_EXPONENT_MAX, last_digit)) else Some None
        else lower_exponent fuel' significant_digits (exponent - 1) last_digit
    end
  else Some (Some (exponent, last_digit)).

(** [while (exponent < BSON_DECIMAL128_EXPONENT_MIN || ndigits_stored < ndigits)]. *)
Fixpoint raise_exponent (fuel : nat) (string : bytes) (skip : Z) (digits : list Z)
    (significant_digits exponent last_digit ndigits : Z) : option (option (Z * Z)) :=
  if (exponent <? BSON_DECIMAL128_EXPONENT_MIN) || (zlen digits <? ndigits) then
    match fuel with
    | O => None
    | S fuel' =>
        if last_digit =? 0 then
          if significant_digits =? 0 then Some (Some (BSON_DECIMAL128_EXPONENT_MIN, last_digit)) else Some None
        else
          let again last_digit ndigits :=
            if exponent <? BSON_DECIMAL128_EXPONENT_MAX then
              raise_exponent fuel' string skip digits significant_digits (exponent + 1) last_digit ndigits
            else Some None in
          if zlen digits <? ndigits then
            c ← rd string (ndigits - 1 + skip);
            if negb (b2z c - 48 =? 0) && negb (significant_digits =? 0) then Some None
            else again last_digit (ndigits - 1)
          else
            d ← digit_at digits last_digit;
            if negb (d =? 0) then Some None else again (last_digit - 1) ndigits
    end
  else Some (Some (exponent, last_digit)).

(** [for (; d_idx <= ...; d_idx++)]: [n] digits from [d_idx] on. *)
Fixpoint dec_digits_value (n : nat) (digits : list Z) (d_idx acc : Z) : option Z :=
  match n with
  | O => Some acc
  | S n' => d ← digit_at digits d_idx; dec_digits_value n' digits (d_idx + 1) (u64 (u64 (acc * 10) + d))
  end.

(** "Encode significand": the two halves. *)
Definition dec_significand (digits : list Z) (significant_digits last_digit : Z) : option (Z * Z) :=
  if significant_digits =? 0 then Some (0, 0)
  else
    first ← digit_at digits 0;
    if last_digit <? 17 then
      low ← dec_digits_value (Z.to_nat last_digit) digits 1 first; Some (0, low)
    else
      high ← dec_digits_value (Z.to_nat (last_digit - 17)) digits 1 first;
      next ← digit_at digits (last_digit - 17 + 1);
      low ← dec_digits_value (Z.to_nat 16) digits (last_digit - 17 + 2) next;
      Some (high, low).

(** From "Encode significand" on. *)
Definition dec_encode (is_negative : bool) (significand_high significand_low exponent : Z) : bson_decimal128_t :=
  let '(high, low) := _mul_64x64 significand_high 100000000000000000 in
  let low := u64 (low + significand_low) in
  let high := if low <? significand_low then u64 (high + 1) else high in
  let biased_exponent := (exponent + BSON_DECIMAL128_EXPONENT_BIAS) mod 2 ^ 16 in
  let dec_high :=
    if Z.testbit high 49 then
      Z.lor (Z.lor (u64 (Z.shiftl 0x3 61)) (u64 (Z.shiftl (Z.land biased_exponent 0x3fff) 47)))
        (Z.land high 0x7fffffffffff)
    else Z.lor (u64 (Z.shiftl (Z.land biased_exponent 0x3fff) 49)) (Z.land high 0x1ffffffffffff) in
  Decimal128 (if is_negative then Z.lor dec_high 0x8000000000000000 else dec_high) low.

(** From the second normalisation loop on. *)
Definition dec_finish (string : bytes) (first_nonzero skip : Z) (digits : list Z)
    (significant_digits ndigits exponent last_digit : Z) (is_negative : bool) : option (option bson_decimal128_t) :=
  raised ← raise_exponent (Z.to_nat (ndigits + 35)) string skip digits significant_digits exponent last_digit ndigits;
  match raised with
  | None => Some None
  | Some (exponent, last_digit) =>
      round_ok ←
        (if last_digit + 1 <? significant_digits then
           c ← rd string (first_nonzero + last_digit + skip + 1); Some (b2z c - 48 =? 0)
         else Some true);
      if negb round_ok then Some None
      else
        '(high, low) ← dec_significand digits significant_digits last_digit;
        Some (Some (dec_encode is_negative high low exponent))
  end.

(** "Done reading input": the number, or [None] when the value is not
    representable. [skip] is [includes_sign + saw_radix]. *)
Definition dec_from_scan (string : bytes) (s : dec_scan) (skip exponent : Z) (is_negative : bool) :
    option (option bson_decimal128_t) :=
  let zero := match s_digits s with [] => true | _ => false end in
  let digits := if zero then [0] else s_digits s in
  let ndigits := if zero then 1 else s_ndigits s in
  let last_digit := zlen digits - 1 in
  significant_digits ←
    (if zero then Some 0 else trim_zeros (Z.to_nat ndigits) string (s_first_nonzero s + skip) ndigits);
  exponent ←
    (if exponent <=? s_radix_position s then
       limit ← int_ok (exponent + Z.shiftl 1 14);
       if limit <? s_radix_position s then Some BSON_DECIMAL128_EXPONENT_MIN
       else if s_radix_position s <=? INT32_MAX then int_ok (exponent - s_radix_position s) else None
     else if s_radix_position s <=? INT32_MAX then int_ok (exponent - s_radix_position s) else None);
  lowered ← lower_exponent 35 significant_digits exponent last_digit;
  match lowered with
  | None => Some None
  | Some (exponent, last_digit) =>
      dec_finish string (s_first_nonzero s) skip digits significant_digits ndigits exponent last_digit is_negative
  end.

(** [true] or [false], and [dec]. *)
Definition dec_failed : bool * bson_decimal128_t := (false, BSON_DECIMAL128_SET_NAN).

(** The exponent and where it ends, when the text at [str_read] has one. *)
Definition dec_exponent (string : bytes) (str_read : Z) : option (option (Z * Z)) :=
  c ← rd string str_read;
  if byte_eqb c (z2b 101) || byte_eqb c (z2b 69) then
    s ← padd string (str_read + 1);
    n ← sscanf_d64 s;
    match n with
    | Some (v, nread) => Some (if (- 2 ^ 31 <=? v) && (v <=? INT32_MAX) then Some (v, str_read + 1 + nread) else None)
    | None => Some None
    end
  else Some (Some (0, str_read)).

Definition bson_decimal128_from_string_w_len (string : bytes) (len : Z) : option (bool * bson_decimal128_t) :=
  c ← rd string 0;
  let includes_sign := byte_eqb c (z2b 43) || byte_eqb c (z2b 45) in
  let is_negative := byte_eqb c (z2b 45) in
  let str_read := Z.b2z includes_sign in
  c ← rd string str_read;
  if negb (isdigit c) && negb (byte_eqb c (z2b 46)) then
    s ← padd string str_read;
    inf ← _dec128_istreq s (lit "inf");
    infinity ← (if (inf : bool) then Some true else _dec128_istreq s (lit "infinity"));
    if (infinity : bool) then Some (true, BSON_DECIMAL128_SET_INF is_negative)
    else nan ← _dec128_istreq s (lit "nan"); Some (nan, BSON_DECIMAL128_SET_NAN)
  else
    scanned ← scan_loop (length string) string len (Scan str_read false false 0 0 0 0 []);
    match scanned with
    | None => Some dec_failed
    | Some s =>
        if s_radix s && (s_ndigits_read s =? 0) then Some dec_failed
        else
          read ← dec_exponent string (s_read s);
          match read with
          | None => Some dec_failed
          | Some (exponent, str_read) =>
              c ← (if (len =? -1) || (str_read <? len) then rd string str_read else Some x00);
              if negb (byte_eqb c x00) then Some dec_failed
              else
                dec ← dec_from_scan string s (Z.b2z includes_sign + Z.b2z (s_radix s)) exponent is_negative;
                Some (match dec with Some dec => (true, dec) | None => dec_failed end)
          end
    end.

Definition bson_decimal128_from_string (string : bytes) : option (bool * bson_decimal128_t) :=
  bson_decimal128_from_string_w_len string (-1).

Example from_string_1 : bson_decimal128_from_string (lit "-12345") = Some (true, Decimal128 0xb040000000000000 12345).
Proof. vm_compute. reflexivity. Qed.
Example from_string_2 :
  bson_decimal128_from_string (lit "9.999999999999999999999999999999999E+6144") =
  Some (true, Decimal128 0x5fffed09bead87c0 0x378d8e63ffffffff).
Proof. vm_compute. reflexivity. Qed.
(** 35 digits, not exact; with two zeros in front, the check looks at other digits. *)
Example from_string_3 : bson_decimal128_from_string (lit "100000000000000000000000000000000001") = Some dec_failed.
Proof. vm_compute. reflexivity. Qed.
Example from_string_4 :
  bson_decimal128_from_string (lit "00100000000000000000000000000000000001") =
  bson_decimal128_from_string (lit "00100000000000000000000000000000000000").
Proof. vm_compute. reflexivity. Qed.
