(* ===== verification/Decimal128Spec.v ===== *)
(** Decimal floating point numbers, their encoding and their text, and
    [bson-decimal128.c] against them. *)

From Stdlib Require Import Strings.String.
From S2P Require Import Prelude CString Text Decimal128.

(** ** Specification *)

(** The value of 128 bits. A coefficient of more than 34 digits stands for zero. *)
Inductive decimal :=
  | DNaN
  | DInf (negative : bool)
  | DFinite (negative : bool) (coefficient exponent : Z).

(** The bits of the sign, the combination field, and the coefficient in the form
    that has all its bits. *)
Definition dec_negative (d : bson_decimal128_t) : bool := 2 ^ 63 <=? dec_high d.
Definition dec_combination (d : bson_decimal128_t) : Z := dec_high d / 2 ^ 58 mod 32.
Definition dec_coefficient (d : bson_decimal128_t) : Z := dec_high d mod 2 ^ 49 * 2 ^ 64 + dec_low d.

Definition dec_value (d : bson_decimal128_t) : decimal :=
  let g := dec_combination d in
  if g =? 31 then DNaN
  else if g =? 30 then DInf (dec_negative d)
  else if g / 8 =? 3 then DFinite (dec_negative d) 0 (dec_high d / 2 ^ 47 mod 2 ^ 14 - 6176)
  else
    let c := dec_coefficient d in
    DFinite (dec_negative d) (if c <? 10 ^ 34 then c else 0) (dec_high d / 2 ^ 49 mod 2 ^ 14 - 6176).

(** The one encoding of a value that is written. *)
Definition dec_bits (v : decimal) : bson_decimal128_t :=
  match v with
  | DNaN => Decimal128 (31 * 2 ^ 58) 0
  | DInf negative => Decimal128 (Z.b2z negative * 2 ^ 63 + 30 * 2 ^ 58) 0
  | DFinite negative c e =>
      Decimal128 (Z.b2z negative * 2 ^ 63 + (e + 6176) * 2 ^ 49 + c / 2 ^ 64) (c mod 2 ^ 64)
  end.

(** Not one of the coefficients from 10^34 on, for which the text has 35 digits. *)
Definition dec_canonical (d : bson_decimal128_t) : Prop :=
  24 <= dec_combination d \/ dec_coefficient d < 10 ^ 34.

Definition dec_ok (d : bson_decimal128_t) : Prop := is_u64 (dec_high d) /\ is_u64 (dec_low d).

(** The text of digits and an exponent. *)
Definition finite_text (digits : bytes) (e : Z) : bytes :=
  let n := zlen digits in
  if (n - 1 + e <? -6) || (0 <? e) then
    take 1 digits ++ (if n =? 1 then [] else txt "." ++ drop 1 digits) ++ txt "E" ++ signed_dec (n - 1 + e)
  else if e =? 0 then digits
  else if 0 <? n + e then take (Z.to_nat (n + e)) digits ++ txt "." ++ drop (Z.to_nat (n + e)) digits
  else txt "0." ++ replicate (Z.to_nat (- (n + e))) (z2b 48) ++ digits.

Definition sign_text (negative : bool) : bytes := if negative then txt "-" else [].

Definition dec_text (v : decimal) : bytes :=
  match v with
  | DNaN => txt "NaN"
  | DInf negative => sign_text negative ++ txt "Infinity"
  | DFinite negative c e => sign_text negative ++ finite_text (dec_loop 34 c) e
  end.

(** ** Digits *)

(** The last [n] digits of a number. *)
Fixpoint ddigits (n : nat) (v : Z) : list Z :=
  match n with
  | O => []
  | S n' => ddigits n' (v / 10) ++ [v mod 10]
  end.

Lemma length_ddigits n v : length (ddigits n v) = n.
Proof. revert v. induction n as [|n IH]; intros v; [done|]. cbn [ddigits]. rewrite length_app, IH. cbn. lia. Qed.

Lemma ddigits_add m : forall n v, ddigits (n + m) v = ddigits n (v / 10 ^ Z.of_nat m) ++ ddigits m v.
Proof.
  induction m as [|m IH]; intros n v.
  - rewrite Nat.add_0_r. change (10 ^ Z.of_nat 0) with 1. rewrite Z.div_1_r. cbn [ddigits]. by rewrite app_nil_r.
  - rewrite Nat.add_succ_r. cbn [ddigits]. rewrite IH, <- app_assoc, Z.div_div by lia.
    by rewrite Nat2Z.inj_succ, Z.pow_succ_r by lia.
Qed.

Lemma ddigits_0 n : ddigits n 0 = replicate n 0.
Proof.
  induction n as [|n IH]; [done|]. cbn [ddigits]. change (0 / 10) with 0. change (0 mod 10) with 0.
  by rewrite IH, <- replicate_cons_app.
Qed.

Lemma ddigits_range n v d : d ∈ ddigits n v -> 0 <= d < 10.
Proof.
  revert v. induction n as [|n IH]; intros v; [by intros ?%elem_of_nil|]. cbn [ddigits].
  rewrite elem_of_app, list_elem_of_singleton. intros [H| ->]; [by eapply IH|]. by apply Z.mod_pos_bound.
Qed.

(** Modulo a power of ten. *)
Lemma ddigits_mod n v : ddigits n (v mod 10 ^ Z.of_nat n) = ddigits n v.
Proof.
  revert v. induction n as [|n IH]; intros v; [done|]. cbn [ddigits].
  rewrite Nat2Z.inj_succ, Z.pow_succ_r, Z.rem_mul_r by lia. rewrite <- (IH (v / 10)).
  pose proof (Z.mod_pos_bound v 10). generalize dependent (v mod 10). intros a Ha.
  generalize ((v / 10) mod 10 ^ Z.of_nat n). intros q.
  replace ((a + 10 * q) / 10) with q by (Z.to_euclidean_division_equations; lia).
  replace ((a + 10 * q) mod 10) with a by (Z.to_euclidean_division_equations; lia). done.
Qed.

Lemma dec_loop_ddigits n v :
  0 <= v < 10 ^ Z.of_nat n -> (0 < n)%nat ->
  map digit_char (ddigits n v) = replicate (n - length (dec_loop n v)) (z2b 48) ++ dec_loop n v.
Proof.
  revert v. induction n as [|n IH]; intros v Hv Hn; [lia|]. cbn [ddigits dec_loop].
  rewrite map_app. cbn [map]. unfold digit_char at 2. rewrite (Z.add_comm (v mod 10)).
  destruct (Z.ltb_spec v 10) as [Hs|Hs].
  - rewrite Z.div_small by lia. rewrite ddigits_0, fmap_replicate. cbn [app length].
    replace (S n - 1)%nat with n by lia. done.
  - rewrite Nat2Z.inj_succ, Z.pow_succ_r in Hv by lia. destruct n as [|n]; [simpl in Hv; lia|].
    rewrite IH by (try (Z.to_euclidean_division_equations; lia); lia).
    rewrite length_app. cbn [length]. rewrite <- app_assoc. do 2 f_equal. lia.
Qed.

(** ** Division of the coefficient *)

Definition uint128_value (v : _bson_uint128_t) : Z :=
  let '(p0, p1, p2, p3) := v in ((p0 * 2 ^ 32 + p1) * 2 ^ 32 + p2) * 2 ^ 32 + p3.
Definition uint128_ok (v : _bson_uint128_t) : Prop :=
  let '(p0, p1, p2, p3) := v in is_u32 p0 /\ is_u32 p1 /\ is_u32 p2 /\ is_u32 p3.

Lemma divide_step_spec rem part :
  0 <= rem < 10 ^ 9 -> is_u32 part ->
  let n := rem * 2 ^ 32 + part in
  divide_step rem part = (n / 10 ^ 9, n mod 10 ^ 9) /\ is_u32 (n / 10 ^ 9) /\ 0 <= n mod 10 ^ 9 < 10 ^ 9.
Proof.
  unfold is_u32. intros Hr Hp. cbv zeta. set (n := rem * 2 ^ 32 + part). assert (Hn : 0 <= n < 10 ^ 9 * 2 ^ 32) by (unfold n; lia).
  assert (Hq : 0 <= n / 10 ^ 9 < 2 ^ 32)
    by (split; [apply Z.div_pos; lia|apply Z.div_lt_upper_bound; lia]).
  split; [|by split; [|apply Z.mod_pos_bound]].
  unfold divide_step. rewrite Z.shiftl_mul_pow2, (u64_id (rem * 2 ^ 32)), u64_id by lia. fold n.
  change 1000000000 with (10 ^ 9). by rewrite u32_id by lia.
Qed.

Lemma divide1B_spec v :
  uint128_ok v ->
  exists q, _bson_uint128_divide1B v = (q, uint128_value v mod 10 ^ 9) /\ uint128_ok q /\
    uint128_value q = uint128_value v / 10 ^ 9.
Proof.
  destruct v as [[[p0 p1] p2] p3]. intros (H0 & H1 & H2 & H3). unfold _bson_uint128_divide1B.
  destruct ((p0 =? 0) && (p1 =? 0) && (p2 =? 0) && (p3 =? 0)) eqn:E.
  { rewrite !andb_true_iff, !Z.eqb_eq in E. destruct E as (((-> & ->) & ->) & ->).
    by exists (0, 0, 0, 0). }
  destruct (divide_step_spec 0 p0 ltac:(lia) H0) as (-> & Hq0 & Hr0). cbv zeta in *.
  set (n0 := 0 * 2 ^ 32 + p0) in *.
  destruct (divide_step_spec (n0 mod 10 ^ 9) p1 Hr0 H1) as (-> & Hq1 & Hr1). cbv zeta in *.
  set (n1 := n0 mod 10 ^ 9 * 2 ^ 32 + p1) in *.
  destruct (divide_step_spec (n1 mod 10 ^ 9) p2 Hr1 H2) as (-> & Hq2 & Hr2). cbv zeta in *.
  set (n2 := n1 mod 10 ^ 9 * 2 ^ 32 + p2) in *.
  destruct (divide_step_spec (n2 mod 10 ^ 9) p3 Hr2 H3) as (-> & Hq3 & Hr3). cbv zeta in *.
  set (n3 := n2 mod 10 ^ 9 * 2 ^ 32 + p3) in *.
  rewrite u32_id by lia.
  set (q := uint128_value (n0 / 10 ^ 9, n1 / 10 ^ 9, n2 / 10 ^ 9, n3 / 10 ^ 9)).
  assert (Hv : uint128_value (p0, p1, p2, p3) = 10 ^ 9 * q + n3 mod 10 ^ 9).
  { unfold q, uint128_value. pose proof (Z.div_mod n0 (10 ^ 9)). pose proof (Z.div_mod n1 (10 ^ 9)).
    pose proof (Z.div_mod n2 (10 ^ 9)). pose proof (Z.div_mod n3 (10 ^ 9)). lia. }
  exists (n0 / 10 ^ 9, n1 / 10 ^ 9, n2 / 10 ^ 9, n3 / 10 ^ 9). rewrite Hv. split; [|split].
  - f_equal. rewrite Z.add_comm, Z.mul_comm, Z_mod_plus_full. by rewrite Z.mod_mod.
  - done.
  - fold q. symmetry. rewrite Z.mul_comm, Z.div_add_l, (Z.div_small (n3 mod 10 ^ 9)) by lia. lia.
Qed.

Lemma nine_digits_spec n : forall k l rest,
  nine_digits n k l (replicate (k * 9 + n) 0 ++ rest) = replicate (k * 9) 0 ++ ddigits n l ++ rest.
Proof.
  induction n as [|n IH]; intros k l rest; [by rewrite Nat.add_0_r|]. cbn [nine_digits ddigits].
  rewrite Nat.add_succ_r, replicate_S_end, <- app_assoc. cbn [app].
  rewrite (insert_app_r_alt _ _ (k * 9 + n)) by (rewrite length_replicate; lia).
  rewrite length_replicate, Nat.sub_diag. cbn [insert list_insert]. rewrite IH, <- app_assoc. done.
Qed.

Lemma significand_loop_spec n : forall v rest,
  uint128_ok v ->
  significand_loop n v (replicate (n * 9) 0 ++ rest) = ddigits (n * 9) (uint128_value v) ++ rest.
Proof.
  induction n as [|n IH]; intros v rest Hv; [done|]. cbn [significand_loop].
  destruct (divide1B_spec v Hv) as (q & -> & Hq & Eq). set (x := uint128_value v) in *.
  assert (E : (if x mod 10 ^ 9 =? 0 then replicate (S n * 9) 0 ++ rest
               else nine_digits 9 n (x mod 10 ^ 9) (replicate (S n * 9) 0 ++ rest)) =
              replicate (n * 9) 0 ++ ddigits 9 (x mod 10 ^ 9) ++ rest).
  { replace (S n * 9)%nat with (n * 9 + 9)%nat by lia. destruct (Z.eqb_spec (x mod 10 ^ 9) 0) as [-> |_].
    - by rewrite ddigits_0, replicate_add, <- app_assoc.
    - apply nine_digits_spec. }
  rewrite E, IH, Eq by done. replace (S n * 9)%nat with (n * 9 + 9)%nat by lia.
  rewrite ddigits_add, <- app_assoc. change (10 ^ Z.of_nat 9) with (10 ^ 9).
  change (10 ^ 9) with (10 ^ Z.of_nat 9). by rewrite ddigits_mod.
Qed.

(** ** Texts of digits *)

Definition char_digit (c : byte) : Z := b2z c - 48.
Definition digits_only (s : bytes) : Prop := Forall (fun c => isdigit c = true) s.

Lemma digit_char_inv d : 0 <= d < 10 -> char_digit (digit_char d) = d /\ isdigit (digit_char d) = true.
Proof.
  intros Hd. unfold char_digit, digit_char, isdigit. rewrite b2z_z2b_small by lia. split; [lia|].
  destruct (Z.leb_spec 48 (d + 48)), (Z.leb_spec (d + 48) 57); done || lia.
Qed.

Lemma isdigit_range c : isdigit c = true <-> 48 <= b2z c <= 57.
Proof. unfold isdigit. rewrite andb_true_iff, !Z.leb_le. lia. Qed.

Lemma char_digit_inv c : isdigit c = true -> digit_char (char_digit c) = c /\ 0 <= char_digit c < 10.
Proof.
  rewrite isdigit_range. intros H. unfold char_digit, digit_char. split; [|lia].
  rewrite Z.sub_add. apply z2b_b2z.
Qed.

Lemma map_char_digit ds : (forall d, d ∈ ds -> 0 <= d < 10) -> map char_digit (map digit_char ds) = ds.
Proof.
  induction ds as [|d ds IH]; intros H; [done|]. cbn [map].
  rewrite IH by (intros x Hx; apply H; by constructor). by rewrite (proj1 (digit_char_inv d (H d ltac:(constructor)))).
Qed.

Lemma map_digit_char s : digits_only s -> map digit_char (map char_digit s) = s.
Proof.
  induction 1 as [|c s Hc _ IH]; [done|]. cbn [map]. by rewrite IH, (proj1 (char_digit_inv c Hc)).
Qed.

Lemma digits_only_map ds : (forall d, d ∈ ds -> 0 <= d < 10) -> digits_only (map digit_char ds).
Proof.
  intros H. apply Forall_forall. intros c Hc. apply list_elem_of_In, in_map_iff in Hc as (d & <- & Hd).
  apply digit_char_inv, H. by apply list_elem_of_In.
Qed.

Lemma digits_ascii s : digits_only s -> ascii s.
Proof.
  intros H. eapply Forall_impl; [exact H|]. intros c Hc. cbn beta in Hc. unfold isdigit in Hc. lia.
Qed.

Lemma dec_loop_digits fuel : forall v, digits_only (dec_loop fuel v).
Proof.
  induction fuel as [|fuel IH]; intros v; [constructor|]. cbn [dec_loop]. apply Forall_app. split.
  - destruct (v <? 10); [constructor|apply IH].
  - constructor; [|constructor]. rewrite Z.add_comm. apply digit_char_inv. by apply Z.mod_pos_bound.
Qed.

Lemma dec_loop_size fuel : forall v k,
  0 <= v < 10 ^ Z.of_nat k -> (0 < k)%nat -> (0 < fuel)%nat -> (1 <= length (dec_loop fuel v) <= k)%nat.
Proof.
  induction fuel as [|fuel IH]; intros v k Hv Hk Hf; [lia|]. cbn [dec_loop]. rewrite length_app. cbn [length].
  destruct (Z.ltb_spec v 10); cbn [length]; [lia|].
  destruct k as [|k]; [lia|]. rewrite Nat2Z.inj_succ, Z.pow_succ_r in Hv by lia.
  destruct k as [|k]; [simpl in Hv; lia|].
  destruct fuel as [|fuel]; [cbn; lia|].
  specialize (IH (v / 10) (S k)). assert (0 <= v / 10 < 10 ^ Z.of_nat (S k)) by (Z.to_euclidean_division_equations; lia).
  lia.
Qed.

Lemma dec_loop_more n v : 0 <= v < 10 ^ Z.of_nat n -> (0 < n)%nat -> dec_loop (S n) v = dec_loop n v.
Proof.
  revert v. induction n as [|n IH]; intros v Hv Hn; [lia|].
  change (dec_loop (S (S n)) v) with ((if v <? 10 then [] else dec_loop (S n) (v / 10)) ++ [z2b (48 + v mod 10)]).
  change (dec_loop (S n) v) with ((if v <? 10 then [] else dec_loop n (v / 10)) ++ [z2b (48 + v mod 10)]).
  destruct (Z.ltb_spec v 10); [done|]. rewrite Nat2Z.inj_succ, Z.pow_succ_r in Hv by lia.
  destruct n as [|n]; [simpl in Hv; lia|]. rewrite IH; [done|Z.to_euclidean_division_equations; lia|lia].
Qed.

(** No leading zero. *)
Lemma dec_loop_head n v :
  0 < v < 10 ^ Z.of_nat n -> exists c t, dec_loop n v = c :: t /\ c <> z2b 48.
Proof.
  revert v. induction n as [|n IH]; intros v Hv; [simpl in Hv; lia|]. cbn [dec_loop].
  destruct (Z.ltb_spec v 10) as [Hs|Hs].
  - eexists _, []. split; [reflexivity|]. intros E%(f_equal b2z).
    rewrite !b2z_z2b_small in E by (rewrite ?Z.mod_small by lia; lia). rewrite Z.mod_small in E by lia. lia.
  - rewrite Nat2Z.inj_succ, Z.pow_succ_r in Hv by lia.
    destruct (IH (v / 10)) as (c & t & -> & Hc); [Z.to_euclidean_division_equations; lia|].
    by exists c, (t ++ [z2b (48 + v mod 10)]).
Qed.

Lemma skip_zeros_spec k d ds n : d <> 0 -> skip_zeros (replicate k 0 ++ d :: ds) n = Some (d :: ds, n - Z.of_nat k).
Proof.
  intros Hd. revert n. induction k as [|k IH]; intros n.
  - cbn. destruct (Z.eqb_spec d 0); [done|]. by rewrite Z.sub_0_r.
  - cbn [replicate app skip_zeros]. change (0 =? 0) with true. cbn iota. rewrite IH. do 2 f_equal. lia.
Qed.

Lemma skip_zeros_ddigits v :
  0 < v < 10 ^ 35 ->
  let t := dec_loop 35 v in skip_zeros (ddigits 36 v) 36 = Some (map char_digit t, zlen t).
Proof.
  intros Hv. cbv zeta. rewrite <- dec_loop_more by (change (10 ^ Z.of_nat 35) with (10 ^ 35); lia).
  assert (Hv' : 0 < v < 10 ^ Z.of_nat 36) by (change (10 ^ Z.of_nat 36) with (10 * 10 ^ 35); lia).
  pose proof (dec_loop_ddigits 36 v ltac:(lia) ltac:(lia)) as E.
  apply (f_equal (map char_digit)) in E. rewrite map_char_digit in E by apply ddigits_range.
  rewrite map_app in E. rewrite E. clear E.
  pose proof (dec_loop_size 36 v 36 ltac:(lia) ltac:(lia) ltac:(lia)) as Hlen.
  pose proof (dec_loop_digits 36 v) as Hd.
  destruct (dec_loop_head 36 v Hv') as (c & t & Et & Hc). rewrite Et in Hlen, Hd |- *. cbn [map].
  change (map char_digit (replicate (36 - length (c :: t)) (z2b 48)))
    with (fmap char_digit (replicate (36 - length (c :: t)) (z2b 48))).
  rewrite fmap_replicate. change (char_digit (z2b 48)) with 0. rewrite skip_zeros_spec.
  - do 2 f_equal. unfold zlen. lia.
  - intros E. apply Hc. apply Forall_cons in Hd as [Hd _]. apply char_digit_inv in Hd as [<- _]. by rewrite E.
Qed.

(** ** Output *)

(** What has been written at the start of the 43 bytes. *)
Definition written (w : bytes) (out : dec_out) : Prop :=
  exists junk, out = (w ++ junk, zlen w) /\ zlen w + zlen junk = BSON_DECIMAL128_STRING.

Lemma put_ok w out c :
  written w out -> zlen w < 43 -> exists out', dec_put out c = Some out' /\ written (w ++ [c]) out'.
Proof.
  intros (junk & -> & Hz) Hw. unfold BSON_DECIMAL128_STRING in Hz.
  destruct junk as [|x junk]; [change (zlen (@nil byte)) with 0 in Hz; lia|].
  unfold dec_put. change (x :: junk) with ([x] ++ junk). rewrite store_at by done. sbind.
  eexists. split; [done|]. exists junk. rewrite <- app_assoc, zlen_app, zlen_1.
  rewrite zlen_cons in Hz. unfold BSON_DECIMAL128_STRING. split; [done|lia].
Qed.

Lemma puts_ok w out s :
  written w out -> zlen w + zlen s < 43 ->
  exists junk, dec_puts out s = Some (w ++ s ++ x00 :: junk) /\ zlen w + zlen s + 1 + zlen junk = 43.
Proof.
  intros (junk & -> & Hz) Hw. unfold BSON_DECIMAL128_STRING in Hz. pose proof (zlen_nonneg s).
  destruct (split_at junk (zlen s + 1) ltac:(lia)) as (old & rest & -> & Hold & Hrest).
  exists rest. unfold dec_puts. cbn [fst snd]. rewrite store_at by (rewrite ?zlen_app, ?zlen_1; lia).
  rewrite <- !app_assoc. split; [done|]. rewrite zlen_app in Hz, Hrest. lia.
Qed.

Lemma put_digits_ok fuel more n : forall k read w out,
  written w out -> (k <= length read)%nat -> (k <= fuel)%nat -> zlen w + Z.of_nat k <= 43 -> Z.of_nat k <= n ->
  (forall i, 0 <= i < Z.of_nat k -> more (zlen w + i) = true) ->
  (Z.of_nat k = n \/ more (zlen w + Z.of_nat k) = false) ->
  exists out', put_digits fuel more n read out = Some (drop k read, out') /\
    written (w ++ map digit_char (take k read)) out'.
Proof.
  revert n. induction fuel as [|fuel IH]; intros n k read w out Hw Hk Hf Hz Hn Hmore Hstop.
  - assert (k = O) as -> by lia. exists out. rewrite take_0, drop_0, app_nil_r. split; [|done].
    destruct Hw as (junk & -> & _). cbn [put_digits snd].
    destruct Hstop as [<-|Hstop]; [done|]. rewrite Z.add_0_r in Hstop. by rewrite Hstop, andb_false_r.
  - destruct k as [|k].
    + exists out. rewrite take_0, drop_0, app_nil_r. split; [|done].
      destruct Hw as (junk & -> & _). cbn [put_digits snd].
      destruct Hstop as [<-|Hstop]; [done|]. rewrite Z.add_0_r in Hstop. by rewrite Hstop, andb_false_r.
    + destruct read as [|d read]; [cbn in Hk; lia|]. cbn [put_digits].
      destruct (put_ok w out (digit_char d) Hw ltac:(lia)) as (out1 & E1 & Hw1).
      destruct Hw as (junk & -> & Hj). cbn [snd] in *.
      pose proof (Hmore 0 ltac:(lia)) as H0. rewrite Z.add_0_r in H0. rewrite H0.
      destruct (Z.ltb_spec 0 n); [|lia]. cbn [andb]. rewrite E1. sbind.
      assert (Hl : zlen (w ++ [digit_char d]) = zlen w + 1) by by rewrite zlen_app, zlen_1.
      destruct (IH (n - 1) k read (w ++ [digit_char d]) out1) as (out' & -> & Hw');
        [done|cbn in Hk; lia|lia|lia|lia| | |].
      * intros i Hi. rewrite Hl, <- Z.add_assoc. apply Hmore. lia.
      * rewrite Hl. destruct Hstop as [Hs|Hs]; [left; lia|right]. rewrite <- Hs. f_equal. lia.
      * exists out'. split; [done|]. rewrite <- app_assoc in Hw'. exact Hw'.
Qed.

Lemma put_zeros_ok fuel : forall r w out,
  written w out -> (Z.to_nat (- r) <= fuel)%nat -> zlen w + Z.of_nat (Z.to_nat (- r)) <= 42 ->
  exists out', put_zeros fuel r 42 out = Some (Z.max r 0 + 1, out') /\
    written (w ++ replicate (Z.to_nat (- r)) (z2b 48)) out'.
Proof.
  induction fuel as [|fuel IH]; intros r w out Hw Hf Hz.
  - exists out. cbn [put_zeros]. destruct (Z.ltb_spec r 0); [lia|]. cbn [andb].
    replace (Z.to_nat (- r)) with O by lia. rewrite app_nil_r. split; [do 2 f_equal; lia|done].
  - cbn [put_zeros]. destruct (Z.ltb_spec r 0) as [Hr|Hr]; cbn [andb].
    + destruct (put_ok w out (digit_char 0) Hw ltac:(lia)) as (out1 & E1 & Hw1).
      assert (Hs : snd out = zlen w) by (destruct Hw as (junk & -> & _); done). rewrite Hs.
      destruct (Z.eqb_spec (zlen w) 42); [lia|]. cbn [negb]. rewrite E1. sbind.
      assert (Hl : zlen (w ++ [digit_char 0]) = zlen w + 1) by by rewrite zlen_app, zlen_1.
      destruct (IH (r + 1) (w ++ [digit_char 0]) out1) as (out' & -> & Hw'); [done|lia|lia|].
      exists out'. split; [do 2 f_equal; lia|].
      replace (Z.to_nat (- r)) with (S (Z.to_nat (- (r + 1)))) by lia. rewrite <- app_assoc in Hw'. exact Hw'.
    + exists out. replace (Z.to_nat (- r)) with O by lia. rewrite app_nil_r. split; [do 2 f_equal; lia|done].
Qed.

Lemma signed_dec_length z : - 10 ^ 4 < z < 10 ^ 4 -> 2 <= zlen (signed_dec z) <= 5.
Proof.
  intros Hz. unfold signed_dec. rewrite zlen_app.
  assert (H : (1 <= length (dec (Z.abs z)) <= 4)%nat)
    by (apply dec_loop_size; [change (10 ^ Z.of_nat 4) with (10 ^ 4); lia|lia|lia]).
  unfold zlen at 2 4. destruct (z <? 0); [change (zlen (txt "-")) with 1|change (zlen (txt "+")) with 1]; lia.
Qed.

Lemma signed_dec_ascii z : ascii (signed_dec z).
Proof.
  unfold signed_dec. apply ascii_app. split; [destruct (z <? 0); by apply asciib_spec|].
  apply digits_ascii, dec_loop_digits.
Qed.

(** The digits of [n] read characters as text. *)
Definition digits_at (read : list Z) (text : bytes) : Prop :=
  digits_only text /\ (length text <= length read)%nat /\ take (length text) (map digit_char read) = text.

Lemma digits_at_take read text k :
  digits_at read text -> (k <= length text)%nat -> map digit_char (take k read) = take k text.
Proof.
  intros (_ & _ & E) Hk. rewrite <- firstn_map. apply (f_equal (take k)) in E.
  by rewrite take_take, Nat.min_l in E by lia.
Qed.

Lemma digits_at_drop read text k : digits_at read text -> (k <= length text)%nat -> digits_at (drop k read) (drop k text).
Proof.
  intros (Hd & Hl & E) Hk. split; [by apply Forall_drop|]. rewrite !length_drop. split; [lia|].
  rewrite <- skipn_map, <- skipn_firstn_comm. replace (k + (length text - k))%nat with (length text) by lia. by rewrite E.
Qed.

(** The output of a finite number: its text after the sign [w], when it has at most 34
    digits. *)
Definition formats (w text : bytes) (e : Z) (r : option bytes) : Prop :=
  exists t junk, r = Some (w ++ t ++ x00 :: junk) /\ zlen w + zlen t + 1 + zlen junk = 43 /\ ascii t /\
    (zlen text <= 34 -> t = finite_text text e).

Lemma exponent_ok w out z :
  written w out -> zlen w <= 36 -> - 10 ^ 4 < z < 10 ^ 4 ->
  exists junk, (out ← dec_put out (z2b 69); dec_puts out (vsnprintf 6 (signed_dec z))) =
    Some (w ++ txt "E" ++ signed_dec z ++ x00 :: junk) /\ zlen w + 1 + zlen (signed_dec z) + 1 + zlen junk = 43.
Proof.
  intros Hw Hz Hr. destruct (put_ok w out (z2b 69) Hw ltac:(lia)) as (out1 & -> & Hw1). sbind.
  pose proof (signed_dec_length z Hr) as Hs.
  unfold vsnprintf. rewrite take_ge by (unfold zlen in *; lia).
  destruct (puts_ok _ out1 (signed_dec z) Hw1) as (junk & -> & Hj); [rewrite zlen_app, zlen_1; lia|].
  rewrite zlen_app, zlen_1 in Hj. exists junk. rewrite <- app_assoc. done.
Qed.

(** The point, when digits follow it. *)
Lemma point_ok w out n :
  written w out -> zlen w < 43 ->
  let point := if n =? 1 then [] else txt "." in
  exists out', (if negb (n - 1 =? 0) then dec_put out (z2b 46) else Some out) = Some out' /\ written (w ++ point) out' /\
    zlen point = if n =? 1 then 0 else 1.
Proof.
  intros Hw Hz. cbv zeta. destruct (Z.eqb_spec n 1); destruct (Z.eqb_spec (n - 1) 0); try lia; cbn [negb].
  - exists out. by rewrite app_nil_r.
  - destruct (put_ok w out (z2b 46) Hw Hz) as (out' & E & Hw'). by exists out'.
Qed.

Lemma finite_text_radix text e :
  -5 <= zlen text + e -> e < 0 ->
  finite_text text e =
  (if 0 <? zlen text + e then take (Z.to_nat (zlen text + e)) text else txt "0") ++ [z2b 46] ++
  replicate (Z.to_nat (- (zlen text + e))) (z2b 48) ++ drop (Z.to_nat (zlen text + e)) text.
Proof.
  intros Hr He. unfold finite_text.
  replace ((zlen text - 1 + e <? -6) || (0 <? e)) with false by (symmetry; rewrite orb_false_iff, !Z.ltb_ge; lia).
  destruct (Z.eqb_spec e 0); [lia|]. destruct (Z.ltb_spec 0 (zlen text + e)).
  - by replace (Z.to_nat (- (zlen text + e))) with O by lia.
  - replace (Z.to_nat (zlen text + e)) with O by lia. by rewrite drop_0.
Qed.

Section format.
Context (w text : bytes) (read : list Z) (e : Z) (out : dec_out).
Context (Hw : written w out) (Hsign : zlen w <= 1) (Htext : 1 <= zlen text <= 35) (Hread : digits_at read text).
Context (He : -6176 <= e <= 6111).

Lemma dec_scientific_ok :
  zlen text - 1 + e < -6 \/ 0 < e ->
  formats w text e (dec_scientific (zlen text) read (zlen text - 1 + e) out).
Proof.
  intros Hsci. pose proof (zlen_nonneg w) as Hz0. unfold dec_scientific.
  destruct read as [|d ds]; [destruct Hread as (_ & H & _); unfold zlen in *; cbn in H; lia|].
  pose proof (digits_at_take _ _ 1 Hread ltac:(unfold zlen in *; lia)) as E1.
  change (take 1 (d :: ds)) with [d] in E1. cbn [map] in E1.
  pose proof (digits_at_drop _ _ 1 Hread ltac:(unfold zlen in *; lia)) as Hrest. change (drop 1 (d :: ds)) with ds in Hrest.
  set (rest := drop 1 text) in *. assert (Hr : zlen rest = zlen text - 1) by (unfold rest, zlen in *; rewrite length_drop; lia).
  destruct (put_ok w out (digit_char d) Hw ltac:(lia)) as (out1 & -> & Hw1). sbind.
  destruct (point_ok _ out1 (zlen text) Hw1) as (out2 & -> & Hw2 & Hp); [rewrite zlen_app, zlen_1; lia|]. sbind.
  set (point := if zlen text =? 1 then [] else txt ".") in *.
  set (k := Nat.min (length rest) (Z.to_nat (36 - zlen ((w ++ [digit_char d]) ++ point)))).
  assert (Hk : Z.of_nat k = Z.min (zlen rest) (34 - zlen w)).
  { unfold k. rewrite !zlen_app, zlen_1, Hp. unfold zlen in *. destruct (Z.eqb_spec (Z.of_nat (length text)) 1); lia. }
  destruct (put_digits_ok dec_fuel (fun o => o <? 36) (zlen text - 1) k ds _ out2 Hw2) as (out3 & -> & Hw3);
    [destruct Hrest as (_ & ? & _); unfold zlen in *; lia|unfold dec_fuel, zlen in *; lia
    |rewrite !zlen_app, zlen_1, Hp; destruct (zlen text =? 1); lia|lia
    |rewrite !zlen_app, zlen_1, Hp; intros i Hi; apply Z.ltb_lt; destruct (zlen text =? 1); lia
    |rewrite !zlen_app, zlen_1, Hp; rewrite Z.ltb_ge; destruct (Z.eqb_spec (zlen text) 1); lia|].
  sbind. rewrite (digits_at_take _ _ k Hrest) in Hw3 by (unfold k; lia).
  match type of Hw3 with written ?x _ => set (w3 := x) in * end.
  assert (Hl3 : zlen w3 <= 36).
  { assert (Hkr : zlen (take k rest) = Z.of_nat k) by (unfold zlen; rewrite length_take; unfold k; lia).
    unfold w3. rewrite !zlen_app, zlen_1, Hp, Hkr. destruct (Z.eqb_spec (zlen text) 1); lia. }
  destruct (exponent_ok w3 out3 (zlen text - 1 + e) Hw3 Hl3 ltac:(lia)) as (junk & -> & Hj).
  exists (take 1 text ++ point ++ take k rest ++ txt "E" ++ signed_dec (zlen text - 1 + e)), junk.
  rewrite <- E1. unfold w3 in *. rewrite <- !app_assoc. split; [done|]. split.
  { rewrite !zlen_app in *. rewrite !zlen_1 in *. change (zlen (txt "E")) with 1. lia. }
  split.
  - destruct Hrest as (Hrest & _). rewrite !ascii_app. split; [|split; [|split; [|split; [|apply signed_dec_ascii]]]].
    + rewrite E1. destruct Hread as (Hd & _). apply digits_ascii. by apply Forall_take.
    + unfold point. destruct (zlen text =? 1); by apply asciib_spec.
    + apply digits_ascii. by apply Forall_take.
    + by apply asciib_spec.
  - intros H34. unfold finite_text. rewrite E1.
    replace ((zlen text - 1 + e <? -6) || (0 <? e)) with true by (symmetry; rewrite orb_true_iff, !Z.ltb_lt; lia).
    rewrite (take_ge rest) by (unfold zlen in *; lia). unfold point.
    destruct (Z.eqb_spec (zlen text) 1) as [E|E]; [|by rewrite <- !app_assoc].
    by rewrite (zlen_0 rest) by lia.
Qed.

Lemma dec_integer_ok :
  e = 0 ->
  formats w text e ('(_, out) ← put_digits dec_fuel (fun o => o <? 36) (zlen text) read out; dec_puts out []).
Proof.
  intros E0. destruct Hread as (Hd & Hl & Et).
  destruct (put_digits_ok dec_fuel (fun o => o <? 36) (zlen text) (length text) read w out Hw) as (out1 & -> & Hw1);
    [lia|unfold dec_fuel, zlen in *; lia|unfold zlen in *; lia|unfold zlen; lia
    |intros i Hi; apply Z.ltb_lt; unfold zlen in *; lia|by left|].
  sbind. rewrite (digits_at_take _ _ _ Hread), firstn_all in Hw1 by done.
  destruct (puts_ok _ out1 [] Hw1) as (junk & -> & Hj); [rewrite zlen_app, zlen_nil; lia|].
  exists text, junk. rewrite <- app_assoc. rewrite zlen_app, zlen_nil in Hj. split; [done|]. split; [lia|].
  split; [by apply digits_ascii|]. intros _. unfold finite_text. rewrite E0.
  replace ((zlen text - 1 + 0 <? -6) || (0 <? 0)) with false; [done|].
  symmetry. rewrite orb_false_iff, !Z.ltb_ge. lia.
Qed.

(** The part before the point. *)
Lemma radix_head_ok :
  let r := zlen text + e in
  -5 <= r -> e < 0 ->
  exists read' out' head,
    (if 0 <? r then put_digits dec_fuel (fun o => negb (o =? 42)) r read out
     else out ← dec_put out (digit_char 0); Some (read, out)) = Some (read', out') /\
    written (w ++ head) out' /\ digits_only head /\ zlen head = Z.max r 1 /\
    head = (if 0 <? r then take (Z.to_nat r) text else txt "0") /\
    digits_at read' (drop (Z.to_nat r) text).
Proof.
  intros r Hr He0. pose proof Hread as (Hd & Hl & _). destruct (Z.ltb_spec 0 r) as [Hp|Hp].
  - destruct (put_digits_ok dec_fuel (fun o => negb (o =? 42)) r (Z.to_nat r) read w out Hw) as (out1 & -> & Hw1);
      [unfold r, zlen in *; lia|unfold dec_fuel, r in *; lia|lia|lia
      |intros i Hi; apply negb_true_iff, Z.eqb_neq; unfold r in *; lia|left; lia|].
    rewrite (digits_at_take _ _ _ Hread) in Hw1 by (unfold r, zlen in *; lia).
    exists (drop (Z.to_nat r) read), out1, (take (Z.to_nat r) text).
    split; [done|]. split; [done|]. split; [by apply Forall_take|].
    split; [rewrite zlen_take by (unfold r in *; lia); lia|]. split; [done|].
    apply digits_at_drop; [done|unfold r, zlen in *; lia].
  - destruct (put_ok w out (digit_char 0) Hw ltac:(lia)) as (out1 & -> & Hw1). sbind.
    exists read, out1, (txt "0"). split; [done|]. split; [done|]. split; [by repeat constructor|].
    change (zlen (txt "0")) with 1. split; [lia|]. split; [done|].
    replace (Z.to_nat r) with O by lia. by rewrite drop_0.
Qed.

Lemma dec_radix_ok :
  let r := zlen text + e in
  -5 <= r -> e < 0 -> formats w text e (dec_radix (zlen text) read e out).
Proof.
  intros r Hr He0. unfold dec_radix. fold r. change (BSON_DECIMAL128_STRING - 1) with 42.
  destruct (radix_head_ok Hr He0) as (read' & out1 & head & E1 & Hw1 & Hdh & Hzh & Hhead & Hread').
  fold r in E1, Hzh, Hhead, Hread'. cbv zeta. rewrite E1. sbind. clear E1.
  assert (Hrest : zlen (drop (Z.to_nat r) text) = zlen text - Z.max r 0) by (unfold r, zlen in *; rewrite length_drop; lia).
  set (rest := drop (Z.to_nat r) text) in *. pose proof (zlen_nonneg w) as Hz0.
  destruct (put_ok _ out1 (z2b 46) Hw1) as (out2 & -> & Hw2); [rewrite zlen_app; unfold r in *; lia|]. sbind.
  destruct (put_zeros_ok dec_fuel r _ out2 Hw2) as (out3 & -> & Hw3);
    [unfold dec_fuel; lia|rewrite !zlen_app, zlen_1; unfold r in *; lia|]. sbind.
  set (zs := replicate (Z.to_nat (- r)) (z2b 48)) in *.
  assert (Hzs : zlen zs = Z.max (- r) 0) by (unfold zs; rewrite zlen_replicate; lia).
  set (w3 := ((w ++ head) ++ [z2b 46]) ++ zs) in *.
  assert (Hz3 : zlen w3 = zlen w + Z.max r 1 + 1 + Z.max (- r) 0) by (unfold w3; rewrite !zlen_app, zlen_1; lia).
  assert (Hs3 : snd out3 = zlen w3) by (destruct Hw3 as (junk & -> & _); done).
  rewrite Hs3, !u32_id by (unfold r in *; lia).
  set (k := Z.min (zlen text - Z.max (Z.max r 0 + 1 - 1) 0) (42 - zlen w3)).
  assert (Hk : k = Z.min (zlen rest) (42 - zlen w3)) by (unfold k; rewrite Hrest; lia).
  assert (Hk0 : 0 <= k) by (rewrite Hk, Hrest; unfold r in *; lia).
  destruct (put_digits_ok dec_fuel (fun _ => true) k (Z.to_nat k) read' w3 out3 Hw3) as (out4 & -> & Hw4);
    [destruct Hread' as (_ & ? & _); unfold zlen in *; lia|unfold dec_fuel; unfold r in *; lia|lia|lia|done|left; lia|].
  sbind. rewrite (digits_at_take _ _ _ Hread') in Hw4 by (unfold zlen in *; lia).
  assert (Hz4 : zlen (take (Z.to_nat k) rest) = k) by (apply zlen_take; lia).
  destruct (puts_ok _ out4 [] Hw4) as (junk & -> & Hj); [rewrite zlen_app, zlen_nil, Hz4; lia|].
  exists (head ++ [z2b 46] ++ zs ++ take (Z.to_nat k) rest), junk.
  split; [unfold w3; by rewrite <- !app_assoc|].
  split; [rewrite zlen_app, zlen_nil, Hz3, Hz4 in Hj; rewrite !zlen_app, zlen_1, Hz4; lia|]. split.
  - rewrite !ascii_app. split; [by apply digits_ascii|]. split; [by apply asciib_spec|].
    split; [apply digits_ascii, Forall_replicate; by vm_compute|]. apply digits_ascii.
    destruct Hread' as (Hd & _). by apply Forall_take.
  - intros H34. rewrite take_ge by (unfold r, zlen in *; lia). rewrite Hhead. symmetry. by apply finite_text_radix.
Qed.

Lemma dec_format_ok : formats w text e (dec_format (zlen text) read e out).
Proof.
  unfold dec_format. destruct ((zlen text - 1 + e <? -6) || (0 <? e)) eqn:E.
  - apply dec_scientific_ok. rewrite orb_true_iff, !Z.ltb_lt in E. lia.
  - rewrite orb_false_iff, !Z.ltb_ge in E. destruct (Z.leb_spec 0 e).
    + apply dec_integer_ok. lia.
    + apply dec_radix_ok; lia.
Qed.
End format.

(** ** The fields of a number *)

Lemma digits_at_chars text : digits_only text -> digits_at (map char_digit text) text.
Proof. intros H. split; [done|]. by rewrite length_map, map_digit_char, firstn_all. Qed.

Lemma dec_finite_ok high midh midl low out w biased msb :
  written w out -> zlen w <= 1 -> uint128_ok (high, midh, midl, low) -> 0 <= msb < 16 -> 0 <= biased <= 12287 ->
  let v := uint128_value (high mod 2 ^ 14 + msb * 2 ^ 14, midh, midl, low) in
  formats w (dec_loop 35 (if v <? 2 ^ 113 then v else 0)) (biased - 6176) (dec_finite high midh midl low out biased msb).
Proof.
  intros Hw Hsign (Hh & Hmh & Hml & Hl) Hmsb Hb. cbv zeta. unfold dec_finite, BSON_DECIMAL128_EXPONENT_BIAS.
  change 0x3fff with (Z.ones 14). change 0xf with (Z.ones 4).
  pose proof (Z.mod_pos_bound high (2 ^ 14) ltac:(lia)) as Hm.
  rewrite !Z.land_ones, (Z.mod_small msb), Z.shiftl_mul_pow2, u32_id by lia.
  set (p0 := high mod 2 ^ 14 + msb * 2 ^ 14) in *. set (v := uint128_value (p0, midh, midl, low)).
  assert (Ev : v = ((p0 * 2 ^ 32 + midh) * 2 ^ 32 + midl) * 2 ^ 32 + low) by reflexivity.
  unfold is_u32 in *. change (Z.shiftl 1 17) with (2 ^ 17).
  set (is_zero := (p0 =? 0) && (midh =? 0) && (midl =? 0) && (low =? 0) || (2 ^ 17 <=? p0)).
  assert (Hz : is_zero = false -> 0 < v < 2 ^ 113).
  { unfold is_zero. rewrite orb_false_iff, Z.leb_gt, !andb_false_iff, !Z.eqb_neq. lia. }
  assert (Hz' : is_zero = true -> (if v <? 2 ^ 113 then v else 0) = 0).
  { unfold is_zero. rewrite orb_true_iff, Z.leb_le, !andb_true_iff, !Z.eqb_eq. destruct (Z.ltb_spec v (2 ^ 113)); lia. }
  destruct is_zero.
  - rewrite Hz' by done. sbind. change (dec_loop 35 0) with (txt "0").
    apply (dec_format_ok w (txt "0")); [done|done|done| |lia].
    split; [by repeat constructor|]. split; [cbn; lia|done].
  - specialize (Hz eq_refl). destruct (Z.ltb_spec v (2 ^ 113)); [|lia].
    pose proof (significand_loop_spec 4 (p0, midh, midl, low) []) as E. rewrite !app_nil_r in E.
    change (4 * 9)%nat with 36%nat in E. rewrite E by (unfold uint128_ok, is_u32; lia). fold v.
    rewrite skip_zeros_ddigits by lia. sbind.
    pose proof (dec_loop_size 35 v 35 ltac:(change (10 ^ Z.of_nat 35) with (10 ^ 35); lia) ltac:(lia) ltac:(lia)).
    apply dec_format_ok; [done|done|unfold zlen; lia|apply digits_at_chars, dec_loop_digits|lia].
Qed.

Lemma dec_fields d :
  dec_ok d ->
  let high := u32 (Z.shiftr (dec_high d) 32) in
  Z.land (Z.shiftr high 26) 0x1f = dec_combination d /\ is_u32 high /\ high = dec_high d / 2 ^ 32 /\
  dec_high d = high * 2 ^ 32 + u32 (dec_high d) /\
  dec_low d = u32 (Z.shiftr (dec_low d) 32) * 2 ^ 32 + u32 (dec_low d).
Proof.
  intros [Hh Hl]. unfold is_u64 in *. cbv zeta. rewrite !Z.shiftr_div_pow2 by lia.
  assert (Hd : 0 <= dec_high d / 2 ^ 32 < 2 ^ 32) by (split; [apply Z.div_pos; lia|apply Z.div_lt_upper_bound; lia]).
  assert (Hd' : 0 <= dec_low d / 2 ^ 32 < 2 ^ 32) by (split; [apply Z.div_pos; lia|apply Z.div_lt_upper_bound; lia]).
  rewrite !(u32_id (_ / _)) by lia. change 0x1f with (Z.ones 5). rewrite Z.land_ones, Z.div_div by lia.
  split; [done|]. split; [done|]. split; [done|]. unfold u32.
  split; rewrite Z.mul_comm; by apply Z.div_mod.
Qed.

(** What is printed for any 128 bits, within the 43 bytes. *)
Definition prints (d : bson_decimal128_t) (r : option bytes) : Prop :=
  exists t junk, r = Some (t ++ x00 :: junk) /\ zlen t + 1 + zlen junk = 43 /\ ascii t /\
    (dec_canonical d -> t = dec_text (dec_value d)).

Lemma written_sign d str :
  dec_ok d -> zlen str = 43 ->
  exists out, (if s64 (dec_high d) <? 0 then dec_put (str, 0) (z2b 45) else Some (str, 0)) = Some out /\
    written (sign_text (dec_negative d)) out.
Proof.
  intros [Hh _] Hz. unfold is_u64 in Hh. unfold s64, sext. rewrite u64_id by lia. change (2 ^ (64 - 1)) with (2 ^ 63).
  assert (H0 : written [] (str, 0)) by (exists str; done). unfold dec_negative.
  destruct (Z.ltb_spec (dec_high d) (2 ^ 63)); destruct (Z.leb_spec (2 ^ 63) (dec_high d)); try lia.
  - destruct (Z.ltb_spec (dec_high d) 0); [lia|]. by exists (str, 0).
  - destruct (Z.ltb_spec (dec_high d - 2 ^ 64) 0); [|lia]. by apply (put_ok [] (str, 0)).
Qed.

(** A field is bounded by its high bits. *)
Lemma field_range h k j :
  0 <= h -> 0 <= k -> 0 <= j <= 14 ->
  0 <= h / 2 ^ k mod 2 ^ 14 <= 2 ^ j * (h / 2 ^ (k + j) mod 2 ^ (14 - j)) + (2 ^ j - 1).
Proof.
  intros Hh Hk Hj. rewrite Z.pow_add_r, <- Z.div_div by lia. generalize (h / 2 ^ k). intros x.
  replace (2 ^ 14) with (2 ^ j * 2 ^ (14 - j)) by (rewrite <- Z.pow_add_r by lia; f_equal; lia).
  rewrite Z.rem_mul_r by lia. pose proof (Z.mod_pos_bound x (2 ^ j) ltac:(lia)).
  pose proof (Z.mod_pos_bound (x / 2 ^ j) (2 ^ (14 - j)) ltac:(lia)). nia.
Qed.

Lemma prints_formats d e c t :
  dec_ok d -> dec_value d = DFinite (dec_negative d) c e -> 0 <= t < 2 ^ 113 -> (dec_canonical d -> c = t /\ t < 10 ^ 34) ->
  forall r, formats (sign_text (dec_negative d)) (dec_loop 35 t) e r -> prints d r.
Proof.
  intros Hd Hv Ht Hc r (x & junk & -> & Hz & Hn & Hx). exists (sign_text (dec_negative d) ++ x), junk.
  split; [by rewrite <- app_assoc|]. split; [rewrite zlen_app; lia|]. split.
  - apply ascii_app. split; [destruct (dec_negative d); by apply asciib_spec|done].
  - intros Hcan. destruct (Hc Hcan) as [-> H34]. rewrite Hv. cbn [dec_text]. f_equal.
    assert (E : dec_loop 35 t = dec_loop 34 t) by (apply dec_loop_more; [change (10 ^ Z.of_nat 34) with (10 ^ 34)|]; lia).
    rewrite E in Hx. apply Hx.
    pose proof (dec_loop_size 34 t 34 ltac:(change (10 ^ Z.of_nat 34) with (10 ^ 34); lia) ltac:(lia) ltac:(lia)).
    unfold zlen. lia.
Qed.

Lemma special_prints d out :
  dec_ok d -> 24 <= dec_combination d -> written (sign_text (dec_negative d)) out ->
  (dec_combination d = 30 -> prints d (dec_puts out (txt "Infinity"))) /\
  (dec_combination d = 31 -> prints d (dec_puts (fst out, 0) (txt "NaN"))).
Proof.
  intros Hd H24 Hw. split; intros Eg.
  - destruct (puts_ok _ out (txt "Infinity") Hw) as (junk & -> & Hj); [by destruct (dec_negative d)|].
    exists (sign_text (dec_negative d) ++ txt "Infinity"), junk. split; [by rewrite <- app_assoc|].
    split; [by rewrite zlen_app|]. split; [destruct (dec_negative d); by apply asciib_spec|].
    intros _. unfold dec_value. by rewrite Eg.
  - assert (H0 : written [] (fst out, 0)).
    { destruct Hw as (junk & -> & Hz). exists (sign_text (dec_negative d) ++ junk). split; [done|]. by rewrite zlen_app, zlen_nil. }
    destruct (puts_ok _ _ (txt "NaN") H0) as (junk & -> & Hj); [done|].
    exists (txt "NaN"), junk. split; [done|]. split; [done|]. split; [by apply asciib_spec|].
    intros _. unfold dec_value. by rewrite Eg.
Qed.

Section finite.
Context (d : bson_decimal128_t) (out : dec_out) (Hd : dec_ok d) (Hw : written (sign_text (dec_negative d)) out).

Definition dec_words : Z * Z * Z * Z :=
  (dec_high d / 2 ^ 32, u32 (dec_high d), u32 (Z.shiftr (dec_low d) 32), u32 (dec_low d)).

Lemma dec_words_ok : uint128_ok dec_words.
Proof.
  destruct (dec_fields d Hd) as (_ & Hh & Eh & _). cbv zeta in *. rewrite Eh in Hh.
  unfold dec_words, uint128_ok. split; [done|]. split; [apply u32_range|]. split; apply u32_range.
Qed.

(** The coefficient has 113 bits. *)
Lemma coefficient_value :
  uint128_value ((dec_high d / 2 ^ 32) mod 2 ^ 14 + (dec_high d / 2 ^ 46 mod 2 ^ 3) * 2 ^ 14, u32 (dec_high d),
                 u32 (Z.shiftr (dec_low d) 32), u32 (dec_low d)) = dec_coefficient d /\
  0 <= dec_coefficient d < 2 ^ 113.
Proof.
  destruct (dec_fields d Hd) as (_ & Hh32 & Eh & Ehl & Ell). cbv zeta in *. destruct Hd as [Hh Hl].
  unfold is_u64, is_u32 in *. unfold dec_coefficient.
  assert (E : dec_high d mod 2 ^ 49 =
    ((dec_high d / 2 ^ 32) mod 2 ^ 14 + dec_high d / 2 ^ 46 mod 2 ^ 3 * 2 ^ 14) * 2 ^ 32 + u32 (dec_high d)).
  { change (2 ^ 49) with (2 ^ 32 * 2 ^ 17). rewrite Z.rem_mul_r by lia. change (2 ^ 17) with (2 ^ 14 * 2 ^ 3).
    rewrite (Z.rem_mul_r (dec_high d / 2 ^ 32)), Z.div_div by lia. change (2 ^ 32 * 2 ^ 14) with (2 ^ 46). unfold u32. lia. }
  split; [rewrite E; unfold uint128_value; lia|].
  pose proof (Z.mod_pos_bound (dec_high d) (2 ^ 49) ltac:(lia)). lia.
Qed.

Lemma normal_prints :
  dec_combination d < 24 ->
  prints d (dec_finite (dec_high d / 2 ^ 32) (u32 (dec_high d)) (u32 (Z.shiftr (dec_low d) 32)) (u32 (dec_low d)) out
              (dec_high d / 2 ^ 49 mod 2 ^ 14) (dec_high d / 2 ^ 46 mod 2 ^ 3)).
Proof.
  intros Hg. destruct coefficient_value as [Ec Hc]. pose proof dec_words_ok as Hok.
  assert (Hg0 : 0 <= dec_combination d) by (apply Z.mod_pos_bound; lia).
  pose proof (field_range (dec_high d) 49 9 ltac:(apply Hd) ltac:(lia) ltac:(lia)) as Hr.
  change (dec_high d / 2 ^ (49 + 9) mod 2 ^ (14 - 9)) with (dec_combination d) in Hr.
  pose proof (Z.mod_pos_bound (dec_high d / 2 ^ 46) (2 ^ 3) ltac:(lia)) as Hm.
  pose proof (dec_finite_ok _ _ _ _ out _ (dec_high d / 2 ^ 49 mod 2 ^ 14) (dec_high d / 2 ^ 46 mod 2 ^ 3) Hw
    ltac:(by destruct (dec_negative d)) Hok ltac:(lia) ltac:(lia)) as H.
  cbv zeta in H. rewrite Ec in H. destruct (Z.ltb_spec (dec_coefficient d) (2 ^ 113)); [|lia].
  eapply prints_formats; [done| | | |exact H]; [|done|].
  - unfold dec_value. destruct (Z.eqb_spec (dec_combination d) 31); [lia|].
    destruct (Z.eqb_spec (dec_combination d) 30); [lia|].
    destruct (Z.eqb_spec (dec_combination d / 8) 3); [Z.to_euclidean_division_equations; lia|]. done.
  - intros [Hx|Hx]; [lia|]. destruct (Z.ltb_spec (dec_coefficient d) (10 ^ 34)); [done|lia].
Qed.

Lemma large_prints :
  24 <= dec_combination d < 30 ->
  prints d (dec_finite (dec_high d / 2 ^ 32) (u32 (dec_high d)) (u32 (Z.shiftr (dec_low d) 32)) (u32 (dec_low d)) out
              (dec_high d / 2 ^ 47 mod 2 ^ 14) (8 + dec_high d / 2 ^ 46 mod 2)).
Proof.
  intros Hg. pose proof dec_words_ok as Hok.
  pose proof (field_range (dec_high d) 47 11 ltac:(apply Hd) ltac:(lia) ltac:(lia)) as Hr.
  change (dec_high d / 2 ^ (47 + 11) mod 2 ^ (14 - 11)) with (dec_high d / 2 ^ 58 mod 8) in Hr.
  assert (E8 : dec_high d / 2 ^ 58 mod 8 <= 5)
    by (unfold dec_combination in Hg; generalize dependent (dec_high d / 2 ^ 58); intros; Z.to_euclidean_division_equations; lia).
  pose proof (Z.mod_pos_bound (dec_high d / 2 ^ 46) 2 ltac:(lia)) as Hm.
  pose proof (dec_finite_ok _ _ _ _ out _ (dec_high d / 2 ^ 47 mod 2 ^ 14) (8 + dec_high d / 2 ^ 46 mod 2) Hw
    ltac:(by destruct (dec_negative d)) Hok ltac:(lia) ltac:(lia)) as H.
  cbv zeta in H. match type of H with context [if ?x <? 2 ^ 113 then _ else _] => set (v := x) in H end.
  assert (Hv : 2 ^ 113 <= v).
  { unfold v, uint128_value. destruct Hok as (_ & H1 & H2 & H3). unfold is_u32 in *.
    pose proof (Z.mod_pos_bound (dec_high d / 2 ^ 32) (2 ^ 14) ltac:(lia)). lia. }
  destruct (Z.ltb_spec v (2 ^ 113)); [lia|].
  eapply prints_formats; [done| | | |exact H]; [|done|done].
  unfold dec_value. destruct (Z.eqb_spec (dec_combination d) 31); [lia|].
  destruct (Z.eqb_spec (dec_combination d) 30); [lia|].
  destruct (Z.eqb_spec (dec_combination d / 8) 3); [done|Z.to_euclidean_division_equations; lia].
Qed.
End finite.

Lemma to_string_prints d str :
  dec_ok d -> zlen str = 43 -> prints d (bson_decimal128_to_string d str).
Proof.
  intros Hd Hz. unfold bson_decimal128_to_string.
  destruct (written_sign d str Hd Hz) as (out & -> & Hw). sbind.
  destruct (dec_fields d Hd) as (Hg & Hh32 & Eh & _). cbv zeta in *. rewrite Hg, Eh. rewrite Eh in Hh32.
  assert (Hgr : 0 <= dec_combination d < 32) by (apply Z.mod_pos_bound; lia).
  rewrite !(Z.shiftr_div_pow2 (_ / _)), (Z.shiftr_div_pow2 (dec_combination d)) by lia.
  change (dec_combination d / 2 ^ 3) with (dec_combination d / 8).
  change 0x3fff with (Z.ones 14). change 0x1 with (Z.ones 1). change 0x7 with (Z.ones 3).
  rewrite !Z.land_ones, !Z.div_div by lia.
  change (2 ^ 32 * 2 ^ 15) with (2 ^ 47). change (2 ^ 32 * 2 ^ 14) with (2 ^ 46). change (2 ^ 32 * 2 ^ 17) with (2 ^ 49).
  change (2 ^ 1) with 2. pose proof (Z.mod_pos_bound (dec_high d / 2 ^ 46) 2 ltac:(lia)).
  pose proof (Z.mod_pos_bound (dec_high d / 2 ^ 46) (2 ^ 3) ltac:(lia)).
  rewrite !u8_id by lia.
  destruct (Z.eqb_spec (dec_combination d / 8) 3) as [E|E].
  - assert (24 <= dec_combination d) by (Z.to_euclidean_division_equations; lia).
    destruct (special_prints d out Hd ltac:(done) Hw) as [Hinf Hnan].
    destruct (Z.eqb_spec (dec_combination d) 30); [by apply Hinf|].
    destruct (Z.eqb_spec (dec_combination d) 31); [by apply Hnan|]. apply large_prints; try done. lia.
  - apply normal_prints; try done. Z.to_euclidean_division_equations; lia.
Qed.
