(* ===== verification/Decimal128Read.v ===== *)
(** Reading the text of a decimal floating point number:
    [bson_decimal128_from_string]. *)

From Stdlib Require Import Strings.String.
From S2P Require Import Prelude CString Text Decimal128 Decimal128Spec.

(** ** The significand *)

(** The product of two 64-bit numbers is exact. *)
Lemma mul_64x64_exact a b :
  is_u64 a -> is_u64 b ->
  let '(high, low) := _mul_64x64 a b in is_u64 high /\ is_u64 low /\ high * 2 ^ 64 + low = a * b.
Proof.
  unfold is_u64. intros Ha Hb. unfold _mul_64x64. destruct ((a =? 0) && (b =? 0)) eqn:E0.
  { rewrite andb_true_iff, !Z.eqb_eq in E0. destruct E0 as [-> ->]. done. }
  rewrite !Z.shiftr_div_pow2, Z.shiftl_mul_pow2 by lia. unfold u32.
  pose proof (Z.div_mod a (2 ^ 32) ltac:(lia)) as Ea. pose proof (Z.div_mod b (2 ^ 32) ltac:(lia)) as Eb.
  pose proof (Z.mod_pos_bound a (2 ^ 32) ltac:(lia)). pose proof (Z.mod_pos_bound b (2 ^ 32) ltac:(lia)).
  assert (0 <= a / 2 ^ 32 < 2 ^ 32) by (split; [apply Z.div_pos; lia|apply Z.div_lt_upper_bound; lia]).
  assert (0 <= b / 2 ^ 32 < 2 ^ 32) by (split; [apply Z.div_pos; lia|apply Z.div_lt_upper_bound; lia]).
  set (ah := a / 2 ^ 32) in *. set (al := a mod 2 ^ 32) in *. set (bh := b / 2 ^ 32) in *. set (bl := b mod 2 ^ 32) in *.
  assert (P : forall x y, 0 <= x < 2 ^ 32 -> 0 <= y < 2 ^ 32 -> 0 <= x * y <= (2 ^ 32 - 1) * (2 ^ 32 - 1)) by (intros; nia).
  pose proof (P ah bh ltac:(lia) ltac:(lia)). pose proof (P ah bl ltac:(lia) ltac:(lia)).
  pose proof (P al bh ltac:(lia) ltac:(lia)). pose proof (P al bl ltac:(lia) ltac:(lia)).
  assert (E : a * b = ah * bh * 2 ^ 64 + (ah * bl + al * bh) * 2 ^ 32 + al * bl) by (rewrite Ea, Eb; lia).
  clear Ea Eb P. rewrite E. clear E E0. generalize dependent (ah * bh). generalize dependent (ah * bl).
  generalize dependent (al * bh). generalize dependent (al * bl). intros ll Hll lh Hlh hl Hhl hh Hhh.
  rewrite !(u64_id ll), !(u64_id lh), !(u64_id hl), !(u64_id hh) by lia.
  clearbody ah al bh bl. clear dependent a. clear dependent b.
  pose proof (Z.div_mod hl (2 ^ 32) ltac:(lia)). pose proof (Z.mod_pos_bound hl (2 ^ 32) ltac:(lia)).
  pose proof (Z.div_mod ll (2 ^ 32) ltac:(lia)). pose proof (Z.mod_pos_bound ll (2 ^ 32) ltac:(lia)).
  assert (0 <= hl / 2 ^ 32 <= 2 ^ 32 - 2) by (Z.to_euclidean_division_equations; lia).
  assert (0 <= ll / 2 ^ 32 <= 2 ^ 32 - 2) by (Z.to_euclidean_division_equations; lia).
  rewrite (u64_id (hh + _)), (u64_id (_ + lh)), (u64_id (_ + ll / 2 ^ 32)) by lia.
  set (mid := hl mod 2 ^ 32 + lh + ll / 2 ^ 32). assert (Hmid : 0 <= mid < 2 ^ 64) by (unfold mid; lia).
  pose proof (Z.div_mod mid (2 ^ 32) ltac:(lia)). pose proof (Z.mod_pos_bound mid (2 ^ 32) ltac:(lia)).
  assert (0 <= mid / 2 ^ 32 < 2 ^ 32) by (split; [apply Z.div_pos; lia|apply Z.div_lt_upper_bound; lia]).
  assert (Eu : u64 (mid * 2 ^ 32) = mid mod 2 ^ 32 * 2 ^ 32)
    by (unfold u64; change (2 ^ 64) with (2 ^ 32 * 2 ^ 32); by rewrite Z.mul_mod_distr_r by lia).
  rewrite Eu, (u64_id (mid mod 2 ^ 32 * 2 ^ 32 + _)) by lia.
  assert (Hhigh : 0 <= hh + hl / 2 ^ 32 + mid / 2 ^ 32 < 2 ^ 64) by lia.
  rewrite u64_id by lia. unfold mid in *. lia.
Qed.

Lemma dec_encode_spec negative high low e :
  0 <= high < 10 ^ 17 -> 0 <= low < 10 ^ 18 -> high * 10 ^ 17 + low < 10 ^ 34 -> -6176 <= e <= 6111 ->
  dec_encode negative high low e = dec_bits (DFinite negative (high * 10 ^ 17 + low) e).
Proof.
  intros Hh Hl Hc He. unfold dec_encode. change 100000000000000000 with (10 ^ 17).
  pose proof (mul_64x64_exact high (10 ^ 17) ltac:(unfold is_u64; lia) ltac:(unfold is_u64; lia)) as Hm.
  destruct (_mul_64x64 high (10 ^ 17)) as [ph pl]. destruct Hm as (Hph & Hpl & Hp). unfold is_u64 in *.
  set (c := high * 10 ^ 17 + low) in *. set (l := u64 (pl + low)).
  assert (Hcl : (if l <? low then u64 (ph + 1) else ph) = c / 2 ^ 64 /\ l = c mod 2 ^ 64).
  { assert (Hc' : c = ph * 2 ^ 64 + (pl + low)) by (unfold c; lia). clearbody c. subst c. unfold l, u64.
    destruct (Z.ltb_spec ((pl + low) mod 2 ^ 64) low); split; change (2 ^ 64) with 18446744073709551616 in *;
      Z.to_euclidean_division_equations; lia. }
  destruct Hcl as [-> ->].
  assert (Hch : 0 <= c / 2 ^ 64 < 2 ^ 49) by (split; [apply Z.div_pos; lia|apply Z.div_lt_upper_bound; lia]).
  assert (Ht : Z.testbit (c / 2 ^ 64) 49 = false).
  { rewrite Z.testbit_false by lia. rewrite (Z.div_small (c / 2 ^ 64)) by lia. done. }
  rewrite Ht. unfold BSON_DECIMAL128_EXPONENT_BIAS. rewrite (Z.mod_small (e + 6176)) by lia.
  change 0x3fff with (Z.ones 14). change 0x1ffffffffffff with (Z.ones 49). rewrite !Z.land_ones by lia.
  rewrite (Z.mod_small (e + 6176)), (Z.mod_small (c / 2 ^ 64)), Z.shiftl_mul_pow2, u64_id by lia.
  rewrite (lor_disjoint 49) by lia. unfold dec_bits. destruct negative; cbn [Z.b2z].
  - change 0x8000000000000000 with (1 * 2 ^ 63). rewrite Z.lor_comm, (lor_disjoint 63) by lia. f_equal. lia.
  - f_equal.
Qed.

(** The number the digits of a text stand for. *)
Lemma undec_cons c s : undec (c :: s) = char_digit c * 10 ^ zlen s + undec s.
Proof. change (c :: s) with ([c] ++ s). rewrite undec_app. unfold undec at 1, char_digit. cbn. lia. Qed.

Lemma undec_range s : digits_only s -> 0 <= undec s < 10 ^ zlen s.
Proof.
  induction 1 as [|c s Hc _ IH]; [done|]. rewrite undec_cons, zlen_cons, Z.pow_add_r by zl.
  apply char_digit_inv in Hc as [_ Hc]. change (10 ^ 1) with 10. nia.
Qed.

Lemma digit_at_spec s i :
  zlen s <= 34 -> digits_only s -> 0 <= i < zlen s ->
  exists c, s !! Z.to_nat i = Some c /\ digit_at (map char_digit s) i = Some (char_digit c) /\ 0 <= char_digit c < 10.
Proof.
  intros Hs Hd Hi. destruct (lookup_lt_is_Some_2 s (Z.to_nat i)) as [c Hc]; [unfold zlen in Hi; lia|].
  exists c. split; [done|]. unfold digit_at, BSON_DECIMAL128_MAX_DIGITS.
  destruct (Z.leb_spec 0 i); [|lia]. destruct (Z.ltb_spec i 34); [|lia]. cbn [andb]. split.
  - f_equal. rewrite nth_lookup. change (map char_digit s) with (fmap char_digit s).
    by rewrite list_lookup_fmap, Hc.
  - apply char_digit_inv. unfold digits_only in Hd. rewrite Forall_lookup in Hd. by eapply Hd.
Qed.

Lemma digits_value_spec s n : forall i acc,
  zlen s <= 34 -> digits_only s -> 0 <= i -> i + Z.of_nat n <= zlen s ->
  0 <= acc -> acc * 10 ^ Z.of_nat n + 10 ^ Z.of_nat n <= 10 ^ 19 ->
  dec_digits_value n (map char_digit s) i acc =
  Some (acc * 10 ^ Z.of_nat n + undec (take n (drop (Z.to_nat i) s))).
Proof.
  induction n as [|n IH]; intros i acc Hs Hd Hi Hin Hacc Hfit; cbn [dec_digits_value].
  - rewrite take_0. change (undec []) with 0. change (10 ^ Z.of_nat 0) with 1. do 2 f_equal. lia.
  - rewrite Nat2Z.inj_succ, Z.pow_succ_r in Hfit |- * by lia.
    destruct (digit_at_spec s i Hs Hd ltac:(lia)) as (c & Hc & -> & Hr). sbind.
    assert (0 < 10 ^ Z.of_nat n) by lia.
    rewrite (u64_id (acc * 10)) by nia. rewrite u64_id by nia.
    rewrite IH by (try done; try lia; nia).
    rewrite (drop_S s c (Z.to_nat i)) by done. cbn [take]. rewrite undec_cons.
    replace (Z.to_nat (i + 1)) with (S (Z.to_nat i)) by lia. f_equal.
    assert (Ez : zlen (take n (drop (S (Z.to_nat i)) s)) = Z.of_nat n)
      by (unfold zlen in *; rewrite length_take, length_drop; lia).
    rewrite Ez. lia.
Qed.

Lemma dec_significand_spec s sd :
  digits_only s -> 1 <= zlen s <= 34 -> sd <> 0 ->
  exists high low, dec_significand (map char_digit s) sd (zlen s - 1) = Some (high, low) /\
    0 <= high < 10 ^ 17 /\ 0 <= low < 10 ^ 18 /\ high * 10 ^ 17 + low = undec s.
Proof.
  intros Hd Hs Hsd. unfold dec_significand. destruct (Z.eqb_spec sd 0); [done|].
  destruct (digit_at_spec s 0 ltac:(lia) Hd ltac:(lia)) as (c & Hc & -> & Hr). sbind.
  destruct s as [|x s']; [done|]. injection Hc as ->. apply Forall_cons in Hd as [Hdc Hd'].
  assert (Hd : digits_only (c :: s')) by by constructor. rewrite zlen_cons in Hs |- *.
  replace (1 + zlen s' - 1) with (zlen s') by lia.
  destruct (Z.ltb_spec (zlen s') 17) as [H17|H17].
  - assert (Hp : 10 ^ zlen s' <= 10 ^ 16) by (apply Z.pow_le_mono_r; lia).
    rewrite digits_value_spec; try done; rewrite ?zlen_cons, ?Z2Nat.id by lia; try lia; [|nia].
    sbind. exists 0, (undec (c :: s')). rewrite undec_cons. pose proof (undec_range s' Hd').
    change (drop (Z.to_nat 1) (c :: s')) with s'. rewrite to_nat_zlen, firstn_all.
    split; [done|]. split; [done|]. split; [|lia]. nia.
  - destruct (split_at s' (zlen s' - 17) ltac:(lia)) as (p & q & -> & Hp & Hq).
    destruct q as [|y l]; [rewrite zlen_nil in Hq; lia|]. rewrite zlen_cons in Hq. rewrite zlen_app, zlen_cons in *.
    assert (Hl : zlen l = 16) by lia.
    assert (Hpl : digits_only p /\ digits_only l /\ 0 <= char_digit y < 10).
    { apply Forall_app in Hd' as [? Hyl]. apply Forall_cons in Hyl as [Hy ?]. split; [done|]. split; [done|]. by apply char_digit_inv. }
    destruct Hpl as (Hdp & Hdl & Hy).
    assert (Hp16 : 10 ^ zlen p <= 10 ^ 16) by (apply Z.pow_le_mono_r; lia). pose proof (zlen_nonneg p) as Hp0.
    set (s := c :: p ++ y :: l) in *.
    assert (Hz : zlen s = zlen p + 18) by (unfold s; rewrite zlen_cons, zlen_app, zlen_cons; lia).
    replace (zlen p + (1 + zlen l) - 17) with (zlen p) by lia.
    rewrite digits_value_spec; try done; rewrite ?Hz, ?to_nat_zlen; try lia; try (unfold zlen; lia); [|fold (zlen p); nia]. sbind.
    destruct (digit_at_spec s (zlen p + 1) ltac:(lia) Hd ltac:(lia)) as (y' & Hy' & -> & _). sbind.
    assert (y' = y) as ->.
    { unfold s in Hy'. replace (Z.to_nat (zlen p + 1)) with (S (length p)) in Hy' by (unfold zlen; lia).
      change ((p ++ y :: l) !! length p = Some y') in Hy'. rewrite list_lookup_middle in Hy' by done. by injection Hy'. }
    rewrite digits_value_spec; try done; rewrite ?Hz; try lia; [|change (Z.of_nat (Z.to_nat 16)) with 16; lia]. sbind.
    replace (drop (Z.to_nat (zlen p + 2)) s) with l.
    2: { unfold s, zlen. replace (Z.to_nat (Z.of_nat (length p) + 2)) with (S (length p + 1)) by lia. cbn [drop].
         by rewrite drop_app_add. }
    change (drop (Z.to_nat 1) s) with (p ++ y :: l). rewrite take_app_length.
    rewrite (take_ge l) by (unfold zlen in Hl; lia).
    exists (undec (c :: p)), (undec (y :: l)). rewrite !undec_cons. fold (zlen p). rewrite Hl.
    split; [done|]. pose proof (undec_range p Hdp). pose proof (undec_range l Hdl). rewrite Hl in *.
    split; [nia|]. split; [change (Z.of_nat (Z.to_nat 16)) with 16; lia|].
    unfold s. rewrite undec_cons, undec_app, undec_cons, zlen_app, zlen_cons, Hl.
    change (Z.of_nat (Z.to_nat 16)) with 16. rewrite Z.pow_add_r by lia. lia.
Qed.

(** ** Reading digits *)

Definition not_zero_head (s : bytes) : Prop := match s with [] => True | c :: _ => c <> z2b 48 end.

(** The state after [k] zeros and the digits [y]. *)
Record scanned (k : nat) (y : bytes) (s : dec_scan) : Prop := {
  scanned_nonzero : s_nonzero s = negb (bool_decide (y = []));
  scanned_read : s_ndigits_read s = Z.of_nat k + zlen y;
  scanned_ndigits : s_ndigits s = zlen y;
  scanned_first : s_first_nonzero s = (if bool_decide (y = []) then 0 else Z.of_nat k);
  scanned_digits : s_digits s = map char_digit y;
}.

Lemma scan_zero k s : scanned k [] s -> scanned (S k) [] (scan_digit s (z2b 48)).
Proof.
  intros [H1 H2 H3 H4 H5]. rewrite zlen_nil in *. cbn [map negb] in *.
  rewrite bool_decide_true in H1 by done. cbn [negb] in H1. unfold scan_digit. rewrite H1, H5.
  change (byte_eqb (z2b 48) (z2b 48)) with true. cbn [negb orb andb].
  rewrite andb_false_r. cbn [orb andb]. split; cbn; rewrite ?zlen_nil; try done; lia.
Qed.

Lemma bool_decide_snoc (y : bytes) c : bool_decide (y ++ [c] = []) = false.
Proof. apply bool_decide_false. by destruct y. Qed.

Lemma scan_next k y s c :
  scanned k y s -> (y = [] -> c <> z2b 48) -> zlen y < 34 -> scanned k (y ++ [c]) (scan_digit s c).
Proof.
  intros [H1 H2 H3 H4 H5] Hc Hy. unfold scan_digit, BSON_DECIMAL128_MAX_DIGITS. rewrite H1, H5, zlen_map.
  destruct (Z.ltb_spec (zlen y) 34); [|lia].
  assert (E : negb (byte_eqb c (z2b 48)) || negb (bool_decide (y = [])) = true).
  { destruct (bool_decide_reflect (y = [])) as [Ey|Ey]; [|by rewrite orb_true_r].
    by rewrite (byte_eqb_neq c) by by apply Hc. }
  rewrite E. cbn [andb orb]. split; cbn [s_nonzero s_ndigits_read s_ndigits s_first_nonzero s_digits];
    rewrite ?bool_decide_snoc, ?zlen_app, ?zlen_1; try lia.
  - rewrite negb_involutive. destruct (bool_decide_reflect (y = [])) as [Ey|Ey]; [|done].
    rewrite H2, Ey, zlen_nil. lia.
  - by rewrite map_app.
Qed.

(** After [i] characters of [k] zeros and the digits [t]. *)
Definition at_prefix (k : nat) (t : bytes) (i : nat) (s : dec_scan) : Prop :=
  scanned (Nat.min i k) (take (i - k) t) s.

Lemma scan_chunk k t chunk : forall pre post s,
  not_zero_head t -> zlen t <= 34 -> replicate k (z2b 48) ++ t = pre ++ chunk ++ post ->
  at_prefix k t (length pre) s -> at_prefix k t (length pre + length chunk) (foldl scan_digit s chunk).
Proof.
  induction chunk as [|c chunk IH]; intros pre post s Ht Hz E Hs; [by rewrite Nat.add_0_r|].
  cbn [foldl]. rewrite (app_assoc pre [c] (chunk ++ post) : pre ++ (c :: chunk) ++ post = _) in E.
  assert (Hx : (replicate k (z2b 48) ++ t) !! length pre = Some c)
    by (rewrite E, lookup_app_l by (rewrite length_app; cbn; lia); by rewrite list_lookup_middle).
  replace (length pre + length (c :: chunk))%nat with (length (pre ++ [c]) + length chunk)%nat by (rewrite length_app; cbn; lia).
  apply (IH (pre ++ [c]) post); [done|done|done|]. rewrite length_app. cbn [length]. unfold at_prefix in *.
  destruct (decide (length pre < k)%nat) as [Hk|Hk].
  - rewrite lookup_app_l, lookup_replicate_2 in Hx by (rewrite ?length_replicate; lia). injection Hx as <-.
    replace (length pre - k)%nat with O in Hs by lia. replace (length pre + 1 - k)%nat with O by lia.
    rewrite Nat.min_l in Hs |- * by lia. rewrite Nat.add_1_r. by apply scan_zero.
  - rewrite lookup_app_r, length_replicate in Hx by (rewrite length_replicate; lia).
    rewrite Nat.min_r in Hs |- * by lia.
    replace (length pre + 1 - k)%nat with (S (length pre - k)) by lia. rewrite (take_S_r _ _ c) by done.
    apply scan_next; [done| |].
    + intros Ey. destruct t as [|x t]; [by rewrite lookup_nil in Hx|].
      destruct (length pre - k)%nat as [|j]; [|done]. injection Hx as ->. exact Ht.
    + apply lookup_lt_Some in Hx. unfold zlen in *. rewrite length_take. lia.
Qed.

Lemma scan_position t : forall s,
  s_read (foldl scan_digit s t) = s_read s + zlen t /\ s_radix (foldl scan_digit s t) = s_radix s /\
  s_radix_position (foldl scan_digit s t) = s_radix_position s + (if s_radix s then zlen t else 0).
Proof.
  induction t as [|c t IH]; intros s; [cbn [foldl]; rewrite zlen_nil; destruct (s_radix s); rewrite !Z.add_0_r; done|].
  cbn [foldl]. destruct (IH (scan_digit s c)) as (-> & -> & ->). rewrite zlen_cons. cbn.
  split; [lia|]. split; [done|]. destruct (s_radix s); lia.
Qed.

Lemma digit_not_point c : isdigit c = true -> byte_eqb c (z2b 46) = false.
Proof. intros H. apply byte_eqb_neq. intros ->. by vm_compute in H. Qed.

(** The loop over digits. *)
Lemma scan_loop_digits t : forall fuel pre post s,
  digits_only t -> s_read s = zlen pre -> (length t <= fuel)%nat ->
  scan_loop fuel (pre ++ t ++ post) (-1) s =
  scan_loop (fuel - length t) (pre ++ t ++ post) (-1) (foldl scan_digit s t).
Proof.
  induction t as [|c t IH]; intros fuel pre post s Ht Hs Hf; [cbn [length]; by rewrite Nat.sub_0_r|].
  apply Forall_cons in Ht as [Hc Ht]. destruct fuel as [|fuel]; [cbn in Hf; lia|]. cbn [scan_loop length foldl Nat.sub].
  change ((c :: t) ++ post) with (c :: t ++ post). rewrite rd_at by done. sbind. rewrite Hc, (digit_not_point c Hc). cbn [orb andb].
  change (-1 =? -1) with true. cbn [orb].
  rewrite (app_assoc pre [c] (t ++ post) : pre ++ c :: t ++ post = _).
  apply IH; [done| |cbn in Hf; lia]. cbn. rewrite zlen_app, zlen_1. lia.
Qed.

Definition ends_digits (post : bytes) : Prop :=
  exists c post', post = c :: post' /\ isdigit c = false /\ c <> z2b 46.

Lemma scan_loop_stop fuel pre post s :
  ends_digits post -> s_read s = zlen pre -> scan_loop fuel (pre ++ post) (-1) s = Some (Some s).
Proof.
  intros (c & post' & -> & Hc & Hp) Hs. destruct fuel; cbn [scan_loop]; rewrite rd_at by done; sbind;
    by rewrite Hc, (byte_eqb_neq _ _ Hp).
Qed.

Definition point_text (point : bool) (s : bytes) : bytes := if point then txt "." ++ s else [].

Definition scan_point (s : dec_scan) : dec_scan :=
  Scan (s_read s + 1) true (s_nonzero s) (s_ndigits_read s) (s_ndigits s) (s_radix_position s) (s_first_nonzero s) (s_digits s).

Lemma scan_loop_point fuel pre post s :
  s_read s = zlen pre -> s_radix s = false ->
  scan_loop (S fuel) (pre ++ z2b 46 :: post) (-1) s = scan_loop fuel (pre ++ z2b 46 :: post) (-1) (scan_point s).
Proof. intros Hs Hr. cbn [scan_loop]. rewrite rd_at by done. sbind. rewrite Hr. reflexivity. Qed.

Lemma scan_body pre a b post point k t fuel :
  digits_only a -> digits_only b -> a ++ b = replicate k (z2b 48) ++ t -> not_zero_head t -> zlen t <= 34 ->
  (point = false -> b = []) -> ends_digits post -> (length a + length b + 1 <= fuel)%nat ->
  exists s, scan_loop fuel (pre ++ a ++ point_text point b ++ post) (-1) (Scan (zlen pre) false false 0 0 0 0 []) = Some (Some s) /\
    scanned k t s /\ s_read s = zlen (pre ++ a ++ point_text point b) /\ s_radix s = point /\ s_radix_position s = zlen b.
Proof.
  intros Ha Hb E Ht Hz Hpoint Hpost Hf. set (s0 := Scan (zlen pre) false false 0 0 0 0 []).
  assert (H0 : at_prefix k t 0 s0) by (split; done).
  rewrite scan_loop_digits by (done || lia).
  pose proof (scan_chunk k t a [] b s0 Ht Hz (eq_sym E) H0) as H1. cbn [length Nat.add] in H1.
  destruct (scan_position a s0) as (Er & Ex & Ep). cbn [s_read s_radix s_radix_position s0] in Er, Ex, Ep.
  set (s1 := foldl scan_digit s0 a) in *.
  assert (Hdone : forall s, at_prefix k t (length a + length b) s -> scanned k t s).
  { intros s H. unfold at_prefix in H. apply (f_equal length) in E. rewrite !length_app, length_replicate in E.
    rewrite Nat.min_r, take_ge in H by lia. done. }
  destruct point; cbn [point_text].
  - destruct (fuel - length a)%nat as [|f] eqn:Ef; [lia|].
    change ((txt "." ++ b) ++ post) with (z2b 46 :: b ++ post). rewrite (app_assoc pre a).
    rewrite scan_loop_point by (rewrite ?Er, ?zlen_app; done).
    rewrite (app_assoc (pre ++ a) [z2b 46] (b ++ post) : (pre ++ a) ++ z2b 46 :: b ++ post = _).
    set (pre2 := (pre ++ a) ++ [z2b 46]).
    assert (Er2 : s_read (scan_point s1) = zlen pre2) by (cbn; unfold pre2; rewrite !zlen_app, zlen_1; lia).
    rewrite scan_loop_digits by (done || lia). rewrite (app_assoc pre2 b).
    destruct (scan_position b (scan_point s1)) as (Er3 & Ex3 & Ep3).
    rewrite scan_loop_stop; [|done|rewrite zlen_app; lia].
    exists (foldl scan_digit (scan_point s1) b). split; [done|].
    split; [apply Hdone; apply (scan_chunk k t b a []); [done|done|by rewrite app_nil_r|by destruct H1]|].
    rewrite Er3, Ex3, Ep3. cbn [s_read s_radix s_radix_position scan_point]. rewrite Er, Ep, !zlen_app. change (zlen (txt ".")) with 1. split; [lia|]. split; [done|lia].
  - rewrite Hpoint in * by done. cbn [app]. rewrite (app_assoc pre a), scan_loop_stop; [|done|rewrite zlen_app; lia].
    exists s1. split; [done|]. split; [apply Hdone; by rewrite Nat.add_0_r|].
    rewrite Er, Ex, Ep, app_nil_r, zlen_app. change (zlen (@nil byte)) with 0. split; [lia|]. split; [done|lia].
Qed.

(** ** The exponent *)

Lemma scan_digits_stop t post : digits_only t -> scan_digits (t ++ x00 :: post) = Some t.
Proof.
  induction 1 as [|c t Hc _ IH]; [done|]. cbn [app scan_digits]. rewrite Hc, IH. done.
Qed.

Lemma sscanf_signed z post :
  - 10 ^ 4 < z < 10 ^ 4 -> sscanf_d64 (signed_dec z ++ x00 :: post) = Some (Some (z, zlen (signed_dec z))).
Proof.
  intros Hz. unfold signed_dec. set (sign := if z <? 0 then txt "-" else txt "+"). set (ds := dec (Z.abs z)).
  assert (Hds : digits_only ds) by apply dec_loop_digits.
  assert (Hv : undec ds = Z.abs z) by (apply undec_dec; lia).
  assert (Hn : ds <> []).
  { intros E. pose proof (dec_loop_size 20 (Z.abs z) 4) as H. change (dec_loop 20 (Z.abs z)) with ds in H.
    rewrite E in H. change (10 ^ Z.of_nat 4) with (10 ^ 4) in H. cbn in H. lia. }
  destruct ds as [|d ds'] eqn:Eds; [done|]. rewrite <- Eds in *.
  assert (Hm : Z.max (- 2 ^ 63) (Z.min z INT64_MAX) = z) by (unfold INT64_MAX; lia).
  unfold sscanf_d64, sign. rewrite zlen_app, <- app_assoc.
  destruct (Z.ltb_spec z 0).
  - change (sscanf_spaces (txt "-" ++ ds ++ x00 :: post)) with (Some (0, txt "-" ++ ds ++ x00 :: post)). sbind.
    change (rd (txt "-" ++ ds ++ x00 :: post) 0) with (Some (z2b 45)). sbind.
    rewrite (padd_at (txt "-")) by done. sbind. rewrite scan_digits_stop by done. sbind. rewrite Hv.
    change (byte_eqb (z2b 45) (z2b 45)) with true. rewrite orb_true_r. cbn [Z.b2z].
    replace (- Z.abs z) with z by lia. rewrite Hm, Eds. done.
  - change (sscanf_spaces (txt "+" ++ ds ++ x00 :: post)) with (Some (0, txt "+" ++ ds ++ x00 :: post)). sbind.
    change (rd (txt "+" ++ ds ++ x00 :: post) 0) with (Some (z2b 43)). sbind.
    rewrite (padd_at (txt "+")) by done. sbind. rewrite scan_digits_stop by done. sbind. rewrite Hv.
    change (byte_eqb (z2b 43) (z2b 45)) with false. change (byte_eqb (z2b 43) (z2b 43)) with true. cbn [orb Z.b2z].
    replace (Z.abs z) with z by lia. rewrite Hm, Eds. done.
Qed.

(** The exponent written after the digits. *)
Definition exponent_text (x : option Z) : bytes := match x with None => [] | Some z => txt "E" ++ signed_dec z end.

Lemma dec_exponent_text pre x post :
  match x with Some z => - 10 ^ 4 < z < 10 ^ 4 | None => True end ->
  dec_exponent (pre ++ exponent_text x ++ x00 :: post) (zlen pre) =
  Some (Some (default 0 x, zlen pre + zlen (exponent_text x))).
Proof.
  intros Hx. unfold dec_exponent. destruct x as [z|]; cbn [exponent_text default].
  - change ((txt "E" ++ signed_dec z) ++ x00 :: post) with (z2b 69 :: signed_dec z ++ x00 :: post).
    rewrite rd_at by done. sbind. change (byte_eqb (z2b 69) (z2b 101) || byte_eqb (z2b 69) (z2b 69)) with true. cbn iota.
    rewrite (app_assoc pre [z2b 69] (signed_dec z ++ x00 :: post) : pre ++ z2b 69 :: signed_dec z ++ x00 :: post = _).
    rewrite padd_at by (rewrite zlen_app, zlen_1; done). sbind. rewrite sscanf_signed by done. sbind.
    unfold INT32_MAX. destruct (Z.leb_spec (- 2 ^ 31) z); [|lia]. destruct (Z.leb_spec z (2 ^ 31 - 1)); [|lia].
    cbn [andb]. rewrite zlen_app. change (zlen (txt "E")) with 1. do 3 f_equal. lia.
  - cbn [app]. rewrite rd_at by done. sbind. change (zlen (@nil byte)) with 0. by rewrite Z.add_0_r.
Qed.

(** ** The value *)

Lemma trim_zeros_ok fuel string base q c : forall sd,
  0 <= base <= q -> q < base + sd <= zlen string -> rd string q = Some c -> c <> z2b 48 -> (Z.to_nat sd <= fuel)%nat ->
  exists r, trim_zeros fuel string base sd = Some r /\ q - base < r <= sd.
Proof.
  induction fuel as [|fuel IH]; intros sd Hb Hsd Hq Hc Hf; [lia|]. cbn [trim_zeros].
  destruct (proj2 (rd_is_Some string (base + sd - 1)) ltac:(lia)) as [c' Hc']. rewrite Hc'. sbind.
  destruct (byte_eqb c' (z2b 48)) eqn:E.
  - apply byte_eqb_spec in E. subst c'. assert (q <> base + sd - 1) by (intros ->; congruence).
    destruct (IH (sd - 1)) as (r & -> & Hr); [done|lia|done|done|lia|]. exists r. split; [done|lia].
  - exists sd. split; [done|lia].
Qed.

Lemma lower_exponent_id fuel sd e last : e <= 6111 -> lower_exponent fuel sd e last = Some (Some (e, last)).
Proof.
  intros He. destruct fuel; cbn [lower_exponent]; unfold BSON_DECIMAL128_EXPONENT_MAX;
    by destruct (Z.ltb_spec 6111 e); [lia|].
Qed.

Lemma raise_exponent_id fuel string skip digits sd e last ndigits :
  -6176 <= e -> ndigits <= zlen digits ->
  raise_exponent fuel string skip digits sd e last ndigits = Some (Some (e, last)).
Proof.
  intros He Hn. destruct fuel; cbn [raise_exponent]; unfold BSON_DECIMAL128_EXPONENT_MIN;
    destruct (Z.ltb_spec e (-6176)); try lia; by destruct (Z.ltb_spec (zlen digits) ndigits); [lia|].
Qed.

(** A position that stops the search for trailing zeros. *)
Definition stops (string : bytes) (base n : Z) : Prop :=
  exists q c, 0 <= base <= q /\ q < base + n <= zlen string /\ rd string q = Some c /\ c <> z2b 48.

Lemma from_scan_ok string s k t skip x negative e :
  scanned k t s -> digits_only t -> zlen t <= 34 -> 0 <= s_radix_position s < 10 ^ 4 -> - 10 ^ 4 < x < 10 ^ 4 ->
  x - s_radix_position s = e -> -6176 <= e <= 6111 -> (t <> [] -> stops string (Z.of_nat k + skip) (zlen t)) ->
  dec_from_scan string s skip x negative = Some (Some (dec_bits (DFinite negative (undec t) e))).
Proof.
  intros [_ _ Hn Hfirst Hdig] Hd Hz Hrp Hx Ee He Hstop. unfold dec_from_scan, dec_finish.
  assert (Eexp : (if x <=? s_radix_position s
     then limit ← int_ok (x + Z.shiftl 1 14);
          if limit <? s_radix_position s then Some BSON_DECIMAL128_EXPONENT_MIN
          else if s_radix_position s <=? INT32_MAX then int_ok (x - s_radix_position s) else None
     else if s_radix_position s <=? INT32_MAX then int_ok (x - s_radix_position s) else None) = Some e).
  { rewrite Ee. change (Z.shiftl 1 14) with 16384. rewrite !int_ok_id by lia. sbind. unfold INT32_MAX.
    destruct (Z.leb_spec (s_radix_position s) (2 ^ 31 - 1)); [|lia].
    destruct (Z.leb_spec x (s_radix_position s)); [|done]. destruct (Z.ltb_spec (x + 16384) (s_radix_position s)); [lia|done]. }
  rewrite Hdig, Hn, Hfirst. destruct t as [|c t'].
  - cbn [map]. sbind. rewrite Eexp. sbind. rewrite lower_exponent_id by lia. sbind.
    rewrite raise_exponent_id by (rewrite ?zlen_1; lia). sbind.
    change (zlen [0] - 1 + 1 <? 0) with false. sbind. cbn [negb]. unfold dec_significand. change (0 =? 0) with true. sbind.
    by rewrite dec_encode_spec by lia.
  - destruct (Hstop ltac:(done)) as (q & ch & Hq & Hq' & Hrd & Hch). set (t := c :: t') in *.
    rewrite bool_decide_false by done. cbn [map]. fold (map char_digit t'). change (char_digit c :: map char_digit t') with (map char_digit t).
    change (match map char_digit t with [] => true | _ => false end) with false.
    destruct (trim_zeros_ok (Z.to_nat (zlen t)) string (Z.of_nat k + skip) q ch (zlen t)) as (sd & -> & Hsd); [done..|].
    sbind. rewrite Eexp. sbind. rewrite lower_exponent_id by lia. sbind. rewrite zlen_map.
    rewrite raise_exponent_id by (rewrite ?zlen_map; lia). sbind.
    destruct (Z.ltb_spec (zlen t - 1 + 1) sd); [lia|]. sbind. cbn [negb].
    destruct (dec_significand_spec t sd Hd) as (high & low & -> & Hh & Hl & Ev);
      [unfold t in *; rewrite zlen_cons in *; pose proof (zlen_nonneg t'); lia|lia|].
    sbind. rewrite dec_encode_spec by (try done; rewrite Ev; pose proof (undec_range t Hd); 
      assert (10 ^ zlen t <= 10 ^ 34) by (apply Z.pow_le_mono_r; lia); lia). by rewrite Ev.
Qed.

(** ** The whole text *)

(** The parts of a text of digits [t] with the exponent [e]: before the point, the
    point, after it, the exponent. *)
Record parts (t : bytes) (e : Z) (a b : bytes) (point : bool) (k : nat) (x : option Z) : Prop := {
  parts_text : finite_text t e = a ++ point_text point b ++ exponent_text x;
  parts_a : digits_only a; parts_b : digits_only b;
  parts_digits : a ++ b = replicate k (z2b 48) ++ t;
  parts_nonempty : a <> [];
  parts_point : point = false -> b = [];
  parts_exponent : default 0 x - zlen b = e;
  parts_x : match x with Some z => - 10 ^ 4 < z < 10 ^ 4 | None => True end;
  parts_b_length : zlen b < 10 ^ 4;
  parts_zeros : k = O \/ (a = txt "0" /\ point = true);
}.

Lemma point_nonempty b : point_text (negb (bool_decide (b = []))) b = if zlen b =? 0 then [] else txt "." ++ b.
Proof.
  destruct b as [|c b]; [done|]. rewrite bool_decide_false by done. cbn [negb point_text].
  destruct (Z.eqb_spec (zlen (c :: b)) 0) as [E|E]; [|done]. rewrite zlen_cons in E. pose proof (zlen_nonneg b). lia.
Qed.

Lemma finite_parts t e :
  digits_only t -> 1 <= zlen t <= 34 -> -6176 <= e <= 6111 -> exists a b point k x, parts t e a b point k x.
Proof.
  intros Hd Hz He. destruct ((zlen t - 1 + e <? -6) || (0 <? e)) eqn:Esci.
  - exists (take 1 t), (drop 1 t), (negb (bool_decide (drop 1 t = []))), O, (Some (zlen t - 1 + e)).
    assert (Hb : zlen (drop 1 t) = zlen t - 1) by (unfold zlen in *; rewrite length_drop; lia).
    split; try (apply Forall_take || apply Forall_drop; done); try lia.
    + unfold finite_text. rewrite Esci, point_nonempty, Hb. cbn [exponent_text].
      destruct (Z.eqb_spec (zlen t) 1), (Z.eqb_spec (zlen t - 1) 0); try lia; [done|by rewrite <- !app_assoc].
    + by rewrite take_drop.
    + destruct t; [done|]. done.
    + intros H. by apply negb_false_iff, bool_decide_eq_true in H.
    + rewrite Hb. cbn. lia.
  - rewrite orb_false_iff, !Z.ltb_ge in Esci. destruct (Z.eqb_spec e 0) as [-> |He0].
    { exists t, [], false, O, None. assert (H0 : finite_text t 0 = t).
      { unfold finite_text. replace ((zlen t - 1 + 0 <? -6) || (0 <? 0)) with false; [done|].
        symmetry. rewrite orb_false_iff, !Z.ltb_ge. lia. }
      split; try done; [by rewrite H0; cbn [point_text exponent_text app]; rewrite app_nil_r|by apply Forall_nil_2|by rewrite app_nil_r|intros ->; rewrite zlen_nil in Hz; lia|by left]. }
    pose proof (finite_text_radix t e ltac:(lia) ltac:(lia)) as E. destruct (Z.ltb_spec 0 (zlen t + e)) as [Hr|Hr].
    + exists (take (Z.to_nat (zlen t + e)) t), (drop (Z.to_nat (zlen t + e)) t), true, O, None.
      assert (Hb : zlen (drop (Z.to_nat (zlen t + e)) t) = - e) by (rewrite zlen_drop by lia; lia).
      split; try (apply Forall_take || apply Forall_drop; done); try done; try lia.
      * rewrite E. replace (Z.to_nat (- (zlen t + e))) with O by lia. cbn [replicate app point_text exponent_text].
        by rewrite app_nil_r.
      * by rewrite take_drop.
      * intros H%(f_equal zlen). rewrite zlen_take in H by lia. change (zlen (@nil byte)) with 0 in H. lia.
      * rewrite Hb. cbn. lia.
    + exists (txt "0"), (replicate (Z.to_nat (- (zlen t + e))) (z2b 48) ++ t), true, (S (Z.to_nat (- (zlen t + e)))), None.
      assert (Hb : zlen (replicate (Z.to_nat (- (zlen t + e))) (z2b 48) ++ t) = - e)
        by (rewrite zlen_app, zlen_replicate; lia).
      split; try done; try lia.
      * rewrite E. replace (Z.to_nat (zlen t + e)) with O by lia. cbn [point_text exponent_text].
        by rewrite app_nil_r, drop_0.
      * by repeat constructor.
      * apply Forall_app. split; [by apply Forall_replicate|done].
      * rewrite Hb. cbn. lia.
      * by right.
Qed.

(** The digits of a coefficient, after [k] zeros: none of them when it is zero. *)
Lemma coefficient_digits c k :
  0 <= c < 10 ^ 34 ->
  exists k' t, replicate k (z2b 48) ++ dec_loop 34 c = replicate k' (z2b 48) ++ t /\ not_zero_head t /\ digits_only t /\
    zlen t <= 34 /\ undec t = c /\ 0 < Z.of_nat k' + zlen t /\ (t <> [] -> k' = k /\ t = dec_loop 34 c).
Proof.
  intros Hc. destruct (Z.eqb_spec c 0) as [-> |Hc0].
  - exists (S k), []. change (dec_loop 34 0) with ([z2b 48]). rewrite <- replicate_cons_app. cbn [replicate].
    rewrite app_nil_r, zlen_nil. split; [done|]. split; [done|]. split; [by apply Forall_nil_2|].
    split; [lia|]. split; [done|]. split; [lia|done].
  - exists k, (dec_loop 34 c).
    pose proof (dec_loop_size 34 c 34 ltac:(change (10 ^ Z.of_nat 34) with (10 ^ 34); lia) ltac:(lia) ltac:(lia)) as Hl.
    destruct (dec_loop_head 34 c) as (d & t & E & Hd); [change (10 ^ Z.of_nat 34) with (10 ^ 34); lia|].
    split; [done|]. split; [by rewrite E|]. split; [apply dec_loop_digits|]. split; [unfold zlen; lia|].
    split; [apply undec_dec_loop; [change (10 ^ Z.of_nat 34) with (10 ^ 34); lia|lia]|].
    split; [unfold zlen; lia|done].
Qed.

Lemma ends_digits_exponent x post : ends_digits (exponent_text x ++ x00 :: post).
Proof. destruct x as [z|]; cbn [exponent_text]; [exists (z2b 69), (signed_dec z ++ x00 :: post)|exists x00, post]; done. Qed.

(** The search for trailing zeros of the digits read ends at the point or at the first
    digit. *)
Lemma parts_stops t e a b point k x pre post :
  parts t e a b point k x -> not_zero_head t -> t <> [] -> digits_only t ->
  stops (pre ++ a ++ point_text point b ++ post) (Z.of_nat k + (zlen pre + Z.b2z point)) (zlen t).
Proof.
  intros [_ _ _ E Ha Hp _ _ _ Hk] Ht Hne Hd. destruct t as [|d t']; [done|]. unfold not_zero_head in Ht. set (t := d :: t') in *.
  assert (Hl : zlen a + zlen b = Z.of_nat k + zlen t) by (apply (f_equal zlen) in E; rewrite !zlen_app, zlen_replicate in E; done).
  assert (Ht1 : 1 <= zlen t) by (unfold t; rewrite zlen_cons; pose proof (zlen_nonneg t'); lia).
  pose proof (zlen_nonneg pre). pose proof (zlen_nonneg post). pose proof (zlen_nonneg b).
  assert (Ha1 : 1 <= zlen a) by (destruct a; [done|]; rewrite zlen_cons; pose proof (zlen_nonneg a); lia).
  destruct point; cbn [point_text Z.b2z].
  - destruct Hk as [-> | [-> _]].
    + exists (zlen pre + zlen a), (z2b 46). rewrite !zlen_app. change (zlen (txt ".")) with 1.
      split; [lia|]. split; [lia|]. split; [|done]. rewrite app_assoc. change ((txt "." ++ b) ++ post) with (z2b 46 :: b ++ post).
      apply rd_at. by rewrite zlen_app.
    + destruct k as [|k]; [cbn in E; injection E as Ed _; done|]. injection E as E.
      exists (zlen pre + 2 + Z.of_nat k), d. rewrite E, !zlen_app, zlen_replicate. change (zlen (txt ".")) with 1.
      change (zlen (txt "0")) with 1. split; [lia|]. split; [lia|]. split; [|done].
      change (txt "0" ++ (txt "." ++ replicate k (z2b 48) ++ t) ++ post)
        with (txt "0." ++ ((replicate k (z2b 48) ++ d :: t') ++ post)). rewrite <- (app_assoc (replicate k _)), (app_assoc pre), (app_assoc (pre ++ txt "0.")).
      change ((d :: t') ++ post) with (d :: t' ++ post). apply rd_at. rewrite !zlen_app, zlen_replicate.
      change (zlen (txt "0.")) with 2. lia.
  - rewrite (Hp eq_refl) in *. destruct Hk as [-> | [_ Hk]]; [|done]. rewrite app_nil_r in E. cbn [replicate app] in E. subst a.
    exists (zlen pre), d. rewrite !zlen_app. cbn [app]. change (zlen (@nil byte)) with 0 in *. split; [lia|]. split; [lia|]. split; [|done].
    change (t ++ post) with (d :: t' ++ post). by apply rd_at.
Qed.

Lemma sign_head negative d rest :
  isdigit d = true ->
  exists c0, rd (sign_text negative ++ d :: rest) 0 = Some c0 /\
    byte_eqb c0 (z2b 43) || byte_eqb c0 (z2b 45) = negative /\ byte_eqb c0 (z2b 45) = negative /\
    rd (sign_text negative ++ d :: rest) (Z.b2z negative) = Some d.
Proof.
  intros Hd. destruct negative; [by exists (z2b 45)|]. exists d. split; [done|].
  rewrite !byte_eqb_neq; [done|by intros ->..].
Qed.

Lemma from_string_finite negative c e post :
  0 <= c < 10 ^ 34 -> -6176 <= e <= 6111 ->
  bson_decimal128_from_string (dec_text (DFinite negative c e) ++ x00 :: post) =
  Some (true, dec_bits (DFinite negative c e)).
Proof.
  intros Hc He. pose proof (dec_loop_digits 34 c) as Htd.
  pose proof (dec_loop_size 34 c 34 ltac:(change (10 ^ Z.of_nat 34) with (10 ^ 34); lia) ltac:(lia) ltac:(lia)) as Htl.
  destruct (finite_parts (dec_loop 34 c) e Htd ltac:(unfold zlen; lia) He) as (a & b & point & k & x & Hparts).
  pose proof Hparts as [Etext Ha Hb Edig Hne Hpoint Hexp Hx Hbl _].
  destruct (coefficient_digits c k Hc) as (k' & t & E & Hhead & Htd' & Htl' & Hval & Hpos & Hkt).
  set (pre := sign_text negative). set (tail := exponent_text x ++ x00 :: post).
  assert (Es : dec_text (DFinite negative c e) ++ x00 :: post = pre ++ a ++ point_text point b ++ tail)
    by (cbn [dec_text]; rewrite Etext; unfold pre, tail; by rewrite <- !app_assoc).
  assert (Hpre : zlen pre = Z.b2z negative) by (by destruct negative).
  assert (Hlen : (length a + length b + 1 <= length (pre ++ a ++ point_text point b ++ tail))%nat).
  { unfold tail. rewrite !length_app. cbn [length]. destruct point; cbn [point_text]; rewrite ?length_app; [lia|].
    rewrite (Hpoint eq_refl). cbn [length]. lia. }
  rewrite Es. set (string := pre ++ a ++ point_text point b ++ tail) in *.
  unfold bson_decimal128_from_string, bson_decimal128_from_string_w_len.
  destruct (scan_body pre a b tail point k' t (length string) Ha Hb) as (s & Hscan & Hs & Hread & Hradix & Hrp);
    [by rewrite Edig|done|done|done|apply ends_digits_exponent|done|]. fold string in Hscan.
  destruct a as [|d a'] eqn:Ea; [done|]. pose proof Ha as Hda. apply Forall_cons in Hda as [Hda _].
  destruct (sign_head negative d (a' ++ point_text point b ++ tail) Hda) as (c0 & H0 & Hsign & Hminus & Hd0).
  change (sign_text negative ++ d :: a' ++ point_text point b ++ tail) with string in H0, Hd0.
  rewrite H0. sbind. rewrite Hsign, Hminus, Hd0. sbind. rewrite Hda. cbn [negb andb].
  rewrite <- Hpre, Hscan. sbind. rewrite (scanned_read _ _ _ Hs).
  destruct (Z.eqb_spec (Z.of_nat k' + zlen t) 0); [lia|]. rewrite andb_false_r, Hread.
  assert (Es2 : string = (pre ++ (d :: a') ++ point_text point b) ++ exponent_text x ++ x00 :: post)
    by (unfold string, tail; by rewrite <- !app_assoc).
  rewrite Es2, dec_exponent_text by done. sbind. rewrite <- Es2. change (-1 =? -1) with true. cbn [orb].
  replace (rd string _) with (Some x00)
    by (symmetry; rewrite Es2, (app_assoc _ (exponent_text x)); apply rd_at; by rewrite (zlen_app _ (exponent_text x))).
  sbind. change (negb (byte_eqb x00 x00)) with false. cbn iota. rewrite Hradix.
  rewrite (from_scan_ok string s k' t _ (default 0 x) negative e); try done; rewrite ?Hrp; try lia.
  - sbind. by rewrite Hval.
  - pose proof (zlen_nonneg b). lia.
  - destruct x as [z|]; cbn; lia.
  - intros Hne'. destruct (Hkt Hne') as [-> ->]. by eapply parts_stops.
Qed.

(** The values that are written. *)
Definition decimal_ok (v : decimal) : Prop :=
  match v with DFinite _ c e => 0 <= c < 10 ^ 34 /\ -6176 <= e <= 6111 | _ => True end.

Lemma from_string_text v post :
  decimal_ok v -> bson_decimal128_from_string (dec_text v ++ x00 :: post) = Some (true, dec_bits v).
Proof.
  destruct v as [|negative|negative c e]; intros Hv.
  - reflexivity.
  - destruct negative; [|reflexivity]. unfold bson_decimal128_from_string, bson_decimal128_from_string_w_len.
    set (s := txt "Infinity" ++ x00 :: post). change (dec_text (DInf true) ++ x00 :: post) with (txt "-" ++ s).
    change (rd (txt "-" ++ s) 0) with (Some (z2b 45)). sbind.
    change (Z.b2z (byte_eqb (z2b 45) (z2b 43) || byte_eqb (z2b 45) (z2b 45))) with 1.
    replace (rd (txt "-" ++ s) 1) with (Some (z2b 73)) by (symmetry; by apply (rd_at (txt "-"))). sbind.
    rewrite (padd_at (txt "-") s) by done. reflexivity.
  - destruct Hv. by apply from_string_finite.
Qed.

Lemma dec_value_ok d : dec_ok d -> decimal_ok (dec_value d).
Proof.
  intros [Hh Hl]. unfold is_u64 in *. unfold dec_value.
  destruct (Z.eqb_spec (dec_combination d) 31); [done|]. destruct (Z.eqb_spec (dec_combination d) 30); [done|].
  assert (Hg : 0 <= dec_combination d < 32) by (apply Z.mod_pos_bound; lia).
  destruct (Z.eqb_spec (dec_combination d / 8) 3) as [E|E]; cbn [decimal_ok].
  - split; [lia|]. pose proof (field_range (dec_high d) 47 11 ltac:(lia) ltac:(lia) ltac:(lia)) as Hr.
    change (dec_high d / 2 ^ (47 + 11) mod 2 ^ (14 - 11)) with (dec_high d / 2 ^ 58 mod 8) in Hr.
    assert (E8 : dec_high d / 2 ^ 58 mod 8 <= 5)
      by (unfold dec_combination in *; generalize dependent (dec_high d / 2 ^ 58); intros; Z.to_euclidean_division_equations; lia).
    lia.
  - pose proof (field_range (dec_high d) 49 9 ltac:(lia) ltac:(lia) ltac:(lia)) as Hr.
    change (dec_high d / 2 ^ (49 + 9) mod 2 ^ (14 - 9)) with (dec_combination d) in Hr.
    assert (dec_combination d <= 23) by (Z.to_euclidean_division_equations; lia).
    pose proof (Z.mod_pos_bound (dec_high d) (2 ^ 49) ltac:(lia)).
    destruct (Z.ltb_spec (dec_coefficient d) (10 ^ 34)); unfold dec_coefficient in *; lia.
Qed.

(** The encoding written for a value stands for it. *)
Lemma dec_value_bits v : decimal_ok v -> dec_value (dec_bits v) = v.
Proof.
  destruct v as [|negative|negative c e]; [done|by destruct negative|]. intros [Hc He].
  assert (Hq : 0 <= c / 2 ^ 64 < 2 ^ 49) by (split; [apply Z.div_pos; lia|apply Z.div_lt_upper_bound; lia]).
  set (h := Z.b2z negative * 2 ^ 63 + (e + 6176) * 2 ^ 49 + c / 2 ^ 64).
  assert (Hn : 0 <= Z.b2z negative <= 1) by (destruct negative; cbn; lia).
  assert (E49 : h = (Z.b2z negative * 2 ^ 14 + (e + 6176)) * 2 ^ 49 + c / 2 ^ 64) by (unfold h; lia).
  assert (Hd49 : h / 2 ^ 49 = Z.b2z negative * 2 ^ 14 + (e + 6176)) by (rewrite E49, Z.div_add_l, (Z.div_small (c / _)) by lia; lia).
  assert (Hm49 : h mod 2 ^ 49 = c / 2 ^ 64) by (rewrite E49, Z.add_comm, Z_mod_plus_full; by apply Z.mod_small).
  assert (Hg : dec_combination (dec_bits (DFinite negative c e)) = (e + 6176) / 2 ^ 9).
  { unfold dec_combination. cbn [dec_bits dec_high]. fold h. change (2 ^ 58) with (2 ^ 49 * 2 ^ 9).
    rewrite <- Z.div_div, Hd49 by lia. Z.to_euclidean_division_equations. lia. }
  unfold dec_value. rewrite Hg.
  assert (0 <= (e + 6176) / 2 ^ 9 < 24) by (Z.to_euclidean_division_equations; lia).
  destruct (Z.eqb_spec ((e + 6176) / 2 ^ 9) 31); [lia|]. destruct (Z.eqb_spec ((e + 6176) / 2 ^ 9) 30); [lia|].
  destruct (Z.eqb_spec ((e + 6176) / 2 ^ 9 / 8) 3); [Z.to_euclidean_division_equations; lia|].
  unfold dec_coefficient, dec_negative. cbn [dec_bits dec_high dec_low]. fold h. rewrite Hd49, Hm49.
  pose proof (Z.div_mod c (2 ^ 64) ltac:(lia)). replace (c / 2 ^ 64 * 2 ^ 64 + c mod 2 ^ 64) with c by lia.
  destruct (Z.ltb_spec c (10 ^ 34)); [|lia]. f_equal.
  - unfold h. destruct negative; cbn [Z.b2z]; [apply Z.leb_le|apply Z.leb_gt]; lia.
  - rewrite Z.add_comm, Z_mod_plus_full, Z.mod_small by lia. lia.
Qed.
