(* ===== verification/Decimal128Safe.v ===== *)
(** [bson_decimal128_from_string] on any string: it answers, and reads nothing past
    the string. *)

From Stdlib Require Import Strings.String.
From S2P Require Import Prelude CString Text Decimal128 Decimal128Spec Decimal128Read.

(** ** Strings *)

Lemma istreq_total a b : x00 ∈ a -> x00 ∈ b -> is_Some (_dec128_istreq a b).
Proof.
  revert b. induction a as [|x a IH]; intros [|y b] Ha Hb; try (by apply not_elem_of_nil in Ha || by apply not_elem_of_nil in Hb).
  cbn [_dec128_istreq]. destruct (byte_eqb x x00) eqn:Ex, (byte_eqb y x00) eqn:Ey; cbn [andb orb]; try by eexists.
  destruct (negb _); [by eexists|].
  apply IH.
  - apply elem_of_cons in Ha as [<-|Ha]; [by rewrite byte_eqb_refl in Ex|done].
  - apply elem_of_cons in Hb as [<-|Hb]; [by rewrite byte_eqb_refl in Ey|done].
Qed.

Lemma before_end string p c :
  last string = Some x00 -> rd string p = Some c -> c <> x00 -> p + 1 < zlen string.
Proof.
  intros Hlast Hc Hx. pose proof (rd_lt _ _ _ Hc) as Hp. destruct (Z.eq_dec (p + 1) (zlen string)) as [Ez|]; [|lia].
  apply rd_Some_iff in Hc as [_ Hc]. rewrite last_lookup in Hlast.
  replace (pred (length string)) with (Z.to_nat p) in Hlast by (unfold zlen in Ez; lia). congruence.
Qed.

Lemma suffix_nul string p :
  last string = Some x00 -> 0 <= p < zlen string ->
  exists r, padd string p = Some r /\ x00 ∈ r /\ zlen r = zlen string - p.
Proof.
  intros Hlast Hp. destruct (split_at string p ltac:(lia)) as (a & r & -> & Ha & Hr). exists r.
  split; [by apply padd_at|]. split; [|lia].
  destruct r as [|x r _] using rev_ind; [change (zlen (@nil byte)) with 0 in Hr; lia|].
  rewrite app_assoc, last_snoc in Hlast. injection Hlast as ->. apply elem_of_app. right. by apply list_elem_of_singleton.
Qed.

(** The prefix a scan takes, and the character it stops at. *)
Lemma sscanf_spaces_total s :
  x00 ∈ s -> exists k sp, sscanf_spaces s = Some (k, sp) /\ 0 <= k /\ k + zlen sp = zlen s /\ x00 ∈ sp.
Proof.
  induction s as [|c s IH]; intros Hs; [by apply not_elem_of_nil in Hs|]. cbn [sscanf_spaces].
  destruct (isspace c) eqn:E.
  - apply elem_of_cons in Hs as [<-|Hs]; [by vm_compute in E|].
    destruct (IH Hs) as (k & sp & -> & Hk & Hl & Hin). sbind. exists (k + 1), sp. rewrite zlen_cons. split; [done|].
    split; [lia|]. split; [lia|done].
  - exists 0, (c :: s). split; [done|]. split; [lia|]. done.
Qed.

Lemma scan_digits_total s : x00 ∈ s -> exists ds, scan_digits s = Some ds /\ zlen ds < zlen s.
Proof.
  induction s as [|c s IH]; intros Hs; [by apply not_elem_of_nil in Hs|]. cbn [scan_digits]. rewrite zlen_cons.
  pose proof (zlen_nonneg s). destruct (isdigit c) eqn:E.
  - apply elem_of_cons in Hs as [<-|Hs]; [by vm_compute in E|].
    destruct (IH Hs) as (ds & -> & Hl). sbind. exists (c :: ds). rewrite zlen_cons. split; [done|lia].
  - exists []. change (zlen (@nil byte)) with 0. split; [done|lia].
Qed.

Lemma sscanf_total s :
  x00 ∈ s -> exists r, sscanf_d64 s = Some r /\ match r with Some (_, n) => 0 <= n < zlen s | None => True end.
Proof.
  intros Hs. unfold sscanf_d64. destruct (sscanf_spaces_total s Hs) as (k & sp & -> & Hk & Hl & Hin). sbind.
  destruct sp as [|c sp]; [by apply not_elem_of_nil in Hin|]. rewrite rd_cons_0. sbind.
  set (sign := byte_eqb c (z2b 43) || byte_eqb c (z2b 45)).
  assert (H : exists rest, padd (c :: sp) (Z.b2z sign) = Some rest /\ x00 ∈ rest /\ zlen rest = zlen (c :: sp) - Z.b2z sign).
  { destruct sign eqn:Es; cbn [Z.b2z].
    - exists sp. rewrite (padd_at [c] sp) by done. split; [done|]. split; [|rewrite zlen_cons; lia].
      apply elem_of_cons in Hin as [<-|Hin]; [by vm_compute in Es|done].
    - exists (c :: sp). split; [by apply (padd_at [])|]. split; [done|lia]. }
  destruct H as (rest & -> & Hr & Hz). sbind.
  destruct (scan_digits_total rest Hr) as (ds & -> & Hds). sbind. eexists. split; [done|].
  destruct ds as [|d ds]; [done|]. pose proof (zlen_nonneg (d :: ds)). destruct sign; cbn [Z.b2z] in *; lia.
Qed.

(** ** Reading digits *)

(** [sign] is the number of characters before the digits. *)
Record scan_ok (string : bytes) (sign : Z) (s : dec_scan) : Prop := {
  scan_ok_read : s_read s = sign + s_ndigits_read s + Z.b2z (s_radix s);
  scan_ok_ndigits : 0 <= s_ndigits s <= s_ndigits_read s;
  scan_ok_stored : zlen (s_digits s) = Z.min (s_ndigits s) 34;
  scan_ok_position : 0 <= s_radix_position s <= s_ndigits_read s;
  scan_ok_zero : s_nonzero s = false -> s_ndigits s = 0;
  scan_ok_first : s_nonzero s = true ->
    s_first_nonzero s + s_ndigits s = s_ndigits_read s /\ 0 <= s_first_nonzero s /\ 0 < s_ndigits s /\
    exists p c, rd string p = Some c /\ c <> z2b 48 /\ p < s_read s /\
      (p = s_first_nonzero s + sign \/ p = s_first_nonzero s + sign + 1 /\ s_radix s = true) /\
      (p = s_first_nonzero s + sign -> s_radix s = true ->
       exists r, p < r < s_read s /\ rd string r = Some (z2b 46));
}.

Lemma scan_ok_digit string sign s c :
  scan_ok string sign s -> 0 <= sign -> rd string (s_read s) = Some c -> isdigit c = true ->
  scan_ok string sign (scan_digit s c).
Proof.
  intros [H1 H2 H3 H4 H5 H6] Hsign Hrd Hc. unfold scan_digit, BSON_DECIMAL128_MAX_DIGITS.
  destruct (s_nonzero s) eqn:En.
  - rewrite !orb_true_r, !andb_true_r. cbn [negb]. rewrite !andb_false_r, ?orb_true_r.
    destruct H6 as (Ha & Hb & Hb' & p & c' & Hp); [done|].
    split; cbn [s_read s_radix s_nonzero s_ndigits_read s_ndigits s_radix_position s_first_nonzero s_digits].
    + lia.
    + lia.
    + destruct (Z.ltb_spec (zlen (s_digits s)) 34); rewrite ?zlen_app, ?zlen_1; lia.
    + destruct (s_radix s); lia.
    + done.
    + intros _. split; [lia|]. split; [lia|]. split; [lia|]. exists p, c'. destruct Hp as (Hp1 & Hp2 & Hp3 & Hp4 & Hp5).
      split; [done|]. split; [done|]. split; [lia|]. split; [done|]. intros Hx Hr. destruct (Hp5 Hx Hr) as (r & Hr1 & Hr2).
      exists r. split; [lia|done].
  - rewrite H5 in * by done. rewrite orb_false_r. rewrite andb_true_r. cbn [negb].
    assert (Hlt : (zlen (s_digits s) <? 34) = true) by (apply Z.ltb_lt; lia). rewrite Hlt. cbn [andb].
    rewrite !orb_false_r. destruct (byte_eqb c (z2b 48)) eqn:E; cbn [negb];
      (split; cbn [s_read s_radix s_nonzero s_ndigits_read s_ndigits s_radix_position s_first_nonzero s_digits]);
      try lia; try done; rewrite ?zlen_app, ?zlen_1; try lia; try (destruct (s_radix s); lia).
    intros _. split; [lia|]. split; [lia|]. split; [lia|]. exists (s_read s), c.
    split; [done|]. split; [by intros ->|]. split; [lia|]. split.
    + destruct (s_radix s); cbn [Z.b2z] in H1; [right; split; [lia|done]|left; lia].
    + intros Hx Hr. rewrite Hr in H1. cbn [Z.b2z] in H1. lia.
Qed.

Lemma scan_ok_point string sign s :
  scan_ok string sign s -> rd string (s_read s) = Some (z2b 46) -> s_radix s = false ->
  scan_ok string sign (Scan (s_read s + 1) true (s_nonzero s) (s_ndigits_read s) (s_ndigits s) (s_radix_position s)
                         (s_first_nonzero s) (s_digits s)).
Proof.
  intros [H1 H2 H3 H4 H5 H6] Hrd Hr. rewrite Hr in *. cbn [Z.b2z] in H1.
  split; cbn [s_read s_radix s_nonzero s_ndigits_read s_ndigits s_radix_position s_first_nonzero s_digits Z.b2z];
    try done; try lia.
  intros Hn. destruct (H6 Hn) as (Ha & Hb & Hb' & p & c & Hp1 & Hp2 & Hp3 & Hp4 & _).
  split; [done|]. split; [done|]. split; [done|]. exists p, c. split; [done|]. split; [done|]. split; [lia|].
  destruct Hp4 as [Hp4|[_ ?]]; [|done]. split; [by left|]. intros _ _. exists (s_read s). split; [lia|done].
Qed.

(** The loop ends in front of the terminator. *)
Lemma scan_loop_total string sign fuel : forall s,
  scan_ok string sign s -> 0 <= sign -> 0 <= s_read s < zlen string -> last string = Some x00 ->
  zlen string - s_read s <= Z.of_nat fuel ->
  exists r, scan_loop fuel string (-1) s = Some r /\
    match r with Some s' => scan_ok string sign s' /\ 0 <= s_read s' < zlen string | None => True end.
Proof.
  induction fuel as [|fuel IH]; intros s Hs Hsign Hr Hlast Hf; [lia|]. cbn [scan_loop].
  destruct (proj2 (rd_is_Some string (s_read s)) Hr) as [c Hc]. rewrite Hc. sbind.
  change (-1 =? -1) with true. rewrite orb_true_l, andb_true_r.
  destruct (isdigit c || byte_eqb c (z2b 46)) eqn:E; [|by exists (Some s)].
  assert (Hnext : s_read s + 1 < zlen string) by (apply (before_end _ _ c); [done|done|intros ->; by vm_compute in E]).
  destruct (byte_eqb c (z2b 46)) eqn:Ep.
  - apply byte_eqb_spec in Ep. subst c. destruct (s_radix s) eqn:Er; [by exists None|].
    apply IH; cbn [s_read]; try done; try lia. by apply scan_ok_point.
  - rewrite orb_false_r in E. apply IH; try done; try (cbn; lia). by apply scan_ok_digit.
Qed.

(** ** The value *)

(** [last_digit] stays within [digits], unless the value is zero and the exponent is
    clamped. *)
Definition normalised (sd e last : Z) : Prop := 0 <= last <= 33 \/ (sd = 0 /\ e = BSON_DECIMAL128_EXPONENT_MAX /\ 0 <= last).

Lemma lower_total sd fuel : forall e last,
  0 <= last <= 33 -> 34 - last <= Z.of_nat fuel ->
  exists r, lower_exponent fuel sd e last = Some r /\
    match r with Some (e', last') => normalised sd e' last' | None => True end.
Proof.
  induction fuel as [|fuel IH]; intros e last Hl Hf; [lia|].
  cbn [lower_exponent]. unfold BSON_DECIMAL128_MAX_DIGITS.
  destruct (Z.ltb_spec BSON_DECIMAL128_EXPONENT_MAX e) as [He|He]; [|eexists; split; [done|by left]].
  destruct (Z.leb_spec 34 (last + 1)); [|apply IH; lia].
  destruct (Z.eqb_spec sd 0); eexists; (split; [done|]); [right; lia|done].
Qed.

Lemma digit_at_total digits i : 0 <= i <= 33 -> exists d, digit_at digits i = Some d.
Proof.
  intros Hi. unfold digit_at, BSON_DECIMAL128_MAX_DIGITS. destruct (Z.leb_spec 0 i); [|lia].
  destruct (Z.ltb_spec i 34); [|lia]. by eexists.
Qed.

Lemma raise_total string skip digits sd fuel : forall e last ndigits,
  0 <= last <= 33 -> Z.max 0 (ndigits - zlen digits) + last + 1 <= Z.of_nat fuel ->
  (forall i, zlen digits <= i < ndigits -> is_Some (rd string (i + skip))) ->
  exists r, raise_exponent fuel string skip digits sd e last ndigits = Some r /\
    match r with Some (e', last') => 0 <= last' <= 33 | None => True end.
Proof.
  induction fuel as [|fuel IH]; intros e last ndigits Hl Hf Hrd; [lia|]. cbn [raise_exponent].
  destruct ((e <? BSON_DECIMAL128_EXPONENT_MIN) || (zlen digits <? ndigits)) eqn:E; [|eexists; split; [done|exact Hl]].
  destruct (Z.eqb_spec last 0).
  { destruct (sd =? 0); eexists; (split; [done|]); [exact Hl|done]. }
  destruct (Z.ltb_spec (zlen digits) ndigits) as [Hlt|Hge].
  - destruct (Hrd (ndigits - 1) ltac:(lia)) as [c ->]. sbind.
    destruct (negb (b2z c - 48 =? 0) && negb (sd =? 0)); [by exists None|].
    destruct (e <? BSON_DECIMAL128_EXPONENT_MAX); [|by exists None].
    apply IH; [lia|lia|]. intros i Hi. apply Hrd. lia.
  - destruct (digit_at_total digits last Hl) as [d ->]. sbind.
    destruct (negb (d =? 0)); [by exists None|]. destruct (e <? BSON_DECIMAL128_EXPONENT_MAX); [|by exists None].
    apply IH; [lia|lia|]. intros i Hi. apply Hrd. lia.
Qed.

Lemma digits_value_total digits n : forall i acc,
  0 <= i -> i + Z.of_nat n <= 34 -> is_Some (dec_digits_value n digits i acc).
Proof.
  induction n as [|n IH]; intros i acc Hi Hn; [by eexists|]. cbn [dec_digits_value].
  destruct (digit_at_total digits i ltac:(lia)) as [d ->]. sbind. apply IH; lia.
Qed.

Lemma significand_total digits sd last :
  0 <= last <= 33 \/ sd = 0 -> is_Some (dec_significand digits sd last).
Proof.
  intros H. unfold dec_significand. destruct (Z.eqb_spec sd 0); [by eexists|]. destruct H as [H|]; [|done].
  destruct (digit_at_total digits 0 ltac:(lia)) as [d0 ->]. sbind. destruct (Z.ltb_spec last 17).
  - destruct (digits_value_total digits (Z.to_nat last) 1 d0 ltac:(lia) ltac:(lia)) as [v ->]. by eexists.
  - destruct (digits_value_total digits (Z.to_nat (last - 17)) 1 d0 ltac:(lia) ltac:(lia)) as [v ->]. sbind.
    destruct (digit_at_total digits (last - 17 + 1) ltac:(lia)) as [d1 ->]. sbind.
    destruct (digits_value_total digits (Z.to_nat 16) (last - 17 + 2) d1 ltac:(lia)) as [v' ->];
      [change (Z.of_nat (Z.to_nat 16)) with 16; lia|]. by eexists.
Qed.

(** The exponent less the digits after the point, or the clamped one: no overflow. *)
Lemma exponent_total x rp :
  - 2 ^ 31 <= x < 2 ^ 31 -> 0 <= rp < 2 ^ 31 - 2 ^ 14 ->
  exists e, (if x <=? rp
     then limit ← int_ok (x + Z.shiftl 1 14);
          if limit <? rp then Some BSON_DECIMAL128_EXPONENT_MIN else if rp <=? INT32_MAX then int_ok (x - rp) else None
     else if rp <=? INT32_MAX then int_ok (x - rp) else None) = Some e.
Proof.
  intros Hx Hrp. change (Z.shiftl 1 14) with 16384. unfold INT32_MAX.
  destruct (Z.leb_spec rp (2 ^ 31 - 1)); [|lia].
  destruct (Z.leb_spec x rp).
  - rewrite (int_ok_id (x + 16384)) by lia. sbind. destruct (Z.ltb_spec (x + 16384) rp); [by eexists|]. rewrite int_ok_id by lia. by eexists.
  - rewrite int_ok_id by lia. by eexists.
Qed.

(** [first] is the index of the first digit that is not zero. *)
Lemma finish_total string first skip digits sd ndigits e last negative :
  normalised sd e last -> zlen digits <= ndigits -> (sd = 0 -> ndigits <= zlen digits) ->
  (forall i, zlen digits <= i < ndigits -> is_Some (rd string (i + skip))) ->
  (forall i, 0 < i < sd -> is_Some (rd string (first + skip + i))) ->
  is_Some (dec_finish string first skip digits sd ndigits e last negative).
Proof.
  intros Hn Hz Hsd Hrd Hround. unfold dec_finish. pose proof (zlen_nonneg digits) as Hz0.
  assert (Hraise : exists r, raise_exponent (Z.to_nat (ndigits + 35)) string skip digits sd e last ndigits = Some r /\
    match r with Some (e', last') => (0 <= last' <= 33 \/ sd = 0) /\ 0 <= last' | None => True end).
  { destruct Hn as [Hl|(-> & -> & Hl)].
    - destruct (raise_total string skip digits sd (Z.to_nat (ndigits + 35)) e last ndigits) as (r & -> & Hr);
        [done|lia|done|]. exists r. split; [done|]. destruct r as [[e' l']|]; [lia|done].
    - exists (Some (BSON_DECIMAL128_EXPONENT_MAX, last)). split; [|lia]. specialize (Hsd eq_refl).
      destruct (Z.to_nat (ndigits + 35)); cbn [raise_exponent]; change (BSON_DECIMAL128_EXPONENT_MAX <? BSON_DECIMAL128_EXPONENT_MIN) with false;
        by destruct (Z.ltb_spec (zlen digits) ndigits); [lia|]. }
  destruct Hraise as (r & -> & Hr). sbind. destruct r as [[e' l']|]; [destruct Hr as [Hr Hl']|by eexists].
  assert (Hc : exists b, (if l' + 1 <? sd then c ← rd string (first + l' + skip + 1); Some (b2z c - 48 =? 0) else Some true) = Some b).
  { destruct (Z.ltb_spec (l' + 1) sd); [|by eexists]. destruct (Hround (l' + 1)) as [c Hc]; [lia|].
    replace (first + l' + skip + 1) with (first + skip + (l' + 1)) by lia. rewrite Hc. by eexists. }
  destruct Hc as [b ->]. sbind. destruct (negb b); [by eexists|].
  destruct (significand_total digits sd l' Hr) as [[high low] ->]. by eexists.
Qed.

Lemma from_scan_total string sign s x negative :
  scan_ok string sign s -> 0 <= sign -> s_read s < zlen string -> zlen string < 2 ^ 31 - 2 ^ 14 ->
  - 2 ^ 31 <= x < 2 ^ 31 ->
  is_Some (dec_from_scan string s (sign + Z.b2z (s_radix s)) x negative).
Proof.
  intros [H1 H2 H3 H4 H5 H6] Hsign Hread Hlen Hx. unfold dec_from_scan.
  assert (Hb : 0 <= Z.b2z (s_radix s)) by (destruct (s_radix s); cbn; lia).
  destruct (exponent_total x (s_radix_position s) Hx ltac:(lia)) as [e He].
  destruct (s_nonzero s) eqn:En.
  - destruct (H6 eq_refl) as (Hf & Hf0 & Hpos & p & c & Hp & Hc & Hpr & Hpf & Hpoint). clear H5 H6.
    destruct (s_digits s) as [|d ds] eqn:Ed; [change (zlen (@nil Z)) with 0 in H3; lia|]. rewrite <- Ed in *.
    assert (Hstop : exists q cq, s_first_nonzero s + (sign + Z.b2z (s_radix s)) <= q < s_read s /\ rd string q = Some cq /\ cq <> z2b 48).
    { destruct Hpf as [Hpf|[Hpf Hr]]; [|exists p, c; rewrite Hr; cbn [Z.b2z]; split; [lia|done]].
      destruct (s_radix s); cbn [Z.b2z] in *; [|exists p, c; split; [lia|done]].
      destruct (Hpoint Hpf eq_refl) as (r & Hr & Hrd). exists r, (z2b 46). split; [lia|done]. }
    destruct Hstop as (q & cq & Hq & Hrdq & Hcq).
    destruct (trim_zeros_ok (Z.to_nat (s_ndigits s)) string (s_first_nonzero s + (sign + Z.b2z (s_radix s))) q cq (s_ndigits s))
      as (sd & -> & Hsd); [lia|lia|done|done|lia|]. sbind. rewrite He. sbind.
    destruct (lower_total sd 35 e (zlen (s_digits s) - 1)) as (r & -> & Hr); [lia|lia|]. sbind.
    destruct r as [[e1 l1]|]; [|by eexists]. apply finish_total; [done|lia|lia| |].
    + intros i Hi. apply rd_is_Some. lia.
    + intros i Hi. apply rd_is_Some. lia.
  - rewrite H5 in H3 by done. rewrite (zlen_0 (s_digits s)) by lia. sbind. rewrite He. sbind.
    destruct (lower_total 0 35 e (zlen [0] - 1)) as (r & -> & Hr); [change (zlen [0]) with 1; lia..|]. sbind.
    destruct r as [[e1 l1]|]; [|by eexists].
    apply finish_total; [done|change (zlen [0]) with 1; lia..| |lia]. intros i Hi. change (zlen [0]) with 1 in Hi. lia.
Qed.

(** ** The whole string *)

Lemma dec_exponent_total string p :
  last string = Some x00 -> 0 <= p < zlen string ->
  exists r, dec_exponent string p = Some r /\
    match r with Some (x, p') => - 2 ^ 31 <= x < 2 ^ 31 /\ 0 <= p' < zlen string | None => True end.
Proof.
  intros Hlast Hp. unfold dec_exponent. destruct (proj2 (rd_is_Some string p) Hp) as [c Hc]. rewrite Hc. sbind.
  destruct (byte_eqb c (z2b 101) || byte_eqb c (z2b 69)) eqn:E; [|by exists (Some (0, p))].
  assert (Hnext : p + 1 < zlen string) by (apply (before_end _ _ c); [done|done|intros ->; by vm_compute in E]).
  destruct (suffix_nul string (p + 1) Hlast ltac:(lia)) as (r & -> & Hr & Hz). sbind.
  destruct (sscanf_total r Hr) as (n & -> & Hn). sbind. destruct n as [[v nread]|]; [|by exists None].
  eexists. split; [done|]. unfold INT32_MAX.
  destruct (Z.leb_spec (- 2 ^ 31) v), (Z.leb_spec v (2 ^ 31 - 1)); cbn [andb]; try done. lia.
Qed.

Lemma special_total string p negative :
  last string = Some x00 -> 0 <= p < zlen string ->
  is_Some (s ← padd string p;
    inf ← _dec128_istreq s (lit "inf");
    infinity ← (if (inf : bool) then Some true else _dec128_istreq s (lit "infinity"));
    if (infinity : bool) then Some (true, BSON_DECIMAL128_SET_INF negative)
    else nan ← _dec128_istreq s (lit "nan"); Some (nan, BSON_DECIMAL128_SET_NAN)).
Proof.
  intros Hlast Hp. destruct (suffix_nul string p Hlast Hp) as (r & -> & Hr & _). sbind.
  assert (H : forall t, x00 ∈ lit t) by (intros t; apply elem_of_app; right; by apply list_elem_of_singleton).
  destruct (istreq_total r (lit "inf") Hr (H _)) as [b1 ->]. sbind.
  destruct (istreq_total r (lit "infinity") Hr (H _)) as [b2 ->].
  destruct (istreq_total r (lit "nan") Hr (H _)) as [b3 ->]. destruct b1; [by eexists|]. sbind.
  destruct b2; by eexists.
Qed.

Lemma from_string_total s :
  zlen s < 2 ^ 31 - 2 ^ 14 - 1 -> is_Some (bson_decimal128_from_string (s ++ [x00])).
Proof.
  intros Hs. set (string := s ++ [x00]). assert (Hlast : last string = Some x00) by apply last_snoc.
  assert (Hz : zlen string = zlen s + 1) by (unfold string; by rewrite zlen_app, zlen_1).
  pose proof (zlen_nonneg s) as Hs0. unfold bson_decimal128_from_string, bson_decimal128_from_string_w_len.
  destruct (proj2 (rd_is_Some string 0) ltac:(lia)) as [c0 Hc0]. rewrite Hc0. sbind.
  set (sign := byte_eqb c0 (z2b 43) || byte_eqb c0 (z2b 45)).
  assert (Hsign : 0 <= Z.b2z sign < zlen string).
  { destruct sign eqn:E; cbn [Z.b2z]; [|lia].
    pose proof (before_end string 0 c0 Hlast Hc0 ltac:(intros ->; by vm_compute in E)). lia. }
  destruct (proj2 (rd_is_Some string (Z.b2z sign)) Hsign) as [c1 Hc1]. rewrite Hc1. sbind.
  destruct (negb (isdigit c1) && negb (byte_eqb c1 (z2b 46))); [by apply special_total|].
  destruct (scan_loop_total string (Z.b2z sign) (length string) (Scan (Z.b2z sign) false false 0 0 0 0 []))
    as (r & -> & Hr); [split; cbn; try done; lia|lia|done|done|cbn [s_read]; unfold zlen; lia|]. sbind.
  destruct r as [s'|]; [|by eexists]. destruct Hr as [Hok Hread].
  destruct (s_radix s' && (s_ndigits_read s' =? 0)); [by eexists|].
  destruct (dec_exponent_total string (s_read s') Hlast Hread) as (r & -> & Hr). sbind.
  destruct r as [[x p]|]; [|by eexists]. destruct Hr as [Hx Hp].
  change (-1 =? -1) with true. cbn [orb]. destruct (proj2 (rd_is_Some string p) Hp) as [c2 ->]. sbind.
  destruct (negb (byte_eqb c2 x00)); [by eexists|].
  destruct (from_scan_total string (Z.b2z sign) s' x (byte_eqb c0 (z2b 45)) Hok) as [v ->]; [lia|lia|lia|lia|]. by eexists.
Qed.
