(* ===== verification/KmsRequestStr.v ===== *)
(** The growable string of kmip_dump: [tools/kmip_dump/vendor_kms_message/
    vendor_kms_request_str.c]. *)

From Stdlib Require Import Strings.String.
From S2P Require Import Prelude CString Text BsonTypes.

(** ** Operations *)

(** [str] is the allocation, of [size] bytes for the strings made here. *)
Record kms_request_str_t := KmsStr { ks_str : bytes; ks_len : Z; ks_size : Z }.

(** Characters the C locale treats specially. *)
Definition slash : byte := z2b 47.
Definition newline_char : byte := z2b 10.

Section Ops.
Context (malloc : Z -> bytes).
Implicit Types (str : kms_request_str_t).

Definition kms_request_str_new : option kms_request_str_t :=
  m ← store (malloc 16) 0 [x00]; Some (KmsStr m 0 16).

(** A negative length asks for [strlen]. *)
Definition actual_length (chars : bytes) (len : Z) : option Z :=
  if len <? 0 then strlen chars else Some len.

Definition kms_request_str_new_from_chars (chars : bytes) (len : Z) : option kms_request_str_t :=
  actual_len ← actual_length chars len;
  src ← slice chars 0 actual_len;
  let size := u64 (actual_len + 1) in
  m ← store (malloc size) 0 src;
  m ← store m actual_len [x00];
  Some (KmsStr m actual_len size).

(** Takes the memory it is given; its size does not count the terminator. *)
Definition kms_request_str_wrap (chars : bytes) (len : Z) : option kms_request_str_t :=
  n ← actual_length chars len; Some (KmsStr chars n n).

Definition kms_request_str_detach str : bytes := ks_str str.
Definition kms_request_str_get str : bytes := ks_str str.

(** The bit trick stops at shifts of 16. *)
Definition kms_request_str_reserve str (size : Z) : kms_request_str_t :=
  let next_size := u64 (ks_len str + size + 1) in
  if ks_size str <? next_size then
    let v := u64 (next_size - 1) in
    let v := smear 16 (smear 8 (smear 4 (smear 2 (smear 1 v)))) in
    let next_size := u64 (v + 1) in
    KmsStr (realloc malloc (ks_str str) next_size) (ks_len str) next_size
  else str.

(** [strndup] copies up to a terminator, at most [len] characters. *)
Definition kms_request_str_dup str : option kms_request_str_t :=
  src ← (match cstr (ks_str str) with
         | Some s => if zlen s <? ks_len str then Some s else slice (ks_str str) 0 (ks_len str)
         | None => slice (ks_str str) 0 (ks_len str)
         end);
  m ← store (malloc (zlen src + 1)) 0 (src ++ [x00]);
  Some (KmsStr m (ks_len str) (u64 (ks_len str + 1))).

Definition kms_request_str_set_chars str (chars : bytes) (len : Z) : option kms_request_str_t :=
  actual_len ← actual_length chars len;
  let str := kms_request_str_reserve str actual_len in
  src ← slice chars 0 (u64 (actual_len + 1));
  m ← store (ks_str str) 0 src;
  Some (KmsStr m actual_len (ks_size str)).

Definition kms_request_str_ends_with str (suffix : kms_request_str_t) : option bool :=
  if ks_len suffix <=? ks_len str then
    p ← padd (ks_str str) (u64 (ks_len str - ks_len suffix));
    c ← strncmp (Z.to_nat (ks_len suffix)) p (ks_str suffix);
    Some (c =? 0)
  else Some false.

(** [memcpy] at the end, and the terminator. *)
Definition put_end str (src : bytes) : option kms_request_str_t :=
  m ← store (ks_str str) (ks_len str) src;
  let len := u64 (ks_len str + zlen src) in
  m ← store m len [x00];
  Some (KmsStr m len (ks_size str)).

(** The room reserved is for both lengths together. *)
Definition kms_request_str_append str (appended : kms_request_str_t) : option kms_request_str_t :=
  let next_len := u64 (ks_len str + ks_len appended) in
  let str := kms_request_str_reserve str next_len in
  src ← slice (ks_str appended) 0 (ks_len appended);
  put_end str src.

Definition kms_request_str_append_char str (c : byte) : option kms_request_str_t :=
  put_end (kms_request_str_reserve str 1) [c].

Definition kms_request_str_append_chars str (appended : bytes) (len : Z) : option kms_request_str_t :=
  len ← actual_length appended len;
  let str := kms_request_str_reserve str len in
  src ← slice appended 0 len;
  put_end str src.

Definition kms_request_str_append_newline str : option kms_request_str_t :=
  kms_request_str_append_char str newline_char.

(** ASCII characters only. *)
Definition downcase (c : byte) : byte := if Z.land (b2z c) 128 =? 0 then tolower c else c.

Definition kms_request_str_append_lowercase str (appended : kms_request_str_t) : option kms_request_str_t :=
  let i := ks_len str in
  str ← kms_request_str_append str appended;
  src ← slice (ks_str str) i (ks_len str - i);
  m ← store (ks_str str) i (map downcase src);
  Some (KmsStr m (ks_len str) (ks_size str)).

(** The loop of [kms_request_str_append_va]; its second round has the room. *)
Fixpoint append_va_loop (fuel : nat) str (text : bytes) : option kms_request_str_t :=
  match fuel with
  | O => None
  | S fuel' =>
      let remaining := u64 (ks_size str - ks_len str) in
      m ← vsnprintf_at (ks_str str) (ks_len str) remaining text;
      let n := zlen text in
      if INT32_MAX <? n then None else
      if n <? remaining then Some (KmsStr m (u64 (ks_len str + n)) (ks_size str))
      else append_va_loop fuel' (kms_request_str_reserve (KmsStr m (ks_len str) (ks_size str)) n) text
  end.

Definition kms_request_str_append_va str (text : bytes) : option kms_request_str_t :=
  append_va_loop 2 str text.

(** [text] is what the format and its arguments make. *)
Definition kms_request_str_appendf str (text : bytes) : option kms_request_str_t :=
  kms_request_str_append_va str text.

(** [while (isspace ( *src)) ++src]; a negative [char] is no space. *)
Fixpoint skip_spaces (src : bytes) : option bytes :=
  match src with
  | [] => None
  | c :: src' => if (b2z c <? 128) && isspace c then skip_spaces src' else Some src
  end.

(** The characters up to [end], with runs of spaces and newlines folded. *)
Fixpoint stripped_loop str (src : bytes) (comma space : bool) : option kms_request_str_t :=
  match src with
  | [] => Some str
  | c :: src' =>
      if byte_eqb c newline_char then stripped_loop str src' true false
      else if (b2z c <? 128) && isspace c then stripped_loop str src' comma true
      else
        str ← (if comma then kms_request_str_append_char str (z2b 44) else Some str);
        str ← (if negb comma && space then kms_request_str_append_char str (z2b 32) else Some str);
        str ← kms_request_str_append_char str c;
        stripped_loop str src' false false
  end.

Definition kms_request_str_append_stripped str (appended : kms_request_str_t) : option kms_request_str_t :=
  let str := kms_request_str_reserve str (ks_len appended) in
  src ← skip_spaces (ks_str appended);
  let skipped := zlen (ks_str appended) - zlen src in
  stripped_loop str (take (Z.to_nat (ks_len appended - skipped)) src) false false.

(** [strstr (s, prefix) == s] *)
Definition starts_with (s prefix : bytes) : option bool :=
  a ← cstr s; p ← cstr prefix; Some (bool_decide (take (length p) a = p)).

(** The last slash at or before [i]: the search from the end. *)
Fixpoint last_slash (fuel : nat) (m : bytes) (i : Z) : option (option Z) :=
  match fuel with
  | O => Some None
  | S fuel' =>
      if i <? 0 then Some None else
      c ← rd m i; if byte_eqb c slash then Some (Some i) else last_slash fuel' m (i - 1)
  end.

Definition delete_last_segment str (is_absolute : bool) : option kms_request_str_t :=
  if ks_len str =? 0 then Some str else
  s ← last_slash (Z.to_nat (ks_len str)) (ks_str str) (ks_len str - 1);
  let len := match s with
             | Some i => if (i =? 0) && is_absolute then 1 else i
             | None => 0
             end in
  m ← store (ks_str str) len [x00];
  Some (KmsStr m len (ks_size str)).

(** ** Path normalisation *)

(** [strcmp (p, lit) == 0] *)
Definition is_lit (p : bytes) (l : string) : option bool := c ← strcmp p (lit l); Some (c =? 0).

(** One segment moved to the output, and the rest of the input. [end] is the
    input's terminator. *)
Definition move_segment (out slash_str : kms_request_str_t) (p : bytes) (p_len : Z) (is_absolute : bool) :
    option (kms_request_str_t * bytes) :=
  p1 ← padd p 1;
  n ← strchr p1 slash;
  let next := match n with Some n => n + 1 | None => p_len end in
  ends ← kms_request_str_ends_with out slash_str;
  c ← rd p 0;
  let skip := if (ends : bool) && byte_eqb c slash then 1 else 0 in
  q ← padd p skip;
  c ← rd q 0;
  let skip := if (ks_len out =? 0) && negb is_absolute && byte_eqb c slash then skip + 1 else skip in
  q ← padd p skip;
  out ← kms_request_str_append_chars out q (next - skip);
  rest ← padd p next;
  Some (out, rest).

(** [while (p < end)]; [p_len] is [end - p]. *)
Fixpoint normalize_loop (fuel : nat) (out slash_str : kms_request_str_t) (p : bytes) (p_len : Z)
    (is_absolute : bool) : option kms_request_str_t :=
  match fuel with
  | O => None
  | S fuel' =>
      if p_len <=? 0 then Some out else
      dotdot ← starts_with p (lit "../");
      dot ← starts_with p (lit "./");
      sdot ← starts_with p (lit "/./");
      sdot_end ← is_lit p "/.";
      sdotdot ← starts_with p (lit "/../");
      sdotdot_end ← is_lit p "/..";
      only_dot ← is_lit p ".";
      only_dotdot ← is_lit p "..";
      if (dotdot : bool) then q ← padd p 3; normalize_loop fuel' out slash_str q (p_len - 3) is_absolute
      else if (dot : bool) then q ← padd p 2; normalize_loop fuel' out slash_str q (p_len - 2) is_absolute
      else if (sdot : bool) then q ← padd p 2; normalize_loop fuel' out slash_str q (p_len - 2) is_absolute
      else if (sdot_end : bool) then Some out
      else if (sdotdot : bool) then
        q ← padd p 3; out ← delete_last_segment out is_absolute;
        normalize_loop fuel' out slash_str q (p_len - 3) is_absolute
      else if (sdotdot_end : bool) then delete_last_segment out is_absolute
      else if (only_dot : bool) || (only_dotdot : bool) then Some out
      else
        '(out, q) ← move_segment out slash_str p p_len is_absolute;
        normalize_loop fuel' out slash_str q (p_len - (zlen p - zlen q)) is_absolute
  end.

(** [strdup] of the string: it has no terminator inside. *)
Definition kms_request_str_path_normalized str : option kms_request_str_t :=
  slash_str ← kms_request_str_new_from_chars (txt "/") 1;
  out ← kms_request_str_new;
  s ← cstr (ks_str str);
  let p := s ++ [x00] in
  c ← rd p 0;
  root ← is_lit p "/";
  out ← (if (root : bool) then Some out
         else normalize_loop (S (length s)) out slash_str p (ks_len str) (byte_eqb c slash));
  if ks_len out =? 0 then kms_request_str_append_char out slash else Some out.
End Ops.

(** ** Specification *)

(** The string's characters are [t], in an allocation of its size. *)
Definition kms_holds (s : kms_request_str_t) (t : bytes) : Prop :=
  ks_len s = zlen t /\ zlen t < ks_size s <= 2 ^ 32 /\ exists junk, ks_str s = t ++ junk /\ zlen (ks_str s) = ks_size s.

(** And they are terminated: what every operation leaves. *)
Definition kms_is (s : kms_request_str_t) (t : bytes) : Prop :=
  kms_holds s t /\ rd (ks_str s) (zlen t) = Some x00.

(** Texts of this length fit without the size wrapping around. *)
Definition KMS_LIMIT : Z := 2 ^ 31.

Section Spec.
Context (malloc : Z -> bytes).
Hypothesis Hmalloc : forall n, 0 <= n -> zlen (malloc n) = n.

Lemma kms_new_spec : exists s, kms_request_str_new malloc = Some s /\ kms_is s [].
Proof.
  unfold kms_request_str_new.
  destruct (fresh_split malloc Hmalloc 16 1) as (old & junk & -> & Ho & Hj); [lia|].
  rewrite store_at_0 by done. sbind. eexists. split; [done|]. split; [|done].
  split; [done|]. cbn. change (zlen (@nil byte)) with 0. split; [lia|].
  exists (x00 :: junk). split; [done|]. rewrite zlen_cons. lia.
Qed.

(** Reserving makes room for the characters and the terminator. *)
Lemma reserve_spec s t n :
  kms_holds s t -> 0 <= n -> zlen t + n < KMS_LIMIT ->
  kms_holds (kms_request_str_reserve malloc s n) t /\ zlen t + n < ks_size (kms_request_str_reserve malloc s n).
Proof.
  intros (Hl & Hm & junk & E & Hz) Hn Hlim.
  pose proof (zlen_nonneg t). unfold KMS_LIMIT in Hlim. unfold kms_request_str_reserve. rewrite Hl, u64_id by lia.
  destruct (Z.ltb_spec (ks_size s) (zlen t + n + 1)).
  2: { split; [|lia]. split; [done|]. split; [done|]. by exists junk. }
  rewrite (u64_id (zlen t + n + 1 - 1)) by lia. set (v := zlen t + n + 1 - 1).
  rewrite smear32_spec, Z.ones_equiv by lia. change (Z.log2 v + 1) with (Z.succ (Z.log2 v)).
  pose proof (Z.log2_spec v ltac:(lia)) as Hv. pose proof (Z.log2_nonneg v).
  assert (Z.log2 v < 32) by (apply Z.log2_lt_pow2; lia).
  pose proof (Z.pow_le_mono_r 2 (Z.succ (Z.log2 v)) 32 ltac:(lia) ltac:(lia)) as Hp.
  set (p := 2 ^ Z.succ (Z.log2 v)) in *. replace (Z.pred p + 1) with p by lia. rewrite u64_id by lia. cbn.
  destruct (zlen_realloc malloc Hmalloc (ks_str s) p) as (more & Er & Hmore); [lia|].
  split; [|lia]. split; [done|]. split; [cbn; lia|]. cbn. exists (junk ++ more). rewrite Er, E.
  split; [by rewrite <- app_assoc|]. rewrite zlen_app, <- E. lia.
Qed.

(** Writing over what follows the characters. *)
Lemma store_end s t w :
  kms_holds s t -> zlen t + zlen w <= ks_size s ->
  exists junk, store (ks_str s) (zlen t) w = Some (t ++ w ++ junk) /\ zlen (t ++ w ++ junk) = ks_size s.
Proof.
  intros (Hl & Hm & junk & E & Hz) Hw. exists (drop (length w) junk).
  assert (Hj : zlen t + zlen junk = ks_size s) by (rewrite <- Hz, E; zl).
  rewrite E. rewrite <- (take_drop (length w) junk) at 1.
  rewrite (store_at t _ _ _ w); [|done|unfold zlen in *; rewrite length_take; lia].
  split; [done|]. rewrite !zlen_app. unfold zlen in *. rewrite length_drop. lia.
Qed.

Lemma put_end_spec s t u :
  kms_holds s t -> zlen t + zlen u < ks_size s -> exists s', put_end s u = Some s' /\ kms_is s' (t ++ u).
Proof.
  intros Hs Hr. pose proof Hs as (Hl & Hm & _). pose proof (zlen_nonneg t). pose proof (zlen_nonneg u).
  unfold put_end. rewrite Hl. destruct (store_end s t u Hs) as (junk & -> & Hz); [lia|]. sbind.
  rewrite u64_id by lia. set (s1 := KmsStr (t ++ u ++ junk) (zlen t + zlen u) (ks_size s)).
  assert (Hs1 : kms_holds s1 (t ++ u)).
  { split; [cbn; zl|]. cbn. rewrite zlen_app. split; [lia|]. exists junk. split; [by rewrite <- app_assoc|done]. }
  destruct (store_end s1 (t ++ u) [x00] Hs1) as (junk' & E & Hz'); [cbn; change (zlen [x00]) with 1; zl|].
  rewrite zlen_app in E. cbn [ks_str s1] in E. rewrite E. sbind. eexists. split; [done|]. split; [split|].
  - cbn. zl.
  - cbn. rewrite zlen_app. split; [lia|]. by exists ([x00] ++ junk').
  - cbn. by apply rd_at.
Qed.

Lemma append_char_spec s t c :
  kms_holds s t -> zlen t + 1 < KMS_LIMIT ->
  exists s', kms_request_str_append_char malloc s c = Some s' /\ kms_is s' (t ++ [c]).
Proof. intros Hs Hl. destruct (reserve_spec s t 1 Hs) as [Hs1 Hr]; [lia|lia|]. by apply put_end_spec. Qed.

Lemma append_chars_spec s t u rest n :
  kms_holds s t -> zlen t + zlen u < KMS_LIMIT -> n = zlen u ->
  exists s', kms_request_str_append_chars malloc s (u ++ rest) n = Some s' /\ kms_is s' (t ++ u).
Proof.
  intros Hs Hl ->. pose proof (zlen_nonneg u). unfold kms_request_str_append_chars, actual_length.
  destruct (Z.ltb_spec (zlen u) 0); [lia|]. sbind. rewrite slice_at_end_0 by done. sbind.
  destruct (reserve_spec s t (zlen u) Hs) as [Hs1 Hr]; [lia|lia|]. by apply put_end_spec.
Qed.

(** A literal, with -1 for its length. *)
Lemma append_literal_spec s t u :
  kms_holds s t -> zlen t + zlen u < KMS_LIMIT -> no_nul u ->
  exists s', kms_request_str_append_chars malloc s (u ++ [x00]) (-1) = Some s' /\ kms_is s' (t ++ u).
Proof.
  intros Hs Hl Hu. destruct (append_chars_spec s t u [x00] (zlen u) Hs Hl eq_refl) as (s' & E & Hs').
  exists s'. split; [|done]. revert E. unfold kms_request_str_append_chars, actual_length.
  pose proof (zlen_nonneg u). destruct (Z.ltb_spec (zlen u) 0); [lia|]. cbn [Z.ltb Z.compare]. by rewrite strlen_app.
Qed.

Lemma append_spec s t a u :
  kms_holds s t -> kms_holds a u -> zlen t + (zlen t + zlen u) < KMS_LIMIT ->
  exists s', kms_request_str_append malloc s a = Some s' /\ kms_is s' (t ++ u).
Proof.
  intros Hs (Hal & _ & junk & Ea & _) Hl. pose proof (zlen_nonneg t). pose proof (zlen_nonneg u).
  pose proof Hs as (Hsl & _). unfold kms_request_str_append. unfold KMS_LIMIT in Hl.
  rewrite Hsl, Hal, u64_id by lia. rewrite Ea, slice_at_end_0 by done. sbind.
  destruct (reserve_spec s t (zlen t + zlen u) Hs) as [Hs1 Hr]; [lia|unfold KMS_LIMIT; lia|].
  apply put_end_spec; [done|lia].
Qed.

(** One round of formatting into the room there is. *)
Lemma vsnprintf_at_spec s t u :
  kms_holds s t -> exists m, vsnprintf_at (ks_str s) (ks_len s) (ks_size s - ks_len s) u = Some m /\
    kms_holds (KmsStr m (ks_len s) (ks_size s)) t /\
    (zlen u < ks_size s - ks_len s -> kms_is (KmsStr m (ks_len s + zlen u) (ks_size s)) (t ++ u)).
Proof.
  intros Hs. pose proof Hs as (Hl & Hm & _). pose proof (zlen_nonneg u). pose proof (zlen_nonneg t).
  unfold vsnprintf_at. rewrite Hl. destruct (Z.eqb_spec (ks_size s - zlen t) 0) as [?|_]; [lia|].
  set (n := ks_size s - zlen t). set (w := take (Z.to_nat (n - 1)) u ++ [x00]).
  assert (Hw : zlen w <= n) by (subst w; unfold zlen; rewrite length_app, length_take; simpl; lia).
  destruct (store_end s t w Hs) as (junk & -> & Hz); [lia|].
  eexists. split; [done|]. split; [split; [done|]; split; [done|by exists (w ++ junk)]|].
  intros Hu. assert (Ew : w = u ++ [x00]) by (subst w; rewrite take_ge by (unfold zlen in *; lia); done).
  rewrite Ew in *. split; [split; [cbn; zl|]|].
  - cbn. rewrite zlen_app. split; [lia|]. exists ([x00] ++ junk). split; [by rewrite <- !app_assoc|done].
  - cbn. rewrite zlen_app, <- app_assoc, app_assoc. apply rd_at. zl.
Qed.

(** A formatted text is appended whole: the second round has room. *)
Lemma appendf_spec s t u :
  kms_holds s t -> zlen t + zlen u < KMS_LIMIT ->
  exists s', kms_request_str_appendf malloc s u = Some s' /\ kms_is s' (t ++ u).
Proof.
  intros Hs Hlim. pose proof Hs as (Hl & Hm & _). pose proof (zlen_nonneg u). pose proof (zlen_nonneg t).
  pose proof Hlim as Hlim'. unfold KMS_LIMIT in Hlim'.
  unfold kms_request_str_appendf, kms_request_str_append_va. cbn [append_va_loop]. rewrite u64_id by lia.
  destruct (vsnprintf_at_spec s t u Hs) as (m & -> & Hs1 & Hfit). sbind.
  unfold INT32_MAX. destruct (Z.ltb_spec (2 ^ 31 - 1) (zlen u)); [lia|].
  destruct (Z.ltb_spec (zlen u) (ks_size s - ks_len s)).
  { rewrite u64_id by lia. eexists. split; [done|]. by apply Hfit. }
  destruct (reserve_spec _ t (zlen u) Hs1) as [Hs2 Hr]; [lia|lia|]. set (s2 := kms_request_str_reserve _ _ _) in *.
  pose proof Hs2 as (Hl2 & Hm2 & _). rewrite u64_id by lia.
  destruct (vsnprintf_at_spec s2 t u Hs2) as (m2 & -> & _ & Hfit2). sbind.
  destruct (Z.ltb_spec (zlen u) (ks_size s2 - ks_len s2)); [|lia].
  rewrite u64_id by lia. eexists. split; [done|]. apply Hfit2. lia.
Qed.
End Spec.
