(* ===== verification/KmipTags.v ===== *)
(** KMIP tags and item types: [vendor_kms_kmip_tag_type_private.h],
    [vendor_kms_kmip_item_type_private.h], and their names in
    [vendor_kms_reader_writer.c]. *)

From Stdlib Require Import Strings.String.
From S2P Require Import Prelude Text.

(** ** [kmip_tag_type_t] *)

Definition kmip_tag_type_1 : list (string * Z) :=
  [("ActivationDate", 0x420001); ("ApplicationData", 0x420002); ("ApplicationNamespace", 0x420003);
   ("ApplicationSpecificInformation", 0x420004); ("ArchiveDate", 0x420005);
   ("AsynchronousCorrelationValue", 0x420006); ("AsynchronousIndicator", 0x420007);
   ("Attribute", 0x420008); ("AttributeIndex", 0x420009); ("AttributeName", 0x42000a);
   ("AttributeValue", 0x42000b); ("Authentication", 0x42000c); ("BatchCount", 0x42000d);
   ("BatchErrorContinuationOption", 0x42000e); ("BatchItem", 0x42000f); ("BatchOrderOption", 0x420010);
   ("BlockCipherMode", 0x420011); ("CancellationResult", 0x420012); ("Certificate", 0x420013);
   ("CertificateIdentifier", 0x420014); ("CertificateIssuer", 0x420015);
   ("CertificateIssuerAlternativeName", 0x420016); ("CertificateIssuerDistinguishedName", 0x420017);
   ("CertificateRequest", 0x420018); ("CertificateRequestType", 0x420019);
   ("CertificateSubject", 0x42001a); ("CertificateSubjectAlternativeName", 0x42001b);
   ("CertificateSubjectDistinguishedName", 0x42001c); ("CertificateType", 0x42001d);
   ("CertificateValue", 0x42001e); ("CommonTemplateAttribute", 0x42001f); ("CompromiseDate", 0x420020);
   ("CompromiseOccurrenceDate", 0x420021); ("ContactInformation", 0x420022); ("Credential", 0x420023);
   ("CredentialType", 0x420024); ("CredentialValue", 0x420025); ("CriticalityIndicator", 0x420026);
   ("CRTCoefficient", 0x420027); ("CryptographicAlgorithm", 0x420028);
   ("CryptographicDomainParameters", 0x420029); ("CryptographicLength", 0x42002a);
   ("CryptographicParameters", 0x42002b); ("CryptographicUsageMask", 0x42002c);
   ("CustomAttribute", 0x42002d); ("D", 0x42002e); ("DeactivationDate", 0x42002f);
   ("DerivationData", 0x420030); ("DerivationMethod", 0x420031); ("DerivationParameters", 0x420032);
   ("DestroyDate", 0x420033); ("Digest", 0x420034); ("DigestValue", 0x420035);
   ("EncryptionKeyInformation", 0x420036); ("G", 0x420037); ("HashingAlgorithm", 0x420038);
   ("InitialDate", 0x420039); ("InitializationVector", 0x42003a); ("Issuer", 0x42003b);
   ("IterationCount", 0x42003c); ("IVCounterNonce", 0x42003d); ("J", 0x42003e); ("Key", 0x42003f);
   ("KeyBlock", 0x420040); ("KeyCompressionType", 0x420041); ("KeyFormatType", 0x420042);
   ("KeyMaterial", 0x420043); ("KeyPartIdentifier", 0x420044); ("KeyValue", 0x420045);
   ("KeyWrappingData", 0x420046); ("KeyWrappingSpecification", 0x420047); ("LastChangeDate", 0x420048);
   ("LeaseTime", 0x420049); ("Link", 0x42004a); ("LinkType", 0x42004b);
   ("LinkedObjectIdentifier", 0x42004c); ("MACSignature", 0x42004d);
   ("MACSignatureKeyInformation", 0x42004e); ("MaximumItems", 0x42004f); ("MaximumResponseSize", 0x420050);
   ("MessageExtension", 0x420051); ("Modulus", 0x420052); ("Name", 0x420053); ("NameType", 0x420054);
   ("NameValue", 0x420055); ("ObjectGroup", 0x420056); ("ObjectType", 0x420057); ("Offset", 0x420058);
   ("OpaqueDataType", 0x420059); ("OpaqueDataValue", 0x42005a); ("OpaqueObject", 0x42005b);
   ("Operation", 0x42005c); ("OperationPolicyName", 0x42005d); ("P", 0x42005e);
   ("PaddingMethod", 0x42005f); ("PrimeExponentP", 0x420060); ("PrimeExponentQ", 0x420061);
   ("PrimeFieldSize", 0x420062); ("PrivateExponent", 0x420063); ("PrivateKey", 0x420064);
   ("PrivateKeyTemplateAttribute", 0x420065); ("PrivateKeyUniqueIdentifier", 0x420066);
   ("ProcessStartDate", 0x420067); ("ProtectStopDate", 0x420068); ("ProtocolVersion", 0x420069);
   ("ProtocolVersionMajor", 0x42006a); ("ProtocolVersionMinor", 0x42006b); ("PublicExponent", 0x42006c);
   ("PublicKey", 0x42006d); ("PublicKeyTemplateAttribute", 0x42006e);
   ("PublicKeyUniqueIdentifier", 0x42006f); ("PutFunction", 0x420070); ("Q", 0x420071);
   ("QString", 0x420072); ("Qlength", 0x420073); ("QueryFunction", 0x420074);
   ("RecommendedCurve", 0x420075); ("ReplacedUniqueIdentifier", 0x420076); ("RequestHeader", 0x420077);
   ("RequestMessage", 0x420078); ("RequestPayload", 0x420079); ("ResponseHeader", 0x42007a);
   ("ResponseMessage", 0x42007b); ("ResponsePayload", 0x42007c); ("ResultMessage", 0x42007d);
   ("ResultReason", 0x42007e); ("ResultStatus", 0x42007f); ("RevocationMessage", 0x420080);
   ("RevocationReason", 0x420081); ("RevocationReasonCode", 0x420082); ("KeyRoleType", 0x420083);
   ("Salt", 0x420084); ("SecretData", 0x420085); ("SecretDataType", 0x420086); ("SerialNumber", 0x420087);
   ("ServerInformation", 0x420088); ("SplitKey", 0x420089); ("SplitKeyMethod", 0x42008a);
   ("SplitKeyParts", 0x42008b); ("SplitKeyThreshold", 0x42008c); ("State", 0x42008d);
   ("StorageStatusMask", 0x42008e); ("SymmetricKey", 0x42008f); ("Template", 0x420090);
   ("TemplateAttribute", 0x420091); ("TimeStamp", 0x420092); ("UniqueBatchItemID", 0x420093)]%string.

Definition kmip_tag_type_2 : list (string * Z) :=
  [("UniqueIdentifier", 0x420094); ("UsageLimits", 0x420095); ("UsageLimitsCount", 0x420096);
   ("UsageLimitsTotal", 0x420097); ("UsageLimitsUnit", 0x420098); ("Username", 0x420099);
   ("ValidityDate", 0x42009a); ("ValidityIndicator", 0x42009b); ("VendorExtension", 0x42009c);
   ("VendorIdentification", 0x42009d); ("WrappingMethod", 0x42009e); ("X", 0x42009f); ("Y", 0x4200a0);
   ("Password", 0x4200a1); ("DeviceIdentifier", 0x4200a2); ("EncodingOption", 0x4200a3);
   ("ExtensionInformation", 0x4200a4); ("ExtensionName", 0x4200a5); ("ExtensionTag", 0x4200a6);
   ("ExtensionType", 0x4200a7); ("Fresh", 0x4200a8); ("MachineIdentifier", 0x4200a9);
   ("MediaIdentifier", 0x4200aa); ("NetworkIdentifier", 0x4200ab); ("ObjectGroupMember", 0x4200ac);
   ("CertificateLength", 0x4200ad); ("DigitalSignatureAlgorithm", 0x4200ae);
   ("CertificateSerialNumber", 0x4200af); ("DeviceSerialNumber", 0x4200b0);
   ("IssuerAlternativeName", 0x4200b1); ("IssuerDistinguishedName", 0x4200b2);
   ("SubjectAlternativeName", 0x4200b3); ("SubjectDistinguishedName", 0x4200b4);
   ("X509CertificateIdentifier", 0x4200b5); ("X509CertificateIssuer", 0x4200b6);
   ("X509CertificateSubject", 0x4200b7); ("KeyValueLocation", 0x4200b8);
   ("KeyValueLocationValue", 0x4200b9); ("KeyValueLocationType", 0x4200ba); ("KeyValuePresent", 0x4200bb);
   ("OriginalCreationDate", 0x4200bc); ("PGPKey", 0x4200bd); ("PGPKeyVersion", 0x4200be);
   ("AlternativeName", 0x4200bf); ("AlternativeNameValue", 0x4200c0); ("AlternativeNameType", 0x4200c1);
   ("Data", 0x4200c2); ("SignatureData", 0x4200c3); ("DataLength", 0x4200c4); ("RandomIV", 0x4200c5);
   ("MACData", 0x4200c6); ("AttestationType", 0x4200c7); ("Nonce", 0x4200c8); ("NonceID", 0x4200c9);
   ("NonceValue", 0x4200ca); ("AttestationMeasurement", 0x4200cb); ("AttestationAssertion", 0x4200cc);
   ("IVLength", 0x4200cd); ("TagLength", 0x4200ce); ("FixedFieldLength", 0x4200cf);
   ("CounterLength", 0x4200d0); ("InitialCounterValue", 0x4200d1); ("InvocationFieldLength", 0x4200d2);
   ("AttestationCapableIndicator", 0x4200d3); ("OffsetItems", 0x4200d4); ("LocatedItems", 0x4200d5);
   ("CorrelationValue", 0x4200d6); ("InitIndicator", 0x4200d7); ("FinalIndicator", 0x4200d8);
   ("RNGParameters", 0x4200d9); ("RNGAlgorithm", 0x4200da); ("DRBGAlgorithm", 0x4200db);
   ("FIPS186Variation", 0x4200dc); ("PredictionResistance", 0x4200dd); ("RandomNumberGenerator", 0x4200de);
   ("ValidationInformation", 0x4200df); ("ValidationAuthorityType", 0x4200e0);
   ("ValidationAuthorityCountry", 0x4200e1); ("ValidationAuthorityURI", 0x4200e2);
   ("ValidationVersionMajor", 0x4200e3); ("ValidationVersionMinor", 0x4200e4);
   ("ValidationType", 0x4200e5); ("ValidationLevel", 0x4200e6);
   ("ValidationCertificateIdentifier", 0x4200e7); ("ValidationCertificateURI", 0x4200e8);
   ("ValidationVendorURI", 0x4200e9); ("ValidationProfile", 0x4200ea); ("ProfileInformation", 0x4200eb);
   ("ProfileName", 0x4200ec); ("ServerURI", 0x4200ed); ("ServerPort", 0x4200ee);
   ("StreamingCapability", 0x4200ef); ("AsynchronousCapability", 0x4200f0);
   ("AttestationCapability", 0x4200f1); ("UnwrapMode", 0x4200f2); ("DestroyAction", 0x4200f3);
   ("ShreddingAlgorithm", 0x4200f4); ("RNGMode", 0x4200f5); ("ClientRegistrationMethod", 0x4200f6);
   ("CapabilityInformation", 0x4200f7); ("KeyWrapType", 0x4200f8); ("BatchUndoCapability", 0x4200f9);
   ("BatchContinueCapability", 0x4200fa); ("PKCS12FriendlyName", 0x4200fb); ("Description", 0x4200fc);
   ("Comment", 0x4200fd); ("AuthenticatedEncryptionAdditionalData", 0x4200fe);
   ("AuthenticatedEncryptionTag", 0x4200ff); ("SaltLength", 0x420100); ("MaskGenerator", 0x420101);
   ("MaskGeneratorHashingAlgorithm", 0x420102); ("PSource", 0x420103); ("TrailerField", 0x420104);
   ("ClientCorrelationValue", 0x420105); ("ServerCorrelationValue", 0x420106); ("DigestedData", 0x420107);
   ("CertificateSubjectCN", 0x420108); ("CertificateSubjectO", 0x420109);
   ("CertificateSubjectOU", 0x42010a); ("CertificateSubjectEmail", 0x42010b);
   ("CertificateSubjectC", 0x42010c); ("CertificateSubjectST", 0x42010d);
   ("CertificateSubjectL", 0x42010e); ("CertificateSubjectUID", 0x42010f);
   ("CertificateSubjectSerialNumber", 0x420110); ("CertificateSubjectTitle", 0x420111);
   ("CertificateSubjectDC", 0x420112); ("CertificateSubjectDNQualifier", 0x420113);
   ("CertificateIssuerCN", 0x420114); ("CertificateIssuerO", 0x420115); ("CertificateIssuerOU", 0x420116);
   ("CertificateIssuerEmail", 0x420117); ("CertificateIssuerC", 0x420118);
   ("CertificateIssuerST", 0x420119); ("CertificateIssuerL", 0x42011a); ("CertificateIssuerUID", 0x42011b);
   ("CertificateIssuerSerialNumber", 0x42011c); ("CertificateIssuerTitle", 0x42011d);
   ("CertificateIssuerDC", 0x42011e); ("CertificateIssuerDNQualifier", 0x42011f); ("Sensitive", 0x420120);
   ("AlwaysSensitive", 0x420121); ("Extractable", 0x420122); ("NeverExtractable", 0x420123);
   ("ReplaceExisting", 0x420124)]%string.

(** The enumerators, without their prefix KMIP_TAG_, with their values. *)
Definition kmip_tag_type_t : list (string * Z) := kmip_tag_type_1 ++ kmip_tag_type_2.

(** The value of an enumerator. *)
Definition KMIP_TAG (name : string) : Z :=
  match find (fun '(n, _) => bool_decide (n = name)) kmip_tag_type_t with Some (_, v) => v | None => 0 end.

(** ** Names *)

(** The cases of the [switch], in order: an enumerator and its string. *)
Definition tag_cases_1 : list (string * string) :=
  [("ActivationDate", "ActivationDate"); ("ApplicationData", "ApplicationData");
   ("ApplicationNamespace", "ApplicationNamespace");
   ("ApplicationSpecificInformation", "ApplicationSpecificInformation"); ("ArchiveDate", "ArchiveDate");
   ("AsynchronousCorrelationValue", "AsynchronousCorrelationValue");
   ("AsynchronousIndicator", "AsynchronousIndicator"); ("Attribute", "Attribute");
   ("AttributeIndex", "AttributeIndex"); ("AttributeName", "AttributeName");
   ("AttributeValue", "AttributeValue"); ("Authentication", "Authentication");
   ("BatchCount", "BatchCount"); ("BatchErrorContinuationOption", "BatchErrorContinuationOption");
   ("BatchItem", "BatchItem"); ("BatchOrderOption", "BatchOrderOption");
   ("BlockCipherMode", "BlockCipherMode"); ("CancellationResult", "CancellationResult");
   ("Certificate", "Certificate"); ("CertificateIdentifier", "CertificateIdentifier");
   ("CertificateIssuer", "CertificateIssuer");
   ("CertificateIssuerAlternativeName", "CertificateIssuerAlternativeName");
   ("CertificateIssuerDistinguishedName", "CertificateIssuerDistinguishedName");
   ("CertificateRequest", "CertificateRequest"); ("CertificateRequestType", "CertificateRequestType");
   ("CertificateSubject", "CertificateSubject");
   ("CertificateSubjectAlternativeName", "CertificateSubjectAlternativeName");
   ("CertificateSubjectDistinguishedName", "CertificateSubjectDistinguishedName");
   ("CertificateType", "CertificateType"); ("CertificateValue", "CertificateValue");
   ("CommonTemplateAttribute", "CommonTemplateAttribute"); ("CompromiseDate", "CompromiseDate");
   ("CompromiseOccurrenceDate", "CompromiseOccurrenceDate"); ("ContactInformation", "ContactInformation");
   ("Credential", "Credential"); ("CredentialType", "CredentialType");
   ("CredentialValue", "CredentialValue"); ("CriticalityIndicator", "CriticalityIndicator");
   ("CRTCoefficient", "CRTCoefficient"); ("CryptographicAlgorithm", "CryptographicAlgorithm");
   ("CryptographicDomainParameters", "CryptographicDomainParameters");
   ("CryptographicLength", "CryptographicLength"); ("CryptographicParameters", "CryptographicParameters");
   ("CryptographicUsageMask", "CryptographicUsageMask"); ("CustomAttribute", "CustomAttribute");
   ("D", "D"); ("DeactivationDate", "DeactivationDate"); ("DerivationData", "DerivationData");
   ("DerivationMethod", "DerivationMethod"); ("DerivationParameters", "DerivationParameters");
   ("DestroyDate", "DestroyDate"); ("Digest", "Digest"); ("DigestValue", "DigestValue");
   ("EncryptionKeyInformation", "EncryptionKeyInformation"); ("G", "G");
   ("HashingAlgorithm", "HashingAlgorithm"); ("InitialDate", "InitialDate");
   ("InitializationVector", "InitializationVector"); ("Issuer", "Issuer");
   ("IterationCount", "IterationCount"); ("IVCounterNonce", "IVCounterNonce"); ("J", "J"); ("Key", "Key");
   ("KeyBlock", "KeyBlock"); ("KeyCompressionType", "KeyCompressionType");
   ("KeyFormatType", "KeyFormatType"); ("KeyMaterial", "KeyMaterial");
   ("KeyPartIdentifier", "KeyPartIdentifier"); ("KeyValue", "KeyValue");
   ("KeyWrappingData", "KeyWrappingData"); ("KeyWrappingSpecification", "KeyWrappingSpecification");
   ("LastChangeDate", "LastChangeDate"); ("LeaseTime", "LeaseTime")]%string.

Definition tag_cases_2 : list (string * string) :=
  [("Link", "Link"); ("LinkType", "LinkType"); ("LinkedObjectIdentifier", "LinkedObjectIdentifier");
   ("MACSignature", "MACSignature"); ("MACSignatureKeyInformation", "MACSignatureKeyInformation");
   ("MaximumItems", "MaximumItems"); ("MaximumResponseSize", "MaximumResponseSize");
   ("MessageExtension", "MessageExtension"); ("Modulus", "Modulus"); ("Name", "Name");
   ("NameType", "NameType"); ("NameValue", "NameValue"); ("ObjectGroup", "ObjectGroup");
   ("ObjectType", "ObjectType"); ("Offset", "Offset"); ("OpaqueDataType", "OpaqueDataType");
   ("OpaqueDataValue", "OpaqueDataValue"); ("OpaqueObject", "OpaqueObject"); ("Operation", "Operation");
   ("OperationPolicyName", "OperationPolicyName"); ("P", "P"); ("PaddingMethod", "PaddingMethod");
   ("PrimeExponentP", "PrimeExponentP"); ("PrimeExponentQ", "PrimeExponentQ");
   ("PrimeFieldSize", "PrimeFieldSize"); ("PrivateExponent", "PrivateExponent");
   ("PrivateKey", "PrivateKey"); ("PrivateKeyTemplateAttribute", "PrivateKeyTemplateAttribute");
   ("PrivateKeyUniqueIdentifier", "PrivateKeyUniqueIdentifier"); ("ProcessStartDate", "ProcessStartDate");
   ("ProtectStopDate", "ProtectStopDate"); ("ProtocolVersion", "ProtocolVersion");
   ("ProtocolVersionMajor", "ProtocolVersionMajor"); ("ProtocolVersionMinor", "ProtocolVersionMinor");
   ("PublicExponent", "PublicExponent"); ("PublicKey", "PublicKey");
   ("PublicKeyTemplateAttribute", "PublicKeyTemplateAttribute");
   ("PublicKeyUniqueIdentifier", "PublicKeyUniqueIdentifier"); ("PutFunction", "PutFunction"); ("Q", "Q");
   ("QString", "QString"); ("Qlength", "Qlength"); ("QueryFunction", "QueryFunction");
   ("RecommendedCurve", "RecommendedCurve"); ("ReplacedUniqueIdentifier", "ReplacedUniqueIdentifier");
   ("RequestHeader", "RequestHeader"); ("RequestMessage", "RequestMessage");
   ("RequestPayload", "RequestPayload"); ("ResponseHeader", "ResponseHeader");
   ("ResponseMessage", "ResponseMessage"); ("ResponsePayload", "ResponsePayload");
   ("ResultMessage", "ResultMessage"); ("ResultReason", "ResultReason"); ("ResultStatus", "ResultStatus");
   ("RevocationMessage", "RevocationMessage"); ("RevocationReason", "RevocationReason");
   ("RevocationReasonCode", "RevocationReasonCode"); ("KeyRoleType", "KeyRoleType"); ("Salt", "Salt");
   ("SecretData", "SecretData"); ("SecretDataType", "SecretDataType"); ("SerialNumber", "SerialNumber");
   ("ServerInformation", "ServerInformation"); ("SplitKey", "SplitKey");
   ("SplitKeyMethod", "SplitKeyMethod"); ("SplitKeyParts", "SplitKeyParts");
   ("SplitKeyThreshold", "SplitKeyThreshold"); ("State", "State");
   ("StorageStatusMask", "StorageStatusMask"); ("SymmetricKey", "SymmetricKey"); ("Template", "Template");
   ("TemplateAttribute", "TemplateAttribute"); ("TimeStamp", "TimeStamp")]%string.

Definition tag_cases_3 : list (string * string) :=
  [("UniqueBatchItemID", "UniqueBatchItemID"); ("UniqueIdentifier", "UniqueIdentifier");
   ("UsageLimits", "UsageLimits"); ("UsageLimitsCount", "UsageLimitsCount");
   ("UsageLimitsTotal", "UsageLimitsTotal"); ("UsageLimitsUnit", "UsageLimitsUnit");
   ("Username", "Username"); ("ValidityDate", "ValidityDate"); ("ValidityIndicator", "ValidityIndicator");
   ("VendorExtension", "VendorExtension"); ("VendorIdentification", "VendorIdentification");
   ("WrappingMethod", "WrappingMethod"); ("X", "X"); ("Y", "Y"); ("Password", "Password");
   ("DeviceIdentifier", "DeviceIdentifier"); ("EncodingOption", "EncodingOption");
   ("ExtensionInformation", "ExtensionInformation"); ("ExtensionName", "ExtensionName");
   ("ExtensionTag", "ExtensionTag"); ("ExtensionType", "ExtensionType"); ("Fresh", "Fresh");
   ("MachineIdentifier", "MachineIdentifier"); ("MediaIdentifier", "MediaIdentifier");
   ("NetworkIdentifier", "NetworkIdentifier"); ("ObjectGroupMember", "ObjectGroupMember");
   ("CertificateLength", "CertificateLength"); ("DigitalSignatureAlgorithm", "DigitalSignatureAlgorithm");
   ("CertificateSerialNumber", "CertificateSerialNumber"); ("DeviceSerialNumber", "DeviceSerialNumber");
   ("IssuerAlternativeName", "IssuerAlternativeName");
   ("IssuerDistinguishedName", "IssuerDistinguishedName");
   ("SubjectAlternativeName", "SubjectAlternativeName");
   ("SubjectDistinguishedName", "SubjectDistinguishedName");
   ("X509CertificateIdentifier", "X509CertificateIdentifier");
   ("X509CertificateIssuer", "X509CertificateIssuer");
   ("X509CertificateSubject", "X509CertificateSubject"); ("KeyValueLocation", "KeyValueLocation");
   ("KeyValueLocationValue", "KeyValueLocationValue"); ("KeyValueLocationType", "KeyValueLocationType");
   ("KeyValuePresent", "KeyValuePresent"); ("OriginalCreationDate", "OriginalCreationDate");
   ("PGPKey", "PGPKey"); ("PGPKeyVersion", "PGPKeyVersion"); ("AlternativeName", "AlternativeName");
   ("AlternativeNameValue", "AlternativeNameValue"); ("AlternativeNameType", "AlternativeNameType");
   ("Data", "Data"); ("SignatureData", "SignatureData"); ("DataLength", "DataLength");
   ("RandomIV", "RandomIV"); ("MACData", "MACData"); ("AttestationType", "AttestationType");
   ("Nonce", "Nonce"); ("NonceID", "NonceID"); ("NonceValue", "NonceValue");
   ("AttestationMeasurement", "AttestationMeasurement"); ("AttestationAssertion", "AttestationAssertion");
   ("IVLength", "IVLength"); ("TagLength", "TagLength"); ("FixedFieldLength", "FixedFieldLength");
   ("CounterLength", "CounterLength"); ("InitialCounterValue", "InitialCounterValue");
   ("InvocationFieldLength", "InvocationFieldLength");
   ("AttestationCapableIndicator", "AttestationCapableIndicator"); ("OffsetItems", "OffsetItems");
   ("LocatedItems", "LocatedItems"); ("CorrelationValue", "CorrelationValue");
   ("InitIndicator", "InitIndicator"); ("FinalIndicator", "FinalIndicator");
   ("RNGParameters", "RNGParameters"); ("RNGAlgorithm", "RNGAlgorithm"); ("DRBGAlgorithm", "DRBGAlgorithm")]%string.

Definition tag_cases_4 : list (string * string) :=
  [("FIPS186Variation", "FIPS186Variation"); ("PredictionResistance", "PredictionResistance");
   ("RandomNumberGenerator", "RandomNumberGenerator"); ("ValidationInformation", "ValidationInformation");
   ("ValidationAuthorityType", "ValidationAuthorityType");
   ("ValidationAuthorityCountry", "ValidationAuthorityCountry");
   ("ValidationAuthorityURI", "ValidationAuthorityURI");
   ("ValidationVersionMajor", "ValidationVersionMajor");
   ("ValidationVersionMinor", "ValidationVersionMinor"); ("ValidationType", "ValidationType");
   ("ValidationLevel", "ValidationLevel");
   ("ValidationCertificateIdentifier", "ValidationCertificateIdentifier");
   ("ValidationCertificateURI", "ValidationCertificateURI");
   ("ValidationVendorURI", "ValidationVendorURI"); ("ValidationProfile", "ValidationProfile");
   ("ProfileInformation", "ProfileInformation"); ("ProfileName", "ProfileName");
   ("ServerURI", "ServerURI"); ("ServerPort", "ServerPort");
   ("StreamingCapability", "StreamingCapability"); ("AsynchronousCapability", "AsynchronousCapability");
   ("AttestationCapability", "AttestationCapability"); ("UnwrapMode", "UnwrapMode");
   ("DestroyAction", "DestroyAction"); ("ShreddingAlgorithm", "ShreddingAlgorithm");
   ("RNGMode", "RNGMode"); ("ClientRegistrationMethod", "ClientRegistrationMethod");
   ("CapabilityInformation", "CapabilityInformation"); ("KeyWrapType", "KeyWrapType");
   ("BatchUndoCapability", "BatchUndoCapability"); ("BatchContinueCapability", "BatchContinueCapability");
   ("PKCS12FriendlyName", "PKCS12FriendlyName"); ("Description", "Description"); ("Comment", "Comment");
   ("AuthenticatedEncryptionAdditionalData", "AuthenticatedEncryptionAdditionalData");
   ("AuthenticatedEncryptionTag", "AuthenticatedEncryptionTag"); ("SaltLength", "SaltLength");
   ("MaskGenerator", "MaskGenerator"); ("MaskGeneratorHashingAlgorithm", "MaskGeneratorHashingAlgorithm");
   ("PSource", "PSource"); ("TrailerField", "TrailerField");
   ("ClientCorrelationValue", "ClientCorrelationValue");
   ("ServerCorrelationValue", "ServerCorrelationValue"); ("DigestedData", "DigestedData");
   ("CertificateSubjectCN", "CertificateSubjectCN"); ("CertificateSubjectO", "CertificateSubjectO");
   ("CertificateSubjectOU", "CertificateSubjectOU");
   ("CertificateSubjectEmail", "CertificateSubjectEmail"); ("CertificateSubjectC", "CertificateSubjectC");
   ("CertificateSubjectST", "CertificateSubjectST"); ("CertificateSubjectL", "CertificateSubjectL");
   ("CertificateSubjectUID", "CertificateSubjectUID");
   ("CertificateSubjectSerialNumber", "CertificateSubjectSerialNumber");
   ("CertificateSubjectTitle", "CertificateSubjectTitle");
   ("CertificateSubjectDC", "CertificateSubjectDC");
   ("CertificateSubjectDNQualifier", "CertificateSubjectDNQualifier");
   ("CertificateIssuerCN", "CertificateIssuerCN"); ("CertificateIssuerO", "CertificateIssuerO");
   ("CertificateIssuerOU", "CertificateIssuerOU"); ("CertificateIssuerEmail", "CertificateIssuerEmail");
   ("CertificateIssuerC", "CertificateIssuerC"); ("CertificateIssuerST", "CertificateIssuerST");
   ("CertificateIssuerL", "CertificateIssuerL"); ("CertificateIssuerUID", "CertificateIssuerUID");
   ("CertificateIssuerSerialNumber", "CertificateIssuerSerialNumber");
   ("CertificateIssuerTitle", "CertificateIssuerTitle"); ("CertificateIssuerDC", "CertificateIssuerDC");
   ("CertificateIssuerDNQualifier", "CertificateIssuerDNQualifier"); ("Sensitive", "Sensitive");
   ("AlwaysSensitive", "AlwaysSensitive"); ("Extractable", "Extractable");
   ("NeverExtractable", "NeverExtractable"); ("ReplaceExisting", "ReplaceExisting")]%string.

Definition tag_cases : list (string * string) := tag_cases_1 ++ tag_cases_2 ++ tag_cases_3 ++ tag_cases_4.

Definition kmip_tag_type_to_string (tag : Z) : bytes :=
  match find (fun '(n, _) => KMIP_TAG n =? tag) tag_cases with
  | Some (_, s) => txt s
  | None => txt "(Unknown Tag)"
  end.

(** ** [kmip_item_type_t] *)

Definition KMIP_ITEM_TYPE_Structure : Z := 1.
Definition KMIP_ITEM_TYPE_Integer : Z := 2.
Definition KMIP_ITEM_TYPE_LongInteger : Z := 3.
Definition KMIP_ITEM_TYPE_BigInteger : Z := 4.
Definition KMIP_ITEM_TYPE_Enumeration : Z := 5.
Definition KMIP_ITEM_TYPE_Boolean : Z := 6.
Definition KMIP_ITEM_TYPE_TextString : Z := 7.
Definition KMIP_ITEM_TYPE_ByteString : Z := 8.
Definition KMIP_ITEM_TYPE_DateTime : Z := 9.
Definition KMIP_ITEM_TYPE_Interval : Z := 10.

Definition kmip_item_type_to_string (type : Z) : bytes :=
  if type =? KMIP_ITEM_TYPE_Structure then txt "Structure"
  else if type =? KMIP_ITEM_TYPE_Integer then txt "Integer"
  else if type =? KMIP_ITEM_TYPE_LongInteger then txt "LongInteger"
  else if type =? KMIP_ITEM_TYPE_BigInteger then txt "BigInteger"
  else if type =? KMIP_ITEM_TYPE_Enumeration then txt "Enumeration"
  else if type =? KMIP_ITEM_TYPE_Boolean then txt "Boolean"
  else if type =? KMIP_ITEM_TYPE_TextString then txt "TextString"
  else if type =? KMIP_ITEM_TYPE_ByteString then txt "ByteString"
  else if type =? KMIP_ITEM_TYPE_DateTime then txt "DateTime"
  else if type =? KMIP_ITEM_TYPE_Interval then txt "Interval"
  else txt "(Unknown Type)".

(** ** Facts *)

(** The enumerators are numbered in order from 0x420001. *)
Lemma kmip_tags_numbered : map snd kmip_tag_type_t = map (fun i => 0x420001 + Z.of_nat i) (seq 0 (length kmip_tag_type_t)).
Proof. vm_compute. reflexivity. Qed.

(** Every tag is given its own name, and every case is a tag. *)
Lemma tag_cases_names : map fst tag_cases = map fst kmip_tag_type_t /\ map snd tag_cases = map fst kmip_tag_type_t.
Proof. split; vm_compute; reflexivity. Qed.

Lemma kmip_tag_names_known name v :
  (name, v) ∈ kmip_tag_type_t -> kmip_tag_type_to_string v = txt name.
Proof.
  intros Hin. assert (H : forallb (fun '(n, v) => bool_decide (kmip_tag_type_to_string v = txt n)) kmip_tag_type_t = true)
    by (vm_compute; reflexivity).
  rewrite forallb_forall in H. apply list_elem_of_In in Hin. specialize (H _ Hin). cbn in H.
  by apply bool_decide_eq_true in H.
Qed.

(** No name is empty or holds a character that would break the XML it is put in. *)
Lemma kmip_tag_to_string_no_nul tag : no_nul (kmip_tag_type_to_string tag).
Proof.
  unfold kmip_tag_type_to_string. destruct (find _ tag_cases) as [[n s]|] eqn:E; [|by apply no_nulb_spec].
  apply find_some in E as [Hin _].
  assert (H : forallb (fun '(_, s) => no_nulb (txt s)) tag_cases = true) by (vm_compute; reflexivity).
  rewrite forallb_forall in H. specialize (H _ Hin). by apply no_nulb_spec.
Qed.
