(* ===== verification/Kmip.v ===== *)
(** Reading and writing KMIP: [tools/kmip_dump/vendor_kms_message/
    vendor_kms_reader_writer.c]. A KMIP message is a sequence of items, each a
    tag, a type, a length and a value padded to eight bytes; a structure's value
    is a sequence of items. *)

From Stdlib Require Import Strings.String.
From S2P Require Import Prelude CString Text IntEncode KmsRequestStr KmipTags.

(** ** Byte order: [vendor_kms_endian_private.h] *)

(** The swaps written out; the compiler's builtins compute the same. *)
Definition __kms_uint16_swap_slow (v : Z) : Z :=
  Z.lor (Z.shiftl (Z.land v 0x00FF) 8) (Z.shiftr (Z.land v 0xFF00) 8).
Definition __kms_uint32_swap_slow (v : Z) : Z :=
  Z.lor (Z.lor (Z.lor (Z.shiftl (Z.land v 0x000000FF) 24) (Z.shiftl (Z.land v 0x0000FF00) 8))
    (Z.shiftr (Z.land v 0x00FF0000) 8)) (Z.shiftr (Z.land v 0xFF000000) 24).
Definition __kms_uint64_swap_slow (v : Z) : Z :=
  Z.lor (Z.lor (Z.lor (Z.lor (Z.lor (Z.lor (Z.lor
    (Z.shiftl (Z.land v 0x00000000000000FF) 56) (Z.shiftl (Z.land v 0x000000000000FF00) 40))
    (Z.shiftl (Z.land v 0x0000000000FF0000) 24)) (Z.shiftl (Z.land v 0x00000000FF000000) 8))
    (Z.shiftr (Z.land v 0x000000FF00000000) 8)) (Z.shiftr (Z.land v 0x0000FF0000000000) 24))
    (Z.shiftr (Z.land v 0x00FF000000000000) 40)) (Z.shiftr (Z.land v 0xFF00000000000000) 56).

(** [size_t compute_padded_length (size_t len)] *)
Definition compute_padded_length (len : Z) : Z :=
  if len mod 8 =? 0 then len else let padding := 8 - len mod 8 in u64 (len + padding).

(** ** The writer *)

Definition MAX_KMIP_WRITER_POSITIONS : Z := 10.

Record kmip_writer_t := KmipWriter { kw_buffer : kms_request_str_t; kw_positions : list Z; kw_cur_pos : Z }.

Section Writer.
Context (malloc : Z -> bytes).
Implicit Types (writer : kmip_writer_t).

Definition kmip_writer_new : option kmip_writer_t :=
  buffer ← kms_request_str_new malloc;
  Some (KmipWriter buffer (replicate (Z.to_nat MAX_KMIP_WRITER_POSITIONS) 0) 0).

(** The bytes of a value in memory, appended. *)
Definition write_raw writer (c : bytes) (n : Z) : option kmip_writer_t :=
  buffer ← kms_request_str_append_chars malloc (kw_buffer writer) c n;
  Some (KmipWriter buffer (kw_positions writer) (kw_cur_pos writer)).

Definition kmip_writer_write_u8 writer (value : Z) := write_raw writer (le_bytes 1 (u8 value)) 1.
Definition kmip_writer_write_u16 writer (value : Z) :=
  write_raw writer (le_bytes 2 (__kms_uint16_swap_slow (value mod 2 ^ 16))) 2.
Definition kmip_writer_write_u32 writer (value : Z) :=
  write_raw writer (le_bytes 4 (__kms_uint32_swap_slow (u32 value))) 4.
Definition kmip_writer_write_u64 writer (value : Z) :=
  write_raw writer (le_bytes 8 (__kms_uint64_swap_slow (u64 value))) 8.

Definition kmip_writer_write_tag_enum writer (tag : Z) : option kmip_writer_t :=
  writer ← kmip_writer_write_u8 writer 0x42; kmip_writer_write_u16 writer tag.

(** [for (i = 0; i < len; i++) kmip_writer_write_u8 (writer, str\[i\])] *)
Fixpoint write_chars (count : nat) writer (str : bytes) (i : Z) : option kmip_writer_t :=
  match count with
  | O => Some writer
  | S count' =>
      c ← rd str i; writer ← kmip_writer_write_u8 writer (b2z c); write_chars count' writer str (i + 1)
  end.

Fixpoint write_padding (count : nat) writer : option kmip_writer_t :=
  match count with
  | O => Some writer
  | S count' => writer ← kmip_writer_write_u8 writer 0; write_padding count' writer
  end.

Definition write_text writer (tag type : Z) (str : bytes) (len : Z) : option kmip_writer_t :=
  writer ← kmip_writer_write_tag_enum writer tag;
  writer ← kmip_writer_write_u8 writer type;
  writer ← kmip_writer_write_u32 writer (u32 len);
  writer ← write_chars (Z.to_nat len) writer str 0;
  let padded_length := compute_padded_length len in
  write_padding (Z.to_nat (u64 (padded_length - len))) writer.

Definition kmip_writer_write_string writer tag str len := write_text writer tag KMIP_ITEM_TYPE_TextString str len.
Definition kmip_writer_write_bytes writer tag str len := write_text writer tag KMIP_ITEM_TYPE_ByteString str len.

(** A 32-bit value and its padding. *)
Definition write_word writer (tag type value : Z) : option kmip_writer_t :=
  writer ← kmip_writer_write_tag_enum writer tag;
  writer ← kmip_writer_write_u8 writer type;
  writer ← kmip_writer_write_u32 writer 4;
  writer ← kmip_writer_write_u32 writer value;
  kmip_writer_write_u32 writer 0.

Definition kmip_writer_write_integer writer tag value := write_word writer tag KMIP_ITEM_TYPE_Integer value.
Definition kmip_writer_write_enumeration writer tag value := write_word writer tag KMIP_ITEM_TYPE_Enumeration value.

(** A 64-bit value. *)
Definition write_long writer (tag type value : Z) : option kmip_writer_t :=
  writer ← kmip_writer_write_tag_enum writer tag;
  writer ← kmip_writer_write_u8 writer type;
  writer ← kmip_writer_write_u32 writer 8;
  kmip_writer_write_u64 writer value.

Definition kmip_writer_write_long_integer writer tag value := write_long writer tag KMIP_ITEM_TYPE_LongInteger value.
Definition kmip_writer_write_datetime writer tag value := write_long writer tag KMIP_ITEM_TYPE_DateTime value.

(** [KMS_ASSERT] aborts; a store outside the array of positions is undefined. *)
Definition kmip_writer_begin_struct writer (tag : Z) : option kmip_writer_t :=
  writer ← kmip_writer_write_tag_enum writer tag;
  writer ← kmip_writer_write_u8 writer KMIP_ITEM_TYPE_Structure;
  let pos := ks_len (kw_buffer writer) in
  writer ← kmip_writer_write_u32 writer 0;
  if kw_cur_pos writer <? MAX_KMIP_WRITER_POSITIONS then
    let cur_pos := kw_cur_pos writer + 1 in
    if cur_pos <? zlen (kw_positions writer)
    then Some (KmipWriter (kw_buffer writer) (<[Z.to_nat cur_pos := pos]> (kw_positions writer)) cur_pos)
    else None
  else None.

Definition kmip_writer_close_struct writer : option kmip_writer_t :=
  let current_pos := ks_len (kw_buffer writer) in
  if 0 <? kw_cur_pos writer then
    start_pos ← kw_positions writer !! Z.to_nat (kw_cur_pos writer);
    let cur_pos := kw_cur_pos writer - 1 in
    let len := u32 (current_pos - start_pos - 4) in
    m ← store (ks_str (kw_buffer writer)) start_pos (le_bytes 4 (__kms_uint32_swap_slow len));
    Some (KmipWriter (KmsStr m current_pos (ks_size (kw_buffer writer))) (kw_positions writer) cur_pos)
  else None.

Definition kmip_writer_get_buffer writer : Z * bytes := (ks_len (kw_buffer writer), ks_str (kw_buffer writer)).
End Writer.

(** ** The reader *)

Record kmip_reader_t := KmipReader { kr_ptr : bytes; kr_pos : Z; kr_len : Z }.

(** What a reading function returns, what it stored through its pointer, if it
    did, and the reader. *)
Abbreviation kmip_read T := (option (bool * option T * kmip_reader_t)).

Definition kmip_reader_new (ptr : bytes) (len : Z) : kmip_reader_t := KmipReader ptr 0 len.

(** The reader made, if any: [pos] is checked, but the bytes are those at the
    reader's own position. *)
Definition kmip_reader_in_place (reader : kmip_reader_t) (pos len : Z) : option (option kmip_reader_t) :=
  let len := compute_padded_length len in
  if kr_len reader <? u64 (pos + len) then Some None else
  p ← padd (kr_ptr reader) (kr_pos reader);
  Some (Some (KmipReader p 0 len)).

Definition kmip_reader_has_data (reader : kmip_reader_t) : bool := kr_pos reader <? kr_len reader.

(** [CHECK_REMAINING_BUFFER_AND_RET] *)
Definition remaining (reader : kmip_reader_t) (read_size : Z) : bool :=
  negb (kr_len reader <? u64 (kr_pos reader + read_size)).

Definition advance (reader : kmip_reader_t) (n : Z) : kmip_reader_t :=
  KmipReader (kr_ptr reader) (u64 (kr_pos reader + n)) (kr_len reader).

(** A big-endian integer of [n] bytes, swapped from memory order. *)
Definition read_int (n : Z) (swap : Z -> Z) (reader : kmip_reader_t) : kmip_read Z :=
  if remaining reader n then
    b ← slice (kr_ptr reader) (kr_pos reader) n;
    Some (true, Some (swap (le_val b)), advance reader n)
  else Some (false, None, reader).

Definition kmip_reader_read_u8 := read_int 1 (fun v => v).
Definition kmip_reader_read_u16 := read_int 2 __kms_uint16_swap_slow.
Definition kmip_reader_read_u32 := read_int 4 __kms_uint32_swap_slow.
Definition kmip_reader_read_u64 := read_int 8 __kms_uint64_swap_slow.

(** The pointer to the bytes, and past their padding. *)
Definition kmip_reader_read_bytes (reader : kmip_reader_t) (length : Z) : kmip_read bytes :=
  let advance_length := compute_padded_length length in
  if remaining reader advance_length then
    p ← padd (kr_ptr reader) (kr_pos reader);
    Some (true, Some p, advance reader advance_length)
  else Some (false, None, reader).

Definition kmip_reader_read_tag (reader : kmip_reader_t) : kmip_read Z :=
  '(ok, tag_first, reader) ← kmip_reader_read_u8 reader;
  if negb ok then Some (false, None, reader) else
  tag_first ← tag_first;
  if negb (tag_first =? 0x42) then Some (false, None, reader) else
  '(ok, tag_second, reader) ← kmip_reader_read_u16 reader;
  if negb ok then Some (false, None, reader) else
  tag_second ← tag_second;
  Some (true, Some (0x420000 + tag_second), reader).

Definition kmip_reader_read_length (reader : kmip_reader_t) : kmip_read Z := kmip_reader_read_u32 reader.
Definition kmip_reader_read_type (reader : kmip_reader_t) : kmip_read Z := kmip_reader_read_u8 reader.

(** A 32-bit value, stored before its padding is read. *)
Definition read_padded_word (cast : Z -> Z) (reader : kmip_reader_t) : kmip_read Z :=
  '(ok, v, reader) ← kmip_reader_read_u32 reader;
  if negb ok then Some (false, None, reader) else
  '(ok, _, reader) ← kmip_reader_read_u32 reader;
  v ← v; Some (ok, Some (cast v), reader).

Definition kmip_reader_read_enumeration := read_padded_word (fun v => v).
Definition kmip_reader_read_integer := read_padded_word s32.

Definition kmip_reader_read_long_integer (reader : kmip_reader_t) : kmip_read Z :=
  '(ok, v, reader) ← kmip_reader_read_u64 reader; Some (ok, option_map s64 v, reader).

Definition kmip_reader_read_string := kmip_reader_read_bytes.

(** ** Searching *)

(** The loop of [kmip_reader_find]: the position and length of the value. *)
Fixpoint kmip_find_loop (fuel : nat) (reader : kmip_reader_t) (search_tag type : Z) : kmip_read (Z * Z) :=
  if negb (kmip_reader_has_data reader) then Some (false, None, reader) else
  match fuel with
  | O => None
  | S fuel' =>
      '(ok, read_tag, reader) ← kmip_reader_read_tag reader;
      if negb ok then Some (false, None, reader) else
      '(ok, read_type, reader) ← kmip_reader_read_type reader;
      if negb ok then Some (false, None, reader) else
      '(ok, read_length, reader) ← kmip_reader_read_length reader;
      if negb ok then Some (false, None, reader) else
      read_tag ← read_tag; read_type ← read_type; read_length ← read_length;
      if (read_tag =? search_tag) && (read_type =? type) then Some (true, Some (kr_pos reader, read_length), reader) else
      let advance_length := compute_padded_length read_length in
      if remaining reader advance_length then kmip_find_loop fuel' (advance reader advance_length) search_tag type
      else Some (false, None, reader)
  end.

Definition kmip_reader_find (reader : kmip_reader_t) (search_tag type : Z) : kmip_read (Z * Z) :=
  kmip_find_loop (Z.to_nat (kr_len reader)) (KmipReader (kr_ptr reader) 0 (kr_len reader)) search_tag type.

(** The tag is a [size_t] here, converted to the enumeration. *)
Definition kmip_reader_find_and_recurse (reader : kmip_reader_t) (tag : Z) : option (bool * kmip_reader_t) :=
  '(ok, found, reader) ← kmip_reader_find reader (u32 tag) KMIP_ITEM_TYPE_Structure;
  if negb ok then Some (false, reader) else
  '(pos, length) ← found;
  p ← padd (kr_ptr reader) pos;
  Some (true, KmipReader p 0 length).

Definition kmip_reader_find_and_read_enum (reader : kmip_reader_t) (tag : Z) : kmip_read Z :=
  '(ok, found, reader) ← kmip_reader_find reader (u32 tag) KMIP_ITEM_TYPE_Enumeration;
  if negb ok then Some (false, None, reader) else
  '(pos, length) ← found;
  temp_reader ← kmip_reader_in_place reader pos length;
  match temp_reader with
  | None => Some (false, None, reader)
  | Some temp_reader => '(ok, v, _) ← kmip_reader_read_enumeration temp_reader; Some (ok, v, reader)
  end.

(** The pointer and the length of a byte string; the length is stored first. *)
Definition kmip_reader_find_and_read_bytes (reader : kmip_reader_t) (tag : Z) :
    option (bool * option bytes * option Z * kmip_reader_t) :=
  '(ok, found, reader) ← kmip_reader_find reader (u32 tag) KMIP_ITEM_TYPE_ByteString;
  if negb ok then Some (false, None, None, reader) else
  '(pos, out_len) ← found;
  temp_reader ← kmip_reader_in_place reader pos out_len;
  match temp_reader with
  | None => Some (false, None, Some out_len, reader)
  | Some temp_reader =>
      '(ok, p, _) ← kmip_reader_read_bytes temp_reader out_len; Some (ok, p, Some out_len, reader)
  end.
