(* ===== verification/KmipSpec.v ===== *)
(** What a KMIP message is: items as trees, their encoding, and the byte
    order of the integers it is made of. *)

From Stdlib Require Import Strings.String.
From S2P Require Import Prelude CString Text IntEncode BigEndian KmipTags KmsRequestStr Kmip.

(** ** Byte order *)

#[local] Opaque byte_at.

Lemma swap16_rev b : zlen b = 2 -> __kms_uint16_swap_slow (le_val b) = le_val (rev b).
Proof.
  intros H. destruct b as [|b0 [|b1 [|? ?]]]; try (unfold zlen in H; simpl in H; lia).
  unfold __kms_uint16_swap_slow. swap_bytes.
Qed.

Lemma swap32_rev b : zlen b = 4 -> __kms_uint32_swap_slow (le_val b) = le_val (rev b).
Proof.
  intros H. destruct b as [|b0 [|b1 [|b2 [|b3 [|? ?]]]]]; try (unfold zlen in H; simpl in H; lia).
  unfold __kms_uint32_swap_slow. swap_bytes.
Qed.

Lemma swap64_rev b : zlen b = 8 -> __kms_uint64_swap_slow (le_val b) = le_val (rev b).
Proof.
  intros H. destruct b as [|b0 [|b1 [|b2 [|b3 [|b4 [|b5 [|b6 [|b7 [|? ?]]]]]]]]]; try (unfold zlen in H; simpl in H; lia).
  unfold __kms_uint64_swap_slow. swap_bytes.
Qed.

(** Storing a swapped value stores it big-endian, and reading one swaps it back. *)
Section Swap.
Context (n : nat) (swap : Z -> Z).
Hypothesis Hrev : forall b, zlen b = Z.of_nat n -> swap (le_val b) = le_val (rev b).

Lemma swap_bytes_be v : 0 <= v < 256 ^ Z.of_nat n -> le_bytes n (swap v) = be_bytes n v.
Proof.
  intros Hv. rewrite <- (Z.mod_small v (256 ^ Z.of_nat n)) at 1 by done. rewrite <- le_val_le_bytes.
  rewrite Hrev by zl. apply le_bytes_le_val. unfold be_bytes. by rewrite length_rev, length_le_bytes.
Qed.

Lemma swap_be_val v : 0 <= v < 256 ^ Z.of_nat n -> swap (le_val (be_bytes n v)) = v.
Proof.
  intros Hv. rewrite Hrev by zl. unfold be_bytes. rewrite rev_involutive, le_val_le_bytes. by apply Z.mod_small.
Qed.
End Swap.

(** ** Items *)

(** A value by its item type. A big integer is its bytes; a boolean, a date and
    an interval are integers. *)
Inductive kval :=
  | KStructure (items : list (Z * kval))
  | KInteger (v : Z)
  | KLongInteger (v : Z)
  | KBigInteger (data : bytes)
  | KEnumeration (v : Z)
  | KBoolean (b : bool)
  | KTextString (s : bytes)
  | KByteString (s : bytes)
  | KDateTime (v : Z)
  | KInterval (v : Z).

Abbreviation kitem := (Z * kval)%type.

(** Induction through the nested lists. *)
Definition kscalar (v : kval) : Prop := match v with KStructure _ => False | _ => True end.

Section KvalInd.
Context (P : kval -> Prop).
Hypothesis Hscalar : forall v, kscalar v -> P v.
Hypothesis Hstruct : forall l, Forall (fun e => P e.2) l -> P (KStructure l).

Fixpoint kval_ind' (v : kval) : P v :=
  let go := fix go (l : list kitem) : Forall (fun e => P e.2) l :=
    match l with
    | [] => @List.Forall_nil _ _
    | e :: l' => @List.Forall_cons _ _ e l' (kval_ind' e.2) (go l')
    end in
  match v with
  | KStructure l => Hstruct l (go l)
  | v => Hscalar v I
  end.
End KvalInd.

Definition kval_type (v : kval) : Z :=
  match v with
  | KStructure _ => KMIP_ITEM_TYPE_Structure
  | KInteger _ => KMIP_ITEM_TYPE_Integer
  | KLongInteger _ => KMIP_ITEM_TYPE_LongInteger
  | KBigInteger _ => KMIP_ITEM_TYPE_BigInteger
  | KEnumeration _ => KMIP_ITEM_TYPE_Enumeration
  | KBoolean _ => KMIP_ITEM_TYPE_Boolean
  | KTextString _ => KMIP_ITEM_TYPE_TextString
  | KByteString _ => KMIP_ITEM_TYPE_ByteString
  | KDateTime _ => KMIP_ITEM_TYPE_DateTime
  | KInterval _ => KMIP_ITEM_TYPE_Interval
  end.

(** The zero bytes after a value of [n] bytes. *)
Definition pad (n : Z) : bytes := replicate (Z.to_nat ((- n) mod 8)) x00.

(** An item around the bytes of its value. *)
Definition wrap_item (tag type : Z) (body : bytes) : bytes :=
  be_bytes 3 tag ++ [z2b type] ++ be_bytes 4 (zlen body) ++ body ++ pad (zlen body).

Arguments wrap_item : simpl never.
Arguments be_bytes : simpl never.

Fixpoint kbody (v : kval) : bytes :=
  let enc_items := fix enc_items (l : list kitem) : bytes :=
    match l with
    | [] => []
    | (tag, v) :: l' => wrap_item tag (kval_type v) (kbody v) ++ enc_items l'
    end in
  match v with
  | KStructure l => enc_items l
  | KInteger v => be_bytes 4 (u32 v)
  | KLongInteger v => be_bytes 8 (u64 v)
  | KBigInteger data => data
  | KEnumeration v => be_bytes 4 v
  | KBoolean b => be_bytes 8 (Z.b2z b)
  | KTextString s | KByteString s => s
  | KDateTime v => be_bytes 8 (u64 v)
  | KInterval v => be_bytes 4 v
  end.

Definition enc_item (e : kitem) : bytes := wrap_item e.1 (kval_type e.2) (kbody e.2).
Fixpoint enc_items (l : list kitem) : bytes :=
  match l with [] => [] | e :: l' => enc_item e ++ enc_items l' end.

Lemma kbody_structure l : kbody (KStructure l) = enc_items l.
Proof. cbn [kbody]. induction l as [|[tag v] l IH]; [done|]. cbn [enc_items]. by rewrite <- IH. Qed.

(** ** Well-formedness: values fit their fields, tags are the protocol's. *)

Definition wf_tag (tag : Z) : Prop := 0x420000 <= tag <= 0x42FFFF.

Fixpoint wf_kval (v : kval) : Prop :=
  let wf_items := fix wf_items (l : list kitem) : Prop :=
    match l with
    | [] => True
    | (tag, v) :: l' => (wf_tag tag /\ wf_kval v /\ zlen (kbody v) < 2 ^ 32 - 8) /\ wf_items l'
    end in
  match v with
  | KStructure l => wf_items l
  | KInteger v => is_s32 v
  | KLongInteger v | KDateTime v => is_s64 v
  | KEnumeration v | KInterval v => is_u32 v
  | KBigInteger _ | KBoolean _ | KTextString _ | KByteString _ => True
  end.

Definition wf_item (e : kitem) : Prop := wf_tag e.1 /\ wf_kval e.2 /\ zlen (kbody e.2) < 2 ^ 32 - 8.
Definition wf_items (l : list kitem) : Prop := Forall wf_item l.

Lemma wf_structure l : wf_kval (KStructure l) <-> wf_items l.
Proof.
  unfold wf_items. cbn [wf_kval]. induction l as [|[tag v] l IH]; [by rewrite Forall_nil|].
  rewrite Forall_cons, <- IH. done.
Qed.

Fixpoint wf_kvalb (v : kval) : bool :=
  let go := fix go (l : list kitem) : bool :=
    match l with
    | [] => true
    | (tag, v) :: l' =>
        (0x420000 <=? tag) && (tag <=? 0x42FFFF) && wf_kvalb v && (zlen (kbody v) <? 2 ^ 32 - 8) && go l'
    end in
  match v with
  | KStructure l => go l
  | KInteger v => (- 2 ^ 31 <=? v) && (v <? 2 ^ 31)
  | KLongInteger v | KDateTime v => (- 2 ^ 63 <=? v) && (v <? 2 ^ 63)
  | KEnumeration v | KInterval v => (0 <=? v) && (v <? 2 ^ 32)
  | KBigInteger _ | KBoolean _ | KTextString _ | KByteString _ => true
  end.

Lemma wf_kvalb_sound v : wf_kvalb v = true -> wf_kval v.
Proof.
  induction v as [v Hv|l IH] using kval_ind'.
  - destruct v; [done|..]; cbn [wf_kvalb wf_kval]; unfold is_s32, is_s64, is_u32;
      rewrite ?andb_true_iff, ?Z.leb_le, ?Z.ltb_lt; done.
  - cbn [wf_kvalb wf_kval]. induction IH as [|[tag v] l IHv _ IHl]; [done|].
    rewrite !andb_true_iff, !Z.leb_le, Z.ltb_lt. unfold wf_tag. cbn [snd] in IHv. intros [[[[? ?] ?] ?] ?].
    split; [|by apply IHl]. split; [lia|]. split; [by apply IHv|lia].
Qed.
Lemma wf_items_dec l : wf_kvalb (KStructure l) = true -> wf_items l.
Proof. intros. by apply wf_structure, wf_kvalb_sound. Qed.

(** ** Lengths *)

Lemma zlen_pad n : zlen (pad n) = (- n) mod 8.
Proof. unfold pad. rewrite zlen_replicate, Z2Nat.id; [done|]. apply Z.mod_pos_bound. lia. Qed.
#[export] Hint Rewrite zlen_pad zlen_rev : zlen.

Lemma compute_padded_length_spec n : 0 <= n < 2 ^ 64 - 8 -> compute_padded_length n = n + (- n) mod 8.
Proof.
  intros Hn. unfold compute_padded_length. destruct (Z.eqb_spec (n mod 8) 0) as [E|E].
  - rewrite Z.mod_opp_l_z by lia. lia.
  - rewrite Z.mod_opp_l_nz by lia. pose proof (Z.mod_pos_bound n 8 ltac:(lia)). apply u64_id. lia.
Qed.

Lemma zlen_wrap_item tag type body : zlen (wrap_item tag type body) = 8 + (zlen body + (- zlen body) mod 8).
Proof. unfold wrap_item. rewrite !zlen_app, !zlen_be_bytes, zlen_pad, zlen_1. lia. Qed.

(** Items take a whole number of eight bytes. *)
Lemma enc_items_aligned l : (- zlen (enc_items l)) mod 8 = 0.
Proof.
  induction l as [|[tag v] l IH]; [done|]. cbn [enc_items]. unfold enc_item. rewrite zlen_app, zlen_wrap_item.
  Z.to_euclidean_division_equations. lia.
Qed.

(** ** Fields *)

Lemma be_bytes_tag tag : wf_tag tag -> be_bytes 3 tag = [z2b 0x42] ++ be_bytes 2 (tag - 0x420000).
Proof.
  intros [H1 H2]. unfold be_bytes. change 3%nat with (2 + 1)%nat. rewrite le_bytes_app, rev_app_distr. f_equal.
  - change (256 ^ Z.of_nat 2) with 65536. replace (tag / 65536) with 66; [done|]. Z.to_euclidean_division_equations. lia.
  - f_equal. rewrite <- (le_bytes_mod 2 tag). f_equal. change (256 ^ Z.of_nat 2) with 65536.
    Z.to_euclidean_division_equations. lia.
Qed.

Lemma pad_4 : pad 4 = be_bytes 4 0.
Proof. vm_compute. reflexivity. Qed.
