(* ===== verification/KmipReadSpec.v ===== *)
(** The KMIP reader: every read on a message that has the bytes, and the
    searches, on encoded items and on arbitrary bytes. *)

From S2P Require Import Prelude CString Text IntEncode BigEndian KmipTags KmsRequestStr Kmip KmipSpec.

(** ** Reading what is there *)

(** The reader is past [a] and before [w], which its length allows. *)
Definition at_ (r : kmip_reader_t) (a w : bytes) : Prop :=
  (exists b, kr_ptr r = a ++ w ++ b) /\ kr_pos r = zlen a /\ zlen a + zlen w <= kr_len r < 2 ^ 62.

(** It is the whole rest. *)
Definition at_rest (r : kmip_reader_t) (a w : bytes) : Prop := at_ r a w /\ kr_len r = zlen a + zlen w.

Lemma remaining_spec r a w n : at_ r a w -> 0 <= n < 2 ^ 63 -> remaining r n = (zlen a + n <=? kr_len r).
Proof.
  intros (_ & Hp & Hl) Hn. unfold remaining. rewrite Hp. pose proof (zlen_nonneg a). pose proof (zlen_nonneg w).
  rewrite u64_id by lia. destruct (Z.ltb_spec (kr_len r) (zlen a + n)), (Z.leb_spec (zlen a + n) (kr_len r)); lia || done.
Qed.

Lemma at_advance r a w w' : at_ r a (w ++ w') -> at_ (advance r (zlen w)) (a ++ w) w'.
Proof.
  intros ([b E] & Hp & Hl). rewrite zlen_app in Hl. pose proof (zlen_nonneg a). pose proof (zlen_nonneg w).
  pose proof (zlen_nonneg w'). split; [|cbn; rewrite Hp, u64_id, zlen_app by lia; split; [done|lia]].
  exists b. cbn. by rewrite E, <- !app_assoc.
Qed.

(** The same memory and length: only the position moved. *)
Definition same (r r' : kmip_reader_t) : Prop := kr_ptr r' = kr_ptr r /\ kr_len r' = kr_len r.

Lemma at_same r r' a w : same r r' -> at_ r' a w -> r' = KmipReader (kr_ptr r) (zlen a) (kr_len r).
Proof. intros [Hp Hl] (_ & Hpos & _). destruct r'. cbn in *. by subst. Qed.

Lemma has_data_spec r a w : at_rest r a w -> kmip_reader_has_data r = negb (zlen w =? 0).
Proof.
  intros [(_ & Hp & _) Hl]. unfold kmip_reader_has_data. rewrite Hp, Hl. pose proof (zlen_nonneg w).
  destruct (Z.ltb_spec (zlen a) (zlen a + zlen w)), (Z.eqb_spec (zlen w) 0); lia || done.
Qed.

Lemma read_int_spec n swap r a w w' :
  at_ r a (w ++ w') -> zlen w = n -> n < 2 ^ 62 ->
  read_int n swap r = Some (true, Some (swap (le_val w)), advance r n) /\ at_ (advance r n) (a ++ w) w'.
Proof.
  intros Hr Hw Hn. split; [|subst n; by apply at_advance]. unfold read_int. pose proof (zlen_nonneg w).
  rewrite (remaining_spec _ _ _ _ Hr) by lia. destruct Hr as ([b E] & Hp & Hl). rewrite zlen_app in Hl.
  pose proof (zlen_nonneg w'). destruct (Z.leb_spec (zlen a + n) (kr_len r)); [|lia].
  rewrite E, Hp, <- app_assoc. by rewrite slice_at by done.
Qed.

(** Nothing is read past the length. *)
Lemma read_int_eof n swap r a :
  at_ r a [] -> 0 < n < 2 ^ 62 -> kr_len r < zlen a + n -> read_int n swap r = Some (false, None, r).
Proof.
  intros Hr Hn Hl. unfold read_int. rewrite (remaining_spec _ _ _ _ Hr) by lia.
  destruct (Z.leb_spec (zlen a + n) (kr_len r)); [lia|done].
Qed.

(** A big-endian field. *)
Lemma read_u8_spec r a v w :
  at_ r a ([z2b v] ++ w) -> 0 <= v < 256 ->
  kmip_reader_read_u8 r = Some (true, Some v, advance r 1) /\ at_ (advance r 1) (a ++ [z2b v]) w.
Proof.
  intros Hr Hv. destruct (read_int_spec 1 (fun v => v) r a [z2b v] w Hr) as [E Ha]; [done|done|].
  split; [|done]. unfold kmip_reader_read_u8. rewrite E, le_val_cons, le_val_nil, b2z_z2b_small by done. do 3 f_equal. f_equal. lia.
Qed.

Lemma read_u16_spec r a v w :
  at_ r a (be_bytes 2 v ++ w) -> 0 <= v < 2 ^ 16 ->
  kmip_reader_read_u16 r = Some (true, Some v, advance r 2) /\ at_ (advance r 2) (a ++ be_bytes 2 v) w.
Proof.
  intros Hr Hv. destruct (read_int_spec 2 __kms_uint16_swap_slow r a _ w Hr) as [E Ha]; [zl|done|].
  split; [|done]. unfold kmip_reader_read_u16. rewrite E, (swap_be_val 2); [done|apply swap16_rev|done].
Qed.

Lemma read_u32_spec r a v w :
  at_ r a (be_bytes 4 v ++ w) -> 0 <= v < 2 ^ 32 ->
  kmip_reader_read_u32 r = Some (true, Some v, advance r 4) /\ at_ (advance r 4) (a ++ be_bytes 4 v) w.
Proof.
  intros Hr Hv. destruct (read_int_spec 4 __kms_uint32_swap_slow r a _ w Hr) as [E Ha]; [zl|done|].
  split; [|done]. unfold kmip_reader_read_u32. rewrite E, (swap_be_val 4); [done|apply swap32_rev|done].
Qed.

Lemma read_u64_spec r a v w :
  at_ r a (be_bytes 8 v ++ w) -> 0 <= v < 2 ^ 64 ->
  kmip_reader_read_u64 r = Some (true, Some v, advance r 8) /\ at_ (advance r 8) (a ++ be_bytes 8 v) w.
Proof.
  intros Hr Hv. destruct (read_int_spec 8 __kms_uint64_swap_slow r a _ w Hr) as [E Ha]; [zl|done|].
  split; [|done]. unfold kmip_reader_read_u64. rewrite E, (swap_be_val 8); [done|apply swap64_rev|done].
Qed.

(** ** Item headers *)

Lemma read_tag_spec r a tag w :
  at_ r a (be_bytes 3 tag ++ w) -> wf_tag tag ->
  exists r', kmip_reader_read_tag r = Some (true, Some tag, r') /\ at_ r' (a ++ be_bytes 3 tag) w /\ same r r'.
Proof.
  intros Hr Ht. rewrite be_bytes_tag in * by done. rewrite <- app_assoc in Hr. destruct Ht as [H1 H2].
  unfold kmip_reader_read_tag. destruct (read_u8_spec _ _ _ _ Hr) as [-> Hr1]; [lia|]. sbind. cbn [negb].
  rewrite Z.eqb_refl. cbn [negb]. destruct (read_u16_spec _ _ _ _ Hr1) as [-> Hr2]; [lia|]. sbind. cbn [negb].
  eexists. split; [do 3 f_equal; f_equal; lia|]. rewrite <- app_assoc in Hr2. done.
Qed.

Lemma read_tag_eof r a : at_rest r a [] -> kmip_reader_read_tag r = Some (false, None, r).
Proof.
  intros [Hr Hl]. unfold kmip_reader_read_tag, kmip_reader_read_u8. change (zlen (@nil byte)) with 0 in Hl.
  by rewrite (read_int_eof 1 (fun v => v) r a) by (done || lia).
Qed.

(** The three reads at the start of an item. *)
Lemma read_header_spec r a tag type len w :
  at_ r a (be_bytes 3 tag ++ [z2b type] ++ be_bytes 4 len ++ w) -> wf_tag tag -> 0 <= type < 256 -> 0 <= len < 2 ^ 32 ->
  exists r1 r2 r3,
    kmip_reader_read_tag r = Some (true, Some tag, r1) /\
    kmip_reader_read_type r1 = Some (true, Some type, r2) /\
    kmip_reader_read_length r2 = Some (true, Some len, r3) /\
    at_ r3 (a ++ be_bytes 3 tag ++ [z2b type] ++ be_bytes 4 len) w /\ same r r3.
Proof.
  intros Hr Ht Hty Hlen. destruct (read_tag_spec _ _ _ _ Hr Ht) as (r1 & E1 & H1 & L1).
  destruct (read_u8_spec _ _ _ _ H1 Hty) as [E2 H2]. destruct (read_u32_spec _ _ _ _ H2 Hlen) as [E3 H3].
  exists r1, (advance r1 1), (advance (advance r1 1) 4). do 3 (split; [done|]).
  rewrite <- !app_assoc in H3. done.
Qed.

(** ** Searching encoded items *)

(** The reader holds these items, then other memory. *)
Definition over (r : kmip_reader_t) (items : list kitem) : Prop :=
  (exists rest, kr_ptr r = enc_items items ++ rest) /\ kr_len r = zlen (enc_items items) /\ kr_len r < 2 ^ 62.

Lemma over_at r items : over r items -> at_rest (KmipReader (kr_ptr r) 0 (kr_len r)) [] (enc_items items).
Proof.
  intros ([rest E] & Hl & Hlim). split; [|cbn; by rewrite Hl].
  split; [by exists rest|]. cbn. change (zlen (@nil byte)) with 0. split; [done|]. lia.
Qed.

Lemma over_new items rest :
  zlen (enc_items items) < 2 ^ 62 -> over (kmip_reader_new (enc_items items ++ rest) (zlen (enc_items items))) items.
Proof. intros. split; [by exists rest|done]. Qed.

Definition matches (tag type : Z) (e : kitem) : Prop := e.1 = tag /\ kval_type e.2 = type.
#[export] Instance matches_dec tag type e : Decision (matches tag type e).
Proof. unfold matches. apply _. Defined.

(** The first item with this tag and type, and where its value is. *)
Definition first_item (items : list kitem) (tag type : Z) : option (Z * kval) :=
  match list_find (matches tag type) items with
  | Some (i, e) => Some (zlen (enc_items (take i items)) + 8, e.2)
  | None => None
  end.

Lemma first_item_cons e items tag type :
  first_item (e :: items) tag type =
    if decide (matches tag type e) then Some (8, e.2)
    else option_map (prod_map (Z.add (zlen (enc_item e))) id) (first_item items tag type).
Proof.
  unfold first_item. cbn [list_find]. destruct (decide _); [done|].
  destruct (list_find _ items) as [[i e']|]; [|done]. cbn. rewrite zlen_app. do 2 f_equal. lia.
Qed.

Lemma kval_type_range v : 0 <= kval_type v < 256.
Proof. destruct v; done. Qed.

Lemma matches_eqb tag type e : (e.1 =? tag) && (kval_type e.2 =? type) = bool_decide (matches tag type e).
Proof.
  unfold matches. destruct (Z.eqb_spec e.1 tag), (Z.eqb_spec (kval_type e.2) type); case_bool_decide; naive_solver.
Qed.

Lemma enc_item_parts e w :
  enc_item e ++ w =
    be_bytes 3 e.1 ++ [z2b (kval_type e.2)] ++ be_bytes 4 (zlen (kbody e.2)) ++
    (kbody e.2 ++ pad (zlen (kbody e.2))) ++ w.
Proof. unfold enc_item, wrap_item. by rewrite <- !app_assoc. Qed.

Lemma zlen_enc_item_ge e : 8 <= zlen (enc_item e).
Proof. unfold enc_item. rewrite zlen_wrap_item. pose proof (Z.mod_pos_bound (- zlen (kbody e.2)) 8). zl. Qed.

(** The headers read at an item, and the reader after its value. *)
Lemma item_spec r a e items :
  at_rest r a (enc_items (e :: items)) -> wf_item e ->
  exists r1 r2 hd,
    kmip_reader_read_tag r = Some (true, Some e.1, r1) /\
    kmip_reader_read_type r1 = Some (true, Some (kval_type e.2), r2) /\
    kmip_reader_read_length r2 =
      Some (true, Some (zlen (kbody e.2)), KmipReader (kr_ptr r) (zlen a + 8) (kr_len r)) /\
    zlen hd = 8 /\
    at_ (KmipReader (kr_ptr r) (zlen a + 8) (kr_len r)) (a ++ hd)
      ((kbody e.2 ++ pad (zlen (kbody e.2))) ++ enc_items items).
Proof.
  intros [Hr Hl] (Ht & _ & Hb). cbn [enc_items] in Hr. rewrite enc_item_parts in Hr.
  set (body := kbody e.2) in *. pose proof (zlen_nonneg body).
  destruct (read_header_spec _ _ _ _ _ _ Hr Ht (kval_type_range e.2)) as (r1 & r2 & r3 & E1 & E2 & E3 & H3 & L3); [lia|].
  set (hd := be_bytes 3 e.1 ++ [z2b (kval_type e.2)] ++ be_bytes 4 (zlen body)) in *.
  assert (Hhd : zlen hd = 8) by (subst hd; zl).
  pose proof (at_same _ _ _ _ L3 H3) as Er. rewrite zlen_app, Hhd in Er. subst r3. by exists r1, r2, hd.
Qed.

(** Skipping the value of an item. *)
Lemma skip_spec r a hd e items :
  at_ (KmipReader (kr_ptr r) (zlen a + 8) (kr_len r)) (a ++ hd) ((kbody e.2 ++ pad (zlen (kbody e.2))) ++ enc_items items) ->
  zlen hd = 8 -> kr_len r = zlen a + zlen (enc_items (e :: items)) ->
  zlen (kbody e.2) < 2 ^ 32 - 8 ->
  let r3 := KmipReader (kr_ptr r) (zlen a + 8) (kr_len r) in
  let n := compute_padded_length (zlen (kbody e.2)) in
  n = zlen (kbody e.2 ++ pad (zlen (kbody e.2))) /\ remaining r3 n = true /\ n < 2 ^ 32 /\
  at_rest (advance r3 n) ((a ++ hd) ++ kbody e.2 ++ pad (zlen (kbody e.2))) (enc_items items) /\
  zlen ((a ++ hd) ++ kbody e.2 ++ pad (zlen (kbody e.2))) = zlen a + zlen (enc_item e).
Proof.
  intros Hr Hhd Hl Hb r3 n. set (body := kbody e.2) in *. pose proof (zlen_nonneg body).
  pose proof (Z.mod_pos_bound (- zlen body) 8 ltac:(lia)).
  assert (Hn : n = zlen body + (- zlen body) mod 8) by (apply compute_padded_length_spec; lia).
  assert (Hv : zlen (body ++ pad (zlen body)) = n) by (rewrite zlen_app, zlen_pad; lia).
  assert (Hi : zlen ((a ++ hd) ++ body ++ pad (zlen body)) = zlen a + zlen (enc_item e)).
  { rewrite (zlen_app (a ++ hd)), Hv, zlen_app, Hhd. unfold enc_item. rewrite zlen_wrap_item. fold body. lia. }
  split; [done|]. split; [|split; [lia|]; split; [|done]].
  - rewrite (remaining_spec _ _ _ _ Hr) by lia. apply Z.leb_le. destruct Hr as (_ & _ & Hr).
    rewrite (zlen_app (body ++ _)), Hv in Hr. zl.
  - split; [rewrite <- Hv; by apply at_advance|]. cbn [advance kr_len r3]. rewrite Hi, Hl. cbn [enc_items]. zl.
Qed.

(** What the loop leaves: the reader after the item's header, or an answer of no. *)
Lemma find_loop_spec items : forall fuel r a tag type,
  at_rest r a (enc_items items) -> wf_items items -> zlen (enc_items items) <= 8 * Z.of_nat fuel ->
  match first_item items tag type with
  | Some (o, v) => kmip_find_loop fuel r tag type =
      Some (true, Some (zlen a + o, zlen (kbody v)), KmipReader (kr_ptr r) (zlen a + o) (kr_len r))
  | None => exists r', kmip_find_loop fuel r tag type = Some (false, None, r')
  end.
Proof.
  induction items as [|e items IH]; intros fuel r a tag type Hr Hwf Hf.
  { change (first_item [] tag type) with (@None (Z * kval)). exists r. destruct fuel; cbn [kmip_find_loop]; by rewrite (has_data_spec _ _ _ Hr). }
  inversion_clear Hwf as [|? ? He Hwf']. pose proof (zlen_enc_item_ge e). pose proof (zlen_nonneg (enc_items items)).
  destruct (item_spec _ _ _ _ Hr He) as (r1 & r2 & hd & E1 & E2 & E3 & Hhd & H3).
  destruct (skip_spec _ _ _ _ _ H3 Hhd (proj2 Hr)) as (_ & Hn & _ & H4 & Hi); [by destruct He as (_ & _ & ?)|].
  pose proof (has_data_spec _ _ _ Hr) as Hd. cbn [enc_items] in Hf, Hd. rewrite zlen_app in Hf, Hd.
  destruct fuel as [|fuel]; [lia|]. cbn [kmip_find_loop]. rewrite Hd.
  destruct (Z.eqb_spec (zlen (enc_item e) + zlen (enc_items items)) 0); [lia|].
  cbn [negb]. rewrite E1. sbind. cbn [negb]. rewrite E2. sbind. cbn [negb]. rewrite E3. sbind. cbn [negb].
  rewrite matches_eqb, first_item_cons.
  case_bool_decide as Hm; (destruct (decide _); [|try done]; try done).
  rewrite Hn. specialize (IH fuel _ _ tag type H4 Hwf' ltac:(lia)). rewrite Hi in IH.
  destruct (first_item items tag type) as [[o v]|]; cbn [option_map prod_map fst snd id]; [|done].
  rewrite IH. cbn [kr_ptr kr_len advance]. by rewrite !Z.add_assoc.
Qed.

Lemma find_spec r items tag type :
  over r items -> wf_items items ->
  match first_item items tag type with
  | Some (o, v) => kmip_reader_find r tag type =
      Some (true, Some (o, zlen (kbody v)), KmipReader (kr_ptr r) o (kr_len r))
  | None => exists r', kmip_reader_find r tag type = Some (false, None, r')
  end.
Proof.
  intros Ho Hwf. pose proof (zlen_nonneg (enc_items items)). pose proof (over_at _ _ Ho) as Ha.
  destruct Ho as (_ & Hl & _). unfold kmip_reader_find.
  apply (find_loop_spec items (Z.to_nat (kr_len r)) _ _ tag type Ha Hwf). lia.
Qed.

(** The value is where it was found. *)
Lemma first_item_at items tag type o v :
  first_item items tag type = Some (o, v) -> wf_items items ->
  kval_type v = type /\ wf_kval v /\ zlen (kbody v) < 2 ^ 32 - 8 /\
  exists pre post, enc_items items = pre ++ (kbody v ++ pad (zlen (kbody v))) ++ post /\ zlen pre = o.
Proof.
  revert o. induction items as [|e items IH]; intros o; [done|]. rewrite first_item_cons. intros H Hwf.
  inversion_clear Hwf as [|? ? He Hwf']. destruct (decide _) as [[Ht Hty]|_].
  - injection H as <- <-. destruct He as (_ & Hw & Hb). split; [done|]. split; [done|]. split; [done|].
    exists (be_bytes 3 e.1 ++ [z2b (kval_type e.2)] ++ be_bytes 4 (zlen (kbody e.2))), (enc_items items).
    cbn [enc_items]. rewrite enc_item_parts, <- !app_assoc. split; [done|]. zl.
  - destruct (first_item items tag type) as [[o' v']|]; [|done]. cbn in H. injection H as <- <-.
    destruct (IH _ eq_refl Hwf') as (? & ? & ? & pre & post & E & Hz). do 3 (split; [done|]).
    exists (enc_item e ++ pre), post. cbn [enc_items]. rewrite E, <- !app_assoc. split; [done|]. zl.
Qed.

(** The reader [kmip_reader_in_place] makes at a value. *)
Lemma in_place_here r a s w :
  at_ r a ((s ++ pad (zlen s)) ++ w) -> zlen s < 2 ^ 32 - 8 ->
  exists r', kmip_reader_in_place r (kr_pos r) (zlen s) = Some (Some r') /\ at_rest r' [] (s ++ pad (zlen s)).
Proof.
  intros ([b E] & Hp & Hl) Hs. pose proof (zlen_nonneg s). pose proof (zlen_nonneg w). pose proof (zlen_nonneg a).
  pose proof (Z.mod_pos_bound (- zlen s) 8 ltac:(lia)).
  unfold kmip_reader_in_place. rewrite compute_padded_length_spec, Hp by lia.
  assert (Hv : zlen (s ++ pad (zlen s)) = zlen s + (- zlen s) mod 8) by zl. rewrite zlen_app, Hv in Hl.
  rewrite u64_id by lia. destruct (Z.ltb_spec (kr_len r) (zlen a + (zlen s + (- zlen s) mod 8))); [lia|].
  rewrite E, padd_at by done. sbind. eexists. split; [done|].
  split; [|cbn [kr_len]; by rewrite Hv]. split; [|cbn [kr_pos kr_len]; rewrite Hv; split; [done|rewrite zlen_nil; lia]].
  exists (w ++ b). cbn [kr_ptr app]. by rewrite !app_assoc.
Qed.

Lemma in_place_at r items o v pre post :
  over r items -> enc_items items = pre ++ (kbody v ++ pad (zlen (kbody v))) ++ post -> zlen pre = o ->
  zlen (kbody v) < 2 ^ 32 - 8 ->
  exists r', kmip_reader_in_place (KmipReader (kr_ptr r) o (kr_len r)) o (zlen (kbody v)) = Some (Some r') /\
    at_rest r' [] (kbody v ++ pad (zlen (kbody v))).
Proof.
  intros ([rest Ep] & Hl & Hlim) E Hz Hb.
  apply (in_place_here (KmipReader (kr_ptr r) o (kr_len r)) pre (kbody v) post); [|done].
  split; [exists rest; cbn [kr_ptr]; by rewrite Ep, E, <- !app_assoc|]. split; [done|]. cbn [kr_len].
  rewrite E, zlen_app in Hl. lia.
Qed.

(** The value of an enumeration, of an integer, and the bytes of a string, at
    a reader before them. *)
Lemma read_word_spec cast r a v w :
  at_ r a ((be_bytes 4 v ++ pad 4) ++ w) -> 0 <= v < 2 ^ 32 ->
  exists r', read_padded_word cast r = Some (true, Some (cast v), r') /\
    at_ r' (a ++ be_bytes 4 v ++ pad 4) w /\ same r r'.
Proof.
  intros Hr Hv. rewrite <- app_assoc in Hr. destruct (read_u32_spec _ _ _ _ Hr Hv) as [E1 H1].
  rewrite pad_4 in *. destruct (read_u32_spec _ _ 0 _ H1) as [E2 H2]; [done|].
  unfold read_padded_word. rewrite E1. sbind. cbn [negb]. rewrite E2. sbind. eexists. split; [done|].
  rewrite <- app_assoc in H2. done.
Qed.

Lemma read_bytes_spec r a s w :
  at_ r a ((s ++ pad (zlen s)) ++ w) -> zlen s < 2 ^ 32 ->
  exists p r', kmip_reader_read_bytes r (zlen s) = Some (true, Some (s ++ p), r') /\
    at_ r' (a ++ s ++ pad (zlen s)) w /\ same r r'.
Proof.
  intros Hr Hs. pose proof (zlen_nonneg s). pose proof (Z.mod_pos_bound (- zlen s) 8 ltac:(lia)).
  unfold kmip_reader_read_bytes. rewrite compute_padded_length_spec by lia.
  assert (Hv : zlen (s ++ pad (zlen s)) = zlen s + (- zlen s) mod 8) by zl.
  pose proof (at_advance _ _ _ _ Hr) as H1. rewrite Hv in H1. rewrite (remaining_spec _ _ _ _ Hr) by lia.
  destruct Hr as ([b E] & Hp & Hl). rewrite zlen_app, Hv in Hl.
  destruct (Z.leb_spec (zlen a + (zlen s + (- zlen s) mod 8)) (kr_len r)); [|zl].
  rewrite E, padd_at by done. sbind. exists (pad (zlen s) ++ w ++ b), (advance r (zlen s + (- zlen s) mod 8)).
  by rewrite <- !app_assoc.
Qed.

(** ** The searches that read *)

(** What [kmip_reader_find_and_recurse] does on items: the reader is then over
    the structure's own items. *)
Lemma find_and_recurse_spec r items tag o l :
  over r items -> wf_items items -> 0 <= tag < 2 ^ 32 ->
  first_item items tag KMIP_ITEM_TYPE_Structure = Some (o, KStructure l) ->
  exists r', kmip_reader_find_and_recurse r tag = Some (true, r') /\ over r' l /\ wf_items l.
Proof.
  intros Ho Hwf Ht Hf. pose proof (find_spec r items tag KMIP_ITEM_TYPE_Structure Ho Hwf) as E. rewrite Hf in E.
  destruct (first_item_at _ _ _ _ _ Hf Hwf) as (_ & Hw & Hb & pre & post & Ei & Hz).
  unfold kmip_reader_find_and_recurse. rewrite u32_id, E by lia. sbind. cbn [negb kr_ptr].
  destruct Ho as ([rest Ep] & _ & _). rewrite Ep, Ei, <- !app_assoc, padd_at by done. sbind.
  eexists. split; [done|]. rewrite kbody_structure in *. split; [|by apply wf_structure].
  split; [by eexists|]. cbn. split; [done|]. lia.
Qed.

Lemma find_and_read_enum_spec r items tag o v :
  over r items -> wf_items items -> 0 <= tag < 2 ^ 32 ->
  first_item items tag KMIP_ITEM_TYPE_Enumeration = Some (o, KEnumeration v) ->
  exists r', kmip_reader_find_and_read_enum r tag = Some (true, Some v, r').
Proof.
  intros Ho Hwf Ht Hf. pose proof (find_spec r items tag KMIP_ITEM_TYPE_Enumeration Ho Hwf) as E. rewrite Hf in E.
  destruct (first_item_at _ _ _ _ _ Hf Hwf) as (_ & Hw & Hb & pre & post & Ei & Hz).
  unfold kmip_reader_find_and_read_enum. rewrite u32_id, E by lia. sbind. cbn [negb].
  destruct (in_place_at r items o _ pre post Ho Ei Hz Hb) as (r1 & -> & [Hr1 _]). sbind.
  rewrite <- (app_nil_r (_ ++ pad _)) in Hr1. cbn [kbody] in Hr1. rewrite zlen_be_bytes in Hr1.
  destruct (read_word_spec (fun v => v) _ _ _ _ Hr1 Hw) as (r2 & E2 & _).
  unfold kmip_reader_read_enumeration. rewrite E2. sbind. by eexists.
Qed.

Lemma find_and_read_bytes_spec r items tag o s :
  over r items -> wf_items items -> 0 <= tag < 2 ^ 32 ->
  first_item items tag KMIP_ITEM_TYPE_ByteString = Some (o, KByteString s) ->
  exists p r', kmip_reader_find_and_read_bytes r tag = Some (true, Some (s ++ p), Some (zlen s), r').
Proof.
  intros Ho Hwf Ht Hf. pose proof (find_spec r items tag KMIP_ITEM_TYPE_ByteString Ho Hwf) as E. rewrite Hf in E.
  destruct (first_item_at _ _ _ _ _ Hf Hwf) as (_ & Hw & Hb & pre & post & Ei & Hz).
  unfold kmip_reader_find_and_read_bytes. rewrite u32_id, E by lia. sbind. cbn [negb].
  destruct (in_place_at r items o _ pre post Ho Ei Hz Hb) as (r1 & E1 & [Hr1 _]). cbn [kbody] in *. rewrite E1. sbind.
  rewrite <- (app_nil_r (_ ++ pad _)) in Hr1.
  destruct (read_bytes_spec _ _ _ _ Hr1) as (p & r2 & E2 & _); [lia|]. rewrite E2. sbind. by eexists _, _.
Qed.

(** ** Safety on arbitrary bytes *)

(** The reader's length is within its memory, and its position within its
    length. *)
Definition reader_ok (r : kmip_reader_t) : Prop := 0 <= kr_pos r <= kr_len r /\ kr_len r <= zlen (kr_ptr r) /\ kr_len r < 2 ^ 62.

(** A read returns, within the same memory; a successful one gives a value and
    advances. *)
Definition reads_ok {T} (r : kmip_reader_t) (n : Z) (P : T -> Prop) (res : kmip_read T) : Prop :=
  exists ok v r', res = Some (ok, v, r') /\ reader_ok r' /\ same r r' /\
    (ok = true -> exists x, v = Some x /\ P x /\ kr_pos r' = kr_pos r + n).

Lemma same_trans r r1 r2 : same r r1 -> same r1 r2 -> same r r2.
Proof. unfold same. intros [? ?] [? ?]. split; congruence. Qed.

Lemma reads_fail {T} r r' n (P : T -> Prop) : same r r' -> reader_ok r' -> reads_ok r n P (Some (false, None, r')).
Proof. intros. by exists false, None, r'. Qed.

Lemma read_int_safe n swap r : reader_ok r -> 0 < n < 2 ^ 62 ->
  reads_ok r n (fun x => exists b, x = swap (le_val b) /\ zlen b = n) (read_int n swap r).
Proof.
  intros Hr Hn. pose proof Hr as (Hp & Hl & Hlim). unfold read_int, remaining. rewrite u64_id by lia.
  destruct (Z.ltb_spec (kr_len r) (kr_pos r + n)); cbn [negb]; [by apply reads_fail|].
  destruct (proj2 (slice_is_Some (kr_ptr r) (kr_pos r) n)) as [b Hb]; [lia|]. rewrite Hb. sbind.
  eexists true, _, (advance r n). split; [done|]. unfold reader_ok, advance. cbn. rewrite u64_id by lia.
  split; [lia|]. split; [done|]. intros _. eexists. split; [done|]. split; [|done].
  exists b. split; [done|]. by eapply slice_zlen.
Qed.

Lemma read_u32_safe r : reader_ok r -> reads_ok r 4 (fun x => 0 <= x < 2 ^ 32) (kmip_reader_read_u32 r).
Proof.
  intros Hr. destruct (read_int_safe 4 __kms_uint32_swap_slow r Hr ltac:(lia)) as (ok & v & r' & E & Hr' & S & H).
  exists ok, v, r'. do 3 (split; [done|]). intros ->. destruct (H eq_refl) as (x & -> & (b & -> & Hb) & Hp).
  eexists. split; [done|]. split; [|done]. rewrite swap32_rev by done. pose proof (le_val_range (rev b)) as Hv.
  by rewrite zlen_rev, Hb in Hv.
Qed.

Lemma read_tag_safe r : reader_ok r -> reads_ok r 3 (fun _ => True) (kmip_reader_read_tag r).
Proof.
  intros Hr. unfold kmip_reader_read_tag.
  destruct (read_int_safe 1 (fun v => v) r Hr ltac:(lia)) as (ok1 & v1 & r1 & E1 & Hr1 & S1 & V1).
  unfold kmip_reader_read_u8. rewrite E1. sbind. destruct ok1; cbn [negb]; [|by apply reads_fail].
  destruct (V1 eq_refl) as (b & -> & _ & P1). sbind. destruct (b =? 66); cbn [negb]; [|by apply reads_fail].
  destruct (read_int_safe 2 __kms_uint16_swap_slow r1 Hr1 ltac:(lia)) as (ok2 & v2 & r2 & E2 & Hr2 & S2 & V2).
  pose proof (same_trans _ _ _ S1 S2). unfold kmip_reader_read_u16. rewrite E2. sbind.
  destruct ok2; cbn [negb]; [|by apply reads_fail]. destruct (V2 eq_refl) as (c & -> & _ & P2). sbind.
  eexists true, _, r2. do 3 (split; [done|]). intros _. eexists. split; [done|]. split; [done|]. lia.
Qed.

(** The search returns, and what it finds is within the length. *)
Lemma find_loop_safe fuel : forall r tag type,
  reader_ok r -> kr_len r - kr_pos r <= 8 * Z.of_nat fuel ->
  exists ok v r', kmip_find_loop fuel r tag type = Some (ok, v, r') /\ reader_ok r' /\ same r r' /\
    (ok = true -> exists length, v = Some (kr_pos r', length) /\ 0 <= length < 2 ^ 32).
Proof.
  induction fuel as [|fuel IH]; intros r tag type Hr Hf; pose proof Hr as (Hp & Hl & Hlim).
  { exists false, None, r. cbn [kmip_find_loop]. unfold kmip_reader_has_data.
    destruct (Z.ltb_spec (kr_pos r) (kr_len r)); [lia|]. done. }
  cbn [kmip_find_loop]. destruct (kmip_reader_has_data r); cbn [negb]; [|by exists false, None, r].
  destruct (read_tag_safe r Hr) as (ok1 & v1 & r1 & -> & Hr1 & S1 & V1). sbind.
  destruct ok1; cbn [negb]; [|by exists false, None, r1]. destruct (V1 eq_refl) as (t & -> & _ & P1).
  destruct (read_int_safe 1 (fun v => v) r1 Hr1 ltac:(lia)) as (ok2 & v2 & r2 & E2 & Hr2 & S2 & V2).
  unfold kmip_reader_read_type, kmip_reader_read_u8. rewrite E2. sbind. pose proof (same_trans _ _ _ S1 S2) as T2.
  destruct ok2; cbn [negb]; [|by exists false, None, r2]. destruct (V2 eq_refl) as (ty & -> & _ & P2).
  destruct (read_u32_safe r2 Hr2) as (ok3 & v3 & r3 & E3 & Hr3 & S3 & V3).
  unfold kmip_reader_read_length. rewrite E3. sbind. pose proof (same_trans _ _ _ T2 S3) as T3.
  destruct ok3; cbn [negb]; [|by exists false, None, r3]. destruct (V3 eq_refl) as (n & -> & Hn & P3). sbind.
  destruct (_ && _); [by exists true, (Some (kr_pos r3, n)), r3; do 3 (split; [done|]); exists n|].
  rewrite compute_padded_length_spec by lia. pose proof (Z.mod_pos_bound (- n) 8 ltac:(lia)).
  unfold remaining. destruct Hr3 as (Hp3 & Hl3 & Hlim3). rewrite u64_id by lia.
  destruct (Z.ltb_spec (kr_len r3) (kr_pos r3 + (n + (- n) mod 8))); cbn [negb]; [by exists false, None, r3|].
  pose proof T3 as [_ Tl]. destruct (IH (advance r3 (n + (- n) mod 8)) tag type) as (ok & v & r' & E & H4 & S4 & V4).
  - unfold reader_ok, advance. cbn. rewrite u64_id by lia. lia.
  - cbn. rewrite u64_id by lia. lia.
  - exists ok, v, r'. split; [done|]. split; [done|]. split; [|done]. by apply (same_trans _ r3).
Qed.

Lemma find_safe r tag type :
  0 <= kr_len r <= zlen (kr_ptr r) -> kr_len r < 2 ^ 62 -> exists ok v r', kmip_reader_find r tag type = Some (ok, v, r') /\ reader_ok r' /\ same r r' /\
    (ok = true -> exists length, v = Some (kr_pos r', length) /\ 0 <= length < 2 ^ 32).
Proof.
  intros Hl Hlim. apply (find_loop_safe _ (KmipReader (kr_ptr r) 0 (kr_len r))).
  - unfold reader_ok. cbn. lia.
  - cbn. lia.
Qed.

(** The reader made at a value found is within the same memory. *)
Lemma in_place_safe r n :
  reader_ok r -> 0 <= n < 2 ^ 32 ->
  exists o, kmip_reader_in_place r (kr_pos r) n = Some o /\
    (forall r', o = Some r' -> reader_ok r' /\ kr_pos r' = 0 /\ kr_len r' = compute_padded_length n /\
       kr_pos r + kr_len r' <= kr_len r).
Proof.
  intros (Hp & Hl & Hlim) Hn. unfold kmip_reader_in_place. pose proof (Z.mod_pos_bound (- n) 8 ltac:(lia)).
  rewrite compute_padded_length_spec by lia. rewrite u64_id by lia.
  destruct (Z.ltb_spec (kr_len r) (kr_pos r + (n + (- n) mod 8))); [by exists None|].
  destruct (proj2 (padd_is_Some (kr_ptr r) (kr_pos r))) as [p Hpp]; [lia|]. rewrite Hpp. sbind.
  eexists. split; [done|]. intros r' [= <-]. pose proof (padd_zlen _ _ _ Hpp) as [Hz _].
  unfold reader_ok. cbn. lia.
Qed.

Lemma read_word_safe cast r : reader_ok r -> exists ok v r', read_padded_word cast r = Some (ok, v, r') /\ reader_ok r'.
Proof.
  intros Hr. unfold read_padded_word. destruct (read_u32_safe r Hr) as (ok & v & r1 & -> & Hr1 & _ & V). sbind.
  destruct ok; cbn [negb]; [|by eexists _, _, _]. destruct (V eq_refl) as (x & -> & _).
  destruct (read_u32_safe r1 Hr1) as (ok' & v' & r2 & -> & Hr2 & _). sbind. by eexists _, _, _.
Qed.

Lemma read_bytes_safe r n : reader_ok r -> 0 <= n < 2 ^ 32 ->
  exists ok v r', kmip_reader_read_bytes r n = Some (ok, v, r') /\ reader_ok r' /\
    (ok = true -> exists p, v = Some p /\ n <= zlen p).
Proof.
  intros Hr Hn. pose proof Hr as (Hp & Hl & Hlim). unfold kmip_reader_read_bytes. pose proof (Z.mod_pos_bound (- n) 8 ltac:(lia)).
  rewrite compute_padded_length_spec by lia. unfold remaining. rewrite u64_id by lia.
  destruct (Z.ltb_spec (kr_len r) (kr_pos r + (n + (- n) mod 8))); cbn [negb]; [by exists false, None, r|].
  destruct (proj2 (padd_is_Some (kr_ptr r) (kr_pos r))) as [p Hpp]; [lia|]. rewrite Hpp. sbind.
  eexists _, _, _. split; [done|]. pose proof (padd_zlen _ _ _ Hpp) as [Hz _].
  unfold reader_ok, advance. cbn. rewrite u64_id by lia. split; [lia|]. intros _. exists p. split; [done|]. lia.
Qed.

(** Recursing gives a reader within the memory only if the structure is. *)
Lemma find_and_recurse_safe r tag :
  0 <= kr_len r <= zlen (kr_ptr r) -> kr_len r < 2 ^ 62 -> is_Some (kmip_reader_find_and_recurse r tag).
Proof.
  intros Hl Hlim. destruct (find_safe r (u32 tag) KMIP_ITEM_TYPE_Structure Hl Hlim) as (ok & v & r1 & E & H1 & _ & H).
  unfold kmip_reader_find_and_recurse. rewrite E. sbind. destruct ok; cbn [negb]; [|by eexists].
  destruct (H eq_refl) as (n & -> & Hn). sbind. destruct H1 as (Hp & Hb & _).
  destruct (proj2 (padd_is_Some (kr_ptr r1) (kr_pos r1))) as [p ->]; [lia|]. by eexists.
Qed.

Lemma find_and_read_enum_safe r tag :
  0 <= kr_len r <= zlen (kr_ptr r) -> kr_len r < 2 ^ 62 -> is_Some (kmip_reader_find_and_read_enum r tag).
Proof.
  intros Hl Hlim. destruct (find_safe r (u32 tag) KMIP_ITEM_TYPE_Enumeration Hl Hlim) as (ok & v & r1 & E & H1 & _ & H).
  unfold kmip_reader_find_and_read_enum. rewrite E. sbind. destruct ok; cbn [negb]; [|by eexists].
  destruct (H eq_refl) as (n & -> & Hn). sbind. destruct (in_place_safe r1 n H1 Hn) as (o & -> & Ho). sbind.
  destruct o as [r2|]; [|by eexists]. destruct (Ho r2 eq_refl) as [H2 _].
  destruct (read_word_safe (fun v => v) r2 H2) as (ok & v & r3 & E3 & _).
  unfold kmip_reader_read_enumeration. rewrite E3. sbind. by eexists.
Qed.

Lemma find_and_read_bytes_safe r tag :
  0 <= kr_len r <= zlen (kr_ptr r) -> kr_len r < 2 ^ 62 ->
  exists ok p n r', kmip_reader_find_and_read_bytes r tag = Some (ok, p, n, r') /\
    (ok = true -> exists b len, p = Some b /\ n = Some len /\ 0 <= len <= zlen b).
Proof.
  intros Hl Hlim. destruct (find_safe r (u32 tag) KMIP_ITEM_TYPE_ByteString Hl Hlim) as (ok & v & r1 & E & H1 & _ & H).
  unfold kmip_reader_find_and_read_bytes. rewrite E. sbind. destruct ok; cbn [negb]; [|by eexists false, _, _, _].
  destruct (H eq_refl) as (n & -> & Hn). sbind. destruct (in_place_safe r1 n H1 Hn) as (o & -> & Ho). sbind.
  destruct o as [r2|]; [|by eexists false, _, _, _]. destruct (Ho r2 eq_refl) as [H2 _].
  destruct (read_bytes_safe r2 n H2 Hn) as (ok & p & r3 & -> & _ & Hp). sbind.
  eexists ok, _, _, _. split; [done|]. intros Hok. destruct (Hp Hok) as (b & -> & Hb). exists b, n. split; [done|]. split; [done|]. lia.
Qed.
