(* ===== verification/KmipWriteSpec.v ===== *)
(** The KMIP writer: every operation appends its item, and trees written through
    [kmip_writer_begin_struct] and [kmip_writer_close_struct] are encoded. *)

From S2P Require Import Prelude CString Text IntEncode BigEndian KmipTags KmsRequestStr Kmip KmipSpec.

(** ** Writing a tree, as a client of the writer does *)

(** The types the writer has an operation for. *)
Section WriteItems.
Context (malloc : Z -> bytes).

Fixpoint write_val (writer : kmip_writer_t) (tag : Z) (v : kval) : option kmip_writer_t :=
  let write_items := fix write_items (writer : kmip_writer_t) (l : list kitem) : option kmip_writer_t :=
    match l with
    | [] => Some writer
    | (tag, v) :: l' => writer ← write_val writer tag v; write_items writer l'
    end in
  match v with
  | KStructure l =>
      writer ← kmip_writer_begin_struct malloc writer tag;
      writer ← write_items writer l;
      kmip_writer_close_struct writer
  | KInteger v => kmip_writer_write_integer malloc writer tag v
  | KLongInteger v => kmip_writer_write_long_integer malloc writer tag v
  | KEnumeration v => kmip_writer_write_enumeration malloc writer tag v
  | KTextString s => kmip_writer_write_string malloc writer tag s (zlen s)
  | KByteString s => kmip_writer_write_bytes malloc writer tag s (zlen s)
  | KDateTime v => kmip_writer_write_datetime malloc writer tag v
  | KBigInteger _ | KBoolean _ | KInterval _ => None
  end.

Fixpoint write_items (writer : kmip_writer_t) (l : list kitem) : option kmip_writer_t :=
  match l with
  | [] => Some writer
  | (tag, v) :: l' => writer ← write_val writer tag v; write_items writer l'
  end.
End WriteItems.

(** How deep structures nest, and the values the writer can write. *)
Fixpoint kdepth (v : kval) : Z :=
  let depths := fix depths (l : list kitem) : Z :=
    match l with [] => 0 | (_, v) :: l' => Z.max (kdepth v) (depths l') end in
  match v with KStructure l => 1 + depths l | _ => 0 end.
Fixpoint depths (l : list kitem) : Z :=
  match l with [] => 0 | (_, v) :: l' => Z.max (kdepth v) (depths l') end.

Fixpoint writable (v : kval) : Prop :=
  let go := fix go (l : list kitem) : Prop :=
    match l with [] => True | (_, v) :: l' => writable v /\ go l' end in
  match v with
  | KStructure l => go l
  | KBigInteger _ | KBoolean _ | KInterval _ => False
  | _ => True
  end.
Fixpoint writable_items (l : list kitem) : Prop :=
  match l with [] => True | (_, v) :: l' => writable v /\ writable_items l' end.

Lemma kdepth_structure l : kdepth (KStructure l) = 1 + depths l.
Proof. reflexivity. Qed.
Lemma writable_structure l : writable (KStructure l) <-> writable_items l.
Proof. reflexivity. Qed.
Lemma depths_nonneg l : 0 <= depths l.
Proof. induction l as [|[? ?] l IH]; [done|]. cbn [depths]. lia. Qed.

(** ** The operations *)

Section Spec.
Context (malloc : Z -> bytes).
Hypothesis Hmalloc : forall n, 0 <= n -> zlen (malloc n) = n.

(** The writer holds [t]; ten positions, of which those up to [cur_pos] are
    used. *)
Definition writer_is (w : kmip_writer_t) (t : bytes) : Prop :=
  kms_is (kw_buffer w) t /\ zlen (kw_positions w) = MAX_KMIP_WRITER_POSITIONS /\ 0 <= kw_cur_pos w.

(** Appended to, with the same open structures. *)
Definition appended (w w' : kmip_writer_t) (t : bytes) : Prop :=
  writer_is w' t /\ kw_positions w' = kw_positions w /\ kw_cur_pos w' = kw_cur_pos w.

Lemma appended_trans w w1 w2 t1 t2 : appended w w1 t1 -> appended w1 w2 t2 -> appended w w2 t2.
Proof. intros (_ & P1 & C1) (H2 & P2 & C2). split; [done|]. split; congruence. Qed.

Lemma kmip_writer_new_spec : exists w, kmip_writer_new malloc = Some w /\ writer_is w [] /\ kw_cur_pos w = 0.
Proof.
  unfold kmip_writer_new. destruct (kms_new_spec malloc Hmalloc) as (s & -> & Hs). sbind.
  eexists. split; [done|]. split; [|done]. by split.
Qed.

Lemma write_raw_spec w t c n :
  writer_is w t -> n = zlen c -> zlen t + zlen c < KMS_LIMIT ->
  exists w', write_raw malloc w c n = Some w' /\ appended w w' (t ++ c).
Proof.
  intros (Hb & Hp & Hc) Hn Hl. unfold write_raw.
  destruct (append_chars_spec malloc Hmalloc (kw_buffer w) t c [] n (proj1 Hb) Hl Hn) as (s & E & Hs).
  rewrite app_nil_r in E. rewrite E. sbind. eexists. split; [done|]. by split.
Qed.

(** An operation that appends the same bytes to any writer with room for them. *)
Definition writes (f : kmip_writer_t -> option kmip_writer_t) (s : bytes) : Prop :=
  forall w t, writer_is w t -> zlen t + zlen s < KMS_LIMIT -> exists w', f w = Some w' /\ appended w w' (t ++ s).

Lemma writes_bind f g s1 s2 : writes f s1 -> writes g s2 -> writes (fun w => w ← f w; g w) (s1 ++ s2).
Proof.
  intros Hf Hg w t Hw Hl. destruct (Hf w t Hw) as (w1 & -> & H1); [zl|]. sbind.
  destruct (Hg w1 _ (proj1 H1)) as (w2 & -> & H2); [zl|]. exists w2. split; [done|].
  rewrite app_assoc. by eapply appended_trans.
Qed.

Lemma writes_nothing : writes Some [].
Proof. intros w t Hw _. exists w. rewrite app_nil_r. done. Qed.

Lemma writes_u8 v : writes (fun w => kmip_writer_write_u8 malloc w v) [z2b v].
Proof.
  intros w t Hw Hl. unfold kmip_writer_write_u8. replace (le_bytes 1 (u8 v)) with [z2b v]; [by apply write_raw_spec|].
  change (le_bytes 1 (u8 v)) with [z2b (u8 v)]. f_equal. apply z2b_mod. unfold u8. by rewrite Z.mod_mod.
Qed.
Lemma writes_u16 v : 0 <= v < 2 ^ 16 -> writes (fun w => kmip_writer_write_u16 malloc w v) (be_bytes 2 v).
Proof.
  intros Hv w t Hw Hl. unfold kmip_writer_write_u16. rewrite Z.mod_small by lia.
  rewrite (swap_bytes_be 2); [by apply write_raw_spec|apply swap16_rev|done].
Qed.
Lemma writes_u32 v : writes (fun w => kmip_writer_write_u32 malloc w v) (be_bytes 4 (u32 v)).
Proof.
  intros w t Hw Hl. unfold kmip_writer_write_u32.
  rewrite (swap_bytes_be 4); [by apply write_raw_spec|apply swap32_rev|apply u32_range].
Qed.
Lemma writes_u64 v : writes (fun w => kmip_writer_write_u64 malloc w v) (be_bytes 8 (u64 v)).
Proof.
  intros w t Hw Hl. unfold kmip_writer_write_u64.
  rewrite (swap_bytes_be 8); [by apply write_raw_spec|apply swap64_rev|apply u64_range].
Qed.

Lemma writes_tag tag : wf_tag tag -> writes (fun w => kmip_writer_write_tag_enum malloc w tag) (be_bytes 3 tag).
Proof.
  intros Ht. rewrite be_bytes_tag by done. unfold kmip_writer_write_tag_enum. apply writes_bind; [apply writes_u8|].
  destruct Ht. intros w t Hw Hl. destruct (writes_u16 (tag - 0x420000) ltac:(lia) w t Hw Hl) as (w' & E & Hw').
  exists w'. split; [|done]. rewrite <- E. unfold kmip_writer_write_u16. do 3 f_equal.
  replace tag with (tag - 4325376 + 66 * 2 ^ 16) at 1 by lia. by rewrite Z.mod_add.
Qed.

(** Characters one at a time, and the padding. *)
Lemma writes_chars pre s : writes (fun w => write_chars malloc (length s) w (pre ++ s) (zlen pre)) s.
Proof.
  revert pre. induction s as [|c s IH]; intros pre; [apply writes_nothing|]. cbn [length write_chars].
  rewrite rd_at by done. cbn [mbind option_bind]. change (c :: s) with ([c] ++ s).
  apply (writes_bind (fun w => kmip_writer_write_u8 malloc w (b2z c))).
  - replace [c] with [z2b (b2z c)] by (by rewrite z2b_b2z). apply writes_u8.
  - specialize (IH (pre ++ [c])). rewrite <- app_assoc in IH. by rewrite zlen_app in IH.
Qed.

Lemma writes_padding n : writes (write_padding malloc n) (replicate n x00).
Proof. induction n as [|n IH]; [apply writes_nothing|]. cbn [write_padding replicate]. apply (writes_bind _ _ [x00]); [apply writes_u8|done]. Qed.

(** ** Items *)

Lemma writes_text tag type s :
  wf_tag tag -> zlen s < 2 ^ 32 -> writes (fun w => write_text malloc w tag type s (zlen s)) (wrap_item tag type s).
Proof.
  intros Ht Hs. unfold write_text, wrap_item. pose proof (zlen_nonneg s).
  apply writes_bind; [by apply writes_tag|]. apply writes_bind; [apply writes_u8|].
  apply writes_bind; [rewrite (u32_id (zlen s)) by lia; pose proof (writes_u32 (zlen s)) as Hu; by rewrite u32_id in Hu by lia|].
  apply writes_bind; [rewrite to_nat_zlen; apply (writes_chars [])|].
  rewrite compute_padded_length_spec by lia. pose proof (Z.mod_pos_bound (- zlen s) 8 ltac:(lia)).
  rewrite u64_id by lia. replace (zlen s + (- zlen s) mod 8 - zlen s) with ((- zlen s) mod 8) by lia. apply writes_padding.
Qed.

Lemma writes_word tag type v :
  wf_tag tag -> writes (fun w => write_word malloc w tag type v) (wrap_item tag type (be_bytes 4 (u32 v))).
Proof.
  intros Ht. unfold write_word, wrap_item. rewrite zlen_be_bytes. change (Z.of_nat 4) with 4. rewrite pad_4.
  apply writes_bind; [by apply writes_tag|]. apply writes_bind; [apply writes_u8|].
  apply writes_bind; [apply (writes_u32 4)|]. apply writes_bind; [apply writes_u32|apply (writes_u32 0)].
Qed.

Lemma writes_long tag type v :
  wf_tag tag -> writes (fun w => write_long malloc w tag type v) (wrap_item tag type (be_bytes 8 (u64 v))).
Proof.
  intros Ht. unfold write_long, wrap_item. rewrite zlen_be_bytes. change (Z.of_nat 8) with 8.
  change (pad 8) with (@nil byte). rewrite app_nil_r.
  apply writes_bind; [by apply writes_tag|]. apply writes_bind; [apply writes_u8|].
  apply writes_bind; [apply (writes_u32 8)|apply writes_u64].
Qed.

(** ** Structures *)

(** Appended to, with the positions of the open structures kept. *)
Definition extended (w w' : kmip_writer_t) (t : bytes) : Prop :=
  writer_is w' t /\ kw_cur_pos w' = kw_cur_pos w /\
  (forall i, i <= kw_cur_pos w -> kw_positions w' !! Z.to_nat i = kw_positions w !! Z.to_nat i).

Lemma appended_extended w w' t : appended w w' t -> extended w w' t.
Proof. intros (H & P & C). split; [done|]. split; [done|]. intros. by rewrite P. Qed.

Lemma extended_trans w w1 w2 t1 t2 : extended w w1 t1 -> extended w1 w2 t2 -> extended w w2 t2.
Proof.
  intros (_ & C1 & P1) (H2 & C2 & P2). split; [done|]. split; [congruence|]. intros i Hi. rewrite P2 by lia. by apply P1.
Qed.

(** At most nine structures may be open. *)
Lemma begin_struct_spec w t tag :
  writer_is w t -> wf_tag tag -> kw_cur_pos w <= 8 -> zlen t + 8 < KMS_LIMIT ->
  exists w', kmip_writer_begin_struct malloc w tag = Some w' /\
    writer_is w' ((t ++ be_bytes 3 tag ++ [z2b KMIP_ITEM_TYPE_Structure]) ++ be_bytes 4 0) /\
    kw_cur_pos w' = kw_cur_pos w + 1 /\ kw_positions w' !! Z.to_nat (kw_cur_pos w') = Some (zlen t + 4) /\
    (forall i, i <= kw_cur_pos w -> kw_positions w' !! Z.to_nat i = kw_positions w !! Z.to_nat i).
Proof.
  intros Hw Ht Hc Hl. unfold kmip_writer_begin_struct. pose proof Hw as (_ & Hn & Hc0).
  destruct (writes_tag tag Ht w t Hw) as (w1 & -> & H1); [zl|]. sbind.
  destruct (writes_u8 KMIP_ITEM_TYPE_Structure w1 _ (proj1 H1)) as (w2 & -> & H2); [zl|]. sbind.
  destruct (writes_u32 0 w2 _ (proj1 H2)) as (w3 & -> & H3); [zl|]. sbind.
  pose proof (appended_trans _ _ _ _ _ H1 (appended_trans _ _ _ _ _ H2 H3)) as (Hw3 & -> & ->).
  destruct H2 as ((((Hl2 & _) & _) & _) & _). rewrite Hl2, Hn. unfold MAX_KMIP_WRITER_POSITIONS in *.
  destruct (Z.ltb_spec (kw_cur_pos w) 10), (Z.ltb_spec (kw_cur_pos w + 1) 10); [|lia..].
  destruct Hw3 as (Hb & Hp & _). eexists. split; [done|]. split; [split; [|split]|split; [done|split]].
  - cbn [kw_buffer]. rewrite <- (app_assoc t) in Hb. exact Hb.
  - cbn. unfold zlen in *. by rewrite length_insert.
  - cbn. lia.
  - cbn. rewrite list_lookup_insert_eq; [f_equal; zl|]. unfold zlen in Hn. lia.
  - intros i Hi. cbn. apply list_lookup_insert_ne. lia.
Qed.

Lemma close_struct_spec w t hd body :
  writer_is w ((t ++ hd) ++ be_bytes 4 0 ++ body) -> zlen hd = 4 -> zlen t + 8 + zlen body < KMS_LIMIT ->
  0 < kw_cur_pos w -> kw_positions w !! Z.to_nat (kw_cur_pos w) = Some (zlen t + 4) ->
  exists w', kmip_writer_close_struct w = Some w' /\
    writer_is w' (t ++ hd ++ be_bytes 4 (zlen body) ++ body) /\ kw_cur_pos w' = kw_cur_pos w - 1 /\
    kw_positions w' = kw_positions w.
Proof.
  intros (((Hl & Hs & junk & Ej & Hz) & Hr) & Hn & Hc) Hh Hlim Hc' Hp. unfold kmip_writer_close_struct.
  destruct (Z.ltb_spec 0 (kw_cur_pos w)); [|lia]. rewrite Hp. sbind. zlen_facts. unfold KMS_LIMIT in Hlim.
  rewrite Hl. replace (zlen t + zlen hd + _ - (zlen t + 4) - 4) with (zlen body) by lia. rewrite u32_id by lia.
  rewrite (swap_bytes_be 4) by (apply swap32_rev || lia). rewrite Ej in *. rewrite <- !app_assoc, (app_assoc t hd) in *.
  rewrite store_at by zl. sbind. eexists. split; [done|]. split; [|done].
  split; [split; [split; [cbn; zl|]|]|split; [done|cbn; lia]].
  - cbn. split; [zl|]. exists junk. rewrite <- !app_assoc. split; [done|]. zl.
  - cbn. revert Hr. rewrite !(rd_app_r (t ++ hd)), !(rd_app_r (be_bytes 4 _)), !(rd_app_r body) by zl.
    intros <-. f_equal. zl.
Qed.

(** ** Trees *)

Definition writes_val (v : kval) : Prop :=
  forall w t tag, writer_is w t -> wf_tag tag -> wf_kval v -> zlen (kbody v) < 2 ^ 32 - 8 -> writable v ->
    kw_cur_pos w + kdepth v <= 9 -> zlen t + zlen (enc_item (tag, v)) < KMS_LIMIT ->
    exists w', write_val malloc w tag v = Some w' /\ extended w w' (t ++ enc_item (tag, v)).

Lemma write_items_spec l : Forall (fun e => writes_val e.2) l ->
  forall w t, writer_is w t -> wf_items l -> writable_items l ->
    kw_cur_pos w + depths l <= 9 -> zlen t + zlen (enc_items l) < KMS_LIMIT ->
    exists w', write_items malloc w l = Some w' /\ extended w w' (t ++ enc_items l).
Proof.
  induction 1 as [|[tag v] l Hv _ IH]; intros w t Hw Hwf Hwr Hd Hl.
  { exists w. rewrite app_nil_r. split; [done|]. by split. }
  inversion_clear Hwf as [|? ? (Ht & Hwv & Hb) Hwf']. destruct Hwr as [Hv1 Hwr]. cbn [enc_items depths] in *.
  rewrite zlen_app in Hl. pose proof (zlen_nonneg (enc_items l)).
  cbn [snd] in Hv. destruct (Hv w t tag) as (w1 & E1 & H1); [done..|lia|lia|]. cbn [write_items]. rewrite E1. sbind.
  destruct (IH w1 _ (proj1 H1)) as (w2 & E2 & H2); [done..| |zl|].
  { destruct H1 as (_ & -> & _). lia. }
  exists w2. split; [done|]. rewrite app_assoc. by eapply extended_trans.
Qed.

Lemma write_structure l : (forall w t, writer_is w t -> wf_items l -> writable_items l ->
    kw_cur_pos w + depths l <= 9 -> zlen t + zlen (enc_items l) < KMS_LIMIT ->
    exists w', write_items malloc w l = Some w' /\ extended w w' (t ++ enc_items l)) -> writes_val (KStructure l).
Proof.
  intros IH w t tag Hw Ht Hwf Hb Hwr Hd Hl. apply wf_structure in Hwf. apply writable_structure in Hwr.
  rewrite kdepth_structure in Hd. rewrite kbody_structure in Hb. pose proof (depths_nonneg l).
  assert (Ei : enc_item (tag, KStructure l) =
    (be_bytes 3 tag ++ [z2b KMIP_ITEM_TYPE_Structure]) ++ be_bytes 4 (zlen (enc_items l)) ++ enc_items l).
  { unfold enc_item, wrap_item. cbn [fst snd kval_type]. rewrite kbody_structure. unfold pad.
    rewrite enc_items_aligned, app_nil_r. by rewrite <- app_assoc. }
  rewrite Ei in *. set (hd := be_bytes 3 tag ++ _) in *. assert (Hhd : zlen hd = 4) by (subst hd; zl).
  rewrite !zlen_app, Hhd, zlen_be_bytes in Hl. pose proof (zlen_nonneg (enc_items l)).
  destruct (begin_struct_spec w t tag Hw Ht) as (w1 & E1 & H1 & C1 & P1 & K1); [lia|lia|].
  fold hd in H1. destruct (IH w1 _ H1 Hwf Hwr) as (w2 & E2 & H2 & C2 & P2); [lia|zl|].
  rewrite <- (P2 (kw_cur_pos w1)), <- C2 in P1 by lia. rewrite <- app_assoc in H2. destruct Hw as (_ & _ & Hc0).
  destruct (close_struct_spec w2 t hd (enc_items l) H2 Hhd) as (w3 & E3 & H3 & C3 & P3); [lia|lia|done|].
  exists w3. cbn [write_val]. rewrite E1. sbind. fold (write_items malloc w1 l). split.
  - etransitivity; [|exact E3]. by rewrite E2.
  - split; [done|]. split; [lia|]. intros i Hi. rewrite P3, P2, K1 by lia. done.
Qed.

Lemma write_val_spec v : writes_val v.
Proof.
  induction v as [v Hv|l IH] using kval_ind'; [|by apply write_structure, write_items_spec].
  intros w t tag Hw Ht Hwf Hb Hwr _ Hl. unfold enc_item in *. cbn [fst snd] in *.
  enough (H : writes (fun w => write_val malloc w tag v) (wrap_item tag (kval_type v) (kbody v))).
  { destruct (H w t Hw Hl) as (w' & E & H'). exists w'. split; [done|]. by apply appended_extended. }
  destruct v; try done; cbn [write_val kval_type kbody] in *.
  - by apply writes_word.
  - by apply writes_long.
  - pose proof (writes_word tag KMIP_ITEM_TYPE_Enumeration v Ht) as H. by rewrite u32_id in H.
  - apply writes_text; [done|lia].
  - apply writes_text; [done|lia].
  - by apply writes_long.
Qed.

(** A message written from the start is the encoding of its items. *)
Lemma write_message l :
  wf_items l -> writable_items l -> depths l <= 9 -> zlen (enc_items l) < KMS_LIMIT ->
  exists w w', kmip_writer_new malloc = Some w /\ write_items malloc w l = Some w' /\
    kw_cur_pos w' = 0 /\ exists rest, kmip_writer_get_buffer w' = (zlen (enc_items l), enc_items l ++ rest).
Proof.
  intros Hwf Hwr Hd Hl. destruct kmip_writer_new_spec as (w & E & Hw & Hc). exists w.
  destruct (write_items_spec l) with (w := w) (t := @nil byte) as (w' & E' & H' & C' & _); [|try done; lia..|].
  { apply Forall_forall. intros e _. apply write_val_spec. }
  exists w'. split; [done|]. split; [done|]. split; [congruence|].
  destruct H' as (((Hlen & _ & junk & Ej & _) & _) & _). exists junk. unfold kmip_writer_get_buffer. by rewrite Hlen, Ej.
Qed.
End Spec.

