(* ===== verification/Hex.v ===== *)
(** Hexadecimal text: [util/hex.h]. *)

From Stdlib Require Import Strings.String.
From S2P Require Import Prelude CString Text.

(** [%x] of a digit, and [%02x] of a byte. *)
Definition hexdigit (n : Z) : byte := z2b (if n <? 10 then 48 + n else 87 + n).
Definition hex02 (z : Z) : bytes := [hexdigit (z / 16); hexdigit (z mod 16)].

(** ** Operations *)

Section Ops.
Context (malloc : Z -> bytes).

(** The loop of [bin_to_hex], on the bytes from [i] on. *)
Fixpoint bin_to_hex_loop (count : nat) (out bin : bytes) (i : Z) : option bytes :=
  match count with
  | O => Some out
  | S count' =>
      b ← rd bin i;
      out ← store out (u32 (2 * i)) (vsnprintf 3 (hex02 (b2z b)) ++ [x00]);
      bin_to_hex_loop count' out bin (i + 1)
  end.

(** The size is computed in 32 bits. *)
Definition bin_to_hex (bin : bytes) (len : Z) : option bytes :=
  bin_to_hex_loop (Z.to_nat len) (replicate (Z.to_nat (u32 (2 * len + 1))) x00) bin 0.

(** A digit's value, or no digit. *)
Definition digit_value (b : byte) : option Z :=
  let c := b2z b in
  if (48 <=? c) && (c <=? 57) then Some (c - 48)
  else if (97 <=? c) && (c <=? 102) then Some (c - 97 + 10)
  else if (65 <=? c) && (c <=? 70) then Some (c - 65 + 10)
  else None.

(** The loop of [unhexlify], from the last character. *)
Fixpoint unhexlify_loop (count : nat) (inp : bytes) (i total multiplier : Z) : option Z :=
  match count with
  | O => Some total
  | S count' =>
      b ← rd inp i;
      match digit_value b with
      | None => Some (-1)
      | Some digit =>
          p ← int_ok (digit * multiplier);
          total ← int_ok (total + p);
          multiplier ← int_ok (multiplier * 16);
          unhexlify_loop count' inp (i - 1) total multiplier
      end
  end.

Definition unhexlify (inp : bytes) (len : Z) : option Z := unhexlify_loop (Z.to_nat len) inp (len - 1) 0 1.

(** The loop of [copy_and_filter_hex]; [len] is [strlen (unfiltered_hex)]. *)
Fixpoint filter_loop (fuel : nat) (filtered unfiltered : bytes) (len i j : Z) : option (bytes * Z) :=
  if i <? len then
    match fuel with
    | O => None
    | S fuel' =>
        c ← rd unfiltered i;
        if byte_eqb c (z2b 32) then filter_loop fuel' filtered unfiltered len (i + 1) j
        else if byte_eqb c (z2b 124) then filter_loop fuel' filtered unfiltered len (i + 1) j
        else if byte_eqb c (z2b 44) then filter_loop fuel' filtered unfiltered len (i + 1) j
        else
          p ← padd unfiltered i;
          r ← (if i <? u64 (len - 1) then r ← strncmp 2 p (lit "0x"); Some (r =? 0) else Some false);
          if (r : bool) then filter_loop fuel' filtered unfiltered len (i + 1 + 1) j
          else
            filtered ← store filtered j [tolower c];
            filter_loop fuel' filtered unfiltered len (i + 1) (j + 1)
    end
  else Some (filtered, j).

Definition copy_and_filter_hex (unfiltered_hex : bytes) : option bytes :=
  len ← strlen unfiltered_hex;
  '(filtered, j) ← filter_loop (Z.to_nat len) (malloc (len + 1)) unfiltered_hex len 0 0;
  store filtered j [x00].

(** An answer of -1 is stored as 255. *)
Fixpoint hex_to_bin_loop (count : nat) (out filtered_hex : bytes) (i : Z) : option bytes :=
  match count with
  | O => Some out
  | S count' =>
      p ← padd filtered_hex (i * 2);
      v ← unhexlify p 2;
      out ← store out i [z2b (u8 v)];
      hex_to_bin_loop count' out filtered_hex (i + 1)
  end.

(** The bytes and their number. *)
Definition hex_to_bin (unfiltered_hex : bytes) : option (bytes * Z) :=
  filtered_hex ← copy_and_filter_hex unfiltered_hex;
  n ← strlen filtered_hex;
  let outlen := n / 2 in
  out ← hex_to_bin_loop (Z.to_nat outlen) (malloc outlen) filtered_hex 0;
  Some (out, outlen).
End Ops.

(** ** Specification *)

(** What is kept of a text. *)
Fixpoint filter_text (s : bytes) : bytes :=
  match s with
  | [] => []
  | c :: s' =>
      if byte_eqb c (z2b 32) || byte_eqb c (z2b 124) || byte_eqb c (z2b 44) then filter_text s'
      else match s' with
           | d :: s'' => if byte_eqb c (z2b 48) && byte_eqb d (z2b 120) then filter_text s''
                         else tolower c :: filter_text s'
           | [] => [tolower c]
           end
  end.

(** Two digits a byte; 255 where they are no digits, and an odd one dropped. *)
Definition hexpair (a b : byte) : byte :=
  match digit_value a, digit_value b with Some x, Some y => z2b (16 * x + y) | _, _ => z2b 255 end.
Fixpoint unhex (s : bytes) : bytes :=
  match s with
  | a :: b :: s' => hexpair a b :: unhex s'
  | _ => []
  end.

Fixpoint hex_text (s : bytes) : bytes :=
  match s with [] => [] | b :: s' => hex02 (b2z b) ++ hex_text s' end.

(** The form kmip_dump prints: [0x42, 0x00, ...]. *)
Fixpoint hex_listing (s : bytes) : bytes :=
  match s with
  | [] => []
  | b :: s' => txt "0x" ++ hex02 (b2z b) ++ (match s' with [] => [] | _ => txt ", " end) ++ hex_listing s'
  end.

(** ** Facts *)

Lemma tolower_not_nul c : c <> x00 -> tolower c <> x00.
Proof.
  intros Hc E. apply (f_equal b2z) in E. change (b2z x00) with 0 in E. unfold tolower in E. pose proof (b2z_range c).
  assert (b2z c <> 0) by (intros Hz; by apply Hc, b2z_zero).
  destruct (Z.leb_spec 65 (b2z c)), (Z.leb_spec (b2z c) 90); cbn [andb] in E; try lia.
  rewrite b2z_z2b_small in E by lia. lia.
Qed.

Lemma digit_range c x : digit_value c = Some x -> 0 <= x < 16.
Proof. unfold digit_value. intros H. bdestruct; injection H as <-; lia. Qed.

Lemma digit_value_of n : 0 <= n < 16 -> digit_value (hexdigit n) = Some n.
Proof.
  intros Hn. unfold digit_value, hexdigit. destruct (Z.ltb_spec n 10); rewrite b2z_z2b_small by lia; bdestruct; f_equal; lia.
Qed.

Lemma hexdigit_cases n : 0 <= n < 16 -> 48 <= b2z (hexdigit n) <= 57 \/ 97 <= b2z (hexdigit n) <= 102.
Proof. intros Hn. unfold hexdigit. destruct (Z.ltb_spec n 10); rewrite b2z_z2b_small by lia; lia. Qed.

Lemma hexpair_hex02 b : hexpair (hexdigit (b2z b / 16)) (hexdigit (b2z b mod 16)) = b.
Proof.
  pose proof (b2z_range b). unfold hexpair. rewrite !digit_value_of by (Z.to_euclidean_division_equations; lia).
  rewrite <- Z.div_mod by lia. apply z2b_b2z.
Qed.

(** ** The operations *)

Lemma unhexlify_spec a b m : unhexlify (a :: b :: m) 2 =
  Some (match digit_value a, digit_value b with Some x, Some y => 16 * x + y | _, _ => -1 end).
Proof.
  unfold unhexlify. change (Z.to_nat 2) with 2%nat. change (2 - 1) with 1. cbn [unhexlify_loop].
  change (rd (a :: b :: m) 1) with (Some b). sbind.
  destruct (digit_value b) as [y|] eqn:Eb; [apply digit_range in Eb|by destruct (digit_value a)].
  repeat (rewrite int_ok_id by lia; sbind).
  change (1 - 1) with 0. change (rd (a :: b :: m) 0) with (Some a). sbind.
  destruct (digit_value a) as [x|] eqn:Ea; [apply digit_range in Ea|done].
  repeat (rewrite int_ok_id by lia; sbind). f_equal. lia.
Qed.

(** Bytes of pairs of digits. *)
Lemma zlen_unhex_pair a b (s : bytes) : zlen (a :: b :: s) / 2 = zlen s / 2 + 1.
Proof. rewrite !zlen_cons. replace (1 + (1 + zlen s)) with (zlen s + 1 * 2) by lia. by rewrite Z.div_add by lia. Qed.

Lemma hex_to_bin_loop_spec n : forall s pre post out room i,
  Z.of_nat n = zlen s / 2 -> zlen pre = i * 2 -> zlen out = i -> zlen room = zlen s / 2 ->
  hex_to_bin_loop n (out ++ room) (pre ++ s ++ post) i = Some (out ++ unhex s).
Proof.
  induction n as [|n IH]; intros s pre post out room i Hn Hp Ho Hr.
  - destruct s as [|a [|b s]]; [| |rewrite zlen_unhex_pair in Hn; pose proof (Z.div_pos (zlen s) 2); zl];
      (rewrite (zlen_0 room) by zl; done).
  - destruct s as [|a [|b s]]; [done|done|]. rewrite zlen_unhex_pair in Hn, Hr. cbn [hex_to_bin_loop].
    rewrite padd_at by done. sbind. cbn [app]. rewrite unhexlify_spec. sbind.
    destruct room as [|r room]; [change (zlen (@nil byte)) with 0 in Hr; lia|]. rewrite zlen_cons in Hr.
    change (r :: room) with ([r] ++ room). rewrite store_at by done. sbind.
    specialize (IH s (pre ++ [a; b]) post (out ++ [hexpair a b]) room (i + 1)).
    rewrite <- !app_assoc in IH. cbn [app unhex] in *. rewrite <- IH; [|lia|zl|zl|lia]. do 3 f_equal.
    unfold hexpair. destruct (digit_value a) as [x|] eqn:Ea; [|done]. destruct (digit_value b) as [y|] eqn:Eb; [|done].
    apply digit_range in Ea, Eb. by rewrite u8_id by lia.
Qed.

Lemma strncmp_0x c d m : c <> x00 ->
  (r ← strncmp 2 (c :: d :: m) (lit "0x"); Some (r =? 0)) = Some (byte_eqb c (z2b 48) && byte_eqb d (z2b 120)).
Proof.
  intros Hc. change (lit "0x") with [z2b 48; z2b 120; x00]. cbn [strncmp]. byte_cases c (z2b 48).
  - rewrite (byte_eqb_neq (z2b 48) x00) by done. byte_cases d (z2b 120).
    + by rewrite (byte_eqb_neq (z2b 120) x00) by done.
    + sbind. f_equal. apply Z.eqb_neq. by apply b2z_diff.
  - sbind. f_equal. apply Z.eqb_neq. by apply b2z_diff.
Qed.

(** The loop at a text puts what is kept of it after what was kept before. *)
Definition filters (fuel : nat) (s : bytes) : Prop := forall pre post kept room j len,
  zlen kept = j -> zlen s <= zlen room -> len = zlen pre + zlen s -> len < 2 ^ 63 ->
  exists room', filter_loop fuel (kept ++ room) (pre ++ s ++ x00 :: post) len (zlen pre) j =
      Some (kept ++ filter_text s ++ room', j + zlen (filter_text s)) /\
    zlen (filter_text s) + zlen room' = zlen room.

Lemma filters_nil fuel : filters fuel [].
Proof.
  intros pre post kept room j len Hj _ Hl _. exists room. rewrite zlen_nil in Hl. cbn [filter_text]. rewrite zlen_nil, Z.add_0_r.
  split; [|lia]. destruct fuel; cbn [filter_loop]; destruct (Z.ltb_spec (zlen pre) len); lia || done.
Qed.

(** A character is dropped, two are dropped, or one is kept. *)
Lemma filters_step fuel c s :
  c <> x00 -> filters fuel s -> (forall d s', s = d :: s' -> filters fuel s') -> filters (S fuel) (c :: s).
Proof.
  intros Hc IH IH' pre post kept room j len Hj Hr Hl Hlim. pose proof (zlen_nonneg pre). pose proof (zlen_nonneg s).
  rewrite zlen_cons in Hr, Hl. pose proof (IH (pre ++ [c]) post kept room j len Hj ltac:(lia) ltac:(zl) Hlim) as Hskip.
  destruct room as [|r room]; [rewrite zlen_nil in Hr; lia|]. rewrite zlen_cons in Hr.
  pose proof (IH (pre ++ [c]) post (kept ++ [tolower c]) room (j + 1) len ltac:(zl) ltac:(lia) ltac:(zl) Hlim) as Hkeep.
  rewrite <- (app_assoc pre), zlen_app, zlen_1 in Hskip, Hkeep. rewrite <- (app_assoc kept _ room) in Hkeep. cbn [app] in *.
  cbn [filter_loop filter_text]. destruct (Z.ltb_spec (zlen pre) len); [|lia]. rewrite rd_at by done. sbind.
  destruct (byte_eqb c (z2b 32)); [done|]. destruct (byte_eqb c (z2b 124)); [done|].
  destruct (byte_eqb c (z2b 44)); [done|]. cbn [orb]. rewrite padd_at by done. sbind. rewrite u64_id by lia.
  assert (Hk : exists room', (filtered ← store (kept ++ r :: room) j [tolower c];
        filter_loop fuel filtered (pre ++ c :: s ++ x00 :: post) len (zlen pre + 1) (j + 1)) =
      Some (kept ++ (tolower c :: filter_text s) ++ room', j + zlen (tolower c :: filter_text s)) /\
    zlen (tolower c :: filter_text s) + zlen room' = zlen (r :: room)).
  { change (r :: room) with ([r] ++ room). rewrite store_at by done. sbind. cbn [app].
    destruct Hkeep as (room' & -> & Hz). exists room'. rewrite !zlen_cons, Z.add_assoc, <- app_assoc. split; [done|lia]. }
  destruct s as [|d s].
  - rewrite zlen_nil in Hl. destruct (Z.ltb_spec (zlen pre) (len - 1)); [lia|]. sbind. exact Hk.
  - rewrite zlen_cons in Hl, Hr. pose proof (zlen_nonneg s). destruct (Z.ltb_spec (zlen pre) (len - 1)); [|lia].
    cbn [app] in *. rewrite strncmp_0x by done. sbind. destruct (_ && _); [|exact Hk].
    pose proof (IH' d s eq_refl (pre ++ [c; d]) post kept (r :: room) j len Hj ltac:(zl) ltac:(zl) Hlim) as Htwo.
    rewrite <- (app_assoc pre), zlen_app in Htwo. change (zlen [c; d]) with (1 + 1) in Htwo. by rewrite Z.add_assoc in Htwo.
Qed.

Lemma filter_loop_spec fuel : forall s, (length s <= fuel)%nat -> no_nul s -> filters fuel s.
Proof.
  induction fuel as [|fuel IH]; intros [|c s] Hf Hs; [apply filters_nil|simpl in Hf; lia|apply filters_nil|].
  simpl in Hf. apply no_nul_cons in Hs as [Hc Hs]. apply filters_step; [done|apply IH; [lia|done]|].
  intros d s' ->. simpl in Hf. apply no_nul_cons in Hs as [_ Hs]. apply IH; [lia|done].
Qed.

Lemma filter_text_kept n : forall s, (length s <= n)%nat -> no_nul s ->
  no_nul (filter_text s) /\ zlen (filter_text s) <= zlen s.
Proof.
  induction n as [|n IH]; intros [|c s] Hn Hs; try done; simpl in Hn; [lia|]. apply no_nul_cons in Hs as [Hc Hs].
  rewrite zlen_cons. cbn [filter_text]. destruct (IH s ltac:(lia) Hs) as [H1 H2].
  destruct (_ || _); [split; [done|lia]|]. destruct s as [|d s].
  - split; [|done]. apply no_nul_cons. split; [by apply tolower_not_nul|done].
  - apply no_nul_cons in Hs as [_ Hs]. simpl in Hn. destruct (IH s ltac:(lia) Hs) as [H3 H4].
    destruct (_ && _); [split; [done|]; rewrite zlen_cons; lia|]. rewrite zlen_cons. split; [|lia].
    apply no_nul_cons. split; [by apply tolower_not_nul|done].
Qed.

(** Lower-case digits are kept as they are. *)
Definition lower_hex (c : byte) : Prop := 48 <= b2z c <= 57 \/ 97 <= b2z c <= 102.

Lemma lower_hex_neq c k : lower_hex c -> 0 <= k < 48 \/ 57 < k < 97 \/ 102 < k < 256 -> byte_eqb c (z2b k) = false.
Proof.
  intros Hc Hk. apply byte_eqb_neq. intros ->. unfold lower_hex in Hc. rewrite b2z_z2b_small in Hc by lia. lia.
Qed.

Lemma lower_hex_tolower c : lower_hex c -> tolower c = c.
Proof.
  unfold lower_hex, tolower. intros Hc. destruct (Z.leb_spec 65 (b2z c)), (Z.leb_spec (b2z c) 90); cbn [andb]; lia || done.
Qed.

Lemma filter_text_hex s t : Forall lower_hex s -> (forall c, head t = Some c -> byte_eqb c (z2b 120) = false) ->
  filter_text (s ++ t) = s ++ filter_text t.
Proof.
  intros Hs Ht. induction Hs as [|c s Hc Hs IH]; [done|]. cbn [app filter_text].
  rewrite !(lower_hex_neq c) by (done || lia). cbn [orb]. rewrite IH, lower_hex_tolower by done.
  destruct (s ++ t) as [|d r] eqn:E; [by apply app_nil in E as [-> ->]|].
  enough (byte_eqb d (z2b 120) = false) as -> by (by rewrite andb_false_r).
  destruct Hs as [|d' s Hd Hs]; cbn [app] in E; [apply Ht; by rewrite E|]. injection E as <- _. apply lower_hex_neq; [done|lia].
Qed.

Lemma hex02_lower b : Forall lower_hex (hex02 (b2z b)).
Proof.
  pose proof (b2z_range b). unfold hex02. apply Forall_cons. split; [|apply Forall_cons; split; [|done]]; apply hexdigit_cases; Z.to_euclidean_division_equations; lia.
Qed.

Lemma hex_text_lower s : Forall lower_hex (hex_text s).
Proof. induction s as [|b s IH]; [constructor|]. cbn [hex_text]. apply Forall_app. split; [apply hex02_lower|done]. Qed.

Lemma lower_hex_no_nul s : Forall lower_hex s -> no_nul s.
Proof.
  unfold no_nul. intros Hs Hin. rewrite Forall_forall in Hs. apply Hs in Hin. unfold lower_hex in Hin.
  change (b2z x00) with 0 in Hin. lia.
Qed.

Lemma zlen_hex_text s : zlen (hex_text s) = 2 * zlen s.
Proof. induction s as [|b s IH]; [done|]. cbn [hex_text]. rewrite zlen_app, IH, zlen_cons. change (zlen (hex02 (b2z b))) with 2. lia. Qed.

Lemma zlen_listing_le s : zlen (hex_listing s) <= 6 * zlen s.
Proof.
  induction s as [|b s IH]; [done|]. cbn [hex_listing]. rewrite !zlen_app, zlen_cons.
  change (zlen (txt "0x")) with 2. change (zlen (hex02 (b2z b))) with 2.
  assert (zlen (match s with [] => [] | _ :: _ => txt ", " end) <= 2) by (by destruct s). lia.
Qed.

Lemma unhex_hex_text s : unhex (hex_text s) = s.
Proof. induction s as [|b s IH]; [done|]. cbn [hex_text hex02 app unhex]. by rewrite hexpair_hex02, IH. Qed.

Lemma filter_hex_text s : filter_text (hex_text s) = hex_text s.
Proof.
  rewrite <- (app_nil_r (hex_text s)) at 1. rewrite filter_text_hex; [by rewrite app_nil_r|apply hex_text_lower|done].
Qed.

Lemma filter_listing s : filter_text (hex_listing s) = hex_text s.
Proof.
  induction s as [|b s IH]; [done|]. cbn [hex_listing hex_text]. change (txt "0x") with [z2b 48; z2b 120]. cbn [app filter_text].
  change (byte_eqb (z2b 48) (z2b 32) || byte_eqb (z2b 48) (z2b 124) || byte_eqb (z2b 48) (z2b 44)) with false.
  change (byte_eqb (z2b 48) (z2b 48) && byte_eqb (z2b 120) (z2b 120)) with true. cbn match.
  rewrite filter_text_hex; [|apply hex02_lower|].
  - rewrite <- IH. f_equal. destruct s as [|c s]; [done|]. change (txt ", ") with [z2b 44; z2b 32]. reflexivity.
  - destruct s as [|c s]; [done|]. intros d [= <-]. reflexivity.
Qed.

Lemma hex_listing_no_nul s : no_nul (hex_listing s).
Proof.
  induction s as [|b s IH]; [by apply no_nulb_spec|]. cbn [hex_listing]. apply no_nul_app. split; [by apply no_nulb_spec|].
  apply no_nul_app. split; [apply lower_hex_no_nul, hex02_lower|].
  apply no_nul_app. split; [|done]. destruct s; [done|by apply no_nulb_spec].
Qed.

(** ** Printing *)

Lemma bin_to_hex_loop_spec bin : forall pre out room,
  zlen out = 2 * zlen pre -> zlen room = 2 * zlen bin + 1 -> 2 * (zlen pre + zlen bin) + 1 < 2 ^ 32 -> rd room 0 = Some x00 ->
  bin_to_hex_loop (length bin) (out ++ room) (pre ++ bin) (zlen pre) = Some (out ++ hex_text bin ++ [x00]).
Proof.
  induction bin as [|b bin IH]; intros pre out room Ho Hr Hlim H0; cbn [length bin_to_hex_loop hex_text].
  - change (zlen (@nil byte)) with 0 in Hr. destruct room as [|c room]; [done|]. rewrite zlen_cons in Hr. rewrite (zlen_0 room) by lia.
    cbn in H0. by injection H0 as ->.
  - rewrite zlen_cons in Hr, Hlim. pose proof (zlen_nonneg bin). pose proof (zlen_nonneg pre).
    rewrite rd_at by done. sbind. rewrite u32_id by lia.
    change (vsnprintf 3 (hex02 (b2z b)) ++ [x00]) with (hex02 (b2z b) ++ [x00]).
    destruct room as [|r0 [|r1 [|r2 room]]]; try (cbv [zlen] in Hr; simpl in Hr; lia). rewrite !zlen_cons in Hr.
    change (r0 :: r1 :: r2 :: room) with ([r0; r1; r2] ++ room). rewrite store_at by done. sbind.
    specialize (IH (pre ++ [b]) (out ++ hex02 (b2z b)) ([x00] ++ room)).
    rewrite <- !app_assoc, (zlen_app pre), zlen_1 in IH. cbn [app] in *. apply IH; [|rewrite zlen_cons; lia|lia|done].
    rewrite zlen_app. change (zlen (hex02 (b2z b))) with 2. lia.
Qed.

Lemma bin_to_hex_spec bin :
  2 * zlen bin + 1 < 2 ^ 32 -> bin_to_hex bin (zlen bin) = Some (hex_text bin ++ [x00]).
Proof.
  intros Hl. pose proof (zlen_nonneg bin). unfold bin_to_hex. rewrite u32_id, to_nat_zlen by lia.
  apply (bin_to_hex_loop_spec bin [] []); [done|rewrite zlen_replicate; lia|change (zlen (@nil byte)) with 0; lia|].
  replace (Z.to_nat (2 * zlen bin + 1)) with (S (Z.to_nat (2 * zlen bin))) by lia. done.
Qed.

Section Spec.
Context (malloc : Z -> bytes).
Hypothesis Hmalloc : forall n, 0 <= n -> zlen (malloc n) = n.

Lemma copy_and_filter_hex_spec s post :
  no_nul s -> zlen s < 2 ^ 62 ->
  exists rest, copy_and_filter_hex malloc (s ++ x00 :: post) = Some (filter_text s ++ x00 :: rest).
Proof.
  intros Hs Hl. pose proof (zlen_nonneg s). unfold copy_and_filter_hex. rewrite strlen_app by done. sbind.
  pose proof (Hmalloc (zlen s + 1) ltac:(lia)) as Hm.
  destruct (filter_loop_spec (Z.to_nat (zlen s)) s ltac:(unfold zlen; lia) Hs [] post [] (malloc (zlen s + 1)) 0 (zlen s))
    as (room & E & Hz); [done|lia|done|lia|].
  cbn [app] in E. change (zlen (@nil byte)) with 0 in E. rewrite E. sbind. rewrite Z.add_0_l.
  destruct (filter_text_kept (length s) s) as [_ Hk]; [done|done|].
  destruct room as [|r room]; [rewrite zlen_nil in Hz; lia|].
  change (r :: room) with ([r] ++ room). rewrite store_at by done. by exists room.
Qed.

(** Every text is read: the digits kept, in pairs. *)
Lemma hex_to_bin_spec s post :
  no_nul s -> zlen s < 2 ^ 62 ->
  hex_to_bin malloc (s ++ x00 :: post) = Some (unhex (filter_text s), zlen (filter_text s) / 2).
Proof.
  intros Hs Hl. unfold hex_to_bin. destruct (copy_and_filter_hex_spec s post Hs Hl) as (rest & ->). sbind.
  rewrite strlen_app by (by apply (filter_text_kept (length s))). sbind. pose proof (zlen_nonneg (filter_text s)).
  pose proof (Z.div_pos (zlen (filter_text s)) 2 ltac:(lia) ltac:(lia)) as Hd.
  rewrite (hex_to_bin_loop_spec _ (filter_text s) [] (x00 :: rest) [] (malloc (zlen (filter_text s) / 2)) 0); [done|lia|done|done|].
  by apply Hmalloc.
Qed.

End Spec.
