(* ===== verification/BsonOid.v ===== *)
(** Object identifiers and the context that makes them unique: [bson-oid.c],
    [bson-oid.h], [bson-context.c], [common-oid.c]. An identifier is twelve
    bytes: four of time, five of the context's randomness, three of its
    counter. *)

From Stdlib Require Import Strings.String.
From S2P Require Import Prelude CString Text IntEncode.

(** ** Identifiers *)

(** The pairs of digits of every byte, on a little-endian machine. *)
Definition gHexCharPairs : list Z :=
  [12336; 12592; 12848; 13104; 13360; 13616; 13872; 14128; 14384; 14640; 24880; 25136; 25392;
    25648; 25904; 26160; 12337; 12593; 12849; 13105; 13361; 13617; 13873; 14129; 14385; 14641;
    24881; 25137; 25393; 25649; 25905; 26161; 12338; 12594; 12850; 13106; 13362; 13618; 13874;
    14130; 14386; 14642; 24882; 25138; 25394; 25650; 25906; 26162; 12339; 12595; 12851; 13107;
    13363; 13619; 13875; 14131; 14387; 14643; 24883; 25139; 25395; 25651; 25907; 26163; 12340;
    12596; 12852; 13108; 13364; 13620; 13876; 14132; 14388; 14644; 24884; 25140; 25396; 25652;
    25908; 26164; 12341; 12597; 12853; 13109; 13365; 13621; 13877; 14133; 14389; 14645; 24885;
    25141; 25397; 25653; 25909; 26165; 12342; 12598; 12854; 13110; 13366; 13622; 13878; 14134;
    14390; 14646; 24886; 25142; 25398; 25654; 25910; 26166; 12343; 12599; 12855; 13111; 13367;
    13623; 13879; 14135; 14391; 14647; 24887; 25143; 25399; 25655; 25911; 26167; 12344; 12600;
    12856; 13112; 13368; 13624; 13880; 14136; 14392; 14648; 24888; 25144; 25400; 25656; 25912;
    26168; 12345; 12601; 12857; 13113; 13369; 13625; 13881; 14137; 14393; 14649; 24889; 25145;
    25401; 25657; 25913; 26169; 12385; 12641; 12897; 13153; 13409; 13665; 13921; 14177; 14433;
    14689; 24929; 25185; 25441; 25697; 25953; 26209; 12386; 12642; 12898; 13154; 13410; 13666;
    13922; 14178; 14434; 14690; 24930; 25186; 25442; 25698; 25954; 26210; 12387; 12643; 12899;
    13155; 13411; 13667; 13923; 14179; 14435; 14691; 24931; 25187; 25443; 25699; 25955; 26211;
    12388; 12644; 12900; 13156; 13412; 13668; 13924; 14180; 14436; 14692; 24932; 25188; 25444;
    25700; 25956; 26212; 12389; 12645; 12901; 13157; 13413; 13669; 13925; 14181; 14437; 14693;
    24933; 25189; 25445; 25701; 25957; 26213; 12390; 12646; 12902; 13158; 13414; 13670; 13926;
    14182; 14438; 14694; 24934; 25190; 25446; 25702; 25958; 26214].

(** [dst\[i\] = gHexCharPairs\[id\[i\]\]] for the bytes from [i] on. *)
Fixpoint oid_pairs (id : bytes) (str : bytes) (i : Z) : option bytes :=
  match id with
  | [] => Some str
  | b :: id' =>
      w ← gHexCharPairs !! Z.to_nat (b2z b);
      str ← store str (2 * i) (le_encode_loop 2 w);
      oid_pairs id' str (i + 1)
  end.

Definition bson_oid_to_string (oid str : bytes) : option bytes :=
  id ← slice oid 0 12; str ← oid_pairs id str 0; store str 24 [x00].

(** The value of a hexadecimal character; zero for any other. *)
Definition bson_oid_parse_hex_char (hex : byte) : Z :=
  let c := b2z hex in
  if (48 <=? c) && (c <=? 57) then c - 48
  else if (97 <=? c) && (c <=? 102) then 0xa + (c - 97)
  else if (65 <=? c) && (c <=? 70) then 0xa + (c - 65)
  else 0.

Fixpoint oid_parse_loop (count : nat) (oid str : bytes) (i : Z) : option bytes :=
  match count with
  | O => Some oid
  | S count' =>
      a ← rd str (2 * i);
      b ← rd str (2 * i + 1);
      oid ← store oid i [z2b (Z.lor (Z.shiftl (bson_oid_parse_hex_char a) 4) (bson_oid_parse_hex_char b))];
      oid_parse_loop count' oid str (i + 1)
  end.

Definition bson_oid_init_from_string_unsafe (oid str : bytes) : option bytes := oid_parse_loop 12 oid str 0.
Definition bson_oid_init_from_string (oid str : bytes) : option bytes := bson_oid_init_from_string_unsafe oid str.

Definition bson_oid_init_from_data (oid data : bytes) : option bytes := d ← slice data 0 12; store oid 0 d.
Definition bson_oid_copy_unsafe (src dst : bytes) : option bytes := s ← slice src 0 12; store dst 0 s.
Definition bson_oid_copy (src dst : bytes) : option bytes := bson_oid_copy_unsafe src dst.
Definition bson_oid_compare_unsafe (oid1 oid2 : bytes) : option Z := memcmp oid1 oid2 12.
Definition bson_oid_compare (oid1 oid2 : bytes) : option Z := bson_oid_compare_unsafe oid1 oid2.
Definition bson_oid_equal_unsafe (oid1 oid2 : bytes) : option bool := r ← memcmp oid1 oid2 12; Some (r =? 0).
Definition bson_oid_equal (oid1 oid2 : bytes) : option bool := bson_oid_equal_unsafe oid1 oid2.

(** The hash of the bytes from the first on. *)
Fixpoint oid_hash_loop (id : bytes) (hash : Z) : Z :=
  match id with
  | [] => hash
  | b :: id' => oid_hash_loop id' (u32 (u32 (u32 (Z.shiftl hash 5) + hash) + b2z b))
  end.
Definition bson_oid_hash_unsafe (oid : bytes) : option Z := id ← slice oid 0 12; Some (oid_hash_loop id 5381).
Definition bson_oid_hash (oid : bytes) : option Z := bson_oid_hash_unsafe oid.

(** The compiler's swap computes the same. *)
Definition __bson_uint32_swap_slow (v : Z) : Z :=
  Z.lor (Z.lor (Z.lor (u32 (Z.shiftl (Z.land v 0x000000FF) 24)) (u32 (Z.shiftl (Z.land v 0x0000FF00) 8)))
    (Z.shiftr (Z.land v 0x00FF0000) 8)) (Z.shiftr (Z.land v 0xFF000000) 24).

Definition bson_oid_get_time_t_unsafe (oid : bytes) : option Z :=
  t ← slice oid 0 4; Some (__bson_uint32_swap_slow (le_val t)).
Definition bson_oid_get_time_t (oid : bytes) : option Z := bson_oid_get_time_t_unsafe oid.

(** The cases of the [switch] that go on. *)
Definition is_hex_char (b : byte) : bool :=
  let c := b2z b in
  ((48 <=? c) && (c <=? 57)) || ((97 <=? c) && (c <=? 102)) || ((65 <=? c) && (c <=? 70)).

Fixpoint oid_valid_loop (count : nat) (str : bytes) (i : Z) : option bool :=
  match count with
  | O => Some true
  | S count' =>
      c ← rd str i; if is_hex_char c then oid_valid_loop count' str (i + 1) else Some false
  end.

Definition bson_oid_is_valid (str : bytes) (length : Z) : option bool :=
  length ← (if length =? 25 then c ← rd str 24; Some (if byte_eqb c x00 then 24 else length) else Some length);
  if length =? 24 then oid_valid_loop 24 str 0 else Some false.

Definition kZeroObjectId : bytes := replicate 12 x00.
Definition mcommon_oid_set_zero (oid : bytes) : option bytes := store oid 0 (replicate 12 x00).
Definition mcommon_oid_is_zero (oid : bytes) : option bool := bson_oid_equal_unsafe oid kZeroObjectId.

(** ** SipHash *)

Definition _bson_rotl_u64 (p nbits : Z) : Z := Z.lor (u64 (Z.shiftl p nbits)) (Z.shiftr p (64 - nbits)).

Record sip_state := Sip { sip_v0 : Z; sip_v1 : Z; sip_v2 : Z; sip_v3 : Z }.

Definition _sip_round (v : sip_state) : sip_state :=
  let '(Sip v0 v1 v2 v3) := v in
  let v0 := u64 (v0 + v1) in
  let v1 := _bson_rotl_u64 v1 13 in
  let v1 := Z.lxor v1 v0 in
  let v0 := _bson_rotl_u64 v0 32 in
  let v2 := u64 (v2 + v3) in
  let v3 := _bson_rotl_u64 v3 16 in
  let v3 := Z.lxor v3 v2 in
  let v0 := u64 (v0 + v3) in
  let v3 := _bson_rotl_u64 v3 21 in
  let v3 := Z.lxor v3 v0 in
  let v2 := u64 (v2 + v1) in
  let v1 := _bson_rotl_u64 v1 17 in
  let v1 := Z.lxor v1 v2 in
  let v2 := _bson_rotl_u64 v2 32 in
  Sip v0 v1 v2 v3.

Definition sip_rounds (n : nat) (v : sip_state) : sip_state := Nat.iter n _sip_round v.

(** [v3 ^= m; rounds; v0 ^= m] *)
Definition sip_absorb (v : sip_state) (m : Z) : sip_state :=
  let v := sip_rounds 2 (Sip (sip_v0 v) (sip_v1 v) (sip_v2 v) (Z.lxor (sip_v3 v) m)) in
  Sip (Z.lxor (sip_v0 v) m) (sip_v1 v) (sip_v2 v) (sip_v3 v).

(** The loop over words; what is left of the input is returned too. *)
Fixpoint sip_words (count : nat) (ni : bytes) (v : sip_state) : option (sip_state * bytes) :=
  match count with
  | O => Some (v, ni)
  | S count' => m ← mlib_read_u64le ni 0; ni ← padd ni 8; sip_words count' ni (sip_absorb v m)
  end.

(** The [switch] on the bytes left, from the last of them down. *)
Fixpoint sip_left (left : nat) (ni : bytes) (b : Z) : option Z :=
  match left with
  | O => Some b
  | S left' => c ← rd ni (Z.of_nat left'); sip_left left' ni (Z.lor b (Z.shiftl (b2z c) (8 * Z.of_nat left')))
  end.

Definition sip_fold (v : sip_state) : Z :=
  Z.lxor (Z.lxor (Z.lxor (sip_v0 v) (sip_v1 v)) (sip_v2 v)) (sip_v3 v).

(** The key and the digest as the bytes of their two words. *)
Definition _siphash (input : bytes) (inlen : Z) (key : bytes) : option bytes :=
  k0 ← mlib_read_u64le key 0;
  k1 ← mlib_read_u64le key 8;
  let b := u64 (Z.shiftl inlen 56) in
  let v := Sip (Z.lxor 0x736f6d6570736575 k0) (Z.lxor (Z.lxor 0x646f72616e646f6d k1) 0xee)
               (Z.lxor 0x6c7967656e657261 k0) (Z.lxor 0x7465646279746573 k1) in
  '(v, ni) ← sip_words (Z.to_nat (inlen / 8)) input v;
  b ← sip_left (Z.to_nat (Z.land inlen 7)) ni b;
  let v := sip_absorb v b in
  let v := Sip (sip_v0 v) (sip_v1 v) (Z.lxor (sip_v2 v) 0xee) (sip_v3 v) in
  let v := sip_rounds 4 v in
  let d0 := sip_fold v in
  let v := Sip (sip_v0 v) (Z.lxor (sip_v1 v) 0xdd) (sip_v2 v) (sip_v3 v) in
  let v := sip_rounds 4 v in
  digest ← mlib_write_u64le (replicate 16 x00) 0 d0;
  mlib_write_u64le digest 8 (sip_fold v).

(** The published vectors for inputs 00 01 02 ... and a key 00 01 ... 0f. *)
Definition counting (n : nat) : bytes := map (fun i => z2b (Z.of_nat i)) (seq 0 n).
Example siphash_empty : _siphash [] 0 (counting 16) =
  Some (bs [0xa3; 0x81; 0x7f; 0x04; 0xba; 0x25; 0xa8; 0xe6; 0x6d; 0xf6; 0x72; 0x14; 0xc7; 0x55; 0x02; 0x93]).
Proof. vm_compute. reflexivity. Qed.
Example siphash_one : _siphash (counting 1) 1 (counting 16) =
  Some (bs [0xda; 0x87; 0xc1; 0xd8; 0x6b; 0x99; 0xaf; 0x44; 0x34; 0x76; 0x59; 0x11; 0x9b; 0x22; 0xfc; 0x45]).
Proof. vm_compute. reflexivity. Qed.

(** ** Contexts *)

Definition BSON_CONTEXT_NONE : Z := 0.
Definition BSON_CONTEXT_DISABLE_PID_CACHE : Z := Z.shiftl 1 2.

Definition BSON_OID_RANDOMESS_OFFSET : Z := 4.
Definition BSON_OID_RANDOMNESS_SIZE : Z := 5.
Definition BSON_OID_SEQ32_OFFSET : Z := 9.
Definition BSON_OID_SEQ32_SIZE : Z := 3.

(** [limits.h] on Linux. *)
Definition HOST_NAME_MAX : Z := 64.

Record bson_context_t := Context_ {
  c_flags : Z;
  c_seq32 : Z;
  c_seq64 : Z;
  c_randomness : bytes;
  c_pid : Z
}.

(** What the system answers during a call: [time], [gettimeofday], [getpid],
    and the array of [gethostname]. *)
Record host := Host { h_time : Z; h_sec : Z; h_usec : Z; h_pid : Z; h_name : bytes }.

(** The globals: the default context, once it is initialised, and the counter
    of [_bson_context_init_random]. *)
Record globals := Globals { gContextDefault : option bson_context_t; s_rand_call_counter : Z }.
Definition globals_init : globals := Globals None (- 2 ^ 63).

Definition _bson_getpid (env : host) : Z := u64 (h_pid env).

Definition _bson_context_get_hostname (env : host) (out : bytes) : option bytes :=
  out ← store out 0 (h_name env); store out (HOST_NAME_MAX - 1) [x00].

(** [struct _init_rand_params] in memory. *)
Definition rand_params (env : host) (hostname : bytes) (counter : Z) : bytes :=
  le_encode_loop 8 (u64 (h_sec env)) ++ le_encode_loop 8 (u64 (h_usec env)) ++
  le_encode_loop 8 (_bson_getpid env) ++ hostname ++ le_encode_loop 8 (u64 counter).

Definition _bson_context_init_random (env : host) (counter : Z) (context : bson_context_t) (init_seq : bool)
  : option (bson_context_t * Z) :=
  hostname ← _bson_context_get_hostname env (replicate (Z.to_nat HOST_NAME_MAX) x00);
  let params := rand_params env hostname counter in
  let counter := s64 (counter + 1) in
  key0 ← mlib_read_u64le params 0;
  let key := le_encode_loop 8 key0 ++ le_encode_loop 8 (u64 (Z.lnot key0)) in
  digest ← _siphash params (zlen params) key;
  randomness ← slice digest 0 5;
  seq32 ← mlib_read_u32le digest 8;
  seq64 ← mlib_read_u64le digest 8;
  let pid := _bson_getpid env in
  Some (if init_seq
        then Context_ (c_flags context) (Z.land seq32 (u32 (Z.lnot 0xf0000f))) (Z.land seq64 (u64 (Z.lnot 0xf0000f))) randomness pid
        else Context_ (c_flags context) (c_seq32 context) (c_seq64 context) randomness pid, counter).

Definition _bson_context_init (env : host) (counter : Z) (context : bson_context_t) (flags : Z) : option (bson_context_t * Z) :=
  _bson_context_init_random env counter (Context_ flags (c_seq32 context) (c_seq64 context) (c_randomness context) (c_pid context)) true.

Definition context_zero : bson_context_t := Context_ 0 0 0 (replicate 5 x00) 0.

Definition bson_context_new (env : host) (g : globals) (flags : Z) : option (bson_context_t * globals) :=
  '(context, counter) ← _bson_context_init env (s_rand_call_counter g) context_zero flags;
  Some (context, Globals (gContextDefault g) counter).

(** The default context is initialised once. *)
Definition bson_context_get_default (env : host) (g : globals) : option (bson_context_t * globals) :=
  match gContextDefault g with
  | Some context => Some (context, g)
  | None =>
      '(context, counter) ← _bson_context_init env (s_rand_call_counter g) context_zero BSON_CONTEXT_DISABLE_PID_CACHE;
      Some (context, Globals (Some context) counter)
  end.

Definition _bson_context_set_oid_rand (env : host) (counter : Z) (context : bson_context_t) (oid : bytes)
  : option (bson_context_t * Z * bytes) :=
  '(context, counter) ←
    (if negb (Z.land (c_flags context) BSON_CONTEXT_DISABLE_PID_CACHE =? 0)
     then if negb (_bson_getpid env =? c_pid context)
          then _bson_context_init_random env counter context false
          else Some (context, counter)
     else Some (context, counter));
  r ← slice (c_randomness context) 0 BSON_OID_RANDOMNESS_SIZE;
  oid ← store oid BSON_OID_RANDOMESS_OFFSET r;
  Some (context, counter, oid).

(** The counter is fetched and incremented in one step. *)
Definition _bson_context_set_oid_seq32 (context : bson_context_t) (oid : bytes) : option (bson_context_t * bytes) :=
  let seq := c_seq32 context in
  let context := Context_ (c_flags context) (u32 (c_seq32 context + 1)) (c_seq64 context) (c_randomness context) (c_pid context) in
  let seq := __bson_uint32_swap_slow seq in
  src ← slice (le_encode_loop 4 seq) 1 BSON_OID_SEQ32_SIZE;
  oid ← store oid BSON_OID_SEQ32_OFFSET src;
  Some (context, oid).

(** The time, in the first four bytes. *)
Definition oid_set_time (now : Z) (oid : bytes) : option bytes :=
  store oid 0 [z2b (Z.shiftr now 24); z2b (Z.shiftr now 16); z2b (Z.shiftr now 8); z2b (Z.shiftr now 0)].

(** On the context given, or on the default one. *)
Definition bson_oid_init (env : host) (g : globals) (oid : bytes) (context : option bson_context_t)
  : option (bytes * option bson_context_t * globals) :=
  '(c, g) ← (match context with Some c => Some (c, g) | None => bson_context_get_default env g end);
  oid ← oid_set_time (h_time env) oid;
  '(c, counter, oid) ← _bson_context_set_oid_rand env (s_rand_call_counter g) c oid;
  '(c, oid) ← _bson_context_set_oid_seq32 c oid;
  Some (match context with
        | Some _ => (oid, Some c, Globals (gContextDefault g) counter)
        | None => (oid, None, Globals (Some c) counter)
        end).

Definition sample_host : host := Host 0x65432100 0x65432100 77 4321 (txt "host" ++ replicate 60 x00).
Example oid_init_sample :
  ('(oid, _, g) ← bson_oid_init sample_host globals_init (zeros 12) None;
  '(oid', _, _) ← bson_oid_init sample_host g (zeros 12) None;
  Some (take 4 oid, bool_decide (take 9 oid = take 9 oid'), bool_decide (oid = oid'), zlen oid)) =
  Some (bs [0x65; 0x43; 0x21; 0x00], true, false, 12).
Proof. vm_compute. reflexivity. Qed.
