(* ===== verification/BsonOidSpec.v ===== *)
(** Object identifiers: text and order, and that the identifiers made on one
    context are distinct, however threads interleave. *)

From Stdlib Require Import Strings.String.
From stdpp Require Import relations.
From S2P Require Import Prelude CString Text IntEncode BigEndian Hex BsonOid.

(** ** Text *)

(** The table has the two digits of every byte in memory order. *)
Lemma hex_pairs b : exists w, gHexCharPairs !! Z.to_nat (b2z b) = Some w /\ le_encode_loop 2 w = hex02 (b2z b).
Proof.
  assert (H : Forall (fun i => exists w, gHexCharPairs !! i = Some w /\ le_encode_loop 2 w = hex02 (Z.of_nat i)) (seq 0 256)).
  { apply Forall_forall. intros i Hi. apply elem_of_seq in Hi.
    pose (P := fun i => bool_decide (option_map (le_encode_loop 2) (gHexCharPairs !! i) = Some (hex02 (Z.of_nat i)))).
    assert (E : forallb P (seq 0 256) = true) by (vm_compute; reflexivity).
    rewrite forallb_forall in E. assert (Hin : In i (seq 0 256)) by (apply in_seq; lia). specialize (E i Hin). unfold P in E.
    apply bool_decide_eq_true in E. destruct (gHexCharPairs !! i) as [w|]; [|done]. exists w. by apply Some_inj in E. }
  rewrite Forall_forall in H. pose proof (b2z_range b).
  destruct (H (Z.to_nat (b2z b))) as (w & Hw & E); [apply elem_of_seq; lia|]. exists w. split; [done|].
  by rewrite E, Z2Nat.id by lia.
Qed.

Lemma oid_pairs_spec id : forall pre old post, zlen old = 2 * zlen id -> zlen pre mod 2 = 0 ->
  oid_pairs id (pre ++ old ++ post) (zlen pre / 2) = Some (pre ++ hex_text id ++ post).
Proof.
  induction id as [|b id IH]; intros pre old post Hl Hp; cbn [oid_pairs hex_text].
  - rewrite (zlen_0 old) by done. done.
  - rewrite zlen_cons in Hl. destruct (hex_pairs b) as (w & -> & E). sbind. rewrite E.
    destruct old as [|o0 [|o1 old]]; try (unfold zlen in Hl; simpl in Hl; lia). rewrite !zlen_cons in Hl.
    change ((o0 :: o1 :: old) ++ post) with ([o0; o1] ++ old ++ post).
    rewrite store_at by (done || (Z.to_euclidean_division_equations; lia)). sbind.
    specialize (IH (pre ++ hex02 (b2z b)) old post). rewrite <- !app_assoc in IH. rewrite <- app_assoc.
    rewrite zlen_app in IH. change (zlen (hex02 (b2z b))) with 2 in IH.
    replace (zlen pre / 2 + 1) with ((zlen pre + 2) / 2) by (Z.to_euclidean_division_equations; lia).
    apply IH; [lia|Z.to_euclidean_division_equations; lia].
Qed.

Lemma oid_to_string_spec oid post old rest : zlen oid = 12 -> zlen old = 25 ->
  bson_oid_to_string (oid ++ post) (old ++ rest) = Some (hex_text oid ++ [x00] ++ rest).
Proof.
  intros Ho Hl. unfold bson_oid_to_string. rewrite slice_at_end_0 by done. sbind.
  destruct (split_at old 24 ltac:(lia)) as (a & j & -> & Ha & Hj).
  assert (Hj1 : exists c, j = [c]).
  { destruct j as [|c [|? ?]]; [..|rewrite !zlen_cons in Hj; zl]; [change (zlen (@nil byte)) with 0 in Hj; lia|by exists c]. }
  destruct Hj1 as [c ->]. rewrite <- app_assoc.
  pose proof (oid_pairs_spec oid [] a ([c] ++ rest)) as H. cbn [app] in H. change (zlen (@nil byte) / 2) with 0 in H.
  cbn [app]. rewrite H by (done || lia). sbind. change (c :: rest) with ([c] ++ rest).
  rewrite store_at by (done || (rewrite zlen_hex_text; lia)). done.
Qed.

(** The bytes of a text of pairs, a character that is no digit counting as 0. *)
Fixpoint oid_of_text (s : bytes) : bytes :=
  match s with
  | a :: b :: s' => z2b (16 * bson_oid_parse_hex_char a + bson_oid_parse_hex_char b) :: oid_of_text s'
  | _ => []
  end.

Lemma parse_range c : 0 <= bson_oid_parse_hex_char c < 16.
Proof. unfold bson_oid_parse_hex_char. bdestruct. Qed.

Lemma parse_hexdigit n : 0 <= n < 16 -> bson_oid_parse_hex_char (hexdigit n) = n.
Proof.
  intros Hn. unfold bson_oid_parse_hex_char, hexdigit. destruct (Z.ltb_spec n 10); rewrite b2z_z2b_small by lia; bdestruct.
Qed.

Lemma parse_pair a b : z2b (Z.lor (Z.shiftl (bson_oid_parse_hex_char a) 4) (bson_oid_parse_hex_char b)) =
  z2b (16 * bson_oid_parse_hex_char a + bson_oid_parse_hex_char b).
Proof.
  pose proof (parse_range a). pose proof (parse_range b). rewrite Z.shiftl_mul_pow2, lor_disjoint by lia. f_equal. lia.
Qed.

Lemma pairs_split (s : bytes) n : zlen s = 2 * Z.of_nat (S n) -> exists a b s', s = a :: b :: s' /\ zlen s' = 2 * Z.of_nat n.
Proof.
  intros H. destruct s as [|a [|b s]]; [change (zlen (@nil byte)) with 0 in H; lia|rewrite zlen_1 in H; lia|].
  rewrite !zlen_cons in H. exists a, b, s. split; [done|lia].
Qed.

Lemma parse_loop_spec n : forall s p post out old rest, zlen s = 2 * Z.of_nat n -> zlen old = Z.of_nat n -> zlen p = 2 * zlen out ->
  oid_parse_loop n (out ++ old ++ rest) (p ++ s ++ post) (zlen out) = Some (out ++ oid_of_text s ++ rest).
Proof.
  induction n as [|n IH]; intros s p post out old rest Hs Ho Hp; cbn [oid_parse_loop].
  - rewrite (zlen_0 s), (zlen_0 old) by lia. done.
  - destruct (pairs_split s n Hs) as (a & b & s' & -> & Hs'). cbn [app oid_of_text]. rewrite (rd_at p a _ (2 * zlen out)) by lia. sbind.
    change (a :: b :: s' ++ post) with ([a] ++ b :: s' ++ post). rewrite (app_assoc p), rd_at by (rewrite zlen_app, zlen_1; lia). sbind.
    rewrite parse_pair. destruct old as [|o old]; [change (zlen (@nil byte)) with 0 in Ho; lia|]. rewrite zlen_cons in Ho.
    change ((o :: old) ++ rest) with ([o] ++ old ++ rest). rewrite store_at by done. sbind.
    set (c := z2b _). specialize (IH s' (p ++ [a; b]) post (out ++ [c]) old rest). rewrite (zlen_app out), zlen_1 in IH.
    rewrite <- !app_assoc in *. apply IH; [lia|lia|]. rewrite zlen_app. change (zlen [a; b]) with 2. lia.
Qed.

Lemma oid_from_string_spec s post old rest : zlen s = 24 -> zlen old = 12 ->
  bson_oid_init_from_string (old ++ rest) (s ++ post) = Some (oid_of_text s ++ rest).
Proof. intros Hs Ho. by apply (parse_loop_spec 12 s [] post [] old rest). Qed.

Lemma oid_of_hex_text oid : oid_of_text (hex_text oid) = oid.
Proof.
  induction oid as [|b oid IH]; [done|]. cbn [hex_text hex02 app oid_of_text]. pose proof (b2z_range b). rewrite IH.
  rewrite !parse_hexdigit by (Z.to_euclidean_division_equations; lia). rewrite <- Z.div_mod by lia. by rewrite z2b_b2z.
Qed.

Lemma hexdigit_parse c : is_hex_char c = true -> hexdigit (bson_oid_parse_hex_char c) = tolower c.
Proof.
  intros H. pose (P := fun c => negb (is_hex_char c) || byte_eqb (hexdigit (bson_oid_parse_hex_char c)) (tolower c)).
  assert (E : P c = true) by (apply by_bytes; vm_compute; reflexivity).
  unfold P in E. rewrite H in E. by apply byte_eqb_spec.
Qed.

Lemma hex_text_of_text n : forall s, zlen s = 2 * Z.of_nat n -> forallb is_hex_char s = true ->
  hex_text (oid_of_text s) = map tolower s.
Proof.
  induction n as [|n IH]; intros s Hs Hh; [by rewrite (zlen_0 s) by lia|].
  destruct (pairs_split s n Hs) as (a & b & s' & -> & Hs'). cbn [forallb] in Hh.
  apply andb_prop in Hh as [Ha Hh]. apply andb_prop in Hh as [Hb Hh]. pose proof (parse_range a). pose proof (parse_range b).
  cbn [oid_of_text hex_text map]. unfold hex02. rewrite b2z_z2b_small by lia. cbn [app]. rewrite IH by done.
  rewrite <- (hexdigit_parse a), <- (hexdigit_parse b) by done. do 2 f_equal; [|f_equal]; Z.to_euclidean_division_equations; lia.
Qed.

(** ** Validity *)

Lemma valid_loop_spec s : forall p post, oid_valid_loop (length s) (p ++ s ++ post) (zlen p) = Some (forallb is_hex_char s).
Proof.
  induction s as [|c s IH]; intros p post; [done|]. cbn [length oid_valid_loop forallb app]. rewrite (rd_at p c) by done. sbind.
  destruct (is_hex_char c); [|done]. specialize (IH (p ++ [c]) post). rewrite zlen_app, zlen_1, <- app_assoc in IH. exact IH.
Qed.

(** Twenty-four digits, with or without the terminator counted. *)
Lemma oid_valid_spec str length : 0 <= length <= zlen str ->
  bson_oid_is_valid str length =
    Some (((length =? 24) || ((length =? 25) && bool_decide (str !! 24%nat = Some x00))) && forallb is_hex_char (take 24 str)).
Proof.
  intros Hl. assert (Hloop : 24 <= length -> oid_valid_loop 24 str 0 = Some (forallb is_hex_char (take 24 str))).
  { intros H24. pose proof (valid_loop_spec (take 24 str) [] (drop 24 str)) as H. cbn [app] in H. rewrite take_drop in H.
    replace (Datatypes.length (take 24 str)) with 24%nat in H by (rewrite length_take; unfold zlen in *; lia). exact H. }
  unfold bson_oid_is_valid. destruct (Z.eqb_spec length 25) as [->|H25].
  - change (rd str 24) with (str !! 24%nat). destruct (lookup_lt_is_Some_2 str 24) as [c Hc]; [unfold zlen in *; lia|].
    rewrite Hc. sbind. byte_cases c x00; cbn [Z.eqb Pos.eqb orb andb].
    + rewrite bool_decide_true by done. by apply Hloop.
    + rewrite bool_decide_false by congruence. done.
  - sbind. destruct (Z.eqb_spec length 24) as [->|]; cbn [orb andb]; [by apply Hloop|done].
Qed.

(** With the terminator counted. *)
Lemma oid_valid_terminated t : zlen t = 24 -> bson_oid_is_valid (t ++ [x00]) 25 = Some (forallb is_hex_char t).
Proof.
  intros Ht. assert (Hn : length t = 24%nat) by (unfold zlen in Ht; lia).
  rewrite oid_valid_spec by (rewrite zlen_app, zlen_1; lia). cbn [Z.eqb Pos.eqb orb andb].
  rewrite bool_decide_true by (rewrite lookup_app_r by lia; by rewrite Hn). cbn [andb].
  rewrite take_app_le, take_ge by lia. done.
Qed.

Lemma hex_text_digits s : forallb is_hex_char (hex_text s) = true.
Proof.
  induction s as [|b s IH]; [done|]. cbn [hex_text hex02 app forallb]. rewrite IH, andb_true_r. pose proof (b2z_range b).
  assert (Hd : forall n, 0 <= n < 16 -> is_hex_char (hexdigit n) = true).
  { intros n Hn. unfold is_hex_char. pose proof (hexdigit_cases n Hn). bdestruct. }
  rewrite !Hd by (Z.to_euclidean_division_equations; lia). done.
Qed.

(** ** Order *)

Lemma oid_compare_spec a b r s : zlen a = 12 -> zlen b = 12 ->
  bson_oid_compare (a ++ r) (b ++ s) = Some (memcmp_bytes a b) /\
  bson_oid_equal (a ++ r) (b ++ s) = Some (bool_decide (a = b)).
Proof.
  intros Ha Hb. assert (E : memcmp (a ++ r) (b ++ s) 12 = Some (memcmp_bytes a b))
    by (unfold memcmp; rewrite !slice_at_end_0 by done; done).
  split; [exact E|]. unfold bson_oid_equal, bson_oid_equal_unsafe. rewrite E. sbind. f_equal.
  pose proof (memcmp_bytes_eq a b) as H. destruct (Z.eqb_spec (memcmp_bytes a b) 0), (bool_decide_reflect (a = b)); try done;
    unfold zlen in *; exfalso; destruct H as [H1 H2]; try lia; auto.
Qed.

(** ** Byte order *)

#[local] Opaque byte_at.

Lemma oid_swap_rev b : zlen b = 4 -> __bson_uint32_swap_slow (le_val b) = le_val (rev b).
Proof.
  intros H. destruct b as [|b0 [|b1 [|b2 [|b3 [|? ?]]]]]; try (unfold zlen in H; simpl in H; lia).
  unfold __bson_uint32_swap_slow.
  byte_up_at 0. byte_up_at 8. rewrite !u32_id; [swap_bytes|..];
    rewrite Z.shiftl_mul_pow2 by lia; match goal with |- context [byte_at ?v ?i] => pose proof (byte_at_range v i) end; lia.
Qed.

Lemma oid_swap_bytes v : 0 <= v < 2 ^ 32 -> le_encode_loop 4 (__bson_uint32_swap_slow v) = be_bytes 4 v.
Proof.
  intros Hv. assert (E : v = le_val (le_bytes 4 v)) by (rewrite le_val_le_bytes; symmetry; by apply Z.mod_small).
  rewrite E at 1. rewrite oid_swap_rev by done. rewrite le_encode_loop_spec. unfold be_bytes.
  by apply le_bytes_le_val.
Qed.

(** ** Contexts *)

(** What an initialised context and the system's answers look like. *)
Definition context_ok (c : bson_context_t) : Prop := 0 <= c_seq32 c < 2 ^ 32 /\ zlen (c_randomness c) = 5.
Definition host_ok (env : host) : Prop := zlen (h_name env) = HOST_NAME_MAX.

Lemma sip_words_total n : forall ni v, 8 * Z.of_nat n <= zlen ni ->
  exists v' ni', sip_words n ni v = Some (v', ni') /\ zlen ni' = zlen ni - 8 * Z.of_nat n.
Proof.
  induction n as [|n IH]; intros ni v Hn; cbn [sip_words]; [exists v, ni; split; [done|lia]|].
  destruct (mlib_read_u64le_Some ni 0) as (m & -> & _); [lia..|]. sbind.
  destruct (proj2 (padd_is_Some ni 8)) as [p Hp]; [lia|]. rewrite Hp. sbind. apply padd_zlen in Hp as [Hp _].
  destruct (IH p (sip_absorb v m)) as (v' & ni' & -> & Hl); [lia|]. exists v', ni'. split; [done|lia].
Qed.

Lemma sip_left_total n : forall ni b, Z.of_nat n <= zlen ni -> is_Some (sip_left n ni b).
Proof.
  induction n as [|n IH]; intros ni b Hn; cbn [sip_left]; [done|].
  destruct (proj2 (rd_is_Some ni (Z.of_nat n))) as [c ->]; [lia|]. sbind. apply IH. lia.
Qed.

Lemma siphash_total input key : zlen key = 16 -> exists d, _siphash input (zlen input) key = Some d /\ zlen d = 16.
Proof.
  intros Hk. pose proof (zlen_nonneg input). unfold _siphash.
  destruct (mlib_read_u64le_Some key 0) as (k0 & -> & _); [lia..|]. sbind.
  destruct (mlib_read_u64le_Some key 8) as (k1 & -> & _); [lia..|]. sbind.
  destruct (sip_words_total (Z.to_nat (zlen input / 8)) input
    (Sip (Z.lxor 0x736f6d6570736575 k0) (Z.lxor (Z.lxor 0x646f72616e646f6d k1) 0xee)
      (Z.lxor 0x6c7967656e657261 k0) (Z.lxor 0x7465646279746573 k1))) as (v & ni & -> & Hl);
    [Z.to_euclidean_division_equations; lia|]. sbind.
  destruct (sip_left_total (Z.to_nat (Z.land (zlen input) 7)) ni (u64 (Z.shiftl (zlen input) 56))) as [b ->].
  { change 7 with (Z.ones 3). rewrite Z.land_ones by lia. change (2 ^ 3) with 8. Z.to_euclidean_division_equations. lia. }
  sbind. unfold mlib_write_u64le.
  destruct (proj2 (store_is_Some (replicate 16 x00) 0 (le_encode_loop 8 (sip_fold (sip_rounds 4
    (Sip (sip_v0 (sip_absorb v b)) (sip_v1 (sip_absorb v b)) (Z.lxor (sip_v2 (sip_absorb v b)) 238) (sip_v3 (sip_absorb v b)))))))) as [d Hd].
  { by rewrite le_encode_loop_spec, zlen_le_bytes. }
  rewrite Hd. sbind. apply store_zlen in Hd. change (zlen (replicate 16 x00)) with 16 in Hd.
  match goal with |- context [store d 8 ?w] => destruct (proj2 (store_is_Some d 8 w)) as [d' Hd'] end.
  { rewrite le_encode_loop_spec, zlen_le_bytes. lia. }
  exists d'. split; [exact Hd'|]. apply store_zlen in Hd'. lia.
Qed.

Lemma land_u32 a m : 0 <= a < 2 ^ 32 -> 0 <= Z.land a m < 2 ^ 32.
Proof.
  intros Ha. rewrite <- (Z.mod_small a (2 ^ 32)) by lia. rewrite <- Z.land_ones, (Z.land_comm a), <- Z.land_assoc by lia.
  rewrite Z.land_comm, Z.land_ones by lia. apply Z.mod_pos_bound. lia.
Qed.

(** Seeding always works; it leaves the counter alone unless asked to set it. *)
Lemma init_random_spec env counter c init_seq : host_ok env ->
  exists c' counter', _bson_context_init_random env counter c init_seq = Some (c', counter') /\
    zlen (c_randomness c') = 5 /\ c_flags c' = c_flags c /\ c_pid c' = _bson_getpid env /\
    (if init_seq then 0 <= c_seq32 c' < 2 ^ 32 else c_seq32 c' = c_seq32 c).
Proof.
  intros Hh. unfold _bson_context_init_random, _bson_context_get_hostname.
  destruct (proj2 (store_is_Some (replicate (Z.to_nat HOST_NAME_MAX) x00) 0 (h_name env))) as [o1 Ho1];
    [by rewrite Hh, zlen_replicate|]. rewrite Ho1. sbind. apply store_zlen in Ho1. rewrite zlen_replicate in Ho1.
  destruct (proj2 (store_is_Some o1 (HOST_NAME_MAX - 1) [x00])) as [o2 Ho2]; [by rewrite Ho1|]. rewrite Ho2. sbind.
  set (params := rand_params env o2 counter).
  assert (Hp : exists r, params = le_bytes 8 (u64 (h_sec env)) ++ r) by (eexists; unfold params, rand_params; by rewrite le_encode_loop_spec).
  assert (Hkey : mlib_read_u64le params 0 = Some (u64 (h_sec env)))
    by (destruct Hp as [r ->]; apply mlib_read_u64le_0, u64_range). rewrite Hkey. sbind.
  destruct (siphash_total params (le_encode_loop 8 (u64 (h_sec env)) ++ le_encode_loop 8 (u64 (Z.lnot (u64 (h_sec env)))))) as (d & -> & Hd);
    [by rewrite !le_encode_loop_spec, zlen_app, !zlen_le_bytes|]. sbind.
  destruct (proj2 (slice_is_Some d 0 5)) as [q Hq]; [lia|]. rewrite Hq. sbind. apply slice_zlen in Hq.
  destruct (mlib_read_u32le_Some d 8) as (s32 & -> & Hs32); [lia..|]. sbind.
  destruct (mlib_read_u64le_Some d 8) as (s64 & -> & _); [lia..|]. sbind.
  eexists _, _. split; [done|]. destruct init_seq; [|done]. split; [done|]. split; [done|]. split; [done|].
  by apply land_u32.
Qed.

Lemma be_bytes_3 v : be_bytes 4 v = z2b (v / 2 ^ 24) :: be_bytes 3 v.
Proof. unfold be_bytes. change 4%nat with (3 + 1)%nat. by rewrite le_bytes_app, rev_app_distr. Qed.

(** The counter goes into the last three bytes, and moves on. *)
Lemma set_seq_spec c a old rest : context_ok c -> zlen a = 9 -> zlen old = 3 ->
  exists c', _bson_context_set_oid_seq32 c (a ++ old ++ rest) = Some (c', a ++ be_bytes 3 (c_seq32 c) ++ rest) /\
    context_ok c' /\ c_seq32 c' = u32 (c_seq32 c + 1) /\ c_flags c' = c_flags c /\ c_randomness c' = c_randomness c.
Proof.
  intros [Hs Hr] Ha Ho. unfold _bson_context_set_oid_seq32. rewrite oid_swap_bytes, be_bytes_3 by done.
  change (z2b (c_seq32 c / 2 ^ 24) :: be_bytes 3 (c_seq32 c)) with ([z2b (c_seq32 c / 2 ^ 24)] ++ be_bytes 3 (c_seq32 c)).
  rewrite slice_at_end by (done || by rewrite zlen_be_bytes). sbind.
  rewrite store_at by (done || by rewrite zlen_be_bytes). sbind. eexists. split; [done|]. split; [|done].
  split; [apply u32_range|done].
Qed.

(** The randomness goes into the five bytes behind the time; the context is
    seeded again when the process has changed. *)
Lemma set_rand_spec env counter c a old rest : host_ok env -> context_ok c -> zlen a = 4 -> zlen old = 5 ->
  exists c' counter', _bson_context_set_oid_rand env counter c (a ++ old ++ rest) =
      Some (c', counter', a ++ c_randomness c' ++ rest) /\
    context_ok c' /\ c_seq32 c' = c_seq32 c /\ c_flags c' = c_flags c /\
    (Z.land (c_flags c) BSON_CONTEXT_DISABLE_PID_CACHE = 0 -> c' = c) /\
    (Z.land (c_flags c) BSON_CONTEXT_DISABLE_PID_CACHE <> 0 -> c_pid c' = _bson_getpid env).
Proof.
  intros Hh [Hs Hr] Ha Ho. unfold _bson_context_set_oid_rand.
  assert (E : exists c' counter',
    (if negb (Z.land (c_flags c) BSON_CONTEXT_DISABLE_PID_CACHE =? 0)
     then if negb (_bson_getpid env =? c_pid c) then _bson_context_init_random env counter c false else Some (c, counter)
     else Some (c, counter)) = Some (c', counter') /\
    zlen (c_randomness c') = 5 /\ c_flags c' = c_flags c /\ c_seq32 c' = c_seq32 c /\
    (Z.land (c_flags c) BSON_CONTEXT_DISABLE_PID_CACHE = 0 -> c' = c) /\
    (Z.land (c_flags c) BSON_CONTEXT_DISABLE_PID_CACHE <> 0 -> c_pid c' = _bson_getpid env)).
  { destruct (Z.eqb_spec (Z.land (c_flags c) BSON_CONTEXT_DISABLE_PID_CACHE) 0); cbn [negb]; [by exists c, counter|].
    destruct (Z.eqb_spec (_bson_getpid env) (c_pid c)); cbn [negb]; [by exists c, counter|].
    destruct (init_random_spec env counter c false Hh) as (c' & counter' & E & H1 & H2 & H3 & H4). exists c', counter'. done. }
  destruct E as (c' & counter' & -> & H1 & H2 & H3 & H4). sbind. unfold BSON_OID_RANDOMNESS_SIZE, BSON_OID_RANDOMESS_OFFSET.
  rewrite (slice_all (c_randomness c')) by done. sbind. rewrite store_at by (done || congruence). sbind.
  exists c', counter'. split; [done|]. split; [|done]. split; [by rewrite H3|done].
Qed.

Lemma time_bytes now : [z2b (Z.shiftr now 24); z2b (Z.shiftr now 16); z2b (Z.shiftr now 8); z2b (Z.shiftr now 0)] = be_bytes 4 now.
Proof.
  unfold be_bytes. rewrite <- le_encode_loop_spec. unfold le_encode_loop. cbn [rev app seq map].
  change 255 with (Z.ones 8). rewrite !Z.land_ones by lia. change (2 ^ 8) with 256.
  assert (Hz : forall z, z2b (z mod 256) = z2b z) by (intros; apply z2b_mod, Z.mod_mod; lia). by rewrite !Hz.
Qed.

(** The twelve bytes made: time, randomness, counter. *)
Definition oid_layout (now : Z) (randomness : bytes) (seq : Z) : bytes := be_bytes 4 now ++ randomness ++ be_bytes 3 seq.

Lemma zlen_layout now r seq : zlen r = 5 -> zlen (oid_layout now r seq) = 12.
Proof. intros H. unfold oid_layout. rewrite !zlen_app, !zlen_be_bytes, H. done. Qed.

Lemma set_time_spec now old rest : zlen old = 4 -> oid_set_time now (old ++ rest) = Some (be_bytes 4 now ++ rest).
Proof. intros H. unfold oid_set_time. rewrite time_bytes. apply store_at_0. by rewrite zlen_be_bytes, H. Qed.

Lemma split_12 (m : bytes) : zlen m = 12 -> exists a b c, m = a ++ b ++ c /\ zlen a = 4 /\ zlen b = 5 /\ zlen c = 3.
Proof.
  intros H. destruct (split_at m 4 ltac:(lia)) as (a & m' & -> & Ha & Hm). destruct (split_at m' 5 ltac:(lia)) as (b & c & -> & Hb & Hc).
  exists a, b, c. split; [done|]. lia.
Qed.

(** An identifier made on a context. *)
Lemma oid_init_spec env g junk c : host_ok env -> zlen junk = 12 -> context_ok c ->
  exists c' g', bson_oid_init env g junk (Some c) = Some (oid_layout (h_time env) (c_randomness c') (c_seq32 c), Some c', g') /\
    context_ok c' /\ c_seq32 c' = u32 (c_seq32 c + 1) /\ c_flags c' = c_flags c /\ gContextDefault g' = gContextDefault g /\
    (Z.land (c_flags c) BSON_CONTEXT_DISABLE_PID_CACHE = 0 -> c_randomness c' = c_randomness c).
Proof.
  intros Hh Hj Hc. destruct (split_12 junk Hj) as (a & b & d & -> & Ha & Hb & Hd). unfold bson_oid_init. sbind.
  rewrite set_time_spec by done. sbind.
  destruct (set_rand_spec env (s_rand_call_counter g) c (be_bytes 4 (h_time env)) b d) as (c1 & counter & -> & Hc1 & Hs1 & Hf1 & Hr1 & _); try done. sbind.
  destruct (set_seq_spec c1 (be_bytes 4 (h_time env) ++ c_randomness c1) d []) as (c2 & E & Hc2 & Hs2 & Hf2 & Hr2); [done|..|done|].
  { rewrite zlen_app, zlen_be_bytes. destruct Hc1 as [_ ->]. done. }
  rewrite <- !app_assoc, !app_nil_r in E. rewrite E. sbind.
  exists c2, (Globals (gContextDefault g) counter). unfold oid_layout. rewrite Hr2, Hs1. split; [done|].
  split; [done|]. split; [by rewrite Hs2, Hs1|]. split; [by rewrite Hf2|]. split; [done|]. intros H. by rewrite (Hr1 H).
Qed.

Lemma get_time_layout now r seq rest : bson_oid_get_time_t (oid_layout now r seq ++ rest) = Some (u32 now).
Proof.
  unfold bson_oid_get_time_t, bson_oid_get_time_t_unsafe, oid_layout. rewrite <- !app_assoc.
  rewrite slice_at_end_0 by (by rewrite zlen_be_bytes). sbind. rewrite oid_swap_rev by (by rewrite zlen_be_bytes).
  unfold be_bytes. rewrite rev_involutive, le_val_le_bytes. done.
Qed.

(** ** Threads *)

(** A thread inside [bson_oid_init]: before the randomness, before the
    counter. *)
Inductive oid_thread :=
  | At_rand (oid : bytes)
  | At_seq (oid : bytes).

(** The shared context, the global counter, the threads inside the function,
    and the identifiers returned so far. *)
Record machine := Machine {
  m_context : bson_context_t;
  m_counter : Z;
  m_threads : gmap nat oid_thread;
  m_made : list bytes
}.

(** The steps of the threads, in any order. Seeding again after a fork is taken
    for one step; the other steps on shared state are one access each. *)
Inductive oid_step : machine -> machine -> Prop :=
  | step_time c n ts made t now junk oid :
      ts !! t = None -> zlen junk = 12 -> oid_set_time now junk = Some oid ->
      oid_step (Machine c n ts made) (Machine c n (<[t := At_rand oid]> ts) made)
  | step_rand c n ts made t env oid c' n' oid' :
      ts !! t = Some (At_rand oid) -> host_ok env -> _bson_context_set_oid_rand env n c oid = Some (c', n', oid') ->
      oid_step (Machine c n ts made) (Machine c' n' (<[t := At_seq oid']> ts) made)
  | step_seq c n ts made t oid c' oid' :
      ts !! t = Some (At_seq oid) -> _bson_context_set_oid_seq32 c oid = Some (c', oid') ->
      oid_step (Machine c n ts made) (Machine c' n (delete t ts) (made ++ [oid'])).

Definition thread_oid (t : oid_thread) : bytes := match t with At_rand oid | At_seq oid => oid end.

(** A schedule, and what it leads to. *)
Inductive oid_event :=
  | Ev_time (t : nat) (now : Z)
  | Ev_rand (t : nat) (env : host)
  | Ev_seq (t : nat).

Definition oid_exec (e : oid_event) (m : machine) : option machine :=
  let '(Machine c n ts made) := m in
  match e with
  | Ev_time t now =>
      match ts !! t with
      | Some _ => None
      | None => oid ← oid_set_time now (zeros 12); Some (Machine c n (<[t := At_rand oid]> ts) made)
      end
  | Ev_rand t env =>
      match ts !! t with
      | Some (At_rand oid) =>
          if zlen (h_name env) =? HOST_NAME_MAX then
            '(c', n', oid') ← _bson_context_set_oid_rand env n c oid; Some (Machine c' n' (<[t := At_seq oid']> ts) made)
          else None
      | _ => None
      end
  | Ev_seq t =>
      match ts !! t with
      | Some (At_seq oid) => '(c', oid') ← _bson_context_set_oid_seq32 c oid; Some (Machine c' n (delete t ts) (made ++ [oid']))
      | _ => None
      end
  end.

Fixpoint oid_run (es : list oid_event) (m : machine) : option machine :=
  match es with [] => Some m | e :: es' => m ← oid_exec e m; oid_run es' m end.

Lemma oid_exec_step e m m' : oid_exec e m = Some m' -> oid_step m m'.
Proof.
  destruct m as [c n ts made]. destruct e as [t now|t env|t]; cbn [oid_exec]; destruct (ts !! t) as [[oid|oid]|] eqn:Et; try done; intros H.
  - apply bind_Some in H as (oid & E & [= <-]). by apply (step_time _ _ _ _ _ now (zeros 12)).
  - destruct (Z.eqb_spec (zlen (h_name env)) HOST_NAME_MAX); [|done].
    apply bind_Some in H as ([[c' n'] oid'] & E & [= <-]). by apply (step_rand _ _ _ _ _ env oid).
  - apply bind_Some in H as ([c' oid'] & E & [= <-]). by apply (step_seq _ _ _ _ _ oid).
Qed.

Lemma oid_run_steps es : forall m m', oid_run es m = Some m' -> rtc oid_step m m'.
Proof.
  induction es as [|e es IH]; intros m m' H; cbn [oid_run] in H; [injection H as ->; apply rtc_refl|].
  apply bind_Some in H as (m1 & E & H). eapply rtc_l; [by apply (oid_exec_step e)|by apply IH].
Qed.

(** A thread inside the function can always go on. *)
Lemma oid_progress c n ts made t th : context_ok c -> ts !! t = Some th -> zlen (thread_oid th) = 12 ->
  exists m', oid_step (Machine c n ts made) m'.
Proof.
  intros Hc Ht Hz. destruct th as [oid|oid]; cbn [thread_oid] in Hz; destruct (split_12 oid Hz) as (x & y & z & -> & Hx & Hy & Hz').
  - destruct (set_rand_spec sample_host n c x y z) as (c' & n' & E & _); try done. eexists. exact (step_rand _ _ _ _ _ sample_host _ _ _ _ Ht eq_refl E).
  - destruct (set_seq_spec c (x ++ y) z []) as (c' & E & _); [done|rewrite zlen_app; lia|done|].
    rewrite <- !app_assoc, !app_nil_r in E. eexists. by eapply step_seq.
Qed.

(** Every identifier carries the value of the counter at its turn. *)
Record machine_ok (s0 : Z) (m : machine) : Prop := {
  mo_context : context_ok (m_context m);
  mo_counter : c_seq32 (m_context m) = u32 (s0 + zlen (m_made m));
  mo_threads : map_Forall (fun _ t => zlen (thread_oid t) = 12) (m_threads m);
  mo_made : forall i oid, m_made m !! i = Some oid -> exists a, oid = a ++ be_bytes 3 (s0 + Z.of_nat i) /\ zlen a = 9
}.

Lemma be_bytes_mod n a b : a mod 256 ^ Z.of_nat n = b mod 256 ^ Z.of_nat n -> be_bytes n a = be_bytes n b.
Proof. intros H. unfold be_bytes. f_equal. by rewrite <- (le_bytes_mod n a), H, le_bytes_mod. Qed.

Lemma be_bytes_inj n a b : be_bytes n a = be_bytes n b -> a mod 256 ^ Z.of_nat n = b mod 256 ^ Z.of_nat n.
Proof.
  intros H. apply (f_equal (fun l => le_val (rev l))) in H. unfold be_bytes in H.
  by rewrite !rev_involutive, !le_val_le_bytes in H.
Qed.

Lemma oid_step_ok s0 m m' : oid_step m m' -> machine_ok s0 m -> machine_ok s0 m'.
Proof.
  intros Hstep [Hc Hs Ht Hm]. destruct Hstep as [c n ts made t now junk oid _ Hj E|c n ts made t env oid c' n' oid' Hl Hh E|c n ts made t oid c' oid' Hl E];
    cbn [m_context m_counter m_threads m_made] in *.
  - constructor; try done. cbn [m_threads]. apply map_Forall_insert_2; [|done]. cbn [thread_oid].
    unfold oid_set_time in E. apply store_zlen in E. lia.
  - pose proof (Ht t _ Hl) as Hz. cbn [thread_oid] in Hz. destruct (split_12 oid Hz) as (x & y & z & -> & Hx & Hy & Hz').
    destruct (set_rand_spec env n c x y z) as (c1 & n1 & E1 & Hc1 & Hs1 & _); try done. rewrite E1 in E. injection E as <- <- <-.
    constructor; cbn [m_context m_counter m_threads m_made]; [done|by rewrite Hs1| |done].
    apply map_Forall_insert_2; [|done]. cbn [thread_oid]. rewrite !zlen_app. destruct Hc1 as [_ ->]. lia.
  - pose proof (Ht t _ Hl) as Hz. cbn [thread_oid] in Hz. destruct (split_12 oid Hz) as (x & y & z & -> & Hx & Hy & Hz').
    destruct (set_seq_spec c (x ++ y) z []) as (c1 & E1 & Hc1 & Hs1 & _); [done|rewrite zlen_app; lia|done|].
    rewrite <- !app_assoc, !app_nil_r in E1. rewrite E1 in E. injection E as <- <-.
    constructor; cbn [m_context m_counter m_threads m_made]; [done| | |].
    + rewrite Hs1, Hs, zlen_app, zlen_1. unfold u32. rewrite Zplus_mod_idemp_l. f_equal. lia.
    + by apply map_Forall_delete.
    + intros i o Hi. apply lookup_app_Some in Hi as [Hi|[Hlen Hi]]; [by apply Hm|].
      destruct (i - length made)%nat as [|k] eqn:Ei; [|done]. injection Hi as <-. exists (x ++ y).
      split; [|rewrite zlen_app; lia]. rewrite <- app_assoc. do 2 f_equal. apply be_bytes_mod. rewrite Hs. unfold u32, zlen.
      replace i with (length made) by lia. change (256 ^ Z.of_nat 3) with (2 ^ 24).
      rewrite <- Znumtheory.Zmod_div_mod; [done|lia..|]. exists (2 ^ 8). reflexivity.
Qed.

Lemma machine_ok_nodup s0 m : machine_ok s0 m -> zlen (m_made m) <= 2 ^ 24 -> NoDup (m_made m).
Proof.
  intros [_ _ _ Hm] Hl. apply NoDup_alt. intros i j o Hi Hj.
  destruct (Hm i o Hi) as (a & Ea & Ha), (Hm j o Hj) as (b & Eb & Hb). rewrite Ea in Eb.
  apply app_inj_1 in Eb as [_ E]; [|unfold zlen in *; lia]. apply be_bytes_inj in E. change (256 ^ Z.of_nat 3) with (2 ^ 24) in E.
  apply lookup_lt_Some in Hi, Hj. unfold zlen in Hl. Z.to_euclidean_division_equations. lia.
Qed.
