(* ===== verification/BsonValue.v ===== *)
(** Boxed values that own their memory: [bson_value_copy] ([bson-value.c]), and that the
    copies append the same element. *)

From S2P Require Import Prelude IntEncode CString BsonTypes BsonIter BsonSpec BsonIterSpec Text BsonView BsonT BsonTSpec BsonAppend BsonAppendSpec BsonOid.

Section Copy.
Context (malloc : Z -> bytes).

(** [malloc (n + 1)], the [n] bytes and a terminator. *)
Definition copy_text (text : option bytes) (n : Z) : option bytes :=
  text ← text;
  src ← slice text 0 n;
  m ← store (malloc (n + 1)) 0 src;
  store m n [x00].

(** [malloc (n)] and the [n] bytes. *)
Definition copy_bytes (data : option bytes) (n : Z) : option bytes :=
  data ← data; src ← slice data 0 n; store (malloc n) 0 src.

(** [bson_strdup] *)
Definition bson_strdup (str : option bytes) : option (option bytes) :=
  match str with
  | None => Some None
  | Some str => s ← cstr str; m ← store (malloc (zlen s + 1)) 0 (s ++ [x00]); Some (Some m)
  end.

Definition copy_oid (oid : bytes) : option bytes := bson_oid_copy oid (replicate 12 x00).

Definition bson_value_copy (src : bson_value_t) : option bson_value_t :=
  match src with
  | v_utf8 str len =>
      if len =? SIZE_MAX then m ← copy_bytes str len; Some (v_utf8 (Some m) len)
      else m ← copy_text str len; Some (v_utf8 (Some m) len)
  | v_doc data data_len => m ← copy_bytes data data_len; Some (v_doc (Some m) data_len)
  | v_array data data_len => m ← copy_bytes data data_len; Some (v_array (Some m) data_len)
  | v_binary subtype data data_len =>
      m ← (if negb (data_len =? 0) then copy_bytes data data_len else Some (malloc data_len));
      Some (v_binary subtype (Some m) data_len)
  | v_oid oid => oid ← copy_oid oid; Some (v_oid oid)
  | v_regex regex options => r ← bson_strdup regex; o ← bson_strdup options; Some (v_regex r o)
  | v_dbpointer collection collection_len oid =>
      if SIZE_MAX - 1 <? collection_len then None else
      m ← copy_text collection collection_len; oid ← copy_oid oid; Some (v_dbpointer (Some m) collection_len oid)
  | v_code code code_len =>
      if SIZE_MAX - 1 <? code_len then None else m ← copy_text code code_len; Some (v_code (Some m) code_len)
  | v_symbol symbol len =>
      if SIZE_MAX - 1 <? len then None else m ← copy_text symbol len; Some (v_symbol (Some m) len)
  | v_codewscope code code_len scope_data scope_len =>
      if SIZE_MAX - 1 <? code_len then None else
      m ← copy_text code code_len; s ← copy_bytes scope_data scope_len;
      Some (v_codewscope (Some m) code_len (Some s) scope_len)
  | v_double _ | v_undefined | v_bool _ | v_datetime _ | v_null | v_int32 _ | v_timestamp _ _ | v_int64 _
  | v_decimal128 _ _ | v_maxkey | v_minkey => Some src
  end.
End Copy.

Section Copy.
Context (malloc : Z -> bytes).
Hypothesis Hmalloc : forall n, 0 <= n -> zlen (malloc n) = n.

Lemma copy_text_spec s post : copy_text malloc (Some (s ++ post)) (zlen s) = Some (s ++ [x00]).
Proof.
  pose proof (zlen_nonneg s). unfold copy_text. sbind. rewrite slice_at_end_0 by done. sbind.
  destruct (split_at (malloc (zlen s + 1)) (zlen s)) as (a & j & E & Ha & Hj); [rewrite Hmalloc; lia|].
  rewrite Hmalloc in Hj by lia. rewrite E, store_at_0 by done. sbind.
  destruct j as [|c [|? ?]]; [..|rewrite !zlen_cons in Hj; zl]; [change (zlen (@nil byte)) with 0 in Hj; lia|].
  pose proof (store_at s [c] [] (zlen s) [x00] eq_refl eq_refl) as Hs. by rewrite !app_nil_r in Hs.
Qed.

Lemma copy_bytes_spec s post : copy_bytes malloc (Some (s ++ post)) (zlen s) = Some s.
Proof.
  pose proof (zlen_nonneg s). unfold copy_bytes. sbind. rewrite slice_at_end_0 by done. sbind.
  pose proof (store_at_0 (malloc (zlen s)) [] s) as Hs. rewrite !app_nil_r in Hs. apply Hs. by rewrite Hmalloc.
Qed.

Lemma bson_strdup_spec s post : no_nul s -> bson_strdup malloc (Some (s ++ x00 :: post)) = Some (Some (s ++ [x00])).
Proof.
  intros Hs. pose proof (zlen_nonneg s). unfold bson_strdup. rewrite cstr_app by done. sbind.
  pose proof (store_at_0 (malloc (zlen s + 1)) [] (s ++ [x00])) as E. rewrite !app_nil_r in E.
  rewrite E by (rewrite Hmalloc, zlen_app, zlen_1; lia). done.
Qed.

Lemma copy_oid_spec oid : zlen oid = 12 -> copy_oid oid = Some oid.
Proof.
  intros H. unfold copy_oid, bson_oid_copy, bson_oid_copy_unsafe. rewrite (slice_all oid) by done. sbind.
  pose proof (store_at_0 (replicate 12 x00) [] oid) as E. rewrite !app_nil_r in E. by apply E.
Qed.

(** The copy of a value of a document: each text and buffer in memory of its
    own. *)
Definition own_value (v : bval) : bson_value_t :=
  match v with
  | BRegex r o => v_regex (Some (r ++ [x00])) (Some (o ++ [x00]))
  | BDBPointer c oid => v_dbpointer (Some (c ++ [x00])) (zlen c) oid
  | BCodeWScope c d => v_codewscope (Some (c ++ [x00])) (zlen c) (Some (enc_doc d)) (zlen (enc_doc d))
  | BDocument d => v_doc (Some (enc_doc d)) (zlen (enc_doc d))
  | BArray d => v_array (Some (enc_doc d)) (zlen (enc_doc d))
  | BBinary st data => v_binary st (Some data) (zlen data)
  | v => value_of v []
  end.

Lemma bson_value_copy_spec v post : wf_val v -> zlen (enc_val v) < 2 ^ 31 ->
  bson_value_copy malloc (value_of v post) = Some (own_value v).
Proof.
  intros Hwf Hl. assert (Hlim : forall n, 0 <= n < 2 ^ 31 -> (SIZE_MAX - 1 <? n) = false /\ (n =? SIZE_MAX) = false).
  { intros n Hn. unfold SIZE_MAX, UINT64_MAX. destruct (Z.ltb_spec (2 ^ 64 - 1 - 1) n), (Z.eqb_spec n (2 ^ 64 - 1)); lia || done. }
  destruct v as [bits|s|e|e|st data| |oid|v|t| |r o|c oid|c|s|c e|i|t i|i|lo hi| |];
    cbn [value_of own_value wf_val bson_value_copy] in *; try done.
  - cbn [enc_val] in Hl. autorewrite with zlen in Hl. destruct (Hlim (zlen s)) as [_ ->]; [zl|]. by rewrite copy_text_spec.
  - by rewrite copy_bytes_spec.
  - by rewrite copy_bytes_spec.
  - destruct (Z.eqb_spec (zlen data) 0) as [E|]; cbn [negb].
    + sbind. pose proof (Hmalloc (zlen data) ltac:(zl)) as Hz. rewrite E in *. apply zlen_0 in Hz, E. by rewrite Hz, E.
    + by rewrite copy_bytes_spec.
  - by rewrite copy_oid_spec.
  - destruct Hwf as [Hr Ho]. rewrite !bson_strdup_spec by done. done.
  - cbn [enc_val] in Hl. autorewrite with zlen in Hl. destruct (Hlim (zlen c)) as [-> _]; [zl|]. rewrite copy_text_spec. sbind. by rewrite copy_oid_spec by apply Hwf.
  - cbn [enc_val] in Hl. autorewrite with zlen in Hl. destruct (Hlim (zlen c)) as [-> _]; [zl|]. by rewrite copy_text_spec.
  - cbn [enc_val] in Hl. autorewrite with zlen in Hl. destruct (Hlim (zlen s)) as [-> _]; [zl|]. by rewrite copy_text_spec.
  - rewrite enc_val_codewscope in Hl. autorewrite with zlen in Hl. destruct (Hlim (zlen c)) as [-> _]; [zl|].
    rewrite copy_text_spec, copy_bytes_spec. done.
Qed.

Context (h : heap) (b : bson_t) (pre : bytes) (d : doc) (tail : bytes).
Context (Hst : stored h b pre d tail).
Context (key : bytes) (kl : Z) (k : bytes) (Hk : key_arg key kl k).

Lemma append_own_value v : wf_val v -> zlen (enc_val v) < 2 ^ 31 ->
  appends h b pre d [(k, as_appended v)] (bson_append_value malloc h b key kl (own_value v)).
Proof.
  intros Hwf Hl. pose proof (bson_append_value_of malloc Hmalloc h b pre d tail Hst key kl k Hk v [] Hwf Hl) as Hof.
  destruct v as [bits|s|e|e|st data| |oid|v|t| |r o|c oid|c|s|c e|i|t i|i|lo hi| |];
    cbn [own_value value_of] in *; rewrite ?app_nil_r in Hof; try exact Hof; cbn [bson_append_value as_appended wf_val] in *.
  - destruct Hwf as [Hr Ho]. cbn [enc_val] in Hl. autorewrite with zlen in Hl.
    apply (bson_append_regex_w_len_spec malloc Hmalloc h b pre d tail Hst key kl k Hk); [|done|unfold UINT32_MAX; zl].
    split; [done|]. split; [zl|]. exists []. by left.
  - destruct (until_nul_split c []) as [Hn [rest ->]]. sbind.
    rewrite <- (app_nil_r oid) at 2. by apply (bson_append_dbpointer_spec malloc Hmalloc h b pre d tail Hst key kl k Hk).
  - rewrite enc_val_codewscope in Hl. autorewrite with zlen in Hl. pose proof (zlen_nonneg c).
    assert (He : zlen (enc_doc e) <= BSON_MAX_SIZE) by (unfold BSON_MAX_SIZE; zl).
    rewrite <- (app_nil_r (enc_doc e)) at 1. rewrite (with_static_spec h b) by done.
    destruct (until_nul_split c []) as [Hn [rest ->]]. sbind.
    by apply (bson_append_code_with_scope_spec malloc Hmalloc h b pre d tail Hst key kl k Hk).
Qed.
End Copy.
