(* ===== verification/Base64.v ===== *)
(** Base 64 text: [common-b64.c]. *)

From Stdlib Require Import Strings.String.
From S2P Require Import Prelude CString Text.

Definition Base64 : bytes := lit "ABCDEFGHIJKLMNOPQRSTUVWXYZabcdefghijklmnopqrstuvwxyz0123456789+/".
Definition Pad64 : byte := z2b 61.

(** ** Encoding *)

(** The character of six bits; [None] also where the assertion fails. *)
Definition b64_char (output : Z) : option byte := if output <? 64 then rd Base64 output else None.

Definition output0 (input0 : byte) : Z := Z.shiftr (b2z input0) 2.
Definition output1 (input0 input1 : byte) : Z :=
  u8 (Z.shiftl (Z.land (b2z input0) 0x03) 4 + Z.shiftr (b2z input1) 4).
Definition output2 (input1 input2 : byte) : Z :=
  u8 (Z.shiftl (Z.land (b2z input1) 0x0f) 2 + Z.shiftr (b2z input2) 6).
Definition output3 (input2 : byte) : Z := Z.land (b2z input2) 0x3f.

(** The loop over groups of three bytes, and then the padded group. The
    results are the answer, if it is known, and the target. *)
Fixpoint ntop_loop (src : bytes) (srclength : Z) (target : bytes) (targsize datalength : Z)
  : option (option (bytes * Z * Z) * bytes) :=
  if 2 <? srclength then
    match src with
    | input0 :: input1 :: input2 :: src' =>
        let srclength := srclength - 3 in
        c0 ← b64_char (output0 input0);
        c1 ← b64_char (output1 input0 input1);
        c2 ← b64_char (output2 input1 input2);
        c3 ← b64_char (output3 input2);
        if targsize <? u64 (datalength + 4) then Some (None, target)
        else
          target ← store target datalength [c0; c1; c2; c3];
          ntop_loop src' srclength target targsize (u64 (datalength + 4))
    | _ => None
    end
  else Some (Some (src, srclength, datalength), target).

Definition ntop_pad (src : bytes) (srclength : Z) (target : bytes) (targsize datalength : Z)
  : option (option Z * bytes) :=
  if negb (srclength =? 0) then
    left ← slice src 0 srclength;
    let input0 := nth 0 left x00 in
    let input1 := nth 1 left x00 in
    let input2 := x00 in
    c0 ← b64_char (output0 input0);
    c1 ← b64_char (output1 input0 input1);
    c2 ← b64_char (output2 input1 input2);
    if targsize <? u64 (datalength + 4) then Some (None, target)
    else
      target ← store target datalength [c0; c1; if srclength =? 1 then Pad64 else c2; Pad64];
      Some (Some (u64 (datalength + 4)), target)
  else Some (Some datalength, target).

(** The answer and the target; no target is answered with -1. *)
Definition mcommon_b64_ntop (src : bytes) (srclength : Z) (target : option bytes) (targsize : Z)
  : option (Z * option bytes) :=
  match target with
  | None => Some (-1, None)
  | Some target =>
      '(r, target) ← ntop_loop src srclength target targsize 0;
      match r with
      | None => Some (-1, Some target)
      | Some (src, srclength, datalength) =>
          '(r, target) ← ntop_pad src srclength target targsize datalength;
          match r with
          | None => Some (-1, Some target)
          | Some datalength =>
              if targsize <=? datalength then Some (-1, Some target)
              else target ← store target datalength [x00]; Some (s32 datalength, Some target)
          end
      end
  end.

Definition mcommon_b64_ntop_calculate_target_size (raw_size : Z) : Z :=
  let num_bits := u64 (raw_size * 8) in
  let num_b64_chars := u64 (num_bits + 5) / 6 in
  let num_b64_chars_with_padding := u64 (4 * (u64 (num_b64_chars + 3) / 4)) in
  u64 (num_b64_chars_with_padding + 1).

Definition mcommon_b64_pton_calculate_target_size (base64_encoded_size : Z) : Z :=
  let num_bits := u64 (base64_encoded_size * 6) in num_bits / 8.

(** ** The reverse map *)

Definition mongoc_b64rmap_special : Z := 0xf0.
Definition mongoc_b64rmap_end : Z := 0xfd.
Definition mongoc_b64rmap_space : Z := 0xfe.
Definition mongoc_b64rmap_invalid : Z := 0xff.

(** The value the first loop gives to a character that is not NUL. *)
Definition rmap_class (ch : byte) : Z :=
  if isspace ch then mongoc_b64rmap_space
  else if byte_eqb ch Pad64 then mongoc_b64rmap_end
  else mongoc_b64rmap_invalid.

(** [for (i = 0; Base64\[i\] != '\0'; ++i) rmap\[Base64\[i\]\] = i] *)
Fixpoint fill_rmap (base : bytes) (i : Z) (rmap : list Z) : option (list Z) :=
  match base with
  | [] => None
  | c :: base' =>
      if byte_eqb c x00 then Some rmap
      else fill_rmap base' (u8 (i + 1)) (<[Z.to_nat (b2z c) := i]> rmap)
  end.

Definition bson_b64_initialize_rmap : option (list Z) :=
  fill_rmap Base64 0 (mongoc_b64rmap_end :: map (fun i => rmap_class (z2b (Z.of_nat i))) (seq 1 255)).

(** ** Decoding *)

Section Decode.
Context (rmap : list Z).

(** [mongoc_b64rmap\[ch\]] *)
Definition rmap_at (ch : byte) : option Z := rmap !! Z.to_nat (b2z ch).

(** Where a loop over the characters stops: at one that is not of the
    alphabet, or at a pad or the terminator, [ch], with the characters behind
    it. *)
Inductive b64_stop :=
  | Stop_invalid
  | Stop_end (ch : byte) (src : bytes) (tarindex state : Z).

Fixpoint pton_do_loop (src target : bytes) (targsize tarindex state : Z) : option (b64_stop * bytes) :=
  match src with
  | [] => None
  | ch :: src' =>
      ofs ← rmap_at ch;
      if mongoc_b64rmap_special <=? ofs then
        if ofs =? mongoc_b64rmap_space then pton_do_loop src' target targsize tarindex state
        else if ofs =? mongoc_b64rmap_end then Some (Stop_end ch src' tarindex state, target)
        else Some (Stop_invalid, target)
      else
        match state with
        | 0 =>
            if targsize <=? u64 tarindex then Some (Stop_invalid, target)
            else
              target ← store target tarindex [z2b (Z.shiftl ofs 2)];
              pton_do_loop src' target targsize tarindex 1
        | 1 =>
            if targsize <=? u64 (u64 tarindex + 1) then Some (Stop_invalid, target)
            else
              b ← rd target tarindex;
              target ← store target tarindex [z2b (Z.lor (b2z b) (Z.shiftr ofs 4))];
              target ← store target (tarindex + 1) [z2b (Z.shiftl (Z.land ofs 0x0f) 4)];
              tarindex ← int_ok (tarindex + 1);
              pton_do_loop src' target targsize tarindex 2
        | 2 =>
            if targsize <=? u64 (u64 tarindex + 1) then Some (Stop_invalid, target)
            else
              b ← rd target tarindex;
              target ← store target tarindex [z2b (Z.lor (b2z b) (Z.shiftr ofs 2))];
              target ← store target (tarindex + 1) [z2b (Z.shiftl (Z.land ofs 0x03) 6)];
              tarindex ← int_ok (tarindex + 1);
              pton_do_loop src' target targsize tarindex 3
        | 3 =>
            if targsize <=? u64 tarindex then Some (Stop_invalid, target)
            else
              b ← rd target tarindex;
              target ← store target tarindex [z2b (Z.lor (b2z b) ofs)];
              tarindex ← int_ok (tarindex + 1);
              pton_do_loop src' target targsize tarindex 0
        | _ => None
        end
  end.

(** The loop that skips spaces behind the first pad: the character it stops at
    and what follows. *)
Fixpoint skip_pad_spaces (ch : byte) (src : bytes) : option (byte * bytes) :=
  if byte_eqb ch x00 then Some (ch, src)
  else
    ofs ← rmap_at ch;
    if negb (ofs =? mongoc_b64rmap_space) then Some (ch, src)
    else match src with [] => None | ch' :: src' => skip_pad_spaces ch' src' end.

(** The loop that accepts only spaces up to the terminator. *)
Fixpoint only_spaces (ch : byte) (src : bytes) : option bool :=
  if byte_eqb ch x00 then Some true
  else
    ofs ← rmap_at ch;
    if negb (ofs =? mongoc_b64rmap_space) then Some false
    else match src with [] => None | ch' :: src' => only_spaces ch' src' end.

(** What follows a pad: the two cases of the [switch] that go on. *)
Definition pad_tail (ch : byte) (src : bytes) (state : Z) : option bool :=
  match state with
  | 2 =>
      '(ch, src) ← skip_pad_spaces ch src;
      if negb (byte_eqb ch Pad64) then Some false
      else match src with [] => None | ch :: src => only_spaces ch src end
  | _ => only_spaces ch src
  end.

(** The answer after the loop; [slop] says that the bits past the last whole
    byte are zero. *)
Definition pton_end (slop : Z -> option bool) (ch : byte) (src : bytes) (tarindex state : Z) : option Z :=
  if byte_eqb ch Pad64 then
    match src with
    | [] => None
    | ch :: src =>
        match state with
        | 0 | 1 => Some (-1)
        | 2 | 3 =>
            ok ← pad_tail ch src state;
            if negb ok then Some (-1)
            else
              zero ← slop tarindex;
              if negb zero then Some (-1) else Some tarindex
        | _ => Some tarindex
        end
    end
  else if negb (state =? 0) then Some (-1) else Some tarindex.

Definition mongoc_b64_pton_do (src target : bytes) (targsize : Z) : option (Z * bytes) :=
  '(stop, target) ← pton_do_loop src target targsize 0 0;
  match stop with
  | Stop_invalid => Some (-1, target)
  | Stop_end ch src tarindex state =>
      r ← pton_end (fun i => b ← rd target i; Some (b2z b =? 0)) ch src tarindex state;
      Some (r, target)
  end.

Fixpoint pton_len_loop (src : bytes) (tarindex state : Z) : option b64_stop :=
  match src with
  | [] => None
  | ch :: src' =>
      ofs ← rmap_at ch;
      if mongoc_b64rmap_special <=? ofs then
        if ofs =? mongoc_b64rmap_space then pton_len_loop src' tarindex state
        else if ofs =? mongoc_b64rmap_end then Some (Stop_end ch src' tarindex state)
        else Some Stop_invalid
      else
        match state with
        | 0 => pton_len_loop src' tarindex 1
        | 1 => tarindex ← int_ok (tarindex + 1); pton_len_loop src' tarindex 2
        | 2 => tarindex ← int_ok (tarindex + 1); pton_len_loop src' tarindex 3
        | 3 => tarindex ← int_ok (tarindex + 1); pton_len_loop src' tarindex 0
        | _ => None
        end
  end.

(** The bits past the last byte are not looked at. *)
Definition mongoc_b64_pton_len (src : bytes) : option Z :=
  stop ← pton_len_loop src 0 0;
  match stop with
  | Stop_invalid => Some (-1)
  | Stop_end ch src tarindex state => pton_end (fun _ => Some true) ch src tarindex state
  end.
End Decode.

Definition mcommon_b64_pton (src target : option bytes) (targsize : Z) : option (Z * option bytes) :=
  rmap ← bson_b64_initialize_rmap;
  match src with
  | None => Some (-1, target)
  | Some src =>
      match target with
      | Some target => '(r, target) ← mongoc_b64_pton_do rmap src target targsize; Some (r, Some target)
      | None => r ← mongoc_b64_pton_len rmap src; Some (r, None)
      end
  end.

(** Samples. *)
Example ntop_sample :
  mcommon_b64_ntop (txt "any carnal pleasur") 16 (Some (zeros 30)) 25 =
  Some (24, Some (lit "YW55IGNhcm5hbCBwbGVhcw==" ++ zeros 5)).
Proof. vm_compute. reflexivity. Qed.
Example pton_sample :
  mcommon_b64_pton (Some (lit " YW55I GNhcm5h bCBwbGVhcw = = ")) (Some (zeros 18)) 18 =
  Some (16, Some (txt "any carnal pleas" ++ zeros 2)).
Proof. vm_compute. reflexivity. Qed.
