(* ===== verification/Base64Spec.v ===== *)
(** Base 64 text as RFC 1521 has it, and [common-b64.c] against it. *)

From Stdlib Require Import Strings.String.
From S2P Require Import Prelude CString Text Base64.

(** ** Specification *)

(** The character of a six-bit value, and the value of a character. *)
Definition alphabet : bytes := txt "ABCDEFGHIJKLMNOPQRSTUVWXYZabcdefghijklmnopqrstuvwxyz0123456789+/".
Definition b64_digit (v : Z) : byte := nth (Z.to_nat v) alphabet Pad64.
Definition b64_value (c : byte) : option Z := option_map (fun '(i, _) => Z.of_nat i) (list_find (eq c) alphabet).

(** A group of 24 bits as four digits, and back. *)
Definition digit_of (n k : Z) : byte := b64_digit (n / 64 ^ k mod 64).
Fixpoint b64_text (s : bytes) : bytes :=
  match s with
  | [] => []
  | [a] => let n := b2z a * 65536 in [digit_of n 3; digit_of n 2; Pad64; Pad64]
  | [a; b] => let n := b2z a * 65536 + b2z b * 256 in [digit_of n 3; digit_of n 2; digit_of n 1; Pad64]
  | a :: b :: c :: s' =>
      let n := b2z a * 65536 + b2z b * 256 + b2z c in
      [digit_of n 3; digit_of n 2; digit_of n 1; digit_of n 0] ++ b64_text s'
  end.

(** The bytes of a text without white space; the bits past the last byte of a
    padded group are zero. *)
Fixpoint b64_bytes (s : bytes) : option bytes :=
  match s with
  | [] => Some []
  | p :: q :: r :: t :: s' =>
      x ← b64_value p; y ← b64_value q;
      if byte_eqb r Pad64 then
        if byte_eqb t Pad64 && bool_decide (s' = []) && (y mod 16 =? 0) then Some [z2b (4 * x + y / 16)] else None
      else
        z ← b64_value r;
        let n := 4096 * x + 64 * y + z in
        if byte_eqb t Pad64 then
          if bool_decide (s' = []) && (z mod 4 =? 0) then Some [z2b (n / 1024); z2b (n / 4)] else None
        else
          w ← b64_value t;
          rest ← b64_bytes s';
          let n := 64 * n + w in
          Some ([z2b (n / 65536); z2b (n / 256); z2b n] ++ rest)
  | _ => None
  end.

Definition no_spaces (s : bytes) : bytes := filter (fun c => isspace c = false) s.

(** What a text stands for. *)
Definition b64_decode (s : bytes) : option bytes := b64_bytes (no_spaces s).

(** The room the decoder asks for: one byte more than it writes when the last
    group is padded. *)
Definition b64_room (n : Z) : Z := if n mod 3 =? 0 then n else n + 1.

(** ** Characters *)

Lemma value_range c v : b64_value c = Some v -> 0 <= v < 64.
Proof.
  unfold b64_value. destruct (list_find (eq c) alphabet) as [[i x]|] eqn:E; [|done]. intros [= <-].
  apply list_find_Some in E as (H & _ & _). apply lookup_lt_Some in H.
  change (length alphabet) with 64%nat in H. lia.
Qed.

Lemma value_digit v : 0 <= v < 64 -> b64_value (b64_digit v) = Some v.
Proof.
  intros Hv. replace v with (Z.of_nat (Z.to_nat v)) by lia.
  assert (H : Forall (fun i => b64_value (b64_digit (Z.of_nat i)) = Some (Z.of_nat i)) (seq 0 64))
    by (repeat constructor).
  rewrite Forall_forall in H. apply H. apply elem_of_seq. lia.
Qed.


(** What the reverse map says of a character. *)
Definition char_class (c : byte) : Z :=
  match b64_value c with
  | Some v => v
  | None => if byte_eqb c x00 then mongoc_b64rmap_end else rmap_class c
  end.

Definition b64rmap : list Z := map char_class all_bytes.

Lemma initialize_rmap : bson_b64_initialize_rmap = Some b64rmap.
Proof. vm_compute. reflexivity. Qed.

Lemma rmap_char c : rmap_at b64rmap c = Some (char_class c).
Proof.
  assert (E : forall c, bool_decide (rmap_at b64rmap c = Some (char_class c)) = true)
    by (apply by_bytes; vm_compute; reflexivity).
  specialize (E c). by apply bool_decide_eq_true in E.
Qed.

Lemma value_class c v : b64_value c = Some v -> isspace c = false /\ c <> Pad64 /\ c <> x00.
Proof.
  intros H. pose (P := fun c => negb (bool_decide (is_Some (b64_value c))) ||
    (negb (isspace c) && negb (byte_eqb c Pad64) && negb (byte_eqb c x00))).
  assert (E : P c = true) by (apply by_bytes; vm_compute; reflexivity).
  unfold P in E. rewrite bool_decide_true in E by eauto. cbn [negb orb] in E.
  apply andb_prop in E as [E Ez]. apply andb_prop in E as [Es Ep]. apply negb_true_iff in Es, Ep, Ez.
  split; [done|]. split; intros ->; [by rewrite byte_eqb_refl in Ep|by rewrite byte_eqb_refl in Ez].
Qed.

Lemma value_pad : b64_value Pad64 = None.
Proof. reflexivity. Qed.
Lemma isspace_pad : isspace Pad64 = false.
Proof. reflexivity. Qed.

(** The cases of a character that is not the terminator. *)
Variant char_case (c : byte) : Prop :=
  | CSpace : isspace c = true -> b64_value c = None -> c <> Pad64 -> char_class c = mongoc_b64rmap_space -> char_case c
  | CPad : c = Pad64 -> char_class c = mongoc_b64rmap_end -> char_case c
  | CDigit v : b64_value c = Some v -> 0 <= v < 64 -> isspace c = false -> c <> Pad64 -> char_class c = v -> char_case c
  | CInvalid : isspace c = false -> b64_value c = None -> c <> Pad64 ->
      char_class c = mongoc_b64rmap_invalid -> char_case c.

Lemma char_cases c : c <> x00 -> char_case c.
Proof.
  intros Hz. destruct (b64_value c) as [v|] eqn:Hv.
  - destruct (value_class c v Hv) as (Hs & Hp & _). apply (CDigit c v); try done.
    + by apply (value_range c).
    + unfold char_class. by rewrite Hv.
  - assert (E : char_class c = rmap_class c) by (unfold char_class; rewrite Hv, byte_eqb_neq by done; done).
    unfold rmap_class in E. destruct (isspace c) eqn:Hs.
    + apply CSpace; try done. intros ->. done.
    + destruct (decide (c = Pad64)) as [->|Hp]; [by apply CPad|].
      rewrite byte_eqb_neq in E by done. by apply CInvalid.
Qed.

(** ** The decoder as a machine *)

(** Reading from a state with [carry], the bits of the unfinished byte. *)
Fixpoint b64_run (st : Z) (carry : Z) (s : bytes) : option bytes :=
  match s with
  | [] => if st =? 0 then Some [] else None
  | c :: s' =>
      if isspace c then b64_run st carry s'
      else if byte_eqb c Pad64 then
        if (((st =? 2) && bool_decide (no_spaces s' = [Pad64])) || ((st =? 3) && bool_decide (no_spaces s' = [])))
             && (carry =? 0)
        then Some [] else None
      else
        v ← b64_value c;
        match st with
        | 0 => b64_run 1 (4 * v) s'
        | 1 => option_map (cons (z2b (carry + v / 16))) (b64_run 2 (v mod 16 * 16) s')
        | 2 => option_map (cons (z2b (carry + v / 4))) (b64_run 3 (v mod 4 * 64) s')
        | _ => option_map (cons (z2b (carry + v))) (b64_run 0 0 s')
        end
  end.

Lemma no_spaces_cons c s : no_spaces (c :: s) = if isspace c then no_spaces s else c :: no_spaces s.
Proof. unfold no_spaces. rewrite filter_cons. destruct (isspace c); [by rewrite decide_False|by rewrite decide_True]. Qed.

Lemma no_spaces_twice s : no_spaces (no_spaces s) = no_spaces s.
Proof.
  induction s as [|c s IH]; [done|]. rewrite no_spaces_cons. destruct (isspace c) eqn:E; [done|].
  by rewrite no_spaces_cons, E, IH.
Qed.

Lemma run_no_spaces s : forall st carry, b64_run st carry s = b64_run st carry (no_spaces s).
Proof.
  induction s as [|c s IH]; intros st carry; [done|]. rewrite no_spaces_cons. cbn [b64_run].
  destruct (isspace c) eqn:E; [done|]. cbn [b64_run]. rewrite E, no_spaces_twice.
  destruct (byte_eqb c Pad64); [done|]. destruct (b64_value c) as [v|]; [|done]. sbind. by rewrite !IH.
Qed.

Lemma run_value st carry c s v : b64_value c = Some v ->
  b64_run st carry (c :: s) =
    match st with
    | 0 => b64_run 1 (4 * v) s
    | 1 => option_map (cons (z2b (carry + v / 16))) (b64_run 2 (v mod 16 * 16) s)
    | 2 => option_map (cons (z2b (carry + v / 4))) (b64_run 3 (v mod 4 * 64) s)
    | _ => option_map (cons (z2b (carry + v))) (b64_run 0 0 s)
    end.
Proof. intros H. destruct (value_class c v H) as (Hs & Hp & _). cbn [b64_run]. by rewrite Hs, byte_eqb_neq, H by done. Qed.

Lemma run_early st carry c s : b64_value c = None -> isspace c = false -> st = 0 \/ st = 1 -> b64_run st carry (c :: s) = None.
Proof. intros H Hs Hst. cbn [b64_run]. rewrite Hs, H. destruct (byte_eqb c Pad64); [|done]. by destruct Hst as [-> | ->]. Qed.

Lemma no_spaces_id s : Forall (fun c => isspace c = false) s -> no_spaces s = s.
Proof. induction 1 as [|c s H _ IH]; [done|]. by rewrite no_spaces_cons, H, IH. Qed.

Lemma no_spaces_forall s : Forall (fun c => isspace c = false) (no_spaces s).
Proof. apply Forall_forall. intros c H. by apply list_elem_of_filter in H as [H _]. Qed.

(** The last two characters of a group, in state 2. *)
Lemma run_pad_2 carry t s : Forall (fun c => isspace c = false) (t :: s) ->
  b64_run 2 carry (Pad64 :: t :: s) =
    if byte_eqb t Pad64 && bool_decide (s = []) && (carry =? 0) then Some [] else None.
Proof.
  intros H. cbn [b64_run]. rewrite isspace_pad, byte_eqb_refl, no_spaces_id by done.
  cbn [Z.eqb Pos.eqb andb orb]. rewrite orb_false_r. f_equal. f_equal.
  byte_cases t Pad64; repeat case_bool_decide; naive_solver.
Qed.

Lemma run_pad_3 carry s : Forall (fun c => isspace c = false) s ->
  b64_run 3 carry (Pad64 :: s) = if bool_decide (s = []) && (carry =? 0) then Some [] else None.
Proof. intros H. cbn [b64_run]. by rewrite isspace_pad, byte_eqb_refl, no_spaces_id by done. Qed.

Lemma run_bytes s : Forall (fun c => isspace c = false) s -> b64_run 0 0 s = b64_bytes s.
Proof.
  induction s as [s IH] using (induction_ltof1 _ (@length byte)). intros H.
  destruct s as [|p s]; [done|]. apply Forall_cons in H as [Hp H].
  destruct (b64_value p) as [x|] eqn:Ex; [|rewrite run_early by auto; destruct s as [|? [|? [|? ?]]]; [done..|cbn [b64_bytes]; by rewrite Ex]].
  rewrite (run_value _ _ _ _ x) by done. destruct s as [|q s]; [done|]. apply Forall_cons in H as [Hq H].
  destruct (b64_value q) as [y|] eqn:Ey; [|rewrite run_early by auto; destruct s as [|? [|? ?]]; [done..|cbn [b64_bytes]; by rewrite Ex, Ey]].
  rewrite (run_value _ _ _ _ y) by done. destruct s as [|r s]; [done|]. apply Forall_cons in H as [Hr H].
  pose proof (value_range p x Ex) as Hx. pose proof (value_range q y Ey) as Hy.
  destruct (decide (r = Pad64)) as [->|Hrp].
  { destruct s as [|t s]; [by rewrite run_pad_3 || done|]. rewrite run_pad_2 by done.
    cbn [b64_bytes]. rewrite Ex, Ey. sbind. rewrite byte_eqb_refl.
    replace (y mod 16 * 16 =? 0) with (y mod 16 =? 0) by (destruct (Z.eqb_spec (y mod 16) 0), (Z.eqb_spec (y mod 16 * 16) 0); lia || done).
    by destruct (_ && _). }
  destruct (b64_value r) as [z|] eqn:Ez.
  2:{ cbn [b64_run]. rewrite Hr, byte_eqb_neq, Ez by done. destruct s as [|t s]; [done|].
      cbn [b64_bytes]. by rewrite Ex, Ey, byte_eqb_neq, Ez. }
  rewrite (run_value _ _ _ _ z) by done. destruct s as [|t s]; [done|]. apply Forall_cons in H as [Ht H].
  pose proof (value_range r z Ez) as Hz. cbn [b64_bytes]. rewrite Ex, Ey. sbind. rewrite (byte_eqb_neq r), Ez by done. sbind.
  destruct (decide (t = Pad64)) as [->|Htp].
  { rewrite run_pad_3, byte_eqb_refl by done.
    replace (z mod 4 * 64 =? 0) with (z mod 4 =? 0) by (destruct (Z.eqb_spec (z mod 4) 0), (Z.eqb_spec (z mod 4 * 64) 0); lia || done).
    destruct (_ && _); [|done]. cbn [option_map]. do 2 f_equal; [|f_equal]; apply z2b_mod; Z.to_euclidean_division_equations; lia. }
  rewrite (byte_eqb_neq t) by done. destruct (b64_value t) as [w|] eqn:Ew.
  2:{ cbn [b64_run]. by rewrite Ht, byte_eqb_neq, Ew by done. }
  rewrite (run_value _ _ _ _ w) by done. pose proof (value_range t w Ew) as Hw. sbind.
  rewrite IH; [|unfold ltof; cbn [length]; lia|done]. destruct (b64_bytes s) as [out|]; [|done]. cbn [option_map]. sbind.
  cbn [app]. do 2 f_equal; [|f_equal; [|f_equal]]; apply z2b_mod; Z.to_euclidean_division_equations; lia.
Qed.

(** ** The decoder against the machine *)

(** The loop that skips spaces, and the one that accepts only spaces. *)
Lemma only_spaces_spec s m : no_nul s -> forall c m', s ++ x00 :: m = c :: m' ->
  only_spaces b64rmap c m' = Some (bool_decide (no_spaces s = [])).
Proof.
  induction s as [|d s IH]; intros Hs c m' E; injection E as <- <-.
  - by destruct m.
  - apply no_nul_cons in Hs as [Hd Hs]. rewrite no_spaces_cons.
    assert (Ho : only_spaces b64rmap d (s ++ x00 :: m) =
      if negb (char_class d =? mongoc_b64rmap_space) then Some false
      else match s ++ x00 :: m with [] => None | c :: m' => only_spaces b64rmap c m' end)
      by (destruct s; cbn [app only_spaces]; by rewrite byte_eqb_neq, rmap_char by done).
    rewrite Ho. destruct (char_cases d Hd) as [Hsp _ _ ->| -> -> |v Hv Hr Hsp _ ->|Hsp _ _ ->].
    + rewrite Hsp. cbn [negb Z.eqb Pos.eqb mongoc_b64rmap_space].
      destruct (s ++ x00 :: m) as [|c m'] eqn:E; [by destruct s|]. by apply IH.
    + by rewrite isspace_pad.
    + rewrite Hsp. unfold mongoc_b64rmap_space. destruct (Z.eqb_spec v 0xfe); [lia|done].
    + by rewrite Hsp.
Qed.

(** After the spaces there is a pad and then only spaces. *)
Lemma skip_pad_spec s m : no_nul s -> forall c m', s ++ x00 :: m = c :: m' ->
  ('(ch, src) ← skip_pad_spaces b64rmap c m';
   if negb (byte_eqb ch Pad64) then Some false
   else match src with [] => None | ch :: src => only_spaces b64rmap ch src end) =
  Some (bool_decide (no_spaces s = [Pad64])).
Proof.
  induction s as [|d s IH]; intros Hs c m' E; injection E as <- <-.
  - by destruct m.
  - apply no_nul_cons in Hs as [Hd Hs]. rewrite no_spaces_cons.
    assert (Ho : skip_pad_spaces b64rmap d (s ++ x00 :: m) =
      if negb (char_class d =? mongoc_b64rmap_space) then Some (d, s ++ x00 :: m)
      else match s ++ x00 :: m with [] => None | c :: m' => skip_pad_spaces b64rmap c m' end)
      by (destruct s; cbn [app skip_pad_spaces]; by rewrite byte_eqb_neq, rmap_char by done).
    rewrite Ho. destruct (s ++ x00 :: m) as [|c m'] eqn:E; [by destruct s|].
    destruct (char_cases d Hd) as [Hsp _ _ -> | -> -> |v Hv Hr Hsp Hp -> |Hsp _ Hp ->].
    + rewrite Hsp. cbn [negb Z.eqb Pos.eqb mongoc_b64rmap_space]. by apply IH.
    + cbn [negb Z.eqb Pos.eqb mongoc_b64rmap_space mongoc_b64rmap_end mbind option_bind]. rewrite byte_eqb_refl. cbn [negb].
      rewrite isspace_pad, (only_spaces_spec s m) by done. f_equal. apply bool_decide_ext. split; [by intros ->|by intros [= ->]].
    + rewrite Hsp. unfold mongoc_b64rmap_space. destruct (Z.eqb_spec v 0xfe); [lia|]. cbn [negb mbind option_bind].
      rewrite byte_eqb_neq by done. cbn [negb]. f_equal. symmetry. apply bool_decide_false. congruence.
    + rewrite Hsp. cbn [negb Z.eqb Pos.eqb mongoc_b64rmap_space mongoc_b64rmap_invalid mbind option_bind].
      rewrite byte_eqb_neq by done. cbn [negb]. f_equal. symmetry. apply bool_decide_false. congruence.
Qed.

(** The answer at a pad in state [st]. *)
Lemma pton_end_pad s m slop tarindex st zero : no_nul s -> 0 <= st < 4 -> (2 <= st -> slop tarindex = Some zero) ->
  pton_end b64rmap slop Pad64 (s ++ x00 :: m) tarindex st =
    Some (if (((st =? 2) && bool_decide (no_spaces s = [Pad64])) || ((st =? 3) && bool_decide (no_spaces s = [])))
             && zero
          then tarindex else -1).
Proof.
  intros Hs Hst Hz. unfold pton_end. rewrite byte_eqb_refl. destruct (s ++ x00 :: m) as [|c m'] eqn:E; [by destruct s|].
  assert (st = 0 \/ st = 1 \/ st = 2 \/ st = 3) as [-> | [-> | [-> | ->]]] by lia; try done;
    rewrite Hz by lia; cbn [pad_tail].
  - rewrite (skip_pad_spec s m) by done. cbn [Z.eqb Pos.eqb andb orb mbind option_bind]. rewrite orb_false_r.
    destruct (bool_decide _); cbn [negb andb]; [|done]. by destruct zero.
  - rewrite (only_spaces_spec s m) by done. cbn [Z.eqb Pos.eqb andb orb mbind option_bind].
    destruct (bool_decide _); cbn [negb andb]; [|done]. by destruct zero.
Qed.

(** The rest of the decoding, from a state of the loop. *)
Definition pton_rest (src target : bytes) (targsize tarindex state : Z) : option (Z * bytes) :=
  '(stop, target) ← pton_do_loop b64rmap src target targsize tarindex state;
  match stop with
  | Stop_invalid => Some (-1, target)
  | Stop_end ch src tarindex state =>
      r ← pton_end b64rmap (fun i => b ← rd target i; Some (b2z b =? 0)) ch src tarindex state;
      Some (r, target)
  end.

(** The room a state still needs for [n] bytes. *)
Definition room_of (st n : Z) : Z :=
  let k := if st =? 2 then 1 else if st =? 3 then 2 else 0 in if (n + k) mod 3 =? 0 then n else n + 1.

(** The target in a state: the bytes written, the unfinished one, and the
    rest. *)
Definition target_in (st carry : Z) (pre old : bytes) : bytes :=
  pre ++ (if st =? 0 then [] else [z2b carry]) ++ old.

Definition decodes (res : option bytes) (st : Z) (pre : bytes) (targsize : Z) (out : option (Z * bytes)) : Prop :=
  exists r target', out = Some (r, target') /\ zlen target' = targsize /\
    match res with
    | Some s => if room_of st (zlen s) <=? targsize - zlen pre
                then r = zlen pre + zlen s /\ exists junk, target' = pre ++ s ++ junk
                else r = -1
    | None => r = -1
    end.

Lemma run_1_nonempty s carry : b64_run 1 carry s <> Some [].
Proof.
  induction s as [|c s IH]; [done|]. cbn [b64_run]. destruct (isspace c); [done|]. destruct (byte_eqb c Pad64); [done|].
  destruct (b64_value c); [|done]. sbind. by destruct (b64_run 2 _ s).
Qed.

(** A byte is finished: the answer from the next state is the answer from this one. *)
Lemma decodes_next st st' b pre targsize res out :
  (forall n, 0 <= n -> room_of st (1 + n) = 1 + room_of st' n) ->
  decodes res st' (pre ++ [b]) targsize out -> decodes (option_map (cons b) res) st pre targsize out.
Proof.
  intros Hroom (r & target' & -> & Hl & H). exists r, target'. split; [done|]. split; [done|].
  destruct res as [s|]; [|done]. cbn [option_map]. rewrite zlen_cons, Hroom by zl. rewrite zlen_app, zlen_1 in H.
  replace (1 + room_of st' (zlen s) <=? targsize - zlen pre) with (room_of st' (zlen s) <=? targsize - (zlen pre + 1))
    by (destruct (Z.leb_spec (room_of st' (zlen s)) (targsize - (zlen pre + 1))),
          (Z.leb_spec (1 + room_of st' (zlen s)) (targsize - zlen pre)); lia || done).
  destruct (_ <=? _); [|done]. destruct H as [-> [junk ->]]. split; [lia|]. exists junk. by rewrite <- app_assoc.
Qed.

Lemma decodes_fail st pre targsize res target : zlen target = targsize ->
  (forall s, res = Some s -> targsize - zlen pre < room_of st (zlen s)) ->
  decodes res st pre targsize (Some (-1, target)).
Proof.
  intros Ht Hr. exists (-1), target. split; [done|]. split; [done|]. destruct res as [s|]; [|done].
  destruct (Z.leb_spec (room_of st (zlen s)) (targsize - zlen pre)); [|done]. specialize (Hr s eq_refl). lia.
Qed.

Lemma room_of_pos st n : st = 2 \/ st = 3 -> 0 <= n -> 1 <= room_of st n.
Proof.
  intros Hst Hn. unfold room_of. destruct Hst as [-> | ->]; cbn [Z.eqb Pos.eqb];
    (match goal with |- context [?a =? 0] => destruct (Z.eqb_spec a 0) end; Z.to_euclidean_division_equations; lia).
Qed.

Lemma room_of_step st st' n : st = 1 /\ st' = 2 \/ st = 2 /\ st' = 3 \/ st = 3 /\ st' = 0 -> 0 <= n ->
  room_of st (1 + n) = 1 + room_of st' n.
Proof.
  intros Hst Hn. unfold room_of. destruct Hst as [[-> ->] | [[-> ->] | [-> ->]]]; cbn [Z.eqb Pos.eqb];
    repeat match goal with |- context [?a =? 0] => destruct (Z.eqb_spec a 0) end; Z.to_euclidean_division_equations; lia.
Qed.

(** Sharing a byte between two digits. *)
Lemma carry_lor k c a x : 0 <= k -> 0 <= x < 2 ^ k -> c = a * 2 ^ k -> 0 <= c < 256 ->
  z2b (Z.lor (b2z (z2b c)) x) = z2b (c + x).
Proof. intros Hk Hx -> Hc. rewrite b2z_z2b_small by lia. by rewrite lor_disjoint. Qed.

(** Access to an unfinished byte and the one behind it. *)
Lemma unfinished pre old (b j : byte) :
  rd (pre ++ [b] ++ j :: old) (zlen pre) = Some b /\
  (forall x, store (pre ++ [b] ++ j :: old) (zlen pre) [x] = Some (pre ++ [x] ++ j :: old)) /\
  (forall y, store (pre ++ [b] ++ j :: old) (zlen pre + 1) [y] = Some (pre ++ [b] ++ y :: old)).
Proof.
  split; [|split].
  - change ([b] ++ j :: old) with (b :: j :: old). by apply rd_at.
  - intros x. by apply store_at.
  - intros y. change (j :: old) with ([j] ++ old). rewrite (app_assoc pre), (store_at _ [j]) by (done || zl).
    by rewrite <- app_assoc.
Qed.

(** One character of the loop. *)
Lemma rest_space c s target targsize tarindex st : char_class c = mongoc_b64rmap_space ->
  pton_rest (c :: s) target targsize tarindex st = pton_rest s target targsize tarindex st.
Proof. intros H. unfold pton_rest. cbn [pton_do_loop]. by rewrite rmap_char, H. Qed.

Lemma rest_stop c s target targsize tarindex st : char_class c = mongoc_b64rmap_end ->
  pton_rest (c :: s) target targsize tarindex st =
    (r ← pton_end b64rmap (fun i => b ← rd target i; Some (b2z b =? 0)) c s tarindex st; Some (r, target)).
Proof. intros H. unfold pton_rest. cbn [pton_do_loop]. by rewrite rmap_char, H. Qed.

Lemma rest_invalid c s target targsize tarindex st : char_class c = mongoc_b64rmap_invalid ->
  pton_rest (c :: s) target targsize tarindex st = Some (-1, target).
Proof. intros H. unfold pton_rest. cbn [pton_do_loop]. by rewrite rmap_char, H. Qed.

Section Digit.
Context (c : byte) (v : Z) (Hv : char_class c = v) (Hr : 0 <= v < 64).

Lemma digit_scan s target targsize tarindex st :
  pton_do_loop b64rmap (c :: s) target targsize tarindex st =
    match st with
    | 0 => if targsize <=? u64 tarindex then Some (Stop_invalid, target)
           else target ← store target tarindex [z2b (Z.shiftl v 2)];
                pton_do_loop b64rmap s target targsize tarindex 1
    | 1 => if targsize <=? u64 (u64 tarindex + 1) then Some (Stop_invalid, target)
           else b ← rd target tarindex;
                target ← store target tarindex [z2b (Z.lor (b2z b) (Z.shiftr v 4))];
                target ← store target (tarindex + 1) [z2b (Z.shiftl (Z.land v 0x0f) 4)];
                tarindex ← int_ok (tarindex + 1); pton_do_loop b64rmap s target targsize tarindex 2
    | 2 => if targsize <=? u64 (u64 tarindex + 1) then Some (Stop_invalid, target)
           else b ← rd target tarindex;
                target ← store target tarindex [z2b (Z.lor (b2z b) (Z.shiftr v 2))];
                target ← store target (tarindex + 1) [z2b (Z.shiftl (Z.land v 0x03) 6)];
                tarindex ← int_ok (tarindex + 1); pton_do_loop b64rmap s target targsize tarindex 3
    | 3 => if targsize <=? u64 tarindex then Some (Stop_invalid, target)
           else b ← rd target tarindex;
                target ← store target tarindex [z2b (Z.lor (b2z b) v)];
                tarindex ← int_ok (tarindex + 1); pton_do_loop b64rmap s target targsize tarindex 0
    | _ => None
    end.
Proof.
  cbn [pton_do_loop]. rewrite rmap_char, Hv. sbind. unfold mongoc_b64rmap_special.
  destruct (Z.leb_spec 0xf0 v); [lia|]. reflexivity.
Qed.

Context (s pre old : bytes) (carry targsize : Z).
Hypothesis (Hsz : targsize < 2 ^ 63) (Hpre : zlen pre < 2 ^ 31 - 1) (Hc : 0 <= carry < 256).

Lemma digit_0 : zlen (target_in 0 carry pre old) = targsize ->
  pton_rest (c :: s) (target_in 0 carry pre old) targsize (zlen pre) 0 =
    match old with
    | [] => Some (-1, target_in 0 carry pre old)
    | j :: old => pton_rest s (target_in 1 (4 * v) pre old) targsize (zlen pre) 1
    end.
Proof.
  unfold target_in, pton_rest. cbn [Z.eqb]. rewrite digit_scan, !zlen_app. change (zlen (@nil byte)) with 0. intros Hl.
  rewrite u64_id by zl. destruct old as [|j old'].
  - change (zlen (@nil byte)) with 0 in Hl. destruct (Z.leb_spec targsize (zlen pre)); [done|lia].
  - rewrite zlen_cons in Hl. destruct (Z.leb_spec targsize (zlen pre)); [zl|].
    change ([] ++ j :: old') with ([j] ++ old'). rewrite (store_at pre [j]) by done. sbind.
    by rewrite Z.shiftl_mul_pow2, Z.mul_comm by lia.
Qed.

Lemma digit_1 : carry mod 4 = 0 -> zlen (target_in 1 carry pre old) = targsize ->
  pton_rest (c :: s) (target_in 1 carry pre old) targsize (zlen pre) 1 =
    match old with
    | [] => Some (-1, target_in 1 carry pre old)
    | j :: old => let pre := pre ++ [z2b (carry + v / 16)] in
        pton_rest s (target_in 2 (v mod 16 * 16) pre old) targsize (zlen pre) 2
    end.
Proof.
  unfold target_in, pton_rest. cbn [Z.eqb Pos.eqb]. rewrite digit_scan, !zlen_app, zlen_1. intros Hk Hl.
  rewrite (u64_id (zlen pre)), u64_id by zl. destruct old as [|j old'].
  - change (zlen (@nil byte)) with 0 in Hl. destruct (Z.leb_spec targsize (zlen pre + 1)); [done|lia].
  - rewrite zlen_cons in Hl. destruct (Z.leb_spec targsize (zlen pre + 1)); [zl|].
    rewrite (proj1 (unfinished _ _ _ _)). sbind. rewrite (proj1 (proj2 (unfinished _ _ _ _))). sbind.
    rewrite (proj2 (proj2 (unfinished _ _ _ _))). sbind. rewrite int_ok_id by zl. sbind.
    rewrite Z.shiftr_div_pow2, (carry_lor 2 carry (carry / 4)) by (Z.to_euclidean_division_equations; lia).
    change 0x0f with (Z.ones 4). rewrite Z.land_ones, Z.shiftl_mul_pow2 by lia. by rewrite <- app_assoc.
Qed.

Lemma digit_2 : carry mod 16 = 0 -> zlen (target_in 2 carry pre old) = targsize ->
  pton_rest (c :: s) (target_in 2 carry pre old) targsize (zlen pre) 2 =
    match old with
    | [] => Some (-1, target_in 2 carry pre old)
    | j :: old => let pre := pre ++ [z2b (carry + v / 4)] in
        pton_rest s (target_in 3 (v mod 4 * 64) pre old) targsize (zlen pre) 3
    end.
Proof.
  unfold target_in, pton_rest. cbn [Z.eqb Pos.eqb]. rewrite digit_scan, !zlen_app, zlen_1. intros Hk Hl.
  rewrite (u64_id (zlen pre)), u64_id by zl. destruct old as [|j old'].
  - change (zlen (@nil byte)) with 0 in Hl. destruct (Z.leb_spec targsize (zlen pre + 1)); [done|lia].
  - rewrite zlen_cons in Hl. destruct (Z.leb_spec targsize (zlen pre + 1)); [zl|].
    rewrite (proj1 (unfinished _ _ _ _)). sbind. rewrite (proj1 (proj2 (unfinished _ _ _ _))). sbind.
    rewrite (proj2 (proj2 (unfinished _ _ _ _))). sbind. rewrite int_ok_id by zl. sbind.
    rewrite Z.shiftr_div_pow2, (carry_lor 4 carry (carry / 16)) by (Z.to_euclidean_division_equations; lia).
    change 0x03 with (Z.ones 2). rewrite Z.land_ones, Z.shiftl_mul_pow2 by lia. by rewrite <- app_assoc.
Qed.

Lemma digit_3 : carry mod 64 = 0 -> zlen (target_in 3 carry pre old) = targsize ->
  pton_rest (c :: s) (target_in 3 carry pre old) targsize (zlen pre) 3 =
    let pre := pre ++ [z2b (carry + v)] in
    pton_rest s (target_in 0 0 pre old) targsize (zlen pre) 0.
Proof.
  unfold target_in, pton_rest. cbn [Z.eqb Pos.eqb]. rewrite digit_scan, !zlen_app, zlen_1. intros Hk Hl.
  rewrite u64_id by zl. destruct (Z.leb_spec targsize (zlen pre)); [zl|].
  change ([z2b carry] ++ old) with (z2b carry :: old). rewrite rd_at by done. sbind.
  change (z2b carry :: old) with ([z2b carry] ++ old). rewrite (store_at pre [z2b carry]) by done. sbind.
  rewrite int_ok_id by zl. sbind. rewrite (carry_lor 6 carry (carry / 64)) by (Z.to_euclidean_division_equations; lia).
  by rewrite <- app_assoc.
Qed.
End Digit.

(** The decoder, from any state, on a text [s]. *)
Definition carry_ok (st carry : Z) : Prop :=
  0 <= carry < 256 /\ (st = 1 -> carry mod 4 = 0) /\ (st = 2 -> carry mod 16 = 0) /\ (st = 3 -> carry mod 64 = 0).

Lemma run_stop m targsize st carry pre old : 0 <= st < 4 ->
  zlen (target_in st carry pre old) = targsize ->
  decodes (b64_run st carry []) st pre targsize (pton_rest (x00 :: m) (target_in st carry pre old) targsize (zlen pre) st).
Proof.
  intros Hst Hl. rewrite rest_stop by reflexivity. unfold pton_end. rewrite byte_eqb_neq by done.
  cbn [b64_run]. destruct (Z.eqb_spec st 0) as [->|]; cbn [negb mbind option_bind]; [|by apply decodes_fail].
  eexists _, _. split; [done|]. split; [done|]. unfold target_in in *. rewrite !zlen_app in Hl.
  change (zlen (@nil byte)) with 0 in *. change (room_of 0 0) with 0. cbn [Z.eqb] in *. change (zlen (@nil byte)) with 0 in Hl.
  destruct (Z.leb_spec 0 (targsize - zlen pre)); [|zl]. split; [lia|]. by exists old.
Qed.

Lemma run_pad s m targsize st carry pre old : no_nul s -> 0 <= st < 4 -> carry_ok st carry ->
  zlen (target_in st carry pre old) = targsize ->
  decodes (b64_run st carry (Pad64 :: s)) st pre targsize
    (pton_rest (Pad64 :: s ++ x00 :: m) (target_in st carry pre old) targsize (zlen pre) st).
Proof.
  intros Hs Hst Hc Hl. rewrite rest_stop by reflexivity. unfold target_in in *.
  rewrite (pton_end_pad s m _ _ st (carry =? 0)); [|done..|].
  2:{ intros H2. destruct (Z.eqb_spec st 0); [lia|]. change ([z2b carry] ++ old) with (z2b carry :: old).
      rewrite rd_at by done. sbind. rewrite b2z_z2b_small by apply Hc. done. }
  sbind. cbn [b64_run]. rewrite isspace_pad, byte_eqb_refl.
  destruct (_ && (carry =? 0)) eqn:E; [|by apply decodes_fail].
  assert (st <> 0) by (intros ->; done). assert (Hst' : st = 2 \/ st = 3).
  { apply andb_prop in E as [E _]. apply orb_prop in E as [E|E]; apply andb_prop in E as [E _]; lia. }
  eexists _, _. split; [done|]. split; [done|]. change (zlen (@nil byte)) with 0.
  assert (Hroom : room_of st 0 = 1) by (destruct Hst' as [-> | ->]; done). rewrite Hroom.
  destruct (Z.eqb_spec st 0); [done|]. rewrite !zlen_app, zlen_1 in Hl.
  destruct (Z.leb_spec 1 (targsize - zlen pre)); [|zl]. split; [lia|]. by eexists.
Qed.

(** The room that is missing in front of a byte. *)
Lemma no_room st b (res : option bytes) n : n <= 1 ->
  st = 1 \/ st = 2 -> forall s, option_map (cons b) res = Some s -> n < room_of st (zlen s).
Proof.
  intros Hn Hst s H. destruct res as [s'|]; [|done]. injection H as <-. rewrite zlen_cons.
  destruct Hst as [-> | ->]; [rewrite (room_of_step 1 2) by zl|rewrite (room_of_step 2 3) by zl];
    match goal with |- context [room_of ?a ?b] => pose proof (room_of_pos a b ltac:(auto) ltac:(zl)) end; lia.
Qed.

Lemma decodes_run s m targsize : no_nul s -> targsize < 2 ^ 63 -> forall st carry pre old,
  0 <= st < 4 -> carry_ok st carry -> zlen (target_in st carry pre old) = targsize -> zlen pre + zlen s < 2 ^ 31 - 1 ->
  decodes (b64_run st carry s) st pre targsize (pton_rest (s ++ x00 :: m) (target_in st carry pre old) targsize (zlen pre) st).
Proof.
  intros Hs Hsz. induction s as [|c s IH]; intros st carry pre old Hst Hc Hl Hn; [by apply run_stop|].
  apply no_nul_cons in Hs as [Hcz Hs]. rewrite zlen_cons in Hn. cbn [app].
  specialize (IH Hs). destruct (char_cases c Hcz) as [Hsp _ _ E | -> E |v Hv Hr Hsp Hp E |Hsp Hv Hp E].
  - rewrite rest_space by done. cbn [b64_run]. rewrite Hsp. apply IH; try done. lia.
  - by apply run_pad.
  - rewrite (run_value _ _ _ _ v) by done. destruct Hc as (Hc & H1 & H2 & H3).
    assert (st = 0 \/ st = 1 \/ st = 2 \/ st = 3) as [-> | [-> | [-> | ->]]] by lia.
    + rewrite (digit_0 c v) by (done || zl). destruct old as [|j old].
      * apply decodes_fail; [done|]. intros out Ho. unfold target_in in Hl. cbn in Hl. rewrite app_nil_r in Hl.
        destruct out as [|x out]; [by apply run_1_nonempty in Ho|]. unfold room_of. cbn [Z.eqb]. rewrite zlen_cons.
        destruct (_ =? _); zl.
      * assert (Hd : decodes (b64_run 1 (4 * v) s) 1 pre targsize
          (pton_rest (s ++ x00 :: m) (target_in 1 (4 * v) pre old) targsize (zlen pre) 1)).
        { apply IH; [lia| |unfold target_in in *; cbn [Z.eqb Pos.eqb] in *; rewrite !zlen_app in *; zl|lia].
          split; [lia|]. split; [intros _|by split]. Z.to_euclidean_division_equations; lia. }
        exact Hd.
    + rewrite (digit_1 c v) by (auto || zl). destruct old as [|j old].
      * apply decodes_fail; [done|]. apply no_room; auto; try lia. unfold target_in in Hl. cbn [Z.eqb Pos.eqb] in Hl. rewrite zlen_app in Hl. change (zlen ([z2b carry] ++ [])) with 1 in Hl. lia.
      * apply (decodes_next 1 2); [intros; by apply room_of_step; auto|]. cbn zeta. apply IH; [lia| | |].
        -- split; [Z.to_euclidean_division_equations; lia|]. split; [done|]. split; [intros _; Z.to_euclidean_division_equations; lia|done].
        -- unfold target_in in *. cbn [Z.eqb Pos.eqb] in *. rewrite !zlen_app in *. zl.
        -- zl.
    + rewrite (digit_2 c v) by (auto || zl). destruct old as [|j old].
      * apply decodes_fail; [done|]. apply no_room; auto; try lia. unfold target_in in Hl. cbn [Z.eqb Pos.eqb] in Hl. rewrite zlen_app in Hl. change (zlen ([z2b carry] ++ [])) with 1 in Hl. lia.
      * apply (decodes_next 2 3); [intros; by apply room_of_step; auto|]. cbn zeta. apply IH; [lia| | |].
        -- split; [Z.to_euclidean_division_equations; lia|]. split; [done|]. split; [done|intros _; Z.to_euclidean_division_equations; lia].
        -- unfold target_in in *. cbn [Z.eqb Pos.eqb] in *. rewrite !zlen_app in *. zl.
        -- zl.
    + rewrite (digit_3 c v) by (auto || zl). apply (decodes_next 3 0); [intros; by apply room_of_step; auto|].
      cbn zeta. apply IH; [lia|by split| |zl]. unfold target_in in *. cbn [Z.eqb Pos.eqb] in *. rewrite !zlen_app in *. zl.
  - rewrite rest_invalid by done. cbn [b64_run]. rewrite Hsp, byte_eqb_neq, Hv by done. by apply decodes_fail.
Qed.

Lemma pton_do_spec s m target targsize : no_nul s -> zlen s < 2 ^ 31 - 1 -> zlen target = targsize -> targsize < 2 ^ 63 ->
  exists r target', mcommon_b64_pton (Some (s ++ x00 :: m)) (Some target) targsize = Some (r, Some target') /\
    zlen target' = targsize /\
    match b64_decode s with
    | Some out => if b64_room (zlen out) <=? targsize then r = zlen out /\ exists junk, target' = out ++ junk else r = -1
    | None => r = -1
    end.
Proof.
  intros Hs Hn Hl Hsz.
  destruct (decodes_run s m targsize Hs Hsz 0 0 [] target) as (r & target' & E & Hl' & Hr); try done.
  exists r, target'. unfold mcommon_b64_pton. rewrite initialize_rmap. sbind.
  change (mongoc_b64_pton_do b64rmap (s ++ x00 :: m) target targsize)
    with (pton_rest (s ++ x00 :: m) (target_in 0 0 [] target) targsize (zlen (@nil byte)) 0).
  rewrite E. split; [done|]. split; [done|]. unfold b64_decode. rewrite <- run_bytes by apply no_spaces_forall.
  rewrite <- run_no_spaces. destruct (b64_run 0 0 s) as [out|]; [|done].
  change (zlen (@nil byte)) with 0 in Hr. rewrite Z.sub_0_r in Hr. unfold room_of in Hr. cbn [Z.eqb] in Hr.
  rewrite Z.add_0_r in Hr. exact Hr.
Qed.

(** ** The length without decoding *)

Definition len_rest (src : bytes) (tarindex state : Z) : option Z :=
  stop ← pton_len_loop b64rmap src tarindex state;
  match stop with
  | Stop_invalid => Some (-1)
  | Stop_end ch src tarindex state => pton_end b64rmap (fun _ => Some true) ch src tarindex state
  end.

Lemma len_digit c v s tarindex st : char_class c = v -> 0 <= v < 64 -> 0 <= st < 4 -> 0 <= tarindex < 2 ^ 31 - 1 ->
  len_rest (c :: s) tarindex st = len_rest s (if st =? 0 then tarindex else tarindex + 1) ((st + 1) mod 4).
Proof.
  intros Hv Hr Hst Ht. unfold len_rest. cbn [pton_len_loop]. rewrite rmap_char, Hv. sbind. unfold mongoc_b64rmap_special.
  destruct (Z.leb_spec 0xf0 v); [lia|].
  assert (st = 0 \/ st = 1 \/ st = 2 \/ st = 3) as [-> | [-> | [-> | ->]]] by lia; [done|..];
    rewrite int_ok_id by lia; done.
Qed.

Lemma len_space c s tarindex st : char_class c = mongoc_b64rmap_space ->
  len_rest (c :: s) tarindex st = len_rest s tarindex st.
Proof. intros H. unfold len_rest. cbn [pton_len_loop]. by rewrite rmap_char, H. Qed.
Lemma len_stop c s tarindex st : char_class c = mongoc_b64rmap_end ->
  len_rest (c :: s) tarindex st = pton_end b64rmap (fun _ => Some true) c s tarindex st.
Proof. intros H. unfold len_rest. cbn [pton_len_loop]. by rewrite rmap_char, H. Qed.
Lemma len_invalid c s tarindex st : char_class c = mongoc_b64rmap_invalid ->
  len_rest (c :: s) tarindex st = Some (-1).
Proof. intros H. unfold len_rest. cbn [pton_len_loop]. by rewrite rmap_char, H. Qed.

(** It is -1 or a length, and the right one on every text that decodes. *)
Lemma len_run s m : no_nul s -> forall st carry tarindex,
  0 <= st < 4 -> 0 <= tarindex -> tarindex + zlen s < 2 ^ 31 - 1 ->
  exists r, len_rest (s ++ x00 :: m) tarindex st = Some r /\
    (r = -1 \/ 0 <= r <= tarindex + zlen s) /\
    forall out, b64_run st carry s = Some out -> r = tarindex + zlen out.
Proof.
  induction s as [|c s IH]; intros Hs st carry tarindex Hst Ht Hn.
  - cbn [app b64_run]. rewrite len_stop by reflexivity.
    change (pton_end b64rmap (fun _ => Some true) x00 m tarindex st) with (if negb (st =? 0) then Some (-1) else Some tarindex).
    destruct (Z.eqb_spec st 0); cbn [negb].
    + eexists. split; [done|]. split; [zl|]. intros out [= <-]. change (zlen (@nil byte)) with 0. lia.
    + exists (-1). split; [done|]. split; [by left|done].
  - apply no_nul_cons in Hs as [Hcz Hs]. rewrite zlen_cons in Hn. cbn [app].
    destruct (char_cases c Hcz) as [Hsp _ _ E | -> E |v Hv Hr Hsp Hp E |Hsp Hv Hp E].
    + destruct (IH Hs st carry tarindex Hst Ht ltac:(lia)) as (r & Hr & Hb & Ho). exists r.
      rewrite len_space by done. split; [exact Hr|]. rewrite zlen_cons. split; [lia|].
      cbn [b64_run]. by rewrite Hsp.
    + rewrite len_stop, (pton_end_pad s m _ _ st true) by done. cbn [b64_run]. rewrite isspace_pad, byte_eqb_refl, andb_true_r, zlen_cons.
      destruct (_ || _); [|exists (-1); split; [done|]; split; [by left|done]]. exists tarindex. split; [done|]. split; [zl|].
      intros out. destruct (_ && _); [|done]. intros [= <-]. change (zlen (@nil byte)) with 0. lia.
    + rewrite (len_digit c v) by (done || zl).
      destruct (IH Hs ((st + 1) mod 4) (match st with 0 => 4 * v | 1 => v mod 16 * 16 | 2 => v mod 4 * 64 | _ => 0 end)
        (if st =? 0 then tarindex else tarindex + 1)) as (r & Hr' & Hb & Ho);
        [by apply Z.mod_pos_bound|destruct (st =? 0); lia|destruct (st =? 0); lia|].
      exists r. split; [done|]. rewrite zlen_cons. split; [destruct (st =? 0); lia|]. intros out.
      rewrite (run_value _ _ _ _ v) by done.
      assert (st = 0 \/ st = 1 \/ st = 2 \/ st = 3) as [-> | [-> | [-> | ->]]] by lia; [exact (Ho out)|..];
        (destruct (b64_run _ _ s) as [out'|] eqn:Er; [|done]); cbn [option_map]; intros [= <-];
        rewrite zlen_cons, (Ho out') by done; cbn [Z.eqb Pos.eqb]; lia.
    + exists (-1). rewrite len_invalid by done. split; [done|]. split; [by left|].
      intros out. cbn [b64_run]. by rewrite Hsp, byte_eqb_neq, Hv by done.
Qed.

Lemma pton_len_spec s m targsize : no_nul s -> zlen s < 2 ^ 31 - 1 ->
  exists r, mcommon_b64_pton (Some (s ++ x00 :: m)) None targsize = Some (r, None) /\ -1 <= r <= zlen s /\
    forall out, b64_decode s = Some out -> r = zlen out.
Proof.
  intros Hs Hn. destruct (len_run s m Hs 0 0 0) as (r & E & Hb & Ho); try lia. exists r.
  unfold mcommon_b64_pton. rewrite initialize_rmap. sbind.
  change (mongoc_b64_pton_len b64rmap (s ++ x00 :: m)) with (len_rest (s ++ x00 :: m) 0 0). rewrite E.
  split; [done|]. split; [zl|]. unfold b64_decode. rewrite <- run_bytes by apply no_spaces_forall. by rewrite <- run_no_spaces.
Qed.

(** ** The encoder *)

Lemma b64_char_digit v : 0 <= v < 64 -> b64_char v = Some (b64_digit v).
Proof.
  intros Hv. replace v with (Z.of_nat (Z.to_nat v)) by lia.
  assert (H : Forall (fun i => b64_char (Z.of_nat i) = Some (b64_digit (Z.of_nat i))) (seq 0 64)) by (repeat constructor).
  rewrite Forall_forall in H. apply H. apply elem_of_seq. lia.
Qed.

Section Outputs.
Context (a b c : byte).
Let n := b2z a * 65536 + b2z b * 256 + b2z c.

Lemma b64_outputs :
  b64_char (output0 a) = Some (digit_of n 3) /\ b64_char (output1 a b) = Some (digit_of n 2) /\
  b64_char (output2 b c) = Some (digit_of n 1) /\ b64_char (output3 c) = Some (digit_of n 0).
Proof.
  pose proof (b2z_range a). pose proof (b2z_range b). pose proof (b2z_range c). subst n.
  unfold output0, output1, output2, output3, digit_of.
  change (64 ^ 3) with 262144. change (64 ^ 2) with 4096. change (64 ^ 1) with 64. change (64 ^ 0) with 1.
  change 0x03 with (Z.ones 2). change 0x0f with (Z.ones 4). change 0x3f with (Z.ones 6).
  rewrite !Z.land_ones, !Z.shiftl_mul_pow2, !Z.shiftr_div_pow2 by lia.
  change (2 ^ 2) with 4. change (2 ^ 4) with 16. change (2 ^ 6) with 64.
  rewrite !u8_id by (Z.to_euclidean_division_equations; lia).
  rewrite !b64_char_digit by (Z.to_euclidean_division_equations; lia).
  repeat split; do 2 f_equal; Z.to_euclidean_division_equations; lia.
Qed.
End Outputs.

(** Induction by groups of three. *)
Lemma triple_ind (P : bytes -> Prop) :
  P [] -> (forall a, P [a]) -> (forall a b, P [a; b]) -> (forall a b c s, P s -> P (a :: b :: c :: s)) -> forall s, P s.
Proof.
  intros H0 H1 H2 H3. induction s as [s IH] using (induction_ltof1 _ (@length byte)).
  destruct s as [|a [|b [|c s]]]; [done..|]. apply H3, IH. unfold ltof. cbn [length]. lia.
Qed.

Lemma zlen_text s : zlen (b64_text s) = 4 * ((zlen s + 2) / 3).
Proof.
  induction s as [|a|a b|a b c s IH] using triple_ind; [done..|]. cbn [b64_text]. rewrite zlen_app, IH, !zlen_cons.
  change (zlen (@nil byte)) with 0. Z.to_euclidean_division_equations. lia.
Qed.

Lemma ntop_size_spec n : 0 <= n < 2 ^ 60 -> mcommon_b64_ntop_calculate_target_size n = 4 * ((n + 2) / 3) + 1.
Proof.
  intros Hn. unfold mcommon_b64_ntop_calculate_target_size.
  rewrite (u64_id (n * 8)), (u64_id (n * 8 + 5)) by lia. set (k := (n * 8 + 5) / 6).
  assert (Hk : 6 * k <= n * 8 + 5 < 6 * k + 6) by (subst k; Z.to_euclidean_division_equations; lia). clearbody k.
  rewrite (u64_id (k + 3)) by lia. rewrite (u64_id (4 * _)) by (Z.to_euclidean_division_equations; lia).
  rewrite u64_id; Z.to_euclidean_division_equations; lia.
Qed.

Lemma pton_size_spec n : 0 <= n < 2 ^ 60 -> mcommon_b64_pton_calculate_target_size n = 6 * n / 8.
Proof.
  intros Hn. unfold mcommon_b64_pton_calculate_target_size. rewrite u64_id by lia. f_equal. lia.
Qed.

(** What is left of the encoding. *)
Definition ntop_rest (src : bytes) (srclength : Z) (target : bytes) (targsize datalength : Z) : option (Z * option bytes) :=
  '(r, target) ← ntop_loop src srclength target targsize datalength;
  match r with
  | None => Some (-1, Some target)
  | Some (src, srclength, datalength) =>
      '(r, target) ← ntop_pad src srclength target targsize datalength;
      match r with
      | None => Some (-1, Some target)
      | Some datalength =>
          if targsize <=? datalength then Some (-1, Some target)
          else target ← store target datalength [x00]; Some (s32 datalength, Some target)
      end
  end.

Definition encodes (pre text old : bytes) (targsize : Z) (out : option (Z * option bytes)) : Prop :=
  exists r target', out = Some (r, Some target') /\ zlen target' = targsize /\
    (if zlen pre + zlen text <? targsize
     then r = zlen pre + zlen text /\ target' = pre ++ text ++ [x00] ++ drop (S (length text)) old else r = -1).

(** A group that fits, and one that does not. *)
Lemma encodes_group pre g text old targsize out : zlen g = 4 -> zlen (pre ++ old) = targsize ->
  zlen g <= zlen old ->
  (forall old', old' = drop (length g) old -> encodes (pre ++ g) text old' targsize out) -> encodes pre (g ++ text) old targsize out.
Proof.
  intros Hg Hl Hfit H. destruct (H _ eq_refl) as (r & target' & -> & Hl' & Hr). exists r, target'. split; [done|]. split; [done|].
  rewrite zlen_app in *. rewrite Z.add_assoc. destruct (_ <? _); [|done]. destruct Hr as [-> ->]. split; [done|].
  rewrite drop_drop, <- !app_assoc, length_app.
  by replace (length g + S (length text))%nat with (S (length g + length text)) by lia.
Qed.

Lemma encodes_fail pre text old targsize target : zlen target = targsize -> targsize <= zlen pre + zlen text ->
  encodes pre text old targsize (Some (-1, Some target)).
Proof. intros Ht Hf. exists (-1), target. split; [done|]. split; [done|]. by destruct (Z.ltb_spec (zlen pre + zlen text) targsize); [lia|]. Qed.

(** The terminator. *)
Lemma encodes_end pre old targsize : zlen (pre ++ old) = targsize -> zlen pre < 2 ^ 31 ->
  encodes pre [] old targsize
    (if targsize <=? zlen pre then Some (-1, Some (pre ++ old))
     else target ← store (pre ++ old) (zlen pre) [x00]; Some (s32 (zlen pre), Some target)).
Proof.
  intros Hl Hp. pose proof (zlen_nonneg pre). destruct (Z.leb_spec targsize (zlen pre)); [apply encodes_fail; [done|zl]|].
  rewrite zlen_app in Hl. destruct old as [|j old]; [zl|]. change (j :: old) with ([j] ++ old).
  rewrite (store_at pre [j]) by done. sbind. rewrite s32_id by lia. eexists _, _. split; [done|].
  rewrite zlen_cons in Hl. split; [zl|]. change (zlen (@nil byte)) with 0. destruct (Z.ltb_spec (zlen pre + 0) targsize); [|lia].
  split; [lia|done].
Qed.

(** Writing a group. *)
Lemma store_group (pre g old : bytes) targsize : zlen g = 4 -> zlen (pre ++ old) = targsize -> targsize < 2 ^ 63 ->
  zlen pre < 2 ^ 31 ->
  if targsize <? u64 (zlen pre + 4) then targsize < zlen pre + 4
  else store (pre ++ old) (zlen pre) g = Some ((pre ++ g) ++ drop (length g) old) /\
       u64 (zlen pre + 4) = zlen (pre ++ g) /\ zlen ((pre ++ g) ++ drop (length g) old) = targsize /\ zlen g <= zlen old.
Proof.
  intros Hg Hl Hsz Hp. pose proof (zlen_nonneg pre). rewrite u64_id by lia. rewrite zlen_app in Hl.
  destruct (Z.ltb_spec targsize (zlen pre + 4)); [done|]. rewrite <- (take_drop (length g) old) at 1.
  assert (Hlt : zlen (take (length g) old) = zlen g) by (rewrite <- (to_nat_zlen g), zlen_take; zl).
  rewrite (store_at pre (take (length g) old)) by done. split; [by rewrite app_assoc|].
  rewrite !zlen_app. split; [lia|]. split; [|lia].
  rewrite <- (take_drop (length g) old), zlen_app in Hl. lia.
Qed.

(** The padded group. *)
Lemma encodes_pad s m targsize pre old : 0 < zlen s < 3 -> targsize < 2 ^ 63 ->
  zlen (pre ++ old) = targsize -> zlen pre + 4 < 2 ^ 31 ->
  encodes pre (b64_text s) old targsize (ntop_rest (s ++ m) (zlen s) (pre ++ old) targsize (zlen pre)).
Proof.
  intros Hs Hsz Hl Hn. unfold ntop_rest.
  assert (Hloop : ntop_loop (s ++ m) (zlen s) (pre ++ old) targsize (zlen pre) = Some (Some (s ++ m, zlen s, zlen pre), pre ++ old)).
  { destruct s as [|a s]; [change (zlen (@nil byte)) with 0 in Hs; lia|]. cbn [app ntop_loop]. destruct (Z.ltb_spec 2 (zlen (a :: s))); [lia|done]. }
  rewrite Hloop. sbind. unfold ntop_pad. rewrite slice_at_end_0 by done. sbind.
  destruct (Z.eqb_spec (zlen s) 0); [lia|]. cbn [negb].
  destruct (b64_outputs (nth 0 s x00) (nth 1 s x00) x00) as (H0 & H1 & H2 & _). rewrite H0, H1, H2. sbind.
  change (b2z x00) with 0. rewrite Z.add_0_r.
  set (g := [_; _; _; _]). pose proof (store_group pre g old targsize eq_refl Hl Hsz ltac:(lia)) as Hg.
  assert (Hg' : b64_text s = g).
  { destruct s as [|a [|b [|c s]]]; [done| | |rewrite !zlen_cons in Hs; zl]; subst g; cbn [b64_text nth];
      [|done]. change (b2z x00) with 0. by rewrite Z.add_0_r. }
  rewrite Hg'. destruct (targsize <? u64 (zlen pre + 4)).
  - sbind. apply encodes_fail; [done|]. change (zlen g) with 4. lia.
  - destruct Hg as (Hst & Hu & Hl' & Hfit). rewrite Hst. sbind. rewrite <- (app_nil_r g) at 1.
    apply encodes_group; try done. intros ? ->. rewrite Hu. apply encodes_end; [done|].
    rewrite zlen_app. change (zlen g) with 4. lia.
Qed.

Lemma encodes_run s m targsize : targsize < 2 ^ 63 -> forall pre old,
  zlen (pre ++ old) = targsize -> zlen pre + zlen (b64_text s) < 2 ^ 31 ->
  encodes pre (b64_text s) old targsize (ntop_rest (s ++ m) (zlen s) (pre ++ old) targsize (zlen pre)).
Proof.
  intros Hsz. induction s as [|a|a b|a b c s IH] using triple_ind; intros pre old Hl Hn.
  - pose proof (encodes_end pre old targsize Hl ltac:(zl)) as H. destruct m; exact H.
  - apply encodes_pad; try done; zl.
  - apply encodes_pad; try done; zl.
  - cbn [b64_text] in *. rewrite zlen_app in Hn. destruct (b64_outputs a b c) as (H0 & H1 & H2 & H3).
    set (g := [_; _; _; _]) in *. pose proof (store_group pre g old targsize eq_refl Hl Hsz ltac:(zl)) as Hg.
    unfold ntop_rest. cbn [app ntop_loop]. rewrite !zlen_cons. destruct (Z.ltb_spec 2 (1 + (1 + (1 + zlen s)))); [|zl].
    rewrite H0, H1, H2, H3. sbind. destruct (targsize <? u64 (zlen pre + 4)).
    + sbind. apply encodes_fail; [done|]. rewrite zlen_app. change (zlen g) with 4. zl.
    + destruct Hg as (Hst & Hu & Hl' & Hfit). fold g. rewrite Hst. sbind.
      apply encodes_group; try done. intros ? ->. rewrite Hu. replace (1 + (1 + (1 + zlen s)) - 3) with (zlen s) by lia.
      apply IH; [done|]. rewrite zlen_app. change (zlen g) with 4 in *. zl.
Qed.

Lemma ntop_do_spec s m target targsize : zlen target = targsize -> targsize < 2 ^ 63 -> zlen s < 2 ^ 30 ->
  exists r target', mcommon_b64_ntop (s ++ m) (zlen s) (Some target) targsize = Some (r, Some target') /\
    zlen target' = targsize /\
    (if mcommon_b64_ntop_calculate_target_size (zlen s) <=? targsize
     then r = zlen (b64_text s) /\ target' = b64_text s ++ [x00] ++ drop (S (length (b64_text s))) target
     else r = -1).
Proof.
  intros Hl Hsz Hn. pose proof (zlen_nonneg s).
  destruct (encodes_run s m targsize Hsz [] target) as (r & target' & E & Hl' & Hr); [done| |].
  { rewrite zlen_text. change (zlen (@nil byte)) with 0. Z.to_euclidean_division_equations. lia. }
  exists r, target'. split; [exact E|]. split; [done|]. rewrite ntop_size_spec, <- zlen_text by lia.
  change (zlen (@nil byte)) with 0 in Hr. rewrite Z.add_0_l in Hr.
  destruct (Z.ltb_spec (zlen (b64_text s)) targsize), (Z.leb_spec (zlen (b64_text s) + 1) targsize); done || lia.
Qed.

(** ** Round trip *)

Lemma digit_of_char n k : digit_of n k <> x00 /\ isspace (digit_of n k) = false /\ digit_of n k <> Pad64 /\
  b64_value (digit_of n k) = Some (n / 64 ^ k mod 64).
Proof.
  pose proof (Z.mod_pos_bound (n / 64 ^ k) 64 ltac:(lia)) as Hv. unfold digit_of. rewrite value_digit by done.
  destruct (value_class _ _ (value_digit _ Hv)) as (? & ? & ?). done.
Qed.

Lemma digit_of_pad n k : byte_eqb (digit_of n k) Pad64 = false.
Proof. apply byte_eqb_neq, digit_of_char. Qed.

Lemma b64_text_chars s : Forall (fun c => isspace c = false) (b64_text s) /\ no_nul (b64_text s).
Proof.
  assert (H : Forall (fun c => isspace c = false /\ c <> x00) (b64_text s)).
  { assert (Hd : forall n k, isspace (digit_of n k) = false /\ digit_of n k <> x00)
      by (intros n k; destruct (digit_of_char n k) as (? & ? & _); done).
    induction s as [|a|a b|a b c s IH] using triple_ind; cbn [b64_text app]; repeat (constructor; [done || apply Hd|]); done. }
  split; [by eapply Forall_impl; [exact H|intros c [? _]]|]. unfold no_nul. intros Hin. rewrite Forall_forall in H.
  by destruct (H _ Hin).
Qed.

Lemma z2b_is b z : z mod 256 = b2z b -> z2b z = b.
Proof. intros H. rewrite <- (z2b_b2z b). apply z2b_mod. rewrite H. by rewrite Z.mod_small by apply b2z_range. Qed.

Ltac bdigits := match goal with |- context [?a =? 0] => destruct (Z.eqb_spec a 0); [|Z.to_euclidean_division_equations; lia] end.

Lemma b64_bytes_text s : b64_bytes (b64_text s) = Some s.
Proof.
  assert (Hd : forall n k, b64_value (digit_of n k) = Some (n / 64 ^ k mod 64)) by (intros; apply digit_of_char).
  induction s as [|a|a b|a b c s IH] using triple_ind; [done|..]; pose proof (b2z_range a); cbn [b64_text app b64_bytes];
    rewrite !Hd; sbind; rewrite ?digit_of_pad, ?byte_eqb_refl, ?Hd; sbind; rewrite ?digit_of_pad, ?byte_eqb_refl, ?Hd; sbind;
    rewrite ?IH; change (64 ^ 3) with 262144; change (64 ^ 2) with 4096; change (64 ^ 1) with 64; change (64 ^ 0) with 1.
  - rewrite bool_decide_true by done. cbn [andb]. bdigits.
    by rewrite (z2b_is a) by (Z.to_euclidean_division_equations; lia).
  - pose proof (b2z_range b). rewrite bool_decide_true by done. cbn [andb]. bdigits.
    by rewrite (z2b_is a), (z2b_is b) by (Z.to_euclidean_division_equations; lia).
  - pose proof (b2z_range b). pose proof (b2z_range c). cbn [app].
    by rewrite (z2b_is a), (z2b_is b), (z2b_is c) by (Z.to_euclidean_division_equations; lia).
Qed.

Lemma b64_decode_text s : b64_decode (b64_text s) = Some s.
Proof. unfold b64_decode. rewrite no_spaces_id by apply b64_text_chars. apply b64_bytes_text. Qed.
