(* ===== verification/CodecTheorems.v ===== *)
(** The main results on base 64 text, digests, decimal floating point numbers and
    object identifiers. *)

From Stdlib Require Import Strings.String.
From stdpp Require Import relations.
From S2P Require Import Prelude CString Text IntEncode BigEndian Hex BsonOid BsonOidSpec Base64 Base64Spec Md5 Md5Spec.
From S2P Require Import Decimal128 Decimal128Spec Decimal128Read Decimal128Safe.

(** ** Base 64 *)

(** C32. Decoding is exact and stays within the target: on any string the decoder
    answers the number of bytes the text stands for, which begin the target, when it
    stands for any and the target has room for them ([b64_room]: one byte more than
    they are when the last group is padded), and -1 otherwise. *)
Theorem b64_decode_exact s m target :
  no_nul s -> zlen s < 2 ^ 31 - 1 -> zlen target < 2 ^ 63 ->
  exists r target', mcommon_b64_pton (Some (s ++ x00 :: m)) (Some target) (zlen target) = Some (r, Some target') /\
    zlen target' = zlen target /\
    match b64_decode s with
    | Some out => if b64_room (zlen out) <=? zlen target then r = zlen out /\ exists junk, target' = out ++ junk else r = -1
    | None => r = -1
    end.
Proof. intros. by apply pton_do_spec. Qed.

Lemma b64_decode_exact_sample :
  exists r target', mcommon_b64_pton (Some (lit " Zm 9v YmE=")) (Some (zeros 8)) 8 = Some (r, Some target') /\
    r = 5 /\ exists junk, target' = txt "fooba" ++ junk.
Proof.
  destruct (b64_decode_exact (txt " Zm 9v YmE=") [] (zeros 8)) as (r & target' & E & _ & H); [by apply no_nulb_spec|done..|].
  exists r, target'. split; [exact E|]. exact H.
Defined.

(** Encoding is exact and stays within the target: with room for
    [mcommon_b64_ntop_calculate_target_size] bytes, the target holds the text and its
    terminator and nothing else of it changes; with less the answer is -1. *)
Theorem b64_encode_exact s m target :
  zlen s < 2 ^ 30 -> zlen target < 2 ^ 63 ->
  exists r target', mcommon_b64_ntop (s ++ m) (zlen s) (Some target) (zlen target) = Some (r, Some target') /\
    zlen target' = zlen target /\
    (if mcommon_b64_ntop_calculate_target_size (zlen s) <=? zlen target
     then r = zlen (b64_text s) /\ target' = b64_text s ++ [x00] ++ drop (S (length (b64_text s))) target
     else r = -1).
Proof. intros. by apply ntop_do_spec. Qed.

Lemma b64_encode_exact_sample :
  exists r target', mcommon_b64_ntop (txt "fooba") 5 (Some (zeros 9)) 9 = Some (r, Some target') /\ r = 8 /\ target' = lit "Zm9vYmE=".
Proof.
  destruct (b64_encode_exact (txt "fooba") [] (zeros 9)) as (r & target' & E & _ & H); [done..|].
  exists r, target'. split; [exact E|]. exact H.
Defined.

(** C33. What is encoded into a buffer of the size [mcommon_b64_ntop_calculate_target_size]
    gives decodes, into one of the size [mcommon_b64_pton_calculate_target_size] gives
    for the text, to the same bytes; and asked for the length alone the decoder
    answers it. The source has fewer than [2 ^ 30] bytes, so that the lengths are [int]s. *)
Theorem b64_roundtrip (malloc : Z -> bytes) s :
  (forall n, 0 <= n -> zlen (malloc n) = n) -> zlen s < 2 ^ 30 ->
  let n := mcommon_b64_ntop_calculate_target_size (zlen s) in
  exists text, mcommon_b64_ntop s (zlen s) (Some (malloc n)) n = Some (n - 1, Some text) /\
    let k := mcommon_b64_pton_calculate_target_size (n - 1) in
    (exists junk, mcommon_b64_pton (Some text) (Some (malloc k)) k = Some (zlen s, Some (s ++ junk))) /\
    mcommon_b64_pton (Some text) None 0 = Some (zlen s, None).
Proof.
  intros Hm Hs n. pose proof (zlen_nonneg s). assert (Hn : n = zlen (b64_text s) + 1)
    by (subst n; rewrite ntop_size_spec, zlen_text by lia; done).
  pose proof (zlen_text s) as Ht. destruct (b64_text_chars s) as [_ Hnul].
  destruct (ntop_do_spec s [] (malloc n) n) as (r & text & E & Hl & Hr); [apply Hm; zl|..];
    [rewrite Hn, Ht; Z.to_euclidean_division_equations; lia|done|].
  rewrite app_nil_r in E. fold n in Hr. rewrite Z.leb_refl in Hr. destruct Hr as [-> Htext].
  rewrite (drop_ge (malloc n)) in Htext; [|pose proof (Hm n ltac:(zl)) as Hz; unfold zlen in *; lia]. rewrite app_nil_r in Htext.
  exists text. rewrite Hn, Z.add_simpl_r in *. split; [exact E|]. intros k. rewrite Htext.
  assert (Hk : k = 6 * zlen (b64_text s) / 8).
  { subst k. apply pton_size_spec. rewrite Ht. Z.to_euclidean_division_equations. lia. }
  assert (Hlen : zlen (b64_text s) < 2 ^ 31 - 1) by (rewrite Ht; Z.to_euclidean_division_equations; lia).
  split.
  - destruct (pton_do_spec (b64_text s) [] (malloc k) k) as (r & target' & E' & Hl' & Hr); [done..| | |];
      [apply Hm; rewrite Hk; Z.to_euclidean_division_equations; zl|rewrite Hk; Z.to_euclidean_division_equations; zl|].
    rewrite b64_decode_text in Hr. replace (b64_room (zlen s) <=? k) with true in Hr.
    { destruct Hr as [-> [junk ->]]. exists junk. exact E'. }
    symmetry. apply Z.leb_le. rewrite Hk, Ht. unfold b64_room. destruct (Z.eqb_spec (zlen s mod 3) 0); Z.to_euclidean_division_equations; lia.
  - destruct (pton_len_spec (b64_text s) [] 0 Hnul Hlen) as (r & E' & _ & Hr). rewrite (Hr s) in E' by apply b64_decode_text. exact E'.
Qed.

Lemma b64_roundtrip_sample :
  let n := mcommon_b64_ntop_calculate_target_size 6 in
  exists text, mcommon_b64_ntop (txt "foobar") 6 (Some (zeros n)) n = Some (n - 1, Some text) /\
    let k := mcommon_b64_pton_calculate_target_size (n - 1) in
    (exists junk, mcommon_b64_pton (Some text) (Some (zeros k)) k = Some (6, Some (txt "foobar" ++ junk))) /\
    mcommon_b64_pton (Some text) None 0 = Some (6, None).
Proof. apply (b64_roundtrip zeros (txt "foobar") zlen_zeros). done. Defined.

(** A buffer of the length answered without decoding is too small for a text with
    padding, and the length is answered for texts that do not decode. *)
Lemma b64_exact_length_fails :
  mcommon_b64_pton (Some (lit "Zg==")) None 0 = Some (1, None) /\
  mcommon_b64_pton (Some (lit "Zg==")) (Some (zeros 1)) 1 = Some (-1, Some (txt "d")) /\
  mcommon_b64_pton (Some (lit "Zm==")) None 0 = Some (1, None) /\
  mcommon_b64_pton (Some (lit "Zm==")) (Some (zeros 8)) 8 = Some (-1, Some (bs [102; 96; 0; 0; 0; 0; 0; 0])).
Proof. vm_compute. done. Qed.

(** ** MD5 *)

(** A message given in any pieces of at most [2^32 - 64] bytes has the digest of
    RFC 1321. *)
Theorem md5_streams junk pieces :
  zlen junk = 64 -> Forall md5_piece pieces ->
  (pms ← md5_appends (mcommon_md5_init junk) pieces; mcommon_md5_finish pms) = Some (md5_digest (concat pieces)).
Proof.
  intros Hj Hp. destruct (md5_appends_ok pieces _ [] (md5_init_ok junk Hj) Hp) as (pms & -> & H).
  sbind. by apply md5_finish_ok.
Qed.

Lemma md5_streams_sample :
  (pms ← md5_appends (mcommon_md5_init (zeros 64)) [txt "message"; []; txt " digest"]; mcommon_md5_finish pms) =
  Some (bs [0xf9; 0x6b; 0x69; 0x7d; 0x7c; 0xb7; 0x93; 0x8d; 0x52; 0x5a; 0x2f; 0x31; 0xaa; 0xf1; 0x61; 0xd0]).
Proof.
  rewrite (md5_streams (zeros 64) [txt "message"; []; txt " digest"]); [vm_compute; reflexivity|done|].
  repeat constructor; by vm_compute.
Defined.

(** ** Decimal floating point *)

(** C27. For any 128 bits the text and its terminator fit in the 43 bytes, and the text
    is the number's, unless its coefficient is one of those from 10^34 on that have
    113 bits. *)
Theorem decimal_to_string_exact d str :
  dec_ok d -> zlen str = BSON_DECIMAL128_STRING ->
  exists t junk, bson_decimal128_to_string d str = Some (t ++ x00 :: junk) /\
    zlen t + 1 + zlen junk = BSON_DECIMAL128_STRING /\ no_nul t /\
    (dec_canonical d -> t = dec_text (dec_value d)).
Proof.
  intros Hd Hz. destruct (to_string_prints d str Hd Hz) as (t & junk & E & Hl & Ha%ascii_no_nul & Ht). by exists t, junk.
Qed.

Lemma decimal_to_string_exact_sample :
  exists junk, bson_decimal128_to_string (Decimal128 0x302c000000000000 5) (zeros 43) = Some (txt "5E-10" ++ x00 :: junk).
Proof.
  destruct (decimal_to_string_exact (Decimal128 0x302c000000000000 5) (zeros 43)) as (t & junk & E & _ & _ & H);
    [by split; vm_compute|done|].
  exists junk. rewrite E. rewrite H by (right; vm_compute; done). reflexivity.
Defined.

(** Those have 35 digits, and are printed although they stand for zero. *)
Lemma decimal_35_digits :
  dec_value (Decimal128 0x3041ed09bead87c0 0x378d8e6400000000) = DFinite false 0 0 /\
  exists junk, bson_decimal128_to_string (Decimal128 0x3041ed09bead87c0 0x378d8e6400000000) (zeros 43) =
    Some (lit "10000000000000000000000000000000000" ++ junk).
Proof. split; [reflexivity|]. exists (zeros 7). vm_compute. reflexivity. Qed.

(** C26. Reading back the text of a number gives the number: the encoding of its value
    that has no non-canonical bits. The coefficient is below [10 ^ 34] ([dec_canonical]);
    the 113-bit ones from there on stand for zero but are printed with their digits
    ([decimal_35_digits]). *)
Theorem decimal_roundtrip d str :
  dec_ok d -> dec_canonical d -> zlen str = BSON_DECIMAL128_STRING ->
  (str ← bson_decimal128_to_string d str; bson_decimal128_from_string str) = Some (true, dec_bits (dec_value d)) /\
  dec_value (dec_bits (dec_value d)) = dec_value d.
Proof.
  intros Hd Hc Hz. destruct (to_string_prints d str Hd Hz) as (t & junk & -> & _ & _ & Ht). sbind.
  rewrite (Ht Hc). pose proof (dec_value_ok d Hd). split; [by apply from_string_text|by apply dec_value_bits].
Qed.

Lemma decimal_roundtrip_sample :
  (str ← bson_decimal128_to_string (Decimal128 0xb03c000000000000 12345) (zeros 43); bson_decimal128_from_string str) =
  Some (true, Decimal128 0xb03c000000000000 12345).
Proof.
  destruct (decimal_roundtrip (Decimal128 0xb03c000000000000 12345) (zeros 43)) as [E _];
    [by split; vm_compute|right; vm_compute; done|done|]. exact E.
Defined.

(** C28. On any string of less than 2^31 - 2^14 - 1 characters the parser answers, reads
    nothing past the terminator, and its arithmetic does not overflow. *)
Theorem decimal_from_string_safe s :
  zlen s < 2 ^ 31 - 2 ^ 14 - 1 -> is_Some (bson_decimal128_from_string (s ++ [x00])).
Proof. apply from_string_total. Qed.

Lemma decimal_from_string_safe_sample : is_Some (bson_decimal128_from_string (txt "-00.00120e-7000" ++ [x00])).
Proof. apply (decimal_from_string_safe (txt "-00.00120e-7000")). by vm_compute. Defined.

(** Inexact numbers are refused, but not all of those with leading zeros: the digits
    past the thirty-fourth are looked up as if there were none. *)
Lemma decimal_leading_zeros :
  bson_decimal128_from_string (lit "100000000000000000000000000000000001") = Some dec_failed /\
  bson_decimal128_from_string (lit "00100000000000000000000000000000000001") =
    Some (true, dec_bits (DFinite false (10 ^ 33) 2)).
Proof. split; vm_compute; reflexivity. Qed.

(** ** Object identifiers *)

(** The text of an identifier is valid and is read back as the identifier; a valid
    text's identifier is written back as the text in lower case. *)
Theorem oid_text_roundtrip oid s buf buf' old post :
  zlen oid = 12 -> zlen s = 24 -> zlen buf = 25 -> zlen buf' = 25 -> zlen old = 12 ->
  (exists text, bson_oid_to_string oid buf = Some text /\ zlen text = 25 /\
    bson_oid_is_valid text 24 = Some true /\ bson_oid_is_valid text 25 = Some true /\
    bson_oid_init_from_string old text = Some oid) /\
  (bson_oid_is_valid (s ++ post) 24 = Some true ->
   exists id, bson_oid_init_from_string old (s ++ post) = Some id /\
     bson_oid_to_string id buf' = Some (map tolower s ++ [x00])).
Proof.
  intros Ho Hs Hb Hb' Hold. assert (Hvalid : forall t r, zlen t = 24 ->
    bson_oid_is_valid (t ++ r) 24 = Some (forallb is_hex_char t)).
  { intros t r Ht. rewrite oid_valid_spec by zl. cbn [Z.eqb Pos.eqb orb andb].
    replace (take 24 (t ++ r)) with t; [done|]. rewrite take_app_le, take_ge by (unfold zlen in Ht; lia). done. }
  split.
  - exists (hex_text oid ++ [x00]). pose proof (oid_to_string_spec oid [] buf [] Ho Hb) as E. rewrite !app_nil_r in E.
    assert (Hl : zlen (hex_text oid) = 24) by (rewrite zlen_hex_text; lia).
    assert (Hh : forallb is_hex_char (hex_text oid) = true) by apply hex_text_digits.
    split; [exact E|]. split; [rewrite zlen_app, Hl; done|]. split; [by rewrite Hvalid, Hh|].
    split; [by rewrite oid_valid_terminated, Hh|].
    pose proof (oid_from_string_spec (hex_text oid) [x00] old [] Hl Hold) as E'. by rewrite !app_nil_r, oid_of_hex_text in E'.
  - rewrite Hvalid by done. intros [= Hh]. exists (oid_of_text s).
    pose proof (oid_from_string_spec s post old [] Hs Hold) as E. rewrite !app_nil_r in E. split; [exact E|].
    pose proof (oid_to_string_spec (oid_of_text s) [] buf' []) as E'. rewrite !app_nil_r in E'.
    rewrite (hex_text_of_text 12 s Hs Hh) in E'. apply E'; [|done].
    pose proof (f_equal zlen (hex_text_of_text 12 s Hs Hh)) as Hz. rewrite zlen_hex_text, zlen_map in Hz. lia.
Qed.

Lemma oid_text_roundtrip_sample :
  (exists text, bson_oid_to_string (bs [1; 2; 3; 4; 5; 6; 7; 8; 9; 10; 11; 255]) (zeros 25) = Some text /\ zlen text = 25 /\
    bson_oid_is_valid text 24 = Some true /\ bson_oid_is_valid text 25 = Some true /\
    bson_oid_init_from_string (zeros 12) text = Some (bs [1; 2; 3; 4; 5; 6; 7; 8; 9; 10; 11; 255])) /\
  (exists id, bson_oid_init_from_string (zeros 12) (lit "0123456789abcdefABCDEF99") = Some id /\
    bson_oid_to_string id (zeros 25) = Some (lit "0123456789abcdefabcdef99")).
Proof.
  destruct (oid_text_roundtrip (bs [1; 2; 3; 4; 5; 6; 7; 8; 9; 10; 11; 255]) (txt "0123456789abcdefABCDEF99")
    (zeros 25) (zeros 25) (zeros 12) [x00]) as [H1 H2]; [reflexivity..|].
  split; [exact H1|]. destruct H2 as (id & E1 & E2); [vm_compute; reflexivity|]. exists id. split; [exact E1|exact E2].
Defined.

(** A new identifier is the time, the context's randomness and its counter; the
    counter moves on, and [bson_oid_get_time_t] answers the time, as 32 bits. With
    the process identifier cached nothing else of the context changes. *)
Theorem oid_init_layout env g junk c :
  host_ok env -> zlen junk = 12 -> context_ok c ->
  exists c' g', bson_oid_init env g junk (Some c) = Some (oid_layout (h_time env) (c_randomness c') (c_seq32 c), Some c', g') /\
    bson_oid_get_time_t (oid_layout (h_time env) (c_randomness c') (c_seq32 c)) = Some (u32 (h_time env)) /\
    context_ok c' /\ c_seq32 c' = u32 (c_seq32 c + 1) /\
    (Z.land (c_flags c) BSON_CONTEXT_DISABLE_PID_CACHE = 0 -> c_randomness c' = c_randomness c).
Proof.
  intros Hh Hj Hc. destruct (oid_init_spec env g junk c Hh Hj Hc) as (c' & g' & E & Hc' & Hs & _ & _ & Hr).
  exists c', g'. split; [done|]. pose proof (get_time_layout (h_time env) (c_randomness c') (c_seq32 c) []) as Ht.
  rewrite app_nil_r in Ht. done.
Qed.

Definition sample_context : bson_context_t := Context_ BSON_CONTEXT_NONE (2 ^ 32 - 1) 0 (bs [1; 2; 3; 4; 5]) 4321.

Lemma sample_context_ok : context_ok sample_context.
Proof. split; [cbn; lia|done]. Qed.

Lemma oid_init_layout_sample :
  exists c' g', bson_oid_init sample_host globals_init (zeros 12) (Some sample_context) =
      Some (bs [0x65; 0x43; 0x21; 0; 1; 2; 3; 4; 5; 255; 255; 255], Some c', g') /\ c_seq32 c' = 0.
Proof.
  destruct (oid_init_layout sample_host globals_init (zeros 12) sample_context) as (c' & g' & E & _ & _ & Hs & Hr);
    [done|done|exact sample_context_ok|]. exists c', g'. rewrite E. specialize (Hr eq_refl). split; [|exact Hs].
  rewrite Hr. reflexivity.
Defined.

(** C25. Threads that make identifiers on one context, in whatever order their steps
    are taken and whatever the system answers, make distinct ones, up to 2^24 of
    them. *)
Theorem oids_distinct c n m :
  context_ok c -> rtc oid_step (Machine c n ∅ []) m -> zlen (m_made m) <= 2 ^ 24 -> NoDup (m_made m).
Proof.
  intros Hc Hsteps. apply (machine_ok_nodup (c_seq32 c)).
  assert (H0 : machine_ok (c_seq32 c) (Machine c n ∅ [])).
  { constructor; cbn [m_context m_made m_threads]; [done| |apply map_Forall_empty|done].
    change (zlen (@nil bytes)) with 0. rewrite Z.add_0_r, u32_id by apply Hc. done. }
  revert H0. induction Hsteps as [|m1 m2 m3 H1 _ IH]; [done|]. intros H0. by apply IH, (oid_step_ok _ m1).
Qed.

(** Two threads overtaking each other, the counter wrapping around. *)
Definition sample_schedule : list oid_event :=
  [Ev_time 1 0x65432100; Ev_time 2 0x65432100; Ev_rand 2 sample_host; Ev_rand 1 sample_host; Ev_seq 2; Ev_seq 1;
   Ev_time 2 0x65432101; Ev_rand 2 sample_host; Ev_seq 2].
Definition sample_end : machine := default (Machine sample_context 0 ∅ []) (oid_run sample_schedule (Machine sample_context 0 ∅ [])).

Lemma oids_distinct_sample : zlen (m_made sample_end) = 3 /\ NoDup (m_made sample_end).
Proof.
  split; [vm_compute; reflexivity|]. apply (oids_distinct sample_context 0 sample_end); [exact sample_context_ok| |].
  - apply (oid_run_steps sample_schedule). vm_compute. reflexivity.
  - vm_compute. discriminate.
Defined.
