(* ===== verification/Calendar.v ===== *)
(** The calendar functions of the C library the code calls: [gmtime] and the
    [strftime] conversions of a date, in the proleptic Gregorian calendar. *)

From Stdlib Require Import Strings.String.
From S2P Require Import Prelude CString Text.

(** [struct tm], without the fields the code does not print. *)
Record tm := Tm { tm_year : Z; tm_mon : Z; tm_mday : Z; tm_hour : Z; tm_min : Z; tm_sec : Z }.

(** ** Days *)

(** The day [doe] of a period of 400 years that starts on 1 March: the year of
    the period, the month counted from March, and the day of the month. *)
Definition year_of_era (doe : Z) : Z := (doe - doe / 1460 + doe / 36524 - doe / 146096) / 365.
Definition day_of_year (doe : Z) : Z :=
  let yoe := year_of_era doe in doe - (365 * yoe + yoe / 4 - yoe / 100).
Definition month_from_march (doe : Z) : Z := (5 * day_of_year doe + 2) / 153.
Definition day_of_month (doe : Z) : Z := day_of_year doe - (153 * month_from_march doe + 2) / 5 + 1.

(** The year, month (1 to 12) and day of a day counted from 1 January 1970. *)
Definition civil_from_days (days : Z) : Z * Z * Z :=
  let z := days + 719468 in
  let era := z / 146097 in
  let doe := z mod 146097 in
  let mp := month_from_march doe in
  let month := if mp <? 10 then mp + 3 else mp - 9 in
  (400 * era + year_of_era doe + (if month <=? 2 then 1 else 0), month, day_of_month doe).

(** [gmtime], which fails when the year does not fit in an [int]. *)
Definition gmtime (t : Z) : option tm :=
  let days := t / 86400 in
  let rem := t mod 86400 in
  let '(y, m, d) := civil_from_days days in
  let year := y - 1900 in
  if (- 2 ^ 31 <=? year) && (year <? 2 ^ 31)
  then Some (Tm year (m - 1) d (rem / 3600) (rem / 60 mod 60) (rem mod 60))
  else None.

(** ** Formats *)

(** [%d] and [%02d]. *)
Definition sdec (z : Z) : bytes := if z <? 0 then [z2b 45] ++ dec (- z) else dec z.
Definition dec02 (z : Z) : bytes := [z2b (48 + z / 10); z2b (48 + z mod 10)].

(** ["%FT%T%z"] for a time in UTC. The year is printed as the decimal number
    [%Y] is; libraries that pad it to four digits agree from the year 1000 on. *)
Definition strftime_FTz (t : tm) : bytes :=
  sdec (tm_year t + 1900) ++ txt "-" ++ dec02 (tm_mon t + 1) ++ txt "-" ++ dec02 (tm_mday t) ++ txt "T" ++
  dec02 (tm_hour t) ++ txt ":" ++ dec02 (tm_min t) ++ txt ":" ++ dec02 (tm_sec t) ++ txt "+0000".

(** ** The calendar *)

Definition leap (y : Z) : bool := (y mod 4 =? 0) && (negb (y mod 100 =? 0) || (y mod 400 =? 0)).
Definition days_in_month (y m : Z) : Z :=
  if m =? 2 then (if leap y then 29 else 28)
  else if (m =? 4) || (m =? 6) || (m =? 9) || (m =? 11) then 30 else 31.

(** The day a date is, counted from 1 January 1970. *)
Definition days_from_civil (y m d : Z) : Z :=
  let y' := if m <=? 2 then y - 1 else y in
  let mp := if 2 <? m then m - 3 else m + 9 in
  let yoe := y' mod 400 in
  (y' / 400) * 146097 + (yoe * 365 + yoe / 4 - yoe / 100 + ((153 * mp + 2) / 5 + d - 1)) - 719468.

(** The seconds since the epoch of a broken-down time. *)
Definition seconds_of (t : tm) : Z :=
  days_from_civil (tm_year t + 1900) (tm_mon t + 1) (tm_mday t) * 86400 +
  tm_hour t * 3600 + tm_min t * 60 + tm_sec t.

Definition valid_tm (t : tm) : Prop :=
  0 <= tm_mon t <= 11 /\ 1 <= tm_mday t <= days_in_month (tm_year t + 1900) (tm_mon t + 1) /\
  0 <= tm_hour t < 24 /\ 0 <= tm_min t < 60 /\ 0 <= tm_sec t < 60.

(** The first and the last day of a year of the period. *)
Definition year_start (y : Z) : Z := 365 * y + y / 4 - y / 100.
Definition year_last (y : Z) : Z := if y =? 399 then 146096 else year_start (y + 1) - 1.

(** The years of a period, and the days of a year, checked one by one. *)
Definition year_ok (y : Z) : bool :=
  (year_of_era (year_start y) =? y) && (year_of_era (year_last y) =? y) &&
  (year_last y - year_start y =? (if leap (y + 1) then 365 else 364)).

Definition doy_ok (doy : Z) : bool :=
  let mp := (5 * doy + 2) / 153 in
  let d := doy - (153 * mp + 2) / 5 + 1 in
  let m := if mp <? 10 then mp + 3 else mp - 9 in
  (0 <=? mp) && (mp <? 12) && (1 <=? d) &&
  (d <=? (if m =? 2 then (if doy =? 365 then 29 else 28) else days_in_month 0 m)).

Fixpoint upto (ok : Z -> bool) (count : nat) : bool :=
  match count with O => true | S count' => ok (Z.of_nat count') && upto ok count' end.

Lemma upto_spec ok n z : upto ok n = true -> 0 <= z < Z.of_nat n -> ok z = true.
Proof.
  induction n as [|n IH]; intros H Hz; [lia|]. cbn [upto] in H. apply andb_true_iff in H as [H1 H2].
  destruct (decide (z = Z.of_nat n)) as [->|]; [done|]. apply IH; [done|lia].
Qed.

Lemma year_all y : 0 <= y < 400 -> year_ok y = true.
Proof. apply (upto_spec _ 400). vm_compute. reflexivity. Qed.
Lemma doy_all doy : 0 <= doy < 366 -> doy_ok doy = true.
Proof. apply (upto_spec _ 366). vm_compute. reflexivity. Qed.

Lemma year_of_era_mono a b : 0 <= a <= b -> b < 146097 -> year_of_era a <= year_of_era b.
Proof. intros. unfold year_of_era. apply Z.div_le_mono; [lia|]. Z.to_euclidean_division_equations. lia. Qed.

(** Every day of the period is in one of its years. *)
Lemma year_exists n doe : (n < 400)%nat -> 0 <= doe <= year_last (Z.of_nat n) ->
  exists y, 0 <= y < 400 /\ year_start y <= doe <= year_last y.
Proof.
  induction n as [|n IH]; intros Hn Hd; [by exists 0|].
  destruct (Z_le_gt_dec (year_start (Z.of_nat (S n))) doe); [exists (Z.of_nat (S n)); lia|].
  apply IH; [lia|]. unfold year_last. destruct (Z.eqb_spec (Z.of_nat n) 399); [lia|].
  replace (Z.of_nat n + 1) with (Z.of_nat (S n)) by lia. lia.
Qed.

Lemma era_day doe : 0 <= doe < 146097 ->
  0 <= year_of_era doe < 400 /\ 0 <= day_of_year doe <= 365 /\
  (day_of_year doe = 365 -> leap (year_of_era doe + 1) = true).
Proof.
  intros Hd. destruct (year_exists 399 doe) as (y & Hy & Hs); [lia|change (year_last (Z.of_nat 399)) with 146096; lia|].
  pose proof (year_all y Hy) as H. unfold year_ok in H. rewrite !andb_true_iff, !Z.eqb_eq in H. destruct H as [[H1 H2] H3].
  assert (Hl : year_last y < 146097 /\ 0 <= year_start y).
  { unfold year_last, year_start. destruct (Z.eqb_spec y 399); Z.to_euclidean_division_equations; lia. }
  pose proof (year_of_era_mono (year_start y) doe ltac:(lia) ltac:(lia)).
  pose proof (year_of_era_mono doe (year_last y) ltac:(lia) ltac:(lia)).
  assert (E : year_of_era doe = y) by lia. unfold day_of_year. rewrite E. unfold year_start in *.
  destruct (leap (y + 1)); split; try lia; split; try lia; done.
Qed.

Lemma leap_era y k : leap (400 * k + y) = leap y.
Proof.
  unfold leap. replace ((400 * k + y) mod 4) with (y mod 4) by (Z.to_euclidean_division_equations; lia).
  replace ((400 * k + y) mod 100) with (y mod 100) by (Z.to_euclidean_division_equations; lia).
  by replace ((400 * k + y) mod 400) with (y mod 400) by (Z.to_euclidean_division_equations; lia).
Qed.

Lemma civil_from_days_spec days :
  let '(y, m, d) := civil_from_days days in
  1 <= m <= 12 /\ 1 <= d <= days_in_month y m /\ days_from_civil y m d = days.
Proof.
  unfold civil_from_days. set (z := days + 719468). set (doe := z mod 146097). set (era := z / 146097).
  pose proof (Z.mod_pos_bound z 146097 ltac:(lia)) as Hdoe. destruct (era_day doe Hdoe) as (Hy & Hdoy & Hleap).
  pose proof (doy_all (day_of_year doe) ltac:(lia)) as H. unfold doy_ok in H.
  unfold day_of_month. change ((5 * day_of_year doe + 2) / 153) with (month_from_march doe) in H.
  set (mp := month_from_march doe) in *. set (doy := day_of_year doe) in *. set (yoe := year_of_era doe) in *.
  set (m := if mp <? 10 then mp + 3 else mp - 9) in *.
  rewrite !andb_true_iff, !Z.leb_le, Z.ltb_lt in H. destruct H as [[[Hm1 Hm2] Hd1] Hd2].
  assert (Hm : (mp < 10 /\ m = mp + 3 \/ 10 <= mp /\ m = mp - 9)) by (subst m; destruct (Z.ltb_spec mp 10); lia).
  split; [lia|]. split.
  - split; [done|]. etransitivity; [exact Hd2|]. unfold days_in_month.
    destruct (Z.eqb_spec m 2) as [->|]; [|done]. cbn [Z.leb Z.compare Pos.compare Pos.compare_cont].
    rewrite <- Z.add_assoc, leap_era. destruct (Z.eqb_spec doy 365) as [E|]; [by rewrite Hleap|]. destruct (leap _); lia.
  - unfold days_from_civil.
    assert (E1 : (if m <=? 2 then 400 * era + yoe + (if m <=? 2 then 1 else 0) - 1
                  else 400 * era + yoe + (if m <=? 2 then 1 else 0)) = 400 * era + yoe) by (destruct (Z.leb_spec m 2); lia).
    assert (E2 : (if 2 <? m then m - 3 else m + 9) = mp) by (destruct (Z.ltb_spec 2 m); lia).
    rewrite E1, E2. replace ((400 * era + yoe) mod 400) with yoe by (Z.to_euclidean_division_equations; lia).
    replace ((400 * era + yoe) / 400) with era by (Z.to_euclidean_division_equations; lia).
    pose proof (Z.div_mod z 146097 ltac:(lia)) as Hz. fold era doe in Hz.
    assert (Edoy : doe = doy + (365 * yoe + yoe / 4 - yoe / 100)) by (subst doy; unfold day_of_year; fold yoe; lia). lia.
Qed.

Lemma days_in_month_range y m : 28 <= days_in_month y m <= 31.
Proof. unfold days_in_month. repeat case_match; lia. Qed.

(** [gmtime] gives the broken-down time of the second it is given. *)
Lemma gmtime_spec t r : gmtime t = Some r -> valid_tm r /\ seconds_of r = t.
Proof.
  unfold gmtime. pose proof (civil_from_days_spec (t / 86400)) as H.
  destruct (civil_from_days (t / 86400)) as [[y m] d]. destruct H as (Hm & Hd & E).
  destruct (_ && _); intros [= <-]. unfold valid_tm, seconds_of. cbn.
  replace (y - 1900 + 1900) with y by lia. replace (m - 1 + 1) with m by lia. rewrite E.
  repeat split; try (Z.to_euclidean_division_equations; lia). 
Qed.

(** The times of the years 1 to 9999, and more, are in range. *)
Lemma gmtime_Some t : - 2 ^ 55 <= t < 2 ^ 55 -> is_Some (gmtime t).
Proof.
  intros Ht. unfold gmtime. pose proof (civil_from_days_spec (t / 86400)) as H.
  destruct (civil_from_days (t / 86400)) as [[y m] d]. destruct H as (Hm & Hd & E).
  enough (- 2 ^ 31 <= y - 1900 < 2 ^ 31).
  { destruct (Z.leb_spec (- 2 ^ 31) (y - 1900)), (Z.ltb_spec (y - 1900) (2 ^ 31)); try lia. by eexists. }
  pose proof (days_in_month_range y m).
  unfold days_from_civil in E. set (mp := if 2 <? m then _ else _) in E.
  assert (0 <= mp <= 11) by (subst mp; destruct (Z.ltb_spec 2 m); lia). clearbody mp.
  set (y' := if m <=? 2 then _ else _) in E. assert (y - 1 <= y' <= y) by (subst y'; destruct (Z.leb_spec m 2); lia).
  clearbody y'. Z.to_euclidean_division_equations. lia.
Qed.
