(* ===== verification/StringFormat.v ===== *)
(** Formatting into the text buffers of [CommonString]: the rest of
    [common-string.c] ([vprintf], base 64 and object identifiers). *)

From Stdlib Require Import Strings.String.
From S2P Require Import Prelude CString Text IntEncode BsonTypes Utf8 CommonString.
From S2P Require Import Base64 Base64Spec Hex BsonOid BsonOidSpec.

Section Format.
Context (malloc : Z -> bytes).

(** An operation that appends, with the status it returns. *)
Definition append_op : Type := mcommon_string_append_t -> option (bool * mcommon_string_append_t).

(** [a && b], and [(void) a; b]. *)
Definition op_and (a b : append_op) : append_op := fun append =>
  '(ok, append) ← a append; if (ok : bool) then b append else Some (false, append).
Definition op_then (a b : append_op) : append_op := fun append =>
  '(_, append) ← a append; b append.

(** ** [mcommon_string_append_vprintf]

    [text] is what the format and its arguments make. A round of the loop
    formats into the room there is; the second has the room, or all there may
    be. *)

(** The state of the buffer after [format_buffer\[n\] = '\0'; string->len = old_len + n]. *)
Definition format_keep (string : mcommon_string_t) (n : Z) : option mcommon_string_t :=
  m ← store (s_str string) (s_len string + n) [x00];
  Some (Str m (u32 (s_len string + n)) (s_alloc string)).

Fixpoint vprintf_loop (fuel : nat) (append : mcommon_string_append_t) (text : bytes)
    (min_format_buffer_capacity : Z) : option (bool * mcommon_string_append_t) :=
  match fuel with
  | O => None
  | S fuel' =>
      let max_append_len := append_room append in
      let min_format_buffer_capacity := Z.min min_format_buffer_capacity max_append_len in
      let old_len := s_len (ap_string append) in
      string ← mcommon_string_grow_to_capacity malloc (ap_string append)
        (u32 (old_len + min_format_buffer_capacity));
      let alloc := s_alloc string in
      if negb ((0 <? alloc) && (old_len <=? u32 (alloc - 1))) then None else
      let actual := Z.min (u32 (alloc - 1 - old_len)) max_append_len in
      if negb ((min_format_buffer_capacity <=? actual) && (actual <? UINT32_MAX)) then None else
      m ← vsnprintf_at (s_str string) old_len (u32 (actual + 1)) text;
      let string := Str m old_len alloc in
      let append := Append string (ap_max_len append) (ap_max_len_exceeded append) in
      let format_result := if zlen text <=? INT32_MAX then zlen text else -1 in
      if (-1 <? format_result) && (format_result <=? actual) then
        string ← format_keep string format_result;
        if negb (s_len string <=? ap_max_len append) || ap_max_len_exceeded append then None else
        Some (true, Append string (ap_max_len append) (ap_max_len_exceeded append))
      else if actual =? max_append_len then
        if -1 <? format_result then
          format_buffer ← padd (s_str string) old_len;
          n ← mcommon_utf8_truncate_len format_buffer (Z.min actual format_result);
          if negb (n <=? actual) then None else
          string ← format_keep string n;
          Some (false, Append string (ap_max_len append) true)
        else Some (false, append)
      else
        vprintf_loop fuel' append text
          (if -1 <? format_result then u32 (format_result + 1)
           else if min_format_buffer_capacity <? UINT32_MAX / 2 then u32 (min_format_buffer_capacity * 2)
           else UINT32_MAX - 1)
  end.

(** A text that cannot be formatted doubles the buffer each round. *)
Definition vprintf_fuel : nat := 34.

Definition mcommon_string_append_vprintf (append : mcommon_string_append_t) (text : bytes) :
    option (bool * mcommon_string_append_t) :=
  if negb (mcommon_string_status_from_append append) then Some (false, append) else
  if negb (ap_max_len append <? UINT32_MAX) then None else
  vprintf_loop vprintf_fuel append text 16.

Definition mcommon_string_append_printf (append : mcommon_string_append_t) (text : bytes) :
    option (bool * mcommon_string_append_t) := mcommon_string_append_vprintf append text.

(** ** Base 64 *)

(** [mcommon_b64_ntop (src, n, m + o, targsize)]: the answer and the buffer. *)
Definition ntop_at (src : bytes) (n : Z) (m : bytes) (o targsize : Z) : option (Z * bytes) :=
  target ← slice m o targsize;
  '(r, target) ← mcommon_b64_ntop src n (Some target) targsize;
  target ← target; m ← store m o target; Some (r, m).

(** The part of the text that fits: whole groups directly, and the group the
    limit cuts through a small buffer. *)
Definition base64_truncated (append : mcommon_string_append_t) (bytes : list byte) (len : Z) :
    option (bool * mcommon_string_append_t) :=
  let old_len := s_len (ap_string append) in
  let max_len := ap_max_len append in
  let max_append_len := append_room append in
  string ← mcommon_string_grow_to_capacity malloc (ap_string append) max_len;
  let remainder_truncated_len := max_append_len mod 4 in
  let direct_encoded_len := max_append_len - remainder_truncated_len in
  let direct_input_len := u32 (mcommon_b64_pton_calculate_target_size direct_encoded_len) in
  if negb ((direct_input_len mod 3 =? 0) && (direct_input_len <? len)) then None else
  '(tgt, buffer) ← ntop_at bytes direct_input_len (s_str string) old_len (u32 (direct_encoded_len + 1));
  if negb (tgt =? direct_encoded_len) then None else
  let remainder_input_len := Z.min 3 (len - direct_input_len) in
  let remainder_encoded_len := u32 (mcommon_b64_ntop_calculate_target_size remainder_input_len - 1) in
  if negb ((0 <? remainder_input_len) && (remainder_truncated_len <? remainder_encoded_len)) then None else
  rest ← padd bytes direct_input_len;
  '(t2, remainder_buffer) ← ntop_at rest remainder_input_len (malloc 5) 0 5;
  if negb (t2 =? remainder_encoded_len) then None else
  src ← slice remainder_buffer 0 remainder_encoded_len;
  buffer ← store buffer (old_len + direct_encoded_len) src;
  if negb (old_len + direct_encoded_len + remainder_truncated_len =? max_len) then None else
  buffer ← store buffer max_len [x00];
  Some (false, mcommon_string_append_overflow (Append (Str buffer max_len (s_alloc string)) max_len
    (ap_max_len_exceeded append))).

Definition mcommon_string_append_base64_encode (append : mcommon_string_append_t) (bytes : list byte)
    (len : Z) : option (bool * mcommon_string_append_t) :=
  if negb (mcommon_string_status_from_append append) then Some (false, append) else
  let old_len := s_len (ap_string append) in
  let max_len := ap_max_len append in
  if negb (max_len <? UINT32_MAX) then None else
  let max_append_len := append_room append in
  let encoded_target_len := u64 (mcommon_b64_ntop_calculate_target_size len - 1) in
  if encoded_target_len <=? max_append_len then
    string ← mcommon_string_grow_to_capacity malloc (ap_string append) (u32 (old_len + encoded_target_len));
    '(tgt, m) ← ntop_at bytes len (s_str string) old_len (u64 (encoded_target_len + 1));
    if negb (tgt =? encoded_target_len) then None else
    Some (true, Append (Str m (u32 (old_len + encoded_target_len)) (s_alloc string)) max_len
      (ap_max_len_exceeded append))
  else if max_append_len =? 0 then Some (false, mcommon_string_append_overflow append)
  else base64_truncated append bytes len.

(** [oid_str] is a local array of 25 bytes. *)
Definition mcommon_string_append_oid_as_hex (append : mcommon_string_append_t) (value : bytes) :
    option (bool * mcommon_string_append_t) :=
  oid_str ← bson_oid_to_string value (malloc 25);
  mcommon_string_append malloc append oid_str.
End Format.

(** ** Specification

    The buffer follows the text [u] meant for it: it holds [u], or, past the
    limit, the whole characters of [u] that fit. *)

Definition tracks (max : Z) (u : bytes) (a : mcommon_string_append_t) : Prop :=
  exists t e, append_is a t max e /\ utf8_text true t /\
    if (e : bool) then max < zlen u /\ max < zlen t + 4 /\ t `prefix_of` u else t = u.

Lemma utf8_text_ascii1 c s : b2z c < 128 -> utf8_text true (c :: s) <-> utf8_text true s.
Proof.
  intros Hc. pose proof (b2z_range c).
  assert (E : utf8_enc (b2z c) = [c]).
  { unfold utf8_enc. destruct (Z.leb_spec (b2z c) 0x7F); [|lia]. unfold bs. simpl. by rewrite z2b_b2z. }
  assert (Hi : utf8_item true [c]) by (rewrite <- E; constructor; [split; lia|done]).
  destruct (item_ok_complete _ _ Hi) as (b & l & [= <- <-] & Hok). apply (utf8_text_step true c []). done.
Qed.

Lemma ascii_text s : ascii s -> utf8_text true s.
Proof. induction 1 as [|c s Hc Hs IH]; [apply utf8_text_nil|]. apply utf8_text_ascii1; [lia|done]. Qed.

Lemma utf8_text_app s t : utf8_text true s -> utf8_text true t -> utf8_text true (s ++ t).
Proof.
  intros (i1 & -> & H1) (i2 & -> & H2). exists (i1 ++ i2). rewrite concat_app. split; [done|]. by apply Forall_app.
Qed.

Lemma item_size item : utf8_item true item -> zlen item <= 4.
Proof.
  intros (b & l & -> & Hok)%item_ok_complete. apply item_ok_len in Hok. rewrite zlen_cons, <- Hok.
  unfold mcommon_utf8_get_sequence. by repeat case_match.
Qed.

(** What was cut off at a limit is shorter than a character. *)
Lemma utf8_cut_tracks v n s1 : 0 <= n < zlen v -> utf8_cut v n s1 -> utf8_text true s1 /\ s1 `prefix_of` v /\ n < zlen s1 + 4.
Proof.
  intros Hn (s2 & frag & -> & H1 & _ & Ht & Hf). split; [done|]. split; [by exists s2|].
  apply (f_equal zlen) in Ht. rewrite zlen_take, zlen_app in Ht by lia. rewrite Ht.
  destruct Hf as [-> | (item & more & Hi & -> & Hm)]; [change (zlen (@nil byte)) with 0; lia|].
  apply item_size in Hi. rewrite zlen_app in Hi. destruct more as [|c more]; [done|]. rewrite zlen_cons in Hi.
  pose proof (zlen_nonneg more). lia.
Qed.

Lemma tracks_exceeded max u v a :
  mcommon_string_status_from_append a = false -> tracks max u a -> tracks max (u ++ v) a.
Proof.
  intros Hs (t & e & Ha & Ht & H). exists t, e. split; [done|]. split; [done|].
  destruct Ha as (_ & _ & _ & He). unfold mcommon_string_status_from_append in Hs. rewrite He in Hs.
  destruct e; [|done]. destruct H as (H1 & H2 & H3). rewrite zlen_app. pose proof (zlen_nonneg v).
  split; [lia|]. split; [done|]. by apply prefix_app_r.
Qed.

Lemma tracks_status max u a :
  tracks max u a -> mcommon_string_status_from_append a = true -> append_is a u max false /\ utf8_text true u.
Proof.
  intros (t & e & Ha & Ht & H) Hs. pose proof Ha as (_ & _ & _ & He).
  unfold mcommon_string_status_from_append in Hs. rewrite He in Hs. destruct e; [done|]. by subst t.
Qed.

Lemma tracks_fits max u a : tracks max u a -> zlen u <= max -> append_is a u max false.
Proof.
  intros Ht Hu. destruct (mcommon_string_status_from_append a) eqn:E.
  - by apply tracks_status in Ht as [? _].
  - destruct Ht as (t & e & Ha & _ & H). pose proof Ha as (_ & _ & _ & He).
    unfold mcommon_string_status_from_append in E. rewrite He in E. destruct e; [|done]. lia.
Qed.

Lemma tracks_intro max u v v1 ok a :
  append_is a (u ++ v1) max (negb ok) -> utf8_text true u -> ok = (zlen u + zlen v <=? max) -> zlen u <= max ->
  (if ok then v1 = v /\ utf8_text true v else utf8_cut v (max - zlen u) v1) -> tracks max (u ++ v) a.
Proof.
  intros Ha Hu Eo Hm H. exists (u ++ v1), (negb ok). split; [done|]. destruct ok; cbn [negb].
  - destruct H as [-> H]. split; [by apply utf8_text_app|done].
  - destruct (Z.leb_spec (zlen u + zlen v) max); [done|].
    destruct (utf8_cut_tracks v (max - zlen u) v1) as (Ht & Hp & Hl); [lia|done|]. rewrite !zlen_app.
    split; [by apply utf8_text_app|]. split; [lia|]. split; [lia|]. by apply prefix_app.
Qed.

(** The operation appends [v]; it fails only at the limit, unless [ok] is
    false. With [cut] the limit may be met on the way. *)
Section Writes.
Context (malloc : Z -> bytes).
Hypothesis Hmalloc : forall n, 0 <= n -> zlen (malloc n) = n.
Context (max : Z) (cut : bool).

Definition writes (op : append_op) (v : bytes) (ok : bool) : Prop :=
  forall u a, (cut = false -> zlen u + zlen v <= max) -> tracks max u a ->
  exists a', op a = Some (ok && mcommon_string_status_from_append a', a') /\ tracks max (u ++ v) a'.

#[local] Ltac fits := let E := fresh in intros E; repeat match goal with H : _ = false -> _ |- _ => specialize (H E) end; zl.

Lemma writes_and op1 v1 op2 v2 ok : writes op1 v1 true -> writes op2 v2 ok -> writes (op_and op1 op2) (v1 ++ v2) ok.
Proof.
  intros H1 H2 u a Hc Ht. rewrite zlen_app in Hc. pose proof (zlen_nonneg v2).
  destruct (H1 u a) as (a1 & E1 & Ht1); [fits|done|].
  unfold op_and. rewrite E1. sbind. rewrite app_assoc. cbn [andb].
  destruct (mcommon_string_status_from_append a1) eqn:Es.
  - destruct (H2 (u ++ v1) a1) as (a2 & E2 & Ht2); [fits|done|]. by exists a2.
  - exists a1. rewrite Es, andb_false_r. split; [done|]. by apply tracks_exceeded.
Qed.

Lemma writes_and_fail op1 v1 op2 : writes op1 v1 false -> writes (op_and op1 op2) v1 false.
Proof.
  intros H1 u a Hc Ht. destruct (H1 u a Hc Ht) as (a1 & E1 & Ht1). unfold op_and. rewrite E1. sbind. by exists a1.
Qed.

Lemma writes_then op1 v1 ok1 op2 v2 ok : writes op1 v1 ok1 -> writes op2 v2 ok -> writes (op_then op1 op2) (v1 ++ v2) ok.
Proof.
  intros H1 H2 u a Hc Ht. rewrite zlen_app in Hc. pose proof (zlen_nonneg v2).
  destruct (H1 u a) as (a1 & E1 & Ht1); [fits|done|]. unfold op_then. rewrite E1. sbind. rewrite app_assoc.
  apply (H2 (u ++ v1) a1); [fits|done].
Qed.

Lemma writes_eq op op' v ok : (forall a, op a = op' a) -> writes op' v ok -> writes op v ok.
Proof. intros E H u a Hc Ht. rewrite E. by apply H. Qed.

(** Past the limit nothing is done, so only the rest is to be shown. *)
Lemma writes_intro op v :
  (forall a, mcommon_string_status_from_append a = false -> op a = Some (false, a)) ->
  (forall u a, (cut = false -> zlen u + zlen v <= max) -> append_is a u max false -> utf8_text true u ->
     exists ok a' v1, op a = Some (ok, a') /\ append_is a' (u ++ v1) max (negb ok) /\
       ok = (zlen u + zlen v <=? max) /\ if ok then v1 = v /\ utf8_text true v else utf8_cut v (max - zlen u) v1) ->
  writes op v true.
Proof.
  intros Hstuck H u a Hc Ht. destruct (mcommon_string_status_from_append a) eqn:Es.
  - apply tracks_status in Ht as [Ha Hu]; [|done].
    destruct (H u a Hc Ha Hu) as (ok & a' & v1 & E & Ha' & Eo & Hv). exists a'. rewrite E.
    pose proof Ha' as (_ & _ & _ & He). unfold mcommon_string_status_from_append. rewrite He, negb_involutive.
    split; [done|]. apply (tracks_intro max u v v1 ok); try done. apply Ha.
  - exists a. rewrite Hstuck by done. rewrite Es. split; [done|]. by apply tracks_exceeded.
Qed.

Lemma writes_bytes v rest : utf8_text true v -> zlen v < 2 ^ 32 ->
  writes (fun a => mcommon_string_append_bytes malloc a (v ++ rest) (zlen v)) v true.
Proof.
  intros Hv Hz. apply writes_intro.
  - intros a Hs. by apply append_stuck.
  - intros u a _ Ha Hu. destruct (append_bytes_spec malloc Hmalloc a u max v rest Ha Hv Hz) as (ok & a' & v1 & H1 & H2 & H3 & H4).
    exists ok, a', v1. split_and!; try done. by destruct ok.
Qed.

Lemma writes_append v rest : utf8_text true v -> no_nul v -> zlen v < 2 ^ 32 ->
  writes (fun a => mcommon_string_append malloc a (v ++ x00 :: rest)) v true.
Proof.
  intros Hv Hn Hz. eapply writes_eq; [|by apply (writes_bytes v (x00 :: rest))]. intros a.
  unfold mcommon_string_append. rewrite strlen_app by done. sbind. rewrite u32_id; [done|]. pose proof (zlen_nonneg v). lia.
Qed.

Lemma writes_ascii v rest : ascii v -> zlen v < 2 ^ 32 ->
  writes (fun a => mcommon_string_append malloc a (v ++ x00 :: rest)) v true.
Proof. intros Hv Hz. apply writes_append; [by apply ascii_text|by apply ascii_no_nul|done]. Qed.

(** A literal of the code. *)
Lemma writes_lit (s : string) :
  asciib (txt s) = true -> zlen (txt s) < 2 ^ 32 ->
  writes (fun a => mcommon_string_append malloc a (lit s)) (txt s) true.
Proof. intros Hs Hz. apply (writes_ascii (txt s) []); [by apply asciib_spec|done]. Qed.
End Writes.

(** ** Formatting *)

Lemma ascii_truncate s rest : ascii s -> mcommon_utf8_truncate_len (s ++ rest) (zlen s) = Some (zlen s).
Proof.
  intros Hs. destruct (mcommon_utf8_truncate_len_spec s rest (zlen s)) as (s1 & s2 & frag & E & _ & H2 & -> & Hk & Hf);
    [by apply ascii_text|pose proof (zlen_nonneg s); lia|]. f_equal.
  rewrite take_ge in Hk by (unfold zlen; lia). subst s. apply app_inv_head in Hk as <-.
  destruct s2 as [|c s2]; [by rewrite app_nil_r|]. exfalso.
  destruct Hf as [|(item & more & Hi & -> & Hm)]; [done|]. apply Hm.
  apply item_ok_complete in Hi as (b & l & [= <- <-] & Hok). apply item_ok_len in Hok.
  apply ascii_app in Hs as [_ Hs]. apply Forall_cons_1 in Hs as [Hc _].
  assert (E : mcommon_utf8_get_sequence c = (1, 0x7F)).
  { unfold mcommon_utf8_get_sequence. replace (Z.land (b2z c) 0x80 =? 0) with true; [done|].
    assert (Hb : forall b : byte, (Z.land (b2z b) 0x80 =? 0) || (128 <=? b2z b) = true) by (apply byte_forall; vm_compute; reflexivity).
    specialize (Hb c). destruct (Z.leb_spec 128 (b2z c)); [lia|]. by rewrite orb_false_r in Hb. }
  rewrite E in Hok. cbn [fst] in Hok. rewrite zlen_app in Hok. apply zlen_0. pose proof (zlen_nonneg s2).
  pose proof (zlen_nonneg more). lia.
Qed.

(** The text is there, with anything behind it. *)
Definition string_open (s : mcommon_string_t) (t : bytes) : Prop :=
  s_len s = zlen t /\ s_alloc s = zlen (s_str s) /\ s_alloc s <= UINT32_MAX /\ exists junk, s_str s = t ++ junk.

Lemma string_is_open s t : string_is s t -> string_open s t.
Proof. intros (? & ? & ? & junk & ?). split_and!; try done. by exists (x00 :: junk). Qed.

Section Printf.
Context (malloc : Z -> bytes).
Hypothesis Hmalloc : forall n, 0 <= n -> zlen (malloc n) = n.

Lemma grow_open s t capacity :
  string_open s t -> 0 <= capacity < UINT32_MAX ->
  exists s', mcommon_string_grow_to_capacity malloc s capacity = Some s' /\ string_open s' t /\
    capacity + 1 <= s_alloc s'.
Proof.
  intros (Hl & Ha & Hm & junk & Hs) Hc. unfold mcommon_string_grow_to_capacity, UINT32_MAX in *.
  destruct (Z.ltb_spec capacity (2 ^ 32 - 1)); [|lia]. cbn [negb]. rewrite (u32_id (capacity + 1)) by lia.
  destruct (Z.ltb_spec (s_alloc s) (capacity + 1)) as [Hlt|].
  2: { exists s. split; [done|]. split; [|lia]. split_and!; try done. by exists junk. }
  pose proof (next_power_of_two_u32_bounds (capacity + 1)) as Hp. unfold UINT32_MAX in Hp.
  set (n := mcommon_next_power_of_two_u32 (capacity + 1)) in *.
  destruct (zlen_realloc malloc Hmalloc (s_str s) n) as (more & E & Hz); [lia|].
  eexists. split; [done|]. unfold string_open. cbn [s_str s_len s_alloc]. rewrite E, zlen_app.
  split; [|lia]. split_and!; try lia. { unfold UINT32_MAX. lia. }
  exists (junk ++ more). by rewrite Hs, <- app_assoc.
Qed.

Lemma open_store s t w : string_open s t -> zlen t + zlen w <= s_alloc s ->
  exists junk, s_str s = t ++ junk /\ zlen junk = s_alloc s - zlen t /\
    store (s_str s) (zlen t) w = Some (t ++ w ++ drop (length w) junk).
Proof.
  intros (Hl & Ha & Hm & junk & Hs) Hz. exists junk. rewrite Ha, Hs in *. rewrite zlen_app in *.
  split; [done|]. split; [lia|]. rewrite <- (take_drop (length w) junk) at 1.
  rewrite store_at; [done|done|]. unfold zlen in *. rewrite length_take. lia.
Qed.

(** What a formatted append comes to. *)
Definition appended (t v : bytes) (max : Z) (r : option (bool * mcommon_string_append_t)) : Prop :=
  exists ok a' v1, r = Some (ok, a') /\ append_is a' (t ++ v1) max (negb ok) /\
    ok = (zlen t + zlen v <=? max) /\ if ok then v1 = v else utf8_cut v (max - zlen t) v1.

Definition open_append (a : mcommon_string_append_t) (t : bytes) (max : Z) : Prop :=
  string_open (ap_string a) t /\ ap_max_len a = max /\ zlen t <= max < UINT32_MAX /\ ap_max_len_exceeded a = false.

Lemma open_keep s t w : string_open s t -> zlen t + zlen w + 1 <= s_alloc s -> zlen t + zlen w < UINT32_MAX ->
  forall junk, s_str s = t ++ w ++ junk ->
  exists s', format_keep s (zlen w) = Some s' /\ string_is s' (t ++ w).
Proof.
  intros (Hl & Ha & Hm & _) Hz Hu junk Hs. unfold format_keep. rewrite Hl, Hs in *. rewrite !zlen_app in Ha.
  unfold UINT32_MAX in *. pose proof (zlen_nonneg t). pose proof (zlen_nonneg w).
  destruct junk as [|c junk]; [change (zlen (@nil byte)) with 0 in Ha; lia|]. rewrite zlen_cons in Ha.
  rewrite app_assoc. change (c :: junk) with ([c] ++ junk). rewrite store_at by (done || zl). sbind.
  eexists. split; [done|]. rewrite u32_id by lia. unfold string_is. cbn [s_len s_alloc s_str].
  split_and!; [zl|zl|unfold UINT32_MAX; lia|]. by exists junk.
Qed.

Lemma vprintf_round fuel a t max c v :
  open_append a t max -> ascii v -> zlen v <= INT32_MAX -> 0 <= c < 2 ^ 32 ->
  appended t v max (vprintf_loop malloc (S fuel) a v c) \/
  exists a1, open_append a1 t max /\ c <= zlen v /\
    vprintf_loop malloc (S fuel) a v c = vprintf_loop malloc fuel a1 v (zlen v + 1).
Proof.
  intros (Ho & Hm & Hr & He) Hv Hz Hc. pose proof (zlen_nonneg t). pose proof (zlen_nonneg v).
  assert (Hl : s_len (ap_string a) = zlen t) by apply Ho. unfold INT32_MAX, UINT32_MAX in *.
  cbn [vprintf_loop]. assert (Hroom : append_room a = max - zlen t).
  { unfold append_room. rewrite Hl, Hm. destruct (Z.ltb_spec (zlen t) max); lia. }
  rewrite Hroom, Hl. set (room := max - zlen t) in *. set (g := Z.min c room).
  assert (Hroom0 : zlen t + room = max) by (subst room; lia). assert (Hg0 : 0 <= g <= room) by lia.
  rewrite (u32_id (zlen t + g)) by lia.
  destruct (grow_open (ap_string a) t (zlen t + g) Ho) as (s1 & -> & Ho1 & Hg); [unfold UINT32_MAX; lia|]. sbind.
  assert (Hal : s_alloc s1 <= 2 ^ 32 - 1) by apply Ho1.
  rewrite (u32_id (s_alloc s1 - 1)), (u32_id (s_alloc s1 - 1 - zlen t)) by lia.
  destruct (Z.ltb_spec 0 (s_alloc s1)); [|lia]. destruct (Z.leb_spec (zlen t) (s_alloc s1 - 1)); [|lia].
  cbn [andb negb]. set (actual := Z.min (s_alloc s1 - 1 - zlen t) room).
  destruct (Z.leb_spec g actual); [|lia]. destruct (Z.ltb_spec actual UINT32_MAX); [|unfold UINT32_MAX in *; lia]. cbn [andb negb].
  rewrite (u32_id (actual + 1)) by lia. unfold vsnprintf_at. destruct (Z.eqb_spec (actual + 1) 0); [lia|].
  replace (actual + 1 - 1) with actual by lia. set (w := take (Z.to_nat actual) v).
  assert (Hw : zlen w = Z.min actual (zlen v)) by (subst w; unfold zlen in *; rewrite length_take; lia).
  destruct (open_store s1 t (w ++ [x00]) Ho1) as (junk & Es & Hj & ->); [zl|]. sbind.
  set (m := t ++ _). set (s2 := Str m (zlen t) (s_alloc s1)).
  assert (Em : m = t ++ w ++ [x00] ++ drop (length (w ++ [x00])) junk) by (subst m; by rewrite <- app_assoc).
  assert (Hj2 : zlen (drop (length (w ++ [x00])) junk) = zlen junk - zlen w - 1).
  { unfold zlen in *. rewrite length_drop, length_app. simpl. lia. }
  assert (Ho2 : string_open s2 t).
  { unfold string_open. cbn. rewrite Em. split_and!; [done|zl|done|]. by eexists. }
  destruct (Z.leb_spec (zlen v) INT32_MAX); [|unfold INT32_MAX in *; lia]. destruct (Z.ltb_spec (-1) (zlen v)); [|lia]. cbn [andb].
  destruct (Z.leb_spec (zlen v) actual).
  { left. assert (Ew : w = v) by (subst w; rewrite take_ge; [done|unfold zlen in *; lia]). rewrite Ew in *.
    destruct (open_keep s2 t v Ho2) with (junk := [x00] ++ drop (length (v ++ [x00])) junk) as (s3 & E3 & Hs3);
      [cbn; lia|unfold UINT32_MAX; lia|exact Em|].
    rewrite E3. sbind. cbn [ap_string ap_max_len ap_max_len_exceeded]. rewrite He, Hm. assert (Hl3 : s_len s3 = zlen (t ++ v)) by apply Hs3. rewrite Hl3, zlen_app.
    destruct (Z.leb_spec (zlen t + zlen v) max); [|lia]. cbn [negb orb].
    exists true, (Append s3 max false), v. split; [done|]. split; [|destruct (Z.leb_spec (zlen t + zlen v) max); [done|lia]].
    unfold append_is, UINT32_MAX. cbn. split_and!; try done; zl. }
  destruct (Z.eqb_spec actual room) as [Ea|Ea].
  2: { right. exists (Append s2 (ap_max_len a) (ap_max_len_exceeded a)). split.
       - unfold open_append, UINT32_MAX. cbn [ap_string ap_max_len ap_max_len_exceeded]. split_and!; try done; lia.
       - split; [lia|]. rewrite u32_id by lia. done. }
  left. change (s_str s2) with m. rewrite Em at 1. rewrite padd_at by done. sbind. rewrite Z.min_l by lia.
  assert (Hwl : zlen w = actual) by lia.
  pose proof (ascii_truncate w ([x00] ++ drop (length (w ++ [x00])) junk) (ascii_take _ _ Hv)) as Et.
  rewrite Hwl in Et. rewrite Et. sbind. destruct (Z.leb_spec actual actual); [|lia]. cbn [negb].
  destruct (open_keep s2 t w Ho2) with (junk := [x00] ++ drop (length (w ++ [x00])) junk) as (s3 & E3 & Hs3);
    [cbn; lia|unfold UINT32_MAX; lia|exact Em|].
  rewrite Hwl in E3. rewrite E3. sbind. rewrite Hm.
  exists false, (Append s3 max true), w. split; [done|]. split.
  - unfold append_is, UINT32_MAX. cbn. split_and!; try done; zl.
  - destruct (Z.leb_spec (zlen t + zlen v) max); [lia|]. split; [done|].
    exists (drop (Z.to_nat actual) v), []. subst w. rewrite take_drop, app_nil_r.
    split_and!; [done|by apply ascii_text, ascii_take|by apply ascii_text, Forall_drop|by rewrite Ea|by left].
Qed.

(** A formatted text is appended whole, or cut at the limit. *)
Lemma vprintf_spec a t max v :
  append_is a t max false -> ascii v -> zlen v <= INT32_MAX ->
  appended t v max (mcommon_string_append_vprintf malloc a v).
Proof.
  intros Ha Hv Hz. pose proof Ha as (Hs & Hm & Hr & He). pose proof (zlen_nonneg v). unfold INT32_MAX in Hz.
  unfold mcommon_string_append_vprintf, mcommon_string_status_from_append. rewrite He, Hm. cbn [negb].
  destruct (Z.ltb_spec max UINT32_MAX); [|lia]. cbn [negb].
  assert (Ho : open_append a t max) by (split_and!; try done; [by apply string_is_open|lia..]).
  destruct (vprintf_round 33 a t max 16 v Ho Hv) as [H1|(a1 & Ho1 & _ & E)]; [unfold INT32_MAX; lia|lia|done|].
  change vprintf_fuel with 34%nat. rewrite E.
  destruct (vprintf_round 32 a1 t max (zlen v + 1) v Ho1 Hv) as [H1|(a2 & _ & ? & _)]; [unfold INT32_MAX; lia|lia|done|lia].
Qed.

Lemma writes_printf max cut v : ascii v -> zlen v <= INT32_MAX ->
  writes max cut (fun a => mcommon_string_append_printf malloc a v) v true.
Proof.
  intros Hv Hz. apply writes_intro.
  - intros a Hs. unfold mcommon_string_append_printf, mcommon_string_append_vprintf. by rewrite Hs.
  - intros u a _ Ha Hu. destruct (vprintf_spec a u max v Ha Hv Hz) as (ok & a' & v1 & H1 & H2 & H3 & H4).
    exists ok, a', v1. split_and!; try done. destruct ok; [|done]. split; [done|]. by apply ascii_text.
Qed.
End Printf.

(** ** Base 64, identifiers and selected characters *)

Lemma b64_text_ascii s : ascii (b64_text s).
Proof.
  assert (Hd : forall n k, 0 < b2z (digit_of n k) < 128).
  { intros n k. unfold digit_of, b64_digit. destruct (nth_in_or_default (Z.to_nat (n / 64 ^ k mod 64)) alphabet Pad64) as [Hin | ->];
      [|by vm_compute].
    assert (Ha : forallb (fun c => (0 <? b2z c) && (b2z c <? 128)) alphabet = true) by (vm_compute; reflexivity).
    eapply forallb_forall in Ha; [|exact Hin]. apply andb_true_iff in Ha as [?%Z.ltb_lt ?%Z.ltb_lt]. done. }
  assert (Hp : 0 < b2z Pad64 < 128) by (by vm_compute).
  unfold ascii in *. induction s as [|a|a b|a b c s IH] using triple_ind; cbn [b64_text app]; repeat (constructor; [done || apply Hd|]); done.
Qed.

Lemma hex_text_ascii s : ascii (hex_text s).
Proof. eapply Forall_impl; [apply hex_text_lower|]. intros c Hc. unfold lower_hex in Hc. lia. Qed.

Section Parts.
Context (malloc : Z -> bytes).
Hypothesis Hmalloc : forall n, 0 <= n -> zlen (malloc n) = n.
Context (max : Z).

Lemma ntop_at_spec s rest t junk targsize :
  targsize = zlen (b64_text s) + 1 -> targsize <= zlen junk -> zlen s < 2 ^ 30 ->
  ntop_at (s ++ rest) (zlen s) (t ++ junk) (zlen t) targsize =
    Some (zlen (b64_text s), t ++ b64_text s ++ [x00] ++ drop (S (length (b64_text s))) junk).
Proof.
  intros Hts Hj Hs. unfold ntop_at. pose proof (zlen_nonneg (b64_text s)). pose proof (zlen_nonneg s).
  destruct (split_at junk targsize) as (j1 & j2 & -> & Hz & _); [lia|].
  assert (Hlen : (S (length (b64_text s)) <= length j1)%nat) by (unfold zlen in *; lia).
  rewrite zlen_text in *. rewrite slice_at by done. sbind.
  destruct (ntop_do_spec s rest j1 targsize Hz) as (r & target' & E & Hz' & H'); [Z.to_euclidean_division_equations; lia|lia|].
  rewrite E. sbind. rewrite ntop_size_spec in H' by lia. rewrite Hts in H'.
  destruct (Z.leb_spec (4 * ((zlen s + 2) / 3) + 1) (4 * ((zlen s + 2) / 3) + 1)); [|lia]. destruct H' as [-> ->].
  rewrite zlen_text, store_at by (done || congruence). sbind.
  rewrite (drop_app_le j1 j2) by done. by rewrite <- !app_assoc.
Qed.

Lemma writes_base64 s rest : zlen s < 2 ^ 30 ->
  writes max false (fun a => mcommon_string_append_base64_encode malloc a (s ++ rest) (zlen s)) (b64_text s) true.
Proof.
  intros Hs. apply writes_intro.
  { intros a E. unfold mcommon_string_append_base64_encode. by rewrite E. }
  intros u a Hc Ha Hu. specialize (Hc eq_refl). pose proof (append_room_spec a u max false Ha) as Hroom.
  pose proof Ha as (Hs0 & Hm & Hr & He). pose proof (zlen_nonneg s). pose proof (zlen_nonneg u). unfold UINT32_MAX in Hr.
  unfold mcommon_string_append_base64_encode, mcommon_string_status_from_append. rewrite He, Hm, Hroom. cbn [negb].
  destruct (Z.ltb_spec max UINT32_MAX); [|unfold UINT32_MAX in *; lia]. cbn [negb].
  rewrite ntop_size_spec by lia. rewrite zlen_text in Hc. set (n := 4 * ((zlen s + 2) / 3)) in *.
  assert (Hn : 0 <= n) by (subst n; Z.to_euclidean_division_equations; lia).
  rewrite (u64_id (n + 1 - 1)) by lia. replace (n + 1 - 1) with n by lia.
  destruct (Z.leb_spec n (max - zlen u)); [|lia]. assert (Hl : s_len (ap_string a) = zlen u) by apply Hs0.
  rewrite Hl, (u32_id (zlen u + n)), (u64_id (n + 1)) by lia.
  destruct (grow_open malloc Hmalloc (ap_string a) u (zlen u + n)) as (s1 & -> & Ho1 & Hg);
    [by apply string_is_open|unfold UINT32_MAX; lia|]. sbind.
  pose proof Ho1 as (Hl1 & Ha1 & Hm1 & junk & Es). rewrite Es in *. rewrite zlen_app in Ha1.
  rewrite ntop_at_spec by (rewrite ?zlen_text; fold n; lia). sbind. rewrite zlen_text. fold n.
  rewrite Z.eqb_refl. cbn [negb]. eexists true, _, (b64_text s). split; [done|]. split.
  - unfold append_is, string_is, UINT32_MAX. cbn [ap_string ap_max_len ap_max_len_exceeded s_len s_alloc s_str].
    assert (Hzt : zlen (b64_text s) = n) by apply zlen_text.
    split; [|split_and!; try done; rewrite zlen_app; lia]. split; [rewrite zlen_app; lia|]. split; [|split; [done|]].
    + rewrite !zlen_app. unfold zlen in *. rewrite length_drop. simpl. lia.
    + eexists. rewrite <- app_assoc. cbn [app]. done.
  - destruct (Z.leb_spec (zlen u + n) max); [|lia]. split; [done|]. split; [done|].
    apply ascii_text, b64_text_ascii.
Qed.

Lemma writes_oid cut oid post : zlen oid = 12 ->
  writes max cut (fun a => mcommon_string_append_oid_as_hex malloc a (oid ++ post)) (hex_text oid) true.
Proof.
  intros Ho. eapply writes_eq; [|apply (writes_ascii malloc Hmalloc max cut (hex_text oid) [])].
  - intros a. unfold mcommon_string_append_oid_as_hex.
    pose proof (oid_to_string_spec oid post (malloc 25) [] Ho) as E. rewrite app_nil_r in E.
    rewrite E by (by rewrite Hmalloc). done.
  - apply hex_text_ascii.
  - rewrite zlen_hex_text. lia.
Qed.

Lemma writes_unichar cut c : scalar c ->
  writes max cut (fun a => mcommon_string_append_unichar malloc a c) (utf8_enc c) true.
Proof.
  intros Hc. apply writes_intro.
  - intros a Hs. unfold mcommon_string_append_unichar. by rewrite Hs.
  - intros u a _ Ha Hu. destruct (append_unichar_spec malloc Hmalloc a u max c Ha Hc) as (ok & a' & v1 & H1 & H2 & H3 & H4).
    exists ok, a', v1. split_and!; try done. destruct ok; [|done]. split; [done|]. by apply utf8_enc_text.
Qed.

Lemma writes_selected_chars cut tmplt rest sel srest : ascii tmplt ->
  writes max cut (fun a => mcommon_string_append_selected_chars malloc a (tmplt ++ x00 :: rest) (sel ++ srest) (zlen sel))
    (filter (fun c => c ∈ sel) tmplt) true.
Proof.
  induction 1 as [|c tmplt Hc Hf IH].
  - intros u a _ Ht. exists a. cbn [mcommon_string_append_selected_chars app]. rewrite byte_eqb_refl.
    rewrite filter_nil, app_nil_r. done.
  - assert (c <> x00) by (intros ->; change (b2z x00) with 0 in Hc; lia).
    assert (Hstep : forall a, mcommon_string_append_selected_chars malloc a ((c :: tmplt) ++ x00 :: rest) (sel ++ srest) (zlen sel) =
      if bool_decide (c ∈ sel)
      then op_and (fun a => mcommon_string_append_unichar malloc a (b2z c))
             (fun a => mcommon_string_append_selected_chars malloc a (tmplt ++ x00 :: rest) (sel ++ srest) (zlen sel)) a
      else mcommon_string_append_selected_chars malloc a (tmplt ++ x00 :: rest) (sel ++ srest) (zlen sel)).
    { intros a. cbn [mcommon_string_append_selected_chars app]. rewrite byte_eqb_neq by done.
      destruct (Z.leb_spec (b2z c) 0x7f); [|lia]. cbn [negb]. rewrite memchr_char_spec. by sbind. }
    eapply writes_eq; [exact Hstep|]. rewrite filter_cons. case_bool_decide.
    + rewrite decide_True by done.
      assert (Eu : utf8_enc (b2z c) = [c]).
      { unfold utf8_enc. destruct (Z.leb_spec (b2z c) 0x7f); [|lia]. unfold bs. simpl. by rewrite z2b_b2z. }
      change (c :: filter (λ c0 : byte, c0 ∈ sel) tmplt) with ([c] ++ filter (λ c0 : byte, c0 ∈ sel) tmplt).
      apply writes_and; [|done]. rewrite <- Eu. apply writes_unichar. split; lia.
    + by rewrite decide_False by done.
Qed.
End Parts.
