(* ===== verification/DoubleText.v ===== *)
(** The conversion ["%.20g"] of [printf] for a [double], and the text the
    library makes of it. The C library prints the exact value of the double
    rounded to 20 digits, ties to even. *)

From Stdlib Require Import Strings.String.
From S2P Require Import Prelude CString Text.

(** ** The value of a bit pattern *)

Definition double_negative (bits : Z) : bool := Z.testbit bits 63.
Definition double_exponent (bits : Z) : Z := Z.land (Z.shiftr bits 52) 2047.
Definition double_fraction (bits : Z) : Z := Z.land bits (2 ^ 52 - 1).

Definition double_is_nan (bits : Z) : bool := (double_exponent bits =? 2047) && negb (double_fraction bits =? 0).
Definition double_is_inf (bits : Z) : bool := (double_exponent bits =? 2047) && (double_fraction bits =? 0).

(** The magnitude of a finite double is [m * 2 ^ e]. *)
Definition double_parts (bits : Z) : Z * Z :=
  let e := double_exponent bits in
  if e =? 0 then (double_fraction bits, -1074) else (2 ^ 52 + double_fraction bits, e - 1075).

(** The same as a quotient of integers. *)
Definition double_ratio (bits : Z) : Z * Z :=
  let '(m, e) := double_parts bits in
  if 0 <=? e then (m * 2 ^ e, 1) else (m, 2 ^ (- e)).

(** ** Rounding to 20 digits *)

(** The quotient to the nearest integer, to an even one from the middle. *)
Definition div_round (n d : Z) : Z :=
  let q := n / d in
  let r := n mod d in
  if 2 * r <? d then q else if d <? 2 * r then q + 1 else if Z.even q then q else q + 1.

(** The decimal exponent of [n / d]: the first power of ten that is not larger. *)
Fixpoint exponent_up (fuel : nat) (n d x : Z) : Z :=
  match fuel with
  | O => x
  | S fuel' => if n <? 10 * d then x else exponent_up fuel' n (10 * d) (x + 1)
  end.
Fixpoint exponent_down (fuel : nat) (n d x : Z) : Z :=
  match fuel with
  | O => x
  | S fuel' => if d <=? n then x else exponent_down fuel' (10 * n) d (x - 1)
  end.
Definition decimal_exponent (n d : Z) : Z :=
  if d <=? n then exponent_up 309 n d 0 else exponent_down 330 n d 0.

(** [n / d] as [c * 10 ^ (x - 19)] with 20 digits in [c]. *)
Definition round20 (n d : Z) : Z * Z :=
  let x := decimal_exponent n d in
  let c := if x <=? 19 then div_round (n * 10 ^ (19 - x)) d else div_round n (d * 10 ^ (x - 19)) in
  if c =? 10 ^ 20 then (10 ^ 19, x + 1) else (c, x).

(** ** The format *)

(** The digits without the zeros at the end. *)
Fixpoint strip_zeros (s : bytes) : bytes :=
  match s with
  | [] => []
  | c :: s' =>
      match strip_zeros s' with
      | [] => if byte_eqb c (z2b 48) then [] else [c]
      | t => c :: t
      end
  end.

Definition with_point (s t : bytes) : bytes := match t with [] => s | _ => s ++ txt "." ++ t end.

(** At least two digits of the exponent. *)
Definition exponent_text (x : Z) : bytes :=
  txt "e" ++ txt (if x <? 0 then "-" else "+") ++ (if Z.abs x <? 10 then txt "0" else []) ++ dec (Z.abs x).

(** [c * 10 ^ (x - 19)] in the style ["%f"] for an exponent from -4 to 19, and
    in the style ["%e"] for others. *)
Definition digits_text (c x : Z) : bytes :=
  let ds := dec c in
  if (-4 <=? x) && (x <? 20) then
    if 0 <=? x then
      let n := Z.to_nat (x + 1) in with_point (take n ds) (strip_zeros (drop n ds))
    else with_point (txt "0") (replicate (Z.to_nat (- x - 1)) (z2b 48) ++ strip_zeros ds)
  else with_point (take 1 ds) (strip_zeros (drop 1 ds)) ++ exponent_text x.

(** A NaN keeps its sign, as the GNU library prints it. *)
Definition printf_20g (bits : Z) : bytes :=
  (if double_negative bits then txt "-" else []) ++
  (if double_is_nan bits then txt "nan"
   else if double_is_inf bits then txt "inf"
   else
     let '(n, d) := double_ratio bits in
     if n =? 0 then txt "0" else let '(c, x) := round20 n d in digits_text c x).

Example print_third : printf_20g 0x3fd5555555555555 = txt "0.33333333333333331483".
Proof. vm_compute. reflexivity. Qed.
Example print_one_tenth : printf_20g 0x3fb999999999999a = txt "0.10000000000000000555".
Proof. vm_compute. reflexivity. Qed.
Example print_minus_3 : printf_20g 0xc008000000000000 = txt "-3".
Proof. vm_compute. reflexivity. Qed.
Example print_max : printf_20g 0x7fefffffffffffff = txt "1.7976931348623157081e+308".
Proof. vm_compute. reflexivity. Qed.
Example print_min : printf_20g 1 = txt "4.9406564584124654418e-324".
Proof. vm_compute. reflexivity. Qed.
Example print_big : printf_20g 0x4415af1d78b58c40 = txt "1e+20".
Proof. vm_compute. reflexivity. Qed.
Example print_small : printf_20g 0x3f1a36e2eb1c432d = txt "0.00010000000000000000479".
Proof. vm_compute. reflexivity. Qed.
