(* ===== verification/BsonVisit.v ===== *)
(** [bson_iter_visit_all] ([bson/bson-iter.c]) and the table of callbacks
    [bson_visitor_t] ([bson/bson-types.h]). *)

From S2P Require Import Prelude CString IntEncode BsonTypes BsonIter Utf8 BsonView.

(** ** The callbacks

    A callback is given the iterator, the key, the value and the caller's
    data, which it may change; the result says whether to stop. A pointer that
    may be [NULL] is an [option]; a document is its bytes and length. *)
Section Visit.
Context {D : Type}.

Definition visit_fn : Type := D -> option (bool * D).

Record bson_visitor_t := Visitor {
  visit_before : option (bson_iter_t -> bytes -> visit_fn);
  visit_after : option (bson_iter_t -> bytes -> visit_fn);
  visit_corrupt : option (bson_iter_t -> D -> option D);
  visit_double : option (bson_iter_t -> bytes -> Z -> visit_fn);
  visit_utf8 : option (bson_iter_t -> bytes -> Z -> bytes -> visit_fn);
  visit_document : option (bson_iter_t -> bytes -> bytes -> Z -> visit_fn);
  visit_array : option (bson_iter_t -> bytes -> bytes -> Z -> visit_fn);
  visit_binary : option (bson_iter_t -> bytes -> Z -> Z -> bytes -> visit_fn);
  visit_undefined : option (bson_iter_t -> bytes -> visit_fn);
  visit_oid : option (bson_iter_t -> bytes -> bytes -> visit_fn);
  visit_bool : option (bson_iter_t -> bytes -> bool -> visit_fn);
  visit_date_time : option (bson_iter_t -> bytes -> Z -> visit_fn);
  visit_null : option (bson_iter_t -> bytes -> visit_fn);
  visit_regex : option (bson_iter_t -> bytes -> bytes -> bytes -> visit_fn);
  visit_dbpointer : option (bson_iter_t -> bytes -> Z -> bytes -> option bytes -> visit_fn);
  visit_code : option (bson_iter_t -> bytes -> Z -> bytes -> visit_fn);
  visit_symbol : option (bson_iter_t -> bytes -> Z -> bytes -> visit_fn);
  visit_codewscope : option (bson_iter_t -> bytes -> Z -> bytes -> bytes -> Z -> visit_fn);
  visit_int32 : option (bson_iter_t -> bytes -> Z -> visit_fn);
  visit_timestamp : option (bson_iter_t -> bytes -> Z -> Z -> visit_fn);
  visit_int64 : option (bson_iter_t -> bytes -> Z -> visit_fn);
  visit_maxkey : option (bson_iter_t -> bytes -> visit_fn);
  visit_minkey : option (bson_iter_t -> bytes -> visit_fn);
  visit_unsupported_type : option (bson_iter_t -> bytes -> Z -> D -> option D);
  visit_decimal128 : option (bson_iter_t -> bytes -> Z * Z -> visit_fn)
}.

(** [VISIT_FIELD]: a missing callback does not stop the visit. *)
Definition VISIT_FIELD {F} (f : option F) (call : F -> visit_fn) (data : D) : option (bool * D) :=
  match f with Some f => call f data | None => Some (false, data) end.

Context (visitor : bson_visitor_t).

(** What a case of the switch comes to: the stop flag, the iterator, and the
    data. *)
Definition visit_result : Type := option (bool * bson_iter_t * D).

Definition visited (it : bson_iter_t) (r : option (bool * D)) : visit_result :=
  '(stop, data) ← r; Some (stop, it, data).

(** [iter->err_off = iter->off; return true;] and [... break;] *)
Definition visit_invalid (it : bson_iter_t) (data : D) : visit_result := Some (true, set_err it (it_off it), data).
Definition visit_skip (it : bson_iter_t) (data : D) : visit_result := Some (false, set_err it (it_off it), data).

(** The cases of strings and of documents inside. *)
Definition visit_string (it : bson_iter_t) (str : option bytes) (len : Z) (data : D)
    (call : bytes -> visit_fn) : visit_result :=
  s ← str; valid ← bson_utf8_validate s len true;
  if (valid : bool) then visited it (call s data) else visit_invalid it data.

Definition visit_subdoc (it : bson_iter_t) (docbuf : option bytes) (doclen : Z) (data : D)
    (call : bytes -> visit_fn) : visit_result :=
  b ← docbuf; ok ← bson_init_static b doclen;
  if (ok : bool) then visited it (call b data) else visit_skip it data.

Definition visit_value (it : bson_iter_t) (key : bytes) (bson_type : Z) (data : D) : visit_result :=
  match type_of_code bson_type with
  | Some BSON_TYPE_DOUBLE =>
      v ← bson_iter_double it; visited it (VISIT_FIELD (visit_double visitor) (fun f => f it key v) data)
  | Some BSON_TYPE_UTF8 =>
      '(utf8, utf8_len) ← bson_iter_utf8 it;
      visit_string it utf8 utf8_len data (fun s => VISIT_FIELD (visit_utf8 visitor) (fun f => f it key utf8_len s))
  | Some BSON_TYPE_DOCUMENT =>
      '(doclen, docbuf) ← bson_iter_document it;
      visit_subdoc it docbuf doclen data (fun b => VISIT_FIELD (visit_document visitor) (fun f => f it key b doclen))
  | Some BSON_TYPE_ARRAY =>
      '(doclen, docbuf) ← bson_iter_array it;
      visit_subdoc it docbuf doclen data (fun b => VISIT_FIELD (visit_array visitor) (fun f => f it key b doclen))
  | Some BSON_TYPE_BINARY =>
      '(subtype, binary_len, binary) ← bson_iter_binary it true; b ← binary;
      visited it (VISIT_FIELD (visit_binary visitor) (fun f => f it key subtype binary_len b) data)
  | Some BSON_TYPE_UNDEFINED => visited it (VISIT_FIELD (visit_undefined visitor) (fun f => f it key) data)
  | Some BSON_TYPE_OID =>
      oid ← bson_iter_oid it; oid ← oid; visited it (VISIT_FIELD (visit_oid visitor) (fun f => f it key oid) data)
  | Some BSON_TYPE_BOOL =>
      v ← bson_iter_bool it; visited it (VISIT_FIELD (visit_bool visitor) (fun f => f it key v) data)
  | Some BSON_TYPE_DATE_TIME =>
      v ← bson_iter_date_time it; visited it (VISIT_FIELD (visit_date_time visitor) (fun f => f it key v) data)
  | Some BSON_TYPE_NULL => visited it (VISIT_FIELD (visit_null visitor) (fun f => f it key) data)
  | Some BSON_TYPE_REGEX =>
      '(regex, options) ← bson_iter_regex it; regex ← regex; options ← options; len ← strlen regex;
      visit_string it (Some regex) len data (fun r => VISIT_FIELD (visit_regex visitor) (fun f => f it key r options))
  | Some BSON_TYPE_DBPOINTER =>
      '(collection_len, collection, oid) ← bson_iter_dbpointer it;
      visit_string it collection collection_len data
        (fun c => VISIT_FIELD (visit_dbpointer visitor) (fun f => f it key collection_len c oid))
  | Some BSON_TYPE_CODE =>
      '(code, code_len) ← bson_iter_code it;
      visit_string it code code_len data (fun s => VISIT_FIELD (visit_code visitor) (fun f => f it key code_len s))
  | Some BSON_TYPE_SYMBOL =>
      '(symbol, symbol_len) ← bson_iter_symbol it;
      visit_string it symbol symbol_len data
        (fun s => VISIT_FIELD (visit_symbol visitor) (fun f => f it key symbol_len s))
  | Some BSON_TYPE_CODEWSCOPE =>
      '(code, length, doclen, docbuf) ← bson_iter_codewscope it; code ← code;
      valid ← bson_utf8_validate code length true;
      if negb valid then visit_invalid it data else
      visit_subdoc it docbuf doclen data
        (fun b => VISIT_FIELD (visit_codewscope visitor) (fun f => f it key length code b doclen))
  | Some BSON_TYPE_INT32 =>
      v ← bson_iter_int32 it; visited it (VISIT_FIELD (visit_int32 visitor) (fun f => f it key v) data)
  | Some BSON_TYPE_TIMESTAMP =>
      '(timestamp, increment) ← bson_iter_timestamp it;
      visited it (VISIT_FIELD (visit_timestamp visitor) (fun f => f it key timestamp increment) data)
  | Some BSON_TYPE_INT64 =>
      v ← bson_iter_int64 it; visited it (VISIT_FIELD (visit_int64 visitor) (fun f => f it key v) data)
  | Some BSON_TYPE_DECIMAL128 =>
      d ← bson_iter_decimal128 it; dec ← d;
      visited it (VISIT_FIELD (visit_decimal128 visitor) (fun f => f it key dec) data)
  | Some BSON_TYPE_MAXKEY =>
      k ← bson_iter_key_unsafe it; visited it (VISIT_FIELD (visit_maxkey visitor) (fun f => f it k) data)
  | Some BSON_TYPE_MINKEY =>
      k ← bson_iter_key_unsafe it; visited it (VISIT_FIELD (visit_minkey visitor) (fun f => f it k) data)
  | Some BSON_TYPE_EOD | None => Some (false, it, data)
  end.

(** After the loop. *)
Definition visit_end (it : bson_iter_t) (key : option bytes) (bson_type : Z) (unsupported : bool) (data : D) :
    visit_result :=
  if it_err_off it =? 0 then Some (false, it, data) else
  told ← (if unsupported then
            match visit_unsupported_type visitor with
            | Some f =>
                k ← key; len ← strlen k; valid ← bson_utf8_validate k len false;
                if (valid : bool) then data ← f it k bson_type data; Some (Some data) else Some None
            | None => Some None
            end
          else Some None);
  match told with
  | Some data => Some (false, it, data)
  | None =>
      match visit_corrupt visitor with
      | Some f => data ← f it data; Some (false, it, data)
      | None => Some (false, it, data)
      end
  end.

(** [key\[0\] && !bson_utf8_validate (key, strlen (key), false)] *)
Definition key_invalid (key : bytes) : option bool :=
  c ← rd key 0;
  if byte_eqb c x00 then Some false else
  len ← strlen key; valid ← bson_utf8_validate key len false; Some (negb valid).

Fixpoint visit_all_loop (fuel : nat) (it : bson_iter_t) (key : option bytes) (bson_type : Z) (data : D) : visit_result :=
  match fuel with
  | O => None
  | S fuel' =>
      r ← _bson_iter_next_internal it 0;
      let it := nr_iter r in
      let key := default key (nr_key r) in
      let bson_type := default bson_type (nr_type r) in
      if negb (nr_ok r) then visit_end it key bson_type (nr_unsupported r) data else
      k ← key;
      bad ← key_invalid k;
      if (bad : bool) then visit_end (set_err it (it_off it)) key bson_type (nr_unsupported r) data else
      '(stop, data) ← VISIT_FIELD (visit_before visitor) (fun f => f it k) data;
      if (stop : bool) then Some (true, it, data) else
      '(stop, it, data) ← visit_value it k bson_type data;
      if (stop : bool) then Some (true, it, data) else
      k ← bson_iter_key_unsafe it;
      '(stop, data) ← VISIT_FIELD (visit_after visitor) (fun f => f it k) data;
      if (stop : bool) then Some (true, it, data) else
      visit_all_loop fuel' it key bson_type data
  end.

Definition bson_iter_visit_all (it : bson_iter_t) (data : D) : visit_result :=
  visit_all_loop (iter_fuel it) it None 0 data.
End Visit.

Arguments bson_visitor_t : clear implicits.
