(* ===== verification/Json.v ===== *)
(** Documents as extended JSON text: [common-json.c], the inline functions of
    [common-json-private.h], and [bson_as_json_with_opts] with the functions
    around it ([bson/bson.c], [bson/bson-json.c]). *)

From Stdlib Require Import Strings.String.
From S2P Require Import Prelude CString Text IntEncode BsonTypes BsonIter BsonView Utf8 CommonString.
From S2P Require Import StringFormat DoubleText Calendar Decimal128 BsonVisit.

Inductive bson_json_mode_t := BSON_JSON_MODE_LEGACY | BSON_JSON_MODE_CANONICAL | BSON_JSON_MODE_RELAXED.

Record bson_json_opts_t := JsonOpts { mode : bson_json_mode_t; max_len : Z; is_outermost_array : bool }.

Definition BSON_MAX_LEN_UNLIMITED : Z := -1.
Definition BSON_MAX_RECURSION : nat := 200.

Definition bson_json_opts_new (mode : bson_json_mode_t) (max_len : Z) : bson_json_opts_t := JsonOpts mode max_len false.
Definition bson_json_opts_set_outermost_array (opts : bson_json_opts_t) (is_outermost_array : bool) : bson_json_opts_t :=
  JsonOpts (mode opts) (max_len opts) is_outermost_array.

Definition is_legacy (m : bson_json_mode_t) : bool := match m with BSON_JSON_MODE_LEGACY => true | _ => false end.
Definition is_canonical (m : bson_json_mode_t) : bool := match m with BSON_JSON_MODE_CANONICAL => true | _ => false end.
Definition is_relaxed (m : bson_json_mode_t) : bool := match m with BSON_JSON_MODE_RELAXED => true | _ => false end.

(** ** Text

    A literal of the code, with a double quote (code 34) for every single one. *)
Definition js (s : string) : bytes := map (fun c => if byte_eqb c (z2b 39) then z2b 34 else c) (txt s).
Definition jlit (s : string) : bytes := js s ++ [x00].

(** [%0wd] and [%02x] of one byte. *)
Definition pad0 (w : Z) (s : bytes) : bytes := replicate (Z.to_nat (w - zlen s)) (z2b 48) ++ s.
Definition dec0 (w z : Z) : bytes := if z <? 0 then [z2b 45] ++ pad0 (w - 1) (dec (- z)) else pad0 w (dec z).
Definition hex_digit (d : Z) : byte := if d <? 10 then z2b (48 + d) else z2b (87 + d).
Definition hex2 (z : Z) : bytes := [hex_digit (z / 16); hex_digit (z mod 16)].

(** [%Y-%m-%dT%H:%M:%S] *)
Definition strftime_iso (t : tm) : bytes :=
  sdec (tm_year t + 1900) ++ txt "-" ++ dec02 (tm_mon t + 1) ++ txt "-" ++ dec02 (tm_mday t) ++ txt "T" ++
  dec02 (tm_hour t) ++ txt ":" ++ dec02 (tm_min t) ++ txt ":" ++ dec02 (tm_sec t).

Section Json.
Context (malloc : Z -> bytes).

(** Operations in the notation of the code: [a <&&> b] is [a && b], and [a <;> b]
    is [(void) a; b]. *)
Local Infix "<&&>" := op_and (at level 60, right associativity).
Local Infix "<;>" := op_then (at level 60, right associativity).
Local Abbreviation append_lit s := (fun append => mcommon_string_append malloc append (jlit s)).
Local Abbreviation printf text := (fun append => mcommon_string_append_printf malloc append text).

(** ** Escaped strings *)

Definition digit_table : bytes := txt "0123456789abcdef".

(** [digit_table\[0xf & (c >> shift)\]] *)
Definition hex_char_digit (c shift : Z) : byte := nth (Z.to_nat (Z.land 0xf (Z.shiftr c shift))) digit_table x00.

Definition mcommon_json_append_hex_char (c : Z) : append_op := fun append =>
  mcommon_string_append_bytes malloc append
    ([z2b 92; z2b 117] ++ [hex_char_digit c 12; hex_char_digit c 8; hex_char_digit c 4; hex_char_digit c 0]) 6.

Definition special_table : list Z := [0x00000004ffffffff; 0x0000000010000000; 0; 1].

Definition mcommon_json_append_escaped_considers_byte_as_special (byte : byte) : bool :=
  let entry := nth (Z.to_nat (Z.shiftr (b2z byte) 6)) special_table 0 in
  negb (Z.land entry (Z.shiftl 1 (Z.land (b2z byte) 0x3f)) =? 0).

(** [len] bytes of [str]. *)
Fixpoint count_non_special (len : nat) (str : bytes) : option Z :=
  match len with
  | O => Some 0
  | S len' =>
      match str with
      | [] => None
      | c :: str' =>
          if mcommon_json_append_escaped_considers_byte_as_special c then Some 0
          else n ← count_non_special len' str'; Some (n + 1)
      end
  end.

Definition mcommon_json_append_escaped_count_non_special_bytes (str : bytes) (len : Z) : option Z :=
  count_non_special (Z.to_nat len) str.

(** What the switch comes to: a failure, the character and how many bytes it
    took, or a run that begins with it. *)
Inductive escape_step :=
  | EscFail (append : mcommon_string_append_t)
  | EscNext (append : mcommon_string_append_t) (count : Z)
  | EscRun.

(** [if (!op) return false; break;] *)
Definition esc_put (r : option (bool * mcommon_string_append_t)) (count : Z) : option escape_step :=
  '(ok, append) ← r; Some (if (ok : bool) then EscNext append count else EscFail append).

Definition escape_switch (append : mcommon_string_append_t) (str : bytes) (len : Z) (allow_nul : bool) :
    option escape_step :=
  c ← rd str 0;
  if byte_eqb c (z2b 34) then esc_put (append_lit "\'" append) 1
  else if byte_eqb c (z2b 92) then esc_put (append_lit "\\" append) 1
  else if byte_eqb c (z2b 8) then esc_put (append_lit "\b" append) 1
  else if byte_eqb c (z2b 12) then esc_put (append_lit "\f" append) 1
  else if byte_eqb c (z2b 10) then esc_put (append_lit "\n" append) 1
  else if byte_eqb c (z2b 13) then esc_put (append_lit "\r" append) 1
  else if byte_eqb c (z2b 9) then esc_put (append_lit "\t" append) 1
  else if byte_eqb c x00 then
    if negb allow_nul then Some (EscFail append) else esc_put (mcommon_json_append_hex_char 0 append) 1
  else if byte_eqb c (z2b 0xc0) then
    nul ← (if 2 <=? len then c1 ← rd str 1; Some (byte_eqb c1 (z2b 0x80)) else Some false);
    if (nul : bool) then
      if negb allow_nul then Some (EscFail append) else esc_put (mcommon_json_append_hex_char 0 append) 2
    else Some EscRun
  else if b2z c <? 0x20 then esc_put (mcommon_json_append_hex_char (b2z c) append) 1
  else None.

Fixpoint escaped_loop (fuel : nat) (append : mcommon_string_append_t) (str : bytes) (len non_special_len : Z)
    (allow_nul : bool) : option (bool * mcommon_string_append_t) :=
  match fuel with
  | O => None
  | S fuel' =>
      if len =? 0 then Some (mcommon_string_status_from_append append, append) else
      '(ok, append) ← mcommon_string_append_bytes malloc append str non_special_len;
      if negb ok then Some (false, append) else
      str ← padd str non_special_len;
      let len := len - non_special_len in
      if len =? 0 then escaped_loop fuel' append str len non_special_len allow_nul else
      step ← escape_switch append str len allow_nul;
      match step with
      | EscFail append => Some (false, append)
      | EscNext append count =>
          str ← padd str count;
          let len := len - count in
          non_special_len ← mcommon_json_append_escaped_count_non_special_bytes str len;
          escaped_loop fuel' append str len non_special_len allow_nul
      | EscRun =>
          rest ← padd str 1;
          n ← mcommon_json_append_escaped_count_non_special_bytes rest (len - 1);
          escaped_loop fuel' append str len (n + 1) allow_nul
      end
  end.

(** Every second round takes a byte. *)
Definition mcommon_json_append_escaped (str : bytes) (len : Z) (allow_nul : bool) : append_op := fun append =>
  non_special_len ← mcommon_json_append_escaped_count_non_special_bytes str len;
  escaped_loop (S (S (2 * Z.to_nat len))) append str len non_special_len allow_nul.

Definition mcommon_json_append_separator : append_op := append_lit ", ".

Definition mcommon_json_append_key (str : bytes) (len : Z) : append_op :=
  append_lit "'" <&&> mcommon_json_append_escaped str len false <&&> append_lit "' : ".

Definition mcommon_json_append_value_utf8 (str : bytes) (len : Z) (allow_nul : bool) : append_op :=
  append_lit "'" <&&> mcommon_json_append_escaped str len allow_nul <&&> append_lit "'".

(** ** Values *)

Definition mcommon_json_append_value_int32 (value : Z) (mode : bson_json_mode_t) : append_op :=
  if is_canonical mode then printf (js "{ '$numberInt' : '" ++ sdec value ++ js "' }") else printf (sdec value).

Definition mcommon_json_append_value_int64 (value : Z) (mode : bson_json_mode_t) : append_op :=
  if is_canonical mode then printf (js "{ '$numberLong' : '" ++ sdec value ++ js "' }") else printf (sdec value).

Definition mcommon_json_append_value_bool (value : bool) : append_op :=
  append_lit (if value then "true" else "false").
Definition mcommon_json_append_value_undefined : append_op := append_lit "{ '$undefined' : true }".
Definition mcommon_json_append_value_null : append_op := append_lit "null".
Definition mcommon_json_append_value_minkey : append_op := append_lit "{ '$minKey' : 1 }".
Definition mcommon_json_append_value_maxkey : append_op := append_lit "{ '$maxKey' : 1 }".

(** [strspn (s, "0123456789-") == strlen (s)] over [n] bytes. *)
Definition integer_chars (s : bytes) : bool :=
  forallb (fun c => ((48 <=? b2z c) && (b2z c <=? 57)) || (b2z c =? 45)) s.

(** [gmtime] fails for a year out of range, and the time is not set. *)
Definition mcommon_iso8601_string_append (msec_since_epoch : Z) : append_op := fun append =>
  let msec_part := Z.rem msec_since_epoch 1000 in
  t ← gmtime (Z.quot msec_since_epoch 1000);
  let buf := strftime_iso t in
  if negb (msec_part =? 0) then printf (buf ++ txt "." ++ dec0 3 msec_part ++ txt "Z") append
  else printf (buf ++ txt "Z") append.

(** The last branch: the digits, and [".0"] behind an integer. *)
Definition append_double_text (value : Z) : append_op := fun append =>
  let start_len := mcommon_strlen_from_append append in
  '(ok, append) ← printf (printf_20g value) append;
  if (ok : bool) then
    s ← slice (mcommon_str_from_append append) start_len (mcommon_strlen_from_append append - start_len);
    if integer_chars s then append_lit ".0" append else Some (true, append)
  else Some (false, append).

(** [value] is the bit pattern; [value * 0 != 0] holds of infinities and NaNs. *)
Definition mcommon_json_append_value_double (value : Z) (mode : bson_json_mode_t) : append_op := fun append =>
  let finite := negb (double_is_nan value || double_is_inf value) in
  let legacy := is_legacy mode || (is_relaxed mode && finite) in
  '(_, append) ← (if negb legacy then append_lit "{ '$numberDouble' : '" append else Some (true, append));
  '(_, append) ←
    (if negb legacy && double_is_nan value then append_lit "NaN" append
     else if negb legacy && double_is_inf value then
       append_lit (if double_negative value then "-Infinity" else "Infinity") append
     else append_double_text value append);
  '(_, append) ← (if negb legacy then append_lit "' }" append else Some (true, append));
  Some (mcommon_string_status_from_append append, append).

Definition mcommon_json_append_value_decimal128 (value : bson_decimal128_t) : append_op := fun append =>
  decimal128_string ← bson_decimal128_to_string value (malloc BSON_DECIMAL128_STRING);
  (append_lit "{ '$numberDecimal' : '" <&&>
   (fun append => mcommon_string_append malloc append decimal128_string) <&&> append_lit "' }") append.

Definition append_oid_as_hex (value : bytes) : append_op :=
  fun append => mcommon_string_append_oid_as_hex malloc append value.

Definition mcommon_json_append_value_oid (value : bytes) : append_op :=
  append_lit "{ '$oid' : '" <&&> append_oid_as_hex value <&&> append_lit "' }".

Definition append_base64_encode (bytes : list byte) (len : Z) : append_op :=
  fun append => mcommon_string_append_base64_encode malloc append bytes len.

Definition mcommon_json_append_value_binary (subtype : Z) (bytes : list byte) (byte_count : Z)
    (mode : bson_json_mode_t) : append_op :=
  if negb (is_legacy mode) then
    append_lit "{ '$binary' : { 'base64' : '" <&&> append_base64_encode bytes byte_count <&&>
    printf (js "', 'subType' : '" ++ hex2 subtype ++ js "' } }")
  else
    append_lit "{ '$binary' : '" <&&> append_base64_encode bytes byte_count <&&>
    printf (js "', '$type' : '" ++ hex2 subtype ++ js "' }").

Definition y10k : Z := 253402300800000.

Definition mcommon_json_append_value_date_time (msec_since_epoch : Z) (mode : bson_json_mode_t) : append_op :=
  if is_canonical mode || (is_relaxed mode && ((msec_since_epoch <? 0) || (y10k <=? msec_since_epoch)))
  then printf (js "{ '$date' : { '$numberLong' : '" ++ sdec msec_since_epoch ++ js "' } }")
  else if is_relaxed mode then
    append_lit "{ '$date' : '" <&&> mcommon_iso8601_string_append msec_since_epoch <&&> append_lit "' }"
  else printf (js "{ '$date' : " ++ sdec msec_since_epoch ++ js " }").

Definition mcommon_json_append_value_timestamp (timestamp increment : Z) : append_op :=
  printf (js "{ '$timestamp' : { 't' : " ++ dec timestamp ++ js ", 'i' : " ++ dec increment ++ js " } }").

Definition BSON_REGEX_OPTIONS_SORTED : bytes := lit "ilmsux".

Definition append_selected_chars (selector : bytes) (selector_len : Z) : append_op := fun append =>
  mcommon_string_append_selected_chars malloc append BSON_REGEX_OPTIONS_SORTED selector selector_len.

Definition mcommon_json_append_value_regex (pattern : bytes) (pattern_len : Z) (options : bytes) (options_len : Z)
    (mode : bson_json_mode_t) : append_op :=
  if negb (is_legacy mode) then
    append_lit "{ '$regularExpression' : { 'pattern' : '" <&&> mcommon_json_append_escaped pattern pattern_len false <&&>
    append_lit "', 'options' : '" <&&> append_selected_chars options options_len <&&> append_lit "' } }"
  else
    append_lit "{ '$regex' : '" <&&> mcommon_json_append_escaped pattern pattern_len false <&&>
    append_lit "', '$options' : '" <&&> append_selected_chars options options_len <&&> append_lit "' }".

(** [!oid || op] *)
Definition when_oid (oid : option bytes) (op : bytes -> append_op) : append_op :=
  match oid with None => fun append => Some (true, append) | Some oid => op oid end.

Definition mcommon_json_append_value_dbpointer (collection : bytes) (collection_len : Z) (oid : option bytes)
    (mode : bson_json_mode_t) : append_op :=
  if negb (is_legacy mode) then
    append_lit "{ '$dbPointer' : { '$ref' : '" <&&> mcommon_json_append_escaped collection collection_len false <&&>
    append_lit "'" <&&>
    when_oid oid (fun oid => append_lit ", '$id' : " <&&> mcommon_json_append_value_oid oid) <&&> append_lit " } }"
  else
    append_lit "{ '$ref' : '" <&&> mcommon_json_append_escaped collection collection_len false <&&>
    append_lit "'" <&&>
    when_oid oid (fun oid => append_lit ", '$id' : '" <&&> append_oid_as_hex oid) <&&> append_lit "' }".

Definition mcommon_json_append_value_code (code : bytes) (code_len : Z) : append_op :=
  append_lit "{ '$code' : '" <&&> mcommon_json_append_escaped code code_len true <&&> append_lit "' }".

Definition mcommon_json_append_value_symbol (symbol : bytes) (symbol_len : Z) (mode : bson_json_mode_t) : append_op :=
  if negb (is_legacy mode) then
    append_lit "{ '$symbol' : '" <&&> mcommon_json_append_escaped symbol symbol_len true <&&> append_lit "' }"
  else mcommon_json_append_value_utf8 symbol symbol_len true.

(** ** The visitor

    [document] and [array] are [mcommon_json_append_bson_document] and
    [mcommon_json_append_bson_array] with the [max_depth] of the state. *)
Record mcommon_json_append_visit_t := JsonVisit {
  jv_append : mcommon_string_append_t;
  jv_mode : bson_json_mode_t;
  jv_has_keys : bool;
  jv_not_first_item : bool;
  jv_is_corrupt : bool
}.

Definition set_append (state : mcommon_json_append_visit_t) (append : mcommon_string_append_t) :=
  JsonVisit append (jv_mode state) (jv_has_keys state) (jv_not_first_item state) (jv_is_corrupt state).
Definition set_not_first (state : mcommon_json_append_visit_t) :=
  JsonVisit (jv_append state) (jv_mode state) (jv_has_keys state) true (jv_is_corrupt state).
Definition set_corrupt (state : mcommon_json_append_visit_t) :=
  JsonVisit (jv_append state) (jv_mode state) (jv_has_keys state) (jv_not_first_item state) true.

Local Abbreviation visit_step := (mcommon_json_append_visit_t -> option (bool * mcommon_json_append_visit_t)).

(** [return !op (state->append, ...);] *)
Definition visit_op (op : bson_json_mode_t -> append_op) : visit_step := fun state =>
  '(ok, append) ← op (jv_mode state) (jv_append state); Some (negb ok, set_append state append).

(** The guard [if (!mlib_in_range (uint32_t, len))]. *)
Definition visit_sized (len : Z) (op : bson_json_mode_t -> append_op) : visit_step := fun state =>
  if UINT32_MAX <? len then Some (true, set_append state (mcommon_string_append_overflow (jv_append state)))
  else visit_op op state.

(** What [mcommon_json_append_bson_document] and the like answer is whether the
    document was valid. *)
Definition visit_nested (r : option (bool * mcommon_string_append_t)) (state : mcommon_json_append_visit_t) :
    option (bool * mcommon_json_append_visit_t) :=
  '(valid, append) ← r;
  let state := set_append state append in
  if (valid : bool) then Some (negb (mcommon_string_status_from_append (jv_append state)), state)
  else Some (true, set_corrupt state).

Definition mcommon_json_append_visit_before (key : bytes) : visit_step := fun state =>
  if negb (mcommon_string_status_from_append (jv_append state)) then Some (true, state) else
  '(ok, state) ←
    (if jv_not_first_item state
     then '(ok, append) ← mcommon_json_append_separator (jv_append state); Some (ok, set_append state append)
     else Some (true, set_not_first state));
  if negb ok then Some (true, state) else
  if jv_has_keys state then
    key_len ← strlen key;
    if UINT32_MAX <? key_len then Some (true, set_append state (mcommon_string_append_overflow (jv_append state))) else
    '(ok, append) ← mcommon_json_append_key key key_len (jv_append state);
    Some (negb ok, set_append state append)
  else Some (false, state).

Definition mcommon_json_append_visit_after : visit_step := fun state =>
  Some (negb (mcommon_string_status_from_append (jv_append state)), state).

Definition mcommon_json_append_visit_corrupt (state : mcommon_json_append_visit_t) : option mcommon_json_append_visit_t :=
  Some (set_corrupt state).

Section Visitors.
Context (document array : bytes -> Z -> bson_json_mode_t -> append_op).

Definition mcommon_json_append_value_codewscope (code : bytes) (code_len : Z) (scope : bytes) (scope_len : Z)
    (mode : bson_json_mode_t) : append_op :=
  append_lit "{ '$code' : '" <;> mcommon_json_append_escaped code code_len true <;> append_lit "', '$scope' : " <;>
  (fun append =>
     '(result, append) ← document scope scope_len mode append;
     '(_, append) ← append_lit " }" append; Some (result, append)).

(** *** The callbacks *)

Definition mcommon_json_append_visit_utf8 (key : bytes) (v_utf8_len : Z) (v_utf8 : bytes) : visit_step :=
  visit_sized v_utf8_len (fun _ => mcommon_json_append_value_utf8 v_utf8 v_utf8_len true).
Definition mcommon_json_append_visit_int32 (key : bytes) (v_int32 : Z) : visit_step :=
  visit_op (mcommon_json_append_value_int32 v_int32).
Definition mcommon_json_append_visit_int64 (key : bytes) (v_int64 : Z) : visit_step :=
  visit_op (mcommon_json_append_value_int64 v_int64).
Definition mcommon_json_append_visit_decimal128 (key : bytes) (value : Z * Z) : visit_step :=
  visit_op (fun _ => mcommon_json_append_value_decimal128 (Decimal128 (snd value) (fst value))).
Definition mcommon_json_append_visit_double (key : bytes) (v_double : Z) : visit_step :=
  visit_op (mcommon_json_append_value_double v_double).
Definition mcommon_json_append_visit_undefined (key : bytes) : visit_step :=
  visit_op (fun _ => mcommon_json_append_value_undefined).
Definition mcommon_json_append_visit_null (key : bytes) : visit_step := visit_op (fun _ => mcommon_json_append_value_null).
Definition mcommon_json_append_visit_oid (key oid : bytes) : visit_step :=
  visit_op (fun _ => mcommon_json_append_value_oid oid).
Definition mcommon_json_append_visit_binary (key : bytes) (v_subtype v_binary_len : Z) (v_binary : bytes) : visit_step :=
  visit_sized v_binary_len (mcommon_json_append_value_binary v_subtype v_binary v_binary_len).
Definition mcommon_json_append_visit_bool (key : bytes) (v_bool : bool) : visit_step :=
  visit_op (fun _ => mcommon_json_append_value_bool v_bool).
Definition mcommon_json_append_visit_date_time (key : bytes) (msec_since_epoch : Z) : visit_step :=
  visit_op (mcommon_json_append_value_date_time msec_since_epoch).
Definition mcommon_json_append_visit_regex (key v_regex v_options : bytes) : visit_step := fun state =>
  regex_len ← strlen v_regex; options_len ← strlen v_options;
  visit_sized regex_len (mcommon_json_append_value_regex v_regex regex_len v_options options_len) state.
Definition mcommon_json_append_visit_timestamp (key : bytes) (v_timestamp v_increment : Z) : visit_step :=
  visit_op (fun _ => mcommon_json_append_value_timestamp v_timestamp v_increment).
Definition mcommon_json_append_visit_dbpointer (key : bytes) (v_collection_len : Z) (v_collection : bytes)
    (v_oid : option bytes) : visit_step :=
  visit_sized v_collection_len (mcommon_json_append_value_dbpointer v_collection v_collection_len v_oid).
Definition mcommon_json_append_visit_minkey (key : bytes) : visit_step := visit_op (fun _ => mcommon_json_append_value_minkey).
Definition mcommon_json_append_visit_maxkey (key : bytes) : visit_step := visit_op (fun _ => mcommon_json_append_value_maxkey).
Definition mcommon_json_append_visit_code (key : bytes) (v_code_len : Z) (v_code : bytes) : visit_step :=
  visit_sized v_code_len (fun _ => mcommon_json_append_value_code v_code v_code_len).
Definition mcommon_json_append_visit_symbol (key : bytes) (v_symbol_len : Z) (v_symbol : bytes) : visit_step :=
  visit_sized v_symbol_len (mcommon_json_append_value_symbol v_symbol v_symbol_len).
Definition mcommon_json_append_visit_codewscope (key : bytes) (v_code_len : Z) (v_code v_scope : bytes) (scope_len : Z) :
    visit_step := fun state =>
  if UINT32_MAX <? v_code_len then Some (true, set_append state (mcommon_string_append_overflow (jv_append state))) else
  visit_nested (mcommon_json_append_value_codewscope v_code v_code_len v_scope scope_len (jv_mode state) (jv_append state)) state.
Definition mcommon_json_append_visit_document (key v_document : bytes) (len : Z) : visit_step := fun state =>
  visit_nested (document v_document len (jv_mode state) (jv_append state)) state.
Definition mcommon_json_append_visit_array (key v_array : bytes) (len : Z) : visit_step := fun state =>
  visit_nested (array v_array len (jv_mode state) (jv_append state)) state.

Definition visitors : bson_visitor_t mcommon_json_append_visit_t := {|
  visit_before := Some (fun _ => mcommon_json_append_visit_before);
  visit_after := Some (fun _ _ => mcommon_json_append_visit_after);
  visit_corrupt := Some (fun _ => mcommon_json_append_visit_corrupt);
  visit_double := Some (fun _ => mcommon_json_append_visit_double);
  visit_utf8 := Some (fun _ => mcommon_json_append_visit_utf8);
  visit_document := Some (fun _ => mcommon_json_append_visit_document);
  visit_array := Some (fun _ => mcommon_json_append_visit_array);
  visit_binary := Some (fun _ => mcommon_json_append_visit_binary);
  visit_undefined := Some (fun _ => mcommon_json_append_visit_undefined);
  visit_oid := Some (fun _ => mcommon_json_append_visit_oid);
  visit_bool := Some (fun _ => mcommon_json_append_visit_bool);
  visit_date_time := Some (fun _ => mcommon_json_append_visit_date_time);
  visit_null := Some (fun _ => mcommon_json_append_visit_null);
  visit_regex := Some (fun _ => mcommon_json_append_visit_regex);
  visit_dbpointer := Some (fun _ => mcommon_json_append_visit_dbpointer);
  visit_code := Some (fun _ => mcommon_json_append_visit_code);
  visit_symbol := Some (fun _ => mcommon_json_append_visit_symbol);
  visit_codewscope := Some (fun _ => mcommon_json_append_visit_codewscope);
  visit_int32 := Some (fun _ => mcommon_json_append_visit_int32);
  visit_timestamp := Some (fun _ => mcommon_json_append_visit_timestamp);
  visit_int64 := Some (fun _ => mcommon_json_append_visit_int64);
  visit_maxkey := Some (fun _ => mcommon_json_append_visit_maxkey);
  visit_minkey := Some (fun _ => mcommon_json_append_visit_minkey);
  visit_unsupported_type := None;
  visit_decimal128 := Some (fun _ => mcommon_json_append_visit_decimal128)
|}.

(** The answer is that the document was valid; a stop at the limit is not an
    error. *)
Definition mcommon_json_append_bson_values (bson : bytes) (len : Z) (mode : bson_json_mode_t) (has_keys : bool) :
    append_op := fun append =>
  let '(ok, iter) := bson_iter_init bson len in
  if negb ok then Some (false, append) else
  '(_, iter, state) ← bson_iter_visit_all visitors iter (JsonVisit append mode has_keys false false);
  Some ((it_err_off iter =? 0) && negb (jv_is_corrupt state), jv_append state).
End Visitors.

(** The texts of a container. *)
Record json_container := Container { ct_has_keys : bool; ct_empty : string; ct_begin : string; ct_end : string; ct_omitted : string }.
Definition json_document_style := Container true "{ }" "{ " " }" "{ ... }".
Definition json_array_style := Container false "[ ]" "[ " " ]" "[ ... ]".

Fixpoint mcommon_json_append_bson_container (max_depth : nat) (style : json_container) (bson : bytes) (len : Z)
    (mode : bson_json_mode_t) : append_op := fun append =>
  empty ← bson_empty bson len;
  if (empty : bool) then '(_, append) ← append_lit (ct_empty style) append; Some (true, append) else
  match max_depth with
  | O => '(_, append) ← append_lit (ct_omitted style) append; Some (true, append)
  | S max_depth' =>
      '(_, append) ← append_lit (ct_begin style) append;
      '(result, append) ← mcommon_json_append_bson_values
        (mcommon_json_append_bson_container max_depth' json_document_style)
        (mcommon_json_append_bson_container max_depth' json_array_style) bson len mode (ct_has_keys style) append;
      '(_, append) ← append_lit (ct_end style) append; Some (result, append)
  end.

Definition mcommon_json_append_bson_document (bson : bytes) (len : Z) (mode : bson_json_mode_t) (max_depth : nat) : append_op :=
  mcommon_json_append_bson_container max_depth json_document_style bson len mode.
Definition mcommon_json_append_bson_array (bson : bytes) (len : Z) (mode : bson_json_mode_t) (max_depth : nat) : append_op :=
  mcommon_json_append_bson_container max_depth json_array_style bson len mode.

(** ** [bson_as_json_with_opts]

    The result is the buffer and the length, or [NULL] and zero. *)
Definition bson_as_json_with_opts (bson : bytes) (len : Z) (opts : bson_json_opts_t) : option (option bytes * Z) :=
  let limit_i32 := max_len opts in
  let limit_u32 := if limit_i32 =? BSON_MAX_LEN_UNLIMITED then UINT32_MAX - 1 else if 0 <? limit_i32 then limit_i32 else 0 in
  string ← mcommon_string_new_with_capacity malloc [x00] 0 len;
  append ← mcommon_string_set_append_with_limit string limit_u32;
  '(ok, append) ←
    (if is_outermost_array opts then mcommon_json_append_bson_array bson len (mode opts) BSON_MAX_RECURSION append
     else mcommon_json_append_bson_document bson len (mode opts) BSON_MAX_RECURSION append);
  if (ok : bool) then
    str ← mcommon_string_destroy_with_steal (ap_string append);
    Some (Some str, mcommon_strlen_from_append append)
  else Some (None, 0).

Definition bson_as_canonical_extended_json (bson : bytes) (len : Z) :=
  bson_as_json_with_opts bson len (JsonOpts BSON_JSON_MODE_CANONICAL BSON_MAX_LEN_UNLIMITED false).
Definition bson_as_legacy_extended_json (bson : bytes) (len : Z) :=
  bson_as_json_with_opts bson len (JsonOpts BSON_JSON_MODE_LEGACY BSON_MAX_LEN_UNLIMITED false).
Definition bson_as_relaxed_extended_json (bson : bytes) (len : Z) :=
  bson_as_json_with_opts bson len (JsonOpts BSON_JSON_MODE_RELAXED BSON_MAX_LEN_UNLIMITED false).
Definition bson_array_as_legacy_extended_json (bson : bytes) (len : Z) :=
  bson_as_json_with_opts bson len (JsonOpts BSON_JSON_MODE_LEGACY BSON_MAX_LEN_UNLIMITED true).
Definition bson_array_as_relaxed_extended_json (bson : bytes) (len : Z) :=
  bson_as_json_with_opts bson len (JsonOpts BSON_JSON_MODE_RELAXED BSON_MAX_LEN_UNLIMITED true).
Definition bson_array_as_canonical_extended_json (bson : bytes) (len : Z) :=
  bson_as_json_with_opts bson len (JsonOpts BSON_JSON_MODE_CANONICAL BSON_MAX_LEN_UNLIMITED true).
End Json.
