(* ===== verification/JsonSpec.v ===== *)
(** What the JSON output is measured against: the text of a document as a tree
    ([json_doc]), and the operations of [Json] that print values, as appends of
    that text ([writes]). *)

From Stdlib Require Import Strings.String.
From S2P Require Import Prelude CString Text IntEncode BsonTypes BsonSpec Utf8 CommonString.
From S2P Require Import Hex Base64Spec StringFormat DoubleText Calendar Decimal128 Decimal128Spec Json.

(** ** The text *)

(** A character inside a string, and a string; both forms of the NUL character
    are written as the same escape. *)
Definition json_char (c : byte) : bytes :=
  if byte_eqb c (z2b 34) then js "\'"
  else if byte_eqb c (z2b 92) then js "\\"
  else if byte_eqb c (z2b 8) then js "\b"
  else if byte_eqb c (z2b 12) then js "\f"
  else if byte_eqb c (z2b 10) then js "\n"
  else if byte_eqb c (z2b 13) then js "\r"
  else if byte_eqb c (z2b 9) then js "\t"
  else if b2z c <? 32 then js "\u00" ++ hex2 (b2z c)
  else [c].

Fixpoint json_escape (s : bytes) : bytes :=
  match s with
  | [] => []
  | c :: s' =>
      match s' with
      | c1 :: s'' =>
          if byte_eqb c (z2b 0xC0) && byte_eqb c1 (z2b 0x80) then js "\u0000" ++ json_escape s''
          else json_char c ++ json_escape s'
      | [] => json_char c
      end
  end.

Definition json_string (s : bytes) : bytes := js "'" ++ json_escape s ++ js "'".

(** The number to 20 digits; an integer gets a fraction, to tell it from one. *)
Definition double_text (bits : Z) : bytes :=
  let t := printf_20g bits in if integer_chars t then t ++ txt ".0" else t.

Definition double_finite (bits : Z) : bool := negb (double_is_nan bits || double_is_inf bits).

Definition json_double (m : bson_json_mode_t) (bits : Z) : bytes :=
  let wrapped t := js "{ '$numberDouble' : '" ++ t ++ js "' }" in
  match m with
  | BSON_JSON_MODE_LEGACY => double_text bits
  | _ =>
      if double_is_nan bits then wrapped (txt "NaN")
      else if double_is_inf bits then wrapped (txt (if double_negative bits then "-Infinity" else "Infinity"))
      else if is_canonical m then wrapped (double_text bits) else double_text bits
  end.

(** Milliseconds since the epoch, as a date of ISO 8601. *)
Definition iso_text (msec : Z) : bytes :=
  match gmtime (Z.quot msec 1000) with
  | Some t => strftime_iso t ++ (if Z.rem msec 1000 =? 0 then [] else txt "." ++ dec0 3 (Z.rem msec 1000)) ++ txt "Z"
  | None => []
  end.

Definition json_date (m : bson_json_mode_t) (msec : Z) : bytes :=
  match m with
  | BSON_JSON_MODE_LEGACY => js "{ '$date' : " ++ sdec msec ++ js " }"
  | BSON_JSON_MODE_RELAXED =>
      if (0 <=? msec) && (msec <? y10k) then js "{ '$date' : '" ++ iso_text msec ++ js "' }"
      else js "{ '$date' : { '$numberLong' : '" ++ sdec msec ++ js "' } }"
  | BSON_JSON_MODE_CANONICAL => js "{ '$date' : { '$numberLong' : '" ++ sdec msec ++ js "' } }"
  end.

Definition json_int (m : bson_json_mode_t) (name : string) (v : Z) : bytes :=
  if is_canonical m then js "{ '" ++ js name ++ js "' : '" ++ sdec v ++ js "' }" else sdec v.

Definition json_oid (oid : bytes) : bytes := js "{ '$oid' : '" ++ hex_text oid ++ js "' }".

(** The options the library knows, sorted. *)
Definition json_options (o : bytes) : bytes := filter (fun c => c ∈ o) (txt "ilmsux").

(** The values that hold no document. *)
Definition json_scalar (m : bson_json_mode_t) (v : bval) : bytes :=
  match v with
  | BDouble bits => json_double m bits
  | BUtf8 s => json_string s
  | BBinary st data =>
      if is_legacy m then js "{ '$binary' : '" ++ b64_text data ++ js "', '$type' : '" ++ hex2 st ++ js "' }"
      else js "{ '$binary' : { 'base64' : '" ++ b64_text data ++ js "', 'subType' : '" ++ hex2 st ++ js "' } }"
  | BUndefined => js "{ '$undefined' : true }"
  | BOid oid => json_oid oid
  | BBool b => txt (if b then "true" else "false")
  | BDateTime v => json_date m v
  | BNull => txt "null"
  | BRegex r o =>
      if is_legacy m then js "{ '$regex' : '" ++ json_escape r ++ js "', '$options' : '" ++ json_options o ++ js "' }"
      else js "{ '$regularExpression' : { 'pattern' : '" ++ json_escape r ++ js "', 'options' : '" ++
             json_options o ++ js "' } }"
  | BDBPointer c oid =>
      if is_legacy m then js "{ '$ref' : " ++ json_string c ++ js ", '$id' : '" ++ hex_text oid ++ js "' }"
      else js "{ '$dbPointer' : { '$ref' : " ++ json_string c ++ js ", '$id' : " ++ json_oid oid ++ js " } }"
  | BCode c => js "{ '$code' : " ++ json_string c ++ js " }"
  | BSymbol s => if is_legacy m then json_string s else js "{ '$symbol' : " ++ json_string s ++ js " }"
  | BInt32 v => json_int m "$numberInt" v
  | BTimestamp t i => js "{ '$timestamp' : { 't' : " ++ dec t ++ js ", 'i' : " ++ dec i ++ js " } }"
  | BInt64 v => json_int m "$numberLong" v
  | BDecimal128 lo hi => js "{ '$numberDecimal' : '" ++ dec_text (dec_value (Decimal128 hi lo)) ++ js "' }"
  | BMaxKey => js "{ '$maxKey' : 1 }"
  | BMinKey => js "{ '$minKey' : 1 }"
  | BDocument _ | BArray _ | BCodeWScope _ _ => []
  end.

(** Documents, with [depth] levels of nesting still printed. *)
Fixpoint json_val (m : bson_json_mode_t) (depth : nat) (v : bval) {struct v} : bytes :=
  let items := fix items (keys : bool) (depth : nat) (first : bool) (d : doc) : bytes :=
    match d with
    | [] => []
    | (k, v) :: d' =>
        (if first then [] else txt ", ") ++ (if keys then json_string k ++ txt " : " else []) ++
        json_val m depth v ++ items keys depth false d'
    end in
  let container (style : json_container) (d : doc) : bytes :=
    match d, depth with
    | [], _ => js (ct_empty style)
    | _, O => js (ct_omitted style)
    | _, S depth' => js (ct_begin style) ++ items (ct_has_keys style) depth' true d ++ js (ct_end style)
    end in
  match v with
  | BDocument d => container json_document_style d
  | BArray d => container json_array_style d
  | BCodeWScope c d => js "{ '$code' : " ++ json_string c ++ js ", '$scope' : " ++ container json_document_style d ++ js " }"
  | v => json_scalar m v
  end.

Fixpoint json_items (m : bson_json_mode_t) (keys : bool) (depth : nat) (first : bool) (d : doc) : bytes :=
  match d with
  | [] => []
  | e :: d' =>
      (if first then [] else txt ", ") ++ (if keys then json_string e.1 ++ txt " : " else []) ++
      json_val m depth e.2 ++ json_items m keys depth false d'
  end.

Definition json_doc (m : bson_json_mode_t) (style : json_container) (depth : nat) (d : doc) : bytes :=
  match d, depth with
  | [], _ => js (ct_empty style)
  | _, O => js (ct_omitted style)
  | _, S depth' => js (ct_begin style) ++ json_items m (ct_has_keys style) depth' true d ++ js (ct_end style)
  end.

Lemma json_items_eq m keys depth d : forall first,
  (fix items (keys : bool) (depth : nat) (first : bool) (d : doc) : bytes :=
    match d with
    | [] => []
    | (k, v) :: d' =>
        (if first then [] else txt ", ") ++ (if keys then json_string k ++ txt " : " else []) ++
        json_val m depth v ++ items keys depth false d'
    end) keys depth first d = json_items m keys depth first d.
Proof. induction d as [|[k v] d IH]; intros first; [done|]. cbn [json_items fst snd]. by rewrite IH. Qed.

Lemma json_val_document m depth d : json_val m depth (BDocument d) = json_doc m json_document_style depth d.
Proof. destruct d as [|e d], depth; try done. unfold json_doc. by rewrite <- json_items_eq. Qed.
Lemma json_val_array m depth d : json_val m depth (BArray d) = json_doc m json_array_style depth d.
Proof. destruct d as [|e d], depth; try done. unfold json_doc. by rewrite <- json_items_eq. Qed.
Lemma json_val_codewscope m depth c d :
  json_val m depth (BCodeWScope c d) =
  js "{ '$code' : " ++ json_string c ++ js ", '$scope' : " ++ json_doc m json_document_style depth d ++ js " }".
Proof. destruct d as [|e d], depth; try done. unfold json_doc. by rewrite <- json_items_eq. Qed.

(** ** Printable texts *)

(** The lengths of literals. *)
Ltac lits := repeat match goal with
  | |- context [zlen (txt ?s)] => let n := eval vm_compute in (zlen (txt s)) in change (zlen (txt s)) with n
  | |- context [zlen (js ?s)] => let n := eval vm_compute in (zlen (js s)) in change (zlen (js s)) with n
  | |- context [zlen (@nil byte)] => change (zlen (@nil byte)) with 0
  end.

(** Short and printable. *)
Definition plain (s : bytes) : Prop := ascii s /\ zlen s <= 1000.
Definition plainb (s : bytes) : bool := asciib s && (zlen s <=? 1000).

Lemma plainb_spec s : plainb s = true -> plain s.
Proof.
  unfold plainb. rewrite andb_true_iff, Z.leb_le. intros [Hs Hz]. split; [by apply asciib_spec|done].
Qed.

Lemma zlen_dec_loop n z : zlen (dec_loop n z) <= Z.of_nat n.
Proof.
  revert z. induction n as [|n IH]; intros z; cbn [dec_loop]; [done|]. rewrite zlen_app, zlen_1.
  specialize (IH (z / 10)). destruct (z <? 10); [change (zlen (@nil byte)) with 0|]; lia.
Qed.

Lemma dec_loop_ascii n z : ascii (dec_loop n z).
Proof.
  eapply Forall_impl; [apply dec_loop_digits|]. intros c Hc%isdigit_range. lia.
Qed.

Lemma dec_ascii z : ascii (dec z) /\ zlen (dec z) <= 20.
Proof. split; [apply dec_loop_ascii|apply (zlen_dec_loop 20)]. Qed.

Lemma sdec_ascii z : ascii (sdec z) /\ zlen (sdec z) <= 21.
Proof.
  unfold sdec. destruct (z <? 0).
  - destruct (dec_ascii (- z)) as [H1 H2]. split; [apply ascii_app; split; [by repeat constructor|done]|].
    rewrite zlen_app, zlen_1. lia.
  - destruct (dec_ascii z). split; [done|lia].
Qed.

Lemma hex2_ascii z : 0 <= z < 256 -> ascii (hex2 z) /\ zlen (hex2 z) = 2.
Proof.
  intros Hz. split; [|done]. unfold hex2.
  assert (H : forall d, 0 <= d < 16 -> 0 < b2z (hex_digit d) < 128).
  { intros d Hd. unfold hex_digit. destruct (Z.ltb_spec d 10); rewrite b2z_z2b_small; lia. }
  repeat constructor; apply H; Z.to_euclidean_division_equations; lia.
Qed.

Lemma dec02_ascii z : 0 <= z < 100 -> ascii (dec02 z) /\ zlen (dec02 z) = 2.
Proof.
  intros Hz. split; [|done]. unfold dec02.
  repeat constructor; rewrite b2z_z2b_small; Z.to_euclidean_division_equations; lia.
Qed.

Lemma dec0_ascii w z : 0 <= w <= 100 -> ascii (dec0 w z) /\ zlen (dec0 w z) <= 200.
Proof.
  assert (Hp : forall w s, 0 <= w + 1 <= 101 -> ascii s -> zlen s <= 20 -> ascii (pad0 w s) /\ zlen (pad0 w s) <= 121).
  { intros w' s Hw Hs Hz. unfold pad0. split; [apply ascii_app; split; [by apply Forall_replicate|done]|].
    rewrite zlen_app, zlen_replicate. pose proof (zlen_nonneg s). lia. }
  intros Hw. unfold dec0. destruct (z <? 0).
  - destruct (Hp (w - 1) (dec (- z))) as [H1 H2]; [lia|apply dec_ascii..|].
    split; [apply ascii_app; split; [by repeat constructor|done]|]. rewrite zlen_app, zlen_1. lia.
  - destruct (Hp w (dec z)) as [H1 H2]; [lia|apply dec_ascii..|]. split; [done|lia].
Qed.

Lemma plain_app s t : ascii s /\ zlen s <= 300 -> ascii t /\ zlen t <= 300 -> ascii (s ++ t) /\ zlen (s ++ t) <= 600.
Proof. intros [] []. rewrite zlen_app. split; [by apply ascii_app|lia]. Qed.

Lemma strftime_iso_ascii t : valid_tm t -> ascii (strftime_iso t) /\ zlen (strftime_iso t) <= 100.
Proof.
  intros (Hm & Hd & Hh & Hmi & Hs). pose proof (days_in_month_range (tm_year t + 1900) (tm_mon t + 1)) as Hdm.
  unfold strftime_iso.
  destruct (sdec_ascii (tm_year t + 1900)) as [H1 L1], (dec02_ascii (tm_mon t + 1)) as [H2 L2]; [lia|].
  destruct (dec02_ascii (tm_mday t)) as [H3 L3], (dec02_ascii (tm_hour t)) as [H4 L4]; [lia..|].
  destruct (dec02_ascii (tm_min t)) as [H5 L5], (dec02_ascii (tm_sec t)) as [H6 L6]; [lia..|].
  rewrite !zlen_app, L2, L3, L4, L5, L6. split; [|lits; lia].
  rewrite !ascii_app. split_and!; (done || by repeat constructor).
Qed.

(** *** Numbers with a fraction *)

Lemma strip_zeros_sub s : ascii s -> ascii (strip_zeros s) /\ zlen (strip_zeros s) <= zlen s.
Proof.
  induction 1 as [|c s Hc Hs [IH1 IH2]]; [split; [constructor|done]|]. cbn [strip_zeros]. rewrite zlen_cons. pose proof (zlen_nonneg s).
  destruct (strip_zeros s) as [|c' t].
  - destruct (byte_eqb c (z2b 48)); [split; [constructor|lits; lia]|]. split; [apply ascii_cons; [done|apply ascii_nil]|rewrite zlen_1; lia].
  - split; [by apply ascii_cons|rewrite zlen_cons; lia].
Qed.

Lemma with_point_ascii s t : ascii s -> ascii t -> ascii (with_point s t) /\ zlen (with_point s t) <= zlen s + 1 + zlen t.
Proof.
  intros Hs Ht. unfold with_point. pose proof (zlen_nonneg t). destruct t as [|c t]; [split; [done|lia]|].
  rewrite !zlen_app. split; [|lits; lia]. rewrite !ascii_app. split_and!; (done || by repeat constructor).
Qed.

Lemma exponent_text_ascii x : ascii (exponent_text x) /\ zlen (exponent_text x) <= 23.
Proof.
  unfold exponent_text. destruct (dec_ascii (Z.abs x)) as [H1 H2]. rewrite !zlen_app, !ascii_app.
  destruct (x <? 0), (Z.abs x <? 10); (split; [split_and!; done || (by repeat constructor)|lits; lia]).
Qed.

Lemma digits_text_ascii c x : ascii (digits_text c x) /\ zlen (digits_text c x) <= 80.
Proof.
  destruct (dec_ascii c) as [Hd Ld]. unfold digits_text.
  assert (Hsub : forall n, ascii (take n (dec c)) /\ ascii (strip_zeros (drop n (dec c))) /\
            zlen (take n (dec c)) <= 20 /\ zlen (strip_zeros (drop n (dec c))) <= 20).
  { intros n. destruct (strip_zeros_sub (drop n (dec c)) ltac:(by apply Forall_drop)) as [H1 H2].
    split; [by apply ascii_take|]. split; [done|]. unfold zlen in *. rewrite length_take, length_drop in *. lia. }
  destruct ((-4 <=? x) && (x <? 20)) eqn:Ex.
  - apply andb_true_iff in Ex as [?%Z.leb_le ?%Z.ltb_lt]. destruct (Z.leb_spec 0 x).
    + destruct (Hsub (Z.to_nat (x + 1))) as (K1 & K2 & L1 & L2).
      destruct (with_point_ascii _ _ K1 K2). split; [done|lia].
    + destruct (Hsub 0%nat) as (_ & K2 & _ & L2). rewrite drop_0 in *.
      destruct (with_point_ascii (txt "0") (replicate (Z.to_nat (- x - 1)) (z2b 48) ++ strip_zeros (dec c))) as [Hw Lw];
        [by repeat constructor|apply ascii_app; split; [by apply Forall_replicate|done]|].
      split; [done|]. rewrite zlen_app, zlen_replicate in Lw. change (zlen (txt "0")) with 1 in Lw. lia.
  - destruct (Hsub 1%nat) as (K1 & K2 & L1 & L2). destruct (with_point_ascii _ _ K1 K2), (exponent_text_ascii x).
    rewrite zlen_app. split; [by apply ascii_app|lia].
Qed.

Lemma printf_20g_ascii bits : ascii (printf_20g bits) /\ zlen (printf_20g bits) <= 90.
Proof.
  unfold printf_20g.
  assert (H : forall neg t, ascii t -> zlen t <= 80 -> ascii ((if (neg : bool) then txt "-" else []) ++ t) /\
            zlen ((if neg then txt "-" else []) ++ t) <= 90).
  { intros neg t Ht Hz. rewrite ascii_app, zlen_app. destruct neg; (split; [split; done || by repeat constructor|lits; lia]). }
  apply H; repeat case_match; try (by repeat constructor); try done; apply digits_text_ascii.
Qed.

Lemma double_text_plain bits : plain (double_text bits).
Proof.
  unfold double_text, plain. destruct (printf_20g_ascii bits). destruct (integer_chars _); [|split; [done|lia]].
  rewrite ascii_app, zlen_app. split; [split; [done|by repeat constructor]|lits; lia].
Qed.

(** ** Escaping *)

(** Text without the NUL character in either form. *)
Abbreviation special := mcommon_json_append_escaped_considers_byte_as_special.
Abbreviation ordinary := (fun c => special c = false).

Lemma ordinary_char c : special c = false -> json_char c = [c] /\ c <> z2b 0xC0.
Proof.
  assert (H : forall c, special c || (negb (byte_eqb c (z2b 0xC0)) && bool_decide (json_char c = [c])) = true)
    by (apply byte_forall; vm_compute; reflexivity).
  intros Hc. specialize (H c). rewrite Hc in H. cbn [orb] in H. apply andb_true_iff in H as [H1 H2].
  apply bool_decide_eq_true in H2. split; [done|]. intros ->. by rewrite byte_eqb_refl in H1.
Qed.

Lemma special_ascii c : special c = true -> c = z2b 0xC0 \/ b2z c < 128.
Proof.
  assert (H : forall c, negb (special c) || byte_eqb c (z2b 0xC0) || (b2z c <? 128) = true)
    by (apply byte_forall; vm_compute; reflexivity).
  intros Hc. specialize (H c). rewrite Hc in H. cbn [negb orb] in H. apply orb_true_iff in H as [H|H].
  - left. by apply byte_eqb_spec.
  - right. by apply Z.ltb_lt.
Qed.

Lemma cont_ordinary c : is_cont c = true -> special c = false.
Proof.
  assert (H : forall c, negb (is_cont c) || negb (special c) = true) by (apply byte_forall; vm_compute; reflexivity).
  intros Hc. specialize (H c). rewrite Hc in H. cbn [negb orb] in H. by apply negb_true_iff.
Qed.

(** A character is ordinary throughout, or a single special byte, or the NUL of
    two bytes. *)
Lemma item_special b l : item_ok true b l = true ->
  (special b = false /\ Forall ordinary l) \/ (special b = true /\ b <> z2b 0xC0 /\ l = []) \/
  (b = z2b 0xC0 /\ l = [z2b 0x80]).
Proof.
  intros Hok. pose proof (item_ok_len _ _ _ Hok) as Hlen. unfold item_ok in Hok.
  destruct (mcommon_utf8_get_sequence b) as [n mask] eqn:Eseq. cbn [fst] in Hlen.
  rewrite !andb_true_iff, forallb_cont, bool_decide_eq_true in Hok. destruct Hok as [[[_ Hc] _] Hf].
  destruct (special b) eqn:Es.
  - right. destruct (special_ascii b Es) as [-> | Hb].
    + right. split; [done|]. change (mcommon_utf8_get_sequence (z2b 0xC0)) with (2, 0x1F) in Eseq. injection Eseq as <- <-.
      destruct l as [|c [|? ?]]; [change (zlen (@nil byte)) with 0 in Hlen; lia| |rewrite !zlen_cons in Hlen; zl].
      apply Forall_cons_1 in Hc as [Hc _]. apply step_final_Some in Hf as (_ & _ & _ & Hs). apply shortest_2 in Hs.
      cbn [push] in Hs. change (Z.land (b2z (z2b 192)) 31) with 0 in Hs. pose proof (cont_mod c Hc). apply is_cont_spec in Hc.
      assert (E : b2z c = 128).
      { unfold push in Hs. rewrite ?cont_mod in Hs by (by apply is_cont_spec). lia. }
      f_equal. apply b2z_inj. by rewrite E.
    + left. split; [done|]. split; [intros ->; by vm_compute in Hb|].
      assert (En : n = 1).
      { assert (H : forall c, negb (b2z c <? 128) || (fst (mcommon_utf8_get_sequence c) =? 1) = true)
          by (apply byte_forall; vm_compute; reflexivity).
        specialize (H b). rewrite Eseq in H. destruct (Z.ltb_spec (b2z b) 128); [|lia]. cbn [negb orb fst] in H. lia. }
      apply zlen_0. lia.
  - left. split; [done|]. eapply Forall_impl; [exact Hc|]. intros c. apply cont_ordinary.
Qed.

(** The ordinary bytes in front are whole characters. *)
Lemma split_run s : utf8_text true s ->
  exists run s', s = run ++ s' /\ Forall ordinary run /\ utf8_text true run /\ utf8_text true s' /\
    match s' with [] => True | c :: _ => special c = true end.
Proof.
  intros (items & -> & Hf). induction Hf as [|item items Hi Hf IH].
  - exists [], []. split_and!; try done; apply utf8_text_nil.
  - destruct (item_ok_complete _ _ Hi) as (b & l & -> & Hok).
    assert (Hrest : utf8_text true (concat items)) by (by exists items).
    destruct (item_special b l Hok) as [[Hb Hl] | Hsp].
    + destruct IH as (run & s' & E & Hr & Hu & Hu' & Hs). exists ((b :: l) ++ run), s'. cbn [concat].
      rewrite E, <- app_assoc. split_and!; try done; [|].
      * apply Forall_app. split; [by constructor|done].
      * cbn [app]. by apply utf8_text_step.
    + exists [], ((b :: l) ++ concat items). split_and!; try done; [apply utf8_text_nil| |].
      * cbn [app]. by apply utf8_text_step.
      * cbn [app]. destruct Hsp as [[? _] | [-> _]]; done.
Qed.

Lemma count_run run s' rest : Forall ordinary run ->
  match s' with [] => True | c :: _ => special c = true end ->
  mcommon_json_append_escaped_count_non_special_bytes ((run ++ s') ++ rest) (zlen (run ++ s')) = Some (zlen run).
Proof.
  intros Hr Hs. unfold mcommon_json_append_escaped_count_non_special_bytes. rewrite to_nat_zlen, <- app_assoc.
  induction Hr as [|c run Hc Hr IH]; cbn [app length].
  - destruct s' as [|c s']; [done|]. cbn [app length count_non_special]. by rewrite Hs.
  - cbn [count_non_special]. rewrite Hc, IH. sbind. f_equal. zl.
Qed.

Lemma escape_run run s : Forall ordinary run -> json_escape (run ++ s) = run ++ json_escape s.
Proof.
  induction 1 as [|c run Hc Hr IH]; [done|]. destruct (ordinary_char c Hc) as [Ec Hn].
  cbn [app]. rewrite <- IH. cbn [json_escape]. rewrite (byte_eqb_neq c) by done. cbn [andb].
  rewrite Ec. destruct (run ++ s); done.
Qed.

Lemma escape_ascii c s : b2z c < 128 -> json_escape (c :: s) = json_char c ++ json_escape s.
Proof.
  intros Hc. cbn [json_escape]. rewrite byte_eqb_neq by (intros ->; by vm_compute in Hc). cbn [andb].
  destruct s; [by rewrite app_nil_r|done].
Qed.

(** No NUL character in either form, and the part in front of the first. *)
Definition nul_free (s : bytes) : Prop := (x00 ∉ s) /\ (z2b 0xC0 ∉ s).

Fixpoint nul_cut (s : bytes) : bytes :=
  match s with
  | [] => []
  | c :: s' =>
      if byte_eqb c x00 then []
      else match s' with
      | c1 :: _ => if byte_eqb c (z2b 0xC0) && byte_eqb c1 (z2b 0x80) then [] else c :: nul_cut s'
      | [] => [c]
      end
  end.

(** What is written of a string, and whether that is all. *)
Definition esc_text (allow : bool) (s : bytes) : bytes := json_escape (if allow then s else nul_cut s).
Definition esc_done (allow : bool) (s : bytes) : bool := allow || bool_decide (nul_cut s = s).

Lemma nul_cut_cons c s : c <> x00 -> c <> z2b 0xC0 -> nul_cut (c :: s) = c :: nul_cut s.
Proof. intros H0 HC. cbn [nul_cut]. rewrite !byte_eqb_neq by done. cbn [andb]. by destruct s. Qed.

Lemma nul_cut_free s : nul_free s -> nul_cut s = s.
Proof.
  induction s as [|c s IH]; intros [H0 HC]; [done|]. apply not_elem_of_cons in H0 as [? ?], HC as [? ?].
  rewrite nul_cut_cons by congruence. f_equal. by apply IH.
Qed.

Lemma esc_cons allow c s : c <> x00 -> c <> z2b 0xC0 -> b2z c < 128 \/ special c = false ->
  esc_text allow (c :: s) = json_char c ++ esc_text allow s /\ esc_done allow (c :: s) = esc_done allow s.
Proof.
  intros H0 HC Hc. unfold esc_text, esc_done. rewrite nul_cut_cons by done. split.
  - assert (E : forall t, json_escape (c :: t) = json_char c ++ json_escape t); [|by destruct allow].
    intros t. destruct Hc as [Hc|Hc]; [by apply escape_ascii|]. change (c :: t) with ([c] ++ t).
    rewrite escape_run by (by repeat constructor). by destruct (ordinary_char c Hc) as [-> _].
  - f_equal. apply bool_decide_ext. split; [by intros [= ?]|by intros ->].
Qed.

Lemma esc_run allow run s : Forall ordinary run ->
  esc_text allow (run ++ s) = run ++ esc_text allow s /\ esc_done allow (run ++ s) = esc_done allow s.
Proof.
  induction 1 as [|c run Hc Hr [IH1 IH2]]; [done|]. cbn [app]. destruct (ordinary_char c Hc) as [Ec HC].
  assert (c <> x00) by (intros ->; done).
  destruct (esc_cons allow c (run ++ s)) as [-> ->]; [done|done|by right|]. by rewrite Ec, IH1, IH2.
Qed.

Section Ops.
Context (malloc : Z -> bytes).
Hypothesis Hmalloc : forall n, 0 <= n -> zlen (malloc n) = n.
Context (max : Z) (cut : bool).
Local Abbreviation writes := (writes max cut).

(** A literal, and a formatted text. *)
Lemma writes_jlit s : plainb (js s) = true -> writes (fun a => mcommon_string_append malloc a (jlit s)) (js s) true.
Proof. intros [Hs Hz]%plainb_spec. apply (writes_ascii malloc Hmalloc max cut (js s) []); [done|lia]. Qed.

Lemma writes_plain v : plain v -> writes (fun a => mcommon_string_append_printf malloc a v) v true.
Proof. intros [Hv Hz]. apply writes_printf; [done|done|unfold INT32_MAX; lia]. Qed.

Lemma writes_hex_char c : 0 <= c < 32 -> writes (mcommon_json_append_hex_char malloc c) (js "\u00" ++ hex2 c) true.
Proof.
  intros Hc.
  assert (E : forall c, negb (b2z c <? 32) || bool_decide
    ([z2b 92; z2b 117] ++ [hex_char_digit (b2z c) 12; hex_char_digit (b2z c) 8; hex_char_digit (b2z c) 4; hex_char_digit (b2z c) 0]
      = js "\u00" ++ hex2 (b2z c)) = true) by (apply byte_forall; vm_compute; reflexivity).
  specialize (E (z2b c)). rewrite b2z_z2b_small in E by lia. destruct (Z.ltb_spec c 32); [|lia]. cbn [negb orb] in E.
  apply bool_decide_eq_true in E. unfold mcommon_json_append_hex_char. rewrite E.
  assert (Hz : zlen (js "\u00" ++ hex2 c) = 6) by (by destruct (hex2_ascii c ltac:(lia))).
  pose proof (writes_bytes malloc Hmalloc max cut (js "\u00" ++ hex2 c) []) as Hw. rewrite Hz, app_nil_r in Hw. apply Hw; [|lia].
  apply ascii_text, ascii_app. split; [by repeat constructor|]. apply hex2_ascii. lia.
Qed.

(** What a case of the switch does with a special character. *)
Definition esc_writes (step : mcommon_string_append_t -> option escape_step) (v : bytes) (n : Z) : Prop :=
  exists op, writes op v true /\ forall a, step a = esc_put (op a) n.

Lemma switch_ascii c rest len allow :
  special c = true -> c <> z2b 0xC0 -> allow = true \/ c <> x00 ->
  esc_writes (fun a => escape_switch malloc a (c :: rest) len allow) (json_char c) 1.
Proof.
  intros Hs Hc Hn. unfold escape_switch. rewrite rd_cons_0. sbind.
  unfold json_char.
  destruct (byte_eqb c (z2b 34)) eqn:E34; [eexists; split; [by apply writes_jlit|done]|].
  destruct (byte_eqb c (z2b 92)) eqn:E92; [eexists; split; [by apply writes_jlit|done]|].
  destruct (byte_eqb c (z2b 8)); [eexists; split; [by apply writes_jlit|done]|].
  destruct (byte_eqb c (z2b 12)); [eexists; split; [by apply writes_jlit|done]|].
  destruct (byte_eqb c (z2b 10)); [eexists; split; [by apply writes_jlit|done]|].
  destruct (byte_eqb c (z2b 13)); [eexists; split; [by apply writes_jlit|done]|].
  destruct (byte_eqb c (z2b 9)); [eexists; split; [by apply writes_jlit|done]|].
  pose proof (b2z_range c).
  destruct (byte_eqb c x00) eqn:E0.
  - apply byte_eqb_spec in E0 as ->. destruct Hn as [-> | ?]; [|done]. cbn [negb].
    eexists. split; [|done]. change (b2z x00) with 0. by apply (writes_hex_char 0).
  - rewrite byte_eqb_neq by done. destruct (Z.ltb_spec (b2z c) 32).
    + eexists. split; [|done]. apply writes_hex_char. lia.
    + exfalso. assert (H32 : forall c, negb (special c) || (b2z c <? 32) || byte_eqb c (z2b 34) || byte_eqb c (z2b 92) ||
        byte_eqb c (z2b 0xC0) = true) by (apply byte_forall; vm_compute; reflexivity).
      specialize (H32 c). rewrite Hs, E34, E92, (byte_eqb_neq c) in H32 by done.
      destruct (Z.ltb_spec (b2z c) 32); [lia|done].
Qed.

Lemma switch_nul2 rest len : 2 <= len ->
  esc_writes (fun a => escape_switch malloc a (z2b 0xC0 :: z2b 0x80 :: rest) len true) (js "\u0000") 2.
Proof.
  intros Hl. unfold escape_switch. rewrite rd_cons_0. sbind.
  eexists. split; [apply (writes_hex_char 0); lia|]. intros a. destruct (Z.leb_spec 2 len); [|lia].
  change (rd (z2b 192 :: z2b 128 :: rest) 1) with (rd (z2b 128 :: rest) 0). by rewrite rd_cons_0.
Qed.

Lemma escaped_loop_writes allow fuel : forall s run s' rest,
  s = run ++ s' -> utf8_text true run -> utf8_text true s' -> Forall ordinary run ->
  match s' with [] => True | c :: _ => special c = true end -> zlen s < 2 ^ 32 -> (length s + 1 < fuel)%nat ->
  writes (fun a => escaped_loop malloc fuel a (s ++ rest) (zlen s) (zlen run) allow) (esc_text allow s) (esc_done allow s).
Proof.
  induction fuel as [|fuel IH]; intros s run s' rest -> Hu Hu' Hr Hs Hz Hf; [lia|]. rewrite length_app in Hf.
  rewrite zlen_app in Hz. pose proof (zlen_nonneg run). pose proof (zlen_nonneg s').
  assert (Hnil : forall f a r ns, (0 < f)%nat -> escaped_loop malloc f a r 0 ns allow = Some (mcommon_string_status_from_append a, a))
    by (by intros [|f] ? ? ? ?; [lia|]).
  assert (Hend : forall f r ns, (0 < f)%nat -> writes (fun a => escaped_loop malloc f a r 0 ns allow) [] true).
  { intros f r ns Hf0 u a _ Ht. exists a. rewrite Hnil, app_nil_r by done. done. }
  destruct (decide (run ++ s' = [])) as [E|E].
  { rewrite E. change (zlen []) with 0. replace (esc_text allow []) with (@nil byte) by (by destruct allow).
    replace (esc_done allow []) with true by (by destruct allow). apply Hend. lia. }
  destruct (esc_run allow run s' Hr) as [-> ->].
  set (next := fun a => escaped_loop malloc fuel a (s' ++ rest) 0 (zlen run) allow).
  set (other := fun a =>
    step ← escape_switch malloc a (s' ++ rest) (zlen s') allow;
    match step with
    | EscFail append => Some (false, append)
    | EscNext append count =>
        str ← padd (s' ++ rest) count;
        ns ← mcommon_json_append_escaped_count_non_special_bytes str (zlen s' - count);
        escaped_loop malloc fuel append str (zlen s' - count) ns allow
    | EscRun =>
        r ← padd (s' ++ rest) 1;
        n ← mcommon_json_append_escaped_count_non_special_bytes r (zlen s' - 1);
        escaped_loop malloc fuel a (s' ++ rest) (zlen s') (n + 1) allow
    end).
  eapply writes_eq with (op' := op_and (fun a => mcommon_string_append_bytes malloc a (run ++ s' ++ rest) (zlen run))
    (if decide (s' = []) then next else other)).
  { intros a. cbn [escaped_loop]. rewrite zlen_app.
    destruct (Z.eqb_spec (zlen run + zlen s') 0) as [E0|_].
    { exfalso. apply E. apply zlen_0. rewrite zlen_app. lia. }
    rewrite <- app_assoc. unfold op_and. destruct (mcommon_string_append_bytes _ _ _ _) as [[[] a1]|]; [|done..]. sbind. cbn [negb].
    rewrite padd_at by done. sbind. replace (zlen run + zlen s' - zlen run) with (zlen s') by lia.
    destruct (decide (s' = [])) as [-> | Hne].
    - change (zlen (@nil byte)) with 0. done.
    - destruct (Z.eqb_spec (zlen s') 0) as [E0|_]; [by apply zlen_0 in E0|]. done. }
  apply writes_and; [apply writes_bytes; [done|done|lia]|].
  destruct (decide (s' = [])) as [-> | Hne].
  { replace (esc_text allow []) with (@nil byte) by (by destruct allow).
    replace (esc_done allow []) with true by (by destruct allow). apply Hend. lia. }
  destruct s' as [|c t]; [done|]. clear Hne next Hend.
  assert (Hgo : forall w t', c :: t = w ++ t' -> w <> [] -> utf8_text true t' ->
    esc_writes (fun a => escape_switch malloc a ((c :: t) ++ rest) (zlen (c :: t)) allow) (json_escape w) (zlen w) ->
    esc_text allow (c :: t) = json_escape w ++ esc_text allow t' -> esc_done allow (c :: t) = esc_done allow t' ->
    writes other (esc_text allow (c :: t)) (esc_done allow (c :: t))).
  { intros w t' Ew Hw Ht' (op & Hop & Esw) -> ->.
    destruct (split_run t' Ht') as (run2 & s2 & -> & Hr2 & Hu2 & Hu2' & Hs2).
    eapply writes_eq with (op' := op_and op (fun a =>
      escaped_loop malloc fuel a ((run2 ++ s2) ++ rest) (zlen (run2 ++ s2)) (zlen run2) allow)); [|apply writes_and; [done|]].
    - intros a. unfold other. rewrite Esw. unfold esc_put, op_and. destruct (op a) as [[[] a1]|]; [|done..]. sbind.
      rewrite Ew, <- app_assoc, padd_at by done. sbind. rewrite zlen_app. replace (zlen w + zlen (run2 ++ s2) - zlen w) with (zlen (run2 ++ s2)) by lia.
      rewrite count_run by done. sbind. done.
    - apply (IH _ run2 s2 rest); try done.
      + rewrite Ew, zlen_app in Hz. pose proof (zlen_nonneg w). lia.
      + apply (f_equal length) in Ew. rewrite length_app in Ew. cbn [length] in Ew. rewrite length_app in Ew.
        destruct w as [|c0 w0]; [done|]. cbn [length] in *. rewrite length_app. lia. }
  assert (Hstop : forall op : append_op, (forall a, op a = Some (false, a)) -> writes op [] false).
  { intros op Hop u a _ Ht. exists a. by rewrite Hop, app_nil_r. }
  apply utf8_text_cons in Hu' as (l & s2 & -> & Hok & Hu2).
  destruct (item_special c l Hok) as [[Hb _] | [(Hb & Hc & ->) | [-> ->]]]; [congruence| |]; cbn [app] in *.
  - destruct (decide (c = x00 /\ allow = false)) as [[-> ->] | Hn].
    + apply Hstop. intros a. unfold other, escape_switch. by rewrite rd_cons_0.
    + apply (Hgo [c] s2); try done.
      * cbn [json_escape]. change (zlen [c]) with 1. apply switch_ascii; [done|done|].
        destruct allow; [by left|]. right. intros ->. by apply Hn.
      * destruct (special_ascii c Hs) as [?|?]; [done|]. destruct allow; [by apply escape_ascii|].
        apply esc_cons; [intros ->; by apply Hn|done|by left].
      * destruct allow; [done|]. apply esc_cons; [intros ->; by apply Hn|done|left].
        by destruct (special_ascii c Hs) as [?|?].
  - destruct allow.
    + apply (Hgo [z2b 0xC0; z2b 0x80] s2); try done.
      change (zlen [z2b 192; z2b 128]) with 2. change (json_escape [z2b 192; z2b 128]) with (js "\u0000").
      apply switch_nul2. rewrite !zlen_cons. pose proof (zlen_nonneg s2). lia.
    + apply Hstop. intros a. unfold other, escape_switch. rewrite rd_cons_0. sbind. rewrite !zlen_cons.
      pose proof (zlen_nonneg s2). destruct (Z.leb_spec 2 (1 + (1 + zlen s2))); [|lia]. done.
Qed.

Lemma writes_esc s rest allow : utf8_text true s -> zlen s < 2 ^ 32 ->
  writes (mcommon_json_append_escaped malloc (s ++ rest) (zlen s) allow) (esc_text allow s) (esc_done allow s).
Proof.
  intros Hu Hz. destruct (split_run s Hu) as (run & s' & -> & Hr & H1 & H2 & Hs).
  eapply writes_eq; [|apply (escaped_loop_writes allow (S (S (2 * length (run ++ s')))) _ run s' rest); try done; lia].
  intros a. unfold mcommon_json_append_escaped. rewrite count_run by done. sbind. by rewrite to_nat_zlen.
Qed.

Lemma writes_escaped s rest allow : utf8_text true s -> zlen s < 2 ^ 32 -> allow = true \/ nul_free s ->
  writes (mcommon_json_append_escaped malloc (s ++ rest) (zlen s) allow) (json_escape s) true.
Proof.
  intros Hu Hz Hn. pose proof (writes_esc s rest allow Hu Hz) as H. unfold esc_text, esc_done in H.
  destruct Hn as [-> | Hn]; [done|]. rewrite (nul_cut_free s Hn), bool_decide_true, orb_true_r in H by done. by destruct allow.
Qed.

(** Text without NUL as the validator decides it. *)
Lemma utf8_nul_free s : utf8_text false s -> nul_free s /\ utf8_text true s.
Proof.
  intros (items & -> & Hf). induction Hf as [|item items Hi Hf [[IH1 IH2] IH]]; cbn [concat].
  - split; [split; apply not_elem_of_nil|apply utf8_text_nil].
  - assert (Hi' : utf8_item true item) by (destruct Hi; [by constructor|done]).
    destruct (item_ok_complete _ _ Hi) as (b & l & -> & Hok). destruct (item_ok_complete _ _ Hi') as (b' & l' & [= <- <-] & Hok').
    split; [|cbn [app]; by apply utf8_text_step].
    assert (Hb0 : b <> x00) by (intros ->; unfold item_ok in Hok; destruct (mcommon_utf8_get_sequence x00); cbn in Hok; by rewrite andb_false_r in Hok).
    assert (H : b <> z2b 0xC0 /\ Forall (fun c => special c = false) l).
    { destruct (item_special b l Hok') as [[Hb Hl] | [(_ & Hc & ->) | [-> ->]]].
      - split; [intros ->; done|done].
      - split; [done|constructor].
      - by vm_compute in Hok. }
    destruct H as [HbC Hl]. assert (Hl0 : (x00 ∉ l) /\ (z2b 0xC0 ∉ l)).
    { split; intros Hin; by apply (proj1 (Forall_forall _ _) Hl) in Hin. }
    destruct Hl0. split; cbn [app]; rewrite not_elem_of_cons, not_elem_of_app; split_and!; congruence || done.
Qed.

(** *** Values *)

Lemma writes_string s rest allow : utf8_text true s -> zlen s < 2 ^ 32 -> allow = true \/ nul_free s ->
  writes (mcommon_json_append_value_utf8 malloc (s ++ rest) (zlen s) allow) (json_string s) true.
Proof.
  intros. unfold mcommon_json_append_value_utf8, json_string.
  apply writes_and; [by apply writes_jlit|]. apply writes_and; [by apply writes_escaped|]. by apply writes_jlit.
Qed.

Lemma writes_key k rest : utf8_text true k -> zlen k < 2 ^ 32 -> nul_free k ->
  writes (mcommon_json_append_key malloc (k ++ rest) (zlen k)) (json_string k ++ txt " : ") true.
Proof.
  intros. unfold mcommon_json_append_key, json_string. rewrite <- !app_assoc.
  change (js "'" ++ txt " : ") with (js "' : ").
  apply writes_and; [by apply writes_jlit|]. apply writes_and; [apply writes_escaped; [done|done|by right]|]. by apply writes_jlit.
Qed.

Ltac lit_ok := apply writes_jlit; vm_compute; reflexivity.

(** A text between two literals. *)
Lemma plain_between a t b : plainb (js a) = true -> plainb (js b) = true -> zlen (js a) + zlen (js b) <= 600 ->
  ascii t /\ zlen t <= 200 -> plain (js a ++ t ++ js b).
Proof.
  intros [Ha _]%plainb_spec [Hb _]%plainb_spec Hz [Ht Hl]. unfold plain. rewrite !ascii_app, !zlen_app. split; [done|lia].
Qed.

Lemma writes_int m name v s :
  (s = "{ '$numberInt' : '"%string /\ name = "$numberInt"%string) \/ (s = "{ '$numberLong' : '"%string /\ name = "$numberLong"%string) ->
  writes (if is_canonical m then (fun a => mcommon_string_append_printf malloc a (js s ++ sdec v ++ js "' }"))
          else (fun a => mcommon_string_append_printf malloc a (sdec v))) (json_int m name v) true.
Proof.
  destruct (sdec_ascii v) as [Ha Hl]. intros Hs. unfold json_int. destruct (is_canonical m).
  - assert (E : js "{ '" ++ js name ++ js "' : '" ++ sdec v ++ js "' }" = js s ++ sdec v ++ js "' }")
      by (destruct Hs as [[-> ->]|[-> ->]]; reflexivity). rewrite E.
    apply writes_plain, plain_between; [destruct Hs as [[-> _]|[-> _]]; by vm_compute|by vm_compute| |split; [done|lia]].
    destruct Hs as [[-> _]|[-> _]]; by vm_compute.
  - apply writes_plain. split; [done|lia].
Qed.

Lemma writes_double_text bits : writes (append_double_text malloc bits) (double_text bits) true.
Proof.
  destruct (printf_20g_ascii bits) as [Ha Hl]. pose proof (writes_plain (printf_20g bits) ltac:(split; [done|lia])) as Hp.
  intros u a Hc Ht. unfold double_text in *.
  assert (Hc1 : cut = false -> zlen u + zlen (printf_20g bits) <= max).
  { intros E. specialize (Hc E). destruct (integer_chars _); [|done]. rewrite zlen_app in Hc. pose proof (zlen_nonneg (txt ".0")). lia. }
  destruct (Hp u a Hc1 Ht) as (a1 & E1 & Ht1). cbn [andb] in E1. unfold append_double_text. rewrite E1. sbind.
  destruct (mcommon_string_status_from_append a1) eqn:Es1.
  - (* The buffer held [u], and holds the number too. *)
    destruct (tracks_status _ _ _ Ht1 Es1) as [Ha1 _].
    assert (Es : mcommon_string_status_from_append a = true).
    { destruct (mcommon_string_status_from_append a) eqn:Es; [done|].
      unfold mcommon_string_append_printf, mcommon_string_append_vprintf in E1. rewrite Es in E1. cbn [negb] in E1. congruence. }
    destruct (tracks_status _ _ _ Ht Es) as [Ha0 _].
    assert (Hl0 : mcommon_strlen_from_append a = zlen u) by apply Ha0.
    assert (Hl1 : mcommon_strlen_from_append a1 = zlen (u ++ printf_20g bits)) by apply Ha1.
    rewrite Hl0, Hl1, zlen_app. pose proof Ha1 as ((_ & _ & _ & junk & Ej) & _). unfold mcommon_str_from_append. rewrite Ej.
    rewrite <- app_assoc, slice_at by (done || lia). sbind. destruct (integer_chars (printf_20g bits)).
    + rewrite app_assoc. apply (writes_jlit ".0"); [done|intros E; specialize (Hc E); rewrite !zlen_app in *; change (js ".0") with (txt ".0"); lia|done].
    + exists a1. rewrite Es1. done.
  - exists a1. rewrite Es1. split; [done|]. destruct (integer_chars _); [|done]. rewrite app_assoc. by apply tracks_exceeded.
Qed.

(** An operation whose status the caller drops. *)
Definition puts (op : append_op) (v : bytes) : Prop :=
  forall u a, (cut = false -> zlen u + zlen v <= max) -> tracks max u a ->
  exists ok a', op a = Some (ok, a') /\ tracks max (u ++ v) a'.

Lemma writes_puts op v ok : writes op v ok -> puts op v.
Proof. intros H u a Hc Ht. destruct (H u a Hc Ht) as (a' & E & Ht'). by eexists _, a'. Qed.

Lemma puts_nop : puts (fun a => Some (true, a)) [].
Proof. intros u a _ Ht. exists true, a. by rewrite app_nil_r. Qed.

Lemma puts_then op1 v1 op2 v2 ok : puts op1 v1 -> writes op2 v2 ok -> writes (op_then op1 op2) (v1 ++ v2) ok.
Proof.
  intros H1 H2 u a Hc Ht. rewrite zlen_app in Hc. pose proof (zlen_nonneg v2).
  destruct (H1 u a) as (ok1 & a1 & E1 & Ht1); [intros E; specialize (Hc E); lia|done|].
  unfold op_then. rewrite E1. sbind. rewrite app_assoc.
  apply (H2 (u ++ v1) a1); [intros E; specialize (Hc E); rewrite zlen_app; lia|done].
Qed.

Lemma writes_status : writes (fun a => Some (mcommon_string_status_from_append a, a)) [] true.
Proof. intros u a _ Ht. exists a. by rewrite app_nil_r. Qed.

Lemma writes_double m bits : writes (mcommon_json_append_value_double malloc bits m) (json_double m bits) true.
Proof.
  set (legacy := is_legacy m || (is_relaxed m && double_finite bits)).
  set (mid := if negb legacy && double_is_nan bits then txt "NaN"
    else if negb legacy && double_is_inf bits then txt (if double_negative bits then "-Infinity" else "Infinity")
    else double_text bits).
  assert (E : json_double m bits = (if negb legacy then js "{ '$numberDouble' : '" else []) ++ mid ++ (if negb legacy then js "' }" else []) ++ []).
  { unfold json_double, mid, legacy, double_finite.
    destruct m, (double_is_nan bits), (double_is_inf bits); cbn [is_legacy is_relaxed is_canonical negb andb orb]; by rewrite ?app_nil_r. }
  rewrite E.
  eapply writes_eq with (op' := op_then (fun a => if negb legacy then mcommon_string_append malloc a (jlit "{ '$numberDouble' : '") else Some (true, a))
    (op_then (fun a => if negb legacy && double_is_nan bits then mcommon_string_append malloc a (jlit "NaN")
       else if negb legacy && double_is_inf bits then mcommon_string_append malloc a (jlit (if double_negative bits then "-Infinity" else "Infinity"))
       else append_double_text malloc bits a)
    (op_then (fun a => if negb legacy then mcommon_string_append malloc a (jlit "' }") else Some (true, a))
      (fun a => Some (mcommon_string_status_from_append a, a))))).
  { intros a. unfold mcommon_json_append_value_double, op_then. by fold (double_finite bits) legacy. }
  apply puts_then; [destruct legacy; cbn [negb]; [apply puts_nop|eapply writes_puts; lit_ok]|].
  apply puts_then.
  - unfold mid. destruct (negb legacy && double_is_nan bits); [eapply writes_puts; apply (writes_jlit "NaN"); by vm_compute|].
    destruct (negb legacy && double_is_inf bits); [|eapply writes_puts, writes_double_text].
    destruct (double_negative bits); eapply writes_puts; [apply (writes_jlit "-Infinity")|apply (writes_jlit "Infinity")]; by vm_compute.
  - apply puts_then; [destruct legacy; cbn [negb]; [apply puts_nop|eapply writes_puts; lit_ok]|]. apply writes_status.
Qed.

Lemma writes_iso msec : 0 <= msec < y10k -> writes (mcommon_iso8601_string_append malloc msec) (iso_text msec) true.
Proof.
  unfold y10k. intros Hm. destruct (gmtime_Some (Z.quot msec 1000)) as [t Et]; [Z.to_euclidean_division_equations; lia|].
  destruct (gmtime_spec _ _ Et) as [Hv _]. destruct (strftime_iso_ascii t Hv) as [Ha Hl].
  destruct (dec0_ascii 3 (Z.rem msec 1000)) as [Hd Hdl]; [lia|].
  unfold iso_text, mcommon_iso8601_string_append. rewrite Et. cbn [mbind option_bind].
  destruct (Z.eqb_spec (Z.rem msec 1000) 0); cbn [negb app].
  - apply writes_plain. unfold plain. rewrite ascii_app, zlen_app. lits. split; [split; [done|by apply asciib_spec]|lia].
  - rewrite <- !app_assoc. apply writes_plain. unfold plain. rewrite !ascii_app, !zlen_app. lits. split; [|lia].
    split_and!; try done; by apply asciib_spec.
Qed.

Lemma writes_date m msec : writes (mcommon_json_append_value_date_time malloc msec m) (json_date m msec) true.
Proof.
  destruct (sdec_ascii msec) as [Ha Hl].
  assert (Hlong : writes (fun a => mcommon_string_append_printf malloc a (js "{ '$date' : { '$numberLong' : '" ++ sdec msec ++ js "' } }"))
            (js "{ '$date' : { '$numberLong' : '" ++ sdec msec ++ js "' } }") true).
  { apply writes_plain, plain_between; [by vm_compute..|split; [done|lia]]. }
  unfold mcommon_json_append_value_date_time, json_date. destruct m; cbn [is_canonical is_relaxed orb andb]; [|exact Hlong|].
  - apply writes_plain, plain_between; [by vm_compute..|split; [done|lia]].
  - destruct (Z.ltb_spec msec 0), (Z.leb_spec 0 msec); try lia; cbn [orb andb]; [exact Hlong|].
    destruct (Z.leb_spec y10k msec), (Z.ltb_spec msec y10k); try lia; [exact Hlong|].
    apply writes_and; [lit_ok|]. apply writes_and; [by apply writes_iso|lit_ok].
Qed.

Lemma js_join a b c t : js c = js a ++ js b -> js a ++ js b ++ t = js c ++ t.
Proof. intros ->. by rewrite <- app_assoc. Qed.

Lemma writes_json_oid oid post : zlen oid = 12 ->
  writes (mcommon_json_append_value_oid malloc (oid ++ post)) (json_oid oid) true.
Proof.
  intros Ho. apply writes_and; [lit_ok|]. apply writes_and; [by apply writes_oid|lit_ok].
Qed.

Lemma writes_timestamp t i : writes (mcommon_json_append_value_timestamp malloc t i)
  (js "{ '$timestamp' : { 't' : " ++ dec t ++ js ", 'i' : " ++ dec i ++ js " } }") true.
Proof.
  destruct (dec_ascii t), (dec_ascii i). apply writes_plain. unfold plain. rewrite !ascii_app, !zlen_app. lits.
  split; [|lia]. split_and!; (done || (by apply (plainb_spec (js _)); vm_compute)).
Qed.

Lemma writes_binary m st data rest : cut = false -> is_u8 st -> zlen data < 2 ^ 30 ->
  writes (mcommon_json_append_value_binary malloc st (data ++ rest) (zlen data) m) (json_scalar m (BBinary st data)) true.
Proof.
  intros Hcut Hst Hz. destruct (hex2_ascii st Hst) as [Ha Hl]. unfold mcommon_json_append_value_binary, append_base64_encode.
  assert (Hb : writes (fun a => mcommon_string_append_base64_encode malloc a (data ++ rest) (zlen data)) (b64_text data) true)
    by (rewrite Hcut; by apply writes_base64).
  cbn [json_scalar]. destruct (is_legacy m); cbn [negb];
    (apply writes_and; [lit_ok|]; apply writes_and; [exact Hb|]; apply writes_plain, plain_between; [by vm_compute..|split; [done|lia]]).
Qed.

Lemma writes_options o rest : writes (append_selected_chars malloc (o ++ rest) (zlen o)) (json_options o) true.
Proof. apply (writes_selected_chars malloc Hmalloc max cut (txt "ilmsux") [] o rest). by apply asciib_spec. Qed.

Lemma writes_regex m r o rest1 rest2 : utf8_text false r -> zlen r < 2 ^ 32 ->
  writes (mcommon_json_append_value_regex malloc (r ++ rest1) (zlen r) (o ++ rest2) (zlen o) m) (json_scalar m (BRegex r o)) true.
Proof.
  intros [Hn Hu]%utf8_nul_free Hz. unfold mcommon_json_append_value_regex. cbn [json_scalar].
  destruct (is_legacy m); cbn [negb];
    (apply writes_and; [lit_ok|]; apply writes_and; [apply writes_escaped; [done|done|by right]|];
     apply writes_and; [lit_ok|]; apply writes_and; [apply writes_options|lit_ok]).
Qed.

Lemma writes_dbpointer m c oid rest : utf8_text false c -> zlen c < 2 ^ 32 -> zlen oid = 12 ->
  writes (mcommon_json_append_value_dbpointer malloc (c ++ rest) (zlen c) (Some oid) m) (json_scalar m (BDBPointer c oid)) true.
Proof.
  intros [Hn Hu]%utf8_nul_free Hz Ho. unfold mcommon_json_append_value_dbpointer. cbn [json_scalar when_oid].
  assert (Hc : writes (mcommon_json_append_escaped malloc (c ++ rest) (zlen c) false) (json_escape c) true)
    by (apply writes_escaped; [done|done|by right]).
  pose proof (writes_json_oid oid [] Ho) as Hj. pose proof (writes_oid malloc Hmalloc max cut oid [] Ho) as Hh. rewrite app_nil_r in Hj, Hh.
  unfold json_string. destruct (is_legacy m); cbn [negb]; rewrite <- !app_assoc.
  - rewrite (js_join "{ '$ref' : " "'" "{ '$ref' : '") by done.
    apply writes_and; [lit_ok|]. apply writes_and; [exact Hc|]. apply writes_and; [lit_ok|].
    rewrite app_assoc. apply writes_and; [apply writes_and; [lit_ok|exact Hh]|lit_ok].
  - rewrite (js_join "{ '$dbPointer' : { '$ref' : " "'" "{ '$dbPointer' : { '$ref' : '") by done.
    apply writes_and; [lit_ok|]. apply writes_and; [exact Hc|]. apply writes_and; [lit_ok|].
    rewrite app_assoc. apply writes_and; [apply writes_and; [lit_ok|exact Hj]|lit_ok].
Qed.

Lemma writes_code c rest : utf8_text true c -> zlen c < 2 ^ 32 ->
  writes (mcommon_json_append_value_code malloc (c ++ rest) (zlen c)) (js "{ '$code' : " ++ json_string c ++ js " }") true.
Proof.
  intros Hu Hz. unfold json_string. rewrite <- !app_assoc.
  change (writes (mcommon_json_append_value_code malloc (c ++ rest) (zlen c)) (js "{ '$code' : '" ++ json_escape c ++ js "' }") true).
  apply writes_and; [lit_ok|]. apply writes_and; [apply writes_escaped; [done|done|by left]|lit_ok].
Qed.

Lemma writes_symbol m s rest : utf8_text true s -> zlen s < 2 ^ 32 ->
  writes (mcommon_json_append_value_symbol malloc (s ++ rest) (zlen s) m) (json_scalar m (BSymbol s)) true.
Proof.
  intros Hu Hz. unfold mcommon_json_append_value_symbol. cbn [json_scalar]. destruct (is_legacy m); cbn [negb].
  - apply writes_string; [done|done|by left].
  - unfold json_string. rewrite <- !app_assoc.
    change (writes (op_and (fun a => mcommon_string_append malloc a (jlit "{ '$symbol' : '"))
      (op_and (mcommon_json_append_escaped malloc (s ++ rest) (zlen s) true) (fun a => mcommon_string_append malloc a (jlit "' }"))))
      (js "{ '$symbol' : '" ++ json_escape s ++ js "' }") true).
    apply writes_and; [lit_ok|]. apply writes_and; [apply writes_escaped; [done|done|by left]|lit_ok].
Qed.

Lemma finite_text_ascii ds e : ascii ds -> ascii (finite_text ds e).
Proof.
  intros Hd. unfold finite_text.
  repeat match goal with |- context [if ?b then _ else _] => destruct b end; rewrite ?ascii_app;
    repeat match goal with |- _ /\ _ => split end; try done; try (by apply asciib_spec); try (by apply ascii_take); try (by apply Forall_drop);
    try apply signed_dec_ascii; try apply ascii_nil. by apply Forall_replicate.
Qed.

Lemma dec_text_ascii v : ascii (dec_text v).
Proof.
  destruct v as [|neg|neg c e]; cbn [dec_text]; [by apply asciib_spec|..]; apply ascii_app;
    (split; [destruct neg; cbn [sign_text]; [by apply asciib_spec|apply ascii_nil]|]); [by apply asciib_spec|].
  apply finite_text_ascii, dec_loop_ascii.
Qed.

Lemma writes_decimal lo hi : is_u64 lo -> is_u64 hi -> dec_canonical (Decimal128 hi lo) ->
  writes (mcommon_json_append_value_decimal128 malloc (Decimal128 hi lo)) (json_scalar BSON_JSON_MODE_RELAXED (BDecimal128 lo hi)) true.
Proof.
  intros Hlo Hhi Hcan. unfold mcommon_json_append_value_decimal128.
  destruct (to_string_prints (Decimal128 hi lo) (malloc 43)) as (t & junk & E & Hz & Hn & Ht); [done|by rewrite Hmalloc|].
  change BSON_DECIMAL128_STRING with 43. rewrite E. cbn [mbind option_bind]. rewrite (Ht Hcan) in *.
  pose proof (zlen_nonneg junk).
  apply writes_and; [lit_ok|]. apply writes_and; [|lit_ok]. apply writes_ascii; [done|apply dec_text_ascii|lia].
Qed.
End Ops.
