(* ===== verification/JsonGrammar.v ===== *)
(** The grammar of JSON (RFC 8259), and the texts of [JsonSpec] as words of it:
    what the library prints for a document is JSON. *)

From Stdlib Require Import Strings.String.
From S2P Require Import Prelude CString Text IntEncode BsonTypes BsonSpec Calendar Hex Base64 Base64Spec Utf8 StringFormat.
From S2P Require Import DoubleText Decimal128 Decimal128Spec Json JsonSpec.

(** ** The grammar *)

(** The inside of a string: characters from the space on that are neither the
    quotation mark nor the backslash, and escapes. *)
Definition plain_char (c : byte) : bool := (32 <=? b2z c) && negb (byte_eqb c (z2b 34)) && negb (byte_eqb c (z2b 92)).

Definition hex_char (c : byte) : bool :=
  isdigit c || ((65 <=? b2z c) && (b2z c <=? 70)) || ((97 <=? b2z c) && (b2z c <=? 102)).

Fixpoint j_chars (s : bytes) : bool :=
  match s with
  | [] => true
  | c :: s =>
      if byte_eqb c (z2b 92) then
        match s with
        | [] => false
        | e :: s =>
            if bool_decide (e ∈ js "'\/bfnrt") then j_chars s
            else if byte_eqb e (z2b 117) then
              match s with a :: b :: c :: d :: s => forallb hex_char [a; b; c; d] && j_chars s | _ => false end
            else false
        end
      else plain_char c && j_chars s
  end.

Definition j_quote (s : bytes) : bytes := js "'" ++ s ++ js "'".

(** An optional minus, an integer without a zero in front, an optional fraction,
    and an optional exponent. *)
Definition j_int (s : bytes) : Prop :=
  s = txt "0" \/ exists c t, s = c :: t /\ isdigit c = true /\ c <> z2b 48 /\ digits_only t.
Definition j_frac (s : bytes) : Prop := s = [] \/ exists t, s = txt "." ++ t /\ t <> [] /\ digits_only t.
Definition j_exp (s : bytes) : Prop :=
  s = [] \/ exists e sign t, s = e ++ sign ++ t /\ (e = txt "e" \/ e = txt "E") /\
    (sign = [] \/ sign = txt "+" \/ sign = txt "-") /\ t <> [] /\ digits_only t.
Definition j_number (s : bytes) : Prop :=
  exists minus int frac exp, s = minus ++ int ++ frac ++ exp /\ (minus = [] \/ minus = txt "-") /\
    j_int int /\ j_frac frac /\ j_exp exp.

Definition j_ws (s : bytes) : Prop := Forall (fun c => c ∈ bs [32; 9; 10; 13]) s.

Inductive j_value : bytes -> Prop :=
  | j_word s : s = txt "true" \/ s = txt "false" \/ s = txt "null" -> j_value s
  | j_num s : j_number s -> j_value s
  | j_string s : j_chars s = true -> j_value (j_quote s)
  | j_empty_array w : j_ws w -> j_value (txt "[" ++ w ++ txt "]")
  | j_array s : j_elements s -> j_value (txt "[" ++ s ++ txt "]")
  | j_empty_object w : j_ws w -> j_value (txt "{" ++ w ++ txt "}")
  | j_object s : j_members s -> j_value (txt "{" ++ s ++ txt "}")
with j_elements : bytes -> Prop :=
  | j_element w v w' : j_ws w -> j_value v -> j_ws w' -> j_elements (w ++ v ++ w')
  | j_elements_more s t : j_elements s -> j_elements t -> j_elements (s ++ txt "," ++ t)
with j_members : bytes -> Prop :=
  | j_member w k w1 w2 v w3 : j_ws w -> j_chars k = true -> j_ws w1 -> j_ws w2 -> j_value v -> j_ws w3 ->
      j_members (w ++ j_quote k ++ w1 ++ txt ":" ++ w2 ++ v ++ w3)
  | j_members_more s t : j_members s -> j_members t -> j_members (s ++ txt "," ++ t).

(** ** Strings *)

Lemma j_chars_app_n n : forall s t, (length s <= n)%nat -> j_chars s = true -> j_chars t = true -> j_chars (s ++ t) = true.
Proof.
  induction n as [|n IH]; intros [|c s] t Hl; cbn [length] in Hl; try lia; try done.
  cbn [j_chars app]. destruct (byte_eqb c (z2b 92)).
  - destruct s as [|e s]; [done|]. cbn [app length] in *. destruct (bool_decide _); [apply IH; lia|].
    destruct (byte_eqb e (z2b 117)); [|done]. destruct s as [|a1 [|a2 [|a3 [|a4 s]]]]; try done. cbn [app length] in *.
    rewrite !andb_true_iff. intros [? ?] ?. split; [done|]. apply IH; (lia || done).
  - rewrite !andb_true_iff. intros [? ?] ?. split; [done|]. apply IH; (lia || done).
Qed.

Lemma j_chars_app s t : j_chars s = true -> j_chars t = true -> j_chars (s ++ t) = true.
Proof. by apply (j_chars_app_n (length s)). Qed.

Definition printable (s : bytes) : Prop := Forall (fun c => plain_char c = true) s.

Lemma j_chars_printable s : printable s -> j_chars s = true.
Proof.
  induction 1 as [|c s Hc Hs IH]; [done|]. cbn [j_chars].
  destruct (byte_eqb c (z2b 92)) eqn:E; [|by rewrite Hc]. unfold plain_char in Hc. rewrite E, andb_false_r in Hc. done.
Qed.

Lemma json_char_chars c : j_chars (json_char c) = true.
Proof.
  assert (H : forall c, j_chars (json_char c) = true) by (apply byte_forall; vm_compute; reflexivity). apply H.
Qed.

Lemma json_escape_chars_n n : forall s, (length s <= n)%nat -> j_chars (json_escape s) = true.
Proof.
  induction n as [|n IH]; intros [|c [|c1 s]] Hl; cbn [length] in Hl; try lia; try done; [apply json_char_chars|].
  change (json_escape (c :: c1 :: s)) with (if byte_eqb c (z2b 0xC0) && byte_eqb c1 (z2b 0x80)
    then js "\u0000" ++ json_escape s else json_char c ++ json_escape (c1 :: s)).
  destruct (_ && _); apply j_chars_app; [by vm_compute|apply IH; lia|apply json_char_chars|apply IH; cbn [length]; lia].
Qed.

Lemma json_escape_chars s : j_chars (json_escape s) = true.
Proof. by apply (json_escape_chars_n (length s)). Qed.

(** *** Printable texts *)

Lemma printable_app s t : printable (s ++ t) <-> printable s /\ printable t.
Proof. apply Forall_app. Qed.

Lemma isdigit_plain c : isdigit c = true -> plain_char c = true.
Proof.
  assert (H : forall c, negb (isdigit c) || plain_char c = true) by (apply byte_forall; vm_compute; reflexivity).
  intros Hc. specialize (H c). by rewrite Hc in H.
Qed.

Lemma digits_printable s : digits_only s -> printable s.
Proof. intros H. eapply Forall_impl; [exact H|apply isdigit_plain]. Qed.

Lemma dec_printable z : printable (dec z).
Proof. apply digits_printable, dec_loop_digits. Qed.

Lemma sdec_printable z : printable (sdec z).
Proof. unfold sdec. destruct (z <? 0); [apply printable_app; split; [by repeat constructor|]|]; apply dec_printable. Qed.

Lemma hex_text_printable s : printable (hex_text s).
Proof.
  assert (H : forall c, negb ((48 <=? b2z c) && (b2z c <=? 57) || (97 <=? b2z c) && (b2z c <=? 102)) || plain_char c = true)
    by (apply byte_forall; vm_compute; reflexivity).
  eapply Forall_impl; [apply hex_text_lower|]. intros c Hc. specialize (H c). unfold lower_hex in Hc.
  destruct (plain_char c); [done|]. rewrite orb_false_r in H. lia.
Qed.

Lemma b64_text_printable s : printable (b64_text s).
Proof.
  assert (Hd : forall n k, plain_char (digit_of n k) = true).
  { intros n k. unfold digit_of, b64_digit. destruct (nth_in_or_default (Z.to_nat (n / 64 ^ k mod 64)) alphabet Pad64) as [Hin | ->];
      [|by vm_compute].
    assert (Ha : forallb plain_char alphabet = true) by (vm_compute; reflexivity).
    by eapply forallb_forall in Ha; [|exact Hin]. }
  assert (Hp : plain_char Pad64 = true) by (by vm_compute).
  unfold printable in *. induction s as [|a|a b|a b c s IH] using triple_ind; cbn [b64_text app]; repeat (constructor; [done || apply Hd|]); done.
Qed.

Lemma digit_plain z : 0 <= z < 10 -> plain_char (z2b (48 + z)) = true.
Proof. intros Hz. apply isdigit_plain, isdigit_range. rewrite b2z_z2b_small; lia. Qed.

Lemma hex2_printable z : 0 <= z < 256 -> printable (hex2 z).
Proof.
  intros Hz. assert (H : forall d, 0 <= d < 16 -> plain_char (hex_digit d) = true).
  { intros d Hd. unfold hex_digit. destruct (Z.ltb_spec d 10); [apply digit_plain; lia|].
    assert (Hp : forall c, negb ((97 <=? b2z c) && (b2z c <=? 102)) || plain_char c = true) by (apply byte_forall; vm_compute; reflexivity).
    specialize (Hp (z2b (87 + d))). rewrite b2z_z2b_small in Hp by lia. destruct (plain_char _); [done|]. rewrite orb_false_r in Hp. lia. }
  repeat constructor; apply H; Z.to_euclidean_division_equations; lia.
Qed.

Lemma dec02_printable z : 0 <= z < 100 -> printable (dec02 z).
Proof. intros Hz. repeat constructor; apply digit_plain; Z.to_euclidean_division_equations; lia. Qed.

(** Literals. *)
Ltac plain_lit := by repeat constructor.

Lemma dec0_printable w z : printable (dec0 w z).
Proof.
  assert (Hp : forall w z, printable (pad0 w (dec z))).
  { intros. unfold pad0. apply printable_app. split; [apply Forall_replicate; by vm_compute|apply dec_printable]. }
  unfold dec0. destruct (z <? 0); [apply printable_app; split; [plain_lit|]|]; apply Hp.
Qed.

Lemma iso_text_printable msec : printable (iso_text msec).
Proof.
  unfold iso_text. destruct (gmtime (Z.quot msec 1000)) as [t|] eqn:Et; [|constructor].
  apply gmtime_spec in Et as [(Hm & Hd & Hh & Hmi & Hs) _]. pose proof (days_in_month_range (tm_year t + 1900) (tm_mon t + 1)) as Hdm.
  unfold strftime_iso. rewrite !printable_app.
  assert (printable (if Z.rem msec 1000 =? 0 then [] else txt "." ++ dec0 3 (Z.rem msec 1000))).
  { destruct (_ =? 0); [constructor|]. apply printable_app. split; [plain_lit|apply dec0_printable]. }
  split_and!; first [done | plain_lit | apply sdec_printable | apply dec02_printable; lia].
Qed.

Lemma printable_take n s : printable s -> printable (take n s).
Proof. apply Forall_take. Qed.
Lemma printable_drop n s : printable s -> printable (drop n s).
Proof. apply Forall_drop. Qed.

Lemma finite_text_printable s e : digits_only s -> printable (finite_text s e).
Proof.
  intros Hs%digits_printable. unfold finite_text. assert (Hx : printable (signed_dec (zlen s - 1 + e))).
  { unfold signed_dec. apply printable_app. split; [destruct (_ <? 0); plain_lit|apply dec_printable]. }
  destruct (_ || _); [|destruct (e =? 0); [done|destruct (0 <? zlen s + e)]]; rewrite !printable_app.
  - split_and!; [by apply printable_take| |plain_lit|done]. destruct (_ =? 1); [constructor|].
    apply printable_app. split; [plain_lit|by apply printable_drop].
  - split_and!; [by apply printable_take|plain_lit|by apply printable_drop].
  - split_and!; [plain_lit|apply Forall_replicate; by vm_compute|done].
Qed.

Lemma dec_text_printable v : printable (dec_text v).
Proof.
  assert (Hs : forall n, printable (sign_text n)) by (intros []; plain_lit).
  destruct v as [|n|n c e]; cbn [dec_text]; [plain_lit|..]; apply printable_app; (split; [apply Hs|]);
    [plain_lit|apply finite_text_printable, dec_loop_digits].
Qed.

Lemma json_options_printable o : printable (json_options o).
Proof.
  assert (H : printable (txt "ilmsux")) by plain_lit. unfold printable, json_options in *. rewrite Forall_forall in *.
  intros c [_ Hc]%list_elem_of_filter. by apply H.
Qed.

(** ** Numbers *)

Lemma j_int_dec_loop n z : 0 <= z < 10 ^ Z.of_nat n -> (0 < n)%nat -> j_int (dec_loop n z).
Proof.
  intros Hz Hn. destruct (Z.eq_dec z 0) as [->|Hnz].
  - left. destruct n as [|n]; [lia|]. reflexivity.
  - right. destruct (dec_loop_head n z) as (c & t & E & Hc); [lia|]. pose proof (dec_loop_digits n z) as Hd. rewrite E in *.
    apply Forall_cons in Hd as [? ?]. by exists c, t.
Qed.

Lemma j_int_dec z : 0 <= z < 10 ^ 20 -> j_int (dec z).
Proof. intros Hz. unfold dec. apply (j_int_dec_loop 20); [exact Hz|lia]. Qed.

Lemma j_number_int minus int : minus = [] \/ minus = txt "-" -> j_int int -> j_number (minus ++ int).
Proof.
  intros Hm Hi. exists minus, int, [], []. rewrite !app_nil_r. split_and!; [done..|by left|by left].
Qed.

Lemma j_number_dec z : 0 <= z < 10 ^ 20 -> j_number (dec z).
Proof. intros Hz. apply (j_number_int []); [by left|]. by apply j_int_dec. Qed.

Lemma j_number_sdec z : - 2 ^ 63 <= z < 2 ^ 63 -> j_number (sdec z).
Proof.
  intros Hz. unfold sdec. destruct (Z.ltb_spec z 0); [|apply j_number_dec; lia].
  apply (j_number_int [z2b 45]); [by right|]. apply j_int_dec. lia.
Qed.

(** *** Doubles *)

Lemma exponent_up_spec fuel : forall n d x, 0 < d -> d <= n -> n < d * 10 ^ (Z.of_nat fuel + 1) ->
  let r := exponent_up fuel n d x in x <= r /\ d * 10 ^ (r - x) <= n < d * 10 ^ (r - x + 1).
Proof.
  induction fuel as [|fuel IH]; intros n d x Hd Hn Hf; cbn [exponent_up]; cbv zeta.
  - rewrite Z.sub_diag. change (10 ^ (0 + 1)) with 10. change (10 ^ (Z.of_nat 0 + 1)) with 10 in Hf. lia.
  - destruct (Z.ltb_spec n (10 * d)) as [H|H]; [rewrite Z.sub_diag; change (10 ^ (0 + 1)) with 10; lia|].
    rewrite Nat2Z.inj_succ in Hf. unfold Z.succ in Hf. rewrite (Z.pow_add_r 10 _ 1) in Hf by lia.
    destruct (IH n (10 * d) (x + 1)) as (H1 & H2); [lia..|].
    set (r := exponent_up fuel n (10 * d) (x + 1)) in *. split; [lia|].
    replace (r - x) with (r - (x + 1) + 1) by lia. rewrite (Z.pow_add_r 10 (r - (x + 1) + 1) 1) by lia.
    rewrite (Z.pow_add_r 10 (r - (x + 1)) 1) in * by lia. lia.
Qed.

Lemma exponent_down_spec fuel : forall n d x, 0 < n < 10 * d -> d <= n * 10 ^ Z.of_nat fuel ->
  let r := exponent_down fuel n d x in r <= x /\ d <= n * 10 ^ (x - r) < 10 * d.
Proof.
  induction fuel as [|fuel IH]; intros n d x Hd Hf; cbn [exponent_down]; cbv zeta.
  - rewrite Z.sub_diag. change (10 ^ Z.of_nat 0) with 1 in Hf. lia.
  - destruct (Z.leb_spec d n) as [H|H]; [rewrite Z.sub_diag; lia|].
    rewrite Nat2Z.inj_succ, Z.pow_succ_r in Hf by lia.
    destruct (IH (10 * n) d (x - 1)) as (H1 & H2); [lia..|].
    set (r := exponent_down fuel (10 * n) d (x - 1)) in *. split; [lia|].
    replace (x - r) with (x - 1 - r + 1) by lia. rewrite Z.pow_add_r by lia. lia.
Qed.

Lemma div_round_range n d k : 0 < d -> d * 10 ^ k <= n < d * 10 ^ (k + 1) -> 0 <= k -> 10 ^ k <= div_round n d <= 10 ^ (k + 1).
Proof.
  intros Hd Hn Hk. assert (10 ^ k <= n / d < 10 ^ (k + 1)) by (split; [apply Z.div_le_lower_bound|apply Z.div_lt_upper_bound]; lia).
  unfold div_round. repeat case_match; lia.
Qed.

Lemma round20_range n d : 0 < n < 10 ^ 309 -> 0 < d < 10 ^ 330 -> 0 < (round20 n d).1 < 10 ^ 20.
Proof.
  intros Hn Hd. unfold round20.
  assert (Hc : 10 ^ 19 <= (let x := decimal_exponent n d in
    if x <=? 19 then div_round (n * 10 ^ (19 - x)) d else div_round n (d * 10 ^ (x - 19))) <= 10 ^ (19 + 1)).
  { cbv zeta. unfold decimal_exponent. destruct (Z.leb_spec d n) as [H|H].
    - destruct (exponent_up_spec 309 n d 0 ltac:(lia) H) as (H1 & H2 & H3); [change (Z.of_nat 309 + 1) with (309 + 1); rewrite (Z.pow_add_r 10 309 1) by lia; nia|].
      set (x := exponent_up 309 n d 0) in *. rewrite Z.sub_0_r in *. destruct (Z.leb_spec x 19).
      + apply div_round_range; [lia| |lia]. split.
        * replace 19 with (x + (19 - x)) at 1 by lia. rewrite Z.pow_add_r by lia. nia.
        * replace (19 + 1) with (x + 1 + (19 - x)) by lia. rewrite (Z.pow_add_r 10 (x + 1)) by lia. nia.
      + apply div_round_range; [nia| |lia]. rewrite <- !Z.mul_assoc, <- !Z.pow_add_r by lia.
        replace (x - 19 + 19) with x by lia. replace (x - 19 + (19 + 1)) with (x + 1) by lia. lia.
    - destruct (exponent_down_spec 330 n d 0 ltac:(lia)) as (H1 & H2 & H3); [change (Z.of_nat 330) with 330; nia|].
      set (x := exponent_down 330 n d 0) in *. destruct (Z.leb_spec x 19); [|lia].
      apply div_round_range; [lia| |lia]. replace (19 - x) with (0 - x + 19) by lia.
      rewrite (Z.pow_add_r 10 (0 - x)), (Z.pow_add_r 10 19 1) by lia. nia. }
  cbv zeta in Hc. revert Hc. generalize (if decimal_exponent n d <=? 19 then div_round (n * 10 ^ (19 - decimal_exponent n d)) d
    else div_round n (d * 10 ^ (decimal_exponent n d - 19))) as c. intros c Hc.
  change (10 ^ (19 + 1)) with (10 ^ 20) in Hc. destruct (Z.eqb_spec c (10 ^ 20)); cbn [fst]; lia.
Qed.

Lemma strip_zeros_digits s : digits_only s -> digits_only (strip_zeros s).
Proof.
  induction 1 as [|c s Hc Hs IH]; [constructor|]. cbn [strip_zeros].
  destruct (strip_zeros s); [destruct (byte_eqb c (z2b 48)); [constructor|by repeat constructor]|by constructor].
Qed.

Lemma with_point_parts s t : digits_only t -> exists f, with_point s t = s ++ f /\ j_frac f.
Proof.
  intros Ht. unfold with_point. destruct t as [|c t]; [exists []; rewrite app_nil_r; split; [done|by left]|].
  exists (txt "." ++ c :: t). split; [done|]. right. by exists (c :: t).
Qed.

Lemma exponent_text_exp x : j_exp (exponent_text x).
Proof.
  right. exists (txt "e"), (txt (if x <? 0 then "-" else "+")), ((if Z.abs x <? 10 then txt "0" else []) ++ dec (Z.abs x)).
  split; [done|]. split; [by left|]. split; [destruct (x <? 0); tauto|].
  pose proof (dec_loop_digits 20 (Z.abs x)) as Hd. fold (dec (Z.abs x)) in Hd. split.
  - intros [_ E]%app_eq_nil. unfold dec in E. cbn [dec_loop] in E. by apply app_eq_nil in E as [_ ?].
  - destruct (_ <? 10); [|done]. apply Forall_app. split; [by repeat constructor|done].
Qed.

(** A number up to its sign. *)
Definition j_magnitude (s : bytes) : Prop := exists int frac exp, s = int ++ frac ++ exp /\ j_int int /\ j_frac frac /\ j_exp exp.

Lemma digits_text_number c x : 0 < c < 10 ^ 20 -> j_magnitude (digits_text c x).
Proof.
  intros Hc. destruct (dec_loop_head 20 c) as (d & t & E & Hd0); [exact Hc|].
  pose proof (dec_loop_digits 20 c) as Hds. rewrite E in Hds. apply Forall_cons in Hds as [Hd Hds].
  unfold digits_text, dec. rewrite E. clear E.
  assert (Hi : forall n, j_int (d :: take n t)) by (intros n; right; exists d, (take n t); split_and!; [done..|by apply Forall_take]).
  assert (Hz : forall n, digits_only (strip_zeros (drop n t))) by (intros n; apply strip_zeros_digits; by apply Forall_drop).
  destruct ((-4 <=? x) && (x <? 20)) eqn:Ex.
  - apply andb_true_iff in Ex as [?%Z.leb_le ?%Z.ltb_lt]. destruct (Z.leb_spec 0 x).
    + replace (Z.to_nat (x + 1)) with (S (Z.to_nat x)) by lia. cbn [take drop].
      destruct (with_point_parts (d :: take (Z.to_nat x) t) _ (Hz (Z.to_nat x))) as (f & -> & Hf).
      exists (d :: take (Z.to_nat x) t), f, []. rewrite app_nil_r. split_and!; [done..|by left].
    + destruct (with_point_parts (txt "0") (replicate (Z.to_nat (- x - 1)) (z2b 48) ++ strip_zeros (d :: t))) as (f & -> & Hf).
      { apply Forall_app. split; [by apply Forall_replicate|]. apply strip_zeros_digits. by constructor. }
      exists (txt "0"), f, []. rewrite app_nil_r. split_and!; [done|by left|done|by left].
  - cbn [take drop]. destruct (with_point_parts [d] _ (Hz 0%nat)) as (f & E & Hf). rewrite drop_0 in E. rewrite ?drop_0, ?take_0, E.
    exists [d], f, (exponent_text x). rewrite <- app_assoc. split_and!; [done|apply (Hi 0%nat)|done|apply exponent_text_exp].
Qed.

Lemma double_ratio_range bits n d : double_finite bits = true -> double_ratio bits = (n, d) -> 0 <= n < 10 ^ 309 /\ 0 < d < 10 ^ 330.
Proof.
  unfold double_finite, double_is_nan, double_is_inf, double_ratio, double_parts, double_exponent, double_fraction. intros Hf.
  change 2047 with (Z.ones 11) in *. change (2 ^ 52 - 1) with (Z.ones 52) in *. rewrite !Z.land_ones in * by lia.
  set (x := Z.shiftr bits 52 mod 2 ^ 11) in *. set (f := bits mod 2 ^ 52) in *.
  assert (Hx : 0 <= x < 2047).
  { assert (0 <= x < 2 ^ 11) by (apply Z.mod_pos_bound; lia). change (Z.ones 11) with 2047 in *.
    destruct (Z.eqb_spec x 2047); [by destruct (f =? 0)|lia]. }
  assert (Hfr : 0 <= f < 2 ^ 52) by (apply Z.mod_pos_bound; lia). clearbody x f.
  assert (H1 : 2 ^ 1024 < 10 ^ 309) by (by vm_compute). assert (H2 : 2 ^ 1075 < 10 ^ 330) by (by vm_compute).
  assert (Hb : forall m e, 0 <= m < 2 ^ 53 -> -1075 <= e <= 971 ->
    (if 0 <=? e then (m * 2 ^ e, 1) else (m, 2 ^ (- e))) = (n, d) -> 0 <= n < 10 ^ 309 /\ 0 < d < 10 ^ 330).
  { intros m e Hm He. destruct (Z.leb_spec 0 e); intros [= <- <-].
    - assert (0 < 2 ^ e <= 2 ^ 971) by (split; [|apply Z.pow_le_mono_r]; lia).
      assert (m * 2 ^ e < 2 ^ 1024) by (change (2 ^ 1024) with (2 ^ 53 * 2 ^ 971); nia). split; [nia|lia].
    - assert (2 ^ (- e) <= 2 ^ 1075) by (apply Z.pow_le_mono_r; lia). split; lia. }
  destruct (x =? 0) eqn:E0; apply Hb; lia.
Qed.

Lemma j_number_sign neg s : j_magnitude s -> j_number ((if (neg : bool) then txt "-" else []) ++ s).
Proof.
  intros (i & f & e & -> & Hi & Hf & He). exists (if neg then txt "-" else []), i, f, e.
  split_and!; [done|destruct neg; tauto|done..].
Qed.

Lemma printf_20g_number bits : double_finite bits = true -> j_number (printf_20g bits).
Proof.
  intros Hf. unfold printf_20g. apply j_number_sign. pose proof Hf as Hf'. unfold double_finite in Hf.
  destruct (double_is_nan bits); [done|]. destruct (double_is_inf bits); [done|].
  destruct (double_ratio bits) as [n d] eqn:E. destruct (double_ratio_range bits n d Hf' E) as [Hn Hd].
  destruct (Z.eqb_spec n 0).
  - exists (txt "0"), [], []. split_and!; [done|by left|by left|by left].
  - pose proof (round20_range n d ltac:(lia) Hd) as Hc. destruct (round20 n d) as [c x]. by apply digits_text_number.
Qed.

Lemma integer_number s : j_number s -> integer_chars s = true -> j_number (s ++ txt ".0").
Proof.
  intros (m & i & f & e & -> & Hm & Hi & Hf & He) Hc. unfold integer_chars in Hc. rewrite !forallb_app, !andb_true_iff in Hc.
  destruct Hc as (_ & _ & Hcf & Hce).
  destruct Hf as [->|(t & -> & _)]; [|by vm_compute in Hcf]. destruct He as [->|(e0 & sg & t & -> & [-> | ->] & _)]; [|by vm_compute in Hce..].
  exists m, i, (txt ".0"), []. rewrite !app_nil_r, <- app_assoc. split_and!; [done..| |by left].
  right. exists (txt "0"). split_and!; [done|done|by repeat constructor].
Qed.

Lemma double_text_number bits : double_finite bits = true -> j_number (double_text bits).
Proof.
  intros Hf. unfold double_text. destruct (integer_chars _) eqn:E; [apply integer_number; [|done]|]; by apply printf_20g_number.
Qed.

Lemma j_number_printable s : j_number s -> printable s.
Proof.
  intros (m & i & f & e & -> & Hm & Hi & Hf & He). rewrite !printable_app. split_and!.
  - destruct Hm as [-> | ->]; plain_lit.
  - destruct Hi as [->|(c & t & -> & Hc & _ & Ht)]; [plain_lit|]. apply digits_printable. by constructor.
  - destruct Hf as [->|(t & -> & _ & Ht)]; [constructor|]. apply printable_app. split; [plain_lit|by apply digits_printable].
  - destruct He as [->|(c & sg & t & -> & Hc & Hs & _ & Ht)]; [constructor|]. rewrite !printable_app.
    split_and!; [destruct Hc as [-> | ->]; plain_lit|destruct Hs as [->|[-> | ->]]; plain_lit|by apply digits_printable].
Qed.

(** ** Objects and arrays *)

Lemma ws_nil : j_ws [].
Proof. constructor. Qed.
Lemma ws_space : j_ws (txt " ").
Proof. constructor; [apply list_elem_of_here|constructor]. Qed.
#[local] Hint Resolve ws_nil ws_space : core.

Fixpoint fields (l : list (bytes * bytes)) : bytes :=
  match l with
  | [] => []
  | [(k, v)] => j_quote k ++ js " : " ++ v
  | (k, v) :: l => j_quote k ++ js " : " ++ v ++ js ", " ++ fields l
  end.
Definition j_obj (l : list (bytes * bytes)) : bytes := js "{ " ++ fields l ++ js " }".

Definition field_ok (kv : bytes * bytes) : Prop := j_chars kv.1 = true /\ j_value kv.2.

Lemma fields_members l : l <> [] -> Forall field_ok l -> j_members (txt " " ++ fields l ++ txt " ").
Proof.
  intros Hn. induction 1 as [|[k v] l [Hk Hv] Hl IH]; [done|]. destruct l as [|kv l].
  - cbn [fields]. pose proof (j_member (txt " ") k (txt " ") (txt " ") v (txt " ") ws_space Hk ws_space ws_space Hv ws_space) as H.
    by rewrite <- !app_assoc.
  - assert (Hn' : kv :: l <> []) by discriminate. specialize (IH Hn'). revert IH.
    change (fields ((k, v) :: kv :: l)) with (j_quote k ++ js " : " ++ v ++ js ", " ++ fields (kv :: l)).
    generalize (fields (kv :: l)) as f. intros f IH.
    pose proof (j_members_more _ _ (j_member (txt " ") k (txt " ") (txt " ") v [] ws_space Hk ws_space ws_space Hv ws_nil) IH) as H.
    rewrite app_nil_r, <- !app_assoc in H. by rewrite <- !app_assoc.
Qed.

Lemma j_obj_value l : l <> [] -> Forall field_ok l -> j_value (j_obj l).
Proof.
  intros Hn Hl. pose proof (j_object _ (fields_members l Hn Hl)) as H. unfold j_obj. rewrite <- !app_assoc in H. exact H.
Qed.

(** ** Values *)

Section Mode.
Context (m : bson_json_mode_t).

(** Printed in full, [depth] levels deep; and no double that is not a number in
    the legacy mode, which prints it bare. *)
Fixpoint fits (depth : nat) (d : doc) : Prop :=
  match d, depth with
  | [], _ => True
  | _, O => False
  | _, S depth' => Forall (fun e => match e.2 with
      | BDocument d | BArray d | BCodeWScope _ d => fits depth' d
      | BDouble bits => is_legacy m = true -> double_finite bits = true
      | _ => True
      end) d
  end.

Lemma quoted_value s : printable s -> j_value (j_quote s).
Proof. intros Hs. apply j_string. by apply j_chars_printable. Qed.
Lemma escaped_value s : j_value (j_quote (json_escape s)).
Proof. apply j_string, json_escape_chars. Qed.
Lemma dec_value' z : 0 <= z < 10 ^ 20 -> j_value (dec z).
Proof. intros Hz. by apply j_num, j_number_dec. Qed.
Lemma sdec_value z : - 2 ^ 63 <= z < 2 ^ 63 -> j_value (sdec z).
Proof. intros Hz. by apply j_num, j_number_sdec. Qed.
Lemma one_value : j_value (txt "1").
Proof. apply j_num. apply (j_number_dec 1). lia. Qed.

(** A text that is an object with the given fields. *)
Ltac j_fields l :=
  match goal with |- j_value ?t =>
    assert (E : t = j_obj l) by (repeat (unfold j_obj; cbn [fields]); unfold j_quote, json_string, json_oid; rewrite <- ?app_assoc; reflexivity);
    rewrite E; clear E; apply j_obj_value; [discriminate|]
  end.
Ltac j_field := split; [by vm_compute|]; cbn [snd].
Ltac j_each := repeat (constructor; [j_field|]); [..|constructor].

Lemma oid_value oid : j_value (json_oid oid).
Proof. unfold json_oid. j_fields [(js "$oid", j_quote (hex_text oid))]. j_each. apply quoted_value, hex_text_printable. Qed.

Lemma int_value name v : j_chars (js name) = true -> - 2 ^ 63 <= v < 2 ^ 63 -> j_value (json_int m name v).
Proof.
  intros Hn Hv. unfold json_int. destruct (is_canonical m); [|by apply sdec_value].
  revert Hn. generalize (js name) as k. intros k Hk. j_fields [(k, j_quote (sdec v))]. constructor; [|constructor].
  split; [done|]. apply quoted_value, sdec_printable.
Qed.

Lemma double_value bits : (is_legacy m = true -> double_finite bits = true) -> j_value (json_double m bits).
Proof.
  intros Hl. unfold json_double.
  assert (Hw : forall t, printable t -> j_value (js "{ '$numberDouble' : '" ++ t ++ js "' }")).
  { intros t Ht. j_fields [(js "$numberDouble", j_quote t)]. j_each. by apply quoted_value. }
  assert (Hf : double_is_nan bits = false -> double_is_inf bits = false -> j_number (double_text bits)).
  { intros H1 H2. apply double_text_number. unfold double_finite. by rewrite H1, H2. }
  assert (Hx : double_finite bits = true -> j_number (double_text bits)) by apply double_text_number.
  destruct m; cbn [is_canonical is_legacy] in *; [by apply j_num, Hx, Hl|..];
    (destruct (double_is_nan bits); [apply Hw; plain_lit|]); (destruct (double_is_inf bits); [apply Hw; destruct (double_negative bits); plain_lit|]).
  - apply Hw, j_number_printable, Hf; done.
  - by apply j_num, Hf.
Qed.

Lemma date_value t : is_s64 t -> j_value (json_date m t).
Proof.
  intros Ht. unfold is_s64 in Ht. unfold json_date.
  assert (Hw : j_value (js "{ '$date' : { '$numberLong' : '" ++ sdec t ++ js "' } }")).
  { j_fields [(js "$date", j_obj [(js "$numberLong", j_quote (sdec t))])]. j_each. apply j_obj_value; [discriminate|]. j_each.
    apply quoted_value, sdec_printable. }
  destruct m; [|done|].
  - j_fields [(js "$date", sdec t)]. j_each. by apply sdec_value.
  - destruct (_ && _); [|done]. j_fields [(js "$date", j_quote (iso_text t))]. j_each. apply quoted_value, iso_text_printable.
Qed.
Lemma binary_value st data : is_u8 st -> j_value (json_scalar m (BBinary st data)).
Proof.
  intros Hst. cbn [json_scalar]. pose proof (quoted_value _ (b64_text_printable data)) as Hb. pose proof (quoted_value _ (hex2_printable st Hst)) as Hx.
  destruct (is_legacy m).
  - j_fields [(js "$binary", j_quote (b64_text data)); (js "$type", j_quote (hex2 st))]. by j_each.
  - j_fields [(js "$binary", j_obj [(js "base64", j_quote (b64_text data)); (js "subType", j_quote (hex2 st))])].
    j_each. apply j_obj_value; [discriminate|]. by j_each.
Qed.

Lemma regex_value r o : j_value (json_scalar m (BRegex r o)).
Proof.
  cbn [json_scalar]. pose proof (escaped_value r) as Hr. pose proof (quoted_value _ (json_options_printable o)) as Ho.
  destruct (is_legacy m).
  - j_fields [(js "$regex", j_quote (json_escape r)); (js "$options", j_quote (json_options o))]. by j_each.
  - j_fields [(js "$regularExpression", j_obj [(js "pattern", j_quote (json_escape r)); (js "options", j_quote (json_options o))])].
    j_each. apply j_obj_value; [discriminate|]. by j_each.
Qed.

Lemma dbpointer_value c oid : j_value (json_scalar m (BDBPointer c oid)).
Proof.
  cbn [json_scalar]. pose proof (escaped_value c) as Hc. destruct (is_legacy m).
  - j_fields [(js "$ref", j_quote (json_escape c)); (js "$id", j_quote (hex_text oid))]. j_each; [done|apply quoted_value, hex_text_printable].
  - j_fields [(js "$dbPointer", j_obj [(js "$ref", j_quote (json_escape c)); (js "$id", json_oid oid)])].
    j_each. apply j_obj_value; [discriminate|]. j_each; [done|apply oid_value].
Qed.

Lemma timestamp_value t i : is_u32 t -> is_u32 i -> j_value (json_scalar m (BTimestamp t i)).
Proof.
  unfold is_u32. intros Ht Hi. cbn [json_scalar].
  j_fields [(js "$timestamp", j_obj [(js "t", dec t); (js "i", dec i)])].
  j_each. apply j_obj_value; [discriminate|]. j_each; apply dec_value'; lia.
Qed.

Definition holds_doc (v : bval) : bool := match v with BDocument _ | BArray _ | BCodeWScope _ _ => true | _ => false end.

Lemma scalar_value v : wf_val v -> holds_doc v = false ->
  match v with BDouble bits => is_legacy m = true -> double_finite bits = true | _ => True end -> j_value (json_scalar m v).
Proof.
  intros Hwf Hs Hd. destruct v as [b|s|d|d|sub data| |oid|b|t| |r op|c oid|c|s|c d|i|t i|i|lo hi| |]; try done; cbn [wf_val] in Hwf.
  - by apply double_value.
  - apply escaped_value.
  - by apply binary_value.
  - j_fields [(js "$undefined", txt "true")]. j_each. by apply j_word; left.
  - apply oid_value.
  - apply j_word. destruct b; tauto.
  - by apply date_value.
  - apply j_word. tauto.
  - apply regex_value.
  - apply dbpointer_value.
  - cbn [json_scalar]. j_fields [(js "$code", j_quote (json_escape c))]. j_each. apply escaped_value.
  - cbn [json_scalar]. destruct (is_legacy m); [apply escaped_value|].
    j_fields [(js "$symbol", j_quote (json_escape s))]. j_each. apply escaped_value.
  - apply int_value; [by vm_compute|]. unfold is_s32 in Hwf. lia.
  - destruct Hwf. by apply timestamp_value.
  - apply int_value; [by vm_compute|done].
  - cbn [json_scalar]. j_fields [(js "$numberDecimal", j_quote (dec_text (dec_value (Decimal128 hi lo))))]. j_each.
    apply quoted_value, dec_text_printable.
  - cbn [json_scalar]. j_fields [(js "$maxKey", txt "1")]. j_each. apply one_value.
  - cbn [json_scalar]. j_fields [(js "$minKey", txt "1")]. j_each. apply one_value.
Qed.

(** The items of a document, and of an array. *)
Fixpoint array_items (l : list bytes) : bytes :=
  match l with [] => [] | [v] => v | v :: l => v ++ js ", " ++ array_items l end.

Lemma items_elements l : l <> [] -> Forall j_value l -> j_elements (txt " " ++ array_items l ++ txt " ").
Proof.
  intros Hn. induction 1 as [|v l Hv Hl IH]; [done|]. destruct l as [|v' l].
  - apply j_element; auto.
  - assert (Hn' : v' :: l <> []) by discriminate. specialize (IH Hn'). revert IH.
    change (array_items (v :: v' :: l)) with (v ++ js ", " ++ array_items (v' :: l)). generalize (array_items (v' :: l)) as f. intros f IH.
    pose proof (j_elements_more _ _ (j_element (txt " ") v [] ws_space Hv ws_nil) IH) as H.
    rewrite app_nil_r, <- !app_assoc in H. by rewrite <- !app_assoc.
Qed.

Definition doc_fields (depth : nat) (d : doc) : list (bytes * bytes) := map (fun e => (json_escape e.1, json_val m depth e.2)) d.

Lemma json_items_tail keys depth d : d <> [] -> json_items m keys depth false d = js ", " ++ json_items m keys depth true d.
Proof. destruct d; done. Qed.

Lemma json_items_fields depth d : d <> [] -> json_items m true depth true d = fields (doc_fields depth d).
Proof.
  induction d as [|[k v] d IH]; [done|]. intros _. destruct d as [|e d].
  - cbn [json_items doc_fields map fields fst snd]. by rewrite app_nil_r, <- !app_assoc.
  - assert (Hn : e :: d <> []) by discriminate. specialize (IH Hn). revert IH.
    change (fields (doc_fields depth ((k, v) :: e :: d))) with
      (j_quote (json_escape k) ++ js " : " ++ json_val m depth v ++ js ", " ++ fields (doc_fields depth (e :: d))).
    intros <-. rewrite <- json_items_tail by done. cbn [json_items fst snd]. by rewrite <- !app_assoc.
Qed.

Lemma json_items_array depth d : d <> [] -> json_items m false depth true d = array_items (map (fun e => json_val m depth e.2) d).
Proof.
  induction d as [|[k v] d IH]; [done|]. intros _. destruct d as [|e d].
  - cbn [json_items map array_items fst snd app]. by rewrite app_nil_r.
  - assert (Hn : e :: d <> []) by discriminate. specialize (IH Hn). revert IH.
    change (array_items (map (fun e => json_val m depth e.2) ((k, v) :: e :: d))) with
      (json_val m depth v ++ js ", " ++ array_items (map (fun e => json_val m depth e.2) (e :: d))).
    intros <-. rewrite <- json_items_tail by done. reflexivity.
Qed.

Definition style_of (keys : bool) : json_container := if keys then json_document_style else json_array_style.

(** A document of values of JSON is an object or an array of JSON. *)
Lemma container_value keys depth d : Forall (fun e => j_value (json_val m depth e.2)) d ->
  j_value (json_doc m (style_of keys) (S depth) d).
Proof.
  intros Hd. destruct d as [|e d].
  - destruct keys; [apply (j_empty_object (txt " "))|apply (j_empty_array (txt " "))]; auto.
  - assert (Hn : e :: d <> []) by discriminate. destruct keys.
    + change (j_value (js "{ " ++ json_items m true depth true (e :: d) ++ js " }")). rewrite json_items_fields by done.
      apply j_obj_value; [done|]. apply Forall_map. eapply Forall_impl; [exact Hd|]. intros e' He'. split; [apply json_escape_chars|done].
    + change (j_value (js "[ " ++ json_items m false depth true (e :: d) ++ js " ]")). rewrite json_items_array by done.
      assert (Hv : Forall j_value (map (fun e => json_val m depth e.2) (e :: d))) by (by apply Forall_map).
      pose proof (j_array _ (items_elements (map (fun e => json_val m depth e.2) (e :: d)) ltac:(discriminate) Hv)) as H.
      rewrite <- !app_assoc in H. exact H.
Qed.

Lemma empty_value keys depth : j_value (json_doc m (style_of keys) depth []).
Proof.
  destruct keys, depth; first [apply (j_empty_object (txt " ")); auto | apply (j_empty_array (txt " ")); auto].
Qed.

Lemma doc_value depth : forall keys d, wf_elems d -> fits depth d -> j_value (json_doc m (style_of keys) depth d).
Proof.
  induction depth as [|depth IH]; intros keys [|e0 d0] Hwf Hf; try apply empty_value; [done|].
  apply container_value. cbn [fits] in Hf. revert Hwf Hf. generalize (e0 :: d0) as d. intros d Hwf Hf.
  unfold wf_elems in Hwf. rewrite Forall_forall in *. intros [k v] Hin. specialize (Hwf _ Hin) as [_ Hwf]. specialize (Hf _ Hin).
  cbn [snd] in *. destruct v as [b|s|d'|d'|sub data| |oid|b|t| |r op|c oid|c|s|c d'|i|t i|i|lo hi| |];
    try (apply scalar_value; done).
  - rewrite json_val_document. apply (IH true); [by apply wf_val_document|done].
  - rewrite json_val_array. apply (IH false); [by apply wf_val_array|done].
  - rewrite json_val_codewscope. unfold json_string.
    j_fields [(js "$code", j_quote (json_escape c)); (js "$scope", json_doc m json_document_style depth d')].
    j_each; [apply escaped_value|]. apply (IH true); [by apply wf_val_codewscope in Hwf|done].
Qed.
End Mode.

(** ** Reading strings back *)

Definition hex_digit_value (c : byte) : Z :=
  if isdigit c then b2z c - 48 else if b2z c <? 97 then b2z c - 55 else b2z c - 87.

(** The character an escape of one letter stands for. *)
Definition escape_value (e : byte) : byte :=
  match b2z e with 98 => z2b 8 | 102 => z2b 12 | 110 => z2b 10 | 114 => z2b 13 | 116 => z2b 9 | _ => e end.

(** What the inside of a string stands for, in UTF-8; pairs of surrogates do not
    occur in what the library prints. *)
Fixpoint j_read (s : bytes) : bytes :=
  match s with
  | [] => []
  | c :: s =>
      if byte_eqb c (z2b 92) then
        match s with
        | [] => []
        | e :: s =>
            if byte_eqb e (z2b 117) then
              match s with
              | a :: b :: c :: d :: s =>
                  utf8_enc (foldl (fun v c => 16 * v + hex_digit_value c) 0 [a; b; c; d]) ++ j_read s
              | _ => []
              end
            else escape_value e :: j_read s
        end
      else c :: j_read s
  end.

(** With the NUL of two bytes as the one it stands for. *)
Fixpoint one_nul (s : bytes) : bytes :=
  match s with
  | [] => []
  | c :: s' =>
      match s' with
      | c1 :: s'' => if byte_eqb c (z2b 0xC0) && byte_eqb c1 (z2b 0x80) then x00 :: one_nul s'' else c :: one_nul s'
      | [] => [c]
      end
  end.

Definition control_escape (c : byte) : bytes := utf8_enc (foldl (fun v c => 16 * v + hex_digit_value c) 0 ([z2b 48; z2b 48] ++ hex2 (b2z c))).

Lemma j_read_char c t : j_read (json_char c ++ t) = c :: j_read t.
Proof.
  assert (H : forall c, negb (b2z c <? 32) || bool_decide (control_escape c = [c]) = true) by (apply byte_forall; vm_compute; reflexivity).
  specialize (H c). unfold json_char.
  destruct (byte_eqb c (z2b 34)) eqn:E1; [apply byte_eqb_spec in E1 as ->; reflexivity|].
  destruct (byte_eqb c (z2b 92)) eqn:E2; [apply byte_eqb_spec in E2 as ->; reflexivity|].
  destruct (byte_eqb c (z2b 8)) eqn:E3; [apply byte_eqb_spec in E3 as ->; reflexivity|].
  destruct (byte_eqb c (z2b 12)) eqn:E4; [apply byte_eqb_spec in E4 as ->; reflexivity|].
  destruct (byte_eqb c (z2b 10)) eqn:E5; [apply byte_eqb_spec in E5 as ->; reflexivity|].
  destruct (byte_eqb c (z2b 13)) eqn:E6; [apply byte_eqb_spec in E6 as ->; reflexivity|].
  destruct (byte_eqb c (z2b 9)) eqn:E7; [apply byte_eqb_spec in E7 as ->; reflexivity|].
  destruct (b2z c <? 32).
  - cbn [negb orb] in H. apply bool_decide_eq_true in H. change (control_escape c ++ j_read t = [c] ++ j_read t). by rewrite H.
  - cbn [app j_read]. by rewrite E2.
Qed.

Lemma j_read_escape_n n : forall s, (length s <= n)%nat -> j_read (json_escape s) = one_nul s.
Proof.
  induction n as [|n IH]; intros [|c [|c1 s]] Hl; cbn [length] in Hl; try lia; try done.
  - cbn [json_escape one_nul]. rewrite <- (app_nil_r (json_char c)). by rewrite j_read_char.
  - change (json_escape (c :: c1 :: s)) with (if byte_eqb c (z2b 0xC0) && byte_eqb c1 (z2b 0x80)
      then js "\u0000" ++ json_escape s else json_char c ++ json_escape (c1 :: s)).
    change (one_nul (c :: c1 :: s)) with (if byte_eqb c (z2b 0xC0) && byte_eqb c1 (z2b 0x80) then x00 :: one_nul s else c :: one_nul (c1 :: s)).
    destruct (_ && _).
    + rewrite <- IH by lia. reflexivity.
    + rewrite j_read_char, IH by (cbn [length]; lia). done.
Qed.

Lemma j_read_escape s : j_read (json_escape s) = one_nul s.
Proof. by apply (j_read_escape_n (length s)). Qed.
