(* ===== verification/JsonDoc.v ===== *)
(** The visitor of [Json] over encoded documents: [bson_as_json_with_opts] gives
    the text of the tree ([json_doc]), cut at the limit. *)

From Stdlib Require Import Strings.String.
From S2P Require Import Prelude CString Text IntEncode BsonTypes BsonIter BsonSpec BsonIterSpec BsonIterFind.
From S2P Require Import BsonView BsonAppendSpec Utf8 CommonString Hex StringFormat DoubleText.
From S2P Require Import Decimal128 Decimal128Spec BsonVisit Json JsonSpec.

(** ** Documents that are printed whole

    Text is UTF-8, and what may not contain NUL does not, in either form. With
    [cut] the limit may be met on the way, and there is no binary. *)
Fixpoint json_ok (cut : bool) (v : bval) : Prop :=
  let oks := fix oks (d : doc) : Prop :=
    match d with
    | [] => True
    | (k, v) :: d' => (utf8_text false k /\ json_ok cut v) /\ oks d'
    end in
  match v with
  | BUtf8 s | BCode s | BSymbol s => utf8_text true s
  | BRegex r _ => utf8_text false r
  | BDBPointer c _ => utf8_text false c
  | BBinary _ _ => cut = false
  | BDecimal128 lo hi => dec_canonical (Decimal128 hi lo)
  | BDocument d | BArray d => oks d
  | BCodeWScope c d => utf8_text true c /\ oks d
  | _ => True
  end.

Definition json_oks (cut : bool) (d : doc) : Prop := Forall (fun e => utf8_text false e.1 /\ json_ok cut e.2) d.

Lemma json_oks_eq cut d :
  (fix oks (d : doc) : Prop :=
    match d with
    | [] => True
    | (k, v) :: d' => (utf8_text false k /\ json_ok cut v) /\ oks d'
    end) d <-> json_oks cut d.
Proof.
  induction d as [|[k v] d IH]; [split; [constructor|done]|].
  unfold json_oks. rewrite Forall_cons. cbn [fst snd]. by rewrite IH.
Qed.

(** What [mcommon_json_append_bson_document] and the like print. *)
Definition doc_ok (cut : bool) (d : doc) : Prop := wf_elems d /\ zlen (enc_doc d) < 2 ^ 30 /\ json_oks cut d.

(** The scan for an element past the last one. *)
Lemma next_internal_end pre rest len it :
  at_pos pre (x00 :: rest) len it -> len = zlen pre + 1 ->
  exists it', _bson_iter_next_internal it 0 = Some (NextResult false it' None None false) /\ it_err_off it' = it_err_off it.
Proof.
  intros (Hr & Hlen & Hn & Hpre & Hmax) Hl. unfold _bson_iter_next_internal.
  rewrite Hr, Hlen, Hn. cbn [Z.eqb]. isimpl. rewrite (u32_id (zlen pre + 1)) by zl.
  unfold scan_nul. rewrite Hl, Z.sub_diag. isimpl. eauto.
Qed.

Section Doc.
Context (malloc : Z -> bytes).
Hypothesis Hmalloc : forall n, 0 <= n -> zlen (malloc n) = n.
Context (max : Z) (cut : bool) (m : bson_json_mode_t).

(** A nested document is appended, and found valid. *)
Definition nests (op : append_op) (v : bytes) : Prop :=
  forall u a, (cut = false -> zlen u + zlen v <= max) -> tracks max u a ->
  exists a', op a = Some (true, a') /\ tracks max (u ++ v) a'.

(** The state of a visit of which [u] is the text. *)
Definition visiting (keys : bool) (u : bytes) (st : mcommon_json_append_visit_t) : Prop :=
  tracks max u (jv_append st) /\ jv_mode st = m /\ jv_has_keys st = keys /\ jv_is_corrupt st = false.

Definition jv_stop (st : mcommon_json_append_visit_t) : bool := negb (mcommon_string_status_from_append (jv_append st)).

(** A callback appends [v] and stops the visit at the limit. *)
Definition visits (f : mcommon_json_append_visit_t -> option (bool * mcommon_json_append_visit_t)) (v : bytes) : Prop :=
  forall keys u st, (cut = false -> zlen u + zlen v <= max) -> visiting keys u st ->
  exists st', f st = Some (jv_stop st', st') /\ visiting keys (u ++ v) st' /\ jv_not_first_item st' = jv_not_first_item st.

Lemma visits_op op v : writes max cut (op m) v true -> visits (visit_op op) v.
Proof.
  intros H keys u st Hc (Ht & Hm & Hk & Hx). destruct (H u (jv_append st) Hc Ht) as (a' & E & Ht').
  exists (set_append st a'). unfold visit_op. rewrite Hm, E. sbind. done.
Qed.

Lemma visits_sized n op v : n < 2 ^ 32 -> writes max cut (op m) v true -> visits (visit_sized n op) v.
Proof.
  intros Hn H keys u st Hc Ht. unfold visit_sized, UINT32_MAX. destruct (Z.ltb_spec (2 ^ 32 - 1) n); [lia|].
  by apply visits_op.
Qed.

Lemma visits_nested op v : nests (op m) v -> visits (fun st => visit_nested (op (jv_mode st) (jv_append st)) st) v.
Proof.
  intros H keys u st Hc (Ht & Hm & Hk & Hx). destruct (H u (jv_append st) Hc Ht) as (a' & E & Ht').
  exists (set_append st a'). rewrite Hm. unfold visit_nested. rewrite E. sbind. done.
Qed.

Section Level.
Context (document array : bytes -> Z -> bson_json_mode_t -> append_op) (depth : nat).
Hypothesis Hdoc : forall d rest, doc_ok cut d ->
  nests (document (enc_doc d ++ rest) (zlen (enc_doc d)) m) (json_doc m json_document_style depth d).
Hypothesis Harr : forall d rest, doc_ok cut d ->
  nests (array (enc_doc d ++ rest) (zlen (enc_doc d)) m) (json_doc m json_array_style depth d).

Local Abbreviation vs := (visitors malloc document array).

Lemma nests_codewscope c rest d rest' :
  utf8_text true c -> zlen c < 2 ^ 32 -> doc_ok cut d ->
  nests (mcommon_json_append_value_codewscope malloc document (c ++ rest) (zlen c) (enc_doc d ++ rest') (zlen (enc_doc d)) m)
    (json_val m depth (BCodeWScope c d)).
Proof.
  intros Hu Hz Hd u a Hc Ht. unfold mcommon_json_append_value_codewscope.
  set (text := js "{ '$code' : '" ++ json_escape c ++ js "', '$scope' : ").
  assert (E : json_val m depth (BCodeWScope c d) = text ++ json_doc m json_document_style depth d ++ js " }").
  { rewrite json_val_codewscope. unfold text, json_string. rewrite <- !app_assoc.
    rewrite (js_join "{ '$code' : " "'" "{ '$code' : '") by done.
    by rewrite (js_join "'" ", '$scope' : " "', '$scope' : "). }
  rewrite E in *. rewrite !zlen_app in Hc. pose proof (zlen_nonneg (js " }")).
  pose proof (zlen_nonneg (json_doc m json_document_style depth d)).
  assert (Hhead : writes max cut (op_then (fun a => mcommon_string_append malloc a (jlit "{ '$code' : '"))
    (op_then (mcommon_json_append_escaped malloc (c ++ rest) (zlen c) true)
       (fun a => mcommon_string_append malloc a (jlit "', '$scope' : ")))) text true).
  { eapply writes_then; [apply (writes_jlit malloc Hmalloc); by vm_compute|].
    eapply writes_then; [apply (writes_escaped malloc Hmalloc); [done|done|by left]|]. apply (writes_jlit malloc Hmalloc). by vm_compute. }
  destruct (Hhead u a) as (a1 & E1 & Ht1); [intros Ec; specialize (Hc Ec); lia|done|].
  unfold op_then in *. destruct (mcommon_string_append malloc a _) as [[? b1]|]; [|done]. cbn [mbind option_bind] in *.
  destruct (mcommon_json_append_escaped _ _ _ _ b1) as [[? b2]|]; [|done]. cbn [mbind option_bind] in *. rewrite E1.
  cbn [mbind option_bind]. destruct (Hdoc d rest' Hd (u ++ text) a1) as (a2 & -> & Ht2); [intros Ec; specialize (Hc Ec); rewrite zlen_app; lia|done|].
  cbn [mbind option_bind].
  destruct (writes_jlit malloc Hmalloc max cut " }" ltac:(by vm_compute) ((u ++ text) ++ json_doc m json_document_style depth d) a2) as (a3 & E3 & Ht3);
    [intros Ec; specialize (Hc Ec); rewrite !zlen_app; lia|done|].
  rewrite E3. cbn [mbind option_bind]. exists a3. rewrite <- !app_assoc in Ht3. done.
Qed.

(** A callback called on a value that was read. *)
Lemma visited_visits it f v keys u st :
  visits f v -> (cut = false -> zlen u + zlen v <= max) -> visiting keys u st ->
  exists st', visited it (f st) = Some (jv_stop st', it, st') /\ visiting keys (u ++ v) st' /\
    jv_not_first_item st' = jv_not_first_item st.
Proof.
  intros Hf Hc Hv. destruct (Hf keys u st Hc Hv) as (st' & E & H'). exists st'. unfold visited. rewrite E. sbind. done.
Qed.

Lemma visit_string_ok {D} it s rest n (data : D) call : n = zlen s -> utf8_text true s ->
  visit_string it (Some (s ++ rest)) n data call = visited it (call (s ++ rest) data).
Proof.
  intros -> Hs. unfold visit_string. sbind. destruct (bson_utf8_validate_spec s rest true) as (r & -> & Hr). sbind.
  rewrite (proj2 Hr Hs). done.
Qed.

Lemma visit_subdoc_ok {D} it d rest (data : D) call : zlen (enc_doc d) < 2 ^ 30 ->
  visit_subdoc it (Some (enc_doc d ++ rest)) (zlen (enc_doc d)) data call = visited it (call (enc_doc d ++ rest) data).
Proof.
  intros Hd. unfold visit_subdoc. sbind. rewrite bson_init_static_enc by (unfold BSON_MAX_SIZE; lia). done.
Qed.

(** Each kind of value is appended as its text. *)
Definition prints_value (v : bval) : Prop := forall P post it key keys u st,
  on_value P v post it -> json_ok cut v -> wf_val v -> zlen (enc_val v) < 2 ^ 30 -> is_Some (bson_iter_key_unsafe it) ->
  (cut = false -> zlen u + zlen (json_val m depth v) <= max) -> visiting keys u st ->
  exists st', visit_value vs it key (type_code (bval_type v)) st = Some (jv_stop st', it, st') /\
    visiting keys (u ++ json_val m depth v) st' /\ jv_not_first_item st' = jv_not_first_item st.

Ltac prints_start :=
  intros P post it key keys u st Hon Hok Hwf Hz [ku Hku] Hc Hv; destruct (Hon) as (Hr & Hty & Hd1 & Hd2 & _);
  unfold visit_value; rewrite type_of_code_code; cbn [bval_type json_ok wf_val] in *.

Lemma prints_double b : prints_value (BDouble b).
Proof.
  prints_start. unfold bson_iter_double. rewrite (when_type_on _ _ _ _ Hon) by done.
  unfold bson_iter_double_unsafe. rewrite (raw_u64_in _ _ _ _ Hon b []) by done. sbind. cbn [VISIT_FIELD visit_double visitors].
  apply visited_visits; [|done|done]. apply visits_op, (writes_double malloc Hmalloc).
Qed.

Lemma prints_utf8 s : prints_value (BUtf8 s).
Proof.
  prints_start. unfold bson_iter_utf8. rewrite (string_in _ _ _ _ Hon s) by done. sbind. cbn [enc_val] in Hz. rewrite zlen_enc_string in Hz.
  rewrite visit_string_ok by done. apply visited_visits; [|done|done]. apply visits_sized; [lia|]. apply (writes_string malloc Hmalloc); [done|lia|by left].
Qed.

Lemma prints_document d : prints_value (BDocument d).
Proof.
  prints_start. rewrite enc_val_document in Hz. unfold bson_iter_document.
  rewrite (subdoc_in P d post it BSON_TYPE_DOCUMENT _ (or_introl eq_refl) eq_refl Hon). sbind.
  rewrite visit_subdoc_ok by done. apply visited_visits; [|done|done]. rewrite json_val_document.
  apply (visits_nested (fun m => document _ _ m)). apply Hdoc. split; [by apply wf_val_document|]. split; [done|]. by apply json_oks_eq.
Qed.

Lemma prints_array d : prints_value (BArray d).
Proof.
  prints_start. rewrite enc_val_array in Hz. unfold bson_iter_array.
  rewrite (subdoc_in P d post it BSON_TYPE_ARRAY _ (or_intror eq_refl) eq_refl Hon). sbind.
  rewrite visit_subdoc_ok by done. apply visited_visits; [|done|done]. rewrite json_val_array.
  apply (visits_nested (fun m => array _ _ m)). apply Harr. split; [by apply wf_val_array|]. split; [done|]. by apply json_oks_eq.
Qed.

Lemma prints_binary sub data : prints_value (BBinary sub data).
Proof.
  prints_start. rewrite (binary_in _ _ _ _ _ Hon). sbind. apply visited_visits; [|done|done].
  assert (zlen data < 2 ^ 30) by (cbn [enc_val] in Hz; unfold enc_binary in Hz; case_match; rewrite !zlen_app in Hz; zl).
  apply visits_sized; [lia|]. by apply (writes_binary malloc Hmalloc).
Qed.

Lemma prints_undefined : prints_value (BUndefined).
Proof.
  prints_start. apply visited_visits; [|done|done]. apply visits_op. apply (writes_jlit malloc Hmalloc). by vm_compute.
Qed.

Lemma prints_oid oid : prints_value (BOid oid).
Proof.
  prints_start. unfold bson_iter_oid. rewrite (when_type_on _ _ _ _ Hon) by done.
  unfold bson_iter_oid_unsafe. rewrite Hr. sbind. cbn [enc_val]. rewrite slice_at by done. sbind.
  apply visited_visits; [|done|done]. apply visits_op.
  pose proof (writes_json_oid malloc Hmalloc max cut oid [] Hwf) as H. by rewrite app_nil_r in H.
Qed.

Lemma prints_bool b : prints_value (BBool b).
Proof.
  prints_start. unfold bson_iter_bool. rewrite (when_type_on _ _ _ _ Hon) by done.
  unfold bson_iter_bool_unsafe. rewrite Hr. sbind. cbn [enc_val app]. rewrite rd_at by done. sbind.
  rewrite b2z_z2b_small by (destruct b; simpl; lia). replace (negb (Z.b2z b =? 0)) with b by (by destruct b).
  apply visited_visits; [|done|done]. apply visits_op. destruct b; [apply (writes_jlit malloc Hmalloc max cut "true")|apply (writes_jlit malloc Hmalloc max cut "false")]; by vm_compute.
Qed.

Lemma prints_datetime t : prints_value (BDateTime t).
Proof.
  prints_start. unfold bson_iter_date_time. rewrite (when_type_on _ _ _ _ Hon) by done.
  rewrite (int64_in _ _ _ _ Hon t) by done. sbind. apply visited_visits; [|done|done]. apply visits_op, (writes_date malloc Hmalloc).
Qed.

Lemma prints_null : prints_value (BNull).
Proof.
  prints_start. apply visited_visits; [|done|done]. apply visits_op. apply (writes_jlit malloc Hmalloc max cut "null"). by vm_compute.
Qed.

Lemma prints_regex r op : prints_value (BRegex r op).
Proof.
  prints_start. rewrite (regex_in _ _ _ _ _ Hon). sbind. destruct Hwf as [Hnr Hno]. change ([x00] ++ op ++ [x00] ++ post) with (x00 :: op ++ x00 :: post).
  change (op ++ [x00] ++ post) with (op ++ x00 :: post).
  rewrite strlen_app by done. sbind. cbn [enc_val] in Hz. rewrite !zlen_app in Hz. pose proof (zlen_nonneg op).
  rewrite visit_string_ok; [|done|by apply utf8_nul_free]. apply visited_visits; [|done|done].
  intros keys' u' st1 Hc' Hv'. cbn [visit_regex visitors VISIT_FIELD]. unfold mcommon_json_append_visit_regex. rewrite !strlen_app by done. sbind.
  apply visits_sized with (v := json_val m depth (BRegex r op)); [zl| |done|done]. apply (writes_regex malloc Hmalloc); [done|zl].
Qed.

Lemma prints_dbpointer c oid : prints_value (BDBPointer c oid).
Proof.
  prints_start. rewrite (dbpointer_in _ _ _ _ _ Hon). sbind. cbn [enc_val] in Hz. rewrite zlen_app, zlen_enc_string in Hz. pose proof (zlen_nonneg oid).
  rewrite visit_string_ok; [|done|by apply utf8_nul_free]. apply visited_visits; [|done|done].
  apply visits_sized; [lia|]. apply (writes_dbpointer malloc Hmalloc); [done|lia|done].
Qed.

Lemma prints_code c : prints_value (BCode c).
Proof.
  prints_start. unfold bson_iter_code. rewrite (string_in _ _ _ _ Hon c) by done. sbind. cbn [enc_val] in Hz. rewrite zlen_enc_string in Hz.
  rewrite visit_string_ok by done. apply visited_visits; [|done|done]. apply visits_sized; [lia|]. apply (writes_code malloc Hmalloc); [done|lia].
Qed.

Lemma prints_symbol s : prints_value (BSymbol s).
Proof.
  prints_start. unfold bson_iter_symbol. rewrite (string_in _ _ _ _ Hon s) by done. sbind. cbn [enc_val] in Hz. rewrite zlen_enc_string in Hz.
  rewrite visit_string_ok by done. apply visited_visits; [|done|done]. apply visits_sized; [lia|]. apply (writes_symbol malloc Hmalloc); [done|lia].
Qed.

Lemma prints_codewscope c d : prints_value (BCodeWScope c d).
Proof.
  prints_start. rewrite (codewscope_in _ _ _ _ _ Hon). sbind. destruct Hok as [Hu Hd]. rewrite enc_val_codewscope, !zlen_app, zlen_enc_string in Hz.
  pose proof (zlen_nonneg (enc_doc d)). pose proof (zlen_nonneg c). pose proof (zlen_nonneg (le_bytes 4 (8 + (zlen c + 1) + zlen (enc_doc d)))).
  destruct (bson_utf8_validate_spec c (x00 :: enc_doc d ++ post) true) as (r & -> & Hrv). sbind.
  rewrite (proj2 Hrv Hu). cbn [negb]. rewrite visit_subdoc_ok by lia. apply visited_visits; [|done|done].
  intros keys' u' st1 Hc' Hv'. cbn [visit_codewscope visitors VISIT_FIELD]. unfold mcommon_json_append_visit_codewscope, UINT32_MAX.
  destruct (Z.ltb_spec (2 ^ 32 - 1) (zlen c)); [lia|].
  apply (visits_nested (fun m => mcommon_json_append_value_codewscope malloc document _ _ _ _ m) (json_val m depth (BCodeWScope c d))); [|done|done].
  apply nests_codewscope; [done|lia|]. split; [by apply wf_val_codewscope in Hwf|]. split; [lia|]. by apply json_oks_eq.
Qed.

Lemma prints_int32 i : prints_value (BInt32 i).
Proof.
  prints_start. unfold bson_iter_int32. rewrite (when_type_on _ _ _ _ Hon) by done.
  unfold bson_iter_int32_unsafe. rewrite (raw_u32_in _ _ _ _ Hon [] (u32 i) []);
    [|by rewrite app_nil_r|zl|apply u32_range]. sbind. rewrite s32_u32 by done.
  apply visited_visits; [|done|done]. apply visits_op, (writes_int malloc Hmalloc). by left.
Qed.

Lemma prints_timestamp t i : prints_value (BTimestamp t i).
Proof.
  prints_start. unfold bson_iter_timestamp. rewrite (when_type_on _ _ _ _ Hon) by done.
  rewrite (raw_u32_in _ _ _ _ Hon [] i (le_bytes 4 t) (it_d1 it)) by (done || apply Hwf || zl). sbind.
  rewrite (raw_u32_in _ _ _ _ Hon (le_bytes 4 i) t [] (it_d1 it + 4)); [|by rewrite app_nil_r|zl|apply Hwf]. sbind.
  apply visited_visits; [|done|done]. apply visits_op, (writes_timestamp malloc Hmalloc).
Qed.

Lemma prints_int64 i : prints_value (BInt64 i).
Proof.
  prints_start. unfold bson_iter_int64. rewrite (when_type_on _ _ _ _ Hon) by done. rewrite (int64_in _ _ _ _ Hon i) by done. sbind.
  apply visited_visits; [|done|done]. apply visits_op, (writes_int malloc Hmalloc). by right.
Qed.

Lemma prints_decimal128 lo hi : prints_value (BDecimal128 lo hi).
Proof.
  prints_start. rewrite (decimal128_in _ _ _ _ _ Hon). sbind. apply visited_visits; [|done|done]. apply visits_op.
  destruct Hwf. by apply (writes_decimal malloc Hmalloc).
Qed.

Lemma prints_maxkey : prints_value (BMaxKey).
Proof.
  prints_start. rewrite Hku. sbind. apply visited_visits; [|done|done]. apply visits_op. apply (writes_jlit malloc Hmalloc). by vm_compute.
Qed.

Lemma prints_minkey : prints_value (BMinKey).
Proof.
  prints_start. rewrite Hku. sbind. apply visited_visits; [|done|done]. apply visits_op. apply (writes_jlit malloc Hmalloc). by vm_compute.
Qed.

Lemma visit_value_spec v : prints_value v.
Proof.
  destruct v; [apply prints_double|apply prints_utf8|apply prints_document|apply prints_array|apply prints_binary|
    apply prints_undefined|apply prints_oid|apply prints_bool|apply prints_datetime|apply prints_null|apply prints_regex|
    apply prints_dbpointer|apply prints_code|apply prints_symbol|apply prints_codewscope|apply prints_int32|
    apply prints_timestamp|apply prints_int64|apply prints_decimal128|apply prints_maxkey|apply prints_minkey].
Qed.

Lemma visiting_exceeded keys u v st : jv_stop st = true -> visiting keys u st -> visiting keys (u ++ v) st.
Proof.
  intros Hs (Ht & H). split; [|done]. apply tracks_exceeded; [|done]. unfold jv_stop in Hs. by destruct (mcommon_string_status_from_append _).
Qed.

(** The separator and the key. *)
Definition head_text (keys first : bool) (k : bytes) : bytes :=
  (if first then [] else txt ", ") ++ (if keys then json_string k ++ txt " : " else []).

Lemma visit_before_spec keys first k rest u st :
  utf8_text false k -> no_nul k -> zlen k < 2 ^ 31 -> (cut = false -> zlen u + zlen (head_text keys first k) <= max) ->
  visiting keys u st -> (jv_stop st = false -> jv_not_first_item st = negb first) ->
  exists st', mcommon_json_append_visit_before malloc (k ++ x00 :: rest) st = Some (jv_stop st', st') /\
    visiting keys (u ++ head_text keys first k) st' /\ (jv_stop st' = false -> jv_not_first_item st' = true).
Proof.
  intros [Hn Hu]%utf8_nul_free Hnul Hz Hc Hv Hnf. unfold mcommon_json_append_visit_before.
  fold (jv_stop st). destruct (jv_stop st) eqn:Es.
  { exists st. rewrite Es. split; [done|]. split; [by apply visiting_exceeded|done]. }
  rewrite (Hnf eq_refl). destruct Hv as (Ht & Hm & Hk & Hx). unfold head_text in *. rewrite zlen_app in Hc.
  set (sep := if first then [] else txt ", ") in *. pose proof (zlen_nonneg sep).
  assert (Hsep : exists st1,
    (if negb first then '(ok, append) ← mcommon_json_append_separator malloc (jv_append st); Some (ok, set_append st append)
     else Some (true, set_not_first st)) = Some (negb (jv_stop st1), st1) /\
    visiting keys (u ++ sep) st1 /\ jv_not_first_item st1 = true).
  { unfold sep in *. destruct first; cbn [negb].
    - exists (set_not_first st). rewrite app_nil_r. split; [|done]. unfold jv_stop in Es |- *. cbn. by rewrite Es.
    - destruct (writes_jlit malloc Hmalloc max cut ", " ltac:(by vm_compute) u (jv_append st)) as (a1 & E1 & Ht1);
        [intros Ec; specialize (Hc Ec); change (js ", ") with (txt ", "); pose proof (zlen_nonneg (if keys then json_string k ++ txt " : " else [])); lia|done|].
      exists (set_append st a1). unfold mcommon_json_append_separator. rewrite E1. sbind. unfold jv_stop. rewrite negb_involutive.
      split; [done|]. split; [done|]. cbn. by rewrite (Hnf eq_refl). }
  destruct Hsep as (st1 & -> & Hv1 & Hf1). sbind. rewrite negb_involutive. rewrite app_assoc.
  destruct (jv_stop st1) eqn:Es1.
  { exists st1. rewrite Es1. split; [done|]. split; [by apply visiting_exceeded|done]. }
  destruct Hv1 as (Ht1 & Hm1 & Hk1 & Hx1). rewrite Hk1. destruct keys.
  - rewrite strlen_app by done. sbind. unfold UINT32_MAX. destruct (Z.ltb_spec (2 ^ 32 - 1) (zlen k)); [lia|].
    destruct (writes_key malloc Hmalloc max cut k (x00 :: rest) Hu ltac:(lia) Hn (u ++ sep) (jv_append st1)) as (a2 & E2 & Ht2);
      [intros Ec; specialize (Hc Ec); rewrite (zlen_app u); lia|done|].
    rewrite E2. sbind. exists (set_append st1 a2). split; [done|]. split; [done|]. intros _. exact Hf1.
  - exists st1. rewrite app_nil_r. split; [by rewrite Es1|]. by split.
Qed.

Lemma elem_key pre e post len : bson_iter_key_unsafe (elem_iter pre e post len) = Some (e.1 ++ x00 :: enc_val e.2 ++ post).
Proof. destruct e as [k v]. apply bson_iter_key_elem. Qed.

Lemma key_valid k rest : utf8_text false k -> no_nul k -> key_invalid (k ++ x00 :: rest) = Some false.
Proof.
  intros Hu Hn. unfold key_invalid. destruct k as [|c k]; cbn [app]; rewrite rd_cons_0; [done|]. sbind.
  apply no_nul_cons in Hn as [Hc Hn]. rewrite byte_eqb_neq by done. change (c :: k ++ x00 :: rest) with ((c :: k) ++ x00 :: rest).
  rewrite strlen_app by (apply no_nul_cons; done). sbind.
  destruct (bson_utf8_validate_spec (c :: k) (x00 :: rest) false) as (r & -> & Hr). sbind. by rewrite (proj2 Hr Hu).
Qed.

Lemma json_loop_spec keys d : forall fuel pre rest len it key ty u first st,
  wf_elems d -> json_oks cut d -> len = zlen pre + zlen (enc_elems d) + 1 -> len < 2 ^ 30 ->
  at_pos pre (enc_elems d ++ x00 :: rest) len it -> it_err_off it = 0 -> (length d < fuel)%nat ->
  (cut = false -> zlen u + zlen (json_items m keys depth first d) <= max) ->
  visiting keys u st -> (jv_stop st = false -> jv_not_first_item st = negb first) ->
  exists stop it' st', visit_all_loop vs fuel it key ty st = Some (stop, it', st') /\ it_err_off it' = 0 /\
    visiting keys (u ++ json_items m keys depth first d) st'.
Proof.
  induction d as [|e d IH]; intros [|fuel] pre rest len it key ty u first st Hwf Hok Hl Hmax Hat He Hf Hc Hv Hnf;
    try (cbn [length] in Hf; lia).
  - destruct (next_internal_end pre rest len it Hat) as (it' & E & He'); [rewrite Hl; cbn [enc_elems]; zl|].
    cbn [visit_all_loop json_items]. rewrite E. sbind. cbn [nr_ok nr_iter nr_unsupported negb]. unfold visit_end.
    rewrite He', He. cbn [Z.eqb]. rewrite app_nil_r.
    exists false, it', st. split; [done|]. split; [congruence|done].
  - apply Forall_cons_1 in Hwf as [Hwe Hwf]. apply Forall_cons_1 in Hok as [[Hkt Hok] Hoks]. rewrite enc_elems_cons in *.
    rewrite <- app_assoc in Hat. rewrite zlen_app in Hl. pose proof (zlen_nonneg (enc_elems d)). pose proof (zlen_nonneg pre).
    assert (Hze : zlen (enc_elem e) = 2 + zlen e.1 + zlen (enc_val e.2)) by apply zlen_enc_elem.
    pose proof (zlen_nonneg e.1). pose proof (zlen_nonneg (enc_val e.2)).
    assert (E0 : json_items m keys depth first (e :: d) =
      head_text keys first e.1 ++ json_val m depth e.2 ++ json_items m keys depth false d)
      by (unfold head_text; cbn [json_items]; by rewrite <- app_assoc).
    rewrite E0 in *. rewrite !zlen_app in Hc.
    pose proof (zlen_nonneg (head_text keys first e.1)). pose proof (zlen_nonneg (json_val m depth e.2)).
    pose proof (zlen_nonneg (json_items m keys depth false d)).
    cbn [visit_all_loop]. rewrite (next_internal_elem pre e (enc_elems d ++ x00 :: rest) len it Hwe) by (done || lia). sbind.
    cbn [nr_ok nr_iter nr_unsupported nr_key nr_type negb from_option id]. sbind.
    cbn [app]. set (ei := elem_iter pre e (enc_elems d ++ x00 :: rest) len).
    set (kp := e.1 ++ x00 :: enc_val e.2 ++ enc_elems d ++ x00 :: rest).
    rewrite (key_valid e.1 _ Hkt (proj1 Hwe) : key_invalid kp = _). sbind. cbn [VISIT_FIELD visit_before visitors].
    destruct (visit_before_spec keys first e.1 (enc_val e.2 ++ enc_elems d ++ x00 :: rest) u st Hkt (proj1 Hwe) ltac:(lia))
      as (st1 & E1 & Hv1 & Hf1); [intros Ec; specialize (Hc Ec); lia|done|done|]. fold kp in E1. rewrite E1. sbind.
    destruct (jv_stop st1) eqn:Es1.
    { exists true, ei, st1. split; [done|]. split; [done|]. rewrite (app_assoc u). by apply visiting_exceeded. }
    destruct (visit_value_spec e.2 _ _ ei kp keys (u ++ head_text keys first e.1) st1
      (elem_iter_on_value pre e (enc_elems d ++ x00 :: rest) len Hwe ltac:(lia)) Hok (proj2 Hwe) ltac:(lia))
      as (st2 & E2 & Hv2 & Hf2); [by exists kp; apply elem_key|intros Ec; specialize (Hc Ec); rewrite zlen_app; lia|done|].
    rewrite E2. sbind. rewrite <- (app_assoc u) in Hv2. destruct (jv_stop st2) eqn:Es2.
    { exists true, ei, st2. split; [done|]. split; [done|]. rewrite (app_assoc (head_text _ _ _)), (app_assoc u). by apply visiting_exceeded. }
    rewrite (elem_key _ _ _ _ : bson_iter_key_unsafe ei = Some kp). sbind. cbn [VISIT_FIELD visit_after visitors]. unfold mcommon_json_append_visit_after.
    fold (jv_stop st2). rewrite Es2. sbind.
    destruct (IH fuel (pre ++ enc_elem e) rest len ei (Some kp) (type_code (bval_type e.2))
      (u ++ head_text keys first e.1 ++ json_val m depth e.2) false st2) as (stop & it' & st' & E3 & He3 & Hv3); try done.
    + rewrite zlen_app. lia.
    + destruct Hat as (_ & _ & _ & Hp & _). apply at_pos_next; [done|lia].
    + cbn [length] in Hf. lia.
    + intros Ec; specialize (Hc Ec); rewrite !zlen_app; lia.
    + intros _. rewrite Hf2. by apply Hf1.
    + exists stop, it', st'. split; [done|]. split; [done|]. by rewrite <- !app_assoc in Hv3.
Qed.

(** All the elements of a document. *)
Lemma bson_values_spec keys d rest u a :
  doc_ok cut d -> (cut = false -> zlen u + zlen (json_items m keys depth true d) <= max) -> tracks max u a ->
  exists a', mcommon_json_append_bson_values malloc document array (enc_doc d ++ rest) (zlen (enc_doc d)) m keys a = Some (true, a') /\
    tracks max (u ++ json_items m keys depth true d) a'.
Proof.
  intros (Hwf & Hz & Hok) Hc Ht. unfold mcommon_json_append_bson_values, bson_iter_init.
  destruct (Z.ltb_spec (zlen (enc_doc d)) 5) as [H5|_]; [rewrite zlen_enc_doc in H5; pose proof (zlen_nonneg (enc_elems d)); lia|].
  cbn [negb]. unfold bson_iter_visit_all.
  destruct (json_loop_spec keys d (iter_fuel (iter_start (enc_doc d ++ rest) (zlen (enc_doc d)))) (le_bytes 4 (zlen (enc_doc d))) rest
    (zlen (enc_doc d)) (iter_start (enc_doc d ++ rest) (zlen (enc_doc d))) None 0 u true (JsonVisit a m keys false false))
    as (stop & it' & st' & E & He & Hv & _ & _ & Hx); try done.
  - rewrite zlen_enc_doc, zlen_le_bytes. lia.
  - apply at_pos_start. lia.
  - apply doc_fuel.
  - rewrite E. sbind. rewrite He, Hx. by exists (jv_append st').
Qed.
End Level.

(** A container at any depth; beyond the last level it is left out. *)
Lemma container_spec depth : forall style d rest,
  plainb (js (ct_empty style)) && plainb (js (ct_begin style)) && plainb (js (ct_end style)) && plainb (js (ct_omitted style)) = true ->
  doc_ok cut d ->
  nests (mcommon_json_append_bson_container malloc depth style (enc_doc d ++ rest) (zlen (enc_doc d)) m) (json_doc m style depth d).
Proof.
  induction depth as [|depth IH]; intros style d rest Hp Hd u a Hc Ht;
    rewrite !andb_true_iff in Hp; destruct Hp as [[[Pe Pb] Pn] Po];
    cbn [mcommon_json_append_bson_container]; rewrite bson_empty_enc; sbind; case_bool_decide as Ee.
  - subst d. destruct (writes_jlit malloc Hmalloc max cut _ Pe u a Hc Ht) as (a' & -> & Ht'). sbind. by exists a'.
  - destruct d as [|e d]; [done|]. destruct (writes_jlit malloc Hmalloc max cut _ Po u a Hc Ht) as (a' & -> & Ht'). sbind. by exists a'.
  - subst d. destruct (writes_jlit malloc Hmalloc max cut _ Pe u a Hc Ht) as (a' & -> & Ht'). sbind. by exists a'.
  - assert (E : json_doc m style (S depth) d = js (ct_begin style) ++ json_items m (ct_has_keys style) depth true d ++ js (ct_end style))
      by (by destruct d). rewrite E in *. rewrite !zlen_app in Hc.
    set (items := json_items m (ct_has_keys style) depth true d) in *.
    pose proof (zlen_nonneg items). pose proof (zlen_nonneg (js (ct_end style))).
    destruct (writes_jlit malloc Hmalloc max cut _ Pb u a) as (a1 & -> & Ht1); [intros Ec; specialize (Hc Ec); lia|done|]. sbind.
    destruct (bson_values_spec _ _ depth (fun d rest => IH json_document_style d rest eq_refl)
      (fun d rest => IH json_array_style d rest eq_refl) (ct_has_keys style) d rest (u ++ js (ct_begin style)) a1 Hd) as (a2 & -> & Ht2);
      [intros Ec; specialize (Hc Ec); rewrite zlen_app; fold items; lia|done|]. sbind. fold items in Ht2.
    destruct (writes_jlit malloc Hmalloc max cut _ Pn ((u ++ js (ct_begin style)) ++ items) a2) as (a3 & -> & Ht3);
      [intros Ec; specialize (Hc Ec); rewrite !zlen_app; lia|done|]. sbind. exists a3. by rewrite <- !app_assoc in Ht3.
Qed.
End Doc.

(** ** [bson_as_json_with_opts] *)

Definition json_limit (opts : bson_json_opts_t) : Z :=
  if max_len opts =? BSON_MAX_LEN_UNLIMITED then UINT32_MAX - 1 else Z.max 0 (max_len opts).

Definition json_style (opts : bson_json_opts_t) : json_container :=
  if is_outermost_array opts then json_array_style else json_document_style.

Definition json_text (opts : bson_json_opts_t) (d : doc) : bytes :=
  json_doc (mode opts) (json_style opts) BSON_MAX_RECURSION d.

(** The text, or as much of it as the limit allows. *)
Definition json_cut (limit : Z) (text t : bytes) : Prop :=
  if zlen text <=? limit then t = text
  else t `prefix_of` text /\ utf8_text true t /\ limit - 4 < zlen t <= limit.

Section Top.
Context (malloc : Z -> bytes).
Hypothesis Hmalloc : forall n, 0 <= n -> zlen (malloc n) = n.

(** The buffer a conversion starts with. *)
Lemma json_start opts len : 0 <= len < 2 ^ 31 -> is_s32 (max_len opts) ->
  exists string append, mcommon_string_new_with_capacity malloc [x00] 0 len = Some string /\
    mcommon_string_set_append_with_limit string
      (if max_len opts =? BSON_MAX_LEN_UNLIMITED then UINT32_MAX - 1 else if 0 <? max_len opts then max_len opts else 0) = Some append /\
    append_is append [] (json_limit opts) false.
Proof.
  intros Hl Hm. unfold is_s32 in Hm.
  destruct (new_with_capacity_as_append_spec malloc Hmalloc len) as (a & E & Ha); [unfold UINT32_MAX; lia|].
  unfold mcommon_string_new_with_capacity_as_append in E.
  destruct (mcommon_string_new_with_capacity malloc [x00] 0 len) as [s|]; [|done]. cbn [mbind option_bind] in E.
  unfold mcommon_string_set_append, mcommon_string_set_append_with_limit in E.
  change (UINT32_MAX - 1 <? UINT32_MAX) with true in E. injection E as <-. destruct Ha as (Hs & _).
  exists s. unfold mcommon_string_set_append_with_limit, json_limit.
  set (limit := if max_len opts =? BSON_MAX_LEN_UNLIMITED then UINT32_MAX - 1 else if 0 <? max_len opts then max_len opts else 0).
  assert (E : (if max_len opts =? BSON_MAX_LEN_UNLIMITED then UINT32_MAX - 1 else Z.max 0 (max_len opts)) = limit /\ 0 <= limit < UINT32_MAX).
  { unfold limit, UINT32_MAX. destruct (_ =? BSON_MAX_LEN_UNLIMITED); [lia|]. destruct (Z.ltb_spec 0 (max_len opts)); lia. }
  destruct E as [-> Hlim]. destruct (Z.ltb_spec limit UINT32_MAX); [|lia]. eexists. split; [done|]. split; [done|].
  unfold append_is. cbn [ap_string ap_max_len ap_max_len_exceeded]. change (zlen (@nil byte)) with 0. split_and!; done || lia.
Qed.

Lemma as_json_spec cut opts d rest :
  doc_ok cut d -> is_s32 (max_len opts) -> (cut = false -> zlen (json_text opts d) <= json_limit opts) ->
  exists t junk, bson_as_json_with_opts malloc (enc_doc d ++ rest) (zlen (enc_doc d)) opts = Some (Some (t ++ x00 :: junk), zlen t) /\
    json_cut (json_limit opts) (json_text opts d) t.
Proof.
  intros Hd Hm Hc. pose proof (zlen_nonneg (enc_doc d)). pose proof Hd as (_ & Hz & _). unfold bson_as_json_with_opts.
  destruct (json_start opts (zlen (enc_doc d))) as (s & a & -> & Ea & Ha); [lia|done|]. sbind. rewrite Ea. sbind.
  assert (E : (if is_outermost_array opts
     then mcommon_json_append_bson_array malloc (enc_doc d ++ rest) (zlen (enc_doc d)) (mode opts) BSON_MAX_RECURSION a
     else mcommon_json_append_bson_document malloc (enc_doc d ++ rest) (zlen (enc_doc d)) (mode opts) BSON_MAX_RECURSION a) =
    mcommon_json_append_bson_container malloc BSON_MAX_RECURSION (json_style opts) (enc_doc d ++ rest) (zlen (enc_doc d)) (mode opts) a)
    by (unfold json_style; by destruct (is_outermost_array opts)).
  rewrite E. clear E.
  destruct (container_spec malloc Hmalloc (json_limit opts) cut (mode opts) BSON_MAX_RECURSION (json_style opts) d rest) with (u := @nil byte) (a := a)
    as (a' & -> & Ht); [unfold json_style; by destruct (is_outermost_array opts)|done|done| |].
  { exists [], false. split; [done|]. split; [apply utf8_text_nil|done]. }
  sbind. cbn [app] in Ht. fold (json_text opts d) in Ht. destruct Ht as (t & e & Ha' & Hu & He).
  pose proof Ha' as ((Hl & _ & _ & junk & Es) & _ & Hr & _).
  unfold mcommon_string_destroy_with_steal, mcommon_strlen_from_append. rewrite Es, Hl, rd_at by done. sbind.
  rewrite byte_eqb_refl. sbind. exists t, junk. split; [done|]. unfold json_cut.
  destruct e.
  - destruct He as (H1 & H2 & H3). destruct (Z.leb_spec (zlen (json_text opts d)) (json_limit opts)); [lia|].
    split; [done|]. split; [done|]. lia.
  - subst t. destruct (Z.leb_spec (zlen (json_text opts d)) (json_limit opts)); [done|]. lia.
Qed.
End Top.
