(* ===== verification/JsonSafe.v ===== *)
(** The conversion to JSON on arbitrary bytes: it ends, within its buffers, and
    its text is at most 64 times as long as the document. *)

From Stdlib Require Import Strings.String.
From S2P Require Import Prelude CString Text IntEncode BsonTypes BsonIter BsonIterSafe BsonSpec BsonView Utf8.
From S2P Require Import CommonString Hex Base64Spec StringFormat DoubleText Decimal128 Decimal128Spec BsonVisit.
From S2P Require Import Json JsonSpec JsonDoc.

(** ** Lengths of texts *)

Lemma zlen_json_char c : zlen (json_char c) <= 6.
Proof.
  assert (H : forall c, (zlen (json_char c) <=? 6) = true) by (apply byte_forall; vm_compute; reflexivity).
  specialize (H c). lia.
Qed.

Lemma zlen_json_escape_n n : forall s, (length s <= n)%nat -> zlen (json_escape s) <= 6 * zlen s.
Proof.
  induction n as [|n IH]; intros [|c [|c1 s]] Hl; cbn [length] in Hl; try lia; try done;
    pose proof (zlen_json_char c); rewrite ?zlen_cons; [change (zlen (@nil byte)) with 0; cbn [json_escape]; lia|].
  change (json_escape (c :: c1 :: s)) with (if byte_eqb c (z2b 0xC0) && byte_eqb c1 (z2b 0x80)
    then js "\u0000" ++ json_escape s else json_char c ++ json_escape (c1 :: s)).
  destruct (_ && _); rewrite zlen_app; lits.
  - specialize (IH s ltac:(lia)). lia.
  - specialize (IH (c1 :: s) ltac:(cbn [length]; lia)). rewrite zlen_cons in IH. lia.
Qed.

Lemma zlen_json_escape s : zlen (json_escape s) <= 6 * zlen s.
Proof. by apply (zlen_json_escape_n (length s)). Qed.

Lemma zlen_nul_cut s : zlen (nul_cut s) <= zlen s.
Proof.
  induction s as [|c s IH]; [done|]. cbn [nul_cut]. rewrite zlen_cons. pose proof (zlen_nonneg s).
  destruct (byte_eqb c x00); [lits; lia|]. destruct s as [|c1 s]; [rewrite zlen_1; lia|].
  destruct (_ && _); [lits; lia|]. rewrite zlen_cons. lia.
Qed.

Lemma zlen_esc_text allow s : zlen (esc_text allow s) <= 6 * zlen s.
Proof.
  unfold esc_text. pose proof (zlen_json_escape (if allow then s else nul_cut s)).
  pose proof (zlen_nul_cut s). destruct allow; lia.
Qed.

Lemma zlen_json_double m bits : zlen (json_double m bits) <= 120.
Proof.
  assert (Ht : zlen (double_text bits) <= 92).
  { unfold double_text. destruct (printf_20g_ascii bits). destruct (integer_chars _); rewrite ?zlen_app; lits; lia. }
  unfold json_double. destruct m, (double_is_nan bits), (double_is_inf bits), (double_negative bits); cbn [is_canonical];
    rewrite ?zlen_app; lits; lia.
Qed.

Lemma zlen_json_date m msec : zlen (json_date m msec) <= 400.
Proof.
  pose proof (proj2 (sdec_ascii msec)).
  unfold json_date. destruct m; [rewrite !zlen_app; lits; lia..|]. destruct ((0 <=? msec) && (msec <? y10k)); rewrite !zlen_app; lits; [|lia].
  unfold iso_text. destruct (Calendar.gmtime (Z.quot msec 1000)) as [t|] eqn:Et; [|lits; lia].
  apply Calendar.gmtime_spec in Et as [Hv _]. pose proof (proj2 (strftime_iso_ascii t Hv)).
  pose proof (proj2 (dec0_ascii 3 (Z.rem msec 1000) ltac:(lia))). rewrite !zlen_app.
  destruct (_ =? 0); rewrite ?zlen_app; lits; lia.
Qed.

Lemma zlen_json_int m name v : zlen (js name) <= 20 -> zlen (json_int m name v) <= 70.
Proof.
  intros Hn. pose proof (proj2 (sdec_ascii v)). unfold json_int. revert Hn. generalize (js name) as t. intros t Hn.
  destruct (is_canonical m); rewrite ?zlen_app; lits; lia.
Qed.

(** ** Operations that stay within a bound

    The text grows by at most [n]; nothing is said about which text it is. *)
Section Keeps.
Context (malloc : Z -> bytes).
Hypothesis Hmalloc : forall n, 0 <= n -> zlen (malloc n) = n.
Context (max : Z).

Definition keeps (op : append_op) (n : Z) : Prop :=
  forall u a, zlen u + n <= max -> tracks max u a ->
  exists ok a' u', op a = Some (ok, a') /\ tracks max u' a' /\ zlen u' <= zlen u + n.

Lemma keeps_writes op v ok n : writes max false op v ok -> zlen v <= n -> keeps op n.
Proof.
  intros H Hn u a Hu Ht. destruct (H u a) as (a' & E & Ht'); [lia|done|]. eexists _, a', (u ++ v).
  split; [done|]. split; [done|]. rewrite zlen_app. lia.
Qed.

Lemma keeps_weaken op n n' : keeps op n -> n <= n' -> keeps op n'.
Proof.
  intros H Hn u a Hu Ht. destruct (H u a) as (ok & a' & u' & E & Ht' & Hl); [lia|done|]. exists ok, a', u'. split_and!; [done..|lia].
Qed.

Lemma keeps_and op1 n1 op2 n2 : 0 <= n2 -> keeps op1 n1 -> keeps op2 n2 -> keeps (op_and op1 op2) (n1 + n2).
Proof.
  intros Hn H1 H2 u a Hu Ht. destruct (H1 u a) as (ok & a1 & u1 & E1 & Ht1 & Hl1); [lia|done|]. unfold op_and. rewrite E1. sbind.
  destruct ok; [|exists false, a1, u1; split_and!; [done..|lia]].
  destruct (H2 u1 a1) as (ok & a2 & u2 & E2 & Ht2 & Hl2); [lia|done|]. exists ok, a2, u2. split_and!; [done..|lia].
Qed.

Lemma keeps_then op1 n1 op2 n2 : 0 <= n2 -> keeps op1 n1 -> keeps op2 n2 -> keeps (op_then op1 op2) (n1 + n2).
Proof.
  intros Hn H1 H2 u a Hu Ht. destruct (H1 u a) as (ok & a1 & u1 & E1 & Ht1 & Hl1); [lia|done|]. unfold op_then. rewrite E1. sbind.
  destruct (H2 u1 a1) as (ok' & a2 & u2 & E2 & Ht2 & Hl2); [lia|done|]. exists ok', a2, u2. split_and!; [done..|lia].
Qed.

Lemma keeps_lit s : plainb (js s) = true -> keeps (fun a => mcommon_string_append malloc a (jlit s)) (zlen (js s)).
Proof. intros H. eapply keeps_writes; [by apply (writes_jlit malloc Hmalloc)|lia]. Qed.

Lemma keeps_escaped s rest allow : utf8_text true s -> zlen s < 2 ^ 32 ->
  keeps (mcommon_json_append_escaped malloc (s ++ rest) (zlen s) allow) (6 * zlen s).
Proof. intros Hu Hz. eapply keeps_writes; [by apply (writes_esc malloc Hmalloc)|apply zlen_esc_text]. Qed.

(** The bound of a chain of appends. *)
Ltac keep_parts :=
  lazymatch goal with
  | |- keeps (op_and _ _) _ => eapply keeps_and; [|keep_parts|keep_parts]
  | |- keeps (op_then _ _) _ => eapply keeps_then; [|keep_parts|keep_parts]
  | |- _ => first [eapply keeps_lit; vm_compute; reflexivity | eapply keeps_escaped; [done|lia] | eassumption]
  end.
Ltac keep := eapply keeps_weaken; [keep_parts|]; lits; lia.

Lemma keeps_regex m r o rest1 rest2 : utf8_text true r -> zlen r < 2 ^ 32 ->
  keeps (mcommon_json_append_value_regex malloc (r ++ rest1) (zlen r) (o ++ rest2) (zlen o) m) (6 * zlen r + 100).
Proof.
  intros Hu Hz. pose proof (zlen_nonneg r).
  assert (Ho : keeps (append_selected_chars malloc (o ++ rest2) (zlen o)) 6).
  { eapply keeps_writes; [by apply (writes_options malloc Hmalloc)|]. unfold json_options.
    pose proof (length_filter (fun c => c ∈ o) (txt "ilmsux")) as H6. unfold zlen. change (length (txt "ilmsux")) with 6%nat in H6. lia. }
  unfold mcommon_json_append_value_regex. destruct (is_legacy m); cbn [negb]; keep.
Qed.

Lemma keeps_oid oid : zlen oid = 12 -> keeps (append_oid_as_hex malloc oid) 24.
Proof.
  intros Ho. pose proof (writes_oid malloc Hmalloc max false oid [] Ho) as H. rewrite app_nil_r in H.
  eapply keeps_writes; [exact H|]. rewrite zlen_hex_text. lia.
Qed.

Lemma keeps_dbpointer m c oid rest : utf8_text true c -> zlen c < 2 ^ 32 -> zlen oid = 12 ->
  keeps (mcommon_json_append_value_dbpointer malloc (c ++ rest) (zlen c) (Some oid) m) (6 * zlen c + 120).
Proof.
  intros Hu Hz Ho. pose proof (zlen_nonneg c). pose proof (keeps_oid oid Ho) as Hoid.
  unfold mcommon_json_append_value_dbpointer, mcommon_json_append_value_oid. cbn [when_oid].
  destruct (is_legacy m); cbn [negb]; keep.
Qed.

Lemma keeps_string s rest allow : utf8_text true s -> zlen s < 2 ^ 32 ->
  keeps (mcommon_json_append_value_utf8 malloc (s ++ rest) (zlen s) allow) (6 * zlen s + 2).
Proof. intros Hu Hz. pose proof (zlen_nonneg s). unfold mcommon_json_append_value_utf8. keep. Qed.

Lemma keeps_code c rest : utf8_text true c -> zlen c < 2 ^ 32 ->
  keeps (mcommon_json_append_value_code malloc (c ++ rest) (zlen c)) (6 * zlen c + 20).
Proof. intros Hu Hz. pose proof (zlen_nonneg c). unfold mcommon_json_append_value_code. keep. Qed.

Lemma keeps_symbol m s rest : utf8_text true s -> zlen s < 2 ^ 32 ->
  keeps (mcommon_json_append_value_symbol malloc (s ++ rest) (zlen s) m) (6 * zlen s + 20).
Proof.
  intros Hu Hz. pose proof (zlen_nonneg s). unfold mcommon_json_append_value_symbol, mcommon_json_append_value_utf8.
  destruct (is_legacy m); cbn [negb]; keep.
Qed.

Lemma keeps_decimal d : dec_ok d -> keeps (mcommon_json_append_value_decimal128 malloc d) 80.
Proof.
  intros Hd u a Hu Ht. unfold mcommon_json_append_value_decimal128.
  destruct (to_string_prints d (malloc 43)) as (t & junk & E & Hz & Ha & _); [done|by rewrite Hmalloc|].
  change BSON_DECIMAL128_STRING with 43. rewrite E. cbn [mbind option_bind]. pose proof (zlen_nonneg junk).
  assert (Hk : keeps (fun append => mcommon_string_append malloc append (t ++ x00 :: junk)) 43).
  { eapply keeps_writes; [apply (writes_ascii malloc Hmalloc); [done|lia]|lia]. }
  revert u a Hu Ht. change (keeps (op_and (fun a => mcommon_string_append malloc a (jlit "{ '$numberDecimal' : '"))
    (op_and (fun append => mcommon_string_append malloc append (t ++ x00 :: junk)) (fun a => mcommon_string_append malloc a (jlit "' }")))) 80).
  keep.
Qed.

Lemma keeps_binary m st data rest : is_u8 st -> zlen data < 2 ^ 30 ->
  keeps (mcommon_json_append_value_binary malloc st (data ++ rest) (zlen data) m) (2 * zlen data + 100).
Proof.
  intros Hst Hz. eapply keeps_writes; [by apply (writes_binary malloc Hmalloc)|]. cbn [json_scalar].
  pose proof (zlen_nonneg data). pose proof (proj2 (hex2_ascii st Hst)) as Hx.
  destruct (is_legacy m); rewrite !zlen_app, zlen_text, Hx; lits; Z.to_euclidean_division_equations; lia.
Qed.

(** ** The visitor *)

Lemma string_at_prefix p l : string_at p l -> exists s rest, p = s ++ x00 :: rest /\ no_nul s /\ zlen s <= l.
Proof.
  intros (s & rest & -> & <-). destruct (proj2 (cstr_is_Some (s ++ x00 :: rest))) as [s1 E]; [apply elem_of_app; right; left|].
  apply cstr_Some in E as (Hn & t & E). exists s1, t. split; [done|]. split; [done|].
  destruct (Z_le_gt_dec (zlen s1) (zlen s)) as [?|Hgt]; [done|]. exfalso. apply Hn.
  assert (Hl : s1 !! length s = Some x00).
  { rewrite <- (lookup_app_l s1 (x00 :: t)) by (unfold zlen in *; lia). rewrite <- E.
    rewrite lookup_app_r by lia. by rewrite Nat.sub_diag. }
  by apply list_elem_of_lookup_2 in Hl.
Qed.

(** A callback, and a case of the switch. *)
Definition calls (f : mcommon_json_append_visit_t -> option (bool * mcommon_json_append_visit_t)) (n : Z) : Prop :=
  forall u st, zlen u + n <= max -> tracks max u (jv_append st) ->
  exists stop st' u', f st = Some (stop, st') /\ tracks max u' (jv_append st') /\ zlen u' <= zlen u + n.

Lemma calls_op op n : (forall m, keeps (op m) n) -> calls (visit_op op) n.
Proof.
  intros H u st Hu Ht. destruct (H (jv_mode st) u (jv_append st) Hu Ht) as (ok & a' & u' & E & Ht' & Hl).
  unfold visit_op. rewrite E. sbind. by exists (negb ok), (set_append st a'), u'.
Qed.

Lemma calls_sized k op n : k < 2 ^ 32 -> (forall m, keeps (op m) n) -> calls (visit_sized k op) n.
Proof.
  intros Hk H u st. unfold visit_sized, UINT32_MAX. destruct (Z.ltb_spec (2 ^ 32 - 1) k); [lia|]. by apply calls_op.
Qed.

Lemma calls_nested op n : (forall m, keeps (op m) n) ->
  calls (fun st => visit_nested (op (jv_mode st) (jv_append st)) st) n.
Proof.
  intros H u st Hu Ht. destruct (H (jv_mode st) u (jv_append st) Hu Ht) as (ok & a' & u' & E & Ht' & Hl).
  unfold visit_nested. rewrite E. sbind. destruct ok; by eexists _, _, u'.
Qed.

Definition handles (it : bson_iter_t) (f : mcommon_json_append_visit_t -> visit_result) (n : Z) : Prop :=
  forall u st, zlen u + n <= max -> tracks max u (jv_append st) ->
  exists stop it' st' u', f st = Some (stop, it', st') /\ (it' = it \/ it' = set_err it (it_off it)) /\
    tracks max u' (jv_append st') /\ zlen u' <= zlen u + n.

Lemma handles_visited it f n n' : calls f n -> n <= n' -> handles it (fun st => visited it (f st)) n'.
Proof.
  intros H Hn u st Hu Ht. destruct (H u st) as (stop & st' & u' & E & Ht' & Hl); [lia|done|].
  unfold visited. rewrite E. sbind. exists stop, it, st', u'. split; [done|]. split; [by left|]. split; [done|lia].
Qed.

Lemma handles_string it p k call n n' : 0 <= k <= zlen p ->
  (forall s rest, p = s ++ rest -> zlen s = k -> utf8_text true s -> calls (call (s ++ rest)) n) -> 0 <= n <= n' ->
  handles it (fun st => visit_string it (Some p) k st call) n'.
Proof.
  intros Hk H Hn. destruct (split_at p k Hk) as (s & rest & -> & Hs & _). intros u st Hu Ht. unfold visit_string. sbind.
  destruct (bson_utf8_validate_spec s rest true) as (r & E & Hr). rewrite Hs in E. rewrite E. sbind. destruct r.
  - by apply (handles_visited it _ n n' (H s rest eq_refl Hs (proj1 Hr eq_refl)) ltac:(lia)).
  - exists true, (set_err it (it_off it)), st, u. split; [done|]. split; [by right|]. split; [done|lia].
Qed.

Lemma handles_subdoc it d l call n n' : 0 <= l <= zlen d -> (5 <= l < 2 ^ 31 -> calls (call d) n) -> 0 <= n <= n' ->
  handles it (fun st => visit_subdoc it (Some d) l st call) n'.
Proof.
  intros Hl H Hn u st Hu Ht. unfold visit_subdoc. sbind.
  destruct (bson_init_static_total d l ltac:(lia)) as (b & -> & Hb). sbind. destruct b.
  - destruct (Hb eq_refl) as (H5 & _). by apply (handles_visited it _ n n' (H H5) ltac:(lia)).
  - exists false, (set_err it (it_off it)), st, u. split; [done|]. split; [by right|]. split; [done|lia].
Qed.

Section Level.
Context (document array : bytes -> Z -> bson_json_mode_t -> append_op).
Hypothesis Hdoc : forall data len m, 5 <= len <= zlen data -> len < 2 ^ 30 -> keeps (document data len m) (64 * len).
Hypothesis Harr : forall data len m, 5 <= len <= zlen data -> len < 2 ^ 30 -> keeps (array data len m) (64 * len).
Local Abbreviation vs := (visitors malloc document array).

Lemma keeps_codewscope c rest scope len m : utf8_text true c -> zlen c < 2 ^ 32 -> 5 <= len <= zlen scope -> len < 2 ^ 30 ->
  keeps (mcommon_json_append_value_codewscope malloc document (c ++ rest) (zlen c) scope len m) (6 * zlen c + 64 * len + 40).
Proof.
  intros Hu Hz Hl Hl2. pose proof (zlen_nonneg c). pose proof (Hdoc scope len m Hl Hl2) as Hd.
  assert (Htail : keeps (fun append =>
    '(result, append) ← document scope len m append;
    '(_, append) ← mcommon_string_append malloc append (jlit " }"); Some (result, append)) (64 * len + 2)).
  { intros u a Hu' Ht. destruct (Hd u a) as (ok & a1 & u1 & -> & Ht1 & Hl1); [lia|done|]. sbind.
    destruct (keeps_lit " }" ltac:(by vm_compute) u1 a1) as (ok2 & a2 & u2 & E2 & Ht2 & Hl3); [lits; lia|done|].
    rewrite E2. sbind. exists ok, a2, u2. revert Hl3. lits. intros. split_and!; [done..|lia]. }
  unfold mcommon_json_append_value_codewscope. keep.
Qed.

Lemma calls_lit s : plainb (js s) = true -> forall n, zlen (js s) <= n ->
  calls (visit_op (fun _ append => mcommon_string_append malloc append (jlit s))) n.
Proof. intros Hp n Hn. apply calls_op. intros m. eapply keeps_weaken; [by apply keeps_lit|done]. Qed.

(** The values, type by type: an element of [k] bytes after its key grows the
    text by at most [64 * k + 100]. *)
Section Element.
Context (md : bytes) (it : bson_iter_t) (key : bytes).
Hypothesis Hsmall : it_len it < 2 ^ 30.

Definition room : Z := 64 * (it_next_off it - it_d1 it) + 100.
Definition safe_on (t : bson_type_t) : Prop := iter_on md t it -> handles it (visit_value vs it key (type_code t)) room.

Ltac visit_start Hon :=
  intros Hon; pose proof Hon as (Hraw & Hm & Hlen & Ho & _ & Hk & Hd & Hn & _ & _ & _ & Hok);
  cbv beta iota zeta delta [elem_ok] in Hok; unfold room; unfold visit_value; rewrite type_of_code_code.
Lemma handles_ext f g n : (forall st, f st = g st) -> handles it g n -> handles it f n.
Proof. intros E H u st. rewrite E. by apply H. Qed.

(** What the case of the type comes to, the accessor [E] evaluated. *)
Ltac visit_is tac := eapply handles_ext; [intros st; tac; reflexivity|].
Ltac typed Hon Hraw E := rewrite (when_type_yes _ _ _ _ _ Hon), ?Hraw; sbind; rewrite E.
Ltac visit_lit s := apply (handles_visited it _ 100); [apply (calls_lit s); by vm_compute|lia].

Lemma double_safe : safe_on BSON_TYPE_DOUBLE.
Proof.
  visit_start Hon. destruct (raw_u64_on md _ it (it_d1 it) Hon) as (v & E & _); [lia..|].
  visit_is ltac:(unfold bson_iter_double, bson_iter_double_unsafe; typed Hon Hraw E).
  apply (handles_visited it _ 120); [|lia]. apply calls_op. intros m.
  eapply keeps_writes; [apply (writes_double malloc Hmalloc)|apply zlen_json_double].
Qed.

Lemma oid_safe : safe_on BSON_TYPE_OID.
Proof.
  visit_start Hon. destruct (proj2 (slice_is_Some md (it_d1 it) 12)) as [o E]; [lia|].
  visit_is ltac:(unfold bson_iter_oid, bson_iter_oid_unsafe; typed Hon Hraw E). apply slice_zlen in E.
  apply (handles_visited it _ 100); [|lia]. apply calls_op. intros m.
  unfold mcommon_json_append_value_oid. pose proof (keeps_oid o E). keep.
Qed.

Lemma bool_safe : safe_on BSON_TYPE_BOOL.
Proof.
  visit_start Hon. destruct Hok as (v & E & _).
  visit_is ltac:(unfold bson_iter_bool, bson_iter_bool_unsafe; typed Hon Hraw E).
  apply (handles_visited it _ 100); [|lia]. destruct (negb (b2z v =? 0)); [apply (calls_lit "true")|apply (calls_lit "false")]; by vm_compute.
Qed.

Lemma date_time_safe : safe_on BSON_TYPE_DATE_TIME.
Proof.
  visit_start Hon. destruct (raw_i64_on md _ it (it_d1 it) Hon) as (v & E & _); [lia..|].
  visit_is ltac:(unfold bson_iter_date_time, bson_iter_int64_unsafe; typed Hon Hraw E).
  apply (handles_visited it _ 400); [|lia]. apply calls_op. intros m.
  eapply keeps_writes; [apply (writes_date malloc Hmalloc)|apply zlen_json_date].
Qed.

Lemma int32_safe : safe_on BSON_TYPE_INT32.
Proof.
  visit_start Hon. destruct (mlib_read_u32le_Some md (it_d1 it)) as (v & E & _); [lia..|].
  visit_is ltac:(unfold bson_iter_int32, bson_iter_int32_unsafe; rewrite (when_type_yes _ _ _ _ _ Hon), (raw_u32_on _ _ _ _ Hon), E; sbind).
  apply (handles_visited it _ 100); [|lia]. apply calls_op. intros m.
  eapply keeps_writes; [apply (writes_int malloc Hmalloc max false m "$numberInt"); by left|].
  eapply Z.le_trans; [apply zlen_json_int; by vm_compute|lia].
Qed.

Lemma int64_safe : safe_on BSON_TYPE_INT64.
Proof.
  visit_start Hon. destruct (raw_i64_on md _ it (it_d1 it) Hon) as (v & E & _); [lia..|].
  visit_is ltac:(unfold bson_iter_int64, bson_iter_int64_unsafe; typed Hon Hraw E).
  apply (handles_visited it _ 100); [|lia]. apply calls_op. intros m.
  eapply keeps_writes; [apply (writes_int malloc Hmalloc max false m "$numberLong"); by right|].
  eapply Z.le_trans; [apply zlen_json_int; by vm_compute|lia].
Qed.

Lemma timestamp_safe : safe_on BSON_TYPE_TIMESTAMP.
Proof.
  visit_start Hon. destruct (bson_iter_timestamp_on md it Hon) as [[t i] E]. visit_is ltac:(rewrite E).
  apply (handles_visited it _ 100); [|lia]. apply calls_op. intros m.
  eapply keeps_writes; [apply (writes_timestamp malloc Hmalloc)|].
  pose proof (proj2 (dec_ascii t)). pose proof (proj2 (dec_ascii i)). rewrite !zlen_app. lits. lia.
Qed.

Lemma decimal128_safe : safe_on BSON_TYPE_DECIMAL128.
Proof.
  visit_start Hon. destruct (bson_iter_decimal128_on md it Hon) as (lo & hi & E & Hlo & Hhi). visit_is ltac:(rewrite E).
  apply (handles_visited it _ 80); [|lia]. apply calls_op. intros m. by apply keeps_decimal.
Qed.

Lemma key_unsafe_on t : iter_on md t it -> exists k, bson_iter_key_unsafe it = Some k.
Proof. intros Hon. destruct (iter_on_key md t it Hon) as (s & rest & E & _). by eexists. Qed.

Lemma maxkey_safe : safe_on BSON_TYPE_MAXKEY.
Proof. visit_start Hon. destruct (key_unsafe_on _ Hon) as [k E]. visit_is ltac:(rewrite E). visit_lit ("{ '$maxKey' : 1 }"%string). Qed.

Lemma minkey_safe : safe_on BSON_TYPE_MINKEY.
Proof. visit_start Hon. destruct (key_unsafe_on _ Hon) as [k E]. visit_is ltac:(rewrite E). visit_lit ("{ '$minKey' : 1 }"%string). Qed.

Lemma null_safe : safe_on BSON_TYPE_NULL.
Proof. visit_start Hon. visit_lit ("null"%string). Qed.

Lemma undefined_safe : safe_on BSON_TYPE_UNDEFINED.
Proof. visit_start Hon. visit_lit ("{ '$undefined' : true }"%string). Qed.
(** The values of a length of their own. *)
Lemma text_on t : iter_on md t it -> t = BSON_TYPE_UTF8 \/ t = BSON_TYPE_CODE \/ t = BSON_TYPE_SYMBOL ->
  exists l p, iter_string t it = Some (Some p, l) /\ 0 <= l <= zlen p /\ l < 2 ^ 31 /\ it_next_off it = it_d1 it + 5 + l.
Proof.
  intros Hon Ht. destruct (iter_string_on md t it Hon Ht) as (l & p & Hs & (s & rest & -> & Hz) & Hl & _ & El).
  exists l, (s ++ x00 :: rest). split; [done|]. rewrite zlen_app. pose proof (zlen_nonneg (x00 :: rest)).
  assert (Hx : exists l', mlib_read_u32le md (it_d1 it) = Some l' /\ it_next_off it = it_d1 it + 4 + l').
  { destruct Hon as (_ & _ & _ & _ & _ & _ & _ & _ & _ & _ & _ & Hok).
    destruct Ht as [->|[->| ->]]; destruct Hok as (l' & E' & _ & _ & En & _); by exists l'. }
  destruct Hx as (l' & E' & En). rewrite El in E'. injection E' as <-. lia.
Qed.

Lemma utf8_safe : safe_on BSON_TYPE_UTF8.
Proof.
  visit_start Hon. destruct (text_on _ Hon) as (l & p & E & Hl & Hl2 & En); [tauto|].
  visit_is ltac:(unfold bson_iter_utf8; rewrite E). apply (handles_string it p l _ (6 * l + 2)); [done| |lia].
  intros s rest Hp Hs Hu. apply calls_sized; [lia|]. intros m. rewrite <- Hs. apply keeps_string; [done|lia].
Qed.

Lemma code_safe : safe_on BSON_TYPE_CODE.
Proof.
  visit_start Hon. destruct (text_on _ Hon) as (l & p & E & Hl & Hl2 & En); [tauto|].
  visit_is ltac:(unfold bson_iter_code; rewrite E). apply (handles_string it p l _ (6 * l + 20)); [done| |lia].
  intros s rest Hp Hs Hu. apply calls_sized; [lia|]. intros m. rewrite <- Hs. apply keeps_code; [done|lia].
Qed.

Lemma symbol_safe : safe_on BSON_TYPE_SYMBOL.
Proof.
  visit_start Hon. destruct (text_on _ Hon) as (l & p & E & Hl & Hl2 & En); [tauto|].
  visit_is ltac:(unfold bson_iter_symbol; rewrite E). apply (handles_string it p l _ (6 * l + 20)); [done| |lia].
  intros s rest Hp Hs Hu. apply calls_sized; [lia|]. intros m. rewrite <- Hs. apply keeps_symbol; [done|lia].
Qed.

Lemma document_safe : safe_on BSON_TYPE_DOCUMENT.
Proof.
  visit_start Hon. destruct (iter_subdoc_on md _ it Hon) as (l & d & E & Hl & En); [tauto|].
  visit_is ltac:(unfold bson_iter_document; rewrite E). apply (handles_subdoc it d l _ (64 * l)); [done| |lia].
  intros Hl5. apply (calls_nested (document d l)). intros m. apply Hdoc; lia.
Qed.

Lemma array_safe : safe_on BSON_TYPE_ARRAY.
Proof.
  visit_start Hon. destruct (iter_subdoc_on md _ it Hon) as (l & d & E & Hl & En); [tauto|].
  visit_is ltac:(unfold bson_iter_array; rewrite E). apply (handles_subdoc it d l _ (64 * l)); [done| |lia].
  intros Hl5. apply (calls_nested (array d l)). intros m. apply Harr; lia.
Qed.

Lemma binary_safe : safe_on BSON_TYPE_BINARY.
Proof.
  visit_start Hon. destruct (bson_iter_binary_on md it Hon) as (sb & l & p & E & Hl & Hst & En).
  visit_is ltac:(rewrite E). destruct (split_at p l ltac:(lia)) as (s & rest & -> & Hs & _).
  apply (handles_visited it _ (2 * l + 100)); [|lia]. apply calls_sized; [lia|]. intros m. rewrite <- Hs.
  apply keeps_binary; [done|lia].
Qed.

Lemma regex_safe : safe_on BSON_TYPE_REGEX.
Proof.
  visit_start Hon. destruct (bson_iter_regex_on md it Hon) as (r & o & E & Hr & Ho'). destruct Hok as (Hd2 & _).
  destruct (string_at_prefix _ _ Hr) as (r1 & rr & -> & Hr1 & Hrl). destruct (string_at_prefix _ _ Ho') as (o1 & oo & -> & Ho1 & Hol).
  visit_is ltac:(rewrite E; sbind; rewrite (strlen_app r1 rr Hr1); sbind).
  pose proof (zlen_nonneg r1). pose proof (zlen_nonneg (x00 :: rr)).
  apply (handles_string it (r1 ++ x00 :: rr) (zlen r1) _ (6 * zlen r1 + 100)); [rewrite zlen_app; lia| |lia].
  intros s rest Hp Hs Hu. destruct (app_inj_1 _ _ _ _ ltac:(by apply Nat2Z.inj) (eq_sym Hp)) as [-> ->].
  intros u st Hu' Ht. cbv beta iota delta [VISIT_FIELD visitors visit_regex mcommon_json_append_visit_regex].
  rewrite (strlen_app r1 rr), (strlen_app o1 oo) by done. sbind. revert u st Hu' Ht.
  apply calls_sized; [lia|]. intros m. apply keeps_regex; [done|lia].
Qed.

Lemma dbpointer_safe : safe_on BSON_TYPE_DBPOINTER.
Proof.
  visit_start Hon. destruct (bson_iter_dbpointer_on md it Hon) as (l & c & oid & E & Hl & Hoid & En).
  visit_is ltac:(rewrite E). apply (handles_string it c l _ (6 * l + 120)); [done| |lia].
  intros s rest Hp Hs Hu. apply calls_sized; [lia|]. intros m. rewrite <- Hs. apply keeps_dbpointer; [done|lia|done].
Qed.

Lemma codewscope_safe : safe_on BSON_TYPE_CODEWSCOPE.
Proof.
  visit_start Hon. destruct (bson_iter_codewscope_on md it Hon) as (c & l & sl & s & E & Hl & Hsl & En).
  visit_is ltac:(rewrite E; sbind). destruct (split_at c l Hl) as (c1 & rest & -> & Hc & _).
  destruct (bson_utf8_validate_spec c1 rest true) as (r & Er & Hr). rewrite Hc in Er.
  eapply handles_ext; [intros st; rewrite Er; sbind; reflexivity|]. destruct r; cbn [negb].
  - apply (handles_subdoc it s sl _ (6 * l + 64 * sl + 40)); [done| |lia]. intros Hs5 u st Hu Ht.
    cbv beta iota delta [VISIT_FIELD visitors visit_codewscope mcommon_json_append_visit_codewscope]. unfold UINT32_MAX. destruct (Z.ltb_spec (2 ^ 32 - 1) l); [lia|].
    revert u st Hu Ht. apply (calls_nested (mcommon_json_append_value_codewscope malloc document (c1 ++ rest) l s sl)).
    intros m. rewrite <- Hc. apply keeps_codewscope; [by apply Hr|lia..].
  - intros u st Hu Ht. exists true, (set_err it (it_off it)), st, u. split; [done|]. split; [by right|]. split; [done|]. unfold room in *. lia.
Qed.

Lemma visit_value_safe t : safe_on t.
Proof.
  destruct t; [by intros Hon; destruct Hon as (_ & _ & _ & _ & _ & _ & _ & _ & _ & _ & _ & [])|..];
    eauto using double_safe, utf8_safe, document_safe, array_safe, binary_safe, undefined_safe, oid_safe, bool_safe,
      date_time_safe, null_safe, regex_safe, dbpointer_safe, code_safe, symbol_safe, codewscope_safe, int32_safe,
      timestamp_safe, int64_safe, decimal128_safe, maxkey_safe, minkey_safe.
Qed.
End Element.
(** ** The loop *)

Lemma key_on md t it k : iter_on md t it -> padd md (it_key it) = Some k ->
  exists s rest, k = s ++ x00 :: rest /\ no_nul s /\ it_d1 it = it_key it + zlen s + 1.
Proof.
  intros Hon Hp. destruct (iter_on_key md t it Hon) as (s & rest & Ek & Hs & El).
  destruct Hon as (Hr & Hm & Hl & Ho & Hty & Hk & Hd & Hn & _).
  unfold bson_iter_key, bson_iter_key_unsafe, raw_at in Ek. rewrite Hr in Ek. cbn [mbind option_bind] in Ek. rewrite Hp in Ek.
  injection Ek as ->. exists s, rest. split; [done|]. split; [done|]. unfold bson_iter_key_len in El.
  destruct (Z.ltb_spec (it_key it) (it_d1 it)); [|done]. rewrite u32_id in El by lia. injection El as El. lia.
Qed.

Lemma before_safe k rest : utf8_text true k -> zlen k < 2 ^ 32 -> no_nul k ->
  calls (mcommon_json_append_visit_before malloc (k ++ x00 :: rest)) (6 * zlen k + 7).
Proof.
  intros Hu Hz Hn u st Hr Ht. pose proof (zlen_nonneg k). unfold mcommon_json_append_visit_before.
  destruct (negb _); [exists true, st, u; split_and!; [done..|lia]|].
  assert (Hsep : exists ok st1 u1,
    (if jv_not_first_item st
     then '(ok, append) ← mcommon_json_append_separator malloc (jv_append st); Some (ok, set_append st append)
     else Some (true, set_not_first st)) = Some (ok, st1) /\ tracks max u1 (jv_append st1) /\ zlen u1 <= zlen u + 2).
  { destruct (jv_not_first_item st); [|exists true, (set_not_first st), u; split_and!; [done..|lia]].
    destruct (keeps_lit ", " ltac:(by vm_compute) u (jv_append st)) as (ok & a1 & u1 & E1 & Ht1 & Hl1); [lits; lia|done|].
    unfold mcommon_json_append_separator. rewrite E1. sbind. by exists ok, (set_append st a1), u1. }
  destruct Hsep as (ok & st1 & u1 & -> & Ht1 & Hl1). sbind. destruct ok; cbn [negb]; [|exists true, st1, u1; split_and!; [done..|lia]].
  destruct (jv_has_keys st1); [|exists false, st1, u1; split_and!; [done..|lia]].
  rewrite strlen_app by done. sbind. unfold UINT32_MAX. destruct (Z.ltb_spec (2 ^ 32 - 1) (zlen k)); [lia|].
  assert (Hkey : keeps (mcommon_json_append_key malloc (k ++ x00 :: rest) (zlen k)) (6 * zlen k + 5)).
  { unfold mcommon_json_append_key. keep. }
  destruct (Hkey u1 (jv_append st1)) as (ok & a2 & u2 & E2 & Ht2 & Hl2); [lia|done|]. rewrite E2. sbind.
  exists (negb ok), (set_append st1 a2), u2. split_and!; [done..|lia].
Qed.

Lemma end_safe it key ty b st : exists stop it' st',
  visit_end vs it key ty b st = Some (stop, it', st') /\ jv_append st' = jv_append st.
Proof.
  unfold visit_end. destruct (it_err_off it =? 0); [by eexists _, _, _|]. cbn [visitors visit_unsupported_type visit_corrupt].
  destruct b; sbind; unfold mcommon_json_append_visit_corrupt; sbind; by eexists _, _, _.
Qed.

Lemma key_invalid_total k rest : no_nul k -> exists b, key_invalid (k ++ x00 :: rest) = Some b /\ (b = false -> utf8_text true k).
Proof.
  intros Hn. unfold key_invalid. destruct k as [|c k]; cbn [app]; rewrite rd_cons_0; [exists false; by split; [|intros _; apply utf8_text_nil]|].
  sbind. apply no_nul_cons in Hn as Hn'. destruct Hn' as [Hc _]. rewrite byte_eqb_neq by done.
  change (c :: k ++ x00 :: rest) with ((c :: k) ++ x00 :: rest). rewrite strlen_app by done. sbind.
  destruct (bson_utf8_validate_spec (c :: k) (x00 :: rest) false) as (r & -> & Hr). sbind. exists (negb r). split; [done|].
  intros Hb. destruct r; [|done]. by apply utf8_nul_free, Hr.
Qed.

(** What an element takes off the bytes that are left. *)
Lemma left_element md t it it1 n : iter_on md t it1 -> is_Some (it_raw it) -> it_len it1 = it_len it ->
  it_off it1 = it_next_off it -> it_d1 it1 = it_key it1 + n + 1 -> 0 <= n ->
  iter_left it = 2 + n + (it_next_off it1 - it_d1 it1) + iter_left it1 /\ 0 <= iter_left it1 /\ 0 <= it_next_off it1 - it_d1 it1 /\ n < 2 ^ 31.
Proof.
  intros Hon [m Hraw] Hle Hoff Hd Hn. unfold iter_left. rewrite Hraw.
  destruct Hon as (-> & _ & ? & ? & _ & ? & ? & ? & _). lia.
Qed.

Lemma visit_loop_safe fuel : forall it key ty u st,
  iter_wf it -> it_len it < 2 ^ 30 -> iter_left it < Z.of_nat fuel -> zlen u + 64 * iter_left it <= max ->
  tracks max u (jv_append st) ->
  exists stop it' st' u', visit_all_loop vs fuel it key ty st = Some (stop, it', st') /\
    tracks max u' (jv_append st') /\ zlen u' <= zlen u + 64 * iter_left it.
Proof.
  induction fuel as [|fuel IH]; intros it key ty u st Hwf Hlen Hf Hmax Ht; [unfold iter_left in Hf; destruct (it_raw it); lia|].
  assert (H0 : 0 <= iter_left it) by (unfold iter_left; destruct (it_raw it); lia).
  destruct (next_internal_post it Hwf) as (r & Er & Hr). cbn [visit_all_loop]. rewrite Er. sbind.
  destruct (nr_ok r) eqn:Eok; cbn [negb]; cycle 1.
  { destruct (end_safe (nr_iter r) (default key (nr_key r)) (default ty (nr_type r)) (nr_unsupported r) st) as (stop & it' & st' & -> & Ea).
    exists stop, it', st', u. rewrite Ea. split_and!; [done..|lia]. }
  destruct (it_raw it) as [md|] eqn:Hraw; [|by destruct Hr as [? _]; congruence].
  unfold next_post in Hr. rewrite Eok in Hr. destruct Hr as (t & Hon & Hle & Hoff & Hnx & Hty & _ & _ & k & Hkk & Hpk).
  revert Hon Hle Hoff Hnx Hpk. generalize (nr_iter r) as it1. intros it1 Hon Hle Hoff Hnx Hpk. rewrite Hkk, Hty. cbn [from_option id]. sbind.
  destruct (key_on _ _ _ _ Hon Hpk) as (ks & krest & -> & Hkn & Hd1).
  destruct (left_element md t it it1 (zlen ks) Hon) as (Hleft & H1 & Hv & Hks); [by rewrite Hraw|done..|apply zlen_nonneg|]. pose proof (zlen_nonneg ks).
  destruct (key_invalid_total ks krest Hkn) as (bad & -> & Hku). sbind. destruct bad.
  { destruct (end_safe (set_err it1 (it_off it1)) (Some (ks ++ x00 :: krest)) (type_code t) (nr_unsupported r) st) as (stop & it' & st' & -> & Ea).
    exists stop, it', st', u. rewrite Ea. split_and!; [done..|lia]. }
  cbn [VISIT_FIELD visitors visit_before].
  destruct (before_safe ks krest (Hku eq_refl) ltac:(lia) Hkn u st)
    as (stop & st1 & u1 & -> & Ht1 & Hl1); [lia|done|]. sbind.
  destruct stop; [exists true, it1, st1, u1; split_and!; [done..|lia]|].
  destruct (visit_value_safe md it1 (ks ++ x00 :: krest) ltac:(lia) t Hon u1 st1) as (stop & it2 & st2 & u2 & Ev & Hit & Ht2 & Hl2);
    [unfold room; lia|done|]. rewrite Ev. sbind. unfold room in Hl2.
  destruct stop; [exists true, it2, st2, u2; split_and!; [done..|lia]|].
  assert (Hsame : bson_iter_key_unsafe it2 = bson_iter_key_unsafe it1 /\ iter_wf it2 /\ it_len it2 = it_len it1 /\ iter_left it2 = iter_left it1).
  { pose proof (iter_on_wf _ _ _ Hon). by destruct Hit as [->| ->]. }
  destruct Hsame as (Ekey & Hwf2 & Hlen2 & Hleft2). destruct (key_unsafe_on md it1 t Hon) as [kx Ekx]. rewrite Ekey, Ekx. sbind.
  cbn [VISIT_FIELD visitors visit_after]. unfold mcommon_json_append_visit_after. sbind.
  destruct (negb _); [exists true, it2, st2, u2; split_and!; [done..|lia]|].
  destruct (IH it2 (Some (ks ++ x00 :: krest)) (type_code t) u2 st2 Hwf2) as (stop & it' & st' & u' & E & Ht' & Hl'); [lia..|done|].
  exists stop, it', st', u'. split_and!; [done..|lia].
Qed.

Lemma keeps_values keys data len m : 5 <= len <= zlen data -> len < 2 ^ 30 ->
  keeps (mcommon_json_append_bson_values malloc document array data len m keys) (64 * (len - 4)).
Proof.
  intros Hl Hs u a Hu Ht. unfold mcommon_json_append_bson_values, bson_iter_init.
  destruct (Z.ltb_spec len 5); [lia|]. cbn [negb]. pose proof (iter_start_wf data len ltac:(lia) ltac:(lia)) as Hwf.
  assert (Hleft : iter_left (iter_start data len) = len - 4) by (unfold iter_left; cbn; lia).
  destruct (visit_loop_safe (iter_fuel (iter_start data len)) (iter_start data len) None 0 u (JsonVisit a m keys false false))
    as (stop & it' & st' & u' & E & Ht' & Hl'); [done|cbn; lia|by apply iter_left_fuel|lia|done|].
  unfold bson_iter_visit_all. rewrite E. sbind. eexists _, (jv_append st'), u'. split_and!; [done..|lia].
Qed.
End Level.

(** ** Containers and documents *)

Definition container_ok (style : json_container) : bool :=
  forallb (fun s => plainb (js s) && (zlen (js s) <=? 7)) [ct_empty style; ct_omitted style] &&
  forallb (fun s => plainb (js s) && (zlen (js s) <=? 2)) [ct_begin style; ct_end style].

Lemma bson_empty_total data len : 5 <= len <= zlen data -> exists b, bson_empty data len = Some b.
Proof.
  intros Hl. unfold bson_empty. destruct (len =? 5); [by eexists|]. destruct (proj2 (rd_is_Some data 4)) as [c ->]; [lia|]. by eexists.
Qed.

Lemma keeps_container depth : forall style data len m, container_ok style = true ->
  5 <= len <= zlen data -> len < 2 ^ 30 -> keeps (mcommon_json_append_bson_container malloc depth style data len m) (64 * len).
Proof.
  induction depth as [|depth IH]; intros style data len m Hs Hl Hs2 u a Hu Ht;
    pose proof Hs as Hs'; unfold container_ok in Hs'; cbn [forallb] in Hs'; rewrite !andb_true_r, !andb_true_iff, !Z.leb_le in Hs';
    destruct Hs' as [[[Pe Le] [Po Lo]] [[Pb Lb] [Pn Ln]]];
    cbn [mcommon_json_append_bson_container]; destruct (bson_empty_total data len Hl) as [b ->]; sbind; destruct b.
  1,3: destruct (keeps_lit _ Pe u a) as (ok & a1 & u1 & -> & Ht1 & Hl1); [lia|done|]; sbind; exists true, a1, u1; split_and!; [done..|lia].
  - destruct (keeps_lit _ Po u a) as (ok & a1 & u1 & -> & Ht1 & Hl1); [lia|done|]. sbind. exists true, a1, u1. split_and!; [done..|lia].
  - destruct (keeps_lit _ Pb u a) as (ok & a1 & u1 & -> & Ht1 & Hl1); [lia|done|]. sbind.
    destruct (keeps_values (mcommon_json_append_bson_container malloc depth json_document_style)
      (mcommon_json_append_bson_container malloc depth json_array_style)) with (keys := ct_has_keys style) (data := data) (len := len)
      (m := m) (u := u1) (a := a1) as (ok2 & a2 & u2 & -> & Ht2 & Hl2);
      [intros; apply IH; [done|lia..]|intros; apply IH; [done|lia..]|lia..|done|].
    sbind. destruct (keeps_lit _ Pn u2 a2) as (ok3 & a3 & u3 & -> & Ht3 & Hl3); [lia|done|]. sbind.
    exists ok2, a3, u3. split_and!; [done..|lia].
Qed.
End Keeps.

(** ** [bson_as_json_with_opts]

    On any bytes the conversion returns: no read is out of bounds, no write
    leaves the buffer, no assertion fails. The result is [NULL], or a terminated
    text in valid UTF-8 at most 64 times as long as the document. *)
Section Top.
Context (malloc : Z -> bytes).
Hypothesis Hmalloc : forall n, 0 <= n -> zlen (malloc n) = n.

Theorem as_json_total data len opts :
  5 <= len <= zlen data -> len < 2 ^ 26 -> is_s32 (max_len opts) -> 64 * len <= json_limit opts ->
  bson_as_json_with_opts malloc data len opts = Some (None, 0) \/
  exists t junk, bson_as_json_with_opts malloc data len opts = Some (Some (t ++ x00 :: junk), zlen t) /\
    utf8_text true t /\ zlen t <= 64 * len.
Proof.
  intros Hl Hs Hm Hlim. unfold bson_as_json_with_opts.
  destruct (json_start malloc Hmalloc opts len) as (s & a & -> & Ea & Ha); [lia|done|]. sbind. rewrite Ea. sbind.
  assert (E : (if is_outermost_array opts
     then mcommon_json_append_bson_array malloc data len (mode opts) BSON_MAX_RECURSION a
     else mcommon_json_append_bson_document malloc data len (mode opts) BSON_MAX_RECURSION a) =
    mcommon_json_append_bson_container malloc BSON_MAX_RECURSION (json_style opts) data len (mode opts) a)
    by (unfold json_style; by destruct (is_outermost_array opts)).
  rewrite E. clear E.
  assert (Hst : container_ok (json_style opts) = true) by (unfold json_style; by destruct (is_outermost_array opts)).
  pose proof (keeps_container malloc Hmalloc (json_limit opts) BSON_MAX_RECURSION (json_style opts) data len (mode opts) Hst Hl ltac:(lia)) as Hk.
  destruct (Hk [] a) as (ok & a' & u' & -> & Ht & Hu'); clear Hk; [done| |].
  { exists [], false. split; [done|]. split; [apply utf8_text_nil|done]. }
  sbind. destruct ok; [right|by left]. destruct Ht as (t & e & ((Hlt & _ & _ & junk & Es) & _) & Hu & He).
  unfold mcommon_string_destroy_with_steal, mcommon_strlen_from_append. rewrite Es, Hlt, rd_at by done. sbind.
  rewrite byte_eqb_refl. sbind. exists t, junk. split; [done|]. split; [done|]. change (zlen (@nil byte)) with 0 in Hu'.
  destruct e; [|subst; lia]. destruct He as (_ & _ & Hp). apply prefix_length in Hp. unfold zlen in *. lia.
Qed.
End Top.
