(* ===== verification/KmipDump.v ===== *)
(** kmip_dump: a KMIP message as XML and as a list of bytes. The end of
    [tools/kmip_dump/vendor_kms_message/vendor_kms_reader_writer.c], and
    [tools/kmip_dump/main.c]. *)

From Stdlib Require Import Strings.String.
From S2P Require Import Prelude CString Text IntEncode Calendar Hex KmsRequestStr KmipTags Kmip.

(** ** Operations *)

(** The padded length is truncated to 32 bits. *)
Definition kmip_reader_next (reader : kmip_reader_t) (read_length : Z) : bool * kmip_reader_t :=
  let advance_length := u32 (compute_padded_length read_length) in
  if remaining reader advance_length then (true, advance reader advance_length) else (false, reader).

(** The names of the operations, from 1. *)
Definition operation_names : list string :=
  ["Create"; "Create_Key_Pair"; "Register"; "Rekey"; "Derive_Key"; "Certify"; "Recertify"; "Locate"; "Check"; "Get";
   "Get_Attributes"; "Get_Attribute_List"; "Add_Attribute"; "Modify_Attribute"; "Delete_Attribute"; "Obtain_Lease";
   "Get_Usage_Allocation"; "Activate"; "Revoke"; "Destroy"; "Archive"; "Recover"; "Validate"; "Query"; "Cancel";
   "Poll"; "Notify"; "Put"]%string.

Definition operation_comment (value : Z) : bytes :=
  txt "<!-- " ++
  (if 1 <=? value then match operation_names !! Z.to_nat (value - 1) with Some n => txt n | None => txt "Unknown" end
   else txt "Unknown") ++ txt " -->".

(** What is stored through the pointer a read is given stays indeterminate when
    the read fails: using it is undefined. *)
Section Dump.
Context (malloc : Z -> bytes).

Fixpoint prefix_level_loop (count : nat) (str : kms_request_str_t) : option kms_request_str_t :=
  match count with
  | O => Some str
  | S count' => str ← kms_request_str_append_char malloc str (z2b 32); prefix_level_loop count' str
  end.
Definition prefix_level (str : kms_request_str_t) (level : Z) : option kms_request_str_t :=
  prefix_level_loop (Z.to_nat level) str.

Definition add_comment_describing_enum_value (str : kms_request_str_t) (tag value : Z) : option kms_request_str_t :=
  if tag =? KMIP_TAG "Operation" then kms_request_str_appendf malloc str (operation_comment value) else Some str.

(** [ value="..."/>] *)
Definition value_attr (v : bytes) : bytes := txt " value=" ++ quoted v ++ txt "/>".

(** The bytes of a byte string, one at a time. *)
Fixpoint append_hex (count : nat) (str : kms_request_str_t) (p : bytes) (i : Z) : option kms_request_str_t :=
  match count with
  | O => Some str
  | S count' =>
      b ← rd p i; str ← kms_request_str_appendf malloc str (hex02 (b2z b)); append_hex count' str p (i + 1)
  end.

(** The value of an item that is not a structure. The type is one of those the
    code knows, or [None] for the jump to the error label. *)
Definition dump_value (str : kms_request_str_t) (reader : kmip_reader_t) (tag type len : Z) :
    option (option (kms_request_str_t * kmip_reader_t)) :=
  if type =? KMIP_ITEM_TYPE_Integer then
    '(_, value, reader) ← kmip_reader_read_integer reader;
    value ← value;
    str ← kms_request_str_appendf malloc str (value_attr (sdec value)); Some (Some (str, reader))
  else if type =? KMIP_ITEM_TYPE_LongInteger then
    '(_, value, reader) ← kmip_reader_read_long_integer reader;
    value ← value;
    str ← kms_request_str_appendf malloc str (value_attr (sdec value)); Some (Some (str, reader))
  else if type =? KMIP_ITEM_TYPE_BigInteger then
    str ← kms_request_str_appendf malloc str (txt " value=" ++ quoted (txt "(TODO)"));
    Some (Some (str, snd (kmip_reader_next reader len)))
  else if type =? KMIP_ITEM_TYPE_Enumeration then
    '(_, value, reader) ← kmip_reader_read_enumeration reader;
    value ← value;
    str ← kms_request_str_appendf malloc str (value_attr (dec value));
    str ← add_comment_describing_enum_value str tag value; Some (Some (str, reader))
  else if type =? KMIP_ITEM_TYPE_Boolean then
    '(_, u64, reader) ← kmip_reader_read_u64 reader;
    u64 ← u64;
    str ← kms_request_str_appendf malloc str (value_attr (if u64 =? 1 then txt "true" else txt "false"));
    Some (Some (str, reader))
  else if type =? KMIP_ITEM_TYPE_TextString then
    valuestr ← store (malloc (u32 (len + 1))) len [x00];
    '(_, value, reader) ← kmip_reader_read_string reader len;
    value ← value;
    src ← slice value 0 len;
    valuestr ← store valuestr 0 src;
    text ← cstr valuestr;
    str ← kms_request_str_appendf malloc str (value_attr text); Some (Some (str, reader))
  else if type =? KMIP_ITEM_TYPE_ByteString then
    '(_, value, reader) ← kmip_reader_read_bytes reader len;
    str ← kms_request_str_appendf malloc str (txt " value=" ++ [z2b 34]);
    str ← (if len =? 0 then Some str else value ← value; append_hex (Z.to_nat len) str value 0);
    str ← kms_request_str_appendf malloc str ([z2b 34] ++ txt "/>"); Some (Some (str, reader))
  else if type =? KMIP_ITEM_TYPE_DateTime then
    '(_, u64, reader) ← kmip_reader_read_u64 reader;
    u64 ← u64;
    tmtime ← gmtime (s64 u64);
    str ← kms_request_str_appendf malloc str (value_attr (strftime_FTz tmtime)); Some (Some (str, reader))
  else if type =? KMIP_ITEM_TYPE_Interval then
    str ← kms_request_str_appendf malloc str (txt " value=" ++ quoted (txt "(TODO)"));
    Some (Some (str, snd (kmip_reader_next reader len)))
  else Some None.

Definition dump_error (str : kms_request_str_t) : option kms_request_str_t :=
  kms_request_str_append_chars malloc str (lit "<Malformed/>") (-1).

Definition tag_attr (tag : Z) : bytes :=
  txt "<" ++ kmip_tag_type_to_string tag ++ txt " tag=" ++
  quoted (txt "0x" ++ hex02 (Z.shiftr (Z.land tag 0xFF0000) 16) ++ hex02 (Z.shiftr (Z.land tag 0xFF00) 8) ++
          hex02 (Z.land tag 0xFF)).

(** One round of [while (true)]: the string and the reader when the loop ends.
    The reader of structures is declared outside the loop: when
    [kmip_reader_in_place] fails it is the one of the structure before, or
    indeterminate. [rec] is the loop again, in the structure or after the item. *)
Definition dump_body (rec : kms_request_str_t -> kmip_reader_t -> Z -> option kmip_reader_t ->
    option (kms_request_str_t * kmip_reader_t)) (str : kms_request_str_t) (reader : kmip_reader_t) (level : Z)
    (subreader : option kmip_reader_t) : option (kms_request_str_t * kmip_reader_t) :=
  '(ok, tag, reader) ← kmip_reader_read_tag reader;
  if negb ok then Some (str, reader) else
  tag ← tag;
  str ← prefix_level str level;
  str ← kms_request_str_appendf malloc str (tag_attr tag);
  '(ok, type, reader) ← kmip_reader_read_type reader;
  if negb ok then str ← dump_error str; Some (str, reader) else
  type ← type;
  str ← kms_request_str_appendf malloc str (txt " type=" ++ quoted (kmip_item_type_to_string type));
  '(ok, len, reader) ← kmip_reader_read_length reader;
  if negb ok then str ← dump_error str; Some (str, reader) else
  len ← len;
  if type =? KMIP_ITEM_TYPE_Structure then
    made ← kmip_reader_in_place reader (kr_pos reader) len;
    let subreader := match made with Some r => Some r | None => subreader end in
    str ← kms_request_str_appendf malloc str (txt ">" ++ [newline_char]);
    subreader ← subreader;
    '(str, subreader) ← rec str subreader (u32 (level + 1)) None;
    str ← prefix_level str level;
    str ← kms_request_str_appendf malloc str (txt "</" ++ kmip_tag_type_to_string tag ++ txt ">" ++ [newline_char]);
    rec str (snd (kmip_reader_next reader len)) level (Some subreader)
  else
    r ← dump_value str reader tag type len;
    match r with
    | None => str ← dump_error str; Some (str, reader)
    | Some (str, reader) =>
        str ← kms_request_str_append_char malloc str newline_char; rec str reader level subreader
    end.

(** [spent] is what the model makes of running out of steps, which it never does
    ([kmip_dump_terminates]): undefined behaviour is [None] whatever [spent] is. *)
Fixpoint dump_loop (spent : option (kms_request_str_t * kmip_reader_t)) (fuel : nat) (str : kms_request_str_t)
    (reader : kmip_reader_t) (level : Z) (subreader : option kmip_reader_t) : option (kms_request_str_t * kmip_reader_t) :=
  match fuel with
  | O => spent
  | S fuel' => dump_body (dump_loop spent fuel') str reader level subreader
  end.

Definition kmip_dump_recursive_xml (fuel : nat) (str : kms_request_str_t) (reader : kmip_reader_t) (level : Z) :
    option (kms_request_str_t * kmip_reader_t) :=
  dump_loop None fuel str reader level None.

(** [0x42, 0x00, ...] *)
Fixpoint list_bytes (count : nat) (str : kms_request_str_t) (data : bytes) (len i : Z) : option kms_request_str_t :=
  match count with
  | O => Some str
  | S count' =>
      b ← rd data i;
      str ← kms_request_str_appendf malloc str (txt "0x" ++ hex02 (b2z b));
      str ← (if i <? u64 (len - 1) then kms_request_str_appendf malloc str (txt ", ") else Some str);
      list_bytes count' str data len (i + 1)
  end.

(** Each item takes eight bytes, so this many steps nest and follow. *)
Definition dump_fuel (len : Z) : nat := Z.to_nat ((len + 1) * (len + 1)).

Definition kmip_dump (data : bytes) (len : Z) : option bytes :=
  str ← kms_request_str_new malloc;
  let reader := kmip_reader_new data len in
  '(str, _) ← kmip_dump_recursive_xml (dump_fuel len) str reader 0;
  str ← kms_request_str_appendf malloc str [newline_char];
  str ← list_bytes (Z.to_nat len) str data len 0;
  str ← kms_request_str_appendf malloc str [newline_char];
  Some (kms_request_str_detach str).

(** [main]: what is printed, and the exit status. *)
Definition kmip_dump_main (argv : list bytes) : option (bytes * Z) :=
  if negb (zlen argv =? 2) then
    Some (txt "usage: kmip_dump " ++ [z2b 34] ++ txt "<hex encoded data" ++ [z2b 34] ++ txt ">" ++ [newline_char], 1)
  else
    arg ← argv !! 1%nat;
    '(data, datalen) ← hex_to_bin malloc arg;
    kmipstr ← kmip_dump data datalen;
    text ← cstr kmipstr;
    Some (text, 0).
End Dump.
