(* ===== verification/KmipDumpSpec.v ===== *)
(** What kmip_dump prints: the XML of a message, as a function of its items. *)

From Stdlib Require Import Strings.String.
From S2P Require Import Prelude CString Text IntEncode BigEndian Calendar Hex KmsRequestStr KmipTags Kmip KmipSpec KmipReadSpec KmipDump.

(** ** The XML of items *)

Definition indent (level : Z) : bytes := replicate (Z.to_nat level) (z2b 32).

(** A text as [%s] prints it: up to a zero byte. *)
Definition c_text (s : bytes) : bytes := match cstr (s ++ [x00]) with Some t => t | None => [] end.

(** The value of an item that is not a structure. The code does not close the
    element of a big integer or an interval. *)
Definition xml_value (tag : Z) (v : kval) : bytes :=
  match v with
  | KStructure _ => []
  | KInteger v | KLongInteger v => value_attr (sdec v)
  | KBigInteger _ | KInterval _ => txt " value=" ++ quoted (txt "(TODO)")
  | KEnumeration v => value_attr (dec v) ++ (if tag =? KMIP_TAG "Operation" then operation_comment v else [])
  | KBoolean b => value_attr (if b then txt "true" else txt "false")
  | KTextString s => value_attr (c_text s)
  | KByteString s => (txt " value=" ++ [z2b 34]) ++ hex_text s ++ [z2b 34] ++ txt "/>"
  | KDateTime v => match gmtime v with Some t => value_attr (strftime_FTz t) | None => [] end
  end.

Definition xml_open (level tag type : Z) : bytes :=
  indent level ++ tag_attr tag ++ txt " type=" ++ quoted (kmip_item_type_to_string type).
Definition xml_close (level tag : Z) : bytes :=
  indent level ++ txt "</" ++ kmip_tag_type_to_string tag ++ txt ">" ++ [newline_char].

Fixpoint xml_content (level tag : Z) (v : kval) : bytes :=
  let xml_items := fix xml_items (level : Z) (l : list kitem) : bytes :=
    match l with
    | [] => []
    | (tag, v) :: l' => xml_open level tag (kval_type v) ++ xml_content level tag v ++ xml_items level l'
    end in
  match v with
  | KStructure l => (txt ">" ++ [newline_char]) ++ xml_items (level + 1) l ++ xml_close level tag
  | v => xml_value tag v ++ [newline_char]
  end.
Fixpoint xml_items (level : Z) (l : list kitem) : bytes :=
  match l with
  | [] => []
  | (tag, v) :: l' => xml_open level tag (kval_type v) ++ xml_content level tag v ++ xml_items level l'
  end.

(** Dates the calendar of [gmtime] reaches. *)
Definition date_ok (v : Z) : Prop := - 2 ^ 55 <= v < 2 ^ 55.
Fixpoint dates_ok (v : kval) : Prop :=
  let go := fix go (l : list kitem) : Prop :=
    match l with [] => True | (_, v) :: l' => dates_ok v /\ go l' end in
  match v with
  | KStructure l => go l
  | KDateTime v => date_ok v
  | _ => True
  end.
Fixpoint all_dates_ok (l : list kitem) : Prop :=
  match l with [] => True | (_, v) :: l' => dates_ok v /\ all_dates_ok l' end.

Lemma dates_structure l : dates_ok (KStructure l) <-> all_dates_ok l.
Proof. reflexivity. Qed.
Lemma xml_structure level tag l :
  xml_content level tag (KStructure l) = (txt ">" ++ [newline_char]) ++ xml_items (level + 1) l ++ xml_close level tag.
Proof. reflexivity. Qed.
Lemma xml_scalar level tag v : kscalar v -> xml_content level tag v = xml_value tag v ++ [newline_char].
Proof. by destruct v. Qed.

(** ** Appending text *)

Section Spec.
Context (malloc : Z -> bytes).
Hypothesis Hmalloc : forall n, 0 <= n -> zlen (malloc n) = n.

(** An operation that appends the same text to any string with room for it. *)
Definition emits (f : kms_request_str_t -> option kms_request_str_t) (u : bytes) : Prop :=
  forall str t, kms_is str t -> zlen t + zlen u < KMS_LIMIT -> exists str', f str = Some str' /\ kms_is str' (t ++ u).

Lemma emits_bind f g u v : emits f u -> emits g v -> emits (fun str => str ← f str; g str) (u ++ v).
Proof.
  intros Hf Hg str t Hs Hl. destruct (Hf str t Hs) as (s1 & -> & H1); [zl|]. sbind.
  rewrite app_assoc. apply Hg; [done|zl].
Qed.

Lemma emits_nil : emits Some [].
Proof. intros str t Hs _. exists str. by rewrite app_nil_r. Qed.

Lemma emits_f u : emits (fun str => kms_request_str_appendf malloc str u) u.
Proof. intros str t Hs Hl. by apply appendf_spec; [|apply Hs|]. Qed.
Lemma emits_char c : emits (fun str => kms_request_str_append_char malloc str c) [c].
Proof. intros str t Hs Hl. by apply append_char_spec; [|apply Hs|]. Qed.

Lemma emits_prefix level : emits (fun str => prefix_level malloc str level) (indent level).
Proof.
  unfold prefix_level, indent. induction (Z.to_nat level) as [|n IH]; [apply emits_nil|]. cbn [prefix_level_loop replicate].
  apply (emits_bind _ _ [z2b 32]); [apply emits_char|done].
Qed.

Lemma emits_hex s : forall pre post,
  emits (fun str => append_hex malloc (length s) str (pre ++ s ++ post) (zlen pre)) (hex_text s).
Proof.
  induction s as [|b s IH]; intros pre post; [apply emits_nil|]. cbn [length append_hex hex_text]. cbn [app].
  rewrite rd_at by done. cbn [mbind option_bind]. apply (emits_bind _ _ (hex02 (b2z b))); [apply emits_f|].
  specialize (IH (pre ++ [b]) post). rewrite <- app_assoc, zlen_app in IH. exact IH.
Qed.

Lemma emits_comment tag v :
  emits (fun str => add_comment_describing_enum_value malloc str tag v)
    (if tag =? KMIP_TAG "Operation" then operation_comment v else []).
Proof. unfold add_comment_describing_enum_value. destruct (tag =? _); [apply emits_f|apply emits_nil]. Qed.

(** The list of bytes. *)
Lemma emits_list s : forall pre len, len = zlen pre + zlen s -> len < 2 ^ 63 ->
  emits (fun str => list_bytes malloc (length s) str (pre ++ s) len (zlen pre)) (hex_listing s).
Proof.
  induction s as [|b s IH]; intros pre len Hl Hlim; [apply emits_nil|]. cbn [length list_bytes hex_listing].
  rewrite zlen_cons in Hl. pose proof (zlen_nonneg s). pose proof (zlen_nonneg pre).
  rewrite rd_at by done. cbn [mbind option_bind]. rewrite u64_id by lia. rewrite app_assoc.
  apply (emits_bind _ _ (txt "0x" ++ hex02 (b2z b))); [apply emits_f|].
  specialize (IH (pre ++ [b]) len). rewrite <- app_assoc, zlen_app in IH.
  apply emits_bind; [|apply IH; [rewrite zlen_1; lia|lia]].
  destruct s as [|c s].
  - change (zlen (@nil byte)) with 0 in Hl. destruct (Z.ltb_spec (zlen pre) (len - 1)); [lia|apply emits_nil].
  - rewrite zlen_cons in Hl. pose proof (zlen_nonneg s). destruct (Z.ltb_spec (zlen pre) (len - 1)); [apply emits_f|lia].
Qed.

(** ** Values *)

(** A value dumped: its text appended, and the reader after its padding. *)
Definition dumped (r : kmip_reader_t) (a : bytes) (v : kval) (w t u : bytes)
    (res : option (option (kms_request_str_t * kmip_reader_t))) : Prop :=
  exists str' r', res = Some (Some (str', r')) /\ kms_is str' (t ++ u) /\
    at_ r' (a ++ kbody v ++ pad (zlen (kbody v))) w /\ same r r'.

Lemma next_spec r a s w :
  at_ r a ((s ++ pad (zlen s)) ++ w) -> zlen s < 2 ^ 32 - 8 ->
  exists r', kmip_reader_next r (zlen s) = (true, r') /\ at_ r' (a ++ s ++ pad (zlen s)) w /\ same r r'.
Proof.
  intros Hr Hs. pose proof (zlen_nonneg s). pose proof (Z.mod_pos_bound (- zlen s) 8 ltac:(lia)).
  unfold kmip_reader_next. rewrite compute_padded_length_spec, u32_id by lia.
  assert (Hv : zlen (s ++ pad (zlen s)) = zlen s + (- zlen s) mod 8) by zl.
  pose proof (at_advance _ _ _ _ Hr) as H1. rewrite Hv in H1. rewrite (remaining_spec _ _ _ _ Hr) by lia.
  destruct Hr as (_ & _ & Hl). rewrite (zlen_app (s ++ _)), Hv in Hl. pose proof (zlen_nonneg w).
  destruct (Z.leb_spec (zlen a + (zlen s + (- zlen s) mod 8)) (kr_len r)); [|lia]. by eexists.
Qed.

Lemma read_u64_padded r a v w :
  at_ r a ((be_bytes 8 v ++ pad (zlen (be_bytes 8 v))) ++ w) -> 0 <= v < 2 ^ 64 ->
  exists r', kmip_reader_read_u64 r = Some (true, Some v, r') /\
    at_ r' (a ++ be_bytes 8 v ++ pad (zlen (be_bytes 8 v))) w /\ same r r'.
Proof.
  rewrite zlen_be_bytes. change (pad (Z.of_nat 8)) with (@nil byte). rewrite app_nil_r. intros Hr Hv.
  destruct (read_u64_spec _ _ _ _ Hr Hv) as [E H]. by eexists.
Qed.

(** A value whose text is appended in one call after it is read. *)
Lemma dumped_f str r a v w t u r' :
  kms_is str t -> zlen t + zlen u < KMS_LIMIT -> at_ r' (a ++ kbody v ++ pad (zlen (kbody v))) w -> same r r' ->
  dumped r a v w t u (str ← kms_request_str_appendf malloc str u; Some (Some (str, r'))).
Proof.
  intros Hs Hl Hr Hsame. destruct (emits_f u str t Hs Hl) as (s1 & -> & H1). sbind. by exists s1, r'.
Qed.

Lemma dump_text str r a s w t tag :
  at_ r a ((s ++ pad (zlen s)) ++ w) -> zlen s < 2 ^ 32 - 8 -> kms_is str t ->
  zlen t + zlen (xml_value tag (KTextString s)) < KMS_LIMIT ->
  dumped r a (KTextString s) w t (xml_value tag (KTextString s))
    (dump_value malloc str r tag KMIP_ITEM_TYPE_TextString (zlen s)).
Proof.
  intros Hr Hb Hs Hl. pose proof (zlen_nonneg s).
  destruct (read_bytes_spec _ _ _ _ Hr) as (p & r' & E & H' & Hsame); [lia|].
  change (dump_value malloc str r tag KMIP_ITEM_TYPE_TextString (zlen s)) with
    (valuestr ← store (malloc (u32 (zlen s + 1))) (zlen s) [x00];
     '(_, value, reader) ← kmip_reader_read_string r (zlen s);
     value ← value; src ← slice value 0 (zlen s); valuestr ← store valuestr 0 src; text ← cstr valuestr;
     str ← kms_request_str_appendf malloc str (value_attr text); Some (Some (str, reader))).
  rewrite u32_id by lia. destruct (fresh_split malloc Hmalloc (zlen s + 1) (zlen s)) as (old & last & -> & Ho & Hj); [lia|].
  rewrite <- (app_nil_r last), store_at by (done || (rewrite zlen_1; lia)). sbind.
  unfold kmip_reader_read_string. rewrite E. sbind. rewrite slice_at_end_0 by done. sbind.
  rewrite store_at_0 by done. sbind. rewrite app_nil_r. cbn [xml_value] in *. unfold c_text in *.
  destruct (proj2 (cstr_is_Some (s ++ [x00]))) as [text Et]; [apply elem_of_app; right; by apply list_elem_of_singleton|].
  rewrite Et in *. sbind. by apply dumped_f.
Qed.

Lemma dump_bytes str r a s w t tag :
  at_ r a ((s ++ pad (zlen s)) ++ w) -> zlen s < 2 ^ 32 - 8 -> kms_is str t ->
  zlen t + zlen (xml_value tag (KByteString s)) < KMS_LIMIT ->
  dumped r a (KByteString s) w t (xml_value tag (KByteString s))
    (dump_value malloc str r tag KMIP_ITEM_TYPE_ByteString (zlen s)).
Proof.
  intros Hr Hb Hs Hl. pose proof (zlen_nonneg s).
  destruct (read_bytes_spec _ _ _ _ Hr) as (p & r' & E & H' & Hsame); [lia|].
  change (dump_value malloc str r tag KMIP_ITEM_TYPE_ByteString (zlen s)) with
    ('(_, value, reader) ← kmip_reader_read_bytes r (zlen s);
     str ← kms_request_str_appendf malloc str (txt " value=" ++ [z2b 34]);
     str ← (if zlen s =? 0 then Some str else value ← value; append_hex malloc (Z.to_nat (zlen s)) str value 0);
     str ← kms_request_str_appendf malloc str ([z2b 34] ++ txt "/>"); Some (Some (str, reader))).
  rewrite E. sbind. cbn [xml_value] in *.
  destruct (emits_f (txt " value=" ++ [z2b 34]) str t Hs) as (s1 & -> & H1); [zl|]. sbind.
  assert (Hh : exists s2, (if zlen s =? 0 then Some s1 else append_hex malloc (Z.to_nat (zlen s)) s1 (s ++ p) 0) = Some s2 /\
    kms_is s2 ((t ++ txt " value=" ++ [z2b 34]) ++ hex_text s)).
  { destruct (emits_hex s [] p s1 _ H1) as (s2 & E2 & H2); [zl|]. rewrite to_nat_zlen.
    destruct (Z.eqb_spec (zlen s) 0) as [Ez|]; [|by exists s2]. rewrite (zlen_0 s Ez) in *. exists s1. by rewrite app_nil_r. }
  destruct Hh as (s2 & -> & H2). sbind.
  destruct (emits_f ([z2b 34] ++ txt "/>") s2 _ H2) as (s3 & -> & H3); [zl|]. sbind.
  exists s3, r'. split; [done|]. split; [|done]. by rewrite <- !app_assoc in *.
Qed.

(** A value of eight bytes whose text depends on the number read. *)
Lemma dump_word (f : Z -> bytes) cast str r a v n w t :
  at_ r a ((be_bytes 4 n ++ pad (zlen (be_bytes 4 n))) ++ w) -> kbody v = be_bytes 4 n -> 0 <= n < 2 ^ 32 ->
  kms_is str t -> zlen t + zlen (f (cast n)) < KMS_LIMIT ->
  dumped r a v w t (f (cast n))
    ('(_, value, reader) ← read_padded_word cast r; value ← value;
     str ← kms_request_str_appendf malloc str (f value); Some (Some (str, reader))).
Proof.
  intros Hr Hb Hn Hs Hl. rewrite zlen_be_bytes in Hr. destruct (read_word_spec cast _ _ _ _ Hr Hn) as (r' & E & H' & Hsame).
  rewrite E. sbind. apply dumped_f; try done. by rewrite Hb, zlen_be_bytes.
Qed.

Lemma dump_u64 (f : Z -> bytes) str r a v n w t :
  at_ r a ((be_bytes 8 n ++ pad (zlen (be_bytes 8 n))) ++ w) -> kbody v = be_bytes 8 n -> 0 <= n < 2 ^ 64 ->
  kms_is str t -> zlen t + zlen (f n) < KMS_LIMIT ->
  dumped r a v w t (f n)
    ('(_, value, reader) ← kmip_reader_read_u64 r; value ← value;
     str ← kms_request_str_appendf malloc str (f value); Some (Some (str, reader))).
Proof.
  intros Hr Hb Hn Hs Hl. destruct (read_u64_padded _ _ _ _ Hr Hn) as (r' & E & H' & Hsame).
  rewrite E. sbind. apply dumped_f; try done. by rewrite Hb.
Qed.

Lemma dump_todo str r a v w t :
  at_ r a ((kbody v ++ pad (zlen (kbody v))) ++ w) -> zlen (kbody v) < 2 ^ 32 - 8 -> kms_is str t ->
  zlen t + zlen (txt " value=" ++ quoted (txt "(TODO)")) < KMS_LIMIT ->
  dumped r a v w t (txt " value=" ++ quoted (txt "(TODO)"))
    (str ← kms_request_str_appendf malloc str (txt " value=" ++ quoted (txt "(TODO)"));
     Some (Some (str, snd (kmip_reader_next r (zlen (kbody v)))))).
Proof.
  intros Hr Hb Hs Hl. destruct (next_spec _ _ _ _ Hr Hb) as (r' & -> & H' & Hsame). by apply dumped_f.
Qed.

Lemma dump_enum str r a n w t tag :
  at_ r a ((be_bytes 4 n ++ pad (zlen (be_bytes 4 n))) ++ w) -> 0 <= n < 2 ^ 32 ->
  kms_is str t -> zlen t + zlen (xml_value tag (KEnumeration n)) < KMS_LIMIT ->
  dumped r a (KEnumeration n) w t (xml_value tag (KEnumeration n))
    (dump_value malloc str r tag KMIP_ITEM_TYPE_Enumeration (zlen (be_bytes 4 n))).
Proof.
  intros Hr Hn Hs Hl. rewrite zlen_be_bytes in Hr. destruct (read_word_spec (fun v => v) _ _ _ _ Hr Hn) as (r' & E & H' & Hsame).
  change (dump_value malloc str r tag KMIP_ITEM_TYPE_Enumeration (zlen (be_bytes 4 n))) with
    ('(_, value, reader) ← kmip_reader_read_enumeration r; value ← value;
     str ← kms_request_str_appendf malloc str (value_attr (dec value));
     str ← add_comment_describing_enum_value malloc str tag value; Some (Some (str, reader))).
  unfold kmip_reader_read_enumeration. rewrite E. sbind. cbn [xml_value] in *.
  destruct (emits_f (value_attr (dec n)) str t Hs) as (s1 & -> & H1); [zl|]. sbind.
  destruct (emits_comment tag n s1 _ H1) as (s2 & -> & H2); [zl|]. sbind.
  exists s2, r'. split; [done|]. rewrite <- app_assoc in H2. cbn [kbody]. by rewrite zlen_be_bytes.
Qed.

Lemma dump_date str r a v w t tag :
  at_ r a ((kbody (KDateTime v) ++ pad (zlen (kbody (KDateTime v)))) ++ w) -> is_s64 v -> date_ok v ->
  kms_is str t -> zlen t + zlen (xml_value tag (KDateTime v)) < KMS_LIMIT ->
  dumped r a (KDateTime v) w t (xml_value tag (KDateTime v))
    (dump_value malloc str r tag KMIP_ITEM_TYPE_DateTime (zlen (kbody (KDateTime v)))).
Proof.
  intros Hr Hv Hd Hs Hl. cbn [kbody] in Hr. destruct (read_u64_padded _ _ _ _ Hr (u64_range v)) as (r' & E & H' & Hsame).
  change (dump_value malloc str r tag KMIP_ITEM_TYPE_DateTime (zlen (kbody (KDateTime v)))) with
    ('(_, u64, reader) ← kmip_reader_read_u64 r; u64 ← u64; tmtime ← gmtime (s64 u64);
     str ← kms_request_str_appendf malloc str (value_attr (strftime_FTz tmtime)); Some (Some (str, reader))).
  rewrite E. sbind. rewrite s64_u64 by done. cbn [xml_value] in *. destruct (gmtime_Some v Hd) as [tmv Et].
  rewrite Et in *. sbind.
  by apply dumped_f.
Qed.

Lemma dump_value_spec str r a v w t tag :
  kscalar v -> wf_kval v -> zlen (kbody v) < 2 ^ 32 - 8 -> dates_ok v ->
  at_ r a ((kbody v ++ pad (zlen (kbody v))) ++ w) -> kms_is str t -> zlen t + zlen (xml_value tag v) < KMS_LIMIT ->
  dumped r a v w t (xml_value tag v) (dump_value malloc str r tag (kval_type v) (zlen (kbody v))).
Proof.
  intros Hv Hwf Hb Hd Hr Hs Hl. destruct v as [l|v|v|data|v|b|s|s|v|v]; cbn [wf_kval] in Hwf.
  - done.
  - pose proof (dump_word (fun z => value_attr (sdec z)) s32 str r a (KInteger v) (u32 v) w t Hr eq_refl (u32_range v) Hs) as H.
    cbn beta in H. rewrite (s32_u32 v Hwf) in H. by apply H.
  - cbn [kbody] in *. destruct (read_u64_padded _ _ _ _ Hr (u64_range v)) as (r' & E & H' & Hsame).
    change (dumped r a (KLongInteger v) w t (value_attr (sdec v))
      ('(_, value, reader) ← kmip_reader_read_long_integer r; value ← value;
       str ← kms_request_str_appendf malloc str (value_attr (sdec value)); Some (Some (str, reader)))).
    unfold kmip_reader_read_long_integer. rewrite E. sbind. cbn [option_map]. rewrite s64_u64 by done. by apply dumped_f.
  - by apply dump_todo.
  - by apply dump_enum.
  - pose proof (dump_u64 (fun z => value_attr (if z =? 1 then txt "true" else txt "false")) str r a (KBoolean b)
      (Z.b2z b) w t Hr eq_refl ltac:(destruct b; cbn; lia) Hs) as H.
    destruct b; by apply H.
  - by apply dump_text.
  - by apply dump_bytes.
  - by apply dump_date.
  - by apply dump_todo.
Qed.

(** ** Items *)

(** The loop at items prints them, and stops at the end of the message. *)
Definition dumps (l : list kitem) : Prop := forall fuel str r a t level sub,
  at_rest r a (enc_items l) -> wf_items l -> all_dates_ok l -> kms_is str t ->
  0 <= level -> level + zlen (enc_items l) < 2 ^ 32 -> zlen t + zlen (xml_items level l) < KMS_LIMIT ->
  zlen (enc_items l) < 8 * Z.of_nat fuel ->
  exists str' r', dump_loop malloc None fuel str r level sub = Some (str', r') /\ kms_is str' (t ++ xml_items level l).

Lemma dumps_nil : dumps [].
Proof.
  intros fuel str r a t level sub Hr _ _ Hs _ _ _ Hf. change (zlen (enc_items [])) with 0 in Hf.
  destruct fuel as [|fuel]; [lia|]. cbn [dump_loop enc_items] in *. unfold dump_body.
  rewrite (read_tag_eof _ _ Hr). sbind. cbn [negb]. exists str, r. by rewrite app_nil_r.
Qed.

(** The reader after an item. *)
Lemma at_rest_same r r' a hd e l :
  same r r' -> kr_len r = zlen a + zlen (enc_items (e :: l)) -> zlen hd = 8 ->
  at_ r' ((a ++ hd) ++ kbody e.2 ++ pad (zlen (kbody e.2))) (enc_items l) ->
  at_rest r' ((a ++ hd) ++ kbody e.2 ++ pad (zlen (kbody e.2))) (enc_items l).
Proof.
  intros [_ Hs] Hl Hhd Hr. split; [done|]. rewrite Hs, Hl. cbn [enc_items]. unfold enc_item.
  rewrite !zlen_app, zlen_wrap_item, zlen_pad, Hhd. lia.
Qed.

(** The start of an element: what the loop prints before the value, and what it
    goes on with. *)
Lemma dump_step fuel str r a t level sub e l :
  at_rest r a (enc_items (e :: l)) -> wf_item e -> kms_is str t ->
  zlen t + zlen (xml_open level e.1 (kval_type e.2)) < KMS_LIMIT ->
  exists str' hd, kms_is str' (t ++ xml_open level e.1 (kval_type e.2)) /\ zlen hd = 8 /\
    let r' := KmipReader (kr_ptr r) (zlen a + 8) (kr_len r) in
    let len := zlen (kbody e.2) in
    at_ r' (a ++ hd) ((kbody e.2 ++ pad (zlen (kbody e.2))) ++ enc_items l) /\
    dump_loop malloc None (S fuel) str r level sub =
      (if kval_type e.2 =? KMIP_ITEM_TYPE_Structure then
        made ← kmip_reader_in_place r' (kr_pos r') len;
        let subreader := match made with Some r => Some r | None => sub end in
        str ← kms_request_str_appendf malloc str' (txt ">" ++ [newline_char]);
        subreader ← subreader;
        '(str, subreader) ← dump_loop malloc None fuel str subreader (u32 (level + 1)) None;
        str ← prefix_level malloc str level;
        str ← kms_request_str_appendf malloc str (txt "</" ++ kmip_tag_type_to_string e.1 ++ txt ">" ++ [newline_char]);
        let reader := snd (kmip_reader_next r' len) in
        dump_loop malloc None fuel str reader level (Some subreader)
      else
        r ← dump_value malloc str' r' e.1 (kval_type e.2) len;
        match r with
        | None => str ← dump_error malloc str'; Some (str, r')
        | Some (str, reader) =>
            str ← kms_request_str_append_char malloc str newline_char;
            dump_loop malloc None fuel str reader level sub
        end).
Proof.
  intros Hr He Hs Hl. destruct (item_spec _ _ _ _ Hr He) as (r1 & r2 & hd & E1 & E2 & E3 & Hhd & H3).
  unfold xml_open in *. cbn [dump_loop]. unfold dump_body at 1. rewrite E1. sbind. cbn [negb].
  destruct (emits_prefix level str t Hs) as (s1 & -> & H1); [zl|]. sbind.
  destruct (emits_f (tag_attr e.1) s1 _ H1) as (s2 & -> & H2); [zl|]. sbind. rewrite E2. sbind. cbn [negb].
  destruct (emits_f (txt " type=" ++ quoted (kmip_item_type_to_string (kval_type e.2))) s2 _ H2) as (s3 & -> & H3'); [zl|].
  sbind. rewrite E3. sbind. cbn [negb]. exists s3, hd. rewrite <- !app_assoc in H3'. done.
Qed.

(** One item more: a structure's own items are dumped first. *)
Lemma dumps_scalar tag v l : kscalar v -> dumps l -> dumps ((tag, v) :: l).
Proof.
  intros Hv IH fuel str r a t level sub Hr Hwf [Hd Hds] Hs Hlv Hlim Hl Hf.
  inversion_clear Hwf as [|? ? He Hwf']. pose proof He as (_ & Hw & Hb). cbn [fst snd] in *.
  cbn [xml_items] in *. rewrite (xml_scalar _ _ _ Hv) in *. pose proof (zlen_enc_item_ge (tag, v)).
  pose proof (zlen_nonneg (enc_items l)). pose proof (zlen_nonneg (xml_items level l)).
  cbn [enc_items] in Hf, Hlim. rewrite zlen_app in Hf, Hlim. rewrite !zlen_app in Hl.
  pose proof (zlen_nonneg (xml_value tag v)). pose proof (zlen_nonneg [newline_char]).
  destruct fuel as [|fuel]; [lia|].
  destruct (dump_step fuel str r a t level sub _ _ Hr He Hs) as (s1 & hd & K1 & Hhd & K3 & ->); [cbn [fst snd]; lia|].
  cbn [fst snd] in *. replace (kval_type v =? KMIP_ITEM_TYPE_Structure) with false by (by destruct v).
  destruct (dump_value_spec s1 _ _ v _ _ tag Hv Hw Hb Hd K3 K1) as (s2 & r2 & -> & K2 & K4 & Hsame); [rewrite zlen_app; lia|].
  sbind. destruct (emits_char newline_char s2 _ K2) as (s3 & -> & K5); [rewrite !zlen_app; lia|]. sbind.
  pose proof (at_rest_same _ _ _ _ (tag, v) _ Hsame (proj2 Hr) Hhd K4) as K6. rewrite <- !app_assoc in K5. rewrite !app_assoc in K5.
  destruct (IH fuel s3 r2 _ _ level sub K6 Hwf' Hds K5 Hlv) as (s' & r' & E & H'); [lia|rewrite !zlen_app; lia|lia|].
  exists s', r'. split; [done|]. by rewrite !app_assoc in *.
Qed.

(** A structure whose own items have been dumped is closed. *)
Lemma close_spec level tag str t :
  kms_is str t -> zlen t + zlen (xml_close level tag) < KMS_LIMIT ->
  exists str1 str2, prefix_level malloc str level = Some str1 /\
    kms_request_str_appendf malloc str1 (txt "</" ++ kmip_tag_type_to_string tag ++ txt ">" ++ [newline_char]) = Some str2 /\
    kms_is str2 (t ++ xml_close level tag).
Proof.
  unfold xml_close. intros Hs Hl. destruct (emits_prefix level str t Hs) as (s1 & E1 & K1); [zl|].
  destruct (emits_f (txt "</" ++ kmip_tag_type_to_string tag ++ txt ">" ++ [newline_char]) s1 _ K1) as (s2 & E2 & K2); [zl|].
  exists s1, s2. by rewrite <- app_assoc in K2.
Qed.

Lemma zlen_enc_structure tag l : zlen (enc_item (tag, KStructure l)) = 8 + zlen (enc_items l).
Proof. unfold enc_item. cbn [fst snd]. rewrite zlen_wrap_item, kbody_structure, enc_items_aligned. lia. Qed.

Lemma dumps_structure tag l' l : dumps l' -> dumps l -> dumps ((tag, KStructure l') :: l).
Proof.
  intros IH' IH fuel str r a t level sub Hr Hwf [Hd Hds] Hs Hlv Hlim Hl Hf.
  inversion_clear Hwf as [|? ? He Hwf']. pose proof He as (_ & Hw & Hb). apply wf_structure in Hw. cbn [fst snd] in *.
  cbn [xml_items] in *. rewrite xml_structure in *. rewrite kbody_structure in Hb.
  cbn [enc_items] in Hf, Hlim. rewrite zlen_app, zlen_enc_structure in Hf, Hlim. rewrite !zlen_app in Hl. zlen_facts.
  destruct fuel as [|fuel]; [lia|].
  destruct (dump_step fuel str r a t level sub _ _ Hr He Hs) as (s1 & hd & K1 & Hhd & K3 & ->); [cbn [fst snd]; lia|].
  cbn [fst snd kval_type] in *. rewrite Z.eqb_refl, kbody_structure in *.
  destruct (in_place_here _ _ _ _ K3 Hb) as (sr & -> & Hsr). sbind.
  rewrite (eq_refl : pad (zlen (enc_items l')) = replicate _ x00), enc_items_aligned, app_nil_r in Hsr.
  destruct (emits_f (txt ">" ++ [newline_char]) s1 _ K1) as (s2 & -> & K2); [zl|]. sbind.
  rewrite u32_id by lia.
  destruct (IH' fuel s2 sr [] _ (level + 1) None Hsr Hw Hd K2) as (s3 & sr' & -> & K4); [lia|lia|zl|lia|]. sbind.
  destruct (close_spec level tag s3 _ K4) as (s4 & s5 & -> & K5 & K6); [zl|]. sbind. rewrite K5. sbind.
  destruct (next_spec _ _ _ _ K3 Hb) as (r2 & -> & K7 & Hsame). cbn [snd].
  assert (K8 : at_rest r2 ((a ++ hd) ++ kbody (KStructure l') ++ pad (zlen (kbody (KStructure l')))) (enc_items l)).
  { apply (at_rest_same r r2 a hd (tag, KStructure l') l Hsame (proj2 Hr) Hhd). cbn [snd]. by rewrite kbody_structure. }
  destruct (IH fuel s5 r2 _ _ level (Some sr') K8 Hwf' Hds K6 Hlv) as (s' & r' & E & H'); [lia|zl|lia|].
  exists s', r'. split; [done|]. rewrite <- !app_assoc in *. done.
Qed.

Lemma dumps_items l : dumps l.
Proof.
  assert (H : forall v, match v with KStructure l => dumps l | _ => True end).
  { intros v. induction v as [v Hv|l' IH] using kval_ind'; [by destruct v|].
    induction IH as [|[tag v] l' Hv _ IHl]; [apply dumps_nil|]. destruct v; [by apply dumps_structure|..]; by apply dumps_scalar. }
  exact (H (KStructure l)).
Qed.

(** The whole of kmip_dump: the XML, and the bytes. *)
Definition dump_text_of (l : list kitem) : bytes :=
  xml_items 0 l ++ [newline_char] ++ hex_listing (enc_items l) ++ [newline_char].

Lemma zlen_hex_listing s : 4 * zlen s <= zlen (hex_listing s).
Proof.
  induction s as [|b s IH]; [done|]. cbn [hex_listing]. rewrite !zlen_app, zlen_cons.
  change (zlen (txt "0x")) with 2. change (zlen (hex02 (b2z b))) with 2.
  pose proof (zlen_nonneg (match s with [] => [] | _ :: _ => txt ", " end)). lia.
Qed.

Lemma kmip_dump_spec l :
  wf_items l -> all_dates_ok l -> zlen (dump_text_of l) < KMS_LIMIT ->
  exists out rest, kmip_dump malloc (enc_items l) (zlen (enc_items l)) = Some out /\ out = dump_text_of l ++ x00 :: rest.
Proof.
  intros Hwf Hd Hl. unfold dump_text_of in *. rewrite !zlen_app in Hl. pose proof (zlen_hex_listing (enc_items l)).
  pose proof (zlen_nonneg (enc_items l)). pose proof (zlen_nonneg (xml_items 0 l)). change (zlen [newline_char]) with 1 in Hl.
  assert (HL : KMS_LIMIT = 2 ^ 31) by done. unfold kmip_dump.
  destruct (kms_new_spec malloc Hmalloc) as (s0 & -> & K0). sbind. unfold kmip_dump_recursive_xml.
  assert (Hr : at_rest (kmip_reader_new (enc_items l) (zlen (enc_items l))) [] (enc_items l)).
  { split; [split; [exists []; cbn; by rewrite app_nil_r|]|done]. cbn. change (zlen (@nil byte)) with 0. split; [done|lia]. }
  destruct (dumps_items l (dump_fuel (zlen (enc_items l))) s0 _ [] [] 0 None Hr Hwf Hd K0) as (s1 & r1 & -> & K1);
    [lia|lia|change (zlen (@nil byte)) with 0; lia|unfold dump_fuel; nia|]. sbind.
  destruct (emits_f [newline_char] s1 _ K1) as (s2 & -> & K2); [cbn [app]; change (zlen [newline_char]) with 1; lia|]. sbind.
  rewrite to_nat_zlen. cbn [app] in K2.
  destruct (emits_list (enc_items l) [] (zlen (enc_items l)) ltac:(done) ltac:(lia) s2 _ K2) as (s3 & E3 & K3);
    [rewrite zlen_app; change (zlen [newline_char]) with 1; lia|].
  cbn [app] in E3. change (zlen (@nil byte)) with 0 in E3. rewrite E3. sbind.
  destruct (emits_f [newline_char] s3 _ K3) as (s4 & -> & K4); [rewrite !zlen_app; change (zlen [newline_char]) with 1; lia|]. sbind.
  destruct K4 as ((_ & _ & junk & Ej & _) & Hnul). unfold kms_request_str_detach.
  rewrite Ej, rd_app_r, Z.sub_diag in Hnul by done. destruct junk as [|c junk]; [done|]. cbn in Hnul. injection Hnul as ->.
  exists (ks_str s4), junk. by rewrite Ej, <- !app_assoc.
Qed.
End Spec.

(** ** The text has no zero byte *)

Lemma no_nul_txt s : no_nulb (txt s) = true -> no_nul (txt s).
Proof. by intros H%no_nulb_spec. Qed.

Lemma sdec_no_nul z : no_nul (sdec z).
Proof. unfold sdec. destruct (z <? 0); [apply no_nul_app; split; [by apply no_nulb_spec|]|]; apply dec_no_nul. Qed.

Lemma dec02_no_nul z : 0 <= z < 100 -> no_nul (dec02 z).
Proof.
  intros Hz. unfold dec02. assert (H : forall d, 0 <= d < 10 -> z2b (48 + d) <> x00).
  { intros d Hd E. apply (f_equal b2z) in E. rewrite b2z_z2b_small in E by lia. change (b2z x00) with 0 in E. lia. }
  apply no_nul_cons. split; [apply H; Z.to_euclidean_division_equations; lia|].
  apply no_nul_cons. split; [apply H; apply Z.mod_pos_bound; lia|by apply no_nulb_spec].
Qed.

Lemma hex02_no_nul z : 0 <= z < 256 -> no_nul (hex02 z).
Proof. intros Hz. rewrite <- (b2z_z2b_small z Hz). apply lower_hex_no_nul, hex02_lower. Qed.

Create HintDb no_nul discriminated.
#[local] Hint Resolve no_nul_txt sdec_no_nul dec_no_nul kmip_tag_to_string_no_nul : no_nul.
Ltac no_nul :=
  unfold value_attr, quoted; rewrite ?no_nul_app; repeat match goal with |- _ /\ _ => split end;
  first [by auto with no_nul | by apply no_nulb_spec | idtac].

Lemma strftime_no_nul t : valid_tm t -> no_nul (strftime_FTz t).
Proof.
  intros (Hm & Hd & Hh & Hmi & Hs). pose proof (days_in_month_range (tm_year t + 1900) (tm_mon t + 1)).
  unfold strftime_FTz. no_nul; apply dec02_no_nul; lia.
Qed.

Lemma item_type_no_nul ty : no_nul (kmip_item_type_to_string ty).
Proof. unfold kmip_item_type_to_string. repeat (case_match; [by apply no_nulb_spec|]). by apply no_nulb_spec. Qed.

Lemma operation_comment_no_nul v : no_nul (operation_comment v).
Proof.
  unfold operation_comment. no_nul. destruct (1 <=? v); [|by apply no_nulb_spec].
  destruct (operation_names !! Z.to_nat (v - 1)) as [n|] eqn:E; [|by apply no_nulb_spec].
  apply list_elem_of_lookup_2, list_elem_of_In in E.
  assert (H : forallb (fun s => no_nulb (txt s)) operation_names = true) by (vm_compute; reflexivity).
  rewrite forallb_forall in H. by apply no_nulb_spec, H.
Qed.

Lemma tag_attr_no_nul tag : no_nul (tag_attr tag).
Proof.
  unfold tag_attr. rewrite (byte_down tag 0xFF0000 16 16), (byte_down tag 0xFF00 8 8) by (lia || reflexivity).
  change (Z.land tag 0xFF) with (byte_at (Z.shiftr tag 0) 0). rewrite !Z.sub_diag, !Z.shiftl_0_r.
  no_nul; apply hex02_no_nul, byte_at_range.
Qed.
#[local] Hint Resolve tag_attr_no_nul item_type_no_nul operation_comment_no_nul : no_nul.

Lemma indent_no_nul level : no_nul (indent level).
Proof. unfold no_nul, indent. intros [? _]%elem_of_replicate. done. Qed.
#[local] Hint Resolve indent_no_nul : no_nul.

Lemma xml_value_no_nul tag v : no_nul (xml_value tag v).
Proof.
  destruct v; cbn [xml_value]; no_nul.
  - destruct (tag =? _); [auto with no_nul|by apply no_nulb_spec].
  - destruct b; by apply no_nulb_spec.
  - unfold c_text. destruct (cstr _) eqn:E; [by apply cstr_Some in E as [? _]|by apply no_nulb_spec].
  - apply lower_hex_no_nul, hex_text_lower.
  - destruct (gmtime v) eqn:E; [|by apply no_nulb_spec]. apply gmtime_spec in E as [E _]. no_nul. by apply strftime_no_nul.
Qed.

Lemma xml_items_no_nul l : forall level, no_nul (xml_items level l).
Proof.
  assert (Hopen : forall level tag ty, no_nul (xml_open level tag ty)) by (intros; unfold xml_open; no_nul).
  assert (H : forall v level tag, no_nul (xml_content level tag v)).
  { intros v. induction v as [v Hv|l' IH] using kval_ind'; intros level tag.
    - rewrite xml_scalar by done. apply no_nul_app. split; [apply xml_value_no_nul|by apply no_nulb_spec].
    - rewrite xml_structure. no_nul; [|unfold xml_close; no_nul]. generalize (level + 1). clear level.
      induction IH as [|[tag' v] l' Hv _ IHl]; intros level; [by apply no_nulb_spec|]. cbn [xml_items].
      rewrite !no_nul_app. auto. }
  induction l as [|[tag v] l IH]; intros level; [by apply no_nulb_spec|]. cbn [xml_items]. rewrite !no_nul_app. auto.
Qed.

Lemma dump_text_no_nul l : no_nul (dump_text_of l).
Proof.
  unfold dump_text_of. rewrite !no_nul_app. split; [apply xml_items_no_nul|]. split; [by apply no_nulb_spec|].
  split; [apply hex_listing_no_nul|by apply no_nulb_spec].
Qed.

(** ** The program *)

Lemma zlen_unhex n : forall s, (length s <= n)%nat -> zlen (unhex s) = zlen s / 2.
Proof.
  induction n as [|n IH]; intros [|a [|b s]] Hn; try done; [simpl in Hn; lia..|].
  cbn [unhex]. rewrite zlen_unhex_pair, zlen_cons, (IH s) by (simpl in Hn; lia). lia.
Qed.

(** Given the digits of a message, however they are spaced, [main] prints it. *)
Lemma main_prints malloc (Hmalloc : forall n, 0 <= n -> zlen (malloc n) = n) prog s post l :
  no_nul s -> zlen s < 2 ^ 62 -> unhex (filter_text s) = enc_items l ->
  wf_items l -> all_dates_ok l -> zlen (dump_text_of l) < KMS_LIMIT ->
  kmip_dump_main malloc [prog; s ++ x00 :: post] = Some (dump_text_of l, 0).
Proof.
  intros Hs Hlen Hu Hwf Hd Hl. unfold kmip_dump_main. change (zlen [prog; s ++ x00 :: post]) with 2. cbn [Z.eqb Pos.eqb negb].
  change ([prog; s ++ x00 :: post] !! 1%nat) with (Some (s ++ x00 :: post)). sbind.
  rewrite hex_to_bin_spec by done. sbind. rewrite <- (zlen_unhex (length (filter_text s))), Hu by lia.
  destruct (kmip_dump_spec malloc Hmalloc l Hwf Hd Hl) as (out & rest & -> & ->). sbind.
  rewrite cstr_app by apply dump_text_no_nul. done.
Qed.
