(* ===== verification/KmipDumpTotal.v ===== *)
(** kmip_dump ends on any bytes: the model's loop never runs out of steps, so that
    what it would return then makes no difference. *)

From Stdlib Require Import Strings.String.
From S2P Require Import Prelude CString Text IntEncode Calendar Hex KmsRequestStr KmipTags Kmip KmipSpec.
From S2P Require Import KmipReadSpec KmipDump.

(** Further in the same memory. *)
Definition forward (r r' : kmip_reader_t) : Prop := reader_ok r' /\ same r r' /\ kr_pos r <= kr_pos r'.

Lemma forward_refl r : reader_ok r -> forward r r.
Proof. done. Qed.
Lemma forward_trans r1 r2 r3 : forward r1 r2 -> forward r2 r3 -> forward r1 r3.
Proof. intros (_ & S1 & L1) (H & S2 & L2). split; [done|]. split; [by eapply same_trans|lia]. Qed.

Lemma advance_forward r n : reader_ok r -> 0 <= n < 2 ^ 62 -> remaining r n = true -> forward r (advance r n).
Proof.
  intros (Hp & Hl & Hlim) Hn Hr. unfold remaining in Hr. rewrite u64_id in Hr by lia.
  destruct (Z.ltb_spec (kr_len r) (kr_pos r + n)); [done|].
  unfold forward, reader_ok, same, advance. cbn. rewrite u64_id by lia. repeat split; lia.
Qed.

Lemma padded_bound n : 0 <= n < 2 ^ 32 -> 0 <= compute_padded_length n < 2 ^ 62.
Proof. intros. rewrite compute_padded_length_spec by lia. pose proof (Z.mod_pos_bound (- n) 8 ltac:(lia)). lia. Qed.

Lemma read_int_forward n swap r ok v r' :
  reader_ok r -> 0 < n < 2 ^ 62 -> read_int n swap r = Some (ok, v, r') -> forward r r'.
Proof.
  intros Hr Hn H. unfold read_int in H. destruct (remaining r n) eqn:E; [|by injection H as <- <- <-].
  apply bind_Some in H as (b & _ & H). injection H as <- <- <-. apply advance_forward; [done|lia|done].
Qed.

Lemma read_word_forward cast r ok v r' :
  reader_ok r -> read_padded_word cast r = Some (ok, v, r') -> forward r r'.
Proof.
  intros Hr H. unfold read_padded_word in H. apply bind_Some in H as ([[ok1 v1] r1] & E1 & H).
  apply read_int_forward in E1 as F1; [|done|lia]. destruct ok1; cbn [negb] in H; [|by injection H as <- <- <-].
  apply bind_Some in H as ([[ok2 v2] r2] & E2 & H). apply read_int_forward in E2 as F2; [|apply F1|lia].
  apply bind_Some in H as (x & -> & H). injection H as <- <- <-. by eapply forward_trans.
Qed.

Lemma read_bytes_forward r n ok v r' :
  reader_ok r -> 0 <= n < 2 ^ 32 -> kmip_reader_read_bytes r n = Some (ok, v, r') -> forward r r'.
Proof.
  intros Hr Hn H. unfold kmip_reader_read_bytes in H. pose proof (padded_bound n Hn).
  destruct (remaining _ _) eqn:E; [|by injection H as <- <- <-].
  apply bind_Some in H as (p & _ & H). injection H as <- <- <-. by apply advance_forward.
Qed.

Lemma next_forward r n : reader_ok r -> forward r (snd (kmip_reader_next r n)).
Proof.
  intros Hr. unfold kmip_reader_next. pose proof (u32_range (compute_padded_length n)).
  destruct (remaining _ _) eqn:E; [|done]. apply advance_forward; [done|lia|done].
Qed.

Lemma read_long_forward r ok v r' :
  reader_ok r -> kmip_reader_read_long_integer r = Some (ok, v, r') -> forward r r'.
Proof.
  intros Hr H. unfold kmip_reader_read_long_integer in H. apply bind_Some in H as ([[ok1 v1] r1] & E1 & H).
  injection H as <- <- <-. by apply read_int_forward in E1; [|done|lia].
Qed.

Lemma read_u64_forward r ok v r' :
  reader_ok r -> kmip_reader_read_u64 r = Some (ok, v, r') -> forward r r'.
Proof. intros Hr E. by apply read_int_forward in E; [|done|lia]. Qed.

Lemma dump_value_forward malloc str r tag type len str' r' :
  reader_ok r -> 0 <= len < 2 ^ 32 -> dump_value malloc str r tag type len = Some (Some (str', r')) -> forward r r'.
Proof.
  intros Hr Hn H. unfold dump_value in H.
  repeat match type of H with
  | (if ?b then _ else _) = _ => destruct b
  | (mbind _ ?m) = Some _ => apply bind_Some in H as (? & ? & H)
  | (let '(_, _) := ?p in _) = _ => destruct p as [[? ?] ?]
  end; simplify_eq/=;
  first [ by apply next_forward | by eapply read_word_forward | by eapply read_bytes_forward
        | by eapply read_long_forward | by eapply read_u64_forward ].
Qed.

(** ** The loop *)

(** A successful read advances by its size. *)
Lemma reads_advance {T} r n (P : T -> Prop) ok (v : option T) r' res :
  reads_ok r n P res -> res = Some (ok, v, r') -> 0 <= n ->
  reader_ok r' /\ same r r' /\ (ok = true -> exists x, v = Some x /\ P x /\ kr_pos r' = kr_pos r + n).
Proof. intros (ok1 & v1 & r1 & -> & Hr & Hs & H) [= <- <- <-] Hn. done. Qed.

Lemma read_tag_forward r ok v r' : reader_ok r -> kmip_reader_read_tag r = Some (ok, v, r') -> forward r r'.
Proof.
  intros Hr H. unfold kmip_reader_read_tag in H. apply bind_Some in H as ([[ok1 v1] r1] & E1 & H).
  apply read_int_forward in E1 as F1; [|done|lia]. destruct ok1; cbn [negb] in H; [|by injection H as <- <- <-].
  apply bind_Some in H as (b & -> & H). destruct (negb (b =? 66)); [by injection H as <- <- <-|].
  apply bind_Some in H as ([[ok2 v2] r2] & E2 & H). apply read_int_forward in E2 as F2; [|apply F1|lia].
  pose proof (forward_trans _ _ _ F1 F2). destruct ok2; cbn [negb] in H; [|by injection H as <- <- <-].
  apply bind_Some in H as (c & -> & H). by injection H as <- <- <-.
Qed.

(** The header of an item: eight bytes on. *)
Lemma header_forward r tag r1 type r2 len r3 :
  reader_ok r -> kmip_reader_read_tag r = Some (true, Some tag, r1) ->
  kmip_reader_read_type r1 = Some (true, Some type, r2) -> kmip_reader_read_length r2 = Some (true, Some len, r3) ->
  forward r r3 /\ kr_pos r3 = kr_pos r + 8 /\ 0 <= len < 2 ^ 32.
Proof.
  intros Hr E1 E2 E3.
  destruct (reads_advance _ _ _ _ _ _ _ (read_tag_safe r Hr) E1 ltac:(lia)) as (H1 & S1 & P1).
  destruct (reads_advance _ _ _ _ _ _ _ (read_int_safe 1 (fun v => v) r1 H1 ltac:(lia)) E2 ltac:(lia)) as (H2 & S2 & P2).
  destruct (reads_advance _ _ _ _ _ _ _ (read_u32_safe r2 H2) E3 ltac:(lia)) as (H3 & S3 & P3).
  destruct (P1 eq_refl) as (? & _ & _ & L1). destruct (P2 eq_refl) as (? & _ & _ & L2).
  destruct (P3 eq_refl) as (n & [= <-] & Hn & L3).
  split; [|lia]. split; [done|]. split; [|lia]. by eapply same_trans; [eapply same_trans|].
Qed.

(** A structure's reader, made inside the length of the reader it came from. *)
Definition inner (r : kmip_reader_t) (sub : option kmip_reader_t) : Prop :=
  forall r', sub = Some r' -> reader_ok r' /\ kr_len r' + 8 <= kr_len r.

Lemma inner_same r r' sub : same r r' -> inner r sub -> inner r' sub.
Proof. intros [_ E] H r1 Hr. rewrite E. by apply H. Qed.

Lemma in_place_inner r n sub made :
  reader_ok r -> 8 <= kr_pos r -> 0 <= n < 2 ^ 32 -> inner r sub ->
  kmip_reader_in_place r (kr_pos r) n = Some made -> inner r (match made with Some r' => Some r' | None => sub end).
Proof.
  intros Hr Hp Hn Hs E. destruct (in_place_safe r n Hr Hn) as (o & E' & Ho). rewrite E in E'. injection E' as <-.
  destruct made as [r1|]; [|done]. intros r' [= <-]. destruct (Ho r1 eq_refl) as (H1 & _ & _ & H2). split; [done|lia].
Qed.

Section Loop.
Context (malloc : Z -> bytes).

(** Two ways of making the recursive calls that agree, and move readers
    forward, where the body makes them: inside, and eight bytes on. *)
Definition agree (rec rec' : kms_request_str_t -> kmip_reader_t -> Z -> option kmip_reader_t ->
    option (kms_request_str_t * kmip_reader_t)) (r : kmip_reader_t) : Prop :=
  forall str1 r1 level1 sub1, reader_ok r1 -> inner r1 sub1 ->
    kr_len r1 + 8 <= kr_len r \/ (kr_len r1 = kr_len r /\ kr_pos r + 8 <= kr_pos r1) ->
    rec str1 r1 level1 sub1 = rec' str1 r1 level1 sub1 /\
    (forall str' r', rec str1 r1 level1 sub1 = Some (str', r') -> forward r1 r').

(** The same result, and a reader further on. *)
Definition settled (r : kmip_reader_t) (x y : option (kms_request_str_t * kmip_reader_t)) : Prop :=
  x = y /\ forall str' r', x = Some (str', r') -> forward r r'.

Lemma settled_bind {A} r (m : option A) f g :
  (forall a, m = Some a -> settled r (f a) (g a)) -> settled r (m ≫= f) (m ≫= g).
Proof. intros H. destruct m as [a|]; [by apply H|done]. Qed.

Lemma settled_Some r str r' : forward r r' -> settled r (Some (str, r')) (Some (str, r')).
Proof. intros Hf. split; [done|]. by intros ? ? [= <- <-]. Qed.

Lemma settled_error r str r' : forward r r' ->
  settled r (str ← dump_error malloc str; Some (str, r')) (str ← dump_error malloc str; Some (str, r')).
Proof. intros Hf. apply settled_bind. intros. by apply settled_Some. Qed.

Lemma settled_forward r r1 x y : forward r r1 -> settled r1 x y -> settled r x y.
Proof. intros Hf [E H]. split; [done|]. intros s r' Hx. eapply forward_trans; [exact Hf|by eapply H]. Qed.

Lemma dump_body_agree rec rec' str r level sub :
  reader_ok r -> inner r sub -> agree rec rec' r ->
  settled r (dump_body malloc rec str r level sub) (dump_body malloc rec' str r level sub).
Proof.
  intros Hr Hs Hrec. unfold dump_body.
  apply settled_bind. intros [[ok1 v1] r1] E1. pose proof (read_tag_forward _ _ _ _ Hr E1) as F1.
  destruct ok1; cbn [negb]; [|by apply settled_Some]. apply settled_bind. intros tag ->.
  apply settled_bind. intros s1 _. apply settled_bind. intros s2 _.
  apply settled_bind. intros [[ok2 v2] r2] E2. apply read_int_forward in E2 as F2; [|apply F1|lia].
  pose proof (forward_trans _ _ _ F1 F2) as F12. destruct ok2; cbn [negb]; [|by apply settled_error].
  apply settled_bind. intros type ->. apply settled_bind. intros s3 _.
  apply settled_bind. intros [[ok3 v3] r3] E3. apply read_int_forward in E3 as F3; [|apply F12|lia].
  pose proof (forward_trans _ _ _ F12 F3) as F13. destruct ok3; cbn [negb]; [|by apply settled_error].
  apply settled_bind. intros len ->. destruct (header_forward _ _ _ _ _ _ _ Hr E1 E2 E3) as (_ & Hp3 & Hlen).
  apply (settled_forward r r3 _ _ F13). destruct F13 as (H3 & S3 & _). pose proof (inner_same _ _ _ S3 Hs) as Hs3.
  pose proof S3 as [_ L3]. destruct Hr as (Hp & _). destruct (type =? _).
  - apply settled_bind. intros made Em. apply (in_place_inner _ _ _ _ H3 ltac:(lia) Hlen Hs3) in Em as Hi.
    apply settled_bind. intros s4 _. apply settled_bind. intros sr Esr. destruct (Hi sr Esr) as [Hsr Lsr].
    destruct (Hrec s4 sr (u32 (level + 1)) None Hsr) as [<- Hf]; [done|left; lia|].
    apply settled_bind. intros [s5 sr'] Er. destruct (Hf _ _ Er) as (Hsr' & [_ Lsr'] & _).
    apply settled_bind. intros s6 _. apply settled_bind. intros s7 _.
    pose proof (next_forward r3 len H3) as Fn. apply (settled_forward _ _ _ _ Fn). destruct Fn as (Hn & [_ Ln] & Pn).
    apply Hrec; [done| |right; lia]. intros ? [= <-]. split; [done|lia].
  - apply settled_bind. intros [[s4 r4]|] Ev; [|by apply settled_error].
    apply settled_bind. intros s5 _. pose proof (dump_value_forward _ _ _ _ _ _ _ _ H3 Hlen Ev) as Fv.
    apply (settled_forward _ _ _ _ Fv). destruct Fv as (H4 & S4 & P4).
    apply Hrec; [done|by eapply inner_same|right; destruct S4; lia].
Qed.

(** The fuel needed by a reader: its rest, and what structures within its length
    may need. *)
Definition need (r : kmip_reader_t) : Z := kr_len r * kr_len r + (kr_len r - kr_pos r).

Lemma need_decreases r r1 : reader_ok r -> reader_ok r1 ->
  kr_len r1 + 8 <= kr_len r \/ (kr_len r1 = kr_len r /\ kr_pos r + 8 <= kr_pos r1) -> need r1 < need r.
Proof. intros (Hp & _ & _) (Hp1 & _ & _). unfold need. intros [H|[-> H]]; nia. Qed.

Lemma dump_loop_settled spent spent' fuel : forall fuel' str r level sub,
  reader_ok r -> inner r sub -> need r < Z.of_nat fuel -> need r < Z.of_nat fuel' ->
  settled r (dump_loop malloc spent fuel str r level sub) (dump_loop malloc spent' fuel' str r level sub).
Proof.
  induction fuel as [|fuel IH]; intros fuel' str r level sub Hr Hs Hf Hf';
    (assert (0 <= need r) by (destruct Hr as ((? & ?) & _ & _); unfold need; nia)); [lia|].
  destruct fuel' as [|fuel']; [lia|]. cbn [dump_loop].
  apply (dump_body_agree (dump_loop malloc spent fuel) (dump_loop malloc spent' fuel') str r level sub Hr Hs).
  intros s1 r1 level1 sub1 H1 Hs1 Hd. pose proof (need_decreases r r1 Hr H1 Hd). apply IH; [done|done|lia|lia].
Qed.

(** The steps [kmip_dump] is given are enough for any message. *)
Lemma dump_fuel_enough spent fuel data len str :
  0 <= len <= zlen data -> len < 2 ^ 62 -> (dump_fuel len <= fuel)%nat ->
  dump_loop malloc spent fuel str (kmip_reader_new data len) 0 None =
    kmip_dump_recursive_xml malloc (dump_fuel len) str (kmip_reader_new data len) 0.
Proof.
  intros Hl Hlim Hf. unfold dump_fuel in *.
  assert (Hn : need (kmip_reader_new data len) < Z.of_nat (Z.to_nat ((len + 1) * (len + 1)))) by (unfold need; cbn; nia).
  apply (dump_loop_settled spent None fuel _ str (kmip_reader_new data len) 0 None); [unfold reader_ok; cbn; lia|done|lia|done].
Qed.
End Loop.
