(* ===== verification/PrintInvalidArrays.v ===== *)
(** The command line tool [investigations/print-invalid-arrays]: its walk
    over a document ([visit]), what it writes to standard output, and the
    specification of that output. *)

From Stdlib Require Import Strings.String.
From S2P Require Import Prelude CString Text IntEncode BsonTypes BsonIter BsonIterSafe BsonSpec.
From S2P Require Import BsonIterSpec BsonIterFind.

(** ** The program *)

(** [path] is the C string's contents. *)
Record visitor_state_t := VisitorState { depth : Z; path : bytes; is_array : bool }.

Definition type_to_string (t : bson_type_t) : bytes :=
  match t with
  | BSON_TYPE_EOD => txt "eod"
  | BSON_TYPE_DOUBLE => txt "double"
  | BSON_TYPE_UTF8 => txt "utf8"
  | BSON_TYPE_DOCUMENT => txt "document"
  | BSON_TYPE_ARRAY => txt "array"
  | BSON_TYPE_BINARY => txt "binary"
  | BSON_TYPE_UNDEFINED => txt "undefined"
  | BSON_TYPE_OID => txt "oid"
  | BSON_TYPE_BOOL => txt "bool"
  | BSON_TYPE_DATE_TIME => txt "date_time"
  | BSON_TYPE_NULL => txt "null"
  | BSON_TYPE_REGEX => txt "regex"
  | BSON_TYPE_DBPOINTER => txt "dbpointer"
  | BSON_TYPE_CODE => txt "code"
  | BSON_TYPE_SYMBOL => txt "symbol"
  | BSON_TYPE_CODEWSCOPE => txt "codewscope"
  | BSON_TYPE_INT32 => txt "int32"
  | BSON_TYPE_TIMESTAMP => txt "timestamp"
  | BSON_TYPE_INT64 => txt "int64"
  | BSON_TYPE_DECIMAL128 => txt "decimal128"
  | BSON_TYPE_MAXKEY => txt "maxkey"
  | BSON_TYPE_MINKEY => txt "minkey"
  end.

Definition newline : bytes := [z2b 10].

(** [printf ("'%s': \[%s\]\n", key, type)] *)
Definition element_line (name ty : bytes) : bytes :=
  txt "'" ++ name ++ txt "': [" ++ ty ++ txt "]" ++ newline.

(** [printf ("%s.%s", path, key)] *)
Definition dotted (p k : bytes) : bytes := p ++ txt "." ++ k.

(** The keys of the remaining elements, separated by [", "]: the second
    [while] loop. *)
Fixpoint print_keys (fuel : nat) (it : bson_iter_t) (first : bool) (out : bytes) : option bytes :=
  match fuel with
  | O => None
  | S fuel' =>
      '(ok, it) ← bson_iter_next it;
      if negb ok then Some out else
      key ← bson_iter_key it;
      k ← cstr key;
      print_keys fuel' it true (out ++ (if first then txt ", " else []) ++ k)
  end.

Section Visit.
(** The recursive call. *)
Context (visit : visitor_state_t -> bson_iter_t -> bytes -> option bytes).

(** The recursion of one element, with the state it builds. *)
Definition visit_child (state : visitor_state_t) (it : bson_iter_t) (k out : bytes) : option bytes :=
  is_doc ← iter_holds BSON_TYPE_DOCUMENT it;
  is_arr ← iter_holds BSON_TYPE_ARRAY it;
  if is_doc || is_arr then
    child ← bson_iter_recurse it;
    c ← child;
    let path' := if depth state =? 1 then k else dotted (path state) k in
    visit (VisitorState (u32 (depth state + 1)) path' is_arr) c out
  else Some out.

(** The first [while] loop: the updated [has_invalid_keys] and output. *)
Fixpoint visit_loop (fuel : nat) (state : visitor_state_t) (it : bson_iter_t) (index : Z)
    (has_invalid_keys : bool) (out : bytes) : option (bool * bytes) :=
  match fuel with
  | O => None
  | S fuel' =>
      '(ok, it) ← bson_iter_next it;
      if negb ok then Some (has_invalid_keys, out) else
      key ← bson_iter_key it;
      k ← cstr key;
      code ← bson_iter_type it;
      bson_type ← type_of_code code;
      c ← (if is_array state then strcmp key (dec index ++ [x00]) else Some 0);
      let has_invalid_keys := if c =? 0 then has_invalid_keys else true in
      let name := if depth state =? 1 then k else dotted (path state) k in
      let out := out ++ element_line name (type_to_string bson_type) in
      out ← visit_child state it k out;
      visit_loop fuel' state it (u64 (index + 1)) has_invalid_keys out
  end.

Definition visit_body (state : visitor_state_t) (iter : bson_iter_t) (out : bytes) : option bytes :=
  let state := VisitorState (u32 (depth state + 1)) (path state) (is_array state) in
  let start := iter in
  '(has_invalid_keys, out) ← visit_loop (iter_fuel iter) state iter 0 false out;
  if (has_invalid_keys : bool) then
    out ← print_keys (iter_fuel start) start false
            (out ++ txt "'" ++ path state ++ txt "' has invalid array keys: ");
    Some (out ++ newline)
  else Some out.
End Visit.

(** [visit]: the nesting is bounded by the fuel. *)
Fixpoint visit (fuel : nat) (state : visitor_state_t) (iter : bson_iter_t) (out : bytes) : option bytes :=
  match fuel with
  | O => None
  | S fuel' => visit_body (visit fuel') state iter out
  end.

(** The body of the loop of [main], for one document; [BSON_ASSERT] on
    [bson_iter_init]. *)
Definition visit_document (data : bytes) (len : Z) (out : bytes) : option bytes :=
  let '(ok, iter) := bson_iter_init data len in
  if ok then visit (S (Z.to_nat len)) (VisitorState 0 [] false) iter out else None.

(** ** Memory safety and termination on arbitrary bytes *)

Lemma print_keys_total fuel it first out :
  iter_wf it -> iter_left it < Z.of_nat fuel -> is_Some (print_keys fuel it first out).
Proof.
  revert it first out. induction fuel as [|fuel IH]; intros it first out Hwf Hf.
  { unfold iter_left in Hf. destruct (it_raw it); lia. }
  cbn [print_keys]. destruct (next_fuel_step fuel it Hwf Hf) as (ok & it' & -> & Hp). sbind.
  destruct ok; cbn [negb]; [|by eexists]. destruct Hp as (m & t & _ & Hon & Hwf' & Hf').
  destruct (iter_on_key _ _ _ Hon) as (k & rest & -> & Hk & _). sbind. rewrite cstr_app by done. sbind.
  by apply IH.
Qed.

Lemma iter_on_bson_type m t it : iter_on m t it -> bson_iter_type it = Some (type_code t).
Proof.
  intros Hon. pose proof (iter_on_holds m t it BSON_TYPE_EOD Hon) as H.
  unfold iter_holds, bson_iter_type in *. destruct (it_len it =? 0); [done|].
  apply (iter_on_type _ _ _ Hon).
Qed.

Section Total.
Context (rec : visitor_state_t -> bson_iter_t -> bytes -> option bytes) (bound : Z).
Hypothesis Hrec : forall st d l out, iter_wf (iter_start d l) -> l < bound ->
  is_Some (rec st (iter_start d l) out).

Lemma visit_child_total st m t it k out :
  iter_on m t it -> it_len it <= bound -> is_Some (visit_child rec st it k out).
Proof.
  intros Hon Hl. unfold visit_child. rewrite !(iter_on_holds _ _ _ _ Hon). sbind.
  destruct (bool_decide (t = BSON_TYPE_DOCUMENT) || bool_decide (t = BSON_TYPE_ARRAY)) eqn:E; [|by eexists].
  destruct (bson_iter_recurse_on m t it Hon) as (d & l & -> & _ & _ & Hwf & Hn).
  { apply orb_true_iff in E. rewrite !bool_decide_eq_true in E. done. }
  sbind. apply Hrec; [done|]. destruct Hon as (_ & _ & _ & ? & _ & ? & ? & ? & _). lia.
Qed.

Lemma visit_loop_total fuel st it index bad out :
  iter_wf it -> iter_left it < Z.of_nat fuel -> it_len it <= bound ->
  is_Some (visit_loop rec fuel st it index bad out).
Proof.
  revert it index bad out. induction fuel as [|fuel IH]; intros it index bad out Hwf Hf Hb.
  { unfold iter_left in Hf. destruct (it_raw it); lia. }
  cbn [visit_loop]. destruct (bson_iter_next_post it Hwf) as (ok & it' & E & Hp). rewrite E. sbind.
  destruct ok; cbn [negb]; [|by eexists]. destruct Hp as (m & t & Hr & Hon & Hlen & _).
  destruct (iter_on_key _ _ _ Hon) as (k & rest & -> & Hk & _). sbind. rewrite cstr_app by done. sbind.
  rewrite (iter_on_bson_type _ _ _ Hon). sbind. rewrite type_of_code_code. sbind.
  assert (is_Some (if is_array st then strcmp (k ++ x00 :: rest) (dec index ++ [x00]) else Some 0)) as [c ->].
  { destruct (is_array st); [|by eexists].
    destruct (strcmp_spec k (dec index) rest [] Hk (dec_no_nul _)) as (r & -> & _). by eexists. }
  sbind.
  destruct (visit_child_total st m t it' k (out ++ element_line
    (if depth st =? 1 then k else dotted (path st) k) (type_to_string t)) Hon) as [out' ->]; [lia|].
  sbind. apply IH; [by eapply iter_on_wf| |lia]. pose proof (iter_left_next _ _ Hwf E). lia.
Qed.

Lemma visit_body_total st d l out :
  iter_wf (iter_start d l) -> l <= bound -> is_Some (visit_body rec st (iter_start d l) out).
Proof.
  intros Hwf Hb. unfold visit_body.
  destruct (visit_loop_total (iter_fuel (iter_start d l))
    (VisitorState (u32 (depth st + 1)) (path st) (is_array st)) (iter_start d l) 0 false out Hwf)
    as [[bad out'] ->]; [by apply iter_left_fuel|done|].
  sbind. destruct bad; [|by eexists].
  edestruct (print_keys_total (iter_fuel (iter_start d l)) (iter_start d l) false) as [o E];
    [done|by apply iter_left_fuel|]. rewrite E. by eexists.
Qed.
End Total.

Lemma visit_total fuel st d l out :
  iter_wf (iter_start d l) -> l < Z.of_nat fuel -> is_Some (visit fuel st (iter_start d l) out).
Proof.
  revert st d l out. induction fuel as [|fuel IH]; intros st d l out Hwf Hf.
  { unfold iter_wf in Hwf. cbn in Hwf. lia. }
  cbn [visit]. apply (visit_body_total _ l); [|done|lia].
  intros st' d' l' out' Hwf' Hl'. apply IH; [done|lia].
Qed.

(** ** Specification of the output *)

Definition keys_of (d : doc) : list bytes := map fst d.

(** The keys of an array are the decimal numerals 0, 1, 2, ... *)
Definition array_keys_ok (d : doc) : bool :=
  bool_decide (keys_of d = map (fun i => dec (Z.of_nat i)) (seq 0 (length d))).

(** Keys separated by [", "]. *)
Fixpoint join_keys (ks : list bytes) : bytes :=
  match ks with
  | [] => []
  | [k] => k
  | k :: ks' => k ++ txt ", " ++ join_keys ks'
  end.

(** The line after the elements of an array whose keys are not 0, 1, 2, ... *)
Definition invalid_line (p : bytes) (arr : bool) (d : doc) : bytes :=
  if arr && negb (array_keys_ok d)
  then txt "'" ++ p ++ txt "' has invalid array keys: " ++ join_keys (keys_of d) ++ newline else [].

(** The report on the elements below the value [v] at path [p]. *)
Fixpoint report_val (p : bytes) (v : bval) : bytes :=
  let go := fix go (d : doc) : bytes :=
    match d with
    | [] => []
    | (k, v) :: d' =>
        element_line (dotted p k) (type_to_string (bval_type v)) ++ report_val (dotted p k) v ++ go d'
    end in
  match v with
  | BDocument d => go d ++ invalid_line p false d
  | BArray d => go d ++ invalid_line p true d
  | _ => []
  end.

Definition child_path (root : bool) (p k : bytes) : bytes := if root then k else dotted p k.

Fixpoint report_elems (root : bool) (p : bytes) (d : doc) : bytes :=
  match d with
  | [] => []
  | (k, v) :: d' =>
      element_line (child_path root p k) (type_to_string (bval_type v)) ++
      report_val (child_path root p k) v ++ report_elems root p d'
  end.

(** The report on a whole document of the file. *)
Definition report_doc (d : doc) : bytes := report_elems true [] d.

Lemma report_val_doc p v :
  report_val p v =
  match v with
  | BDocument d => report_elems false p d ++ invalid_line p false d
  | BArray d => report_elems false p d ++ invalid_line p true d
  | _ => []
  end.
Proof.
  assert (E : forall d, (fix go (d : doc) : bytes :=
    match d with
    | [] => []
    | (k, v) :: d' =>
        element_line (dotted p k) (type_to_string (bval_type v)) ++ report_val (dotted p k) v ++ go d'
    end) d = report_elems false p d).
  { induction d as [|[k v'] d IH]; [done|]. cbn [report_elems child_path]. by rewrite IH. }
  destruct v; try done; cbn [report_val]; by rewrite E.
Qed.

(** ** The program implements the specification *)

Lemma print_keys_spec d : forall fuel pre rest len it first out,
  wf_elems d -> len = zlen pre + zlen (enc_elems d) + 1 ->
  at_pos pre (enc_elems d ++ x00 :: rest) len it -> (length d < fuel)%nat ->
  print_keys fuel it first out =
    Some (out ++ (if first then concat (map (fun k => txt ", " ++ k) (keys_of d))
                  else join_keys (keys_of d))).
Proof.
  induction d as [|[k v] d IH]; intros [|fuel] pre rest len it first out Hwf Hl Hat Hf;
    simpl in Hf; try lia; cbn [print_keys].
  - destruct (next_end pre rest len it) as (it' & -> & _); [done|rewrite Hl; simpl; zl|]. sbind.
    cbn [negb keys_of map concat join_keys]. f_equal. destruct first; by rewrite app_nil_r.
  - apply Forall_cons_1 in Hwf as [He Hd]. rewrite enc_elems_cons in *. rewrite <- app_assoc in Hat.
    rewrite (next_elem pre (k, v) (enc_elems d ++ x00 :: rest) len it He) by (done || zl). sbind. cbn [negb].
    rewrite bson_iter_key_elem. sbind. destruct He as [Hk _]. rewrite cstr_app by done. sbind.
    destruct Hat as (_ & _ & _ & Hp & Hm).
    rewrite (IH fuel (pre ++ enc_elem (k, v)) rest len); [|done|zl|by apply at_pos_next|lia].
    f_equal. rewrite <- !app_assoc. f_equal. unfold keys_of. cbn [map fst concat].
    destruct first; [by rewrite <- app_assoc|]. cbn [app].
    clear. destruct d as [|[k2 v2] d]; [by rewrite app_nil_r|]. cbn [map fst concat].
    change (join_keys (k :: k2 :: map fst d)) with (k ++ txt ", " ++ join_keys (k2 :: map fst d)).
    f_equal. rewrite <- app_assoc. f_equal. generalize k2. clear. induction (map fst d) as [|k3 l IH]; intros k2.
    + by rewrite app_nil_r.
    + cbn [map concat]. rewrite <- app_assoc. rewrite (IH k3). done.
Qed.

(** The flag the first loop computes: some key differs from its index. *)
Fixpoint keys_from (i : Z) (d : doc) : bool :=
  match d with
  | [] => true
  | (k, _) :: d' => bool_decide (k = dec i) && keys_from (i + 1) d'
  end.

Lemma keys_from_ok d : keys_from 0 d = array_keys_ok d.
Proof.
  unfold array_keys_ok. change 0 with (Z.of_nat 0). generalize 0%nat. induction d as [|[k v] d IH]; intros n.
  - by rewrite bool_decide_eq_true_2.
  - cbn [keys_from keys_of map fst length seq]. replace (Z.of_nat n + 1) with (Z.of_nat (S n)) by lia.
    rewrite IH. unfold keys_of. rewrite <- bool_decide_and. apply bool_decide_ext.
    split; [by intros [-> ->]|by intros [= -> ->]].
Qed.

Section Spec.
Context (rec : visitor_state_t -> bson_iter_t -> bytes -> option bytes) (bound : Z).

(** What the recursive call prints for a sub-document. *)
Hypothesis Hrec : forall n p arr d rest out, 1 <= n -> 2 * zlen (enc_doc d) + n < 2 ^ 32 ->
  wf_elems d -> zlen (enc_doc d) < bound -> zlen (enc_doc d) < 2 ^ 31 ->
  rec (VisitorState n p arr) (iter_start (enc_doc d ++ rest) (zlen (enc_doc d))) out =
    Some (out ++ report_elems false p d ++ invalid_line p arr d).

Lemma visit_child_spec st pre k v post len out :
  on_value (pre ++ [z2b (type_code (bval_type v))] ++ k ++ [x00]) v post (elem_iter pre (k, v) post len) ->
  len <> 0 -> zlen (enc_val v) < bound -> 1 <= depth st -> 2 * zlen (enc_val v) + depth st + 1 < 2 ^ 32 ->
  visit_child rec st (elem_iter pre (k, v) post len) k out =
    Some (out ++ report_val (child_path (depth st =? 1) (path st) k) v).
Proof.
  intros Hon Hl Hb Hd1 Hd. unfold visit_child. rewrite !(on_value_holds _ _ _ _ _ _ Hon eq_refl) by done. sbind.
  rewrite (bson_iter_recurse_value _ _ _ _ Hon), report_val_doc. fold (child_path (depth st =? 1) (path st) k).
  pose proof (on_value_doc _ _ _ _ Hon) as Hs. rewrite u32_id by zl.
  destruct v; cbn [bval_type type_code Z.eqb Pos.eqb orb]; sbind; try (by rewrite app_nil_r);
    destruct Hs as [Hwf Hsz]; rewrite ?enc_val_document, ?enc_val_array in *.
  - rewrite Hrec; try done; lia.
  - rewrite Hrec; try done; lia.
Qed.

Lemma visit_loop_spec st d : forall fuel pre rest len it i bad out,
  wf_elems d -> len = zlen pre + zlen (enc_elems d) + 1 -> len <= bound ->
  at_pos pre (enc_elems d ++ x00 :: rest) len it -> (length d < fuel)%nat ->
  0 <= i -> i + zlen d < 2 ^ 64 -> 1 <= depth st -> 2 * len + depth st <= 2 ^ 32 ->
  visit_loop rec fuel st it i bad out =
    Some (bad || (is_array st && negb (keys_from i d)),
          out ++ report_elems (depth st =? 1) (path st) d).
Proof.
  induction d as [|[k v] d IH]; intros [|fuel] pre rest len it i bad out Hwf Hl Hb Hat Hf Hi Hi2 Hd1 Hd;
    simpl in Hf; try lia; cbn [visit_loop].
  - destruct (next_end pre rest len it) as (it' & -> & _); [done|rewrite Hl; simpl; zl|]. sbind.
    cbn [negb keys_from report_elems]. by rewrite andb_false_r, orb_false_r, app_nil_r.
  - apply Forall_cons_1 in Hwf as [He Hwf]. rewrite enc_elems_cons in *. rewrite <- app_assoc in Hat.
    rewrite (next_elem pre (k, v) (enc_elems d ++ x00 :: rest) len it He) by (done || zl). sbind. cbn [negb].
    rewrite bson_iter_key_elem. sbind. pose proof (proj1 He) as Hk. cbn [fst] in Hk.
    rewrite cstr_app by done. sbind.
    destruct Hat as (_ & _ & _ & Hp & Hm). pose proof (zlen_enc_elem (k, v)) as Hz. cbn [fst snd] in Hz.
    pose proof (elem_iter_on_value pre (k, v) (enc_elems d ++ x00 :: rest) len He ltac:(zl)) as Hon.
    cbn [fst snd] in Hon.
    assert (Hty : bson_iter_type (elem_iter pre (k, v) (enc_elems d ++ x00 :: rest) len) =
      Some (type_code (bval_type v))).
    { unfold bson_iter_type, bson_iter_type_unsafe. destruct Hon as (_ & -> & _).
      unfold elem_iter. isimpl. destruct (Z.eqb_spec len 0); [zl|done]. }
    rewrite Hty. sbind. rewrite type_of_code_code. sbind.
    assert (Hc : exists c, (if is_array st then strcmp (k ++ x00 :: enc_val v ++ enc_elems d ++ x00 :: rest)
      (dec i ++ [x00]) else Some 0) = Some c /\
      (c =? 0) = negb (is_array st) || bool_decide (k = dec i)).
    { destruct (is_array st); [|by exists 0]. cbn [negb orb].
      destruct (strcmp_spec k (dec i) (enc_val v ++ enc_elems d ++ x00 :: rest) [] Hk (dec_no_nul i))
        as (r & E & Hr). exists r. split; [done|]. destruct (Z.eqb_spec r 0); case_bool_decide; tauto. }
    destruct Hc as (c & -> & Hc). sbind. rewrite Hc.
    rewrite visit_child_spec by (done || zl). sbind. rewrite zlen_cons in Hi2. rewrite u64_id by zl.
    rewrite (IH fuel (pre ++ enc_elem (k, v)) rest len);
      [|done|zl|done|by apply at_pos_next|lia|lia|lia|lia|lia].
    cbn [keys_from report_elems]. fold (child_path (depth st =? 1) (path st) k). rewrite <- !app_assoc.
    do 2 f_equal. destruct (is_array st), bad, (bool_decide (k = dec i)); done.
Qed.

Lemma visit_body_spec n p arr d rest out :
  0 <= n -> 2 * zlen (enc_doc d) + n < 2 ^ 32 -> wf_elems d -> zlen (enc_doc d) <= bound ->
  zlen (enc_doc d) < 2 ^ 31 -> (n = 0 -> arr = false) ->
  visit_body rec (VisitorState n p arr) (iter_start (enc_doc d ++ rest) (zlen (enc_doc d))) out =
    Some (out ++ report_elems (n =? 0) p d ++ invalid_line p arr d).
Proof.
  intros Hn Hn2 Hwf Hb Hm Harr. unfold visit_body. cbn [depth path is_array]. rewrite u32_id by zl.
  pose proof (at_pos_start d rest Hm) as Hat. pose proof (length_enc_elems d) as Hlen.
  assert (Hsz : zlen (enc_doc d) = zlen (le_bytes 4 (zlen (enc_doc d))) + zlen (enc_elems d) + 1)
    by (rewrite zlen_enc_doc at 1; zl).
  erewrite (visit_loop_spec (VisitorState (n + 1) p arr) d); try eassumption; cbn [depth]; try lia.
  2: apply doc_fuel.
  2: { unfold zlen in *. lia. }
  sbind. cbn [depth path is_array orb]. replace (n + 1 =? 1) with (n =? 0)
    by (destruct (Z.eqb_spec n 0), (Z.eqb_spec (n + 1) 1); lia || done).
  unfold invalid_line. rewrite keys_from_ok.
  destruct (arr && negb (array_keys_ok d)).
  - erewrite print_keys_spec; try eassumption; [|apply doc_fuel]. sbind. by rewrite <- !app_assoc.
  - by rewrite app_nil_r.
Qed.
End Spec.

Lemma visit_spec fuel n p arr d rest out :
  1 <= n -> 2 * zlen (enc_doc d) + n < 2 ^ 32 -> wf_elems d ->
  zlen (enc_doc d) < Z.of_nat fuel -> zlen (enc_doc d) < 2 ^ 31 ->
  visit fuel (VisitorState n p arr) (iter_start (enc_doc d ++ rest) (zlen (enc_doc d))) out =
    Some (out ++ report_elems false p d ++ invalid_line p arr d).
Proof.
  revert n p arr d rest out. induction fuel as [|fuel IH]; intros n p arr d rest out Hn H2 Hwf Hf Hm; [zl|].
  cbn [visit]. rewrite (visit_body_spec _ (zlen (enc_doc d))); try done; try lia.
  - by rewrite (proj2 (Z.eqb_neq n 0)) by lia.
  - intros. apply IH; try done; lia.
Qed.

(** One document of the file. *)
Lemma visit_document_spec d rest out :
  wf_doc d -> visit_document (enc_doc d ++ rest) (zlen (enc_doc d)) out = Some (out ++ report_doc d).
Proof.
  intros [Hwf Hm]. unfold BSON_MAX_SIZE in Hm. unfold visit_document, bson_iter_init.
  destruct (Z.ltb_spec (zlen (enc_doc d)) 5); [rewrite zlen_enc_doc in *; zl|]. cbn [visit].
  rewrite (visit_body_spec _ (zlen (enc_doc d))); try done; try lia.
  - by rewrite app_nil_r.
  - intros. apply visit_spec; try done; lia.
Qed.

(** The length argument is the buffer's: what [main] passes for each document
    read from the file. *)
Lemma visit_document_total data len out :
  5 <= len <= zlen data -> len < 2 ^ 31 -> is_Some (visit_document data len out).
Proof.
  intros Hl Hm. unfold visit_document, bson_iter_init. destruct (Z.ltb_spec len 5); [lia|].
  apply visit_total; [apply iter_start_wf; lia|lia].
Qed.
