(* ===== verification/PrintInvalidArraysMain.v ===== *)
(** The whole command line tool: [main] of print-invalid-arrays.c over the
    reader of [BsonReader] and a file of the operating system. *)

From Stdlib Require Import Strings.String.
From S2P Require Import Prelude CString Text IntEncode BsonTypes BsonIter BsonIterSafe BsonSpec.
From S2P Require Import BsonIterSpec BsonIterFind BsonView BsonReader BsonReaderSpec PrintInvalidArrays.

(** ** The program *)

(** How the process ends, with what it wrote to the two streams. *)
Record exited := Exited { exit_status : Z; stdout : bytes; stderr : bytes }.

Section Main.
Context {OS : Type} (os : os_calls OS) (malloc : Z -> bytes) (source_file : bytes).
Implicit Types (reader : bson_reader_t (bson_reader_handle_fd_t OS)) (s : OS) (out : bytes).

(** [FAILF], on a line of the source file. *)
Definition failf (line : Z) (text out : bytes) : exited :=
  Exited 1 out (source_file ++ txt ":" ++ dec line ++ txt " FAIL: " ++ text ++ newline).

(** The [while (true)] loop: at most [rounds] documents, each read with [fuel].
    The reader is returned for [bson_reader_destroy]. *)
Fixpoint main_loop (rounds fuel : nat) (path : bytes) reader out :
    option (exited + bytes * bson_reader_t (bson_reader_handle_fd_t OS)) :=
  match rounds with
  | O => None
  | S rounds' =>
      '(bson, reached_eof, reader) ← bson_reader_read malloc fuel reader;
      match bson with
      | None =>
          if (reached_eof : bool) then Some (inr (out, reader))
          else Some (inl (failf 151 (txt "Failed to read document from file '" ++ path ++ txt "'") out))
      | Some (data, len) =>
          out ← visit_document data len out;
          main_loop rounds' fuel path reader out
      end
  end.

(** [argv] holds the strings after one another; [tries] bounds the repetitions
    of an interrupted read. *)
Definition main (tries rounds fuel : nat) (argv : list bytes) s : option exited :=
  match argv with
  | [_; path] =>
      r ← bson_reader_new_from_file os tries path s;
      match r with
      | inl (error, s) =>
          Some (failf 141 (txt "Failed to open file '" ++ path ++ txt "': " ++ err_message error) [])
      | inr reader =>
          x ← main_loop rounds fuel path reader [];
          match x with
          | inl e => Some e
          | inr (out, reader) => _ ← bson_reader_destroy reader; Some (Exited 0 out [])
          end
      end
  | argv0 :: _ => Some (failf 133 (txt "Usage: " ++ argv0 ++ txt " <file>.bson") [])
  | [] => None
  end.
End Main.

(** ** Reading a file *)

(** A read of an open file, after some attempts that are told to try again. *)
Inductive os_reads {OS : Type} (os : os_calls OS) (fd len : Z) : nat -> OS -> Z -> bytes -> OS -> Prop :=
  | reads_now s ret got errno s' :
      os_read os fd len s = (ret, got, errno, s') -> (ret = -1 -> errno <> EAGAIN) -> os_reads os fd len 0 s ret got s'
  | reads_again k s got0 s1 ret got s' :
      os_read os fd len s = (-1, got0, EAGAIN, s1) -> os_reads os fd len k s1 ret got s' ->
      os_reads os fd len (S k) s ret got s'.

(** A file open as [fd]: reads give its bytes from the current position on, in
    pieces of any size, until there are none left; then they return [fin], 0 or, for
    an error, -1. *)
Class OpenFile {OS : Type} (os : os_calls OS) (tries : nat) (fd : Z) (content : OS -> bytes) (fin : Z) : Prop := {
  open_fd : fd <> -1;
  open_fin : fin <= 0;
  open_reads : forall s len, 0 < len -> exists k ret got s', (k < tries)%nat /\ os_reads os fd len k s ret got s' /\
    content s = got ++ content s' /\ ret <= len /\ (0 < ret /\ zlen got = ret \/ ret = fin /\ got = [] /\ content s = [])
}.

(** A read that gives less than it is asked for gives all that is left: a regular file. *)
Definition regular {OS : Type} (os : os_calls OS) (fd : Z) (content : OS -> bytes) : Prop :=
  forall k s len ret got s', os_reads os fd len k s ret got s' -> zlen got < len -> content s' = [].

Lemma fd_read_again_reads {OS : Type} (os : os_calls OS) fd c len k s ret got s' :
  os_reads os fd len k s ret got s' -> forall tries, (k < tries)%nat ->
  fd_read_again os tries (HandleFd fd c s) len = Some (ret, got, HandleFd fd c s').
Proof.
  induction 1 as [s ret got errno s' E Hr|k s got0 s1 ret got s' E _ IH]; intros [|tries] Hk; try lia;
    cbn [fd_read_again fd_fd fd_os fd_do_close]; rewrite E.
  - destruct (Z.eqb_spec ret (-1)); [|done]. destruct (Z.eqb_spec errno EAGAIN); [by destruct Hr|done].
  - cbn. apply IH. lia.
Qed.
Lemma fd_read_again_inv {OS : Type} (os : os_calls OS) fd len tries : forall c s ret got h,
  fd_read_again os tries (HandleFd fd c s) len = Some (ret, got, h) ->
  exists k s', h = HandleFd fd c s' /\ os_reads os fd len k s ret got s'.
Proof.
  induction tries as [|tries IH]; intros c s ret got h E; [done|]. cbn [fd_read_again fd_fd fd_os fd_do_close] in E.
  destruct (os_read os fd len s) as [[[ret1 got1] errno] s1] eqn:Er. destruct ((ret1 =? -1) && (errno =? EAGAIN)) eqn:Ea.
  - apply andb_true_iff in Ea as [->%Z.eqb_eq ->%Z.eqb_eq]. destruct (IH _ _ _ _ _ E) as (k & s' & -> & Hr). exists (S k), s'. split; [done|]. by eapply reads_again.
  - injection E as -> -> <-. exists 0%nat, s1. split; [done|]. eapply reads_now; [exact Er|]. intros -> ->. done.
Qed.

Section FdReads.
Context {OS : Type} (os : os_calls OS) (tries : nat) (fd : Z) (content : OS -> bytes) (fin : Z) `{!OpenFile os tries fd content fin}.
Abbreviation fd_read := (_bson_reader_handle_fd_read os tries).
Abbreviation fd_valid := (fun h : bson_reader_handle_fd_t OS => fd_fd h = fd).
Abbreviation fd_content := (fun h : bson_reader_handle_fd_t OS => content (fd_os h)).

Lemma fd_read_eq c s len : fd_read (HandleFd fd c s) len = fd_read_again os tries (HandleFd fd c s) len.
Proof using fin OpenFile0.
  unfold _bson_reader_handle_fd_read. cbn [fd_fd]. destruct (Z.eqb_spec fd (-1)) as [E|_]; [by destruct (open_fd E)|done].
Qed.

#[export] Instance fd_reads_stream : ReadsStream fd_read fd_valid fd_content fin.
Proof.
  split; [exact open_fin|]. intros [fd' c s] len Hfd Hl. cbn in Hfd. subst fd'.
  destruct (open_reads s len Hl) as (k & ret & got & s' & Hk & Hr & Hc & Hle & Hcase).
  exists ret, got, (HandleFd fd c s'). rewrite fd_read_eq, (fd_read_again_reads _ _ _ _ _ _ _ _ _ Hr) by done. done.
Qed.

Lemma regular_whole : regular os fd content -> whole_reads fd_read fd_valid fd_content.
Proof using OpenFile0.
  intros Hreg [fd' c s] len ret got h Hfd E Hlt. cbn in Hfd. subst fd'. rewrite fd_read_eq in E.
  destruct (fd_read_again_inv _ _ _ _ _ _ _ _ _ E) as (k & s' & -> & Hr). by eapply Hreg.
Qed.

(** ** The result *)

(** The file's documents, then the rest. *)
Definition file_bytes (ds : list doc) (rest : bytes) : bytes := concat (map enc_doc ds) ++ rest.
Definition report (ds : list doc) : bytes := concat (map report_doc ds).

(** The files that are followed: no document of the file claims to be larger than
    1 GiB; or the file is a regular one of less than 2 GiB, with any bytes. *)
Definition file_ok (s : bytes) : Prop := stream_ok s \/ regular os fd content /\ zlen s < 2 ^ 31.

Lemma file_ok_next s : file_ok s -> size_followed fd_read fd_valid fd_content s /\ forall d rest, stream_next s = StreamDoc d rest -> file_ok rest.
Proof using OpenFile0.
  intros [Hs|[Hreg Hs]].
  - split; [left; by destruct Hs|]. intros d rest E. left. inversion Hs as [? ? [E'|E']|? ? ? ? E' Hr]; rewrite E in E'; by simplify_eq.
  - split; [right; split; [by apply regular_whole|done]|]. intros d rest E. right. split; [done|].
    apply stream_next_doc in E as (-> & Hd & _). rewrite zlen_app in Hs. lia.
Qed.
End FdReads.

Section Results.
Context {OS : Type} (os : os_calls OS) (malloc : Z -> bytes) (source_file path : bytes).
Hypothesis Hmalloc : forall n, 0 <= n -> zlen (malloc n) = n.
Context (tries : nat) (fd : Z) (content : OS -> bytes) (fin : Z) `{!OpenFile os tries fd content fin}.

Abbreviation at_file := (at_stream (_bson_reader_handle_fd_read os tries) (fun h => fd_fd h = fd) (fun h => content (fd_os h)) fin).
Abbreviation ok := (file_ok os fd content).

Definition failed_read (out : bytes) : exited :=
  failf source_file 151 (txt "Failed to read document from file '" ++ path ++ txt "'") out.

(** What [main_loop] returns on documents followed by [rest]. *)
Definition loop_result (rest out : bytes)
    (x : option (exited + bytes * bson_reader_t (bson_reader_handle_fd_t OS))) : Prop :=
  match stream_next rest with
  | StreamEnd => if fin =? 0 then exists r, x = Some (inr (out, BSON_READER_HANDLE r)) else x = Some (inl (failed_read out))
  | StreamBad => x = Some (inl (failed_read out))
  | StreamDoc _ _ => True
  end.

Lemma main_loop_spec ds : forall rounds fuel r pos rest out,
  at_file r pos (file_bytes ds rest) -> Forall wf_doc ds -> ok (file_bytes ds rest) ->
  (length ds < rounds)%nat -> zlen (file_bytes ds rest) < Z.of_nat fuel ->
  loop_result rest (out ++ report ds)
    (main_loop malloc source_file rounds fuel path (BSON_READER_HANDLE r) out).
Proof.
  induction ds as [|d ds IH]; intros rounds fuel r pos rest out Hat Hds Hok Hr Hf;
    (destruct rounds as [|rounds]; [simpl in Hr; lia|]); cbn [main_loop bson_reader_read];
    destruct (file_ok_next os tries fd content fin _ Hok) as [Hs Hnext];
    pose proof (at_stream_read malloc _ _ _ fin Hmalloc fuel r pos _ Hat Hs Hf) as Hx.
  - rewrite app_nil_r. change (file_bytes [] rest) with rest in *. unfold loop_result. destruct (stream_next rest); [..|done].
    + destruct Hx as (r' & -> & _). sbind. destruct (fin =? 0); [by eexists|done].
    + destruct Hx as (r' & ->). done.
  - apply Forall_cons_1 in Hds as [Hwf Hds].
    assert (E : file_bytes (d :: ds) rest = enc_doc d ++ file_bytes ds rest)
      by (unfold file_bytes; cbn [map concat]; by rewrite <- app_assoc).
    rewrite E in *. pose proof (stream_next_enc d (file_bytes ds rest) (proj2 Hwf)) as Hn.
    rewrite Hn in Hx. destruct Hx as (p & r' & -> & Hat'). sbind.
    rewrite visit_document_spec by done. sbind.
    replace (out ++ report (d :: ds)) with ((out ++ report_doc d) ++ report ds)
      by (unfold report; cbn [map concat]; by rewrite app_assoc).
    apply (IH rounds fuel r' (pos + zlen (enc_doc d))); try done; [by eapply Hnext|simpl in Hr; lia|].
    rewrite zlen_app in Hf. pose proof (zlen_nonneg (enc_doc d)). lia.
Qed.

(** The reader [main] reads with. *)
Lemma main_opens argv0 s errno s' rounds fuel :
  os_open os path s = (fd, errno, s') -> zlen (content s') < 2 ^ 63 ->
  exists r, main os malloc source_file tries rounds fuel [argv0; path] s =
    (x ← main_loop malloc source_file rounds fuel path (BSON_READER_HANDLE r) [];
     match x with
     | inl e => Some e
     | inr (out, reader) => _ ← bson_reader_destroy reader; Some (Exited 0 out [])
     end) /\
  (content s' <> [] \/ fin = 0 -> at_file r 0 (content s')) /\
  (content s' = [] -> forall fuel, _bson_reader_handle_read malloc fuel r = Some (None, true, r)).
Proof.
  intros Ho Hz. unfold main, bson_reader_new_from_file. rewrite Ho.
  destruct (Z.eqb_spec fd (-1)) as [E|_]; [by destruct (open_fd E)|].
  unfold bson_reader_new_from_fd. destruct (Z.eqb_spec fd (-1)) as [E|_]; [by destruct (open_fd E)|].
  destruct (new_from_handle_spec malloc _ (fun h => fd_fd h = fd) (fun h => content (fd_os h)) fin (HandleFd fd true s')
    (Some (_bson_reader_handle_fd_destroy os)) eq_refl Hz) as (r & -> & Hat). sbind. by exists r.
Qed.

(** How the tool ends after the documents. *)
Definition main_end (s rest : bytes) : bytes -> exited :=
  match stream_next rest with
  | StreamEnd => if (fin =? 0) || bool_decide (s = []) then fun out => Exited 0 out [] else failed_read
  | _ => failed_read
  end.

Lemma main_spec argv0 s errno s' ds rest rounds fuel :
  os_open os path s = (fd, errno, s') -> content s' = file_bytes ds rest -> Forall wf_doc ds ->
  ok (content s') -> zlen (content s') < 2 ^ 63 -> (forall d rest', stream_next rest <> StreamDoc d rest') ->
  (length ds < rounds)%nat -> zlen (content s') < Z.of_nat fuel ->
  main os malloc source_file tries rounds fuel [argv0; path] s = Some (main_end (content s') rest (report ds)).
Proof.
  intros Ho Hc Hds Hok Hz Hno Hr Hf. destruct (main_opens argv0 s errno s' rounds fuel Ho Hz) as (r & -> & Hat & Hempty).
  unfold main_end. destruct (decide (content s' = [] /\ fin <> 0)) as [[E Hfin]|Hne].
  - rewrite bool_decide_true, orb_true_r by done. specialize (Hempty E). rewrite E in Hc. unfold file_bytes in Hc. symmetry in Hc. apply app_eq_nil in Hc as [Hc ->].
    destruct ds as [|d ds]; [|cbn in Hc; apply app_eq_nil in Hc as [Hc _]; apply (f_equal zlen) in Hc; rewrite zlen_enc_doc in Hc; change (zlen (@nil byte)) with 0 in Hc; pose proof (zlen_nonneg (enc_elems d)); lia].
    destruct rounds as [|rounds]; [simpl in Hr; lia|]. cbn [main_loop bson_reader_read]. rewrite Hempty. done.
  - assert (Hat' : at_file r 0 (content s')) by (apply Hat; destruct (decide (fin = 0)); [by right|left; tauto]).
    assert (Hb : (fin =? 0) || bool_decide (content s' = []) = (fin =? 0)) by (destruct (Z.eqb_spec fin 0); [done|]; apply bool_decide_false; tauto).
    rewrite Hb, Hc in *. pose proof (main_loop_spec ds rounds fuel r 0 rest [] Hat' Hds Hok Hr Hf) as Hx. rewrite app_nil_l in Hx.
    unfold loop_result in Hx. destruct (stream_next rest); [|by rewrite Hx|by destruct (Hno d rest0)].
    destruct (fin =? 0); [destruct Hx as (r' & ->); done|by rewrite Hx].
Qed.

Lemma main_loop_total rounds : forall s fuel r pos out,
  at_file r pos s -> ok s -> zlen s < Z.of_nat rounds -> zlen s < Z.of_nat fuel ->
  exists x, main_loop malloc source_file rounds fuel path (BSON_READER_HANDLE r) out = Some x /\
    forall out' r', x = inr (out', r') -> exists rh, r' = BSON_READER_HANDLE rh.
Proof.
  induction rounds as [|rounds IH]; intros s fuel r pos out Hat Hok Hr Hf; [pose proof (zlen_nonneg s); lia|]. cbn [main_loop bson_reader_read].
  destruct (file_ok_next os tries fd content fin _ Hok) as [Hs Hnext].
  pose proof (at_stream_read malloc _ _ _ fin Hmalloc fuel r pos s Hat Hs Hf) as Hx. destruct (stream_next s) as [| |d rest] eqn:Hn.
  - destruct Hx as (r' & -> & _). sbind. destruct (fin =? 0); eexists; (split; [done|]); [|done]. intros ? ? [= _ <-]. by eexists.
  - destruct Hx as (r' & ->). eexists. by split.
  - destruct Hx as (p & r' & -> & Hat'). sbind. specialize (Hnext d rest eq_refl).
    apply stream_next_doc in Hn as (-> & Hd & _). rewrite zlen_app in Hr, Hf.
    destruct (visit_document_total (d ++ p) (zlen d) out) as [out' ->]; [rewrite zlen_app; pose proof (zlen_nonneg p); lia|lia|].
    sbind. apply (IH rest fuel r' (pos + zlen d)); (done || lia).
Qed.

(** Whatever the file holds, and whether its end is an error or not, the tool ends. *)
Lemma main_total argv0 s errno s' rounds fuel :
  os_open os path s = (fd, errno, s') -> ok (content s') -> zlen (content s') < 2 ^ 63 ->
  zlen (content s') < Z.of_nat rounds -> zlen (content s') < Z.of_nat fuel ->
  exists e, main os malloc source_file tries rounds fuel [argv0; path] s = Some e.
Proof.
  intros Ho Hok Hz Hr Hf. destruct (main_opens argv0 s errno s' rounds fuel Ho Hz) as (r & -> & Hat & Hempty).
  destruct (decide (content s' = [])) as [E|Hne].
  - specialize (Hempty E). destruct rounds as [|rounds]; [rewrite E in Hr; done|]. cbn [main_loop bson_reader_read]. rewrite Hempty. by eexists.
  - destruct (main_loop_total rounds (content s') fuel r 0 [] (Hat (or_introl Hne)) Hok Hr Hf) as (x & -> & Hx). sbind.
    destruct x as [e|[out r']]; [by eexists|]. destruct (Hx out r' eq_refl) as [rh ->]. by eexists.
Qed.
End Results.
