(* ===== verification/ReadTheorems.v ===== *)
(** The main results on reading documents: the command line tool, the
    iterator, searching, the validator, UTF-8 and whole-document queries. Each
    theorem with hypotheses is followed by an instance on a concrete document. *)

From Stdlib Require Import Strings.String.
From S2P Require Import Prelude CString Text IntEncode BsonTypes BsonIter BsonIterSafe BsonSpec.
From S2P Require Import BsonIterSpec BsonIterFind Utf8 BsonView Validate ValidateSpec.
From S2P Require Import PrintInvalidArrays.

(** ** A sample document

    [{a: \[1, null\], b: "x", c: {d: true}}], with the second key of the array
    being 2 instead of 1. *)
Definition sample : doc :=
  [(txt "a", BArray [(txt "0", BInt32 1); (txt "2", BNull)]);
   (txt "b", BUtf8 (txt "x"));
   (txt "c", BDocument [(txt "d", BBool true)])].

Ltac wf_sample :=
  repeat match goal with
  | |- wf_elems _ => constructor
  | |- Forall _ _ => constructor
  | |- wf_elem _ => split; cbn [fst snd]
  | |- no_nul _ => apply no_nulb_spec; reflexivity
  | |- wf_val (BDocument _) => apply wf_val_document
  | |- wf_val (BArray _) => apply wf_val_array
  | |- wf_val (BInt32 _) => cbn; unfold is_s32; lia
  | |- wf_val _ => exact I
  end.

Lemma sample_wf : wf_elems sample.
Proof. unfold sample. wf_sample. Qed.

Lemma sample_size : zlen (enc_doc sample) = 44.
Proof. vm_compute. reflexivity. Qed.

Lemma sample_wf_doc : wf_doc sample.
Proof. split; [exact sample_wf|]. rewrite sample_size. unfold BSON_MAX_SIZE. lia. Qed.

(** ** The command line tool *)

(** C4. The report on a document: one line per element with its dotted path and
    type, depth first, and after each array whose keys are not 0, 1, 2, ... the
    list of its keys. *)
Theorem tool_reports d rest out :
  wf_doc d -> visit_document (enc_doc d ++ rest) (zlen (enc_doc d)) out = Some (out ++ report_doc d).
Proof. apply visit_document_spec. Qed.

Lemma tool_reports_sample :
  visit_document (enc_doc sample) (zlen (enc_doc sample)) [] =
    Some (txt "'a': [array]" ++ newline ++ txt "'a.0': [int32]" ++ newline ++ txt "'a.2': [null]" ++ newline ++
          txt "'a' has invalid array keys: 0, 2" ++ newline ++ txt "'b': [utf8]" ++ newline ++
          txt "'c': [document]" ++ newline ++ txt "'c.d': [bool]" ++ newline).
Proof.
  pose proof (tool_reports sample [] [] sample_wf_doc) as H. rewrite !app_nil_r in H.
  vm_compute in H. vm_compute. exact H.
Defined.

(** C5. On arbitrary bytes the tool's walk stays inside the buffer and
    terminates. *)
Theorem tool_safe data len out :
  5 <= len <= zlen data -> len < 2 ^ 31 -> is_Some (visit_document data len out).
Proof. apply visit_document_total. Qed.

(** A document that claims a string longer than its buffer. *)
Definition hostile : bytes := le_bytes 4 13 ++ [z2b 2; z2b 97; x00] ++ le_bytes 4 4000 ++ [z2b 120; x00].

Lemma tool_safe_hostile : is_Some (visit_document hostile 13 []).
Proof. apply tool_safe; [split; vm_compute; congruence|lia]. Defined.

(** ** The iterator *)

(** C6. Iterating an encoded document yields its elements in order, each with
    its key and value, and ends without an error. *)
Theorem iterate_document d rest :
  wf_doc d ->
  exists its fin,
    iter_collect (iter_fuel (iter_start (enc_doc d ++ rest) (zlen (enc_doc d))))
      (iter_start (enc_doc d ++ rest) (zlen (enc_doc d))) = Some (its, fin) /\
    it_raw fin = None /\ it_err_off fin = 0 /\
    Forall2 (fun e it => exists krest post,
      bson_iter_key it = Some (e.1 ++ x00 :: krest) /\
      bson_iter_value it = Some (Some (value_of e.2 post))) d its.
Proof.
  intros [Hwf Hm]. unfold BSON_MAX_SIZE in Hm.
  destruct (iter_collect_elems d (le_bytes 4 (zlen (enc_doc d))) rest (zlen (enc_doc d))
    (iter_start (enc_doc d ++ rest) (zlen (enc_doc d))) Hwf) with
    (fuel := iter_fuel (iter_start (enc_doc d ++ rest) (zlen (enc_doc d)))) as (fin & E & Hf & He);
    [rewrite zlen_enc_doc; zl|apply at_pos_start; lia|done|apply doc_fuel|].
  eexists _, fin. split; [exact E|]. split; [done|]. split; [done|].
  apply elem_iters_values; [done|]. rewrite zlen_enc_doc in Hm. lia.
Qed.

Lemma iterate_document_sample :
  exists its fin,
    iter_collect (iter_fuel (iter_start (enc_doc sample ++ []) (zlen (enc_doc sample))))
      (iter_start (enc_doc sample ++ []) (zlen (enc_doc sample))) = Some (its, fin) /\
    it_raw fin = None /\ it_err_off fin = 0 /\
    Forall2 (fun e it => exists krest post,
      bson_iter_key it = Some (e.1 ++ x00 :: krest) /\
      bson_iter_value it = Some (Some (value_of e.2 post))) sample its.
Proof. apply (iterate_document sample []). exact sample_wf_doc. Defined.

(** C7. One step on arbitrary memory: nothing outside the buffer is read, a
    success moves forward onto an element all of whose accessors are in
    bounds, a failure leaves an iterator that stays at the end. *)
Theorem next_safe it :
  iter_wf it ->
  exists ok it', bson_iter_next it = Some (ok, it') /\
    if ok then exists m t v, it_raw it = Some m /\ iter_on m t it' /\ it_len it' = it_len it /\
                 it_off it' = it_next_off it /\ it_next_off it < it_next_off it' /\
                 bson_iter_value it' = Some (Some v)
    else it_raw it' = None /\ bson_iter_next it' = Some (false, it').
Proof.
  intros Hwf. destruct (bson_iter_next_post it Hwf) as (ok & it' & E & H). exists ok, it'.
  split; [done|]. destruct ok.
  - destruct H as (m & t & Hr & Hon & Hl & Ho & Hn & _). destruct (bson_iter_value_on m t it' Hon) as [v Hv].
    by exists m, t, v.
  - destruct H as [Hr _]. split; [done|]. unfold bson_iter_next, _bson_iter_next_internal. by rewrite Hr.
Qed.

Lemma next_safe_hostile :
  exists ok it', bson_iter_next (iter_start hostile 13) = Some (ok, it') /\
    if ok then exists m t v, Some hostile = Some m /\ iter_on m t it' /\ it_len it' = 13 /\
                 it_off it' = 4 /\ 4 < it_next_off it' /\ bson_iter_value it' = Some (Some v)
    else it_raw it' = None /\ bson_iter_next it' = Some (false, it').
Proof. apply (next_safe (iter_start hostile 13)). apply iter_start_wf; [split; vm_compute; congruence|lia]. Defined.

(** ** The validator *)

(** C8. [bson_validate] accepts an encoded document exactly when it is valid
    for the flags: text, keys, DBRefs and code scopes, to a nesting depth of
    500. *)
Theorem validate_decides d rest flags :
  wf_doc d ->
  exists okay, bson_validate (enc_doc d ++ rest) (zlen (enc_doc d)) flags = Some okay /\
    (okay = true <-> valid_doc 501 (params_of_flags flags) d).
Proof. apply bson_validate_decides. Qed.

Lemma validate_decides_sample :
  exists okay, bson_validate (enc_doc sample ++ []) (zlen (enc_doc sample)) 0 = Some okay /\
    (okay = true <-> valid_doc 501 (params_of_flags 0) sample).
Proof. apply (validate_decides sample [] 0). exact sample_wf_doc. Defined.

(** C9. The validator is defined on arbitrary bytes; it reports an error code
    exactly when it rejects. *)
Theorem validate_safe levels p data len self :
  0 <= len <= zlen data -> len < 2 ^ 31 -> err_code (v_error self) = 0 ->
  exists okay self', _validate_doc levels p data len self = Some (okay, self') /\
    (okay = true <-> err_code (v_error self') = 0).
Proof.
  intros Hl Hm He. destruct (vgood_doc levels p data len Hl Hm self) as (okay & self' & E & Ht & Hf).
  exists okay, self'. split; [done|]. split.
  - intros Hok. by rewrite Ht.
  - intros H0. destruct okay; [done|]. by apply Hf in H0.
Qed.

Lemma validate_safe_hostile :
  exists okay self', _validate_doc 501 (params_of_flags 0) hostile 13 validator_init = Some (okay, self') /\
    (okay = true <-> err_code (v_error self') = 0).
Proof. apply validate_safe; [split; vm_compute; congruence|lia|reflexivity]. Defined.

(** ** Searching *)

(** [bson_iter_find_w_len] stops on the first element with the key, and
    fails when there is none. *)
Theorem find_first d s s' rest :
  wf_elems d -> no_nul s -> zlen (enc_doc d) < 2 ^ 31 ->
  let it := iter_start (enc_doc d ++ rest) (zlen (enc_doc d)) in
  match doc_split d s with
  | Some (d1, e, d2) =>
      bson_iter_find_w_len it (s ++ s') (zlen s) =
        Some (true, elem_iter (le_bytes 4 (zlen (enc_doc d)) ++ enc_elems d1) e
                      (enc_elems d2 ++ x00 :: rest) (zlen (enc_doc d)))
  | None => exists it', bson_iter_find_w_len it (s ++ s') (zlen s) = Some (false, it')
  end.
Proof. apply bson_iter_find_w_len_spec. Qed.

Lemma find_first_sample :
  bson_iter_find_w_len (iter_start (enc_doc sample ++ []) (zlen (enc_doc sample))) (txt "b" ++ [x00]) (zlen (txt "b")) =
    Some (true, elem_iter (le_bytes 4 (zlen (enc_doc sample)) ++ enc_elems (take 1 sample)) (txt "b", BUtf8 (txt "x"))
                  (enc_elems (drop 2 sample) ++ [x00]) (zlen (enc_doc sample))).
Proof.
  apply (find_first sample (txt "b") [x00] []).
  - exact sample_wf.
  - apply no_nulb_spec. reflexivity.
  - rewrite sample_size. lia.
Defined.

(** C11. [bson_iter_find_descendant] follows a dotted path through documents and
    arrays to the value the path denotes, or fails when it denotes none. *)
Theorem find_path d path rest t :
  wf_elems d -> zlen (enc_doc d) < 2 ^ 31 -> path <> [] -> Forall path_key path ->
  zlen (join_path path) < 2 ^ 31 ->
  exists r, bson_iter_find_descendant (iter_start (enc_doc d ++ rest) (zlen (enc_doc d)))
    (join_path path ++ x00 :: t) = Some r /\
  match doc_lookup d path with
  | Some v => exists P post it, r = Some it /\ on_value P v post it
  | None => r = None
  end.
Proof. apply bson_iter_find_descendant_spec. Qed.

Lemma path_key_txt k : no_nulb k = true -> existsb (byte_eqb dot) k = false -> path_key k.
Proof.
  intros Hn Hd. split; [by apply no_nulb_spec|]. intros Hin. apply not_true_iff_false in Hd. apply Hd.
  apply existsb_exists. exists dot. split; [by apply list_elem_of_In|apply byte_eqb_refl].
Qed.

Lemma find_path_sample :
  exists r, bson_iter_find_descendant (iter_start (enc_doc sample ++ []) (zlen (enc_doc sample)))
    (txt "c.d" ++ [x00]) = Some r /\
  exists P post it, r = Some it /\ on_value P (BBool true) post it.
Proof.
  apply (find_path sample [txt "c"; txt "d"] [] []).
  - exact sample_wf.
  - rewrite sample_size. lia.
  - discriminate.
  - constructor; [|constructor; [|constructor]]; apply path_key_txt; reflexivity.
  - vm_compute. congruence.
Defined.

(** ** UTF-8 *)

(** C16. [bson_utf8_validate] decides whether the bytes are UTF-8 text, with or
    without NUL characters. *)
Theorem utf8_validate_decides s rest allow :
  exists r, bson_utf8_validate (s ++ rest) (zlen s) allow = Some r /\ (r = true <-> utf8_text allow s).
Proof. apply bson_utf8_validate_spec. Qed.

(** Cutting valid text at any length keeps exactly the complete characters
    before the cut. *)
Theorem utf8_truncate_whole s rest len :
  utf8_text true s -> 0 <= len <= zlen s ->
  exists s1 s2 frag, s = s1 ++ s2 /\ utf8_text true s1 /\ utf8_text true s2 /\
    mcommon_utf8_truncate_len (s ++ rest) len = Some (zlen s1) /\
    take (Z.to_nat len) s = s1 ++ frag /\
    (frag = [] \/ exists item more, utf8_item true item /\ item = frag ++ more /\ more <> []).
Proof. apply mcommon_utf8_truncate_len_spec. Qed.

(** The euro sign after an ASCII letter, cut inside the sign. *)
Lemma utf8_truncate_whole_euro :
  exists s1 s2 frag, utf8_enc 101 ++ utf8_enc 0x20AC = s1 ++ s2 /\ utf8_text true s1 /\ utf8_text true s2 /\
    mcommon_utf8_truncate_len ((utf8_enc 101 ++ utf8_enc 0x20AC) ++ []) 3 = Some (zlen s1) /\
    take (Z.to_nat 3) (utf8_enc 101 ++ utf8_enc 0x20AC) = s1 ++ frag /\
    (frag = [] \/ exists item more, utf8_item true item /\ item = frag ++ more /\ more <> []).
Proof.
  apply (utf8_truncate_whole (utf8_enc 101 ++ utf8_enc 0x20AC) [] 3).
  - exists [utf8_enc 101; utf8_enc 0x20AC]. split; [reflexivity|].
    constructor; [|constructor; [|constructor]]; (apply item_scalar; [split; lia|discriminate]).
  - split; vm_compute; congruence.
Defined.

(** Decoding the encoding of a Unicode scalar value gives it back and
    moves past it; the decoder accepts what the encoder writes. *)
Theorem utf8_roundtrip c rest :
  scalar c ->
  bson_utf8_get_char (bson_utf8_from_unichar c ++ rest) = Some c /\
  bson_utf8_next_char (bson_utf8_from_unichar c ++ rest) = Some rest /\
  bson_utf8_validate (bson_utf8_from_unichar c ++ rest) (zlen (bson_utf8_from_unichar c)) true = Some true.
Proof.
  intros Hc. unfold bson_utf8_from_unichar. pose proof Hc as [Hr _].
  rewrite mcommon_utf8_from_unichar_enc by lia. destruct (bson_utf8_get_char_enc c rest Hr) as [-> ->].
  split; [done|]. split; [done|].
  destruct (bson_utf8_validate_spec (utf8_enc c) rest true) as (r & -> & Hv). f_equal. apply Hv.
  exists [utf8_enc c]. simpl. rewrite app_nil_r. split; [done|]. constructor; [|constructor].
  apply item_scalar; [done|discriminate].
Qed.

Lemma utf8_roundtrip_emoji : bson_utf8_get_char (bson_utf8_from_unichar 0x1F600 ++ [x00]) = Some 0x1F600.
Proof. apply (utf8_roundtrip 0x1F600 [x00]). split; lia. Defined.

(** ** Queries *)

(** [bson_has_field] on a dotted path answers whether the path denotes a
    value. *)
Theorem has_field_decides d path rest t :
  wf_elems d -> zlen (enc_doc d) < 2 ^ 31 -> path <> [] -> Forall path_key path ->
  zlen (join_path path) < 2 ^ 31 ->
  bson_has_field (enc_doc d ++ rest) (zlen (enc_doc d)) (join_path path ++ x00 :: t) =
    Some (bool_decide (is_Some (doc_lookup d path))).
Proof. apply bson_has_field_spec. Qed.

Lemma has_field_decides_sample :
  bson_has_field (enc_doc sample ++ []) (zlen (enc_doc sample)) (txt "a.1" ++ [x00]) = Some false.
Proof.
  apply (has_field_decides sample [txt "a"; txt "1"] [] []).
  - exact sample_wf.
  - rewrite sample_size. lia.
  - discriminate.
  - constructor; [|constructor; [|constructor]]; apply path_key_txt; reflexivity.
  - vm_compute. congruence.
Defined.

(** [bson_count_keys] counts the elements. *)
Theorem count_keys_length d rest :
  wf_elems d -> zlen (enc_doc d) < 2 ^ 31 ->
  bson_count_keys (enc_doc d ++ rest) (zlen (enc_doc d)) = Some (zlen d).
Proof. apply bson_count_keys_enc. Qed.

Lemma count_keys_length_sample : bson_count_keys (enc_doc sample ++ []) (zlen (enc_doc sample)) = Some 3.
Proof. apply (count_keys_length sample [] sample_wf). rewrite sample_size. lia. Defined.

(** [bson_equal] on two encoded documents is equality of their encodings. *)
Theorem equal_decides d ra e rb :
  zlen (enc_doc d) < 2 ^ 31 -> zlen (enc_doc e) < 2 ^ 31 ->
  bson_equal (enc_doc d ++ ra) (zlen (enc_doc d)) (enc_doc e ++ rb) (zlen (enc_doc e)) =
    Some (bool_decide (enc_doc d = enc_doc e)).
Proof.
  intros Hd He. rewrite bson_equal_spec by (rewrite zlen_enc_doc in *; zl). f_equal. apply bool_decide_ext.
  assert (Hdrop : forall x, drop 4 (enc_doc x) = enc_elems x ++ [x00]).
  { intros x. rewrite enc_doc_eq. apply (drop_app_length (le_bytes 4 (zlen (enc_doc x)))). }
  rewrite !Hdrop. split; [|intros Heq%(f_equal (drop 4)); by rewrite !Hdrop in Heq].
  intros H. rewrite (enc_doc_eq d), (enc_doc_eq e), H. do 2 f_equal. apply (f_equal zlen) in H. rewrite !zlen_app in H.
  rewrite !zlen_enc_doc. lia.
Qed.

Lemma equal_decides_sample :
  bson_equal (enc_doc sample ++ []) (zlen (enc_doc sample)) (enc_doc sample ++ [x00]) (zlen (enc_doc sample)) =
    Some (bool_decide (enc_doc sample = enc_doc sample)).
Proof. apply equal_decides; rewrite sample_size; lia. Defined.
