(* ===== verification/ToolTheorems.v ===== *)
(** The main results on the command line tool as a whole, and on the reader it
    takes its documents from. *)

From Stdlib Require Import Strings.String.
From S2P Require Import Prelude CString Text IntEncode BsonTypes BsonIter BsonIterSafe BsonSpec.
From S2P Require Import BsonIterSpec BsonView BsonReader BsonReaderSpec PrintInvalidArrays PrintInvalidArraysMain.
From S2P Require Import ReadTheorems.

(** ** Sample systems

    One file, read at most seven bytes at a time; every other read is told to
    try again, and at the end of the file it returns [fin]. *)
Definition sample_read (fin fd len : Z) (s : bool * bytes) : Z * bytes * Z * (bool * bytes) :=
  if s.1 then (-1, [], EAGAIN, (false, s.2))
  else let got := take (Z.to_nat (Z.min 7 len)) s.2 in
    (if zlen got =? 0 then fin else zlen got, got, 5, (true, drop (length got) s.2)).

Definition sample_os (fin : Z) : os_calls (bool * bytes) :=
  OsCalls (fun _ s => (3, 0, s)) (sample_read fin) (fun _ s => s) (fun _ => None).

Lemma sample_os_now fin len b : fin <= 0 -> 0 < len -> exists ret got,
  os_reads (sample_os fin) 3 len 0 (false, b) ret got (true, drop (length got) b) /\ b = got ++ drop (length got) b /\
  ret <= len /\ (0 < ret /\ zlen got = ret \/ ret = fin /\ got = [] /\ b = []).
Proof.
  intros Hfin Hl. set (got := take (Z.to_nat (Z.min 7 len)) b). exists (if zlen got =? 0 then fin else zlen got), got.
  assert (Hg : length got = (Z.to_nat (Z.min 7 len) `min` length b)%nat) by (subst got; by rewrite length_take).
  split; [by apply (reads_now _ _ _ _ _ _ 5)|].
  assert (Ed : drop (length got) b = drop (Z.to_nat (Z.min 7 len)) b).
  { rewrite Hg. destruct (Nat.min_spec (Z.to_nat (Z.min 7 len)) (length b)) as [[? ->]|[? ->]]; [done|].
    by rewrite !drop_ge by lia. }
  split; [rewrite Ed; subst got; by rewrite take_drop|]. pose proof (zlen_nonneg got). destruct (Z.eqb_spec (zlen got) 0) as [E|E].
  - split; [lia|]. right. split; [done|]. split; [by apply zlen_0|]. unfold zlen in E. apply nil_length_inv. lia.
  - split; [unfold zlen in *; lia|]. left. split; [lia|done].
Qed.

#[export] Instance sample_file fin : TCEq (fin <=? 0) true -> OpenFile (sample_os fin) 2 3 snd fin.
Proof.
  intros Hfin%TCEq_eq%Z.leb_le. split; [done|done|]. intros [[|] b] len Hl; destruct (sample_os_now fin len b Hfin Hl) as (ret & got & Hr & Hb & H).
  - exists 1%nat, ret, got, (true, drop (length got) b). split; [lia|]. split; [|done].
    eapply reads_again; [reflexivity|exact Hr].
  - exists 0%nat, ret, got, (true, drop (length got) b). split; [lia|]. split; [exact Hr|done].
Qed.

(** A regular file: a read gives what it is asked for, or all that is left. *)
Definition regular_os : os_calls bytes :=
  OsCalls (fun _ s => (3, 0, s)) (fun _ len s => let got := take (Z.to_nat len) s in (zlen got, got, 0, drop (Z.to_nat len) s))
    (fun _ s => s) (fun _ => None).

#[export] Instance regular_file : OpenFile regular_os 1 3 (fun s => s) 0.
Proof.
  split; [done|done|]. intros s len Hl. eexists 0%nat, _, (take (Z.to_nat len) s), (drop (Z.to_nat len) s). split; [lia|].
  split; [by apply (reads_now _ _ _ _ _ _ 0)|]. rewrite take_drop. split; [done|]. assert (zlen (take (Z.to_nat len) s) <= len) by (unfold zlen; rewrite length_take; lia).
  split; [done|]. destruct s as [|c s]; [right; by rewrite take_nil|left]. split; [|done]. unfold zlen. rewrite length_take. cbn. lia.
Qed.
Lemma regular_os_regular : regular regular_os 3 (fun s => s).
Proof.
  intros k s len ret got s' Hr Hlt. destruct Hr as [s ret got errno s' E _|k s got0 s1 ret got s' E _]; [|cbn in E; injection E as E _ E0 _; done].
  cbn in E. injection E as _ <- _ <-. apply drop_ge. unfold zlen in Hlt. rewrite length_take in Hlt. lia.
Qed.

Lemma sample_stream : stream_ok (file_bytes [sample; sample] []).
Proof.
  assert (Hn : forall rest, stream_next (enc_doc sample ++ rest) = StreamDoc (enc_doc sample) rest) by (intros; apply stream_next_enc, sample_wf_doc).
  eapply (ok_doc _ _ (enc_doc sample ++ [])); [intros _; vm_compute; congruence|exact (Hn (enc_doc sample ++ []))|].
  eapply (ok_doc _ _ []); [intros _; vm_compute; congruence|exact (Hn [])|].
  apply ok_stop; [intros E; vm_compute in E; by destruct E|by left].
Qed.

(** ** The tool *)

(** C1. On a file of well-formed documents the tool exits with status 0 and
    prints the reports on the documents in order, whatever the sizes of the
    reads and of the buffer; no document is larger than 1 GiB, or the file is a
    regular one of less than 2 GiB. *)
Theorem main_reports {OS} (os : os_calls OS) malloc file path argv0 tries fd content s errno s' ds rounds fuel
    `{!OpenFile os tries fd content 0} :
  (forall n, 0 <= n -> zlen (malloc n) = n) ->
  os_open os path s = (fd, errno, s') -> content s' = file_bytes ds [] -> Forall wf_doc ds ->
  file_ok os fd content (content s') -> zlen (content s') < 2 ^ 63 ->
  (length ds < rounds)%nat -> zlen (content s') < Z.of_nat fuel ->
  main os malloc file tries rounds fuel [argv0; path] s = Some (Exited 0 (report ds) []).
Proof.
  intros Hm Ho Hc Hds Hok Hz Hr Hf. by apply (main_spec os malloc file path Hm tries fd content 0 argv0 s errno s' ds [] rounds fuel).
Qed.

Lemma main_reports_sample :
  main (sample_os 0) zeros (txt "main.c") 2 3 100 [txt "tool"; txt "f.bson"] (true, file_bytes [sample; sample] []) =
    Some (Exited 0 (report [sample; sample]) []) /\
  main regular_os zeros (txt "main.c") 1 3 100 [txt "tool"; txt "f.bson"] (file_bytes [sample; sample] []) =
    Some (Exited 0 (report [sample; sample]) []).
Proof.
  split.
  - apply (main_reports (sample_os 0) zeros _ _ _ 2 3 snd _ 0 (true, file_bytes [sample; sample] []) [sample; sample] 3 100).
    + exact zlen_zeros.
    + reflexivity.
    + reflexivity.
    + constructor; [exact sample_wf_doc|]. constructor; [exact sample_wf_doc|constructor].
    + left. exact sample_stream.
    + vm_compute. reflexivity.
    + simpl. lia.
    + vm_compute. reflexivity.
  - apply (main_reports regular_os zeros _ _ _ 1 3 (fun s => s) _ 0 (file_bytes [sample; sample] []) [sample; sample] 3 100).
    + exact zlen_zeros.
    + reflexivity.
    + reflexivity.
    + constructor; [exact sample_wf_doc|]. constructor; [exact sample_wf_doc|constructor].
    + right. split; [exact regular_os_regular|vm_compute; reflexivity].
    + vm_compute. reflexivity.
    + simpl. lia.
    + vm_compute. reflexivity.
Defined.

(** C2. The tool ends, within its bounds on documents and reads and without
    undefined behaviour, on every regular file of less than 2 GiB, whatever its
    bytes; and on any file, read in pieces of any size, whose documents do not
    claim to be larger than 1 GiB, whatever they hold. The reads may also end with
    an error. *)
Theorem main_terminates {OS} (os : os_calls OS) malloc file path argv0 tries fd content fin s errno s' rounds fuel
    `{!OpenFile os tries fd content fin} :
  (forall n, 0 <= n -> zlen (malloc n) = n) ->
  os_open os path s = (fd, errno, s') ->
  regular os fd content /\ zlen (content s') < 2 ^ 31 \/ stream_ok (content s') /\ zlen (content s') < 2 ^ 63 ->
  zlen (content s') < Z.of_nat rounds -> zlen (content s') < Z.of_nat fuel ->
  exists e, main os malloc file tries rounds fuel [argv0; path] s = Some e.
Proof.
  intros Hm Ho Hok Hr Hf. apply (main_total os malloc file path Hm tries fd content fin argv0 s errno s'); try done.
  - destruct Hok as [Hok|[Hok _]]; [by right|by left].
  - destruct Hok as [[_ ?]|[_ ?]]; lia.
Qed.

Lemma stream_ok_hostile : stream_ok (hostile ++ txt "?").
Proof.
  eapply (ok_doc _ hostile (txt "?")); [intros _; vm_compute; congruence|vm_compute; reflexivity|].
  apply ok_stop; [intros E; vm_compute in E; by destruct E|left; reflexivity].
Qed.

(** A text file, whose first bytes claim a document of 1.7 GiB, and a hostile
    document followed by a read error. *)
Lemma main_terminates_hostile :
  (exists e, main regular_os zeros (txt "main.c") 1 100 100 [txt "tool"; txt "f.bson"] (txt "Hello, world") = Some e) /\
  (exists e, main (sample_os (-1)) zeros (txt "main.c") 2 100 100 [txt "tool"; txt "f.bson"] (true, hostile ++ txt "?") = Some e).
Proof.
  split.
  - apply (main_terminates regular_os zeros _ _ _ 1 3 (fun s => s) 0 _ 0 (txt "Hello, world") 100 100).
    + exact zlen_zeros.
    + reflexivity.
    + left. split; [exact regular_os_regular|vm_compute; reflexivity].
    + vm_compute. reflexivity.
    + vm_compute. reflexivity.
  - apply (main_terminates (sample_os (-1)) zeros _ _ _ 2 3 snd (-1) _ 0 (true, hostile ++ txt "?") 100 100).
    + exact zlen_zeros.
    + reflexivity.
    + right. split; [exact stream_ok_hostile|vm_compute; reflexivity].
    + vm_compute. reflexivity.
    + vm_compute. reflexivity.
Defined.

(** C39. How the tool ends after the documents of a file: when the rest is malformed,
    or a read fails anywhere after the first byte, also in the middle of a document,
    it reports the documents before and then the failure, with status 1; a file that
    ends in the middle of a document, or whose very first read fails, is taken for a
    complete one. *)
Theorem main_stops {OS} (os : os_calls OS) malloc file path argv0 tries fd content fin s errno s' ds rest rounds fuel
    `{!OpenFile os tries fd content fin} :
  (forall n, 0 <= n -> zlen (malloc n) = n) ->
  os_open os path s = (fd, errno, s') -> content s' = file_bytes ds rest -> Forall wf_doc ds ->
  file_ok os fd content (content s') -> zlen (content s') < 2 ^ 63 ->
  (length ds < rounds)%nat -> zlen (content s') < Z.of_nat fuel ->
  let tool := main os malloc file tries rounds fuel [argv0; path] s in
  let failure := failf file 151 (txt "Failed to read document from file '" ++ path ++ txt "'") (report ds) in
  (stream_next rest = StreamBad -> tool = Some failure) /\
  (stream_next rest = StreamEnd -> fin < 0 -> content s' <> [] -> tool = Some failure) /\
  (stream_next rest = StreamEnd -> fin = 0 \/ content s' = [] -> tool = Some (Exited 0 (report ds) [])) /\
  (forall d n, wf_doc d -> (n < length (enc_doc d))%nat -> rest = take n (enc_doc d) -> stream_next rest = StreamEnd).
Proof.
  intros Hm Ho Hc Hds Hok Hz Hr Hf tool failure.
  assert (E : (forall d rest', stream_next rest <> StreamDoc d rest') -> tool = Some (main_end file path fin (content s') rest (report ds)))
    by (intros; by apply (main_spec os malloc file path Hm tries fd content fin argv0 s errno s' ds rest rounds fuel)).
  unfold main_end, failed_read in E. fold failure in E.
  split; [intros En; rewrite En in E; by apply E|]. split; [|split].
  - intros En Hfin Hne. rewrite En in E. rewrite E by done. rewrite bool_decide_false by done. destruct (Z.eqb_spec fin 0); [lia|done].
  - intros En Hor. rewrite En in E. rewrite E by done. destruct (Z.eqb_spec fin 0); [done|]. destruct Hor as [?|Hor]; [done|]. by rewrite bool_decide_true.
  - intros d n [_ Hd] Hn ->. by apply stream_cut.
Qed.

Lemma sample_cut_stream : stream_ok (file_bytes [sample] (take 20 (enc_doc sample))).
Proof.
  eapply (ok_doc _ (enc_doc sample) (take 20 (enc_doc sample))); [intros _; vm_compute; congruence|vm_compute; reflexivity|].
  apply ok_stop; [intros _; vm_compute; congruence|left; vm_compute; reflexivity].
Qed.

(** A document cut short by the end of the file, and by a read error. *)
Lemma main_stops_sample :
  main (sample_os 0) zeros (txt "main.c") 2 3 100 [txt "tool"; txt "f.bson"]
    (true, file_bytes [sample] (take 20 (enc_doc sample))) = Some (Exited 0 (report [sample]) []) /\
  main (sample_os (-1)) zeros (txt "main.c") 2 3 100 [txt "tool"; txt "f.bson"]
    (true, file_bytes [sample] (take 20 (enc_doc sample))) =
      Some (failf (txt "main.c") 151 (txt "Failed to read document from file '" ++ txt "f.bson" ++ txt "'") (report [sample])).
Proof.
  split.
  - apply (main_stops (sample_os 0) zeros _ _ _ 2 3 snd 0 _ 0 (true, file_bytes [sample] (take 20 (enc_doc sample)))
      [sample] (take 20 (enc_doc sample)) 3 100).
    + exact zlen_zeros.
    + reflexivity.
    + reflexivity.
    + constructor; [exact sample_wf_doc|constructor].
    + left. exact sample_cut_stream.
    + vm_compute. reflexivity.
    + simpl. lia.
    + vm_compute. reflexivity.
    + vm_compute. reflexivity.
    + left. reflexivity.
  - apply (main_stops (sample_os (-1)) zeros _ _ _ 2 3 snd (-1) _ 0 (true, file_bytes [sample] (take 20 (enc_doc sample)))
      [sample] (take 20 (enc_doc sample)) 3 100).
    + exact zlen_zeros.
    + reflexivity.
    + reflexivity.
    + constructor; [exact sample_wf_doc|constructor].
    + left. exact sample_cut_stream.
    + vm_compute. reflexivity.
    + simpl. lia.
    + vm_compute. reflexivity.
    + vm_compute. reflexivity.
    + lia.
    + vm_compute. congruence.
Defined.

(** ** The reader *)



(** The reader over memory reads the same documents, and tells the end from
    a document cut short; but it converts the length left to [int32_t], and with
    2 GiB or more left it refuses every document. *)
Theorem data_reader_reads a s t :
  zlen a < 2 ^ 62 - 2 ^ 32 ->
  let at_ n := ReaderData (a ++ s ++ t) (zlen a + zlen s) (zlen a + n) in
  (zlen s < 2 ^ 31 ->
   match stream_next s with
   | StreamDoc d rest => _bson_reader_data_read (at_ 0) = Some (Some (s ++ t, zlen d), false, at_ (zlen d))
   | _ => _bson_reader_data_read (at_ 0) = Some (None, bool_decide (s = []), at_ 0)
   end) /\
  (2 ^ 31 <= zlen s < 2 ^ 32 -> forall d rest, s = enc_doc d ++ rest -> zlen (enc_doc d) <= BSON_MAX_SIZE -> t = [] ->
   _bson_reader_data_read (at_ 0) = Some (None, false, at_ 0)).
Proof.
  intros Ha at_. unfold at_. rewrite Z.add_0_r. split.
  - intros Hs. apply data_read_spec; lia.
  - intros Hs d rest -> Hd ->. rewrite app_nil_r. apply data_read_large; lia.
Qed.

Lemma data_reader_reads_sample :
  _bson_reader_data_read (ReaderData (enc_doc sample ++ [x00]) 45 0) =
    Some (Some (enc_doc sample ++ [x00], 44), false, ReaderData (enc_doc sample ++ [x00]) 45 44).
Proof.
  pose proof (data_reader_reads [] (enc_doc sample ++ [x00]) [] ltac:(reflexivity)) as [H _].
  specialize (H ltac:(vm_compute; reflexivity)). rewrite stream_next_enc in H by (rewrite sample_size; unfold BSON_MAX_SIZE; lia).
  vm_compute in H. vm_compute. exact H.
Defined.
