(* ===== verification/WriteTheorems.v ===== *)
(** The main results on building documents: appending, open children, whole
    trees, copies, the array builder, buffer growth, and the text and integer
    helpers they use. Each theorem with hypotheses is followed by an instance on
    concrete memory. *)

From Stdlib Require Import Strings.String.
From S2P Require Import Prelude CString Text CommonString IntEncode BsonTypes BsonIter BsonSpec.
From S2P Require Import BsonIterSpec BsonIterFind Utf8 BsonView BsonT BsonTSpec BsonKeys BsonAppend.
From S2P Require Import BsonAppendSpec BsonBuild BsonDocSpec PrintInvalidArrays ReadTheorems ToolTheorems.

Definition empty_heap : heap := Heap ∅ 0.

(** An inline document with no elements. *)
Definition fresh : bson_t := bson_init (zeros 120).

Lemma fresh_stored : stored empty_heap fresh [] [] (zeros 115).
Proof. unfold stored. split; [reflexivity|]. split; [vm_compute; congruence|]. split; [reflexivity|]. change (is_inline fresh) with true. split; reflexivity. Qed.

Lemma fresh_writable : writable fresh 1000.
Proof. apply bson_init_writable. unfold BSON_MAX_SIZE. lia. Qed.

Lemma sample_canonical : canonical_elems sample.
Proof. repeat constructor. Qed.

Lemma numbered_keys vs : array_keys_ok (numbered vs) = true.
Proof.
  unfold array_keys_ok, numbered, keys_of. apply bool_decide_eq_true. rewrite length_imap.
  induction vs as [|v vs IH] using rev_ind; [done|].
  rewrite imap_app, map_app, IH, length_app, seq_app, map_app. simpl. by rewrite Nat.add_0_r.
Qed.

(** ** Building documents *)

Section Build.
Context (malloc : Z -> bytes).
Hypothesis Hmalloc : forall n, 0 <= n -> zlen (malloc n) = n.

(** C10. Writing any document tree into a new document, with its nested
    documents and arrays built in place in the same buffer, yields exactly the
    encoding of the tree as the library stores it: the options of regular expressions
    are the known ones in alphabetical order, and the texts it takes as C strings (code,
    the code of a scope, the collection of a DBPointer) end at their first NUL. A tree
    that already is so, at every depth, is stored as it is. *)
Theorem write_tree h junk d :
  zlen junk = BSON_INLINE_DATA_SIZE -> wf_doc d ->
  (exists h' b' tail, write_elems malloc d h (bson_init junk) = Some (true, h', b') /\
    _bson_data h' b' = Some (enc_doc (stored_doc d) ++ tail) /\ b_len b' = zlen (enc_doc (stored_doc d))) /\
  (canonical_elems d -> stored_doc d = d).
Proof.
  intros Hj [Hwf Hm]. split; [|apply canonical_stored]. destruct (bson_init_stored h junk Hj) as [tail Hst].
  rewrite zlen_enc_doc in Hm. pose proof (zlen_stored_doc d). unfold BSON_MAX_SIZE in Hm.
  destruct (write_elems_stored malloc Hmalloc d Hwf ltac:(lia) h (bson_init junk) [] [] tail (zlen (enc_elems d)) Hst)
    as (h' & b' & tail' & E & Hst' & _); [apply bson_init_writable; unfold BSON_MAX_SIZE; lia|lia|].
  exists h', b', tail'. split; [done|]. split; [by eapply stored_data|apply Hst'].
Qed.

(** C12. Appending a boxed value under a key: it succeeds exactly when it fits,
    and then the document is extended by that element, as it is stored
    ([as_appended]: regular expression options filtered and sorted; code, the code of a
    scope and the collection of a DBPointer up to their first NUL; every other value
    unchanged), and nothing else changes; a failed append changes nothing. *)
Theorem append_value h b pre d tail key kl k v post :
  stored h b pre d tail -> key_arg key kl k -> wf_val v -> zlen (enc_val v) < 2 ^ 31 ->
  appends h b pre d [(k, as_appended v)] (bson_append_value malloc h b key kl (value_of v post)).
Proof. intros. by eapply bson_append_value_of. Qed.

(** [bson_append_iter] on an iterator standing on a value copies it under
    the new key. *)
Theorem append_from_iterator h b pre d tail key kl k P v post it :
  stored h b pre d tail -> key_arg key kl k -> on_value P v post it ->
  appends h b pre d [(k, as_appended v)] (bson_append_iter malloc h b (Some key) kl it).
Proof.
  intros Hst Hk Hon. rewrite (bson_append_iter_value _ _ _ _ _ _ _ _ _ Hon).
  destruct Hon as (_ & _ & _ & _ & _ & _ & Hwf & Hz). by eapply bson_append_value_of.
Qed.

(** A child opened, filled with the elements [es] and closed is one more
    element of the parent holding [es]; the parent keeps its room and no other
    document's memory changes. *)
Theorem open_fill_close body t es k h b pre d tail n :
  is_sub t -> no_nul k -> writes body es ->
  stored h b pre d tail -> writable b n -> zlen (enc_elems [(k, sub t es)]) <= n ->
  exists h' b' tail', write_sub malloc body t h b k = Some (true, h', b') /\
    stored h' b' pre (d ++ [(k, sub t es)]) tail' /\
    writable b' (n - zlen (enc_elems [(k, sub t es)])) /\ carry h b h' b'.
Proof. intros Ht Hk Hb. apply (write_sub_spec malloc Hmalloc body t es k Ht Hk Hb). Qed.

(** A value appended through the array builder gets the next index as its
    key, and the array so built passes the tool's check of array keys. *)
Theorem builder_appends h bab pre vs tail v post :
  builds_array h bab pre vs tail -> zlen vs < 2 ^ 32 - 1 -> wf_val v -> zlen (enc_val v) < 2 ^ 31 ->
  exists ok h' bab', bson_array_builder_append_value malloc h bab (value_of v post) = Some (ok, h', bab') /\
    array_keys_ok (numbered (vs ++ [as_appended v])) = true /\
    if ok then exists tail', builds_array h' bab' pre (vs ++ [as_appended v]) tail' else h' = h /\ bab' = bab.
Proof.
  intros Hb Hn Hwf Hz. pose proof Hb as [Hst _].
  destruct (builder_append_spec malloc Hmalloc (fun h b k n => bson_append_value malloc h b k n (value_of v post))
    h bab pre vs tail (as_appended v) Hb Hn) as (ok & h' & bab' & E & _ & H).
  { intros key kl k Hk. by eapply bson_append_value_of. }
  exists ok, h', bab'. split; [exact E|]. split; [apply numbered_keys|exact H].
Qed.

(** [bson_concat] appends the elements of the other document. *)
Theorem concat_appends h b pre d tail e rest :
  stored h b pre d tail -> e <> [] -> zlen (enc_doc e) < 2 ^ 32 ->
  appends h b pre d e (bson_concat malloc h b (enc_doc e ++ rest) (zlen (enc_doc e))).
Proof.
  intros Hst He Hz. pose proof (bson_concat_spec malloc Hmalloc h b pre d tail e rest Hst Hz) as H.
  by rewrite bool_decide_false in H.
Qed.

(** Copying with exclusions appends the elements whose keys are not
    excluded, in order. *)
Theorem copy_excluding ex h b pre d tail n e rest :
  Forall no_nul ex -> wf_elems e -> zlen (enc_doc e) < 2 ^ 31 ->
  stored h b pre d tail -> writable b n -> zlen (enc_elems (copied (kept ex e))) <= n ->
  exists h' b' tail',
    bson_copy_to_excluding_noinit malloc h (enc_doc e ++ rest) (zlen (enc_doc e)) b
      (map (fun x => x ++ [x00]) ex) = Some (h', b') /\
    stored h' b' pre (d ++ copied (kept ex e)) tail' /\ carry h b h' b'.
Proof. by apply bson_copy_to_excluding_spec. Qed.

(** [bson_copy_to] makes an independent document: equal contents, in
    memory of its own. *)
Theorem copy_independent h b pre d tail :
  stored h b pre d tail -> exists h' dst tail', bson_copy_to malloc h b = Some (h', dst) /\
    stored h' dst [] d tail' /\ (forall c, (c < h_next h)%nat -> h_cells h' !! c = h_cells h !! c) /\
    (is_inline dst = false -> b_buf dst = h_next h).
Proof. by apply bson_copy_to_stored. Qed.

(** [bson_new_from_data] accepts every encoded document and copies it. *)
Theorem new_from_data_accepts h junk e rest :
  zlen junk = BSON_INLINE_DATA_SIZE -> zlen (enc_doc e) <= BSON_MAX_SIZE ->
  exists h' b tail, bson_new_from_data malloc h junk (enc_doc e ++ rest) (zlen (enc_doc e)) =
    Some (Some (h', b)) /\ stored h' b [] e tail /\
    (forall c, (c < h_next h)%nat -> h_cells h' !! c = h_cells h !! c).
Proof. by apply bson_new_from_data_enc. Qed.

(** C17. Growing makes room for the bytes asked for and for the terminators
    of the parents, keeps the contents, and fails only at the size limit or
    without a reallocation function. *)
Theorem grow_makes_room h b pre d tail n :
  stored h b pre d tail -> 0 <= n <= BSON_MAX_SIZE -> b_len b + n <= BSON_MAX_SIZE ->
  exists h' b', _bson_grow malloc h b n = Some (fits h b n, h', b') /\
    if fits h b n
    then exists tail', stored h' b' pre d tail' /\ n + (if is_inline b' then 0 else b_depth b') <= zlen tail'
    else h' = h /\ b' = b.
Proof.
  intros Hst Hn Hl. destruct (grow_spec malloc Hmalloc h b pre d tail n Hst Hn Hl) as (h' & b' & E & H).
  exists h', b'. split; [exact E|]. destruct (fits h b n); [|exact H].
  destruct H as (tail' & Hst' & Hr & _). by exists tail'.
Qed.

(** [bson_append_utf8] stores the text it is given, by explicit length or
    up to its terminator. *)
Theorem append_utf8 h b pre d tail key kl k value length s :
  stored h b pre d tail -> key_arg key kl k -> text_arg value length s ->
  appends h b pre d [(k, BUtf8 s)] (bson_append_utf8 malloc h b key kl (Some value) length).
Proof. intros. by eapply bson_append_utf8_spec. Qed.

(** [bson_append_binary] writes either binary layout, with the inner
    length of the deprecated subtype. *)
Theorem append_binary h b pre d tail key kl k st data rest :
  stored h b pre d tail -> key_arg key kl k -> zlen data < 2 ^ 32 ->
  appends h b pre d [(k, BBinary st data)]
    (bson_append_binary malloc h b key kl st (Some (data ++ rest)) (zlen data)).
Proof. intros. by eapply bson_append_binary_spec. Qed.

(** [bson_append_code_with_scope] writes the two lengths, the code and the
    scope document. *)
Theorem append_code_with_scope h b pre d tail key kl k s rest e erest :
  stored h b pre d tail -> key_arg key kl k -> no_nul s -> zlen (enc_doc e) <= BSON_MAX_SIZE ->
  appends h b pre d [(k, BCodeWScope s e)]
    (bson_append_code_with_scope malloc h b key kl (s ++ x00 :: rest)
       (Some (enc_doc e ++ erest, zlen (enc_doc e)))).
Proof. intros. by eapply bson_append_code_with_scope_spec. Qed.

(** [bson_append_regex] keeps the pattern and stores the known options in
    alphabetical order, each once. *)
Theorem append_regex h b pre d tail key kl k r rrest o orest :
  stored h b pre d tail -> key_arg key kl k -> no_nul r -> zlen r < 2 ^ 31 ->
  no_nul o -> zlen o < UINT32_MAX ->
  appends h b pre d [(k, BRegex r (sort_options o))]
    (bson_append_regex malloc h b key kl (Some (r ++ x00 :: rrest)) (Some (o ++ x00 :: orest))).
Proof.
  intros Hst Hk Hr Hz Ho Hm. unfold bson_append_regex.
  apply (bson_append_regex_w_len_spec malloc Hmalloc h b pre d tail Hst key kl k Hk); [|done|done].
  split; [done|]. split; [done|]. exists rrest. by left.
Qed.

(** Appending text to a bounded string: all of it while it fits, otherwise
    the whole characters that fit, with the status set; the buffer stays
    terminated and within its allocation. *)
Theorem string_append_bounded a t max u rest :
  append_is a t max false -> utf8_text true u -> zlen u < 2 ^ 32 ->
  exists ok a' u1, mcommon_string_append_bytes malloc a (u ++ rest) (zlen u) = Some (ok, a') /\
    append_is a' (t ++ u1) max (negb ok) /\ ok = (zlen t + zlen u <=? max) /\
    if ok then u1 = u else utf8_cut u (max - zlen t) u1.
Proof. by apply append_bytes_spec. Qed.
End Build.

(** ** Taking a document over *)

(** [bson_steal] moves the document and leaves the source empty. *)
Theorem steal_moves h junk src pre d tail :
  stored h src pre d tail ->
  flag_test (b_flags src) (Z.lor (Z.lor BSON_FLAG_CHILD BSON_FLAG_IN_CHILD) BSON_FLAG_RDONLY) = false ->
  (is_inline src = false -> b_alloc src = Some (b_buf src)) ->
  exists dst src', bson_steal h junk src = (true, dst, src') /\ stored h dst pre d tail /\ b_len src' = 0.
Proof. by apply bson_steal_stored. Qed.

(** [bson_new_from_buffer] trusts the length header: with a header of zero
    it reads byte 4294967295 of a buffer of 5 bytes. *)
Example new_from_buffer_zero_header :
  let '(h, buf) := heap_alloc empty_heap [x00; x00; x00; x00; x00] in
  bson_new_from_buffer zeros h buf = None.
Proof.
  unfold heap_alloc, bson_new_from_buffer, h_cells, h_next, empty_heap.
  rewrite lookup_insert_eq. cbn beta iota.
  change (mlib_read_u32le [x00; x00; x00; x00; x00] 0) with (Some 0). sbind.
  change ((zlen [x00; x00; x00; x00; x00] <? 5) || _) with false. cbn iota.
  change (zlen [x00; x00; x00; x00; x00] <? 0) with false. cbn beta iota. sbind. rewrite lookup_insert_eq. sbind.
  change (u32 (0 - 1)) with 4294967295.
  destruct (rd [x00; x00; x00; x00; x00] 4294967295) eqn:E; [|done].
  apply rd_lt in E. change (zlen [x00; x00; x00; x00; x00]) with 5 in E. lia.
Qed.

(** ** Numbers *)

(** The key of an array index is its decimal numeral, from the table or
    formatted, and distinct indices have distinct keys. *)
Theorem index_keys i str :
  0 <= i < 2 ^ 32 -> zlen str = 16 ->
  exists rest, bson_uint32_to_string i str 16 = Some (zlen (dec i), dec i ++ x00 :: rest) /\
    undec (dec i) = i.
Proof.
  intros Hi Hs. destruct (bson_uint32_to_string_dec i str Hi Hs) as [rest E]. exists rest.
  split; [exact E|]. apply undec_dec. lia.
Qed.

(** Reading back a 32-bit integer written anywhere in memory gives it, and
    no other byte changes. *)
Theorem write_read_u32 a old z b :
  zlen old = 4 -> 0 <= z < 2 ^ 32 ->
  exists m, mlib_write_u32le (a ++ old ++ b) (zlen a) z = Some m /\
    mlib_read_u32le m (zlen a) = Some z /\ m = a ++ le_bytes 4 z ++ b.
Proof.
  intros Ho Hz. eexists. split; [by apply mlib_write_u32le_at|]. split; [|done]. by apply mlib_read_u32le_at.
Qed.

(** Allocation sizes round up to the least power of two, capped at
    [BSON_MAX_SIZE]. *)
Theorem round_up_least n :
  1 < n <= BSON_MAX_SIZE ->
  _bson_round_up_alloc_size n = Z.min (2 ^ Z.log2_up n) BSON_MAX_SIZE /\ n <= _bson_round_up_alloc_size n.
Proof.
  intros Hn. split; [|by apply round_up_bounds]. unfold _bson_round_up_alloc_size, BSON_MAX_SIZE in *.
  destruct (Z.leb_spec n (2 ^ 31 - 1)); [|lia]. by rewrite bson_next_power_of_two_spec by lia.
Qed.

(** ** Instances *)

Definition key_k : bytes := lit "k".

Lemma key_k_arg : key_arg key_k (-1) (txt "k").
Proof.
  split; [by apply no_nulb_spec|]. split; [vm_compute; done|]. exists []. by left.
Qed.

(** A tree that is not stored as it is, at two depths. *)
Definition unsorted (opts : string) (code : bytes) : doc :=
  [(txt "a", BRegex (txt "a+") (txt opts)); (txt "b", BDocument [(txt "c", BCode (txt "f()" ++ code)); (txt "d", BInt32 1)])].

Lemma unsorted_wf_doc : wf_doc (unsorted "xiq" (x00 :: txt "g()")).
Proof.
  split; [|vm_compute; done]. unfold unsorted. wf_sample.
  - split; apply no_nulb_spec; reflexivity.
Qed.

(** The tree [unsorted "xiq"] is stored with the options [ix] and the code [f()]. *)
Lemma write_tree_sample :
  exists h' b' tail, write_elems zeros (unsorted "xiq" (x00 :: txt "g()")) empty_heap (bson_init (zeros 120)) = Some (true, h', b') /\
    _bson_data h' b' = Some (enc_doc (unsorted "ix" []) ++ tail) /\ b_len b' = zlen (enc_doc (unsorted "ix" [])).
Proof.
  apply (write_tree zeros zlen_zeros empty_heap (zeros 120) (unsorted "xiq" (x00 :: txt "g()"))).
  - reflexivity.
  - exact unsorted_wf_doc.
Defined.

(** The options are stored in their order. *)
Lemma append_value_regex :
  appends empty_heap fresh [] [] [(txt "k", BRegex (txt "a+") (txt "ix"))]
    (bson_append_value zeros empty_heap fresh key_k (-1) (value_of (BRegex (txt "a+") (txt "xi")) [])).
Proof.
  apply (append_value zeros zlen_zeros empty_heap fresh [] [] (zeros 115) key_k (-1) (txt "k") (BRegex (txt "a+") (txt "xi")) []).
  - exact fresh_stored.
  - exact key_k_arg.
  - split; apply no_nulb_spec; reflexivity.
  - vm_compute. reflexivity.
Defined.

Lemma append_from_iterator_text :
  appends empty_heap fresh [] [] [(txt "k", BUtf8 (txt "x"))]
    (bson_append_iter zeros empty_heap fresh (Some key_k) (-1)
       (elem_iter (le_bytes 4 0) (txt "b", BUtf8 (txt "x")) [x00] 14)).
Proof.
  apply (append_from_iterator zeros zlen_zeros empty_heap fresh [] [] (zeros 115) key_k (-1) (txt "k")
    (le_bytes 4 0 ++ [z2b 2] ++ txt "b" ++ [x00]) (BUtf8 (txt "x")) [x00]).
  - exact fresh_stored.
  - exact key_k_arg.
  - apply (elem_iter_on_value (le_bytes 4 0) (txt "b", BUtf8 (txt "x")) [x00] 14).
    + split; [by apply no_nulb_spec|exact I].
    + vm_compute. reflexivity.
Defined.

Lemma sample_child_size : zlen (enc_elems [(txt "k", sub BSON_TYPE_DOCUMENT sample)]) = 47.
Proof. vm_compute. reflexivity. Qed.

Lemma open_fill_close_sample :
  exists h' b' tail', write_sub zeros (write_elems zeros sample) BSON_TYPE_DOCUMENT empty_heap fresh (txt "k") =
      Some (true, h', b') /\
    stored h' b' [] ([] ++ [(txt "k", sub BSON_TYPE_DOCUMENT sample)]) tail' /\
    writable b' (1000 - zlen (enc_elems [(txt "k", sub BSON_TYPE_DOCUMENT sample)])) /\
    carry empty_heap fresh h' b'.
Proof.
  apply (open_fill_close zeros zlen_zeros (write_elems zeros sample) BSON_TYPE_DOCUMENT sample (txt "k")
    empty_heap fresh [] [] (zeros 115) 1000).
  - by left.
  - by apply no_nulb_spec.
  - apply (write_elems_spec zeros zlen_zeros); [exact sample_wf|exact sample_canonical].
  - exact fresh_stored.
  - exact fresh_writable.
  - rewrite sample_child_size. lia.
Defined.

Lemma builder_appends_null :
  exists ok h' bab', bson_array_builder_append_value zeros empty_heap (ArrayBuilder 0 fresh) v_null =
      Some (ok, h', bab') /\
    array_keys_ok (numbered ([] ++ [BNull])) = true /\
    if ok then exists tail', builds_array h' bab' [] ([] ++ [BNull]) tail'
    else h' = empty_heap /\ bab' = ArrayBuilder 0 fresh.
Proof.
  apply (builder_appends zeros zlen_zeros empty_heap (ArrayBuilder 0 fresh) [] [] (zeros 115) BNull []).
  - split; [exact fresh_stored|reflexivity].
  - vm_compute. reflexivity.
  - exact I.
  - vm_compute. reflexivity.
Defined.

Lemma concat_appends_sample :
  appends empty_heap fresh [] [] sample
    (bson_concat zeros empty_heap fresh (enc_doc sample ++ []) (zlen (enc_doc sample))).
Proof.
  apply (concat_appends zeros zlen_zeros empty_heap fresh [] [] (zeros 115) sample []).
  - exact fresh_stored.
  - discriminate.
  - rewrite sample_size. lia.
Defined.

Lemma copy_excluding_sample :
  exists h' b' tail',
    bson_copy_to_excluding_noinit zeros empty_heap (enc_doc sample ++ []) (zlen (enc_doc sample)) fresh
      (map (fun x => x ++ [x00]) [txt "a"; txt "z"]) = Some (h', b') /\
    stored h' b' [] ([] ++ copied (kept [txt "a"; txt "z"] sample)) tail' /\ carry empty_heap fresh h' b'.
Proof.
  apply (copy_excluding zeros zlen_zeros [txt "a"; txt "z"] empty_heap fresh [] [] (zeros 115) 1000 sample []).
  - repeat constructor; by apply no_nulb_spec.
  - exact sample_wf.
  - rewrite sample_size. lia.
  - exact fresh_stored.
  - exact fresh_writable.
  - vm_compute. congruence.
Defined.

Lemma copy_independent_fresh :
  exists h' dst tail', bson_copy_to zeros empty_heap fresh = Some (h', dst) /\ stored h' dst [] [] tail' /\
    (forall c, (c < 0)%nat -> h_cells h' !! c = h_cells empty_heap !! c) /\ (is_inline dst = false -> b_buf dst = 0%nat).
Proof. apply (copy_independent zeros zlen_zeros empty_heap fresh [] [] (zeros 115)). exact fresh_stored. Defined.

Lemma new_from_data_accepts_sample :
  exists h' b tail, bson_new_from_data zeros empty_heap (zeros 120) (enc_doc sample ++ []) (zlen (enc_doc sample)) =
    Some (Some (h', b)) /\ stored h' b [] sample tail /\
    (forall c, (c < 0)%nat -> h_cells h' !! c = h_cells empty_heap !! c).
Proof.
  apply (new_from_data_accepts zeros zlen_zeros empty_heap (zeros 120) sample []).
  - reflexivity.
  - rewrite sample_size. unfold BSON_MAX_SIZE. lia.
Defined.

Lemma grow_makes_room_fresh :
  exists h' b', _bson_grow zeros empty_heap fresh 500 = Some (fits empty_heap fresh 500, h', b') /\
    if fits empty_heap fresh 500
    then exists tail', stored h' b' [] [] tail' /\ 500 + (if is_inline b' then 0 else b_depth b') <= zlen tail'
    else h' = empty_heap /\ b' = fresh.
Proof.
  apply (grow_makes_room zeros zlen_zeros empty_heap fresh [] [] (zeros 115) 500).
  - exact fresh_stored.
  - unfold BSON_MAX_SIZE. lia.
  - vm_compute. congruence.
Defined.

Lemma append_utf8_prefix :
  appends empty_heap fresh [] [] [(txt "k", BUtf8 (txt "ab"))]
    (bson_append_utf8 zeros empty_heap fresh key_k (-1) (Some (lit "abc")) 2).
Proof.
  apply (append_utf8 zeros zlen_zeros empty_heap fresh [] [] (zeros 115) key_k (-1) (txt "k") (lit "abc") 2 (txt "ab")).
  - exact fresh_stored.
  - exact key_k_arg.
  - exists (lit "c"). by right.
Defined.

Lemma append_binary_deprecated :
  appends empty_heap fresh [] [] [(txt "k", BBinary 2 (txt "ab"))]
    (bson_append_binary zeros empty_heap fresh key_k (-1) 2 (Some (txt "ab" ++ [])) (zlen (txt "ab"))).
Proof.
  apply (append_binary zeros zlen_zeros empty_heap fresh [] [] (zeros 115) key_k (-1) (txt "k") 2 (txt "ab") []).
  - exact fresh_stored.
  - exact key_k_arg.
  - vm_compute. reflexivity.
Defined.

Lemma append_code_with_scope_sample :
  appends empty_heap fresh [] [] [(txt "k", BCodeWScope (txt "f") sample)]
    (bson_append_code_with_scope zeros empty_heap fresh key_k (-1) (txt "f" ++ x00 :: [])
       (Some (enc_doc sample ++ [], zlen (enc_doc sample)))).
Proof.
  apply (append_code_with_scope zeros zlen_zeros empty_heap fresh [] [] (zeros 115) key_k (-1) (txt "k") (txt "f") []
    sample []).
  - exact fresh_stored.
  - exact key_k_arg.
  - by apply no_nulb_spec.
  - rewrite sample_size. unfold BSON_MAX_SIZE. lia.
Defined.

Lemma append_regex_sorted :
  appends empty_heap fresh [] [] [(txt "k", BRegex (txt "a*") (txt "imx"))]
    (bson_append_regex zeros empty_heap fresh key_k (-1) (Some (txt "a*" ++ x00 :: [])) (Some (txt "xqmi" ++ x00 :: []))).
Proof.
  apply (append_regex zeros zlen_zeros empty_heap fresh [] [] (zeros 115) key_k (-1) (txt "k") (txt "a*") [] (txt "xqmi") []).
  - exact fresh_stored.
  - exact key_k_arg.
  - by apply no_nulb_spec.
  - vm_compute. reflexivity.
  - by apply no_nulb_spec.
  - vm_compute. reflexivity.
Defined.

(** A string limited to 3 bytes takes the letter and drops the whole sign. *)
Lemma string_append_bounded_euro :
  exists ok a' u1,
    mcommon_string_append_bytes zeros (Append (Str (zeros 4) 0 4) 3 false)
      ((utf8_enc 101 ++ utf8_enc 0x20AC) ++ []) (zlen (utf8_enc 101 ++ utf8_enc 0x20AC)) = Some (ok, a') /\
    append_is a' ([] ++ u1) 3 (negb ok) /\ ok = (zlen (@nil byte) + zlen (utf8_enc 101 ++ utf8_enc 0x20AC) <=? 3) /\
    if ok then u1 = utf8_enc 101 ++ utf8_enc 0x20AC
    else utf8_cut (utf8_enc 101 ++ utf8_enc 0x20AC) (3 - zlen (@nil byte)) u1.
Proof.
  apply (string_append_bounded zeros zlen_zeros (Append (Str (zeros 4) 0 4) 3 false) [] 3).
  - split; [split; [reflexivity|split; [reflexivity|split; [vm_compute; congruence|by exists (zeros 3)]]]|].
    split; [reflexivity|]. split; [split; vm_compute; congruence|reflexivity].
  - exists [utf8_enc 101; utf8_enc 0x20AC]. split; [reflexivity|].
    constructor; [|constructor; [|constructor]]; (apply item_scalar; [split; lia|discriminate]).
  - vm_compute. reflexivity.
Defined.

Lemma steal_moves_fresh :
  exists dst src', bson_steal empty_heap (zeros 120) fresh = (true, dst, src') /\
    stored empty_heap dst [] [] (zeros 115) /\ b_len src' = 0.
Proof.
  apply (steal_moves empty_heap (zeros 120) fresh [] [] (zeros 115)).
  - exact fresh_stored.
  - reflexivity.
  - discriminate.
Defined.

Lemma index_keys_1234 :
  exists rest, bson_uint32_to_string 1234 (zeros 16) 16 = Some (zlen (dec 1234), dec 1234 ++ x00 :: rest) /\
    undec (dec 1234) = 1234.
Proof. apply index_keys; [lia|reflexivity]. Defined.

Lemma write_read_u32_max :
  exists m, mlib_write_u32le ([] ++ zeros 4 ++ [x00]) (zlen (@nil byte)) (2 ^ 32 - 1) = Some m /\
    mlib_read_u32le m (zlen (@nil byte)) = Some (2 ^ 32 - 1) /\ m = [] ++ le_bytes 4 (2 ^ 32 - 1) ++ [x00].
Proof. apply write_read_u32; [reflexivity|lia]. Defined.

Lemma round_up_least_129 :
  _bson_round_up_alloc_size 129 = Z.min (2 ^ Z.log2_up 129) BSON_MAX_SIZE /\ 129 <= _bson_round_up_alloc_size 129.
Proof. apply round_up_least. unfold BSON_MAX_SIZE. lia. Defined.
