(* ===== verification/SeriesTheorems.v ===== *)
(** The main results on documents in series: the writer that puts them in one
    buffer, and the reader on that buffer; and on values copied out of documents. *)

From Stdlib Require Import Strings.String.
From S2P Require Import Prelude CString Text IntEncode BsonTypes BsonIter BsonSpec BsonIterSpec BsonView.
From S2P Require Import BsonT BsonTSpec BsonAppend BsonAppendSpec BsonBuild BsonReader BsonReaderSpec.
From S2P Require Import BsonWriter BsonValue ReadTheorems WriteTheorems.

(** ** The writer *)


(** A new writer on an empty buffer. *)
Definition new_heap : heap := Heap {[ 0%nat := [] ]} 1.
Definition new_writer : bson_writer_t := bson_writer_new 0 0 true.


Definition text_doc (n : nat) : doc := [(txt "a", BUtf8 (replicate n (z2b 120)))].


(** C24. [bson_writer_begin] on a buffer that has room for an empty document is defined
    exactly when there is one byte more: it clears five bytes where it should clear
    four. A new writer reaches the edge with a document of 59 bytes. *)
Theorem writer_begin_edge malloc h w m :
  w_ready w = true -> h_cells h !! w_buf w = Some m -> 0 <= w_offset w -> w_offset w + 5 <= zlen m -> zlen m < 2 ^ 63 ->
  (is_Some (bson_writer_begin malloc h w) <-> w_offset w + 6 <= zlen m) /\
  write_series zeros [(text_doc 46, true); ([], true)] new_heap new_writer = None.
Proof.
  intros Hr Hc Ho Hz Hl. split; [|vm_compute; reflexivity].
  destruct (Z.eqb_spec (zlen m) (w_offset w + 5)) as [E|E].
  { rewrite (writer_begin_overflow malloc h w m) by (done || lia). split; [by intros []|lia]. }
  split; [lia|]. intros H6. unfold bson_writer_begin. rewrite Hr, Hc. cbn [negb b_len]. sbind. rewrite u64_id by lia.
  destruct (Z.ltb_spec (zlen m) (w_offset w + 5)); [lia|]. cbn [andb]. rewrite writer_buflen_ge by lia. sbind.
  destruct (proj2 (store_is_Some m (w_offset w + 1) [x00; x00; x00; x00; x00])) as [m1 H1];
    [change (zlen [x00; x00; x00; x00; x00]) with 5; lia|]. rewrite H1. sbind. apply store_zlen in H1.
  destruct (proj2 (store_is_Some m1 (w_offset w) [z2b 5])) as [m2 H2]; [rewrite zlen_1; lia|]. rewrite H2. by eexists.
Qed.

Lemma writer_begin_edge_sample : ~ is_Some (bson_writer_begin zeros (Heap {[ 0%nat := zeros 64 ]} 1) (bson_writer_new 0 59 true)).
Proof.
  intros H. destruct (writer_begin_edge zeros (Heap {[ 0%nat := zeros 64 ]} 1) (bson_writer_new 0 59 true) (zeros 64)) as [[H1 _] _];
    [reflexivity|reflexivity|cbn; lia|vm_compute; discriminate|vm_compute; reflexivity|].
  specialize (H1 H). vm_compute in H1. contradiction.
Defined.

(** ** Copied values *)

(** A copy of a value read from a document is made of memory of its own, and
    appending it adds the same element as appending the value does. *)
Theorem value_copy_appends malloc h b pre d tail key kl k v post :
  (forall n, 0 <= n -> zlen (malloc n) = n) ->
  stored h b pre d tail -> key_arg key kl k -> wf_val v -> zlen (enc_val v) < 2 ^ 31 ->
  exists c, bson_value_copy malloc (value_of v post) = Some c /\ c = own_value v /\
    appends h b pre d [(k, as_appended v)] (bson_append_value malloc h b key kl c) /\
    appends h b pre d [(k, as_appended v)] (bson_append_value malloc h b key kl (value_of v post)).
Proof.
  intros Hm Hst Hk Hwf Hl. exists (own_value v). split; [by apply bson_value_copy_spec|]. split; [done|].
  split; [by eapply append_own_value|by eapply bson_append_value_of].
Qed.

Lemma value_copy_appends_sample :
  exists c, bson_value_copy zeros (value_of (BRegex (txt "a.*") (txt "i")) (txt "junk")) = Some c /\
    c = v_regex (Some (lit "a.*")) (Some (lit "i")) /\
    appends empty_heap fresh [] [] [(txt "k", BRegex (txt "a.*") (txt "i"))]
      (bson_append_value zeros empty_heap fresh key_k (-1) c).
Proof.
  destruct (value_copy_appends zeros empty_heap fresh [] [] (zeros 115) key_k (-1) (txt "k") (BRegex (txt "a.*") (txt "i")) (txt "junk"))
    as (c & E & Ec & Ha & _); [exact zlen_zeros|exact fresh_stored|exact key_k_arg|split; by apply no_nulb_spec|vm_compute; reflexivity|].
  exists c. split; [exact E|]. split; [exact Ec|exact Ha].
Defined.
