(* ===== verification/KmipTheorems.v ===== *)
(** The main results on kmip_dump: what the program prints, what its reader and
    writer do to a message, and where they go wrong. *)

From Stdlib Require Import Strings.String.
From S2P Require Import Prelude CString Text IntEncode Calendar Hex KmsRequestStr KmipTags Kmip KmipSpec.
From S2P Require Import KmipReadSpec KmipWriteSpec KmipDump KmipDumpSpec KmipDumpTotal.

(** ** A sample message *)

Definition request : list kitem :=
  [(0x420078, KStructure
     [(0x420069, KStructure [(0x42006a, KInteger 1); (0x42006b, KInteger (-4))]);
      (0x42005c, KEnumeration 3);
      (0x420043, KByteString (bs [255; 168; 204]));
      (0x420094, KTextString (txt "abc"));
      (0x420001, KDateTime 1000000000)])].

Lemma request_wf : wf_items request.
Proof. apply wf_items_dec. vm_compute. reflexivity. Qed.
Lemma request_dates : all_dates_ok request.
Proof. cbn. unfold date_ok. lia. Qed.
Lemma request_short : zlen (dump_text_of request) < KMS_LIMIT.
Proof. vm_compute. reflexivity. Qed.

(** ** The program *)

(** C18. Given the hexadecimal digits of a message of well-formed items, whatever
    spaces, bars, commas and 0x are between them, [main] prints the items as
    nested elements, then the bytes, and exits with status 0. *)
Theorem kmip_main_prints malloc prog s post l :
  (forall n, 0 <= n -> zlen (malloc n) = n) ->
  no_nul s -> zlen s < 2 ^ 62 -> unhex (filter_text s) = enc_items l ->
  wf_items l -> all_dates_ok l -> zlen (dump_text_of l) < KMS_LIMIT ->
  kmip_dump_main malloc [prog; s ++ x00 :: post] = Some (dump_text_of l, 0).
Proof. intros Hm. by apply main_prints. Qed.

Lemma kmip_main_prints_witness :
  kmip_dump_main zeros [lit "kmip_dump"; hex_text (enc_items request) ++ [x00]] = Some (dump_text_of request, 0).
Proof.
  apply (kmip_main_prints zeros (lit "kmip_dump") (hex_text (enc_items request)) [] request zlen_zeros);
    [apply lower_hex_no_nul, hex_text_lower|vm_compute; reflexivity|by rewrite filter_hex_text, unhex_hex_text|
     exact request_wf|exact request_dates|exact request_short].
Defined.

(** The line of bytes [main] prints last can be given back to it: it prints the
    same text again. *)
Theorem kmip_main_again malloc prog l :
  (forall n, 0 <= n -> zlen (malloc n) = n) ->
  wf_items l -> all_dates_ok l -> zlen (dump_text_of l) < KMS_LIMIT ->
  let line := hex_listing (enc_items l) in
  (exists shown, dump_text_of l = shown ++ line ++ [newline_char]) /\
  kmip_dump_main malloc [prog; line ++ [x00]] = Some (dump_text_of l, 0).
Proof.
  intros Hm Hwf Hd Hl line.
  assert (E : dump_text_of l = (xml_items 0 l ++ [newline_char]) ++ line ++ [newline_char])
    by (unfold dump_text_of; by rewrite <- app_assoc).
  split; [by eexists|]. apply main_prints; try done; [apply hex_listing_no_nul| |by subst line; rewrite filter_listing, unhex_hex_text].
  rewrite E, !zlen_app in Hl. unfold KMS_LIMIT in Hl. fold line. zl.
Qed.

Lemma kmip_main_again_witness :
  let line := hex_listing (enc_items request) in
  (exists shown, dump_text_of request = shown ++ line ++ [newline_char]) /\
  kmip_dump_main zeros [lit "kmip_dump"; line ++ [x00]] = Some (dump_text_of request, 0).
Proof. exact (kmip_main_again zeros (lit "kmip_dump") request zlen_zeros request_wf request_dates request_short). Defined.

(** C19. Printing any bytes ends: no chain of steps of the loop, on to the next item or
    into a structure, is longer than (len + 1)^2, so that whatever the model
    returned for a longer one ([spent]) the result is the same. Where that result is [None]
    it is for undefined behaviour on the way (the overflows among the findings). *)
Theorem kmip_dump_terminates malloc data len str spent fuel :
  0 <= len <= zlen data -> len < 2 ^ 62 -> (Z.to_nat ((len + 1) * (len + 1)) <= fuel)%nat ->
  dump_loop malloc spent fuel str (kmip_reader_new data len) 0 None =
    kmip_dump_recursive_xml malloc (dump_fuel len) str (kmip_reader_new data len) 0.
Proof. intros Hl Hlim Hf. by apply dump_fuel_enough. Qed.

(** A truncated item: had the steps run out, the result would be the one given. *)
Lemma kmip_dump_terminates_witness :
  let data := bs [66; 0; 120; 1; 0; 0; 0; 0; 65] in
  let spent := Some (KmsStr [] 0 0, kmip_reader_new [] 0) in
  dump_loop zeros spent 100 (KmsStr (zeros 16) 0 16) (kmip_reader_new data 9) 0 None =
    kmip_dump_recursive_xml zeros (dump_fuel 9) (KmsStr (zeros 16) 0 16) (kmip_reader_new data 9) 0 /\
  is_Some (kmip_dump_recursive_xml zeros (dump_fuel 9) (KmsStr (zeros 16) 0 16) (kmip_reader_new data 9) 0).
Proof.
  intros data spent. split.
  - apply (kmip_dump_terminates zeros data 9 (KmsStr (zeros 16) 0 16) spent 100);
      [change (zlen data) with 9; lia|lia|lia].
  - vm_compute. by eexists.
Defined.

(** ** The writer and the reader *)

(** C20. A tree of items written with the writer's operations, structures opened and
    closed around their items at most nine deep, is in its buffer as the
    encoding of the items, lengths filled in and values padded. *)
Theorem kmip_write_tree malloc l :
  (forall n, 0 <= n -> zlen (malloc n) = n) ->
  wf_items l -> writable_items l -> depths l <= 9 -> zlen (enc_items l) < KMS_LIMIT ->
  exists w w', kmip_writer_new malloc = Some w /\ write_items malloc w l = Some w' /\ kw_cur_pos w' = 0 /\
    exists rest, kmip_writer_get_buffer w' = (zlen (enc_items l), enc_items l ++ rest).
Proof. intros Hm. by apply write_message. Qed.

Lemma kmip_write_tree_witness : exists w w',
  kmip_writer_new zeros = Some w /\ write_items zeros w request = Some w' /\ kw_cur_pos w' = 0 /\
  exists rest, kmip_writer_get_buffer w' = (zlen (enc_items request), enc_items request ++ rest).
Proof.
  apply (kmip_write_tree zeros request zlen_zeros request_wf);
    [by cbn|vm_compute; discriminate|vm_compute; reflexivity].
Defined.

(** C21. On a message the searches answer for its first item with the tag and type:
    where its value is, the value of an enumeration, the bytes of a byte
    string; and recursing into a structure leaves a reader over its items. *)
Theorem kmip_find_first r items tag o v :
  over r items -> wf_items items -> 0 <= tag < 2 ^ 32 -> first_item items tag (kval_type v) = Some (o, v) ->
  (exists r', kmip_reader_find r tag (kval_type v) = Some (true, Some (o, zlen (kbody v)), r')) /\
  match v with
  | KStructure l => exists r', kmip_reader_find_and_recurse r tag = Some (true, r') /\ over r' l /\ wf_items l
  | KEnumeration n => exists r', kmip_reader_find_and_read_enum r tag = Some (true, Some n, r')
  | KByteString s => exists p r', kmip_reader_find_and_read_bytes r tag = Some (true, Some (s ++ p), Some (zlen s), r')
  | _ => True
  end.
Proof.
  intros Ho Hwf Ht Hf. split.
  - pose proof (find_spec r items tag (kval_type v) Ho Hwf) as E. rewrite Hf in E. by eexists.
  - destruct v; try done; [by eapply find_and_recurse_spec|by eapply find_and_read_enum_spec|by eapply find_and_read_bytes_spec].
Qed.

Definition request_reader : kmip_reader_t := kmip_reader_new (enc_items request) (zlen (enc_items request)).

Lemma kmip_find_first_witness :
  (exists r', kmip_reader_find request_reader 0x420078 KMIP_ITEM_TYPE_Structure =
     Some (true, Some (8, zlen (enc_items request) - 8), r')) /\
  exists l r', kmip_reader_find_and_recurse request_reader 0x420078 = Some (true, r') /\ over r' l /\ wf_items l.
Proof.
  destruct (kmip_find_first request_reader request 0x420078 8
    (match request with (_, v) :: _ => v | [] => KInteger 0 end)) as [H1 H2].
  - unfold request_reader. rewrite <- (app_nil_r (enc_items request)) at 1. apply over_new. vm_compute. reflexivity.
  - exact request_wf.
  - lia.
  - vm_compute. reflexivity.
  - split; [exact H1|]. eexists. exact H2.
Defined.

(** C22. On any bytes, and whatever they ask for, the searches read nothing outside
    the message: each returns, and a byte string found has its length. *)
Theorem kmip_find_safe r tag type :
  0 <= kr_len r <= zlen (kr_ptr r) -> kr_len r < 2 ^ 62 ->
  is_Some (kmip_reader_find r tag type) /\ is_Some (kmip_reader_find_and_recurse r tag) /\
  is_Some (kmip_reader_find_and_read_enum r tag) /\
  exists ok p n r', kmip_reader_find_and_read_bytes r tag = Some (ok, p, n, r') /\
    (ok = true -> exists b len, p = Some b /\ n = Some len /\ 0 <= len <= zlen b).
Proof.
  intros Hl Hlim. split; [|split; [|split]].
  - destruct (find_safe r tag type Hl Hlim) as (ok & v & r' & -> & _). by eexists.
  - by apply find_and_recurse_safe.
  - by apply find_and_read_enum_safe.
  - by apply find_and_read_bytes_safe.
Qed.

(** A byte string that claims four thousand million bytes. *)
Definition cut_message : bytes := bs [66; 0; 67; 8; 255; 255; 255; 255; 1; 2].

Lemma kmip_find_safe_witness :
  exists ok p n r', kmip_reader_find_and_read_bytes (kmip_reader_new cut_message 10) 0x420043 = Some (ok, p, n, r') /\
    (ok = true -> exists b len, p = Some b /\ n = Some len /\ 0 <= len <= zlen b).
Proof.
  apply (kmip_find_safe (kmip_reader_new cut_message 10) 0x420043 KMIP_ITEM_TYPE_ByteString); vm_compute; intuition discriminate.
Defined.

(** ** Hexadecimal text *)

(** Bytes printed by [bin_to_hex], or listed with 0x and commas as kmip_dump
    does, are read back by [hex_to_bin]. *)
Theorem hex_roundtrip malloc b post :
  (forall n, 0 <= n -> zlen (malloc n) = n) -> 2 * zlen b + 1 < 2 ^ 32 ->
  (exists text, bin_to_hex b (zlen b) = Some text /\ hex_to_bin malloc (text ++ post) = Some (b, zlen b)) /\
  hex_to_bin malloc (hex_listing b ++ x00 :: post) = Some (b, zlen b).
Proof.
  intros Hm Hl. pose proof (zlen_nonneg b). pose proof (zlen_hex_text b) as Hz. split.
  - exists (hex_text b ++ [x00]). split; [by apply bin_to_hex_spec|]. rewrite <- app_assoc. cbn [app].
    rewrite hex_to_bin_spec; [|done|apply lower_hex_no_nul, hex_text_lower|lia].
    rewrite filter_hex_text, unhex_hex_text, Hz. do 2 f_equal. rewrite Z.mul_comm. by apply Z.div_mul.
  - rewrite hex_to_bin_spec; [|done|apply hex_listing_no_nul|].
    + rewrite filter_listing, unhex_hex_text, Hz. do 2 f_equal. rewrite Z.mul_comm. by apply Z.div_mul.
    + pose proof (zlen_listing_le b). lia.
Qed.

Lemma hex_roundtrip_witness :
  (exists text, bin_to_hex (bs [0; 66; 255]) 3 = Some text /\ hex_to_bin zeros (text ++ []) = Some (bs [0; 66; 255], 3)) /\
  hex_to_bin zeros (hex_listing (bs [0; 66; 255]) ++ [x00]) = Some (bs [0; 66; 255], 3).
Proof. apply (hex_roundtrip zeros (bs [0; 66; 255]) [] zlen_zeros). vm_compute. reflexivity. Defined.

(** ** Where it goes wrong *)

(** The assertion allows the tenth open structure, whose position is stored
    outside the array of ten. *)
Definition nested (n : nat) : list kitem := Nat.iter n (fun l => [(0x420078, KStructure l)]) [].

Lemma tenth_structure_undefined :
  (w ← kmip_writer_new zeros; write_items zeros w (nested 10)) = None /\
  match (w ← kmip_writer_new zeros; write_items zeros w (nested 9)) with Some _ => True | None => False end.
Proof. split; vm_compute; [reflexivity|exact I]. Qed.

(** A structure may claim more than the message holds: recursing into it
    succeeds and the search inside reads past the end. *)
Lemma recurse_past_the_end :
  match kmip_reader_find_and_recurse (kmip_reader_new (bs [66; 0; 120; 1; 0; 0; 1; 0]) 8) 0x420078 with
  | Some (ok, r) => ok = true /\ kmip_reader_find r 0x420043 KMIP_ITEM_TYPE_ByteString = None
  | None => False
  end.
Proof. vm_compute. split; reflexivity. Qed.

(** An integer whose value is cut off is printed from a variable that was never
    set, and so is a string copied from a pointer that was never set. *)
Lemma dump_cut_undefined :
  kmip_dump zeros (bs [66; 0; 106; 2; 0; 0; 0; 4; 0; 0]) 10 = None /\
  kmip_dump zeros (bs [66; 0; 67; 8; 0; 0; 0; 1; 0; 0]) 10 = None.
Proof. split; vm_compute; reflexivity. Qed.

(** Elements of big integers and intervals are not closed. *)
Lemma interval_not_closed :
  xml_items 0 [(0x420043, KInterval 5)] =
    txt "<KeyMaterial tag=" ++ quoted (txt "0x420043") ++ txt " type=" ++ quoted (txt "Interval") ++
    txt " value=" ++ quoted (txt "(TODO)") ++ [newline_char].
Proof. vm_compute. reflexivity. Qed.

(** Characters that are no digits become the byte 255, and the last of an odd
    number of digits is dropped. *)
Lemma hex_not_digits : hex_to_bin zeros (lit "zz4") = Some (bs [255], 1).
Proof. vm_compute. reflexivity. Qed.
