(* ===== verification/JsonTheorems.v ===== *)
(** The main results on JSON output. *)

From Stdlib Require Import Strings.String.
From S2P Require Import Prelude CString Text IntEncode BsonTypes BsonIter BsonSpec BsonView Utf8 CommonString.
From S2P Require Import StringFormat DoubleText BsonVisit Json JsonSpec JsonGrammar JsonDoc JsonSafe.

(** A document with a value of most types, as the examples below print it. *)
Definition sample_doc : doc :=
  [(txt "a", BInt32 5); (txt "b", BUtf8 (txt "x" ++ bs [10; 34; 92; 1; 0xc3; 0xa9]));
   (txt "c", BDocument [(txt "0", BDouble 0x3fb999999999999a); (txt "1", BNull)]);
   (txt "d", BArray [(txt "0", BOid (txt "0123456789ab")); (txt "1", BDocument [])]);
   (txt "t", BDateTime 1720000000123); (txt "r", BRegex (txt "a+") (txt "xi"))].
Definition sample_opts (m : bson_json_mode_t) (n : Z) : bson_json_opts_t := JsonOpts m n false.
Definition as_text (r : option (option bytes * Z)) : option bytes :=
  match r with Some (Some t, n) => Some (take (Z.to_nat n) t) | _ => None end.

Example sample_relaxed :
  as_text (bson_as_json_with_opts zeros (enc_doc sample_doc) (zlen (enc_doc sample_doc)) (sample_opts BSON_JSON_MODE_RELAXED (-1))) =
  Some (js "{ 'a' : 5, 'b' : 'x\n\'\\\u0001" ++ bs [0xc3; 0xa9] ++
    js "', 'c' : { '0' : 0.10000000000000000555, '1' : null }, 'd' : [ { '$oid' : '303132333435363738396162' }, { } ], " ++
    js "'t' : { '$date' : '2024-07-03T09:46:40.123Z' }, 'r' : { '$regularExpression' : { 'pattern' : 'a+', 'options' : 'ix' } } }").
Proof. vm_compute. reflexivity. Qed.

(** C13. The text of a document: [bson_as_json_with_opts] on the bytes of a document
    whose text is UTF-8 answers a terminated string, the text of the tree in the mode
    asked for, nested at most 200 deep, when that fits the limit; otherwise it answers a
    prefix of that text in whole characters that comes within three bytes of the limit.
    A document with a binary must fit. The conditions are those of [doc_ok]: the document
    is well-formed and under 1 GiB; its texts are UTF-8, and its keys, patterns of
    regular expressions and collections of DBPointers are without NUL in either form (no
    C0 80); its decimals have coefficients below [10 ^ 34]. *)
Theorem json_prints malloc cut opts d rest :
  (forall n, 0 <= n -> zlen (malloc n) = n) ->
  doc_ok cut d -> is_s32 (max_len opts) -> (cut = false -> zlen (json_text opts d) <= json_limit opts) ->
  exists t junk, bson_as_json_with_opts malloc (enc_doc d ++ rest) (zlen (enc_doc d)) opts = Some (Some (t ++ x00 :: junk), zlen t) /\
    json_cut (json_limit opts) (json_text opts d) t.
Proof. intros Hmalloc. exact (as_json_spec malloc Hmalloc cut opts d rest). Qed.

Lemma utf8_text_run allow s : bson_utf8_validate s (zlen s) allow = Some true -> utf8_text allow s.
Proof.
  destruct (bson_utf8_validate_spec s [] allow) as (r & E & Hr). rewrite app_nil_r in E. rewrite E. intros [= ->]. by apply Hr.
Qed.

Ltac doc_sample :=
  repeat match goal with
  | |- doc_ok _ _ => split; [|split; [done|]]
  | |- wf_elems _ => constructor
  | |- json_oks _ _ => constructor
  | |- Forall _ _ => constructor
  | |- wf_elem _ => split; cbn [fst snd]
  | |- _ /\ _ => split; cbn [fst snd]
  | |- no_nul _ => apply no_nulb_spec; reflexivity
  | |- utf8_text _ _ => apply utf8_text_run; vm_compute; reflexivity
  | |- wf_val (BDocument _) => apply wf_val_document
  | |- wf_val (BArray _) => apply wf_val_array
  | |- wf_val (BCodeWScope _ _) => apply wf_val_codewscope
  | |- wf_val (BRegex _ _) => split
  | |- wf_val _ => cbn; unfold is_s32, is_s64, is_u64, is_u8; lia || done
  | |- json_ok _ (BCodeWScope _ _) => split; [|apply json_oks_eq]
  | |- json_ok _ _ => cbn
  | |- false = false => reflexivity
  | |- True => exact I
  end.

Lemma sample_doc_ok : doc_ok true sample_doc.
Proof. unfold sample_doc. doc_sample. Qed.

Lemma json_prints_sample :
  let opts := sample_opts BSON_JSON_MODE_RELAXED 60 in
  exists t junk, bson_as_json_with_opts zeros (enc_doc sample_doc ++ []) (zlen (enc_doc sample_doc)) opts =
    Some (Some (t ++ x00 :: junk), zlen t) /\ json_cut (json_limit opts) (json_text opts sample_doc) t.
Proof.
  intros opts. apply (json_prints zeros true opts sample_doc []);
    [apply zlen_zeros|apply sample_doc_ok|unfold is_s32; cbn; lia|intros [=]].
Defined.

(** C14. Any bytes: on arbitrary bytes as a document of up to 64 MiB the conversion
    returns, with every read inside the document, every write inside the buffer and
    no assertion failed; the answer is [NULL] or a terminated text in UTF-8 at most 64
    times as long as the document. The limit must leave room for as much. *)
Theorem json_safe malloc data len opts :
  (forall n, 0 <= n -> zlen (malloc n) = n) ->
  5 <= len <= zlen data -> len < 2 ^ 26 -> is_s32 (max_len opts) -> 64 * len <= json_limit opts ->
  bson_as_json_with_opts malloc data len opts = Some (None, 0) \/
  exists t junk, bson_as_json_with_opts malloc data len opts = Some (Some (t ++ x00 :: junk), zlen t) /\
    utf8_text true t /\ zlen t <= 64 * len.
Proof. intros Hmalloc. exact (as_json_total malloc Hmalloc data len opts). Qed.

Lemma json_safe_sample :
  let data := bs [9; 0; 0; 0; 2; 255; 0; 255; 0] in
  bson_as_json_with_opts zeros data 9 (sample_opts BSON_JSON_MODE_RELAXED (-1)) = Some (None, 0) \/
  exists t junk, bson_as_json_with_opts zeros data 9 (sample_opts BSON_JSON_MODE_RELAXED (-1)) = Some (Some (t ++ x00 :: junk), zlen t) /\
    utf8_text true t /\ zlen t <= 576.
Proof. apply (json_safe zeros (bs [9; 0; 0; 0; 2; 255; 0; 255; 0]) 9); [apply zlen_zeros|done..]. Defined.

(** In the legacy mode a NaN is printed as it is, which no JSON reader accepts. *)
Example legacy_nan :
  as_text (bson_as_json_with_opts zeros (enc_doc [(txt "x", BDouble 0x7ff8000000000000)])
    (zlen (enc_doc [(txt "x", BDouble 0x7ff8000000000000)])) (sample_opts BSON_JSON_MODE_LEGACY (-1))) =
  Some (js "{ 'x' : nan }").
Proof. vm_compute. reflexivity. Qed.

(** C15. What is printed is JSON: a document that is printed whole within the limit and is
    nested no deeper than 200 levels comes out as a text of the grammar of RFC 8259, in
    every mode; in the legacy mode its doubles must be finite, since that mode prints
    infinities and NaN bare (the example [legacy_nan]). The other conditions are those of
    [doc_ok]: the document is well-formed and under 1 GiB; its texts are UTF-8, and its
    keys, patterns of regular expressions and collections of DBPointers are without NUL in
    either form (no C0 80); its decimals have coefficients below [10 ^ 34]. *)
Theorem json_is_json malloc opts d rest :
  (forall n, 0 <= n -> zlen (malloc n) = n) ->
  doc_ok false d -> is_s32 (max_len opts) -> zlen (json_text opts d) <= json_limit opts -> fits (mode opts) BSON_MAX_RECURSION d ->
  exists t junk, bson_as_json_with_opts malloc (enc_doc d ++ rest) (zlen (enc_doc d)) opts = Some (Some (t ++ x00 :: junk), zlen t) /\
    j_value t.
Proof.
  intros Hmalloc Hd Hm Hz Hf. destruct (as_json_spec malloc Hmalloc false opts d rest Hd Hm (fun _ => Hz)) as (t & junk & E & Hc).
  exists t, junk. split; [done|]. unfold json_cut in Hc. apply Z.leb_le in Hz. rewrite Hz in Hc. subst t.
  destruct Hd as (Hwf & _). unfold json_text, json_style.
  destruct (is_outermost_array opts); [apply (doc_value (mode opts) _ false)|apply (doc_value (mode opts) _ true)]; done.
Qed.

(** A document with a binary, two numbers, a time before the epoch and a scope. *)
Definition sample_doc2 : doc :=
  [(txt "x", BBinary 5 (txt "foob")); (txt "y", BInt64 (-7)); (txt "z", BDouble 0xc008000000000000);
   (txt "t", BDateTime (-1)); (txt "w", BCodeWScope (txt "f()") [(txt "n", BNull)])].

Lemma sample_doc2_ok : doc_ok false sample_doc2.
Proof. unfold sample_doc2. doc_sample. Qed.

Lemma sample_doc2_fits opts n : fits (mode opts) (S (S n)) sample_doc2.
Proof. by repeat constructor. Qed.

Lemma sample_doc2_size : (zlen (json_text (sample_opts BSON_JSON_MODE_CANONICAL (-1)) sample_doc2) <=? 1000) = true.
Proof. vm_compute. reflexivity. Qed.

Lemma json_is_json_sample :
  let opts := sample_opts BSON_JSON_MODE_CANONICAL (-1) in
  exists t junk, bson_as_json_with_opts zeros (enc_doc sample_doc2 ++ []) (zlen (enc_doc sample_doc2)) opts =
    Some (Some (t ++ x00 :: junk), zlen t) /\ j_value t.
Proof.
  intros opts. apply (json_is_json zeros opts sample_doc2 []); [apply zlen_zeros|apply sample_doc2_ok|unfold is_s32; cbn; lia|..].
  - apply (Z.le_trans _ 1000 _); [exact (proj1 (Z.leb_le _ _) sample_doc2_size)|by vm_compute].
  - apply (sample_doc2_fits opts 198).
Defined.

(** C31. Strings survive: appending a string of UTF-8 with room for six bytes for each of
    its own leaves what was there before, followed by a text that is legal inside the quotes
    of JSON and stands for the string, the NUL of two bytes as the NUL it is. *)
Theorem json_escaped_reads malloc a u max s rest :
  (forall n, 0 <= n -> zlen (malloc n) = n) ->
  append_is a u max false -> utf8_text true u -> utf8_text true s -> zlen s < 2 ^ 32 -> zlen u + 6 * zlen s <= max ->
  exists a' v, mcommon_json_append_escaped malloc (s ++ rest) (zlen s) true a = Some (true, a') /\
    append_is a' (u ++ v) max false /\ j_chars v = true /\ j_read v = one_nul s.
Proof.
  intros Hmalloc Ha Hu Hs Hz Hm. pose proof (zlen_json_escape s).
  destruct (writes_esc malloc Hmalloc max false s rest true Hs Hz u a) as (a' & E & Ht); [unfold esc_text; lia|by exists u, false|].
  change (esc_text true s) with (json_escape s) in Ht. apply tracks_fits in Ht; [|rewrite zlen_app; lia].
  exists a', (json_escape s). split; [|split; [done|split; [apply json_escape_chars|apply j_read_escape]]].
  rewrite E. unfold mcommon_string_status_from_append. destruct Ht as (_ & _ & _ & ->). done.
Qed.

Lemma json_escaped_reads_sample :
  exists a a' v, mcommon_string_set_append_with_limit (Str (lit "ab") 2 3) 60 = Some a /\
    mcommon_json_append_escaped zeros (bs [34; 0; 0xc0; 0x80; 65] ++ []) 5 true a = Some (true, a') /\
    append_is a' (txt "ab" ++ v) 60 false /\ j_chars v = true /\ j_read v = bs [34; 0; 0; 65].
Proof.
  eexists. assert (Ha : append_is (Append (Str (lit "ab") 2 3) 60 false) (txt "ab") 60 false).
  { split; [|done]. split; [done|]. split; [done|]. split; [done|]. by exists []. }
  destruct (json_escaped_reads zeros _ _ 60 (bs [34; 0; 0xc0; 0x80; 65]) [] zlen_zeros Ha) as (a' & v & H);
    [apply utf8_text_run; vm_compute; reflexivity..|done|by vm_compute|].
  exists a', v. split; [reflexivity|]. exact H.
Defined.

(** ** What the theorems leave out *)

(** The base 64 text of a binary is cut with a copy of the whole last group: with room
    for fewer of its four characters it writes past the end of the buffer, here for a
    document of 113 bytes and limits of 111 to 113. *)
Example json_binary_cut :
  let d := [(txt "x", BBinary 0 (zeros 100))] in
  zlen (enc_doc d) = 113 /\
  map (fun n => bool_decide (is_Some (bson_as_json_with_opts zeros (enc_doc d) 113 (sample_opts BSON_JSON_MODE_LEGACY n))))
    [110; 111; 112; 113; 114] = [true; false; false; false; true].
Proof. vm_compute. split; reflexivity. Qed.

(** The NUL of two bytes in a regular expression: the text is cut there. *)
Example json_regex_nul :
  let d := [(txt "r", BRegex (bs [65; 0xc0; 0x80]) []); (txt "z", BNull)] in
  as_text (bson_as_json_with_opts zeros (enc_doc d) (zlen (enc_doc d)) (sample_opts BSON_JSON_MODE_LEGACY (-1))) =
  Some (js "{ 'r' : { '$regex' : 'A }").
Proof. vm_compute. reflexivity. Qed.

(** A document inside that does not end in a zero: the error is forgotten at the
    element after it, and the text lacks a value. *)
Example json_lost_error :
  let bad := wrap_doc ([z2b 3] ++ lit "a" ++ bs [5; 0; 0; 0; 1] ++ [z2b 10] ++ lit "b") in
  as_text (bson_as_json_with_opts zeros bad (zlen bad) (sample_opts BSON_JSON_MODE_RELAXED (-1))) =
  Some (js "{ 'a' : , 'b' : null }").
Proof. vm_compute. reflexivity. Qed.
