(* ===== verification/Timegm.v ===== *)
(** Seconds since the epoch from a broken-down time ([bson/bson-timegm.c]): a
    binary search for the second whose broken-down time is the one given. *)

From S2P Require Import Prelude CString.

Definition INT_MAX : Z := 2 ^ 31 - 1.
Definition INT_MIN : Z := - 2 ^ 31.

(** An [int64_t], which must not overflow. [int_fast32_t] has 64 bits too. *)
Definition i64 (z : Z) : option Z := if (- 2 ^ 63 <=? z) && (z <=? INT64_MAX) then Some z else None.

(** ** Data *)

Record bson_tm := BsonTm {
  bt_sec : Z; bt_min : Z; bt_hour : Z; bt_mday : Z; bt_mon : Z; bt_year : Z; bt_wday : Z; bt_yday : Z; bt_isdst : Z
}.

Record ttinfo := TtInfo { tt_gmtoff : Z; tt_isdst : Z }.
Record lsinfo := LsInfo { ls_trans : Z; ls_corr : Z }.

(** What the functions read of [struct state]. *)
Record state := State {
  leapcnt : nat; timecnt : nat; typecnt : nat; types : list nat; ttis : list ttinfo; lsis : list lsinfo
}.

Definition TZ_MAX_TIMES : nat := 2000.
Definition TZ_MAX_TYPES : nat := 256.
Definition TZ_MAX_LEAPS : nat := 50.

(** [memset] and [typecnt = 1]. *)
Definition gmtload : state :=
  State 0 0 1 (replicate TZ_MAX_TIMES O) (replicate TZ_MAX_TYPES (TtInfo 0 0)) (replicate TZ_MAX_LEAPS (LsInfo 0 0)).

(** ** The calendar *)

Definition isleap (y : Z) : bool := (Z.rem y 4 =? 0) && (negb (Z.rem y 100 =? 0) || (Z.rem y 400 =? 0)).
Definition year_length (y : Z) : Z := if isleap y then 366 else 365.
Definition mon_lengths (leap : bool) : list Z := [31; if leap then 29 else 28; 31; 30; 31; 30; 31; 31; 30; 31; 30; 31].
Definition SECSPERDAY : Z := 86400.
Definition TM_YEAR_BASE : Z := 1900.
Definition EPOCH_YEAR : Z := 1970.

Definition leaps_thru_end_of (y : Z) : Z :=
  let leaps y := Z.quot y 4 - Z.quot y 100 + Z.quot y 400 in
  if 0 <=? y then leaps y else - (leaps (- (y + 1)) + 1).

(** Whether the sum leaves the range of [int], and the sum when it does not. *)
Definition increment_overflow (i j : Z) : option (bool * Z) :=
  limit ← i64 (if 0 <=? i then INT_MAX - i else INT_MIN - i);
  if (if 0 <=? i then limit <? j else j <? limit) then Some (true, i) else s ← i64 (i + j); Some (false, s).

Definition increment_overflow32 (l m : Z) : option (bool * Z) :=
  if (if 0 <=? l then INT64_MAX - l <? m else m <? - 2 ^ 63 - l) then Some (true, l) else s ← i64 (l + m); Some (false, s).

(** The units within the base, and the tens with what was carried. *)
Definition norm_delta (units base : Z) : Z := if 0 <=? units then Z.quot units base else -1 - Z.quot (-1 - units) base.
Definition normalize_overflow (tens units base : Z) : option (bool * Z * Z) :=
  let delta := norm_delta units base in
  '(over, tens) ← increment_overflow tens delta; Some (over, tens, units - delta * base).
Definition normalize_overflow32 (tens units base : Z) : option (bool * Z * Z) :=
  let delta := norm_delta units base in
  '(over, tens) ← increment_overflow32 tens delta; Some (over, tens, units - delta * base).

(** ** [timesub]: the broken-down time of a second *)

(** Leap seconds, of which UTC here has none. *)
Fixpoint hit_loop (sp : state) (i : nat) (hit : Z) : option Z :=
  match i with
  | O => Some hit
  | S i' =>
      a ← lsis sp !! i; b ← lsis sp !! i';
      if (ls_trans a =? ls_trans b + 1) && (ls_corr a =? ls_corr b + 1) then hit_loop sp i' (hit + 1) else Some hit
  end.
Fixpoint leap_loop (sp : state) (i : nat) (timep : Z) : option (Z * Z) :=
  match i with
  | O => Some (0, 0)
  | S i' =>
      lp ← lsis sp !! i';
      if ls_trans lp <=? timep then
        hit ← (if timep =? ls_trans lp then
                 hit ← (if (i' =? 0)%nat && (0 <? ls_corr lp) then Some true
                        else match i' with O => None | S i'' => prev ← lsis sp !! i''; Some (ls_corr prev <? ls_corr lp) end);
                 if (hit : bool) then hit_loop sp i' 1 else Some 0
               else Some 0);
        Some (ls_corr lp, hit)
      else leap_loop sp i' timep
  end.

(** [NULL] is [Some None]: the year leaves its range. *)
Fixpoint year_loop (fuel : nat) (y tdays : Z) : option (option (Z * Z)) :=
  match fuel with
  | O => None
  | S fuel' =>
      if (tdays <? 0) || (year_length y <=? tdays) then
        let tdelta := Z.quot tdays 366 in
        let idelta := if tdelta =? 0 then if tdays <? 0 then -1 else 1 else tdelta in
        '(over, newy) ← increment_overflow y idelta;
        if (over : bool) then Some None else
        let leapdays := leaps_thru_end_of (newy - 1) - leaps_thru_end_of (y - 1) in
        year_loop fuel' newy (tdays - (newy - y) * 365 - leapdays)
      else Some (Some (y, tdays))
  end.

Fixpoint rem_up (fuel : nat) (rem idays : Z) : option (Z * Z) :=
  match fuel with
  | O => None
  | S fuel' => if rem <? 0 then rem_up fuel' (rem + SECSPERDAY) (idays - 1) else Some (rem, idays)
  end.
Fixpoint rem_down (fuel : nat) (rem idays : Z) : option (Z * Z) :=
  match fuel with
  | O => None
  | S fuel' => if SECSPERDAY <=? rem then rem_down fuel' (rem - SECSPERDAY) (idays + 1) else Some (rem, idays)
  end.
Fixpoint days_up (fuel : nat) (y idays : Z) : option (option (Z * Z)) :=
  match fuel with
  | O => None
  | S fuel' =>
      if idays <? 0 then
        '(over, y) ← increment_overflow y (-1);
        if (over : bool) then Some None else days_up fuel' y (idays + year_length y)
      else Some (Some (y, idays))
  end.
Fixpoint days_down (fuel : nat) (y idays : Z) : option (option (Z * Z)) :=
  match fuel with
  | O => None
  | S fuel' =>
      if year_length y <=? idays then
        let idays := idays - year_length y in
        '(over, y) ← increment_overflow y 1;
        if (over : bool) then Some None else days_down fuel' y idays
      else Some (Some (y, idays))
  end.

(** The month, with [BSON_ASSERT (tm_mon < MONSPERYEAR)]. *)
Fixpoint mon_loop (fuel : nat) (leap : bool) (mon idays : Z) : option (Z * Z) :=
  match fuel with
  | O => None
  | S fuel' =>
      len ← mon_lengths leap !! Z.to_nat mon;
      if len <=? idays then
        if mon + 1 <? 12 then mon_loop fuel' leap (mon + 1) (idays - len) else None
      else Some (mon, idays)
  end.

Definition year_fuel : nat := 20.
Definition far_fuel (z : Z) : nat := S (S (Z.to_nat (Z.abs z))).

(** The fields from the year, the day of it and the second of the day. *)
Definition tm_fields (y idays rem hit : Z) (tmp : bson_tm) : option (bool * bson_tm) :=
  '(over, tm_year) ← increment_overflow y (- TM_YEAR_BASE);
  if (over : bool) then
    Some (false, BsonTm (bt_sec tmp) (bt_min tmp) (bt_hour tmp) (bt_mday tmp) (bt_mon tmp) y (bt_wday tmp) (bt_yday tmp) (bt_isdst tmp))
  else
    let wday := Z.rem (4 + Z.rem (y - EPOCH_YEAR) 7 * (365 mod 7) + leaps_thru_end_of (y - 1) -
                       leaps_thru_end_of (EPOCH_YEAR - 1) + idays) 7 in
    '(mon, mdays) ← mon_loop 12 (isleap y) 0 idays;
    let r := Z.rem rem 3600 in
    Some (true, BsonTm (Z.rem r 60 + hit) (Z.quot r 60) (Z.quot rem 3600) (mdays + 1) mon tm_year
                       (if wday <? 0 then wday + 7 else wday) idays 0).

(** The answer is whether it is not [NULL]; [tmp] is what is left in [*tmp]. *)
Definition timesub (timep offset : Z) (sp : state) (tmp : bson_tm) : option (bool * bson_tm) :=
  '(corr, hit) ← leap_loop sp (leapcnt sp) timep;
  let tdays := Z.quot timep SECSPERDAY in
  let rem := timep - tdays * SECSPERDAY in
  r ← year_loop year_fuel EPOCH_YEAR tdays;
  match r with
  | None => Some (false, tmp)
  | Some (y, tdays) =>
      let seconds := tdays * SECSPERDAY in
      let tdays := Z.quot seconds SECSPERDAY in
      let rem := rem + (seconds - tdays * SECSPERDAY) in
      rem ← i64 (rem + (offset - corr));
      '(rem, idays) ← rem_up (far_fuel (Z.quot rem SECSPERDAY)) rem tdays;
      '(rem, idays) ← rem_down (far_fuel (Z.quot rem SECSPERDAY)) rem idays;
      r ← days_up (far_fuel idays) y idays;
      match r with
      | None => Some (false, tmp)
      | Some (y, idays) =>
          r ← days_down (far_fuel idays) y idays;
          match r with
          | None => Some (false, tmp)
          | Some (y, idays) => tm_fields y idays rem hit tmp
          end
      end
  end.

Definition gmtsub (timep offset : Z) (tmp : bson_tm) : option (bool * bson_tm) := timesub timep offset gmtload tmp.

(** ** The search *)

(** Positive when [a] is later. *)
Definition tmcomp (a b : bson_tm) : option Z :=
  if negb (bt_year a =? bt_year b) then Some (if bt_year a <? bt_year b then -1 else 1) else
  d ← i64 (bt_mon a - bt_mon b); if negb (d =? 0) then Some d else
  d ← i64 (bt_mday a - bt_mday b); if negb (d =? 0) then Some d else
  d ← i64 (bt_hour a - bt_hour b); if negb (d =? 0) then Some d else
  d ← i64 (bt_min a - bt_min b); if negb (d =? 0) then Some d else
  i64 (bt_sec a - bt_sec b).

(** [mytm0] is what the uninitialised [mytm] of [time2sub] holds. *)
Section Search.
Context (funcp : Z -> Z -> bson_tm -> option (bool * bson_tm)) (offset : Z) (mytm0 : bson_tm).

(** Another second with the same fields and the other kind of time. *)
Fixpoint hunt_j (sp : state) (yourtm mytm : bson_tm) (t : Z) (i : ttinfo) (j : nat) : option (option Z * bson_tm) :=
  match j with
  | O => Some (None, mytm)
  | S j' =>
      tj ← ttis sp !! j';
      if tt_isdst tj =? bt_isdst yourtm then hunt_j sp yourtm mytm t i j' else
      newt ← i64 (t + tt_gmtoff tj - tt_gmtoff i);
      '(ok, mytm) ← funcp newt offset mytm;
      if negb ok then hunt_j sp yourtm mytm t i j' else
      c ← tmcomp mytm yourtm;
      if negb (c =? 0) || negb (bt_isdst mytm =? bt_isdst yourtm) then hunt_j sp yourtm mytm t i j'
      else Some (Some newt, mytm)
  end.
Fixpoint hunt_i (sp : state) (yourtm mytm : bson_tm) (t : Z) (i : nat) : option (option Z) :=
  match i with
  | O => Some None
  | S i' =>
      ti ← ttis sp !! i';
      if negb (tt_isdst ti =? bt_isdst yourtm) then hunt_i sp yourtm mytm t i' else
      '(r, mytm) ← hunt_j sp yourtm mytm t ti (typecnt sp);
      match r with Some newt => Some (Some newt) | None => hunt_i sp yourtm mytm t i' end
  end.

(** The second found; [Some None] is [return WRONG]. *)
Fixpoint search_loop (fuel : nat) (lo hi : Z) (yourtm mytm : bson_tm) : option (option Z) :=
  match fuel with
  | O => None
  | S fuel' =>
      let mid := Z.quot lo 2 + Z.quot hi 2 in
      let t := if mid <? lo then lo else if hi <? mid then hi else mid in
      '(ok, mytm) ← funcp t offset mytm;
      dir ← (if (ok : bool) then tmcomp mytm yourtm else Some (if 0 <? t then 1 else -1));
      if dir =? 0 then
        if (bt_isdst yourtm <? 0) || (bt_isdst mytm =? bt_isdst yourtm) then Some (Some t)
        else hunt_i gmtload yourtm mytm t (typecnt gmtload)
      else if (t =? lo) && (t =? INT64_MAX) then Some None
      else if negb (t =? lo) && (t =? hi) && (t =? - 2 ^ 63) then Some None
      else
        let '(t, lo, hi) :=
          if t =? lo then (t + 1, lo + 1, hi) else if t =? hi then (t - 1, lo, hi - 1) else (t, lo, hi) in
        if hi <? lo then Some None
        else if 0 <? dir then search_loop fuel' lo t yourtm mytm
        else search_loop fuel' t hi yourtm mytm
  end.

(** The loops that bring the day into the month. *)
Fixpoint mday_up (fuel : nat) (y mon mday : Z) : option (option (Z * Z)) :=
  match fuel with
  | O => None
  | S fuel' =>
      if mday <=? 0 then
        '(over, y) ← increment_overflow32 y (-1);
        if (over : bool) then Some None
        else li ← i64 (y + Z.b2z (1 <? mon)); mday_up fuel' y mon (mday + year_length li)
      else Some (Some (y, mday))
  end.
Fixpoint mday_down (fuel : nat) (y mon mday : Z) : option (option (Z * Z)) :=
  match fuel with
  | O => None
  | S fuel' =>
      if 366 <? mday then
        li ← i64 (y + Z.b2z (1 <? mon));
        '(over, y) ← increment_overflow32 y 1;
        if (over : bool) then Some None else mday_down fuel' y mon (mday - year_length li)
      else Some (Some (y, mday))
  end.
Fixpoint mon_norm (fuel : nat) (y mon mday : Z) : option (option (Z * Z * Z)) :=
  match fuel with
  | O => None
  | S fuel' =>
      len ← mon_lengths (isleap y) !! Z.to_nat mon;
      if mday <=? len then Some (Some (y, mon, mday))
      else if 12 <=? mon + 1 then
        '(over, y) ← increment_overflow32 y 1;
        if (over : bool) then Some None else mon_norm fuel' y 0 (mday - len)
      else mon_norm fuel' y (mon + 1) (mday - len)
  end.

(** The date normalised: the year, the month, the day, the hour, the minute and the second. *)
Definition norm_date (yourtm : bson_tm) (do_norm_secs : bool) : option (option (Z * bson_tm)) :=
  '(over1, min, sec) ← (if do_norm_secs then normalize_overflow (bt_min yourtm) (bt_sec yourtm) 60
                        else Some (false, bt_min yourtm, bt_sec yourtm));
  if (over1 : bool) then Some None else
  '(over2, hour, min) ← normalize_overflow (bt_hour yourtm) min 60;
  if (over2 : bool) then Some None else
  '(over3, mday, hour) ← normalize_overflow (bt_mday yourtm) hour 24;
  if (over3 : bool) then Some None else
  '(over4, y, mon) ← normalize_overflow32 (bt_year yourtm) (bt_mon yourtm) 12;
  if (over4 : bool) then Some None else
  '(over5, y) ← increment_overflow32 y TM_YEAR_BASE;
  if (over5 : bool) then Some None else
  r ← mday_up (far_fuel (Z.quot mday 365)) y mon mday;
  match r with
  | None => Some None
  | Some (y, mday) =>
      r ← mday_down (far_fuel (Z.quot mday 365)) y mon mday;
      match r with
      | None => Some None
      | Some (y, mday) =>
          r ← mon_norm 16 y mon mday;
          match r with
          | None => Some None
          | Some (y, mon, mday) =>
              '(over6, y) ← increment_overflow32 y (- TM_YEAR_BASE);
              if (over6 : bool) then Some None
              else Some (Some (y, BsonTm sec min hour mday mon y (bt_wday yourtm) (bt_yday yourtm) (bt_isdst yourtm)))
          end
      end
  end.

Definition set_sec (t : bson_tm) (sec : Z) : bson_tm :=
  BsonTm sec (bt_min t) (bt_hour t) (bt_mday t) (bt_mon t) (bt_year t) (bt_wday t) (bt_yday t) (bt_isdst t).
Definition set_isdst (t : bson_tm) (isdst : Z) : bson_tm :=
  BsonTm (bt_sec t) (bt_min t) (bt_hour t) (bt_mday t) (bt_mon t) (bt_year t) (bt_wday t) (bt_yday t) isdst.

(** The seconds set apart, and the rest. *)
Definition save_seconds (y : Z) (yourtm : bson_tm) : option (option (Z * bson_tm)) :=
  if (0 <=? bt_sec yourtm) && (bt_sec yourtm <? 60) then Some (Some (0, yourtm)) else
  y' ← i64 (y + TM_YEAR_BASE);
  if y' <? EPOCH_YEAR then
    '(over, sec) ← increment_overflow (bt_sec yourtm) (1 - 60);
    Some (if (over : bool) then None else Some (sec, set_sec yourtm 59))
  else Some (Some (bt_sec yourtm, set_sec yourtm 0)).

Definition search_fuel : nat := 300.

(** The second ([WRONG] when there is none), [*tmp] and [*okayp]. *)
Definition time2sub (tmp : bson_tm) (do_norm_secs : bool) : option (Z * bson_tm * bool) :=
  let WRONG := Some (-1, tmp, false) in
  r ← norm_date tmp do_norm_secs;
  match r with
  | None => WRONG
  | Some (y, yourtm) =>
      r ← save_seconds y yourtm;
      match r with
      | None => WRONG
      | Some (saved_seconds, yourtm) =>
          r ← search_loop search_fuel (- 2 ^ 63) INT64_MAX yourtm mytm0;
          match r with
          | None => WRONG
          | Some t =>
              newt ← i64 (t + saved_seconds);
              if negb (eqb (newt <? t) (saved_seconds <? 0)) then WRONG
              else '(ok, tmp) ← funcp newt offset tmp; Some (newt, tmp, ok)
          end
      end
  end.

Definition time2 (tmp : bson_tm) : option (Z * bson_tm * bool) :=
  '(t, tmp, okay) ← time2sub tmp false; if (okay : bool) then Some (t, tmp, okay) else time2sub tmp true.

(** The types of the transitions, latest first. *)
Fixpoint seen_loop (sp : state) (i : nat) (seen : list bool) (acc : list nat) : option (list nat) :=
  match i with
  | O => Some acc
  | S i' =>
      ty ← types sp !! i'; s ← seen !! ty;
      if (s : bool) then seen_loop sp i' seen acc else seen_loop sp i' (<[ty := true]> seen) (acc ++ [ty])
  end.

(** The loops that try other types: the second when one of them does, and [*tmp]. *)
Fixpoint other_loop (sp : state) (samei : nat) (others : list nat) (tmp : bson_tm) : option (option Z * bson_tm) :=
  match others with
  | [] => Some (None, tmp)
  | otheri :: others' =>
      o ← ttis sp !! otheri; s ← ttis sp !! samei;
      if tt_isdst o =? bt_isdst tmp then other_loop sp samei others' tmp else
      sec ← i64 (bt_sec tmp + (tt_gmtoff o - tt_gmtoff s));
      '(t, tmp, okay) ← time2 (set_isdst (set_sec tmp sec) (Z.b2z (bt_isdst tmp =? 0)));
      if (okay : bool) then Some (Some t, tmp) else
      sec ← i64 (bt_sec tmp - (tt_gmtoff o - tt_gmtoff s));
      other_loop sp samei others' (set_isdst (set_sec tmp sec) (Z.b2z (bt_isdst tmp =? 0)))
  end.
Fixpoint same_loop (sp : state) (sames all : list nat) (tmp : bson_tm) : option (option Z * bson_tm) :=
  match sames with
  | [] => Some (None, tmp)
  | samei :: sames' =>
      s ← ttis sp !! samei;
      if negb (tt_isdst s =? bt_isdst tmp) then same_loop sp sames' all tmp else
      '(r, tmp) ← other_loop sp samei all tmp;
      match r with Some t => Some (Some t, tmp) | None => same_loop sp sames' all tmp end
  end.

Definition time1 (tmp : bson_tm) : option (Z * bson_tm) :=
  let tmp := if 1 <? bt_isdst tmp then set_isdst tmp 1 else tmp in
  '(t, tmp, okay) ← time2 tmp;
  if (okay : bool) then Some (t, tmp) else
  if bt_isdst tmp <? 0 then Some (t, tmp) else
  let sp := gmtload in
  ts ← seen_loop sp (timecnt sp) (replicate (typecnt sp) false) [];
  '(r, tmp) ← same_loop sp ts ts tmp;
  Some (default (-1) r, tmp).

End Search.

(** The second, and what is left in [*tmp]. *)
Definition _bson_timegm (mytm0 tmp : bson_tm) : option (Z * bson_tm) := time1 gmtsub 0 mytm0 (set_isdst tmp 0).

Definition tm_zero : bson_tm := BsonTm 0 0 0 0 0 0 0 0 0.
Example timegm_ex1 : fst <$> _bson_timegm tm_zero (BsonTm 5 4 3 2 0 70 0 0 0) = Some 97445.
Proof. vm_compute. reflexivity. Qed.
Example timegm_ex2 : fst <$> _bson_timegm tm_zero (BsonTm 60 59 23 31 11 116 0 0 0) = Some 1483228800.
Proof. vm_compute. reflexivity. Qed.
Example timegm_ex3 : fst <$> _bson_timegm tm_zero (BsonTm 0 0 0 31 1 69 0 0 0) = Some (-26265600).
Proof. vm_compute. reflexivity. Qed.
