(* ===== verification/TimegmSpec.v ===== *)
(** The search of [Timegm] finds the second the calendar says. *)

From S2P Require Import Prelude CString Text Calendar.
From S2P Require Import Timegm.

(** ** Days of the calendar *)

Definition leaps (y : Z) : Z := y / 4 - y / 100 + y / 400.
Definition year_days (y : Z) : Z := if leap y then 366 else 365.

Lemma div_pred y n : 0 < n -> (y - 1) / n = y / n - (if y mod n =? 0 then 1 else 0).
Proof. intros. destruct (Z.eqb_spec (y mod n) 0); Z.to_euclidean_division_equations; nia. Qed.

Lemma leaps_pred y : leaps (y - 1) = leaps y - (if leap y then 1 else 0).
Proof.
  unfold leaps, leap. rewrite !div_pred by lia.
  destruct (Z.eqb_spec (y mod 4) 0), (Z.eqb_spec (y mod 100) 0), (Z.eqb_spec (y mod 400) 0); cbn [andb orb negb];
    Z.to_euclidean_division_equations; lia.
Qed.

Lemma leaps_succ y : leaps (y + 1) = leaps y + (if leap (y + 1) then 1 else 0).
Proof. pose proof (leaps_pred (y + 1)) as H. replace (y + 1 - 1) with y in H by lia. lia. Qed.

Lemma days_from_civil_eq y m d :
  days_from_civil y m d =
  (if m <=? 2 then 365 * (y - 1) + leaps (y - 1) else 365 * y + leaps y) +
  (153 * (if 2 <? m then m - 3 else m + 9) + 2) / 5 + d - 1 - 719468.
Proof.
  unfold days_from_civil, leaps. destruct (Z.leb_spec m 2); Z.to_euclidean_division_equations; lia.
Qed.

Lemma dfc_day y m d : days_from_civil y m d = days_from_civil y m 1 + d - 1.
Proof. rewrite !days_from_civil_eq. lia. Qed.

(** Closed tests and quotients are evaluated. *)
Ltac closed z := match z with Z0 => idtac | Zpos _ => idtac | Zneg _ => idtac | ?a + ?b => closed a; closed b | ?a - ?b => closed a; closed b | ?a * ?b => closed a; closed b end.
Ltac eval_closed t := let v := eval vm_compute in t in change t with v.
Ltac reduce_closed :=
  repeat match goal with
  | |- context [?a <=? ?b] => closed a; closed b; eval_closed (a <=? b)
  | |- context [?a <? ?b] => closed a; closed b; eval_closed (a <? b)
  | |- context [?a =? ?b] => closed a; closed b; eval_closed (a =? b)
  end; cbn [orb andb];
  repeat match goal with |- context [?a / ?b] => closed a; closed b; eval_closed (a / b) end.

(** A month is as long as it is, and December is followed by January. *)
Lemma dfc_month y m : 1 <= m <= 11 -> days_from_civil y (m + 1) 1 = days_from_civil y m 1 + days_in_month y m.
Proof.
  intros Hm. rewrite !days_from_civil_eq, leaps_pred. unfold days_in_month.
  assert (m = 1 \/ m = 2 \/ m = 3 \/ m = 4 \/ m = 5 \/ m = 6 \/ m = 7 \/ m = 8 \/ m = 9 \/ m = 10 \/ m = 11) as Hc by lia.
  destruct (leap y); repeat destruct Hc as [->|Hc]; subst; reduce_closed; lia.
Qed.
Lemma dfc_december y : days_from_civil (y + 1) 1 1 = days_from_civil y 12 1 + 31.
Proof. rewrite !days_from_civil_eq. reduce_closed. replace (y + 1 - 1) with y by lia. lia. Qed.

(** A year later is a year more, which has the 29 February that lies between. *)
Lemma dfc_year y m : days_from_civil (y + 1) m 1 = days_from_civil y m 1 + year_days (y + Z.b2z (2 <? m)).
Proof.
  rewrite !days_from_civil_eq. unfold year_days. destruct (Z.leb_spec m 2), (Z.ltb_spec 2 m); try lia; cbn [Z.b2z].
  - replace (y + 1 - 1) with y by lia. rewrite leaps_pred, Z.add_0_r. destruct (leap y); lia.
  - rewrite leaps_succ. destruct (leap (y + 1)); lia.
Qed.

Lemma year_days_range y : 365 <= year_days y <= 366.
Proof. unfold year_days. destruct (leap y); lia. Qed.

(** The first day of the year. *)
Definition jan1 (y : Z) : Z := days_from_civil y 1 1.
Lemma jan1_eq y : jan1 y = 365 * (y - 1) + leaps (y - 1) - 719162.
Proof. unfold jan1. rewrite days_from_civil_eq. reduce_closed. lia. Qed.
Lemma jan1_succ y : jan1 (y + 1) = jan1 y + year_days y.
Proof. unfold jan1. rewrite dfc_year. cbn. by rewrite Z.add_0_r. Qed.
Lemma jan1_diff y n : 0 <= n -> 365 * n <= jan1 (y + n) - jan1 y <= 366 * n.
Proof.
  revert n. apply natlike_ind; [rewrite Z.add_0_r; lia|]. intros n Hn IH.
  replace (y + Z.succ n) with (y + n + 1) by lia. rewrite jan1_succ. pose proof (year_days_range (y + n)). lia.
Qed.
Lemma jan1_le y y' : y <= y' -> 365 * (y' - y) <= jan1 y' - jan1 y <= 366 * (y' - y).
Proof. intros. pose proof (jan1_diff y (y' - y) ltac:(lia)) as H'. replace (y + (y' - y)) with y' in H' by lia. lia. Qed.

(** The first day of a month lies in the year, and the months are in order. *)
Lemma dfc_month_le y m m' : 1 <= m <= m' -> m' <= 12 -> days_from_civil y m 1 <= days_from_civil y m' 1.
Proof.
  intros Hm. replace m' with (m + (m' - m)) by lia. generalize (m' - m) (ltac:(lia) : 0 <= m' - m).
  apply (natlike_ind (fun z => m + z <= 12 -> days_from_civil y m 1 <= days_from_civil y (m + z) 1)); [rewrite Z.add_0_r; lia|].
  intros z Hz IH Hb. replace (m + Z.succ z) with (m + z + 1) by lia. rewrite dfc_month by lia.
  pose proof (days_in_month_range y (m + z)). specialize (IH ltac:(lia)). lia.
Qed.
Lemma dfc_in_year y m d : 1 <= m <= 12 -> 1 <= d <= days_in_month y m ->
  jan1 y <= days_from_civil y m d < jan1 (y + 1).
Proof.
  intros Hm Hd. rewrite dfc_day. pose proof (dfc_month_le y 1 m ltac:(lia) ltac:(lia)).
  unfold jan1. split; [lia|]. rewrite dfc_december. destruct (decide (m = 12)) as [->|].
  - change (days_in_month y 12) with 31 in Hd. lia.
  - pose proof (dfc_month_le y (m + 1) 12 ltac:(lia) ltac:(lia)) as H'. rewrite dfc_month in H' by lia. lia.
Qed.

(** ** The code's arithmetic of years *)

Lemma isleap_eq y : isleap y = leap y.
Proof.
  unfold isleap, leap. assert (E : forall n, 0 < n -> (Z.rem y n =? 0) = (y mod n =? 0)).
  { intros n Hn. apply eq_bool_prop_intro. rewrite !Is_true_true, !Z.eqb_eq, Z.rem_divide, Z.mod_divide by lia. done. }
  by rewrite !E.
Qed.
Lemma year_length_eq y : year_length y = year_days y.
Proof. unfold year_length, year_days. by rewrite isleap_eq. Qed.
Lemma leaps_thru_eq y : leaps_thru_end_of y = leaps y.
Proof.
  unfold leaps_thru_end_of, leaps. destruct (Z.leb_spec 0 y); Z.to_euclidean_division_equations; lia.
Qed.
Lemma mon_lengths_eq y mon : 0 <= mon <= 11 -> mon_lengths (isleap y) !! Z.to_nat mon = Some (days_in_month y (mon + 1)).
Proof.
  intros Hm. rewrite isleap_eq. unfold days_in_month.
  assert (mon = 0 \/ mon = 1 \/ mon = 2 \/ mon = 3 \/ mon = 4 \/ mon = 5 \/ mon = 6 \/ mon = 7 \/ mon = 8 \/ mon = 9 \/ mon = 10 \/ mon = 11) as Hc by lia.
  repeat destruct Hc as [->|Hc]; subst; try done; cbn; by destruct (leap y).
Qed.

Lemma i64_Some z : - 2 ^ 63 <= z <= INT64_MAX -> i64 z = Some z.
Proof. intros. unfold i64. by rewrite (proj2 (Z.leb_le _ _)), (proj2 (Z.leb_le _ _)) by lia. Qed.

(** An increment upwards from a year of [int], or downwards from a negative one,
    is checked; the others are not. *)
Definition over (i j : Z) : bool := if 0 <=? i then INT_MAX - i <? j else j <? INT_MIN - i.
Lemma increment_overflow_spec i j : - 2 ^ 60 <= i <= 2 ^ 60 -> - 2 ^ 60 <= j <= 2 ^ 60 ->
  increment_overflow i j = Some (if over i j then (true, i) else (false, i + j)).
Proof.
  unfold increment_overflow, over, INT_MIN, INT_MAX. intros.
  rewrite (i64_Some (i + j)) by (unfold INT64_MAX; lia).
  rewrite i64_Some by (unfold INT64_MAX; destruct (0 <=? i); lia). sbind. destruct (0 <=? i); by destruct (_ <? _).
Qed.

Lemma increment_in i j : INT_MIN <= i <= INT_MAX -> INT_MIN <= i + j <= INT_MAX -> increment_overflow i j = Some (false, i + j).
Proof.
  intros. rewrite increment_overflow_spec by (unfold INT_MIN, INT_MAX in *; lia).
  unfold over. destruct (Z.leb_spec 0 i), (Z.ltb_spec (INT_MAX - i) j), (Z.ltb_spec j (INT_MIN - i)); try done; lia.
Qed.

Lemma increment32_in l m : - 2 ^ 62 <= l <= 2 ^ 62 -> - 2 ^ 62 <= m < 2 ^ 62 -> increment_overflow32 l m = Some (false, l + m).
Proof.
  unfold increment_overflow32, INT64_MAX. intros.
  assert (E : (if 0 <=? l then 2 ^ 63 - 1 - l <? m else m <? - 2 ^ 63 - l) = false)
    by (destruct (Z.leb_spec 0 l); apply Z.ltb_ge; lia).
  rewrite E. rewrite i64_Some by (unfold INT64_MAX; lia). done.
Qed.

Lemma norm_delta_div units base : 0 < base -> norm_delta units base = units / base.
Proof. intros. unfold norm_delta. destruct (Z.leb_spec 0 units); Z.to_euclidean_division_equations; nia. Qed.

(** ** The broken-down time of a second *)

Lemma quot_366 d : (0 <= d -> 0 <= Z.quot d 366 /\ 366 * Z.quot d 366 <= d < 366 * Z.quot d 366 + 366) /\
  (d <= 0 -> Z.quot d 366 <= 0 /\ 366 * Z.quot d 366 - 366 < d <= 366 * Z.quot d 366).
Proof. Z.to_euclidean_division_equations; lia. Qed.

(** The year and the day of the year of a day; nothing when the year left its range. *)
Definition year_result (total : Z) (r : option (Z * Z)) : Prop :=
  match r with
  | Some (y, d) => 0 <= d < year_days y /\ jan1 y + d = total /\ - 2 ^ 40 <= y <= INT_MAX
  | None => 2 ^ 55 + 2 ^ 20 <= Z.abs (total * 86400)
  end.

(** The days that may be left when [n] rounds before the last ones are. *)
Fixpoint left_days (n : nat) : Z := match n with O => 731 | S n => 366 * (left_days n - 365) end.
Lemma left_days_ge n : 731 <= left_days n.
Proof. induction n; cbn [left_days]; lia. Qed.

(** A year the code steps to, and the days left then. *)
Lemma year_step y y' d : d - (y' - y) * 365 - (leaps_thru_end_of (y' - 1) - leaps_thru_end_of (y - 1)) = d - (jan1 y' - jan1 y).
Proof. rewrite !leaps_thru_eq, !jan1_eq. lia. Qed.

Lemma jan1_bounds y : 365 * y - 800000 <= jan1 y + (if y <? 1 then - y + 1 else 0) /\ jan1 y <= 366 * y - 719162 + (if y <? 1 then - y + 1 else 0).
Proof. rewrite jan1_eq. unfold leaps. destruct (Z.ltb_spec y 1); Z.to_euclidean_division_equations; lia. Qed.

Lemma year_loop_stop fuel y d : 0 <= d < year_days y -> year_loop (S fuel) y d = Some (Some (y, d)).
Proof. intros. cbn [year_loop]. rewrite year_length_eq. destruct (Z.ltb_spec d 0), (Z.leb_spec (year_days y) d); try lia. done. Qed.

Lemma year_loop_step fuel y d : (d < 0 \/ year_days y <= d) -> - 2 ^ 50 <= d <= 2 ^ 50 -> - 2 ^ 50 <= y <= 2 ^ 50 ->
  let q := if Z.quot d 366 =? 0 then if d <? 0 then -1 else 1 else Z.quot d 366 in
  year_loop (S fuel) y d = if over y q then Some None else year_loop fuel (y + q) (d - (jan1 (y + q) - jan1 y)).
Proof.
  intros Hd Hr Hy q. cbn [year_loop]. rewrite year_length_eq.
  replace ((d <? 0) || (year_days y <=? d)) with true
    by (symmetry; apply orb_true_iff; rewrite Z.ltb_lt, Z.leb_le; done).
  fold q. assert (- 2 ^ 51 <= q <= 2 ^ 51).
  { subst q. pose proof (quot_366 d). destruct (_ =? 0), (d <? 0); lia. }
  rewrite increment_overflow_spec by lia. sbind. destruct (over y q); [done|]. by rewrite year_step.
Qed.

Lemma jan1_far : 2 ^ 55 + 2 ^ 20 <= jan1 (INT_MAX + 1) * 86400 /\ jan1 (INT_MIN + 1900) * 86400 <= - (2 ^ 55 + 2 ^ 26).
Proof. split; apply Z.leb_le; vm_compute; reflexivity. Qed.

Lemma year_here total y d : 0 <= d < year_days y -> - 2 ^ 40 <= y <= INT_MAX -> jan1 y + d = total ->
  forall k, exists r, year_loop (S k) y d = Some r /\ year_result total r.
Proof. intros Hd Hy He k. eexists. split; [by apply year_loop_stop|]. unfold year_result. lia. Qed.

(** A round upwards: the rest of it is what follows from a year and days that are closer. *)
Lemma year_round_up k y d : 0 <= d <= 2 ^ 47 -> 1970 <= y <= INT_MAX ->
  (forall y' d', 0 <= d' <= 365 + d / 366 -> (d < 366 -> d' = 0) -> (d < 732 -> d' <= d - 365) -> 1970 <= y' <= INT_MAX ->
     exists r, year_loop k y' d' = Some r /\ year_result (jan1 y' + d') r) ->
  exists r, year_loop (S k) y d = Some r /\ year_result (jan1 y + d) r.
Proof.
  intros Hd Hy IH. destruct (Z_lt_ge_dec d (year_days y)) as [Hs|Hs]; [apply year_here; unfold INT_MAX in *; lia|].
  rewrite year_loop_step by (unfold INT_MAX in *; lia). cbv zeta.
  set (q := if _ =? 0 then _ else _). pose proof (year_days_range y). pose proof (jan1_succ y).
  assert (Hq : 1 <= q /\ (d < 732 -> q = 1) /\ (366 <= d -> 366 * q <= d) /\ q = Z.max 1 (d / 366)).
  { subst q. destruct (Z.ltb_spec d 0); [lia|]. rewrite Z.quot_div_nonneg by lia.
    destruct (Z.eqb_spec (d / 366) 0); Z.to_euclidean_division_equations; lia. }
  pose proof (jan1_diff y q ltac:(lia)). unfold over. destruct (Z.leb_spec 0 y); [|lia].
  assert (Hone : d < 732 -> jan1 (y + q) - jan1 y = year_days y) by (intros; replace q with 1 by lia; lia).
  destruct (Z.ltb_spec (INT_MAX - y) q).
  - exists None. split; [done|]. pose proof jan1_far. cbn [year_result].
    enough (jan1 (INT_MAX + 1) <= jan1 y + d) by lia.
    destruct (Z_lt_ge_dec d 732); [replace (INT_MAX + 1) with (y + 1) by lia; lia|].
    pose proof (jan1_le y (INT_MAX + 1) ltac:(lia)). lia.
  - destruct (IH (y + q) (d - (jan1 (y + q) - jan1 y))) as (r & Hr & Hres); [|lia|lia|lia|].
    + destruct (Z_lt_ge_dec d 732); Z.to_euclidean_division_equations; lia.
    + exists r. split; [done|]. by replace (jan1 y + d) with (jan1 (y + q) + (d - (jan1 (y + q) - jan1 y))) by lia.
Qed.

Lemma year_loop_up n y d : 0 <= d <= left_days n -> d <= 2 ^ 47 -> 1970 <= y <= INT_MAX ->
  exists r, year_loop (n + 4) y d = Some r /\ year_result (jan1 y + d) r.
Proof.
  revert y d. induction n as [|n IH]; intros y d Hd Hm Hy; cbn [left_days] in Hd; cbn [Nat.add]; (apply year_round_up; [lia|lia|]).
  - intros y1 d1 ? _ ? ?. apply year_round_up; [lia|lia|]. intros y2 d2 ? ? ? ?.
    pose proof (year_days_range y2). assert (0 <= d2 <= 1) by (Z.to_euclidean_division_equations; lia).
    apply year_here; unfold INT_MAX in *; lia.
  - intros y1 d1 ? _ ? ?. pose proof (left_days_ge n). apply IH; Z.to_euclidean_division_equations; lia.
Qed.

(** A round downwards. *)
Lemma year_round_down k y d : - 2 ^ 47 <= d < 0 -> - 2 ^ 39 <= y <= 1970 -> - 2 ^ 47 <= jan1 y + d ->
  (forall y' d', (d + 365) / 366 - 365 <= d' -> (-732 < d -> d + 365 <= d') -> d' < year_days y' -> (d' < 0 \/ d' = 0 \/ -366 < d) ->
     - 2 ^ 39 <= y' <= 1970 -> jan1 y' + d' = jan1 y + d ->
     exists r, year_loop k y' d' = Some r /\ year_result (jan1 y + d) r) ->
  exists r, year_loop (S k) y d = Some r /\ year_result (jan1 y + d) r.
Proof.
  intros Hd Hy Ht IH. rewrite year_loop_step by lia. cbv zeta.
  set (q := if _ =? 0 then _ else _). pose proof (year_days_range (y - 1)).
  pose proof (jan1_succ (y - 1)) as Hp. replace (y - 1 + 1) with y in Hp by lia.
  assert (Hq : q <= -1 /\ (-732 < d -> q = -1) /\ (d <= -366 -> 366 * q - 366 < d <= 366 * q)).
  { subst q. pose proof (quot_366 d). destruct (Z.ltb_spec d 0); [|lia]. destruct (Z.eqb_spec (Z.quot d 366) 0); lia. }
  pose proof (jan1_diff (y + q) (- q) ltac:(lia)) as Hj. replace (y + q + - q) with y in Hj by lia.
  assert (Hone : -732 < d -> jan1 (y + q) = jan1 y - year_days (y - 1))
    by (intros; replace q with (-1) by lia; change (y + -1) with (y - 1); lia).
  pose proof (year_days_range (y + q)) as Hlen.
  assert (Hlow : - 2 ^ 39 <= y + q).
  { pose proof (jan1_bounds (y + q)) as Hb. destruct (Z_lt_ge_dec (-366) d), (Z.ltb_spec (y + q) 1); lia. }
  destruct (over y q) eqn:Eo.
  - exists None. split; [done|]. cbn [year_result]. pose proof jan1_far.
    assert (y <= INT_MIN \/ -366 >= d /\ y + q <= INT_MIN) as Hc.
    { unfold over in Eo. unfold INT_MAX in *. destruct (Z.leb_spec 0 y); apply Z.ltb_lt in Eo; lia. }
    destruct Hc as [Hc|[? Hc]].
    + pose proof (jan1_le y (INT_MIN + 1900) ltac:(lia)). lia.
    + pose proof (jan1_le (y + q) (INT_MIN + 1900) ltac:(lia)). lia.
  - destruct (IH (y + q) (d - (jan1 (y + q) - jan1 y))) as (r & Hr & Hres); [..|by exists r]; try lia.
    + destruct (Z_lt_ge_dec (-366) d); Z.to_euclidean_division_equations; lia.
    + destruct (Z_lt_ge_dec (-366) d); [|lia]. replace q with (-1) in * by lia. change (y + -1) with (y - 1). lia.
Qed.

Lemma year_loop_down n y d : - left_days n <= d < year_days y -> - 2 ^ 47 <= jan1 y + d -> - 2 ^ 47 <= d -> - 2 ^ 39 <= y <= 1970 ->
  exists r, year_loop (n + 4) y d = Some r /\ year_result (jan1 y + d) r.
Proof.
  revert y d. induction n as [|n IH]; intros y d Hd Ht Hm Hy; cbn [left_days] in Hd; cbn [Nat.add];
    (destruct (Z_lt_ge_dec d 0); [|apply year_here; unfold INT_MAX; lia]); (apply year_round_down; [lia..|]).
  - intros y1 d1 ? ? ? _ ? He1. rewrite <- He1. destruct (Z_lt_ge_dec d1 0); [|apply year_here; unfold INT_MAX; lia].
    apply year_round_down; [lia..|]. intros y2 d2 ? ? ? _ ? He2. rewrite <- He2. destruct (Z_lt_ge_dec d2 0); [|apply year_here; unfold INT_MAX; lia].
    apply year_round_down; [lia..|]. intros y3 d3 ? ? ? _ ? He3. rewrite <- He3. pose proof (year_days_range y3). apply year_here; unfold INT_MAX; lia.
  - intros y1 d1 ? ? ? _ ? He. pose proof (left_days_ge n). rewrite <- He.
    apply IH; [|lia| |lia]; Z.to_euclidean_division_equations; lia.
Qed.

Lemma year_loop_spec total : - 2 ^ 47 <= total <= 2 ^ 47 -> exists r, year_loop year_fuel EPOCH_YEAR total = Some r /\ year_result total r.
Proof.
  intros Ht. change year_fuel with (16 + 4)%nat. assert (2 ^ 47 <= left_days 16) by (apply Z.leb_le; vm_compute; reflexivity).
  assert (Hj : jan1 EPOCH_YEAR = 0) by reflexivity. replace total with (jan1 EPOCH_YEAR + total) at 2 by lia.
  destruct (Z_lt_ge_dec total 0); [apply year_loop_down|apply year_loop_up]; rewrite ?Hj; unfold EPOCH_YEAR, INT_MAX;
    pose proof (year_days_range 1970); lia.
Qed.

(** ** The fields *)

Definition tm_of (t : bson_tm) : tm := Tm (bt_year t) (bt_mon t) (bt_mday t) (bt_hour t) (bt_min t) (bt_sec t).

(** [r] is the broken-down time of the second [t]. *)
Definition broken_down (t : Z) (r : bson_tm) : Prop :=
  valid_tm (tm_of r) /\ seconds_of (tm_of r) = t /\ bt_isdst r = 0 /\
  bt_wday r = (4 + t / 86400) mod 7 /\ bt_yday r = t / 86400 - jan1 (bt_year r + 1900).

Lemma mon_loop_spec n y mon idays : (Z.of_nat n = 12 - mon) -> 0 <= mon <= 11 -> 0 <= idays ->
  days_from_civil y (mon + 1) 1 + idays < jan1 (y + 1) ->
  exists mon' d, mon_loop n (isleap y) mon idays = Some (mon', d) /\ 0 <= mon' <= 11 /\ 0 <= d < days_in_month y (mon' + 1) /\
    days_from_civil y (mon' + 1) 1 + d = days_from_civil y (mon + 1) 1 + idays.
Proof.
  revert mon idays. induction n as [|n IH]; intros mon idays Hn Hm Hi Hl; [lia|].
  cbn [mon_loop]. rewrite mon_lengths_eq by done. sbind. destruct (Z.leb_spec (days_in_month y (mon + 1)) idays).
  - assert (mon <> 11).
    { intros ->. change (11 + 1) with 12 in *. unfold jan1 in Hl. rewrite dfc_december in Hl. change (days_in_month y 12) with 31 in *. lia. }
    destruct (Z.ltb_spec (mon + 1) 12); [|lia].
    destruct (IH (mon + 1) (idays - days_in_month y (mon + 1))) as (mon' & d & E & ? & ? & He); [lia..|rewrite dfc_month by lia; lia|].
    exists mon', d. rewrite He, dfc_month by lia. repeat split; try done; lia.
  - exists mon, idays. repeat split; try done; lia.
Qed.

Lemma tm_fields_spec y idays rem tmp t : - 2 ^ 41 <= y <= INT_MAX -> 0 <= idays < year_days y -> 0 <= rem < 86400 ->
  (jan1 y + idays) * 86400 + rem = t ->
  exists ok r, tm_fields y idays rem 0 tmp = Some (ok, r) /\ if (ok : bool) then broken_down t r else t < - 2 ^ 55.
Proof.
  intros Hy Hi Hr Ht. unfold tm_fields. change (- TM_YEAR_BASE) with (-1900). rewrite increment_overflow_spec by (unfold INT_MAX in *; lia). sbind.
  destruct (over y (-1900)) eqn:Eo.
  - eexists _, _. split; [done|]. cbv iota. pose proof jan1_far. unfold over, INT_MAX in *.
    assert (y <= INT_MIN + 1900) as Hc by (destruct (Z.leb_spec 0 y); apply Z.ltb_lt in Eo; lia).
    pose proof (jan1_le y (INT_MIN + 1900) Hc). pose proof (year_days_range y). lia.
  - pose proof (jan1_succ y).
    destruct (mon_loop_spec 12 y 0 idays) as (mon & d & E & Hmon & Hd & He); [lia..|change (days_from_civil y (0 + 1) 1) with (jan1 y); lia|].
    change (days_from_civil y (0 + 1) 1) with (jan1 y) in He. rewrite E. sbind.
    eexists true, _. split; [done|]. cbv iota. unfold broken_down, tm_of, valid_tm, seconds_of. cbn [bt_year bt_mon bt_mday bt_hour bt_min bt_sec bt_isdst bt_wday bt_yday tm_year tm_mon tm_mday tm_hour tm_min tm_sec].
    replace (y + -1900 + 1900) with y by lia.
    assert (Hday : t / 86400 = jan1 y + idays) by (Z.to_euclidean_division_equations; lia).
    rewrite Hday. split; [|split; [|split; [done|split]]].
    + repeat split; Z.to_euclidean_division_equations; lia.
    + rewrite dfc_day. Z.to_euclidean_division_equations; lia.
    + rewrite !leaps_thru_eq. change (leaps (EPOCH_YEAR - 1)) with 477. change (365 mod 7) with 1. pose proof (jan1_eq y) as Hj. unfold EPOCH_YEAR.
      set (a := leaps (y - 1)) in *. clearbody a. clear - Hj.
      rewrite Hj. clear Hj.
      destruct (Z.ltb_spec (Z.rem (4 + Z.rem (y - 1970) 7 * 1 + a - 477 + idays) 7) 0); Z.to_euclidean_division_equations; lia.
    + lia.
Qed.

Lemma rem_up_spec z rem idays : -86400 < rem < 86400 ->
  rem_up (far_fuel z) rem idays = Some (rem mod 86400, idays + rem / 86400).
Proof.
  intros. unfold far_fuel. cbn [rem_up]. unfold SECSPERDAY. destruct (Z.ltb_spec rem 0).
  - destruct (Z.ltb_spec (rem + 86400) 0); [lia|]. do 2 f_equal; Z.to_euclidean_division_equations; lia.
  - do 2 f_equal; Z.to_euclidean_division_equations; lia.
Qed.
Lemma rem_down_stop z rem idays : rem < 86400 -> rem_down (far_fuel z) rem idays = Some (rem, idays).
Proof. intros. unfold far_fuel. cbn [rem_down]. unfold SECSPERDAY. by destruct (Z.leb_spec 86400 rem); [lia|]. Qed.
Lemma days_down_stop z y idays : idays < year_days y -> days_down (far_fuel z) y idays = Some (Some (y, idays)).
Proof. intros. unfold far_fuel. cbn [days_down]. rewrite year_length_eq. by destruct (Z.leb_spec (year_days y) idays); [lia|]. Qed.
Lemma days_up_spec z y idays : - 2 ^ 40 <= y <= INT_MAX -> -1 <= idays < year_days y ->
  exists r, days_up (far_fuel z) y idays = Some r /\
    match r with
    | Some (y', idays') => 0 <= idays' < year_days y' /\ jan1 y' + idays' = jan1 y + idays /\ - 2 ^ 40 - 1 <= y' <= INT_MAX
    | None => jan1 y + idays < jan1 (INT_MIN + 1900)
    end.
Proof.
  intros Hy Hi. unfold far_fuel. cbn [days_up]. destruct (Z.ltb_spec idays 0).
  - rewrite increment_overflow_spec by (unfold INT_MAX in *; lia). sbind. destruct (over y (-1)) eqn:Eo.
    + eexists. split; [done|]. cbv iota. unfold over in Eo. pose proof (jan1_le y (INT_MIN + 1900)).
      destruct (Z.leb_spec 0 y); apply Z.ltb_lt in Eo; lia.
    + rewrite year_length_eq. change (y + -1) with (y - 1). pose proof (year_days_range (y - 1)).
      destruct (Z.ltb_spec (idays + year_days (y - 1)) 0); [lia|]. eexists. split; [done|]. cbv iota.
      pose proof (jan1_succ (y - 1)) as Hp. replace (y - 1 + 1) with y in Hp by lia. lia.
  - eexists. split; [done|]. cbv iota. lia.
Qed.

Lemma gmtsub_spec t tmp : - 2 ^ 63 <= t <= INT64_MAX ->
  exists ok r, gmtsub t 0 tmp = Some (ok, r) /\ if (ok : bool) then broken_down t r else 2 ^ 55 <= Z.abs t.
Proof.
  intros Ht. unfold gmtsub, timesub. cbn [leapcnt gmtload leap_loop]. sbind.
  change SECSPERDAY with 86400. set (td := Z.quot t 86400). set (rem := t - td * 86400).
  assert (Hrem : -86400 < rem < 86400 /\ (rem < 0 -> t < 0) /\ (0 < rem -> 0 < t))
    by (subst td rem; Z.to_euclidean_division_equations; lia).
  assert (Htd : td * 86400 + rem = t) by (subst rem; lia). clearbody rem.
  destruct (year_loop_spec td) as (r & E & Hres); [unfold INT64_MAX in *; lia|]. rewrite E. sbind.
  destruct r as [[y d]|]; cbn [year_result] in Hres.
  2: { eexists _, _. split; [done|]. cbv iota. lia. }
  destruct Hres as (Hd & Hj & Hy). rewrite Z.quot_mul, Z.sub_diag, !Z.add_0_r by lia.
  rewrite i64_Some by (unfold INT64_MAX in *; lia). sbind.
  rewrite rem_up_spec by lia. sbind. pose proof (Z.mod_pos_bound rem 86400 ltac:(lia)).
  rewrite rem_down_stop by lia. sbind.
  destruct (days_up_spec (d + rem / 86400) y (d + rem / 86400)) as (r & E' & Hres); [done|Z.to_euclidean_division_equations; lia|].
  rewrite E'. sbind. pose proof (Z.div_mod rem 86400 ltac:(lia)). destruct r as [[y' d']|].
  - destruct Hres as (Hd' & Hj' & Hy'). rewrite days_down_stop by lia. sbind.
    destruct (tm_fields_spec y' d' (rem mod 86400) tmp t) as (ok & r & Er & Hok); [lia|done|done|lia|].
    rewrite Er. exists ok, r. split; [done|]. destruct ok; [done|]. lia.
  - eexists _, _. split; [done|]. cbv iota. pose proof jan1_far. lia.
Qed.

(** ** The order of broken-down times *)

Lemma dfc_month_lt y m d m' : 1 <= m < m' -> m' <= 12 -> 1 <= d <= days_in_month y m -> days_from_civil y m d < days_from_civil y m' 1.
Proof.
  intros Hm Hm' Hd. rewrite dfc_day. pose proof (dfc_month_le y (m + 1) m' ltac:(lia) ltac:(lia)) as H. rewrite dfc_month in H by lia. lia.
Qed.

(** The sign of the difference of the seconds. *)
Lemma tmcomp_spec a b : valid_tm (tm_of a) -> valid_tm (tm_of b) ->
  exists c, tmcomp a b = Some c /\ Z.sgn c = Z.sgn (seconds_of (tm_of a) - seconds_of (tm_of b)).
Proof.
  destruct a as [s1 i1 h1 d1 m1 y1 w1 x1 z1], b as [s2 i2 h2 d2 m2 y2 w2 x2 z2].
  unfold valid_tm, seconds_of, tm_of, tmcomp.
  cbn [bt_year bt_mon bt_mday bt_hour bt_min bt_sec tm_year tm_mon tm_mday tm_hour tm_min tm_sec].
  intros (Hm1 & Hd1 & ? & ? & ?) (Hm2 & Hd2 & ? & ? & ?).
  pose proof (dfc_in_year (y1 + 1900) (m1 + 1) d1 ltac:(lia) Hd1) as Hy1. pose proof (dfc_in_year (y2 + 1900) (m2 + 1) d2 ltac:(lia) Hd2) as Hy2.
  pose proof (days_in_month_range (y1 + 1900) (m1 + 1)). pose proof (days_in_month_range (y2 + 1900) (m2 + 1)).
  destruct (Z.eqb_spec y1 y2) as [->|]; cbn [negb].
  2: { eexists. split; [done|]. destruct (Z.ltb_spec y1 y2).
       - pose proof (jan1_le (y1 + 1900 + 1) (y2 + 1900) ltac:(lia)). lia.
       - pose proof (jan1_le (y2 + 1900 + 1) (y1 + 1900) ltac:(lia)). lia. }
  rewrite !i64_Some by (unfold INT64_MAX; lia). sbind.
  destruct (Z.eqb_spec (m1 - m2) 0); cbn [negb].
  2: { eexists. split; [done|]. rewrite (dfc_day _ (m1 + 1) d1), (dfc_day _ (m2 + 1) d2) in *. destruct (Z_lt_ge_dec m1 m2).
       - pose proof (dfc_month_lt (y2 + 1900) (m1 + 1) d1 (m2 + 1) ltac:(lia) ltac:(lia) Hd1) as Hlt. rewrite dfc_day in Hlt. lia.
       - pose proof (dfc_month_lt (y2 + 1900) (m2 + 1) d2 (m1 + 1) ltac:(lia) ltac:(lia) Hd2) as Hlt. rewrite dfc_day in Hlt. lia. }
  replace m1 with m2 in * by lia. rewrite (dfc_day _ _ d1), (dfc_day _ _ d2).
  destruct (Z.eqb_spec (d1 - d2) 0); cbn [negb]; [|eexists; split; [done|lia]].
  destruct (Z.eqb_spec (h1 - h2) 0); cbn [negb]; [|eexists; split; [done|lia]].
  destruct (Z.eqb_spec (i1 - i2) 0); cbn [negb]; eexists; (split; [done|lia]).
Qed.

(** ** The search *)

Section SearchSpec.
Context (yourtm : bson_tm) (Hvalid : valid_tm (tm_of yourtm)) (Hdst : bt_isdst yourtm = 0).
Let T := seconds_of (tm_of yourtm).
Hypothesis HT : - 2 ^ 55 < T < 2 ^ 55.

(** A round: the second is found, or the way to it is known. *)
Lemma round_spec t mytm : - 2 ^ 63 <= t <= INT64_MAX ->
  exists ok r dir, gmtsub t 0 mytm = Some (ok, r) /\ (if (ok : bool) then tmcomp r yourtm else Some (if 0 <? t then 1 else -1)) = Some dir /\
    Z.sgn dir = Z.sgn (t - T) /\ (dir = 0 -> bt_isdst r = 0).
Proof.
  intros Ht. destruct (gmtsub_spec t mytm Ht) as (ok & r & E & Hr). exists ok, r. rewrite E. destruct ok.
  - destruct Hr as (Hv & Hs & Hd & _). destruct (tmcomp_spec r yourtm Hv Hvalid) as (c & Ec & Hc).
    exists c. rewrite Hs in Hc. done.
  - eexists. split; [done|]. split; [done|]. destruct (Z.ltb_spec 0 t); lia.
Qed.

Lemma search_step fuel lo hi mytm : - 2 ^ 63 <= lo <= T -> T <= hi <= INT64_MAX ->
  (forall lo' hi' mytm', lo <= lo' <= T -> T <= hi' <= hi -> hi' - lo' < hi - lo -> hi' - lo' <= (hi - lo) / 2 + 1 ->
    search_loop gmtsub 0 fuel lo' hi' yourtm mytm' = Some (Some T)) ->
  search_loop gmtsub 0 (S fuel) lo hi yourtm mytm = Some (Some T).
Proof.
  intros Hlo Hhi IH. cbn [search_loop]. cbv zeta.
  set (mid := Z.quot lo 2 + Z.quot hi 2). set (t := if mid <? lo then lo else if hi <? mid then hi else mid).
  assert (Ht : lo <= t <= hi /\ (t - lo <= (hi - lo) / 2 + 1) /\ (hi - t <= (hi - lo) / 2 + 1)).
  { subst t mid. destruct (Z.ltb_spec (Z.quot lo 2 + Z.quot hi 2) lo), (Z.ltb_spec hi (Z.quot lo 2 + Z.quot hi 2)); Z.to_euclidean_division_equations; lia. }
  clearbody t. clear mid. destruct (round_spec t mytm) as (ok & r & dir & E & Edir & Hsgn & Hz); [lia|].
  rewrite E. sbind. rewrite Edir. sbind. destruct (Z.eqb_spec dir 0) as [->|].
  { rewrite Hdst, Hz by done. cbn [orb Z.eqb]. do 2 f_equal. lia. }
  replace ((t =? lo) && (t =? INT64_MAX)) with false by (symmetry; apply andb_false_iff; rewrite !Z.eqb_neq; lia).
  replace (negb (t =? lo) && (t =? hi) && (t =? - 2 ^ 63)) with false
    by (symmetry; destruct (Z.eqb_spec t lo), (Z.eqb_spec t hi), (Z.eqb_spec t (- 2 ^ 63)); cbn; lia).
  destruct (Z.eqb_spec t lo) as [->|].
  { destruct (Z.ltb_spec hi (lo + 1)); [lia|]. destruct (Z.ltb_spec 0 dir); [lia|].
    apply IH; Z.to_euclidean_division_equations; lia. }
  destruct (Z.eqb_spec t hi) as [->|].
  { destruct (Z.ltb_spec (hi - 1) lo); [lia|]. destruct (Z.ltb_spec 0 dir); [|lia].
    apply IH; Z.to_euclidean_division_equations; lia. }
  destruct (Z.ltb_spec hi lo); [lia|]. destruct (Z.ltb_spec 0 dir); apply IH; lia.
Qed.

(** Four seconds are left after the halvings, and then each round drops one. *)
Lemma search_small n lo hi mytm : - 2 ^ 63 <= lo <= T -> T <= hi <= INT64_MAX -> hi - lo <= Z.of_nat n ->
  search_loop gmtsub 0 (S n) lo hi yourtm mytm = Some (Some T).
Proof.
  revert lo hi mytm. induction n as [|n IH]; intros lo hi mytm Hlo Hhi Hn; apply search_step; try done; intros; [lia|].
  apply IH; lia.
Qed.
Lemma search_finds n lo hi mytm : - 2 ^ 63 <= lo <= T -> T <= hi <= INT64_MAX -> hi - lo <= 2 ^ Z.of_nat n + 2 ->
  search_loop gmtsub 0 (n + 5) lo hi yourtm mytm = Some (Some T).
Proof.
  revert lo hi mytm. induction n as [|n IH]; intros lo hi mytm Hlo Hhi Hn; [apply search_small; lia|].
  apply search_step; try done. intros. apply IH; try lia.
  rewrite Nat2Z.inj_succ, Z.pow_succ_r in Hn by lia. Z.to_euclidean_division_equations; lia.
Qed.
Lemma search_spec mytm : search_loop gmtsub 0 search_fuel (- 2 ^ 63) INT64_MAX yourtm mytm = Some (Some T).
Proof.
  change search_fuel with (295 + 5)%nat. apply search_finds; unfold INT64_MAX; try lia.
Qed.
End SearchSpec.

(** ** Normalisation *)

(** The second the fields name, whatever their values are: months past the year
    count as years, and days, hours, minutes and seconds are added. *)
Definition fields_seconds (t : bson_tm) : Z :=
  (days_from_civil (bt_year t + 1900 + bt_mon t / 12) (bt_mon t mod 12 + 1) 1 + bt_mday t - 1) * 86400 +
  bt_hour t * 3600 + bt_min t * 60 + bt_sec t.

Lemma normalize_spec tens units base : 0 < base -> - 2 ^ 31 < tens < 2 ^ 30 -> - 2 ^ 31 < tens + units / base < 2 ^ 31 ->
  normalize_overflow tens units base = Some (false, tens + units / base, units mod base).
Proof.
  intros. unfold normalize_overflow. rewrite norm_delta_div by done.
  rewrite increment_in by (unfold INT_MIN, INT_MAX; lia). sbind.
  do 2 f_equal. rewrite Z.mod_eq by lia. lia.
Qed.
Lemma normalize32_spec tens units base : 0 < base -> - 2 ^ 61 <= tens <= 2 ^ 61 -> - 2 ^ 62 <= units / base < 2 ^ 62 ->
  normalize_overflow32 tens units base = Some (false, tens + units / base, units mod base).
Proof.
  intros. unfold normalize_overflow32. rewrite norm_delta_div by done. rewrite increment32_in by lia. sbind.
  do 2 f_equal. rewrite Z.mod_eq by lia. lia.
Qed.

Section Norm.
Context (mon : Z) (Hmon : 0 <= mon <= 11).
(** The day of a date of the month [mon]. *)
Let day (y d : Z) : Z := days_from_civil y (mon + 1) d.

Lemma day_year y d : day y (d + year_days (y + Z.b2z (1 <? mon))) = day (y + 1) d.
Proof.
  unfold day. rewrite dfc_day, (dfc_day (y + 1)), dfc_year. replace (2 <? mon + 1) with (1 <? mon); [lia|].
  destruct (Z.ltb_spec 1 mon), (Z.ltb_spec 2 (mon + 1)); lia.
Qed.

Lemma mday_up_spec fuel y mday : - 2 ^ 40 <= mday <= 2 ^ 40 -> - 2 ^ 60 <= y + Z.min 0 (mday - 1) -> y <= 2 ^ 60 -> (0 < fuel)%nat -> - mday < 365 * Z.of_nat fuel - 365 ->
  exists y' d, mday_up fuel y mon mday = Some (Some (y', d)) /\ 1 <= d <= Z.max 366 mday /\ day y' d = day y mday /\ y + Z.min 0 (mday - 1) <= y' <= y.
Proof.
  revert y mday. induction fuel as [|fuel IH]; intros y mday Hd Hy Hy2 Hf0 Hf; [lia|]. cbn [mday_up].
  destruct (Z.leb_spec mday 0); [|exists y, mday; repeat split; lia].
  rewrite increment32_in by lia. sbind. rewrite i64_Some by (unfold INT64_MAX; destruct (1 <? mon); cbn; lia). sbind.
  rewrite year_length_eq. change (y + -1) with (y - 1). pose proof (year_days_range (y - 1 + Z.b2z (1 <? mon))).
  destruct (IH (y - 1) (mday + year_days (y - 1 + Z.b2z (1 <? mon)))) as (y' & d & E & ? & He & ?); [lia..|].
  exists y', d. rewrite E, He, day_year. replace (y - 1 + 1) with y by lia. repeat split; lia.
Qed.
Lemma mday_down_spec fuel y mday : 1 <= mday <= 2 ^ 40 -> - 2 ^ 61 <= y <= 2 ^ 61 - mday -> mday < 365 * Z.of_nat fuel ->
  exists y' d, mday_down fuel y mon mday = Some (Some (y', d)) /\ 1 <= d <= 366 /\ day y' d = day y mday /\ y <= y' <= y + mday.
Proof.
  revert y mday. induction fuel as [|fuel IH]; intros y mday Hd Hy Hf; [lia|]. cbn [mday_down].
  destruct (Z.ltb_spec 366 mday); [|exists y, mday; repeat split; lia].
  rewrite i64_Some by (unfold INT64_MAX; destruct (1 <? mon); cbn; lia). sbind. rewrite increment32_in by lia. sbind.
  rewrite year_length_eq. pose proof (year_days_range (y + Z.b2z (1 <? mon))) as Hr.
  destruct (IH (y + 1) (mday - year_days (y + Z.b2z (1 <? mon)))) as (y' & d & E & ? & He & ?); [lia..|].
  exists y', d. rewrite E, He, <- day_year. replace (mday - _ + _) with mday by lia. repeat split; lia.
Qed.
End Norm.

Lemma mon_norm_spec fuel y mon mday : 0 <= mon <= 11 -> 1 <= mday <= 28 * Z.of_nat fuel -> - 2 ^ 60 <= y -> y + Z.of_nat fuel <= 2 ^ 60 ->
  exists y' mon' d, mon_norm fuel y mon mday = Some (Some (y', mon', d)) /\ 0 <= mon' <= 11 /\ 1 <= d <= days_in_month y' (mon' + 1) /\
    days_from_civil y' (mon' + 1) d = days_from_civil y (mon + 1) mday /\ y <= y' <= y + Z.of_nat fuel.
Proof.
  revert y mon mday. induction fuel as [|fuel IH]; intros y mon mday Hmon Hd Hy Hy'; [lia|].
  cbn [mon_norm]. rewrite mon_lengths_eq by done. sbind. pose proof (days_in_month_range y (mon + 1)).
  destruct (Z.leb_spec mday (days_in_month y (mon + 1))); [exists y, mon, mday; repeat split; lia|].
  destruct (Z.leb_spec 12 (mon + 1)).
  - assert (mon = 11) as -> by lia. change (days_in_month y (11 + 1)) with 31 in *. rewrite increment32_in by lia. sbind.
    destruct (IH (y + 1) 0 (mday - 31)) as (y' & mon' & d & E & ? & ? & He & ?); [lia..|]. exists y', mon', d. rewrite E, He.
    change (0 + 1) with 1. rewrite dfc_day, dfc_december, (dfc_day y (11 + 1) mday). change (11 + 1) with 12. repeat split; lia.
  - destruct (IH y (mon + 1) (mday - days_in_month y (mon + 1))) as (y' & mon' & d & E & ? & ? & He & ?); [lia..|].
    exists y', mon', d. rewrite E, He, dfc_day, dfc_month, (dfc_day y (mon + 1) mday) by lia. repeat split; lia.
Qed.

(** The fields the theorem is about. *)
Definition in_range (t : bson_tm) : Prop :=
  - 2 ^ 29 < bt_year t < 2 ^ 29 /\ - 2 ^ 30 < bt_mon t < 2 ^ 30 /\ - 2 ^ 30 < bt_mday t < 2 ^ 30 /\
  - 2 ^ 30 < bt_hour t < 2 ^ 30 /\ - 2 ^ 30 < bt_min t < 2 ^ 30 /\ - 2 ^ 30 < bt_sec t < 2 ^ 30.

(** The fields of a date, the second apart. *)
Definition normal (t : bson_tm) : Prop :=
  0 <= bt_mon t <= 11 /\ 1 <= bt_mday t <= days_in_month (bt_year t + 1900) (bt_mon t + 1) /\ 0 <= bt_hour t < 24 /\ 0 <= bt_min t < 60.

Lemma far_fuel_days d : - 2 ^ 40 <= d <= 2 ^ 40 -> (0 < far_fuel (Z.quot d 365))%nat /\
  - d < 365 * Z.of_nat (far_fuel (Z.quot d 365)) - 365 /\ d < 365 * Z.of_nat (far_fuel (Z.quot d 365)).
Proof.
  intros. unfold far_fuel. rewrite !Nat2Z.inj_succ, Z2Nat.id by lia. split; [lia|]. Z.to_euclidean_division_equations; lia.
Qed.

Lemma norm_date_spec tmp : in_range tmp -> exists y r, norm_date tmp false = Some (Some (y, r)) /\ normal r /\ y = bt_year r /\
  bt_sec r = bt_sec tmp /\ bt_isdst r = bt_isdst tmp /\ seconds_of (tm_of r) = fields_seconds tmp /\ - 2 ^ 40 <= y <= 2 ^ 40.
Proof.
  destruct tmp as [sec min hour mday mon year wday yday dst]. unfold in_range, fields_seconds, norm_date.
  cbn [bt_year bt_mon bt_mday bt_hour bt_min bt_sec bt_isdst bt_wday bt_yday]. intros (Hy & Hmon & Hd & Hh & Hi & Hs). sbind.
  set (h1 := hour + min / 60). set (d1 := mday + h1 / 24). set (y1 := year + mon / 12).
  assert (- 2 ^ 31 < h1 < 2 ^ 31 /\ - 2 ^ 31 < d1 < 2 ^ 31 /\ - 2 ^ 31 < y1 < 2 ^ 31) as (Hh1 & Hd1 & Hy1)
    by (subst d1 y1 h1; Z.to_euclidean_division_equations; lia).
  rewrite (normalize_spec hour min 60) by (try done; lia). sbind. fold h1.
  rewrite (normalize_spec mday h1 24) by (try done; lia). sbind. fold d1.
  rewrite (normalize32_spec year mon 12) by (try Z.to_euclidean_division_equations; lia). sbind. fold y1.
  rewrite increment32_in by (unfold TM_YEAR_BASE; lia). sbind. change (- TM_YEAR_BASE) with (-1900). unfold TM_YEAR_BASE.
  pose proof (Z.mod_pos_bound mon 12 ltac:(lia)) as Hm. set (m1 := mon mod 12) in *.
  destruct (far_fuel_days d1) as (Hf0 & Hf1 & _); [lia|].
  destruct (mday_up_spec m1 (far_fuel (Z.quot d1 365)) (y1 + 1900) d1) as (y2 & d2 & E2 & Hd2 & He2 & Hy2); [lia..|].
  rewrite E2. sbind. destruct (far_fuel_days d2) as (_ & _ & Hf2); [lia|].
  destruct (mday_down_spec m1 (far_fuel (Z.quot d2 365)) y2 d2) as (y3 & d3 & E3 & Hd3 & He3 & Hy3); [lia..|].
  rewrite E3. sbind.
  destruct (mon_norm_spec 16 y3 m1 d3) as (y4 & m4 & d4 & E4 & Hm4 & Hd4 & He4 & Hy4); [lia..|].
  rewrite E4. sbind. rewrite increment32_in by lia. sbind. eexists _, _. split; [done|].
  unfold normal, seconds_of, tm_of. cbn [bt_year bt_mon bt_mday bt_hour bt_min bt_sec bt_isdst bt_wday bt_yday tm_year tm_mon tm_mday tm_hour tm_min tm_sec].
  replace (y4 + -1900 + 1900) with y4 by lia. rewrite He4, He3, He2.
  pose proof (Z.mod_pos_bound h1 24 ltac:(lia)). pose proof (Z.mod_pos_bound min 60 ltac:(lia)).
  split; [split; [done|split; [done|lia]]|]. do 3 (split; [done|]). split; [|clear -Hy4 Hy3 Hy2 Hd2 Hd1 Hy1; lia].
  rewrite dfc_day. replace (year + 1900 + mon / 12) with (y1 + 1900) by (clear; lia). clear -m1 d1.
  subst d1. pose proof (Z.div_mod h1 24 ltac:(lia)). pose proof (Z.div_mod min 60 ltac:(lia)). lia.
Qed.

(** The seconds are set apart when they are not of a minute. *)
Lemma save_seconds_spec y r : normal r -> - 2 ^ 30 < bt_sec r < 2 ^ 30 -> - 2 ^ 40 <= y <= 2 ^ 40 ->
  exists saved r', save_seconds y r = Some (Some (saved, r')) /\ valid_tm (tm_of r') /\ bt_isdst r' = bt_isdst r /\
    seconds_of (tm_of r') + saved = seconds_of (tm_of r) /\ - 2 ^ 31 < saved < 2 ^ 31.
Proof.
  intros (Hm & Hd & Hh & Hi) Hs Hy. unfold save_seconds, valid_tm, seconds_of, TM_YEAR_BASE.
  destruct (Z.leb_spec 0 (bt_sec r)), (Z.ltb_spec (bt_sec r) 60); cbn [andb];
    [exists 0, r; repeat split; try done; cbn; lia| | |];
    (rewrite i64_Some by (unfold INT64_MAX; lia)); sbind; unfold EPOCH_YEAR; (destruct (Z.ltb_spec (y + 1900) 1970);
      [rewrite increment_in by (unfold INT_MIN, INT_MAX; lia); sbind; exists (bt_sec r + (1 - 60)), (set_sec r 59)
      |exists (bt_sec r), (set_sec r 0)]); repeat split; try done; cbn; lia.
Qed.

Lemma broken_down_in_range t : - 2 ^ 55 < t < 2 ^ 55 -> - 2 ^ 63 <= t <= INT64_MAX.
Proof. unfold INT64_MAX. lia. Qed.

Lemma fields_seconds_range tmp : in_range tmp -> - (2 ^ 55 - 2 ^ 50) < fields_seconds tmp < 2 ^ 55 - 2 ^ 50.
Proof.
  intros (Hy & Hmon & Hd & Hh & Hi & Hs). unfold fields_seconds.
  set (y := bt_year tmp + 1900 + bt_mon tmp / 12).
  assert (Hy' : - 2 ^ 29 - 2 ^ 27 < y < 2 ^ 29 + 2 ^ 27) by (subst y; Z.to_euclidean_division_equations; lia).
  pose proof (Z.mod_pos_bound (bt_mon tmp) 12 ltac:(lia)). set (m := bt_mon tmp mod 12 + 1).
  pose proof (dfc_in_year y m 1 ltac:(lia) ltac:(pose proof (days_in_month_range y m); lia)) as Hj.
  pose proof (jan1_succ y). pose proof (year_days_range y). pose proof (jan1_bounds y) as Hb. destruct (Z.ltb_spec y 1); lia.
Qed.

(** A bind of a value: the kernel does not compare what is bound with the search. *)
Lemma bind_some {A B} (f : A -> option B) x : (Some x ≫= f) = f x.
Proof. reflexivity. Qed.
Ltac stepb := rewrite bind_some; cbv beta iota.

Lemma time2sub_spec mytm0 tmp : in_range tmp -> bt_isdst tmp = 0 ->
  exists r, time2sub gmtsub 0 mytm0 tmp false = Some (fields_seconds tmp, r, true) /\ broken_down (fields_seconds tmp) r.
Proof.
  intros Hr Hdst0. pose proof (fields_seconds_range tmp Hr) as HT. unfold time2sub.
  destruct (norm_date_spec tmp Hr) as (y & r & E & Hn & Hy & Hsec & Hdst & Hsecs & Hyr). rewrite E. stepb.
  destruct (save_seconds_spec y r Hn) as (saved & r' & E' & Hv & Hdst' & Hsum & Hsv); [rewrite Hsec; apply Hr|done|].
  rewrite E'. stepb. rewrite search_spec; [|done|by rewrite Hdst', Hdst|lia]. stepb.
  rewrite i64_Some by (unfold INT64_MAX; lia). stepb.
  replace (seconds_of (tm_of r') + saved) with (fields_seconds tmp) by lia.
  replace (negb _) with false by (destruct (Z.ltb_spec (fields_seconds tmp) (seconds_of (tm_of r'))), (Z.ltb_spec saved 0); try lia; done).
  destruct (gmtsub_spec (fields_seconds tmp) tmp) as (ok & q & Eq & Hq); [unfold INT64_MAX; lia|]. rewrite Eq. stepb.
  destruct ok; [by exists q|lia].
Qed.

Lemma timegm_spec mytm0 tmp : in_range tmp ->
  exists r, _bson_timegm mytm0 tmp = Some (fields_seconds tmp, r) /\ broken_down (fields_seconds tmp) r.
Proof.
  intros Hr. destruct (time2sub_spec mytm0 (set_isdst tmp 0) Hr) as (r & E & Hb); [done|].
  exists r. split; [|done]. unfold _bson_timegm, time1, time2. change (1 <? bt_isdst (set_isdst tmp 0)) with false. cbv iota.
  rewrite E. sbind. done.
Qed.
