(* ===== verification/Iso8601.v ===== *)
(** Dates in the text of ISO 8601 ([bson/bson-iso8601.c]), against a reference reader and a
    grammar. *)

From Stdlib Require Import Strings.String.
From S2P Require Import Prelude CString Text Decimal128 Decimal128Spec Decimal128Read Calendar StringFormat BsonVisit Json JsonSpec Timegm TimegmSpec.

(** ** Tokens *)

(** [*terminal] of a literal is one of its characters. *)
Definition is_terminal (terminals : string) (c : byte) : bool := existsb (byte_eqb c) (txt terminals).

(** Whether a terminal was found, and [*ptr], [*remaining] and [*out_len]. *)
Fixpoint tok_loop (fuel : nat) (terminals : string) (str : bytes) (ptr remaining out_len : Z) (found_terminal : bool) :
  option (bool * Z * Z * Z) :=
  match fuel with
  | O => None
  | S fuel' =>
      if negb (remaining =? 0) && negb found_terminal then
        c ← rd str ptr; remaining' ← int_ok (remaining - 1); out_len' ← int_ok (out_len + 1);
        tok_loop fuel' terminals str (ptr + 1) remaining' out_len' (is_terminal terminals c)
      else Some (found_terminal, ptr, remaining, out_len)
  end.

(** Whether a terminal was found, [*ptr], [*remaining], and the token: its place
    and its length. The token set when nothing remains is set again below. *)
Definition get_tok (terminals : string) (str : bytes) (ptr remaining : Z) : option (bool * Z * Z * (Z * Z)) :=
  '(found_terminal, ptr', remaining', out_len) ← tok_loop (S (Z.to_nat remaining)) terminals str ptr remaining (-1) false;
  out_len ← (if negb found_terminal then int_ok (out_len + 1) else Some out_len);
  Some (found_terminal, ptr', remaining', (ptr, out_len)).

(** ** Numbers *)

Fixpoint digits_loop (n : nat) (str : bytes) (i : Z) : option bool :=
  match n with
  | O => Some true
  | S n' => c ← rd str i; if isdigit c then digits_loop n' str (i + 1) else Some false
  end.
Definition digits_only (str : bytes) (ptr len : Z) : option bool := digits_loop (Z.to_nat len) str ptr.

(** From the last digit to the first. *)
Fixpoint num_loop (n : nat) (str : bytes) (last magnitude value : Z) : option Z :=
  match n with
  | O => Some value
  | S n' =>
      c ← rd str last; v ← int_ok ((b2z c - 48) * magnitude); value ← int_ok (value + v); magnitude ← int_ok (magnitude * 10);
      num_loop n' str (last - 1) magnitude value
  end.

Definition parse_num (str : bytes) (ptr len digits min max : Z) : option (option Z) :=
  if (0 <=? digits) && negb (len =? digits) then Some None else
  d ← digits_only str ptr len;
  if negb d then Some None else
  value ← num_loop (Z.to_nat len) str (ptr + len - 1) 1 0;
  Some (if (value <? min) || (max <? value) then None else Some value).

(** ** Dates *)

(** A step of the parse: undefined behaviour, [DATE_PARSE_ERR] of a message, or a value. *)
Abbreviation step A := (option (string + A)).
Definition ok {A} (a : A) : step A := Some (inr a).
Definition DATE_PARSE_ERR {A} (msg : string) : step A := Some (inl msg).
Definition then_ {A B} (x : step A) (f : A -> step B) : step B :=
  match x with None => None | Some (inl msg) => Some (inl msg) | Some (inr a) => f a end.
Notation "x ←? e ; k" := (then_ e (fun x => k)) (at level 20, e at level 100, k at level 200, only parsing).
Notation "' x ←? e ; k" := (then_ e (fun y => let x := y in k)) (at level 20, x pattern, e at level 100, k at level 200, only parsing).

(** A number the parse needs. *)
Definition or_err {A} (r : option (option A)) (msg : string) : step A :=
  r ← r; match r with Some a => ok a | None => DATE_PARSE_ERR msg end.

Definition DEFAULT_DATE_PARSE_ERR : string :=
  "use ISO8601 format yyyy-mm-ddThh:mm plus timezone, either 'Z' or like '+0500' or like '+05:00'"%string.

(** A token whose terminal has to be there. *)
Definition must_tok (terminals : string) (str : bytes) (p : Z * Z) : step ((Z * Z) * (Z * Z)) :=
  '(found, ptr, remaining, tok) ← get_tok terminals str (fst p) (snd p);
  if (found : bool) then ok ((ptr, remaining), tok) else DATE_PARSE_ERR DEFAULT_DATE_PARSE_ERR.

(** Seconds follow a minute that ends in a colon, and milliseconds follow seconds
    that end in a point. The token is empty when there are none. *)
Definition more_tok (terminals : string) (short empty : string) (there : bool) (str : bytes) (p : Z * Z) : step ((Z * Z) * (Z * Z)) :=
  if negb there then ok (p, (0, 0)) else
  if snd p <? 2 then DATE_PARSE_ERR short else
  '(_, ptr, remaining, tok) ← get_tok terminals str (fst p) (snd p);
  if snd tok =? 0 then DATE_PARSE_ERR empty else ok ((ptr, remaining), tok).

(** The value of the timezone, in seconds to add. *)
Definition tz_adjustment (str : bytes) (tz_ptr tz_len : Z) : step Z :=
  if negb (0 <? tz_len) then ok 0 else
  c ← rd str tz_ptr;
  if (b2z c =? 90) && (tz_len =? 1) then ok 0
  else if (b2z c =? 43) || (b2z c =? 45) then
    bad ← (b1 ← (if negb (tz_len =? 5) then Some true else d ← digits_only str (tz_ptr + 1) 4; Some (negb d));
           if negb b1 then Some false else
           if negb (tz_len =? 6) then Some true else
           d ← digits_only str (tz_ptr + 1) 2; if negb d then Some true else
           c3 ← rd str (tz_ptr + 3); if negb (b2z c3 =? 58) then Some true else
           d ← digits_only str (tz_ptr + 4) 2; Some (negb d));
    if (bad : bool) then DATE_PARSE_ERR "could not parse timezone" else
    tz_hour ←? or_err (parse_num str (tz_ptr + 1) 2 (-1) (-23) 23) "timezone hour must be at most 23";
    c3 ← rd str (tz_ptr + 3);
    let tz_min_offset := Z.b2z (b2z c3 =? 58) in
    tz_min ←? or_err (parse_num str (tz_ptr + 3 + tz_min_offset) 2 (-1) 0 59) "timezone minute must be at most 59";
    let tz_adjustment := (if b2z c =? 45 then 1 else -1) * (tz_min * 60 + tz_hour * 60 * 60) in
    if (-86400 <? tz_adjustment) && (tz_adjustment <? 86400) then ok tz_adjustment
    else DATE_PARSE_ERR "timezone offset must be less than 24 hours"
  else DATE_PARSE_ERR "timezone is required".

Definition millis_value (str : bytes) (millis_ptr millis_len : Z) : step Z :=
  if negb (0 <? millis_len) then ok 0 else
  bad ← (if 3 <? millis_len then Some true else d ← digits_only str millis_ptr millis_len; Some (negb d));
  if (bad : bool) then DATE_PARSE_ERR "milliseconds must be an integer" else
  millis ← num_loop (Z.to_nat millis_len) str (millis_ptr + millis_len - 1) 1 0;
  let millis := if millis_len =? 1 then millis * 100 else if millis_len =? 2 then millis * 10 else millis in
  if (millis <? 0) || (1000 <? millis) then DATE_PARSE_ERR "milliseconds must be at least 0 and less than 1000" else ok millis.

(** The tokens, then the values, then the second. *)
Definition date_parse (mytm0 : bson_tm) (str : bytes) (len : Z) : step Z :=
  '(p, year) ←? must_tok "-" str (0, len);
  '(p, month) ←? must_tok "-" str p;
  '(p, day) ←? must_tok "T" str p;
  '(p, hour) ←? must_tok ":" str p;
  '(p, min) ←? must_tok ":+-Z" str p;
  c ← rd str (fst min + snd min);
  '(p, sec) ←? more_tok ".+-Z" "reached end of date while looking for seconds" "minute ends in ':' seconds is required"
                        (b2z c =? 58) str p;
  point ← (if snd sec =? 0 then Some false else c ← rd str (fst sec + snd sec); Some (b2z c =? 46));
  '(p, millis) ←? more_tok "+-Z" "reached end of date while looking for milliseconds" "seconds ends in '.', milliseconds is required"
                           point str p;
  '(_, _, _, tz) ← get_tok "" str (fst p - 1) (snd p + 1);
  tm_year ←? or_err (parse_num str (fst year) (snd year) 4 (-9999) 9999) "year must be an integer";
  tm_mon ←? or_err (parse_num str (fst month) (snd month) 2 1 12) "month must be an integer";
  tm_mday ←? or_err (parse_num str (fst day) (snd day) 2 1 31) "day must be an integer";
  tm_hour ←? or_err (parse_num str (fst hour) (snd hour) 2 0 23) "hour must be an integer";
  tm_min ←? or_err (parse_num str (fst min) (snd min) 2 0 59) "minute must be an integer";
  tm_sec ←? (if snd sec =? 0 then ok 0
             else or_err (parse_num str (fst sec) (snd sec) 2 0 60) "seconds must be an integer");
  tz_adj ←? tz_adjustment str (fst tz) (snd tz);
  millis ←? millis_value str (fst millis) (snd millis);
  '(t, _) ← _bson_timegm mytm0 (BsonTm tm_sec tm_min tm_hour tm_mday (tm_mon - 1) (tm_year - 1900) 0 0 0);
  t ← i64 (1000 * t); t ← i64 (t + millis); t ← i64 (t + tz_adj * 1000); ok t.

Definition BSON_ERROR_JSON : Z := 1.
Definition BSON_JSON_ERROR_READ_INVALID_PARAM : Z := 2.

(** The milliseconds, or the error that is set. *)
Definition _bson_iso8601_date_parse (mytm0 : bson_tm) (str : bytes) (len : Z) : option (bson_error_t + Z) :=
  r ← date_parse mytm0 str len;
  match r with
  | inr t => Some (inr t)
  | inl msg =>
      s ← cstr str;
      Some (inl (bson_set_error BSON_ERROR_JSON BSON_JSON_ERROR_READ_INVALID_PARAM (js "Could not parse '" ++ s ++ js "' as date: " ++ js msg)))
  end.

Definition parse_ex (s : string) : option (bson_error_t + Z) := _bson_iso8601_date_parse tm_zero (lit s) (zlen (txt s)).
Example iso_ex1 : parse_ex "1970-01-01T00:00:00Z" = Some (inr 0).
Proof. vm_compute. reflexivity. Qed.
Example iso_ex2 : parse_ex "2016-12-13T12:34:56.123Z" = Some (inr 1481632496123).
Proof. vm_compute. reflexivity. Qed.
Example iso_ex3 : parse_ex "2016-12-13T12:34:56.12+05:30" = Some (inr 1481612696120).
Proof. vm_compute. reflexivity. Qed.
Example iso_ex4 : parse_ex "2016-12-13T12:34:56" =
  Some (inl (BsonError 1 2 (js "Could not parse '2016-12-13T12:34:56' as date: timezone is required"))).
Proof. vm_compute. reflexivity. Qed.

(** ** A reference parse, on the text alone *)

(** The text before the first terminal, and the rest from it on. *)
Fixpoint split_at (ts : string) (s : bytes) : bytes * bytes :=
  match s with
  | [] => ([], [])
  | c :: s' => if is_terminal ts c then ([], s) else let '(t, r) := split_at ts s' in (c :: t, r)
  end.

Definition num (t : bytes) (digits min max : Z) : option Z :=
  if (0 <=? digits) && negb (zlen t =? digits) then None else
  if negb (forallb isdigit t) then None else
  if (undec t <? min) || (max <? undec t) then None else Some (undec t).

Lemma split_at_app ts s : fst (split_at ts s) ++ snd (split_at ts s) = s.
Proof.
  induction s as [|c s IH]; [done|]. cbn [split_at]. destruct (is_terminal ts c); [done|].
  destruct (split_at ts s) as [t r]. cbn in *. by rewrite IH.
Qed.

Lemma digits_all s : forallb isdigit s = true <-> Decimal128Spec.digits_only s.
Proof. unfold Decimal128Spec.digits_only. rewrite forallb_forall, Forall_forall. setoid_rewrite list_elem_of_In. done. Qed.

Lemma num_Some t digits min max v : num t digits min max = Some v ->
  (0 <= digits -> zlen t = digits) /\ forallb isdigit t = true /\ v = undec t /\ 0 <= v < 10 ^ zlen t /\ min <= v <= max.
Proof.
  unfold num. destruct (_ && _) eqn:E1; [done|]. destruct (forallb isdigit t) eqn:E2; [|done]. cbn [negb].
  destruct (Z.ltb_spec (undec t) min), (Z.ltb_spec max (undec t)); try done. intros [= <-].
  split; [destruct (Z.leb_spec 0 digits), (Z.eqb_spec (zlen t) digits); try done; lia|].
  split; [done|]. split; [done|]. split; [by apply undec_range, digits_all|lia].
Qed.

(** ** Places in the text *)

Section Places.
Context (m : bytes).

(** The text from the place on, up to its terminator; and a part of it. *)
Definition cursor (p : Z * Z) (s : bytes) : Prop := exists pre post, m = pre ++ s ++ x00 :: post /\ p = (zlen pre, zlen s).
Definition token (t : Z * Z) (s : bytes) : Prop := exists pre post, m = pre ++ s ++ post /\ t = (zlen pre, zlen s).

Lemma token_rd a n s k c : token (a, n) s -> s !! Z.to_nat k = Some c -> 0 <= k -> rd m (a + k) = Some c.
Proof.
  intros (pre & post & -> & [= -> ->]) Hk H0. apply lookup_lt_Some in Hk as Hlt.
  rewrite rd_app_r by lia. replace (zlen pre + k - zlen pre) with k by lia.
  rewrite rd_app_l by (unfold zlen; lia). apply rd_Some_iff. done.
Qed.
Lemma token_sub a n x y z : token (a, n) (x ++ y ++ z) -> token (a + zlen x, zlen y) y.
Proof.
  intros (pre & post & Hm & [= -> ->]). exists (pre ++ x), (z ++ post). rewrite Hm, <- !app_assoc. split; [done|]. f_equal; zl.
Qed.
Lemma cursor_token p s : cursor p s -> token p s.
Proof. intros (pre & post & -> & ->). by exists pre, (x00 :: post). Qed.

Lemma digits_loop_spec a n s : token (a, n) s -> digits_loop (length s) m a = Some (forallb isdigit s).
Proof.
  revert a n. induction s as [|c s IH]; intros a n Ht; [done|]. cbn [length digits_loop].
  pose proof (token_rd a n (c :: s) 0 c Ht eq_refl ltac:(lia)) as Hr. rewrite Z.add_0_r in Hr. rewrite Hr. sbind.
  cbn [forallb]. destruct (isdigit c); [|done]. cbn [andb].
  apply (IH _ (zlen s)). replace (a + 1) with (a + zlen [c]) by done. apply (token_sub a n [c] s []). rewrite app_nil_r. exact Ht.
Qed.
Lemma digits_only_spec a n s : token (a, n) s -> digits_only m a n = Some (forallb isdigit s).
Proof. intros Ht. pose proof Ht as (pre & post & _ & [= _ ->]). unfold digits_only. rewrite to_nat_zlen. by eapply digits_loop_spec. Qed.

Lemma isdigit_value c : isdigit c = true -> 0 <= b2z c - 48 <= 9.
Proof. unfold isdigit. rewrite andb_true_iff, !Z.leb_le. lia. Qed.

Lemma int_ok_Some z : - 2 ^ 31 <= z <= INT32_MAX -> int_ok z = Some z.
Proof. intros. unfold int_ok. by rewrite (proj2 (Z.leb_le _ _)), (proj2 (Z.leb_le _ _)) by lia. Qed.

Lemma num_loop_spec k a n s value : token (a, n) s -> forallb isdigit s = true -> (k + length s <= 9)%nat -> 0 <= value < 10 ^ Z.of_nat k ->
  num_loop (length s) m (a + n - 1) (10 ^ Z.of_nat k) value = Some (value + 10 ^ Z.of_nat k * undec s).
Proof.
  revert k n value. induction s as [|c s IH] using rev_ind; intros k n value Ht Hd Hk Hv.
  { cbn. f_equal. change (undec []) with 0. lia. }
  pose proof Ht as (pre & post & _ & [= _ Hn]). rewrite length_app, Nat.add_1_r in Hk |- *. cbn [num_loop].
  rewrite forallb_app in Hd. apply andb_true_iff in Hd as [Hd Hc]. cbn [forallb] in Hc. rewrite andb_true_r in Hc.
  rewrite zlen_app, zlen_1 in Hn.
  assert (Hlast : rd m (a + n - 1) = Some c).
  { replace (a + n - 1) with (a + zlen s) by lia. eapply token_rd; [exact Ht| |zl]. rewrite to_nat_zlen, lookup_app_r, Nat.sub_diag by lia. done. }
  rewrite Hlast. sbind. pose proof (isdigit_value c Hc).
  assert (Hp : 0 < 10 ^ Z.of_nat k /\ 10 ^ Z.of_nat (S k) = 10 * 10 ^ Z.of_nat k /\ 10 ^ Z.of_nat (S k) <= 10 ^ 9).
  { split; [lia|]. split; [rewrite Nat2Z.inj_succ, Z.pow_succ_r; lia|]. apply Z.pow_le_mono_r; lia. }
  destruct Hp as (Hp & Hs & Hb). set (mag := 10 ^ Z.of_nat k) in *.
  rewrite !int_ok_Some by (unfold INT32_MAX; nia). sbind. rewrite int_ok_Some by (unfold INT32_MAX; nia). sbind. rewrite (Z.mul_comm mag 10), <- Hs.
  rewrite undec_snoc. replace (a + n - 1 - 1) with (a + (n - 1) - 1) by lia.
  rewrite (IH (S k)); [rewrite Hs; f_equal; lia| |done|lia|rewrite Hs; nia].
  replace (n - 1) with (zlen s) by lia. replace a with (a + zlen (@nil byte)) by (rewrite zlen_nil; lia). apply (token_sub a n [] s [c]). exact Ht.
Qed.

Lemma parse_num_spec a n s digits min max : token (a, n) s -> digits <= 9 -> (digits < 0 -> n <= 9) ->
  parse_num m a n digits min max = Some (num s digits min max).
Proof.
  intros Ht Hd Hn. pose proof Ht as (pre & post & _ & [= _ En]). unfold parse_num, num. rewrite <- En.
  destruct (Z.leb_spec 0 digits), (Z.eqb_spec n digits); cbn [andb negb]; try done;
    (rewrite (digits_only_spec a n s Ht); sbind; destruct (forallb isdigit s) eqn:Ed; [|done]; cbn [negb]; rewrite En, to_nat_zlen, <- En;
     assert (n <= 9) by lia; pose proof (num_loop_spec 0 a n s 0 Ht Ed) as E; change (10 ^ Z.of_nat 0) with 1 in E;
     rewrite E by (unfold zlen in *; lia); sbind; by rewrite Z.mul_1_l, Z.add_0_l).
Qed.

(** ** Tokens *)

(** What is left after a token: the terminal and what follows, or its last character. *)
Definition next (p : Z * Z) (rest : bytes) : Prop :=
  match rest with [] => exists pre post, m = pre ++ x00 :: post /\ p = (zlen pre, 0) | _ :: r => cursor p r end.

Lemma tok_loop_read fuel ts ptr remaining n c : rd m ptr = Some c -> 0 < remaining <= INT32_MAX -> -1 <= n < INT32_MAX ->
  tok_loop (S fuel) ts m ptr remaining n false = tok_loop fuel ts m (ptr + 1) (remaining - 1) (n + 1) (is_terminal ts c).
Proof.
  intros Hr Hrem Hn. cbn [tok_loop]. destruct (Z.eqb_spec remaining 0); [lia|]. cbn [negb andb]. rewrite Hr. sbind.
  unfold INT32_MAX in *. rewrite !int_ok_Some by (unfold INT32_MAX; lia). done.
Qed.
Lemma tok_loop_stop fuel ts ptr remaining n found : remaining = 0 \/ found = true ->
  tok_loop (S fuel) ts m ptr remaining n found = Some (found, ptr, remaining, n).
Proof. intros [-> | ->]; cbn [tok_loop]; [done|]. by rewrite andb_false_r. Qed.

Lemma tok_loop_spec fuel ts pre s post n : m = pre ++ s ++ x00 :: post -> (length s < fuel)%nat -> 0 <= n -> n + zlen s <= INT32_MAX ->
  let '(t, rest) := split_at ts s in
  tok_loop fuel ts m (zlen pre) (zlen s) (n - 1) false =
  Some match rest with
       | [] => (false, zlen pre + zlen s, 0, n - 1 + zlen s)
       | _ :: r => (true, zlen pre + zlen t + 1, zlen r, n + zlen t)
       end.
Proof.
  revert fuel pre n. induction s as [|c s IH]; intros [|fuel] pre n Hm Hf Hn Hs; cbn [length] in Hf; try lia; cbn [split_at].
  { rewrite tok_loop_stop by (left; done). change (zlen (@nil byte)) with 0. do 2 f_equal; [do 2 f_equal; lia|lia]. }
  assert (Hr : rd m (zlen pre) = Some c) by (rewrite Hm; by apply rd_at).
  rewrite zlen_cons in *. rewrite (tok_loop_read _ _ _ _ _ c) by (done || zl). replace (1 + zlen s - 1) with (zlen s) by lia.
  destruct (is_terminal ts c).
  { destruct fuel; [lia|]. rewrite tok_loop_stop by (right; done). change (zlen (@nil byte)) with 0. do 2 f_equal; [do 2 f_equal; lia|lia]. }
  specialize (IH fuel (pre ++ [c]) (n + 1)). rewrite <- app_assoc in IH. specialize (IH Hm ltac:(lia) ltac:(lia) ltac:(lia)).
  replace (n + 1 - 1) with (n - 1 + 1) in IH by lia. rewrite zlen_app, zlen_1 in IH.
  destruct (split_at ts s) as [t rest]. rewrite IH. f_equal. rewrite zlen_cons.
  destruct rest; (f_equal; [do 2 f_equal|]); lia.
Qed.

(** The token, what is left, and the character after the token. *)
Lemma get_tok_spec ts p s : cursor p s -> zlen s < INT32_MAX ->
  let '(t, rest) := split_at ts s in
  exists p' tok, get_tok ts m (fst p) (snd p) = Some (negb (bool_decide (rest = [])), fst p', snd p', tok) /\
    token tok t /\ next p' rest /\ snd tok = zlen t /\ rd m (fst tok + snd tok) = Some (hd x00 rest) /\
    (* one character back *)
    (s <> [] -> cursor (fst p' - 1, snd p' + 1) (match rest with [] => drop (length t - 1) t | _ => rest end)).
Proof.
  intros (pre & post & Hm & ->) Hs. cbn [fst snd]. pose proof (split_at_app ts s) as Happ.
  pose proof (tok_loop_spec (S (Z.to_nat (zlen s))) ts pre s post 0 Hm) as Hl.
  rewrite to_nat_zlen in Hl. specialize (Hl ltac:(lia) ltac:(lia) ltac:(lia)).
  unfold get_tok. rewrite to_nat_zlen. change (-1) with (0 - 1).
  destruct (split_at ts s) as [t rest]. cbn [fst snd] in Happ. rewrite Hl. sbind. subst s. destruct rest as [|c r]; cbn [negb].
  - rewrite app_nil_r in *. rewrite int_ok_Some by zl. sbind. exists (zlen pre + zlen t, 0), (zlen pre, zlen t). cbn [fst snd].
    split; [do 3 f_equal; lia|]. split; [by exists pre, (x00 :: post)|]. split.
    { exists (pre ++ t), post. rewrite <- app_assoc, zlen_app. done. }
    split; [done|]. split.
    { rewrite Hm, app_assoc. rewrite (rd_at (pre ++ t) x00 post); [done|]. rewrite zlen_app. lia. }
    intros Hne. destruct t as [|c t _] using rev_ind; [done|]. rewrite length_app, Nat.add_sub. rewrite drop_app_length.
    exists (pre ++ t), post. rewrite Hm, <- !app_assoc. split; [done|]. f_equal; zl.
  - rewrite Z.add_0_l. sbind. exists (zlen pre + zlen t + 1, zlen r), (zlen pre, zlen t). cbn [fst snd].
    split; [done|]. split; [exists pre, ((c :: r) ++ x00 :: post); rewrite Hm, <- !app_assoc; done|]. split.
    { exists (pre ++ t ++ [c]), post. rewrite Hm, <- !app_assoc. split; [done|]. f_equal; zl. }
    split; [done|]. split.
    { rewrite Hm, <- app_assoc, app_assoc. apply rd_at. by rewrite zlen_app. }
    intros _. exists (pre ++ t), post. rewrite Hm, <- !app_assoc. split; [done|]. f_equal; zl.
Qed.
End Places.

(** ** The reference parse *)

Definition sum_then {A B} (x : string + A) (f : A -> string + B) : string + B := match x with inl e => inl e | inr a => f a end.
Notation "x ←s e ; k" := (sum_then e (fun x => k)) (at level 20, e at level 100, k at level 200, only parsing).
Definition or_msg {A} (x : option A) (msg : string) : string + A := match x with Some a => inr a | None => inl msg end.

(** A token and its terminal, which has to be there. *)
Definition need_tok {A} (ts : string) (s : bytes) (k : bytes -> byte -> bytes -> string + A) : string + A :=
  match split_at ts s with (t, c :: r) => k t c r | (_, []) => inl DEFAULT_DATE_PARSE_ERR end.

(** A token that is not empty, and the text from its terminal on. *)
Definition more (ts short empty : string) (r : bytes) : string + bytes * bytes :=
  if zlen r <? 2 then inl short else
  let '(t, rest) := split_at ts r in match t with [] => inl empty | _ => inr (t, rest) end.

(** The text from the last character on that ended a token, or was the last of it. *)
Definition back (t rest : bytes) : bytes := match rest with [] => drop (length t - 1) t | _ => rest end.

Definition tz_hhmm (c h1 h2 m1 m2 : byte) : string + Z :=
  hh ←s or_msg (num [h1; h2] (-1) (-23) 23) "timezone hour must be at most 23"%string;
  mm ←s or_msg (num [m1; m2] (-1) 0 59) "timezone minute must be at most 59"%string;
  inr ((if b2z c =? 45 then 1 else -1) * (mm * 60 + hh * 60 * 60)).

Definition tz_value (t : bytes) : string + Z :=
  match t with
  | [] => inr 0
  | c :: r =>
      if (b2z c =? 90) && (zlen r =? 0) then inr 0 else
      if (b2z c =? 43) || (b2z c =? 45) then
        match r with
        | [h1; h2; m1; m2] =>
            if forallb isdigit r then tz_hhmm c h1 h2 m1 m2 else inl "could not parse timezone"%string
        | [h1; h2; col; m1; m2] =>
            if forallb isdigit [h1; h2; m1; m2] && (b2z col =? 58) then tz_hhmm c h1 h2 m1 m2 else inl "could not parse timezone"%string
        | _ => inl "could not parse timezone"%string
        end
      else inl "timezone is required"%string
  end.

Definition millis_of (t : bytes) : string + Z :=
  if (3 <? zlen t) || negb (forallb isdigit t) then inl "milliseconds must be an integer"%string
  else inr (undec t * (if zlen t =? 1 then 100 else if zlen t =? 2 then 10 else 1)).

Definition date_value (year month day hour min sec millis tz : bytes) : string + Z :=
  tm_year ←s or_msg (num year 4 (-9999) 9999) "year must be an integer"%string;
  tm_mon ←s or_msg (num month 2 1 12) "month must be an integer"%string;
  tm_mday ←s or_msg (num day 2 1 31) "day must be an integer"%string;
  tm_hour ←s or_msg (num hour 2 0 23) "hour must be an integer"%string;
  tm_min ←s or_msg (num min 2 0 59) "minute must be an integer"%string;
  tm_sec ←s (match sec with [] => inr 0 | _ => or_msg (num sec 2 0 60) "seconds must be an integer"%string end);
  tz_adj ←s tz_value tz;
  ms ←s millis_of millis;
  inr (((days_from_civil tm_year tm_mon tm_mday * 24 + tm_hour) * 60 + tm_min) * 60000 + tm_sec * 1000 + ms + tz_adj * 1000).

Definition iso_spec (s : bytes) : string + Z :=
  need_tok "-" s (fun year _ s => need_tok "-" s (fun month _ s => need_tok "T" s (fun day _ s =>
  need_tok ":" s (fun hour _ s => need_tok ":+-Z" s (fun min c s =>
  sec ←s (if b2z c =? 58 then more ".+-Z" "reached end of date while looking for seconds" "minute ends in ':' seconds is required" s
          else inr ([], c :: s));
  if negb (zlen (fst sec) =? 0) && (b2z (hd x00 (snd sec)) =? 46) then
    millis ←s more "+-Z" "reached end of date while looking for milliseconds" "seconds ends in '.', milliseconds is required" (tail (snd sec));
    date_value year month day hour min (fst sec) (fst millis) (back (fst millis) (snd millis))
  else date_value year month day hour min (fst sec) [] (back (fst sec) (snd sec))))))).

Section Refines.
Context (m : bytes).
Local Abbreviation token := (token m).
Local Abbreviation cursor := (cursor m).
Local Abbreviation next := (next m).

Lemma next_cursor p c r : next p (c :: r) -> cursor p r.
Proof. done. Qed.

Lemma token_sub' a n x y z : token (a, n) (x ++ y ++ z) -> token (a + zlen x, zlen y) y.
Proof. apply token_sub. Qed.

Lemma tz_fields_spec a c h1 h2 m1 m2 b : token (a + 1, 2) [h1; h2] -> token (b, 2) [m1; m2] ->
  (tz_hour ←? or_err (parse_num m (a + 1) 2 (-1) (-23) 23) "timezone hour must be at most 23"%string;
   tz_min ←? or_err (parse_num m b 2 (-1) 0 59) "timezone minute must be at most 59"%string;
   let tz_adjustment := (if b2z c =? 45 then 1 else -1) * (tz_min * 60 + tz_hour * 60 * 60) in
   if (-86400 <? tz_adjustment) && (tz_adjustment <? 86400) then ok tz_adjustment
   else DATE_PARSE_ERR "timezone offset must be less than 24 hours"%string) = Some (tz_hhmm c h1 h2 m1 m2).
Proof.
  intros Hh Hm. rewrite (parse_num_spec m _ _ _ _ _ _ Hh), (parse_num_spec m _ _ _ _ _ _ Hm) by lia.
  unfold tz_hhmm, or_err. sbind. destruct (num [h1; h2] (-1) (-23) 23) as [hh|] eqn:Eh; [|done]. cbn [or_msg sum_then then_ ok].
  destruct (num [m1; m2] (-1) 0 59) as [mm|] eqn:Em; [|done]. cbn [or_msg sum_then then_ ok]. cbv zeta.
  apply num_Some in Eh as (_ & _ & _ & Rh0 & Rh), Em as (_ & _ & _ & Rm0 & Rm).
  set (adj := (if b2z c =? 45 then 1 else -1) * _). assert (-86400 < adj < 86400) by (subst adj; destruct (b2z c =? 45); lia).
  destruct (Z.ltb_spec (-86400) adj), (Z.ltb_spec adj 86400); try lia. done.
Qed.

Lemma tz_adjustment_spec a n t : token (a, n) t -> zlen t < INT32_MAX ->
  tz_adjustment m a n = Some (tz_value t).
Proof.
  intros Ht Hs. pose proof Ht as (pre & post & _ & [= _ En]). unfold tz_adjustment. rewrite En.
  destruct t as [|c r]; [done|]. rewrite zlen_cons. pose proof (zlen_nonneg r). destruct (Z.ltb_spec 0 (1 + zlen r)); [|lia]. cbn [negb].
  pose proof (token_rd m a n (c :: r) 0 c Ht eq_refl ltac:(lia)) as Hr. rewrite Z.add_0_r in Hr. rewrite Hr. sbind. unfold tz_value.
  replace (1 + zlen r =? 1) with (zlen r =? 0) by (destruct (Z.eqb_spec (zlen r) 0), (Z.eqb_spec (1 + zlen r) 1); lia).
  destruct (_ && _); [done|]. destruct (_ || _) eqn:Esgn; [|done].
  replace (1 + zlen r =? 5) with (zlen r =? 4) by (destruct (Z.eqb_spec (zlen r) 4), (Z.eqb_spec (1 + zlen r) 5); lia).
  replace (1 + zlen r =? 6) with (zlen r =? 5) by (destruct (Z.eqb_spec (zlen r) 5), (Z.eqb_spec (1 + zlen r) 6); lia).
  destruct (Z.eqb_spec (zlen r) 4) as [E4|E4].
  { destruct r as [|h1 [|h2 [|m1 [|m2 [|? ?]]]]]; try (exfalso; clear -E4; unfold zlen in E4; cbn [length] in E4; lia).
    pose proof (token_sub m a n [c] [h1; h2; m1; m2] [] Ht) as Hall. pose proof (token_sub m a n [c] [h1; h2] [m1; m2] Ht) as Hh.
    pose proof (token_sub m a n [c; h1; h2] [m1; m2] [] Ht) as Hmm. change (zlen [c]) with 1 in *. change (zlen [c; h1; h2]) with 3 in *.
    change (zlen [h1; h2; m1; m2]) with 4 in *. change (zlen [h1; h2]) with 2 in *. change (zlen [m1; m2]) with 2 in *.
    cbn [negb]. rewrite (digits_only_spec m _ _ _ Hall). sbind. destruct (forallb isdigit [h1; h2; m1; m2]) eqn:Ed; cbn [negb]; [|done].
    rewrite (token_rd m a n [c; h1; h2; m1; m2] 3 m1 Ht eq_refl) by lia.
    sbind. assert ((b2z m1 =? 58) = false) as ->.
    { cbn [forallb] in Ed. rewrite !andb_true_iff in Ed. apply Z.eqb_neq. pose proof (isdigit_value m1 ltac:(tauto)). lia. }
    rewrite Z.add_0_r. apply (tz_fields_spec a c h1 h2 m1 m2 (a + 3)); done. }
  cbn [negb]. destruct (Z.eqb_spec (zlen r) 5) as [E5|E5]; cbn [negb].
  - destruct r as [|h1 [|h2 [|x [|m1 [|m2 [|? ?]]]]]]; try (exfalso; clear -E5; unfold zlen in E5; cbn [length] in E5; lia).
    pose proof (token_sub m a n [c] [h1; h2] [x; m1; m2] Ht) as Hh.
    pose proof (token_sub m a n [c; h1; h2; x] [m1; m2] [] Ht) as Hmm. change (zlen [c]) with 1 in *. change (zlen [c; h1; h2; x]) with 4 in *.
    change (zlen [h1; h2]) with 2 in *. change (zlen [m1; m2]) with 2 in *.
    rewrite (digits_only_spec m _ _ _ Hh). rewrite (digits_only_spec m _ _ _ Hmm). rewrite (token_rd m a n [c; h1; h2; x; m1; m2] 3 x Ht eq_refl) by lia. sbind.
    change (forallb isdigit [h1; h2; m1; m2]) with (forallb isdigit ([h1; h2] ++ [m1; m2])). rewrite forallb_app.
    destruct (forallb isdigit [h1; h2]); [|done]. destruct (Z.eqb_spec (b2z x) 58) as [Ex|]; [|by rewrite andb_false_r].
    destruct (forallb isdigit [m1; m2]); [|done]. cbn [negb andb]. sbind.
    replace (a + 4) with (a + 3 + Z.b2z true) in Hmm by (cbn; lia). by apply tz_fields_spec.
  - destruct r as [|h1 [|h2 [|x [|m1 [|m2 [|? ?]]]]]]; done.
Qed.

Lemma millis_value_spec a n t : token (a, n) t -> millis_value m a n = Some (millis_of t).
Proof.
  intros Ht. pose proof Ht as (pre & post & _ & [= _ En]). unfold millis_value, millis_of. rewrite En.
  destruct (Z.ltb_spec 0 (zlen t)); cbn [negb].
  2: { assert (zlen t = 0) as E by (pose proof (zlen_nonneg t); lia). by apply zlen_0 in E as ->. }
  destruct (Z.ltb_spec 3 (zlen t)); [done|]. cbn [orb]. rewrite <- En, (digits_only_spec m a n t Ht), En. sbind.
  destruct (forallb isdigit t) eqn:Ed; [|done]. cbn [negb].
  pose proof (num_loop_spec m 0 a n t 0 Ht Ed) as E. change (10 ^ Z.of_nat 0) with 1 in E. rewrite En in E.
  rewrite to_nat_zlen, E by (unfold zlen in *; lia). sbind. rewrite Z.mul_1_l, Z.add_0_l.
  pose proof (undec_range t) as Hu. rewrite <- digits_all in Hu. specialize (Hu Ed).
  assert (zlen t = 1 \/ zlen t = 2 \/ zlen t = 3) as [El|[El|El]] by lia; rewrite El in *; cbn [Z.eqb Pos.eqb];
    [change (10 ^ 1) with 10 in Hu|change (10 ^ 2) with 100 in Hu|change (10 ^ 3) with 1000 in Hu];
    (rewrite ?Z.mul_1_r; match goal with |- context [(?v <? 0) || _] => destruct (Z.ltb_spec v 0), (Z.ltb_spec 1000 v) end; try lia; done).
Qed.
Lemma split_at_le ts s : zlen (snd (split_at ts s)) <= zlen s /\ zlen (fst (split_at ts s)) <= zlen s.
Proof. rewrite <- (split_at_app ts s) at 2 4. zl. Qed.

Lemma must_tok_spec {A} ts p s (f : (Z * Z) * (Z * Z) -> step A) K : cursor p s -> zlen s < INT32_MAX ->
  (forall p' tok t c r, split_at ts s = (t, c :: r) -> cursor p' r -> zlen r < INT32_MAX - 1 -> token tok t ->
     rd m (fst tok + snd tok) = Some c -> cursor (fst p' - 1, snd p' + 1) (c :: r) -> f (p', tok) = Some (K t c r)) ->
  then_ (must_tok ts m p) f = Some (need_tok ts s K).
Proof.
  intros Hc Hs Hf. pose proof (get_tok_spec m ts p s Hc Hs) as H. unfold must_tok, need_tok. pose proof (split_at_le ts s) as [Hl _].
  destruct (split_at ts s) as [t rest] eqn:Esp. destruct H as (p' & tok & -> & Htok & Hn & _ & Hr & Hb). sbind. destruct rest as [|c r]; [done|].
  cbn [snd] in Hl. rewrite zlen_cons in Hl. change (then_ (ok ?x) f) with (f x). rewrite <- surjective_pairing.
  apply (Hf p'); try done; [lia|]. apply Hb. intros ->. done.
Qed.

Lemma more_tok_spec ts short empty p r : cursor p r -> zlen r < INT32_MAX ->
  match more ts short empty r with
  | inl e => more_tok ts short empty true m p = Some (inl e)
  | inr (t, rest) =>
      exists p' tok, more_tok ts short empty true m p = Some (inr (p', tok)) /\ token tok t /\ next p' rest /\ snd tok = zlen t /\
        rd m (fst tok + snd tok) = Some (hd x00 rest) /\ cursor (fst p' - 1, snd p' + 1) (back t rest) /\ t <> [] /\ zlen (back t rest) < INT32_MAX
  end.
Proof.
  intros Hc Hs. pose proof (get_tok_spec m ts p r Hc Hs) as H. unfold more, more_tok. cbn [negb].
  assert (Ep : snd p = zlen r) by (destruct Hc as (? & ? & _ & ->); done). rewrite Ep in H |- *. destruct (Z.ltb_spec (zlen r) 2) as [|Hge]; [done|].
  pose proof (split_at_le ts r) as [Hl Hl'].
  destruct (split_at ts r) as [t rest]. destruct H as (p' & tok & -> & Htok & Hn & Hlen & Hr & Hb). sbind. rewrite Hlen.
  destruct t as [|x t]; [done|]. rewrite zlen_cons. pose proof (zlen_nonneg t). destruct (Z.eqb_spec (1 + zlen t) 0); [lia|].
  exists p', tok. rewrite <- surjective_pairing. split; [done|]. split; [done|]. split; [done|]. split; [by rewrite Hlen, zlen_cons|]. split; [done|].
  split; [apply Hb; intros ->; cbn in Hge; change (zlen (@nil byte)) with 0 in Hge; lia|]. split; [done|].
  cbn [fst snd] in *. unfold back. destruct rest; [|lia]. unfold zlen in *. rewrite length_drop. lia.
Qed.

Lemma split_at_none s : split_at "" s = (s, []).
Proof. induction s as [|c s IH]; [done|]. cbn [split_at]. change (is_terminal "" c) with false. cbv iota. by rewrite IH. Qed.

Lemma or_err_spec {A B} (r : option (option A)) o msg (f : A -> step B) K : r = Some o -> (forall a, o = Some a -> f a = Some (K a)) ->
  then_ (or_err r msg) f = Some (sum_then (or_msg o msg) K).
Proof. intros -> Hf. destruct o as [a|]; [|done]. by apply Hf. Qed.

(** The values of the tokens. *)
Definition parse_values mytm0 year month day hour min sec millis tz : step Z :=
  tm_year ←? or_err (parse_num m (fst year) (snd year) 4 (-9999) 9999) "year must be an integer"%string;
  tm_mon ←? or_err (parse_num m (fst month) (snd month) 2 1 12) "month must be an integer"%string;
  tm_mday ←? or_err (parse_num m (fst day) (snd day) 2 1 31) "day must be an integer"%string;
  tm_hour ←? or_err (parse_num m (fst hour) (snd hour) 2 0 23) "hour must be an integer"%string;
  tm_min ←? or_err (parse_num m (fst min) (snd min) 2 0 59) "minute must be an integer"%string;
  tm_sec ←? (if snd sec =? 0 then ok 0
             else or_err (parse_num m (fst sec) (snd sec) 2 0 60) "seconds must be an integer"%string);
  tz_adj ←? tz_adjustment m (fst tz) (snd tz);
  millis ←? millis_value m (fst millis) (snd millis);
  '(t, _) ← _bson_timegm mytm0 (BsonTm tm_sec tm_min tm_hour tm_mday (tm_mon - 1) (tm_year - 1900) 0 0 0);
  t ← i64 (1000 * t); t ← i64 (t + millis); t ← i64 (t + tz_adj * 1000); ok t.

Lemma tz_value_range t v : tz_value t = inr v -> -86400 < v < 86400.
Proof.
  unfold tz_value. destruct t as [|c r]; [intros [= <-]; lia|]. destruct (_ && _); [intros [= <-]; lia|]. destruct (_ || _); [|done].
  assert (Hh : forall h1 h2 m1 m2, tz_hhmm c h1 h2 m1 m2 = inr v -> -86400 < v < 86400).
  { intros h1 h2 m1 m2. unfold tz_hhmm. destruct (num [h1; h2] _ _ _) as [hh|] eqn:Eh; [|done]. cbn [or_msg sum_then].
    destruct (num [m1; m2] _ _ _) as [mm|] eqn:Em; [|done]. cbn [or_msg sum_then]. intros [= <-].
    apply num_Some in Eh as (_ & _ & _ & ? & ?), Em as (_ & _ & _ & ? & ?). destruct (b2z c =? 45); lia. }
  destruct r as [|h1 [|h2 [|x [|m1 [|m2 [|? ?]]]]]]; try done; destruct (forallb isdigit _); try done; cbn [andb]; [apply Hh|].
  destruct (b2z x =? 58); [apply Hh|done].
Qed.
Lemma millis_of_range t v : millis_of t = inr v -> 0 <= v < 1000.
Proof.
  unfold millis_of. destruct (Z.ltb_spec 3 (zlen t)); [done|]. destruct (forallb isdigit t) eqn:Ed; [|done]. cbn [orb negb]. intros [= <-].
  pose proof (undec_range t (proj1 (digits_all t) Ed)) as Hu. pose proof (zlen_nonneg t).
  assert (zlen t = 0 \/ zlen t = 1 \/ zlen t = 2 \/ zlen t = 3) as [El|[El|[El|El]]] by lia; rewrite El in *; cbn in *; lia.
Qed.

Lemma parse_num_tok tok t digits min max : token tok t -> digits <= 9 -> 0 <= digits ->
  parse_num m (fst tok) (snd tok) digits min max = Some (num t digits min max).
Proof. destruct tok as [a n]. intros. cbn [fst snd]. apply parse_num_spec; try done; lia. Qed.

Lemma parse_values_spec mytm0 year month day hour min sec millis tz tyear tmonth tday thour tmin tsec tmillis ttz :
  token year tyear -> token month tmonth -> token day tday -> token hour thour -> token min tmin ->
  token sec tsec \/ tsec = [] /\ snd sec = 0 -> token millis tmillis \/ tmillis = [] /\ snd millis = 0 -> token tz ttz -> zlen ttz < INT32_MAX ->
  parse_values mytm0 year month day hour min sec millis tz = Some (date_value tyear tmonth tday thour tmin tsec tmillis ttz).
Proof.
  intros Hy Hmo Hd Hh Hmi Hs Hml Htz Hlz. unfold parse_values, date_value.
  eapply or_err_spec; [by apply parse_num_tok|]. intros y Ey. eapply or_err_spec; [by apply parse_num_tok|]. intros mo Emo.
  eapply or_err_spec; [by apply parse_num_tok|]. intros d Ed. eapply or_err_spec; [by apply parse_num_tok|]. intros h Eh.
  eapply or_err_spec; [by apply parse_num_tok|]. intros mi Emi.
  apply num_Some in Ey as (_ & _ & _ & ? & ?), Emo as (_ & _ & _ & ? & ?), Ed as (_ & _ & _ & ? & ?), Eh as (_ & _ & _ & ? & ?), Emi as (_ & _ & _ & ? & ?).
  (* what follows the seconds *)
  assert (Hrest : forall se, 0 <= se <= 60 ->
    then_ (tz_adjustment m (fst tz) (snd tz)) (fun tz_adj => then_ (millis_value m (fst millis) (snd millis)) (fun millis =>
      '(t, _) ← _bson_timegm mytm0 (BsonTm se mi h d (mo - 1) (y - 1900) 0 0 0);
      t ← i64 (1000 * t); t ← i64 (t + millis); t ← i64 (t + tz_adj * 1000); ok t)) =
    Some (sum_then (tz_value ttz) (fun tz_adj => sum_then (millis_of tmillis) (fun ms =>
      inr (((days_from_civil y mo d * 24 + h) * 60 + mi) * 60000 + se * 1000 + ms + tz_adj * 1000))))).
  { intros se Hse. destruct tz as [a n]. cbn [fst snd]. rewrite (tz_adjustment_spec a n ttz) by done.
    destruct (tz_value ttz) as [|adj] eqn:Eadj; [done|]. cbn [then_ sum_then]. apply tz_value_range in Eadj.
    assert (millis_value m (fst millis) (snd millis) = Some (millis_of tmillis)) as ->.
    { destruct millis as [b k]. cbn [fst snd] in *. destruct Hml as [Hml|[-> ->]]; [by apply millis_value_spec|done]. }
    destruct (millis_of tmillis) as [|ms] eqn:Ems; [done|]. cbn [then_ sum_then]. apply millis_of_range in Ems.
    set (tm := BsonTm _ _ _ _ _ _ _ _ _).
    assert (Hr : in_range tm) by (unfold in_range, tm; cbn [bt_year bt_mon bt_mday bt_hour bt_min bt_sec]; lia).
    destruct (timegm_spec mytm0 tm Hr) as (r & E & _). rewrite E. sbind. pose proof (fields_seconds_range tm Hr) as HT.
    assert (Ef : fields_seconds tm = ((days_from_civil y mo d * 24 + h) * 60 + mi) * 60 + se).
    { unfold fields_seconds, tm. cbn [bt_year bt_mon bt_mday bt_hour bt_min bt_sec]. rewrite (dfc_day y mo d).
      rewrite Z.div_small, Z.mod_small by lia. replace (y - 1900 + 1900 + 0) with y by lia. replace (mo - 1 + 1) with mo by lia. lia. }
    clearbody tm. assert (- 2 ^ 40 <= fields_seconds tm <= 2 ^ 40).
    { rewrite Ef, dfc_day. pose proof (dfc_in_year y mo 1 ltac:(lia) ltac:(pose proof (days_in_month_range y mo); lia)) as Hj.
      pose proof (jan1_bounds y). pose proof (jan1_succ y). pose proof (year_days_range y). destruct (Z.ltb_spec y 1); lia. }
    do 3 (rewrite i64_Some by (unfold INT64_MAX; lia); sbind). unfold ok. do 2 f_equal. lia. }
  destruct Hs as [Hs|[-> ->]]; [|rewrite Z.eqb_refl; apply (Hrest 0); lia].
  destruct sec as [b k]. cbn [fst snd]. assert (k = zlen tsec) as -> by (destruct Hs as (? & ? & _ & [= _ ->]); done).
  destruct tsec as [|c tsec]; [apply (Hrest 0); lia|]. rewrite zlen_cons at 1. destruct (Z.eqb_spec (1 + zlen tsec) 0); [zl|].
  eapply or_err_spec; [apply (parse_num_tok (b, _)); try done; lia|]. intros se Ese. apply num_Some in Ese as (_ & _ & _ & ? & ?). apply Hrest. lia.
Qed.

Lemma date_parse_spec mytm0 s post : m = s ++ x00 :: post -> zlen s < INT32_MAX - 1 -> date_parse mytm0 m (zlen s) = Some (iso_spec s).
Proof.
  intros Hm Hs. assert (Hc : cursor (0, zlen s) s) by (exists [], post; done). unfold date_parse, iso_spec.
  eapply must_tok_spec; [done|lia|]. intros p1 year tyear c1 s1 _ Hc1 Hs1 Hyear _ _. clear s Hm Hc Hs.
  eapply must_tok_spec; [done|lia|]. intros p2 month tmonth c2 s2 _ Hc2 Hs2 Hmonth _ _.
  eapply must_tok_spec; [done|lia|]. intros p3 day tday c3 s3 _ Hc3 Hs3 Hday _ _.
  eapply must_tok_spec; [done|lia|]. intros p4 hour thour c4 s4 _ Hc4 Hs4 Hhour _ _.
  eapply must_tok_spec; [done|lia|]. intros p5 min tmin c5 s5 _ Hc5 Hs5 Hmin Hr5 Hb5.
  rewrite Hr5. sbind.
  (* the time zone and the values *)
  assert (Hend : forall p sec tsec millis tmillis b, token sec tsec \/ tsec = [] /\ snd sec = 0 -> token millis tmillis \/ tmillis = [] /\ snd millis = 0 ->
    cursor (fst p - 1, snd p + 1) b -> zlen b < INT32_MAX ->
    ('(_, _, _, tz) ← get_tok "" m (fst p - 1) (snd p + 1); parse_values mytm0 year month day hour min sec millis tz) =
    Some (date_value tyear tmonth tday thour tmin tsec tmillis b)).
  { intros p sec tsec millis tmillis b Hsec Hml Hcb Hzb. pose proof (get_tok_spec m "" _ b Hcb Hzb) as H. rewrite split_at_none in H. cbn [fst snd] in H.
    destruct H as (p' & tz & -> & Htz & _). sbind. by apply parse_values_spec. }
  (* from the milliseconds on *)
  assert (Htail : forall p sec tsec rest, token sec tsec \/ tsec = [] /\ snd sec = 0 -> snd sec = zlen tsec ->
    (tsec <> [] -> rd m (fst sec + snd sec) = Some (hd x00 rest)) -> next p rest -> cursor (fst p - 1, snd p + 1) (back tsec rest) ->
    zlen (tail rest) < INT32_MAX -> zlen (back tsec rest) < INT32_MAX ->
    (point ← (if snd sec =? 0 then Some false else c ← rd m (fst sec + snd sec); Some (b2z c =? 46));
     '(p, millis) ←? more_tok "+-Z" "reached end of date while looking for milliseconds" "seconds ends in '.', milliseconds is required" point m p;
     '(_, _, _, tz) ← get_tok "" m (fst p - 1) (snd p + 1);
     parse_values mytm0 year month day hour min sec millis tz) =
    Some (if negb (zlen tsec =? 0) && (b2z (hd x00 rest) =? 46) then
      millis ←s more "+-Z" "reached end of date while looking for milliseconds" "seconds ends in '.', milliseconds is required" (tail rest);
      date_value tyear tmonth tday thour tmin tsec (fst millis) (back (fst millis) (snd millis))
    else date_value tyear tmonth tday thour tmin tsec [] (back tsec rest))).
  { intros p sec tsec rest Hsec Hlen Hrd Hn Hcb Hzt Hzb. rewrite Hlen. destruct (Z.eqb_spec (zlen tsec) 0) as [E|E]; cbn [negb andb]; sbind.
    { cbn [more_tok negb then_ ok]. eapply Hend; try done. by right. }
    rewrite <- Hlen, Hrd by (intros ->; done). sbind. destruct (Z.eqb_spec (b2z (hd x00 rest)) 46) as [E46|E46].
    2: { cbn [more_tok negb then_ ok]. eapply Hend; try done. by right. }
    destruct rest as [|c r]; [done|]. cbn [tail next] in *.
    pose proof (more_tok_spec "+-Z" "reached end of date while looking for milliseconds" "seconds ends in '.', milliseconds is required" p r Hn Hzt) as H.
    destruct (more _ _ _ r) as [e|[t rest]]; [by rewrite H|]. destruct H as (p' & tok & -> & Htok & _ & _ & _ & Hcb' & _ & Hz').
    cbn [then_ sum_then fst snd]. eapply Hend; try done. by left. }
  destruct (Z.eqb_spec (b2z c5) 58).
  - pose proof (more_tok_spec ".+-Z" "reached end of date while looking for seconds" "minute ends in ':' seconds is required" p5 s5 Hc5 ltac:(lia)) as H.
    destruct (more _ _ _ s5) as [err|[t rest]] eqn:Em; [by rewrite H|]. destruct H as (p' & tok & -> & Htok & Hn & Hlen & Hr & Hcb & Hne & Hz).
    cbn [then_ sum_then fst snd]. apply Htail; try done; [by left|]. destruct rest as [|c r]; [done|]. cbn [back] in Hz. cbn [tail]. rewrite zlen_cons in Hz. lia.
  - cbn [more_tok negb then_ ok sum_then fst snd]. apply (Htail p5 (0, 0) [] (c5 :: s5)); try done; [by right|cbn [tail]; lia|cbn [back]; rewrite zlen_cons; lia].
Qed.
End Refines.

(** ** The dates *)

Inductive iso_zone := Zulu | Offset (west : bool) (hh mm : Z) (colon : bool).

(** A date to the minute, to the second, or to one to three digits after it. *)
Record iso_date := IsoDate {
  d_year : Z; d_month : Z; d_day : Z; d_hour : Z; d_min : Z; d_sec : option (Z * option bytes); d_zone : iso_zone
}.

Definition dec04 (z : Z) : bytes := dec02 (z / 100) ++ dec02 (z mod 100).
Definition zone_text (z : iso_zone) : bytes :=
  match z with
  | Zulu => txt "Z"
  | Offset west hh mm colon => txt (if west then "-" else "+") ++ dec02 hh ++ txt (if colon then ":" else "") ++ dec02 mm
  end.
Definition sec_text (s : option (Z * option bytes)) : bytes :=
  match s with
  | None => []
  | Some (s, ms) => txt ":" ++ dec02 s ++ match ms with None => [] | Some ms => txt "." ++ ms end
  end.
Definition iso_print (d : iso_date) : bytes :=
  dec04 (d_year d) ++ txt "-" ++ dec02 (d_month d) ++ txt "-" ++ dec02 (d_day d) ++ txt "T" ++ dec02 (d_hour d) ++ txt ":" ++
  dec02 (d_min d) ++ sec_text (d_sec d) ++ zone_text (d_zone d).

Definition zone_ok (z : iso_zone) : Prop := match z with Zulu => True | Offset _ hh mm _ => 0 <= hh <= 23 /\ 0 <= mm <= 59 end.
Definition sec_ok (s : option (Z * option bytes)) : Prop :=
  match s with
  | None => True
  | Some (s, ms) => 0 <= s <= 60 /\ match ms with None => True | Some ms => forallb isdigit ms = true /\ 1 <= zlen ms <= 3 end
  end.
Definition iso_ok (d : iso_date) : Prop :=
  0 <= d_year d <= 9999 /\ 1 <= d_month d <= 12 /\ 1 <= d_day d <= 31 /\ 0 <= d_hour d <= 23 /\ 0 <= d_min d <= 59 /\
  sec_ok (d_sec d) /\ zone_ok (d_zone d).

(** The milliseconds since the epoch; a day past the end of its month is a day of the next. *)
Definition zone_secs (z : iso_zone) : Z :=
  match z with Zulu => 0 | Offset west hh mm _ => (if west then 1 else -1) * (hh * 3600 + mm * 60) end.
Definition sec_msecs (s : option (Z * option bytes)) : Z :=
  match s with
  | None => 0
  | Some (s, ms) => s * 1000 + match ms with None => 0 | Some ms => undec ms * 10 ^ (3 - zlen ms) end
  end.
Definition iso_value (d : iso_date) : Z :=
  ((days_from_civil (d_year d) (d_month d) (d_day d) * 24 + d_hour d) * 60 + d_min d) * 60000 + sec_msecs (d_sec d) + zone_secs (d_zone d) * 1000.

(** *** Two digits *)

Lemma dec02_num z lo hi : 0 <= z <= 99 -> lo <= z <= hi -> num (dec02 z) 2 lo hi = Some z /\ num (dec02 z) (-1) lo hi = Some z.
Proof.
  intros Hz Hb. assert (Hd : forallb isdigit (dec02 z) = true /\ undec (dec02 z) = z).
  { unfold dec02, undec. cbn [forallb foldl]. unfold isdigit. rewrite !b2z_z2b_small by (Z.to_euclidean_division_equations; lia). split.
    - rewrite !andb_true_iff, !Z.leb_le. Z.to_euclidean_division_equations; lia.
    - Z.to_euclidean_division_equations; lia. }
  destruct Hd as [Hd Hu]. unfold num. rewrite Hd, Hu. change (zlen (dec02 z)) with 2. cbn [negb andb Z.leb Z.eqb].
  destruct (Z.ltb_spec z lo), (Z.ltb_spec hi z); try lia. done.
Qed.
Lemma dec02_digits z : 0 <= z <= 99 -> forallb isdigit (dec02 z) = true.
Proof. intros. destruct (dec02_num z 0 99) as [H' _]; [lia|lia|]. by apply num_Some in H' as (_ & ? & _). Qed.

Lemma two_digits a b : isdigit a = true -> isdigit b = true -> [a; b] = dec02 (undec [a; b]).
Proof.
  intros Ha Hb. apply isdigit_value in Ha, Hb. unfold undec, dec02. cbn [foldl].
  replace ((10 * (10 * 0 + (b2z a - 48)) + (b2z b - 48)) / 10) with (b2z a - 48) by (Z.to_euclidean_division_equations; lia).
  replace ((10 * (10 * 0 + (b2z a - 48)) + (b2z b - 48)) mod 10) with (b2z b - 48) by (Z.to_euclidean_division_equations; lia).
  replace (48 + (b2z a - 48)) with (b2z a) by lia. replace (48 + (b2z b - 48)) with (b2z b) by lia. by rewrite !z2b_b2z.
Qed.
Lemma num_two t lo hi v : zlen t = 2 -> forall digits, num t digits lo hi = Some v -> t = dec02 v /\ 0 <= v <= 99 /\ lo <= v <= hi.
Proof.
  intros Hl digits Hn. apply num_Some in Hn as (_ & Hd & -> & Hr & Hb). rewrite Hl in Hr. change (10 ^ 2) with 100 in Hr.
  split; [|lia]. destruct t as [|a [|b [|? ?]]]; try done; [|unfold zlen in Hl; cbn in Hl; lia].
  cbn [forallb] in Hd. rewrite !andb_true_iff in Hd. apply two_digits; tauto.
Qed.
Lemma num2 t lo hi v : num t 2 lo hi = Some v -> t = dec02 v /\ 0 <= v <= 99 /\ lo <= v <= hi.
Proof. intros Hn. apply (num_two _ _ _ _) with (2 := Hn). by apply num_Some in Hn as (Hl & _); apply Hl. Qed.

Lemma num4 t lo hi v : num t 4 lo hi = Some v -> t = dec04 v /\ 0 <= v <= 9999.
Proof.
  intros Hn. apply num_Some in Hn as (Hl & Hd & -> & Hr & Hb). specialize (Hl ltac:(lia)). rewrite Hl in Hr. change (10 ^ 4) with 10000 in Hr.
  split; [|lia]. destruct t as [|a [|b [|c [|d [|? ?]]]]]; try done; [|unfold zlen in Hl; cbn in Hl; lia].
  change [a; b; c; d] with ([a; b] ++ [c; d]) in Hd |- *. rewrite forallb_app, andb_true_iff in Hd. destruct Hd as [H1 H2].
  unfold dec04. rewrite undec_app. change (10 ^ zlen [c; d]) with 100.
  pose proof (undec_range [c; d] (proj1 (digits_all _) H2)) as Hcd. change (10 ^ zlen [c; d]) with 100 in Hcd.
  replace ((undec [a; b] * 100 + undec [c; d]) / 100) with (undec [a; b]) by (Z.to_euclidean_division_equations; lia).
  replace ((undec [a; b] * 100 + undec [c; d]) mod 100) with (undec [c; d]) by (Z.to_euclidean_division_equations; lia).
  cbn [forallb] in H1, H2. rewrite !andb_true_iff in H1, H2. f_equal; apply two_digits; tauto.
Qed.
Lemma dec04_num z lo hi : 0 <= z <= 9999 -> lo <= z <= hi -> num (dec04 z) 4 lo hi = Some z /\ forallb isdigit (dec04 z) = true.
Proof.
  intros Hz Hb. assert (H1 : 0 <= z / 100 <= 99 /\ 0 <= z mod 100 <= 99 /\ z = z / 100 * 100 + z mod 100) by (Z.to_euclidean_division_equations; lia).
  destruct H1 as (H1 & H2 & H3). destruct (dec02_num (z / 100) 0 99 H1 H1) as [E1 _], (dec02_num (z mod 100) 0 99 H2 H2) as [E2 _].
  apply num_Some in E1 as (_ & D1 & U1 & _), E2 as (_ & D2 & U2 & _).
  assert (Hd : forallb isdigit (dec04 z) = true) by (unfold dec04; by rewrite forallb_app, D1, D2).
  split; [|done]. unfold num. rewrite Hd. change (zlen (dec04 z)) with 4. cbn [negb andb Z.leb Z.eqb].
  assert (undec (dec04 z) = z) as -> by (unfold dec04; rewrite undec_app, <- U1, <- U2; change (10 ^ zlen (dec02 (z mod 100))) with 100; lia).
  destruct (Z.ltb_spec z lo), (Z.ltb_spec hi z); try lia. done.
Qed.

(** *** What the tokens are *)

Lemma terminal_not_digit ts c : forallb (fun c => negb (isdigit c)) (txt ts) = true -> isdigit c = true -> is_terminal ts c = false.
Proof.
  intros Hts Hc. apply not_true_iff_false. unfold is_terminal. rewrite existsb_exists. intros (x & Hx & E).
  apply byte_eqb_spec in E as <-. rewrite forallb_forall in Hts. specialize (Hts _ Hx). by rewrite Hc in Hts.
Qed.

Lemma split_digits ts t r : forallb (fun c => negb (isdigit c)) (txt ts) = true -> forallb isdigit t = true ->
  match r with [] => True | c :: _ => is_terminal ts c = true end -> split_at ts (t ++ r) = (t, r).
Proof.
  intros Hts Ht Hr. induction t as [|c t IH]; cbn [app split_at].
  - destruct r as [|c r]; [done|]. cbn [split_at]. by rewrite Hr.
  - cbn [forallb] in Ht. apply andb_true_iff in Ht as [Hc Ht]. rewrite terminal_not_digit by done. by rewrite IH.
Qed.

Lemma split_terminal ts s t c r : split_at ts s = (t, c :: r) -> is_terminal ts c = true.
Proof.
  revert t. induction s as [|x s IH]; intros t; cbn [split_at]; [done|]. destruct (is_terminal ts x) eqn:E; [by intros [= _ <- _]|].
  destruct (split_at ts s) as [t' r']. intros [= _ ->]. by apply (IH t').
Qed.

(** The terminal of a one-character set, and of the others. *)
Lemma terminal_in ts c : is_terminal ts c = true -> c ∈ txt ts.
Proof. unfold is_terminal. rewrite existsb_exists. intros (x & Hx & E). apply byte_eqb_spec in E as ->. by apply list_elem_of_In. Qed.

Lemma need_tok_inv {A} ts s (K : bytes -> byte -> bytes -> string + A) v : need_tok ts s K = inr v ->
  exists t c r, s = t ++ c :: r /\ c ∈ txt ts /\ K t c r = inr v.
Proof.
  unfold need_tok. pose proof (split_at_app ts s) as Happ. destruct (split_at ts s) as [t [|c r]] eqn:E; [done|].
  intros HK. exists t, c, r. split; [done|]. split; [|done]. by eapply terminal_in, split_terminal.
Qed.
Lemma need_tok_digits {A} ts t c r (K : bytes -> byte -> bytes -> string + A) :
  forallb (fun c => negb (isdigit c)) (txt ts) = true -> forallb isdigit t = true -> is_terminal ts c = true -> need_tok ts (t ++ c :: r) K = K t c r.
Proof. intros. unfold need_tok. by rewrite split_digits. Qed.

Lemma more_inv ts e1 e2 r t rest : more ts e1 e2 r = inr (t, rest) ->
  r = t ++ rest /\ t <> [] /\ match rest with [] => True | c :: _ => c ∈ txt ts end.
Proof.
  unfold more. destruct (_ <? _); [done|]. pose proof (split_at_app ts r) as Happ. destruct (split_at ts r) as [t' rest'] eqn:E.
  destruct t' as [|x t']; [done|]. intros [= <- <-]. split; [done|]. split; [done|]. destruct rest'; [done|]. by eapply terminal_in, split_terminal.
Qed.
Lemma more_digits ts e1 e2 t rest : forallb (fun c => negb (isdigit c)) (txt ts) = true -> forallb isdigit t = true -> t <> [] ->
  2 <= zlen (t ++ rest) -> match rest with [] => True | c :: _ => is_terminal ts c = true end -> more ts e1 e2 (t ++ rest) = inr (t, rest).
Proof.
  intros Hts Ht Hne Hl Hr. unfold more. destruct (Z.ltb_spec (zlen (t ++ rest)) 2); [lia|]. rewrite split_digits by done. by destruct t.
Qed.

(** The last digit of a token is no time zone. *)
Lemma tz_last t v : forallb isdigit t = true -> t <> [] -> tz_value (back t []) <> inr v.
Proof.
  intros Hd Hne. destruct t as [|c t _] using rev_ind; [done|]. cbn [back]. rewrite length_app, Nat.add_sub, drop_app_length.
  rewrite forallb_app in Hd. apply andb_true_iff in Hd as [_ Hc]. cbn [forallb] in Hc. rewrite andb_true_r in Hc. apply isdigit_value in Hc.
  unfold tz_value. destruct (Z.eqb_spec (b2z c) 90), (Z.eqb_spec (b2z c) 43), (Z.eqb_spec (b2z c) 45); try lia. done.
Qed.

Lemma tz_value_inv t v : tz_value t = inr v -> t <> [] -> exists z, t = zone_text z /\ zone_ok z /\ v = zone_secs z.
Proof.
  unfold tz_value. destruct t as [|c r]; [done|]. intros Hv _. destruct ((b2z c =? 90) && (zlen r =? 0)) eqn:Ez.
  { apply andb_true_iff in Ez as [E1 E2]. apply Z.eqb_eq in E1, E2. apply zlen_0 in E2 as ->. injection Hv as <-. exists Zulu.
    split; [|done]. cbn. f_equal. by apply b2z_inj. }
  destruct ((b2z c =? 43) || (b2z c =? 45)) eqn:Es; [|done].
  assert (Hc : [c] = txt (if b2z c =? 45 then "-" else "+")).
  { apply orb_true_iff in Es. rewrite !Z.eqb_eq in Es. destruct (Z.eqb_spec (b2z c) 45) as [E|]; [|destruct Es as [E|]; [|done]];
      cbn; f_equal; by apply b2z_inj. }
  assert (Hh : forall h1 h2 m1 m2 col, tz_hhmm c h1 h2 m1 m2 = inr v -> exists hh mm, [h1; h2] = dec02 hh /\ [m1; m2] = dec02 mm /\
    zone_ok (Offset (b2z c =? 45) hh mm col) /\ v = zone_secs (Offset (b2z c =? 45) hh mm col)).
  { intros h1 h2 m1 m2 col. unfold tz_hhmm. destruct (num [h1; h2] _ _ _) as [hh|] eqn:Eh; [|done]. cbn [or_msg sum_then].
    destruct (num [m1; m2] _ _ _) as [mm|] eqn:Em; [|done]. cbn [or_msg sum_then]. intros [= <-]. exists hh, mm.
    apply num_two in Eh as (-> & ? & ?), Em as (-> & ? & ?); [|done..]. split; [done|]. split; [done|]. unfold zone_ok, zone_secs. split; [lia|].
    destruct (b2z c =? 45); lia. }
  destruct r as [|h1 [|h2 [|x [|m1 [|m2 [|? ?]]]]]]; try done; destruct (forallb isdigit _); try done; cbn [andb] in Hv.
  - destruct (Hh _ _ _ _ false Hv) as (hh & mm & E1 & E2 & Ho & ->). exists (Offset (b2z c =? 45) hh mm false). split; [|done].
    cbn [zone_text]. rewrite <- Hc, <- E1, <- E2. done.
  - destruct (Z.eqb_spec (b2z x) 58) as [Ex|]; [|done]. destruct (Hh _ _ _ _ true Hv) as (hh & mm & E1 & E2 & Ho & ->).
    exists (Offset (b2z c =? 45) hh mm true). split; [|done]. cbn [zone_text]. rewrite <- Hc, <- E1, <- E2. cbn. do 3 f_equal. f_equal. by apply b2z_inj.
Qed.

Lemma tz_value_text z : zone_ok z -> tz_value (zone_text z) = inr (zone_secs z).
Proof.
  destruct z as [|west hh mm colon]; [done|]. intros [Hh Hm]. pose proof (dec02_digits hh ltac:(lia)) as Dh. pose proof (dec02_digits mm ltac:(lia)) as Dm.
  destruct (dec02_num hh (-23) 23 ltac:(lia) ltac:(lia)) as [_ Nh]. destruct (dec02_num mm 0 59 ltac:(lia) ltac:(lia)) as [_ Nm].
  cbn [zone_text zone_secs]. unfold dec02 in *. set (h1 := z2b (48 + hh / 10)) in *. set (h2 := z2b (48 + hh mod 10)) in *.
  set (m1 := z2b (48 + mm / 10)) in *. set (m2 := z2b (48 + mm mod 10)) in *.
  assert (Hall : forallb isdigit [h1; h2; m1; m2] = true) by (cbn [forallb] in *; rewrite !andb_true_iff in *; tauto).
  assert (Hd : forall c, tz_hhmm c h1 h2 m1 m2 = inr ((if b2z c =? 45 then 1 else -1) * (mm * 60 + hh * 60 * 60))).
  { intros c. unfold tz_hhmm. by rewrite Nh, Nm. }
  change (txt "-") with [z2b 45]. change (txt "+") with [z2b 43]. change (txt ":") with [z2b 58]. change (txt "") with (@nil byte).
  assert (Hgo : forall c, (b2z c =? 90) = false -> (b2z c =? 43) || (b2z c =? 45) = true -> forall col,
    tz_value ([c] ++ [h1; h2] ++ (if (col : bool) then [z2b 58] else []) ++ [m1; m2]) = inr ((if b2z c =? 45 then 1 else -1) * (hh * 3600 + mm * 60))).
  { intros c E1 E2 col. unfold tz_value. destruct col; cbn [app]; rewrite E1, E2, Hall; change (b2z (z2b 58) =? 58) with true;
      cbn [andb]; rewrite Hd; f_equal; lia. }
  destruct west, colon; [apply (Hgo (z2b 45) eq_refl eq_refl true)|apply (Hgo (z2b 45) eq_refl eq_refl false)
                        |apply (Hgo (z2b 43) eq_refl eq_refl true)|apply (Hgo (z2b 43) eq_refl eq_refl false)].
Qed.

(** ** What is accepted *)

Lemma zone_head z : zone_ok z -> exists c r, zone_text z = c :: r /\ (c = z2b 90 \/ c = z2b 43 \/ c = z2b 45).
Proof. destruct z as [|[] hh mm col]; cbn; eexists _, _; (split; [done|]); [by left|by right; right|by right; left]. Qed.

(** The seconds and the time zone of the text after the minute. *)
Definition sec_tokens (s : option (Z * option bytes)) : bytes * bytes :=
  match s with None => ([], []) | Some (s, ms) => (dec02 s, default [] ms) end.

Lemma date_value_text d : iso_ok d ->
  date_value (dec04 (d_year d)) (dec02 (d_month d)) (dec02 (d_day d)) (dec02 (d_hour d)) (dec02 (d_min d))
    (fst (sec_tokens (d_sec d))) (snd (sec_tokens (d_sec d))) (zone_text (d_zone d)) = inr (iso_value d).
Proof.
  intros (Hy & Hmo & Hd & Hh & Hmi & Hs & Hz). unfold date_value.
  rewrite (proj1 (dec04_num (d_year d) (-9999) 9999 ltac:(lia) ltac:(lia))), (proj1 (dec02_num (d_month d) 1 12 ltac:(lia) ltac:(lia))),
    (proj1 (dec02_num (d_day d) 1 31 ltac:(lia) ltac:(lia))), (proj1 (dec02_num (d_hour d) 0 23 ltac:(lia) ltac:(lia))),
    (proj1 (dec02_num (d_min d) 0 59 ltac:(lia) ltac:(lia))). cbn [or_msg sum_then].
  rewrite tz_value_text by done. unfold iso_value. destruct (d_sec d) as [[s ms]|]; cbn [sec_tokens fst snd sec_msecs].
  - destruct Hs as [Hs Hms]. rewrite (proj1 (dec02_num s 0 60 ltac:(lia) ltac:(lia))).
    change (match dec02 s with [] => inr 0 | _ :: _ => ?x end) with x. cbn [or_msg sum_then].
    destruct ms as [ms|]; cbn [default from_option id].
    + unfold millis_of. destruct Hms as [Hms Hl]. rewrite Hms. destruct (Z.ltb_spec 3 (zlen ms)); [lia|]. cbn [orb negb sum_then]. f_equal.
      assert (zlen ms = 1 \/ zlen ms = 2 \/ zlen ms = 3) as [E|[E|E]] by lia; rewrite E; cbn [Z.eqb Pos.eqb Z.sub Z.opp Z.add Z.pos_sub];
        [change (10 ^ (3 + -1)) with 100|change (10 ^ (3 + -2)) with 10|change (10 ^ (3 + -3)) with 1]; lia.
    + change (millis_of []) with (@inr string Z 0). cbn [sum_then]. f_equal. lia.
  - change (millis_of []) with (@inr string Z 0). cbn [sum_then]. f_equal. lia.
Qed.

Lemma iso_spec_text d : iso_ok d -> iso_spec (iso_print d) = inr (iso_value d).
Proof.
  intros Hok. pose proof (date_value_text d Hok) as Hval. destruct Hok as (Hy & Hmo & Hd & Hh & Hmi & Hs & Hz). unfold iso_spec, iso_print.
  change (txt "-") with [z2b 45]. change (txt "T") with [z2b 84]. change (txt ":") with [z2b 58]. cbn [app].
  rewrite need_tok_digits by (done || apply (proj2 (dec04_num (d_year d) 0 9999 ltac:(lia) ltac:(lia)))).
  do 3 (rewrite need_tok_digits by (done || (apply dec02_digits; lia))).
  destruct (zone_head (d_zone d) Hz) as (c & r & Ez & Hc).
  destruct (d_sec d) as [[s ms]|]; cbn [sec_text sec_tokens fst snd] in Hval |- *.
  - change (txt ":") with [z2b 58]. cbn [app]. rewrite need_tok_digits by (done || (apply dec02_digits; lia)).
    change (b2z (z2b 58) =? 58) with true. cbv iota. destruct Hs as [Hs Hms].
    assert (Hne : dec02 s <> []) by done. pose proof (dec02_digits s ltac:(lia)) as Hds.
    destruct ms as [ms|]; cbn [default from_option id] in Hval.
    + change (txt ".") with [z2b 46]. rewrite <- !app_assoc. cbn [app]. rewrite more_digits; [|done|done|done|rewrite zlen_app, zlen_cons; change (zlen (dec02 s)) with 2; zl|done].
      cbn [sum_then fst snd hd tail]. change (negb (zlen (dec02 s) =? 0) && (b2z (z2b 46) =? 46)) with true. cbv iota.
      destruct Hms as [Hms Hl]. rewrite Ez. rewrite more_digits; [|done|done|intros ->; unfold zlen in Hl; cbn in Hl; lia|rewrite zlen_app, zlen_cons; zl|by destruct Hc as [->|[->| ->]]].
      cbn [sum_then fst snd back]. by rewrite Ez in Hval.
    + rewrite app_nil_r, Ez. rewrite more_digits; [|done|done|done|rewrite zlen_app; change (zlen (dec02 s)) with 2; zl|by destruct Hc as [->|[->| ->]]].
      cbn [sum_then fst snd hd back]. rewrite Ez in Hval. replace (b2z c =? 46) with false by (by destruct Hc as [->|[->| ->]]).
      by rewrite andb_false_r.
  - cbn [app]. rewrite Ez in Hval |- *. rewrite need_tok_digits; [|done|apply dec02_digits; lia|by destruct Hc as [->|[->| ->]]].
    replace (b2z c =? 58) with false by (by destruct Hc as [->|[->| ->]]). cbn [sum_then fst snd back]. done.
Qed.

Lemma or_msg_inv {A B} (x : option A) msg (f : A -> string + B) v : sum_then (or_msg x msg) f = inr v -> exists a, x = Some a /\ f a = inr v.
Proof. destruct x as [a|]; [|done]. by exists a. Qed.
Lemma sum_then_inv {A B} (x : string + A) (f : A -> string + B) v : sum_then x f = inr v -> exists a, x = inr a /\ f a = inr v.
Proof. destruct x as [|a]; [done|]. by exists a. Qed.

Lemma date_value_inv year month day hour min sec millis tz v : date_value year month day hour min sec millis tz = inr v -> tz <> [] ->
  (sec = [] -> millis = []) -> exists d, iso_ok d /\ v = iso_value d /\ year = dec04 (d_year d) /\ month = dec02 (d_month d) /\ day = dec02 (d_day d) /\
    hour = dec02 (d_hour d) /\ min = dec02 (d_min d) /\ sec_text (d_sec d) = match sec with [] => [] | _ => txt ":" ++ sec ++ match millis with [] => [] | _ => txt "." ++ millis end end /\
    tz = zone_text (d_zone d).
Proof.
  unfold date_value. intros H Hne Hsm.
  apply or_msg_inv in H as (y & Ey & H). apply or_msg_inv in H as (mo & Emo & H). apply or_msg_inv in H as (d & Ed & H).
  apply or_msg_inv in H as (h & Eh & H). apply or_msg_inv in H as (mi & Emi & H). apply sum_then_inv in H as (se & Ese & H).
  apply sum_then_inv in H as (adj & Eadj & H). apply sum_then_inv in H as (ms & Ems & [= <-]).
  apply num4 in Ey as (-> & ?). apply num2 in Emo as (-> & ? & ?), Ed as (-> & ? & ?), Eh as (-> & ? & ?), Emi as (-> & ? & ?).
  apply tz_value_inv in Eadj as (z & -> & Hz & ->); [|done].
  unfold millis_of in Ems. destruct (Z.ltb_spec 3 (zlen millis)); [done|]. destruct (forallb isdigit millis) eqn:Edm; [|done]. injection Ems as <-.
  set (osec := match sec with [] => None | _ => Some (se, match millis with [] => None | _ => Some millis end) end).
  exists (IsoDate y mo d h mi osec z). unfold iso_ok, iso_value. cbn [d_year d_month d_day d_hour d_min d_sec d_zone].
  destruct sec as [|c sec]; subst osec; [injection Ese as <-; rewrite Hsm by done; split; [repeat split; try lia; done|]; split; [cbn; lia|done]|].
  destruct (num (c :: sec) 2 0 60) as [se'|] eqn:En; [|done]. injection Ese as ->. apply num2 in En as (-> & ? & ?).
  destruct millis as [|x millis]; cbn [sec_ok sec_msecs sec_text]; [split; [repeat split; try lia; done|]; split; [cbn; lia|done]|].
  pose proof (zlen_nonneg millis). rewrite zlen_cons in *. split; [repeat split; try lia; done|]. split; [|done].
  assert (E : (if 1 + zlen millis =? 1 then 100 else if 1 + zlen millis =? 2 then 10 else 1) = 10 ^ (3 - (1 + zlen millis))).
  { assert (zlen millis = 0 \/ zlen millis = 1 \/ zlen millis = 2) as [->|[->| ->]] by lia; reflexivity. }
  rewrite E. lia.
Qed.

Lemma in_txt1 c x ts : txt ts = [x] -> c ∈ txt ts -> c = x.
Proof. intros -> H. by apply list_elem_of_singleton in H. Qed.

(** The seconds and what follows them. *)
Lemma sec_values_inv year month day hour min s sec rest v :
  (if negb (zlen sec =? 0) && (b2z (hd x00 rest) =? 46) then
     millis ←s more "+-Z" "reached end of date while looking for milliseconds" "seconds ends in '.', milliseconds is required" (tail rest);
     date_value year month day hour min sec (fst millis) (back (fst millis) (snd millis))
   else date_value year month day hour min sec [] (back sec rest)) = inr v ->
  (sec <> [] /\ s = txt ":" ++ sec ++ rest) \/ (sec = [] /\ rest = s /\ s <> []) ->
  exists d, iso_ok d /\ v = iso_value d /\ year = dec04 (d_year d) /\ month = dec02 (d_month d) /\ day = dec02 (d_day d) /\
    hour = dec02 (d_hour d) /\ min = dec02 (d_min d) /\ s = sec_text (d_sec d) ++ zone_text (d_zone d).
Proof.
  intros H Hs.
  (* the last digit of the seconds or of the milliseconds is no time zone *)
  assert (Hlast : forall t millis w, forallb isdigit t = true -> t <> [] -> date_value year month day hour min sec millis (back t []) <> inr w).
  { intros t millis w Ht Hne. unfold date_value. intros E. do 5 apply or_msg_inv in E as (? & _ & E).
    apply sum_then_inv in E as (? & _ & E). apply sum_then_inv in E as (? & E & _). by apply tz_last in E. }
  destruct (Z.eqb_spec (zlen sec) 0) as [E|E]; cbn [negb andb] in H.
  - apply zlen_0 in E as ->. destruct Hs as [[? _]|(_ & -> & Hne)]; [done|]. destruct s as [|c s]; [done|]. cbn [back] in H.
    apply date_value_inv in H as (d & Hok & -> & -> & -> & -> & -> & -> & E & ->); [|done|done]. exists d. rewrite E. done.
  - destruct Hs as [[Hne ->]|[-> _]]; [|done]. destruct (Z.eqb_spec (b2z (hd x00 rest)) 46) as [E46|E46].
    + destruct rest as [|c r]; [done|]. cbn [hd tail] in *. apply sum_then_inv in H as ([mt mrest] & Em & H). cbn [fst snd] in H.
      apply more_inv in Em as (-> & Hm & _).
      assert (Hd : forallb isdigit mt = true).
      { unfold date_value in H. do 5 apply or_msg_inv in H as (? & _ & H). do 2 apply sum_then_inv in H as (? & _ & H). apply sum_then_inv in H as (? & H1 & _).
        unfold millis_of in H1. destruct (_ || _) eqn:Eo in H1; [done|]. apply orb_false_iff in Eo as [_ Eo]. by apply negb_false_iff in Eo. }
      destruct mrest as [|c' r']; [by apply Hlast in H|]. cbn [back] in H.
      apply date_value_inv in H as (d & Hok & -> & -> & -> & -> & -> & -> & E' & Ez); [|done|done]. exists d. rewrite E'.
      destruct sec; [done|]. destruct mt; [done|]. rewrite Ez. split_and!; try done. rewrite <- !app_assoc. do 2 f_equal. cbn. f_equal. by apply b2z_inj.
    + destruct rest as [|c r].
      * assert (Hd : forallb isdigit sec = true).
        { unfold date_value in H. do 5 apply or_msg_inv in H as (? & _ & H). apply sum_then_inv in H as (? & H1 & H). destruct sec; [done|].
          destruct (num _ _ _ _) eqn:En in H1; [|done]. by apply num_Some in En as (_ & ? & _). }
        by apply Hlast in H.
      * cbn [back] in H. apply date_value_inv in H as (d & Hok & -> & -> & -> & -> & -> & -> & E' & Ez); [|done|done]. exists d. rewrite E', Ez.
        destruct sec; [done|]. split_and!; try done. by rewrite app_nil_r, <- app_assoc.
Qed.

Lemma iso_spec_inv s v : iso_spec s = inr v -> exists d, iso_ok d /\ s = iso_print d /\ v = iso_value d.
Proof.
  unfold iso_spec. intros H.
  apply need_tok_inv in H as (year & c1 & s1 & -> & H1 & H). apply need_tok_inv in H as (month & c2 & s2 & -> & H2 & H).
  apply need_tok_inv in H as (day & c3 & s3 & -> & H3 & H). apply need_tok_inv in H as (hour & c4 & s4 & -> & H4 & H).
  apply need_tok_inv in H as (min & c5 & s5 & -> & H5 & H). apply sum_then_inv in H as ([sec rest] & Esec & H). cbn [fst snd] in H.
  apply (sec_values_inv _ _ _ _ _ (c5 :: s5)) in H as (d & Hok & -> & -> & -> & -> & -> & -> & Es).
  - exists d. split; [done|]. split; [|done]. unfold iso_print.
    rewrite (in_txt1 c1 (z2b 45) "-" eq_refl H1), (in_txt1 c2 (z2b 45) "-" eq_refl H2), (in_txt1 c3 (z2b 84) "T" eq_refl H3), (in_txt1 c4 (z2b 58) ":" eq_refl H4), Es.
    done.
  - destruct (Z.eqb_spec (b2z c5) 58) as [E|E].
    + left. apply more_inv in Esec as (-> & Hne & _). split; [done|]. cbn. f_equal. by apply b2z_inj.
    + injection Esec as <- <-. by right.
Qed.

(** The whole function: never a read past the terminator, and the result is the
    one of the reference. *)
Lemma cstr_total s t : exists u, cstr (s ++ x00 :: t) = Some u.
Proof. induction s as [|c s [u E]]; cbn [app cstr]; [by eexists|]. destruct (byte_eqb c x00); [by eexists|]. rewrite E. by eexists. Qed.

Lemma iso8601_spec mytm0 s post : zlen s < INT32_MAX - 1 ->
  exists r, _bson_iso8601_date_parse mytm0 (s ++ x00 :: post) (zlen s) = Some r /\
    match iso_spec s with
    | inr v => r = inr v
    | inl _ => exists e, r = inl e /\ err_domain e = BSON_ERROR_JSON /\ err_code e = BSON_JSON_ERROR_READ_INVALID_PARAM
    end.
Proof.
  intros Hs. unfold _bson_iso8601_date_parse. rewrite (date_parse_spec (s ++ x00 :: post) mytm0 s post eq_refl Hs). sbind.
  destruct (iso_spec s) as [msg|v]; [|by eexists]. destruct (cstr_total s post) as [u ->]. sbind. eexists. split; [done|]. by eexists.
Qed.

(** ** The text that is written *)

Definition text_ok (y : Z) : bool := (y <? 1000) || bool_decide (dec y = dec04 y).
Lemma dec_dec04 y : 1000 <= y <= 9999 -> dec y = dec04 y.
Proof.
  intros Hy. assert (H : text_ok y = true) by (apply (upto_spec _ (Z.to_nat 10000)); [vm_compute; reflexivity|lia]).
  unfold text_ok in H. destruct (Z.ltb_spec y 1000); [lia|]. by apply bool_decide_eq_true in H.
Qed.
Definition msec_ok (v : Z) : bool := forallb isdigit (dec0 3 v) && (zlen (dec0 3 v) =? 3) && (undec (dec0 3 v) =? v).
Lemma dec0_msec v : 0 <= v < 1000 -> forallb isdigit (dec0 3 v) = true /\ zlen (dec0 3 v) = 3 /\ undec (dec0 3 v) = v.
Proof.
  intros Hv. assert (H : msec_ok v = true) by (apply (upto_spec _ 1000); [vm_compute; reflexivity|lia]).
  unfold msec_ok in H. rewrite !andb_true_iff, !Z.eqb_eq in H. tauto.
Qed.

(** The date of a number of milliseconds. *)
Definition date_of (t : tm) (ms : Z) : iso_date :=
  IsoDate (tm_year t + 1900) (tm_mon t + 1) (tm_mday t) (tm_hour t) (tm_min t)
    (Some (tm_sec t, if ms =? 0 then None else Some (dec0 3 ms))) Zulu.

Lemma iso_text_date msec : 0 <= msec < y10k -> exists d, iso_ok d /\ iso_text msec = iso_print d /\ iso_value d = msec.
Proof.
  unfold y10k. intros Hm. assert (Hq : 0 <= Z.quot msec 1000 < 253402300800 /\ 0 <= Z.rem msec 1000 < 1000 /\ msec = 1000 * Z.quot msec 1000 + Z.rem msec 1000)
    by (Z.to_euclidean_division_equations; lia).
  destruct Hq as (Hq & Hr & He). unfold iso_text. set (q := Z.quot msec 1000) in *. set (r := Z.rem msec 1000) in *.
  destruct (gmtime_Some q) as [t Et]; [lia|]. rewrite Et. apply gmtime_spec in Et as [Hv Hs].
  destruct Hv as (Hmo & Hd & Hh & Hmi & Hse). pose proof (days_in_month_range (tm_year t + 1900) (tm_mon t + 1)).
  unfold seconds_of in Hs. pose proof (dfc_in_year (tm_year t + 1900) (tm_mon t + 1) (tm_mday t) ltac:(lia) Hd) as Hj.
  assert (Hy : 1970 <= tm_year t + 1900 <= 9999).
  { split; [destruct (Z_lt_ge_dec (tm_year t + 1900) 1970)|destruct (Z_lt_ge_dec 9999 (tm_year t + 1900))]; try lia; exfalso.
    - pose proof (jan1_le (tm_year t + 1900 + 1) 1970 ltac:(lia)). assert (jan1 1970 = 0) by (vm_compute; reflexivity). lia.
    - pose proof (jan1_le 10000 (tm_year t + 1900) ltac:(lia)). assert (jan1 10000 = 2932897) by (vm_compute; reflexivity). lia. }
  exists (date_of t r). destruct (dec0_msec r Hr) as (D1 & D2 & D3). unfold iso_ok, iso_value, iso_print, date_of. cbn [d_year d_month d_day d_hour d_min d_sec d_zone].
  split; [|split].
  - split; [lia|]. split; [lia|]. split; [lia|]. split; [lia|]. split; [lia|]. split; [|done]. cbn [sec_ok]. split; [lia|].
    destruct (r =? 0); [done|]. rewrite D2. split; [done|lia].
  - unfold strftime_iso. rewrite !(ltac:(intros; unfold sdec; destruct (Z.ltb_spec (tm_year t + 1900) 0); [lia|]; apply dec_dec04; lia) : sdec (tm_year t + 1900) = dec04 (tm_year t + 1900)).
    rewrite <- !app_assoc. cbn [sec_text zone_text]. destruct (r =? 0); by rewrite <- ?app_assoc.
  - cbn [sec_msecs zone_secs]. rewrite (dfc_day _ _ (tm_mday t)) in *. destruct (Z.eqb_spec r 0); [lia|]. rewrite D2, D3. change (10 ^ (3 - 3)) with 1. lia.
Qed.

Lemma iso_print_len d : iso_ok d -> zlen (iso_print d) <= 29.
Proof.
  intros (_ & _ & _ & _ & _ & Hs & _). unfold iso_print. rewrite !zlen_app. change (zlen (dec04 (d_year d))) with 4.
  change (zlen (dec02 (d_month d))) with 2. change (zlen (dec02 (d_day d))) with 2. change (zlen (dec02 (d_hour d))) with 2. change (zlen (dec02 (d_min d))) with 2.
  change (zlen (txt "-")) with 1. change (zlen (txt "T")) with 1. change (zlen (txt ":")) with 1.
  assert (zlen (zone_text (d_zone d)) <= 6) by (destruct (d_zone d) as [|[] hh mm []]; apply Z.leb_le; reflexivity).
  assert (zlen (sec_text (d_sec d)) <= 7); [|lia].
  destruct (d_sec d) as [[s [ms|]]|]; cbn [sec_text]; rewrite ?zlen_app; [|apply Z.leb_le; reflexivity..].
  destruct Hs as (_ & _ & Hm). change (zlen (txt ":")) with 1. change (zlen (txt ".")) with 1. change (zlen (dec02 s)) with 2. lia.
Qed.
