(* ===== verification/DateTheorems.v ===== *)
(** The main results on dates: seconds since the epoch and the text of ISO 8601. *)

From Stdlib Require Import Strings.String.
From S2P Require Import Prelude CString Text Calendar Utf8 CommonString StringFormat Json JsonSpec JsonTheorems.
From S2P Require Import Timegm TimegmSpec Iso8601.

(** C30. Seconds since the epoch: [_bson_timegm] answers the second the fields of the
    broken-down time name in the proleptic Gregorian calendar, months, days, hours,
    minutes and seconds outside their units carried over, whatever the local the
    search uses held before; and it leaves the normalised broken-down time of that
    second, with the day of the week and of the year. The search ends, for every
    year of up to 29 bits and other fields of up to 30. *)
Theorem timegm_exact mytm0 tmp : in_range tmp ->
  exists r, _bson_timegm mytm0 tmp = Some (fields_seconds tmp, r) /\ broken_down (fields_seconds tmp) r.
Proof. apply timegm_spec. Qed.

Lemma timegm_exact_witness : exists r, _bson_timegm tm_zero (BsonTm 60 59 23 30 13 115 0 0 1) = Some (1456876800, r) /\ broken_down 1456876800 r.
Proof.
  change 1456876800 with (fields_seconds (BsonTm 60 59 23 30 13 115 0 0 1)).
  apply (timegm_exact tm_zero (BsonTm 60 59 23 30 13 115 0 0 1)). unfold in_range. cbn. lia.
Defined.

(** C29. Which texts are dates: on any bytes before a terminator [_bson_iso8601_date_parse]
    answers, without a read past the terminator and without overflow; it accepts
    exactly the texts of dates [yyyy-mm-ddThh:mm], with or without seconds and up to
    three digits of a fraction of them, and a time zone, [Z] or an offset with or
    without a colon; it gives the milliseconds since the epoch the date means; and
    for every other text it sets an error of JSON. *)
Theorem iso8601_decides mytm0 s post : zlen s < INT32_MAX - 1 ->
  exists r, _bson_iso8601_date_parse mytm0 (s ++ x00 :: post) (zlen s) = Some r /\
    (forall v, r = inr v <-> exists d, iso_ok d /\ s = iso_print d /\ v = iso_value d) /\
    (forall e, r = inl e -> err_domain e = BSON_ERROR_JSON /\ err_code e = BSON_JSON_ERROR_READ_INVALID_PARAM).
Proof.
  intros Hs. destruct (iso8601_spec mytm0 s post Hs) as (r & -> & Hr). exists r. split; [done|]. split.
  - intros v. split.
    + intros ->. destruct (iso_spec s) as [msg|w] eqn:E; [by destruct Hr as (? & ? & _)|]. injection Hr as ->. by apply iso_spec_inv.
    + intros (d & Hok & -> & ->). by rewrite iso_spec_text in Hr.
  - intros e ->. destruct (iso_spec s); [|done]. by destruct Hr as (e' & [= ->] & ?).
Qed.

Definition sample_date : iso_date := IsoDate 2024 2 29 23 30 (Some (59, Some (txt "25"))) (Offset true 5 30 true).
Lemma iso8601_decides_witness : exists r,
  _bson_iso8601_date_parse tm_zero (txt "2024-02-29T23:30:59.25-05:30" ++ x00 :: []) 28 = Some r /\ (r = inr 1709269259250).
Proof.
  destruct (iso8601_decides tm_zero (txt "2024-02-29T23:30:59.25-05:30") [] ltac:(vm_compute; reflexivity)) as (r & E & Hr & _).
  exists r. split; [exact E|]. apply Hr. exists sample_date. split; [|split; vm_compute; reflexivity].
  vm_compute. repeat split; discriminate.
Defined.

(** C34. Dates survive: the date of a number of milliseconds before the year 10000 that the
    JSON output appends, with room for 29 bytes, is a text the JSON input parses back to
    that number, whatever the terminator is followed by. *)
Theorem iso8601_roundtrip malloc a u max msec mytm0 :
  (forall n, 0 <= n -> zlen (malloc n) = n) ->
  append_is a u max false -> utf8_text true u -> 0 <= msec < y10k -> zlen u + 29 <= max ->
  exists a' t, mcommon_iso8601_string_append malloc msec a = Some (true, a') /\ append_is a' (u ++ t) max false /\
    forall post, _bson_iso8601_date_parse mytm0 (t ++ x00 :: post) (zlen t) = Some (inr msec).
Proof.
  intros Hmalloc Ha Hu Hm Hroom. destruct (iso_text_date msec Hm) as (d & Hok & Et & Ev). pose proof (iso_print_len d Hok) as Hl. rewrite <- Et in Hl.
  destruct (writes_iso malloc Hmalloc max false msec Hm u a) as (a' & E & Htr); [lia|by exists u, false|].
  apply tracks_fits in Htr; [|rewrite zlen_app; lia]. exists a', (iso_text msec). split; [|split; [done|]].
  - rewrite E. unfold mcommon_string_status_from_append. destruct Htr as (_ & _ & _ & ->). done.
  - intros post. destruct (iso8601_spec mytm0 (iso_text msec) post) as (r & -> & Hr); [unfold INT32_MAX; lia|].
    rewrite Et, iso_spec_text in Hr by done. by rewrite Hr, Ev.
Qed.

Lemma iso8601_roundtrip_witness : exists a' t,
  mcommon_iso8601_string_append zeros 1709269259250 (Append (Str (lit "ab") 2 3) 60 false) = Some (true, a') /\ append_is a' (txt "ab" ++ t) 60 false /\
  forall post, _bson_iso8601_date_parse tm_zero (t ++ x00 :: post) (zlen t) = Some (inr 1709269259250).
Proof.
  apply (iso8601_roundtrip zeros _ _ 60 1709269259250 tm_zero zlen_zeros).
  - split; [|done]. split; [done|]. split; [done|]. split; [done|]. by exists [].
  - apply utf8_text_run; vm_compute; reflexivity.
  - unfold y10k. lia.
  - apply Z.leb_le. vm_compute. reflexivity.
Defined.
