(* ===== verification/Ckdint.v ===== *)
(** Checked integer arithmetic and comparisons across integer types
    ([mlib/intutil.h], [mlib/cmp.h] and [mlib/ckdint.h]), and that they are those of the
    unbounded integers. *)

From S2P Require Import Prelude.

(** ** Types of integers *)

(** An integer type: whether it is signed, and its bits (8, 16, 32 or 64). *)
Record ctype := CType { c_signed : bool; c_bits : Z }.
Definition ctype_ok (t : ctype) : Prop := c_bits t = 8 \/ c_bits t = 16 \/ c_bits t = 32 \/ c_bits t = 64.

Definition t_int : ctype := CType true 32.
Definition t_unsigned : ctype := CType false 32.
Definition t_int32 : ctype := CType true 32.
Definition t_int64 : ctype := CType true 64.
Definition t_uint64 : ctype := CType false 64.
Definition t_size : ctype := CType false 64.
Definition t_ptrdiff : ctype := CType true 64.

(** A mask of ones above zeros. *)
Definition mlib_bits (NumOnes NumZeros : Z) : Z :=
  u64 (Z.shiftl (if NumOnes =? 0 then 0 else Z.shiftr UINT64_MAX (64 - NumOnes)) NumZeros).

Definition mlib_maxof (t : ctype) : Z := if c_signed t then mlib_bits (c_bits t - 1) 0 else mlib_bits (c_bits t) 0.
(** [(T) mlib_bits (1, bits - 1)], or 0. *)
Definition mlib_minof (t : ctype) : Z := if c_signed t then sext (c_bits t) (mlib_bits 1 (c_bits t - 1)) else 0.

(** The value of the type that has the low bits of [z]. *)
Definition as_type (t : ctype) (z : Z) : Z :=
  if c_signed t then sext (c_bits t) (z mod 2 ^ c_bits t) else z mod 2 ^ c_bits t.

(** [mlib_upsized_integer]: the bits, and whether they are a signed number. *)
Record upsized := Upsized { up_signed : bool; up_bits : Z }.
Definition as_signed (x : upsized) : Z := s64 (up_bits x).
Definition as_unsigned (x : upsized) : Z := up_bits x.

(** Narrow types become signed numbers. *)
Definition mlib_upsize_integer (t : ctype) (v : Z) : upsized := Upsized ((c_bits t <? 64) || c_signed t) (u64 v).

(** ** Comparisons *)

(** -1 less, 0 equal, 1 greater. *)
Definition mlib_cmp (x y : upsized) : Z :=
  if up_signed x then
    if up_signed y then
      if as_signed x <? as_signed y then -1 else if as_signed y <? as_signed x then 1 else 0
    else
      if (as_signed x <? 0) || (u64 (as_signed x) <? as_unsigned y) then -1
      else if as_unsigned y <? u64 (as_signed x) then 1 else 0
  else
    if negb (up_signed y) then
      if as_unsigned x <? as_unsigned y then -1 else if as_unsigned y <? as_unsigned x then 1 else 0
    else
      if (as_signed y <? 0) || (u64 (as_signed y) <? as_unsigned x) then 1
      else if as_unsigned x <? u64 (as_signed y) then -1 else 0.

Definition mlib_in_range (min_ max_ : Z) (val : upsized) : bool :=
  let t := if up_signed val then t_int64 else t_uint64 in
  let v := mlib_upsize_integer t (if up_signed val then as_signed val else as_unsigned val) in
  (0 <=? mlib_cmp v (mlib_upsize_integer t_int64 min_)) && (mlib_cmp v (mlib_upsize_integer t_uint64 max_) <=? 0).

(** ** Arithmetic on 64 bits *)

(** The result, wrapped, and whether it overflowed. *)
Definition arith_fn : Type := bool -> bool -> Z -> bool -> Z -> Z * bool.

Definition signbit : Z := mlib_bits 1 63.
Definition nz (z : Z) : bool := negb (z =? 0).
Definition not64 (z : Z) : Z := UINT64_MAX - z.

Definition mlib_add : arith_fn := fun dst_signed a_signed a b_signed b =>
  let sum := u64 (a + b) in
  (sum,
   if dst_signed then
     if a_signed then
       if b_signed then nz (Z.land (Z.land signbit (Z.lxor sum a)) (Z.lxor sum b))
       else let a := Z.lxor a signbit in u64 (a + b) <? a
     else
       if b_signed then let b := Z.lxor b signbit in u64 (a + b) <? b
       else (sum <? a) || nz (Z.land signbit sum)
   else
     if a_signed then
       if b_signed then nz (Z.land signbit (Z.lor (Z.land (Z.lor sum a) b) (Z.land (Z.land sum a) (not64 b))))
       else nz (Z.land (Z.land signbit (Z.lxor (Z.lxor sum a) signbit)) (Z.lxor sum b))
     else
       if b_signed then nz (Z.land (Z.land signbit (Z.lxor sum a)) (Z.lxor (Z.lxor sum b) signbit))
       else sum <? a).

Definition mlib_sub : arith_fn := fun dst_signed a_signed a b_signed b =>
  let diff := u64 (a - b) in
  (diff,
   if dst_signed then
     let diff_is_negative := nz (Z.land signbit diff) in
     if a_signed then
       if b_signed then nz (Z.land (Z.land signbit (Z.lxor a b)) (Z.lxor diff a))
       else Z.lxor a signbit <? b
     else
       if b_signed then Z.lxor b signbit <=? a
       else let expect_negative := a <? b in negb (eqb expect_negative diff_is_negative)
   else
     if a_signed then
       if b_signed then nz (Z.land signbit (Z.lor (Z.land (Z.land diff a) b) (Z.land (Z.lor diff a) (not64 b))))
       else (a <? b) || nz (Z.land signbit a)
     else
       if b_signed then nz (Z.land (Z.land signbit (Z.lxor (Z.lxor a b) signbit)) (Z.lxor diff a))
       else a <? b).

(** The cases with a signed first operand, or with two unsigned ones. *)
Definition mul_ss (a b : Z) : Z * bool :=
  let dst := u64 (a * b) in
  (dst,
   if ((s64 b =? -1) && (s64 a =? - 2 ^ 63)) || ((s64 a =? -1) && (s64 b =? - 2 ^ 63)) then true
   else nz a && negb (Z.quot (s64 dst) (s64 a) =? s64 b)).
Definition mul_su (a b : Z) : Z * bool :=
  let dst := u64 (a * b) in
  let a_is_negative := nz (Z.land signbit a) in
  let positive_a := if a_is_negative then u64 (0 - a) else a in
  let positive_prod := u64 (positive_a * b) in
  let did_overflow := nz positive_a && negb (positive_prod / positive_a =? b) in
  (dst, if did_overflow then true else u64 (INT64_MAX + Z.b2z a_is_negative) <? positive_prod).
Definition mul_uu (a b : Z) : Z * bool :=
  let dst := u64 (a * b) in
  let did_overflow := nz a && negb (dst / a =? b) in
  (dst, if did_overflow then true else nz (Z.land signbit dst)).
Definition umul_ss (a b : Z) : Z * bool :=
  let both := nz (Z.land (Z.land signbit a) b) in
  let a' := if both then u64 (0 - a) else a in
  let b' := if both then u64 (0 - b) else b in
  let either_min := both && ((s64 a' =? - 2 ^ 63) || (s64 b' =? - 2 ^ 63)) in
  let neg_prod := nz (Z.land signbit (Z.lxor a' b')) && nz a' && nz b' && negb either_min in
  let dst := u64 (a' * b') in
  (dst, neg_prod || (nz a' && negb (dst / a' =? b'))).
Definition umul_su (a b : Z) : Z * bool :=
  let dst := u64 (a * b) in
  let did_ovr := nz a && negb (dst / a =? b) in
  let a_is_negative := nz (Z.land signbit a) in
  (dst, did_ovr || (a_is_negative && nz b)).
Definition umul_uu (a b : Z) : Z * bool := let dst := u64 (a * b) in (dst, nz a && negb (dst / a =? b)).

Definition mlib_mul : arith_fn := fun dst_signed a_signed a b_signed b =>
  if dst_signed then
    if a_signed then (if b_signed then mul_ss a b else mul_su a b)
    else (if b_signed then mul_su b a else mul_uu a b)
  else
    if a_signed then (if b_signed then umul_ss a b else umul_su a b)
    else (if b_signed then umul_su b a else umul_uu a b).

(** ** The checks around them *)

(** Whether the result is not the true one, and what is written at the destination
    of type [dst], on a little-endian machine: the low bytes. *)
Definition _mlib_ckdint (dst : ctype) (minval maxval : Z) (a b : upsized) (fn : arith_fn) : bool * Z :=
  let '(tmp, ovr) := fn (minval <? 0) (up_signed a) (up_bits a) (up_signed b) (up_bits b) in
  (if minval <? 0 then
     let idst := s64 tmp in ovr || (idst <? minval) || ((0 <? idst) && (maxval <? u64 idst))
   else ovr || (maxval <? tmp),
   as_type dst tmp).

(** [mlib_add (&dst, l, r)] and the others, on operands of types [A] and [B]. *)
Definition ckdint (fn : arith_fn) (dst A B : ctype) (l r : Z) : bool * Z :=
  _mlib_ckdint dst (mlib_minof dst) (mlib_maxof dst) (mlib_upsize_integer A l) (mlib_upsize_integer B r) fn.
Definition mlib_narrow (dst A : ctype) (v : Z) : bool * Z := ckdint mlib_add dst A t_int v 0.

(** [mlib_assert_add] and the others: [None] is the end of the program. *)
Definition _mlib_assert_ckdint (fn : arith_fn) (T A B : ctype) (l r : Z) : option Z :=
  let '(did_overflow, v) := ckdint fn T A B l r in if (did_overflow : bool) then None else Some v.
Definition mlib_assert_narrow (T A : ctype) (v : Z) : option Z :=
  let val := mlib_upsize_integer A v in
  if negb (mlib_in_range (mlib_minof T) (mlib_maxof T) val) then None
  else Some (as_type T (if up_signed val then u64 (as_signed val) else as_unsigned val)).

Example ckd_ex1 : ckdint mlib_mul t_int64 t_uint64 t_int (2 ^ 63) (-1) = (false, - 2 ^ 63).
Proof. vm_compute. reflexivity. Qed.
Example ckd_ex2 : ckdint mlib_add (CType false 8) t_int t_int 200 57 = (true, 1).
Proof. vm_compute. reflexivity. Qed.
Example ckd_ex3 : ckdint mlib_sub t_uint64 t_int64 t_int64 (-1) (- 2 ^ 63) = (false, 2 ^ 63 - 1).
Proof. vm_compute. reflexivity. Qed.

(** The numbers 64 bits hold, signed or not. *)
Definition range64 (signed : bool) (z : Z) : bool :=
  if signed then (- 2 ^ 63 <=? z) && (z <? 2 ^ 63) else (0 <=? z) && (z <? 2 ^ 64).
Definition up_value (x : upsized) : Z := if up_signed x then s64 (up_bits x) else up_bits x.
Definition value64 (signed : bool) (bits : Z) : Z := if signed then s64 bits else bits.

(** A function of 64 bits: the result wraps, and overflow is that it is not in range. *)
Definition exact (fn : arith_fn) (op : Z -> Z -> Z) : Prop :=
  forall ds sa a sb b, is_u64 a -> is_u64 b ->
    fn ds sa a sb b = (u64 (op (value64 sa a) (value64 sb b)), negb (range64 ds (op (value64 sa a) (value64 sb b)))).

(** ** Bits *)

Lemma signbit_eq : signbit = 2 ^ 63.
Proof. reflexivity. Qed.

Lemma top_bit x : is_u64 x -> Z.testbit x 63 = (2 ^ 63 <=? x).
Proof.
  unfold is_u64. intros Hx. apply eq_bool_prop_intro. rewrite !Is_true_true, Z.leb_le.
  rewrite Z.testbit_true by lia. Z.to_euclidean_division_equations; lia.
Qed.

Lemma nz_signbit e : nz (Z.land signbit e) = Z.testbit e 63.
Proof.
  unfold nz. rewrite signbit_eq. destruct (Z.testbit e 63) eqn:E.
  - apply negb_true_iff, Z.eqb_neq. intros H. assert (Hb : Z.testbit (Z.land (2 ^ 63) e) 63 = false) by (rewrite H; apply Z.testbit_0_l).
    rewrite Z.land_spec, E, Z.pow2_bits_true in Hb by lia. done.
  - apply negb_false_iff, Z.eqb_eq. apply Z.bits_inj'. intros n Hn. rewrite Z.land_spec, Z.testbit_0_l, Z.pow2_bits_eqb by lia.
    destruct (Z.eqb_spec 63 n) as [<-|]; [by rewrite E|done].
Qed.
Lemma nz_signbit2 e f : nz (Z.land (Z.land signbit e) f) = Z.testbit e 63 && Z.testbit f 63.
Proof. by rewrite <- Z.land_assoc, nz_signbit, Z.land_spec. Qed.

Lemma signbit_top : Z.testbit signbit 63 = true.
Proof. reflexivity. Qed.

Lemma lxor_low c : 0 <= c < 2 ^ 63 -> Z.lxor c signbit = c + 2 ^ 63.
Proof.
  intros Hc. rewrite signbit_eq. symmetry. apply Z.add_nocarry_lxor. apply Z.bits_inj'. intros k Hk.
  rewrite Z.land_spec, Z.testbit_0_l, Z.pow2_bits_eqb by lia. destruct (Z.eqb_spec 63 k) as [<-|]; [|by rewrite andb_false_r].
  rewrite andb_true_r, top_bit by (unfold is_u64; lia). apply Z.leb_gt. lia.
Qed.
Lemma lxor_top a : is_u64 a -> Z.lxor a signbit = if 2 ^ 63 <=? a then a - 2 ^ 63 else a + 2 ^ 63.
Proof.
  unfold is_u64. intros Ha. destruct (Z.leb_spec (2 ^ 63) a); [|apply lxor_low; lia].
  replace a with ((a - 2 ^ 63) + 2 ^ 63) at 1 by lia. rewrite <- lxor_low by lia. by rewrite Z.lxor_assoc, Z.lxor_nilpotent, Z.lxor_0_r.
Qed.

Lemma not64_top b : is_u64 b -> Z.testbit (not64 b) 63 = negb (2 ^ 63 <=? b).
Proof.
  unfold is_u64, not64, UINT64_MAX. intros Hb. rewrite top_bit by (unfold is_u64; lia).
  destruct (Z.leb_spec (2 ^ 63) (2 ^ 64 - 1 - b)), (Z.leb_spec (2 ^ 63) b); try lia; try done.
Qed.

Lemma u64_is z : is_u64 (u64 z).
Proof. apply u64_range. Qed.

(** Splits a wrapped sum or difference, and the comparisons. *)
Lemma u64_cases z : - 2 ^ 64 <= z < 2 ^ 65 ->
  u64 z = if z <? 0 then z + 2 ^ 64 else if z <? 2 ^ 64 then z else z - 2 ^ 64.
Proof. intros. unfold u64. destruct (Z.ltb_spec z 0), (Z.ltb_spec z (2 ^ 64)); Z.to_euclidean_division_equations; lia. Qed.
Lemma s64_cases z : is_u64 z -> s64 z = if z <? 2 ^ 63 then z else z - 2 ^ 64.
Proof. unfold is_u64, s64, sext. intros. by rewrite u64_id. Qed.
Lemma u64_s64 z : u64 (s64 z) = u64 z.
Proof. unfold s64, sext, u64. case_match; Z.to_euclidean_division_equations; lia. Qed.

Ltac split_tests :=
  repeat match goal with
  | |- context [?a <? ?b] => destruct (Z.ltb_spec a b)
  | |- context [?a <=? ?b] => destruct (Z.leb_spec a b)
  | |- context [?a =? ?b] => destruct (Z.eqb_spec a b)
  end.

(** The tests of the top bit become comparisons. *)
Ltac top_bits :=
  rewrite ?nz_signbit2, ?nz_signbit; repeat first [rewrite Z.lxor_spec | rewrite Z.lor_spec | rewrite Z.land_spec];
  rewrite ?signbit_top, ?not64_top, ?lxor_top by done; rewrite ?top_bit by done.

Lemma u64_or z : - 2 ^ 64 <= z < 2 ^ 65 ->
  (z < 0 /\ u64 z = z + 2 ^ 64) \/ (0 <= z < 2 ^ 64 /\ u64 z = z) \/ (2 ^ 64 <= z /\ u64 z = z - 2 ^ 64).
Proof. intros Hz. rewrite (u64_cases z Hz). split_tests; lia. Qed.
Ltac wrap64 :=
  repeat match goal with |- context [u64 ?z] => pose proof (u64_or z ltac:(lia)); generalize dependent (u64 z); intros ? ? end;
  split_tests; cbn [andb orb negb xorb eqb]; try lia; try done.

Lemma value64_cases signed x : is_u64 x -> value64 signed x = if signed && (2 ^ 63 <=? x) then x - 2 ^ 64 else x.
Proof. intros Hx. unfold value64. rewrite s64_cases by done. destruct signed; cbn [andb]; split_tests; lia. Qed.

Lemma add_exact : exact mlib_add Z.add.
Proof.
  intros ds sa a sb b Ha Hb. unfold mlib_add. cbv zeta. pose proof (u64_is (a + b)) as Hs. rewrite !value64_cases by done. unfold range64.
  f_equal; [destruct sa, sb; cbn [andb]; split_tests; unfold u64; Z.to_euclidean_division_equations; lia|].
  top_bits. unfold is_u64 in *. clear Hs. destruct (Z.leb_spec (2 ^ 63) a), (Z.leb_spec (2 ^ 63) b), ds, sa, sb; cbn [andb xorb negb]; wrap64.
Qed.

Lemma sub_exact : exact mlib_sub Z.sub.
Proof.
  intros ds sa a sb b Ha Hb. unfold mlib_sub. cbv zeta. pose proof (u64_is (a - b)) as Hs. rewrite !value64_cases by done. unfold range64.
  f_equal; [destruct sa, sb; cbn [andb]; split_tests; unfold u64; Z.to_euclidean_division_equations; lia|].
  top_bits. unfold is_u64 in *. clear Hs. destruct (Z.leb_spec (2 ^ 63) a), (Z.leb_spec (2 ^ 63) b), ds, sa, sb; cbn [andb xorb negb]; wrap64.
Qed.

(** ** Products *)

(** The quotient of the wrapped product is the other factor exactly when nothing wrapped. *)
Lemma div_check a b : is_u64 a -> is_u64 b -> nz a && negb (u64 (a * b) / a =? b) = negb (a * b <? 2 ^ 64).
Proof.
  unfold is_u64, nz. intros Ha Hb. destruct (Z.eqb_spec a 0) as [->|]; [done|]. cbn [negb andb]. f_equal.
  assert (0 <= a * b) by nia. destruct (Z.ltb_spec (a * b) (2 ^ 64)).
  - rewrite u64_id by lia. apply Z.eqb_eq. rewrite Z.mul_comm. apply Z.div_mul. lia.
  - apply Z.eqb_neq. pose proof (u64_range (a * b)). assert (u64 (a * b) / a < b); [apply Z.div_lt_upper_bound; lia|lia].
Qed.

Lemma s64_wraps P : exists k, s64 (u64 P) = P + 2 ^ 64 * k.
Proof.
  unfold s64, sext, u64. rewrite Z.mod_mod by lia. pose proof (Z.div_mod P (2 ^ 64) ltac:(lia)).
  case_match; [exists (- (P / 2 ^ 64))|exists (- (P / 2 ^ 64) - 1)]; lia.
Qed.

(** The same for signed numbers, where only -1 and the least number are apart. *)
Lemma quot_check A B : is_s64 A -> is_s64 B ->
  negb (A =? 0) && negb (Z.quot (s64 (u64 (A * B))) A =? B) = negb ((- 2 ^ 63 <=? A * B) && (A * B <? 2 ^ 63)).
Proof.
  unfold is_s64. intros HA HB. destruct (Z.eqb_spec A 0) as [->|Hnz]; [done|]. cbn [negb andb]. f_equal.
  assert (Hout : ~ (- 2 ^ 63 <= A * B < 2 ^ 63) -> (Z.quot (s64 (u64 (A * B))) A =? B) = false).
  { intros Ho. apply Z.eqb_neq. intros E. destruct (s64_wraps (A * B)) as [k Hk]. pose proof (s64_range (u64 (A * B))) as Hr. unfold is_s64 in Hr.
    pose proof (Z.quot_rem' (s64 (u64 (A * B))) A) as Hq. rewrite E in Hq.
    pose proof (Z.rem_bound_abs (s64 (u64 (A * B))) A Hnz) as Hb. set (W := s64 (u64 (A * B))) in *. clearbody W.
    assert (k = 0) by lia. subst k. lia. }
  destruct (Z.leb_spec (- 2 ^ 63) (A * B)), (Z.ltb_spec (A * B) (2 ^ 63)); cbn [andb]; try (apply Hout; lia).
  rewrite s64_u64 by (unfold is_s64; lia). apply Z.eqb_eq. rewrite Z.mul_comm. by apply Z.quot_mul.
Qed.

Lemma u64_value_mul sa a sb b : is_u64 a -> is_u64 b -> u64 (value64 sa a * value64 sb b) = u64 (a * b).
Proof.
  intros Ha Hb. assert (Hv : forall s x, is_u64 x -> exists k, value64 s x = x + 2 ^ 64 * k).
  { intros s x Hx. rewrite value64_cases by done. destruct (s && _); [exists (-1)|exists 0]; lia. }
  destruct (Hv sa a Ha) as [k ->], (Hv sb b Hb) as [l ->]. unfold u64.
  replace ((a + 2 ^ 64 * k) * (b + 2 ^ 64 * l)) with (a * b + (a * l + k * b + 2 ^ 64 * k * l) * 2 ^ 64) by lia. apply Z.mod_add. lia.
Qed.

Lemma nz_top x : is_u64 x -> nz (Z.land signbit x) = (2 ^ 63 <=? x).
Proof. intros. by rewrite nz_signbit, top_bit. Qed.

Lemma mul_ss_exact a b : is_u64 a -> is_u64 b -> mul_ss a b = (u64 (s64 a * s64 b), negb (range64 true (s64 a * s64 b))).
Proof.
  intros Ha Hb. pose proof (u64_value_mul true a true b Ha Hb) as Hw. cbn [value64] in Hw. unfold mul_ss. rewrite <- Hw. f_equal.
  pose proof (s64_range a) as HA. pose proof (s64_range b) as HB. unfold range64, nz.
  replace (a =? 0) with (s64 a =? 0) by (rewrite s64_cases by done; unfold is_u64 in *; split_tests; lia).
  rewrite <- quot_check by done. unfold is_s64 in *. destruct (_ || _) eqn:E; [|done]. symmetry. rewrite quot_check by done.
  apply negb_true_iff, andb_false_iff. rewrite Z.leb_gt, Z.ltb_ge.
  apply orb_true_iff in E as [E|E]; apply andb_true_iff in E as [E1 E2]; apply Z.eqb_eq in E1, E2; rewrite E1, E2; lia.
Qed.

Lemma mul_su_exact a b : is_u64 a -> is_u64 b -> mul_su a b = (u64 (s64 a * b), negb (range64 true (s64 a * b))).
Proof.
  intros Ha Hb. pose proof (u64_value_mul true a false b Ha Hb) as Hw. cbn [value64] in Hw. unfold mul_su. rewrite <- Hw. f_equal.
  rewrite nz_top by done. set (pos := if 2 ^ 63 <=? a then u64 (0 - a) else a).
  assert (Hp : is_u64 pos /\ pos = Z.abs (s64 a) /\ (2 ^ 63 <=? a) = (s64 a <? 0)).
  { subst pos. rewrite s64_cases by done. unfold is_u64 in *. destruct (Z.leb_spec (2 ^ 63) a); [rewrite u64_cases by lia|]; split_tests; lia. }
  destruct Hp as (Hp & Ep & En). rewrite div_check by done. rewrite En, Ep. pose proof (s64_range a) as HA. unfold is_s64, is_u64, range64 in *.
  rewrite Ep in Hp. clearbody pos. assert (0 <= Z.abs (s64 a) * b) by nia.
  assert (Hm : s64 a * b = if s64 a <? 0 then - (Z.abs (s64 a) * b) else Z.abs (s64 a) * b) by (split_tests; lia).
  rewrite Hm. set (P := Z.abs (s64 a) * b) in *. clearbody P. unfold INT64_MAX. destruct (Z.ltb_spec P (2 ^ 64)); cbn [negb].
  - rewrite (u64_id P) by lia. destruct (Z.ltb_spec (s64 a) 0); cbn [Z.b2z]; rewrite u64_id by lia; split_tests; cbn; try lia; done.
  - destruct (Z.ltb_spec (s64 a) 0); split_tests; cbn; try lia; done.
Qed.

Lemma mul_uu_exact a b : is_u64 a -> is_u64 b -> mul_uu a b = (u64 (a * b), negb (range64 true (a * b))).
Proof.
  intros Ha Hb. unfold mul_uu. f_equal. rewrite div_check by done. rewrite nz_top by apply u64_range. unfold range64, is_u64 in *.
  assert (0 <= a * b) by nia. destruct (Z.ltb_spec (a * b) (2 ^ 64)); cbn [negb]; [rewrite u64_id by lia|]; split_tests; cbn; try lia; done.
Qed.

Lemma umul_uu_exact a b : is_u64 a -> is_u64 b -> umul_uu a b = (u64 (a * b), negb (range64 false (a * b))).
Proof.
  intros Ha Hb. unfold umul_uu. f_equal. rewrite div_check by done. unfold range64, is_u64 in *.
  assert (0 <= a * b) by nia. split_tests; cbn; try lia; done.
Qed.

Lemma umul_su_exact a b : is_u64 a -> is_u64 b -> umul_su a b = (u64 (s64 a * b), negb (range64 false (s64 a * b))).
Proof.
  intros Ha Hb. pose proof (u64_value_mul true a false b Ha Hb) as Hw. cbn [value64] in Hw. unfold umul_su. rewrite <- Hw, Hw. f_equal.
  rewrite div_check, nz_top by done. unfold range64, nz. rewrite s64_cases by done. unfold is_u64 in *. assert (0 <= a * b) by nia.
  destruct (Z.ltb_spec a (2 ^ 63)) as [Hs|Hs]; [rewrite (proj2 (Z.leb_gt _ _)) by done; cbn [andb]; rewrite orb_false_r; split_tests; cbn; try lia; done|].
  rewrite (proj2 (Z.leb_le (2 ^ 63) a)) by done. cbn [andb].
  destruct (Z.eqb_spec b 0) as [->|]; [by rewrite !Z.mul_0_r|]. cbn [negb]. rewrite orb_true_r.
  symmetry. apply negb_true_iff, andb_false_iff. left. apply Z.leb_gt. nia.
Qed.

Lemma umul_ss_exact a b : is_u64 a -> is_u64 b -> umul_ss a b = (u64 (s64 a * s64 b), negb (range64 false (s64 a * s64 b))).
Proof.
  intros Ha Hb. pose proof (u64_value_mul true a true b Ha Hb) as Hw. cbn [value64] in Hw. unfold umul_ss.
  rewrite nz_signbit2, !top_bit by done. cbv zeta.
  destruct ((2 ^ 63 <=? a) && (2 ^ 63 <=? b)) eqn:Eboth.
  - apply andb_true_iff in Eboth as [Ea Eb]. apply Z.leb_le in Ea, Eb. unfold is_u64 in *.
    assert (Ha' : u64 (0 - a) = - s64 a /\ 0 < - s64 a <= 2 ^ 63) by (rewrite u64_cases, s64_cases by (unfold is_u64; lia); split_tests; lia).
    assert (Hb' : u64 (0 - b) = - s64 b /\ 0 < - s64 b <= 2 ^ 63) by (rewrite u64_cases, s64_cases by (unfold is_u64; lia); split_tests; lia).
    destruct Ha' as [-> Ha'], Hb' as [-> Hb']. set (A := - s64 a) in *. set (B := - s64 b) in *.
    replace (s64 a * s64 b) with (A * B) by (subst A B; lia). f_equal. clearbody A B.
    rewrite div_check by (unfold is_u64; lia). rewrite nz_signbit, Z.lxor_spec, !top_bit by (unfold is_u64; lia).
    rewrite !s64_cases by (unfold is_u64; lia). unfold nz, range64. assert (0 < A * B) by nia.
    destruct (Z.leb_spec (2 ^ 63) A), (Z.leb_spec (2 ^ 63) B), (Z.ltb_spec A (2 ^ 63)), (Z.ltb_spec B (2 ^ 63)); try lia;
      split_tests; cbn; try lia; done.
  - f_equal; [by rewrite Hw|]. cbn [andb negb]. rewrite andb_true_r, nz_signbit, Z.lxor_spec, !top_bit, div_check by done.
    rewrite !s64_cases by done. unfold nz, range64, is_u64 in *. apply andb_false_iff in Eboth. rewrite !Z.leb_gt in Eboth. assert (0 <= a * b) by nia.
    destruct (Z.leb_spec (2 ^ 63) a), (Z.leb_spec (2 ^ 63) b), (Z.ltb_spec a (2 ^ 63)), (Z.ltb_spec b (2 ^ 63)); try lia; cbn [xorb andb negb orb].
    + rewrite (proj2 (Z.eqb_neq a 0)) by lia. destruct (Z.eqb_spec b 0) as [->|]; cbn [negb andb orb]; [by rewrite !Z.mul_0_r|].
      symmetry. apply negb_true_iff, andb_false_iff. left. apply Z.leb_gt. nia.
    + rewrite (proj2 (Z.eqb_neq b 0)) by lia. destruct (Z.eqb_spec a 0) as [->|]; cbn [negb andb orb]; [by rewrite !Z.mul_0_l|].
      symmetry. apply negb_true_iff, andb_false_iff. left. apply Z.leb_gt. nia.
    + split_tests; cbn; try lia; done.
Qed.

Lemma mul_exact : exact mlib_mul Z.mul.
Proof.
  intros ds sa a sb b Ha Hb. unfold mlib_mul, value64. destruct ds, sa, sb.
  - by apply mul_ss_exact.
  - by apply mul_su_exact.
  - rewrite (Z.mul_comm a). by apply mul_su_exact.
  - by apply mul_uu_exact.
  - by apply umul_ss_exact.
  - by apply umul_su_exact.
  - rewrite (Z.mul_comm a). by apply umul_su_exact.
  - by apply umul_uu_exact.
Qed.

(** ** The types *)

Definition in_typeb (t : ctype) (v : Z) : bool :=
  if c_signed t then (- 2 ^ (c_bits t - 1) <=? v) && (v <? 2 ^ (c_bits t - 1)) else (0 <=? v) && (v <? 2 ^ c_bits t).
Definition in_type (t : ctype) (v : Z) : Prop := in_typeb t v = true.

Lemma in_type_bounds t v : ctype_ok t -> in_type t v ->
  if (c_bits t <? 64) || c_signed t then is_s64 v else is_u64 v.
Proof.
  unfold ctype_ok, in_type, in_typeb, is_s64, is_u64. destruct t as [s w]; cbn [c_signed c_bits].
  intros [-> |[-> |[-> | ->]]]; destruct s; rewrite andb_true_iff, Z.leb_le, Z.ltb_lt; cbn [Z.ltb Z.compare orb Pos.compare Pos.compare_cont Z.sub Z.add Z.opp Z.pos_sub Pos.pred_double]; lia.
Qed.

Lemma upsize_value t v : ctype_ok t -> in_type t v ->
  value64 (up_signed (mlib_upsize_integer t v)) (up_bits (mlib_upsize_integer t v)) = v /\ is_u64 (up_bits (mlib_upsize_integer t v)).
Proof.
  intros Ht Hv. apply in_type_bounds in Hv; [|done]. cbn [mlib_upsize_integer up_signed up_bits]. split; [|apply u64_range].
  unfold value64. destruct (_ || _); [by apply s64_u64|by apply u64_id].
Qed.

Lemma type_limits t : ctype_ok t ->
  mlib_minof t = (if c_signed t then - 2 ^ (c_bits t - 1) else 0) /\
  mlib_maxof t = (if c_signed t then 2 ^ (c_bits t - 1) - 1 else 2 ^ c_bits t - 1).
Proof. destruct t as [[] w]; intros [H|[H|[H|H]]]; cbn [c_bits] in H; subst w; split; reflexivity. Qed.

Lemma as_type_u64 t z : ctype_ok t -> as_type t (u64 z) = as_type t z.
Proof.
  intros Ht. unfold as_type. assert (E : u64 z mod 2 ^ c_bits t = z mod 2 ^ c_bits t); [|by rewrite E].
  unfold u64. destruct Ht as [-> |[-> |[-> | ->]]].
  - change (2 ^ 64) with (2 ^ 8 * 2 ^ 56). rewrite Z.rem_mul_r by lia. rewrite (Z.mul_comm (2 ^ 8)), Z.mod_add, Z.mod_mod by lia. done.
  - change (2 ^ 64) with (2 ^ 16 * 2 ^ 48). rewrite Z.rem_mul_r by lia. rewrite (Z.mul_comm (2 ^ 16)), Z.mod_add, Z.mod_mod by lia. done.
  - change (2 ^ 64) with (2 ^ 32 * 2 ^ 32). rewrite Z.rem_mul_r by lia. rewrite (Z.mul_comm (2 ^ 32)), Z.mod_add, Z.mod_mod by lia. done.
  - by rewrite Z.mod_mod by lia.
Qed.
Lemma as_type_id t v : ctype_ok t -> in_type t v -> as_type t v = v.
Proof.
  intros Ht. unfold as_type, in_type, in_typeb, sext. destruct t as [s w]; cbn [c_signed c_bits] in *. destruct s; rewrite andb_true_iff, Z.leb_le, Z.ltb_lt; intros Hv.
  - destruct Ht as [H|[H|[H|H]]]; cbn [c_bits] in H; subst w; cbn [Z.sub Z.add Z.opp Z.pos_sub Pos.pred_double] in *; case_match; Z.to_euclidean_division_equations; lia.
  - by apply Z.mod_small.
Qed.

(** Widths as the bounds of the 64 bits hold them. *)
Lemma type_in_range64 t v : ctype_ok t -> in_typeb t v = true -> range64 (c_signed t) v = true.
Proof.
  unfold ctype_ok, in_typeb, range64. destruct t as [s w]; cbn [c_signed c_bits].
  intros [-> |[-> |[-> | ->]]]; destruct s; rewrite !andb_true_iff, !Z.leb_le, !Z.ltb_lt; cbn [Z.sub Z.add Z.opp Z.pos_sub Pos.pred_double]; lia.
Qed.

Lemma ckdint_spec fn op dst A B l r : exact fn op -> ctype_ok dst -> ctype_ok A -> ctype_ok B -> in_type A l -> in_type B r ->
  ckdint fn dst A B l r = (negb (in_typeb dst (op l r)), as_type dst (op l r)).
Proof.
  intros Hfn Hd HA HB Hl Hr. unfold ckdint, _mlib_ckdint.
  destruct (upsize_value A l HA Hl) as [El Ul]. destruct (upsize_value B r HB Hr) as [Er Ur].
  rewrite Hfn, El, Er by done. f_equal; [|by apply as_type_u64]. destruct (type_limits dst Hd) as [-> ->].
  pose proof (type_in_range64 dst (op l r) Hd) as Hin. unfold in_typeb in *. set (R := op l r) in *.
  destruct (c_signed dst) eqn:Es.
  - assert (Hneg : - 2 ^ (c_bits dst - 1) < 0) by (destruct Hd as [-> |[-> |[-> | ->]]]; cbn; lia).
    rewrite (proj2 (Z.ltb_lt _ _) Hneg). destruct (range64 true R) eqn:ER; cbn [negb orb].
    + unfold range64 in ER. apply andb_true_iff in ER as [E1 E2]. apply Z.leb_le in E1. apply Z.ltb_lt in E2.
      rewrite s64_u64 by (unfold is_s64; lia). clearbody R. set (M := 2 ^ (c_bits dst - 1)) in *. clearbody M.
      destruct (Z.ltb_spec 0 R); cbn [andb]; [rewrite u64_id by lia|]; split_tests; cbn; try lia; done.
    + symmetry. apply negb_true_iff. destruct (_ && _) eqn:E; [|done]. specialize (Hin eq_refl). by rewrite Hin in ER.
  - cbn [Z.ltb Z.compare]. destruct (range64 false R) eqn:ER; cbn [negb orb].
    + unfold range64 in ER. apply andb_true_iff in ER as [E1 E2]. apply Z.leb_le in E1. apply Z.ltb_lt in E2. rewrite u64_id by lia.
      clearbody R. split_tests; cbn; try lia; done.
    + symmetry. apply negb_true_iff. destruct (_ && _) eqn:E; [|done]. specialize (Hin eq_refl). by rewrite Hin in ER.
Qed.

Lemma narrow_spec dst A v : ctype_ok dst -> ctype_ok A -> in_type A v -> mlib_narrow dst A v = (negb (in_typeb dst v), as_type dst v).
Proof. intros. unfold mlib_narrow. rewrite (ckdint_spec mlib_add Z.add) by (done || apply add_exact || (by right; right; left) || reflexivity). by rewrite Z.add_0_r. Qed.

Lemma assert_spec fn op T A B l r : exact fn op -> ctype_ok T -> ctype_ok A -> ctype_ok B -> in_type A l -> in_type B r ->
  _mlib_assert_ckdint fn T A B l r = if in_typeb T (op l r) then Some (op l r) else None.
Proof.
  intros. unfold _mlib_assert_ckdint. rewrite (ckdint_spec fn op) by done. destruct (in_typeb T (op l r)) eqn:E; [|done].
  cbn [negb]. by rewrite as_type_id.
Qed.

(** ** Comparisons *)

Lemma cmp64 x y : is_u64 (up_bits x) -> is_u64 (up_bits y) -> mlib_cmp x y = Z.sgn (up_value x - up_value y).
Proof.
  destruct x as [sx x], y as [sy y]. unfold mlib_cmp, up_value, as_signed, as_unsigned. cbn [up_signed up_bits]. intros Hx Hy.
  destruct sx, sy; cbn [negb]; rewrite ?u64_s64, ?u64_id by done; rewrite ?s64_cases by done; unfold is_u64 in *; split_tests; cbn [orb]; lia.
Qed.
Lemma cmp_spec A B l r : ctype_ok A -> ctype_ok B -> in_type A l -> in_type B r ->
  mlib_cmp (mlib_upsize_integer A l) (mlib_upsize_integer B r) = Z.sgn (l - r).
Proof.
  intros HA HB Hl Hr. destruct (upsize_value A l HA Hl) as [El Ul], (upsize_value B r HB Hr) as [Er Ur].
  rewrite cmp64 by done. unfold up_value, value64 in *. by rewrite El, Er.
Qed.
Lemma in_range_spec T A v : ctype_ok T -> ctype_ok A -> in_type A v ->
  mlib_in_range (mlib_minof T) (mlib_maxof T) (mlib_upsize_integer A v) = in_typeb T v.
Proof.
  intros HT HA Hv. destruct (upsize_value A v HA Hv) as [Ev Uv]. unfold mlib_in_range.
  set (u := mlib_upsize_integer A v) in *. set (t := if up_signed u then t_int64 else t_uint64).
  assert (Hw : (if up_signed u then as_signed u else as_unsigned u) = v) by (unfold as_signed, as_unsigned, value64 in *; by destruct (up_signed u)). rewrite Hw.
  assert (Ht : ctype_ok t) by (subst t; destruct (up_signed u); right; right; by right).
  assert (Hin : in_type t v).
  { apply in_type_bounds in Hv; [|done]. subst t u. cbn [mlib_upsize_integer up_signed]. unfold in_type, in_typeb, is_s64, is_u64 in *.
    destruct (_ || _); cbn [c_signed c_bits t_int64 t_uint64]; apply andb_true_iff; rewrite Z.leb_le, Z.ltb_lt; cbn [Z.sub Z.add Z.opp Z.pos_sub Pos.pred_double]; lia. }
  destruct (type_limits T HT) as [-> ->].
  assert (Hmin : in_type t_int64 (if c_signed T then - 2 ^ (c_bits T - 1) else 0) /\ in_type t_uint64 (if c_signed T then 2 ^ (c_bits T - 1) - 1 else 2 ^ c_bits T - 1)).
  { destruct T as [[] w]; destruct HT as [H|[H|[H|H]]]; cbn [c_bits] in H; subst w; split; reflexivity. }
  destruct Hmin as [Hmin Hmax]. rewrite !cmp_spec by (done || (right; right; by right)). unfold in_typeb. destruct (c_signed T); split_tests; cbn; lia.
Qed.
Lemma assert_narrow_spec T A v : ctype_ok T -> ctype_ok A -> in_type A v -> mlib_assert_narrow T A v = if in_typeb T v then Some v else None.
Proof.
  intros HT HA Hv. unfold mlib_assert_narrow. rewrite in_range_spec by done. destruct (in_typeb T v) eqn:E; [|done]. cbn [negb]. f_equal.
  destruct (upsize_value A v HA Hv) as [Ev Uv]. unfold as_signed, as_unsigned, value64 in *.
  assert (H : as_type T v = v) by (by apply as_type_id). destruct (up_signed _); rewrite Ev; [by rewrite as_type_u64|done].
Qed.
