(* ===== verification/MlibStr.v ===== *)
(** Views of strings ([mlib/str.h]), a pointer and a length, and the texts they view. *)

From S2P Require Import Prelude CString Ckdint.

(** The memory that can be read from the pointer on, and the length. A null
    pointer reads nothing. *)
Record mstr_view := View { sv_data : bytes; sv_len : Z }.

(** The characters a view views. *)
Definition view_text (s : mstr_view) : bytes := take (Z.to_nat (sv_len s)) (sv_data s).
Definition view_ok (s : mstr_view) : Prop := 0 <= sv_len s <= zlen (sv_data s) /\ sv_len s < 2 ^ 63.

Definition mstr_cstring (s : bytes) : option mstr_view := l ← strlen s; Some (View s l).

(** An index of type [int] or [size_t]. *)
Definition idx (t : ctype) (z : Z) : upsized := mlib_upsize_integer t z.

(** A place in the string; negative ones count from its end. [None] ends the program. *)
Definition _mstr_adjust_index (s : mstr_view) (pos : upsized) (clamp_to_length : bool) : option Z :=
  if clamp_to_length && (mlib_cmp pos (idx t_size (sv_len s)) =? 1) then Some (sv_len s)
  else if up_signed pos && (as_signed pos <? 0) then _mlib_assert_ckdint mlib_add t_size t_size t_int64 (sv_len s) (as_signed pos)
  else if as_unsigned pos <=? sv_len s then Some (as_unsigned pos) else None.

Definition mstr_at (s : mstr_view) (pos : upsized) : option byte :=
  pos ← _mstr_adjust_index s pos false; rd (sv_data s) pos.

Definition mstr_substr (s : mstr_view) (pos : upsized) (len : Z) : option mstr_view :=
  pos ← _mstr_adjust_index s pos false;
  let remain := u64 (sv_len s - pos) in
  data ← padd (sv_data s) pos;
  Some (View data (if remain <? len then remain else len)).

Definition mstr_slice (s : mstr_view) (start end_ : upsized) : option mstr_view :=
  start_pos ← _mstr_adjust_index s start false;
  end_pos ← _mstr_adjust_index s end_ true;
  if negb (start_pos <=? end_pos) then None
  else mstr_substr s (idx t_size start_pos) (u64 (end_pos - start_pos)).

(** ** Comparison *)

Definition mstr_cmp (a b : mstr_view) : option Z :=
  let l := if sv_len b <? sv_len a then sv_len b else sv_len a in
  r ← memcmp (sv_data a) (sv_data b) l;
  Some (if negb (r =? 0) then mlib_cmp (idx t_int r) (idx t_int 0) else mlib_cmp (idx t_size (sv_len a)) (idx t_size (sv_len b))).

(** Code points are [int32_t]; a [char] is signed. *)
Definition mlib_latin_tolower (a : Z) : Z := if (0x41 <=? a) && (a <=? 0x5a) then a + 0x20 else a.
Definition char_int (c : byte) : Z := sext 8 (b2z c).
Definition mlib_latin_charcasecmp (a b : Z) : Z := mlib_cmp (idx t_int32 (mlib_latin_tolower a)) (idx t_int32 (mlib_latin_tolower b)).

(** The characters from the [i]-th to the [l]-th. *)
Fixpoint casecmp_loop (n : nat) (a b : bytes) (i : Z) : option Z :=
  match n with
  | O => Some 0
  | S n' =>
      x ← rd a i; y ← rd b i;
      let r := mlib_latin_charcasecmp (char_int x) (char_int y) in
      if negb (r =? 0) then Some r else casecmp_loop n' a b (i + 1)
  end.
Definition mstr_latin_casecmp (a b : mstr_view) : option Z :=
  let l := if sv_len b <? sv_len a then sv_len b else sv_len a in
  r ← casecmp_loop (Z.to_nat l) (sv_data a) (sv_data b) 0;
  Some (if negb (r =? 0) then r else mlib_cmp (idx t_size (sv_len a)) (idx t_size (sv_len b))).

(** ** Search *)

(** [for (offset...; offset <= stop_idx; ++offset)], [n] rounds of it. *)
Fixpoint find_loop (n : nat) (hay : bytes) (needle : mstr_view) (offset : Z) : option (option Z) :=
  match n with
  | O => Some None
  | S n' =>
      h ← padd hay offset; r ← memcmp h (sv_data needle) (sv_len needle);
      if r =? 0 then Some (Some offset) else find_loop n' hay needle (offset + 1)
  end.
Definition mstr_find (hay needle : mstr_view) (pos : upsized) (len : Z) : option Z :=
  p ← _mstr_adjust_index hay pos false;
  hay ← mstr_substr hay (idx t_size p) len;
  if sv_len hay <? sv_len needle then Some SIZE_MAX else
  let stop_idx := u64 (sv_len hay - sv_len needle) in
  r ← find_loop (Z.to_nat (stop_idx + 1)) (sv_data hay) needle 0;
  Some (match r with Some offset => u64 (offset + p) | None => SIZE_MAX end).

Fixpoint first_of_loop (n : nat) (hay needles : mstr_view) (i : Z) : option (option Z) :=
  match n with
  | O => Some None
  | S n' =>
      one ← mstr_substr hay (idx t_size i) 1;
      r ← mstr_find needles one (idx t_int 0) SIZE_MAX;
      if negb (r =? SIZE_MAX) then Some (Some i) else first_of_loop n' hay needles (i + 1)
  end.
Definition mstr_find_first_of (hay needles : mstr_view) (pos : upsized) (len : Z) : option Z :=
  p ← _mstr_adjust_index hay pos false;
  hay ← mstr_substr hay (idx t_size p) len;
  r ← first_of_loop (Z.to_nat (sv_len hay)) hay needles 0;
  Some (match r with Some i => u64 (i + p) | None => SIZE_MAX end).

(** ** Trimming and splitting *)

Definition mlib_is_latin_whitespace (c : Z) : bool := (c =? 0x09) || (c =? 0x0a) || (c =? 0x0d) || (c =? 0x20).

Fixpoint trim_left_loop (fuel : nat) (s : mstr_view) : option mstr_view :=
  match fuel with
  | O => None
  | S fuel' =>
      w ← (if sv_len s =? 0 then Some false else c ← mstr_at s (idx t_int 0); Some (mlib_is_latin_whitespace (char_int c)));
      if (w : bool) then s ← mstr_substr s (idx t_int 1) SIZE_MAX; trim_left_loop fuel' s else Some s
  end.
Definition mstr_trim_left (s : mstr_view) : option mstr_view := trim_left_loop (S (Z.to_nat (sv_len s))) s.

Fixpoint trim_right_loop (fuel : nat) (s : mstr_view) : option mstr_view :=
  match fuel with
  | O => None
  | S fuel' =>
      w ← (if sv_len s =? 0 then Some false else c ← mstr_at s (idx t_int (-1)); Some (mlib_is_latin_whitespace (char_int c)));
      if (w : bool) then s ← mstr_slice s (idx t_int 0) (idx t_int (-1)); trim_right_loop fuel' s else Some s
  end.
Definition mstr_trim_right (s : mstr_view) : option mstr_view := trim_right_loop (S (Z.to_nat (sv_len s))) s.
Definition mstr_trim (s : mstr_view) : option mstr_view := s ← mstr_trim_left s; mstr_trim_right s.

(** Prefix and suffix, when both are asked for. *)
Definition mstr_split_at (s : mstr_view) (pos : upsized) (drop : Z) : option (mstr_view * mstr_view) :=
  pos ← _mstr_adjust_index s pos true;
  prefix ← mstr_substr s (idx t_int 0) pos;
  let remain := u64 (sv_len s - pos) in
  let drop := if remain <? drop then remain else drop in
  suffix ← mstr_substr s (idx t_size (u64 (pos + drop))) SIZE_MAX;
  Some (prefix, suffix).

Definition mstr_split_around (s infix : mstr_view) : option (bool * mstr_view * mstr_view) :=
  pos ← mstr_find s infix (idx t_int 0) SIZE_MAX;
  '(prefix, suffix) ← mstr_split_at s (idx t_size pos) (sv_len infix);
  Some (negb (pos =? SIZE_MAX), prefix, suffix).

Definition mstr_starts_with (str prefix : mstr_view) : option bool :=
  str ← mstr_substr str (idx t_int 0) (sv_len prefix); r ← mstr_cmp str prefix; Some (r =? 0).
Definition mstr_contains (str needle : mstr_view) : option bool :=
  r ← mstr_find str needle (idx t_int 0) SIZE_MAX; Some (negb (r =? SIZE_MAX)).
Definition mstr_contains_any_of (str needle : mstr_view) : option bool :=
  r ← mstr_find_first_of str needle (idx t_int 0) SIZE_MAX; Some (negb (r =? SIZE_MAX)).

(** The view views the text. *)
Definition views (s : mstr_view) (t : bytes) : Prop := zlen t < 2 ^ 63 /\ exists rest, s = View (t ++ rest) (zlen t).

Lemma views_len s t : views s t -> sv_len s = zlen t.
Proof. by intros (_ & rest & ->). Qed.

(** A place of type [int] or [size_t] in the text. *)
Definition place (u : upsized) (p : Z) : Prop :=
  (u = idx t_size p \/ u = idx t_int p) /\ 0 <= p /\ (u = idx t_int p -> p < 2 ^ 31).

Lemma size_ok : ctype_ok t_size.
Proof. right; right; by right. Qed.
Lemma int_type_ok : ctype_ok t_int.
Proof. right; right; by left. Qed.
Lemma int64_ok : ctype_ok t_int64.
Proof. right; right; by right. Qed.
#[export] Hint Resolve size_ok int_type_ok int64_ok : clib.

Lemma in_size z : 0 <= z < 2 ^ 64 -> in_type t_size z.
Proof. intros. unfold in_type, in_typeb. cbn. apply andb_true_iff. rewrite Z.leb_le, Z.ltb_lt. lia. Qed.
Lemma in_int z : - 2 ^ 31 <= z < 2 ^ 31 -> in_type t_int z.
Proof. intros. unfold in_type, in_typeb. cbn [t_int c_signed c_bits Z.sub Z.add Z.opp Z.pos_sub Pos.pred_double]. apply andb_true_iff. rewrite Z.leb_le, Z.ltb_lt. lia. Qed.

Section Views.
Context (s : mstr_view) (t : bytes) (Hs : views s t).

Lemma adjust_size p c : 0 <= p < 2 ^ 64 ->
  _mstr_adjust_index s (idx t_size p) c = if p <=? zlen t then Some p else if c then Some (zlen t) else None.
Proof using Hs.
  intros Hp. destruct Hs as (Hl & rest & ->). pose proof (zlen_nonneg t). unfold _mstr_adjust_index, idx. cbn [sv_len sv_data].
  rewrite cmp_spec by (auto with clib || (apply in_size; lia)). cbn [mlib_upsize_integer up_signed c_bits c_signed t_size Z.ltb Z.compare Pos.compare Pos.compare_cont orb andb].
  unfold as_unsigned. cbn [mlib_upsize_integer up_bits]. rewrite u64_id by lia.
  destruct c, (Z.leb_spec p (zlen t)), (Z.eqb_spec (Z.sgn (p - zlen t)) 1); cbn [andb]; try done; lia.
Qed.
Lemma adjust_int p c : - 2 ^ 31 <= p < 2 ^ 31 ->
  _mstr_adjust_index s (idx t_int p) c =
  if 0 <=? p then (if p <=? zlen t then Some p else if c then Some (zlen t) else None)
  else if - p <=? zlen t then Some (zlen t + p) else None.
Proof using Hs.
  intros Hp. destruct Hs as (Hl & rest & ->). pose proof (zlen_nonneg t). unfold _mstr_adjust_index, idx. cbn [sv_len sv_data].
  rewrite cmp_spec by (auto with clib || (apply in_size; lia) || (apply in_int; lia)).
  cbn [mlib_upsize_integer up_signed c_bits c_signed t_int Z.ltb Z.compare Pos.compare Pos.compare_cont orb andb].
  unfold as_unsigned, as_signed. cbn [mlib_upsize_integer up_bits]. rewrite s64_u64 by (unfold is_s64; lia).
  destruct (Z.leb_spec 0 p), (Z.ltb_spec p 0); try lia; cbn [andb].
  - rewrite u64_id by lia. destruct c, (Z.leb_spec p (zlen t)), (Z.eqb_spec (Z.sgn (p - zlen t)) 1); cbn [andb]; try done; lia.
  - replace (c && (Z.sgn (p - zlen t) =? 1)) with false by (destruct c; [|done]; cbn [andb]; symmetry; apply Z.eqb_neq; lia).
    rewrite (assert_spec mlib_add Z.add) by (apply add_exact || (auto with clib) || (apply in_size; lia) ||
      (unfold in_type, in_typeb; cbn [t_int64 c_signed c_bits Z.sub Z.add Z.opp Z.pos_sub Pos.pred_double]; apply andb_true_iff; rewrite Z.leb_le, Z.ltb_lt; lia)).
    unfold in_typeb. cbn [t_size c_signed c_bits]. destruct (Z.leb_spec (- p) (zlen t)), (Z.leb_spec 0 (zlen t + p)), (Z.ltb_spec (zlen t + p) (2 ^ 64)); try lia; done.
Qed.
Lemma adjust_place u p c : place u p -> p <= zlen t -> _mstr_adjust_index s u c = Some p.
Proof using Hs.
  intros ([-> | ->] & Hp & Hi) Hl; destruct Hs as [Hz _].
  - rewrite adjust_size by lia. by rewrite (proj2 (Z.leb_le _ _)).
  - specialize (Hi eq_refl). rewrite adjust_int by lia. rewrite !(proj2 (Z.leb_le _ _)) by lia. done.
Qed.

Lemma substr_spec u p len : place u p -> p <= zlen t -> 0 <= len ->
  exists v, mstr_substr s u len = Some v /\ views v (take (Z.to_nat len) (drop (Z.to_nat p) t)).
Proof using Hs.
  intros Hp Hl Hlen. unfold mstr_substr. rewrite (adjust_place u p) by done. sbind. destruct Hp as (_ & Hp & _).
  destruct Hs as (Hz & rest & ->). cbn [sv_len sv_data]. rewrite u64_id by lia.
  assert (E : padd (t ++ rest) p = Some (drop (Z.to_nat p) t ++ rest)).
  { unfold padd. rewrite (proj2 (Z.leb_le _ _)), (proj2 (Z.leb_le _ _)) by (rewrite ?zlen_app; pose proof (zlen_nonneg rest); lia). cbn [andb].
    rewrite drop_app_le by (unfold zlen in *; lia). done. }
  rewrite E. sbind. eexists. split; [done|]. set (d := drop (Z.to_nat p) t).
  assert (Hd : zlen d = zlen t - p) by (subst d; apply zlen_drop; lia).
  split; [unfold zlen in *; rewrite length_take; lia|]. exists (drop (Z.to_nat len) d ++ rest). rewrite app_assoc, take_drop. f_equal.
  unfold zlen in *. rewrite length_take. destruct (Z.ltb_spec (Z.of_nat (length t) - p) len); lia.
Qed.

Lemma at_spec u p : place u p -> p < zlen t -> mstr_at s u = rd t p.
Proof using Hs.
  intros Hp Hl. unfold mstr_at. rewrite (adjust_place u p) by (done || lia). sbind. destruct Hs as (_ & rest & ->). cbn [sv_data]. apply rd_app_l. lia.
Qed.
End Views.

Lemma place_size p : 0 <= p < 2 ^ 63 -> place (idx t_size p) p.
Proof. intros. split; [by left|]. split; [lia|]. intros E. exfalso. by injection E. Qed.
Lemma place_int p : 0 <= p < 2 ^ 31 -> place (idx t_int p) p.
Proof. intros. split; [by right|]. split; [lia|]. lia. Qed.

Lemma views_text t rest : zlen t < 2 ^ 63 -> views (View (t ++ rest) (zlen t)) t.
Proof. intros. split; [done|]. by exists rest. Qed.

(** ** Search *)

(** The place of the first occurrence, if there is one. *)
Fixpoint find_text (t n : bytes) : option Z :=
  if bool_decide (take (length n) t = n) then Some 0
  else match t with [] => None | _ :: t' => option_map Z.succ (find_text t' n) end.

Lemma find_text_spec t n : match find_text t n with
  | Some i => exists pre post, t = pre ++ n ++ post /\ zlen pre = i /\ (forall pre' post', t = pre' ++ n ++ post' -> zlen pre <= zlen pre')
  | None => forall pre post, t <> pre ++ n ++ post
  end.
Proof.
  induction t as [|c t IH]; cbn [find_text]; case_bool_decide as E.
  - exists [], (drop (length n) []). rewrite <- E at 1. rewrite app_nil_l, take_drop. split; [done|]. split; [done|]. intros. change (zlen (@nil byte)) with 0. zl.
  - intros pre post H. symmetry in H. apply app_nil in H as [-> H]. apply app_nil in H as [-> _]. done.
  - exists [], (drop (length n) (c :: t)). rewrite <- E at 1. rewrite app_nil_l, take_drop. split; [done|]. split; [done|]. intros. change (zlen (@nil byte)) with 0. zl.
  - assert (Hnil : forall post, c :: t <> n ++ post) by (intros post H; apply E; rewrite H; apply take_app_length).
    destruct (find_text t n) as [i|]; cbn [option_map].
    + destruct IH as (pre & post & -> & Hi & Hleast). exists (c :: pre), post. split; [done|]. split; [rewrite zlen_cons; lia|].
      intros [|x pre'] post' H; [by apply Hnil in H|]. injection H as <- H. apply Hleast in H. rewrite !zlen_cons. lia.
    + intros [|x pre] post H; [by apply Hnil in H|]. injection H as <- H. by apply IH in H.
Qed.

Lemma find_text_bound t n i : find_text t n = Some i -> 0 <= i /\ i + zlen n <= zlen t.
Proof. intros E. pose proof (find_text_spec t n) as H. rewrite E in H. destruct H as (pre & post & -> & <- & _). zl. Qed.
Lemma find_text_short t n : zlen t < zlen n -> find_text t n = None.
Proof. intros H. destruct (find_text t n) eqn:E; [|done]. apply find_text_bound in E. lia. Qed.

Lemma find_offset_spec k pre t rest nd n off :
  views nd n -> off = zlen pre -> zlen t + 1 - zlen n = Z.of_nat k ->
  find_loop k (pre ++ t ++ rest) nd off = Some (option_map (Z.add off) (find_text t n)).
Proof.
  intros (Hn & nrest & ->). revert pre t off. induction k as [|k IH]; intros pre t off Ho Hk; cbn [find_loop].
  { by rewrite find_text_short by lia. }
  assert (Hp : padd (pre ++ t ++ rest) off = Some (t ++ rest)).
  { unfold padd. subst off. rewrite (proj2 (Z.leb_le _ _)), (proj2 (Z.leb_le _ _)) by zl. cbn [andb]. by rewrite to_nat_zlen, drop_app_length. }
  rewrite Hp. sbind. cbn [sv_data sv_len].
  assert (Hlen : (length n <= length t)%nat) by (unfold zlen in *; lia).
  assert (Hc : memcmp (t ++ rest) (n ++ nrest) (zlen n) = Some (memcmp_bytes (take (length n) t) n)).
  { unfold memcmp. rewrite (slice_at_end_0 n nrest) by done. rewrite <- (take_drop (length n) t) at 1. rewrite <- app_assoc, slice_at_end_0; [done|].
    unfold zlen. rewrite length_take. lia. }
  rewrite Hc. sbind. pose proof (memcmp_bytes_eq (take (length n) t) n) as Hm. rewrite length_take in Hm. specialize (Hm ltac:(lia)).
  destruct t as [|c t].
  - cbn [find_text length] in *. destruct n; [|cbn in Hlen; lia]. case_bool_decide; [|done]. cbn. do 2 f_equal. lia.
  - cbn [find_text]. case_bool_decide as E.
    + apply Hm in E as ->. cbn. f_equal. f_equal. lia.
    + destruct (Z.eqb_spec (memcmp_bytes (take (length n) (c :: t)) n) 0) as [E0|]; [by apply Hm in E0|].
      replace (pre ++ (c :: t) ++ rest) with ((pre ++ [c]) ++ t ++ rest) by (by rewrite <- app_assoc).
      rewrite (IH (pre ++ [c]) t (off + 1)) by zl.
      destruct (find_text t n); cbn [option_map]; [|done]. do 2 f_equal. lia.
Qed.

Lemma view_find_spec hay needle t n u p len : views hay t -> views needle n -> place u p -> p <= zlen t -> 0 <= len ->
  mstr_find hay needle u len =
  Some match find_text (take (Z.to_nat len) (drop (Z.to_nat p) t)) n with Some i => i + p | None => SIZE_MAX end.
Proof.
  intros Ht Hn Hp Hl Hlen. unfold mstr_find. rewrite (adjust_place hay t Ht u p) by done. sbind.
  pose proof Hp as (_ & Hp0 & _). pose proof Ht as [Hz _].
  destruct (substr_spec hay t Ht (idx t_size p) p len) as (v & -> & Hv); [apply place_size; lia|done|done|]. sbind.
  set (w := take (Z.to_nat len) (drop (Z.to_nat p) t)) in *. assert (Hw : zlen w <= zlen t - p) by (subst w; unfold zlen in *; rewrite length_take, length_drop; lia).
  rewrite (views_len v w Hv), (views_len needle n Hn). destruct (Z.ltb_spec (zlen w) (zlen n)); [by rewrite find_text_short|].
  pose proof (zlen_nonneg n). rewrite u64_id by lia. destruct Hv as (Hwz & rest & ->). cbn [sv_data].
  pose proof (find_offset_spec (Z.to_nat (zlen w - zlen n + 1)) [] w rest needle n 0 Hn eq_refl ltac:(lia)) as E. cbn [app] in E. rewrite E. sbind.
  destruct (find_text w n) as [i|] eqn:Ef; [|done]. cbn [option_map]. apply find_text_bound in Ef. rewrite Z.add_0_l, u64_id by lia. done.
Qed.
Lemma find_whole hay needle t n : views hay t -> views needle n ->
  mstr_find hay needle (idx t_int 0) SIZE_MAX = Some (default SIZE_MAX (find_text t n)).
Proof.
  intros Ht Hn. pose proof Ht as [Hz _]. pose proof (zlen_nonneg t).
  rewrite (view_find_spec hay needle t n (idx t_int 0) 0) by (done || (apply place_int; lia)).
  rewrite drop_0, take_ge by (unfold zlen, SIZE_MAX, UINT64_MAX in *; lia). destruct (find_text t n); cbn; do 2 f_equal; lia.
Qed.

(** The first of a set of characters. *)
Fixpoint first_of_text (t n : bytes) : option Z :=
  match t with [] => None | c :: t' => if bool_decide (c ∈ n) then Some 0 else option_map Z.succ (first_of_text t' n) end.

Lemma find_text_1 t c : find_text t [c] = None <-> c ∉ t.
Proof.
  pose proof (find_text_spec t [c]) as H. destruct (find_text t [c]) as [i|].
  - destruct H as (pre & post & -> & _). split; [done|]. intros Hc. exfalso. apply Hc. set_solver.
  - split; [|done]. intros _ Hc. apply list_elem_of_split in Hc as (pre & post & ->). by apply (H pre post).
Qed.

Lemma first_of_loop_spec k hay pre t nd n i : views hay (pre ++ t) -> views nd n -> i = zlen pre -> length t = k ->
  first_of_loop k hay nd i = Some (option_map (Z.add i) (first_of_text t n)).
Proof.
  intros Hh Hn. revert pre t i Hh. induction k as [|k IH]; intros pre t i Hh Hi Hk; [by destruct t|].
  destruct t as [|c t]; [done|]. cbn [first_of_loop first_of_text]. pose proof (zlen_nonneg pre). pose proof Hh as [Hz _]. rewrite zlen_app, zlen_cons in Hz. pose proof (zlen_nonneg t).
  destruct (substr_spec hay _ Hh (idx t_size i) i 1) as (v & -> & Hv); [apply place_size; lia|rewrite zlen_app, zlen_cons; lia|lia|]. sbind.
  subst i. rewrite to_nat_zlen, drop_app_length in Hv. change (take (Z.to_nat 1) (c :: t)) with [c] in Hv.
  rewrite (find_whole nd v n [c] Hn Hv). sbind. pose proof (find_text_1 n c) as Hf. case_bool_decide as Hc.
  - destruct (find_text n [c]) as [j|] eqn:Ej; [|by apply Hf in Hc]. cbn [default from_option id]. apply find_text_bound in Ej.
    destruct Hn as [Hnz _]. destruct (Z.eqb_spec j SIZE_MAX); [unfold SIZE_MAX, UINT64_MAX in *; change (zlen [c]) with 1 in Ej; lia|]. cbn. do 2 f_equal. lia.
  - rewrite (proj2 Hf Hc). cbn [default from_option id]. rewrite Z.eqb_refl. cbn [negb].
    rewrite (IH (pre ++ [c]) t) by (rewrite ?zlen_app, ?zlen_1; first [by rewrite <- app_assoc|injection Hk; lia|lia]).
    destruct (first_of_text t n); cbn [option_map]; [|done]. do 2 f_equal. lia.
Qed.
Lemma first_of_bound t n i : first_of_text t n = Some i -> 0 <= i < zlen t.
Proof.
  revert i. induction t as [|c t IH]; intros i; cbn [first_of_text]; [done|]. rewrite zlen_cons. pose proof (zlen_nonneg t).
  case_bool_decide; [intros [= <-]; lia|]. destruct (first_of_text t n) as [j|]; [|done]. intros [= <-]. specialize (IH j eq_refl). lia.
Qed.
Lemma find_first_of_spec hay needles t n u p len : views hay t -> views needles n -> place u p -> p <= zlen t -> 0 <= len ->
  mstr_find_first_of hay needles u len =
  Some match first_of_text (take (Z.to_nat len) (drop (Z.to_nat p) t)) n with Some i => i + p | None => SIZE_MAX end.
Proof.
  intros Ht Hn Hp Hl Hlen. unfold mstr_find_first_of. rewrite (adjust_place hay t Ht u p) by done. sbind.
  pose proof Hp as (_ & Hp0 & _). pose proof Ht as [Hz _].
  destruct (substr_spec hay t Ht (idx t_size p) p len) as (v & -> & Hv); [apply place_size; lia|done|done|]. sbind.
  set (w := take (Z.to_nat len) (drop (Z.to_nat p) t)) in *. assert (Hw : zlen w <= zlen t - p) by (subst w; unfold zlen in *; rewrite length_take, length_drop; lia).
  rewrite (views_len v w Hv), to_nat_zlen. rewrite (first_of_loop_spec _ v [] w needles n 0) by done. sbind.
  destruct (first_of_text w n) as [i|] eqn:Ef; [|done]. cbn [option_map]. apply first_of_bound in Ef. rewrite Z.add_0_l, u64_id by lia. done.
Qed.

(** ** Trimming *)

Definition white (c : byte) : bool := mlib_is_latin_whitespace (char_int c).
Fixpoint ltrim (t : bytes) : bytes := match t with [] => [] | c :: t' => if white c then ltrim t' else t end.
Definition rtrim (t : bytes) : bytes := rev (ltrim (rev t)).

Lemma trim_left_spec s t : views s t -> exists v, mstr_trim_left s = Some v /\ views v (ltrim t).
Proof.
  intros Hs. unfold mstr_trim_left. rewrite (views_len s t Hs), to_nat_zlen. revert s Hs. induction t as [|c t IH]; intros s Hs; cbn [trim_left_loop ltrim length].
  - rewrite (views_len s [] Hs). cbn. by exists s.
  - pose proof (views_len s _ Hs) as El. rewrite zlen_cons in El. pose proof (zlen_nonneg t). pose proof Hs as [Hz _]. rewrite zlen_cons in Hz.
    destruct (Z.eqb_spec (sv_len s) 0); [lia|]. rewrite (at_spec s _ Hs _ 0) by ((apply place_int; lia) || (rewrite zlen_cons; lia)). rewrite rd_cons_0. sbind.
    fold (white c). destruct (white c); [|by exists s].
    destruct (substr_spec s _ Hs (idx t_int 1) 1 SIZE_MAX) as (v & -> & Hv); [apply place_int; lia|rewrite zlen_cons; lia|done|]. sbind.
    change (drop (Z.to_nat 1) (c :: t)) with t in Hv. rewrite take_ge in Hv by (unfold SIZE_MAX, UINT64_MAX, zlen in *; lia). by apply IH.
Qed.

Lemma slice_spec s t e b : views s t -> (e = idx t_int (-1) /\ b = zlen t - 1 /\ 1 <= zlen t) ->
  exists v, mstr_slice s (idx t_int 0) e = Some v /\ views v (take (Z.to_nat b) t).
Proof.
  intros Hs (-> & -> & Hl). pose proof Hs as [Hz _]. unfold mstr_slice. rewrite (adjust_place s t Hs (idx t_int 0) 0) by ((apply place_int; lia) || lia). sbind.
  rewrite (adjust_int s t Hs) by lia. cbn [Z.leb Z.compare]. change (- -1) with 1. rewrite (proj2 (Z.leb_le _ _)) by lia. sbind.
  destruct (Z.leb_spec 0 (zlen t + -1)); [|lia]. cbn [negb]. rewrite u64_id by lia.
  destruct (substr_spec s t Hs (idx t_size 0) 0 (zlen t + -1 - 0)) as (v & -> & Hv); [apply place_size; lia|lia|lia|].
  exists v. split; [done|]. rewrite drop_0 in Hv. by replace (zlen t - 1) with (zlen t + -1 - 0) by lia.
Qed.

Lemma trim_right_spec s t : views s t -> exists v, mstr_trim_right s = Some v /\ views v (rtrim t).
Proof.
  intros Hs. unfold mstr_trim_right, rtrim. rewrite (views_len s t Hs), to_nat_zlen. revert s Hs. induction t as [|c t IH] using rev_ind; intros s Hs.
  - cbn [trim_right_loop length]. rewrite (views_len s [] Hs). cbn. by exists s.
  - rewrite rev_app_distr, length_app, Nat.add_1_r. cbn [rev app trim_right_loop ltrim].
    pose proof (views_len s _ Hs) as El. rewrite zlen_app, zlen_1 in El. pose proof (zlen_nonneg t). pose proof Hs as [Hz _]. rewrite zlen_app, zlen_1 in Hz.
    destruct (Z.eqb_spec (sv_len s) 0); [lia|].
    assert (Ha : mstr_at s (idx t_int (-1)) = Some c).
    { unfold mstr_at. rewrite (adjust_int s _ Hs) by lia. rewrite zlen_app, zlen_1. cbn [Z.leb Z.compare]. rewrite (proj2 (Z.leb_le _ _)) by lia. sbind.
      destruct Hs as (_ & rest & ->). cbn [sv_data]. rewrite <- app_assoc. apply rd_at. lia. }
    rewrite Ha. sbind. fold (white c). destruct (white c); [|exists s; split; [done|]; cbn [rev]; by rewrite rev_involutive].
    destruct (slice_spec s _ (idx t_int (-1)) (zlen t) Hs) as (v & -> & Hv); [rewrite zlen_app, zlen_1; split_and!; [done|lia..]|]. sbind.
    rewrite to_nat_zlen, take_app_length in Hv. by apply IH.
Qed.
Lemma trim_spec s t : views s t -> exists v, mstr_trim s = Some v /\ views v (rtrim (ltrim t)).
Proof. intros Hs. destruct (trim_left_spec s t Hs) as (v & E & Hv). unfold mstr_trim. rewrite E. sbind. by apply trim_right_spec. Qed.

(** ** Comparison, prefixes and splitting *)

Lemma split_at_spec s t p n : views s t -> 0 <= p < 2 ^ 64 -> 0 <= n < 2 ^ 63 -> let q := Z.min p (zlen t) in
  exists a b, mstr_split_at s (idx t_size p) n = Some (a, b) /\ views a (take (Z.to_nat q) t) /\ views b (drop (Z.to_nat (Z.min (q + n) (zlen t))) t).
Proof.
  intros Hs Hp Hn q. pose proof Hs as [Hz _]. pose proof (zlen_nonneg t). unfold mstr_split_at.
  assert (Ea : _mstr_adjust_index s (idx t_size p) true = Some q) by (rewrite (adjust_size s t Hs) by done; subst q; destruct (Z.leb_spec p (zlen t)); f_equal; lia).
  rewrite Ea. sbind. destruct (substr_spec s t Hs (idx t_int 0) 0 q) as (a & -> & Ha); [apply place_int; lia|lia|lia|]. sbind.
  rewrite (views_len s t Hs), (u64_id (zlen t - q)) by lia. set (d := if zlen t - q <? n then _ else _).
  assert (Hd : q + d = Z.min (q + n) (zlen t)) by (subst d; destruct (Z.ltb_spec (zlen t - q) n); lia). rewrite u64_id by lia. rewrite Hd.
  destruct (substr_spec s t Hs (idx t_size (Z.min (q + n) (zlen t))) (Z.min (q + n) (zlen t)) SIZE_MAX) as (b & -> & Hb); [apply place_size; lia|lia|done|]. sbind.
  exists a, b. split; [done|]. rewrite drop_0 in Ha. split; [done|]. rewrite take_ge in Hb; [done|].
  unfold SIZE_MAX, UINT64_MAX, zlen in *. rewrite length_drop. lia.
Qed.

Lemma split_around_spec s infix t n : views s t -> views infix n ->
  exists a b, mstr_split_around s infix = Some (bool_decide (is_Some (find_text t n)), a, b) /\
    match find_text t n with
    | Some i => exists pre post, t = pre ++ n ++ post /\ zlen pre = i /\ views a pre /\ views b post
    | None => views a t /\ views b []
    end.
Proof.
  intros Hs Hn. pose proof Hs as [Hz _]. pose proof Hn as [Hnz _]. pose proof (zlen_nonneg n). unfold mstr_split_around. rewrite (find_whole s infix t n Hs Hn). sbind.
  rewrite (views_len infix n Hn). pose proof (find_text_spec t n) as Hf. destruct (find_text t n) as [i|] eqn:E; cbn [default from_option id].
  - pose proof (find_text_bound t n i E). destruct (split_at_spec s t i (zlen n) Hs ltac:(lia) ltac:(lia)) as (a & b & -> & Ha & Hb). sbind.
    rewrite Z.min_l in * by lia. exists a, b. split; [by rewrite bool_decide_true, (proj2 (Z.eqb_neq _ _)) by (done || unfold SIZE_MAX, UINT64_MAX; lia)|].
    destruct Hf as (pre & post & -> & Hi & _). exists pre, post. subst i. rewrite to_nat_zlen, take_app_length in Ha. split; [done|]. split; [done|]. split; [done|].
    rewrite Z.min_l in Hb by zl. replace (Z.to_nat (zlen pre + zlen n)) with (length (pre ++ n)) in Hb by (rewrite length_app; unfold zlen; lia).
    by rewrite app_assoc, drop_app_length in Hb.
  - destruct (split_at_spec s t SIZE_MAX (zlen n) Hs ltac:(done) ltac:(lia)) as (a & b & -> & Ha & Hb). sbind.
    rewrite Z.min_r in * by (unfold SIZE_MAX, UINT64_MAX; lia). rewrite ?Z.min_r in Hb by lia. exists a, b. split; [done|].
    rewrite to_nat_zlen, take_ge in Ha by lia. rewrite to_nat_zlen, drop_all in Hb. done.
Qed.

Lemma memcmp_views a b t n : views a t -> views b n -> zlen t = zlen n -> memcmp (sv_data a) (sv_data b) (zlen t) = Some (memcmp_bytes t n).
Proof. intros (_ & ra & ->) (_ & rb & ->) E. cbn [sv_data]. unfold memcmp. by rewrite !slice_at_end_0 by done. Qed.

Lemma starts_with_spec s p t n : views s t -> views p n -> mstr_starts_with s p = Some (bool_decide (take (length n) t = n)).
Proof.
  intros Hs Hp. pose proof Hs as [Hz _]. pose proof Hp as [Hnz _]. pose proof (zlen_nonneg n). pose proof (zlen_nonneg t). unfold mstr_starts_with. rewrite (views_len p n Hp).
  destruct (substr_spec s t Hs (idx t_int 0) 0 (zlen n)) as (v & -> & Hv); [apply place_int; lia|lia|lia|]. sbind.
  rewrite drop_0, to_nat_zlen in Hv. set (w := take (length n) t) in *. assert (Hw : zlen w <= zlen n) by (subst w; unfold zlen; rewrite length_take; lia).
  unfold mstr_cmp. rewrite (views_len v w Hv), (views_len p n Hp). destruct (Z.ltb_spec (zlen n) (zlen w)); [lia|].
  assert (Em : memcmp (sv_data v) (sv_data p) (zlen w) = Some (memcmp_bytes w (take (length w) n))).
  { destruct Hv as (_ & rv & ->), Hp as (_ & rp & ->). cbn [sv_data]. unfold memcmp. rewrite (slice_at_end_0 w rv) by done. sbind.
    rewrite <- (take_drop (length w) n) at 1. rewrite <- app_assoc, slice_at_end_0; [done|]. unfold zlen in *. rewrite length_take. lia. }
  rewrite Em. sbind. pose proof (memcmp_bytes_eq w (take (length w) n)) as Hm. rewrite length_take in Hm. specialize (Hm ltac:(unfold zlen in *; lia)).
  assert (Hr : - 256 < memcmp_bytes w (take (length w) n) < 256).
  { clear. generalize (take (length w) n) as u. induction w as [|x w IH]; intros [|y u]; cbn; try lia. pose proof (b2z_range x). pose proof (b2z_range y).
    destruct (byte_eqb x y); [apply IH|lia]. }
  pose proof (zlen_nonneg w).
  destruct (Z.eqb_spec (memcmp_bytes w (take (length w) n)) 0) as [E|E]; cbn [negb].
  - unfold idx. rewrite cmp_spec by (auto with clib || (apply in_size; lia)). apply Hm in E. f_equal. case_bool_decide as Ew.
    + rewrite Ew. apply Z.eqb_eq. lia.
    + apply Z.eqb_neq. intros HE. apply Ew. rewrite E. apply take_ge. unfold zlen in *. lia.
  - unfold idx. rewrite cmp_spec by (auto with clib || (apply in_int; lia)). f_equal. case_bool_decide as Ew.
    + exfalso. apply E, Hm. rewrite Ew. symmetry. by apply take_ge.
    + apply Z.eqb_neq. lia.
Qed.

Lemma contains_spec s p t n : views s t -> views p n -> mstr_contains s p = Some (bool_decide (is_Some (find_text t n))).
Proof.
  intros Hs Hp. unfold mstr_contains. rewrite (find_whole s p t n Hs Hp). sbind. destruct Hs as [Hz _]. destruct (find_text t n) as [i|] eqn:E; cbn [default from_option id]; [|done].
  apply find_text_bound in E. rewrite (proj2 (Z.eqb_neq _ _)) by (unfold SIZE_MAX, UINT64_MAX; pose proof (zlen_nonneg n); lia). by rewrite bool_decide_true.
Qed.
