(* ===== verification/IntParse.v ===== *)
(** Integers of 64 and 32 bits from text ([mlib/intencode.h]), against a reference on
    unbounded integers. *)

From Stdlib Require Import Strings.String.
From S2P Require Import Prelude CString Text Calendar Ckdint MlibStr.

Definition EINVAL : Z := 22.
Definition ERANGE : Z := 34.

(** The code of an error, or the value written. *)
Definition parse_result : Type := (Z + Z)%type.

(** A digit of a base of up to 36, of a character in lower case. *)
Definition digit_value (digit : Z) : option Z :=
  if (48 <=? digit) && (digit <=? 57) then Some (digit - 48)
  else if (97 <=? digit) && (digit <=? 122) then Some (digit - 97 + 10)
  else None.

Fixpoint nat64_loop (fuel : nat) (in_ : mstr_view) (base value : Z) (did_overflow : bool) : option parse_result :=
  match fuel with
  | O => None
  | S fuel' =>
      if sv_len in_ =? 0 then Some (if did_overflow then inl ERANGE else inr value) else
      let '(ovr, value) := ckdint mlib_mul t_uint64 t_uint64 t_unsigned value base in
      let did_overflow := ovr || did_overflow in
      c ← rd (sv_data in_) 0;
      match digit_value (mlib_latin_tolower (char_int c)) with
      | None => Some (inl EINVAL)
      | Some d =>
          if base <=? d then Some (inl EINVAL) else
          let '(ovr, value) := ckdint mlib_add t_uint64 t_uint64 t_unsigned value d in
          let did_overflow := ovr || did_overflow in
          in_ ← mstr_substr in_ (idx t_int 1) SIZE_MAX;
          nat64_loop fuel' in_ base value did_overflow
      end
  end.

Definition mlib_nat64_parse (in_ : mstr_view) (base : Z) : option parse_result :=
  if sv_len in_ =? 0 then Some (inl EINVAL) else nat64_loop (S (Z.to_nat (sv_len in_))) in_ base 0 false.

(** The sign, and the view past it. *)
Definition i64_sign (in_ : mstr_view) : option (Z * mstr_view) :=
  c ← rd (sv_data in_) 0;
  if byte_eqb c (z2b 43) then in_ ← mstr_substr in_ (idx t_int 1) SIZE_MAX; Some (1, in_)
  else if byte_eqb c (z2b 45) then in_ ← mstr_substr in_ (idx t_int 1) SIZE_MAX; Some (-1, in_)
  else Some (1, in_).

(** The base, and the view past its prefix. *)
Definition i64_base (in_ : mstr_view) (base : Z) : option (Z * mstr_view) :=
  if negb (base =? 0) then Some (base, in_) else
  zero ← (if sv_len in_ =? 0 then Some false else c ← rd (sv_data in_) 0; Some (byte_eqb c (z2b 48)));
  if negb zero then Some (10, in_) else
  if 1 <? sv_len in_ then
    c ← rd (sv_data in_) 1;
    let l := mlib_latin_tolower (char_int c) in
    if l =? 120 then in_ ← mstr_substr in_ (idx t_int 2) SIZE_MAX; Some (16, in_)
    else if l =? 111 then in_ ← mstr_substr in_ (idx t_int 2) SIZE_MAX; Some (8, in_)
    else if l =? 98 then in_ ← mstr_substr in_ (idx t_int 2) SIZE_MAX; Some (2, in_)
    else Some (8, in_)
  else Some (8, in_).

Definition mlib_i64_parse (in_ : mstr_view) (base : Z) : option parse_result :=
  if sv_len in_ =? 0 then Some (inl EINVAL) else
  '(sign, in_) ← i64_sign in_;
  '(base, in_) ← i64_base in_ base;
  rc ← mlib_nat64_parse in_ base;
  match rc with
  | inl rc => Some (inl rc)
  | inr nat =>
      let '(ovr, i64) := ckdint mlib_mul t_int64 t_uint64 t_int nat sign in
      Some (if (ovr : bool) then inl ERANGE else inr i64)
  end.

Definition mlib_i32_parse (in_ : mstr_view) (base : Z) : option parse_result :=
  ec ← mlib_i64_parse in_ base;
  match ec with
  | inl ec => Some (inl ec)
  | inr tmp =>
      let '(ovr, i32) := mlib_narrow t_int32 t_int64 tmp in
      Some (if (ovr : bool) then inl ERANGE else inr i32)
  end.

Definition of_text (t : bytes) : mstr_view := View t (zlen t).
Example parse_ex1 : mlib_i64_parse (of_text (txt "-9223372036854775808")) 0 = Some (inr (- 2 ^ 63)).
Proof. vm_compute. reflexivity. Qed.
Example parse_ex2 : mlib_i64_parse (of_text (txt "0xffFFffFFffFFffFFf")) 0 = Some (inl ERANGE).
Proof. vm_compute. reflexivity. Qed.
Example parse_ex3 : mlib_i64_parse (of_text (txt "+")) 0 = Some (inl EINVAL).
Proof. vm_compute. reflexivity. Qed.

(** ** A reference on texts and unbounded integers *)

Definition char_digit36 (c : byte) : option Z := digit_value (mlib_latin_tolower (char_int c)).

(** The number the digits are, when all of them are digits of the base. *)
Fixpoint digits_value (base acc : Z) (t : bytes) : option Z :=
  match t with
  | [] => Some acc
  | c :: t' => d ← char_digit36 c; if base <=? d then None else digits_value base (acc * base + d) t'
  end.
Definition nat_value (base : Z) (t : bytes) : option Z := match t with [] => None | _ => digits_value base 0 t end.

(** A sign, then a prefix that says the base when it is asked for. *)
Definition sign_text (t : bytes) : Z * bytes :=
  match t with
  | c :: t' => if byte_eqb c (z2b 43) then (1, t') else if byte_eqb c (z2b 45) then (-1, t') else (1, t)
  | [] => (1, [])
  end.
Definition base_text (base : Z) (t : bytes) : Z * bytes :=
  if negb (base =? 0) then (base, t) else
  match t with
  | c :: t' =>
      if byte_eqb c (z2b 48) then
        match t' with
        | x :: t'' =>
            let l := mlib_latin_tolower (char_int x) in
            if l =? 120 then (16, t'') else if l =? 111 then (8, t'') else if l =? 98 then (2, t'') else (8, t)
        | [] => (8, t)
        end
      else (10, t)
  | [] => (10, t)
  end.
Definition int_value (base : Z) (t : bytes) : option Z :=
  let '(sign, t) := sign_text t in
  let '(base, t) := base_text base t in
  v ← nat_value base t; Some (sign * v).

(** ** The parse is the reference, limited to the type *)

Definition in_result (t : ctype) (v : option Z) : parse_result :=
  match v with None => inl EINVAL | Some v => if in_typeb t v then inr v else inl ERANGE end.

Lemma digit36_range c d : char_digit36 c = Some d -> 0 <= d < 36.
Proof.
  unfold char_digit36, digit_value. set (l := mlib_latin_tolower _). destruct (Z.leb_spec 48 l), (Z.leb_spec l 57); cbn [andb]; [intros [= <-]; lia|..];
    destruct (Z.leb_spec 97 l), (Z.leb_spec l 122); cbn [andb]; try done; intros [= <-]; lia.
Qed.

Lemma digits_value_ge base acc t v : 1 <= base -> 0 <= acc -> digits_value base acc t = Some v -> acc <= v.
Proof.
  intros Hb. revert acc. induction t as [|c t IH]; intros acc Ha; cbn [digits_value]; [intros [= <-]; lia|].
  destruct (char_digit36 c) as [d|] eqn:Ed; [|done]. sbind. apply digit36_range in Ed. destruct (base <=? d); [done|].
  intros E. apply IH in E; nia.
Qed.

Lemma u64_type : ctype_ok t_uint64.
Proof. right; right; by right. Qed.
Lemma unsigned_type : ctype_ok t_unsigned.
Proof. right; right; by left. Qed.
Lemma int32_type : ctype_ok t_int32.
Proof. right; right; by left. Qed.
#[local] Hint Resolve u64_type unsigned_type int32_type mul_exact add_exact : clib.

Lemma in_u64 z : 0 <= z < 2 ^ 64 -> in_type t_uint64 z.
Proof. apply in_size. Qed.
Lemma in_unsigned z : 0 <= z < 2 ^ 32 -> in_type t_unsigned z.
Proof. intros. unfold in_type, in_typeb. cbn [t_unsigned c_signed c_bits]. apply andb_true_iff. rewrite Z.leb_le, Z.ltb_lt. lia. Qed.

(** The value after a digit, and whether any step of it overflowed. *)
Lemma digit_step acc base d : 0 <= acc -> 1 <= base < 2 ^ 32 -> 0 <= d < 36 ->
  let value1 := u64 (u64 acc * base) in
  u64 (value1 + d) = u64 (acc * base + d) /\
  negb (in_typeb t_uint64 (value1 + d)) || (negb (in_typeb t_uint64 (u64 acc * base)) || negb (acc <? 2 ^ 64)) = negb (acc * base + d <? 2 ^ 64).
Proof.
  intros Ha Hb Hd value1. split.
  { subst value1. unfold u64. by rewrite Zplus_mod_idemp_l, (Zplus_mod (acc mod 2 ^ 64 * base)), Zmult_mod_idemp_l, <- Zplus_mod. }
  subst value1. unfold in_typeb. cbn [t_uint64 c_signed c_bits]. pose proof (u64_range acc).
  destruct (Z.ltb_spec acc (2 ^ 64)); cbn [negb orb].
  - rewrite (u64_id acc) in * by lia. assert (0 <= acc * base) by nia. rewrite (proj2 (Z.leb_le 0 (acc * base))) by done. cbn [andb]. rewrite orb_false_r.
    destruct (Z.ltb_spec (acc * base) (2 ^ 64)); cbn [negb].
    + rewrite (u64_id (acc * base)) by lia. rewrite (proj2 (Z.leb_le 0 (acc * base + d))) by lia. cbn [andb]. by rewrite orb_false_r.
    + rewrite orb_true_r. symmetry. apply negb_true_iff, Z.ltb_ge. lia.
  - rewrite !orb_true_r. symmetry. apply negb_true_iff, Z.ltb_ge. nia.
Qed.

(** The wrapped value, and the overflow that is remembered. *)
Lemma nat64_loop_spec base t s acc : 0 <= base < 2 ^ 32 -> views s t -> 0 <= acc ->
  nat64_loop (S (length t)) s base (u64 acc) (negb (acc <? 2 ^ 64)) =
  Some match digits_value base acc t with None => inl EINVAL | Some v => if v <? 2 ^ 64 then inr v else inl ERANGE end.
Proof.
  intros Hb. revert s acc. induction t as [|c t IH]; intros s acc Hs Ha; cbn [length nat64_loop digits_value].
  - rewrite (views_len s [] Hs). cbn. destruct (Z.ltb_spec acc (2 ^ 64)); cbn [negb]; [by rewrite u64_id by lia|done].
  - rewrite (views_len s _ Hs), zlen_cons. pose proof (zlen_nonneg t). destruct (Z.eqb_spec (1 + zlen t) 0); [lia|].
    pose proof (u64_range acc) as Hu. pose proof Hs as [Hz _]. rewrite zlen_cons in Hz.
    rewrite (ckdint_spec mlib_mul Z.mul) by (auto with clib || (apply in_u64; lia) || (apply in_unsigned; lia)).
    assert (Hr : rd (sv_data s) 0 = Some c) by (destruct Hs as (_ & rest & ->); apply rd_cons_0). rewrite Hr. sbind. fold (char_digit36 c).
    destruct (char_digit36 c) as [d|] eqn:Ed; [|done]. sbind. apply digit36_range in Ed. destruct (Z.leb_spec base d); [done|].
    change (as_type t_uint64 (u64 acc * base)) with (u64 (u64 acc * base)). pose proof (u64_range (u64 acc * base)).
    rewrite (ckdint_spec mlib_add Z.add) by (auto with clib || (apply in_u64; lia) || (apply in_unsigned; lia)).
    change (as_type t_uint64 ?z) with (u64 z). destruct (digit_step acc base d) as [-> ->]; [lia..|].
    destruct (substr_spec s _ Hs (idx t_int 1) 1 SIZE_MAX) as (v & -> & Hv); [apply place_int; lia|rewrite zlen_cons; lia|done|]. sbind.
    change (drop (Z.to_nat 1) (c :: t)) with t in Hv. rewrite take_ge in Hv by (unfold SIZE_MAX, UINT64_MAX, zlen in *; lia).
    apply IH; [done|nia].
Qed.

Lemma nat64_parse_spec base t s : 0 <= base < 2 ^ 32 -> views s t ->
  mlib_nat64_parse s base = Some match nat_value base t with None => inl EINVAL | Some v => if v <? 2 ^ 64 then inr v else inl ERANGE end.
Proof.
  intros Hb Hs. unfold mlib_nat64_parse, nat_value. rewrite (views_len s t Hs), to_nat_zlen. destruct t as [|c t]; [done|].
  rewrite zlen_cons. pose proof (zlen_nonneg t). destruct (Z.eqb_spec (1 + zlen t) 0); [lia|]. by apply (nat64_loop_spec base (c :: t) s 0).
Qed.
Lemma nat_value_nonneg base t v : 0 <= base -> nat_value base t = Some v -> 0 <= v.
Proof.
  intros Hb. unfold nat_value. destruct t as [|c t]; [done|]. destruct (Z.eqb_spec base 0) as [->|]; [|apply digits_value_ge; lia].
  cbn [digits_value]. destruct (char_digit36 c) as [d|] eqn:E; [|done]. sbind. apply digit36_range in E. destruct (Z.leb_spec 0 d); [done|lia].
Qed.

Lemma i64_sign_spec c t s : views s (c :: t) -> exists v, i64_sign s = Some (fst (sign_text (c :: t)), v) /\ views v (snd (sign_text (c :: t))).
Proof.
  intros Hs. pose proof Hs as [Hz _]. pose proof (zlen_nonneg t). rewrite zlen_cons in Hz. unfold i64_sign, sign_text.
  assert (Hr : rd (sv_data s) 0 = Some c) by (destruct Hs as (_ & rest & ->); apply rd_cons_0). rewrite Hr. sbind.
  destruct (substr_spec s _ Hs (idx t_int 1) 1 SIZE_MAX) as (v & E & Hv); [apply place_int; lia|rewrite zlen_cons; lia|done|].
  change (drop (Z.to_nat 1) (c :: t)) with t in Hv. rewrite take_ge in Hv by (unfold SIZE_MAX, UINT64_MAX, zlen in *; lia). rewrite E. sbind.
  destruct (byte_eqb c (z2b 43)); [by exists v|]. destruct (byte_eqb c (z2b 45)); [by exists v|by exists s].
Qed.

Lemma i64_base_spec base t s : views s t -> exists v, i64_base s base = Some (fst (base_text base t), v) /\ views v (snd (base_text base t)).
Proof.
  intros Hs. pose proof Hs as [Hz _]. unfold i64_base, base_text. destruct (Z.eqb_spec base 0) as [->|]; cbn [negb]; [|by exists s].
  rewrite (views_len s t Hs). destruct t as [|c t]; [by exists s|]. rewrite zlen_cons in *. pose proof (zlen_nonneg t). destruct (Z.eqb_spec (1 + zlen t) 0); [lia|].
  assert (Hr : rd (sv_data s) 0 = Some c) by (destruct Hs as (_ & rest & ->); apply rd_cons_0). rewrite Hr. sbind.
  destruct (byte_eqb c (z2b 48)); cbn [negb]; [|by exists s]. destruct t as [|x t]; [by exists s|]. rewrite zlen_cons in *. pose proof (zlen_nonneg t).
  destruct (Z.ltb_spec 1 (1 + (1 + zlen t))); [|lia].
  assert (Hr1 : rd (sv_data s) 1 = Some x) by (destruct Hs as (_ & rest & ->); by apply (rd_at [c])). rewrite Hr1. sbind. cbv zeta.
  destruct (substr_spec s _ Hs (idx t_int 2) 2 SIZE_MAX) as (v & E & Hv); [apply place_int; lia|rewrite !zlen_cons; lia|done|].
  change (drop (Z.to_nat 2) (c :: x :: t)) with t in Hv. rewrite take_ge in Hv by (unfold SIZE_MAX, UINT64_MAX, zlen in *; lia). rewrite E. sbind.
  do 3 (destruct (_ =? _); [by exists v|]). by exists s.
Qed.
Lemma base_text_range base t : 0 <= base < 2 ^ 32 -> 0 <= fst (base_text base t) < 2 ^ 32.
Proof. intros. unfold base_text. repeat case_match; cbn; lia. Qed.
Lemma sign_text_unit t : fst (sign_text t) = 1 \/ fst (sign_text t) = -1.
Proof. unfold sign_text. repeat case_match; cbn; tauto. Qed.

Lemma i64_parse_spec base t s : 0 <= base < 2 ^ 32 -> views s t -> mlib_i64_parse s base = Some (in_result t_int64 (int_value base t)).
Proof.
  intros Hb Hs. unfold mlib_i64_parse, int_value. rewrite (views_len s t Hs).
  destruct t as [|c t].
  { cbn [sign_text]. unfold base_text. destruct (negb (base =? 0)); done. }
  rewrite zlen_cons. pose proof (zlen_nonneg t). destruct (Z.eqb_spec (1 + zlen t) 0); [lia|].
  destruct (i64_sign_spec c t s Hs) as (v & -> & Hv). sbind. pose proof (sign_text_unit (c :: t)) as Hsg. destruct (sign_text (c :: t)) as [sg t1]. cbn [fst snd] in *.
  destruct (i64_base_spec base t1 v Hv) as (w & -> & Hw). sbind. pose proof (base_text_range base t1 Hb) as Hbr. destruct (base_text base t1) as [b t2]. cbn [fst snd] in *.
  rewrite (nat64_parse_spec b t2 w) by done. sbind. destruct (nat_value b t2) as [nat|] eqn:En; [|done]. sbind. apply nat_value_nonneg in En; [|lia].
  unfold in_result. destruct (Z.ltb_spec nat (2 ^ 64)).
  - rewrite (ckdint_spec mlib_mul Z.mul) by (auto with clib || (apply in_u64; lia) || (apply in_int; lia)). rewrite (Z.mul_comm sg).
    destruct (in_typeb t_int64 (nat * sg)) eqn:Ei; [|done]. cbn [negb]. do 2 f_equal. by apply as_type_id; [auto with clib|].
  - destruct (in_typeb t_int64 (sg * nat)) eqn:Ei; [|done]. exfalso. unfold in_typeb in Ei. cbn [t_int64 c_signed c_bits Z.sub Z.add Z.opp Z.pos_sub Pos.pred_double] in Ei.
    apply andb_true_iff in Ei as [E1 E2]. apply Z.leb_le in E1. apply Z.ltb_lt in E2. destruct Hsg as [-> | ->]; lia.
Qed.

Lemma i32_parse_spec base t s : 0 <= base < 2 ^ 32 -> views s t -> mlib_i32_parse s base = Some (in_result t_int32 (int_value base t)).
Proof.
  intros Hb Hs. unfold mlib_i32_parse. rewrite (i64_parse_spec base t s) by done. sbind. destruct (int_value base t) as [v|]; [|done]. cbn [in_result].
  destruct (in_typeb t_int64 v) eqn:E64.
  - rewrite narrow_spec by auto with clib. destruct (in_typeb t_int32 v) eqn:E32; [|done]. cbn [negb]. do 2 f_equal. by apply as_type_id; [auto with clib|].
  - destruct (in_typeb t_int32 v) eqn:E32; [|done]. exfalso. unfold in_typeb in *. cbn [t_int64 t_int32 c_signed c_bits Z.sub Z.add Z.opp Z.pos_sub Pos.pred_double] in *.
    apply andb_true_iff in E32 as [E1 E2]. apply Z.leb_le in E1. apply Z.ltb_lt in E2. apply andb_false_iff in E64. rewrite Z.leb_gt, Z.ltb_ge in E64. lia.
Qed.

(** ** Printed integers *)

Lemma dec_digits_head fuel z : 0 < z < 10 ^ Z.of_nat fuel -> exists d r, dec_loop fuel z = z2b (48 + d) :: r /\ 1 <= d <= 9.
Proof.
  revert z. induction fuel as [|fuel IH]; intros z Hz; [change (10 ^ Z.of_nat 0) with 1 in Hz; lia|]. cbn [dec_loop]. destruct (Z.ltb_spec z 10).
  - exists z, []. rewrite Z.mod_small by lia. split; [done|lia].
  - rewrite Nat2Z.inj_succ, Z.pow_succ_r in Hz by lia. destruct (IH (z / 10)) as (d & r & -> & Hd); [Z.to_euclidean_division_equations; lia|].
    exists d, (r ++ [z2b (48 + z mod 10)]). done.
Qed.

Lemma digit36_digit d : 0 <= d <= 9 -> char_digit36 (z2b (48 + d)) = Some d.
Proof. intros Hd. assert (d = 0 \/ d = 1 \/ d = 2 \/ d = 3 \/ d = 4 \/ d = 5 \/ d = 6 \/ d = 7 \/ d = 8 \/ d = 9) as Hc by lia. by repeat destruct Hc as [->|Hc]; [..|subst]. Qed.

Lemma digits_value_app base acc s t : digits_value base acc (s ++ t) = a ← digits_value base acc s; digits_value base a t.
Proof.
  revert acc. induction s as [|c s IH]; intros acc; [done|]. cbn [app digits_value]. destruct (char_digit36 c); [|done]. sbind. destruct (_ <=? _); [done|apply IH].
Qed.
Lemma digits_value_dec fuel z : 0 <= z < 10 ^ Z.of_nat fuel -> (0 < fuel)%nat -> digits_value 10 0 (dec_loop fuel z) = Some z.
Proof.
  revert z. induction fuel as [|fuel IH]; intros z Hz Hf; [lia|]. cbn [dec_loop]. rewrite digits_value_app. pose proof (Z.mod_pos_bound z 10 ltac:(lia)).
  assert (Hlast : forall a, digits_value 10 a [z2b (48 + z mod 10)] = Some (a * 10 + z mod 10)).
  { intros a. cbn [digits_value]. rewrite digit36_digit by lia. sbind. destruct (Z.leb_spec 10 (z mod 10)); [lia|done]. }
  destruct (Z.ltb_spec z 10).
  - change (digits_value 10 0 []) with (Some 0). sbind. rewrite Hlast. f_equal. rewrite Z.mod_small by lia. lia.
  - rewrite Nat2Z.inj_succ, Z.pow_succ_r in Hz by lia. destruct fuel as [|fuel]; [change (10 ^ Z.of_nat 0) with 1 in Hz; lia|].
    rewrite IH by (Z.to_euclidean_division_equations; lia). sbind. rewrite Hlast. f_equal. Z.to_euclidean_division_equations; lia.
Qed.

(** The text of a natural number is read as that number, with the base inferred or given. *)
Lemma nat_text base z : base = 0 \/ base = 10 -> 0 <= z < 2 ^ 64 ->
  nat_value (fst (base_text base (dec z))) (snd (base_text base (dec z))) = Some z.
Proof.
  intros Hb Hz. destruct (Z.eqb_spec z 0) as [->|Hn]; [by destruct Hb as [->| ->]|].
  destruct (dec_digits_head 20 z) as (d & r & E & Hd); [lia|]. assert (Hv : digits_value 10 0 (dec z) = Some z) by (apply digits_value_dec; lia).
  assert (Et : base_text base (dec z) = (10, dec z)).
  { unfold base_text, dec in *. rewrite E. destruct Hb as [->| ->]; [|done]. cbn [Z.eqb negb].
    rewrite byte_eqb_neq; [done|]. intros H%(f_equal b2z). rewrite !b2z_z2b_small in H by lia. lia. }
  rewrite Et. cbn [fst snd]. unfold nat_value, dec in *. by rewrite E in *.
Qed.

Lemma int_text base z : base = 0 \/ base = 10 -> - 2 ^ 63 <= z < 2 ^ 63 -> int_value base (sdec z) = Some z.
Proof.
  intros Hb Hz. unfold int_value, sdec. destruct (Z.ltb_spec z 0).
  - change ([z2b 45] ++ dec (- z)) with (z2b 45 :: dec (- z)). change (sign_text (z2b 45 :: dec (- z))) with (-1, dec (- z)).
    cbv beta iota. pose proof (nat_text base (- z) Hb ltac:(lia)) as Hn. destruct (base_text base (dec (- z))) as [b t]. cbn [fst snd] in Hn. rewrite Hn. sbind. f_equal. lia.
  - assert (Es : sign_text (dec z) = (1, dec z)).
    { destruct (Z.eqb_spec z 0) as [->|Hn]; [done|]. destruct (dec_digits_head 20 z) as (d & r & E & Hd); [lia|]. unfold sign_text, dec. rewrite E.
      rewrite !byte_eqb_neq; [done|..]; intros Hx%(f_equal b2z); rewrite !b2z_z2b_small in Hx by lia; lia. }
    rewrite Es. pose proof (nat_text base z Hb ltac:(lia)) as Hn. destruct (base_text base (dec z)) as [b t]. cbn [fst snd] in Hn. rewrite Hn. sbind. f_equal. lia.
Qed.
