(* ===== verification/MlibMstr.v ===== *)
(** Strings that own their memory ([mstr] of [mlib/str.h]), views that may point into the
    string that is changed, and the texts they hold. *)

From Stdlib Require Import Strings.String.
From S2P Require Import Prelude CString Text Ckdint MlibStr.

(** The memory is what [realloc] gave: a character more than the length. [None] is
    a null string. *)
Record mstr := MStr { m_data : option bytes; m_len : Z }.

(** A view given to a function that changes a string: null, from a place of that
    string on, or elsewhere. Pointers to different objects never compare as inside. *)
Inductive ptr := PNull | POwn (off : Z) | PExt (data : bytes).
Record mview := MView { mv_data : ptr; mv_len : Z }.

Definition PTRDIFF_MAX : Z := INT64_MAX.
Definition mstr_null : mstr := MStr None 0.

(** What a pointer points to. *)
Definition ptr_data (str : mstr) (p : ptr) : option bytes :=
  match p with PNull => Some [] | POwn off => padd (default [] (m_data str)) off | PExt data => Some data end.
Definition the_view (str : mstr) (v : mview) : option mstr_view := d ← ptr_data str (mv_data v); Some (View d (mv_len v)).

(** The view of a whole string. *)
Definition mstr_view_from (str : mstr) : mstr_view := View (default [] (m_data str)) (m_len str).

Section Mstr.
(** [realloc]: null when it fails; a null pointer is allocated. *)
Context (realloc : option bytes -> Z -> option bytes).

Definition mstr_resize_for_overwrite (str : mstr) (new_len : Z) : option (bool * mstr) :=
  let '(ovr, alloc_size) := ckdint mlib_add t_size t_size t_int new_len 1 in
  if (ovr : bool) || (PTRDIFF_MAX <? alloc_size) then Some (false, str) else
  match realloc (m_data str) alloc_size with
  | None => Some (false, str)
  | Some data => data ← store data new_len [x00]; Some (true, MStr (Some data) new_len)
  end.

Definition mstr_resize (str : mstr) (new_len : Z) : option (bool * mstr) :=
  let old_len := m_len str in
  '(ok, str) ← mstr_resize_for_overwrite str new_len;
  if negb ok then Some (false, str) else
  len_diff ← _mlib_assert_ckdint mlib_sub t_ptrdiff t_size t_size new_len (m_len str);
  if 0 <? len_diff then
    data ← m_data str; data ← store data old_len (replicate (Z.to_nat len_diff) x00); Some (true, MStr (Some data) (m_len str))
  else Some (true, str).

Definition mstr_new (new_len : Z) : option mstr := '(_, str) ← mstr_resize mstr_null new_len; Some str.
Definition mstr_destroy (str : mstr) : mstr := mstr_null.

Definition _mstr_overlaps (str : mstr) (sv : mview) : bool :=
  match m_data str, mv_data sv with Some _, POwn off => (0 <=? off) && (off <=? m_len str) | _, _ => false end.

Definition mstr_assign (inout : mstr) (s : mview) : option (bool * mstr) :=
  sv ← the_view inout s;
  if _mstr_overlaps inout s then
    text ← slice (sv_data sv) 0 (sv_len sv); data ← m_data inout; data ← store data 0 text;
    '(_, str) ← mstr_resize_for_overwrite (MStr (Some data) (m_len inout)) (mv_len s);
    Some (true, str)
  else
    '(ok, str) ← mstr_resize_for_overwrite inout (mv_len s);
    if negb ok then Some (false, str) else
    text ← slice (sv_data sv) 0 (sv_len sv); data ← m_data str; data ← store data 0 text;
    Some (true, MStr (Some data) (m_len str)).

Definition mstr_copy (sv : mstr_view) : option mstr :=
  '(_, ret) ← mstr_assign mstr_null (MView (PExt (sv_data sv)) (sv_len sv)); Some ret.

Definition mstr_concat (a b : mstr_view) : option mstr :=
  let '(ovr, cat_len) := ckdint mlib_add t_size t_size t_size (sv_len a) (sv_len b) in
  if (ovr : bool) then Some mstr_null else
  '(ok, ret) ← mstr_resize_for_overwrite mstr_null cat_len;
  if negb ok then Some ret else
  data ← m_data ret;
  ta ← slice (sv_data a) 0 (sv_len a); data ← store data 0 ta;
  tb ← slice (sv_data b) 0 (sv_len b); data ← store data (sv_len a) tb;
  Some (MStr (Some data) (m_len ret)).

(** The part of [mstr_splice] for a view elsewhere. Nothing is moved in a null string. *)
Definition splice_apart (str : mstr) (splice_pos n_delete : Z) (insert : option bytes) (insert_len : Z) : option (bool * mstr) :=
  if negb (splice_pos <=? m_len str) then None else
  let n_chars_avail_to_delete := u64 (m_len str - splice_pos) in
  let n_delete := if n_chars_avail_to_delete <? n_delete then n_chars_avail_to_delete else n_delete in
  let '(ovr, new_len) := ckdint mlib_sub t_size t_size t_size (m_len str) n_delete in
  if (ovr : bool) then None else
  let '(ovr, new_len) := ckdint mlib_add t_size t_size t_size new_len insert_len in
  if (ovr : bool) then Some (false, str) else
  '(ok, str) ← (if m_len str <? new_len then mstr_resize_for_overwrite str new_len else Some (true, str));
  if negb ok then Some (false, str) else
  let mut := default [] (m_data str) in
  let tail_len := u64 (n_chars_avail_to_delete - n_delete) in
  tail ← slice mut (splice_pos + n_delete) tail_len;
  mut ← store mut (splice_pos + insert_len) tail;
  let str := MStr (mut' ← m_data str; Some mut) (m_len str) in
  str ← (if new_len <? m_len str then '(ok, str) ← mstr_resize_for_overwrite str new_len; if (ok : bool) then Some str else None else Some str);
  match insert with
  | None => Some (true, str)
  | Some insert =>
      text ← slice insert 0 insert_len; mut ← store (default [] (m_data str)) splice_pos text;
      Some (true, MStr (mut' ← m_data str; Some mut) (m_len str))
  end.

(** A view into the string is copied first. *)
Definition mstr_splice (str : mstr) (splice_pos n_delete : Z) (insert : mview) : option (bool * mstr) :=
  iv ← the_view str insert;
  if _mstr_overlaps str insert then
    insert_dup ← mstr_copy iv;
    match m_data insert_dup with
    | None => Some (false, str)
    | Some data => splice_apart str splice_pos n_delete (Some data) (m_len insert_dup)
    end
  else splice_apart str splice_pos n_delete (match mv_data insert with PNull => None | _ => Some (sv_data iv) end) (mv_len insert).

Definition mstr_append (str : mstr) (suffix : mview) : option (bool * mstr) := mstr_splice str (m_len str) 0 suffix.
Definition mstr_append_char (str : mstr) (c : byte) : option (bool * mstr) := mstr_append str (MView (PExt [c]) 1).

(** The occurrences from [off] on. *)
Fixpoint replace_loop (fuel : nat) (str : mstr) (needle : mstr_view) (sub : mview) (off : Z) (okay : bool) : option (bool * mstr) :=
  match fuel with
  | O => None
  | S fuel' =>
      if okay && (off <=? m_len str) then
        off ← mstr_find (mstr_view_from str) needle (idx t_size off) SIZE_MAX;
        if off =? SIZE_MAX then Some (okay, str) else
        '(ok, str) ← mstr_splice str off (sv_len needle) sub;
        let okay := okay && ok in
        let '(ovr, off) := ckdint mlib_add t_size t_size t_size off (mv_len sub) in
        let okay := if (ovr : bool) then false else okay in
        let '(okay, off) :=
          if sv_len needle =? 0 then
            let '(ovr, off) := ckdint mlib_add t_size t_size t_int off 1 in (if (ovr : bool) then false else okay, off)
          else (okay, off) in
        replace_loop fuel' str needle sub off okay
      else Some (okay, str)
  end.

(** The views into the string are copied; whether the second copy worked is asked of
    the first. *)
Definition mstr_replace (str : mstr) (needle sub : mview) : option (bool * mstr) :=
  nv ← the_view str needle;
  '(needle_dup, okay, nv) ←
    (if _mstr_overlaps str needle then
       needle_dup ← mstr_copy nv; Some (needle_dup, bool_decide (is_Some (m_data needle_dup)), mstr_view_from needle_dup)
     else Some (mstr_null, true, nv));
  sv ← the_view str sub;
  '(okay, sub) ←
    (if okay && _mstr_overlaps str sub then
       sub_dup ← mstr_copy sv;
       Some (bool_decide (is_Some (m_data needle_dup)),
             MView (match m_data sub_dup with Some data => PExt data | None => PNull end) (m_len sub_dup))
     else Some (okay, sub));
  replace_loop (Z.to_nat (m_len str) + 2) str nv sub 0 okay.

(** ** Formatting: [text] is what the format and its arguments make, [None] an error. *)

Fixpoint vsprintf_loop (fuel : nat) (ret : mstr) (sz : Z) (text : option bytes) : option mstr :=
  match fuel with
  | O => None
  | S fuel' =>
      '(ok, ret) ← mstr_resize ret sz;
      if negb ok then Some (mstr_destroy ret) else
      let '(ovr, len_with_null) := ckdint mlib_add t_size t_size t_int (m_len ret) 1 in
      if (ovr : bool) then Some (mstr_destroy ret) else
      match text with
      | None => Some (mstr_destroy ret)
      | Some text =>
          if INT32_MAX <? zlen text then Some (mstr_destroy ret) else
          data ← m_data ret; data ← vsnprintf_at data 0 len_with_null text;
          let ret := MStr (Some data) (m_len ret) in
          if zlen text <=? m_len ret then '(_, ret) ← mstr_resize ret (zlen text); Some ret
          else vsprintf_loop fuel' ret (zlen text) (Some text)
      end
  end.
Definition mstr_vsprintf (format_strlen : Z) (text : option bytes) : option mstr :=
  let '(ovr, sz) := ckdint mlib_mul t_size t_size t_int format_strlen 2 in
  vsprintf_loop 3 mstr_null (if (ovr : bool) then format_strlen else sz) text.
Definition mstr_vsprintf_append (string : mstr) (format_strlen : Z) (text : option bytes) : option (bool * mstr) :=
  suffix ← mstr_vsprintf format_strlen text;
  mstr_append string (MView (match m_data suffix with Some data => PExt data | None => PNull end) (m_len suffix)).

End Mstr.

(** An allocator whose fresh memory is not zero. *)
Definition realloc_junk (old : option bytes) (n : Z) : option bytes :=
  Some (take (Z.to_nat n) (default [] old) ++ replicate (Z.to_nat n - length (default [] old)) (z2b 0x55)).
Definition of_string (s : string) : mstr := MStr (Some (lit s)) (zlen (txt s)).
Definition ext (s : string) : mview := MView (PExt (txt s)) (zlen (txt s)).

Example replace_ex1 : mstr_replace realloc_junk (of_string "a-b--c") (ext "-") (ext "::") = Some (true, of_string "a::b::::c").
Proof. vm_compute. reflexivity. Qed.
Example replace_ex2 : mstr_replace realloc_junk (of_string "foo") (ext "") (ext "|") = Some (true, of_string "|f|o|o|").
Proof. vm_compute. reflexivity. Qed.
Example splice_ex1 : mstr_splice realloc_junk (of_string "abcdef") 1 2 (MView (POwn 3) 3) = Some (true, of_string "adefdef").
Proof. vm_compute. reflexivity. Qed.

(** The string holds the text, with a terminator after it; a null string holds none. *)
Definition holds (s : mstr) (t : bytes) : Prop :=
  zlen t < 2 ^ 62 /\ m_len s = zlen t /\ match m_data s with Some data => data = t ++ [x00] | None => t = [] end.

(** What [realloc] promises: the memory asked for, with what fits of the old content;
    a smaller size never fails. *)
Record realloc_ok (realloc : option bytes -> Z -> option bytes) : Prop := ReallocOk {
  realloc_len old n new : realloc old n = Some new -> 0 < n -> zlen new = n;
  realloc_keeps old n new : realloc old n = Some new -> 0 < n -> take (Z.to_nat n) (default [] old) = take (length (default [] old)) new;
  realloc_shrinks old n : 0 < n <= zlen (default [] old) -> is_Some (realloc old n)
}.

Lemma holds_view s t : holds s t -> views (mstr_view_from s) t.
Proof.
  intros (Hl & El & Hd). split; [lia|]. unfold mstr_view_from. rewrite El. destruct (m_data s) as [data|]; cbn [default from_option id]; subst; [by exists [x00]|].
  exists []. by rewrite app_nil_r.
Qed.

(** A view given to a function that changes [s] views [u]. *)
Definition mviews (s : mstr) (v : mview) (u : bytes) : Prop :=
  zlen u < 2 ^ 62 /\ mv_len v = zlen u /\
  match mv_data v with
  | PNull => u = []
  | PExt data => exists rest, data = u ++ rest
  | POwn off => exists t, holds s t /\ is_Some (m_data s) /\ 0 <= off /\ exists pre post, t = pre ++ u ++ post /\ zlen pre = off
  end.

Section Spec.
Context (realloc : option bytes -> Z -> option bytes) (Hrealloc : realloc_ok realloc).

Lemma the_view_spec s v u : mviews s v u -> exists sv, the_view s v = Some sv /\ views sv u.
Proof.
  intros (Hl & El & Hd). unfold the_view, ptr_data. destruct v as [[|off|data] n]; cbn [mv_data mv_len] in *; subst n; sbind.
  - eexists. split; [done|]. split; [lia|]. exists []. by subst u.
  - destruct Hd as (t & (Ht & Et & Hdata) & [data Edata] & Ho & pre & post & -> & <-). rewrite Edata in *. cbn [default from_option id]. subst data.
    assert (Ep : padd ((pre ++ u ++ post) ++ [x00]) (zlen pre) = Some (u ++ post ++ [x00])).
    { unfold padd. rewrite (proj2 (Z.leb_le _ _)), (proj2 (Z.leb_le _ _)) by zl. cbn [andb]. rewrite to_nat_zlen, <- app_assoc, drop_app_length. by rewrite app_assoc. }
    rewrite Ep. sbind. eexists. split; [done|]. apply views_text. lia.
  - destruct Hd as [rest ->]. eexists. split; [done|]. apply views_text. lia.
Qed.

(** An allocation of a size that is asked for fails. *)
Definition alloc_fails : Prop := exists old n, 0 < n <= 2 ^ 62 /\ realloc old n = None.

(** A new length: the text that still fits is kept, the rest is whatever was allocated. *)
Lemma resize_overwrite_spec s t n : holds s t -> 0 <= n < 2 ^ 62 ->
  (mstr_resize_for_overwrite realloc s n = Some (false, s) /\ alloc_fails) \/
  exists junk, mstr_resize_for_overwrite realloc s n = Some (true, MStr (Some (take (Z.to_nat n) t ++ junk ++ [x00])) n) /\
    zlen (take (Z.to_nat n) t ++ junk) = n.
Proof using Hrealloc.
  intros (Hl & El & Hd) Hn. unfold mstr_resize_for_overwrite.
  rewrite (ckdint_spec mlib_add Z.add) by (apply add_exact || auto with clib || (apply in_size; lia) || reflexivity).
  unfold in_typeb. cbn [t_size c_signed c_bits]. rewrite (proj2 (Z.leb_le 0 (n + 1))), (proj2 (Z.ltb_lt (n + 1) (2 ^ 64))) by lia. cbn [andb negb orb].
  change (as_type t_size (n + 1)) with (u64 (n + 1)). rewrite u64_id by lia. unfold PTRDIFF_MAX, INT64_MAX. rewrite (proj2 (Z.ltb_ge _ _)) by lia.
  destruct (realloc (m_data s) (n + 1)) as [data|] eqn:E; [right|left; split; [done|]; exists (m_data s), (n + 1); split; [lia|done]].
  pose proof (realloc_len _ Hrealloc _ _ _ E ltac:(lia)) as Hz. pose proof (realloc_keeps _ Hrealloc _ _ _ E ltac:(lia)) as Hk.
  (* what is kept *)
  set (k := Nat.min (Z.to_nat n) (length t)).
  assert (Hkeep : take (Z.to_nat n) t = take k data).
  { apply (f_equal (take k)) in Hk. rewrite !take_take in Hk.
    rewrite (Nat.min_l k (Z.to_nat (n + 1))) in Hk by (subst k; lia). destruct (m_data s) as [old|]; cbn [default from_option id] in Hk; subst.
    - rewrite length_app in Hk. cbn [length] in Hk. rewrite (Nat.min_l k (length t + 1)) in Hk by (subst k; lia). rewrite <- Hk, take_app_le by (subst k; lia).
      subst k. destruct (decide (Z.to_nat n <= length t)%nat); [by rewrite Nat.min_l by lia|]. rewrite Nat.min_r by lia. by rewrite !take_ge by lia.
    - subst k. cbn [length]. rewrite Nat.min_0_r, take_0. by rewrite take_nil. }
  exists (drop k (take (Z.to_nat n) data)).
  assert (Hdata : take (Z.to_nat n) t ++ drop k (take (Z.to_nat n) data) = take (Z.to_nat n) data).
  { rewrite Hkeep. rewrite <- (take_drop k (take (Z.to_nat n) data)) at 2. f_equal. rewrite take_take. f_equal. lia. }
  rewrite app_assoc, Hdata. split; [|unfold zlen in *; rewrite length_take; lia].
  assert (Es : store data n [x00] = Some (take (Z.to_nat n) data ++ [x00])).
  { unfold store. rewrite (proj2 (Z.leb_le 0 n)), (proj2 (Z.leb_le _ _)) by (change (zlen [x00]) with 1; lia). cbn [andb]. do 2 f_equal.
    change (length [x00]) with 1%nat. rewrite drop_ge by (unfold zlen in *; lia). done. }
  rewrite Es. done.
Qed.

Lemma resize_shrinks s t n : holds s t -> 0 <= n <= zlen t -> is_Some (m_data s) ->
  mstr_resize_for_overwrite realloc s n = Some (true, MStr (Some (take (Z.to_nat n) t ++ [x00])) n).
Proof using Hrealloc.
  intros Hs Hn [data Ed]. pose proof Hs as (Hl & El & Hd). rewrite Ed in Hd. subst data.
  destruct (resize_overwrite_spec s t n Hs ltac:(lia)) as [[E _]|(junk & E & Hz)].
  - exfalso. unfold mstr_resize_for_overwrite in E.
    rewrite (ckdint_spec mlib_add Z.add) in E by (apply add_exact || auto with clib || (apply in_size; lia) || reflexivity).
    unfold in_typeb in E. cbn [t_size c_signed c_bits] in E. rewrite (proj2 (Z.leb_le 0 (n + 1))), (proj2 (Z.ltb_lt (n + 1) (2 ^ 64))) in E by lia. cbn [andb negb orb] in E.
    change (as_type t_size (n + 1)) with (u64 (n + 1)) in E. rewrite u64_id in E by lia. unfold PTRDIFF_MAX, INT64_MAX in E. rewrite (proj2 (Z.ltb_ge _ _)) in E by lia.
    destruct (realloc_shrinks _ Hrealloc (m_data s) (n + 1)) as [new En]; [rewrite Ed; cbn [default from_option id]; rewrite zlen_app; change (zlen [x00]) with 1; lia|].
    rewrite En in E. destruct (store new n [x00]); done.
  - rewrite E. rewrite zlen_app, zlen_take in Hz by lia. assert (junk = []) as -> by (apply zlen_0; lia). done.
Qed.

(** ** [mstr_splice] *)

Lemma size_sub l r : 0 <= r <= l -> l < 2 ^ 62 -> ckdint mlib_sub t_size t_size t_size l r = (false, l - r).
Proof.
  intros. rewrite (ckdint_spec mlib_sub Z.sub) by (apply sub_exact || auto with clib || (apply in_size; lia)).
  unfold in_typeb. cbn [t_size c_signed c_bits]. rewrite (proj2 (Z.leb_le 0 _)), (proj2 (Z.ltb_lt _ _)) by lia. cbn [andb negb].
  change (as_type t_size (l - r)) with (u64 (l - r)). by rewrite u64_id by lia.
Qed.
Lemma size_add l r : 0 <= l -> 0 <= r -> l + r < 2 ^ 64 -> ckdint mlib_add t_size t_size t_size l r = (false, l + r).
Proof.
  intros. rewrite (ckdint_spec mlib_add Z.add) by (apply add_exact || auto with clib || (apply in_size; lia)).
  unfold in_typeb. cbn [t_size c_signed c_bits]. rewrite (proj2 (Z.leb_le 0 _)), (proj2 (Z.ltb_lt _ _)) by lia. cbn [andb negb].
  change (as_type t_size (l + r)) with (u64 (l + r)). by rewrite u64_id by lia.
Qed.

(** The text put in place, after the tail has moved. *)
Lemma splice_end (a X c : bytes) insert u ilen : zlen X = zlen u -> ilen = zlen u ->
  match insert with None => u = [] | Some d => exists rest, d = u ++ rest end ->
  zlen (a ++ u ++ c) < 2 ^ 62 ->
  exists s', (match insert with
   | None => Some (true, MStr (Some (a ++ X ++ c ++ [x00])) (zlen a + zlen u + zlen c))
   | Some insert =>
      text ← slice insert 0 ilen; mut ← store (default [] (Some (a ++ X ++ c ++ [x00]))) (zlen a) text;
      Some (true, MStr (mut' ← Some (a ++ X ++ c ++ [x00]); Some mut) (zlen a + zlen u + zlen c))
   end) = Some (true, s') /\ holds s' (a ++ u ++ c).
Proof.
  intros HX -> Hi Hz. destruct insert as [d|].
  - destruct Hi as [rest ->]. rewrite slice_at_end_0 by done. sbind. cbn [default from_option id]. rewrite store_at by done. sbind.
    eexists. split; [done|]. split; [done|]. cbn [m_len m_data]. split; [zl|]. by rewrite <- !app_assoc.
  - subst u. change (zlen (@nil byte)) with 0 in *. apply zlen_0 in HX as ->. eexists. split; [done|]. split; [done|]. cbn [m_len m_data]. split; [zl|].
    cbn [app]. by rewrite <- !app_assoc.
Qed.

Lemma splice_apart_spec s a b c ndel insert u : holds s (a ++ b ++ c) -> zlen b = Z.min ndel (zlen b + zlen c) -> 0 <= ndel < 2 ^ 64 ->
  match insert with None => u = [] | Some d => exists rest, d = u ++ rest end -> zlen (a ++ b ++ c) + zlen u < 2 ^ 62 ->
  splice_apart realloc s (zlen a) ndel insert (zlen u) = Some (false, s) /\ alloc_fails \/
  exists s', splice_apart realloc s (zlen a) ndel insert (zlen u) = Some (true, s') /\ holds s' (a ++ u ++ c).
Proof using Hrealloc.
  intros Hs Hb Hn Hi Hz. pose proof Hs as (Hl & El & Hd). pose proof (zlen_nonneg a). pose proof (zlen_nonneg b). pose proof (zlen_nonneg c). pose proof (zlen_nonneg u).
  rewrite !zlen_app in *. unfold splice_apart. rewrite El. destruct (Z.leb_spec (zlen a) (zlen a + (zlen b + zlen c))); [|lia]. cbn [negb]. cbv zeta.
  replace (zlen a + (zlen b + zlen c) - zlen a) with (zlen b + zlen c) by lia. rewrite u64_id by lia.
  replace (if zlen b + zlen c <? ndel then zlen b + zlen c else ndel) with (zlen b) by (destruct (Z.ltb_spec (zlen b + zlen c) ndel); lia).
  rewrite size_sub by lia. cbv beta iota. replace (zlen a + (zlen b + zlen c) - zlen b) with (zlen a + zlen c) by lia. rewrite size_add by lia. cbv beta iota.
  replace (zlen b + zlen c - zlen b) with (zlen c) by lia. rewrite (u64_id (zlen c)) by lia.
  destruct (Z.ltb_spec (zlen a + (zlen b + zlen c)) (zlen a + zlen c + zlen u)) as [Hgrow|Hfit].
  - (* grows *)
    destruct (resize_overwrite_spec s (a ++ b ++ c) (zlen a + zlen c + zlen u) Hs ltac:(lia)) as [[E Hf]|(junk & E & Hj)]; rewrite E; sbind; [by left|].
    right. cbn [negb m_data m_len default from_option id]. rewrite take_ge in * by (rewrite !length_app; unfold zlen in *; lia).
    rewrite <- !app_assoc. rewrite (app_assoc a b). rewrite (slice_at (a ++ b) c) by (rewrite ?zlen_app; lia). sbind. rewrite <- (app_assoc a b).
    destruct (split_at (b ++ c ++ junk) (zlen u)) as (X & Y & EX & HX & HY); [rewrite !zlen_app in *; lia|].
    replace (a ++ b ++ c ++ junk ++ [x00]) with ((a ++ X) ++ Y ++ [x00]) by (rewrite <- !app_assoc; f_equal; rewrite (app_assoc X), <- EX, <- !app_assoc; done).
    rewrite (store_at (a ++ X) Y [x00]) by (rewrite ?zlen_app in *; lia). sbind.
    destruct (Z.ltb_spec (zlen a + zlen c + zlen u) (zlen a + zlen c + zlen u)); [lia|]. rewrite <- app_assoc.
    replace (zlen a + zlen c + zlen u) with (zlen a + zlen u + zlen c) by lia. apply splice_end; [done|done|done|rewrite ?zlen_app; lia].
  - (* fits *)
    sbind. cbn [negb]. destruct (m_data s) as [data|] eqn:Ed.
    2: { destruct a; [|done]. destruct b; [|done]. destruct c; [|done]. change (zlen (@nil byte)) with 0 in *. assert (zlen u = 0) as Eu by lia. apply zlen_0 in Eu as ->. right.
         change (zlen (@nil byte)) with 0 in *. cbn. rewrite El. cbn. destruct insert as [d|]; [destruct Hi as [rest ->]; rewrite slice_nil by zl; cbn|]; by exists (MStr None 0). }
    subst data. cbn [default from_option id]. right. rewrite <- !app_assoc. rewrite (app_assoc a b). rewrite (slice_at (a ++ b) c) by (rewrite ?zlen_app; lia). sbind. rewrite <- (app_assoc a b).
    destruct (split_at (b ++ c) (zlen u)) as (X & Y & EX & HX & HY); [rewrite ?zlen_app; lia|]. rewrite zlen_app in HY.
    destruct (split_at Y (zlen c)) as (Y1 & Y2 & -> & HY1 & HY2); [lia|].
    replace (a ++ b ++ c ++ [x00]) with ((a ++ X) ++ Y1 ++ (Y2 ++ [x00])) by (rewrite <- !app_assoc; f_equal; rewrite (app_assoc Y1), (app_assoc X), <- EX, <- !app_assoc; done).
    rewrite (store_at (a ++ X) Y1) by (rewrite ?zlen_app in *; lia). sbind. cbn [m_len]. rewrite El, ?zlen_app.
    destruct (Z.ltb_spec (zlen a + zlen c + zlen u) (zlen a + (zlen b + zlen c))) as [Hs2|Hs2].
    + set (s2 := MStr _ _). assert (Hh : holds s2 ((a ++ X) ++ c ++ Y2)).
      { subst s2. split; [rewrite ?zlen_app; lia|]. cbn [m_len m_data]. split; [rewrite ?zlen_app; lia|]. by rewrite <- !app_assoc. }
      rewrite (resize_shrinks s2 _ (zlen a + zlen c + zlen u) Hh) by (rewrite ?zlen_app; first [lia|by eexists]). sbind. cbn [m_data m_len default from_option id].
      replace (Z.to_nat (zlen a + zlen c + zlen u)) with (length ((a ++ X) ++ c)) by (rewrite !length_app; unfold zlen in *; lia).
      rewrite (app_assoc (a ++ X)), take_app_length, <- !app_assoc. replace (zlen a + zlen c + zlen u) with (zlen a + zlen u + zlen c) by lia.
      apply splice_end; [done|done|done|rewrite ?zlen_app; lia].
    + assert (Y2 = []) as -> by (apply zlen_0; lia). sbind. cbn [m_data m_len default from_option id app]. rewrite <- app_assoc.
      replace (zlen a + (zlen b + zlen c)) with (zlen a + zlen u + zlen c) by lia. apply splice_end; [done|done|done|rewrite ?zlen_app; lia].
Qed.

Lemma overlaps_own s v u : mviews s v u -> _mstr_overlaps s v = match mv_data v with POwn _ => true | _ => false end.
Proof.
  intros (Hl & El & Hd). unfold _mstr_overlaps. destruct (mv_data v) as [|off|data]; try (by destruct (m_data s)).
  destruct Hd as (t & (Ht & Et & _) & [data ->] & Ho & pre & post & -> & <-). rewrite Et, (proj2 (Z.leb_le _ _)), (proj2 (Z.leb_le _ _)) by zl. done.
Qed.

Lemma null_holds : holds mstr_null [].
Proof. done. Qed.

(** A copy is null when the allocation fails. *)
Lemma copy_spec sv u : views sv u -> zlen u < 2 ^ 62 ->
  (mstr_copy realloc sv = Some mstr_null /\ alloc_fails) \/
  mstr_copy realloc sv = Some (MStr (Some (u ++ [x00])) (zlen u)).
Proof using Hrealloc.
  intros Hv Hu. pose proof Hv as (_ & rest & ->). unfold mstr_copy, mstr_assign. cbn [sv_data sv_len]. change (the_view mstr_null (MView (PExt ?d) ?n)) with (Some (View d n)). sbind.
  change (_mstr_overlaps mstr_null _) with false. cbv iota. cbn [mv_len sv_data sv_len].
  destruct (resize_overwrite_spec mstr_null [] (zlen u) null_holds) as [[-> Hf]|(junk & -> & Hj)]; [zl|by left|right]. sbind. cbn [negb m_data m_len].
  rewrite take_nil, app_nil_l in *. rewrite slice_at_end_0 by done. sbind. by rewrite store_at_0 by lia.
Qed.

Lemma splice_spec s a b c ndel v u : holds s (a ++ b ++ c) -> zlen b = Z.min ndel (zlen b + zlen c) -> 0 <= ndel < 2 ^ 64 ->
  mviews s v u -> zlen (a ++ b ++ c) + zlen u < 2 ^ 62 ->
  mstr_splice realloc s (zlen a) ndel v = Some (false, s) /\ alloc_fails \/
  exists s', mstr_splice realloc s (zlen a) ndel v = Some (true, s') /\ holds s' (a ++ u ++ c).
Proof using Hrealloc.
  intros Hs Hb Hn Hv Hz. unfold mstr_splice. destruct (the_view_spec s v u Hv) as (sv & -> & Hsv). sbind. rewrite (overlaps_own s v u Hv).
  pose proof Hv as (Hu & El & Hd). pose proof Hsv as (_ & rest & ->).
  destruct (mv_data v) as [|off|data] eqn:Ev.
  - rewrite El. by apply (splice_apart_spec s a b c ndel None u).
  - destruct (copy_spec _ u Hsv Hu) as [[-> Hf]| ->]; sbind; [by left|]. cbn [m_data m_len]. apply (splice_apart_spec s a b c ndel _ u); try done. by exists [x00].
  - rewrite El. apply (splice_apart_spec s a b c ndel _ u); try done. by exists rest.
Qed.

(** ** [mstr_replace] *)

(** The text before each occurrence, from the left, with the other text after it. *)
Fixpoint replace_text (fuel : nat) (t n u : bytes) : bytes :=
  match fuel with
  | O => t
  | S fuel' =>
      match find_text t n with
      | Some i => take (Z.to_nat i) t ++ u ++ replace_text fuel' (drop (Z.to_nat i + length n) t) n u
      | None => t
      end
  end.
Lemma replace_text_fuel f g t n u : n <> [] -> (length t <= f)%nat -> (length t <= g)%nat -> replace_text f t n u = replace_text g t n u.
Proof.
  intros Hne. assert (Hnil : find_text [] n = None).
  { destruct (find_text [] n) eqn:E; [|done]. apply find_text_bound in E. destruct n; [done|]. rewrite zlen_cons in E. change (zlen (@nil byte)) with 0 in E. pose proof (zlen_nonneg n). lia. }
  revert g t. induction f as [|f IH]; intros [|g] t Hf Hg; cbn [replace_text]; try (assert (t = []) as -> by (destruct t; [done|cbn in *; lia]); by rewrite ?Hnil).
  destruct (find_text t n) eqn:E; [|done]. do 2 f_equal. apply IH; rewrite length_drop; destruct n; try done; cbn [length]; lia.
Qed.

(** The empty text is found around every character. *)
Fixpoint weave (t u : bytes) : bytes := u ++ match t with [] => [] | c :: t' => c :: weave t' u end.
Definition replace_all (t n u : bytes) : bytes := match n with [] => weave t u | _ => replace_text (length t) t n u end.

(** A view that the string does not move. *)
Definition apart (v : mview) (u : bytes) : Prop := zlen u < 2 ^ 62 /\ mv_len v = zlen u /\
  match mv_data v with PNull => u = [] | PExt data => exists rest, data = u ++ rest | POwn _ => False end.
Lemma apart_views s v u : apart v u -> mviews s v u.
Proof. intros (? & ? & H). split; [done|]. split; [done|]. by destruct (mv_data v). Qed.

Lemma replace_loop_stop fuel s nd sub off ok : ok = false \/ m_len s < off -> replace_loop realloc (S fuel) s nd sub off ok = Some (ok, s).
Proof. intros H. cbn [replace_loop]. destruct ok; cbn [andb]; [|done]. by destruct H as [|H]; [|rewrite (proj2 (Z.leb_gt _ _)) by done]. Qed.

Definition replaced (r : option (bool * mstr)) (t : bytes) : Prop :=
  exists ok s', r = Some (ok, s') /\ if (ok : bool) then holds s' t else alloc_fails.

Lemma find_at s d t nd n : holds s (d ++ t) -> views nd n ->
  mstr_find (mstr_view_from s) nd (idx t_size (zlen d)) SIZE_MAX = Some match find_text t n with Some i => i + zlen d | None => SIZE_MAX end.
Proof.
  intros Hs Hn. pose proof Hs as (Hl & _ & _). rewrite zlen_app in Hl. pose proof (zlen_nonneg d). pose proof (zlen_nonneg t).
  rewrite (view_find_spec _ _ _ _ _ (zlen d) SIZE_MAX (holds_view s _ Hs) Hn) by (done || (apply place_size; lia) || (rewrite zlen_app; lia)).
  by rewrite to_nat_zlen, drop_app_length, take_ge by (unfold SIZE_MAX, UINT64_MAX, zlen in *; lia).
Qed.

Lemma replace_loop_spec fuel s d t nd n sub u : holds s (d ++ t) -> views nd n -> n <> [] -> apart sub u -> zlen n < 2 ^ 62 ->
  (length t + 1 < fuel)%nat -> zlen (d ++ t) + (zlen t + 1) * zlen u < 2 ^ 62 ->
  replaced (replace_loop realloc fuel s nd sub (zlen d) true) (d ++ replace_text (length t) t n u).
Proof using Hrealloc.
  revert s d t. induction fuel as [|fuel IH]; intros s d t Hs Hn Hne Hu Hnz Hf Hz; [lia|].
  pose proof Hs as (Hl & El & _). pose proof (zlen_nonneg d). pose proof (zlen_nonneg t). pose proof (zlen_nonneg u). pose proof Hu as (Huz & Eu & _).
  cbn [replace_loop]. rewrite El. rewrite zlen_app in *. rewrite (proj2 (Z.leb_le _ _)) by lia. cbn [andb]. rewrite (find_at s d t nd n Hs Hn). sbind.
  pose proof (find_text_spec t n) as Hft. destruct (find_text t n) as [i|] eqn:Ei.
  2: { rewrite Z.eqb_refl. exists true, s. split; [done|]. destruct t; cbn [length replace_text]; [done|]. by rewrite Ei. }
  pose proof (find_text_bound t n i Ei) as Hib. destruct Hft as (pre & post & Et & Epre & _).
  destruct (Z.eqb_spec (i + zlen d) SIZE_MAX) as [E|_]; [unfold SIZE_MAX, UINT64_MAX in E; pose proof (zlen_nonneg n); lia|].
  assert (Hn1 : 1 <= zlen n) by (destruct n; [done|rewrite zlen_cons; pose proof (zlen_nonneg n); lia]).
  assert (Hlen : zlen t = i + zlen n + zlen post) by (rewrite Et, !zlen_app; lia). pose proof (zlen_nonneg post).
  rewrite (views_len nd n Hn). replace (i + zlen d) with (zlen (d ++ pre)) by (rewrite zlen_app; lia).
  destruct (splice_spec s (d ++ pre) n post (zlen n) sub u) as [[-> Hfail]|(s' & -> & Hs')];
    [by rewrite <- app_assoc, <- Et|lia|lia|by apply apart_views|rewrite !zlen_app; lia|..]; sbind.
  - cbn [andb]. destruct (ckdint mlib_add t_size t_size t_size _ _) as [ovr off']. rewrite (proj2 (Z.eqb_neq (zlen n) 0)) by lia. cbv iota.
    replace (if ovr then false else false) with false by (by destruct ovr). destruct fuel; [lia|]. rewrite replace_loop_stop by (by left). by exists false, s.
  - cbn [andb]. rewrite Eu, size_add by (rewrite ?zlen_app; lia). cbv iota. rewrite (proj2 (Z.eqb_neq (zlen n) 0)) by lia.
    replace (zlen (d ++ pre) + zlen u) with (zlen (d ++ pre ++ u)) by (rewrite !zlen_app; lia).
    destruct (IH s' (d ++ pre ++ u) post) as (ok & s2 & E2 & Hfin); try done.
    + by rewrite <- !app_assoc in *.
    + unfold zlen in *. lia.
    + rewrite !zlen_app. nia.
    + exists ok, s2. split; [done|]. destruct ok; [|done]. destruct t as [|c t]; [destruct pre; [destruct n; done|done]|]. cbn [length replace_text]. rewrite Ei.
      replace (take (Z.to_nat i) (c :: t)) with pre by (rewrite Et, <- Epre, to_nat_zlen, take_app_length; done).
      replace (drop (Z.to_nat i + length n) (c :: t)) with post by (rewrite Et, <- Epre, to_nat_zlen, app_assoc, <- length_app, drop_app_length; done).
      rewrite (replace_text_fuel (length t) (length post) post n u Hne) by (unfold zlen in *; cbn [length] in *; lia). by rewrite <- !app_assoc in *.
Qed.

Lemma weave_loop_spec fuel s d t nd sub u : holds s (d ++ t) -> views nd [] -> apart sub u ->
  (length t + 1 < fuel)%nat -> zlen (d ++ t) + (zlen t + 1) * zlen u < 2 ^ 62 ->
  replaced (replace_loop realloc fuel s nd sub (zlen d) true) (d ++ weave t u).
Proof using Hrealloc.
  revert s d t. induction fuel as [|fuel IH]; intros s d t Hs Hn Hu Hf Hz; [lia|].
  pose proof Hs as (Hl & El & _). pose proof (zlen_nonneg d). pose proof (zlen_nonneg t). pose proof (zlen_nonneg u). pose proof Hu as (Huz & Eu & _).
  cbn [replace_loop]. rewrite El. rewrite zlen_app in *. rewrite (proj2 (Z.leb_le _ _)) by lia. cbn [andb]. rewrite (find_at s d t nd [] Hs Hn). sbind.
  replace (find_text t []) with (Some 0) by (by destruct t). cbv iota. rewrite Z.add_0_l.
  destruct (Z.eqb_spec (zlen d) SIZE_MAX) as [E|_]; [unfold SIZE_MAX, UINT64_MAX in E; lia|]. rewrite (views_len nd [] Hn). change (zlen (@nil byte)) with 0.
  destruct (splice_spec s d [] t 0 sub u) as [[-> Hfail]|(s' & -> & Hs')]; [done|change (zlen (@nil byte)) with 0; lia|lia|by apply apart_views|cbn [app]; rewrite zlen_app; nia|..]; sbind; cbn [andb].
  - destruct (ckdint mlib_add t_size t_size t_size _ _) as [ovr off']. rewrite Z.eqb_refl. destruct (ckdint mlib_add t_size t_size t_int _ _) as [ovr2 off2].
    replace (if ovr2 then false else if ovr then false else false) with false by (by destruct ovr2, ovr). destruct fuel; [lia|]. rewrite replace_loop_stop by (by left). by exists false, s.
  - rewrite Eu, size_add by nia. cbv iota. rewrite Z.eqb_refl.
    rewrite (ckdint_spec mlib_add Z.add) by (apply add_exact || auto with clib || (apply in_size; nia) || reflexivity).
    unfold in_typeb. cbn [t_size c_signed c_bits]. rewrite (proj2 (Z.leb_le 0 _)), (proj2 (Z.ltb_lt _ _)) by nia. cbn [andb negb].
    change (as_type t_size ?x) with (u64 x). rewrite u64_id by nia. destruct t as [|c t].
    + destruct fuel; [lia|]. cbn [weave]. rewrite replace_loop_stop by (right; rewrite (proj1 (proj2 Hs')), !zlen_app; change (zlen (@nil byte)) with 0; lia). by exists true, s'.
    + rewrite zlen_cons in *. replace (zlen d + zlen u + 1) with (zlen (d ++ u ++ [c])) by (rewrite !zlen_app; change (zlen [c]) with 1; lia).
      destruct (IH s' (d ++ u ++ [c]) t) as (ok & s2 & E2 & Hfin); try done.
      * by rewrite <- !app_assoc.
      * cbn [length] in Hf. lia.
      * rewrite !zlen_app. change (zlen [c]) with 1. nia.
      * exists ok, s2. split; [done|]. destruct ok; [|done]. cbn [weave]. by rewrite <- !app_assoc in *.
Qed.

Lemma replace_views_spec s t nd n sub u : holds s t -> views nd n -> apart sub u -> zlen n < 2 ^ 62 -> zlen t + (zlen t + 1) * zlen u < 2 ^ 62 ->
  replaced (replace_loop realloc (Z.to_nat (m_len s) + 2) s nd sub 0 true) (replace_all t n u).
Proof using Hrealloc.
  intros Hs Hn Hu Hnz Hz. pose proof Hs as (_ & -> & _). unfold replace_all. destruct n as [|c n].
  - apply (weave_loop_spec _ s [] t nd sub u); try done. unfold zlen. lia.
  - apply (replace_loop_spec _ s [] t nd (c :: n) sub u); try done. unfold zlen. lia.
Qed.

(** [needle] may point into the string; [sub] may not. *)
Lemma replace_spec s t needle n sub u : holds s t -> mviews s needle n -> apart sub u -> zlen t + (zlen t + 1) * zlen u < 2 ^ 62 ->
  replaced (mstr_replace realloc s needle sub) (replace_all t n u).
Proof using Hrealloc.
  intros Hs Hn Hu Hz. pose proof Hn as (Hnz & _ & _). unfold mstr_replace. destruct (the_view_spec s needle n Hn) as (nv & -> & Hnv). sbind.
  pose proof (overlaps_own s sub u (apart_views s sub u Hu)) as Eo. replace (match mv_data sub with POwn _ => true | _ => false end) with false in Eo by (by destruct Hu as (_ & _ & Hu), (mv_data sub)).
  destruct (the_view_spec s sub u (apart_views s sub u Hu)) as (sv & Esv & _).
  destruct (_mstr_overlaps s needle); [destruct (copy_spec nv n Hnv Hnz) as [[-> Hf]| ->]|]; sbind; rewrite Esv; sbind; rewrite Eo.
  - cbn. destruct (Z.to_nat (m_len s) + 2)%nat eqn:E; [lia|]. rewrite replace_loop_stop by (by left). by exists false, s.
  - rewrite andb_false_r. cbn [m_data]. rewrite bool_decide_true by (by eexists). sbind. apply replace_views_spec; try done.
    unfold mstr_view_from. cbn [m_data m_len default from_option id]. split; [cbn [sv_len]; lia|by exists [x00]].
  - cbn [andb]. sbind. by apply replace_views_spec.
Qed.

(** When only [sub] points into the string nothing is replaced. *)
Lemma replace_refuses s t needle n off len u : holds s t -> apart needle n -> mviews s (MView (POwn off) len) u ->
  mstr_replace realloc s needle (MView (POwn off) len) = Some (false, s).
Proof using Hrealloc.
  intros Hs Hn Hu. unfold mstr_replace. destruct (the_view_spec s needle n (apart_views s needle n Hn)) as (nv & -> & _). sbind.
  rewrite (overlaps_own s needle n (apart_views s needle n Hn)). replace (match mv_data needle with POwn _ => true | _ => false end) with false by (by destruct Hn as (_ & _ & Hn), (mv_data needle)).
  sbind. destruct (the_view_spec s _ u Hu) as (sv & -> & Hsv). sbind. rewrite (overlaps_own s _ u Hu). cbn [mv_data andb]. pose proof Hu as (Huz & _ & _).
  destruct (copy_spec sv u Hsv Huz) as [[-> _]| ->]; sbind; cbn [m_data mstr_null]; rewrite bool_decide_false by (by intros []);
    (destruct (Z.to_nat (m_len s) + 2)%nat eqn:E; [lia|]); apply replace_loop_stop; by left.
Qed.
End Spec.

Lemma realloc_junk_ok : realloc_ok realloc_junk.
Proof.
  split; unfold realloc_junk.
  - intros old n new [= <-] Hn. unfold zlen. rewrite length_app, length_take, length_replicate. lia.
  - intros old n new [= <-] Hn. destruct (decide (Z.to_nat n <= length (default [] old))%nat).
    + replace (Z.to_nat n - length (default [] old))%nat with 0%nat by lia. cbn [replicate]. rewrite app_nil_r, take_take. by rewrite Nat.min_r by lia.
    + rewrite (take_ge (default [] old)) by lia. by rewrite take_app_length.
  - by eexists.
Qed.
