(* ===== verification/MlibTheorems.v ===== *)
(** The main results on the helpers of [mlib]: checked arithmetic, integers from text,
    and strings. *)

From Stdlib Require Import Strings.String.
From S2P Require Import Prelude CString Text Calendar Ckdint MlibStr IntParse MlibMstr.

(** C37. Checked arithmetic: for operands of any integer types of up to 64 bits, signed or
    not, and a destination of any of them, [mlib_add], [mlib_sub] and [mlib_mul] say
    that the result overflowed exactly when the integer the operands have for sum,
    difference or product is not one of the destination's type, and write that integer
    wrapped around to the type; so without an overflow what is written is exact. *)
Theorem ckdint_exact fn op dst A B l r :
  (fn, op) ∈ [(mlib_add, Z.add); (mlib_sub, Z.sub); (mlib_mul, Z.mul)] ->
  ctype_ok dst -> ctype_ok A -> ctype_ok B -> in_type A l -> in_type B r ->
  ckdint fn dst A B l r = (negb (in_typeb dst (op l r)), as_type dst (op l r)) /\
  (in_type dst (op l r) -> as_type dst (op l r) = op l r).
Proof.
  intros Hfn Hd HA HB Hl Hr. split; [|by apply as_type_id].
  assert (He : exact fn op).
  { rewrite !elem_of_cons, elem_of_nil in Hfn. destruct Hfn as [[= -> ->]|[[= -> ->]|[[= -> ->]|[]]]]; [apply add_exact|apply sub_exact|apply mul_exact]. }
  by apply ckdint_spec.
Qed.

Lemma ckdint_exact_witness :
  ckdint mlib_mul t_int64 t_uint64 t_int (2 ^ 63) (-1) = (false, - 2 ^ 63) /\ ckdint mlib_mul t_int64 t_uint64 t_int (2 ^ 63) 1 = (true, - 2 ^ 63).
Proof.
  assert (Hm : (mlib_mul, Z.mul) ∈ [(mlib_add, Z.add); (mlib_sub, Z.sub); (mlib_mul, Z.mul)]) by (do 2 apply list_elem_of_further; apply list_elem_of_here).
  assert (H64 : ctype_ok t_int64 /\ ctype_ok t_uint64 /\ ctype_ok t_int) by (unfold ctype_ok; cbn; tauto). destruct H64 as (H1 & H2 & H3).
  split.
  - destruct (ckdint_exact mlib_mul Z.mul t_int64 t_uint64 t_int (2 ^ 63) (-1) Hm H1 H2 H3) as [E _]; [vm_compute; reflexivity|vm_compute; reflexivity|].
    rewrite E. vm_compute. reflexivity.
  - destruct (ckdint_exact mlib_mul Z.mul t_int64 t_uint64 t_int (2 ^ 63) 1 Hm H1 H2 H3) as [E _]; [vm_compute; reflexivity|vm_compute; reflexivity|].
    rewrite E. vm_compute. reflexivity.
Defined.

(** C38. Integers from text: [mlib_i64_parse] and [mlib_i32_parse] answer for any text, in any
    base: the integer that the sign, the prefix of the base and the digits spell when it
    is one of 64 or 32 bits, a range error when it is not, even when the digits overflow
    64 bits, and an invalid argument when the text spells none; and the decimal text
    of each integer of 64 bits is parsed back to it. *)
Theorem int_parse_exact base t s : 0 <= base < 2 ^ 32 -> views s t ->
  mlib_i64_parse s base = Some (in_result t_int64 (int_value base t)) /\
  mlib_i32_parse s base = Some (in_result t_int32 (int_value base t)) /\
  (forall z, base = 0 \/ base = 10 -> t = sdec z -> - 2 ^ 63 <= z < 2 ^ 63 -> mlib_i64_parse s base = Some (inr z)).
Proof.
  intros Hb Hs. split; [by apply i64_parse_spec|]. split; [by apply i32_parse_spec|].
  intros z Hb' -> Hz. rewrite (i64_parse_spec base (sdec z) s Hb Hs), int_text by done. unfold in_result.
  assert (in_typeb t_int64 z = true) as ->; [|done]. unfold in_typeb. cbn. lia.
Qed.

Lemma int_parse_exact_witness :
  mlib_i64_parse (of_text (txt "-0x80000000")) 0 = Some (inr (-2147483648)) /\ mlib_i32_parse (of_text (txt "2147483648")) 10 = Some (inl ERANGE).
Proof.
  split.
  - destruct (int_parse_exact 0 (txt "-0x80000000") (of_text (txt "-0x80000000"))) as (E & _); [lia|split; [vm_compute; reflexivity|by exists []]|].
    rewrite E. vm_compute. reflexivity.
  - destruct (int_parse_exact 10 (txt "2147483648") (of_text (txt "2147483648"))) as (_ & E & _); [lia|split; [vm_compute; reflexivity|by exists []]|].
    rewrite E. vm_compute. reflexivity.
Defined.

(** C35. Splicing: with any allocator, [mstr_splice] of a text, from the string itself or from
    elsewhere, at a place of a string takes out the characters asked for, as far as there
    are any, puts the text in their place and keeps the rest, terminated; or it says that
    it failed, which happens only when an allocation did, and the string is unchanged. *)
Theorem mstr_splice_exact realloc s a b c n_delete v u :
  realloc_ok realloc -> holds s (a ++ b ++ c) -> zlen b = Z.min n_delete (zlen b + zlen c) -> 0 <= n_delete < 2 ^ 64 ->
  mviews s v u -> zlen (a ++ b ++ c) + zlen u < 2 ^ 62 ->
  (mstr_splice realloc s (zlen a) n_delete v = Some (false, s) /\ alloc_fails realloc) \/
  exists s', mstr_splice realloc s (zlen a) n_delete v = Some (true, s') /\ holds s' (a ++ u ++ c).
Proof. intros Hrealloc. by apply splice_spec. Qed.

Lemma mstr_splice_exact_witness : exists s',
  mstr_splice realloc_junk (of_string "abcdef") 1 2 (MView (POwn 3) 3) = Some (true, s') /\ holds s' (txt "adefdef").
Proof.
  destruct (mstr_splice_exact realloc_junk (of_string "abcdef") (txt "a") (txt "bc") (txt "def") 2 (MView (POwn 3) 3) (txt "def") realloc_junk_ok) as [[_ (old & n & _ & E)]|(s' & E & H)].
  - split; [vm_compute; reflexivity|]. split; vm_compute; reflexivity.
  - vm_compute. reflexivity.
  - lia.
  - split; [vm_compute; reflexivity|]. split; [vm_compute; reflexivity|]. exists (txt "abcdef"). split; [split; [vm_compute; reflexivity|]; split; vm_compute; reflexivity|].
    split; [by eexists|]. split; [lia|]. exists (txt "abc"), []. split; vm_compute; reflexivity.
  - vm_compute. reflexivity.
  - discriminate E.
  - exists s'. split; [exact E|exact H].
Defined.

(** C36. Replacing: [mstr_replace] of each occurrence of a text, from the left, by another one
    that is not of the string itself ends, and the string holds its text with the
    occurrences replaced, an empty text being found around every character; or it
    says that it failed, only when an allocation did. When the other text is of
    the string itself and the one to find is not, it fails and changes nothing. *)
Theorem mstr_replace_exact realloc s t needle n : realloc_ok realloc -> holds s t -> mviews s needle n ->
  (forall sub u, apart sub u -> zlen t + (zlen t + 1) * zlen u < 2 ^ 62 ->
    exists ok s', mstr_replace realloc s needle sub = Some (ok, s') /\ if ok then holds s' (replace_all t n u) else alloc_fails realloc) /\
  (forall off len u, apart needle n -> mviews s (MView (POwn off) len) u -> mstr_replace realloc s needle (MView (POwn off) len) = Some (false, s)).
Proof.
  intros Hrealloc Hs Hn. split.
  - intros sub u Hu Hz. by apply replace_spec.
  - intros off len u Hn' Hu. by apply (replace_refuses realloc Hrealloc s t needle n off len u).
Qed.

Lemma mstr_replace_exact_witness :
  (exists s', mstr_replace realloc_junk (of_string "a-b--c") (ext "-") (ext "::") = Some (true, s') /\ holds s' (txt "a::b::::c")) /\
  mstr_replace realloc_junk (of_string "a-b--c") (ext "-") (MView (POwn 2) 1) = Some (false, of_string "a-b--c").
Proof.
  destruct (mstr_replace_exact realloc_junk (of_string "a-b--c") (txt "a-b--c") (ext "-") (txt "-") realloc_junk_ok) as [H1 H2].
  - split; [vm_compute; reflexivity|]. split; vm_compute; reflexivity.
  - split; [vm_compute; reflexivity|]. split; [vm_compute; reflexivity|]. by exists [].
  - split.
    + destruct (H1 (ext "::") (txt "::")) as ([] & s' & E & H).
      * split; [vm_compute; reflexivity|]. split; [vm_compute; reflexivity|]. by exists [].
      * vm_compute. reflexivity.
      * exists s'. split; [exact E|]. vm_compute in H. exact H.
      * destruct H as (old & k & _ & H). discriminate H.
    + apply (H2 2 1 (txt "b")).
      * split; [vm_compute; reflexivity|]. split; [vm_compute; reflexivity|]. by exists [].
      * split; [vm_compute; reflexivity|]. split; [vm_compute; reflexivity|]. exists (txt "a-b--c"). split; [split; [vm_compute; reflexivity|]; split; vm_compute; reflexivity|].
        split; [by eexists|]. split; [lia|]. exists (txt "a-"), (txt "--c"). split; vm_compute; reflexivity.
Defined.
