(* ===== verification/BsonVector.v ===== *)
(** Vectors: binaries of subtype 9 that hold integers of 8 bits, floats of 32 bits or
    packed bits ([bson-vector.c], [bson-vector.h], [bson-vector-private.h]). *)

From Stdlib Require Import Strings.String.
From S2P Require Import Prelude IntEncode CString Text BsonTypes BsonIter BsonSpec BsonView BsonT BsonKeys BsonAppend Calendar.

Definition BSON_VECTOR_HEADER_LEN : Z := 2.
Definition BSON_VECTOR_ERROR_ARRAY_ELEMENT_TYPE : Z := 1.
Definition BSON_VECTOR_ERROR_ARRAY_ELEMENT_VALUE : Z := 2.
Definition BSON_VECTOR_ERROR_ARRAY_KEY : Z := 3.
Definition BSON_VECTOR_ERROR_MAX_SIZE : Z := 4.

(** ** The header *)

Inductive bson_vector_element_type_t :=
  BSON_VECTOR_ELEMENT_SIGNED_INT | BSON_VECTOR_ELEMENT_UNSIGNED_INT | BSON_VECTOR_ELEMENT_FLOAT.
Inductive bson_vector_element_size_t :=
  BSON_VECTOR_ELEMENT_1_BIT | BSON_VECTOR_ELEMENT_8_BITS | BSON_VECTOR_ELEMENT_32_BITS.
Definition element_type_code (t : bson_vector_element_type_t) : Z :=
  match t with BSON_VECTOR_ELEMENT_SIGNED_INT => 0 | BSON_VECTOR_ELEMENT_UNSIGNED_INT => 1 | BSON_VECTOR_ELEMENT_FLOAT => 2 end.
Definition element_size_code (s : bson_vector_element_size_t) : Z :=
  match s with BSON_VECTOR_ELEMENT_1_BIT => 0 | BSON_VECTOR_ELEMENT_8_BITS => 3 | BSON_VECTOR_ELEMENT_32_BITS => 7 end.

Definition bson_vector_header_byte_0 (element_type : bson_vector_element_type_t) (element_size : bson_vector_element_size_t) : option Z :=
  if negb (element_type_code element_type <=? 0x0f) || negb (element_size_code element_size <=? 0x0f) then None
  else Some (u8 (Z.lor (Z.shiftl (element_type_code element_type) 4) (element_size_code element_size))).
Definition bson_vector_header_byte_1 (padding : Z) : option Z := if padding <=? 7 then Some (u8 padding) else None.
Definition bson_vector_padding_from_header_byte_1 (byte_1 : Z) : Z := Z.land byte_1 7.

(** [bson_vector_binary_header_impl_t]: [bytes[0]] and [bytes[1]]. *)
Record header_impl := Header { hb0 : Z; hb1 : Z }.
Definition header_bytes (h : header_impl) : bytes := [z2b (hb0 h); z2b (hb1 h)].

Definition bson_vector_binary_header_impl_init (binary_data : bytes) (binary_data_len : Z) : option (option header_impl) :=
  if BSON_VECTOR_HEADER_LEN <=? binary_data_len then
    b0 ← rd binary_data 0; b1 ← rd binary_data 1; Some (Some (Header (b2z b0) (b2z b1)))
  else Some None.

Definition bson_vector_int8_validate (header : header_impl) : option bool :=
  b0 ← bson_vector_header_byte_0 BSON_VECTOR_ELEMENT_SIGNED_INT BSON_VECTOR_ELEMENT_8_BITS;
  b1 ← bson_vector_header_byte_1 0;
  Some ((hb0 header =? b0) && (hb1 header =? b1)).
Definition bson_vector_float32_validate (header : header_impl) (binary_data_len : Z) : option bool :=
  b0 ← bson_vector_header_byte_0 BSON_VECTOR_ELEMENT_FLOAT BSON_VECTOR_ELEMENT_32_BITS;
  b1 ← bson_vector_header_byte_1 0;
  Some ((u32 (binary_data_len - BSON_VECTOR_HEADER_LEN) mod 4 =? 0) && (hb0 header =? b0) && (hb1 header =? b1)).
Definition bson_vector_packed_bit_validate (header : header_impl) (binary_data : bytes) (binary_data_len : Z) : option bool :=
  b0 ← bson_vector_header_byte_0 BSON_VECTOR_ELEMENT_UNSIGNED_INT BSON_VECTOR_ELEMENT_1_BIT;
  if negb (hb0 header =? b0) then Some false else
  let padding := bson_vector_padding_from_header_byte_1 (hb1 header) in
  b1 ← bson_vector_header_byte_1 padding;
  if negb (hb1 header =? b1) then Some false else
  let vector_data_len := u32 (binary_data_len - BSON_VECTOR_HEADER_LEN) in
  if vector_data_len =? 0 then Some (padding =? 0) else
  last_data_byte ← rd binary_data (u32 (binary_data_len - 1));
  let mask_of_unused_bits := u8 (u32 (Z.shiftl 1 padding - 1)) in
  Some (Z.land (b2z last_data_byte) mask_of_unused_bits =? 0).

(** ** Views *)

(** What the data of a view points into: readable bytes, or a binary inside a document
    that is being built. *)
Class VectorMem (M : Type) := {
  vm_get : M -> Z -> Z -> option bytes;
  vm_put : M -> Z -> bytes -> option M
}.
#[export] Instance bytes_mem : VectorMem bytes := { vm_get := slice; vm_put := store }.

(** The binary starts at [dm_off] of the document's data. *)
Record doc_mem := DocMem { dm_heap : heap; dm_bson : bson_t; dm_off : Z }.
#[export] Instance doc_vector_mem : VectorMem doc_mem := {
  vm_get m o n := d ← _bson_data (dm_heap m) (dm_bson m); slice d (dm_off m + o) n;
  vm_put m o s := '(h, b) ← bson_store (dm_heap m) (dm_bson m) (dm_off m + o) s; Some (DocMem h b (dm_off m))
}.

(** [bson_vector_binary_view_impl_t], const or not. *)
Record vector_view (M : Type) := VView { vv_data : M; vv_data_len : Z; vv_header : header_impl }.
#[global] Arguments VView {M}.
#[global] Arguments vv_data {M}.
#[global] Arguments vv_data_len {M}.
#[global] Arguments vv_header {M}.

(** [None] inside is false. *)
Definition view_init (validate : header_impl -> option bool) (binary_data : bytes) (binary_data_len : Z) : option (option (vector_view bytes)) :=
  header ← bson_vector_binary_header_impl_init binary_data binary_data_len;
  match header with
  | None => Some None
  | Some header => ok ← validate header; Some (if (ok : bool) then Some (VView binary_data binary_data_len header) else None)
  end.
Definition bson_vector_int8_view_init (binary_data : bytes) (binary_data_len : Z) :=
  view_init bson_vector_int8_validate binary_data binary_data_len.
Definition bson_vector_int8_const_view_init (binary_data : bytes) (binary_data_len : Z) :=
  view_init bson_vector_int8_validate binary_data binary_data_len.
Definition bson_vector_float32_view_init (binary_data : bytes) (binary_data_len : Z) :=
  view_init (fun header => bson_vector_float32_validate header binary_data_len) binary_data binary_data_len.
Definition bson_vector_float32_const_view_init (binary_data : bytes) (binary_data_len : Z) :=
  view_init (fun header => bson_vector_float32_validate header binary_data_len) binary_data binary_data_len.
Definition bson_vector_packed_bit_view_init (binary_data : bytes) (binary_data_len : Z) :=
  view_init (fun header => bson_vector_packed_bit_validate header binary_data binary_data_len) binary_data binary_data_len.
Definition bson_vector_packed_bit_const_view_init (binary_data : bytes) (binary_data_len : Z) :=
  view_init (fun header => bson_vector_packed_bit_validate header binary_data binary_data_len) binary_data binary_data_len.

(** A view of the binary the iterator is at. *)
Definition view_from_iter (init : bytes -> Z -> option (option (vector_view bytes))) (iter : bson_iter_t) : option (option (vector_view bytes)) :=
  holds ← iter_holds BSON_TYPE_BINARY iter;
  if negb holds then Some None else
  '(binary, binary_len) ← bson_iter_overwrite_binary iter BSON_SUBTYPE_VECTOR;
  match binary with None => Some None | Some binary => init binary binary_len end.
Definition const_view_from_iter (init : bytes -> Z -> option (option (vector_view bytes))) (iter : bson_iter_t) : option (option (vector_view bytes)) :=
  holds ← iter_holds BSON_TYPE_BINARY iter;
  if negb holds then Some None else
  '(subtype, binary_len, binary) ← bson_iter_binary iter true;
  match binary with
  | None => Some None
  | Some binary => if subtype =? BSON_SUBTYPE_VECTOR then init binary binary_len else Some None
  end.
Definition bson_vector_int8_view_from_iter := view_from_iter bson_vector_int8_view_init.
Definition bson_vector_int8_const_view_from_iter := const_view_from_iter bson_vector_int8_const_view_init.
Definition bson_vector_float32_view_from_iter := view_from_iter bson_vector_float32_view_init.
Definition bson_vector_float32_const_view_from_iter := const_view_from_iter bson_vector_float32_const_view_init.
Definition bson_vector_packed_bit_view_from_iter := view_from_iter bson_vector_packed_bit_view_init.
Definition bson_vector_packed_bit_const_view_from_iter := const_view_from_iter bson_vector_packed_bit_const_view_init.

(** ** Lengths *)

(** On a machine where [size_t] has 64 bits. *)
Definition bson_vector_int8_binary_data_length (element_count : Z) : Z :=
  let max_representable := UINT32_MAX - BSON_VECTOR_HEADER_LEN in
  if max_representable <? element_count then 0 else u32 (u32 element_count + BSON_VECTOR_HEADER_LEN).
Definition bson_vector_float32_binary_data_length (element_count : Z) : Z :=
  let max_representable := (UINT32_MAX - BSON_VECTOR_HEADER_LEN) / 4 in
  if max_representable <? element_count then 0 else u32 (u32 element_count * 4 + BSON_VECTOR_HEADER_LEN).
Definition bson_vector_packed_bit_binary_data_length (element_count : Z) : Z :=
  let max_representable := Z.min UINT64_MAX ((UINT32_MAX - BSON_VECTOR_HEADER_LEN) * 8) in
  if max_representable <? element_count then 0 else u32 (u32 (u64 (element_count + 7) / 8) + BSON_VECTOR_HEADER_LEN).

Section Access.
Context {M : Type} `{VectorMem M}.
Implicit Types view : vector_view M.

Definition bson_vector_int8_const_view_length view : Z := u32 (vv_data_len view - BSON_VECTOR_HEADER_LEN).
Definition bson_vector_int8_view_length view : Z := bson_vector_int8_const_view_length view.
Definition bson_vector_float32_const_view_length view : Z := u32 (vv_data_len view - BSON_VECTOR_HEADER_LEN) / 4.
Definition bson_vector_float32_view_length view : Z := bson_vector_float32_const_view_length view.
Definition bson_vector_packed_bit_const_view_length_bytes view : Z := u32 (vv_data_len view - BSON_VECTOR_HEADER_LEN).
Definition bson_vector_packed_bit_view_length_bytes view : Z := bson_vector_packed_bit_const_view_length_bytes view.
Definition bson_vector_packed_bit_const_view_padding view : Z := bson_vector_padding_from_header_byte_1 (hb1 (vv_header view)).
Definition bson_vector_packed_bit_view_padding view : Z := bson_vector_packed_bit_const_view_padding view.
Definition bson_vector_packed_bit_const_view_length view : Z :=
  u64 (u64 (bson_vector_packed_bit_const_view_length_bytes view * 8) - bson_vector_packed_bit_const_view_padding view).
Definition bson_vector_packed_bit_view_length view : Z := bson_vector_packed_bit_const_view_length view.

(** ** Reading and writing elements *)

Definition in_bounds (length element_count vector_offset_elements : Z) : bool :=
  (vector_offset_elements <=? length) && (element_count <=? u64 (length - vector_offset_elements)).
Definition put view (o : Z) (s : bytes) : option (vector_view M) :=
  m ← vm_put (vv_data view) o s; Some (VView m (vv_data_len view) (vv_header view)).

(** [None] inside is false. *)
Definition bson_vector_int8_const_view_read view (element_count vector_offset_elements : Z) : option (option bytes) :=
  let length := bson_vector_int8_const_view_length view in
  if in_bounds length element_count vector_offset_elements then
    s ← vm_get (vv_data view) (BSON_VECTOR_HEADER_LEN + vector_offset_elements) element_count; Some (Some s)
  else Some None.
(** The offset is a [uint32_t] here. *)
Definition bson_vector_int8_view_read view (element_count vector_offset_elements : Z) : option (option bytes) :=
  bson_vector_int8_const_view_read view element_count (u32 vector_offset_elements).
Definition bson_vector_int8_view_write view (values : bytes) (element_count vector_offset_elements : Z) : option (bool * vector_view M) :=
  let length := bson_vector_int8_view_length view in
  if in_bounds length element_count vector_offset_elements then
    s ← slice values 0 element_count;
    view ← put view (BSON_VECTOR_HEADER_LEN + vector_offset_elements) s; Some (true, view)
  else Some (false, view).

(** Floats are the bits they have. *)
Fixpoint floats_of (n : nat) (s : bytes) : list Z :=
  match n with O => [] | S n' => le_val (take 4 s) :: floats_of n' (drop 4 s) end.
Definition bytes_of_floats (values : list Z) : bytes := values ≫= le_bytes 4.
Definition bson_vector_float32_const_view_read view (element_count vector_offset_elements : Z) : option (option (list Z)) :=
  let length := bson_vector_float32_const_view_length view in
  if in_bounds length element_count vector_offset_elements then
    let byte_offset := u64 (BSON_VECTOR_HEADER_LEN + vector_offset_elements * 4) in
    s ← vm_get (vv_data view) byte_offset (u64 (element_count * 4)); Some (Some (floats_of (Z.to_nat element_count) s))
  else Some None.
Definition bson_vector_float32_view_read view (element_count vector_offset_elements : Z) :=
  bson_vector_float32_const_view_read view element_count vector_offset_elements.
Definition bson_vector_float32_view_write view (values : list Z) (element_count vector_offset_elements : Z) : option (bool * vector_view M) :=
  let length := bson_vector_float32_view_length view in
  if in_bounds length element_count vector_offset_elements then
    let byte_offset := u64 (BSON_VECTOR_HEADER_LEN + vector_offset_elements * 4) in
    s ← slice (bytes_of_floats values) 0 (u64 (element_count * 4));
    view ← put view byte_offset s; Some (true, view)
  else Some (false, view).

Definition bson_vector_packed_bit_const_view_read_packed view (byte_count vector_offset_bytes : Z) : option (option bytes) :=
  let length_bytes := bson_vector_packed_bit_const_view_length_bytes view in
  if in_bounds length_bytes byte_count vector_offset_bytes then
    s ← vm_get (vv_data view) (BSON_VECTOR_HEADER_LEN + vector_offset_bytes) byte_count; Some (Some s)
  else Some None.
Definition bson_vector_packed_bit_view_read_packed view (byte_count vector_offset_bytes : Z) :=
  bson_vector_packed_bit_const_view_read_packed view byte_count vector_offset_bytes.

(** The last byte of the vector keeps its unused bits zero. *)
Definition bson_vector_packed_bit_view_write_packed view (packed_values : bytes) (byte_count vector_offset_bytes : Z) : option (bool * vector_view M) :=
  let length_bytes := bson_vector_packed_bit_view_length_bytes view in
  if in_bounds length_bytes byte_count vector_offset_bytes then
    if (byte_count =? u64 (length_bytes - vector_offset_bytes)) && (1 <=? byte_count) then
      let other_bytes := byte_count - 1 in
      s ← slice packed_values 0 other_bytes;
      view ← put view (BSON_VECTOR_HEADER_LEN + vector_offset_bytes) s;
      last ← rd packed_values other_bytes;
      let c := u8 (Z.land (Z.shiftl 0xFF (bson_vector_packed_bit_view_padding view)) (b2z last)) in
      view ← put view (BSON_VECTOR_HEADER_LEN + vector_offset_bytes + other_bytes) [z2b c];
      Some (true, view)
    else
      s ← slice packed_values 0 byte_count;
      view ← put view (BSON_VECTOR_HEADER_LEN + vector_offset_bytes) s; Some (true, view)
  else Some (false, view).

(** The byte an element is in. *)
Definition packed_byte view (element_index : Z) : option Z :=
  s ← vm_get (vv_data view) (BSON_VECTOR_HEADER_LEN + Z.shiftr element_index 3) 1; c ← rd s 0; Some (b2z c).

Fixpoint unpack_loop (n : nat) view (element_index : Z) : option (list bool) :=
  match n with
  | O => Some []
  | S n' =>
      c ← packed_byte view element_index;
      let v := negb (Z.land c (Z.shiftr 0x80 (Z.land element_index 7)) =? 0) in
      vs ← unpack_loop n' view (element_index + 1); Some (v :: vs)
  end.
Definition bson_vector_packed_bit_const_view_unpack_bool view (element_count vector_offset_elements : Z) : option (option (list bool)) :=
  let length := bson_vector_packed_bit_const_view_length view in
  if in_bounds length element_count vector_offset_elements
  then vs ← unpack_loop (Z.to_nat element_count) view vector_offset_elements; Some (Some vs)
  else Some None.
Definition bson_vector_packed_bit_view_unpack_bool view (element_count vector_offset_elements : Z) :=
  bson_vector_packed_bit_const_view_unpack_bool view element_count vector_offset_elements.

Fixpoint complete_byte (n : nat) (values : list bool) (i : Z) : option Z :=
  match n, values with
  | O, _ => Some 0
  | S n', v :: values => c ← complete_byte n' values (i + 1); Some (Z.lor (if (v : bool) then Z.shiftr 0x80 i else 0) c)
  | S _, [] => None
  end.
Fixpoint pack_loop (fuel : nat) view (unpacked_values : list bool) (element_count vector_offset_elements : Z) : option (vector_view M) :=
  match fuel with
  | O => None
  | S fuel' =>
      if 0 <? element_count then
        let byte_at := BSON_VECTOR_HEADER_LEN + Z.shiftr vector_offset_elements 3 in
        if (8 <=? element_count) && (Z.land vector_offset_elements 7 =? 0) then
          c ← complete_byte 8 unpacked_values 0;
          view ← put view byte_at [z2b c];
          pack_loop fuel' view (drop 8 unpacked_values) (element_count - 8) (vector_offset_elements + 8)
        else
          let mask := u8 (Z.shiftr 0x80 (Z.land vector_offset_elements 7)) in
          old ← packed_byte view vector_offset_elements;
          v ← head unpacked_values;
          let c := u8 (Z.lor (Z.land old (Z.lnot mask)) (if (v : bool) then mask else 0)) in
          view ← put view byte_at [z2b c];
          pack_loop fuel' view (tail unpacked_values) (element_count - 1) (vector_offset_elements + 1)
      else Some view
  end.
Definition bson_vector_packed_bit_view_pack_bool view (unpacked_values : list bool) (element_count vector_offset_elements : Z) : option (bool * vector_view M) :=
  let length := bson_vector_packed_bit_view_length view in
  if in_bounds length element_count vector_offset_elements
  then view ← pack_loop (S (Z.to_nat element_count)) view unpacked_values element_count vector_offset_elements; Some (true, view)
  else Some (false, view).
End Access.

(** ** Conversions between the bits of floats and doubles, to nearest, ties to even *)

(** A NaN keeps the top of its payload and becomes quiet. *)
Definition double_of_float (f : Z) : Z :=
  let sign := Z.shiftl (Z.shiftr f 31) 63 in
  let e := Z.land (Z.shiftr f 23) 0xff in
  let m := Z.land f (2 ^ 23 - 1) in
  sign +
  (if e =? 0xff then Z.shiftl 2047 52 + (if m =? 0 then 0 else Z.lor (Z.shiftl m 29) (2 ^ 51))
   else if e =? 0 then
     if m =? 0 then 0 else
     let l := Z.log2 m in Z.shiftl (l - 149 + 1023) 52 + Z.shiftl (m - 2 ^ l) (52 - l)
   else Z.shiftl (e - 127 + 1023) 52 + Z.shiftl m 29).

(** [a / 2 ^ k] *)
Definition round_half_even (a k : Z) : Z :=
  let q := Z.shiftr a k in
  let r := a - Z.shiftl q k in
  let half := Z.shiftl 1 k in
  if (half <? 2 * r) || ((2 * r =? half) && Z.odd q) then q + 1 else q.
Definition float_of_double (d : Z) : Z :=
  let sign := Z.shiftl (Z.shiftr d 63) 31 in
  let e := Z.land (Z.shiftr d 52) 0x7ff in
  let m := Z.land d (2 ^ 52 - 1) in
  sign +
  (if e =? 0x7ff then Z.shiftl 0xff 23 + (if m =? 0 then 0 else Z.lor (Z.shiftr m 29) (2 ^ 22))
   else
     let a := if e =? 0 then m else 2 ^ 52 + m in
     let ea := Z.max e 1 - 1075 in
     let q := Z.max (ea + 29) (-149) in
     Z.min (Z.shiftl 0xff 23) (Z.shiftl (q + 149) 23 + round_half_even a (q - ea))).

(** ** Appending vectors *)

Section Append.
Context (malloc : Z -> bytes).

(** The document with the binary, its header written, and the view of it; [None]
    inside is false. *)
Definition append_uninit (h : heap) (b : bson_t) (key : bytes) (key_length : Z) (length : Z) (header : option header_impl)
    (last : option bytes) : option (heap * bson_t * option (vector_view doc_mem)) :=
  if length <? BSON_VECTOR_HEADER_LEN then Some (h, b, None) else
  '(ok, h, b, binary) ← bson_append_binary_uninit malloc h b key key_length BSON_SUBTYPE_VECTOR length;
  if negb ok then Some (h, b, None) else
  header ← header;
  m ← vm_put (DocMem h b binary) 0 (header_bytes header);
  m ← (match last with None => Some m | Some c => vm_put m (u32 (length - 1)) c end);
  Some (dm_heap m, dm_bson m, Some (VView m length header)).

Definition bson_append_vector_int8_uninit (h : heap) (b : bson_t) (key : bytes) (key_length element_count : Z) :=
  append_uninit h b key key_length (bson_vector_int8_binary_data_length element_count)
    (b0 ← bson_vector_header_byte_0 BSON_VECTOR_ELEMENT_SIGNED_INT BSON_VECTOR_ELEMENT_8_BITS;
     b1 ← bson_vector_header_byte_1 0; Some (Header b0 b1)) None.
Definition bson_append_vector_float32_uninit (h : heap) (b : bson_t) (key : bytes) (key_length element_count : Z) :=
  append_uninit h b key key_length (bson_vector_float32_binary_data_length element_count)
    (b0 ← bson_vector_header_byte_0 BSON_VECTOR_ELEMENT_FLOAT BSON_VECTOR_ELEMENT_32_BITS;
     b1 ← bson_vector_header_byte_1 0; Some (Header b0 b1)) None.
Definition bson_append_vector_packed_bit_uninit (h : heap) (b : bson_t) (key : bytes) (key_length element_count : Z) :=
  let padding := Z.land 7 (u64 (- element_count)) in
  append_uninit h b key key_length (bson_vector_packed_bit_binary_data_length element_count)
    (b0 ← bson_vector_header_byte_0 BSON_VECTOR_ELEMENT_UNSIGNED_INT BSON_VECTOR_ELEMENT_1_BIT;
     b1 ← bson_vector_header_byte_1 padding; Some (Header b0 b1))
    (if (0 <? element_count) && (0 <? padding) then Some [x00] else None).

(** ** Vectors from arrays *)

(** The characters of ["%02X"] of a byte. *)
Definition hexdigit_upper (n : Z) : byte := z2b (if n <? 10 then 48 + n else 55 + n).
Definition hex02_upper (z : Z) : bytes := [hexdigit_upper (z / 16); hexdigit_upper (z mod 16)].

(** A check of an element, and the error it sets. *)
Definition check : Type := bson_iter_t -> option (option bson_error_t).

Definition bson_vector_from_array_expect_key (iter : bson_iter_t) (numeric_key : Z) : option (option bson_error_t) :=
  '(_, key) ← bson_uint32_to_string numeric_key (malloc 16) 16;
  found ← bson_iter_key iter;
  c ← strcmp key found;
  if c =? 0 then Some None else
  key ← cstr key; found ← cstr found;
  Some (Some (bson_set_error BSON_ERROR_VECTOR BSON_VECTOR_ERROR_ARRAY_KEY
    (txt "expected BSON array key '" ++ key ++ txt "', found key '" ++ found ++ txt "'"))).
Definition bson_vector_set_error_max_size : bson_error_t :=
  bson_set_error BSON_ERROR_VECTOR BSON_VECTOR_ERROR_MAX_SIZE (txt "maximum BSON document size would be exceeded").

Definition type_error (expected : string) (iter : bson_iter_t) : option (option bson_error_t) :=
  key ← bson_iter_key iter; key ← cstr key; ty ← bson_iter_type iter;
  Some (Some (bson_set_error BSON_ERROR_VECTOR BSON_VECTOR_ERROR_ARRAY_ELEMENT_TYPE
    (txt "expected " ++ txt expected ++ txt " in BSON array key '" ++ key ++ txt "', found item type 0x" ++ hex02_upper ty))).
Definition value_error (vector : string) (iter : bson_iter_t) (value : Z) : option (option bson_error_t) :=
  key ← bson_iter_key iter; key ← cstr key;
  Some (Some (bson_set_error BSON_ERROR_VECTOR BSON_VECTOR_ERROR_ARRAY_ELEMENT_VALUE
    (txt "BSON array key '" ++ key ++ txt "' value " ++ sdec value ++ txt " is out of range for vector of " ++ txt vector))).

Definition holds_int (iter : bson_iter_t) : option bool :=
  i ← iter_holds BSON_TYPE_INT32 iter; j ← iter_holds BSON_TYPE_INT64 iter; Some (i || j).
Definition check_int8 : check := fun iter =>
  i ← holds_int iter;
  if negb i then type_error "int32 or int64" iter else
  v ← bson_iter_as_int64 iter;
  if (v <? -128) || (127 <? v) then value_error "int8" iter v else Some None.
Definition check_float32 : check := fun iter =>
  d ← iter_holds BSON_TYPE_DOUBLE iter;
  if negb d then type_error "'double' number type" iter else Some None.
Definition check_packed_bit : check := fun iter =>
  i ← holds_int iter; b ← iter_holds BSON_TYPE_BOOL iter;
  if negb i && negb b then type_error "int32, int64, or bool" iter else
  v ← bson_iter_as_int64 iter;
  if (v <? 0) || (1 <? v) then value_error "packed_bit" iter v else Some None.

(** The count of the elements, or the first error. *)
Fixpoint validate_loop (fuel : nat) (chk : check) (iter : bson_iter_t) (element_count : Z) : option (bson_error_t + Z) :=
  match fuel with
  | O => None
  | S fuel' =>
      '(ok, iter) ← bson_iter_next iter;
      if negb ok then Some (inr element_count) else
      e ← bson_vector_from_array_expect_key iter element_count;
      match e with
      | Some e => Some (inl e)
      | None =>
          e ← chk iter;
          match e with
          | Some e => Some (inl e)
          | None => validate_loop fuel' chk iter (u32 (element_count + 1))
          end
      end
  end.

(** The element the iterator is at is written, and the next ones. *)
Fixpoint write_loop (n : nat) (write : vector_view doc_mem -> bson_iter_t -> Z -> option (bool * vector_view doc_mem)) (view : vector_view doc_mem)
    (copy_iter : bson_iter_t) (i : Z) : option (vector_view doc_mem) :=
  match n with
  | O => Some view
  | S n' =>
      '(ok, copy_iter) ← bson_iter_next copy_iter;
      if negb ok then None else
      '(ok, view) ← write view copy_iter i;
      if negb ok then None else write_loop n' write view copy_iter (u32 (i + 1))
  end.

(** The error that is set, [None] for success. *)
Definition from_array (chk : check) (uninit : heap -> bson_t -> bytes -> Z -> Z -> option (heap * bson_t * option (vector_view doc_mem)))
    (write : vector_view doc_mem -> bson_iter_t -> Z -> option (bool * vector_view doc_mem))
    (h : heap) (b : bson_t) (key : bytes) (key_length : Z) (iter : bson_iter_t) : option (option bson_error_t * heap * bson_t) :=
  r ← validate_loop (iter_fuel iter) chk iter 0;
  match r with
  | inl e => Some (Some e, h, b)
  | inr element_count =>
      '(h, b, view) ← uninit h b key key_length element_count;
      match view with
      | None => Some (Some bson_vector_set_error_max_size, h, b)
      | Some view =>
          view ← write_loop (Z.to_nat element_count) write view iter 0;
          Some (None, dm_heap (vv_data view), dm_bson (vv_data view))
      end
  end.

Definition write_int8 (view : vector_view doc_mem) (iter : bson_iter_t) (i : Z) : option (bool * vector_view doc_mem) :=
  v ← bson_iter_as_int64 iter; bson_vector_int8_view_write view [z2b v] 1 i.
Definition write_float32 (view : vector_view doc_mem) (iter : bson_iter_t) (i : Z) : option (bool * vector_view doc_mem) :=
  v ← bson_iter_double iter; bson_vector_float32_view_write view [float_of_double v] 1 i.
Definition write_packed_bit (view : vector_view doc_mem) (iter : bson_iter_t) (i : Z) : option (bool * vector_view doc_mem) :=
  v ← bson_iter_as_int64 iter; bson_vector_packed_bit_view_pack_bool view [negb (v =? 0)] 1 i.

Definition bson_append_vector_int8_from_array := from_array check_int8 bson_append_vector_int8_uninit write_int8.
Definition bson_append_vector_float32_from_array := from_array check_float32 bson_append_vector_float32_uninit write_float32.
Definition bson_append_vector_packed_bit_from_array := from_array check_packed_bit bson_append_vector_packed_bit_uninit write_packed_bit.

(** ** Arrays from vectors *)

(** The elements from [i] on, until an append fails. *)
Fixpoint append_elements_loop (n : nat) (append : heap -> bson_array_builder_t -> Z -> option (bool * heap * bson_array_builder_t))
    (h : heap) (builder : bson_array_builder_t) (i : Z) : option (bool * heap * bson_array_builder_t) :=
  match n with
  | O => Some (true, h, builder)
  | S n' =>
      '(ok, h, builder) ← append h builder i;
      if negb ok then Some (false, h, builder) else append_elements_loop n' append h builder (i + 1)
  end.
Definition bson_array_builder_append_vector_int8_elements (h : heap) (builder : bson_array_builder_t) (view : vector_view bytes) :=
  let length := bson_vector_int8_const_view_length view in
  append_elements_loop (Z.to_nat length)
    (fun h builder i =>
       e ← bson_vector_int8_const_view_read view 1 i; e ← e; c ← rd e 0;
       bson_array_builder_append_int32 malloc h builder (sext 8 (b2z c)))
    h builder 0.
Definition bson_array_builder_append_vector_float32_elements (h : heap) (builder : bson_array_builder_t) (view : vector_view bytes) :=
  let length := bson_vector_float32_const_view_length view in
  append_elements_loop (Z.to_nat length)
    (fun h builder i =>
       e ← bson_vector_float32_const_view_read view 1 i; e ← e; f ← head e;
       bson_array_builder_append_double malloc h builder (double_of_float f))
    h builder 0.
Definition bson_array_builder_append_vector_packed_bit_elements (h : heap) (builder : bson_array_builder_t) (view : vector_view bytes) :=
  let length := bson_vector_packed_bit_const_view_length view in
  append_elements_loop (Z.to_nat length)
    (fun h builder i =>
       e ← bson_vector_packed_bit_const_view_unpack_bool view 1 i; e ← e; v ← head e;
       bson_array_builder_append_int32 malloc h builder (Z.b2z v))
    h builder 0.

Definition bson_array_builder_append_vector_elements (h : heap) (builder : bson_array_builder_t) (iter : bson_iter_t) :
    option (bool * heap * bson_array_builder_t) :=
  v ← bson_vector_int8_const_view_from_iter iter;
  match v with Some view => bson_array_builder_append_vector_int8_elements h builder view | None =>
  v ← bson_vector_float32_const_view_from_iter iter;
  match v with Some view => bson_array_builder_append_vector_float32_elements h builder view | None =>
  v ← bson_vector_packed_bit_const_view_from_iter iter;
  match v with Some view => bson_array_builder_append_vector_packed_bit_elements h builder view | None =>
  Some (false, h, builder) end end end.

(** An array of what is appended in a builder; [end] always succeeds. *)
Definition array_from (elements : heap -> bson_array_builder_t -> option (bool * heap * bson_array_builder_t))
    (h : heap) (b : bson_t) (key : bytes) (key_length : Z) : option bres :=
  '(h, b, child) ← bson_append_array_builder_begin malloc h b key key_length;
  match child with
  | None => Some (false, h, b)
  | Some child =>
      '(ok, h, child) ← elements h child;
      '(h, b) ← bson_append_array_builder_end h b child; Some (ok, h, b)
  end.
Definition bson_append_array_from_vector_int8 (h : heap) (b : bson_t) (key : bytes) (key_length : Z) (view : vector_view bytes) :=
  array_from (fun h child => bson_array_builder_append_vector_int8_elements h child view) h b key key_length.
Definition bson_append_array_from_vector_float32 (h : heap) (b : bson_t) (key : bytes) (key_length : Z) (view : vector_view bytes) :=
  array_from (fun h child => bson_array_builder_append_vector_float32_elements h child view) h b key key_length.
Definition bson_append_array_from_vector_packed_bit (h : heap) (b : bson_t) (key : bytes) (key_length : Z) (view : vector_view bytes) :=
  array_from (fun h child => bson_array_builder_append_vector_packed_bit_elements h child view) h b key key_length.
Definition bson_append_array_from_vector (h : heap) (b : bson_t) (key : bytes) (key_length : Z) (iter : bson_iter_t) :=
  array_from (fun h child => bson_array_builder_append_vector_elements h child iter) h b key key_length.
Definition bson_array_builder_append_array_from_vector (h : heap) (bab : bson_array_builder_t) (iter : bson_iter_t) :=
  bson_array_builder_append_impl malloc (fun h b k n => bson_append_array_from_vector h b k n iter) h bab.
End Append.

Example double_of_float_ex : map double_of_float [0x3f800000; 0xc0490fdb; 1; 0x7f800000; 0x7fc00001] =
  [0x3ff0000000000000; 0xc00921fb60000000; 0x36a0000000000000; 0x7ff0000000000000; 0x7ff8000020000000].
Proof. vm_compute. reflexivity. Qed.
Example float_of_double_ex : map float_of_double [0x3ff0000000000000; 0x400921fb54442d18; 0x36a0000000000000; 0x3690000000000001; 0x47efffffffffffff; 0x8000000000000001] =
  [0x3f800000; 0x40490fdb; 1; 1; 0x7f800000; 0x80000000].
Proof. vm_compute. reflexivity. Qed.
