(* ===== verification/BsonVectorSpec.v ===== *)
(** Vectors as lists of their elements: their bytes, which of them the views accept, and
    what reading and writing through a view does. *)

From Stdlib Require Import Strings.String.
From S2P Require Import Prelude IntEncode CString Text BsonTypes BsonIter BsonSpec BsonIterSpec BsonView BsonT BsonTSpec BsonKeys.
From S2P Require Import BsonIterFind BsonAppend BsonAppendSpec BsonBuild BsonDocSpec Calendar BsonVector.

(** ** Floats as doubles and back *)

(** Not a NaN that signals: those become quiet. *)
Definition float_ok (f : Z) : Prop :=
  0 <= f < 2 ^ 32 /\ (Z.land (Z.shiftr f 23) 0xff = 0xff -> Z.land f (2 ^ 23 - 1) = 0 \/ 2 ^ 22 <= Z.land f (2 ^ 23 - 1)).

(** The three fields of a number. *)
Lemma fields_eq f w : 0 < w -> 0 <= f ->
  f = Z.shiftr f w * 2 ^ w + Z.land f (2 ^ w - 1) /\ 0 <= Z.land f (2 ^ w - 1) < 2 ^ w /\ 0 <= Z.shiftr f w.
Proof.
  intros Hw Hf. replace (2 ^ w - 1) with (Z.ones w) by (rewrite Z.ones_equiv; lia). rewrite Z.land_ones, Z.shiftr_div_pow2 by lia.
  pose proof (Z.div_mod f (2 ^ w) ltac:(lia)). pose proof (Z.mod_pos_bound f (2 ^ w) ltac:(lia)). pose proof (Z.div_pos f (2 ^ w) Hf ltac:(lia)). lia.
Qed.

Lemma field_high a b w : 0 <= w -> 0 <= b < 2 ^ w -> Z.shiftr (a * 2 ^ w + b) w = a.
Proof. intros. rewrite Z.shiftr_div_pow2 by lia. rewrite Z.div_add_l, Z.div_small by lia. lia. Qed.
Lemma field_low a b w : 0 <= w -> 0 <= b < 2 ^ w -> Z.land (a * 2 ^ w + b) (2 ^ w - 1) = b.
Proof. intros. replace (2 ^ w - 1) with (Z.ones w) by (rewrite Z.ones_equiv; lia). rewrite Z.land_ones by lia. rewrite Z.add_comm, Z.mod_add, Z.mod_small by lia. done. Qed.

Lemma round_exact a k : 0 <= k -> round_half_even (a * 2 ^ k) k = a.
Proof.
  intros Hk. unfold round_half_even. rewrite Z.shiftr_div_pow2, Z.div_mul by lia. rewrite !Z.shiftl_mul_pow2 by lia. rewrite Z.sub_diag.
  assert (0 < 2 ^ k) by lia. destruct (Z.ltb_spec (1 * 2 ^ k) (2 * 0)); [lia|]. destruct (Z.eqb_spec (2 * 0) (1 * 2 ^ k)); [lia|]. done.
Qed.

(** The bits of a number from its fields, and the fields from the bits. *)
Definition number (we wm s e m : Z) : Z := (s * 2 ^ we + e) * 2 ^ wm + m.
Lemma number_fields we wm s e m : 0 < we -> 0 < wm -> 0 <= e < 2 ^ we -> 0 <= m < 2 ^ wm ->
  Z.shiftr (number we wm s e m) (we + wm) = s /\ Z.land (Z.shiftr (number we wm s e m) wm) (2 ^ we - 1) = e /\ Z.land (number we wm s e m) (2 ^ wm - 1) = m.
Proof.
  intros. unfold number. rewrite field_low, field_high, field_low by lia. replace (we + wm) with (wm + we) by lia. rewrite <- Z.shiftr_shiftr by lia. by rewrite !field_high by lia.
Qed.
Lemma number_of f we wm : 0 < we -> 0 < wm -> 0 <= f < 2 ^ (1 + we + wm) ->
  exists s e m, f = number we wm s e m /\ 0 <= s <= 1 /\ 0 <= e < 2 ^ we /\ 0 <= m < 2 ^ wm.
Proof.
  intros Hwe Hwm Hf. destruct (fields_eq f wm Hwm ltac:(lia)) as (E1 & Hm & Hq). destruct (fields_eq (Z.shiftr f wm) we Hwe Hq) as (E2 & He & Hs).
  exists (Z.shiftr (Z.shiftr f wm) we), (Z.land (Z.shiftr f wm) (2 ^ we - 1)), (Z.land f (2 ^ wm - 1)). unfold number. rewrite <- E2. split; [done|]. split; [|done].
  split; [done|]. rewrite !Z.pow_add_r in Hf by lia. change (2 ^ 1) with 2 in Hf. nia.
Qed.

Lemma double_fields s e m : 0 <= e < 2 ^ 11 -> 0 <= m < 2 ^ 52 ->
  float_of_double (number 11 52 s e m) = s * 2 ^ 31 +
    (if e =? 0x7ff then Z.shiftl 0xff 23 + (if m =? 0 then 0 else Z.lor (Z.shiftr m 29) (2 ^ 22))
     else
       let a := if e =? 0 then m else 2 ^ 52 + m in
       let ea := Z.max e 1 - 1075 in
       let q := Z.max (ea + 29) (-149) in
       Z.min (Z.shiftl 0xff 23) (Z.shiftl (q + 149) 23 + round_half_even a (q - ea))).
Proof.
  intros He Hm. unfold float_of_double. destruct (number_fields 11 52 s e m) as (E1 & E2 & E3); try lia. change (11 + 52) with 63 in E1. change (2 ^ 11 - 1) with 0x7ff in E2.
  rewrite E1, E2, E3, Z.shiftl_mul_pow2 by lia. done.
Qed.

Lemma lor_bit m w : 2 ^ w <= m < 2 ^ (w + 1) -> 0 <= w -> Z.lor m (2 ^ w) = m.
Proof.
  intros Hm Hw. apply Z.bits_inj'. intros n Hn. rewrite Z.lor_spec, Z.pow2_bits_eqb by lia. destruct (Z.eqb_spec w n) as [<-|]; [|by rewrite orb_false_r].
  rewrite orb_true_r. symmetry. apply Z.testbit_true; [lia|]. rewrite Z.pow_add_r in Hm by lia. change (2 ^ 1) with 2 in Hm.
  assert (m / 2 ^ w = 1) as ->; [|done]. symmetry. apply (Z.div_unique_pos _ _ _ (m - 2 ^ w)); lia.
Qed.

Lemma double_number s e m : 0 <= e < 2 ^ 8 -> 0 <= m < 2 ^ 23 ->
  double_of_float (number 8 23 s e m) =
    if e =? 0xff then number 11 52 s 2047 (if m =? 0 then 0 else Z.lor (Z.shiftl m 29) (2 ^ 51))
    else if e =? 0 then if m =? 0 then number 11 52 s 0 0 else number 11 52 s (Z.log2 m - 149 + 1023) (Z.shiftl (m - 2 ^ Z.log2 m) (52 - Z.log2 m))
    else number 11 52 s (e - 127 + 1023) (Z.shiftl m 29).
Proof.
  intros He Hm. unfold double_of_float. destruct (number_fields 8 23 s e m) as (E1 & E2 & E3); try lia. change (8 + 23) with 31 in E1. change (2 ^ 8 - 1) with 0xff in E2.
  rewrite E1, E2, E3. unfold number. rewrite (Z.shiftl_mul_pow2 s) by lia. change (2 ^ 63) with (2 ^ 11 * 2 ^ 52).
  repeat case_match; rewrite ?(Z.shiftl_mul_pow2 _ 52) by lia; lia.
Qed.

Lemma float_double_float f : float_ok f -> float_of_double (double_of_float f) = f.
Proof.
  intros [Hf Hq]. destruct (number_of f 8 23) as (s & e & m & -> & Hs & He & Hm); [lia..|].
  destruct (number_fields 8 23 s e m) as (_ & E2 & E3); try lia. change (2 ^ 8 - 1) with 0xff in E2. rewrite E2, E3 in Hq. clear E2 E3. rewrite double_number by lia.
  destruct (Z.eqb_spec e 0xff) as [->|].
  { destruct (Z.eqb_spec m 0) as [->|Hm0].
    - rewrite double_fields by lia. cbn [Z.eqb Pos.eqb]. unfold number. change (Z.shiftl 255 23) with (255 * 2 ^ 23). lia.
    - rewrite Z.shiftl_mul_pow2, lor_bit by lia. rewrite double_fields by lia. cbn [Z.eqb Pos.eqb].
      destruct (Z.eqb_spec (m * 2 ^ 29) 0); [lia|]. rewrite Z.shiftr_div_pow2, Z.div_mul, lor_bit by lia. unfold number. change (Z.shiftl 255 23) with (255 * 2 ^ 23). lia. }
  destruct (Z.eqb_spec e 0) as [->|He0].
  { destruct (Z.eqb_spec m 0) as [->|Hm0].
    - rewrite double_fields by lia. cbn [Z.eqb]. unfold number. assert (Z.min (Z.shiftl 255 23) (Z.shiftl (Z.max (Z.max 0 1 - 1075 + 29) (-149) + 149) 23 + round_half_even 0 (Z.max (Z.max 0 1 - 1075 + 29) (-149) - (Z.max 0 1 - 1075))) = 0) as -> by (vm_compute; reflexivity). lia.
    - pose proof (Z.log2_spec m ltac:(lia)) as Hl. assert (Hl22 : 0 <= Z.log2 m <= 22) by (split; [apply Z.log2_nonneg|]; apply Z.lt_succ_r, (Z.log2_lt_pow2 m); lia).
      set (l := Z.log2 m) in *. rewrite Z.shiftl_mul_pow2 by lia. rewrite Z.pow_succ_r in Hl by lia.
      assert (Hp : 2 ^ l * 2 ^ (52 - l) = 2 ^ 52) by (rewrite <- Z.pow_add_r by lia; f_equal; lia). rewrite double_fields by nia.
      destruct (Z.eqb_spec (l - 149 + 1023) 0x7ff); [lia|]. destruct (Z.eqb_spec (l - 149 + 1023) 0); [lia|]. cbv zeta.
      replace (2 ^ 52 + (m - 2 ^ l) * 2 ^ (52 - l)) with (m * 2 ^ (52 - l)) by nia.
      replace (Z.max (Z.max (l - 149 + 1023) 1 - 1075 + 29) (-149)) with (-149) by lia. replace (-149 - (Z.max (l - 149 + 1023) 1 - 1075)) with (52 - l) by lia.
      rewrite round_exact by lia. change (Z.shiftl (-149 + 149) 23) with 0. change (Z.shiftl 255 23) with (255 * 2 ^ 23). unfold number. lia. }
  rewrite Z.shiftl_mul_pow2 by lia. rewrite double_fields by lia.
  destruct (Z.eqb_spec (e - 127 + 1023) 0x7ff); [lia|]. destruct (Z.eqb_spec (e - 127 + 1023) 0); [lia|]. cbv zeta.
  replace (2 ^ 52 + m * 2 ^ 29) with ((2 ^ 23 + m) * 2 ^ 29) by lia.
  replace (Z.max (Z.max (e - 127 + 1023) 1 - 1075 + 29) (-149)) with (e - 150) by lia. replace (e - 150 - (Z.max (e - 127 + 1023) 1 - 1075)) with 29 by lia.
  rewrite round_exact, !Z.shiftl_mul_pow2 by lia. unfold number. lia.
Qed.

(** ** Packed bits *)

(** The bits of a byte and of bytes, the top one first. *)
Definition bits_of (c : byte) : list bool := map (fun k => Z.testbit (b2z c) (7 - Z.of_nat k)) (seq 0 8).
Definition bits (s : bytes) : list bool := s ≫= bits_of.
Fixpoint byte_of (l : list bool) (w : Z) : Z := match l with [] => 0 | v :: l' => Z.b2z v * w + byte_of l' (w / 2) end.
Fixpoint pack (n : nat) (l : list bool) : bytes :=
  match n with O => [] | S n' => z2b (byte_of (take 8 l) 128) :: pack n' (drop 8 l) end.

Lemma length_bits s : length (bits s) = (8 * length s)%nat.
Proof. unfold bits. induction s as [|c s IH]; [done|]. cbn [mbind list_bind]. rewrite length_app, IH. cbn [length bits_of map seq]. lia. Qed.
Lemma bits_app s t : bits (s ++ t) = bits s ++ bits t.
Proof. apply bind_app. Qed.

Lemma byte_of_zeros l n w : byte_of (l ++ replicate n false) w = byte_of l w.
Proof. revert w. induction l as [|v l IH]; intros w; cbn [app byte_of]; [|by rewrite IH]. revert w. induction n as [|n IHn]; intros w; [done|]. cbn [replicate byte_of]. by rewrite IHn. Qed.
Lemma byte_of_bits c : z2b (byte_of (bits_of c) 128) = c.
Proof. by destruct c. Qed.
Lemma bits_of_byte l : length l = 8%nat -> bits_of (z2b (byte_of l 128)) = l.
Proof.
  destruct l as [|b7 [|b6 [|b5 [|b4 [|b3 [|b2 [|b1 [|b0 [|? ?]]]]]]]]]; try done. intros _. by destruct b7, b6, b5, b4, b3, b2, b1, b0.
Qed.

Lemma pack_bits s : pack (length s) (bits s) = s.
Proof.
  induction s as [|c s IH]; [done|]. cbn [length pack]. change (bits (c :: s)) with (bits_of c ++ bits s).
  change 8%nat with (length (bits_of c)). rewrite take_app_length, drop_app_length. rewrite byte_of_bits. by rewrite IH.
Qed.
Lemma bits_pack n l : (length l <= 8 * n)%nat -> bits (pack n l) = l ++ replicate (8 * n - length l) false.
Proof.
  revert l. induction n as [|n IH]; intros l Hl; [destruct l; [done|cbn in Hl; lia]|]. cbn [pack]. change (bits (?c :: ?s)) with (bits_of c ++ bits s).
  rewrite IH by (rewrite length_drop; lia). rewrite length_drop. destruct (decide (8 <= length l)%nat).
  - rewrite bits_of_byte by (rewrite length_take; lia). rewrite app_assoc, take_drop. do 2 f_equal. lia.
  - rewrite take_ge, drop_ge by lia. cbn [app]. rewrite <- (byte_of_zeros l (8 - length l)), bits_of_byte by (rewrite length_app, length_replicate; lia).
    rewrite <- app_assoc. f_equal. rewrite <- replicate_add. f_equal. lia.
Qed.
Lemma length_pack n l : length (pack n l) = n.
Proof. revert l. induction n as [|n IH]; intros l; cbn [pack length]; [done|by rewrite IH]. Qed.
Lemma bits_inj s t : bits s = bits t -> s = t.
Proof. intros E. rewrite <- (pack_bits s), <- (pack_bits t). rewrite E. f_equal. apply (f_equal length) in E. rewrite !length_bits in E. lia. Qed.

(** How the code reads and changes a bit of a byte. *)
Definition read_bit (c : Z) (k : Z) : bool := negb (Z.land c (Z.shiftr 0x80 k) =? 0).
Definition write_bit (c k : Z) (v : bool) : Z := let mask := u8 (Z.shiftr 0x80 k) in u8 (Z.lor (Z.land c (Z.lnot mask)) (if v then mask else 0)).

Lemma bit_ops : forallb (fun k : nat => forallb (fun n : nat => let c := z2b (Z.of_nat n) in
    forallb (fun v => bool_decide (bits_of c !! k = Some (read_bit (b2z c) (Z.of_nat k))) && bool_decide (bits_of (z2b (write_bit (b2z c) (Z.of_nat k) v)) = <[k := v]> (bits_of c))) [true; false])
    (seq 0 256)) (seq 0 8) = true.
Proof. vm_compute. reflexivity. Qed.
Lemma bit_op (c : byte) (k : nat) v : (k < 8)%nat ->
  bits_of c !! k = Some (read_bit (b2z c) (Z.of_nat k)) /\ bits_of (z2b (write_bit (b2z c) (Z.of_nat k) v)) = <[k := v]> (bits_of c).
Proof.
  intros Hk. pose proof bit_ops as H. rewrite forallb_forall in H. specialize (H k). rewrite forallb_forall in H.
  specialize (H ltac:(apply in_seq; lia) (Z.to_nat (b2z c))). pose proof (b2z_range c). rewrite Z2Nat.id, z2b_b2z in H by lia. cbv zeta in H. rewrite forallb_forall in H.
  specialize (H ltac:(apply in_seq; lia) v ltac:(destruct v; cbn; tauto)). apply andb_true_iff in H as [H1%bool_decide_eq_true H2%bool_decide_eq_true]. done.
Qed.

(** The byte of a bit. *)
Lemma bits_split (s : bytes) i : 0 <= i < 8 * zlen s ->
  exists s1 c s2, s = s1 ++ c :: s2 /\ zlen s1 = Z.shiftr i 3 /\ Z.to_nat i = (8 * length s1 + Z.to_nat (Z.land i 7))%nat /\ 0 <= Z.land i 7 < 8.
Proof.
  intros Hi. rewrite Z.shiftr_div_pow2 by lia. change 7 with (Z.ones 3). rewrite Z.land_ones by lia. change (2 ^ 3) with 8.
  pose proof (Z.mod_pos_bound i 8 ltac:(lia)). destruct (split_at s (i / 8)) as (s1 & s2 & -> & H1 & H2); [Z.to_euclidean_division_equations; lia|].
  rewrite zlen_app in Hi. destruct s2 as [|c s2]; [change (zlen (@nil byte)) with 0 in *; Z.to_euclidean_division_equations; lia|].
  exists s1, c, s2. split; [done|]. split; [done|]. split; [|done]. unfold zlen in *. Z.to_euclidean_division_equations; lia.
Qed.

Lemma bits_cons c s : bits (c :: s) = bits_of c ++ bits s.
Proof. done. Qed.
Lemma bits_insert s1 c s2 (k : nat) v : (k < 8)%nat ->
  bits (s1 ++ z2b (write_bit (b2z c) (Z.of_nat k) v) :: s2) = <[(8 * length s1 + k)%nat := v]> (bits (s1 ++ c :: s2)).
Proof.
  intros Hk. rewrite !bits_app, !bits_cons. rewrite <- length_bits, insert_app_r. f_equal. rewrite (proj2 (bit_op c k v Hk)). rewrite insert_app_l; [done|]. cbn. lia.
Qed.
Lemma bits_lookup s1 c s2 (k : nat) : (k < 8)%nat -> bits (s1 ++ c :: s2) !! (8 * length s1 + k)%nat = Some (read_bit (b2z c) (Z.of_nat k)).
Proof.
  intros Hk. rewrite bits_app, bits_cons. rewrite <- length_bits. rewrite lookup_app_r by lia. replace (_ - _)%nat with k by lia.
  rewrite lookup_app_l by (cbn; lia). by apply (bit_op c k true Hk).
Qed.

(** ** The bytes of a vector *)

Inductive vec := VInt8 (l : bytes) | VFloat32 (l : list Z) | VBits (l : list bool).
Definition vec_len (v : vec) : Z := match v with VInt8 l => zlen l | VFloat32 l => zlen l | VBits l => zlen l end.
Definition vec_ok (v : vec) : Prop := match v with VFloat32 l => Forall is_u32 l | _ => True end.
Definition padding (n : Z) : Z := (- n) mod 8.
Definition vec_header (v : vec) : header_impl :=
  match v with VInt8 _ => Header 3 0 | VFloat32 _ => Header 39 0 | VBits l => Header 16 (padding (zlen l)) end.
Definition vec_body (v : vec) : bytes :=
  match v with VInt8 l => l | VFloat32 l => bytes_of_floats l | VBits l => pack (Z.to_nat ((zlen l + 7) / 8)) l end.
Definition vec_data (v : vec) : bytes := header_bytes (vec_header v) ++ vec_body v.

Lemma zlen_floats l : zlen (bytes_of_floats l) = 4 * zlen l.
Proof. unfold bytes_of_floats. induction l as [|f l IH]; [done|]. cbn [mbind list_bind]. rewrite zlen_app, zlen_cons, zlen_le_bytes, IH. lia. Qed.
Lemma padding_range n : 0 <= padding n < 8.
Proof. apply Z.mod_pos_bound. lia. Qed.
Lemma zlen_data v : zlen (vec_data v) = 2 + zlen (vec_body v).
Proof. unfold vec_data. by rewrite zlen_app. Qed.

(** The bits of a packed vector are its elements, then zeros. *)
Lemma bits_body l : bits (vec_body (VBits l)) = l ++ replicate (Z.to_nat (padding (zlen l))) false.
Proof.
  cbn [vec_body]. rewrite bits_pack by (unfold zlen; Z.to_euclidean_division_equations; lia). do 2 f_equal. unfold padding, zlen.
  Z.to_euclidean_division_equations; lia.
Qed.
Lemma body_bits l s p : bits s = l ++ replicate (Z.to_nat p) false -> 0 <= p < 8 -> s = vec_body (VBits l) /\ p = padding (zlen l).
Proof.
  intros E Hp. assert (El : p = padding (zlen l)).
  { apply (f_equal length) in E. rewrite length_bits, length_app, length_replicate in E. unfold padding, zlen. Z.to_euclidean_division_equations; lia. }
  split; [|done]. apply bits_inj. rewrite bits_body, E. by subst p.
Qed.

(** A byte whose last [p] bits are zero, and the mask of these bits. *)
Lemma mask_ops : forallb (fun p : nat => forallb (fun n : nat => let c := z2b (Z.of_nat n) in
    bool_decide ((Z.land (b2z c) (u8 (u32 (Z.shiftl 1 (Z.of_nat p) - 1))) =? 0) = bool_decide (drop (8 - p) (bits_of c) = replicate p false)) &&
    bool_decide (bits_of (z2b (u8 (Z.land (Z.shiftl 0xFF (Z.of_nat p)) (b2z c)))) = take (8 - p) (bits_of c) ++ replicate p false))
    (seq 0 256)) (seq 0 8) = true.
Proof. vm_compute. reflexivity. Qed.
Lemma mask_op (c : byte) p : 0 <= p < 8 ->
  (Z.land (b2z c) (u8 (u32 (Z.shiftl 1 p - 1))) =? 0) = bool_decide (drop (8 - Z.to_nat p) (bits_of c) = replicate (Z.to_nat p) false) /\
  bits_of (z2b (u8 (Z.land (Z.shiftl 0xFF p) (b2z c)))) = take (8 - Z.to_nat p) (bits_of c) ++ replicate (Z.to_nat p) false.
Proof.
  intros Hp. pose proof mask_ops as H. rewrite forallb_forall in H. specialize (H (Z.to_nat p)). rewrite forallb_forall in H.
  specialize (H ltac:(apply in_seq; lia) (Z.to_nat (b2z c))). pose proof (b2z_range c). rewrite !Z2Nat.id, z2b_b2z in H by lia. cbv zeta in H.
  specialize (H ltac:(apply in_seq; lia)). apply andb_true_iff in H as [H1%bool_decide_eq_true H2%bool_decide_eq_true]. done.
Qed.

(** ** The checks decide which bytes are vectors *)

Definition header_view (X rest : bytes) : vector_view bytes :=
  VView (X ++ rest) (zlen X) (Header (b2z (default x00 (X !! 0%nat))) (b2z (default x00 (X !! 1%nat)))).

Lemma header_init_spec X rest : zlen X < 2 ^ 32 ->
  (zlen X < 2 /\ bson_vector_binary_header_impl_init (X ++ rest) (zlen X) = Some None) \/
  exists c0 c1 s, X = c0 :: c1 :: s /\ bson_vector_binary_header_impl_init (X ++ rest) (zlen X) = Some (Some (Header (b2z c0) (b2z c1))).
Proof.
  intros Hz. unfold bson_vector_binary_header_impl_init, BSON_VECTOR_HEADER_LEN. destruct (Z.leb_spec 2 (zlen X)); [right|by left; split; [lia|]].
  destruct X as [|c0 [|c1 s]]; [change (zlen (@nil byte)) with 0 in *; lia|rewrite zlen_1 in *; lia|]. exists c0, c1, s. split; [done|].
  change ((c0 :: c1 :: s) ++ rest) with ([c0] ++ c1 :: s ++ rest). rewrite (rd_at [c0] c1) by done. change ([c0] ++ c1 :: s ++ rest) with (c0 :: c1 :: s ++ rest).
  rewrite rd_cons_0. sbind. done.
Qed.

(** [init] accepts the bytes of the vectors of a kind. *)
Definition accepts (init : bytes -> Z -> option (option (vector_view bytes))) (kind : vec -> Prop) : Prop :=
  forall X rest, zlen X < 2 ^ 32 ->
  (exists v, kind v /\ vec_ok v /\ X = vec_data v /\ init (X ++ rest) (zlen X) = Some (Some (VView (X ++ rest) (zlen X) (vec_header v)))) \/
  ((forall v, kind v -> vec_ok v -> X <> vec_data v) /\ init (X ++ rest) (zlen X) = Some None).

Definition is_int8 (v : vec) : Prop := match v with VInt8 _ => True | _ => False end.
Definition is_float32 (v : vec) : Prop := match v with VFloat32 _ => True | _ => False end.
Definition is_bits (v : vec) : Prop := match v with VBits _ => True | _ => False end.

Lemma accepts_short init (validate : header_impl -> option bool) X rest : zlen X < 2 ->
  bson_vector_binary_header_impl_init (X ++ rest) (zlen X) = Some None -> init = view_init validate ->
  (forall v, X <> vec_data v) /\ init (X ++ rest) (zlen X) = Some None.
Proof.
  intros Hz E ->. split; [|unfold view_init; by rewrite E]. intros v ->. rewrite zlen_data in Hz. pose proof (zlen_nonneg (vec_body v)). lia.
Qed.

Lemma int8_accepts : accepts bson_vector_int8_view_init is_int8.
Proof.
  intros X rest Hz. destruct (header_init_spec X rest Hz) as [[Hs E]|(c0 & c1 & s & -> & E)].
  { right. destruct (accepts_short bson_vector_int8_view_init _ X rest Hs E eq_refl). auto. }
  unfold bson_vector_int8_view_init, view_init. rewrite E. sbind. unfold bson_vector_int8_validate. cbn [hb0 hb1].
  change (bson_vector_header_byte_0 _ _) with (Some 3). change (bson_vector_header_byte_1 0) with (Some 0). sbind.
  destruct (Z.eqb_spec (b2z c0) 3) as [E0|E0]; [destruct (Z.eqb_spec (b2z c1) 0) as [E1|E1]|]; cbn [andb].
  - left. exists (VInt8 s). split; [done|]. split; [done|]. rewrite E0, E1. split; [|done]. unfold vec_data, header_bytes. cbn [vec_header hb0 hb1 vec_body app]. by rewrite <- E0, <- E1, !z2b_b2z.
  - right. split; [|done]. intros [l|l|l]; try done. intros _ _ [= -> -> _]. by apply E1.
  - right. split; [|done]. intros [l|l|l]; try done. intros _ _ [= -> _ _]. by apply E0.
Qed.

Lemma floats_exist s : zlen s mod 4 = 0 -> exists l, s = bytes_of_floats l /\ Forall is_u32 l.
Proof.
  remember (length s) as n eqn:En. revert s En. induction (lt_wf n) as [n _ IH]. intros s -> Hs.
  destruct s as [|a [|b [|c [|d s]]]]; try (by exists []); try (unfold zlen in Hs; cbn in Hs; lia).
  destruct (IH (length s) ltac:(cbn; lia) s eq_refl) as (l & -> & Hl).
  { rewrite !zlen_cons in Hs. Z.to_euclidean_division_equations; lia. }
  exists (le_val [a; b; c; d] :: l). split; [|constructor; [|done]].
  - unfold bytes_of_floats. cbn [mbind list_bind]. by rewrite (le_bytes_le_val [a; b; c; d] 4) by done.
  - pose proof (le_val_range [a; b; c; d]). unfold is_u32. change (256 ^ zlen [a; b; c; d]) with (2 ^ 32) in *. done.
Qed.

Lemma float32_accepts : accepts bson_vector_float32_view_init is_float32.
Proof.
  intros X rest Hz. destruct (header_init_spec X rest Hz) as [[Hs E]|(c0 & c1 & s & -> & E)].
  { right. destruct (accepts_short (view_init (fun header => bson_vector_float32_validate header (zlen X))) _ X rest Hs E eq_refl). auto. }
  unfold bson_vector_float32_view_init, view_init. rewrite E. sbind. unfold bson_vector_float32_validate, BSON_VECTOR_HEADER_LEN. cbn [hb0 hb1].
  change (bson_vector_header_byte_0 _ _) with (Some 39). change (bson_vector_header_byte_1 0) with (Some 0). sbind. rewrite !zlen_cons in *. pose proof (zlen_nonneg s).
  replace (1 + (1 + zlen s) - 2) with (zlen s) by lia. rewrite u32_id by lia.
  destruct (Z.eqb_spec (zlen s mod 4) 0) as [Em|Em]; cbn [andb].
  2: { right. split; [|done]. intros [l|l|l]; try done. intros _ _ [= _ _ ->]. rewrite zlen_floats in Em. Z.to_euclidean_division_equations; lia. }
  destruct (Z.eqb_spec (b2z c0) 39) as [E0|E0]; [destruct (Z.eqb_spec (b2z c1) 0) as [E1|E1]|]; cbn [andb].
  - left. destruct (floats_exist s Em) as (l & -> & Hl). exists (VFloat32 l). split; [done|]. split; [done|]. rewrite E0, E1. split; [|done].
    unfold vec_data, header_bytes. cbn [vec_header hb0 hb1 vec_body app]. by rewrite <- E0, <- E1, !z2b_b2z.
  - right. split; [|done]. intros [l|l|l]; try done. intros _ _ [= -> -> _]. by apply E1.
  - right. split; [|done]. intros [l|l|l]; try done. intros _ _ [= -> _ _]. by apply E0.
Qed.

(** Which bytes are packed bits with that padding. *)
Lemma body_iff s p : 0 <= p < 8 ->
  (exists l, s = vec_body (VBits l) /\ padding (zlen l) = p) <->
  match last s with None => p = 0 | Some c => drop (8 - Z.to_nat p) (bits_of c) = replicate (Z.to_nat p) false end.
Proof.
  intros Hp. destruct s as [|c s _] using rev_ind.
  - cbn [last]. split.
    + intros (l & E & <-). apply (f_equal bits) in E. rewrite bits_body in E. symmetry in E. apply app_eq_nil in E as [-> _]. done.
    + intros ->. by exists [].
  - rewrite last_snoc. split.
    + intros (l & E & <-). pose proof (bits_body l) as Eb. rewrite <- E, bits_app in Eb. cbn [bits mbind list_bind] in Eb. change (bits [c]) with (bits_of c ++ []) in Eb. rewrite app_nil_r in Eb.
      pose proof (f_equal (drop (length (bits s) + (8 - Z.to_nat (padding (zlen l))))) Eb) as Ed. rewrite <- drop_drop, drop_app_length in Ed. rewrite Ed.
      apply (f_equal length) in Eb. rewrite !length_app, length_replicate in Eb. change (length (bits_of c)) with 8%nat in Eb.
      replace (length (bits s) + (8 - Z.to_nat (padding (zlen l))))%nat with (length l) by lia. apply drop_app_length.
    + intros E. exists (bits s ++ take (8 - Z.to_nat p) (bits_of c)).
      assert (Eb : bits (s ++ [c]) = (bits s ++ take (8 - Z.to_nat p) (bits_of c)) ++ replicate (Z.to_nat p) false).
      { rewrite bits_app, <- app_assoc, <- E, take_drop. change (bits [c]) with (bits_of c ++ []). by rewrite app_nil_r. }
      by destruct (body_bits _ _ p Eb Hp) as [? <-].
Qed.

Lemma bits_accepts : accepts bson_vector_packed_bit_view_init is_bits.
Proof.
  intros X rest Hz. destruct (header_init_spec X rest Hz) as [[Hs E]|(c0 & c1 & s & -> & E)].
  { right. destruct (accepts_short (view_init (fun header => bson_vector_packed_bit_validate header (X ++ rest) (zlen X))) _ X rest Hs E eq_refl). auto. }
  assert (Hno : (forall l, c0 :: c1 :: s <> vec_data (VBits l)) -> forall v, is_bits v -> vec_ok v -> c0 :: c1 :: s <> vec_data v) by (intros H [l|l|l] Hv _; [done|done|apply H]).
  unfold bson_vector_packed_bit_view_init, view_init. rewrite E. sbind. unfold bson_vector_packed_bit_validate, BSON_VECTOR_HEADER_LEN. cbn [hb0 hb1].
  change (bson_vector_header_byte_0 _ _) with (Some 16). sbind. destruct (Z.eqb_spec (b2z c0) 16) as [E0|E0]; cbn [negb].
  2: { right. split; [apply Hno|done]. intros l [= -> _ _]. by apply E0. }
  unfold bson_vector_padding_from_header_byte_1. set (p := Z.land (b2z c1) 7). pose proof (b2z_range c1).
  assert (Hp : 0 <= p < 8) by (subst p; change 7 with (Z.ones 3); rewrite Z.land_ones by lia; apply Z.mod_pos_bound; lia).
  unfold bson_vector_header_byte_1. rewrite (proj2 (Z.leb_le p 7)) by lia. sbind. rewrite u8_id by lia.
  destruct (Z.eqb_spec (b2z c1) p) as [E1|E1]; cbn [negb].
  2: { right. split; [apply Hno|done]. intros l [= _ -> _]. apply E1. subst p. pose proof (padding_range (zlen l)). rewrite b2z_z2b_small by lia.
       change 7 with (Z.ones 3). rewrite Z.land_ones, Z.mod_small by lia. done. }
  pose proof (body_iff s p Hp) as Hb. rewrite !zlen_cons in *. pose proof (zlen_nonneg s). replace (1 + (1 + zlen s) - 2) with (zlen s) by lia. rewrite u32_id by lia.
  assert (Hyes : (exists l, s = vec_body (VBits l) /\ padding (zlen l) = p) -> exists v, is_bits v /\ vec_ok v /\ c0 :: c1 :: s = vec_data v /\
     (Header (b2z c0) (b2z c1)) = vec_header v).
  { intros (l & -> & Hl). exists (VBits l). split; [done|]. split; [done|]. unfold vec_data, header_bytes. cbn [vec_header hb0 hb1 app]. rewrite Hl, <- E1, <- E0, !z2b_b2z. done. }
  assert (Hnot : ~ (exists l, s = vec_body (VBits l) /\ padding (zlen l) = p) -> forall v, is_bits v -> vec_ok v -> c0 :: c1 :: s <> vec_data v).
  { intros Hn. apply Hno. intros l [= _ -> Es]. apply Hn. exists l. split; [done|]. pose proof (padding_range (zlen l)). rewrite <- E1. by rewrite b2z_z2b_small by lia. }
  destruct s as [|c s _] using rev_ind.
  - cbn [last] in Hb. change (zlen (@nil byte)) with 0. cbn [Z.eqb]. destruct (Z.eqb_spec p 0) as [Ep|Ep].
    + left. destruct (Hyes (proj2 Hb Ep)) as (v & ? & ? & Ev & Eh). exists v. rewrite Eh. done.
    + right. split; [|done]. apply Hnot. by rewrite Hb.
  - rewrite last_snoc in Hb. rewrite zlen_app, zlen_1 in Hz |- *. pose proof (zlen_nonneg s). destruct (Z.eqb_spec (zlen s + 1) 0); [lia|]. rewrite (u32_id (1 + (1 + (zlen s + 1)) - 1)) by lia.
    replace ((c0 :: c1 :: s ++ [c]) ++ rest) with ((c0 :: c1 :: s) ++ c :: rest) by (cbn; by rewrite <- app_assoc). rewrite rd_at by (rewrite !zlen_cons; lia). sbind.
    rewrite (proj1 (mask_op c p Hp)). case_bool_decide as Hd.
    + left. destruct (Hyes (proj2 Hb Hd)) as (v & ? & ? & Ev & Eh). exists v. rewrite Eh. done.
    + right. split; [|done]. apply Hnot. by rewrite Hb.
Qed.

(** ** Reading and writing through a view *)

(** What a memory promises: [R m X] when it holds the bytes [X] of a vector. *)
Class VectorMemLaws (M : Type) {HM : VectorMem M} (R : M -> bytes -> Prop) := {
  vm_get_law m A s B : R m (A ++ s ++ B) -> vm_get m (zlen A) (zlen s) = Some s;
  vm_put_law m A old B s : R m (A ++ old ++ B) -> zlen s = zlen old -> exists m', vm_put m (zlen A) s = Some m' /\ R m' (A ++ s ++ B)
}.

Definition in_memory (m X : bytes) : Prop := exists rest, m = X ++ rest.
#[export] Instance bytes_mem_laws : VectorMemLaws bytes in_memory.
Proof.
  split.
  - intros m A s B (rest & ->). cbn. rewrite <- !app_assoc. by apply slice_at.
  - intros m A old B s (rest & ->) Hs. cbn. rewrite <- !app_assoc, (store_at A old) by done. eexists. split; [done|]. exists rest. by rewrite <- !app_assoc.
Qed.

(** The list with the elements [vs] from place [o] on. *)
Definition splice {A} (l : list A) (o : nat) (vs : list A) : list A := take o l ++ vs ++ drop (o + length vs) l.

Section Access.
Context {M : Type} {HM : VectorMem M} {R : M -> bytes -> Prop} {HR : VectorMemLaws M R}.
Implicit Types view : vector_view M.

(** The header and the bytes after it. *)
Definition raw_view view (hd : header_impl) (s : bytes) : Prop :=
  vv_header view = hd /\ vv_data_len view = 2 + zlen s /\ 2 + zlen s < 2 ^ 32 /\ R (vv_data view) (header_bytes hd ++ s).
Definition views view (v : vec) : Prop := raw_view view (vec_header v) (vec_body v).

Lemma raw_get view hd A s B : raw_view view hd (A ++ s ++ B) -> vm_get (vv_data view) (2 + zlen A) (zlen s) = Some s.
Proof using HR. intros (_ & _ & _ & H). rewrite app_assoc in H. replace (2 + zlen A) with (zlen (header_bytes hd ++ A)) by (by rewrite zlen_app). by eapply vm_get_law. Qed.
Lemma raw_put view hd A old B s : raw_view view hd (A ++ old ++ B) -> zlen s = zlen old ->
  exists view', put view (2 + zlen A) s = Some view' /\ raw_view view' hd (A ++ s ++ B).
Proof using HR.
  intros (Eh & El & Hz & H) Hs. unfold put. rewrite app_assoc in H. replace (2 + zlen A) with (zlen (header_bytes hd ++ A)) by (by rewrite zlen_app).
  destruct (vm_put_law _ _ _ _ s H Hs) as (m' & -> & Hm'). sbind. eexists. split; [done|]. split; [done|]. cbn [vv_data_len vv_data]. rewrite !zlen_app in *. rewrite Hs.
  split; [done|]. split; [lia|]. by rewrite <- app_assoc in Hm'.
Qed.
Lemma raw_len view hd s : raw_view view hd s -> u32 (vv_data_len view - BSON_VECTOR_HEADER_LEN) = zlen s.
Proof. intros (_ & -> & Hz & _). unfold BSON_VECTOR_HEADER_LEN. pose proof (zlen_nonneg s). rewrite u32_id by lia. lia. Qed.

Lemma in_bounds_spec len n o : 0 <= len < 2 ^ 63 -> 0 <= n -> 0 <= o -> in_bounds len n o = (o + n <=? len).
Proof.
  intros. unfold in_bounds. destruct (Z.leb_spec o len); cbn [andb]; [rewrite u64_id by lia|]; destruct (Z.leb_spec (o + n) len); lia.
Qed.

(** A list cut around a stretch of it. *)
Lemma cut_at {A} (l : list A) o n : 0 <= o -> 0 <= n -> o + n <= zlen l ->
  exists a s b, l = a ++ s ++ b /\ zlen a = o /\ zlen s = n /\ (forall vs, zlen vs = n -> splice l (Z.to_nat o) vs = a ++ vs ++ b) /\ s = take (Z.to_nat n) (drop (Z.to_nat o) l).
Proof.
  intros Ho Hn Hl. exists (take (Z.to_nat o) l), (take (Z.to_nat n) (drop (Z.to_nat o) l)), (drop (Z.to_nat n) (drop (Z.to_nat o) l)).
  rewrite !take_drop. split; [done|]. unfold zlen in *. rewrite !length_take, length_drop. split; [lia|]. split; [lia|]. split; [|done].
  intros vs Hvs. unfold splice. rewrite drop_drop. do 3 f_equal. lia.
Qed.

(** *** Integers *)

Lemma int8_read_spec view l n o : views view (VInt8 l) -> 0 <= n -> 0 <= o ->
  bson_vector_int8_const_view_read view n o = Some (if o + n <=? zlen l then Some (take (Z.to_nat n) (drop (Z.to_nat o) l)) else None).
Proof using HR.
  intros Hv Hn Ho. unfold bson_vector_int8_const_view_read, bson_vector_int8_const_view_length. rewrite (raw_len _ _ _ Hv). cbn [vec_body].
  pose proof Hv as (_ & _ & Hz & _). cbn [vec_body] in Hz. pose proof (zlen_nonneg l). rewrite in_bounds_spec by lia. destruct (Z.leb_spec (o + n) (zlen l)); [|done].
  destruct (cut_at l o n) as (a & s & b & El & <- & <- & _ & Es); [lia..|]. cbn [vec_body] in *. rewrite <- Es. unfold views in Hv. cbn [vec_body] in Hv. rewrite El in Hv.
  unfold BSON_VECTOR_HEADER_LEN. rewrite (raw_get _ _ _ _ _ Hv). done.
Qed.
Lemma int8_write_spec view l vs rest o : views view (VInt8 l) -> 0 <= o ->
  if o + zlen vs <=? zlen l
  then exists view', bson_vector_int8_view_write view (vs ++ rest) (zlen vs) o = Some (true, view') /\ views view' (VInt8 (splice l (Z.to_nat o) vs))
  else bson_vector_int8_view_write view (vs ++ rest) (zlen vs) o = Some (false, view).
Proof using HR.
  intros Hv Ho. pose proof (zlen_nonneg vs). pose proof (zlen_nonneg l). pose proof Hv as (_ & _ & Hz & _). cbn [vec_body] in Hz.
  unfold bson_vector_int8_view_write, bson_vector_int8_view_length, bson_vector_int8_const_view_length. rewrite (raw_len _ _ _ Hv). cbn [vec_body]. rewrite in_bounds_spec by lia.
  destruct (Z.leb_spec (o + zlen vs) (zlen l)); [|done]. rewrite slice_at_end_0 by done. sbind.
  destruct (cut_at l o (zlen vs)) as (a & s & b & El & <- & Hs & Hsp & _); [lia..|]. rewrite Hsp by done. unfold views in Hv. cbn [vec_body] in Hv. rewrite El in Hv.
  unfold BSON_VECTOR_HEADER_LEN. destruct (raw_put _ _ _ _ _ vs Hv) as (view' & -> & Hv'); [done|]. sbind. by exists view'.
Qed.

(** *** Floats *)

Lemma floats_app a b : bytes_of_floats (a ++ b) = bytes_of_floats a ++ bytes_of_floats b.
Proof. apply bind_app. Qed.
Lemma floats_of_spec l n : Forall is_u32 l -> n = length l -> floats_of n (bytes_of_floats l) = l.
Proof.
  intros Hl ->. induction Hl as [|f l Hf Hl IH]; [done|]. cbn [length floats_of]. change (bytes_of_floats (f :: l)) with (le_bytes 4 f ++ bytes_of_floats l).
  change 4%nat with (length (le_bytes 4 f)) at 1 3. rewrite take_app_length, drop_app_length, IH, le_val_le_bytes. f_equal. unfold is_u32 in Hf. apply Z.mod_small. change (256 ^ Z.of_nat 4) with (2 ^ 32). lia.
Qed.

Lemma float32_read_spec view l n o : views view (VFloat32 l) -> Forall is_u32 l -> 0 <= n -> 0 <= o ->
  bson_vector_float32_const_view_read view n o = Some (if o + n <=? zlen l then Some (take (Z.to_nat n) (drop (Z.to_nat o) l)) else None).
Proof using HR.
  intros Hv Hok Hn Ho. unfold bson_vector_float32_const_view_read, bson_vector_float32_const_view_length. rewrite (raw_len _ _ _ Hv). cbn [vec_body]. rewrite zlen_floats.
  pose proof Hv as (_ & _ & Hz & _). cbn [vec_body] in Hz. rewrite zlen_floats in Hz. pose proof (zlen_nonneg l). replace (4 * zlen l / 4) with (zlen l) by (Z.to_euclidean_division_equations; lia).
  rewrite in_bounds_spec by lia. destruct (Z.leb_spec (o + n) (zlen l)); [|done].
  destruct (cut_at l o n) as (a & s & b & El & Ha & Hs & _ & Es); [lia..|]. rewrite <- Es. unfold views in Hv. cbn [vec_body] in Hv. rewrite El, !floats_app in Hv.
  unfold BSON_VECTOR_HEADER_LEN. rewrite !u64_id by lia. replace (2 + o * 4) with (2 + zlen (bytes_of_floats a)) by (rewrite zlen_floats; lia).
  replace (n * 4) with (zlen (bytes_of_floats s)) by (rewrite zlen_floats; lia). rewrite (raw_get _ _ _ _ _ Hv). sbind. do 2 f_equal.
  apply floats_of_spec; [|unfold zlen in *; lia]. rewrite El, !Forall_app in Hok. apply Hok.
Qed.
Lemma float32_write_spec view l vs rest o : views view (VFloat32 l) -> 0 <= o ->
  if o + zlen vs <=? zlen l
  then exists view', bson_vector_float32_view_write view (vs ++ rest) (zlen vs) o = Some (true, view') /\ views view' (VFloat32 (splice l (Z.to_nat o) vs))
  else bson_vector_float32_view_write view (vs ++ rest) (zlen vs) o = Some (false, view).
Proof using HR.
  intros Hv Ho. pose proof (zlen_nonneg vs). pose proof (zlen_nonneg l). pose proof Hv as (_ & _ & Hz & _). cbn [vec_body] in Hz. rewrite zlen_floats in Hz.
  unfold bson_vector_float32_view_write, bson_vector_float32_view_length, bson_vector_float32_const_view_length. rewrite (raw_len _ _ _ Hv). cbn [vec_body]. rewrite zlen_floats.
  replace (4 * zlen l / 4) with (zlen l) by (Z.to_euclidean_division_equations; lia). rewrite in_bounds_spec by lia.
  destruct (Z.leb_spec (o + zlen vs) (zlen l)); [|done]. rewrite floats_app, slice_at_end_0 by (rewrite zlen_floats, u64_id; lia). sbind.
  destruct (cut_at l o (zlen vs)) as (a & s & b & El & Ha & Hs & Hsp & _); [lia..|]. rewrite Hsp by done. unfold views in Hv. cbn [vec_body] in Hv. rewrite El, !floats_app in Hv.
  unfold BSON_VECTOR_HEADER_LEN. rewrite u64_id by lia. replace (2 + o * 4) with (2 + zlen (bytes_of_floats a)) by (rewrite zlen_floats; lia).
  destruct (raw_put _ _ _ _ _ (bytes_of_floats vs) Hv) as (view' & -> & Hv'); [rewrite !zlen_floats; lia|]. sbind. exists view'. split; [done|]. unfold views. cbn [vec_body]. by rewrite !floats_app.
Qed.

(** *** Packed bits *)

Lemma bits_len view l : views view (VBits l) -> bson_vector_packed_bit_const_view_length view = zlen l.
Proof.
  intros Hv. unfold bson_vector_packed_bit_const_view_length, bson_vector_packed_bit_const_view_length_bytes, bson_vector_packed_bit_const_view_padding.
  rewrite (raw_len _ _ _ Hv). pose proof Hv as (-> & _ & Hz & _). cbn [vec_header hb1]. unfold bson_vector_padding_from_header_byte_1.
  pose proof (padding_range (zlen l)). change 7 with (Z.ones 3). rewrite Z.land_ones, Z.mod_small by lia.
  pose proof (f_equal length (bits_body l)) as El. rewrite length_bits, length_app, length_replicate in El. 
  assert (zlen (vec_body (VBits l)) * 8 = zlen l + padding (zlen l)) as -> by (unfold zlen in *; lia). pose proof (zlen_nonneg l). assert (zlen l < 2 ^ 36) by (unfold zlen in *; lia).
  rewrite (u64_id (zlen l + _)) by lia. rewrite u64_id; lia.
Qed.

Lemma packed_byte_spec view hd s1 c s2 i : raw_view view hd (s1 ++ c :: s2) -> zlen s1 = Z.shiftr i 3 -> packed_byte view i = Some (b2z c).
Proof using HR. intros Hv Hi. unfold packed_byte, BSON_VECTOR_HEADER_LEN. rewrite <- Hi. change (c :: s2) with ([c] ++ s2) in Hv. change 1 with (zlen [c]). rewrite (raw_get _ _ _ _ _ Hv). sbind. done. Qed.

Lemma unpack_loop_spec n view hd s i a vs b : raw_view view hd s -> bits s = a ++ vs ++ b -> length vs = n -> i = zlen a -> unpack_loop n view i = Some vs.
Proof using HR.
  revert i a vs. induction n as [|n IH]; intros i a vs Hv Hb Hn ->; [by destruct vs|]. destruct vs as [|v vs]; [done|]. cbn [unpack_loop].
  pose proof (f_equal length Hb) as Hl. rewrite length_bits, !length_app in Hl. cbn [length] in Hl, Hn.
  destruct (bits_split s (zlen a)) as (s1 & c & s2 & -> & H1 & H2 & H3); [unfold zlen in *; lia|]. rewrite (packed_byte_spec _ _ _ _ _ _ Hv H1). sbind.
  change (negb (Z.land (b2z c) _ =? 0)) with (read_bit (b2z c) (Z.land (zlen a) 7)). pose proof (bits_lookup s1 c s2 (Z.to_nat (Z.land (zlen a) 7)) ltac:(lia)) as Hk. rewrite <- H2, Z2Nat.id in Hk by lia.
  rewrite Hb, to_nat_zlen, lookup_app_r, Nat.sub_diag in Hk by lia. injection Hk as Hk. rewrite <- Hk.
  rewrite (IH (zlen a + 1) (a ++ [v]) vs Hv); [done|by rewrite <- app_assoc|lia|rewrite zlen_app, zlen_1; lia].
Qed.

Lemma unpack_spec view l n o : views view (VBits l) -> 0 <= n -> 0 <= o ->
  bson_vector_packed_bit_const_view_unpack_bool view n o = Some (if o + n <=? zlen l then Some (take (Z.to_nat n) (drop (Z.to_nat o) l)) else None).
Proof using HR.
  intros Hv Hn Ho. unfold bson_vector_packed_bit_const_view_unpack_bool. rewrite (bits_len _ _ Hv). pose proof Hv as (_ & _ & Hz & _). pose proof (zlen_nonneg l).
  pose proof (f_equal length (bits_body l)) as El. rewrite length_bits, length_app, length_replicate in El.
  rewrite in_bounds_spec by (unfold zlen in *; lia). destruct (Z.leb_spec (o + n) (zlen l)); [|done].
  destruct (cut_at l o n) as (a & s & b & E & <- & <- & _ & <-); [lia..|]. rewrite to_nat_zlen.
  rewrite (unpack_loop_spec (length s) view _ _ (zlen a) a s (b ++ replicate (Z.to_nat (padding (zlen l))) false) Hv); [done| |done|done].
  rewrite bits_body. rewrite E at 1. by rewrite <- !app_assoc.
Qed.

Lemma complete_byte_spec vs rest : length vs = 8%nat -> complete_byte 8 (vs ++ rest) 0 = Some (byte_of vs 128).
Proof.
  destruct vs as [|b7 [|b6 [|b5 [|b4 [|b3 [|b2 [|b1 [|b0 [|? ?]]]]]]]]]; try done. intros _. by destruct b7, b6, b5, b4, b3, b2, b1, b0.
Qed.

Lemma bit_step view hd s a o1 old b v : raw_view view hd s -> bits s = a ++ (o1 :: old) ++ b ->
  exists c view' s', packed_byte view (zlen a) = Some c /\ put view (BSON_VECTOR_HEADER_LEN + Z.shiftr (zlen a) 3) [z2b (write_bit c (Z.land (zlen a) 7) v)] = Some view' /\
    raw_view view' hd s' /\ bits s' = (a ++ [v]) ++ old ++ b.
Proof using HR.
  intros Hv Hb. pose proof (f_equal length Hb) as Hl. rewrite length_bits, !length_app in Hl. cbn [length] in Hl.
  destruct (bits_split s (zlen a)) as (s1 & c & s2 & -> & H1 & H2 & H3); [unfold zlen in *; lia|]. rewrite to_nat_zlen in H2. exists (b2z c).
  rewrite (packed_byte_spec _ _ _ _ _ _ Hv H1), <- H1. change (c :: s2) with ([c] ++ s2) in Hv.
  destruct (raw_put _ _ _ _ _ [z2b (write_bit (b2z c) (Z.land (zlen a) 7) v)] Hv) as (view' & E & Hv'); [done|]. exists view', (s1 ++ z2b (write_bit (b2z c) (Z.land (zlen a) 7) v) :: s2).
  split; [done|]. split; [exact E|]. split; [exact Hv'|]. pose proof (bits_insert s1 c s2 (Z.to_nat (Z.land (zlen a) 7)) v ltac:(lia)) as Hi.
  rewrite Z2Nat.id in Hi by lia. rewrite Hi, Hb, <- H2. rewrite <- app_assoc, <- (Nat.add_0_r (length a)), insert_app_r. done.
Qed.

Lemma byte_step view hd s a old b vs rest : raw_view view hd s -> bits s = a ++ old ++ b -> Z.land (zlen a) 7 = 0 -> length old = length vs -> (8 <= length vs)%nat ->
  exists c view' s' v8 vs' old', complete_byte 8 (vs ++ rest) 0 = Some c /\ c = byte_of v8 128 /\
    put view (BSON_VECTOR_HEADER_LEN + Z.shiftr (zlen a) 3) [z2b c] = Some view' /\
    raw_view view' hd s' /\ bits s' = (a ++ v8) ++ old' ++ b /\ vs = v8 ++ vs' /\ length v8 = 8%nat /\ length old' = length vs' /\ drop 8 (vs ++ rest) = vs' ++ rest.
Proof using HR.
  intros Hv Hb H0 Hol H8. pose proof (f_equal length Hb) as Hl. rewrite length_bits, !length_app in Hl.
  destruct (bits_split s (zlen a)) as (s1 & c & s2 & -> & H1 & H2 & H3); [unfold zlen in *; lia|]. rewrite to_nat_zlen, H0 in H2. change (Z.to_nat 0) with 0%nat in H2.
  assert (Ev : vs = take 8 vs ++ drop 8 vs) by (by rewrite take_drop). assert (Eo : old = take 8 old ++ drop 8 old) by (by rewrite take_drop).
  assert (Hv8 : length (take 8 vs) = 8%nat) by (rewrite length_take; lia). assert (Ho8 : length (take 8 old) = 8%nat) by (rewrite length_take; lia).
  assert (Hr : length (drop 8 old) = length (drop 8 vs)) by (rewrite !length_drop; lia).
  set (v8 := take 8 vs) in *. set (vs' := drop 8 vs) in *. set (o8 := take 8 old) in *. set (old' := drop 8 old) in *. clearbody v8 vs' o8 old'. subst vs old.
  exists (byte_of v8 128). rewrite <- H1. change (c :: s2) with ([c] ++ s2) in Hv. rewrite <- app_assoc, complete_byte_spec by done.
  destruct (raw_put _ _ _ _ _ [z2b (byte_of v8 128)] Hv) as (view' & E & Hv'); [done|]. exists view', (s1 ++ z2b (byte_of v8 128) :: s2), v8, vs', old'.
  rewrite bits_app, bits_cons, <- app_assoc in Hb. apply app_inj_1 in Hb as [<- Hb]; [|rewrite length_bits; lia]. apply app_inj_1 in Hb as [_ Hb]; [|done].
  split; [done|]. split; [done|]. split; [exact E|]. split; [exact Hv'|]. split; [rewrite bits_app, bits_cons, bits_of_byte, Hb, <- app_assoc by done; done|].
  split; [done|]. split; [done|]. split; [done|]. rewrite <- Hv8. by rewrite drop_app_length.
Qed.

(** The bits [old] in the middle become [vs]. *)
Lemma pack_loop_spec fuel : forall view hd s a old b vs rest n o, raw_view view hd s -> bits s = a ++ old ++ b -> o = zlen a -> n = zlen vs -> length old = length vs ->
  (length vs < fuel)%nat -> exists view' s', pack_loop fuel view (vs ++ rest) n o = Some view' /\ raw_view view' hd s' /\ bits s' = a ++ vs ++ b.
Proof using HR.
  induction fuel as [|fuel IH]; intros view hd s a old b vs rest n o Hv Hb -> -> Hol Hf; [lia|]. cbn [pack_loop].
  destruct vs as [|v vs]. { destruct old; [|done]. exists view, s. done. }
  rewrite zlen_cons. pose proof (zlen_nonneg vs). destruct (Z.ltb_spec 0 (1 + zlen vs)); [|lia]. destruct old as [|o1 old]; [done|]. cbn [length] in Hol, Hf.
  destruct ((8 <=? 1 + zlen vs) && (Z.land (zlen a) 7 =? 0)) eqn:E8.
  - apply andb_true_iff in E8 as [H8%Z.leb_le Hal%Z.eqb_eq]. destruct (byte_step view hd s a (o1 :: old) b (v :: vs) rest Hv Hb) as (c & view' & s' & v8 & vs' & old' & -> & Ec & Ep & Hv' & Hb' & Ev & Hv8 & Hol' & Ed);
      [done|by cbn; rewrite Hol|unfold zlen in *; cbn [length]; lia|]. sbind. rewrite Ep. sbind. rewrite Ed.
    destruct (IH view' hd s' (a ++ v8) old' b vs' rest (1 + zlen vs - 8) (zlen a + 8) Hv' Hb') as (view2 & s2 & E & Hv2 & Hb2).
    + rewrite zlen_app. unfold zlen. lia.
    + apply (f_equal zlen) in Ev. rewrite zlen_cons, zlen_app in Ev. unfold zlen in *. lia.
    + done.
    + apply (f_equal length) in Ev. rewrite length_app in Ev. cbn [length] in Ev. lia.
    + exists view2, s2. rewrite E. split; [done|]. split; [done|]. rewrite Hb2, Ev. by rewrite <- !app_assoc.
  - destruct (bit_step view hd s a o1 old b v Hv Hb) as (c & view' & s' & -> & Ep & Hv' & Hb'). sbind. cbn [app head]. sbind. change (u8 (Z.lor _ _)) with (write_bit c (Z.land (zlen a) 7) v). rewrite Ep. sbind. cbn [tail].
    destruct (IH view' hd s' (a ++ [v]) old b vs rest (1 + zlen vs - 1) (zlen a + 1) Hv' Hb') as (view2 & s2 & E & Hv2 & Hb2); [by rewrite zlen_app|lia|lia|lia|].
    exists view2, s2. rewrite E. split; [done|]. split; [done|]. rewrite Hb2. by rewrite <- !app_assoc.
Qed.

Lemma views_bits view p s l : raw_view view (Header 16 p) s -> bits s = l ++ replicate (Z.to_nat p) false -> 0 <= p < 8 -> views view (VBits l).
Proof. intros Hv Hb Hp. destruct (body_bits l s p Hb Hp) as [Es Ep]. unfold views. cbn [vec_header]. rewrite <- Es, <- Ep. exact Hv. Qed.

Lemma zlen_splice {A} (l : list A) o vs : 0 <= o -> o + zlen vs <= zlen l -> zlen (splice l (Z.to_nat o) vs) = zlen l.
Proof. intros. unfold splice, zlen in *. rewrite !length_app, length_take, length_drop. lia. Qed.

Lemma bits_small view l : views view (VBits l) -> zlen (vec_body (VBits l)) < 2 ^ 32 /\ zlen l = 8 * zlen (vec_body (VBits l)) - padding (zlen l).
Proof.
  intros (_ & _ & Hz & _). pose proof (f_equal length (bits_body l)) as El. rewrite length_bits, length_app, length_replicate in El. pose proof (padding_range (zlen l)).
  unfold zlen in *. lia.
Qed.

Lemma pack_spec view l vs rest o : views view (VBits l) -> 0 <= o ->
  if o + zlen vs <=? zlen l
  then exists view', bson_vector_packed_bit_view_pack_bool view (vs ++ rest) (zlen vs) o = Some (true, view') /\ views view' (VBits (splice l (Z.to_nat o) vs))
  else bson_vector_packed_bit_view_pack_bool view (vs ++ rest) (zlen vs) o = Some (false, view).
Proof using HR.
  intros Hv Ho. pose proof (zlen_nonneg vs). pose proof (zlen_nonneg l). pose proof (bits_small view l Hv) as [Hz Hl]. pose proof (padding_range (zlen l)) as Hp.
  unfold bson_vector_packed_bit_view_pack_bool, bson_vector_packed_bit_view_length. rewrite (bits_len _ _ Hv), in_bounds_spec by lia.
  destruct (Z.leb_spec (o + zlen vs) (zlen l)); [|done]. destruct (cut_at l o (zlen vs)) as (a & s & b & El & Ha & Hs & Hsp & _); [lia..|].
  destruct (pack_loop_spec (S (Z.to_nat (zlen vs))) view _ _ a s (b ++ replicate (Z.to_nat (padding (zlen l))) false) vs rest (zlen vs) o Hv) as (view' & s' & -> & Hv' & Hb').
  - rewrite bits_body. rewrite El at 1. by rewrite <- !app_assoc.
  - done.
  - done.
  - unfold zlen in *. lia.
  - unfold zlen. lia.
  - sbind. exists view'. split; [done|]. apply (views_bits view' (padding (zlen l)) s'); [exact Hv'| |done]. rewrite Hb', (Hsp vs) by done. by rewrite <- !app_assoc.
Qed.

Lemma read_packed_spec view l n o : views view (VBits l) -> 0 <= n -> 0 <= o ->
  bson_vector_packed_bit_const_view_read_packed view n o =
    Some (if o + n <=? zlen (vec_body (VBits l)) then Some (take (Z.to_nat n) (drop (Z.to_nat o) (vec_body (VBits l)))) else None).
Proof using HR.
  intros Hv Hn Ho. unfold bson_vector_packed_bit_const_view_read_packed, bson_vector_packed_bit_const_view_length_bytes. rewrite (raw_len _ _ _ Hv).
  pose proof (bits_small view l Hv) as [Hz _]. pose proof (zlen_nonneg (vec_body (VBits l))). rewrite in_bounds_spec by lia. destruct (Z.leb_spec (o + n) (zlen (vec_body (VBits l)))); [|done].
  destruct (cut_at (vec_body (VBits l)) o n) as (a & s & b & El & <- & <- & _ & <-); [lia..|]. unfold views in Hv. rewrite El in Hv.
  unfold BSON_VECTOR_HEADER_LEN. rewrite (raw_get _ _ _ _ _ Hv). done.
Qed.

Lemma take_bits X c n p : (p < 8)%nat -> n = (length (bits X) + (8 - p))%nat -> take n (bits (X ++ [c])) = bits X ++ take (8 - p) (bits_of c).
Proof. intros Hp ->. rewrite bits_app, take_app_add. change (bits [c]) with (bits_of c ++ []). by rewrite app_nil_r. Qed.
Lemma keep_zeros X X' c l z : bits (X ++ [c]) = l ++ z -> length X' = length X -> (length z <= 8)%nat -> bits (X' ++ [c]) = take (length l) (bits (X' ++ [c])) ++ z.
Proof.
  intros E Hl Hz. rewrite <- (take_drop (length l) (bits (X' ++ [c]))) at 1. f_equal. pose proof (f_equal (drop (length l)) E) as Ed. rewrite drop_app_length in Ed. rewrite <- Ed.
  apply (f_equal length) in E. rewrite length_bits, !length_app in E. cbn [length] in E. rewrite !bits_app, !drop_app_ge by (rewrite length_bits; lia).
  rewrite !length_bits. by rewrite Hl.
Qed.

(** The bits past the last element stay zero, whatever is written. *)
Lemma write_packed_spec view l t rest o : views view (VBits l) -> 0 <= o ->
  if o + zlen t <=? zlen (vec_body (VBits l))
  then exists view', bson_vector_packed_bit_view_write_packed view (t ++ rest) (zlen t) o = Some (true, view') /\
    views view' (VBits (take (length l) (bits (splice (vec_body (VBits l)) (Z.to_nat o) t))))
  else bson_vector_packed_bit_view_write_packed view (t ++ rest) (zlen t) o = Some (false, view).
Proof using HR.
  intros Hv Ho. pose proof (zlen_nonneg t). pose proof (zlen_nonneg l). pose proof (bits_small view l Hv) as [Hz Hl]. pose proof (padding_range (zlen l)) as Hp.
  pose proof (bits_body l) as Hb. set (body := vec_body (VBits l)) in *. pose proof (zlen_nonneg body).
  unfold bson_vector_packed_bit_view_write_packed, bson_vector_packed_bit_view_length_bytes, bson_vector_packed_bit_const_view_length_bytes. rewrite (raw_len _ _ _ Hv). fold body.
  rewrite in_bounds_spec by lia. destruct (Z.leb_spec (o + zlen t) (zlen body)); [|done]. rewrite u64_id by lia.
  destruct (cut_at body o (zlen t)) as (a & s & b & El & Ha & Hs & Hsp & _); [lia..|]. rewrite (Hsp t) by done. unfold views in Hv. fold body in Hv. rewrite El in Hv.
  assert (Hzb : zlen body = o + zlen t + zlen b) by (rewrite El, !zlen_app; lia). pose proof (zlen_nonneg b).
  destruct (Z.eqb_spec (zlen t) (zlen body - o)) as [Ee|Ee]; cbn [andb]; [destruct (Z.leb_spec 1 (zlen t)) as [E1|E1]|].
  - (* the last byte *)
    assert (b = []) as -> by (apply zlen_0; lia). rewrite app_nil_r in *. destruct t as [|c t _] using rev_ind; [done|]. rewrite zlen_app, zlen_1 in *.
    destruct s as [|c0 s _] using rev_ind; [change (zlen (@nil byte)) with 0 in *; lia|]. rewrite zlen_app, zlen_1 in Hs. replace (zlen t + 1 - 1) with (zlen t) by lia.
    rewrite <- app_assoc, slice_at_end_0 by done. sbind. unfold BSON_VECTOR_HEADER_LEN. subst o.
    destruct (raw_put _ _ a s [c0] t Hv) as (view1 & -> & Hv1); [lia|]. sbind. cbn [app]. rewrite rd_at by done. sbind.
    replace (2 + zlen a + zlen t) with (2 + zlen (a ++ t)) by (rewrite zlen_app; lia). rewrite app_assoc in Hv1. rewrite <- (app_nil_r [c0]) in Hv1.
    assert (Hpad : bson_vector_packed_bit_view_padding view1 = padding (zlen l)).
    { unfold bson_vector_packed_bit_view_padding, bson_vector_packed_bit_const_view_padding, bson_vector_padding_from_header_byte_1. destruct Hv1 as (-> & _). cbn [vec_header hb1].
      change 7 with (Z.ones 3). rewrite Z.land_ones, Z.mod_small by lia. done. }
    rewrite Hpad. destruct (raw_put _ _ _ _ _ [z2b (u8 (Z.land (Z.shiftl 0xFF (padding (zlen l))) (b2z c)))] Hv1) as (view2 & -> & Hv2); [done|]. sbind. exists view2. split; [done|].
    rewrite app_nil_r in Hv2. eapply views_bits; [exact Hv2| |exact Hp]. 
    assert (Hn : length l = (length (bits (a ++ t)) + (8 - Z.to_nat (padding (zlen l))))%nat) by (rewrite length_bits, length_app; unfold zlen in *; lia).
    rewrite (app_assoc a t [c]), (take_bits (a ++ t) c _ (Z.to_nat (padding (zlen l)))) by (done || lia).
    rewrite bits_app. change (bits [?x]) with (bits_of x ++ []). rewrite app_nil_r, (proj2 (mask_op c _ Hp)). by rewrite app_assoc.
  - assert (t = []) as -> by (apply zlen_0; lia). change (zlen (@nil byte)) with 0 in *. rewrite slice_nil by (pose proof (zlen_nonneg ([] ++ rest)); lia). sbind.
    assert (s = []) as -> by (by apply zlen_0). unfold BSON_VECTOR_HEADER_LEN. subst o. destruct (raw_put _ _ a [] b [] Hv) as (view1 & -> & Hv1); [done|]. sbind. exists view1. split; [done|].
    cbn [app] in *. rewrite <- El in Hv1 |- *. rewrite Hb, take_app_length. exact Hv1.
  - rewrite slice_at_end_0 by done. sbind. unfold BSON_VECTOR_HEADER_LEN. rewrite <- Ha. destruct (raw_put _ _ _ _ _ t Hv) as (view1 & -> & Hv1); [done|]. sbind. exists view1. split; [done|].
    eapply views_bits; [exact Hv1| |exact Hp]. destruct b as [|c b _] using rev_ind; [change (zlen (@nil byte)) with 0 in *; lia|].
    rewrite El, !app_assoc in Hb. rewrite !app_assoc. apply (keep_zeros _ _ _ _ _ Hb); [rewrite !length_app; unfold zlen in *; lia|rewrite length_replicate; lia].
Qed.
End Access.
