(* ===== verification/BsonVectorArrays.v ===== *)
(** Vectors inside documents: made uninitialised and filled, from arrays and into arrays,
    against [convert] and [vec_values]. *)

From Stdlib Require Import Strings.String.
From S2P Require Import Prelude IntEncode CString Text BsonTypes BsonIter BsonSpec BsonIterSpec BsonView BsonT BsonTSpec BsonKeys.
From S2P Require Import BsonIterFind BsonAppend BsonAppendSpec BsonBuild BsonDocSpec Calendar BsonVector BsonVectorSpec.

(** ** Vectors inside documents *)

(** What an append that succeeds keeps of the document: [appends] in its success case. *)
Definition extended (h : heap) (b : bson_t) (h' : heap) (b' : bson_t) : Prop :=
  frame h b h' b' /\
  flag_clear (b_flags b') BSON_FLAG_INLINE = flag_clear (b_flags b) BSON_FLAG_INLINE /\
  (is_inline b = false -> b_buf b' = b_buf b /\ b_realloc b' = b_realloc b /\ b_depth b' = b_depth b /\ is_inline b' = false) /\
  (is_inline b = true -> is_inline b' = false -> b_realloc b' = true /\ b_depth b' = 0).

Lemma appends_iff h b pre d es x : appends h b pre d es x <->
  exists h' b', x = Some (fits h b (zlen (enc_elems es)), h', b') /\
    if fits h b (zlen (enc_elems es)) then exists tail', stored h' b' pre (d ++ es) tail' /\ extended h b h' b' else h' = h /\ b' = b.
Proof. reflexivity. Qed.

Lemma rewritten_extended h0 b0 h b h' b' : extended h0 b0 h b -> rewritten h b h' b' -> extended h0 b0 h' b'.
Proof.
  intros (Hf & Hfl & H1 & H2) [Hin Hde Hbu Hof Hre Hfg (F & N & S)]. unfold extended. rewrite Hfg, Hin, Hre, Hde, Hbu. split; [|done].
  eapply frame_trans; [exact Hf|]. split; [|split; [done|split; [|done]]].
  - intros c _ Hc. apply F. by rewrite Hin, Hbu.
  - intros Hi. left. split; [congruence|done].
Qed.

Section DocMemory.
Context (h0 : heap) (b0 : bson_t) (pre : bytes) (d : doc) (k : bytes).

(** The document in the memory is the old one and a vector binary with the bytes [X]. *)
Definition doc_holds (m : doc_mem) (X : bytes) : Prop :=
  (exists tail, stored (dm_heap m) (dm_bson m) pre (d ++ [(k, BBinary 9 X)]) tail) /\
  dm_off m = b_len (dm_bson m) - 1 - zlen X /\ extended h0 b0 (dm_heap m) (dm_bson m).

Definition before_binary (n : Z) : bytes :=
  le_bytes 4 (zlen (enc_doc d) + (7 + zlen k + n)) ++ enc_elems d ++ hdr BSON_TYPE_BINARY k ++ le_bytes 4 n ++ [z2b 9].
Lemma enc_binary_snoc X : enc_doc (d ++ [(k, BBinary 9 X)]) = before_binary (zlen X) ++ X ++ [x00].
Proof.
  rewrite enc_doc_snoc, enc_elems_1. cbn [bval_type enc_val]. unfold enc_binary. change (9 =? BSON_SUBTYPE_BINARY_DEPRECATED) with false.
  unfold before_binary. rewrite <- !app_assoc. do 2 f_equal. rewrite !zlen_app, zlen_hdr, zlen_le_bytes, zlen_1. lia.
Qed.
Lemma zlen_before X : zlen (before_binary (zlen X)) = zlen (enc_doc (d ++ [(k, BBinary 9 X)])) - 1 - zlen X.
Proof. rewrite enc_binary_snoc, !zlen_app, zlen_1. lia. Qed.

#[export] Instance doc_mem_laws : VectorMemLaws doc_mem doc_holds.
Proof.
  split.
  - intros m A s B ([tail Hst] & Ho & _). pose proof Hst as (Hl & _). cbn [vm_get doc_vector_mem]. rewrite (stored_data _ _ _ _ _ Hst). sbind. rewrite Ho, Hl, <- zlen_before, enc_binary_snoc, <- !app_assoc.
    rewrite (app_assoc (before_binary _) A). apply slice_at; rewrite ?zlen_app; done.
  - intros m A old B s ([tail Hst] & Ho & He) Hs. pose proof Hst as (Hl & Hm & Hb & _). rewrite enc_binary_snoc in Hb.
    assert (Ez : zlen (A ++ s ++ B) = zlen (A ++ old ++ B)) by (rewrite !zlen_app; lia).
    set (P := before_binary (zlen (A ++ old ++ B))) in *.
    assert (Hb' : bson_buffer (dm_heap m) (dm_bson m) = Some ((pre ++ P ++ A) ++ old ++ (B ++ [x00] ++ tail), zlen pre)) by (rewrite Hb; by rewrite <- !app_assoc).
    cbn [vm_put doc_vector_mem]. destruct (bson_store_spec _ _ _ _ _ _ (dm_off m + zlen A) s Hb') as (h' & b' & -> & Hb2 & Hl2 & Hr); [|done|].
    { rewrite Ho, Hl, <- zlen_before. fold P. rewrite !zlen_app. lia. }
    sbind. eexists. split; [done|]. cbn.
    assert (Ezd : zlen (enc_doc (d ++ [(k, BBinary 9 (A ++ s ++ B))])) = zlen (enc_doc (d ++ [(k, BBinary 9 (A ++ old ++ B))]))) by (rewrite !enc_binary_snoc, !(zlen_app (before_binary _)), Ez, !zlen_app; lia).
    unfold doc_holds. cbn [dm_heap dm_bson dm_off]. split; [|split; [rewrite Hl2, Ez; done|by eapply rewritten_extended]].
    exists tail. apply (rewritten_stored _ _ _ _ _ _ _ _ tail Hst Hr).
    + rewrite Hb2, enc_binary_snoc, Ez. fold P. by rewrite <- !app_assoc.
    + by rewrite Hl2, Ezd.
    + by rewrite Ezd.
    + rewrite !zlen_app, Ezd. lia.
    + intros Hi. destruct Hst as (_ & _ & _ & Ht). rewrite Hi in Ht. lia.
Qed.
End DocMemory.

(** *** Bytes that are not written *)

Lemma store_same h b A s R o data : bson_buffer h b = Some (A ++ s ++ R, o) -> o + data = zlen A -> bson_store h b data s = Some (h, b).
Proof.
  intros Hb Ho. unfold bson_store. rewrite Hb. sbind. rewrite (store_at A s R) by done. sbind. f_equal.
  unfold bson_buffer, set_buffer in *. destruct (is_inline b).
  - injection Hb as <- _. by destruct b.
  - destruct (h_cells h !! b_buf b) as [m|] eqn:E; [|done]. injection Hb as <- _. unfold heap_set. rewrite insert_id by done. by destruct h.
Qed.

Lemma apply_loop_app l1 l2 : forall h b data, apply_loop (l1 ++ l2) h b data = '(h, b, data) ← apply_loop l1 h b data; apply_loop l2 h b data.
Proof.
  induction l1 as [|a l1 IH]; intros h b data; [done|]. cbn [app apply_loop]. destruct (match a_bytes a with Some m => _ | None => _ end) as [[h' b']|]; [|done].
  sbind. apply IH.
Qed.

(** Room for [n] bytes is what is there. *)
Lemma apply_loop_uninit l p n h b A R o data : args_are l p -> bson_buffer h b = Some (A ++ R, o) -> o + data = zlen A -> 0 <= n -> zlen p + n <= zlen R ->
  0 <= b_len b -> b_len b + zlen p < 2 ^ 32 ->
  exists X, zlen X = n /\ apply_loop (l ++ [AppendArg None n]) h b data = apply_loop (l ++ [AppendArg (Some X) n]) h b data.
Proof.
  intros Ha Hb Ho Hn HR Hl Hm. destruct (apply_loop_spec l p Ha h b A R o data Hb Ho) as (h1 & b1 & E & Hb1 & _ & Hr); [lia..|].
  exists (take (Z.to_nat n) (drop (length p) R)). assert (Hz : zlen (take (Z.to_nat n) (drop (length p) R)) = n) by (unfold zlen in *; rewrite length_take, length_drop; lia).
  split; [done|]. rewrite !apply_loop_app, E. sbind. cbn [apply_loop a_bytes a_length]. set (X := take _ _) in *. assert (slice X 0 n = Some X) as -> by (by apply (slice_at_end [] X)). sbind.
  rewrite <- (take_drop (Z.to_nat n) (drop (length p) R)) in Hb1. fold X in Hb1. rewrite app_assoc in Hb1.
  rewrite (store_same _ _ _ _ _ _ _ Hb1) by (rewrite zlen_app; lia). done.
Qed.

Section Uninit.
Local Open Scope clib_scope.
Context (malloc : Z -> bytes).
Hypothesis Hmalloc : forall n, 0 <= n -> zlen (malloc n) = n.

Lemma apply_arguments_uninit h b pre d tail l p n : stored h b pre d tail -> args_are (args l) p -> n_bytes l = zlen p -> 0 <= n ->
  exists X, zlen X = n /\ apply_arguments malloc h b (add_argument None n l) = apply_arguments malloc h b (add_argument (Some X) n l).
Proof.
  intros Hst Ha Hp Hn. assert (Hany : exists X : bytes, zlen X = n) by (exists (replicate (Z.to_nat n) x00); unfold zlen; rewrite length_replicate; lia).
  destruct Hany as [Y HY]. assert (Hsame : forall P Q : option bres, P = Q -> exists X : bytes, zlen X = n /\ P = Q) by (intros; by exists Y).
  unfold add_argument. destruct (Z.ltb_spec (BSON_MAX_SIZE - n_bytes l) n); [by apply Hsame|]. destruct (Z.ltb_spec 0 n); [|by apply Hsame].
  unfold app_ret. cbn [apply_arguments args n_bytes]. destruct (Z.ltb_spec (BSON_MAX_SIZE - b_len b) (n_bytes l + n)); [by apply Hsame|].
  pose proof (zlen_nonneg p). destruct (grow_spec malloc Hmalloc h b pre d tail (n_bytes l + n) Hst) as (h1 & b1 & -> & Hg); [lia..|]. sbind.
  destruct (fits h b (n_bytes l + n)); cbn [negb]; [|by apply Hsame]. destruct Hg as (tail1 & Hst1 & Hroom & _). pose proof Hst1 as (Hl1 & Hm1 & Hb1 & Hi1).
  assert (Hrm : zlen p + n <= zlen tail1) by (destruct (is_inline b1); lia). rewrite enc_doc_app in Hb1.
  destruct (apply_loop_uninit (args l) p n h1 b1 (pre ++ le_bytes 4 (zlen (enc_doc d)) ++ enc_elems d) (x00 :: tail1) (zlen pre) (b_len b1 - 1) Ha) as (X & HX & E).
  - rewrite Hb1. by rewrite <- !app_assoc.
  - rewrite Hl1, zlen_enc_doc. zl.
  - done.
  - rewrite zlen_cons. lia.
  - rewrite Hl1. apply zlen_nonneg.
  - pose proof Hst as (Hl & _). unfold BSON_MAX_SIZE in *. lia.
  - exists X. split; [done|]. by rewrite E.
Qed.

Lemma binary_uninit_spec h b pre d tail key kl k n : stored h b pre d tail -> key_arg key kl k -> 0 <= n < 2 ^ 32 ->
  exists X, zlen X = n /\ appends h b pre d [(k, BBinary 9 X)] (_bson_append_binary malloc h b key kl BSON_SUBTYPE_VECTOR None n).
Proof.
  intros Hst Hk Hn. enough (exists X, zlen X = n /\ _bson_append_binary malloc h b key kl BSON_SUBTYPE_VECTOR None n = bson_append_binary malloc h b key kl BSON_SUBTYPE_VECTOR (Some X) n) as (X & HX & ->).
  { exists X. split; [done|]. rewrite <- (app_nil_r X) at 2. rewrite <- HX. eapply bson_append_binary_spec; [done|exact Hst|done|lia]. }
  unfold bson_append_binary, _bson_append_binary. change (BSON_SUBTYPE_VECTOR =? BSON_SUBTYPE_BINARY_DEPRECATED) with false.
  pose proof (field_args_builds BSON_TYPE_BINARY key kl k Hk) as Hf. destruct (field_args_cases BSON_TYPE_BINARY key kl k Hk) as ([l|] & E & Hl); rewrite E.
  2: { exists (replicate (Z.to_nat n) x00). split; [unfold zlen; rewrite length_replicate; lia|done]. }
  change (add_argument (Some ?c) ?m l) with (Some (Some l) &> add_argument (Some c) m).
  assert (Hb : builds (Some (Some l) &> add_argument (Some (le_bytes 4 n)) 4 &> add_argument (Some [z2b BSON_SUBTYPE_VECTOR]) 1) ((hdr BSON_TYPE_BINARY k ++ le_bytes 4 n) ++ [z2b 9])) by (apply builds_1, builds_le; done).
  unfold builds in Hb. destruct (zlen _ <=? BSON_MAX_SIZE).
  - destruct Hb as (l2 & E2 & Ha & Hz). rewrite E2. cbn [app_bind]. eapply apply_arguments_uninit; [done..|lia].
  - rewrite Hb. exists (replicate (Z.to_nat n) x00). split; [unfold zlen; rewrite length_replicate; lia|done].
Qed.
End Uninit.

(** *** A vector with room for its elements *)

Definition vector_elem (k : bytes) (v : vec) : bytes * bval := (k, BBinary 9 (vec_data v)).
Lemma zlen_binary k X : zlen (enc_elems [(k, BBinary 9 X)]) = 7 + zlen k + zlen X.
Proof.
  rewrite enc_elems_1. cbn [bval_type enc_val]. unfold enc_binary. change (9 =? BSON_SUBTYPE_BINARY_DEPRECATED) with false.
  rewrite !zlen_app, zlen_hdr, zlen_le_bytes, zlen_1. lia.
Qed.
Lemma zlen_vector_elem k v : zlen (enc_elems [vector_elem k v]) = 9 + zlen k + zlen (vec_body v).
Proof. unfold vector_elem. rewrite zlen_binary, zlen_data. lia. Qed.

Definition same_shape (v w : vec) : Prop :=
  match v, w with VInt8 a, VInt8 b => zlen a = zlen b | VFloat32 a, VFloat32 b => zlen a = zlen b | VBits a, VBits b => zlen a = zlen b | _, _ => False end.

Section Room.
Context (malloc : Z -> bytes).
Hypothesis Hmalloc : forall n, 0 <= n -> zlen (malloc n) = n.
Context (h : heap) (b : bson_t) (pre : bytes) (d : doc) (tail : bytes) (key : bytes) (kl : Z) (k : bytes).
Hypothesis Hst : stored h b pre d tail.
Hypothesis Hk : key_arg key kl k.
Abbreviation holds := (doc_holds h b pre d k).

Lemma append_uninit_spec n hd (last : option byte) : 0 <= n -> 2 + n < 2 ^ 32 -> (is_Some last -> 0 < n) ->
  exists h' b' r, append_uninit malloc h b key kl (2 + n) (Some hd) (option_map (fun c => [c]) last) = Some (h', b', r) /\
  if fits h b (9 + zlen k + n)
  then exists view s, r = Some view /\ zlen s = n /\ raw_view (R := holds) view hd s /\ (forall c, last = Some c -> exists s', s = s' ++ [c]) /\
    h' = dm_heap (vv_data view) /\ b' = dm_bson (vv_data view)
  else r = None /\ h' = h /\ b' = b.
Proof using Hmalloc Hst Hk.
  intros Hn Hm Hlast. unfold append_uninit, BSON_VECTOR_HEADER_LEN. destruct (Z.ltb_spec (2 + n) 2); [lia|].
  destruct (binary_uninit_spec malloc Hmalloc h b pre d tail key kl k (2 + n) Hst Hk ltac:(lia)) as (X & HX & (h1 & b1 & E & Hc)).
  unfold bson_append_binary_uninit. rewrite E. sbind. rewrite zlen_binary, HX in *. replace (7 + zlen k + (2 + n)) with (9 + zlen k + n) in * by lia.
  destruct (fits h b (9 + zlen k + n)); sbind; cbn [negb]; [|by exists h1, b1, None]. destruct Hc as (tail1 & Hst1 & He).
  destruct X as [|c0 [|c1 s]]; [change (zlen (@nil byte)) with 0 in *; lia|rewrite zlen_1 in *; lia|]. rewrite !zlen_cons in HX.
  assert (Hh : holds (DocMem h1 b1 (b_len b1 - 1 - (2 + n))) ([] ++ [c0; c1] ++ s)).
  { split; [by exists tail1|]. split; [|done]. cbn [dm_off dm_bson app]. rewrite !zlen_cons. lia. }
  destruct (vm_put_law _ _ _ _ (header_bytes hd) Hh) as (m & Em & Hm1); [done|]. change (zlen (@nil byte)) with 0 in Em. rewrite Em. sbind. cbn [app] in Hm1.
  destruct last as [c|]; cbn [option_map].
  - specialize (Hlast ltac:(by eexists)). destruct s as [|c' s _] using rev_ind; [change (zlen (@nil byte)) with 0 in *; lia|]. rewrite zlen_app, zlen_1 in HX.
    assert (Hm1' : holds m ((header_bytes hd ++ s) ++ [c'] ++ [])) by (by rewrite app_nil_r, <- app_assoc).
    destruct (vm_put_law _ _ _ _ [c] Hm1') as (m2 & Em2 & Hm2); [done|]. rewrite u32_id by lia. rewrite zlen_app in Em2. change (zlen (header_bytes hd)) with 2 in Em2.
    replace (2 + n - 1) with (2 + zlen s) by lia. rewrite Em2. sbind. eexists _, _, _. split; [done|]. eexists _, (s ++ [c]). split; [done|]. rewrite zlen_app, zlen_1.
    split; [lia|]. split; [|split; [|done]].
    + split; [done|]. cbn [vv_data_len vv_data]. rewrite zlen_app, zlen_1. split; [lia|]. split; [lia|]. by rewrite app_nil_r, <- app_assoc in Hm2.
    + intros c2 [= <-]. by exists s.
  - sbind. eexists _, _, _. split; [done|]. eexists _, s. split; [done|]. split; [lia|]. split; [|split; [done|done]]. split; [done|]. cbn [vv_data_len vv_data]. split; [lia|]. split; [lia|done].
Qed.

(** The view of a new vector with the shape of [v], when it fits. *)
Definition makes_view (v : vec) (x : option (heap * bson_t * option (vector_view doc_mem))) : Prop :=
  exists h' b' r, x = Some (h', b', r) /\
  if fits h b (zlen (enc_elems [vector_elem k v]))
  then exists view v0, r = Some view /\ same_shape v0 v /\ vec_ok v0 /\ views (R := holds) view v0 /\ h' = dm_heap (vv_data view) /\ b' = dm_bson (vv_data view)
  else r = None /\ h' = h /\ b' = b.

Lemma makes_view_too_long v hd last : BSON_MAX_SIZE < zlen (vec_body v) -> makes_view v (append_uninit malloc h b key kl 0 hd last).
Proof using Hst.
  intros Hl. exists h, b, None. split; [done|]. assert (fits h b (zlen (enc_elems [vector_elem k v])) = false) as ->; [|done].
  unfold fits. pose proof (stored_len _ _ _ _ _ Hst). pose proof (zlen_nonneg k). rewrite zlen_vector_elem. destruct (Z.leb_spec (b_len b + (9 + zlen k + zlen (vec_body v))) BSON_MAX_SIZE); [lia|done].
Qed.

Lemma int8_uninit_spec l : makes_view (VInt8 l) (bson_append_vector_int8_uninit malloc h b key kl (zlen l)).
Proof using Hmalloc Hst Hk.
  unfold bson_append_vector_int8_uninit, bson_vector_int8_binary_data_length, UINT32_MAX, BSON_VECTOR_HEADER_LEN. pose proof (zlen_nonneg l).
  destruct (Z.ltb_spec (2 ^ 32 - 1 - 2) (zlen l)); [apply makes_view_too_long; cbn [vec_body]; unfold BSON_MAX_SIZE; lia|].
  rewrite (u32_id (zlen l)), u32_id by lia. rewrite Z.add_comm.
  destruct (append_uninit_spec (zlen l) (Header 3 0) None) as (h' & b' & r & E & Hc); [lia|lia|intros [? ?]; done|]. exists h', b', r. split; [exact E|].
  rewrite zlen_vector_elem. cbn [vec_body]. destruct (fits h b _); [|done]. destruct Hc as (view & s & -> & Hs & Hv & _ & -> & ->). by exists view, (VInt8 s).
Qed.

Lemma float32_uninit_spec l : makes_view (VFloat32 l) (bson_append_vector_float32_uninit malloc h b key kl (zlen l)).
Proof using Hmalloc Hst Hk.
  unfold bson_append_vector_float32_uninit, bson_vector_float32_binary_data_length, UINT32_MAX, BSON_VECTOR_HEADER_LEN. pose proof (zlen_nonneg l).
  change ((2 ^ 32 - 1 - 2) / 4) with 1073741823.
  destruct (Z.ltb_spec 1073741823 (zlen l)); [apply makes_view_too_long; cbn [vec_body]; rewrite zlen_floats; unfold BSON_MAX_SIZE; lia|].
  rewrite (u32_id (zlen l)), u32_id by lia. replace (zlen l * 4 + 2) with (2 + 4 * zlen l) by lia.
  destruct (append_uninit_spec (4 * zlen l) (Header 39 0) None) as (h' & b' & r & E & Hc); [lia|lia|intros [? ?]; done|]. exists h', b', r. split; [exact E|].
  rewrite zlen_vector_elem. cbn [vec_body]. rewrite zlen_floats. destruct (fits h b _); [|done]. destruct Hc as (view & s & -> & Hs & Hv & _ & -> & ->).
  destruct (floats_exist s) as (l0 & -> & Hl0); [rewrite Hs; Z.to_euclidean_division_equations; lia|]. rewrite zlen_floats in Hs. exists view, (VFloat32 l0). cbn [same_shape vec_ok]. split_and!; [done|lia|done..].
Qed.

Lemma padding_code n : 0 <= n < 2 ^ 63 -> Z.land 7 (u64 (- n)) = padding n.
Proof.
  intros Hn. rewrite Z.land_comm. change 7 with (Z.ones 3). rewrite Z.land_ones by lia. unfold u64, padding. change (2 ^ 3) with 8. Z.to_euclidean_division_equations; lia.
Qed.

Lemma bits_uninit_spec l : zlen l < 2 ^ 63 -> makes_view (VBits l) (bson_append_vector_packed_bit_uninit malloc h b key kl (zlen l)).
Proof using Hmalloc Hst Hk.
  intros H63. unfold bson_append_vector_packed_bit_uninit, bson_vector_packed_bit_binary_data_length, UINT32_MAX, BSON_VECTOR_HEADER_LEN. pose proof (zlen_nonneg l).
  change (Z.min UINT64_MAX ((2 ^ 32 - 1 - 2) * 8)) with 34359738344. set (n := (zlen l + 7) / 8).
  assert (Hz : zlen (vec_body (VBits l)) = n) by (cbn [vec_body]; unfold zlen at 1; rewrite length_pack; fold n; subst n; Z.to_euclidean_division_equations; lia).
  destruct (Z.ltb_spec 34359738344 (zlen l)); [apply makes_view_too_long; rewrite Hz; subst n; unfold BSON_MAX_SIZE; Z.to_euclidean_division_equations; lia|].
  assert (Hn : 0 <= n <= 2 ^ 32 - 3) by (subst n; Z.to_euclidean_division_equations; lia). rewrite (u64_id (zlen l + 7)) by lia. fold n. rewrite (u32_id n), u32_id by lia.
  rewrite padding_code by lia. pose proof (padding_range (zlen l)) as Hp. unfold bson_vector_header_byte_1. rewrite (proj2 (Z.leb_le (padding (zlen l)) 7)) by lia. rewrite u8_id by lia.
  rewrite (Z.add_comm n). change (bson_vector_header_byte_0 _ _) with (Some 16). sbind.
  destruct (append_uninit_spec n (Header 16 (padding (zlen l))) (if (0 <? zlen l) && (0 <? padding (zlen l)) then Some x00 else None)) as (h' & b' & r & E & Hc); [lia|lia| |].
  { destruct (Z.ltb_spec 0 (zlen l)); [|by intros [? ?]]. intros _. subst n. Z.to_euclidean_division_equations; lia. }
  exists h', b', r. split; [rewrite <- E; by destruct (_ && _)|]. rewrite zlen_vector_elem, Hz. destruct (fits h b _); [|done]. destruct Hc as (view & s & -> & Hs & Hv & Hlast & -> & ->).
  exists view, (VBits (take (length l) (bits s))).
  assert (Hlen : zlen l + padding (zlen l) = 8 * zlen s) by (rewrite Hs; subst n; unfold padding; Z.to_euclidean_division_equations; lia).
  assert (Ht : length (take (length l) (bits s)) = length l) by (rewrite length_take, length_bits; unfold zlen in *; lia).
  assert (Hb : bits s = take (length l) (bits s) ++ replicate (Z.to_nat (padding (zlen l))) false).
  { rewrite <- (take_drop (length l) (bits s)) at 1. f_equal. destruct (Z.ltb_spec 0 (padding (zlen l))) as [Hpp|Hpp].
    - assert (Hl0 : 0 < zlen l) by (destruct (Z.eq_dec (zlen l) 0) as [E0|]; [rewrite E0 in Hpp; done|lia]). rewrite (proj2 (Z.ltb_lt 0 (zlen l)) Hl0) in Hlast. destruct (Hlast x00 eq_refl) as (s' & ->).
      rewrite bits_app. change (bits [x00]) with (replicate 8 false). rewrite zlen_app, zlen_1 in Hlen. rewrite drop_app_ge by (rewrite length_bits; unfold zlen in *; lia).
      rewrite drop_replicate. f_equal. rewrite length_bits. unfold zlen in *. lia.
    - replace (Z.to_nat (padding (zlen l))) with 0%nat by lia. apply drop_ge. rewrite length_bits. unfold zlen in *. lia. }
  cbn [same_shape vec_ok]. split_and!; [done|unfold zlen; lia|done| |done|done]. eapply views_bits; [exact Hv|exact Hb|exact Hp].
Qed.
End Room.

(** ** Vectors from arrays *)

(** What a value converts to, or the code of the error. *)
Definition int_of (v : bval) : option Z := match v with BInt32 i | BInt64 i => Some i | _ => None end.
Definition int8_of (v : bval) : Z + byte :=
  match int_of v with
  | None => inl BSON_VECTOR_ERROR_ARRAY_ELEMENT_TYPE
  | Some i => if bool_decide (-128 <= i <= 127) then inr (z2b i) else inl BSON_VECTOR_ERROR_ARRAY_ELEMENT_VALUE
  end.
Definition float32_of (v : bval) : Z + Z :=
  match v with BDouble x => inr (float_of_double x) | _ => inl BSON_VECTOR_ERROR_ARRAY_ELEMENT_TYPE end.
Definition bit_of (v : bval) : Z + bool :=
  match (match v with BBool c => Some (Z.b2z c) | _ => int_of v end) with
  | None => inl BSON_VECTOR_ERROR_ARRAY_ELEMENT_TYPE
  | Some i => if bool_decide (0 <= i <= 1) then inr (negb (i =? 0)) else inl BSON_VECTOR_ERROR_ARRAY_ELEMENT_VALUE
  end.

(** The elements of an array whose keys are the numerals from [i] on, or the code of
    the first error. *)
Fixpoint convert {A} (conv : bval -> Z + A) (i : Z) (e : doc) : Z + list A :=
  match e with
  | [] => inr []
  | (k, v) :: e' =>
      if decide (k = dec i) then
        match conv v with
        | inl c => inl c
        | inr a => match convert conv (i + 1) e' with inl c => inl c | inr l => inr (a :: l) end
        end
      else inl BSON_VECTOR_ERROR_ARRAY_KEY
  end.

Lemma length_convert {A} (conv : bval -> Z + A) e : forall i l, convert conv i e = inr l -> length l = length e.
Proof.
  induction e as [|[k v] e IH]; intros i l E; cbn [convert] in E; [by injection E as <-|]. case_decide; [|done]. destruct (conv v); [done|].
  destruct (convert conv (i + 1) e) as [|l'] eqn:E'; [done|]. injection E as <-. cbn. f_equal. by eapply IH.
Qed.

(** An iterator on an element of an array. *)
Definition on_element (k : bytes) (v : bval) (it : bson_iter_t) : Prop :=
  no_nul k /\ (exists P post, on_value P v post it) /\ it_len it <> 0 /\ exists rest, bson_iter_key it = Some (k ++ x00 :: rest).

Lemma elem_iter_on_element pre k v post len : wf_elem (k, v) -> 0 <= zlen pre -> zlen pre + zlen (enc_elem (k, v)) < len -> len < 2 ^ 31 -> on_element k v (elem_iter pre (k, v) post len).
Proof.
  intros He Hp Hl Hm. split; [apply He|]. split; [eexists _, _; apply (elem_iter_on_value pre (k, v)); [done|lia]|]. split; [cbn [elem_iter it_len]; pose proof (zlen_nonneg (enc_elem (k, v))); unfold elem_iter; isimpl; lia|].
  rewrite bson_iter_key_elem. by eexists.
Qed.

Lemma on_element_holds k v it t : on_element k v it -> iter_holds t it = Some (type_code (bval_type v) =? type_code t).
Proof. intros (_ & (P & post & Hon) & Hl & _). by eapply on_value_holds. Qed.
Lemma on_element_int k v it i : on_element k v it -> (match v with BBool c => Some (Z.b2z c) | _ => int_of v end) = Some i -> bson_iter_as_int64 it = Some i.
Proof.
  intros (_ & (P & post & Hon) & _) E. pose proof (bson_iter_value_of _ _ _ _ Hon) as Hv. destruct Hon as (_ & Ht & _). unfold bson_iter_value, bson_iter_as_int64 in *. rewrite Ht in *.
  revert Hv. sbind. rewrite type_of_code_code. destruct v; cbn [int_of bval_type value_of] in *; simplify_eq.
  - destruct (bson_iter_bool it); sbind; intros Hv; simplify_eq; done.
  - destruct (bson_iter_int32 it); sbind; intros Hv; simplify_eq; done.
  - destruct (bson_iter_int64 it); sbind; intros Hv; simplify_eq; done.
Qed.
Lemma on_element_double k x it : on_element k (BDouble x) it -> bson_iter_double it = Some x.
Proof.
  intros (_ & (P & post & Hon) & _). pose proof (bson_iter_value_of _ _ _ _ Hon) as Hv. destruct Hon as (_ & Ht & _). unfold bson_iter_value in Hv. rewrite Ht in Hv.
  revert Hv. sbind. rewrite type_of_code_code. cbn [bval_type value_of]. destruct (bson_iter_double it); sbind; intros Hv; by simplify_eq.
Qed.

(** A check sets the error of the conversion. *)
Definition has_error (e : option bson_error_t) (c : Z) : Prop := exists x, e = Some x /\ err_domain x = BSON_ERROR_VECTOR /\ err_code x = c.
Definition checks {A} (chk : check) (conv : bval -> Z + A) : Prop :=
  forall k v it, on_element k v it -> exists r, chk it = Some r /\ match conv v with inl c => has_error r c | inr _ => r = None end.

Lemma type_error_spec expected k v it : on_element k v it -> exists r, type_error expected it = Some r /\ has_error r BSON_VECTOR_ERROR_ARRAY_ELEMENT_TYPE.
Proof.
  intros Hon. pose proof (on_element_holds _ _ _ BSON_TYPE_EOD Hon) as Hh. destruct Hon as (Hk & _ & _ & rest & Ek). unfold type_error. rewrite Ek. sbind. rewrite cstr_app by done. sbind.
  unfold iter_holds in Hh. destruct (bson_iter_type it); [|done]. sbind. eexists. split; [done|]. eexists. done.
Qed.
Lemma value_error_spec vector k v it i : on_element k v it -> exists r, value_error vector it i = Some r /\ has_error r BSON_VECTOR_ERROR_ARRAY_ELEMENT_VALUE.
Proof.
  intros (Hk & _ & _ & rest & Ek). unfold value_error. rewrite Ek. sbind. rewrite cstr_app by done. sbind. eexists. split; [done|]. eexists. done.
Qed.

Lemma holds_int_spec k v it : on_element k v it -> holds_int it = Some (bool_decide (is_Some (int_of v))).
Proof.
  intros Hon. unfold holds_int. rewrite !(on_element_holds k v) by done. sbind. f_equal. by destruct v.
Qed.

Lemma check_int8_spec : checks check_int8 int8_of.
Proof.
  intros k v it Hon. unfold check_int8, int8_of. rewrite (holds_int_spec k v) by done. sbind. destruct (int_of v) as [i|] eqn:E; cbn [negb bool_decide].
  - rewrite bool_decide_true by by eexists. cbn [negb]. rewrite (on_element_int k v it i) by (done || by destruct v). sbind.
    case_bool_decide; [|].
    + destruct (Z.ltb_spec i (-128)); [lia|]. destruct (Z.ltb_spec 127 i); [lia|]. by exists None.
    + assert ((i <? -128) || (127 <? i) = true) as -> by lia. by eapply value_error_spec.
  - rewrite bool_decide_false by by intros [? ?]. cbn [negb]. by eapply type_error_spec.
Qed.
Lemma check_float32_spec : checks check_float32 float32_of.
Proof.
  intros k v it Hon. unfold check_float32, float32_of. rewrite (on_element_holds k v) by done. sbind.
  destruct v; cbn [bval_type negb]; try by eapply type_error_spec. by exists None.
Qed.
Lemma check_packed_bit_spec : checks check_packed_bit bit_of.
Proof.
  intros k v it Hon. unfold check_packed_bit, bit_of. rewrite (holds_int_spec k v), (on_element_holds k v) by done. sbind.
  destruct (match v with BBool c => _ | _ => _ end) as [i|] eqn:E.
  - assert (negb (bool_decide (is_Some (int_of v))) && negb (type_code (bval_type v) =? type_code BSON_TYPE_BOOL) = false) as -> by (by destruct v).
    rewrite (on_element_int k v it i) by done. sbind. case_bool_decide.
    + assert ((i <? 0) || (1 <? i) = false) as -> by lia. by exists None.
    + assert ((i <? 0) || (1 <? i) = true) as -> by lia. by eapply value_error_spec.
  - assert (negb (bool_decide (is_Some (int_of v))) && negb (type_code (bval_type v) =? type_code BSON_TYPE_BOOL) = true) as -> by (by destruct v).
    by eapply type_error_spec.
Qed.

Section FromArray.
Context (malloc : Z -> bytes).
Hypothesis Hmalloc : forall n, 0 <= n -> zlen (malloc n) = n.

Lemma expect_key_spec k v it i : on_element k v it -> 0 <= i < 2 ^ 32 ->
  exists r, bson_vector_from_array_expect_key malloc it i = Some r /\ if decide (k = dec i) then r = None else has_error r BSON_VECTOR_ERROR_ARRAY_KEY.
Proof using Hmalloc.
  intros (Hk & _ & _ & rest & Ek) Hi. unfold bson_vector_from_array_expect_key.
  destruct (bson_uint32_to_string_dec i (malloc 16) Hi (Hmalloc 16 ltac:(lia))) as [rest' ->]. sbind. rewrite Ek. sbind.
  destruct (strcmp_spec (dec i) k rest' rest) as (c & -> & Hc); [apply dec_no_nul|done|]. sbind. destruct (Z.eqb_spec c 0) as [E|E].
  - exists None. split; [done|]. apply Hc in E. by rewrite decide_True.
  - rewrite !cstr_app by (done || apply dec_no_nul). sbind. eexists. split; [done|]. rewrite decide_False by (intros ->; by apply E, Hc). by eexists.
Qed.

Lemma validate_loop_spec {A} chk (conv : bval -> Z + A) : checks chk conv -> forall e fuel i pre rest len it,
  wf_elems e -> len = zlen pre + zlen (enc_elems e) + 1 -> at_pos pre (enc_elems e ++ x00 :: rest) len it -> (length e < fuel)%nat ->
  0 <= i -> i + zlen e < 2 ^ 31 ->
  exists r, validate_loop malloc fuel chk it i = Some r /\
    match convert conv i e with inl c => exists x, r = inl x /\ has_error (Some x) c | inr l => r = inr (i + zlen l) end.
Proof using Hmalloc.
  intros Hchk. induction e as [|[k v] e IH]; intros [|fuel] i pre rest len it Hwf Hl Hat Hf Hi Hb; cbn [length] in Hf; try lia; cbn [validate_loop convert].
  - destruct (next_end pre rest len it) as (it' & -> & _); [done|rewrite Hl; zl|]. sbind. cbn [negb]. exists (inr i). split; [done|]. change (zlen (@nil A)) with 0. by rewrite Z.add_0_r.
  - apply Forall_cons_1 in Hwf as [He Hwf]. rewrite enc_elems_cons in *. rewrite <- app_assoc in Hat. pose proof Hat as (_ & _ & _ & Hp & Hmax). rewrite zlen_cons in Hb. pose proof (zlen_nonneg e).
    pose proof (zlen_nonneg (enc_elems e)). rewrite zlen_app in Hl. rewrite (next_elem pre (k, v) (enc_elems e ++ x00 :: rest) len it He) by (done || lia). sbind. cbn [negb].
    pose proof (elem_iter_on_element pre k v (enc_elems e ++ x00 :: rest) len He ltac:(lia) ltac:(lia) Hmax) as Hon.
    destruct (expect_key_spec k v _ i Hon ltac:(lia)) as (r & -> & Hr). sbind. case_decide; [subst r|].
    2: { destruct Hr as (x & -> & Hx). eexists. split; [done|]. exists x. split; [done|]. by exists x. }
    destruct (Hchk k v _ Hon) as (r & -> & Hr). sbind. destruct (conv v) as [c|a].
    { destruct Hr as (x & -> & Hx). eexists. split; [done|]. exists x. split; [done|]. by exists x. }
    subst r. rewrite u32_id by lia. destruct (IH fuel (i + 1) (pre ++ enc_elem (k, v)) rest len (elem_iter pre (k, v) (enc_elems e ++ x00 :: rest) len)) as (r & -> & Hr); [done|rewrite zlen_app; lia|by apply at_pos_next|lia|lia|lia|].
    exists r. split; [done|]. destruct (convert conv (i + 1) e) as [c|l]; [done|]. rewrite Hr, zlen_cons. f_equal. lia.
Qed.
End FromArray.

Lemma splice_one {A} (dn : list A) x l0 a : splice (dn ++ x :: l0) (Z.to_nat (zlen dn)) [a] = dn ++ a :: l0.
Proof. unfold splice. rewrite to_nat_zlen, take_app_length. by rewrite drop_app_add. Qed.

Section WriteLoop.
Context {R : doc_mem -> bytes -> Prop} {HR : VectorMemLaws doc_mem R}.
Implicit Types view : vector_view doc_mem.

(** [write] puts what the element converts to in its place. *)
Definition writes_one {A} (mk : list A -> vec) (conv : bval -> Z + A) (write : vector_view doc_mem -> bson_iter_t -> Z -> option (bool * vector_view doc_mem)) : Prop :=
  forall view dn x l0 k v it a, views (R := R) view (mk (dn ++ x :: l0)) -> on_element k v it -> conv v = inr a ->
  exists view', write view it (zlen dn) = Some (true, view') /\ views (R := R) view' (mk (dn ++ a :: l0)).

Lemma in_place {A} (dn : list A) x l0 : (zlen dn + 1 <=? zlen (dn ++ x :: l0)) = true.
Proof. pose proof (zlen_nonneg l0). rewrite zlen_app, zlen_cons. lia. Qed.

Lemma write_int8_spec : writes_one VInt8 int8_of write_int8.
Proof using HR.
  intros view dn x l0 k v it a Hv Hon E. unfold int8_of in E. destruct (int_of v) as [i|] eqn:Ei; [|done]. case_bool_decide; [|done]. injection E as <-.
  unfold write_int8. rewrite (on_element_int k v it i) by (done || by destruct v). sbind. pose proof (int8_write_spec view _ [z2b i] [] (zlen dn) Hv (zlen_nonneg dn)) as Hs.
  rewrite zlen_1, in_place, splice_one in Hs. exact Hs.
Qed.
Lemma write_float32_spec : writes_one VFloat32 float32_of write_float32.
Proof using HR.
  intros view dn x l0 k v it a Hv Hon E. assert (exists y, v = BDouble y /\ a = float_of_double y) as (y & -> & ->) by (destruct v; try done; injection E as <-; by eexists).
  unfold write_float32. rewrite (on_element_double _ _ _ Hon). sbind. pose proof (float32_write_spec view _ [float_of_double y] [] (zlen dn) Hv (zlen_nonneg dn)) as Hs.
  rewrite zlen_1, in_place, splice_one in Hs. exact Hs.
Qed.
Lemma write_packed_bit_spec : writes_one VBits bit_of write_packed_bit.
Proof using HR.
  intros view dn x l0 k v it a Hv Hon E. unfold bit_of in E. destruct (match v with BBool c => _ | _ => _ end) as [i|] eqn:Ei; [|done]. case_bool_decide; [|done]. injection E as <-.
  unfold write_packed_bit. rewrite (on_element_int k v it i) by done. sbind. pose proof (pack_spec view _ [negb (i =? 0)] [] (zlen dn) Hv (zlen_nonneg dn)) as Hs.
  rewrite zlen_1, in_place, splice_one in Hs. exact Hs.
Qed.

Lemma write_loop_spec {A} (mk : list A -> vec) conv write : writes_one mk conv write -> forall e dn l0 pre rest len it view l,
  wf_elems e -> len = zlen pre + zlen (enc_elems e) + 1 -> at_pos pre (enc_elems e ++ x00 :: rest) len it -> zlen dn + zlen e < 2 ^ 31 ->
  convert conv (zlen dn) e = inr l -> length l0 = length l -> views (R := R) view (mk (dn ++ l0)) ->
  exists view', write_loop (length l) write view it (zlen dn) = Some view' /\ views (R := R) view' (mk (dn ++ l)).
Proof.
  intros Hwr. induction e as [|[k v] e IH]; intros dn l0 pre rest len it view l Hwf Hl Hat Hb E Hll Hv; cbn [convert] in E.
  - injection E as <-. destruct l0; [|done]. by exists view.
  - case_decide; [|done]. destruct (conv v) as [|a] eqn:Ea; [done|]. destruct (convert conv (zlen dn + 1) e) as [|l'] eqn:E'; [done|]. injection E as <-. destruct l0 as [|x l0]; [done|].
    cbn [length write_loop]. apply Forall_cons_1 in Hwf as [He Hwf]. rewrite enc_elems_cons in *. rewrite <- app_assoc in Hat. pose proof Hat as (_ & _ & _ & Hp & Hmax). rewrite zlen_cons in Hb.
    pose proof (zlen_nonneg (enc_elems e)). pose proof (zlen_nonneg e). pose proof (zlen_nonneg dn). rewrite zlen_app in Hl. rewrite (next_elem pre (k, v) (enc_elems e ++ x00 :: rest) len it He) by (done || lia). sbind. cbn [negb].
    pose proof (elem_iter_on_element pre k v (enc_elems e ++ x00 :: rest) len He ltac:(lia) ltac:(lia) Hmax) as Hon.
    destruct (Hwr view dn x l0 k v _ a Hv Hon Ea) as (view1 & -> & Hv1). sbind. cbn [negb]. rewrite u32_id by lia.
    rewrite <- (zlen_1 a), <- zlen_app. rewrite <- (zlen_1 a), <- zlen_app in E'. change (dn ++ a :: l0) with (dn ++ [a] ++ l0) in Hv1. rewrite app_assoc in Hv1.
    destruct (IH (dn ++ [a]) l0 (pre ++ enc_elem (k, v)) rest len (elem_iter pre (k, v) (enc_elems e ++ x00 :: rest) len) view1 l') as (view2 & -> & Hv2);
      [done|rewrite zlen_app; lia|by apply at_pos_next|rewrite zlen_app, zlen_1; lia|exact E'|by injection Hll|exact Hv1|].
    exists view2. split; [done|]. by rewrite <- app_assoc in Hv2.
Qed.
End WriteLoop.

(** The document gets the vector of what the elements convert to when they do and it
    fits; otherwise an error is set and nothing changes. *)
Definition appends_vector {A} (mk : list A -> vec) (h : heap) (b : bson_t) (pre : bytes) (d : doc) (k : bytes) (r : Z + list A)
    (x : option (option bson_error_t * heap * bson_t)) : Prop :=
  exists e h' b', x = Some (e, h', b') /\
  match r with
  | inl c => has_error e c /\ h' = h /\ b' = b
  | inr l =>
      if fits h b (zlen (enc_elems [vector_elem k (mk l)]))
      then e = None /\ exists tail', stored h' b' pre (d ++ [vector_elem k (mk l)]) tail' /\ extended h b h' b'
      else has_error e BSON_VECTOR_ERROR_MAX_SIZE /\ h' = h /\ b' = b
  end.

Section FromArrays.
Context (malloc : Z -> bytes).
Hypothesis Hmalloc : forall n, 0 <= n -> zlen (malloc n) = n.
Context (h : heap) (b : bson_t) (pre : bytes) (d : doc) (tail : bytes) (key : bytes) (kl : Z) (k : bytes).
Hypothesis Hst : stored h b pre d tail.
Hypothesis Hk : key_arg key kl k.
Context (e : doc) (apre rest : bytes) (len : Z) (it : bson_iter_t).
Hypothesis Hwf : wf_elems e.
Hypothesis Hlen : len = zlen apre + zlen (enc_elems e) + 1.
Hypothesis Hat : at_pos apre (enc_elems e ++ x00 :: rest) len it.

Lemma array_small : zlen e < 2 ^ 31 /\ (length e < iter_fuel it)%nat.
Proof using Hlen Hat.
  destruct Hat as (_ & El & _ & Hp & Hm). pose proof (length_enc_elems e). unfold iter_fuel. rewrite El, Hlen. unfold zlen in *. lia.
Qed.

Lemma from_array_spec {A} (mk : list A -> vec) conv chk uninit write :
  checks chk conv -> (forall l, zlen l < 2 ^ 31 -> makes_view h b pre d k (mk l) (uninit h b key kl (zlen l))) ->
  writes_one (R := doc_holds h b pre d k) mk conv write ->
  (forall v0 l, same_shape v0 (mk l) -> exists l0, v0 = mk l0 /\ zlen l0 = zlen l) ->
  appends_vector mk h b pre d k (convert conv 0 e) (from_array malloc chk uninit write h b key kl it).
Proof using Hmalloc Hst Hwf Hlen Hat.
  intros Hchk Hun Hwr Hsh. destruct array_small as [Hsm Hf]. pose proof (zlen_nonneg e).
  destruct (validate_loop_spec malloc Hmalloc chk conv Hchk e _ 0 apre rest len it Hwf Hlen Hat Hf) as (r & E & Hr); [lia..|]. unfold from_array. rewrite E. sbind.
  destruct (convert conv 0 e) as [c|l] eqn:Ec.
  { destruct Hr as (x & -> & Hx). by exists (Some x), h, b. }
  subst r. rewrite Z.add_0_l. pose proof (length_convert _ _ _ _ Ec) as Hle.
  destruct (Hun l ltac:(unfold zlen in *; lia)) as (h1 & b1 & r & -> & Hm). sbind. unfold appends_vector. destruct (fits h b _).
  2: { destruct Hm as (-> & -> & ->). eexists _, h, b. split; [done|]. split; [|done]. by eexists. }
  destruct Hm as (view & v0 & -> & Hss & _ & Hv & -> & ->). destruct (Hsh _ _ Hss) as (l0 & -> & Hl0). rewrite to_nat_zlen.
  destruct (write_loop_spec mk conv write Hwr e [] l0 apre rest len it view l Hwf Hlen Hat) as (view2 & Ew & Hv2); [done|done|unfold zlen in *; lia|done|].
  change (zlen (@nil A)) with 0 in Ew. rewrite Ew. sbind. eexists _, _, _. split; [done|]. split; [done|].
  destruct Hv2 as (_ & _ & _ & (tail2 & Hst2) & _ & He2). by exists tail2.
Qed.

Lemma int8_from_array_spec : appends_vector VInt8 h b pre d k (convert int8_of 0 e) (bson_append_vector_int8_from_array malloc h b key kl it).
Proof using Hmalloc Hst Hk Hwf Hlen Hat.
  apply from_array_spec; [apply check_int8_spec| |apply write_int8_spec|].
  - intros l _. by eapply int8_uninit_spec.
  - intros [l0|l0|l0] l Hs; try done. by exists l0.
Qed.
Lemma float32_from_array_spec : appends_vector VFloat32 h b pre d k (convert float32_of 0 e) (bson_append_vector_float32_from_array malloc h b key kl it).
Proof using Hmalloc Hst Hk Hwf Hlen Hat.
  apply from_array_spec; [apply check_float32_spec| |apply write_float32_spec|].
  - intros l _. by eapply float32_uninit_spec.
  - intros [l0|l0|l0] l Hs; try done. by exists l0.
Qed.
Lemma packed_bit_from_array_spec : appends_vector VBits h b pre d k (convert bit_of 0 e) (bson_append_vector_packed_bit_from_array malloc h b key kl it).
Proof using Hmalloc Hst Hk Hwf Hlen Hat.
  apply from_array_spec; [apply check_packed_bit_spec| |apply write_packed_bit_spec|].
  - intros l Hl. eapply bits_uninit_spec; [done..|lia].
  - intros [l0|l0|l0] l Hs; try done. by exists l0.
Qed.
End FromArrays.

(** ** Arrays from vectors *)

Definition int8_val (c : byte) : bval := BInt32 (sext 8 (b2z c)).
Definition float32_val (f : Z) : bval := BDouble (double_of_float f).
Definition bit_val (v : bool) : bval := BInt32 (Z.b2z v).
Definition vec_values (v : vec) : list bval :=
  match v with VInt8 l => map int8_val l | VFloat32 l => map float32_val l | VBits l => map bit_val l end.

(** The numerals from [i] on as keys. *)
Definition numbered_from (i : Z) (vs : list bval) : doc := imap (fun j v => (dec (i + Z.of_nat j), v)) vs.
Lemma numbered_from_cons i v vs : numbered_from i (v :: vs) = (dec i, v) :: numbered_from (i + 1) vs.
Proof.
  unfold numbered_from. rewrite imap_cons, Z.add_0_r. f_equal. apply imap_ext. intros j x _. unfold compose. by replace (i + Z.of_nat (S j)) with (i + 1 + Z.of_nat j) by lia.
Qed.
Lemma numbered_eq vs : numbered vs = numbered_from 0 vs.
Proof. unfold numbered, numbered_from. apply imap_ext. intros j x _. by rewrite Z.add_0_l. Qed.
Lemma length_numbered i vs : length (numbered_from i vs) = length vs.
Proof. apply length_imap. Qed.

(** The values of an array with its numerals convert one by one. *)
Lemma convert_values {A} (conv : bval -> Z + A) (val : A -> bval) l i : Forall (fun a => conv (val a) = inr a) l -> convert conv i (numbered_from i (map val l)) = inr l.
Proof.
  intros Hl. revert i. induction Hl as [|a l Ha Hl IH]; intros i; [done|]. cbn [map]. rewrite numbered_from_cons. cbn [convert]. rewrite decide_True by done.
  by rewrite Ha, IH.
Qed.
Lemma int8_of_val c : int8_of (int8_val c) = inr c.
Proof. by destruct c. Qed.
Lemma float32_of_val f : float_ok f -> float32_of (float32_val f) = inr f.
Proof. intros Hf. unfold float32_of, float32_val. by rewrite float_double_float. Qed.
Lemma bit_of_val v : bit_of (bit_val v) = inr v.
Proof. by destruct v. Qed.

Lemma vec_data_inj v w : vec_ok v -> vec_ok w -> vec_data v = vec_data w -> v = w.
Proof.
  intros Hv Hw E. destruct v as [a|a|a], w as [c|c|c]; try done; unfold vec_data, header_bytes in E; cbn [vec_header hb0 hb1 vec_body app] in E.
  - by injection E as ->.
  - injection E as E. pose proof (f_equal zlen E) as El. rewrite !zlen_floats in El. f_equal. rewrite <- (floats_of_spec a (length a)), <- (floats_of_spec c (length c)), E by done. f_equal. unfold zlen in El. lia.
  - injection E as Ep Eb. apply (f_equal b2z) in Ep. pose proof (padding_range (zlen a)). pose proof (padding_range (zlen c)). rewrite !b2z_z2b_small in Ep by lia.
    apply (f_equal bits) in Eb. pose proof (bits_body a) as Ea. pose proof (bits_body c) as Ec. cbn [vec_body] in Ea, Ec. rewrite Ea, Ec, Ep in Eb. f_equal. by apply app_inv_tail in Eb.
Qed.

(** The vector that the bytes are, if any, is found by exactly one check. *)
Lemma accepts_vec init kind v rest : accepts init kind -> vec_ok v -> zlen (vec_data v) < 2 ^ 32 ->
  (kind v /\ init (vec_data v ++ rest) (zlen (vec_data v)) = Some (Some (VView (vec_data v ++ rest) (zlen (vec_data v)) (vec_header v)))) \/
  (~ kind v /\ init (vec_data v ++ rest) (zlen (vec_data v)) = Some None).
Proof.
  intros Ha Hv Hz. destruct (Ha (vec_data v) rest Hz) as [(w & Hk & Hw & Ed & E)|[Hno E]].
  - left. apply vec_data_inj in Ed as <-; done.
  - right. split; [|done]. intros Hk. by eapply Hno.
Qed.

Lemma memory_views v rest : zlen (vec_data v) < 2 ^ 32 -> views (R := in_memory) (VView (vec_data v ++ rest) (zlen (vec_data v)) (vec_header v)) v.
Proof. intros Hz. rewrite zlen_data in *. split; [done|]. split; [done|]. split; [done|]. by exists rest. Qed.

Section ToArray.
Context (malloc : Z -> bytes).
Hypothesis Hmalloc : forall n, 0 <= n -> zlen (malloc n) = n.

(** [append] appends to a builder the value of the element. *)
Definition appends_element (append : heap -> bson_array_builder_t -> Z -> option (bool * heap * bson_array_builder_t)) (vs : list bval) : Prop :=
  forall i v, vs !! Z.to_nat i = Some v -> 0 <= i -> exists f, (forall h bab, append h bab i = bson_array_builder_append_impl malloc f h bab) /\
    forall h b pre d tail key kl k, stored h b pre d tail -> key_arg key kl k -> appends h b pre d [(k, v)] (f h b key kl).

Lemma elements_loop_spec append vs : appends_element append vs -> forall rest dn h b pre d tail n, vs = dn ++ rest ->
  stored h b pre d tail -> writable b n -> zlen (enc_elems (numbered_from (zlen dn) rest)) <= n -> zlen vs < 2 ^ 32 ->
  exists h' b' tail' i', append_elements_loop (length rest) append h (ArrayBuilder (zlen dn) b) (zlen dn) = Some (true, h', ArrayBuilder i' b') /\
    stored h' b' pre (d ++ numbered_from (zlen dn) rest) tail' /\ writable b' (n - zlen (enc_elems (numbered_from (zlen dn) rest))) /\ carry h b h' b'.
Proof using Hmalloc.
  intros Happ. induction rest as [|v rest IH]; intros dn h b pre d tail n Evs Hst Hw Hn Hsm.
  - exists h, b, tail, (zlen dn). change (numbered_from (zlen dn) []) with (@nil elem) in *. rewrite app_nil_r. change (zlen (enc_elems [])) with 0. rewrite Z.sub_0_r. split_and!; try done. apply carry_refl.
  - rewrite numbered_from_cons in *. change ((dec (zlen dn), v) :: ?l) with ([(dec (zlen dn), v)] ++ l) in *. rewrite enc_elems_app, zlen_app in *. pose proof (zlen_nonneg dn). pose proof (zlen_nonneg rest).
    pose proof (zlen_nonneg (enc_elems (numbered_from (zlen dn + 1) rest))). assert (Hb : zlen dn + 1 + zlen rest < 2 ^ 32) by (rewrite Evs, zlen_app, zlen_cons in Hsm; lia).
    destruct (Happ (zlen dn) v) as (f & Ef & Hf); [rewrite Evs, to_nat_zlen, lookup_app_r, Nat.sub_diag by lia; done|done|].
    cbn [length append_elements_loop]. rewrite Ef. unfold bson_array_builder_append_impl. destruct (builder_key_spec malloc Hmalloc (ArrayBuilder (zlen dn) b)) as [krest ->]; [cbn; lia|]. sbind. cbn [bab_index bab_bson].
    destruct (appends_writable h b pre d tail _ _ n Hst (Hf h b pre d tail _ _ _ Hst (builder_key_arg (zlen dn) krest ltac:(lia))) Hw) as (h1 & b1 & tail1 & -> & Hst1 & Hw1 & Hc1); [lia|].
    sbind. cbn [negb]. rewrite u32_id by lia. pose proof (zlen_app dn [v]) as Ez. rewrite zlen_1 in Ez. rewrite <- Ez.
    destruct (IH (dn ++ [v]) h1 b1 pre (d ++ [(dec (zlen dn), v)]) tail1 (n - zlen (enc_elems [(dec (zlen dn), v)]))) as (h2 & b2 & tail2 & i2 & -> & Hst2 & Hw2 & Hc2); [by rewrite <- app_assoc|exact Hst1|exact Hw1|rewrite Ez; lia|done|].
    exists h2, b2, tail2, i2. rewrite Ez in *. split; [done|]. rewrite <- app_assoc in Hst2. split; [exact Hst2|]. split; [by rewrite Z.sub_add_distr|]. by eapply carry_trans.
Qed.

(** The child belongs to the parent's buffer, so that closing the builder frees nothing. *)
Lemma flag_test_lor f x y : flag_test f (Z.lor x y) = flag_test f x || flag_test f y.
Proof. unfold flag_test. rewrite Z.land_lor_distr_r. pose proof (Z.lor_eq_0_iff (Z.land f x) (Z.land f y)). destruct (Z.eqb_spec (Z.land f x) 0), (Z.eqb_spec (Z.land f y) 0), (Z.eqb_spec (Z.lor (Z.land f x) (Z.land f y)) 0); try done; tauto. Qed.
Lemma begin_no_free h b key kl t h' b' child : _bson_append_bson_begin malloc h b key kl t = Some (h', b', Some child) -> flag_test (b_flags child) BSON_FLAG_NO_FREE = true.
Proof.
  unfold _bson_append_bson_begin. destruct (_ || _); [done|]. destruct (field_args t key kl) as [[l|]|]; [|done|done].
  destruct (if is_inline b then _ else _) as [[[g h1] b1]|]; [|done]. sbind. destruct g; [|done]. cbn [negb]. destruct (is_inline b1); [done|].
  destruct (apply_arguments _ _ _ _) as [[[g h2] b2]|]; [|done]. sbind. destruct g; [|done]. cbn [negb]. by intros [= _ _ <-].
Qed.
Lemma destroy_no_free h b : flag_test (b_flags b) BSON_FLAG_NO_FREE = true -> bson_destroy h b = h.
Proof. intros E. unfold bson_destroy. by rewrite !flag_test_lor, E, orb_true_r. Qed.

(** An array of all the values, in a document with room for it. *)
Lemma array_from_spec elements append vs k : appends_element append vs -> no_nul k ->
  (forall h bab, elements h bab = append_elements_loop (length vs) append h bab 0) ->
  writes (fun h b => array_from malloc elements h b k (zlen k)) [(k, BArray (numbered vs))].
Proof using Hmalloc.
  intros Happ Hk He h b pre d tail n Hst Hw Hn. pose proof Hw as ([Hr _] & _). pose proof (stored_len _ _ _ _ _ Hst). pose proof Hn as Hn'.
  rewrite enc_elems_1, enc_val_array, zlen_app, zlen_enc_doc in Hn'. unfold BSON_MAX_SIZE in Hr. pose proof (zlen_nonneg (hdr (bval_type (BArray (numbered vs))) k)).
  pose proof (length_enc_elems (numbered vs)) as Hl. rewrite numbered_eq in Hl at 1. rewrite length_numbered in Hl. assert (Hsm : zlen vs < 2 ^ 32) by (unfold zlen in *; lia).
  set (body := fun h c => '(ok, h, bab) ← append_elements_loop (length vs) append h (ArrayBuilder 0 c) 0; Some (ok, h, bab_bson bab)).
  assert (Hbody : writes body (numbered vs)).
  { intros h1 b1 pre1 d1 tail1 n1 Hst1 Hw1 Hn1. rewrite numbered_eq in *. destruct (elements_loop_spec append vs Happ vs [] h1 b1 pre1 d1 tail1 n1 eq_refl Hst1 Hw1 Hn1 Hsm) as (h2 & b2 & tail2 & i2 & E & Hst2 & Hw2 & Hc2).
    change (zlen (@nil bval)) with 0 in E. exists h2, b2, tail2. split; [|done]. subst body. cbv beta. rewrite E. done. }
  destruct (sub_spec malloc Hmalloc body BSON_TYPE_ARRAY (numbered vs) k h b pre d tail n (or_intror eq_refl) Hk Hbody Hst Hw Hn) as (h1 & b1 & child & h2 & child2 & h3 & b3 & tail3 & E1 & E2 & (_ & Hsf & _) & E3 & H3).
  unfold array_from, bson_append_array_builder_begin, bson_append_array_begin. rewrite E1. sbind. cbn [option_map]. rewrite He. subst body. cbv beta in E2.
  destruct (append_elements_loop _ _ _ _ _) as [[[ok h2'] bab]|]; [|done]. revert E2. sbind. intros [= -> -> Eb]. unfold bson_append_array_builder_end, bson_append_array_end. rewrite Eb, E3. sbind.
  rewrite destroy_no_free; [by exists h3, b3, tail3|]. rewrite Hsf by done. by eapply begin_no_free.
Qed.

Lemma one_at {A} (l : list A) i a : 0 <= i -> l !! Z.to_nat i = Some a -> (i + 1 <=? zlen l) = true /\ take (Z.to_nat 1) (drop (Z.to_nat i) l) = [a].
Proof.
  intros Hi E. pose proof (lookup_lt_Some _ _ _ E). split; [unfold zlen; lia|]. change (Z.to_nat 1) with 1%nat. by rewrite (drop_S _ _ _ E).
Qed.

Section Kinds.
Context {view : vector_view bytes} {R : bytes -> bytes -> Prop} {HR : VectorMemLaws bytes R}.

Lemma int8_elements l k : views (R := R) view (VInt8 l) -> no_nul k -> writes (fun h b => bson_append_array_from_vector_int8 malloc h b k (zlen k) view) [(k, BArray (numbered (vec_values (VInt8 l))))].
Proof using HR Hmalloc.
  intros Hv Hk. cbn [vec_values]. unfold bson_append_array_from_vector_int8. eapply array_from_spec; [|done|].
  2: { intros h bab. unfold bson_array_builder_append_vector_int8_elements, bson_vector_int8_const_view_length. rewrite (raw_len _ _ _ Hv), to_nat_zlen, length_map. reflexivity. }
  intros i v Hi H0. apply list_lookup_fmap_Some in Hi as (c & -> & Hi). destruct (one_at _ _ _ H0 Hi) as [E1 E2].
  eexists. split; [intros h bab; rewrite (int8_read_spec _ _ _ _ Hv), E1, E2 by lia; sbind; rewrite rd_cons_0; sbind; reflexivity|]. intros. by eapply bson_append_int32_spec.
Qed.
Lemma float32_elements l k : views (R := R) view (VFloat32 l) -> Forall is_u32 l -> no_nul k -> writes (fun h b => bson_append_array_from_vector_float32 malloc h b k (zlen k) view) [(k, BArray (numbered (vec_values (VFloat32 l))))].
Proof using HR Hmalloc.
  intros Hv Hok Hk. cbn [vec_values]. unfold bson_append_array_from_vector_float32. eapply array_from_spec; [|done|].
  2: { intros h bab. unfold bson_array_builder_append_vector_float32_elements, bson_vector_float32_const_view_length. rewrite (raw_len _ _ _ Hv). cbn [vec_body]. rewrite zlen_floats, Z.mul_comm, Z.div_mul, to_nat_zlen, length_map by done. reflexivity. }
  intros i v Hi H0. apply list_lookup_fmap_Some in Hi as (c & -> & Hi). destruct (one_at _ _ _ H0 Hi) as [E1 E2].
  eexists. split; [intros h bab; rewrite (float32_read_spec _ _ _ _ Hv Hok), E1, E2 by lia; sbind; cbn [head]; sbind; reflexivity|]. intros. by eapply bson_append_double_spec.
Qed.
Lemma bits_elements l k : views (R := R) view (VBits l) -> no_nul k -> writes (fun h b => bson_append_array_from_vector_packed_bit malloc h b k (zlen k) view) [(k, BArray (numbered (vec_values (VBits l))))].
Proof using HR Hmalloc.
  intros Hv Hk. cbn [vec_values]. unfold bson_append_array_from_vector_packed_bit. eapply array_from_spec; [|done|].
  2: { intros h bab. unfold bson_array_builder_append_vector_packed_bit_elements. rewrite (bits_len _ _ Hv), to_nat_zlen, length_map. reflexivity. }
  intros i v Hi H0. apply list_lookup_fmap_Some in Hi as (c & -> & Hi). destruct (one_at _ _ _ H0 Hi) as [E1 E2].
  eexists. split; [intros h bab; rewrite (unpack_spec _ _ _ _ Hv), E1, E2 by lia; sbind; cbn [head]; sbind; reflexivity|]. intros. by eapply bson_append_int32_spec.
Qed.
End Kinds.
End ToArray.
