(* ===== verification/VectorTheorems.v ===== *)
(** The properties of vectors: what is a vector, its elements through a view, vectors
    from arrays and arrays from vectors. *)

From Stdlib Require Import Strings.String.
From S2P Require Import Prelude IntEncode CString Text BsonTypes BsonIter BsonSpec BsonIterSpec BsonView BsonT BsonTSpec BsonKeys.
From S2P Require Import BsonIterFind BsonAppend BsonAppendSpec BsonBuild BsonDocSpec Calendar BsonVector BsonVectorSpec BsonVectorArrays.
From S2P Require Import WriteTheorems.

(** ** Views *)

(** The three checks accept the bytes of the vectors of their kind and nothing else:
    the header, whole floats, zeros in the bits of the last byte that are not used. *)
Theorem vector_views_decide :
  accepts bson_vector_int8_const_view_init is_int8 /\
  accepts bson_vector_float32_const_view_init is_float32 /\
  accepts bson_vector_packed_bit_const_view_init is_bits.
Proof. split; [apply int8_accepts|split; [apply float32_accepts|apply bits_accepts]]. Qed.

(** Packing bits through a view of a vector in memory changes just those, when they are
    inside it; unpacking gives them back. *)
Theorem pack_unpack view l vs rest o :
  views (R := in_memory) view (VBits l) -> 0 <= o ->
  if o + zlen vs <=? zlen l
  then exists view', bson_vector_packed_bit_view_pack_bool view (vs ++ rest) (zlen vs) o = Some (true, view') /\
    views (R := in_memory) view' (VBits (splice l (Z.to_nat o) vs)) /\
    bson_vector_packed_bit_const_view_unpack_bool view' (zlen vs) o = Some (Some vs)
  else bson_vector_packed_bit_view_pack_bool view (vs ++ rest) (zlen vs) o = Some (false, view).
Proof.
  intros Hv Ho. pose proof (pack_spec view l vs rest o Hv Ho) as Hp. pose proof (zlen_nonneg vs).
  destruct (Z.leb_spec (o + zlen vs) (zlen l)); [|done]. destruct Hp as (view' & E & Hv'). exists view'. split; [done|]. split; [done|].
  rewrite (unpack_spec _ _ _ _ Hv') by lia. rewrite zlen_splice by lia. destruct (Z.leb_spec (o + zlen vs) (zlen l)); [|lia]. do 2 f_equal.
  unfold splice. rewrite drop_app_length' by (rewrite length_take; unfold zlen in *; lia).
  by rewrite take_app_length' by (unfold zlen; lia).
Qed.

(** ** Arrays *)

(** The function that appends a vector of the kind of [v] from an array, and what it
    makes of the elements. *)
Definition vector_from_array (malloc : Z -> bytes) (v : vec) :
    heap -> bson_t -> bytes -> Z -> bson_iter_t -> option (option bson_error_t * heap * bson_t) :=
  match v with
  | VInt8 _ => bson_append_vector_int8_from_array malloc
  | VFloat32 _ => bson_append_vector_float32_from_array malloc
  | VBits _ => bson_append_vector_packed_bit_from_array malloc
  end.
Definition vector_of (v : vec) (e : doc) : Z + vec :=
  match v with
  | VInt8 _ => sum_map id VInt8 (convert int8_of 0 e)
  | VFloat32 _ => sum_map id VFloat32 (convert float32_of 0 e)
  | VBits _ => sum_map id VBits (convert bit_of 0 e)
  end.
Definition no_signals (v : vec) : Prop := match v with VFloat32 l => Forall float_ok l | _ => True end.

Lemma appends_of_kind {A} (mk : list A -> vec) h b pre d k r x :
  appends_vector mk h b pre d k r x -> exists e h' b', x = Some (e, h', b') /\
  match sum_map id mk r with
  | inl c => has_error e c /\ h' = h /\ b' = b
  | inr v => if fits h b (zlen (enc_elems [vector_elem k v]))
      then e = None /\ exists tail', stored h' b' pre (d ++ [vector_elem k v]) tail' /\ extended h b h' b'
      else has_error e BSON_VECTOR_ERROR_MAX_SIZE /\ h' = h /\ b' = b
  end.
Proof. intros H. by destruct r. Qed.

Lemma vector_of_values v : no_signals v -> vector_of v (numbered (vec_values v)) = inr v.
Proof.
  intros Hv. rewrite numbered_eq. destruct v as [l|l|l]; cbn [vector_of vec_values].
  - rewrite (convert_values int8_of int8_val); [done|]. apply Forall_forall. intros c _. apply int8_of_val.
  - rewrite (convert_values float32_of float32_val); [done|]. eapply Forall_impl; [exact Hv|]. intros f. apply float32_of_val.
  - rewrite (convert_values bit_of bit_val); [done|]. apply Forall_forall. intros c _. apply bit_of_val.
Qed.

Lemma vector_size X P post it : on_value P (BBinary 9 X) post it -> zlen X < 2 ^ 32.
Proof.
  intros (_ & _ & _ & _ & _ & _ & _ & Hz). cbn [enc_val] in Hz. unfold enc_binary in Hz.
  change (9 =? BSON_SUBTYPE_BINARY_DEPRECATED) with false in Hz. cbn iota in Hz. autorewrite with zlen in Hz. lia.
Qed.

(** The view that the iterator on a vector gives. *)
Lemma view_at init kind v P post it :
  accepts init kind -> vec_ok v -> it_len it <> 0 -> on_value P (BBinary 9 (vec_data v)) post it ->
  (kind v /\ const_view_from_iter init it = Some (Some (VView (vec_data v ++ post) (zlen (vec_data v)) (vec_header v)))) \/
  (~ kind v /\ const_view_from_iter init it = Some None).
Proof.
  intros Ha Hv Hl Hon. unfold const_view_from_iter. rewrite (on_value_holds _ _ _ _ _ _ Hon eq_refl Hl). sbind.
  rewrite (binary_in _ _ _ _ _ Hon). sbind. apply accepts_vec; [done..|]. by eapply vector_size.
Qed.

Lemma array_from_ext malloc f g h b k n :
  (forall h bab, f h bab = g h bab) -> array_from malloc f h b k n = array_from malloc g h b k n.
Proof.
  intros E. unfold array_from. destruct (bson_append_array_builder_begin _ _ _ _ _) as [[[h1 b1] [child|]]|]; [|done..]. sbind. by rewrite E.
Qed.

Lemma array_from_vector malloc v k P post it :
  (forall n, 0 <= n -> zlen (malloc n) = n) -> vec_ok v -> no_nul k -> it_len it <> 0 -> on_value P (BBinary 9 (vec_data v)) post it ->
  writes (fun h b => bson_append_array_from_vector malloc h b k (zlen k) it) [(k, BArray (numbered (vec_values v)))].
Proof.
  intros Hm Hv Hk Hl Hon.
  pose proof (vector_size _ _ _ _ Hon) as Hz.
  pose proof (memory_views v post Hz) as Hw. set (view := VView _ _ _) in Hw.
  assert (E : forall h b, bson_append_array_from_vector malloc h b k (zlen k) it =
    match v with
    | VInt8 _ => bson_append_array_from_vector_int8 malloc h b k (zlen k) view
    | VFloat32 _ => bson_append_array_from_vector_float32 malloc h b k (zlen k) view
    | VBits _ => bson_append_array_from_vector_packed_bit malloc h b k (zlen k) view
    end).
  { intros h b. unfold bson_append_array_from_vector, bson_append_array_from_vector_int8, bson_append_array_from_vector_float32, bson_append_array_from_vector_packed_bit.
    pose proof (view_at bson_vector_int8_const_view_init is_int8 v P post it int8_accepts Hv Hl Hon) as H1. pose proof (view_at bson_vector_float32_const_view_init is_float32 v P post it float32_accepts Hv Hl Hon) as H2.
    pose proof (view_at bson_vector_packed_bit_const_view_init is_bits v P post it bits_accepts Hv Hl Hon) as H3.
    destruct v as [l|l|l]; apply array_from_ext; intros h' bab; unfold bson_array_builder_append_vector_elements;
      unfold bson_vector_int8_const_view_from_iter, bson_vector_float32_const_view_from_iter, bson_vector_packed_bit_const_view_from_iter.
    - destruct H1 as [[_ E1]|[[] _]]; [|done]. rewrite E1. done.
    - destruct H1 as [[[] _]|[_ E1]]. destruct H2 as [[_ E2]|[[] _]]; [|done]. rewrite E1. sbind. rewrite E2. done.
    - destruct H1 as [[[] _]|[_ E1]]. destruct H2 as [[[] _]|[_ E2]]. destruct H3 as [[_ E3]|[[] _]]; [|done]. rewrite E1. sbind. rewrite E2. sbind. rewrite E3. done. }
  intros h b pre d tail n Hst Hwr Hn. rewrite E.
  destruct v as [l|l|l].
  - by apply (int8_elements malloc Hm (R := in_memory) l k Hw Hk h b pre d tail n).
  - by apply (float32_elements malloc Hm (R := in_memory) l k Hw Hv Hk h b pre d tail n).
  - by apply (bits_elements malloc Hm (R := in_memory) l k Hw Hk h b pre d tail n).
Qed.

(** C40. Vectors and arrays: the element an iterator stands on, when it is a vector of any
    of the three kinds, is appended, in a document with room, as the array of its values,
    each a number under its numeral. From any array the vector of a kind is appended exactly when every key is
    its numeral, every element has a type and a value of that kind and the document has room;
    otherwise the error of the first element that has not is set, or that of the size, and
    nothing changes. The array of a vector's values gives the vector back, for floats
    that are not signalling NaNs. *)
Theorem vector_array_roundtrip malloc v k :
  (forall n, 0 <= n -> zlen (malloc n) = n) -> vec_ok v -> no_nul k ->
  (forall P post it, it_len it <> 0 -> on_value P (BBinary 9 (vec_data v)) post it ->
    writes (fun h b => bson_append_array_from_vector malloc h b k (zlen k) it) [(k, BArray (numbered (vec_values v)))]) /\
  (forall h b pre d tail key kl apre e rest len it, stored h b pre d tail -> key_arg key kl k ->
    wf_elems e -> len = zlen apre + zlen (enc_elems e) + 1 -> at_pos apre (enc_elems e ++ x00 :: rest) len it ->
    exists error h' b', vector_from_array malloc v h b key kl it = Some (error, h', b') /\
    match vector_of v e with
    | inl code => has_error error code /\ h' = h /\ b' = b
    | inr w =>
        if fits h b (zlen (enc_elems [vector_elem k w]))
        then error = None /\ exists tail', stored h' b' pre (d ++ [vector_elem k w]) tail' /\ extended h b h' b'
        else has_error error BSON_VECTOR_ERROR_MAX_SIZE /\ h' = h /\ b' = b
    end) /\
  (no_signals v -> vector_of v (numbered (vec_values v)) = inr v).
Proof.
  intros Hm Hv Hk. split; [|split].
  - intros P post it Hl Hon. by eapply array_from_vector.
  - intros h b pre d tail key kl apre e rest len it Hst Hka Hwf Hl Hat.
    destruct v as [l|l|l]; cbn [vector_from_array vector_of]; apply appends_of_kind;
      [eapply int8_from_array_spec|eapply float32_from_array_spec|eapply packed_bit_from_array_spec]; done.
  - apply vector_of_values.
Qed.

(** The vector of one and minus infinity, as an element of a document and as an array. *)
Definition floats : vec := VFloat32 [0x3f800000; 0xff800000].
Definition doubles : doc := [(txt "0", BDouble 0x3ff0000000000000); (txt "1", BDouble 0xfff0000000000000)].
Definition at_floats : bson_iter_t := elem_iter (le_bytes 4 0) (txt "b", BBinary 9 (vec_data floats)) [x00] 23.

Lemma floats_ok : vec_ok floats /\ no_signals floats.
Proof.
  split; repeat constructor; try (unfold is_u32; lia); try (by vm_compute); intros _; by left.
Qed.
Lemma doubles_wf : wf_elems doubles.
Proof. unfold doubles. repeat constructor; cbn [fst snd]; try (apply no_nulb_spec; reflexivity); by vm_compute. Qed.
Lemma doubles_eq : doubles = numbered (vec_values floats).
Proof. vm_compute. reflexivity. Qed.
Lemma from_array_floats malloc : vector_from_array malloc floats = bson_append_vector_float32_from_array malloc.
Proof. reflexivity. Qed.
Lemma from_array_bits malloc : vector_from_array malloc (VBits []) = bson_append_vector_packed_bit_from_array malloc.
Proof. reflexivity. Qed.

Lemma vector_array_roundtrip_sample :
  (exists h' b' tail', bson_append_array_from_vector zeros empty_heap fresh (txt "k") 1 at_floats = Some (true, h', b') /\
    stored h' b' [] ([] ++ [(txt "k", BArray doubles)]) tail') /\
  (exists h' b' tail', bson_append_vector_float32_from_array zeros empty_heap fresh key_k (-1) (iter_start (enc_doc doubles ++ []) (zlen (enc_doc doubles))) =
      Some (None, h', b') /\ stored h' b' [] ([] ++ [(txt "k", BBinary 9 (vec_data floats))]) tail') /\
  (exists error, bson_append_vector_packed_bit_from_array zeros empty_heap fresh key_k (-1) (iter_start (enc_doc doubles ++ []) (zlen (enc_doc doubles))) =
      Some (error, empty_heap, fresh) /\ has_error error BSON_VECTOR_ERROR_ARRAY_ELEMENT_TYPE).
Proof.
  assert (Hk : no_nul (txt "k")) by (apply no_nulb_spec; reflexivity).
  assert (Hat : at_pos (le_bytes 4 (zlen (enc_doc doubles))) (enc_elems doubles ++ x00 :: []) (zlen (enc_doc doubles)) (iter_start (enc_doc doubles ++ []) (zlen (enc_doc doubles)))).
  { apply at_pos_start. vm_compute. reflexivity. }
  destruct (vector_array_roundtrip zeros floats (txt "k") zlen_zeros (proj1 floats_ok) Hk) as (H1 & H2 & H3).
  destruct (vector_array_roundtrip zeros (VBits []) (txt "k") zlen_zeros I Hk) as (_ & H4 & _).
  split; [|split].
  - destruct (H1 (le_bytes 4 0 ++ [z2b 5] ++ txt "b" ++ [x00]) [x00] at_floats) with (h := empty_heap) (b := fresh) (pre := @nil byte) (d := @nil elem) (tail := zeros 115) (n := 1000)
      as (h' & b' & tail' & E & Hst & _).
    + vm_compute. discriminate.
    + apply (elem_iter_on_value (le_bytes 4 0) (txt "b", BBinary 9 (vec_data floats)) [x00] 23); [split; [by apply no_nulb_spec|by vm_compute]|by vm_compute].
    + exact fresh_stored.
    + exact fresh_writable.
    + vm_compute. discriminate.
    + exists h', b', tail'. rewrite doubles_eq. split; [exact E|exact Hst].
  - destruct (H2 empty_heap fresh [] [] (zeros 115) key_k (-1) _ doubles [] _ _ fresh_stored key_k_arg doubles_wf eq_refl Hat) as (e & h' & b' & E & H).
    rewrite from_array_floats in E.
    assert (Hv : vector_of floats doubles = inr floats) by (rewrite doubles_eq; exact (H3 (proj2 floats_ok))). rewrite Hv in H.
    assert (Hf : fits empty_heap fresh (zlen (enc_elems [vector_elem (txt "k") floats])) = true) by (vm_compute; reflexivity).
    rewrite Hf in H. destruct H as (-> & tail' & Hst & _). exists h', b', tail'. split; [exact E|exact Hst].
  - destruct (H4 empty_heap fresh [] [] (zeros 115) key_k (-1) _ doubles [] _ _ fresh_stored key_k_arg doubles_wf eq_refl Hat) as (e & h' & b' & E & H).
    rewrite from_array_bits in E.
    assert (Hv : vector_of (VBits []) doubles = inl BSON_VECTOR_ERROR_ARRAY_ELEMENT_TYPE) by (vm_compute; reflexivity).
    rewrite Hv in H. destruct H as (He & -> & ->). exists e. split; [exact E|exact He].
Defined.

(** ** An element that is not a vector *)

(** The array is opened before the element is looked at: [bson_append_array_from_vector] on a
    null, with room in the document, answers false and leaves an empty array under the
    key. *)
Example not_a_vector :
  (r ← bson_append_array_from_vector zeros empty_heap fresh (txt "k") 1 (elem_iter (le_bytes 4 0) (txt "b", BNull) [x00] 8);
   '(ok, h, b) ← Some r; d ← _bson_data h b; Some (ok, take (Z.to_nat (b_len b)) d)) =
  Some (false, enc_doc [(txt "k", BArray [])]).
Proof. vm_compute. reflexivity. Qed.
(** The offset of [bson_vector_int8_view_read] is a [uint32_t]: asked for the element
    [2 ^ 32] of a vector of two, it reads the first. *)
Example int8_view_read_wraps :
  (v ← bson_vector_int8_view_init (vec_data (VInt8 (bs [7; 8]))) 4; v ← v; bson_vector_int8_view_read v 1 (2 ^ 32)) = Some (Some (bs [7])) /\
  (v ← bson_vector_int8_const_view_init (vec_data (VInt8 (bs [7; 8]))) 4; v ← v; bson_vector_int8_const_view_read v 1 (2 ^ 32)) = Some None.
Proof. split; vm_compute; reflexivity. Qed.
